(* ===== verification/_CoqProject ===== *)
-Q . S2P
Prelude.v
Ranges.v
Tailq.v
Bitstring.v
Bpf.v
Sbuf.v
Blist.v
BlistLeaf.v
BlistTree.v
BlistOps.v
BlistFree.v
BlistInit.v
BlistProps.v
Sums.v
Mutex.v
MutexInv.v
MutexSteps.v
MutexProps.v
FdTable.v
FdTree.v
FdLemmas.v
FdProps.v
FdClose.v
Rman.v
RmanLemmas.v
RmanProps.v
Lockf.v
LockfLists.v
LockfClip.v
LockfEffect.v
LockfGrant.v
LockfScan.v
LockfReplace.v
LockfState.v
LockfInv.v
LockfSet.v
LockfWorld.v
LockfProps.v
Qsort.v
QsortProps.v
Quad.v
QuadDiv.v
QuadProps.v
Strtol.v
StrtolProps.v
Libstr.v
LibstrProps.v
Seq.v
Sack.v
SackInv.v
SackUpdate.v
SackSend.v
SackProps.v
Sackrep.v
SackrepHist.v
SackrepReport.v
Reass.v
ReassInv.v
ReassSeg.v
ReassInput.v
ReassWorld.v
ReassReach.v
ReassProps.v
Lockmgr.v
LockmgrInv.v
LockmgrSteps.v
LockmgrReach.v
LockmgrProps.v
Unit.v
UnitRep.v
UnitNorm.v
UnitOps.v
UnitFree.v
UnitSpec.v
UnitProps.v
Systimer.v
SystimerProps.v
Crc.v
CrcProps.v
