(* ===== verification/Prelude.v ===== *)
(** * A verification of core parts of the DragonFly BSD kernel

    The repository is a complete BSD system: the kernel (sys/), the C library
    and the user programs.  This development models, in Rocq, parts of the
    kernel that keep data structures of their own and that everything else
    relies on, and proves that they are correct.

    ** The parts and the files

    - The packet filter of the Berkeley packet filter (sys/net/bpf_filter.c):
      Bpf.v.  Filter programs come from user processes; bpf_validate checks
      them once, and bpf_filter runs them on every packet, a contiguous buffer
      or a chain of mbufs.  One definition per group of opcodes, a [step] for
      the body of the loop, [run] for the loop.
    - String buffers (sys/kern/subr_sbuf.c): Sbuf.v.  The record [sbuf] has
      the fields of struct sbuf; every function of the kernel build is a
      definition of the same name.
    - The radix tree block allocator (sys/kern/subr_blist.c), which hands out
      swap space to the swap pager: Blist.v has the code; the tree lives in a
      flat array, as in C.  BlistLeaf.v proves the bitmap operations of a
      leaf, BlistTree.v gives the meaning of a subtree of the array,
      BlistOps.v, BlistFree.v and BlistInit.v prove allocation, freeing and
      filling, and construction, BlistProps.v states the results.  Ranges.v
      has the counting lemmas that the allocators share.
    - Mutexes (sys/kern/kern_mutex.c, sys/sys/mutex2.h): Mutex.v is a step
      machine in which every access to shared memory of every thread is one
      step, so that theorems about reachable states are about all
      interleavings.  MutexInv.v has the arithmetic of the lock word
      and the invariant, MutexSteps.v that every step keeps it,
      MutexProps.v the results.  Sums.v has the sums over threads that both
      kinds of locks use.
    - The lock manager (sys/kern/kern_lock.c, sys/sys/lock.h), the
      shared/exclusive locks of buffers and vnodes: Lockmgr.v is a step
      machine of the same kind for lockmgr with all its request types,
      undo_upreq and lockmgr_kernproc, with the sleep queue, signals and
      timeouts.  LockmgrInv.v and LockmgrSteps.v are as for the mutex, LockmgrReach.v has the calls that a thread may make and the
      reachable worlds, LockmgrProps.v the results.
    - The file descriptor table (sys/kern/kern_descrip.c): FdTable.v has the
      code, FdTree.v the shape of the in-place tree of counts, FdLemmas.v the
      correctness of the operations, FdProps.v the results.  FdClose.v has the
      operations on top of them, with their theorems: lookup, close and
      closefrom, fcntl, the descriptors that exec closes, and fdcheckstd.
    - The bus resource manager (sys/kern/subr_rman.c): Rman.v has the code,
      with resources as objects in a heap, RmanLemmas.v the correctness of
      the operations, RmanProps.v the results.
    - Advisory byte-range locks (sys/kern/kern_lockf.c): Lockf.v has the code,
      with ranges as objects in a heap.  lf_setlock is cut where it sleeps:
      a call that sleeps is a value [sleeper] with its local variables, and
      lf_woken and lf_awake continue it.  LockfLists.v, LockfScan.v,
      LockfClip.v, LockfReplace.v and LockfGrant.v prove the parts of
      lf_setlock, with LockfEffect.v for what a list of ranges means byte by
      byte; LockfInv.v, LockfState.v and LockfSet.v have the invariant of a
      lockf structure and that a call keeps it; LockfWorld.v is the step
      relation of calls, wakeups and signals in any order, and LockfProps.v
      states the results.
    - The C support routines of the kernel (sys/libkern): Qsort.v has kqsort
      and kbsearch on the bytes of an array, with QsortProps.v; Quad.v the
      64-bit arithmetic for 32-bit machines, with QuadDiv.v for the division
      by Knuth's algorithm D and QuadProps.v; Strtol.v the reading of numbers
      and ksprintn of sys/kern/subr_prf.c, with StrtolProps.v; Libstr.v the
      string functions, with LibstrProps.v; Crc.v the two checksums and their
      tables, with CrcProps.v.
    - TCP, the selective acknowledgements (sys/netinet/tcp_sack.c) and the way
      of received data (tcp_input.c).  Seq.v has the comparison of sequence
      numbers.  Sack.v is the scoreboard of the sender, with its blocks as
      objects in a heap; SackInv.v has its invariant, SackUpdate.v and
      SackSend.v prove lookup and insertion, the update by an
      acknowledgement, the sums over the blocks and the choice of the next
      segment, SackProps.v states the results.  Sackrep.v is the report of the
      receiver and tcp_dooptions, with SackrepHist.v and
      SackrepReport.v for the history of reports, the option
      that is written and how it is read.  Reass.v has tcp_reass and the parts
      of tcp_input that trim a segment, deliver its data and process its FIN;
      ReassInv.v says what a queue stands for, ReassSeg.v and
      ReassInput.v prove the parts, ReassWorld.v a whole
      segment, ReassReach.v has the step relation of segments, reports, window
      updates, shutdown and purges in any order, ReassProps.v the results,
      also of both ends together.
    - Unit numbers (sys/kern/subr_unit.c): Unit.v has the code, with runs and
      bitmaps as objects in a heap, a run whose memory becomes a bitmap
      included, and Bitstring.v the macros of include/bitstring.h.  UnitRep.v
      says which numbers the list stands for and has the copying of bits,
      UnitNorm.v proves optimize_unr, and collapse_unr with the normal form
      that it restores, UnitOps.v and UnitFree.v allocation and
      freeing, errors, construction and destruction; UnitSpec.v has the specification, the clients, and the
      threads that share the numbers, UnitProps.v the results.
    - System timers (sys/kern/kern_systimer.c): Systimer.v has the queue of a
      cpu, with timers as objects in a heap, and the interrupt that calls
      their functions; SystimerProps.v proves the parts and has the results.
    - Tail queues of numbered objects (sys/sys/queue.h), as the resource
      manager, the byte-range locks, the scoreboard, the unit numbers and the
      timers use them: Tailq.v.

    The parts meet where they do in the kernel: the filter reads the mbufs of
    a packet, the report that one end of a TCP connection writes is read by
    the other, the swap pager and the drivers are clients of the allocators,
    and are modelled by what they may ask for (arbitrary sequences of
    requests), the unit numbers are shared under a lock of the lock manager,
    whose invariant discharges the assertion of alloc_unrl (the classes Guard
    and GuardLaws of UnitSpec.v are the interface), the functions of timers
    use the timers (the class TimerFunc of SystimerProps.v says how they may),
    and locks serialise the operations of the tables, which is why
    an operation of a table is one function of the model and an operation of a
    mutex is not.

    ** How C is modelled

    Integers are [Z]; where the width matters the conversions [u32], [s32],
    [u64], ... of this file are written where C converts.  Arrays are lists
    with checked access.  A function that can go wrong returns an [outcome]:
    [Done] of a result, or a [Fault], which is a panic, an access outside an
    array, a dereference of a pointer that is not there, an undefined shift, a
    division by zero, or an exhausted loop bound.  Theorems that say that a
    function returns [Done] say therefore that none of this happens.  Error
    codes are ordinary results.

    Loops that are not structural have a bound: the number of instructions for
    the filter (jumps go forward), the bits of an integer for the loops over
    trees, the length of the array or list otherwise.  The theorems prove that
    the bound is not reached: [OutOfFuel] is one of the faults they exclude.

    Code outside the modelled files is a parameter: the drain function of a
    string buffer, with the contract of its manual page as hypothesis; the
    characters that the formatting of kvcprintf emits; which calls of kmalloc
    with M_NOWAIT fail; which files are kqueues; the process structures that
    the byte-range locks read, which owners are processes (POSIX locks) and
    which are open files (flock), and how many locks there are on other files;
    the comparison function of kqsort and kbsearch; the sysctl variables of
    TCP, the size of the send buffer, whether an acknowledgement may be
    delayed, and the stream that the peer sends, which is a function [stream]
    from sequence numbers without wrap-around to bytes, with its end [fin];
    which threads have TDF_DEADLKTREAT set, and when and with which error a
    tsleep of the lock manager ends (one without signals and timeouts ends
    without an error); and [stale], the bytes that the memory of a run holds
    when it becomes a bitmap; the functions of the timers, the counter and the
    conversions of the cputimer.  The sizes are those of x86_64: a bitmap of the
    unit numbers has 248 bits.

    The bounds of TCP: a receive window of at most 2^30 bytes and segments at
    most 2^29 bytes behind it, so that comparisons modulo 2^32 are right
    (the code has the largest window 65535 * 2^14, which is less), and 40 bytes
    of options, which is what the header has.  Of the lock manager: fewer than
    2^27 holds of one lock at a time, which is what the count has bits for.

    ** What is proved

    - Bpf: a program that bpf_validate accepts ends after at most as many
      steps as it has instructions, with a value, without any access outside
      the packet or the scratch memory, on every packet without empty mbufs
      (only a shift by 32 or more is left as undefined behaviour); loads from
      a chain of mbufs read the flattened packet; a filter without half-word
      and indexed loads gives the same verdict on both forms.
    - Sbuf: appending to an auto-extending buffer never fails, a fixed buffer
      keeps the longest prefix and records the error, a drain sees every byte
      once and in order, sections are padded and counted, and what is put in
      is what comes out.
    - Blist: a refinement of a set of free blocks.  Every operation does to
      the set what it is documented to do, the free count is exact, and a
      client that asks for 1 to 32 blocks at a time and frees only what it
      holds never gets a block twice and never runs into a panic.
    - Mutex: mutual exclusion, no failing assertion, no lost waiter and an
      exact count, in every interleaving of the operations without timeouts,
      aborts and downgrades, which do not have these properties.
    - Lock manager: mutual exclusion, the contract of every request on every
      return, no panic but one, no lost wakeup and an exact count, in every
      interleaving, with signals and timeouts.  The contract is claimed for
      the requests that the manual page lock(9) allows and describes as the
      code has them; shared requests, upgrades and downgrades by a thread that
      holds the lock exclusively (more than once, for the last) are left out of it, and theorems say what
      happens there.  The panic that is left, in
      undo_upreq, does happen, and an upgrade whose first sleep fails leaves
      the lock taken for ever.
    - FdTable: a refinement of a function from numbers to contents.  fdalloc
      returns the lowest free descriptor, EMFILE exactly when there is none,
      and ENFILE for users over their quota; dup, close, fork and the flag
      operations change what they should and nothing else, and no assertion
      fails in any reachable table.  A pass of kern_dup that goes back to its
      start does so because another thread has reserved the target.
    - Rman: the segments always partition the managed addresses; a
      reservation takes free addresses of the window only (one address more
      at most, if the window is exactly as long as the request), a release
      gives exactly them back.  This is for managers of one region of
      addresses below 2^32, and requests without alignment and sharing: the
      code is wrong for the others, as the theorems at the end show.
    - Unit numbers: a refinement of a set of flags from which the lowest free
      number is taken, for every sequence of calls, with the consistency check
      of DIAGNOSTIC as part of the code; threads under the lock never get the
      same number; a number that is not allocated is never freed; the memory
      is bounded, and none is left when all numbers are released.  The range
      has to have fewer than 2^31 numbers, because its size is an int.
    - System timers: the queue is in the order of the times, across the
      wrap-around of the counter; an interrupt calls the timers that are due,
      in this order, none twice for the same time, and ends with the periodic
      ones in the queue for their next times, the others out of it, and the
      hardware programmed for the first of the queue;
      periodic timers keep their phase.  Times are less than 2^30 counts from
      the present and periods less than 2^29, so that comparisons modulo 2^32
      are right.
    - Lockf: a refinement of a table that says, for every owner and byte, how
      the owner has locked it.  A request changes the table as documented or
      not at all; in every reachable state exclusive locks exclude, a call
      that sleeps is queued behind a lock that holds it up or has been woken
      (the calls of wakeup are part of the state), every operation ends without a fault, no range leaks, and the
      counts that the limits are checked against are exact.
    - libkern: kqsort sorts, and ends and only permutes whatever the
      comparison does; kbsearch finds what is there; the division is the
      quotient and the remainder; numbers are read as the grammar says, clipped
      to their range, and what is printed is read back; strlcpy and strlcat
      keep the longest prefix that fits; the checksums detect short bursts.
    - TCP: what the user reads is the peer's stream, whatever pieces of it come in
      and in whatever order; a segment adds exactly its bytes in the window;
      the report fits into the options, is read as it was written, and says
      nothing that the receiver does not have, so that the sender's scoreboard
      covers only what has arrived; the scoreboard is a refinement of a set of
      bytes, has at most eight blocks, and no operation on it faults as long as
      the blocks of the peer do not start above snd_max; the choice of the
      next segment is determined, and the estimate of the data in flight is
      that of RFC 3517, except in limited transmit.  The limits of the code
      that these theorems exclude are theorems themselves: a FIN behind the
      window, a history of reports that is 2^31 bytes old, a block that starts
      above snd_max.

    Each property has the number C<n> of its doc comment.  Theorems about
    inputs on which the code does not do what it is meant to do are at the end
    of each file.

    ** What is not modelled, and the plan

    Interrupts, memory ordering weaker than sequential consistency, the
    content of files and devices, and everything in the kernel that is not
    named above.  In kern_descrip.c: struct file and its reference counts,
    the fcntl commands that act on files, ownership of signals, revoke.  In
    kern_lockf.c: setuid, which moves counts between users while locks are
    held, is not a step of the reachable states, and other files are counted
    but do not change.  Of the descriptor table and the
    resource manager only sequences of whole operations are modelled, because
    they run under a lock; fdgrow_locked gives fd_spin up while it takes
    memory and tests the size again, and what other threads do to the table
    meanwhile is not modelled.  Of a mutex the stores that start a handed-over
    request (the link state, the queue and mtx_owner) are one step.  Output for debugging and statistics is left out.

    Of the unit numbers a call of alloc_unrl or free_unr by the holder of the
    lock is one step, and the memory that free_unr takes before it has the lock
    is taken in that step.  Of the system timers the queue of one cpu is modelled;
    a request of another cpu is an addition on this one.

    In libkern: random numbers, fnmatch and the functions that only wrap
    others.  In TCP: header prediction, the processing of acknowledgements and
    windows, connection setup, urgent data, timers, and what tcp_input drops
    before and between the modelled parts; a segment that is dropped there is
    one that does not come in.  The reader of the socket buffer is left out, so
    that the buffer holds all that was delivered.

    Next: the sharing lists of the resource manager as an invariant; the
    pointers of the ring of mutex waiters; sys/kern/subr_alist.c; the
    processing of acknowledgements in tcp_input and tcp_sack_rexmt. *)

From stdpp Require Import prelude list strings numbers.
#[global] Open Scope Z_scope.

(** ** Outcomes: results and faults of C code *)

(** Everything that can go wrong while a C function runs.  [Panic] is a call
    of panic(9) or a failed KKASSERT; the others are reads or writes the C
    abstract machine gives no meaning to. *)
Inductive fault :=
  | Panic (site : string)
  | OutOfBounds
  | NullDeref
  | UndefinedShift
  | DivideByZero
  | OutOfFuel.

Inductive outcome (A : Type) :=
  | Done (a : A)
  | Fault (f : fault).
Arguments Done {_} _.
Arguments Fault {_} _.

#[export] Instance fault_eq_dec : EqDecision fault.
Proof. solve_decision. Defined.

#[export] Instance outcome_ret : MRet outcome := fun A a => Done a.
#[export] Instance outcome_bind : MBind outcome :=
  fun A B k m => match m with Done a => k a | Fault f => Fault f end.

Lemma bind_Done {A B} (m : outcome A) (k : A -> outcome B) b :
  m ≫= k = Done b <-> exists a, m = Done a /\ k a = Done b.
Proof. destruct m; simpl; naive_solver. Qed.

Lemma bind_Done_l {A B} (a : A) (k : A -> outcome B) : Done a ≫= k = k a.
Proof. reflexivity. Qed.

Lemma bind_Fault {A B} (m : outcome A) (k : A -> outcome B) f :
  m ≫= k = Fault f <-> m = Fault f \/ exists a, m = Done a /\ k a = Fault f.
Proof. destruct m; simpl; naive_solver. Qed.

(** [inv_bind]: turn every hypothesis [m ≫= k = Done b] into its two parts. *)
Ltac inv_bind :=
  repeat match goal with
  | H : _ ≫= _ = Done _ |- _ =>
      apply bind_Done in H; destruct H as (? & ? & H)
  | H : mret _ = Done _ |- _ => unfold mret, outcome_ret in H
  | H : Done _ = Done _ |- _ => injection H as H
  end.

(** KKASSERT(e): panics when [e] is false. *)
Definition KKASSERT (site : string) (e : bool) : outcome unit :=
  if e then Done tt else Fault (Panic site).
Arguments KKASSERT site%_string_scope e.
Arguments Panic site%_string_scope.

(** ** Machine integers *)

(** A w-bit unsigned value is a [Z] in [0, 2^w); a signed one is a [Z] in
    [-2^(w-1), 2^(w-1)).  The functions below are the C conversions. *)
Definition u8 (z : Z) : Z := z mod 2 ^ 8.
Definition u16 (z : Z) : Z := z mod 2 ^ 16.
Definition u32 (z : Z) : Z := z mod 2 ^ 32.
Definition u64 (z : Z) : Z := z mod 2 ^ 64.
Definition s8 (z : Z) : Z := (z + 2 ^ 7) mod 2 ^ 8 - 2 ^ 7.
Definition s32 (z : Z) : Z := (z + 2 ^ 31) mod 2 ^ 32 - 2 ^ 31.
Definition s64 (z : Z) : Z := (z + 2 ^ 63) mod 2 ^ 64 - 2 ^ 63.

Definition is_u8 (z : Z) : Prop := 0 <= z < 2 ^ 8.
Definition is_u16 (z : Z) : Prop := 0 <= z < 2 ^ 16.
Definition is_u32 (z : Z) : Prop := 0 <= z < 2 ^ 32.
Definition is_u64 (z : Z) : Prop := 0 <= z < 2 ^ 64.
Definition is_s32 (z : Z) : Prop := - 2 ^ 31 <= z < 2 ^ 31.
Definition is_s64 (z : Z) : Prop := - 2 ^ 63 <= z < 2 ^ 63.

Ltac unfold_int :=
  unfold is_u8, is_u16, is_u32, is_u64, is_s32, is_s64,
    u8, u16, u32, u64, s8, s32, s64 in *.

Lemma u32_range z : is_u32 (u32 z).
Proof. unfold_int. apply Z.mod_pos_bound. lia. Qed.

Lemma s32_range z : is_s32 (s32 z).
Proof. unfold_int. pose proof (Z.mod_pos_bound (z + 2 ^ 31) (2 ^ 32)). lia. Qed.

Lemma u32_id z : is_u32 z -> u32 z = z.
Proof. unfold_int. apply Z.mod_small. Qed.

Lemma u64_id z : is_u64 z -> u64 z = z.
Proof. unfold_int. apply Z.mod_small. Qed.

Lemma s32_id z : is_s32 z -> s32 z = z.
Proof. unfold_int. intros. rewrite Z.mod_small; lia. Qed.

Lemma s64_id z : is_s64 z -> s64 z = z.
Proof. unfold_int. intros. rewrite Z.mod_small; lia. Qed.

(** Storing an unsigned word in a signed variable and reading it back. *)
Lemma u32_s32 z : u32 (s32 z) = u32 z.
Proof.
  unfold u32, s32. rewrite Zminus_mod_idemp_l. f_equal. lia.
Qed.

(** ** Arrays: bounds-checked access with a [Z] index *)

Definition aget {A} (l : list A) (i : Z) : outcome A :=
  if i <? 0 then Fault OutOfBounds
  else match l !! Z.to_nat i with Some x => Done x | None => Fault OutOfBounds end.

Definition aput {A} (l : list A) (i : Z) (x : A) : outcome (list A) :=
  if (0 <=? i) && (i <? Z.of_nat (length l))
  then Done (<[Z.to_nat i := x]> l) else Fault OutOfBounds.

Definition zlen {A} (l : list A) : Z := Z.of_nat (length l).

Lemma zlen_app {A} (l k : list A) : zlen (l ++ k) = zlen l + zlen k.
Proof. unfold zlen. rewrite length_app. lia. Qed.

Lemma zlen_cons {A} (x : A) l : zlen (x :: l) = 1 + zlen l.
Proof. unfold zlen. simpl length. lia. Qed.

Lemma zlen_nonneg {A} (l : list A) : 0 <= zlen l.
Proof. unfold zlen. lia. Qed.

Lemma aget_Done {A} (l : list A) i x :
  aget l i = Done x <-> 0 <= i /\ l !! Z.to_nat i = Some x.
Proof.
  unfold aget. destruct (Z.ltb_spec i 0).
  - split; [done | intros []; lia].
  - destruct (l !! Z.to_nat i); naive_solver.
Qed.

Lemma aget_in_bounds {A} (l : list A) i :
  0 <= i < zlen l -> exists x, aget l i = Done x.
Proof.
  intros [Hi Hl]. unfold zlen in Hl.
  destruct (lookup_lt_is_Some_2 l (Z.to_nat i)) as [x Hx]; [lia |].
  exists x. by apply aget_Done.
Qed.

Lemma aget_bounds {A} (l : list A) i x : aget l i = Done x -> 0 <= i < zlen l.
Proof.
  intros [Hi Hx]%aget_Done. apply lookup_lt_Some in Hx. unfold zlen. lia.
Qed.

Lemma aget_app_l {A} (l k : list A) i : i < zlen l -> aget (l ++ k) i = aget l i.
Proof.
  intros. unfold aget, zlen in *. destruct (Z.ltb_spec i 0); [done |].
  rewrite lookup_app_l; [done | lia].
Qed.

Lemma aget_app_r {A} (l k : list A) i :
  zlen l <= i -> aget (l ++ k) i = aget k (i - zlen l).
Proof.
  intros. unfold aget, zlen in *.
  destruct (Z.ltb_spec i 0); [lia |].
  destruct (Z.ltb_spec (i - Z.of_nat (length l)) 0); [lia |].
  rewrite lookup_app_r by lia.
  by replace (Z.to_nat i - length l)%nat with (Z.to_nat (i - Z.of_nat (length l))) by lia.
Qed.

Lemma aput_Done {A} (l : list A) i x l' :
  aput l i x = Done l' <-> 0 <= i < zlen l /\ l' = <[Z.to_nat i := x]> l.
Proof.
  unfold aput, zlen. destruct (0 <=? i) eqn:?, (i <? Z.of_nat (length l)) eqn:?;
    simpl; split; intros; try naive_solver lia.
Qed.

Lemma aput_in_bounds {A} (l : list A) i x :
  0 <= i < zlen l -> aput l i x = Done (<[Z.to_nat i := x]> l).
Proof. intros. by apply aput_Done. Qed.

Lemma zlen_insert {A} (l : list A) i x : zlen (<[i := x]> l) = zlen l.
Proof. unfold zlen. by rewrite length_insert. Qed.

Lemma aget_insert_eq {A} (l : list A) i x :
  0 <= i < zlen l -> aget (<[Z.to_nat i := x]> l) i = Done x.
Proof.
  intros. apply aget_Done. split; [lia |].
  apply list_lookup_insert_eq. unfold zlen in *. lia.
Qed.

Lemma aget_insert_ne {A} (l : list A) i j x :
  0 <= i -> 0 <= j -> i <> j -> aget (<[Z.to_nat i := x]> l) j = aget l j.
Proof.
  intros. unfold aget. destruct (Z.ltb_spec j 0); [done |].
  rewrite list_lookup_insert_ne by lia. done.
Qed.

(** The C string at the start of a byte array: what precedes the first NUL. *)
Fixpoint cstr (l : list Z) : list Z :=
  match l with
  | [] => []
  | c :: l => if c =? 0 then [] else c :: cstr l
  end.

Lemma cstr_app_nul (s l : list Z) : Forall (fun c => c <> 0) s -> cstr (s ++ 0 :: l) = s.
Proof.
  induction 1 as [| c s Hc _ IH]; simpl; [done |].
  by rewrite (proj2 (Z.eqb_neq c 0) Hc), IH.
Qed.

Lemma map_u8_id s : Forall is_u8 s -> map u8 s = s.
Proof.
  induction 1 as [| c s Hc _ IH]; simpl; [done |].
  rewrite IH. f_equal. unfold_int. by apply Z.mod_small.
Qed.

(** ** Boolean tests *)

(** C's [x & m] used as a condition. *)
Definition btest (x m : Z) : bool := negb (Z.land x m =? 0).

Lemma btest_lor x y m : btest (Z.lor x y) m = btest x m || btest y m.
Proof.
  unfold btest. rewrite Z.land_lor_distr_l.
  destruct (Z.eqb_spec (Z.land x m) 0) as [->|Hx]; simpl.
  - by rewrite Z.lor_0_l.
  - destruct (Z.eqb_spec (Z.lor (Z.land x m) (Z.land y m)) 0) as [E|]; [| done].
    apply Z.lor_eq_0_iff in E. tauto.
Qed.

Lemma btest_ldiff_disjoint x y m : Z.land y m = 0 -> btest (Z.ldiff x y) m = btest x m.
Proof.
  intros H. unfold btest. do 2 f_equal. apply Z.bits_inj'. intros i Hi.
  apply (f_equal (fun z => Z.testbit z i)) in H.
  rewrite Z.land_spec, Z.bits_0 in H. rewrite !Z.land_spec, Z.ldiff_spec.
  destruct (Z.testbit x i), (Z.testbit y i), (Z.testbit m i); done.
Qed.

Lemma btest_ldiff_same x m : btest (Z.ldiff x m) m = false.
Proof.
  unfold btest. apply negb_false_iff, Z.eqb_eq, Z.bits_inj'. intros i Hi.
  rewrite Z.land_spec, Z.ldiff_spec, Z.bits_0.
  destruct (Z.testbit x i), (Z.testbit m i); done.
Qed.

(** [zbool]: move integer comparisons between [bool] and [Prop]. *)
Ltac zbool :=
  repeat match goal with
  | H : (_ && _) = true |- _ => apply andb_true_iff in H; destruct H
  | H : (_ || _) = false |- _ => apply orb_false_iff in H; destruct H
  | H : negb _ = true |- _ => apply negb_true_iff in H
  | H : negb _ = false |- _ => apply negb_false_iff in H
  | H : (_ =? _) = true |- _ => apply Z.eqb_eq in H
  | H : (_ =? _) = false |- _ => apply Z.eqb_neq in H
  | H : (_ <? _) = true |- _ => apply Z.ltb_lt in H
  | H : (_ <? _) = false |- _ => apply Z.ltb_ge in H
  | H : (_ <=? _) = true |- _ => apply Z.leb_le in H
  | H : (_ <=? _) = false |- _ => apply Z.leb_gt in H
  end.

(** ** Bit operations on bounded values *)

Lemma bits_above n a i : 0 <= a < 2 ^ n -> 0 <= n <= i -> Z.testbit a i = false.
Proof.
  intros Ha Hi. rewrite <- (Z.mod_small a (2 ^ n)) by lia.
  apply Z.mod_pow2_bits_high. lia.
Qed.

Lemma bits_bounded n a :
  0 <= n -> 0 <= a -> (forall i, n <= i -> Z.testbit a i = false) -> a < 2 ^ n.
Proof.
  intros Hn Ha Hb. assert (a mod 2 ^ n = a) as <-.
  - apply Z.bits_inj'. intros i Hi. destruct (Z.lt_ge_cases i n).
    + apply Z.mod_pow2_bits_low. lia.
    + rewrite Z.mod_pow2_bits_high by lia. symmetry. by apply Hb.
  - apply Z.mod_pos_bound. lia.
Qed.

Lemma lor_bounded n a b :
  0 <= n -> 0 <= a < 2 ^ n -> 0 <= b < 2 ^ n -> 0 <= Z.lor a b < 2 ^ n.
Proof.
  intros Hn Ha Hb. assert (0 <= Z.lor a b) by (apply Z.lor_nonneg; lia).
  split; [done |]. apply bits_bounded; try done. intros i Hi.
  rewrite Z.lor_spec, !(bits_above n) by lia. done.
Qed.

Lemma land_bounded_r n a b : 0 <= n -> 0 <= b < 2 ^ n -> 0 <= Z.land a b < 2 ^ n.
Proof.
  intros Hn Hb. assert (0 <= Z.land a b) by (apply Z.land_nonneg; lia).
  split; [done |]. apply bits_bounded; try done. intros i Hi.
  rewrite Z.land_spec, (bits_above n b) by lia. apply andb_false_r.
Qed.

Lemma land_bounded_l n a b : 0 <= n -> 0 <= a < 2 ^ n -> 0 <= Z.land a b < 2 ^ n.
Proof. rewrite Z.land_comm. apply land_bounded_r. Qed.

Lemma shiftl_bounded n k a :
  0 <= n -> 0 <= k -> 0 <= a < 2 ^ n -> 0 <= Z.shiftl a k < 2 ^ (n + k).
Proof.
  intros. rewrite Z.shiftl_mul_pow2, Z.pow_add_r by lia.
  pose proof (Z.pow_pos_nonneg 2 k). nia.
Qed.

Lemma shiftr_bounded n k a :
  0 <= k -> 0 <= a < 2 ^ n -> 0 <= Z.shiftr a k < 2 ^ n.
Proof.
  intros Hk Ha. rewrite Z.shiftr_div_pow2 by lia.
  pose proof (Z.pow_pos_nonneg 2 k). split; [apply Z.div_pos; lia |].
  apply Z.div_lt_upper_bound; nia.
Qed.

(** ** Hints *)

Create HintDb kern.
Create Rewrite HintDb kern.
#[export] Hint Resolve u32_range s32_range zlen_nonneg : kern.
#[export] Hint Rewrite @zlen_app @zlen_cons @zlen_insert u32_s32 @bind_Done_l : kern.

(** ** Words in two parts *)

(** The word with [n] in its low [k] bits and [f] above them. *)
Definition cat (k f n : Z) : Z := f * 2 ^ k + n.

Lemma cat_testbit k f n i :
  0 <= k -> 0 <= n < 2 ^ k -> 0 <= i ->
  Z.testbit (cat k f n) i = if i <? k then Z.testbit n i else Z.testbit f (i - k).
Proof.
  intros Hk Hn Hi. unfold cat. rewrite <- Z.shiftl_mul_pow2 by lia.
  assert (Z.land (Z.shiftl f k) n = 0) as Hd.
  { apply Z.bits_inj'. intros j Hj. rewrite Z.land_spec, Z.bits_0, Z.shiftl_spec by lia.
    destruct (Z.lt_ge_cases j k).
    - by rewrite Z.testbit_neg_r by lia.
    - rewrite (bits_above k n j) by lia. apply andb_false_r. }
  rewrite Z.add_nocarry_lxor by done. rewrite Z.lxor_spec, Z.shiftl_spec by lia.
  destruct (Z.ltb_spec i k).
  - by rewrite (Z.testbit_neg_r f (i - k)), xorb_false_l by lia.
  - rewrite (bits_above k n i), xorb_false_r by lia. done.
Qed.

Section Cat.
Context (k f n g m : Z).
Hypothesis Hk : 0 <= k.
Hypothesis Hn : 0 <= n < 2 ^ k.
Hypothesis Hm : 0 <= m < 2 ^ k.

(** A bitwise operation that keeps 0 and is bounded works on the parts. *)
Lemma cat_op (op : Z -> Z -> Z) (b : bool -> bool -> bool) :
  (forall x y i, 0 <= i -> Z.testbit (op x y) i = b (Z.testbit x i) (Z.testbit y i)) ->
  0 <= op n m < 2 ^ k -> op (cat k f n) (cat k g m) = cat k (op f g) (op n m).
Proof.
  intros Hop Hb. apply Z.bits_inj'. intros i Hi.
  rewrite Hop, !cat_testbit by lia. destruct (Z.ltb_spec i k); rewrite Hop by lia; done.
Qed.

Lemma op_bounded (op : Z -> Z -> Z) (b : bool -> bool -> bool) :
  (forall x y i, 0 <= i -> Z.testbit (op x y) i = b (Z.testbit x i) (Z.testbit y i)) ->
  b false false = false -> 0 <= op n m -> 0 <= op n m < 2 ^ k.
Proof.
  intros Hop Hb H0. split; [done |]. apply bits_bounded; [done | done |]. intros i Hi.
  rewrite Hop, !(bits_above k) by lia. done.
Qed.

Lemma cat_land : Z.land (cat k f n) (cat k g m) = cat k (Z.land f g) (Z.land n m).
Proof.
  apply (cat_op _ andb); [intros; apply Z.land_spec |].
  apply (op_bounded _ andb); [intros; apply Z.land_spec | done | apply Z.land_nonneg; lia].
Qed.

Lemma cat_lor : Z.lor (cat k f n) (cat k g m) = cat k (Z.lor f g) (Z.lor n m).
Proof.
  apply (cat_op _ orb); [intros; apply Z.lor_spec |].
  apply (op_bounded _ orb); [intros; apply Z.lor_spec | done | apply Z.lor_nonneg; lia].
Qed.

Lemma cat_lxor : Z.lxor (cat k f n) (cat k g m) = cat k (Z.lxor f g) (Z.lxor n m).
Proof.
  apply (cat_op _ xorb); [intros; apply Z.lxor_spec |].
  apply (op_bounded _ xorb); [intros; apply Z.lxor_spec | done | apply Z.lxor_nonneg; lia].
Qed.

Lemma cat_ldiff : Z.ldiff (cat k f n) (cat k g m) = cat k (Z.ldiff f g) (Z.ldiff n m).
Proof.
  apply (cat_op _ (fun a b => a && negb b)); [intros; apply Z.ldiff_spec; done |].
  apply (op_bounded _ (fun a b => a && negb b)); [intros; apply Z.ldiff_spec; done | done | apply Z.ldiff_nonneg; lia].
Qed.

End Cat.

Lemma lor_add k f n : 0 <= k -> 0 <= n < 2 ^ k -> Z.lor (f * 2 ^ k) n = f * 2 ^ k + n.
Proof.
  intros Hk Hn. pose proof (cat_lor k f 0 0 n Hk) as E. unfold cat in E.
  rewrite Z.lor_0_r, Z.lor_0_l, Z.add_0_r, Z.mul_0_l, Z.add_0_l in E. apply E; lia.
Qed.

(** ** Arrays in pieces *)

(** Lists brought to the form x ++ y :: z ++ ...; lengths for lia. *)
Ltac lnorm := cbn [app]; repeat (rewrite <- app_assoc; cbn [app]).
Ltac zl := unfold zlen in *; rewrite ?length_app in *; cbn [length] in *; rewrite ?length_app in *; cbn [length] in *; lia.

Section Pieces.
Context {A : Type}.
Implicit Types (l B C X : list A) (x y : A).

Lemma zlen_perm l X : l ≡ₚ X -> zlen l = zlen X.
Proof. unfold zlen. by intros ->. Qed.

Lemma aget_at l i B x C : l = B ++ x :: C -> i = zlen B -> aget l i = Done x.
Proof.
  intros -> ->. rewrite aget_app_r, Z.sub_diag by lia. reflexivity.
Qed.

Lemma aput_at l i y B x C : l = B ++ x :: C -> i = zlen B -> aput l i y = Done (B ++ y :: C).
Proof.
  intros -> ->. rewrite aput_in_bounds by (pose proof (zlen_nonneg B); pose proof (zlen_nonneg C); zl).
  unfold zlen. rewrite Nat2Z.id, insert_app_r_alt, Nat.sub_diag by lia. reflexivity.
Qed.
End Pieces.

(** ** Strings in memory *)

(** The first character of the rest of a string, NUL at its end. *)
Definition hd0 (l : list Z) : Z := default 0 (head l).

(** The memory [str] has the string [l] at [nptr]. *)
Definition string_at (str : list Z) (nptr : Z) (l : list Z) : Prop :=
  exists A C, str = A ++ l ++ 0 :: C /\ nptr = zlen A /\ Forall (fun c => 0 < c < 256) l.

Lemma hd0_cons c l : hd0 (c :: l) = c.
Proof. reflexivity. Qed.

Lemma string_get str p l : string_at str p l -> aget str p = Done (hd0 l).
Proof.
  intros (A & C & -> & -> & _). destruct l as [| c l]; [apply (aget_at _ _ A 0 C) | apply (aget_at _ _ A c (l ++ 0 :: C))]; done.
Qed.

Lemma string_next str p c l : string_at str p (c :: l) -> string_at str (p + 1) l.
Proof.
  intros (A & C & -> & -> & HF). apply Forall_inv_tail in HF. exists (A ++ [c]), C. split_and!; [by lnorm | zl | done].
Qed.

Lemma string_bound str p l : string_at str p l -> (length l < length str)%nat.
Proof. intros (A & C & -> & _). rewrite !length_app. cbn. lia. Qed.
