(* ===== verification/Ranges.v ===== *)
(** * Sets of integers and ranges

    The abstract states of the allocators are sets of block numbers, written
    as boolean functions on [Z].  This file has the range updates on them,
    and the count of elements in a range. *)

From stdpp Require Import prelude list.
From S2P Require Import Prelude.
Open Scope Z_scope.

Definition inr (a c j : Z) : bool := (a <=? j) && (j <? a + c).
Definition set_range (F : Z -> bool) (a c : Z) : Z -> bool := fun j => F j || inr a c j.
Definition clear_range (F : Z -> bool) (a c : Z) : Z -> bool := fun j => F j && negb (inr a c j).
Definition all_in (F : Z -> bool) (a c : Z) : Prop := forall j, a <= j < a + c -> F j = true.
Definition none_in (F : Z -> bool) (a c : Z) : Prop := forall j, a <= j < a + c -> F j = false.

Fixpoint cnt_nat (F : Z -> bool) (a : Z) (n : nat) : Z :=
  match n with
  | O => 0
  | S n => (if F a then 1 else 0) + cnt_nat F (a + 1) n
  end.

(** The number of elements of [F] in [a, a + c). *)
Definition cnt (F : Z -> bool) (a c : Z) : Z := cnt_nat F a (Z.to_nat c).

Lemma inr_spec a c j : inr a c j = true <-> a <= j < a + c.
Proof. unfold inr. rewrite andb_true_iff, Z.leb_le, Z.ltb_lt. done. Qed.

Lemma inr_false a c j : inr a c j = false <-> ~ a <= j < a + c.
Proof. rewrite <- inr_spec. by destruct (inr a c j). Qed.

Lemma set_range_in F a c j : a <= j < a + c -> set_range F a c j = true.
Proof. intros H. unfold set_range. rewrite (proj2 (inr_spec _ _ _) H). apply orb_true_r. Qed.

Lemma set_range_out F a c j : ~ a <= j < a + c -> set_range F a c j = F j.
Proof. intros H. unfold set_range. rewrite (proj2 (inr_false _ _ _) H). apply orb_false_r. Qed.

Lemma clear_range_in F a c j : a <= j < a + c -> clear_range F a c j = false.
Proof. intros H. unfold clear_range. rewrite (proj2 (inr_spec _ _ _) H). apply andb_false_r. Qed.

Lemma clear_range_out F a c j : ~ a <= j < a + c -> clear_range F a c j = F j.
Proof. intros H. unfold clear_range. rewrite (proj2 (inr_false _ _ _) H). apply andb_true_r. Qed.

Lemma clear_range_le F a c j : clear_range F a c j = true -> F j = true.
Proof. by intros [? _]%andb_true_iff. Qed.

Lemma cnt_nat_ext F G a n :
  (forall j, a <= j < a + Z.of_nat n -> F j = G j) -> cnt_nat F a n = cnt_nat G a n.
Proof.
  revert a. induction n as [| n IH]; intros a H; simpl; [done |].
  rewrite (H a) by lia. f_equal. apply IH. intros. apply H. lia.
Qed.

Lemma cnt_ext F G a c :
  (forall j, a <= j < a + c -> F j = G j) -> cnt F a c = cnt G a c.
Proof. intros H. apply cnt_nat_ext. intros. apply H. lia. Qed.

Lemma cnt_nat_app F a n m :
  cnt_nat F a (n + m) = cnt_nat F a n + cnt_nat F (a + Z.of_nat n) m.
Proof.
  revert a. induction n as [| n IH]; intros a; simpl.
  - by rewrite Z.add_0_r.
  - rewrite IH. replace (a + 1 + Z.of_nat n) with (a + Z.of_nat (S n)) by lia. lia.
Qed.

Lemma cnt_split F a c d : 0 <= c -> 0 <= d -> cnt F a (c + d) = cnt F a c + cnt F (a + c) d.
Proof.
  intros. unfold cnt. rewrite Z2Nat.inj_add, cnt_nat_app by lia.
  by rewrite Z2Nat.id by lia.
Qed.

Lemma cnt_0 F a : cnt F a 0 = 0.
Proof. done. Qed.

Lemma cnt_nat_bounds F a n : 0 <= cnt_nat F a n <= Z.of_nat n.
Proof.
  revert a. induction n as [| n IH]; intros a; simpl; [lia |].
  specialize (IH (a + 1)). destruct (F a); lia.
Qed.

Lemma cnt_bounds F a c : 0 <= c -> 0 <= cnt F a c <= c.
Proof. intros. pose proof (cnt_nat_bounds F a (Z.to_nat c)). unfold cnt. lia. Qed.

Lemma cnt_nat_none F a n :
  cnt_nat F a n = 0 <-> forall j, a <= j < a + Z.of_nat n -> F j = false.
Proof.
  revert a. induction n as [| n IH]; intros a; simpl; [split; intros; lia |].
  pose proof (cnt_nat_bounds F (a + 1) n). specialize (IH (a + 1)). split.
  - intros H0 j Hj. destruct (F a) eqn:E; [lia |].
    destruct (decide (j = a)) as [-> |]; [done |]. apply IH; lia.
  - intros Hn. rewrite (Hn a) by lia. simpl. apply IH. intros. apply Hn. lia.
Qed.

Lemma cnt_none F a c : 0 <= c -> cnt F a c = 0 <-> none_in F a c.
Proof.
  intros. unfold cnt, none_in. rewrite cnt_nat_none. by rewrite Z2Nat.id.
Qed.

Lemma cnt_nat_all F a n :
  cnt_nat F a n = Z.of_nat n <-> forall j, a <= j < a + Z.of_nat n -> F j = true.
Proof.
  revert a. induction n as [| n IH]; intros a; simpl; [split; intros; lia |].
  pose proof (cnt_nat_bounds F (a + 1) n). specialize (IH (a + 1)). split.
  - intros H0 j Hj. destruct (F a) eqn:E; [| lia].
    destruct (decide (j = a)) as [-> |]; [done |]. apply IH; lia.
  - intros Hn. rewrite (Hn a) by lia. rewrite (proj2 IH); [lia |]. intros. apply Hn. lia.
Qed.

Lemma cnt_all F a c : 0 <= c -> cnt F a c = c <-> all_in F a c.
Proof.
  intros. unfold cnt, all_in. pose proof (cnt_nat_all F a (Z.to_nat c)) as H0.
  rewrite Z2Nat.id in H0 by done. done.
Qed.

(** A sub-range counts at most as much as the range. *)
Lemma cnt_sub F a c a' c' :
  0 <= c' -> a <= a' -> a' + c' <= a + c -> cnt F a' c' <= cnt F a c.
Proof.
  intros. replace c with ((a' - a) + (c' + (a + c - a' - c'))) by lia.
  rewrite !cnt_split by lia. replace (a + (a' - a)) with a' by lia.
  pose proof (cnt_bounds F a (a' - a)). pose proof (cnt_bounds F (a' + c') (a + c - a' - c')). lia.
Qed.

(** Changing [F] inside a sub-range changes the count by the difference there. *)
Lemma cnt_update F G a c a' c' :
  0 <= c' -> a <= a' -> a' + c' <= a + c ->
  (forall j, a <= j < a + c -> ~ a' <= j < a' + c' -> F j = G j) ->
  cnt G a c = cnt F a c - cnt F a' c' + cnt G a' c'.
Proof.
  intros Hc Ha Hac Hout. replace c with ((a' - a) + (c' + (a + c - a' - c'))) by lia.
  rewrite !cnt_split by lia. replace (a + (a' - a)) with a' by lia.
  rewrite (cnt_ext F G a (a' - a)) by (intros; apply Hout; lia).
  rewrite (cnt_ext F G (a' + c')) by (intros; apply Hout; lia). lia.
Qed.

Lemma cnt_clear F a c a' c' :
  0 <= c' -> a <= a' -> a' + c' <= a + c ->
  cnt (clear_range F a' c') a c = cnt F a c - cnt F a' c'.
Proof.
  intros. rewrite (cnt_update F _ a c a' c') by (done || (intros; by rewrite clear_range_out)).
  rewrite (proj2 (cnt_none (clear_range F a' c') a' c' ltac:(done))); [lia |].
  intros j Hj. by apply clear_range_in.
Qed.

Lemma cnt_set F a c a' c' :
  0 <= c' -> a <= a' -> a' + c' <= a + c -> none_in F a' c' ->
  cnt (set_range F a' c') a c = cnt F a c + c'.
Proof.
  intros Hc Ha Hac Hn. rewrite (cnt_update F _ a c a' c') by (done || (intros; by rewrite set_range_out)).
  rewrite (proj2 (cnt_none F a' c' Hc) Hn).
  rewrite (proj2 (cnt_all (set_range F a' c') a' c' Hc)); [lia |].
  intros j Hj. by apply set_range_in.
Qed.

(** ** The bits of a word as a set *)

Definition bits (b : Z) : Z -> bool := Z.testbit b.

(** [run n c]: the word with bits [n, n + c) set. *)
Definition run (n c : Z) : Z := Z.shiftl (Z.ones c) n.

Lemma run_spec n c j : 0 <= n -> 0 <= c -> 0 <= j -> Z.testbit (run n c) j = inr n c j.
Proof.
  intros. unfold run, inr. rewrite Z.shiftl_spec by lia.
  destruct (Z.leb_spec n j); simpl.
  - destruct (Z.ltb_spec j (n + c)).
    + apply Z.ones_spec_low. lia.
    + apply Z.ones_spec_high. lia.
  - apply Z.testbit_neg_r. lia.
Qed.

Lemma run_bounded n c w : 0 <= n -> 0 <= c -> n + c <= w -> 0 <= run n c < 2 ^ w.
Proof.
  intros. assert (0 <= run n c) by (apply Z.shiftl_nonneg; rewrite Z.ones_equiv; lia).
  split; [done |]. apply bits_bounded; [lia | done |]. intros i Hi.
  rewrite run_spec by lia. apply inr_false. lia.
Qed.

(** (orig & mask) == mask tests whether the whole run is in the set. *)
Lemma land_run b n c :
  0 <= n -> 0 <= c -> Z.land b (run n c) = run n c <-> all_in (bits b) n c.
Proof.
  intros Hn Hc. split.
  - intros E j Hj. apply (f_equal (fun z => Z.testbit z j)) in E.
    rewrite Z.land_spec, run_spec, (proj2 (inr_spec _ _ _)), andb_true_r in E by lia. done.
  - intros H. apply Z.bits_inj'. intros j Hj. rewrite Z.land_spec, run_spec by lia.
    destruct (inr n c j) eqn:E; [| apply andb_false_r].
    apply inr_spec in E. unfold bits in H. by rewrite H.
Qed.

(** (bitmap & mask) != 0 tests whether the run meets the set. *)
Lemma btest_run b n c :
  0 <= n -> 0 <= c -> btest b (run n c) = false <-> none_in (bits b) n c.
Proof.
  intros Hn Hc. unfold btest. rewrite negb_false_iff, Z.eqb_eq. split.
  - intros E j Hj. apply (f_equal (fun z => Z.testbit z j)) in E.
    rewrite Z.land_spec, run_spec, (proj2 (inr_spec _ _ _)), andb_true_r, Z.bits_0 in E by lia. done.
  - intros H. apply Z.bits_inj'. intros j Hj. rewrite Z.land_spec, run_spec, Z.bits_0 by lia.
    destruct (inr n c j) eqn:E; [| apply andb_false_r].
    apply inr_spec in E. unfold bits in H. by rewrite H.
Qed.

(** x &= x - 1 removes the lowest element. *)
Lemma land_pred b :
  0 < b -> exists p, 0 <= p /\ Z.testbit b p = true /\
    forall j, 0 <= j -> Z.testbit (Z.land b (b - 1)) j = Z.testbit b j && negb (j =? p).
Proof.
  destruct b as [| p | p]; [lia | intros _ | lia].
  induction p as [p _ | p IH |].
  - exists 0. split_and!; try done. intros j Hj.
    replace (Z.pos p~1 - 1) with (Z.pos p~0) by lia. rewrite Z.land_spec.
    destruct (Z.eqb_spec j 0) as [-> |]; [done |]. rewrite andb_true_r.
    replace j with (Z.succ (j - 1)) by lia.
    change (Z.pos p~1) with (2 * Z.pos p + 1). change (Z.pos p~0) with (2 * Z.pos p).
    rewrite Z.testbit_odd_succ, Z.testbit_even_succ by lia. by destruct (Z.testbit _ _).
  - destruct IH as (q & Hq & Hbq & Hland). exists (q + 1). split_and!; [lia | |].
    + change (Z.pos p~0) with (2 * Z.pos p). replace (q + 1) with (Z.succ q) by lia.
      by rewrite Z.testbit_even_succ.
    + intros j Hj. change (Z.pos p~0) with (2 * Z.pos p).
      replace (2 * Z.pos p - 1) with (2 * (Z.pos p - 1) + 1) by lia.
      rewrite Z.land_spec. destruct (Z.eqb_spec j 0) as [-> | Hj0].
      { rewrite Z.testbit_even_0. done. }
      replace j with (Z.succ (j - 1)) by lia.
      rewrite Z.testbit_odd_succ, Z.testbit_even_succ by lia.
      rewrite <- Z.land_spec, Hland by lia.
      f_equal. f_equal. destruct (Z.eqb_spec (j - 1) q), (Z.eqb_spec (Z.succ (j - 1)) (q + 1)); done || lia.
  - exists 0. split_and!; try done. intros j Hj. rewrite Z.land_0_r, Z.bits_0.
    destruct (Z.eqb_spec j 0) as [-> |]; [done |].
    rewrite andb_true_r. symmetry. apply (bits_above 1); lia.
Qed.
