(* ===== verification/Tailq.v ===== *)
(** * Tail queues: sys/sys/queue.h

    The TAILQ macros on a queue of objects that are known by number.  A queue
    is the list of the numbers of its elements, each of which occurs once; the
    pointers of the macros are numbers, and NULL is [None]. *)

From stdpp Require Import prelude list.
From S2P Require Import Prelude.

(** TAILQ_INSERT_AFTER, TAILQ_INSERT_BEFORE and TAILQ_REMOVE. *)
Fixpoint insert_after (s x : nat) (l : list nat) : list nat :=
  match l with
  | [] => []
  | y :: l => if Nat.eqb y s then y :: x :: l else y :: insert_after s x l
  end.

Fixpoint insert_before (s x : nat) (l : list nat) : list nat :=
  match l with
  | [] => []
  | y :: l => if Nat.eqb y s then x :: y :: l else y :: insert_before s x l
  end.

Fixpoint tailq_remove (s : nat) (l : list nat) : list nat :=
  match l with
  | [] => []
  | y :: l => if Nat.eqb y s then l else y :: tailq_remove s l
  end.

(** TAILQ_NEXT and TAILQ_PREV. *)
Fixpoint tailq_next (s : nat) (l : list nat) : option nat :=
  match l with
  | [] => None
  | y :: l => if Nat.eqb y s then head l else tailq_next s l
  end.

Fixpoint tailq_prev (prev : option nat) (s : nat) (l : list nat) : option nat :=
  match l with
  | [] => None
  | y :: l => if Nat.eqb y s then prev else tailq_prev (Some y) s l
  end.


(** ** The macros at an element of the queue *)

Section Tailq.
Context (l1 l2 : list nat) (s : nat).
Hypothesis Hs : s ∉ l1.

Lemma insert_after_mid x : insert_after s x (l1 ++ s :: l2) = l1 ++ s :: x :: l2.
Proof.
  induction l1 as [| y l IH]; simpl; [by rewrite Nat.eqb_refl |].
  rewrite (proj2 (Nat.eqb_neq y s)) by set_solver. f_equal. apply IH. set_solver.
Qed.

Lemma insert_before_mid x : insert_before s x (l1 ++ s :: l2) = l1 ++ x :: s :: l2.
Proof.
  induction l1 as [| y l IH]; simpl; [by rewrite Nat.eqb_refl |].
  rewrite (proj2 (Nat.eqb_neq y s)) by set_solver. f_equal. apply IH. set_solver.
Qed.

Lemma tailq_remove_mid : tailq_remove s (l1 ++ s :: l2) = l1 ++ l2.
Proof.
  induction l1 as [| y l IH]; simpl; [by rewrite Nat.eqb_refl |].
  rewrite (proj2 (Nat.eqb_neq y s)) by set_solver. f_equal. apply IH. set_solver.
Qed.

Lemma tailq_next_mid : tailq_next s (l1 ++ s :: l2) = head l2.
Proof.
  induction l1 as [| y l IH]; simpl; [by rewrite Nat.eqb_refl |].
  rewrite (proj2 (Nat.eqb_neq y s)) by set_solver. apply IH. set_solver.
Qed.

Lemma tailq_prev_mid p :
  tailq_prev p s (l1 ++ s :: l2) = match last l1 with Some y => Some y | None => p end.
Proof.
  revert p. induction l1 as [| y l IH]; intros p; cbn [app tailq_prev]; [by rewrite Nat.eqb_refl |].
  rewrite (proj2 (Nat.eqb_neq y s)) by set_solver. rewrite IH by set_solver. rewrite last_cons. by destruct (last l).
Qed.

End Tailq.
