(* ===== verification/Bitstring.v ===== *)
(** * Bit strings: include/bitstring.h

    The macros on arrays of bytes that the unit number allocator uses, and what they do to
    each bit. *)

From stdpp Require Import prelude list.
From S2P Require Import Prelude.
Open Scope Z_scope.

Definition bit_byte (bit : Z) : Z := Z.shiftr bit 3.
Definition bit_mask (bit : Z) : Z := Z.shiftl 1 (Z.land bit 7).

(** name[i] = f(name[i]), stored in an unsigned char *)
Definition upd (name : list Z) (i : Z) (f : Z -> Z) : outcome (list Z) :=
  b ← aget name i; aput name i (u8 (f b)).

Definition bit_test (name : list Z) (bit : Z) : outcome bool :=
  b ← aget name (bit_byte bit); mret (btest b (bit_mask bit)).
Definition bit_set (name : list Z) (bit : Z) : outcome (list Z) :=
  upd name (bit_byte bit) (fun b => Z.lor b (bit_mask bit)).
Definition bit_clear (name : list Z) (bit : Z) : outcome (list Z) :=
  upd name (bit_byte bit) (fun b => Z.land b (Z.lnot (bit_mask bit))).

(** while (++_startbyte < _stopbyte) _name[_startbyte] = v; *)
Fixpoint fill_loop (fuel : nat) (name : list Z) (startbyte stopbyte v : Z) : outcome (list Z) :=
  match fuel with
  | O => Fault OutOfFuel
  | S fuel =>
      let startbyte := startbyte + 1 in
      if startbyte <? stopbyte then name ← aput name startbyte v; fill_loop fuel name startbyte stopbyte v
      else mret name
  end.

Definition bit_nclear (name : list Z) (start stop : Z) : outcome (list Z) :=
  let startbyte := bit_byte start in
  let stopbyte := bit_byte stop in
  if startbyte =? stopbyte then
    upd name startbyte (fun b => Z.land b (Z.lor (Z.shiftr 0xff (8 - Z.land start 7)) (Z.shiftl 0xff (Z.land stop 7 + 1))))
  else
    name ← upd name startbyte (fun b => Z.land b (Z.shiftr 0xff (8 - Z.land start 7)));
    name ← fill_loop (S (length name)) name startbyte stopbyte 0;
    upd name stopbyte (fun b => Z.land b (Z.shiftl 0xff (Z.land stop 7 + 1))).

Definition bit_nset (name : list Z) (start stop : Z) : outcome (list Z) :=
  let startbyte := bit_byte start in
  let stopbyte := bit_byte stop in
  if startbyte =? stopbyte then
    upd name startbyte (fun b => Z.lor b (Z.land (Z.shiftl 0xff (Z.land start 7)) (Z.shiftr 0xff (7 - Z.land stop 7))))
  else
    name ← upd name startbyte (fun b => Z.lor b (Z.shiftl 0xff (Z.land start 7)));
    name ← fill_loop (S (length name)) name startbyte stopbyte 0xff;
    upd name stopbyte (fun b => Z.lor b (Z.shiftr 0xff (7 - Z.land stop 7))).

(** for (_lb = ...; (_lb&0x1); ++_value, _lb >>= 1); *)
Fixpoint ffc_bits (fuel : nat) (lb value : Z) : outcome Z :=
  match fuel with
  | O => Fault OutOfFuel
  | S fuel => if Z.land lb 1 =? 0 then mret value else ffc_bits fuel (Z.shiftr lb 1) (value + 1)
  end.

(** for (_byte = 0; _byte <= _stopbyte; ++_byte) if (_name[_byte] != 0xff) ...; *)
Fixpoint ffc_bytes (fuel : nat) (name : list Z) (byte stopbyte : Z) : outcome Z :=
  match fuel with
  | O => Fault OutOfFuel
  | S fuel =>
      if byte <=? stopbyte then
        b ← aget name byte;
        if b =? 0xff then ffc_bytes fuel name (byte + 1) stopbyte
        else ffc_bits 9 b (Z.shiftl byte 3)
      else mret (-1)
  end.

(** [nbits] is unsigned where the result is compared with it. *)
Definition bit_ffc (name : list Z) (nbits : Z) : outcome Z :=
  value ← (if nbits >? 0 then ffc_bytes (S (length name)) name 0 (bit_byte (nbits - 1)) else mret (-1));
  mret (if u32 value >=? nbits then -1 else value).

(** ** The bits *)

Definition is_map (n : Z) (name : list Z) : Prop := zlen name = n /\ Forall is_u8 name.
Definition mbit (name : list Z) (i : Z) : bool := Z.testbit (name !!! Z.to_nat (i / 8)) (i mod 8).

Lemma bit_byte_div i : bit_byte i = i / 8.
Proof. unfold bit_byte. by rewrite Z.shiftr_div_pow2. Qed.

Lemma bit_low i : Z.land i 7 = i mod 8.
Proof. change 7 with (Z.ones 3). by rewrite Z.land_ones. Qed.

Lemma testbit_ff k : 0 <= k -> Z.testbit 255 k = (k <? 8).
Proof. intros. change 255 with (Z.ones 8). destruct (Z.ltb_spec k 8); [apply Z.ones_spec_low | apply Z.ones_spec_high]; lia. Qed.

Lemma testbit_one k : 0 <= k -> Z.testbit 1 k = (k =? 0).
Proof. intros. change 1 with (2 ^ 0). rewrite Z.pow2_bits_eqb by lia. apply Z.eqb_sym. Qed.

Lemma u8_bit z k : 0 <= k < 8 -> Z.testbit (u8 z) k = Z.testbit z k.
Proof. intros. unfold u8. apply Z.mod_pow2_bits_low. lia. Qed.

Section Map.
Context (n : Z) (name : list Z).
Hypothesis Hm : is_map n name.

Lemma map_get i : 0 <= i < n -> aget name i = Done (name !!! Z.to_nat i).
Proof.
  intros Hi. destruct Hm as [Hl _]. apply aget_Done. split; [lia |]. apply list_lookup_lookup_total_lt. unfold zlen in Hl. lia.
Qed.

Lemma map_u8 i : 0 <= i < n -> is_u8 (name !!! Z.to_nat i).
Proof.
  intros Hi. destruct Hm as [Hl Hf]. eapply Forall_lookup_1; [exact Hf |]. apply list_lookup_lookup_total_lt. unfold zlen in Hl. lia.
Qed.

(** One byte is changed. *)
Lemma upd_ok j f (g : Z -> bool) : 0 <= j < n -> (forall k, 0 <= k < 8 -> Z.testbit (f (name !!! Z.to_nat j)) k = g k) ->
  exists name', upd name j f = Done name' /\ is_map n name' /\ forall i, 0 <= i -> mbit name' i = if i / 8 =? j then g (i mod 8) else mbit name i.
Proof.
  intros Hj Hf. unfold upd. rewrite map_get by done. rewrite bind_Done_l. destruct Hm as [Hl Hf8]. rewrite aput_in_bounds by lia.
  eexists. split; [done |]. split.
  - split; [by rewrite zlen_insert |]. apply Forall_insert; [done |]. unfold_int. apply Z.mod_pos_bound. lia.
  - intros i Hi. unfold mbit. pose proof (Z.mod_pos_bound i 8). destruct (Z.eqb_spec (i / 8) j) as [-> | Hne].
    + rewrite list_lookup_total_insert_eq by (unfold zlen in Hl; lia). rewrite u8_bit by lia. apply Hf. lia.
    + rewrite list_lookup_total_insert_ne; [done |]. assert (0 <= i / 8) by (apply Z.div_pos; lia). lia.
Qed.

Lemma upd_lor j m (g : Z -> bool) : 0 <= j < n -> (forall k, 0 <= k < 8 -> Z.testbit m k = g k) ->
  exists name', upd name j (fun b => Z.lor b m) = Done name' /\ is_map n name' /\ forall i, 0 <= i -> mbit name' i = (i / 8 =? j) && g (i mod 8) || mbit name i.
Proof.
  intros Hj Hg. destruct (upd_ok j (fun b => Z.lor b m) (fun k => Z.testbit (name !!! Z.to_nat j) k || g k) Hj) as (name' & E & H1 & H2); [intros k Hk; by rewrite Z.lor_spec, Hg |].
  exists name'. split_and!; try done. intros i Hi. rewrite H2 by done. unfold mbit. destruct (Z.eqb_spec (i / 8) j) as [-> |]; [apply orb_comm | done].
Qed.

Lemma upd_land j m (g : Z -> bool) : 0 <= j < n -> (forall k, 0 <= k < 8 -> Z.testbit m k = g k) ->
  exists name', upd name j (fun b => Z.land b m) = Done name' /\ is_map n name' /\ forall i, 0 <= i -> mbit name' i = (negb (i / 8 =? j) || g (i mod 8)) && mbit name i.
Proof.
  intros Hj Hg. destruct (upd_ok j (fun b => Z.land b m) (fun k => Z.testbit (name !!! Z.to_nat j) k && g k) Hj) as (name' & E & H1 & H2); [intros k Hk; by rewrite Z.land_spec, Hg |].
  exists name'. split_and!; try done. intros i Hi. rewrite H2 by done. unfold mbit. destruct (Z.eqb_spec (i / 8) j) as [-> |]; [apply andb_comm | done].
Qed.
End Map.

(** A byte is overwritten. *)
Lemma put_ok n name j v : is_map n name -> 0 <= j < n -> is_u8 v ->
  exists name', aput name j v = Done name' /\ is_map n name' /\ forall i, 0 <= i -> mbit name' i = if i / 8 =? j then Z.testbit v (i mod 8) else mbit name i.
Proof.
  intros Hm Hj Hv. destruct (upd_ok n name Hm j (fun _ => v) (fun k => Z.testbit v k) Hj ltac:(done)) as (name' & E & H1 & H2). exists name'. split; [| done].
  unfold upd in E. rewrite (map_get n name Hm) in E by done. rewrite bind_Done_l in E. rewrite <- E. f_equal. unfold_int. by rewrite Z.mod_small.
Qed.

Lemma fill_loop_ok fuel n name a b v : is_map n name -> 0 <= a -> b <= n -> is_u8 v -> b - a <= Z.of_nat fuel -> (0 < fuel)%nat ->
  exists name', fill_loop fuel name a b v = Done name' /\ is_map n name' /\
    forall i, 0 <= i -> mbit name' i = if (a <? i / 8) && (i / 8 <? b) then Z.testbit v (i mod 8) else mbit name i.
Proof.
  revert name a. induction fuel as [| fuel IH]; intros name a Hm Ha Hb Hv Hf Hf0; [lia |]. cbn [fill_loop]. destruct (Z.ltb_spec (a + 1) b) as [H | H].
  - destruct (put_ok n name (a + 1) v Hm ltac:(lia) Hv) as (name1 & -> & H1 & H2). rewrite bind_Done_l.
    destruct (IH name1 (a + 1) H1 ltac:(lia) Hb Hv ltac:(lia) ltac:(lia)) as (name2 & -> & H3 & H4). exists name2. split_and!; try done.
    intros i Hi. rewrite H4, H2 by done. destruct (Z.ltb_spec (a + 1) (i / 8)), (Z.ltb_spec a (i / 8)), (Z.ltb_spec (i / 8) b), (Z.eqb_spec (i / 8) (a + 1)); cbn [andb]; done || lia.
  - exists name. split_and!; try done. intros i Hi. destruct (Z.ltb_spec a (i / 8)), (Z.ltb_spec (i / 8) b); cbn [andb]; done || lia.
Qed.

Section Ops.
Context (n : Z) (name : list Z).
Hypothesis Hm : is_map n name.

Lemma bit_range i : 0 <= i < 8 * n -> 0 <= bit_byte i < n.
Proof. intros H. rewrite bit_byte_div. split; [apply Z.div_pos; lia | apply Z.div_lt_upper_bound; lia]. Qed.

Lemma bit_test_ok i : 0 <= i < 8 * n -> bit_test name i = Done (mbit name i).
Proof.
  intros Hi. unfold bit_test. rewrite (map_get n name Hm) by (by apply bit_range). rewrite bind_Done_l. unfold mbit, btest, bit_mask. rewrite bit_byte_div, bit_low.
  set (b := name !!! _). rewrite Z.shiftl_1_l. pose proof (Z.mod_pos_bound i 8 ltac:(lia)). unfold mret, outcome_ret. f_equal.
  destruct (Z.testbit b (i mod 8)) eqn:E.
  - apply negb_true_iff, Z.eqb_neq. intros E0. apply (f_equal (fun z => Z.testbit z (i mod 8))) in E0. rewrite Z.land_spec, E, Z.pow2_bits_true, Z.bits_0 in E0 by lia. done.
  - apply negb_false_iff, Z.eqb_eq, Z.bits_inj'. intros k Hk. rewrite Z.land_spec, Z.pow2_bits_eqb, Z.bits_0 by lia. destruct (Z.eqb_spec (i mod 8) k) as [<- |]; [by rewrite E | apply andb_false_r].
Qed.

Lemma same_bit i j : 0 <= i -> (i / 8 =? j / 8) && (i mod 8 =? j mod 8) = (i =? j).
Proof.
  intros. pose proof (Z.div_mod i 8 ltac:(lia)). pose proof (Z.div_mod j 8 ltac:(lia)). destruct (Z.eqb_spec (i / 8) (j / 8)), (Z.eqb_spec (i mod 8) (j mod 8)), (Z.eqb_spec i j); subst; cbn; done || lia.
Qed.

Lemma mask_bit j k : 0 <= k -> Z.testbit (bit_mask j) k = (k =? j mod 8).
Proof. intros. unfold bit_mask. rewrite bit_low, Z.shiftl_1_l, Z.pow2_bits_eqb by (apply Z.mod_pos_bound; lia). apply Z.eqb_sym. Qed.

Lemma bit_set_ok j : 0 <= j < 8 * n -> exists name', bit_set name j = Done name' /\ is_map n name' /\ forall i, 0 <= i -> mbit name' i = (i =? j) || mbit name i.
Proof.
  intros Hj. destruct (upd_lor n name Hm (bit_byte j) (bit_mask j) (fun k => k =? j mod 8) (bit_range j Hj)) as (name' & E & H1 & H2); [intros; apply mask_bit; lia |].
  exists name'. split_and!; try done. intros i Hi. rewrite H2, bit_byte_div, same_bit by done. done.
Qed.

Lemma bit_clear_ok j : 0 <= j < 8 * n -> exists name', bit_clear name j = Done name' /\ is_map n name' /\ forall i, 0 <= i -> mbit name' i = negb (i =? j) && mbit name i.
Proof.
  intros Hj. destruct (upd_land n name Hm (bit_byte j) (Z.lnot (bit_mask j)) (fun k => negb (k =? j mod 8)) (bit_range j Hj)) as (name' & E & H1 & H2); [intros; by rewrite Z.lnot_spec, mask_bit by lia |].
  exists name'. split_and!; try done. intros i Hi. rewrite H2, bit_byte_div by done. by rewrite <- negb_andb, same_bit by done.
Qed.

(** The masks of the first and of the last byte. *)
Lemma mask_from a k : 0 <= a -> 0 <= k < 8 -> Z.testbit (Z.shiftl 255 a) k = (a <=? k).
Proof. intros. rewrite Z.shiftl_spec by lia. destruct (Z.leb_spec a k); [rewrite testbit_ff by lia; apply Z.ltb_lt; lia | apply Z.testbit_neg_r; lia]. Qed.

Lemma mask_upto a k : 0 <= a -> 0 <= k < 8 -> Z.testbit (Z.shiftr 255 a) k = (k + a <? 8).
Proof. intros. rewrite Z.shiftr_spec by lia. apply testbit_ff. lia. Qed.

Lemma bit_parts i : i = 8 * (i / 8) + i mod 8 /\ 0 <= i mod 8 < 8.
Proof. split; [apply Z.div_mod; lia | apply Z.mod_pos_bound; lia]. Qed.

Ltac parts i a b := pose proof (bit_parts i); pose proof (bit_parts a); pose proof (bit_parts b);
  repeat match goal with
  | |- context [?x <=? ?y] => destruct (Z.leb_spec x y)
  | |- context [?x <? ?y] => destruct (Z.ltb_spec x y)
  | |- context [?x =? ?y] => destruct (Z.eqb_spec x y)
  end; cbn [andb orb negb]; try lia; try done.

(** A range of bits is set, or cleared. *)
Lemma bit_nset_ok a b : 0 <= a <= b -> b < 8 * n ->
  exists name', bit_nset name a b = Done name' /\ is_map n name' /\ forall i, 0 <= i -> mbit name' i = (a <=? i) && (i <=? b) || mbit name i.
Proof.
  intros Ha Hb. pose proof (bit_range a ltac:(lia)) as Ra. pose proof (bit_range b ltac:(lia)) as Rb. unfold bit_nset. rewrite !bit_low. destruct (bit_parts a) as [_ Pa], (bit_parts b) as [_ Pb].
  rewrite !bit_byte_div in *. destruct (Z.eqb_spec (a / 8) (b / 8)) as [Eab | Nab].
  - destruct (upd_lor n name Hm (a / 8) (Z.land (Z.shiftl 255 (a mod 8)) (Z.shiftr 255 (7 - b mod 8))) (fun k => (a mod 8 <=? k) && (k + (7 - b mod 8) <? 8)) Ra) as (name' & E & H1 & H2).
    { intros k Hk. by rewrite Z.land_spec, mask_from, mask_upto by lia. }
    exists name'. split_and!; try done. intros i Hi. rewrite H2 by done. f_equal. parts i a b.
  - destruct (upd_lor n name Hm (a / 8) (Z.shiftl 255 (a mod 8)) (fun k => a mod 8 <=? k) Ra) as (name1 & -> & M1 & B1); [intros k Hk; by rewrite mask_from by lia |].
    rewrite bind_Done_l. destruct (fill_loop_ok (S (length name1)) n name1 (a / 8) (b / 8) 255 M1) as (name2 & -> & M2 & B2); try lia; [by unfold_int | destruct M1 as [L1 _]; unfold zlen in L1; lia |]. rewrite bind_Done_l.
    destruct (upd_lor n name2 M2 (b / 8) (Z.shiftr 255 (7 - b mod 8)) (fun k => k + (7 - b mod 8) <? 8) Rb) as (name3 & -> & M3 & B3); [intros k Hk; by rewrite mask_upto by lia |].
    exists name3. split_and!; try done. intros i Hi. rewrite B3, B2, B1, testbit_ff by (done || apply Z.mod_pos_bound; lia). destruct (mbit name i); rewrite ?orb_true_r, ?orb_false_r; parts i a b.
Qed.

Lemma bit_nclear_ok a b : 0 <= a <= b -> b < 8 * n ->
  exists name', bit_nclear name a b = Done name' /\ is_map n name' /\ forall i, 0 <= i -> mbit name' i = negb ((a <=? i) && (i <=? b)) && mbit name i.
Proof.
  intros Ha Hb. pose proof (bit_range a ltac:(lia)) as Ra. pose proof (bit_range b ltac:(lia)) as Rb. unfold bit_nclear. rewrite !bit_low. destruct (bit_parts a) as [_ Pa], (bit_parts b) as [_ Pb].
  rewrite !bit_byte_div in *. destruct (Z.eqb_spec (a / 8) (b / 8)) as [Eab | Nab].
  - destruct (upd_land n name Hm (a / 8) (Z.lor (Z.shiftr 255 (8 - a mod 8)) (Z.shiftl 255 (b mod 8 + 1))) (fun k => (k + (8 - a mod 8) <? 8) || (b mod 8 + 1 <=? k)) Ra) as (name' & E & H1 & H2).
    { intros k Hk. by rewrite Z.lor_spec, mask_from, mask_upto by lia. }
    exists name'. split_and!; try done. intros i Hi. rewrite H2 by done. f_equal. parts i a b.
  - destruct (upd_land n name Hm (a / 8) (Z.shiftr 255 (8 - a mod 8)) (fun k => k + (8 - a mod 8) <? 8) Ra) as (name1 & -> & M1 & B1); [intros k Hk; by rewrite mask_upto by lia |].
    rewrite bind_Done_l. destruct (fill_loop_ok (S (length name1)) n name1 (a / 8) (b / 8) 0 M1) as (name2 & -> & M2 & B2); try lia; [by unfold_int | destruct M1 as [L1 _]; unfold zlen in L1; lia |]. rewrite bind_Done_l.
    destruct (upd_land n name2 M2 (b / 8) (Z.shiftl 255 (b mod 8 + 1)) (fun k => b mod 8 + 1 <=? k) Rb) as (name3 & -> & M3 & B3); [intros k Hk; by rewrite mask_from by lia |].
    exists name3. split_and!; try done. intros i Hi. rewrite B3, B2, B1, Z.bits_0 by done. destruct (mbit name i); rewrite ?andb_true_r, ?andb_false_r; parts i a b.
Qed.

(** The first clear bit. *)
Lemma ffc_bits_ok fuel lb v : 0 <= lb -> lb < 2 ^ (Z.of_nat fuel - 1) -> (0 < fuel)%nat ->
  exists k, ffc_bits fuel lb v = Done (v + k) /\ 0 <= k /\ Z.testbit lb k = false /\ forall j, 0 <= j < k -> Z.testbit lb j = true.
Proof.
  revert lb v. induction fuel as [| fuel IH]; intros lb v Hlb Hf H0; [lia |]. cbn [ffc_bits].
  assert (Ebit : Z.testbit lb 0 = negb (Z.land lb 1 =? 0)) by (change 1 with (Z.ones 1); rewrite Z.land_ones, Z.bit0_odd by lia; change (2 ^ 1) with 2; rewrite Zmod_odd; by destruct (Z.odd lb)).
  destruct (Z.land lb 1 =? 0) eqn:E; cbn [negb] in Ebit.
  - exists 0. split_and!; try done; [by rewrite Z.add_0_r | intros; lia].
  - assert (Hpos : 0 < lb) by (destruct (Z.eq_dec lb 0) as [-> |]; [by rewrite Z.bits_0 in Ebit | lia]). assert (Hfu : (0 < fuel)%nat) by (destruct fuel; [cbn in Hf; lia | lia]).
    rewrite Z.shiftr_div_pow2 by lia. change (2 ^ 1) with 2. destruct (IH (lb / 2) (v + 1)) as (k & -> & Hk & Hk0 & Hk1); try done.
    + apply Z.div_pos; lia.
    + apply Z.div_lt_upper_bound; [lia |]. rewrite <- Z.pow_succ_r by lia. by replace (Z.succ (Z.of_nat fuel - 1)) with (Z.of_nat (S fuel) - 1) by lia.
    + exists (k + 1). replace (v + (k + 1)) with (v + 1 + k) by lia. split_and!; try done; try lia.
      * rewrite Z.add_1_r. by rewrite <- Z.div2_bits by lia.
      * intros j Hj. destruct (Z.eq_dec j 0) as [-> |]; [done |]. replace j with (Z.succ (j - 1)) by lia. rewrite <- Z.div2_bits by lia. apply Hk1. lia.
Qed.

Lemma ffc_bytes_ok fuel byte stop : 0 <= byte <= stop + 1 -> stop < n -> stop + 1 - byte < Z.of_nat fuel -> (forall i, 0 <= i < 8 * byte -> mbit name i = true) ->
  exists v, ffc_bytes fuel name byte stop = Done v /\
    (v = -1 /\ (forall i, 0 <= i < 8 * (stop + 1) -> mbit name i = true) \/ 0 <= v < 8 * (stop + 1) /\ mbit name v = false /\ forall i, 0 <= i < v -> mbit name i = true).
Proof.
  revert byte. induction fuel as [| fuel IH]; intros byte Hb Hs Hf Hset; [lia |]. cbn [ffc_bytes]. destruct (Z.leb_spec byte stop) as [H | H].
  - rewrite (map_get n name Hm) by lia. rewrite bind_Done_l. pose proof (map_u8 n name Hm byte ltac:(lia)) as Hu8. set (b := name !!! _) in *.
    assert (Hbyte : forall i, 8 * byte <= i < 8 * byte + 8 -> mbit name i = Z.testbit b (i - 8 * byte)).
    { intros i Hi. pose proof (bit_parts i). assert (Ei : i / 8 = byte) by lia. unfold mbit. rewrite Ei. f_equal. lia. }
    destruct (Z.eqb_spec b 255) as [Eb | Nb].
    + apply IH; try lia. intros i Hi. destruct (Z.lt_ge_cases i (8 * byte)); [apply Hset; lia |]. rewrite Hbyte, Eb, testbit_ff by lia. apply Z.ltb_lt. lia.
    + rewrite Z.shiftl_mul_pow2 by lia. change (2 ^ 3) with 8. destruct (ffc_bits_ok 9 b (byte * 8)) as (k & -> & Hk & Hk0 & Hk1); unfold_int; [lia | cbn; lia | lia |].
      assert (Hk8 : k < 8).
      { destruct (Z.lt_ge_cases k 8); [done |]. exfalso. apply Nb, Z.bits_inj'. intros j Hj. rewrite testbit_ff by done.
        destruct (Z.ltb_spec j 8); [apply Hk1; lia | apply (bits_above 8); lia]. }
      exists (byte * 8 + k). split; [done |]. right. split; [lia |]. split.
      * rewrite Hbyte by lia. by replace (byte * 8 + k - 8 * byte) with k by lia.
      * intros i Hi. destruct (Z.lt_ge_cases i (8 * byte)); [apply Hset; lia |]. rewrite Hbyte by lia. apply Hk1. lia.
  - exists (-1). split; [done |]. left. split; [done |]. intros i Hi. apply Hset. lia.
Qed.

Lemma bit_ffc_ok nbits : 0 < nbits <= 8 * n -> n < 2 ^ 28 ->
  exists v, bit_ffc name nbits = Done v /\
    (v = -1 /\ (forall i, 0 <= i < nbits -> mbit name i = true) \/ 0 <= v < nbits /\ mbit name v = false /\ forall i, 0 <= i < v -> mbit name i = true).
Proof.
  intros Hn Hn28. unfold bit_ffc. replace (nbits >? 0) with true by (symmetry; apply Z.gtb_lt; lia). rewrite bit_byte_div.
  destruct (bit_parts (nbits - 1)) as [Hp1 Hp2]. destruct (ffc_bytes_ok (S (length name)) 0 ((nbits - 1) / 8)) as (v & -> & Hv); try lia.
  { destruct Hm as [Hl _]. unfold zlen in Hl. lia. }
  rewrite bind_Done_l. destruct Hv as [[-> Hall] | (Hv & Hv0 & Hv1)].
  - exists (-1). change (u32 (-1)) with (2 ^ 32 - 1). destruct (Z.geb_spec (2 ^ 32 - 1) nbits); (split; [done |]); left; (split; [done |]); intros i Hi; apply Hall; lia.
  - rewrite u32_id by (unfold_int; lia). destruct (Z.geb_spec v nbits) as [H | H].
    + exists (-1). split; [done |]. left. split; [done |]. intros i Hi. apply Hv1. lia.
    + exists v. split; [done |]. right. split; [lia | done].
Qed.
End Ops.
