(* ===== verification/Bpf.v ===== *)
(** * The packet filter machine: sys/net/bpf_filter.c

    The filter virtual machine ([bpf_filter]) with its accumulator, index
    register and scratch memory; packet loads from a contiguous buffer and
    from an mbuf chain ([m_xword], [m_xhalf], MINDEX); and the checker
    ([bpf_validate]) that the kernel runs on a program before accepting it.
    The theorems: a validated program runs to completion without a fault on
    every packet, in at most as many steps as it has instructions; and loads
    from an mbuf chain agree with loads from the flattened packet. *)

From stdpp Require Import prelude list.
From S2P Require Import Prelude.
Open Scope Z_scope.

(** ** Instruction encoding (sys/net/bpf.h) *)

Record bpf_insn := BpfInsn { code : Z; jt : Z; jf : Z; insn_k : Z }.

(** The field widths of struct bpf_insn. *)
Definition insn_ok (i : bpf_insn) : Prop :=
  is_u16 (code i) /\ is_u8 (jt i) /\ is_u8 (jf i) /\ is_u32 (insn_k i).

Definition BPF_LD := 0x00.
Definition BPF_LDX := 0x01.
Definition BPF_ST := 0x02.
Definition BPF_STX := 0x03.
Definition BPF_ALU := 0x04.
Definition BPF_JMP := 0x05.
Definition BPF_RET := 0x06.
Definition BPF_MISC := 0x07.
Definition BPF_W := 0x00.
Definition BPF_H := 0x08.
Definition BPF_B := 0x10.
Definition BPF_IMM := 0x00.
Definition BPF_ABS := 0x20.
Definition BPF_IND := 0x40.
Definition BPF_MEM := 0x60.
Definition BPF_LEN := 0x80.
Definition BPF_MSH := 0xa0.
Definition BPF_ADD := 0x00.
Definition BPF_SUB := 0x10.
Definition BPF_MUL := 0x20.
Definition BPF_DIV := 0x30.
Definition BPF_OR := 0x40.
Definition BPF_AND := 0x50.
Definition BPF_LSH := 0x60.
Definition BPF_RSH := 0x70.
Definition BPF_NEG := 0x80.
Definition BPF_JA := 0x00.
Definition BPF_JEQ := 0x10.
Definition BPF_JGT := 0x20.
Definition BPF_JGE := 0x30.
Definition BPF_JSET := 0x40.
Definition BPF_K := 0x00.
Definition BPF_X := 0x08.
Definition BPF_A := 0x10.
Definition BPF_TAX := 0x00.
Definition BPF_TXA := 0x80.

Definition BPF_CLASS (c : Z) : Z := Z.land c 0x07.
Definition BPF_MODE (c : Z) : Z := Z.land c 0xe0.
Definition BPF_OP (c : Z) : Z := Z.land c 0xf0.
Definition BPF_SRC (c : Z) : Z := Z.land c 0x08.

Definition BPF_MEMWORDS := 16.
Definition BPF_MAXINSNS := 512.

(** The cases of the switch in [bpf_filter], one constructor each; the
    arithmetic and jump cases carry their operator and operand source. *)
Inductive alu_op := ADD | SUB | MUL | DIV | AND | OR | LSH | RSH.
Inductive jmp_op := JGT | JGE | JEQ | JSET.
Inductive src_op := K | X.

Inductive opcode :=
  | RET_K | RET_A
  | LD_W_ABS | LD_H_ABS | LD_B_ABS
  | LD_W_LEN | LDX_W_LEN
  | LD_W_IND | LD_H_IND | LD_B_IND
  | LDX_MSH_B
  | LD_IMM | LDX_IMM | LD_MEM | LDX_MEM
  | ST | STX
  | JMP_JA
  | JMP (o : jmp_op) (s : src_op)
  | ALU (o : alu_op) (s : src_op)
  | ALU_NEG
  | MISC_TAX | MISC_TXA.

Definition lor3 (a b c : Z) : Z := Z.lor a (Z.lor b c).

(** The case labels of the switch, in the order of the source. *)
Definition opcodes : list (Z * opcode) :=
  [ (Z.lor BPF_RET BPF_K, RET_K);
    (Z.lor BPF_RET BPF_A, RET_A);
    (lor3 BPF_LD BPF_W BPF_ABS, LD_W_ABS);
    (lor3 BPF_LD BPF_H BPF_ABS, LD_H_ABS);
    (lor3 BPF_LD BPF_B BPF_ABS, LD_B_ABS);
    (lor3 BPF_LD BPF_W BPF_LEN, LD_W_LEN);
    (lor3 BPF_LDX BPF_W BPF_LEN, LDX_W_LEN);
    (lor3 BPF_LD BPF_W BPF_IND, LD_W_IND);
    (lor3 BPF_LD BPF_H BPF_IND, LD_H_IND);
    (lor3 BPF_LD BPF_B BPF_IND, LD_B_IND);
    (lor3 BPF_LDX BPF_MSH BPF_B, LDX_MSH_B);
    (Z.lor BPF_LD BPF_IMM, LD_IMM);
    (Z.lor BPF_LDX BPF_IMM, LDX_IMM);
    (Z.lor BPF_LD BPF_MEM, LD_MEM);
    (Z.lor BPF_LDX BPF_MEM, LDX_MEM);
    (BPF_ST, ST);
    (BPF_STX, STX);
    (Z.lor BPF_JMP BPF_JA, JMP_JA);
    (lor3 BPF_JMP BPF_JGT BPF_K, JMP JGT K);
    (lor3 BPF_JMP BPF_JGE BPF_K, JMP JGE K);
    (lor3 BPF_JMP BPF_JEQ BPF_K, JMP JEQ K);
    (lor3 BPF_JMP BPF_JSET BPF_K, JMP JSET K);
    (lor3 BPF_JMP BPF_JGT BPF_X, JMP JGT X);
    (lor3 BPF_JMP BPF_JGE BPF_X, JMP JGE X);
    (lor3 BPF_JMP BPF_JEQ BPF_X, JMP JEQ X);
    (lor3 BPF_JMP BPF_JSET BPF_X, JMP JSET X);
    (lor3 BPF_ALU BPF_ADD BPF_X, ALU ADD X);
    (lor3 BPF_ALU BPF_SUB BPF_X, ALU SUB X);
    (lor3 BPF_ALU BPF_MUL BPF_X, ALU MUL X);
    (lor3 BPF_ALU BPF_DIV BPF_X, ALU DIV X);
    (lor3 BPF_ALU BPF_AND BPF_X, ALU AND X);
    (lor3 BPF_ALU BPF_OR BPF_X, ALU OR X);
    (lor3 BPF_ALU BPF_LSH BPF_X, ALU LSH X);
    (lor3 BPF_ALU BPF_RSH BPF_X, ALU RSH X);
    (lor3 BPF_ALU BPF_ADD BPF_K, ALU ADD K);
    (lor3 BPF_ALU BPF_SUB BPF_K, ALU SUB K);
    (lor3 BPF_ALU BPF_MUL BPF_K, ALU MUL K);
    (lor3 BPF_ALU BPF_DIV BPF_K, ALU DIV K);
    (lor3 BPF_ALU BPF_AND BPF_K, ALU AND K);
    (lor3 BPF_ALU BPF_OR BPF_K, ALU OR K);
    (lor3 BPF_ALU BPF_LSH BPF_K, ALU LSH K);
    (lor3 BPF_ALU BPF_RSH BPF_K, ALU RSH K);
    (Z.lor BPF_ALU BPF_NEG, ALU_NEG);
    (Z.lor BPF_MISC BPF_TAX, MISC_TAX);
    (Z.lor BPF_MISC BPF_TXA, MISC_TXA) ].

Fixpoint assoc (c : Z) (l : list (Z * opcode)) : option opcode :=
  match l with
  | [] => None
  | (c', o) :: l => if c =? c' then Some o else assoc c l
  end.

(** switch (pc->code): [None] is the default label. *)
Definition decode (c : Z) : option opcode := assoc c opcodes.

(** ** Packets *)

(** The argument [p] of [bpf_filter] is a contiguous buffer when buflen is
    not zero and the head of an mbuf chain when it is zero. *)
Inductive packet :=
  | Contig (bytes : list Z)
  | Chain (m : list (list Z)).

(** EXTRACT_SHORT and EXTRACT_LONG: big-endian loads. *)
Definition extract_short (p : list Z) (k : Z) : outcome Z :=
  b0 ← aget p k; b1 ← aget p (k + 1);
  mret (Z.lor (Z.shiftl b0 8) b1).

Definition extract_long (p : list Z) (k : Z) : outcome Z :=
  b0 ← aget p k; b1 ← aget p (k + 1); b2 ← aget p (k + 2); b3 ← aget p (k + 3);
  mret (Z.lor (Z.lor (Z.lor (Z.shiftl b0 24) (Z.shiftl b1 16)) (Z.shiftl b2 8)) b3).

(** The walk shared by [m_xword], [m_xhalf] and MINDEX: find the mbuf that
    holds byte [k].  [None] is the end of the chain. *)
Fixpoint m_index (m : list (list Z)) (k : Z) : option (list (list Z) * Z) :=
  match m with
  | [] => None
  | d :: next => if zlen d <=? k then m_index next (k - zlen d) else Some (m, k)
  end.

(** m_xword(m, k, &err): [None] is err = 1. *)
Definition m_xword (m : list (list Z)) (k : Z) : outcome (option Z) :=
  match m with
  | [] => Fault NullDeref
  | _ =>
    match m_index m k with
    | None | Some ([], _) => mret None
    | Some (cp :: next, k) =>
      if 4 <=? zlen cp - k then (w ← extract_long cp k; mret (Some w))
      else
        match next with
        | [] => mret None
        | np :: _ =>
          if zlen np + zlen cp - k <? 4 then mret None
          else if zlen cp - k =? 1 then
            c0 ← aget cp k;
            n0 ← aget np 0; n1 ← aget np 1; n2 ← aget np 2;
            mret (Some (Z.lor (Z.lor (Z.lor (Z.shiftl c0 24) (Z.shiftl n0 16))
                                     (Z.shiftl n1 8)) n2))
          else if zlen cp - k =? 2 then
            c0 ← aget cp k; c1 ← aget cp (k + 1);
            n0 ← aget np 0; n1 ← aget np 1;
            mret (Some (Z.lor (Z.lor (Z.lor (Z.shiftl c0 24) (Z.shiftl c1 16))
                                     (Z.shiftl n0 8)) n1))
          else
            c0 ← aget cp k; c1 ← aget cp (k + 1); c2 ← aget cp (k + 2);
            n0 ← aget np 0;
            mret (Some (Z.lor (Z.lor (Z.lor (Z.shiftl c0 24) (Z.shiftl c1 16))
                                     (Z.shiftl c2 8)) n0))
        end
    end
  end.

(** m_xhalf(m, k, &err) *)
Definition m_xhalf (m : list (list Z)) (k : Z) : outcome (option Z) :=
  match m with
  | [] => Fault NullDeref
  | _ =>
    match m_index m k with
    | None | Some ([], _) => mret None
    | Some (cp :: next, k) =>
      if 2 <=? zlen cp - k then (w ← extract_short cp k; mret (Some w))
      else
        match next with
        | [] => mret None
        | np :: _ =>
          c0 ← aget cp k; n0 ← aget np 0;
          mret (Some (Z.lor (Z.shiftl c0 8) n0))
        end
    end
  end.

(** MINDEX(m, k) followed by mtod(m, u_char * )[k]; [None] is "return 0". *)
Definition m_xbyte (m : list (list Z)) (k : Z) : outcome (option Z) :=
  match m with
  | [] => Fault NullDeref
  | _ =>
    match m_index m k with
    | None | Some ([], _) => mret None
    | Some (cp :: _, k) => b ← aget cp k; mret (Some b)
    end
  end.

(** ** The machine *)

Record regs := Regs { rA : Z; rX : Z; rmem : list Z }.

(** What one instruction does: continue at an instruction index, or return. *)
Inductive step_result := Next (pc : Z) (r : regs) | Return (v : Z).

Section Machine.
Context (pkt : packet) (wirelen buflen : Z).

Definition as_chain : outcome (list (list Z)) :=
  match pkt with Chain m => Done m | Contig _ => Fault OutOfBounds end.

Definition as_buffer : outcome (list Z) :=
  match pkt with Contig b => Done b | Chain _ => Fault OutOfBounds end.

Definition set_A (r : regs) (a : Z) : regs := Regs a (rX r) (rmem r).
Definition set_X (r : regs) (x : Z) : regs := Regs (rA r) x (rmem r).

(** [load inb flat xm k]: the common shape of a packet load.  [inb] is the
    bounds test of the contiguous case, [flat] the contiguous load, [xm] the
    mbuf load; [None] is "return 0". *)
Definition load (inb : bool) (flat : list Z -> Z -> outcome Z)
    (xm : list (list Z) -> Z -> outcome (option Z)) (k : Z) : outcome (option Z) :=
  if inb then b ← as_buffer; v ← flat b k; mret (Some v)
  else if negb (buflen =? 0) then mret None
  else m ← as_chain; xm m k.

Definition ld_result (pc : Z) (upd : Z -> regs) (v : option Z) : step_result :=
  match v with Some v => Next (pc + 1) (upd v) | None => Return 0 end.

(** The packet loads. *)
Definition exec_ld_w_abs (pc : Z) (i : bpf_insn) (r : regs) : outcome step_result :=
  let k := insn_k i in
  v ← load (negb ((buflen <? k) || (buflen - k <? 4))) extract_long m_xword k;
  mret (ld_result pc (set_A r) v).

(** In this case alone the error of [m_xhalf] is not looked at: A becomes 0
    and the program goes on. *)
Definition exec_ld_h_abs (pc : Z) (i : bpf_insn) (r : regs) : outcome step_result :=
  let k := insn_k i in
  if negb ((buflen <? k) || (buflen - k <? 2))
  then b ← as_buffer; v ← extract_short b k; mret (Next (pc + 1) (set_A r v))
  else if negb (buflen =? 0) then mret (Return 0)
  else m ← as_chain; v ← m_xhalf m k;
       mret (Next (pc + 1) (set_A r (default 0 v))).

Definition exec_ld_b_abs (pc : Z) (i : bpf_insn) (r : regs) : outcome step_result :=
  let k := insn_k i in
  v ← load (k <? buflen) aget m_xbyte k;
  mret (ld_result pc (set_A r) v).

Definition exec_ld_w_ind (pc : Z) (i : bpf_insn) (r : regs) : outcome step_result :=
  let k := u32 (rX r + insn_k i) in
  v ← load (negb ((buflen <? insn_k i) || (u32 (buflen - insn_k i) <? rX r)
                  || (u32 (buflen - k) <? 4)))
        extract_long m_xword k;
  mret (ld_result pc (set_A r) v).

Definition exec_ld_h_ind (pc : Z) (i : bpf_insn) (r : regs) : outcome step_result :=
  let k := u32 (rX r + insn_k i) in
  v ← load (negb ((buflen <? rX r) || (u32 (buflen - rX r) <? insn_k i)
                  || (u32 (buflen - k) <? 2)))
        extract_short m_xhalf k;
  mret (ld_result pc (set_A r) v).

Definition exec_ld_b_ind (pc : Z) (i : bpf_insn) (r : regs) : outcome step_result :=
  let k := u32 (rX r + insn_k i) in
  v ← load (negb ((buflen <=? insn_k i) || (u32 (buflen - insn_k i) <=? rX r)))
        aget m_xbyte k;
  mret (ld_result pc (set_A r) v).

Definition exec_ldx_msh_b (pc : Z) (i : bpf_insn) (r : regs) : outcome step_result :=
  let k := insn_k i in
  v ← load (k <? buflen) aget m_xbyte k;
  mret (ld_result pc (fun b => set_X r (Z.shiftl (Z.land b 0xf) 2)) v).

(** Scratch memory is an array of int32_t. *)
Definition exec_mem (pc : Z) (o : opcode) (i : bpf_insn) (r : regs)
    : outcome step_result :=
  match o with
  | LD_MEM => v ← aget (rmem r) (insn_k i); mret (Next (pc + 1) (set_A r (u32 v)))
  | LDX_MEM => v ← aget (rmem r) (insn_k i); mret (Next (pc + 1) (set_X r (u32 v)))
  | ST => m ← aput (rmem r) (insn_k i) (s32 (rA r));
          mret (Next (pc + 1) (Regs (rA r) (rX r) m))
  | _ => m ← aput (rmem r) (insn_k i) (s32 (rX r));
         mret (Next (pc + 1) (Regs (rA r) (rX r) m))
  end.

Definition operand (s : src_op) (i : bpf_insn) (r : regs) : Z :=
  match s with K => insn_k i | X => rX r end.

Definition jmp_test (o : jmp_op) (a b : Z) : bool :=
  match o with
  | JGT => b <? a
  | JGE => b <=? a
  | JEQ => a =? b
  | JSET => btest a b
  end.

(** pc += taken ? pc->jt : pc->jf; the ++pc at the loop head adds one. *)
Definition exec_jmp (pc : Z) (o : jmp_op) (s : src_op) (i : bpf_insn) (r : regs)
    : outcome step_result :=
  mret (Next (pc + (if jmp_test o (rA r) (operand s i r) then jt i else jf i) + 1) r).

(** A shift by 32 or more has no meaning in C. *)
Definition exec_alu (pc : Z) (o : alu_op) (s : src_op) (i : bpf_insn) (r : regs)
    : outcome step_result :=
  let a := rA r in
  let v := operand s i r in
  let next a' := mret (Next (pc + 1) (set_A r a')) in
  match o with
  | ADD => next (u32 (a + v))
  | SUB => next (u32 (a - v))
  | MUL => next (u32 (a * v))
  | DIV => match s with
           | X => if v =? 0 then mret (Return 0) else next (a / v)
           | K => if v =? 0 then Fault DivideByZero else next (a / v)
           end
  | AND => next (Z.land a v)
  | OR => next (Z.lor a v)
  | LSH => if 32 <=? v then Fault UndefinedShift else next (u32 (Z.shiftl a v))
  | RSH => if 32 <=? v then Fault UndefinedShift else next (Z.shiftr a v)
  end.

(** One iteration of the while loop of [bpf_filter]. *)
Definition step (prog : list bpf_insn) (pc : Z) (r : regs) : outcome step_result :=
  i ← aget prog pc;
  match decode (code i) with
  | None => mret (Return 0)
  | Some o =>
    match o with
    | RET_K => mret (Return (insn_k i))
    | RET_A => mret (Return (rA r))
    | LD_W_ABS => exec_ld_w_abs pc i r
    | LD_H_ABS => exec_ld_h_abs pc i r
    | LD_B_ABS => exec_ld_b_abs pc i r
    | LD_W_LEN => mret (Next (pc + 1) (set_A r wirelen))
    | LDX_W_LEN => mret (Next (pc + 1) (set_X r wirelen))
    | LD_W_IND => exec_ld_w_ind pc i r
    | LD_H_IND => exec_ld_h_ind pc i r
    | LD_B_IND => exec_ld_b_ind pc i r
    | LDX_MSH_B => exec_ldx_msh_b pc i r
    | LD_IMM => mret (Next (pc + 1) (set_A r (insn_k i)))
    | LDX_IMM => mret (Next (pc + 1) (set_X r (insn_k i)))
    | LD_MEM | LDX_MEM | ST | STX => exec_mem pc o i r
    | JMP_JA => mret (Next (pc + insn_k i + 1) r)
    | JMP o s => exec_jmp pc o s i r
    | ALU o s => exec_alu pc o s i r
    | ALU_NEG => mret (Next (pc + 1) (set_A r (u32 (- rA r))))
    | MISC_TAX => mret (Next (pc + 1) (set_X r (rA r)))
    | MISC_TXA => mret (Next (pc + 1) (set_A r (rX r)))
    end
  end.

Fixpoint run (fuel : nat) (prog : list bpf_insn) (pc : Z) (r : regs) : outcome Z :=
  match fuel with
  | O => Fault OutOfFuel
  | S fuel =>
    s ← step prog pc r;
    match s with
    | Return v => mret v
    | Next pc r => run fuel prog pc r
    end
  end.

Definition regs0 : regs := Regs 0 0 (replicate 16 0).

(** bpf_filter(pc, p, wirelen, buflen); [None] is a NULL program, which
    accepts everything with (u_int)-1. *)
Definition bpf_filter (fuel : nat) (prog : option (list bpf_insn)) : outcome Z :=
  match prog with
  | None => mret (2 ^ 32 - 1)
  | Some prog => run fuel prog 0 regs0
  end.

End Machine.

(** ** The checker *)

Section Checker.
Context (bpf_maxbufsize : Z).

(** The body of the loop of [bpf_validate] for instruction [i] of [len]. *)
Definition check_ld (p : bpf_insn) : bool :=
  let m := BPF_MODE (code p) in
  if m =? BPF_IMM then true
  else if (m =? BPF_ABS) || (m =? BPF_IND) || (m =? BPF_MSH) then
    negb (u32 bpf_maxbufsize <=? insn_k p)
  else if m =? BPF_MEM then negb (BPF_MEMWORDS <=? insn_k p)
  else m =? BPF_LEN.

Definition check_alu (p : bpf_insn) : bool :=
  let o := BPF_OP (code p) in
  if (o =? BPF_ADD) || (o =? BPF_SUB) || (o =? BPF_MUL) || (o =? BPF_OR)
     || (o =? BPF_AND) || (o =? BPF_LSH) || (o =? BPF_RSH) || (o =? BPF_NEG)
  then true
  else if o =? BPF_DIV then
    negb ((BPF_SRC (code p) =? BPF_K) && (insn_k p =? 0))
  else false.

Definition check_jmp (len i : Z) (p : bpf_insn) : bool :=
  let from := u32 (i + 1) in
  let o := BPF_OP (code p) in
  if o =? BPF_JA then
    negb ((u32 (from + insn_k p) <? from) || (len <=? u32 (from + insn_k p)))
  else if (o =? BPF_JEQ) || (o =? BPF_JGT) || (o =? BPF_JGE) || (o =? BPF_JSET) then
    negb ((len <=? u32 (from + jt p)) || (len <=? u32 (from + jf p)))
  else false.

Definition check_insn (len i : Z) (p : bpf_insn) : bool :=
  let c := BPF_CLASS (code p) in
  if (c =? BPF_LD) || (c =? BPF_LDX) then check_ld p
  else if (c =? BPF_ST) || (c =? BPF_STX) then negb (BPF_MEMWORDS <=? insn_k p)
  else if c =? BPF_ALU then check_alu p
  else if c =? BPF_JMP then check_jmp len i p
  else (c =? BPF_RET) || (c =? BPF_MISC).

Fixpoint check_all (len i : Z) (f : list bpf_insn) : bool :=
  match f with
  | [] => true
  | p :: f => check_insn len i p && check_all len (i + 1) f
  end.

(** bpf_validate(f, len), with len the number of instructions of [f]. *)
Definition bpf_validate (f : list bpf_insn) : bool :=
  let len := zlen f in
  if (len <? 1) || (BPF_MAXINSNS <? len) then false
  else check_all len 0 f &&
       match aget f (len - 1) with
       | Done p => BPF_CLASS (code p) =? BPF_RET
       | Fault _ => false
       end.

End Checker.

(** ** Invariants of the machine *)

Definition regs_ok (r : regs) : Prop :=
  is_u32 (rA r) /\ is_u32 (rX r) /\ zlen (rmem r) = BPF_MEMWORDS.

Definition packet_ok (p : packet) (buflen : Z) : Prop :=
  match p with
  | Contig b => 0 < buflen <= zlen b /\ is_u32 buflen /\ Forall is_u8 b
  | Chain m => buflen = 0 /\ m <> [] /\
               Forall (fun d => 0 < zlen d) m /\ Forall (Forall is_u8) m
  end.

Lemma regs0_ok : regs_ok regs0.
Proof. done. Qed.

(** ** Packet loads *)

Lemma aget_u8 b k v : Forall is_u8 b -> aget b k = Done v -> is_u8 v.
Proof. intros Hb [_ Hv]%aget_Done. by eapply Forall_lookup_1. Qed.

Lemma be32_u32 a b c d :
  is_u8 a -> is_u8 b -> is_u8 c -> is_u8 d ->
  is_u32 (Z.lor (Z.lor (Z.lor (Z.shiftl a 24) (Z.shiftl b 16)) (Z.shiftl c 8)) d).
Proof.
  unfold_int. intros Ha Hb Hc Hd.
  pose proof (shiftl_bounded 8 24 a ltac:(lia) ltac:(lia) Ha).
  pose proof (shiftl_bounded 8 16 b ltac:(lia) ltac:(lia) Hb).
  pose proof (shiftl_bounded 8 8 c ltac:(lia) ltac:(lia) Hc).
  repeat apply lor_bounded; lia.
Qed.

Lemma be16_u32 a b : is_u8 a -> is_u8 b -> is_u32 (Z.lor (Z.shiftl a 8) b).
Proof.
  unfold_int. intros Ha Hb.
  pose proof (shiftl_bounded 8 8 a ltac:(lia) ltac:(lia) Ha).
  apply lor_bounded; lia.
Qed.

Lemma extract_long_spec b k :
  Forall is_u8 b -> 0 <= k -> k + 4 <= zlen b ->
  exists v, extract_long b k = Done v /\ is_u32 v.
Proof.
  intros Hb Hk Hl. unfold extract_long.
  destruct (aget_in_bounds b k) as [b0 H0]; [lia |].
  destruct (aget_in_bounds b (k + 1)) as [b1 H1]; [lia |].
  destruct (aget_in_bounds b (k + 2)) as [b2 H2]; [lia |].
  destruct (aget_in_bounds b (k + 3)) as [b3 H3]; [lia |].
  rewrite H0, H1, H2, H3. eexists. split; [reflexivity |].
  apply be32_u32; by eapply aget_u8.
Qed.

Lemma extract_short_spec b k :
  Forall is_u8 b -> 0 <= k -> k + 2 <= zlen b ->
  exists v, extract_short b k = Done v /\ is_u32 v.
Proof.
  intros Hb Hk Hl. unfold extract_short.
  destruct (aget_in_bounds b k) as [b0 H0]; [lia |].
  destruct (aget_in_bounds b (k + 1)) as [b1 H1]; [lia |].
  rewrite H0, H1. eexists. split; [reflexivity |].
  apply be16_u32; by eapply aget_u8.
Qed.

Lemma aget_byte_spec b k :
  Forall is_u8 b -> 0 <= k < zlen b -> exists v, aget b k = Done v /\ is_u32 v.
Proof.
  intros Hb Hk. destruct (aget_in_bounds b k Hk) as [v Hv].
  exists v. split; [done |]. apply aget_u8 in Hv; [| done]. unfold_int. lia.
Qed.

(** *** Walking an mbuf chain *)

Lemma zlen_concat_cons (d : list Z) m : zlen (concat (d :: m)) = zlen d + zlen (concat m).
Proof. apply zlen_app. Qed.

(** The walk either stops inside an mbuf, at the byte [k] of the flattened
    packet, or runs off the end when the packet is shorter than [k]. *)
Lemma m_index_spec m k :
  0 <= k ->
  match m_index m k with
  | None => zlen (concat m) <= k
  | Some (d :: rest, k') =>
      0 <= k' < zlen d /\ d :: rest `suffix_of` m /\
      zlen (concat m) - k = zlen (concat (d :: rest)) - k' /\
      forall j, k <= j -> aget (concat m) j = aget (concat (d :: rest)) (j - k + k')
  | Some ([], _) => False
  end.
Proof.
  revert k. induction m as [| d m IH]; intros k Hk; simpl; [done |].
  destruct (Z.leb_spec (zlen d) k) as [Hd | Hd].
  - specialize (IH (k - zlen d) ltac:(lia)).
    destruct (m_index m (k - zlen d)) as [[[| d' rest] k'] |]; [done | |].
    + destruct IH as (Hk' & Hsuf & Hlen & Hget). split_and!; try lia.
      * by apply suffix_cons_r.
      * simpl in *. rewrite !zlen_app in *. lia.
      * intros j Hj. rewrite aget_app_r by lia. rewrite Hget by lia. f_equal. lia.
    + rewrite zlen_app. lia.
  - split_and!; try lia; [done |]. intros j Hj. f_equal. lia.
Qed.

Lemma suffix_second {A} (P : A -> Prop) x y l m :
  Forall P m -> x :: y :: l `suffix_of` m -> P y.
Proof.
  intros Hm [p ->]. rewrite Forall_app, !Forall_cons in Hm. tauto.
Qed.

(** What a load of [n] bytes of the flattened packet must give. *)
Definition flat_load (n : Z) (ld : list Z -> Z -> outcome Z) (m : list (list Z)) (k : Z)
    : outcome (option Z) :=
  if k + n <=? zlen (concat m) then v ← ld (concat m) k; mret (Some v) else mret None.

Lemma m_index_nonempty m k :
  0 <= k -> m <> [] ->
  (exists d rest k', m_index m k = Some (d :: rest, k') /\ 0 <= k' < zlen d /\
     d :: rest `suffix_of` m /\
     zlen (concat m) - k = zlen d + zlen (concat rest) - k' /\
     forall j, k <= j -> aget (concat m) j = aget (d ++ concat rest) (j - k + k'))
  \/ (m_index m k = None /\ zlen (concat m) <= k).
Proof.
  intros Hk _. pose proof (m_index_spec m k Hk) as H.
  destruct (m_index m k) as [[[| d rest] k'] |]; [done | left | right; done].
  destruct H as (? & ? & Hl & Hg). exists d, rest, k'.
  simpl in Hl. rewrite zlen_app in Hl. done.
Qed.

Lemma flat_load_None n ld m k :
  zlen (concat m) < k + n -> flat_load n ld m k = Done None.
Proof. intros. unfold flat_load. destruct (Z.leb_spec (k + n) (zlen (concat m))); [lia | done]. Qed.

Lemma m_xbyte_flat m k :
  0 <= k -> m <> [] -> m_xbyte m k = flat_load 1 aget m k.
Proof.
  intros Hk Hm.
  destruct (m_index_nonempty m k Hk Hm)
    as [(d & rest & k' & Hi & Hk' & _ & Hl & Hg) | [Hi Hl]].
  - unfold m_xbyte, flat_load. rewrite Hi. destruct m; [done |].
    destruct (Z.leb_spec (k + 1) (zlen (concat (l :: m)))).
    + rewrite Hg, aget_app_l by lia. by replace (k - k + k') with k' by lia.
    + pose proof (zlen_nonneg (concat rest)). lia.
  - rewrite flat_load_None by lia. unfold m_xbyte. rewrite Hi. by destruct m.
Qed.

Lemma m_xhalf_flat m k :
  0 <= k -> m <> [] -> Forall (fun d => 0 < zlen d) m ->
  m_xhalf m k = flat_load 2 extract_short m k.
Proof.
  intros Hk Hm Hpos.
  destruct (m_index_nonempty m k Hk Hm)
    as [(d & rest & k' & Hi & Hk' & Hsuf & Hl & Hg) | [Hi Hl]].
  - unfold m_xhalf, flat_load. rewrite Hi. destruct m as [| d0 m]; [done |].
    pose proof (zlen_nonneg (concat rest)).
    destruct (Z.leb_spec 2 (zlen d - k')), (Z.leb_spec (k + 2) (zlen (concat (d0 :: m)))); try lia.
    + unfold extract_short. rewrite !Hg, !aget_app_l by lia.
      by replace (k - k + k') with k' by lia; replace (k + 1 - k + k') with (k' + 1) by lia.
    + destruct rest as [| d1 rest]; [change (zlen (concat [])) with 0 in Hl; lia |].
      unfold extract_short. rewrite !Hg by lia.
      pose proof (suffix_second _ _ _ _ _ Hpos Hsuf) as Hd1. simpl in Hd1.
      rewrite (aget_app_l d _ (k - k + k')), (aget_app_r d _ (k + 1 - k + k')) by lia.
      simpl concat. rewrite aget_app_l by lia.
      replace (k - k + k') with k' by lia. replace (k + 1 - k + k' - zlen d) with 0 by lia.
      destruct (aget d k'), (aget d1 0); done.
    + destruct rest as [| d1 rest]; [done |].
      pose proof (suffix_second _ _ _ _ _ Hpos Hsuf) as Hd1. simpl in Hd1.
      rewrite (zlen_concat_cons d1) in Hl. pose proof (zlen_nonneg (concat rest)). lia.
  - rewrite flat_load_None by lia. unfold m_xhalf. rewrite Hi. by destruct m.
Qed.

(** An mbuf chain in which every mbuf after the first holds at least three
    bytes, except possibly the last: [m_xword] looks at two mbufs only. *)
Fixpoint word_ready (m : list (list Z)) : bool :=
  match m with
  | _ :: ((d :: (_ :: _)) as next) => (3 <=? zlen d) && word_ready next
  | _ => true
  end.

Lemma word_ready_tail d m : word_ready (d :: m) = true -> word_ready m = true.
Proof.
  destruct m as [| d1 [| d2 m]]; [done | done |].
  by intros [_ Hr]%andb_true_iff.
Qed.

Lemma word_ready_suffix m d d1 d2 rest :
  word_ready m = true -> d :: d1 :: d2 :: rest `suffix_of` m -> 3 <= zlen d1.
Proof.
  intros Hr [p ->]. induction p as [| x p IH].
  - simpl in Hr. zbool. lia.
  - apply IH. by apply word_ready_tail in Hr.
Qed.

Lemma m_xword_split (d d1 rest : list Z) k' n :
  0 <= k' < zlen d -> zlen d - k' = n -> n < 4 -> 4 - n <= zlen d1 ->
  forall j, 0 <= j < 4 ->
  aget (d ++ d1 ++ rest) (k' + j) =
    if j <? n then aget d (k' + j) else aget d1 (j - n).
Proof.
  intros Hk Hn Hlt Hd1 j Hj. destruct (Z.ltb_spec j n).
  - by rewrite aget_app_l by lia.
  - rewrite aget_app_r, aget_app_l by lia. f_equal. lia.
Qed.

Lemma m_xword_flat m k :
  0 <= k -> m <> [] -> word_ready m = true ->
  m_xword m k = flat_load 4 extract_long m k.
Proof.
  intros Hk Hm Hw.
  destruct (m_index_nonempty m k Hk Hm)
    as [(d & rest & k' & Hi & Hk' & Hsuf & Hl & Hg) | [Hi Hl]].
  2: { rewrite flat_load_None by lia. unfold m_xword. rewrite Hi. by destruct m. }
  unfold m_xword, flat_load. rewrite Hi. destruct m as [| d0 m]; [done |].
  pose proof (zlen_nonneg (concat rest)).
  unfold extract_long. rewrite !Hg by lia.
  replace (k - k + k') with (k' + 0) by lia.
  replace (k + 1 - k + k') with (k' + 1) by lia.
  replace (k + 2 - k + k') with (k' + 2) by lia.
  replace (k + 3 - k + k') with (k' + 3) by lia.
  destruct (Z.leb_spec 4 (zlen d - k')), (Z.leb_spec (k + 4) (zlen (concat (d0 :: m)))); try lia.
  - rewrite !aget_app_l by lia. by rewrite Z.add_0_r.
  - destruct rest as [| d1 rest]; [change (zlen (concat [])) with 0 in Hl; lia |].
    assert (4 - (zlen d - k') <= zlen d1).
    { destruct rest as [| d2 rest].
      - rewrite (zlen_concat_cons d1) in Hl. change (zlen (concat [])) with 0 in Hl. lia.
      - pose proof (word_ready_suffix _ _ _ _ _ Hw Hsuf). lia. }
    destruct (Z.ltb_spec (zlen d1 + zlen d - k') 4); [lia |].
    simpl concat. rewrite !(m_xword_split d d1 _ k' (zlen d - k')) by lia.
    assert (zlen d - k' = 1 \/ zlen d - k' = 2 \/ zlen d - k' = 3) as [-> | [-> | ->]] by lia;
      simpl; rewrite ?Z.add_0_r, ?Z.sub_diag;
      change (2 - 1) with 1; change (3 - 1) with 2; change (3 - 2) with 1;
      repeat match goal with |- context [aget ?l ?i] => destruct (aget l i) end; done.
  - destruct rest as [| d1 rest]; [done |].
    destruct (Z.ltb_spec (zlen d1 + zlen d - k') 4); [done |].
    rewrite (zlen_concat_cons d1) in Hl. pose proof (zlen_nonneg (concat rest)). lia.
Qed.

(** ** Safety of a single step *)

(** Every load that succeeds yields a 32-bit value. *)
Definition load_ok (v : outcome (option Z)) : Prop :=
  match v with
  | Done (Some v) => is_u32 v
  | Done None => True
  | Fault _ => False
  end.

Lemma concat_u8 m : Forall (Forall is_u8) m -> Forall is_u8 (concat m).
Proof. induction 1; simpl; [constructor | by apply Forall_app]. Qed.

Lemma flat_load_ok n ld m k :
  Forall (Forall is_u8) m ->
  (k + n <= zlen (concat m) -> exists v, ld (concat m) k = Done v /\ is_u32 v) ->
  load_ok (flat_load n ld m k).
Proof.
  intros Hm Hld. unfold flat_load. destruct (Z.leb_spec (k + n) (zlen (concat m))); [| done].
  destruct Hld as (v & -> & Hv); done.
Qed.

Lemma m_xhalf_ok m k :
  0 <= k -> m <> [] -> Forall (fun d => 0 < zlen d) m -> Forall (Forall is_u8) m ->
  load_ok (m_xhalf m k).
Proof.
  intros. rewrite m_xhalf_flat by done. apply flat_load_ok; [done |].
  intros. apply extract_short_spec; [by apply concat_u8 | lia | lia].
Qed.

Lemma m_xbyte_ok m k :
  0 <= k -> m <> [] -> Forall (Forall is_u8) m -> load_ok (m_xbyte m k).
Proof.
  intros. rewrite m_xbyte_flat by done. apply flat_load_ok; [done |].
  intros. apply aget_byte_spec; [by apply concat_u8 | lia].
Qed.

(** [m_xword] needs no condition on the chain to be safe: it checks the
    length of the second mbuf. *)
Lemma m_xword_ok m k :
  0 <= k -> m <> [] -> Forall (Forall is_u8) m -> load_ok (m_xword m k).
Proof.
  intros Hk Hm Hu.
  destruct (m_index_nonempty m k Hk Hm)
    as [(d & rest & k' & Hi & Hk' & Hsuf & _) | [Hi _]];
    unfold m_xword; rewrite Hi; [| by destruct m].
  destruct m as [| d0 m]; [done |].
  assert (Forall is_u8 d /\ Forall (Forall is_u8) rest) as [Hd Hrest].
  { destruct Hsuf as [p Hp]. rewrite Hp, Forall_app, Forall_cons in Hu. tauto. }
  destruct (Z.leb_spec 4 (zlen d - k')).
  { destruct (extract_long_spec d k') as (v & -> & Hv); [done | lia | lia | done]. }
  destruct rest as [| d1 rest]; [done |]. apply Forall_cons in Hrest as [Hd1 _].
  destruct (Z.ltb_spec (zlen d1 + zlen d - k') 4); [done |].
  assert (forall j, 0 <= j < zlen d -> exists v, aget d j = Done v /\ is_u8 v) as Gd.
  { intros j Hj. destruct (aget_in_bounds d j Hj) as [v Hv]. eauto using aget_u8. }
  assert (forall j, 0 <= j < zlen d1 -> exists v, aget d1 j = Done v /\ is_u8 v) as Gd1.
  { intros j Hj. destruct (aget_in_bounds d1 j Hj) as [v Hv]. eauto using aget_u8. }
  destruct (Gd k') as (c0 & -> & ?); [lia |].
  destruct (Gd1 0) as (n0 & -> & ?); [lia |].
  destruct (Z.eqb_spec (zlen d - k') 1).
  { destruct (Gd1 1) as (n1 & -> & ?); [lia |]. destruct (Gd1 2) as (n2 & -> & ?); [lia |].
    by apply be32_u32. }
  destruct (Gd (k' + 1)) as (c1 & -> & ?); [lia |].
  destruct (Z.eqb_spec (zlen d - k') 2).
  { destruct (Gd1 1) as (n1 & -> & ?); [lia |]. by apply be32_u32. }
  destruct (Gd (k' + 2)) as (c2 & -> & ?); [lia |]. by apply be32_u32.
Qed.

Section StepSafety.
Context (pkt : packet) (wirelen buflen : Z).
Hypothesis Hpkt : packet_ok pkt buflen.
Hypothesis Hwire : is_u32 wirelen.

Lemma buflen_u32 : is_u32 buflen.
Proof. unfold packet_ok in Hpkt. destruct pkt; unfold_int; [tauto | lia]. Qed.

Lemma load_safe inb flat xm k :
  (inb = true -> forall b, Forall is_u8 b -> buflen <= zlen b ->
     exists v, flat b k = Done v /\ is_u32 v) ->
  (inb = true -> 0 < buflen) ->
  (forall m, m <> [] -> Forall (fun d => 0 < zlen d) m -> Forall (Forall is_u8) m ->
     load_ok (xm m k)) ->
  load_ok (load pkt buflen inb flat xm k).
Proof.
  intros Hflat Hinb Hxm. unfold load. unfold packet_ok in Hpkt.
  destruct pkt as [b | m]; simpl.
  - destruct Hpkt as (Hb & _ & Hu8). destruct inb.
    + simpl. destruct (Hflat eq_refl b Hu8) as (v & -> & Hv); [lia | done].
    + destruct (Z.eqb_spec buflen 0); [lia | done].
  - destruct Hpkt as (-> & Hm & Hpos & Hu8). destruct inb.
    + specialize (Hinb eq_refl). lia.
    + apply Hxm; done.
Qed.

(** What a step may do: return a 32-bit value, go on with well-formed
    registers, or hit the one operation C leaves undefined. *)
Definition step_ok (pc : Z) (s : outcome step_result) : Prop :=
  match s with
  | Done (Return v) => is_u32 v
  | Done (Next pc' r) => pc' = pc + 1 /\ regs_ok r
  | Fault f => f = UndefinedShift
  end.

Lemma ld_result_ok pc upd v :
  load_ok v -> (forall a, is_u32 a -> regs_ok (upd a)) ->
  step_ok pc (v ← v; mret (ld_result pc upd v)).
Proof. intros Hv Hupd. destruct v as [[v |] |]; simpl in *; [eauto | by unfold_int | done]. Qed.

Lemma set_A_ok r a : regs_ok r -> is_u32 a -> regs_ok (set_A r a).
Proof. by intros (? & ? & ?). Qed.

Lemma set_X_ok r x : regs_ok r -> is_u32 x -> regs_ok (set_X r x).
Proof. by intros (? & ? & ?). Qed.

#[local] Hint Resolve set_A_ok set_X_ok u32_range : core.

Lemma exec_ld_w_abs_ok pc i r :
  insn_ok i -> regs_ok r -> step_ok pc (exec_ld_w_abs pkt buflen pc i r).
Proof.
  intros (_ & _ & _ & Hk) Hr. apply ld_result_ok; [| eauto]. unfold is_u32 in Hk.
  apply load_safe; intros; zbool; [apply extract_long_spec; lia || done | lia |].
  apply m_xword_ok; [lia | done | done].
Qed.

Lemma exec_ld_b_abs_ok pc i r :
  insn_ok i -> regs_ok r -> step_ok pc (exec_ld_b_abs pkt buflen pc i r).
Proof.
  intros (_ & _ & _ & Hk) Hr. apply ld_result_ok; [| eauto]. unfold is_u32 in Hk.
  apply load_safe; intros; zbool; [apply aget_byte_spec; [done | lia] | lia |].
  apply m_xbyte_ok; [lia | done | done].
Qed.

Lemma exec_ldx_msh_b_ok pc i r :
  insn_ok i -> regs_ok r -> step_ok pc (exec_ldx_msh_b pkt buflen pc i r).
Proof.
  intros (_ & _ & _ & Hk) Hr. unfold is_u32 in Hk. apply ld_result_ok.
  - apply load_safe; intros; zbool; [apply aget_byte_spec; [done | lia] | lia |].
    apply m_xbyte_ok; [lia | done | done].
  - intros a _. apply set_X_ok; [done |].
    pose proof (land_bounded_r 4 a 0xf ltac:(lia) ltac:(lia)).
    pose proof (shiftl_bounded 4 2 (Z.land a 0xf)). unfold_int. lia.
Qed.

Lemma exec_ld_h_abs_ok pc i r :
  insn_ok i -> regs_ok r -> step_ok pc (exec_ld_h_abs pkt buflen pc i r).
Proof.
  intros (_ & _ & _ & Hk) Hr. unfold is_u32 in Hk. unfold exec_ld_h_abs.
  unfold packet_ok in Hpkt. destruct (negb _) eqn:E; zbool.
  - destruct pkt as [b | m]; [| destruct Hpkt; lia]. destruct Hpkt as (? & ? & ?). simpl.
    destruct (extract_short_spec b (insn_k i)) as (v & -> & Hv); [done | lia | lia |].
    split; [done | eauto].
  - destruct pkt as [b | m]; simpl.
    + destruct (Z.eqb_spec buflen 0); [lia | by unfold_int].
    + destruct Hpkt as (-> & ? & ? & ?). simpl.
      pose proof (m_xhalf_ok m (insn_k i)) as Hx.
      destruct (m_xhalf m (insn_k i)) as [[v |] |]; simpl in *; try tauto.
      all: split; [done |]; apply set_A_ok; [done |]; try (by unfold_int); apply Hx; lia || done.
Qed.

(** The wrapping comparisons of the indexed loads bound the real sum. *)
Lemma ind_bound a b n :
  is_u32 a -> is_u32 b ->
  (buflen <? a) = false -> (u32 (buflen - a) <? b) = false ->
  (u32 (buflen - u32 (b + a)) <? n) = false ->
  u32 (b + a) = b + a /\ b + a + n <= buflen.
Proof.
  intros Ha Hb H1 H2 H3. pose proof buflen_u32 as Hbl. zbool. unfold is_u32 in *.
  rewrite (u32_id (buflen - a)) in H2 by (unfold_int; lia).
  rewrite (u32_id (b + a)) in * by (unfold_int; lia).
  rewrite u32_id in H3 by (unfold_int; lia). lia.
Qed.

Lemma exec_ld_w_ind_ok pc i r :
  insn_ok i -> regs_ok r -> step_ok pc (exec_ld_w_ind pkt buflen pc i r).
Proof.
  intros (_ & _ & _ & Hk) Hr. apply ld_result_ok; [| eauto]. destruct (Hr) as (_ & HX & _).
  pose proof (u32_range (rX r + insn_k i)) as Hu. unfold is_u32 in Hu.
  apply load_safe.
  - intros [[E1 E2]%orb_false_iff E3]%negb_true_iff%orb_false_iff b Hb Hl.
    destruct (ind_bound _ _ _ Hk HX E1 E2 E3). apply extract_long_spec; [done | lia | lia].
  - intros [[E1 E2]%orb_false_iff E3]%negb_true_iff%orb_false_iff.
    destruct (ind_bound _ _ _ Hk HX E1 E2 E3). unfold_int. lia.
  - intros. apply m_xword_ok; [lia | done | done].
Qed.

Lemma exec_ld_h_ind_ok pc i r :
  insn_ok i -> regs_ok r -> step_ok pc (exec_ld_h_ind pkt buflen pc i r).
Proof.
  intros (_ & _ & _ & Hk) Hr. apply ld_result_ok; [| eauto]. destruct (Hr) as (_ & HX & _).
  pose proof (u32_range (rX r + insn_k i)) as Hu. unfold is_u32 in Hu.
  rewrite (Z.add_comm (rX r)) in *.
  apply load_safe.
  - intros [[E1 E2]%orb_false_iff E3]%negb_true_iff%orb_false_iff b Hb Hl.
    destruct (ind_bound _ _ _ HX Hk E1 E2 E3). apply extract_short_spec; [done | lia | lia].
  - intros [[E1 E2]%orb_false_iff E3]%negb_true_iff%orb_false_iff.
    destruct (ind_bound _ _ _ HX Hk E1 E2 E3). unfold_int. lia.
  - intros. apply m_xhalf_ok; [lia | done ..].
Qed.

Lemma exec_ld_b_ind_ok pc i r :
  insn_ok i -> regs_ok r -> step_ok pc (exec_ld_b_ind pkt buflen pc i r).
Proof.
  intros (_ & _ & _ & Hk) Hr. apply ld_result_ok; [| eauto]. destruct (Hr) as (_ & HX & _).
  pose proof (u32_range (rX r + insn_k i)) as Hu. unfold is_u32 in Hu.
  pose proof buflen_u32 as Hbl. unfold is_u32 in *.
  apply load_safe.
  - intros [E1 E2]%negb_true_iff%orb_false_iff b Hb Hl. zbool.
    rewrite u32_id in E2 by (unfold_int; lia).
    rewrite u32_id by (unfold_int; lia). apply aget_byte_spec; [done | lia].
  - intros [E1 E2]%negb_true_iff%orb_false_iff. zbool. lia.
  - intros. apply m_xbyte_ok; [lia | done | done].
Qed.

Lemma exec_mem_ok pc o i r :
  is_u32 (insn_k i) -> insn_k i < BPF_MEMWORDS -> regs_ok r ->
  step_ok pc (exec_mem pc o i r).
Proof.
  intros [Hk _] Hlt Hr. destruct (Hr) as (HA & HX & Hm). unfold exec_mem.
  destruct (aget_in_bounds (rmem r) (insn_k i)) as [v Hv]; [lia |].
  destruct o; rewrite ?Hv, ?aput_in_bounds by lia; split; try done; eauto;
    split_and!; try done; simpl; by rewrite zlen_insert.
Qed.

Lemma exec_alu_ok pc o s i r :
  insn_ok i -> regs_ok r -> (o = DIV -> s = K -> insn_k i <> 0) ->
  step_ok pc (exec_alu pc o s i r).
Proof.
  intros (_ & _ & _ & Hk) Hr Hdiv. destruct (Hr) as (HA & HX & Hm).
  assert (is_u32 (operand s i r)) as Hv by (by destruct s).
  assert (forall a, is_u32 a -> step_ok pc (mret (Next (pc + 1) (set_A r a)))) as Hset
    by (intros; split; [done | eauto]).
  unfold is_u32 in HA, Hv.
  destruct o; unfold exec_alu; cbv beta zeta; try (by apply Hset, u32_range).
  - assert (operand s i r <> 0 -> is_u32 (rA r / operand s i r)).
    { intros. unfold is_u32. split; [apply Z.div_pos; lia | apply Z.div_lt_upper_bound; nia]. }
    destruct (Z.eqb_spec (operand s i r) 0); [| by destruct s; apply Hset; auto].
    destruct s; [by destruct (Hdiv eq_refl eq_refl) | by unfold_int].
  - apply Hset. by apply land_bounded_l.
  - apply Hset. by apply lor_bounded.
  - destruct (Z.leb_spec 32 (operand s i r)); [done |]. apply Hset, u32_range.
  - destruct (Z.leb_spec 32 (operand s i r)); [done |].
    apply Hset. apply shiftr_bounded; lia.
Qed.

End StepSafety.

(** ** Safety of validated programs *)

Lemma decode_in c o : decode c = Some o -> (c, o) ∈ opcodes.
Proof.
  unfold decode. induction opcodes as [| [c' o'] l IH]; simpl; [done |].
  destruct (Z.eqb_spec c c'); [intros [= ->]; subst; set_solver | set_solver].
Qed.

(** What the checker guarantees about the instruction the switch selects. *)
Definition opcode_checked (len pc : Z) (i : bpf_insn) (o : opcode) : Prop :=
  match o with
  | LD_MEM | LDX_MEM | ST | STX => insn_k i < BPF_MEMWORDS
  | ALU DIV K => insn_k i <> 0
  | JMP_JA => pc + 1 + insn_k i < len
  | JMP _ _ => pc + 1 + jt i < len /\ pc + 1 + jf i < len
  | _ => True
  end.

(** The class of a decoded instruction, for the check of the last one. *)
Definition is_ret (o : opcode) : bool :=
  match o with RET_K | RET_A => true | _ => false end.

Ltac decode_cases H :=
  apply decode_in in H; unfold opcodes in H;
  repeat (apply elem_of_cons in H as [[= ? ?] | H]; [subst |]);
  [ .. | by apply elem_of_nil in H ].

(** Evaluate the field extractions of a constant instruction code. *)
Ltac eval_masks H :=
  repeat match type of H with
  | context [BPF_CLASS ?c] => let v := eval vm_compute in (BPF_CLASS c) in change (BPF_CLASS c) with v in H
  | context [BPF_MODE ?c] => let v := eval vm_compute in (BPF_MODE c) in change (BPF_MODE c) with v in H
  | context [BPF_OP ?c] => let v := eval vm_compute in (BPF_OP c) in change (BPF_OP c) with v in H
  | context [BPF_SRC ?c] => let v := eval vm_compute in (BPF_SRC c) in change (BPF_SRC c) with v in H
  end.

Lemma check_insn_decode mb len pc i o :
  insn_ok i -> 0 <= pc < len -> len <= BPF_MAXINSNS ->
  check_insn mb len pc i = true -> decode (code i) = Some o -> opcode_checked len pc i o.
Proof.
  intros (_ & Hjt & Hjf & Hk) Hpc Hlen Hc Hd. unfold BPF_MAXINSNS in *.
  destruct i as [c jt jf k]; simpl in *.
  decode_cases Hd; try exact I;
    unfold check_insn, check_ld, check_alu, check_jmp in Hc; simpl code in Hc;
    eval_masks Hc; simpl in Hc; zbool; simpl; unfold_int; unfold BPF_MEMWORDS in *;
    rewrite ?(Z.mod_small (pc + 1)), ?(Z.mod_small (_ + jt)), ?(Z.mod_small (_ + jf)) in * by lia;
    try lia.
  destruct (Z.lt_ge_cases (pc + 1 + k) (2 ^ 32)).
  - rewrite Z.mod_small in *; lia.
  - assert ((pc + 1 + k) mod 2 ^ 32 = pc + 1 + k - 2 ^ 32) by
      (symmetry; apply (Z.mod_unique _ _ 1); lia). lia.
Qed.

Lemma decode_ret_class i o :
  decode (code i) = Some o -> BPF_CLASS (code i) = BPF_RET -> is_ret o = true.
Proof.
  destruct i as [c jt jf k]. simpl. intros Hd Hc. decode_cases Hd; done.
Qed.

Section Validated.
Context (pkt : packet) (wirelen buflen bpf_maxbufsize : Z) (prog : list bpf_insn).
Hypothesis Hpkt : packet_ok pkt buflen.
Hypothesis Hwire : is_u32 wirelen.
Hypothesis Hinsns : Forall insn_ok prog.
Hypothesis Hvalid : bpf_validate bpf_maxbufsize prog = true.

Lemma check_all_lookup len j f n i :
  check_all bpf_maxbufsize len j f = true -> f !! n = Some i ->
  check_insn bpf_maxbufsize len (j + Z.of_nat n) i = true.
Proof.
  revert j n. induction f as [| p f IH]; intros j n Hf Hi; [done |].
  simpl in Hf. zbool. destruct n as [| n]; simpl in Hi.
  - simplify_eq. by rewrite Z.add_0_r.
  - rewrite <- (IH (j + 1) n) by done. f_equal. lia.
Qed.

Lemma validated_len : 1 <= zlen prog <= BPF_MAXINSNS.
Proof.
  unfold bpf_validate in Hvalid.
  destruct (zlen prog <? 1) eqn:?, (BPF_MAXINSNS <? zlen prog) eqn:?; try done. zbool. lia.
Qed.

Lemma validated_insn pc i :
  aget prog pc = Done i ->
  check_insn bpf_maxbufsize (zlen prog) pc i = true /\ insn_ok i /\
  (pc = zlen prog - 1 -> BPF_CLASS (code i) = BPF_RET).
Proof.
  intros Hi. pose proof validated_len. unfold bpf_validate in Hvalid.
  destruct (orb _ _) eqn:E; [done |]. zbool.
  split_and!.
  - apply aget_Done in Hi as [? Hi].
    replace pc with (0 + Z.of_nat (Z.to_nat pc)) by lia. by eapply check_all_lookup.
  - apply aget_Done in Hi as [_ Hi]. by eapply Forall_lookup_1.
  - intros ->. rewrite Hi in *. by zbool.
Qed.

(** One step of a validated program: it returns, goes forward inside the
    program with well-formed registers, or shifts by 32 or more. *)
Lemma validated_step pc r :
  0 <= pc < zlen prog -> regs_ok r ->
  match step pkt wirelen buflen prog pc r with
  | Done (Return v) => is_u32 v
  | Done (Next pc' r') => pc < pc' < zlen prog /\ regs_ok r'
  | Fault f => f = UndefinedShift
  end.
Proof.
  intros Hpc Hr. destruct (aget_in_bounds prog pc Hpc) as [i Hi].
  destruct (validated_insn pc i Hi) as (Hc & Hok & Hlast).
  unfold step. rewrite Hi. rewrite bind_Done_l.
  destruct (decode (code i)) as [o |] eqn:Ho; [| by unfold_int].
  pose proof (check_insn_decode _ _ _ _ _ Hok Hpc (proj2 validated_len) Hc Ho) as Hch.
  assert (is_ret o = false -> pc + 1 < zlen prog) as Hnext.
  { intros Hret. destruct (decide (pc = zlen prog - 1)) as [E |]; [| lia].
    rewrite (decode_ret_class i o Ho (Hlast E)) in Hret. done. }
  assert (forall s, step_ok pc s -> is_ret o = false ->
    match s with
    | Done (Return v) => is_u32 v
    | Done (Next pc' r') => pc < pc' < zlen prog /\ regs_ok r'
    | Fault f => f = UndefinedShift
    end) as Hstep.
  { intros [[pc' r' | v] | f] Hs Hret; simpl in *; try done.
    destruct Hs as [-> ?]. specialize (Hnext Hret). split; [lia | done]. }
  destruct (Hok) as (_ & [Hjt _] & [Hjf _] & Hk). destruct (Hr) as (HA & HX & Hm).
  destruct o; try done;
    lazymatch goal with
    | |- context [exec_jmp] => simpl in *; split; [case_match; lia | done]
    | |- context [pc + insn_k i + 1] => simpl in *; destruct Hk; split; [lia | done]
    | |- context [exec_alu] =>
        apply Hstep; [| done]; apply exec_alu_ok; [done | done | by intros -> ->]
    | _ => apply Hstep; [| done]
    end;
    eauto using exec_ld_w_abs_ok, exec_ld_h_abs_ok, exec_ld_b_abs_ok, exec_ld_w_ind_ok,
      exec_ld_h_ind_ok, exec_ld_b_ind_ok, exec_ldx_msh_b_ok, exec_mem_ok;
    (split; [done |]; split_and!; simpl; by eauto using u32_range).
Qed.

Lemma validated_run fuel pc r :
  0 <= pc < zlen prog -> regs_ok r -> zlen prog - pc <= Z.of_nat fuel ->
  (exists v, run pkt wirelen buflen fuel prog pc r = Done v /\ is_u32 v) \/
  run pkt wirelen buflen fuel prog pc r = Fault UndefinedShift.
Proof.
  revert pc r. induction fuel as [| fuel IH]; intros pc r Hpc Hr Hf; [lia |].
  simpl. pose proof (validated_step pc r Hpc Hr) as Hs.
  destruct (step _ _ _ _ _ _) as [[pc' r' | v] | f].
  - simpl. apply IH; [lia | tauto | lia].
  - left. by exists v.
  - right. simpl. by rewrite Hs.
Qed.

End Validated.

(** ** Properties *)

(** C5: a program accepted by [bpf_validate], run on a packet that is
    contiguous and has at least one byte, or is an mbuf chain without empty
    mbufs, needs no more steps than it has instructions and ends with a 32-bit
    verdict: no read outside the program, the packet or the scratch memory,
    and no division by zero.  The only other possible end is a shift by 32 or
    more, which [bpf_validate] does not reject.  On a chain with an empty mbuf
    the code does read outside the packet: see [m_xhalf_empty_mbuf]. *)
Theorem bpf_validated_filter_terminates_safely pkt wirelen buflen maxbuf prog :
  packet_ok pkt buflen -> is_u32 wirelen -> Forall insn_ok prog ->
  bpf_validate maxbuf prog = true ->
  (exists v, bpf_filter pkt wirelen buflen (length prog) (Some prog) = Done v /\ is_u32 v) \/
  bpf_filter pkt wirelen buflen (length prog) (Some prog) = Fault UndefinedShift.
Proof.
  intros Hpkt Hw Hi Hv. pose proof (validated_len _ _ Hv).
  apply (validated_run _ _ _ maxbuf); eauto using regs0_ok; unfold zlen in *; lia.
Qed.

(** A filter for the examples: accept packets whose half word at 12 is 0x800
    (an IPv4 Ethernet frame), else drop. *)
Definition ip_filter : list bpf_insn :=
  [ BpfInsn 0x28 0 0 12; BpfInsn 0x15 0 1 0x800; BpfInsn 0x06 0 0 96; BpfInsn 0x06 0 0 0 ].

Definition eth_frame : list Z :=
  [1;2;3;4;5;6;7;8;9;10;11;12;0x08;0x00;0x45;0;0;20].

Lemma eth_frame_u8 : Forall is_u8 eth_frame.
Proof. repeat constructor; unfold_int; lia. Qed.

Lemma ip_filter_ok : Forall insn_ok ip_filter.
Proof. repeat constructor; unfold_int; simpl; lia. Qed.

Lemma bpf_validated_filter_terminates_safely_witness :
  (exists v, bpf_filter (Contig eth_frame) 18 18 4 (Some ip_filter) = Done v /\ is_u32 v) \/
  bpf_filter (Contig eth_frame) 18 18 4 (Some ip_filter) = Fault UndefinedShift.
Proof.
  apply (bpf_validated_filter_terminates_safely (Contig eth_frame) 18 18 0x80000 ip_filter).
  - split; [vm_compute; split; congruence |]. split; [unfold_int; lia | apply eth_frame_u8].
  - unfold_int; lia.
  - apply ip_filter_ok.
  - reflexivity.
Defined.

Example ip_filter_accepts :
  bpf_filter (Contig eth_frame) 18 18 4 (Some ip_filter) = Done 96 /\
  bpf_filter (Chain [take 13 eth_frame; drop 13 eth_frame]) 18 0 4 (Some ip_filter) = Done 96.
Proof. split; reflexivity. Qed.

(** [m_xword] on an mbuf chain whose middle mbufs hold at least three
    bytes reads exactly the big-endian word of the flattened packet, and
    reports an error exactly when the packet is too short. *)
Theorem m_xword_reads_flattened_packet m k :
  0 <= k -> m <> [] -> word_ready m = true ->
  m_xword m k = flat_load 4 extract_long m k.
Proof. apply m_xword_flat. Qed.

Lemma m_xword_reads_flattened_packet_witness :
  m_xword [[1;2;3];[4;5;6];[7]] 2 = flat_load 4 extract_long [[1;2;3];[4;5;6];[7]] 2 /\
  m_xword [[1;2;3];[4;5;6];[7]] 2 = Done (Some 0x03040506).
Proof.
  split; [apply m_xword_reads_flattened_packet; [lia | done | reflexivity] | reflexivity].
Defined.

(** [m_xhalf] reads the half word of the flattened packet and reports an
    error exactly when the packet is too short, when no mbuf is empty. *)
Theorem m_xhalf_reads_flattened_packet m k :
  0 <= k -> m <> [] -> Forall (fun d => 0 < zlen d) m ->
  m_xhalf m k = flat_load 2 extract_short m k.
Proof. apply m_xhalf_flat. Qed.

Lemma m_xhalf_reads_flattened_packet_witness :
  m_xhalf [[1];[2]] 0 = flat_load 2 extract_short [[1];[2]] 0 /\
  m_xhalf [[1];[2]] 0 = Done (Some 0x0102).
Proof.
  split; [apply m_xhalf_reads_flattened_packet; [lia | done |] | reflexivity].
  repeat constructor; vm_compute; reflexivity.
Defined.

(** a half-word load with a constant offset past the end of the packet
    rejects a contiguous packet but not an mbuf chain: the error of
    [m_xhalf] is dropped and the program goes on with A = 0. *)
Theorem ldh_abs_past_end_diverges m k v wirelen :
  m <> [] -> Forall (fun d => 0 < zlen d) m -> is_u32 k -> zlen (concat m) < k + 2 ->
  let prog := [BpfInsn 0x28 0 0 k; BpfInsn 0x06 0 0 v] in
  bpf_filter (Contig (concat m)) wirelen (zlen (concat m)) 2 (Some prog) = Done 0 /\
  bpf_filter (Chain m) wirelen 0 2 (Some prog) = Done v.
Proof.
  intros Hm Hpos [Hk _] Hlen prog. split.
  - assert (0 < zlen (concat m)).
    { destruct m as [| d m]; [done |]. apply Forall_cons in Hpos as [Hd _].
      rewrite zlen_concat_cons. pose proof (zlen_nonneg (concat m)). lia. }
    simpl. unfold step. simpl. unfold exec_ld_h_abs. simpl.
    destruct (zlen (concat m) <? k) eqn:E1, (zlen (concat m) - k <? 2) eqn:E2;
      destruct (Z.eqb_spec (zlen (concat m)) 0); zbool; try lia; done.
  - simpl. unfold step. simpl. unfold exec_ld_h_abs. simpl.
    replace ((0 <? k) || (0 - k <? 2)) with true by
      (symmetry; apply orb_true_iff; destruct (Z.ltb_spec 0 k); [auto | right; apply Z.ltb_lt; lia]).
    simpl. rewrite m_xhalf_flat, flat_load_None by done. reflexivity.
Qed.

Lemma ldh_abs_past_end_diverges_witness :
  bpf_filter (Contig [1;2;3]) 3 3 2 (Some [BpfInsn 0x28 0 0 7; BpfInsn 0x06 0 0 64]) = Done 0 /\
  bpf_filter (Chain [[1;2];[3]]) 3 0 2 (Some [BpfInsn 0x28 0 0 7; BpfInsn 0x06 0 0 64]) = Done 64.
Proof.
  apply (ldh_abs_past_end_diverges [[1;2];[3]] 7 64 3).
  - done.
  - repeat constructor; vm_compute; reflexivity.
  - unfold_int; lia.
  - vm_compute; reflexivity.
Defined.

(** *** Contiguous and chained packets *)

(** Instructions whose packet access is at a constant offset and whose mbuf
    error is checked: word and byte loads, and the header-length load. *)
Definition direct (i : bpf_insn) : bool :=
  match decode (code i) with
  | Some (LD_H_ABS | LD_W_IND | LD_H_IND | LD_B_IND) => false
  | _ => true
  end.

Lemma load_chain_flat m n flat xm k inb :
  0 <= k -> 0 < n -> 0 < zlen (concat m) ->
  inb = (k + n <=? zlen (concat m)) -> xm m k = flat_load n flat m k ->
  load (Chain m) 0 false flat xm k =
  load (Contig (concat m)) (zlen (concat m)) inb flat xm k.
Proof.
  intros Hk Hn Hm -> Hxm. unfold load. simpl. rewrite Hxm. unfold flat_load.
  destruct (Z.leb_spec (k + n) (zlen (concat m))); [done |].
  destruct (Z.eqb_spec (zlen (concat m)) 0); [lia | done].
Qed.

Lemma direct_step m wirelen prog pc r :
  m <> [] -> word_ready m = true -> 0 < zlen (concat m) ->
  Forall insn_ok prog -> Forall (fun i => direct i = true) prog ->
  step (Chain m) wirelen 0 prog pc r =
  step (Contig (concat m)) wirelen (zlen (concat m)) prog pc r.
Proof.
  intros Hm Hw Hpos Hok Hd. unfold step.
  destruct (aget prog pc) as [i |] eqn:Hi; [| done]. rewrite !bind_Done_l.
  apply aget_Done in Hi as [_ Hi].
  destruct (Forall_lookup_1 _ _ _ _ Hok Hi) as (_ & _ & _ & [Hk _]).
  pose proof (Forall_lookup_1 _ _ _ _ Hd Hi) as Hdi. unfold direct in Hdi.
  destruct (decode (code i)) as [o |]; [| done].
  destruct o; try done.
  - unfold exec_ld_w_abs. f_equal.
    replace (negb _) with false by (destruct (Z.ltb_spec 0 (insn_k i)), (Z.ltb_spec (0 - insn_k i) 4); simpl; done || lia).
    apply (load_chain_flat m 4); try done; [| by apply m_xword_flat].
    destruct (Z.ltb_spec (zlen (concat m)) (insn_k i)), (Z.ltb_spec (zlen (concat m) - insn_k i) 4),
      (Z.leb_spec (insn_k i + 4) (zlen (concat m))); simpl; done || lia.
  - unfold exec_ld_b_abs. f_equal.
    replace (insn_k i <? 0) with false by (destruct (Z.ltb_spec (insn_k i) 0); [lia | done]).
    apply (load_chain_flat m 1); try done; [lia | by apply m_xbyte_flat].
  - unfold exec_ldx_msh_b. f_equal.
    replace (insn_k i <? 0) with false by (destruct (Z.ltb_spec (insn_k i) 0); [lia | done]).
    apply (load_chain_flat m 1); try done; [lia | by apply m_xbyte_flat].
Qed.

(** C29: a filter whose packet accesses are byte and word loads at constant
    offsets (no half-word and no indexed load) gives the same verdict on an
    mbuf chain as on the packet copied into one buffer, for every amount of
    fuel.  The packet has at least one byte, and every mbuf but the first and
    the last has at least three ([word_ready]): [m_xword] looks no further
    than the next mbuf.  A half-word load behind the end of the packet does
    differ: see [ldh_abs_past_end_diverges]. *)
Theorem bpf_filter_chain_equals_contiguous m wirelen prog fuel :
  m <> [] -> word_ready m = true -> 0 < zlen (concat m) ->
  Forall insn_ok prog -> Forall (fun i => direct i = true) prog ->
  bpf_filter (Chain m) wirelen 0 fuel (Some prog) =
  bpf_filter (Contig (concat m)) wirelen (zlen (concat m)) fuel (Some prog).
Proof.
  intros Hm Hw Hpos Hok Hd.
  enough (forall pc r, run (Chain m) wirelen 0 fuel prog pc r =
    run (Contig (concat m)) wirelen (zlen (concat m)) fuel prog pc r) as H by apply H.
  induction fuel as [| fuel IH]; intros pc r; [done |]. simpl.
  rewrite direct_step by done.
  destruct (step _ _ _ _ _ _) as [[pc' r' | v] |]; simpl; auto.
Qed.

Lemma bpf_filter_chain_equals_contiguous_witness :
  let prog := [BpfInsn 0x20 0 0 1; BpfInsn 0x16 0 0 0] in
  bpf_filter (Chain [[1;2];[3;4;5];[6]]) 6 0 2 (Some prog) =
  bpf_filter (Contig [1;2;3;4;5;6]) 6 6 2 (Some prog) /\
  bpf_filter (Contig [1;2;3;4;5;6]) 6 6 2 (Some prog) = Done 0x02030405.
Proof.
  split; [| reflexivity].
  apply (bpf_filter_chain_equals_contiguous [[1;2];[3;4;5];[6]] 6
           [BpfInsn 0x20 0 0 1; BpfInsn 0x16 0 0 0] 2).
  - done.
  - reflexivity.
  - vm_compute; reflexivity.
  - repeat constructor; unfold_int; simpl; lia.
  - repeat constructor.
Defined.

(** An empty mbuf after the byte a half-word load starts at makes [m_xhalf]
    read a byte that is not packet data. *)
Example m_xhalf_empty_mbuf : m_xhalf [[1]; []; [2]] 0 = Fault OutOfBounds.
Proof. reflexivity. Qed.
