(* ===== verification/Sbuf.v ===== *)
(** * String buffers: sys/kern/subr_sbuf.c

    The kernel build of the safe string buffers: a byte array with a length,
    that is extended automatically, flushed through a drain callback, or put
    in a sticky error state when it is full.  Assertions of the INVARIANTS
    kernel are kept as panics, and the theorems show they cannot fire.  The
    abstract view of a buffer is the byte string [content s]; every operation
    is proved to act on it as on an unbounded string, a bounded string or a
    stream, according to the buffer's mode. *)

From stdpp Require Import prelude list strings.
From S2P Require Import Prelude.
Open Scope Z_scope.

Definition SBUF_FIXEDLEN := 0x0.
Definition SBUF_AUTOEXTEND := 0x1.
Definition SBUF_USRFLAGMSK := 0xffff.
Definition SBUF_DYNAMIC := 0x10000.
Definition SBUF_FINISHED := 0x20000.
Definition SBUF_DYNSTRUCT := 0x80000.
Definition SBUF_INSECTION := 0x100000.

Definition SBUF_MINEXTENDSIZE := 16.
Definition SBUF_MAXEXTENDSIZE := 4096.
Definition SBUF_MAXEXTENDINCR := 4096.

Definition ENOMEM := 12.
Definition ENAMETOOLONG := 63.

(** roundup(x, y) with a size_t y: unsigned 64-bit arithmetic. *)
Definition roundup (x y : Z) : Z := u64 (u64 (x + (y - 1)) / y * y).
Definition roundup2 (x y : Z) : Z := Z.land (x + (y - 1)) (Z.lnot (y - 1)).

Section Sbuf.

(** The drain callback: called with its argument and the buffered bytes, it
    returns how many it took, or a negated errno. *)
Context {D : Type} (drain_func : D -> list Z -> Z * D).

(** struct sbuf.  [s_drain] is [Some arg] when s_drain_func is set. *)
Record sbuf := Sbuf {
  s_buf : list Z;
  s_drain : option D;
  s_error : Z;
  s_size : Z;
  s_len : Z;
  s_flags : Z;
  s_sect_len : Z
}.

Definition with_buf (s : sbuf) b n := Sbuf b (s_drain s) (s_error s) n (s_len s) (s_flags s) (s_sect_len s).
Definition with_drain (s : sbuf) d := Sbuf (s_buf s) d (s_error s) (s_size s) (s_len s) (s_flags s) (s_sect_len s).
Definition with_error (s : sbuf) e := Sbuf (s_buf s) (s_drain s) e (s_size s) (s_len s) (s_flags s) (s_sect_len s).
Definition with_len (s : sbuf) n := Sbuf (s_buf s) (s_drain s) (s_error s) (s_size s) n (s_flags s) (s_sect_len s).
Definition with_flags (s : sbuf) f := Sbuf (s_buf s) (s_drain s) (s_error s) (s_size s) (s_len s) f (s_sect_len s).
Definition with_sect (s : sbuf) n := Sbuf (s_buf s) (s_drain s) (s_error s) (s_size s) (s_len s) (s_flags s) n.

Definition SBUF_ISDYNAMIC (s : sbuf) : bool := btest (s_flags s) SBUF_DYNAMIC.
Definition SBUF_ISDYNSTRUCT (s : sbuf) : bool := btest (s_flags s) SBUF_DYNSTRUCT.
Definition SBUF_ISFINISHED (s : sbuf) : bool := btest (s_flags s) SBUF_FINISHED.
Definition SBUF_FREESPACE (s : sbuf) : Z := s_size s - (s_len s + 1).
Definition SBUF_CANEXTEND (s : sbuf) : bool := btest (s_flags s) SBUF_AUTOEXTEND.
Definition SBUF_ISSECTION (s : sbuf) : bool := btest (s_flags s) SBUF_INSECTION.
Definition SBUF_SETFLAG (s : sbuf) (f : Z) : sbuf := with_flags s (Z.lor (s_flags s) f).
Definition SBUF_CLEARFLAG (s : sbuf) (f : Z) : sbuf := with_flags s (Z.ldiff (s_flags s) f).

Definition assert_sbuf_integrity (s : sbuf) : outcome unit :=
  KKASSERT "wrote past end of sbuf" (s_len s <? s_size s).

Definition assert_sbuf_state (s : sbuf) (state : Z) : outcome unit :=
  KKASSERT "finished or unfinished sbuf" (Z.land (s_flags s) SBUF_FINISHED =? state).

(** ** Growing the buffer *)

(** while (newsize < size) newsize *= 2; eight doublings take 16 to
    SBUF_MAXEXTENDSIZE. *)
Fixpoint double_until (fuel : nat) (newsize size : Z) : outcome Z :=
  if newsize <? size then
    match fuel with
    | O => Fault OutOfFuel
    | S fuel => double_until fuel (newsize * 2) size
    end
  else mret newsize.

Definition sbuf_extendsize (size : Z) : outcome Z :=
  newsize ← (if size <? SBUF_MAXEXTENDSIZE
             then double_until 8 SBUF_MINEXTENDSIZE size
             else mret (s32 (roundup2 size SBUF_MAXEXTENDINCR)));
  _ ← KKASSERT "sbuf_extendsize" (size <=? newsize);
  mret newsize.

(** kmalloc(size, M_SBUF, M_WAITOK|M_ZERO): zeroed memory, never NULL. *)
Definition SBMALLOC (size : Z) : list Z := replicate (Z.to_nat size) 0.

(** memcpy into the front of a fresh buffer. *)
Definition copy_in (new old : list Z) : list Z := old ++ drop (length old) new.

(** Returns the buffer and 0 or -1. *)
Definition sbuf_extend (s : sbuf) (addlen : Z) : outcome (sbuf * Z) :=
  if negb (SBUF_CANEXTEND s) then mret (s, -1)
  else
    newsize ← sbuf_extendsize (s32 (s_size s + addlen));
    let newbuf := copy_in (SBMALLOC newsize) (s_buf s) in
    let s := if SBUF_ISDYNAMIC s then s else SBUF_SETFLAG s SBUF_DYNAMIC in
    mret (with_buf s newbuf newsize, 0).

(** ** Creation and deletion *)

(** sbuf_newbuf(s, buf, length, flags); [None] is a NULL buf. *)
Definition sbuf_newbuf (buf : option (list Z)) (length flags : Z) : outcome sbuf :=
  let s := Sbuf [] None 0 length 0 flags 0 in
  _ ← (if btest flags SBUF_AUTOEXTEND then mret tt
       else KKASSERT "attempt to create a too small sbuf" (0 <=? length));
  match buf with
  | Some b => mret (with_buf s b length)
  | None =>
    size ← (if btest flags SBUF_AUTOEXTEND then sbuf_extendsize length else mret length);
    mret (SBUF_SETFLAG (with_buf s (SBMALLOC size) size) SBUF_DYNAMIC)
  end.

(** sbuf_new(s, buf, length, flags); [alloc] is s == NULL. *)
Definition sbuf_new (alloc : bool) (buf : option (list Z)) (length flags : Z) : outcome sbuf :=
  _ ← KKASSERT "attempt to create an sbuf of negative length" (0 <=? length);
  _ ← KKASSERT "sbuf_new called with invalid flags" (Z.ldiff flags SBUF_USRFLAGMSK =? 0);
  s ← sbuf_newbuf buf length (Z.land flags SBUF_USRFLAGMSK);
  mret (if alloc then SBUF_SETFLAG s SBUF_DYNSTRUCT else s).

(** sbuf_delete: whether s_buf and the structure itself are freed. *)
Definition sbuf_delete (s : sbuf) : outcome (bool * bool) :=
  _ ← assert_sbuf_integrity s;
  mret (SBUF_ISDYNAMIC s, SBUF_ISDYNSTRUCT s).

(** sbuf_uionew: [uiomove] gives the bytes of the uio, or an error. *)
Definition sbuf_uionew (alloc : bool) (uio_resid : Z) (uiomove : Z + list Z)
    : outcome (Z + sbuf) :=
  s ← sbuf_new alloc None (s32 (uio_resid + 1)) 0;
  match uiomove with
  | inl error => _ ← sbuf_delete s; mret (inl error)
  | inr data =>
    let s := with_buf s (copy_in (s_buf s) data) (s_size s) in
    let s := with_len s (s_size s - 1) in
    mret (inr (if SBUF_ISSECTION s then with_sect s (s_size s - 1) else s))
  end.

Definition sbuf_clear (s : sbuf) : outcome sbuf :=
  _ ← assert_sbuf_integrity s;
  let s := SBUF_CLEARFLAG s SBUF_FINISHED in
  mret (with_sect (with_len (with_error s 0) 0) 0).

Definition sbuf_setpos (s : sbuf) (pos : Z) : outcome (sbuf * Z) :=
  _ ← assert_sbuf_integrity s;
  _ ← assert_sbuf_state s 0;
  _ ← KKASSERT "attempt to seek to a negative position" (0 <=? pos);
  _ ← KKASSERT "attempt to seek past end of sbuf" (pos <? s_size s);
  _ ← KKASSERT "attempt to seek when in a section" (negb (SBUF_ISSECTION s));
  if (pos <? 0) || (s_len s <? pos) then mret (s, -1)
  else mret (with_len s pos, 0).

(** sbuf_set_drain; [same] is func == s->s_drain_func. *)
Definition sbuf_set_drain (s : sbuf) (same : bool) (arg : option D) : outcome sbuf :=
  _ ← assert_sbuf_state s 0;
  _ ← assert_sbuf_integrity s;
  _ ← KKASSERT "Cannot change drain on non-empty sbuf" (same || (s_len s =? 0));
  mret (with_drain s arg).

(** ** Appending *)

(** sbuf_drain(s): called with a drain set; returns 0 or the error. *)
Definition sbuf_drain (s : sbuf) : outcome (sbuf * Z) :=
  match s_drain s with
  | None => Fault NullDeref
  | Some d =>
    _ ← KKASSERT "Shouldn't drain empty sbuf" (0 <? s_len s);
    _ ← KKASSERT "Called sbuf_drain with error" (s_error s =? 0);
    let '(len, d) := drain_func d (take (Z.to_nat (s_len s)) (s_buf s)) in
    let s := with_drain s (Some d) in
    if len <? 0 then mret (with_error s (- len), - len)
    else
      _ ← KKASSERT "Bad drain amount" ((0 <? len) && (len <=? s_len s));
      let s := with_len s (s_len s - len) in
      if s_len s =? 0 then mret (s, 0)
      else
        let rest := take (Z.to_nat (s_len s)) (drop (Z.to_nat len) (s_buf s)) in
        mret (with_buf s (rest ++ drop (length rest) (s_buf s)) (s_size s), 0)
  end.

(** s->s_buf[s->s_len++] = c, and the section count. *)
Definition store_char (s : sbuf) (c : Z) : outcome sbuf :=
  b ← aput (s_buf s) (s_len s) (u8 c);
  let s := with_len (with_buf s b (s_size s)) (s_len s + 1) in
  mret (if SBUF_ISSECTION s then with_sect s (s_sect_len s + 1) else s).

Definition sbuf_put_byte (s : sbuf) (c : Z) : outcome sbuf :=
  _ ← assert_sbuf_integrity s;
  _ ← assert_sbuf_state s 0;
  if negb (s_error s =? 0) then mret s
  else
    s ← (if SBUF_FREESPACE s <=? 0 then
           match s_drain s with
           | Some _ => '(s, _) ← sbuf_drain s; mret s
           | None => '(s, r) ← sbuf_extend s 1;
                     mret (if r <? 0 then with_error s ENOMEM else s)
           end
         else mret s);
    if negb (s_error s =? 0) then mret s else store_char s c.

(** The append loop of sbuf_bcat and sbuf_cat. *)
Fixpoint put_bytes (s : sbuf) (str : list Z) : outcome (sbuf * Z) :=
  match str with
  | [] => mret (s, 0)
  | c :: str =>
    s ← sbuf_put_byte s c;
    if negb (s_error s =? 0) then mret (s, -1) else put_bytes s str
  end.

Definition sbuf_bcat (s : sbuf) (buf : list Z) : outcome (sbuf * Z) :=
  _ ← assert_sbuf_integrity s;
  _ ← assert_sbuf_state s 0;
  if negb (s_error s =? 0) then mret (s, -1) else put_bytes s buf.

Definition sbuf_bcpy (s : sbuf) (buf : list Z) : outcome (sbuf * Z) :=
  _ ← assert_sbuf_integrity s;
  _ ← assert_sbuf_state s 0;
  s ← sbuf_clear s;
  sbuf_bcat s buf.

(** [str] is the C string without its NUL. *)
Definition sbuf_cat (s : sbuf) (str : list Z) : outcome (sbuf * Z) :=
  _ ← assert_sbuf_integrity s;
  _ ← assert_sbuf_state s 0;
  if negb (s_error s =? 0) then mret (s, -1) else put_bytes s str.

Definition sbuf_cpy (s : sbuf) (str : list Z) : outcome (sbuf * Z) :=
  _ ← assert_sbuf_integrity s;
  _ ← assert_sbuf_state s 0;
  s ← sbuf_clear s;
  sbuf_cat s str.

Definition sbuf_putc_func (s : sbuf) (c : Z) : outcome sbuf :=
  if negb (c =? 0) then sbuf_put_byte s c else mret s.

(** sbuf_vprintf: [out] is what kvcprintf(9) passes to its callback. *)
Fixpoint putc_all (s : sbuf) (out : list Z) : outcome sbuf :=
  match out with
  | [] => mret s
  | c :: out => s ← sbuf_putc_func s c; putc_all s out
  end.

Definition sbuf_vprintf (s : sbuf) (out : list Z) : outcome (sbuf * Z) :=
  _ ← assert_sbuf_integrity s;
  _ ← assert_sbuf_state s 0;
  s ← putc_all s out;
  mret (s, if negb (s_error s =? 0) then -1 else 0).

Definition sbuf_putc (s : sbuf) (c : Z) : outcome (sbuf * Z) :=
  s ← sbuf_put_byte s c;
  mret (s, if negb (s_error s =? 0) then -1 else 0).

(** Write a block at an offset. *)
Definition bwrite (l : list Z) (i : Z) (b : list Z) : outcome (list Z) :=
  if (0 <=? i) && (i + zlen b <=? zlen l)
  then mret (take (Z.to_nat i) l ++ b ++ drop (Z.to_nat i + length b) l)
  else Fault OutOfBounds.

(** sbuf_bcopyin: [copyin n] is what copyin(9) gives for [n] bytes at uaddr. *)
Definition sbuf_bcopyin (s : sbuf) (copyin : Z -> option (list Z)) (len : Z)
    : outcome (sbuf * Z) :=
  _ ← assert_sbuf_integrity s;
  _ ← assert_sbuf_state s 0;
  _ ← KKASSERT "Nonsensical copyin" (negb (bool_decide (is_Some (s_drain s))));
  if negb (s_error s =? 0) then mret (s, -1)
  else if len =? 0 then mret (s, 0)
  else
    '(s, len) ←
      (if SBUF_FREESPACE s <? len then
         '(s, _) ← sbuf_extend s (s32 (len - SBUF_FREESPACE s));
         mret (s, if SBUF_FREESPACE s <? len then SBUF_FREESPACE s else len)
       else mret (s, len));
    match copyin len with
    | None => mret (s, -1)
    | Some data =>
      b ← bwrite (s_buf s) (s_len s) data;
      mret (with_len (with_buf s b (s_size s)) (s_len s + len), 0)
    end.

(** sbuf_copyin: [copyinstr n] gives the error (0, ENAMETOOLONG or another)
    and the bytes stored, the NUL included. *)
Definition sbuf_copyin (s : sbuf) (copyinstr : Z -> Z * list Z) (len : Z)
    : outcome (sbuf * Z) :=
  _ ← assert_sbuf_integrity s;
  _ ← assert_sbuf_state s 0;
  _ ← KKASSERT "Nonsensical copyin" (negb (bool_decide (is_Some (s_drain s))));
  if negb (s_error s =? 0) then mret (s, -1)
  else
    let len := if len =? 0 then SBUF_FREESPACE s else len in
    '(s, len) ←
      (if SBUF_FREESPACE s <? len then
         '(s, _) ← sbuf_extend s (s32 len);
         mret (s, if SBUF_FREESPACE s <? len then SBUF_FREESPACE s else len)
       else mret (s, len));
    let '(err, data) := copyinstr (len + 1) in
    b ← bwrite (s_buf s) (s_len s) data;
    let s := with_buf s b (s_size s) in
    let done := zlen data in
    if (err =? ENAMETOOLONG) || (err =? 0) then
      let s := if err =? ENAMETOOLONG then with_error s ENOMEM else s in
      let s := with_len s (s_len s + (done - 1)) in
      let s := if SBUF_ISSECTION s then with_sect s (s_sect_len s + (done - 1)) else s in
      mret (s, s32 done)
    else mret (s, -1).

(** ** Trimming, finishing, reading *)

Definition isspace (c : Z) : bool := (c =? 32) || ((9 <=? c) && (c <=? 13)).

Fixpoint trim_loop (fuel : nat) (s : sbuf) : outcome sbuf :=
  if s_len s <=? 0 then mret s
  else
    c ← aget (s_buf s) (s_len s - 1);
    if isspace c then
      match fuel with
      | O => Fault OutOfFuel
      | S fuel =>
        let s := with_len s (s_len s - 1) in
        trim_loop fuel (if SBUF_ISSECTION s then with_sect s (s_sect_len s - 1) else s)
      end
    else mret s.

Definition sbuf_trim (s : sbuf) : outcome (sbuf * Z) :=
  _ ← assert_sbuf_integrity s;
  _ ← assert_sbuf_state s 0;
  _ ← KKASSERT "sbuf_trim makes no sense with drain" (negb (bool_decide (is_Some (s_drain s))));
  if negb (s_error s =? 0) then mret (s, -1)
  else s ← trim_loop (Z.to_nat (s_len s)) s; mret (s, 0).

(** while (s->s_len > 0 && s->s_error == 0) s->s_error = sbuf_drain(s); *)
Fixpoint drain_loop (fuel : nat) (s : sbuf) : outcome sbuf :=
  if (0 <? s_len s) && (s_error s =? 0) then
    match fuel with
    | O => Fault OutOfFuel
    | S fuel => '(s, e) ← sbuf_drain s; drain_loop fuel (with_error s e)
    end
  else mret s.

Definition sbuf_finish (s : sbuf) : outcome (sbuf * Z) :=
  _ ← assert_sbuf_integrity s;
  _ ← assert_sbuf_state s 0;
  s ← match s_drain s with
      | Some _ => drain_loop (Z.to_nat (s_len s)) s
      | None => mret s
      end;
  b ← aput (s_buf s) (s_len s) 0;
  let s := SBUF_SETFLAG (with_buf s b (s_size s)) SBUF_FINISHED in
  mret (s, s_error s).

Definition sbuf_data (s : sbuf) : outcome (list Z) :=
  _ ← assert_sbuf_integrity s;
  _ ← assert_sbuf_state s SBUF_FINISHED;
  _ ← KKASSERT "sbuf_data makes no sense with drain" (negb (bool_decide (is_Some (s_drain s))));
  mret (s_buf s).

Definition sbuf_length (s : sbuf) : outcome Z :=
  _ ← assert_sbuf_integrity s;
  _ ← KKASSERT "sbuf_len makes no sense with drain" (negb (bool_decide (is_Some (s_drain s))));
  mret (if negb (s_error s =? 0) then -1 else s_len s).

(** ** Sections *)

(** sbuf_start_section: the new buffer and the value stored in *old_lenp;
    [has_ptr] is old_lenp != NULL. *)
Definition sbuf_start_section (s : sbuf) (has_ptr : bool) : outcome (sbuf * Z) :=
  _ ← assert_sbuf_integrity s;
  _ ← assert_sbuf_state s 0;
  if negb (SBUF_ISSECTION s) then
    _ ← KKASSERT "s_sect_len != 0 when starting a section" (s_sect_len s =? 0);
    mret (SBUF_SETFLAG s SBUF_INSECTION, -1)
  else
    _ ← KKASSERT "s_sect_len should be saved when starting a subsection" has_ptr;
    mret (with_sect s 0, s_sect_len s).

(** for (; s->s_error == 0 && len > 0; len--) sbuf_put_byte(s, c); *)
Fixpoint pad_loop (len : nat) (s : sbuf) (c : Z) : outcome sbuf :=
  if negb (s_error s =? 0) then mret s
  else match len with
       | O => mret s
       | S len => s ← sbuf_put_byte s c; pad_loop len s c
       end.

Definition sbuf_end_section (s : sbuf) (old_len pad c : Z) : outcome (sbuf * Z) :=
  _ ← assert_sbuf_integrity s;
  _ ← assert_sbuf_state s 0;
  _ ← KKASSERT "attempt to end a section when not in a section" (SBUF_ISSECTION s);
  s ← (if 1 <? pad
       then pad_loop (Z.to_nat (s64 (roundup (s_sect_len s) pad - s_sect_len s))) s c
       else mret s);
  let len := s_sect_len s in
  let s := if old_len =? -1
           then SBUF_CLEARFLAG (with_sect s 0) SBUF_INSECTION
           else with_sect s (s_sect_len s + old_len) in
  mret (s, if negb (s_error s =? 0) then -1 else len).

(** ** The abstract view and the invariant *)

Definition content (s : sbuf) : list Z := take (Z.to_nat (s_len s)) (s_buf s).

Definition sbuf_ok (s : sbuf) : Prop :=
  zlen (s_buf s) = s_size s /\ 0 <= s_len s < s_size s.

(** The modes of a buffer that appending does not change. *)
Definition same_mode (s s' : sbuf) : Prop :=
  SBUF_ISFINISHED s' = SBUF_ISFINISHED s /\ SBUF_CANEXTEND s' = SBUF_CANEXTEND s /\
  SBUF_ISSECTION s' = SBUF_ISSECTION s.

(** Sizes up to here keep the int arithmetic of sbuf_extend exact. *)
Definition SIZE_LIMIT := 2 ^ 31 - 4096.

(** [s'] is [s] with the bytes [bs] appended. *)
Definition appended (s s' : sbuf) (bs : list Z) : Prop :=
  sbuf_ok s' /\ content s' = content s ++ bs /\ s_error s' = 0 /\ same_mode s s' /\
  s_sect_len s' = s_sect_len s + (if SBUF_ISSECTION s then zlen bs else 0) /\
  s_len s' = s_len s + zlen bs /\
  s_size s <= s_size s' <= Z.max (s_size s) (s_len s' + 4096).

Lemma content_len s : sbuf_ok s -> zlen (content s) = s_len s.
Proof. intros [Hl Hn]. unfold content, zlen in *. rewrite length_take. lia. Qed.

Lemma appended_trans s1 s2 s3 b1 b2 :
  appended s1 s2 b1 -> appended s2 s3 b2 -> appended s1 s3 (b1 ++ b2).
Proof.
  intros (O1 & C1 & E1 & (F1 & X1 & S1) & L1 & N1 & Z1)
         (O2 & C2 & E2 & (F2 & X2 & S2) & L2 & N2 & Z2).
  rewrite S1 in L2.
  pose proof (zlen_nonneg b2).
  unfold appended, same_mode. rewrite zlen_app, C2, C1, app_assoc.
  split_and!; try done; try congruence; try lia.
  destruct (SBUF_ISSECTION s1); lia.
Qed.

Lemma double_until_spec fuel newsize size :
  0 < newsize -> size <= newsize * 2 ^ Z.of_nat fuel ->
  exists r, double_until fuel newsize size = Done r /\ size <= r /\ newsize <= r /\
            r <= newsize * 2 ^ Z.of_nat fuel.
Proof.
  revert newsize. induction fuel as [| fuel IH]; intros n Hn Hs; simpl.
  - change (2 ^ Z.of_nat 0) with 1 in *. destruct (Z.ltb_spec n size); [lia |].
    exists n. split; [done | lia].
  - rewrite Nat2Z.inj_succ, Z.pow_succ_r in * by lia. destruct (Z.ltb_spec n size).
    + destruct (IH (n * 2)) as (r & -> & ? & ? & Hr); [lia | lia |]. exists r. split; [done | lia].
    + exists n. split; [done |]. pose proof (Z.pow_pos_nonneg 2 (Z.of_nat fuel)). nia.
Qed.

Lemma roundup2_4096 x : 0 <= x -> x <= roundup2 x 4096 <= x + 4095.
Proof.
  intros Hx. unfold roundup2. change (4096 - 1) with (Z.ones 12).
  assert (Z.land (x + Z.ones 12) (Z.lnot (Z.ones 12)) =
          (x + Z.ones 12) - (x + Z.ones 12) mod 2 ^ 12) as ->.
  { rewrite <- Z.ldiff_land, <- Z.land_ones by lia.
    rewrite Z.sub_nocarry_ldiff.
    - apply Z.bits_inj'. intros i Hi. rewrite !Z.ldiff_spec, Z.land_spec.
      destruct (Z.testbit (x + Z.ones 12) i), (Z.testbit (Z.ones 12) i); done.
    - apply Z.bits_inj'. intros i Hi. rewrite Z.ldiff_spec, Z.land_spec, Z.bits_0.
      destruct (Z.testbit (x + Z.ones 12) i), (Z.testbit (Z.ones 12) i); done. }
  change (Z.ones 12) with 4095.
  pose proof (Z.mod_pos_bound (x + 4095) (2 ^ 12)). lia.
Qed.

Lemma sbuf_extendsize_spec size :
  0 <= size <= SIZE_LIMIT ->
  exists r, sbuf_extendsize size = Done r /\ size <= r <= Z.max 4096 (size + 4095) /\
            SBUF_MINEXTENDSIZE <= r.
Proof.
  intros Hs. unfold sbuf_extendsize, SIZE_LIMIT, SBUF_MAXEXTENDSIZE, SBUF_MINEXTENDSIZE,
    SBUF_MAXEXTENDINCR in *.
  destruct (Z.ltb_spec size 4096).
  - destruct (double_until_spec 8 16 size) as (r & -> & ? & ? & Hr); [lia | simpl; lia |].
    simpl in Hr. rewrite bind_Done_l, (proj2 (Z.leb_le size r)) by lia.
    exists r. split; [done | lia].
  - pose proof (roundup2_4096 size). simpl. rewrite s32_id by (unfold_int; lia).
    rewrite (proj2 (Z.leb_le size _)) by lia. eexists. split; [done |]. lia.
Qed.

(** ** Appending one byte *)

Lemma unfinished_assert s :
  SBUF_ISFINISHED s = false -> assert_sbuf_state s 0 = Done tt.
Proof.
  unfold SBUF_ISFINISHED, btest, assert_sbuf_state. intros H.
  by rewrite (proj1 (negb_false_iff _) H).
Qed.

Lemma ok_assert s : sbuf_ok s -> assert_sbuf_integrity s = Done tt.
Proof.
  intros [_ ?]. unfold assert_sbuf_integrity. by rewrite (proj2 (Z.ltb_lt _ _)) by lia.
Qed.

(** Storing a byte at the end of a buffer that has room for it. *)
Lemma store_byte s c :
  sbuf_ok s -> s_error s = 0 -> 0 < SBUF_FREESPACE s ->
  exists s', store_char s c = Done s' /\
    appended s s' [u8 c] /\ s_drain s' = s_drain s /\ s_size s' = s_size s.
Proof.
  intros [Hl Hn] He Hf. unfold SBUF_FREESPACE in Hf. unfold store_char.
  rewrite aput_in_bounds by lia. simpl. eexists. split; [reflexivity |].
  assert (forall b n k, SBUF_ISSECTION (with_len (with_buf s b n) k) = SBUF_ISSECTION s) as Hsec by done.
  rewrite Hsec. unfold appended, same_mode, sbuf_ok, content.
  destruct (SBUF_ISSECTION s) eqn:E; simpl; rewrite zlen_insert;
    (split_and!; try done; try lia; try (change (zlen [u8 c]) with 1; lia)).
  all: replace (Z.to_nat (s_len s + 1)) with (S (Z.to_nat (s_len s))) by lia.
  all: rewrite (take_S_r _ _ (u8 c)) by (apply list_lookup_insert_eq; unfold zlen in *; lia).
  all: f_equal; apply take_insert_ge; lia.
Qed.

Lemma copy_in_len new old : zlen old <= zlen new -> zlen (copy_in new old) = zlen new.
Proof. unfold copy_in, zlen. intros. rewrite length_app, length_drop. lia. Qed.

(** Extending keeps the content and makes room. *)
Lemma sbuf_extend_spec s addlen :
  sbuf_ok s -> SBUF_CANEXTEND s = true -> 0 < addlen -> s_size s + addlen <= SIZE_LIMIT ->
  exists s', sbuf_extend s addlen = Done (s', 0) /\ sbuf_ok s' /\ content s' = content s /\
    same_mode s s' /\ s_error s' = s_error s /\ s_drain s' = s_drain s /\
    s_len s' = s_len s /\ s_sect_len s' = s_sect_len s /\
    s_size s + addlen <= s_size s' <= Z.max 4096 (s_size s + addlen + 4095).
Proof.
  intros [Hl Hn] Hx Ha Hlim. unfold sbuf_extend. rewrite Hx. simpl.
  rewrite s32_id by (unfold SIZE_LIMIT in *; unfold_int; lia).
  destruct (sbuf_extendsize_spec (s_size s + addlen)) as (r & -> & Hr & _); [lia |].
  rewrite bind_Done_l. eexists. split; [reflexivity |].
  assert (zlen (copy_in (SBMALLOC r) (s_buf s)) = r) as Hz.
  { rewrite copy_in_len; unfold SBMALLOC, zlen in *; rewrite length_replicate; lia. }
  assert (take (Z.to_nat (s_len s)) (copy_in (SBMALLOC r) (s_buf s)) = content s) as Hc.
  { unfold copy_in, content. rewrite take_app_le; [done | unfold zlen in *; lia]. }
  unfold same_mode, sbuf_ok, content, SBUF_ISFINISHED, SBUF_CANEXTEND, SBUF_ISSECTION in *.
  destruct (SBUF_ISDYNAMIC s); simpl; rewrite ?btest_lor, ?orb_false_r; split_and!; done || lia.
Qed.

(** Without a drain: the byte is appended when there is room or the buffer
    can grow; otherwise the buffer keeps its content and enters the error
    state. *)
Lemma sbuf_put_byte_spec s c :
  sbuf_ok s -> SBUF_ISFINISHED s = false -> s_error s = 0 -> s_drain s = None ->
  s_size s < SIZE_LIMIT ->
  if (0 <? SBUF_FREESPACE s) || SBUF_CANEXTEND s
  then exists s', sbuf_put_byte s c = Done s' /\ appended s s' [u8 c] /\ s_drain s' = None /\
         (0 < SBUF_FREESPACE s -> s_size s' = s_size s)
  else sbuf_put_byte s c = Done (with_error s ENOMEM).
Proof.
  intros Hok Hf He Hd Hlim. unfold sbuf_put_byte.
  rewrite ok_assert, unfinished_assert, He by done. rewrite !bind_Done_l. simpl.
  destruct (Z.ltb_spec 0 (SBUF_FREESPACE s)) as [Hroom | Hfull]; simpl.
  - rewrite (proj2 (Z.leb_gt _ _)) by lia. simpl. rewrite He. simpl.
    destruct (store_byte s c) as (s' & -> & Ha & Hd' & Hsz); try done.
    exists s'. split_and!; [done | done | congruence | done].
  - rewrite (proj2 (Z.leb_le _ _)) by lia. rewrite Hd.
    destruct (SBUF_CANEXTEND s) eqn:Hx.
    + destruct (sbuf_extend_spec s 1) as
        (s1 & -> & Hok1 & Hc1 & Hm1 & He1 & Hd1 & Hl1 & Hs1 & Hz1); try done; [lia |].
      simpl. rewrite He1, He. simpl.
      unfold SBUF_FREESPACE in Hfull. destruct Hok as [Hbl Hbn].
      destruct (store_byte s1 c) as (s' & -> & Ha & Hd' & Hsz);
        [done | congruence | unfold SBUF_FREESPACE; lia |].
      exists s'. split; [done |]. split; [| split; [congruence | unfold SBUF_FREESPACE; lia]].
      destruct Ha as (O & C & E & (M1 & M2 & M3) & L & N & Z1).
      destruct Hm1 as (M1' & M2' & M3').
      unfold appended, same_mode. rewrite C, Hc1, L, N, Hs1, Hl1, M1, M2, M3, M3', M1', M2'.
      change (zlen [u8 c]) with 1. split_and!; try done; lia.
    + unfold sbuf_extend. rewrite Hx. reflexivity.
Qed.

(** An error is sticky: nothing is appended any more. *)
Lemma sbuf_put_byte_sticky s c :
  sbuf_ok s -> SBUF_ISFINISHED s = false -> s_error s <> 0 -> sbuf_put_byte s c = Done s.
Proof.
  intros Hok Hf He. unfold sbuf_put_byte. rewrite ok_assert, unfinished_assert by done.
  rewrite !bind_Done_l. destruct (Z.eqb_spec (s_error s) 0); done.
Qed.

(** ** Appending strings *)

Lemma put_bytes_auto s str :
  sbuf_ok s -> SBUF_ISFINISHED s = false -> s_error s = 0 -> s_drain s = None ->
  SBUF_CANEXTEND s = true -> s_size s < SIZE_LIMIT -> s_len s + zlen str + 4096 < SIZE_LIMIT ->
  exists s', put_bytes s str = Done (s', 0) /\ appended s s' (map u8 str) /\ s_drain s' = None.
Proof.
  revert s. induction str as [| c str IH]; intros s Hok Hf He Hd Hx Hlim Hlen; simpl.
  - exists s. split; [done |]. split; [| done].
    unfold appended, same_mode. rewrite app_nil_r. change (zlen []) with 0.
    destruct (SBUF_ISSECTION s); split_and!; done || lia.
  - rewrite zlen_cons in Hlen. pose proof (zlen_nonneg str).
    pose proof (sbuf_put_byte_spec s c Hok Hf He Hd Hlim) as Hp.
    rewrite Hx, orb_true_r in Hp. destruct Hp as (s1 & -> & Ha & Hd1 & Hsz1).
    destruct (Ha) as (O & C & E & (M1 & M2 & M3) & L & N & Z1).
    simpl. rewrite E. simpl. change (zlen [u8 c]) with 1 in *.
    destruct (IH s1) as (s2 & -> & Ha2 & Hd2); try congruence; try lia.
    exists s2. split; [done |]. split; [| done].
    by apply (appended_trans s s1 s2 [u8 c] (map u8 str)).
Qed.

(** On a buffer that cannot grow, appending keeps the longest prefix that
    leaves room for the NUL, and fails exactly when bytes are lost. *)
Lemma put_bytes_fixed s str :
  sbuf_ok s -> SBUF_ISFINISHED s = false -> s_error s = 0 -> s_drain s = None ->
  SBUF_CANEXTEND s = false -> s_size s < SIZE_LIMIT ->
  exists s', put_bytes s str = Done (s', if zlen str <=? SBUF_FREESPACE s then 0 else -1) /\
    sbuf_ok s' /\ same_mode s s' /\ s_size s' = s_size s /\
    s_error s' = (if zlen str <=? SBUF_FREESPACE s then 0 else ENOMEM) /\
    content s' = content s ++ (map u8 (take (Z.to_nat (SBUF_FREESPACE s)) str)).
Proof.
  revert s. induction str as [| c str IH]; intros s Hok Hf He Hd Hx Hlim; simpl.
  - exists s. assert ((zlen (@nil Z) <=? SBUF_FREESPACE s) = true) as ->.
    { apply Z.leb_le. change (zlen (@nil Z)) with 0. destruct Hok. unfold SBUF_FREESPACE. lia. }
    rewrite take_nil. simpl. rewrite app_nil_r. done.
  - rewrite zlen_cons. pose proof (zlen_nonneg str).
    pose proof (sbuf_put_byte_spec s c Hok Hf He Hd Hlim) as Hp. rewrite Hx, orb_false_r in Hp.
    destruct (Z.ltb_spec 0 (SBUF_FREESPACE s)) as [Hroom | Hfull].
    + destruct Hp as (s1 & -> & Ha & Hd1 & Hsz1).
      destruct (Ha) as (O & C & E & (M1 & M2 & M3) & L & N & Z1).
      simpl. rewrite E. simpl. change (zlen [u8 c]) with 1 in *. specialize (Hsz1 Hroom).
      destruct (IH s1) as (s2 & -> & O2 & (M1' & M2' & M3') & S2 & E2 & C2);
        try congruence; try lia.
      exists s2. assert (SBUF_FREESPACE s = 1 + SBUF_FREESPACE s1) as -> by (unfold SBUF_FREESPACE; lia).
      assert (0 <= SBUF_FREESPACE s1) by (unfold SBUF_FREESPACE in *; lia).
      assert ((1 + zlen str <=? 1 + SBUF_FREESPACE s1) = (zlen str <=? SBUF_FREESPACE s1)) as ->.
      { destruct (Z.leb_spec (1 + zlen str) (1 + SBUF_FREESPACE s1)),
          (Z.leb_spec (zlen str) (SBUF_FREESPACE s1)); done || lia. }
      unfold same_mode. split_and!; try congruence; try done.
      rewrite C2, C, <- app_assoc. f_equal.
      by replace (Z.to_nat (1 + SBUF_FREESPACE s1)) with (S (Z.to_nat (SBUF_FREESPACE s1))) by lia.
    + rewrite Hp. simpl. exists (with_error s ENOMEM).
      rewrite (proj2 (Z.leb_gt _ _)) by lia.
      replace (Z.to_nat (SBUF_FREESPACE s)) with 0%nat by lia. simpl. rewrite app_nil_r. done.
Qed.

Lemma sbuf_cat_put s str :
  sbuf_ok s -> SBUF_ISFINISHED s = false -> s_error s = 0 -> sbuf_cat s str = put_bytes s str.
Proof.
  intros Hok Hf He. unfold sbuf_cat. by rewrite ok_assert, unfinished_assert, He by done.
Qed.

(** ** Trimming *)

Fixpoint drop_spaces (l : list Z) : list Z :=
  match l with
  | c :: l' => if isspace c then drop_spaces l' else l
  | [] => []
  end.

(** The specification of [sbuf_trim]: no white space at the end. *)
Definition rtrim (l : list Z) : list Z := reverse (drop_spaces (reverse l)).

Lemma trim_loop_spec fuel s :
  sbuf_ok s -> s_len s <= Z.of_nat fuel ->
  exists s', trim_loop fuel s = Done s' /\ sbuf_ok s' /\ content s' = rtrim (content s) /\
    s_error s' = s_error s /\ s_drain s' = s_drain s /\ s_flags s' = s_flags s /\
    s_sect_len s' = s_sect_len s - (if SBUF_ISSECTION s then s_len s - s_len s' else 0).
Proof.
  revert s. induction fuel as [| fuel IH]; intros s [Hl Hn] Hfuel; cbn [trim_loop];
    destruct (Z.leb_spec (s_len s) 0); try lia.
  1, 2: exists s; unfold content; replace (s_len s) with 0 by lia; simpl;
    split_and!; try done; destruct (SBUF_ISSECTION s); lia.
  destruct (aget_in_bounds (s_buf s) (s_len s - 1)) as [c Hc]; [lia |]. rewrite Hc, bind_Done_l.
  assert (content s = take (Z.to_nat (s_len s - 1)) (s_buf s) ++ [c]) as Hcont.
  { unfold content. replace (Z.to_nat (s_len s)) with (S (Z.to_nat (s_len s - 1))) by lia.
    apply take_S_r. by apply aget_Done in Hc as [_ ?]. }
  unfold rtrim. rewrite Hcont, reverse_app. simpl. destruct (isspace c).
  - set (s1 := if SBUF_ISSECTION _ then _ else _).
    assert (s_len s1 = s_len s - 1 /\ s_buf s1 = s_buf s /\ s_size s1 = s_size s /\
      s_error s1 = s_error s /\ s_drain s1 = s_drain s /\ s_flags s1 = s_flags s /\
      s_sect_len s1 = s_sect_len s - (if SBUF_ISSECTION s then 1 else 0))
      as (E1 & E2 & E3 & E4 & E5 & E6 & E7).
    { unfold s1. change (SBUF_ISSECTION (with_len s (s_len s - 1))) with (SBUF_ISSECTION s).
      destruct (SBUF_ISSECTION s); simpl; split_and!; done || lia. }
    destruct (IH s1) as (s' & -> & Hok' & Hc' & A1 & A2 & A3 & A4).
    { unfold sbuf_ok. rewrite E1, E2, E3. lia. }
    { lia. }
    exists s'. unfold content in Hc'. rewrite E1, E2 in Hc'.
    split_and!; try congruence; try done.
    rewrite A4, E7, E1. unfold SBUF_ISSECTION. rewrite E6. destruct (btest _ _); lia.
  - exists s. split_and!; try done.
    + rewrite Hcont. rewrite reverse_cons, reverse_involutive. done.
    + destruct (SBUF_ISSECTION s); lia.
Qed.

(** ** Drains *)

(** What sbuf(9) asks of a drain: it takes at least one and at most all of
    the bytes it is given, or reports an error and takes none.  [drained] is
    everything it has taken so far. *)
Definition drain_contract (drained : D -> list Z) : Prop :=
  forall d data, data <> [] ->
  let '(n, d') := drain_func d data in
  (n < 0 /\ drained d' = drained d) \/
  (0 < n <= zlen data /\ drained d' = drained d ++ take (Z.to_nat n) data).

Section Drains.
Context (drained : D -> list Z) (Hcontract : drain_contract drained).

(** All bytes ever put in the buffer: those drained, then those held. *)
Definition stream (s : sbuf) : list Z :=
  match s_drain s with Some d => drained d | None => [] end ++ content s.

Lemma sbuf_drain_spec s :
  sbuf_ok s -> is_Some (s_drain s) -> 0 < s_len s -> s_error s = 0 ->
  exists s' e, sbuf_drain s = Done (s', e) /\ sbuf_ok s' /\ is_Some (s_drain s') /\
    stream s' = stream s /\ s_error s' = e /\ same_mode s s' /\ s_size s' = s_size s /\
    ((e = 0 /\ s_len s' < s_len s) \/ (0 < e /\ s_len s' = s_len s)).
Proof.
  intros [Hl Hn] [d Hd] Hpos He. unfold sbuf_drain. rewrite Hd, He.
  rewrite (proj2 (Z.ltb_lt _ _) Hpos). simpl.
  assert (zlen (content s) = s_len s) as Hcl by (by apply content_len).
  pose proof (Hcontract d (content s)) as Hc. unfold content in Hc at 2.
  fold (content s) in Hc. fold (content s).
  destruct (drain_func d (content s)) as [n d'].
  destruct Hc as [[Hneg Hdr] | [Hn' Hdr]].
  { intros E. rewrite E in Hcl. change (zlen (@nil Z)) with 0 in Hcl. lia. }
  - rewrite (proj2 (Z.ltb_lt _ _) Hneg). do 2 eexists. split; [reflexivity |].
    unfold stream. simpl. rewrite Hd, Hdr. split_and!; try done. right. lia.
  - rewrite (proj2 (Z.ltb_ge n 0)) by lia. rewrite Hcl in Hn'.
    replace ((0 <? n) && (n <=? s_len s)) with true by
      (symmetry; apply andb_true_iff; rewrite Z.ltb_lt, Z.leb_le; lia).
    simpl.
    assert (drained d' ++ drop (Z.to_nat n) (content s) = drained d ++ content s) as Hst.
    { rewrite Hdr, <- app_assoc, take_drop. done. }
    destruct (Z.eqb_spec (s_len s - n) 0) as [E | E].
    + do 2 eexists. split; [reflexivity |]. unfold stream. simpl. rewrite Hd.
      split_and!; try done; try lia.
      * unfold sbuf_ok. simpl. lia.
      * rewrite <- Hst. f_equal. unfold content. simpl.
        rewrite E. rewrite drop_ge; [done | rewrite length_take; lia].
    + do 2 eexists. split; [reflexivity |]. unfold stream, content, sbuf_ok. simpl. rewrite Hd.
      set (rest := take _ (drop _ (s_buf s))).
      assert (length rest = Z.to_nat (s_len s - n)) as Hr.
      { unfold rest. rewrite length_take, length_drop. unfold zlen in *. lia. }
      split_and!; try done; try lia.
      * unfold zlen in *. rewrite length_app, length_drop. lia.
      * rewrite take_app_length' by done. fold (content s). rewrite <- Hst. f_equal.
        unfold rest, content.
        rewrite take_drop_commute. do 2 f_equal. lia.
Qed.

(** With a drain, putting a byte extends the stream by it unless the drain
    fails, in which case nothing is lost or added. *)
Lemma sbuf_put_byte_drain s c :
  sbuf_ok s -> is_Some (s_drain s) -> SBUF_ISFINISHED s = false -> s_error s = 0 -> 2 <= s_size s ->
  exists s', sbuf_put_byte s c = Done s' /\ sbuf_ok s' /\ is_Some (s_drain s') /\
    same_mode s s' /\ s_size s' = s_size s /\
    ((s_error s' = 0 /\ stream s' = stream s ++ [u8 c]) \/
     (0 < s_error s' /\ stream s' = stream s)).
Proof.
  intros Hok Hd Hf He Hsz. unfold sbuf_put_byte.
  rewrite ok_assert, unfinished_assert, He by done. rewrite !bind_Done_l. simpl.
  assert (forall s1, sbuf_ok s1 -> is_Some (s_drain s1) -> s_error s1 = 0 ->
    same_mode s s1 -> s_size s1 = s_size s -> stream s1 = stream s -> 0 < SBUF_FREESPACE s1 ->
    exists s', store_char s1 c = Done s' /\ sbuf_ok s' /\ is_Some (s_drain s') /\
      same_mode s s' /\ s_size s' = s_size s /\
      ((s_error s' = 0 /\ stream s' = stream s ++ [u8 c]) \/
       (0 < s_error s' /\ stream s' = stream s))) as Hput.
  { intros s1 Hok1 Hd1 He1 (M1 & M2 & M3) Hz1 Hs1 Hroom.
    destruct (store_byte s1 c Hok1 He1 Hroom) as (s' & Hput & Ha & Hd' & Hz').
    destruct Ha as (O & C & E & (M1' & M2' & M3') & _).
    exists s'. unfold same_mode. rewrite Hd'. split_and!; try done; try congruence.
    left. split; [done |]. unfold stream in *. rewrite Hd', C, <- Hs1. by rewrite app_assoc. }
  destruct (Z.leb_spec (SBUF_FREESPACE s) 0) as [Hfull | Hroom].
  - destruct Hd as [d Hd]. rewrite Hd. unfold SBUF_FREESPACE in Hfull.
    destruct (sbuf_drain_spec s) as (s1 & e & -> & Hok1 & Hd1 & Hs1 & He1 & Hm1 & Hz1 & Hcase);
      [done | by eexists | lia | done |].
    simpl. rewrite He1. destruct Hcase as [[-> Hlt] | [Hpos Heq]].
    + simpl. pose proof (proj2 Hok). apply Hput; try done. unfold SBUF_FREESPACE. lia.
    + rewrite (proj2 (Z.eqb_neq e 0)) by lia. simpl. exists s1. split_and!; try done.
      right. split; [lia | done].
  - simpl. rewrite He. simpl. by apply Hput.
Qed.

Lemma put_bytes_drain s str :
  sbuf_ok s -> is_Some (s_drain s) -> SBUF_ISFINISHED s = false -> s_error s = 0 -> 2 <= s_size s ->
  exists s' r, put_bytes s str = Done (s', r) /\ sbuf_ok s' /\ is_Some (s_drain s') /\
    SBUF_ISFINISHED s' = false /\
    ((r = 0 /\ s_error s' = 0 /\ stream s' = stream s ++ map u8 str) \/
     (r = -1 /\ 0 < s_error s' /\
      exists done rest, str = done ++ rest /\ stream s' = stream s ++ map u8 done)).
Proof.
  revert s. induction str as [| c str IH]; intros s Hok Hd Hf He Hsz; simpl.
  - exists s, 0. rewrite app_nil_r. split_and!; try done. by left.
  - destruct (sbuf_put_byte_drain s c) as (s1 & -> & Hok1 & Hd1 & (M1 & _) & Hz1 & Hcase); try done.
    simpl. destruct Hcase as [[He1 Hs1] | [He1 Hs1]].
    + rewrite He1. simpl. destruct (IH s1) as (s' & r & -> & Hok' & Hd' & Hf' & Hr);
        try done; [congruence | lia |].
      exists s', r. split_and!; try done. rewrite Hs1 in Hr.
      destruct Hr as [(-> & ? & Hs') | (-> & ? & dn & rest & -> & Hs')]; [left | right].
      * split_and!; try done. rewrite Hs', <- app_assoc. done.
      * split_and!; try done. exists (c :: dn), rest. split; [done |].
        rewrite Hs', <- app_assoc. done.
    + rewrite (proj2 (Z.eqb_neq (s_error s1) 0)) by lia. simpl. exists s1, (-1).
      split_and!; try done; [congruence |]. right. split_and!; try done.
      exists [], (c :: str). split; [done |]. simpl. by rewrite app_nil_r.
Qed.

Lemma drain_loop_spec fuel s :
  sbuf_ok s -> is_Some (s_drain s) -> s_len s <= Z.of_nat fuel -> 0 <= s_error s ->
  exists s', drain_loop fuel s = Done s' /\ sbuf_ok s' /\ is_Some (s_drain s') /\
    stream s' = stream s /\ 0 <= s_error s' /\ (s_error s' = 0 -> s_len s' = 0).
Proof.
  revert s. induction fuel as [| fuel IH]; intros s Hok Hd Hfuel He; cbn [drain_loop];
    destruct (Z.ltb_spec 0 (s_len s)); simpl.
  2, 4: exists s; destruct Hok; split_and!; done || lia.
  1: lia.
  destruct (Z.eqb_spec (s_error s) 0) as [E |]; [| by exists s].
  destruct (sbuf_drain_spec s) as (s1 & e & -> & Hok1 & Hd1 & Hs1 & He1 & Hm1 & Hz1 & Hcase); try done.
  simpl. destruct Hcase as [[-> Hlt] | [Hpos Heq]].
  - destruct (IH (with_error s1 0)) as (s' & -> & Hok' & Hd' & Hs' & He' & Hl'); try done;
      [simpl; lia |].
    exists s'. split_and!; try done. by rewrite Hs'.
  - exists (with_error s1 e). split_and!; try done; simpl; try lia.
    destruct fuel; simpl; rewrite (proj2 (Z.eqb_neq e 0)) by lia; by rewrite andb_false_r.
Qed.

End Drains.

(** ** Sections *)

Lemma pad_loop_auto n s c :
  sbuf_ok s -> SBUF_ISFINISHED s = false -> s_error s = 0 -> s_drain s = None ->
  SBUF_CANEXTEND s = true -> s_size s < SIZE_LIMIT ->
  s_len s + Z.of_nat n + 4096 < SIZE_LIMIT ->
  exists s', pad_loop n s c = Done s' /\ appended s s' (replicate n (u8 c)) /\ s_drain s' = None.
Proof.
  intros Hok Hf He Hd Hx Hlim Hlen.
  destruct (put_bytes_auto s (replicate n c)) as (s' & Hput & Ha & Hd'); try done.
  { unfold zlen. by rewrite length_replicate. }
  exists s'. rewrite <- fmap_replicate. split; [| done].
  clear -Hput He Ha. destruct Ha as (_ & _ & He' & _).
  revert s He Hput. induction n as [| n IH]; intros s He Hput; simpl in *; rewrite He; simpl.
  - injection Hput as ->. done.
  - apply bind_Done in Hput as (s1 & Hs1 & Hput). rewrite Hs1. simpl.
    destruct (Z.eqb_spec (s_error s1) 0); simpl in Hput; [by apply IH | discriminate Hput].
Qed.

End Sbuf.

Arguments sbuf : clear implicits.

(** ** Properties *)

(** on an auto-extending buffer sbuf_cat appends the whole string and
    returns 0, whatever the buffer's current size; the buffer stays well
    formed and no assertion fires. *)
Theorem sbuf_cat_autoextend {D} (df : D -> list Z -> Z * D) (s : sbuf D) str :
  sbuf_ok s -> SBUF_ISFINISHED s = false -> s_error s = 0 -> s_drain s = None ->
  SBUF_CANEXTEND s = true -> s_size s < SIZE_LIMIT -> s_len s + zlen str + 4096 < SIZE_LIMIT ->
  exists s', sbuf_cat df s str = Done (s', 0) /\ sbuf_ok s' /\
    content s' = content s ++ map u8 str /\ s_error s' = 0.
Proof.
  intros Hok Hf He Hd Hx Hlim Hlen. rewrite sbuf_cat_put by done.
  destruct (put_bytes_auto df s str) as (s' & -> & Ha & _); try done.
  exists s'. split; [done |]. destruct Ha as (? & ? & ? & _). done.
Qed.

(** A 4-byte auto-extending buffer holding "ab". *)
Definition auto4 : sbuf unit := Sbuf [97; 98; 0; 0] None 0 4 2 SBUF_AUTOEXTEND 0.

Definition no_drain (_ : unit) (_ : list Z) : Z * unit := (-1, tt).

Lemma sbuf_cat_autoextend_witness :
  exists s', sbuf_cat no_drain auto4 [99; 100; 101] = Done (s', 0) /\ sbuf_ok s' /\
    content s' = content auto4 ++ map u8 [99; 100; 101] /\ s_error s' = 0.
Proof.
  apply (sbuf_cat_autoextend no_drain auto4 [99; 100; 101]); try reflexivity.
  vm_compute. repeat split; congruence.
Defined.

(** on a fixed-size buffer sbuf_cat keeps the longest prefix that fits
    before the terminating NUL; it returns -1 and records ENOMEM exactly when
    bytes are dropped. *)
Theorem sbuf_cat_fixed {D} (df : D -> list Z -> Z * D) (s : sbuf D) str :
  sbuf_ok s -> SBUF_ISFINISHED s = false -> s_error s = 0 -> s_drain s = None ->
  SBUF_CANEXTEND s = false -> s_size s < SIZE_LIMIT ->
  exists s', sbuf_cat df s str =
      Done (s', if s_len s + zlen str <? s_size s then 0 else -1) /\
    sbuf_ok s' /\ s_size s' = s_size s /\
    s_error s' = (if s_len s + zlen str <? s_size s then 0 else ENOMEM) /\
    content s' = take (Z.to_nat (s_size s - 1)) (content s ++ map u8 str).
Proof.
  intros Hok Hf He Hd Hx Hlim. rewrite sbuf_cat_put by done.
  destruct (put_bytes_fixed df s str) as (s' & -> & Hok' & _ & Hsz & He' & Hc); try done.
  exists s'. replace (s_len s + zlen str <? s_size s) with (zlen str <=? SBUF_FREESPACE s).
  - split_and!; try done. rewrite Hc. pose proof (content_len s Hok) as Hl. unfold zlen in Hl.
    destruct Hok as [? ?]. rewrite take_app_ge by lia. f_equal. rewrite <- firstn_map.
    f_equal. unfold SBUF_FREESPACE. lia.
  - unfold SBUF_FREESPACE.
    destruct (Z.leb_spec (zlen str) (s_size s - (s_len s + 1))), (Z.ltb_spec (s_len s + zlen str) (s_size s));
      done || lia.
Qed.

Definition fixed4 : sbuf unit := Sbuf [97; 98; 0; 0] None 0 4 2 SBUF_FIXEDLEN 0.

Lemma sbuf_cat_fixed_witness :
  exists s', sbuf_cat no_drain fixed4 [99; 100; 101] = Done (s', -1) /\
    sbuf_ok s' /\ s_size s' = 4 /\ s_error s' = ENOMEM /\ content s' = [97; 98; 99].
Proof.
  apply (sbuf_cat_fixed no_drain fixed4 [99; 100; 101]); try reflexivity.
  vm_compute. repeat split; congruence.
Defined.

(** creating an auto-extending buffer, adding a string, finishing it and
    reading the data back gives the string as a C string: NUL terminated,
    with the same characters. *)
Theorem sbuf_roundtrip {D} (df : D -> list Z -> Z * D) str :
  Forall is_u8 str -> Forall (fun c => c <> 0) str -> zlen str + 4096 < SIZE_LIMIT ->
  exists s0 s1 s2 data,
    sbuf_new (D := D) true None 0 SBUF_AUTOEXTEND = Done s0 /\
    sbuf_cat df s0 str = Done (s1, 0) /\
    sbuf_finish df s1 = Done (s2, 0) /\
    sbuf_data s2 = Done data /\ cstr data = str /\ sbuf_length s2 = Done (zlen str).
Proof.
  intros Hu8 Hnz Hlen.
  set (s0 := Sbuf (replicate 16 0) None 0 16 0 (Z.lor 1 (Z.lor SBUF_DYNAMIC SBUF_DYNSTRUCT)) 0 : sbuf D).
  assert (sbuf_ok s0) as Hok0 by (split; simpl; done).
  destruct (put_bytes_auto df s0 str) as (s1 & Hput & Ha & Hd1); try done.
  destruct (Ha) as (Hok1 & Hc1 & He1 & (M1 & M2 & M3) & _ & Hl1 & _).
  destruct (Hok1) as [Hbl Hbn].
  set (b := <[Z.to_nat (s_len s1) := 0]> (s_buf s1)).
  exists s0, s1, (SBUF_SETFLAG (with_buf s1 b (s_size s1)) SBUF_FINISHED), b.
  rewrite sbuf_cat_put by done. simpl in Hl1.
  split_and!; try done.
  - unfold sbuf_finish. rewrite ok_assert, unfinished_assert, Hd1 by done. simpl.
    rewrite aput_in_bounds by lia. simpl. by rewrite He1.
  - unfold sbuf_data. unfold assert_sbuf_integrity, assert_sbuf_state. simpl.
    rewrite (proj2 (Z.ltb_lt _ _)), Hd1 by lia. simpl.
    rewrite Z.land_lor_distr_l. unfold SBUF_ISFINISHED, btest in M1.
    change (btest (s_flags s0) SBUF_FINISHED) with false in M1.
    apply negb_false_iff, Z.eqb_eq in M1. by rewrite M1.
  - assert (b = content s1 ++ 0 :: drop (S (Z.to_nat (s_len s1))) (s_buf s1)) as ->.
    { unfold b, content. rewrite insert_take_drop by (unfold zlen in *; lia). done. }
    rewrite Hc1. simpl. rewrite map_u8_id by done. by apply cstr_app_nul.
  - unfold sbuf_length, assert_sbuf_integrity. simpl.
    rewrite (proj2 (Z.ltb_lt _ _)), Hd1, He1 by lia. simpl.
    unfold zlen in Hl1 |- *. rewrite length_map in Hl1. f_equal. lia.
Qed.

Lemma sbuf_roundtrip_witness :
  exists s0 s1 s2 data,
    sbuf_new (D := unit) true None 0 SBUF_AUTOEXTEND = Done s0 /\
    sbuf_cat no_drain s0 [104; 105] = Done (s1, 0) /\
    sbuf_finish no_drain s1 = Done (s2, 0) /\
    sbuf_data s2 = Done data /\ cstr data = [104; 105] /\
    sbuf_length s2 = Done (zlen [104; 105]).
Proof.
  apply (sbuf_roundtrip no_drain [104; 105]).
  - repeat constructor; unfold_int; lia.
  - repeat constructor; lia.
  - reflexivity.
Defined.


(** A drain that keeps what it is given, three bytes at a time. *)
Definition log_drain (d : list Z) (data : list Z) : Z * list Z :=
  (Z.min 3 (zlen data), d ++ take (Z.to_nat (Z.min 3 (zlen data))) data).

Lemma log_drain_contract : drain_contract log_drain (fun d => d).
Proof.
  intros d data Hne. unfold log_drain. right.
  assert (0 < zlen data) by (destruct data; [done | rewrite zlen_cons; pose proof (zlen_nonneg data); lia]).
  split; [lia | done].
Qed.


Lemma roundup_exact x y :
  0 <= x < 2 ^ 31 -> 1 < y < 2 ^ 31 ->
  roundup x y = (x + (y - 1)) / y * y /\ x <= roundup x y < x + y /\ roundup x y mod y = 0.
Proof.
  intros Hx Hy. unfold roundup.
  pose proof (Z.div_mod (x + (y - 1)) y ltac:(lia)) as E.
  pose proof (Z.mod_pos_bound (x + (y - 1)) y ltac:(lia)).
  set (q := (x + (y - 1)) / y) in *.
  rewrite (u64_id (x + (y - 1))) by (unfold_int; lia). fold q.
  rewrite u64_id by (unfold_int; lia).
  split_and!; [done | lia | lia |]. by apply Z_mod_mult.
Qed.

(** a section opened on an auto-extending buffer, filled with a string
    and closed with padding [pad] holds the string padded with the fill
    character to a multiple of [pad]; sbuf_end_section returns that length
    and leaves the buffer outside any section. *)
Theorem sbuf_section_padding {D} (df : D -> list Z -> Z * D) (s : sbuf D) str pad c :
  sbuf_ok s -> SBUF_ISFINISHED s = false -> s_error s = 0 -> s_drain s = None ->
  SBUF_CANEXTEND s = true -> SBUF_ISSECTION s = false -> s_sect_len s = 0 ->
  1 < pad < 2 ^ 20 -> s_size s < 2 ^ 30 -> s_len s + zlen str < 2 ^ 30 ->
  let n := roundup (zlen str) pad in
  exists s1 s2 s3,
    sbuf_start_section s true = Done (s1, -1) /\
    sbuf_cat df s1 str = Done (s2, 0) /\
    sbuf_end_section df s2 (-1) pad c = Done (s3, n) /\
    n mod pad = 0 /\ sbuf_ok s3 /\ SBUF_ISSECTION s3 = false /\ s_sect_len s3 = 0 /\
    content s3 = content s ++ map u8 str ++ replicate (Z.to_nat (n - zlen str)) (u8 c).
Proof.
  intros Hok Hf He Hd Hx Hns Hsl Hpad Hsz Hlen n.
  assert (0 <= s_len s) by (destruct Hok; lia). pose proof (zlen_nonneg str).
  destruct (roundup_exact (zlen str) pad) as (_ & Hn & Hmod); [lia | lia |]. fold n in Hn, Hmod.
  set (s1 := SBUF_SETFLAG s SBUF_INSECTION).
  assert (sbuf_ok s1 /\ SBUF_ISFINISHED s1 = false /\ SBUF_CANEXTEND s1 = true /\
          SBUF_ISSECTION s1 = true) as (Hok1 & Hf1 & Hx1 & Hi1).
  { unfold SBUF_ISFINISHED, SBUF_CANEXTEND, SBUF_ISSECTION in *. simpl.
    rewrite !btest_lor, Hf, Hx, Hns. done. }
  destruct (put_bytes_auto df s1 str) as (s2 & Hput & Ha & Hd2); try done;
    [simpl; unfold SIZE_LIMIT; lia | simpl; unfold SIZE_LIMIT; lia |].
  destruct (Ha) as (Hok2 & Hc2 & He2 & (M1 & M2 & M3) & Hsec2 & Hl2 & Hz2).
  rewrite Hi1 in Hsec2. simpl in Hsec2, Hl2, Hz2.
  assert (zlen (map u8 str) = zlen str) as Hmz by (unfold zlen; by rewrite length_map).
  rewrite Hmz in *. rewrite Hsl, Z.add_0_l in Hsec2.
  destruct (pad_loop_auto df (Z.to_nat (n - zlen str)) s2 c) as (s3 & Hpl & Ha3 & Hd3);
    try congruence; [unfold SIZE_LIMIT; lia | unfold SIZE_LIMIT; lia |].
  destruct (Ha3) as (Hok3 & Hc3 & He3 & (M1' & M2' & M3') & Hsec3 & Hl3 & _).
  rewrite M3, Hi1 in Hsec3. unfold zlen at 1 in Hsec3. rewrite length_replicate, Hsec2 in Hsec3.
  exists s1, s2, (SBUF_CLEARFLAG (with_sect s3 0) SBUF_INSECTION).
  split_and!; try done.
  - unfold sbuf_start_section. by rewrite ok_assert, unfinished_assert, Hns, Hsl by done.
  - by rewrite sbuf_cat_put by done.
  - unfold sbuf_end_section. rewrite ok_assert, unfinished_assert, M3, Hi1 by congruence.
    simpl. rewrite (proj2 (Z.ltb_lt 1 pad)) by lia. rewrite Hsec2. fold n.
    rewrite s64_id by (unfold is_s64; lia). rewrite Hpl. simpl. rewrite He3. simpl.
    rewrite Hsec3. f_equal. f_equal. lia.
  - unfold SBUF_ISSECTION. simpl. apply btest_ldiff_same.
  - unfold content at 1. simpl. fold (content s3).
    rewrite Hc3, Hc2, <- app_assoc. done.
Qed.

Lemma sbuf_section_padding_witness :
  exists s1 s2 s3,
    sbuf_start_section auto4 true = Done (s1, -1) /\
    sbuf_cat no_drain s1 [120; 121; 122] = Done (s2, 0) /\
    sbuf_end_section no_drain s2 (-1) 4 46 = Done (s3, 4) /\
    4 mod 4 = 0 /\ sbuf_ok s3 /\ SBUF_ISSECTION s3 = false /\ s_sect_len s3 = 0 /\
    content s3 = [97; 98; 120; 121; 122; 46].
Proof.
  apply (sbuf_section_padding no_drain auto4 [120; 121; 122] 4 46); try reflexivity.
  - vm_compute. repeat split; congruence.
  - lia.
Defined.

(** sbuf_trim removes exactly the white space at the end of the buffer,
    leaves everything else alone and always terminates. *)
Theorem sbuf_trim_correct {D} (s : sbuf D) :
  sbuf_ok s -> SBUF_ISFINISHED s = false -> s_error s = 0 -> s_drain s = None ->
  exists s', sbuf_trim s = Done (s', 0) /\ sbuf_ok s' /\ content s' = rtrim (content s) /\
    s_flags s' = s_flags s /\ s_error s' = 0.
Proof.
  intros Hok Hf He Hd. destruct (trim_loop_spec (Z.to_nat (s_len s)) s Hok)
    as (s' & Ht & Hok' & Hc & He' & _ & Hfl & _); [destruct Hok; lia |].
  exists s'. unfold sbuf_trim. rewrite ok_assert, unfinished_assert, Hd, He by done. simpl.
  rewrite Ht. split_and!; try done. congruence.
Qed.

Definition spaces5 : sbuf unit := Sbuf [97; 32; 98; 32; 9; 0] None 0 6 5 0 0.

Lemma sbuf_trim_correct_witness :
  exists s', sbuf_trim spaces5 = Done (s', 0) /\ sbuf_ok s' /\ content s' = [97; 32; 98] /\
    s_flags s' = 0 /\ s_error s' = 0.
Proof.
  apply (sbuf_trim_correct spaces5); try reflexivity.
  vm_compute. repeat split; congruence.
Defined.

(** bytes added by sbuf_bcopyin inside a section are not counted in the
    section: the buffer grows by [len] while s_sect_len stays the same
    (sbuf_copyin and sbuf_bcat do count them). *)
Theorem sbuf_bcopyin_ignores_section {D} (s : sbuf D) data :
  sbuf_ok s -> SBUF_ISFINISHED s = false -> s_error s = 0 -> s_drain s = None ->
  0 < zlen data <= SBUF_FREESPACE s ->
  exists s', sbuf_bcopyin s (fun _ => Some data) (zlen data) = Done (s', 0) /\ sbuf_ok s' /\
    content s' = content s ++ data /\ s_sect_len s' = s_sect_len s.
Proof.
  intros Hok Hf He Hd Hlen. destruct (Hok) as [Hbl Hbn]. unfold sbuf_bcopyin, SBUF_FREESPACE in *.
  rewrite ok_assert, unfinished_assert, Hd, He by done. simpl.
  rewrite (proj2 (Z.eqb_neq _ 0)), (proj2 (Z.ltb_ge _ _)) by lia. simpl.
  unfold bwrite. replace ((0 <=? s_len s) && (s_len s + zlen data <=? zlen (s_buf s))) with true
    by (symmetry; apply andb_true_iff; rewrite !Z.leb_le; lia).
  simpl. eexists. split; [reflexivity |]. unfold sbuf_ok, content, zlen in *. simpl.
  split_and!; try done; try lia.
  - rewrite !length_app, length_take, length_drop. lia.
  - rewrite app_assoc, take_app_length'; [done |]. rewrite length_app, length_take. lia.
Qed.

Lemma sbuf_bcopyin_ignores_section_witness :
  let s := Sbuf [97; 98; 0; 0; 0; 0] None 0 6 2 SBUF_INSECTION 2 : sbuf unit in
  exists s', sbuf_bcopyin s (fun _ => Some [99; 100]) 2 = Done (s', 0) /\ sbuf_ok s' /\
    content s' = [97; 98; 99; 100] /\ s_sect_len s' = 2.
Proof.
  apply (sbuf_bcopyin_ignores_section
           (Sbuf [97; 98; 0; 0; 0; 0] None 0 6 2 SBUF_INSECTION 2 : sbuf unit) [99; 100]);
    try reflexivity; vm_compute; repeat split; congruence.
Defined.
