(* ===== verification/Blist.v ===== *)
(** * The bitmap allocator: sys/kern/subr_blist.c

    A radix tree of block bitmaps laid out in one array: each meta node is
    followed by its sixteen subtrees, a leaf holds a 32-bit map of free
    blocks, and both carry a hint, an upper bound on the free runs below.
    Collapsed meta nodes (all allocated, all free) leave stale data below.
    The array is kept as the list of its slots, with every access checked
    against its bounds, so that "no fault" includes memory safety. *)

From stdpp Require Import prelude list strings.
From S2P Require Import Prelude.
Open Scope Z_scope.

Definition SWAPBLK_NONE : Z := - 2 ^ 31.
Definition BLIST_META_RADIX : Z := 16.
Definition BLIST_BMAP_RADIX : Z := 32.
Definition u_m1 : Z := 2 ^ 32 - 1.

(** struct blmeta: the union as its 32 bits, read as bmu_avail (signed) or
    bmu_bitmap (unsigned). *)
Record blmeta := Blmeta { bm_u : Z; bm_bighint : Z }.

Definition bmu_avail (m : blmeta) : Z := s32 (bm_u m).
Definition bmu_bitmap (m : blmeta) : Z := bm_u m.

Definition set_avail (mem : list blmeta) (i v : Z) : outcome (list blmeta) :=
  m ← aget mem i; aput mem i (Blmeta (u32 v) (bm_bighint m)).

Definition set_bitmap (mem : list blmeta) (i v : Z) : outcome (list blmeta) :=
  m ← aget mem i; aput mem i (Blmeta (u32 v) (bm_bighint m)).

Definition set_bighint (mem : list blmeta) (i v : Z) : outcome (list blmeta) :=
  m ← aget mem i; aput mem i (Blmeta (bm_u m) (s32 v)).

(** struct blist *)
Record blist := Blist {
  bl_blocks : Z;
  bl_radix : Z;
  bl_skip : Z;
  bl_free : Z;
  bl_root : list blmeta;
  bl_rootblks : Z
}.

(** ** Leaves *)

(** The binary search of blst_leaf_alloc for one free bit:
    while (j) { if ((orig & mask) == 0) { r += j; orig >>= j; }
                j >>= 1; mask >>= j; } *)
Fixpoint find_bit (fuel : nat) (j mask orig r : Z) : outcome Z :=
  if j =? 0 then mret r
  else
    match fuel with
    | O => Fault OutOfFuel
    | S fuel =>
      let hit := Z.land orig mask =? 0 in
      let r := if hit then r + j else r in
      let orig := if hit then Z.shiftr orig j else orig in
      let j := Z.shiftr j 1 in
      find_bit fuel j (Z.shiftr mask j) orig r
    end.

(** The search for a run of bits:
    for (j = 0; j <= n; ++j) { if ((orig & mask) == mask) ...; mask <<= 1; } *)
Fixpoint find_run (fuel : nat) (j n mask orig : Z) : outcome (option (Z * Z)) :=
  if negb (j <=? n) then mret None
  else if Z.land orig mask =? mask then mret (Some (j, mask))
  else
    match fuel with
    | O => Fault OutOfFuel
    | S fuel => find_run fuel (j + 1) n (u32 (Z.shiftl mask 1)) orig
    end.

Definition blst_leaf_alloc (mem : list blmeta) (scan blk count : Z)
    : outcome (list blmeta * Z) :=
  m ← aget mem scan;
  let orig := bmu_bitmap m in
  if orig =? 0 then
    mem ← set_bighint mem scan 0; mret (mem, SWAPBLK_NONE)
  else if count =? 1 then
    r ← find_bit 5 (BLIST_BMAP_RADIX / 2) (Z.shiftr u_m1 (BLIST_BMAP_RADIX / 2)) orig 0;
    mem ← set_bitmap mem scan (Z.ldiff orig (Z.shiftl 1 r));
    mret (mem, blk + r)
  else
    let n := BLIST_BMAP_RADIX - count in
    hit ← (if count <=? BLIST_BMAP_RADIX
           then find_run 32 0 n (Z.shiftr u_m1 n) orig else mret None);
    match hit with
    | Some (j, mask) =>
      mem ← set_bitmap mem scan (Z.ldiff orig mask); mret (mem, blk + j)
    | None =>
      mem ← set_bighint mem scan (count - 1); mret (mem, SWAPBLK_NONE)
    end.

(** ((u_swblk_t)-1 << n) & ((u_swblk_t)-1 >> (BLIST_BMAP_RADIX - count - n)) *)
Definition leaf_mask (n count : Z) : Z :=
  Z.land (u32 (Z.shiftl u_m1 n)) (Z.shiftr u_m1 (BLIST_BMAP_RADIX - count - n)).

Definition blst_leaf_free (mem : list blmeta) (scan blk count : Z) : outcome (list blmeta) :=
  let n := Z.land blk (BLIST_BMAP_RADIX - 1) in
  let mask := leaf_mask n count in
  m ← aget mem scan;
  _ ← (if btest (bmu_bitmap m) mask
       then Fault (Panic "blst_radix_free: freeing free block") else mret tt);
  mem ← set_bitmap mem scan (Z.lor (bmu_bitmap m) mask);
  set_bighint mem scan BLIST_BMAP_RADIX.

(** for (nblks = 0; bitmap != 0; nblks++) bitmap &= bitmap - 1; *)
Fixpoint popcount (fuel : nat) (bitmap nblks : Z) : outcome Z :=
  if bitmap =? 0 then mret nblks
  else match fuel with
       | O => Fault OutOfFuel
       | S fuel => popcount fuel (Z.land bitmap (bitmap - 1)) (nblks + 1)
       end.

Definition blst_leaf_fill (mem : list blmeta) (scan blk count : Z)
    : outcome (list blmeta * Z) :=
  let n := Z.land blk (BLIST_BMAP_RADIX - 1) in
  let mask := leaf_mask n count in
  m ← aget mem scan;
  nblks ← popcount 32 (Z.land (bmu_bitmap m) mask) 0;
  mem ← set_bitmap mem scan (Z.ldiff (bmu_bitmap m) mask);
  mret (mem, nblks).

(** ** Meta nodes *)

(** The sublevel initialisation of a collapsed node: every child before the
    terminator becomes [new].
    for (i = 1; i <= skip; i += next_skip) {
        if (scan[i].bm_bighint == -1) break; scan[i] = new; } *)
Fixpoint init_children (fuel : nat) (mem : list blmeta) (scan skip next_skip i : Z)
    (new : blmeta) : outcome (list blmeta) :=
  if negb (i <=? skip) then mret mem
  else
    match fuel with
    | O => Fault OutOfFuel
    | S fuel =>
      m ← aget mem (scan + i);
      if bm_bighint m =? -1 then mret mem
      else
        mem ← aput mem (scan + i) new;
        init_children fuel mem scan skip next_skip (i + next_skip) new
    end.

(** The child of an all-free node whose children have the given radix. *)
Definition all_free_child (next_skip radix : Z) : blmeta :=
  if next_skip =? 1 then Blmeta u_m1 BLIST_BMAP_RADIX
  else Blmeta (u32 (s32 radix)) (s32 radix).

(** The for loop of blst_meta_alloc.  [sub] allocates in one child. *)
Fixpoint alloc_loop (sub : list blmeta -> Z -> Z -> outcome (list blmeta * Z))
    (fuel : nat) (mem : list blmeta) (scan blkat count radix skip next_skip : Z)
    (hintok : bool) (i blk : Z) : outcome (list blmeta * Z) :=
  let fail mem :=
    m ← aget mem scan;
    mem ← (if hintok && (count <=? bm_bighint m)
           then set_bighint mem scan (count - 1) else mret mem);
    mret (mem, SWAPBLK_NONE) in
  if negb (i <=? skip) then fail mem
  else
    match fuel with
    | O => Fault OutOfFuel
    | S fuel =>
      let next mem := alloc_loop sub fuel mem scan blkat count radix skip next_skip
                        hintok (i + next_skip) (blk + s32 radix) in
      c ← aget mem (scan + i);
      if (count <=? bm_bighint c) && (blkat <? blk + s32 radix) then
        '(mem, r) ← sub mem (scan + i) blk;
        if negb (r =? SWAPBLK_NONE) then
          m ← aget mem scan;
          mem ← set_avail mem scan (bmu_avail m - count);
          m ← aget mem scan;
          mem ← (if bmu_avail m <? bm_bighint m
                 then set_bighint mem scan (bmu_avail m) else mret mem);
          mret (mem, r)
        else next mem
      else if bm_bighint c =? -1 then fail mem
      else if s32 radix <? count then
        Fault (Panic "blist_meta_alloc: allocation too large")
      else next mem
    end.

Fixpoint blst_meta_alloc (depth : nat) (mem : list blmeta)
    (scan blkat blk count radix skip : Z) : outcome (list blmeta * Z) :=
  match depth with
  | O => Fault OutOfFuel
  | S depth =>
    let next_skip := skip / BLIST_META_RADIX in
    let hintok := blkat <=? blk in
    m ← aget mem scan;
    if bmu_avail m =? 0 then
      mem ← set_bighint mem scan 0; mret (mem, SWAPBLK_NONE)
    else
      mem ← (if bmu_avail m =? radix then
               mem ← set_bighint mem scan radix;
               init_children 16 mem scan skip next_skip 1
                 (all_free_child next_skip (radix / BLIST_META_RADIX))
             else mret mem);
      let radix := radix / BLIST_META_RADIX in
      alloc_loop
        (fun mem scan' blk' =>
           if next_skip =? 1 then blst_leaf_alloc mem scan' blk' count
           else blst_meta_alloc depth mem scan' blkat blk' count radix (next_skip - 1))
        16 mem scan blkat count radix skip next_skip hintok 1 blk
  end.

(** The while loop of blst_meta_free.  [sub] frees in one child. *)
Fixpoint free_loop (sub : list blmeta -> Z -> Z -> Z -> Z -> outcome (list blmeta))
    (fuel : nat) (mem : list blmeta) (scan radix skip next_skip i blk freeBlk count : Z)
    : outcome (list blmeta) :=
  if negb ((i <=? skip) && (blk <? freeBlk + count)) then mret mem
  else
    match fuel with
    | O => Fault OutOfFuel
    | S fuel =>
      let v := Z.min (blk + s32 radix - freeBlk) count in
      m ← aget mem scan;
      _ ← (if bm_bighint m =? -1
           then Fault (Panic "blst_meta_free: freeing unexpected range") else mret tt);
      mem ← sub mem (scan + i) freeBlk v blk;
      m ← aget mem scan;
      c ← aget mem (scan + i);
      mem ← (if bm_bighint m <? bm_bighint c
             then set_bighint mem scan (bm_bighint c) else mret mem);
      free_loop sub fuel mem scan radix skip next_skip
        (i + next_skip) (blk + s32 radix) (freeBlk + v) (count - v)
    end.

Fixpoint blst_meta_free (depth : nat) (mem : list blmeta)
    (scan freeBlk count radix skip blk : Z) : outcome (list blmeta) :=
  match depth with
  | O => Fault OutOfFuel
  | S depth =>
    let next_skip := skip / BLIST_META_RADIX in
    m ← aget mem scan;
    mem ← (if bmu_avail m =? 0 then
             mem ← set_avail mem scan count;
             mem ← set_bighint mem scan count;
             if negb (count =? radix)
             then init_children 16 mem scan skip next_skip 1 (Blmeta 0 0)
             else mret mem
           else set_avail mem scan (bmu_avail m + count));
    m ← aget mem scan;
    if bmu_avail m =? radix then set_bighint mem scan radix
    else if radix <? bmu_avail m then
      Fault (Panic "blst_meta_free: freeing already free blocks")
    else
      let radix := radix / BLIST_META_RADIX in
      let i := (freeBlk - blk) `quot` s32 radix in
      free_loop
        (fun mem scan' freeBlk v blk' =>
           if next_skip =? 1 then blst_leaf_free mem scan' freeBlk v
           else blst_meta_free depth mem scan' freeBlk v radix (next_skip - 1) blk')
        16 mem scan radix skip next_skip
        (i * next_skip + 1) (blk + i * s32 radix) freeBlk count
  end.

(** The while loop of blst_meta_fill. *)
Fixpoint fill_loop (sub : list blmeta -> Z -> Z -> Z -> Z -> outcome (list blmeta * Z))
    (fuel : nat) (mem : list blmeta) (scan radix skip next_skip i blk fillBlk count nblks : Z)
    : outcome (list blmeta * Z) :=
  if negb ((i <=? skip) && (blk <? fillBlk + count)) then mret (mem, nblks)
  else
    match fuel with
    | O => Fault OutOfFuel
    | S fuel =>
      let v := Z.min (blk + s32 radix - fillBlk) count in
      m ← aget mem scan;
      _ ← (if bm_bighint m =? -1
           then Fault (Panic "blst_meta_fill: filling unexpected range") else mret tt);
      '(mem, k) ← sub mem (scan + i) fillBlk v blk;
      fill_loop sub fuel mem scan radix skip next_skip
        (i + next_skip) (blk + s32 radix) (fillBlk + v) (count - v) (nblks + k)
    end.

Fixpoint blst_meta_fill (depth : nat) (mem : list blmeta)
    (scan fillBlk count radix skip blk : Z) : outcome (list blmeta * Z) :=
  match depth with
  | O => Fault OutOfFuel
  | S depth =>
    let next_skip := skip / BLIST_META_RADIX in
    m ← aget mem scan;
    if (count =? radix) || (bmu_avail m =? 0) then
      let nblks := bmu_avail m in
      mem ← set_avail mem scan 0;
      mem ← set_bighint mem scan count;
      mret (mem, nblks)
    else
      mem ← (if bmu_avail m =? radix then
               init_children 16 mem scan skip next_skip 1
                 (all_free_child next_skip (radix / BLIST_META_RADIX))
             else mret mem);
      let radix := radix / BLIST_META_RADIX in
      if s32 radix <? count then Fault (Panic "blst_meta_fill: allocation too large")
      else
        let i := (fillBlk - blk) `quot` s32 radix in
        '(mem, nblks) ← fill_loop
          (fun mem scan' fillBlk v blk' =>
             if next_skip =? 1 then blst_leaf_fill mem scan' fillBlk v
             else blst_meta_fill depth mem scan' fillBlk v radix (next_skip - 1) blk')
          16 mem scan radix skip next_skip
          (i * next_skip + 1) (blk + i * s32 radix) fillBlk count 0;
        m ← aget mem scan;
        mem ← set_avail mem scan (bmu_avail m - nblks);
        mret (mem, nblks)
  end.

(** ** Creation *)

(** blst_radix_init with scan == NULL only computes the size: [None]. *)
Definition opt_write (mem : option (list blmeta)) (f : list blmeta -> outcome (list blmeta))
    : outcome (option (list blmeta)) :=
  match mem with Some l => l ← f l; mret (Some l) | None => mret None end.

(** The for loop of blst_radix_init: the memory, the final i and memindex. *)
Fixpoint radix_init_loop
    (sub : option (list blmeta) -> Z -> Z -> outcome (option (list blmeta) * Z))
    (fuel : nat) (mem : option (list blmeta)) (scan radix skip next_skip i count memindex : Z)
    : outcome (option (list blmeta) * Z * Z) :=
  if negb (i <=? skip) then mret (mem, i, memindex)
  else
    match fuel with
    | O => Fault OutOfFuel
    | S fuel =>
      if s32 radix <=? count then
        '(mem, n) ← sub mem (scan + i) (s32 radix);
        radix_init_loop sub fuel mem scan radix skip next_skip (i + next_skip)
          (count - s32 radix) (i + n)
      else if 0 <? count then
        '(mem, n) ← sub mem (scan + i) count;
        radix_init_loop sub fuel mem scan radix skip next_skip (i + next_skip) 0 (i + n)
      else
        mem ← opt_write mem (fun l => set_bighint l (scan + i) (-1));
        mret (mem, i, memindex)
    end.

Fixpoint blst_radix_init (depth : nat) (mem : option (list blmeta))
    (scan radix skip count : Z) : outcome (option (list blmeta) * Z) :=
  if radix =? BLIST_BMAP_RADIX then
    mem ← opt_write mem (fun l => l ← set_bighint l scan 0; set_bitmap l scan 0);
    mret (mem, 0)
  else
    match depth with
    | O => Fault OutOfFuel
    | S depth =>
      mem ← opt_write mem (fun l => l ← set_bighint l scan 0; set_avail l scan 0);
      let radix := radix / BLIST_META_RADIX in
      let next_skip := skip / BLIST_META_RADIX in
      '(mem, i, memindex) ← radix_init_loop
        (fun mem scan' count' => blst_radix_init depth mem scan' radix (next_skip - 1) count')
        16 mem scan radix skip next_skip 1 count 0;
      mret (mem, if memindex <? i then i else memindex)
    end.

(** while (radix < blocks) { radix *= 16; skip = (skip + 1) * 16; } *)
Fixpoint radix_for (fuel : nat) (radix skip blocks : Z) : outcome (Z * Z) :=
  if radix <? blocks then
    match fuel with
    | O => Fault OutOfFuel
    | S fuel =>
      let skip := s32 ((skip + 1) * BLIST_META_RADIX) in
      _ ← KKASSERT "skip > 0" (0 <? skip);
      radix_for fuel (radix * BLIST_META_RADIX) skip blocks
    end
  else mret (radix, skip).

(** The deepest tree for a 32-bit number of blocks has seven meta levels. *)
Definition MAX_DEPTH : nat := 8.

(** blist_create: [garbage] is the uninitialised memory kmalloc returns for
    bl_root. *)
Definition blist_create (garbage : Z -> list blmeta) (blocks : Z) : outcome blist :=
  '(radix, skip) ← radix_for MAX_DEPTH BLIST_BMAP_RADIX 0 blocks;
  '(_, n) ← blst_radix_init MAX_DEPTH None 0 radix skip blocks;
  let rootblks := 1 + n in
  '(root, _) ← blst_radix_init MAX_DEPTH (Some (garbage rootblks)) 0 radix skip blocks;
  mret (Blist blocks radix skip 0 (default [] root) rootblks).

(** ** The interface *)

Definition with_root (bl : blist) (root : list blmeta) (free : Z) : blist :=
  Blist (bl_blocks bl) (bl_radix bl) (bl_skip bl) (s32 free) root (bl_rootblks bl).

Definition blist_allocat (bl : blist) (count blkat : Z) : outcome (blist * Z) :=
  '(root, blk) ←
    (if bl_radix bl =? BLIST_BMAP_RADIX
     then blst_leaf_alloc (bl_root bl) 0 0 count
     else blst_meta_alloc MAX_DEPTH (bl_root bl) 0 blkat 0 count (bl_radix bl) (bl_skip bl));
  mret (with_root bl root
          (if negb (blk =? SWAPBLK_NONE) then bl_free bl - count else bl_free bl), blk).

(** blist_alloc is blist_allocat with a zero blkat. *)
Definition blist_alloc (bl : blist) (count : Z) : outcome (blist * Z) :=
  '(root, blk) ←
    (if bl_radix bl =? BLIST_BMAP_RADIX
     then blst_leaf_alloc (bl_root bl) 0 0 count
     else blst_meta_alloc MAX_DEPTH (bl_root bl) 0 0 0 count (bl_radix bl) (bl_skip bl));
  mret (with_root bl root
          (if negb (blk =? SWAPBLK_NONE) then bl_free bl - count else bl_free bl), blk).

Definition blist_free (bl : blist) (blkno count : Z) : outcome blist :=
  root ←
    (if bl_radix bl =? BLIST_BMAP_RADIX
     then blst_leaf_free (bl_root bl) 0 blkno count
     else blst_meta_free MAX_DEPTH (bl_root bl) 0 blkno count (bl_radix bl) (bl_skip bl) 0);
  mret (with_root bl root (bl_free bl + count)).

Definition blist_fill (bl : blist) (blkno count : Z) : outcome (blist * Z) :=
  '(root, filled) ←
    (if bl_radix bl =? BLIST_BMAP_RADIX
     then blst_leaf_fill (bl_root bl) 0 blkno count
     else blst_meta_fill MAX_DEPTH (bl_root bl) 0 blkno count (bl_radix bl) (bl_skip bl) 0);
  mret (with_root bl root (bl_free bl - filled), filled).

(** ** Resizing *)

(** The bit loop of a leaf: for (i = 0; i < 32 && i < count; ++i)
    if (v & (1 << i)) blist_free(dest, blk + i, 1); *)
Fixpoint copy_bits (fuel : nat) (v blk i count : Z) (dest : blist) : outcome blist :=
  if negb ((i <? BLIST_BMAP_RADIX) && (i <? count)) then mret dest
  else
    match fuel with
    | O => Fault OutOfFuel
    | S fuel =>
      dest ← (if Z.testbit v i then blist_free dest (blk + i) 1 else mret dest);
      copy_bits fuel v blk (i + 1) count dest
    end.

(** The child loop of blst_copy. *)
Fixpoint copy_loop (sub : Z -> Z -> blist -> Z -> outcome blist)
    (fuel : nat) (mem : list blmeta) (scan radix skip next_skip i blk count : Z) (dest : blist)
    : outcome blist :=
  if negb (negb (count =? 0) && (i <=? skip)) then mret dest
  else
    match fuel with
    | O => Fault OutOfFuel
    | S fuel =>
      m ← aget mem (scan + i);
      if bm_bighint m =? -1 then mret dest
      else
        let n := if s32 radix <=? count then s32 radix else count in
        dest ← sub (scan + i) blk dest n;
        copy_loop sub fuel mem scan radix skip next_skip (i + next_skip) (blk + s32 radix)
          (if s32 radix <=? count then count - s32 radix else 0) dest
    end.

Fixpoint blst_copy (depth : nat) (mem : list blmeta) (scan blk radix skip : Z)
    (dest : blist) (count : Z) : outcome blist :=
  m ← aget mem scan;
  if radix =? BLIST_BMAP_RADIX then
    let v := bmu_bitmap m in
    if v =? u_m1 then blist_free dest blk count
    else if negb (v =? 0) then copy_bits 32 v blk 0 count dest
    else mret dest
  else if bmu_avail m =? 0 then mret dest
  else if bmu_avail m =? radix then
    if count <? radix then blist_free dest blk count else blist_free dest blk (s32 radix)
  else
    match depth with
    | O => Fault OutOfFuel
    | S depth =>
      let radix := radix / BLIST_META_RADIX in
      let next_skip := skip / BLIST_META_RADIX in
      copy_loop
        (fun scan' blk' dest n => blst_copy depth mem scan' blk' radix (next_skip - 1) dest n)
        16 mem scan radix skip next_skip 1 blk count dest
    end.

(** blist_resize: the new tree that replaces the old one. *)
Definition blist_resize (garbage : Z -> list blmeta) (save : blist) (count : Z) (freenew : bool)
    : outcome blist :=
  newbl ← blist_create garbage count;
  let count := if bl_blocks save <? count then bl_blocks save else count in
  newbl ← blst_copy MAX_DEPTH (bl_root save) 0 0 (bl_radix save) (bl_skip save) newbl count;
  if freenew && (count <? bl_blocks newbl)
  then blist_free newbl count (bl_blocks newbl - count)
  else mret newbl.

(** ** Trying it out *)

Definition junk (n : Z) : list blmeta := replicate (Z.to_nat n) (Blmeta 0xdeadbeef 0x5a5a).

Definition demo : outcome (list Z) :=
  bl ← blist_create junk 1000;
  bl ← blist_free bl 0 1000;
  '(bl, a) ← blist_alloc bl 20;
  '(bl, b) ← blist_alloc bl 20;
  '(bl, c) ← blist_allocat bl 1 700;
  bl ← blist_free bl a 20;
  '(bl, d) ← blist_alloc bl 32;
  '(bl, f) ← blist_fill bl 60 20;
  bl ← blist_resize junk bl 600 true;
  mret [a; b; c; d; f; bl_free bl; bl_rootblks bl].
