(* ===== verification/BlistLeaf.v ===== *)
(** * Bitmap leaves of the block allocator

    What the leaf routines of sys/kern/subr_blist.c do to the set of free
    blocks a leaf stands for. *)

From stdpp Require Import prelude list strings.
From S2P Require Import Prelude.
From S2P Require Import Ranges.
From S2P Require Import Blist.
Open Scope Z_scope.

(** ** Slot updates *)

Definition upd (mem : list blmeta) (i : Z) (m : blmeta) : list blmeta := <[Z.to_nat i := m]> mem.

Lemma aput_upd mem i m m' : aget mem i = Done m -> aput mem i m' = Done (upd mem i m').
Proof. intros H%aget_bounds. by apply aput_in_bounds. Qed.

Lemma set_avail_upd mem i m v :
  aget mem i = Done m -> set_avail mem i v = Done (upd mem i (Blmeta (u32 v) (bm_bighint m))).
Proof. intros H. unfold set_avail. rewrite H. simpl. by eapply aput_upd. Qed.

Lemma set_bitmap_upd mem i m v :
  aget mem i = Done m -> set_bitmap mem i v = Done (upd mem i (Blmeta (u32 v) (bm_bighint m))).
Proof. intros H. unfold set_bitmap. rewrite H. simpl. by eapply aput_upd. Qed.

Lemma set_bighint_upd mem i m v :
  aget mem i = Done m -> set_bighint mem i v = Done (upd mem i (Blmeta (bm_u m) (s32 v))).
Proof. intros H. unfold set_bighint. rewrite H. simpl. by eapply aput_upd. Qed.

Lemma upd_eq mem i m m' : aget mem i = Done m -> aget (upd mem i m') i = Done m'.
Proof. intros H%aget_bounds. by apply aget_insert_eq. Qed.

Lemma upd_ne mem i j m' : i <> j -> 0 <= i -> aget (upd mem i m') j = aget mem j.
Proof.
  intros Hne Hi. destruct (Z.lt_ge_cases j 0).
  - unfold aget. by rewrite (proj2 (Z.ltb_lt j 0)) by done.
  - by apply aget_insert_ne.
Qed.

Lemma upd_upd mem i m m' : upd (upd mem i m) i m' = upd mem i m'.
Proof. apply list_insert_insert_eq. Qed.

Lemma avail_u32 a b : 0 <= a < 2 ^ 31 -> bmu_avail (Blmeta (u32 a) b) = a.
Proof.
  intros. unfold bmu_avail. simpl. rewrite u32_id by (unfold_int; lia).
  apply s32_id. unfold_int. lia.
Qed.

(** ** What a leaf stands for *)

(** [hint F blk R b]: no free run inside one leaf of [blk, blk + R) is longer
    than [b].  Allocations never cross a leaf. *)
Definition hint (F : Z -> bool) (blk R b : Z) : Prop :=
  forall a c, 1 <= c -> blk <= a -> a + c <= blk + R ->
    a / 32 = (a + c - 1) / 32 -> all_in F a c -> c <= b.

(** No free run of exactly [c] blocks: what an allocation failure means. *)
Definition no_run (F : Z -> bool) (blk R c : Z) : Prop :=
  forall a, blk <= a -> a + c <= blk + R -> a / 32 = (a + c - 1) / 32 -> ~ all_in F a c.

Definition leaf_rep (m : blmeta) (F : Z -> bool) (blk : Z) : Prop :=
  is_u32 (bm_u m) /\ 0 <= bm_bighint m < 2 ^ 31 /\
  (forall j, 0 <= j < 32 -> Z.testbit (bm_u m) j = F (blk + j)) /\
  hint F blk 32 (bm_bighint m).

Lemma hint_mono F G blk R b :
  hint F blk R b -> (forall j, blk <= j < blk + R -> G j = true -> F j = true) -> hint G blk R b.
Proof.
  intros H HG a c Hc Ha Hac Hl Hall. apply (H a c); try done.
  intros j Hj. apply HG; [lia | by apply Hall].
Qed.

Lemma hint_weaken F blk R b b' : hint F blk R b -> b <= b' -> hint F blk R b'.
Proof. intros H Hb a c ? ? ? ? ?. transitivity b; [by eapply H | done]. Qed.

Lemma no_run_hint F blk R c : 1 <= c -> no_run F blk R c -> hint F blk R (c - 1).
Proof.
  intros Hc Hn a d Hd Ha Had Hl Hall. destruct (Z.lt_ge_cases d c); [lia |]. exfalso.
  apply (Hn a); [lia | lia | | intros j Hj; apply Hall; lia].
  apply Z.le_antisymm; [apply Z.div_le_mono; lia |].
  rewrite Hl. apply Z.div_le_mono; lia.
Qed.

Lemma hint_no_run F blk R b c : 1 <= c -> hint F blk R b -> b < c -> no_run F blk R c.
Proof. intros Hc H Hb a H1 H2 H3 Hall. specialize (H a c Hc H1 H2 H3 Hall). lia. Qed.

Lemma hint_cnt F blk R : 0 <= R -> hint F blk R (cnt F blk R).
Proof.
  intros HR a c Hc Ha Hac _ Hall. rewrite <- (proj2 (cnt_all F a c ltac:(lia)) Hall).
  by apply cnt_sub; lia.
Qed.

(** ** Searching a word *)

Lemma find_bit_S fuel j mask orig r :
  find_bit (S fuel) j mask orig r =
  if j =? 0 then mret r
  else
    let hit := Z.land orig mask =? 0 in
    find_bit fuel (Z.shiftr j 1) (Z.shiftr mask (Z.shiftr j 1))
      (if hit then Z.shiftr orig j else orig) (if hit then r + j else r).
Proof. reflexivity. Qed.

Lemma find_bit_spec k orig r :
  0 <= orig -> Z.land orig (Z.ones (2 ^ (Z.of_nat k + 1))) <> 0 ->
  exists r', find_bit (S k) (2 ^ Z.of_nat k) (Z.ones (2 ^ Z.of_nat k)) orig r = Done r' /\
    r <= r' < r + 2 ^ (Z.of_nat k + 1) /\ Z.testbit orig (r' - r) = true.
Proof.
  revert orig r. induction k as [| k IH]; intros orig r Ho Hne.
  - change (2 ^ (Z.of_nat 0 + 1)) with 2 in *. change (2 ^ Z.of_nat 0) with 1.
    change (Z.ones 2) with 3 in Hne. change (Z.ones 1) with 1. cbn [find_bit].
    change (1 =? 0) with false. change (Z.shiftr 1 1) with 0. change (Z.shiftr 1 0) with 1.
    change (0 =? 0) with true. cbv beta iota zeta.
    destruct (Z.eqb_spec (Z.land orig 1) 0) as [E | E]; eexists; (split; [reflexivity |]); (split; [lia |]).
    + replace (r + 1 - r) with 1 by lia. destruct (Z.testbit orig 1) eqn:E1; [done |].
      destruct Hne. apply Z.bits_inj'. intros j Hj. rewrite Z.land_spec, Z.bits_0.
      destruct (decide (j = 0)) as [-> |].
      { apply (f_equal (fun z => Z.testbit z 0)) in E. rewrite Z.land_spec in E.
        change (Z.testbit 1 0) with true in E. rewrite andb_true_r in E. by rewrite E. }
      destruct (decide (j = 1)) as [-> |]; [by rewrite E1 |].
      rewrite (bits_above 2 3 j) by lia. apply andb_false_r.
    + replace (r - r) with 0 by lia. destruct (Z.testbit orig 0) eqn:E0; [done |].
      destruct E. apply Z.bits_inj'. intros j Hj. rewrite Z.land_spec, Z.bits_0.
      destruct (decide (j = 0)) as [-> |]; [by rewrite E0 |].
      rewrite (bits_above 1 1 j) by lia. apply andb_false_r.
  - set (J := 2 ^ Z.of_nat (S k)) in *.
    assert (J = 2 * 2 ^ Z.of_nat k) as HJ by (unfold J; rewrite Nat2Z.inj_succ, Z.pow_succ_r by lia; done).
    assert (2 ^ (Z.of_nat (S k) + 1) = 2 * J) as HJ2 by (unfold J; rewrite Z.add_1_r, Z.pow_succ_r by lia; done).
    rewrite HJ2 in *. pose proof (Z.pow_pos_nonneg 2 (Z.of_nat k) ltac:(lia) ltac:(lia)).
    assert (2 ^ (Z.of_nat k + 1) = J) as HJ1 by (rewrite Z.add_1_r, Z.pow_succ_r by lia; lia).
    rewrite find_bit_S, (proj2 (Z.eqb_neq J 0)) by lia. cbv zeta.
    replace (Z.shiftr J 1) with (2 ^ Z.of_nat k) by
      (rewrite Z.shiftr_div_pow2, HJ, Z.mul_comm by lia; symmetry; by apply Z.div_mul).
    replace (Z.shiftr (Z.ones J) (2 ^ Z.of_nat k)) with (Z.ones (2 ^ Z.of_nat k)).
    2: { apply Z.bits_inj'. intros j Hj. rewrite Z.shiftr_spec by lia.
         destruct (Z.lt_ge_cases j (2 ^ Z.of_nat k)).
         - rewrite !Z.ones_spec_low by lia. done.
         - rewrite !Z.ones_spec_high by lia. done. }
    destruct (Z.eqb_spec (Z.land orig (Z.ones J)) 0) as [E | E].
    + destruct (IH (Z.shiftr orig J) (r + J)) as (r' & -> & Hr' & Hb).
      { by apply Z.shiftr_nonneg. }
      { rewrite HJ1. intros E2. apply Hne. apply Z.bits_inj'. intros j Hj.
        rewrite Z.land_spec, Z.bits_0.
        destruct (Z.lt_ge_cases j (2 * J)); [| rewrite Z.ones_spec_high by lia; apply andb_false_r].
        rewrite Z.ones_spec_low, andb_true_r by lia. destruct (Z.lt_ge_cases j J).
        - apply (f_equal (fun z => Z.testbit z j)) in E.
          by rewrite Z.land_spec, Z.ones_spec_low, andb_true_r, Z.bits_0 in E by lia.
        - apply (f_equal (fun z => Z.testbit z (j - J))) in E2.
          rewrite Z.land_spec, Z.ones_spec_low, andb_true_r, Z.bits_0, Z.shiftr_spec in E2 by lia.
          by replace (j - J + J) with j in E2 by lia. }
      exists r'. split; [done |]. rewrite HJ1 in Hr'. split; [lia |].
      rewrite Z.shiftr_spec in Hb by lia. by replace (r' - (r + J) + J) with (r' - r) in Hb by lia.
    + destruct (IH orig r) as (r' & -> & Hr' & Hb); [done | by rewrite HJ1 |].
      exists r'. split; [done |]. rewrite HJ1 in Hr'. split; [lia | done].
Qed.

Lemma find_bit_correct orig :
  is_u32 orig -> orig <> 0 ->
  exists r, find_bit 5 (BLIST_BMAP_RADIX / 2) (Z.shiftr u_m1 (BLIST_BMAP_RADIX / 2)) orig 0 = Done r /\
    0 <= r < 32 /\ Z.testbit orig r = true.
Proof.
  intros [H0 H1] Hne. destruct (find_bit_spec 4 orig 0 H0) as (r & Hr & Hb & Ht).
  - change (2 ^ (Z.of_nat 4 + 1)) with 32. rewrite Z.land_ones, Z.mod_small by lia. done.
  - exists r. change (2 ^ (Z.of_nat 4 + 1)) with 32 in Hb. rewrite Z.sub_0_r in Ht. done.
Qed.

Lemma shift_run n c : 0 <= n -> 0 <= c -> n + c < 32 -> u32 (Z.shiftl (run n c) 1) = run (n + 1) c.
Proof.
  intros. assert (Z.shiftl (run n c) 1 = run (n + 1) c) as ->.
  { unfold run. rewrite Z.shiftl_shiftl by lia. done. }
  apply u32_id. apply run_bounded; lia.
Qed.

Lemma find_run_spec fuel j count orig :
  1 <= count -> 0 <= j -> 32 - count < j + Z.of_nat fuel ->
  match find_run fuel j (32 - count) (run j count) orig with
  | Done (Some (j', mask)) =>
      j <= j' <= 32 - count /\ mask = run j' count /\ all_in (bits orig) j' count
  | Done None => forall j', j <= j' <= 32 - count -> ~ all_in (bits orig) j' count
  | Fault _ => False
  end.
Proof.
  revert j. induction fuel as [| fuel IH]; intros j Hc Hj Hf; cbn [find_run];
    (destruct (Z.leb_spec j (32 - count)); simpl; [| intros j' ?; lia]); [lia |].
  destruct (Z.eqb_spec (Z.land orig (run j count)) (run j count)) as [E | E].
  - apply land_run in E; [| lia | lia]. split_and!; done || lia.
  - assert (~ all_in (bits orig) j count) as Hno by (rewrite <- land_run by lia; done).
    destruct (decide (j = 32 - count)) as [-> | Hlt].
    + destruct fuel; simpl; replace (32 - count + 1 <=? 32 - count) with false by
        (symmetry; apply Z.leb_gt; lia); simpl; intros j' Hj';
        by replace j' with (32 - count) by lia.
    + rewrite shift_run by lia. specialize (IH (j + 1)).
      destruct (find_run _ _ _ _ _) as [[[j' mask] |] |]; simpl.
      * destruct IH as (? & ? & ?); [lia | lia | lia |]. split_and!; done || lia.
      * intros j' Hj'. destruct (decide (j' = j)) as [-> |]; [done |]. apply IH; lia.
      * apply IH; lia.
Qed.

Lemma u_m1_shift n : 0 <= n <= 32 -> Z.shiftr u_m1 n = run 0 (32 - n).
Proof.
  intros. unfold run. rewrite Z.shiftl_0_r. change u_m1 with (Z.ones 32).
  apply Z.bits_inj'. intros j Hj. rewrite Z.shiftr_spec by lia.
  destruct (Z.lt_ge_cases j (32 - n)).
  - rewrite !Z.ones_spec_low by lia. done.
  - rewrite !Z.ones_spec_high by lia. done.
Qed.

Lemma leaf_mask_run n count :
  0 <= n -> 1 <= count -> n + count <= 32 -> leaf_mask n count = run n count.
Proof.
  intros. unfold leaf_mask, BLIST_BMAP_RADIX. rewrite u_m1_shift by lia.
  apply Z.bits_inj'. intros j Hj. rewrite Z.land_spec, !run_spec by lia.
  unfold u32. change u_m1 with (Z.ones 32). rewrite <- Z.land_ones by lia.
  rewrite Z.land_spec, Z.shiftl_spec by lia. unfold inr.
  destruct (Z.lt_ge_cases j n).
  - rewrite Z.testbit_neg_r by lia. simpl. by rewrite (proj2 (Z.leb_gt n j)) by lia.
  - rewrite (proj2 (Z.leb_le n j)), (proj2 (Z.leb_le 0 j)) by lia. simpl.
    destruct (Z.lt_ge_cases j 32).
    + rewrite !Z.ones_spec_low by lia. simpl. f_equal. lia.
    + rewrite (Z.ones_spec_high 32 j), andb_false_r by lia. simpl.
      symmetry. apply Z.ltb_ge. lia.
Qed.

Lemma popcount_spec fuel b acc :
  is_u32 b -> cnt (bits b) 0 32 <= Z.of_nat fuel ->
  popcount fuel b acc = Done (acc + cnt (bits b) 0 32).
Proof.
  revert b acc. induction fuel as [| fuel IH]; intros b acc Hb Hf; simpl;
    (destruct (Z.eqb_spec b 0) as [-> | Hne];
     [rewrite (proj2 (cnt_none (bits 0) 0 32 ltac:(lia))) by (intros j ?; apply Z.bits_0); f_equal; lia |]).
  all: destruct (land_pred b) as (p & Hp & Hbp & Hl); [destruct Hb; lia |].
  all: assert (p < 32) by (destruct (Z.lt_ge_cases p 32); [done |]; rewrite (bits_above 32) in Hbp; done || lia).
  all: assert (cnt (bits (Z.land b (b - 1))) 0 32 = cnt (bits b) 0 32 - 1) as Hcnt.
  1, 3: rewrite (cnt_update (bits b) _ 0 32 p 1) by
      (lia || (intros j ? ?; unfold bits; rewrite Hl, (proj2 (Z.eqb_neq j p)), andb_true_r by lia; done));
    unfold cnt; change (Z.to_nat 1) with 1%nat; simpl; unfold bits;
    rewrite Hl, Z.eqb_refl, Hbp by done; simpl; lia.
  - pose proof (cnt_bounds (bits (Z.land b (b - 1))) 0 32). lia.
  - rewrite IH, Hcnt; [f_equal; lia | by apply land_bounded_l | lia].
Qed.

(** ** The leaf routines *)

Section Leaf.
Context (mem : list blmeta) (scan : Z) (m : blmeta) (F : Z -> bool) (blk : Z).
Hypothesis Hm : aget mem scan = Done m.
Hypothesis Hrep : leaf_rep m F blk.
Hypothesis Hblk : 0 <= blk /\ blk mod 32 = 0.

Lemma leaf_all_in n c : 0 <= n -> n + c <= 32 -> all_in (bits (bm_u m)) n c <-> all_in F (blk + n) c.
Proof.
  destruct Hrep as (_ & _ & Hb & _). intros. unfold all_in, bits. split; intros H1 j Hj.
  - replace j with (blk + (j - blk)) by lia. rewrite <- Hb by lia. apply H1. lia.
  - rewrite Hb by lia. apply H1. lia.
Qed.

Lemma leaf_none_in n c : 0 <= n -> n + c <= 32 -> none_in (bits (bm_u m)) n c <-> none_in F (blk + n) c.
Proof.
  destruct Hrep as (_ & _ & Hb & _). intros. unfold none_in, bits. split; intros H1 j Hj.
  - replace j with (blk + (j - blk)) by lia. rewrite <- Hb by lia. apply H1. lia.
  - rewrite Hb by lia. apply H1. lia.
Qed.

Lemma leaf_cnt n c : 0 <= n -> 0 <= c -> n + c <= 32 -> cnt (bits (bm_u m)) n c = cnt F (blk + n) c.
Proof.
  destruct Hrep as (_ & _ & Hb & _). intros Hn Hc Hnc.
  assert (forall k a, (n <= a)%Z -> a + Z.of_nat k <= n + c ->
    cnt_nat (bits (bm_u m)) a k = cnt_nat F (blk + a) k) as H.
  { induction k as [| k IH]; intros a Ha Hk; simpl; [done |].
    unfold bits at 1. rewrite Hb by lia. rewrite IH by lia. by replace (blk + a + 1) with (blk + (a + 1)) by lia. }
  unfold cnt. apply H; lia.
Qed.

(** Clearing a run of bits removes the blocks from the set. *)
Lemma leaf_clear n c b :
  0 <= n -> 0 <= c -> n + c <= 32 -> 0 <= b < 2 ^ 31 -> hint F blk 32 b ->
  leaf_rep (Blmeta (u32 (Z.ldiff (bm_u m) (run n c))) b) (clear_range F (blk + n) c) blk.
Proof.
  destruct Hrep as (Hu & _ & Hb & _). intros Hn Hc Hnc Hbb Hh.
  assert (u32 (Z.ldiff (bm_u m) (run n c)) = Z.ldiff (bm_u m) (run n c)) as E.
  { apply u32_id. unfold is_u32 in *. assert (0 <= Z.ldiff (bm_u m) (run n c)) by (apply Z.ldiff_nonneg; lia).
    split; [done |]. apply bits_bounded; try lia. intros i Hi.
    rewrite Z.ldiff_spec, (bits_above 32) by lia. done. }
  split_and!; simpl; rewrite ?E; try lia.
  - rewrite <- E. apply u32_range.
  - intros j Hj. rewrite Z.ldiff_spec, run_spec, Hb by lia. unfold clear_range. f_equal. f_equal.
    unfold inr. f_equal; [destruct (Z.leb_spec n j), (Z.leb_spec (blk + n) (blk + j)) | destruct (Z.ltb_spec j (n + c)), (Z.ltb_spec (blk + j) (blk + n + c))]; done || lia.
  - eapply hint_mono; [done |]. intros j _. apply clear_range_le.
Qed.

(** Blocks of one leaf: the quotient by 32 is that of the leaf. *)
Lemma leaf_quot j : 0 <= j < 32 -> (blk + j) / 32 = blk / 32.
Proof.
  intros. pose proof (Z.div_mod blk 32 ltac:(lia)).
  symmetry. apply (Z.div_unique _ _ _ j); lia.
Qed.

Lemma blst_leaf_alloc_spec count :
  1 <= count <= 32 ->
  exists m' r, blst_leaf_alloc mem scan blk count = Done (upd mem scan m', r) /\
    ((r = SWAPBLK_NONE /\ leaf_rep m' F blk /\ no_run F blk 32 count) \/
     (blk <= r /\ r + count <= blk + 32 /\ all_in F r count /\
      leaf_rep m' (clear_range F r count) blk)).
Proof.
  intros Hc. unfold blst_leaf_alloc. rewrite Hm, bind_Done_l. cbv zeta. unfold bmu_bitmap.
  destruct (Hrep) as (Hu & Hbb & Hb & Hh).
  assert (forall b, no_run F blk 32 count -> 0 <= b < 2 ^ 31 -> hint F blk 32 b ->
    leaf_rep (Blmeta (bm_u m) (s32 b)) F blk) as Hfail.
  { intros b Hno Hbnd Hh'. rewrite s32_id by (unfold_int; lia).
    split; [done |]. split; [simpl; lia |]. by split. }
  destruct (Z.eqb_spec (bm_u m) 0) as [E0 | Hne].
  - erewrite set_bighint_upd by done. simpl. do 2 eexists. split; [reflexivity |]. left.
    assert (none_in F blk 32) as Hnone.
    { intros j Hj. replace j with (blk + (j - blk)) by lia.
      rewrite <- Hb, E0 by lia. apply Z.bits_0. }
    split_and!; try done; [apply Hfail; try lia |].
    + intros a ? ? _ Hall. specialize (Hall a ltac:(lia)). rewrite Hnone in Hall by lia. done.
    + intros a c ? ? ? _ Hall. specialize (Hall a ltac:(lia)). rewrite Hnone in Hall by lia. done.
    + intros a ? ? _ Hall. specialize (Hall a ltac:(lia)). rewrite Hnone in Hall by lia. done.
  - destruct (Z.eqb_spec count 1) as [-> | Hc1].
    + destruct (find_bit_correct _ Hu Hne) as (r & -> & Hr & Hbr). simpl.
      erewrite set_bitmap_upd by done. simpl. do 2 eexists. split; [reflexivity |]. right.
      split_and!; try lia.
      * intros j Hj. replace j with (blk + r) by lia. rewrite <- Hb by lia. done.
      * change (Z.shiftl 1 r) with (run r 1). apply leaf_clear; try lia. done.
    + unfold BLIST_BMAP_RADIX. rewrite (proj2 (Z.leb_le count 32)) by lia.
      rewrite u_m1_shift by lia. replace (32 - (32 - count)) with count by lia.
      pose proof (find_run_spec 32 0 count (bm_u m)) as Hf.
      destruct (find_run _ _ _ _ _) as [[[j mask] |] |]; [| | exfalso; apply Hf; lia]; simpl.
      * destruct Hf as (Hj & -> & Hall); [lia | lia | lia |].
        erewrite set_bitmap_upd by done. simpl. do 2 eexists. split; [reflexivity |]. right.
        split_and!; try lia.
        -- apply leaf_all_in; done || lia.
        -- apply leaf_clear; try lia. done.
      * assert (no_run F blk 32 count) as Hno.
        { intros a Ha Hac _ Hall. apply (Hf ltac:(lia) ltac:(lia) ltac:(lia) (a - blk)); [lia |].
          apply leaf_all_in; [lia | lia |]. by replace (blk + (a - blk)) with a by lia. }
        erewrite set_bighint_upd by done. simpl. do 2 eexists. split; [reflexivity |]. left.
        split_and!; try done. apply Hfail; [done | lia |]. apply no_run_hint; [lia | done].
Qed.

(** blk & 31 for a block of this leaf. *)
Lemma leaf_offset b : blk <= b < blk + 32 -> Z.land b (BLIST_BMAP_RADIX - 1) = b - blk.
Proof.
  intros. change (BLIST_BMAP_RADIX - 1) with (Z.ones 5). rewrite Z.land_ones by lia.
  change (2 ^ 5) with 32. pose proof (Z.div_mod blk 32 ltac:(lia)).
  symmetry. apply (Z.mod_unique _ _ (blk / 32)); lia.
Qed.

Lemma blst_leaf_free_spec b count :
  1 <= count -> blk <= b -> b + count <= blk + 32 -> none_in F b count ->
  exists m', blst_leaf_free mem scan b count = Done (upd mem scan m') /\
    leaf_rep m' (set_range F b count) blk.
Proof.
  intros Hc Hb1 Hb2 Hn. destruct (Hrep) as (Hu & Hbb & Hb & Hh).
  unfold blst_leaf_free. rewrite leaf_offset, leaf_mask_run, Hm by lia. simpl. unfold bmu_bitmap.
  rewrite (proj2 (btest_run (bm_u m) (b - blk) count ltac:(lia) ltac:(lia))).
  2: { apply leaf_none_in; [lia | lia |]. by replace (blk + (b - blk)) with b by lia. }
  simpl. erewrite set_bitmap_upd by done. simpl.
  erewrite set_bighint_upd by (by eapply upd_eq). rewrite upd_upd. eexists. split; [reflexivity |].
  pose proof (run_bounded (b - blk) count 32 ltac:(lia) ltac:(lia) ltac:(lia)) as Hrun.
  assert (is_u32 (Z.lor (bm_u m) (run (b - blk) count))) as Hlu by (apply lor_bounded; done || lia).
  split_and!; simpl; rewrite ?(u32_id _ Hlu); try done.
  - intros j Hj. rewrite Z.lor_spec, run_spec, Hb by lia. unfold set_range. f_equal.
    unfold inr. f_equal; [destruct (Z.leb_spec (b - blk) j), (Z.leb_spec b (blk + j)) | destruct (Z.ltb_spec j (b - blk + count)), (Z.ltb_spec (blk + j) (b + count))]; done || lia.
  - intros a c ? ? ? _ _. change (s32 BLIST_BMAP_RADIX) with 32. lia.
Qed.

Lemma blst_leaf_fill_spec b count :
  1 <= count -> blk <= b -> b + count <= blk + 32 ->
  exists m', blst_leaf_fill mem scan b count = Done (upd mem scan m', cnt F b count) /\
    leaf_rep m' (clear_range F b count) blk.
Proof.
  intros Hc Hb1 Hb2. destruct (Hrep) as (Hu & Hbb & Hb & Hh).
  unfold blst_leaf_fill. rewrite leaf_offset, leaf_mask_run, Hm, bind_Done_l by lia. cbv zeta. unfold bmu_bitmap.
  assert (cnt (bits (Z.land (bm_u m) (run (b - blk) count))) 0 32 = cnt F b count) as Hcnt.
  { pose proof (leaf_cnt (b - blk) count ltac:(lia) ltac:(lia) ltac:(lia)) as Hl.
    replace (blk + (b - blk)) with b in Hl by lia. rewrite <- Hl.
    replace 32 with ((b - blk) + (count + (32 - (b - blk) - count))) by lia.
    assert (forall j, 0 <= j -> bits (Z.land (bm_u m) (run (b - blk) count)) j =
      bits (bm_u m) j && inr (b - blk) count j) as Hbit.
    { intros j Hj. unfold bits. by rewrite Z.land_spec, run_spec by lia. }
    rewrite !cnt_split by lia. rewrite Z.add_0_l.
    rewrite (proj2 (cnt_none _ 0 (b - blk) ltac:(lia))).
    2: { intros j Hj. rewrite Hbit, (proj2 (inr_false _ _ _)), andb_false_r by lia. done. }
    rewrite (proj2 (cnt_none _ (b - blk + count) (32 - (b - blk) - count) ltac:(lia))).
    2: { intros j Hj. rewrite Hbit, (proj2 (inr_false _ _ _)), andb_false_r by lia. done. }
    rewrite (cnt_ext _ (bits (bm_u m)) (b - blk) count); [lia |].
    intros j Hj. rewrite Hbit, (proj2 (inr_spec _ _ _)), andb_true_r by lia. done. }
  rewrite popcount_spec; [| by apply land_bounded_l | pose proof (cnt_bounds F b count); lia].
  rewrite Hcnt, bind_Done_l. erewrite set_bitmap_upd by done. rewrite bind_Done_l. eexists. split; [reflexivity |].
  replace b with (blk + (b - blk)) at 2 by lia. apply leaf_clear; done || lia.
Qed.

End Leaf.
