(* ===== verification/BlistTree.v ===== *)
(** * The radix tree of the block allocator: representation

    The array of slots of a tree of level L for [n] blocks: its shape (which
    slots exist, where the terminators are) and the set of free blocks it
    stands for, with the frame lemmas that let one child change while its
    siblings stay the same. *)

From stdpp Require Import prelude list strings.
From S2P Require Import Prelude.
From S2P Require Import Ranges.
From S2P Require Import Blist.
From S2P Require Import BlistLeaf.
Open Scope Z_scope.

(** ** Geometry *)

(** Blocks under a node of level [L] (level 0 is a leaf), and the slots of
    its subtrees. *)
Fixpoint rdx (L : nat) : Z := match L with O => 32 | S L => 16 * rdx L end.
Fixpoint skp (L : nat) : Z := match L with O => 0 | S L => (skp L + 1) * 16 end.

(** The slot of child [k], its first block, and how many of its blocks are
    managed when the node manages [n]. *)
Definition cb (base : Z) (L : nat) (k : Z) : Z := base + 1 + k * (skp L + 1).
Definition cblk (blk : Z) (L : nat) (k : Z) : Z := blk + k * rdx L.
Definition cn (n : Z) (L : nat) (k : Z) : Z := Z.min (rdx L) (n - k * rdx L).

Lemma rdx_pos L : 32 <= rdx L.
Proof. induction L; simpl; lia. Qed.

Lemma rdx_mod32 L : rdx L mod 32 = 0.
Proof.
  induction L as [| L IH]; [done |]. cbn [rdx].
  rewrite Z.mul_mod, IH by lia. done.
Qed.

Lemma skp_nonneg L : 0 <= skp L.
Proof. induction L; simpl; lia. Qed.

Lemma rdx_S L : rdx (S L) = 16 * rdx L.
Proof. done. Qed.

Lemma skp_S L : skp (S L) = (skp L + 1) * 16.
Proof. done. Qed.

Lemma rdx_div L : rdx (S L) / BLIST_META_RADIX = rdx L.
Proof. rewrite rdx_S. unfold BLIST_META_RADIX. rewrite Z.mul_comm. by apply Z.div_mul. Qed.

Lemma skp_div L : skp (S L) / BLIST_META_RADIX = skp L + 1.
Proof. rewrite skp_S. by apply Z.div_mul. Qed.

Lemma rdx_bound L : (L <= 6)%nat -> rdx L <= 2 ^ 29.
Proof. intros. do 7 (destruct L as [| L]; [simpl; lia |]). lia. Qed.

Lemma rdx_s32 L : (L <= 6)%nat -> s32 (rdx L) = rdx L.
Proof. intros H%rdx_bound. pose proof (rdx_pos L). apply s32_id. unfold_int. lia. Qed.

Lemma next_skip_leaf L : (skp L + 1 =? 1) = match L with O => true | _ => false end.
Proof.
  destruct L as [| L]; [done |]. apply Z.eqb_neq. pose proof (skp_nonneg L). simpl. lia.
Qed.

Lemma cblk_mod32 blk L k : blk mod 32 = 0 -> cblk blk L k mod 32 = 0.
Proof.
  intros H. unfold cblk. rewrite Z.add_mod, Z.mul_mod, rdx_mod32, H by lia.
  by rewrite Z.mul_0_r.
Qed.

(** Every block of a node lies in one of its children; so does every run that
    stays inside a leaf. *)
Lemma child_of blk L a c :
  blk mod 32 = 0 -> 1 <= c -> blk <= a -> a + c <= blk + rdx (S L) -> a / 32 = (a + c - 1) / 32 ->
  exists k, 0 <= k < 16 /\ cblk blk L k <= a /\ a + c <= cblk blk L k + rdx L.
Proof.
  intros Hm Hc Ha Hac Hq. pose proof (rdx_pos L). rewrite rdx_S in Hac.
  set (k := (a - blk) / rdx L).
  pose proof (Z.div_mod (a - blk) (rdx L) ltac:(lia)) as E. fold k in E.
  pose proof (Z.mod_pos_bound (a - blk) (rdx L) ltac:(lia)).
  exists k. assert (0 <= k) by (apply Z.div_pos; lia).
  assert (k < 16) by nia. split; [lia |]. unfold cblk. split; [nia |].
  (* the end of the child is a multiple of 32, so the leaf of [a] ends before it *)
  assert ((blk + (k + 1) * rdx L) mod 32 = 0) as Hend by (by apply (cblk_mod32 blk L (k + 1))).
  pose proof (Z.div_mod (blk + (k + 1) * rdx L) 32 ltac:(lia)) as Ee.
  pose proof (Z.div_mod a 32 ltac:(lia)). pose proof (Z.mod_pos_bound a 32 ltac:(lia)).
  pose proof (Z.div_mod (a + c - 1) 32 ltac:(lia)).
  pose proof (Z.mod_pos_bound (a + c - 1) 32 ltac:(lia)). nia.
Qed.

(** ** Shape and content *)

Definition slot (mem : list blmeta) (i : Z) (P : blmeta -> Prop) : Prop :=
  exists m, aget mem i = Done m /\ P m.

Definition live (m : blmeta) : Prop := 0 <= bm_bighint m < 2 ^ 31.
Definition terminator (m : blmeta) : Prop := bm_bighint m = -1.

(** The slots of a tree of level [L] that manages [n] blocks. *)
Fixpoint shape (L : nat) (mem : list blmeta) (base n : Z) : Prop :=
  slot mem base live /\
  match L with
  | O => True
  | S L => forall k, 0 <= k < 16 ->
      (k * rdx L < n -> shape L mem (cb base L k) (cn n L k)) /\
      ((k - 1) * rdx L < n <= k * rdx L -> slot mem (cb base L k) terminator)
  end.

(** The tree stands for the free set [F] on [blk, blk + rdx L). *)
Fixpoint rep (L : nat) (mem : list blmeta) (base blk n : Z) (F : Z -> bool) : Prop :=
  match L with
  | O => slot mem base (fun m => leaf_rep m F blk)
  | S L' =>
      slot mem base (fun m =>
        bmu_avail m = cnt F blk (rdx L) /\ hint F blk (rdx L) (bm_bighint m)) /\
      (none_in F blk (rdx L) \/ all_in F blk (rdx L) \/
       forall k, 0 <= k < 16 -> k * rdx L' < n ->
         rep L' mem (cb base L' k) (cblk blk L' k) (cn n L' k) F)
  end.

Definition node (L : nat) (mem : list blmeta) (base blk n : Z) (F : Z -> bool) : Prop :=
  shape L mem base n /\ rep L mem base blk n F /\ none_in F (blk + n) (rdx L - n).

(** The children of an expanded meta node. *)
Definition skeleton (L : nat) (mem : list blmeta) (base n : Z) : Prop :=
  forall k, 0 <= k < 16 ->
    (k * rdx L < n -> shape L mem (cb base L k) (cn n L k)) /\
    ((k - 1) * rdx L < n <= k * rdx L -> slot mem (cb base L k) terminator).

Definition forest (L : nat) (mem : list blmeta) (base blk n : Z) (F : Z -> bool) : Prop :=
  forall k, 0 <= k < 16 -> k * rdx L < n ->
    rep L mem (cb base L k) (cblk blk L k) (cn n L k) F.

(** ** Frames *)

(** [mem'] differs from [mem] only in [lo, hi]. *)
Definition frame (mem mem' : list blmeta) (lo hi : Z) : Prop :=
  forall i, ~ lo <= i <= hi -> aget mem' i = aget mem i.

Lemma frame_refl mem lo hi : frame mem mem lo hi.
Proof. by intros i _. Qed.

Lemma frame_trans m1 m2 m3 lo hi : frame m1 m2 lo hi -> frame m2 m3 lo hi -> frame m1 m3 lo hi.
Proof. intros H1 H2 i Hi. by rewrite H2, H1. Qed.

Lemma frame_weaken m1 m2 lo hi lo' hi' :
  frame m1 m2 lo hi -> lo' <= lo -> hi <= hi' -> frame m1 m2 lo' hi'.
Proof. intros H ? ? i Hi. apply H. lia. Qed.

Lemma frame_upd mem i m : 0 <= i -> frame mem (upd mem i m) i i.
Proof. intros Hi j Hj. apply upd_ne; lia. Qed.

Lemma slot_frame mem mem' i P :
  aget mem' i = aget mem i -> slot mem i P -> slot mem' i P.
Proof. intros E (m & Hm & HP). exists m. by rewrite E. Qed.

Lemma cb_range base L k : 0 <= k < 16 -> base < cb base L k /\ cb base L k + skp L <= base + skp (S L).
Proof. intros. pose proof (skp_nonneg L). unfold cb. rewrite skp_S. nia. Qed.

Lemma cb_disjoint base L k k' : k < k' -> cb base L k + skp L < cb base L k'.
Proof. intros. pose proof (skp_nonneg L). unfold cb. nia. Qed.

Lemma shape_frame L mem mem' base n :
  (forall i, base <= i <= base + skp L -> aget mem' i = aget mem i) ->
  shape L mem base n -> shape L mem' base n.
Proof.
  revert base n. induction L as [| L IH]; intros base n Heq [Hs Hk].
  { split; [| done]. eapply slot_frame; [apply Heq; simpl; lia | done]. }
  pose proof (skp_nonneg (S L)). split; [eapply slot_frame; [apply Heq; lia | done] |].
  intros k Hk16. destruct (Hk k Hk16) as [H1 H2]. destruct (cb_range base L k Hk16). split.
  - intros Hn. apply IH; [| by apply H1]. intros i Hi. apply Heq. lia.
  - intros Hn. pose proof (skp_nonneg L).
    eapply slot_frame; [apply Heq; lia | by apply H2].
Qed.

Lemma rep_frame L mem mem' base blk n F :
  (forall i, base <= i <= base + skp L -> aget mem' i = aget mem i) ->
  rep L mem base blk n F -> rep L mem' base blk n F.
Proof.
  revert base blk n. induction L as [| L IH]; intros base blk n Heq H; cbn [rep] in *.
  - eapply slot_frame; [apply Heq; simpl; lia | done].
  - destruct H as [Hs Hc]. pose proof (skp_nonneg (S L)). split.
    + eapply slot_frame; [apply Heq; lia | done].
    + destruct Hc as [? | [? | Hc]]; [auto | auto | right; right].
      intros k Hk Hn. destruct (cb_range base L k Hk).
      apply IH; [| by apply Hc]. intros i Hi. apply Heq. lia.
Qed.

Lemma hint_ext F G blk R b :
  (forall j, blk <= j < blk + R -> F j = G j) -> hint F blk R b -> hint G blk R b.
Proof. intros HFG H. eapply hint_mono; [done |]. intros j Hj HG. by rewrite HFG. Qed.

Lemma all_in_ext F G a c : (forall j, a <= j < a + c -> F j = G j) -> all_in F a c -> all_in G a c.
Proof. intros HFG H j Hj. rewrite <- HFG by lia. by apply H. Qed.

Lemma none_in_ext F G a c : (forall j, a <= j < a + c -> F j = G j) -> none_in F a c -> none_in G a c.
Proof. intros HFG H j Hj. rewrite <- HFG by lia. by apply H. Qed.

Lemma rep_ext L mem base blk n F G :
  (forall j, blk <= j < blk + rdx L -> F j = G j) ->
  rep L mem base blk n F -> rep L mem base blk n G.
Proof.
  revert base blk n. induction L as [| L IH]; intros base blk n HFG H; cbn [rep] in *.
  - destruct H as (m & Hm & Hu & Hb & Hbits & Hh). exists m. split; [done |].
    split_and!; try done; try lia.
    + intros j Hj. rewrite Hbits by done. apply HFG. simpl. lia.
    + by eapply hint_ext.
  - destruct H as [(m & Hm & Ha & Hh) Hc]. split.
    + exists m. split_and!; [done | | by eapply hint_ext].
      rewrite Ha. by apply cnt_ext.
    + destruct Hc as [? | [? | Hc]]; [left | right; left | right; right].
      * by eapply none_in_ext.
      * by eapply all_in_ext.
      * intros k Hk Hn. apply IH; [| by apply Hc]. intros j Hj. apply HFG.
        unfold cblk in Hj. rewrite rdx_S. pose proof (rdx_pos L). nia.
Qed.

(** The hint of a tree, whatever its level. *)
Lemma rep_hint L mem base blk n F :
  rep L mem base blk n F -> slot mem base (fun m => hint F blk (rdx L) (bm_bighint m)).
Proof.
  destruct L; cbn [rep].
  - intros (m & Hm & _ & _ & _ & Hh). by exists m.
  - intros [(m & Hm & _ & Hh) _]. by exists m.
Qed.

Lemma shape_head L mem base n : shape L mem base n -> slot mem base live.
Proof. destruct L; by intros []. Qed.

Lemma shape_skeleton L mem base n : shape (S L) mem base n -> skeleton L mem base n.
Proof. by intros []. Qed.

(** ** Rebuilding a node *)

(** The tail of a child. *)
Lemma child_tail blk n L k F :
  n <= rdx (S L) -> 0 <= k < 16 -> k * rdx L < n -> none_in F (blk + n) (rdx (S L) - n) ->
  none_in F (cblk blk L k + cn n L k) (rdx L - cn n L k).
Proof.
  intros Hn Hk Hkn H j Hj. unfold cblk, cn in *. rewrite rdx_S in *. pose proof (rdx_pos L).
  apply H. destruct (Z.min_spec (rdx L) (n - k * rdx L)) as [[? E] | [? E]]; rewrite E in Hj; nia.
Qed.

Lemma forest_child L mem mem' base blk n F F' k :
  forest L mem base blk n F -> 0 <= k < 16 ->
  frame mem mem' (cb base L k) (cb base L k + skp L) ->
  rep L mem' (cb base L k) (cblk blk L k) (cn n L k) F' ->
  (forall j, ~ cblk blk L k <= j < cblk blk L k + rdx L -> F' j = F j) ->
  forest L mem' base blk n F'.
Proof.
  intros Hf Hk Hfr Hrep HF k' Hk' Hn. pose proof (rdx_pos L).
  destruct (decide (k' = k)) as [-> | Hne]; [done |].
  apply (rep_ext _ _ _ _ _ F).
  { intros j Hj. symmetry. apply HF. unfold cblk in *. nia. }
  apply (rep_frame _ mem); [| by apply Hf]. intros i Hi. apply Hfr.
  destruct (Z.lt_total k k') as [Hlt | [? | Hlt]]; [| done |];
    pose proof (cb_disjoint base L _ _ Hlt); lia.
Qed.

Lemma skeleton_child L mem mem' base n k :
  skeleton L mem base n -> 0 <= k < 16 -> k * rdx L < n ->
  frame mem mem' (cb base L k) (cb base L k + skp L) ->
  shape L mem' (cb base L k) (cn n L k) -> skeleton L mem' base n.
Proof.
  intros Hs Hk Hkn Hfr Hsh k' Hk'. destruct (Hs k' Hk') as [H1 H2]. pose proof (rdx_pos L).
  pose proof (skp_nonneg L). destruct (decide (k' = k)) as [-> | Hne].
  - split; [done |]. lia.
  - assert (forall i, cb base L k' <= i <= cb base L k' + skp L -> aget mem' i = aget mem i) as Heq.
    { intros i Hi. apply Hfr. destruct (Z.lt_total k k') as [Hlt | [? | Hlt]]; [| done |];
        pose proof (cb_disjoint base L _ _ Hlt); lia. }
    split; intros Hn.
    + eapply shape_frame; [done | by apply H1].
    + eapply slot_frame; [apply Heq; lia | by apply H2].
Qed.

Lemma forest_head L mem base blk n F m :
  0 <= base -> forest L mem base blk n F -> forest L (upd mem base m) base blk n F.
Proof.
  intros Hb Hf k Hk Hn. destruct (cb_range base L k Hk).
  apply (rep_frame _ mem); [| by apply Hf]. intros i Hi. apply upd_ne; lia.
Qed.

Lemma skeleton_head L mem base n m :
  0 <= base -> skeleton L mem base n -> skeleton L (upd mem base m) base n.
Proof.
  intros Hb Hs k Hk. destruct (Hs k Hk) as [H1 H2]. destruct (cb_range base L k Hk).
  pose proof (skp_nonneg L). split; intros Hn.
  - eapply shape_frame; [| by apply H1]. intros i Hi. apply upd_ne; lia.
  - eapply slot_frame; [| by apply H2]. apply upd_ne; lia.
Qed.

(** A meta node from its head and its expanded children. *)
Lemma node_intro L mem base blk n F m :
  aget mem base = Done m -> live m -> bmu_avail m = cnt F blk (rdx (S L)) ->
  hint F blk (rdx (S L)) (bm_bighint m) -> skeleton L mem base n ->
  (none_in F blk (rdx (S L)) \/ all_in F blk (rdx (S L)) \/ forest L mem base blk n F) ->
  none_in F (blk + n) (rdx (S L) - n) -> node (S L) mem base blk n F.
Proof.
  intros Hm Hl Ha Hh Hs Hc Ht. split; [| split; [| done]].
  - split; [exists m; by split | done].
  - split; [exists m; split_and!; done | done].
Qed.

Lemma node_inv L mem base blk n F :
  node (S L) mem base blk n F ->
  exists m, aget mem base = Done m /\ live m /\ bmu_avail m = cnt F blk (rdx (S L)) /\
    hint F blk (rdx (S L)) (bm_bighint m) /\ skeleton L mem base n /\
    (none_in F blk (rdx (S L)) \/ all_in F blk (rdx (S L)) \/ forest L mem base blk n F) /\
    none_in F (blk + n) (rdx (S L) - n).
Proof.
  intros ([(m & Hm & Hl) Hs] & [(m' & Hm' & Ha & Hh) Hc] & Ht). rewrite Hm in Hm'. injection Hm' as <-.
  exists m. do 6 (split; [done |]). done.
Qed.

Lemma node_child L mem base blk n F k :
  skeleton L mem base n -> forest L mem base blk n F -> n <= rdx (S L) ->
  none_in F (blk + n) (rdx (S L) - n) -> 0 <= k < 16 -> k * rdx L < n ->
  node L mem (cb base L k) (cblk blk L k) (cn n L k) F.
Proof.
  intros Hs Hf Hn Ht Hk Hkn. split; [| split].
  - by apply Hs.
  - by apply Hf.
  - by apply child_tail.
Qed.
