(* ===== verification/BlistOps.v ===== *)
(** * Operations on the radix tree: expansion and allocation

    Allocation in a tree of any level takes a free run inside one leaf out of
    the set of free blocks, or fails and no such run exists at or after the
    requested block; it touches no slot outside the tree. *)

From stdpp Require Import prelude list strings.
From S2P Require Import Prelude.
From S2P Require Import Ranges.
From S2P Require Import Blist.
From S2P Require Import BlistLeaf.
From S2P Require Import BlistTree.
Open Scope Z_scope.

(** ** Collapsed trees *)

Lemma none_hint F blk R b : none_in F blk R -> 0 <= b -> hint F blk R b.
Proof.
  intros Hn Hb a c Hc Ha Hac _ Hall. specialize (Hall a ltac:(lia)).
  rewrite Hn in Hall by lia. done.
Qed.

Lemma rep_empty L mem base blk n F :
  aget mem base = Done (Blmeta 0 0) -> none_in F blk (rdx L) -> rep L mem base blk n F.
Proof.
  intros Hm Hn. pose proof (rdx_pos L). destruct L as [| L]; cbn [rep].
  - exists (Blmeta 0 0). split; [done |]. split_and!; simpl; try lia.
    + unfold is_u32. lia.
    + intros j Hj. rewrite Hn by (simpl; lia). apply Z.bits_0.
    + by apply none_hint.
  - split; [| by left]. exists (Blmeta 0 0). split_and!; [done | | by apply none_hint].
    symmetry. apply cnt_none; done || lia.
Qed.

Lemma all_free_child_live L : (L <= 6)%nat -> live (all_free_child (skp L + 1) (rdx L)).
Proof.
  intros HL. unfold all_free_child, live. pose proof (rdx_pos L). pose proof (rdx_bound L HL).
  destruct (_ =? 1); simpl; [unfold BLIST_BMAP_RADIX; lia |]. rewrite rdx_s32 by done. lia.
Qed.

Lemma rep_full L mem base blk n F :
  (L <= 6)%nat -> aget mem base = Done (all_free_child (skp L + 1) (rdx L)) ->
  all_in F blk (rdx L) -> rep L mem base blk n F.
Proof.
  intros HL Hm Hn. pose proof (rdx_pos L). pose proof (rdx_bound L HL).
  unfold all_free_child in Hm. rewrite next_skip_leaf in Hm.
  destruct L as [| L]; cbn [rep] in *.
  - eexists. split; [done |]. split; [| split; [| split]]; cbn [bm_u bm_bighint];
      unfold BLIST_BMAP_RADIX in *; try lia.
    + unfold is_u32, u_m1. lia.
    + intros j Hj. rewrite Hn by (simpl; lia). change u_m1 with (Z.ones 32).
      apply Z.ones_spec_low. lia.
    + intros a c ? ? ? ? ?. change (rdx 0) with 32 in *. lia.
  - split; [| by right; left]. eexists. split; [done |]. rewrite rdx_s32 by done.
    rewrite avail_u32 by lia. split; [symmetry; apply cnt_all; done || lia |].
    intros a c ? ? ? ? ?. cbn [bm_bighint]. lia.
Qed.

(** ** Expanding a collapsed node *)

Lemma shape_upd L mem base n m :
  0 <= base -> live m -> shape L mem base n -> shape L (upd mem base m) base n.
Proof.
  intros Hb Hl Hs. destruct (shape_head _ _ _ _ Hs) as (m0 & Hm0 & _).
  assert (slot (upd mem base m) base live) as Hh by (exists m; split; [by eapply upd_eq | done]).
  destruct L as [| L]; [by split |]. split; [done |].
  by apply skeleton_head, shape_skeleton.
Qed.

Section Expand.
Context (L : nat) (base n : Z) (new : blmeta).
Hypothesis Hbase : 0 <= base.
Hypothesis Hnew : live new.

Lemma init_children_loop fuel k mem :
  skeleton L mem base n -> 0 <= k <= 16 -> Z.of_nat fuel = 16 - k -> (k - 1) * rdx L < n ->
  (forall k', 0 <= k' < k -> k' * rdx L < n -> aget mem (cb base L k') = Done new) ->
  exists mem', init_children fuel mem base (skp (S L)) (skp L + 1) (1 + k * (skp L + 1)) new = Done mem' /\
    frame mem mem' (base + 1) (base + skp (S L)) /\ skeleton L mem' base n /\
    (forall k', 0 <= k' < 16 -> k' * rdx L < n -> aget mem' (cb base L k') = Done new).
Proof.
  revert k mem. induction fuel as [| fuel IH]; intros k mem Hs Hk Hf Hkn Hdone; cbn [init_children];
    pose proof (skp_nonneg L); pose proof (rdx_pos L).
  - rewrite (proj2 (Z.leb_gt _ _)) by (rewrite skp_S; nia). cbn [negb]. exists mem.
    split_and!; [done | apply frame_refl | done |]. intros. apply Hdone; lia.
  - rewrite (proj2 (Z.leb_le _ _)) by (rewrite skp_S; nia). cbn [negb].
    replace (base + (1 + k * (skp L + 1))) with (cb base L k) by (unfold cb; lia).
    destruct (Hs k ltac:(lia)) as [H1 H2]. destruct (cb_range base L k ltac:(lia)).
    destruct (Z.lt_ge_cases (k * rdx L) n) as [Hlt | Hge].
    + destruct (shape_head _ _ _ _ (H1 Hlt)) as (m & Hm & Hl). rewrite Hm, bind_Done_l.
      rewrite (proj2 (Z.eqb_neq _ _)) by (destruct Hl; lia).
      rewrite (aput_upd _ _ _ new Hm), bind_Done_l.
      replace (1 + k * (skp L + 1) + (skp L + 1)) with (1 + (k + 1) * (skp L + 1)) by lia.
      assert (frame mem (upd mem (cb base L k) new) (cb base L k) (cb base L k)) as Hfr
        by (apply frame_upd; lia).
      destruct (IH (k + 1) (upd mem (cb base L k) new)) as (mem' & -> & Hfr' & Hs' & Hd'); try lia.
      * apply (skeleton_child _ mem _ _ _ k); try done; try lia.
        -- eapply frame_weaken; [done | lia | lia].
        -- apply shape_upd; [lia | done | by apply H1].
      * intros k' Hk' Hn'. destruct (decide (k' = k)) as [-> |]; [by eapply upd_eq |].
        rewrite upd_ne; [apply Hdone; lia | | lia].
        intros E. assert (k < k' \/ k' < k) as [Hc | Hc] by lia;
          pose proof (cb_disjoint base L _ _ Hc); lia.
      * exists mem'. split_and!; try done. eapply frame_trans; [| done].
        eapply frame_weaken; [done | lia | lia].
    + destruct (H2 ltac:(lia)) as (m & Hm & Ht). rewrite Hm, bind_Done_l, Ht. simpl.
      exists mem. split_and!; [done | apply frame_refl | done |]. intros. apply Hdone; [nia | done].
Qed.

Lemma init_children_spec mem :
  skeleton L mem base n -> 0 < n ->
  exists mem', init_children 16 mem base (skp (S L)) (skp L + 1) 1 new = Done mem' /\
    frame mem mem' (base + 1) (base + skp (S L)) /\ skeleton L mem' base n /\
    (forall k, 0 <= k < 16 -> k * rdx L < n -> aget mem' (cb base L k) = Done new).
Proof.
  intros Hs Hn. pose proof (rdx_pos L). apply (init_children_loop 16 0); try done; try lia.
Qed.

End Expand.

Lemma expand_full L mem base blk n F :
  0 <= base -> (L <= 6)%nat -> 0 < n -> skeleton L mem base n -> all_in F blk (rdx (S L)) ->
  exists mem', init_children 16 mem base (skp (S L)) (skp L + 1) 1
      (all_free_child (skp L + 1) (rdx L)) = Done mem' /\
    frame mem mem' (base + 1) (base + skp (S L)) /\ skeleton L mem' base n /\
    forest L mem' base blk n F.
Proof.
  intros Hb HL Hn Hs Hall.
  destruct (init_children_spec L base n _ Hb (all_free_child_live L HL) mem Hs Hn)
    as (mem' & Hi & Hfr & Hs' & Hc).
  exists mem'. split_and!; try done. intros k Hk Hkn. apply rep_full; [done | by apply Hc |].
  intros j Hj. apply Hall. unfold cblk in Hj. rewrite rdx_S. pose proof (rdx_pos L). nia.
Qed.

Lemma expand_empty L mem base blk n F :
  0 <= base -> 0 < n -> skeleton L mem base n -> none_in F blk (rdx (S L)) ->
  exists mem', init_children 16 mem base (skp (S L)) (skp L + 1) 1 (Blmeta 0 0) = Done mem' /\
    frame mem mem' (base + 1) (base + skp (S L)) /\ skeleton L mem' base n /\
    forest L mem' base blk n F.
Proof.
  intros Hb Hn Hs Hall.
  destruct (init_children_spec L base n (Blmeta 0 0) Hb ltac:(unfold live; simpl; lia) mem Hs Hn)
    as (mem' & Hi & Hfr & Hs' & Hc).
  exists mem'. split_and!; try done. intros k Hk Hkn. apply rep_empty; [by apply Hc |].
  intros j Hj. apply Hall. unfold cblk in Hj. rewrite rdx_S. pose proof (rdx_pos L). nia.
Qed.

(** A node that is neither all free nor all allocated is expanded. *)
Lemma not_collapsed L mem base blk n F :
  cnt F blk (rdx (S L)) <> 0 -> cnt F blk (rdx (S L)) <> rdx (S L) ->
  (none_in F blk (rdx (S L)) \/ all_in F blk (rdx (S L)) \/ forest L mem base blk n F) ->
  forest L mem base blk n F.
Proof.
  pose proof (rdx_pos (S L)). intros H0 H1 [Hn | [Ha | Hf]]; [| | done].
  - destruct H0. apply cnt_none; done || lia.
  - destruct H1. apply cnt_all; done || lia.
Qed.

(** A node that is all free manages all its blocks. *)
Lemma all_free_managed L F blk n :
  n <= rdx L -> all_in F blk (rdx L) -> none_in F (blk + n) (rdx L - n) -> 0 <= n -> n = rdx L.
Proof.
  intros Hn Ha Ht H0. destruct (Z.lt_ge_cases n (rdx L)); [| lia].
  specialize (Ht (blk + n) ltac:(lia)). rewrite Ha in Ht by lia. done.
Qed.

(** ** Allocation *)

(** No free run of [count] blocks inside one leaf starts at or after [blkat]. *)
Definition fails (F : Z -> bool) (blkat blk R count : Z) : Prop :=
  forall a, blk <= a -> blkat <= a -> a + count <= blk + R ->
    a / 32 = (a + count - 1) / 32 -> ~ all_in F a count.

Lemma fails_no_run F blkat blk R count : fails F blkat blk R count -> blkat <= blk -> no_run F blk R count.
Proof. intros H Hle a ? ?. apply H; lia. Qed.

Lemma no_run_fails F blkat blk R count : no_run F blk R count -> fails F blkat blk R count.
Proof. intros H a ? _ ?. by apply H. Qed.

Lemma none_fails F blkat blk R count : 1 <= count -> none_in F blk R -> fails F blkat blk R count.
Proof.
  intros Hc Hn a Ha _ Hac _ Hall. specialize (Hall a ltac:(lia)).
  rewrite Hn in Hall by lia. done.
Qed.

Lemma fails_join F blkat blk L count :
  1 <= count -> blk mod 32 = 0 ->
  (forall k, 0 <= k < 16 -> fails F blkat (cblk blk L k) (rdx L) count) ->
  fails F blkat blk (rdx (S L)) count.
Proof.
  intros Hc Hm Hk a Ha Hat Hac Hq. destruct (child_of blk L a count) as (k & Hk16 & H1 & H2); try done.
  by apply (Hk k).
Qed.

(** What allocating [count] blocks in a tree of level [L] does. *)
Definition alloc_post (L : nat) (mem : list blmeta) (base blk n : Z) (F : Z -> bool)
    (blkat count : Z) (mem' : list blmeta) (r : Z) : Prop :=
  frame mem mem' base (base + skp L) /\
  ((r = SWAPBLK_NONE /\ node L mem' base blk n F /\ fails F blkat blk (rdx L) count) \/
   (blk <= r /\ r + count <= blk + rdx L /\ r / 32 = (r + count - 1) / 32 /\ all_in F r count /\
    (blkat < blk + rdx L -> blkat < r / 32 * 32 + 32) /\
    node L mem' base blk n (clear_range F r count))).

Lemma same_leaf blk r c :
  blk mod 32 = 0 -> 1 <= c -> blk <= r -> r + c <= blk + 32 ->
  r / 32 = blk / 32 /\ (r + c - 1) / 32 = blk / 32.
Proof.
  intros Hm ? ? ?. pose proof (Z.div_mod blk 32 ltac:(lia)).
  split; symmetry; [apply (Z.div_unique _ _ _ (r - blk)) | apply (Z.div_unique _ _ _ (r + c - 1 - blk))]; lia.
Qed.

Lemma leaf_node mem base blk n F m F' :
  0 <= base -> node 0 mem base blk n F -> leaf_rep m F' blk ->
  none_in F' (blk + n) (rdx 0 - n) -> node 0 (upd mem base m) base blk n F'.
Proof.
  intros Hb ([(m0 & Hm0 & _) _] & _ & _) Hr Ht. destruct (Hr) as (_ & Hbb & _).
  assert (aget (upd mem base m) base = Done m) as E by (by eapply upd_eq).
  split; [split; [by exists m | done] | split; [by exists m | done]].
Qed.

Lemma leaf_alloc_post mem base blk n F blkat count :
  0 <= base -> 0 <= blk -> blk mod 32 = 0 -> 1 <= count <= 32 -> node 0 mem base blk n F ->
  exists mem' r, blst_leaf_alloc mem base blk count = Done (mem', r) /\
    alloc_post 0 mem base blk n F blkat count mem' r.
Proof.
  intros Hb Hblk Hm Hc Hn. pose proof Hn as (_ & (m & Hget & Hrep) & Ht).
  destruct (blst_leaf_alloc_spec mem base m F blk Hget Hrep count Hc) as (m' & r & -> & Hr).
  do 2 eexists. split; [reflexivity |]. split.
  - change (skp 0) with 0. rewrite Z.add_0_r. by apply frame_upd.
  - destruct Hr as [(-> & Hl & Hno) | (H1 & H2 & Hall & Hl)]; [left | right].
    + split; [done |]. split; [by eapply leaf_node | by apply no_run_fails].
    + destruct (same_leaf blk r count Hm ltac:(lia) H1 H2) as [E1 E2].
      pose proof (Z.div_mod blk 32 ltac:(lia)). rewrite E1, E2. change (rdx 0) with 32.
      split_and!; try done; [lia |].
      eapply leaf_node; [done | done | done |]. intros j Hj.
      destruct (clear_range F r count j) eqn:E; [| done].
      apply clear_range_le in E. rewrite Ht in E by done. done.
Qed.

Section AllocLoop.
Context (L : nat) (base blk n : Z) (F : Z -> bool) (blkat count : Z).
Context (sub : list blmeta -> Z -> Z -> outcome (list blmeta * Z)).
Hypothesis HL : (S L <= 6)%nat.
Hypothesis Hbase : 0 <= base.
Hypothesis Hblk : 0 <= blk.
Hypothesis Hmod : blk mod 32 = 0.
Hypothesis Hn : 0 < n <= rdx (S L).
Hypothesis Hcount : 1 <= count <= 32.
Hypothesis Htail : none_in F (blk + n) (rdx (S L) - n).
Hypothesis Hsub : forall mem k, 0 <= k < 16 -> k * rdx L < n ->
  node L mem (cb base L k) (cblk blk L k) (cn n L k) F ->
  exists mem' r, sub mem (cb base L k) (cblk blk L k) = Done (mem', r) /\
    alloc_post L mem (cb base L k) (cblk blk L k) (cn n L k) F blkat count mem' r.

(** The head of the node while its children are searched. *)
Definition head_ok (mem : list blmeta) (m : blmeta) : Prop :=
  aget mem base = Done m /\ live m /\ bmu_avail m = cnt F blk (rdx (S L)) /\
  hint F blk (rdx (S L)) (bm_bighint m).

Lemma cnt_s32 (G : Z -> bool) : 0 <= cnt G blk (rdx (S L)) < 2 ^ 31.
Proof.
  pose proof (cnt_bounds G blk (rdx (S L))). pose proof (rdx_pos (S L)).
  pose proof (rdx_bound (S L) HL). lia.
Qed.

(** The failure exit: the hint is lowered when the whole node was searched. *)
Lemma alloc_fail_post mem m :
  head_ok mem m -> skeleton L mem base n -> forest L mem base blk n F ->
  fails F blkat blk (rdx (S L)) count ->
  exists mem', (m ← aget mem base;
    mem ← (if (blkat <=? blk) && (count <=? bm_bighint m)
           then set_bighint mem base (count - 1) else mret mem);
    mret (mem, SWAPBLK_NONE)) = Done (mem', SWAPBLK_NONE) /\
    alloc_post (S L) mem base blk n F blkat count mem' SWAPBLK_NONE.
Proof.
  intros (Hm & Hl & Ha & Hh) Hs Hf Hfail. rewrite Hm, bind_Done_l.
  pose proof (skp_nonneg (S L)). destruct (Z.leb_spec blkat blk) as [Hle | Hgt]; simpl andb.
  1: destruct (Z.leb_spec count (bm_bighint m)).
  - erewrite set_bighint_upd by done. rewrite s32_id by (unfold_int; lia). simpl. eexists.
    split; [reflexivity |]. split; [eapply frame_weaken; [by apply frame_upd | lia | lia] |].
    left. split; [done |]. split; [| done].
    eapply (node_intro _ _ _ _ _ _ (Blmeta (bm_u m) (count - 1))); try done.
    + by eapply upd_eq.
    + unfold live. simpl. lia.
    + apply no_run_hint; [lia |]. by eapply fails_no_run.
    + by apply skeleton_head.
    + right; right. by apply forest_head.
  - eexists. split; [reflexivity |]. split; [apply frame_refl |]. left.
    split; [done |]. split; [| done]. eapply node_intro; eauto.
  - eexists. split; [reflexivity |]. split; [apply frame_refl |]. left.
    split; [done |]. split; [| done]. eapply node_intro; eauto.
Qed.

(** The success exit: the child's blocks leave the counts of the node. *)
Lemma alloc_hit_post mem mem1 m k r :
  head_ok mem m -> skeleton L mem base n -> forest L mem base blk n F ->
  0 <= k < 16 -> k * rdx L < n -> blkat < cblk blk L k + rdx L ->
  frame mem mem1 (cb base L k) (cb base L k + skp L) ->
  cblk blk L k <= r -> r + count <= cblk blk L k + rdx L -> r / 32 = (r + count - 1) / 32 ->
  all_in F r count -> (blkat < cblk blk L k + rdx L -> blkat < r / 32 * 32 + 32) ->
  node L mem1 (cb base L k) (cblk blk L k) (cn n L k) (clear_range F r count) ->
  exists mem', (m ← aget mem1 base;
    mem ← set_avail mem1 base (bmu_avail m - count);
    m ← aget mem base;
    mem ← (if bmu_avail m <? bm_bighint m then set_bighint mem base (bmu_avail m) else mret mem);
    mret (mem, r)) = Done (mem', r) /\
    alloc_post (S L) mem base blk n F blkat count mem' r.
Proof.
  intros (Hm & Hl & Ha & Hh) Hs Hf Hk Hkn Hat Hfr Hr1 Hr2 Hq Hall Hat' (Hsh & Hrp & _).
  destruct (cb_range base L k Hk). pose proof (rdx_pos L). pose proof (skp_nonneg (S L)).
  set (F' := clear_range F r count) in *.
  assert (blk <= r /\ r + count <= blk + rdx (S L)) as [Hra Hrb]
    by (unfold cblk in *; rewrite rdx_S; nia).
  assert (cnt F' blk (rdx (S L)) = cnt F blk (rdx (S L)) - count) as Hcnt.
  { unfold F'. rewrite cnt_clear by lia. f_equal. apply cnt_all; [lia | done]. }
  assert (skeleton L mem1 base n) as Hs1 by (by apply (skeleton_child _ mem _ _ _ k)).
  assert (forest L mem1 base blk n F') as Hf1.
  { apply (forest_child _ mem _ _ _ _ F _ k); try done. intros j Hj.
    apply clear_range_out. lia. }
  assert (hint F' blk (rdx (S L)) (bm_bighint m)) as Hh1
    by (eapply hint_mono; [done |]; intros j _; apply clear_range_le).
  assert (hint F' blk (rdx (S L)) (cnt F' blk (rdx (S L)))) as Hh2
    by (apply hint_cnt; pose proof (rdx_pos (S L)); lia).
  pose proof (cnt_s32 F'). assert (aget mem1 base = Done m) as Hm1 by (rewrite Hfr; [done | lia]).
  rewrite Hm1, bind_Done_l. erewrite set_avail_upd by done. rewrite bind_Done_l.
  rewrite (upd_eq _ _ _ _ Hm1), bind_Done_l. rewrite Ha, <- Hcnt, avail_u32 by lia. cbn [bm_bighint].
  assert (forall b, live (Blmeta (u32 (cnt F' blk (rdx (S L)))) b) ->
    hint F' blk (rdx (S L)) b ->
    alloc_post (S L) mem base blk n F blkat count
      (upd mem1 base (Blmeta (u32 (cnt F' blk (rdx (S L)))) b)) r) as Hpost.
  { intros b Hlb Hhb. split.
    - eapply frame_trans; [eapply frame_weaken; [done | lia | lia] |].
      eapply frame_weaken; [by apply frame_upd | lia | lia].
    - right. do 4 (split; [done |]). split; [intros _; by apply Hat' |].
      eapply node_intro; [by eapply upd_eq | done | by apply avail_u32 | done | by apply skeleton_head | |].
      + right; right. by apply forest_head.
      + intros j Hj. destruct (F' j) eqn:E; [| done]. apply clear_range_le in E.
        rewrite Htail in E by done. done. }
  destruct (Z.ltb_spec (cnt F' blk (rdx (S L))) (bm_bighint m)).
  - erewrite set_bighint_upd by (by eapply upd_eq). rewrite upd_upd. cbn [bm_u].
    rewrite s32_id by (unfold_int; lia). rewrite bind_Done_l. eexists. split; [reflexivity |].
    apply Hpost; [unfold live; cbn [bm_bighint]; lia | done].
  - eexists. split; [reflexivity |]. apply Hpost; [unfold live in *; cbn [bm_bighint]; lia | done].
Qed.

Lemma alloc_loop_spec fuel k mem m :
  head_ok mem m -> skeleton L mem base n -> forest L mem base blk n F ->
  0 <= k <= 16 -> Z.of_nat fuel = 16 - k -> (k - 1) * rdx L < n ->
  (forall k', 0 <= k' < k -> fails F blkat (cblk blk L k') (rdx L) count) ->
  exists mem' r, alloc_loop sub fuel mem base blkat count (rdx L) (skp (S L)) (skp L + 1)
      (blkat <=? blk) (1 + k * (skp L + 1)) (cblk blk L k) = Done (mem', r) /\
    alloc_post (S L) mem base blk n F blkat count mem' r.
Proof.
  revert k mem. induction fuel as [| fuel IH]; intros k mem Hhd Hs Hf Hk Hfu Hkn Hdone;
    pose proof (skp_nonneg L); pose proof (rdx_pos L); cbn [alloc_loop]; cbv zeta.
  - rewrite (proj2 (Z.leb_gt _ _)) by (rewrite skp_S; nia). cbn [negb].
    destruct (alloc_fail_post mem m) as (mem' & -> & Hp); try done.
    { apply fails_join; [lia | done |]. intros k' Hk'. apply Hdone. lia. }
    by exists mem', SWAPBLK_NONE.
  - rewrite (proj2 (Z.leb_le _ _)) by (rewrite skp_S; nia). cbn [negb].
    rewrite !rdx_s32 by lia.
    replace (base + (1 + k * (skp L + 1))) with (cb base L k) by (unfold cb; lia).
    replace (1 + k * (skp L + 1) + (skp L + 1)) with (1 + (k + 1) * (skp L + 1)) by lia.
    replace (cblk blk L k + rdx L) with (cblk blk L (k + 1)) by (unfold cblk; lia).
    assert (forall mem1, frame mem mem1 (cb base L k) (cb base L k + skp L) ->
      skeleton L mem1 base n -> forest L mem1 base blk n F -> k * rdx L < n ->
      fails F blkat (cblk blk L k) (rdx L) count ->
      exists mem' r, alloc_loop sub fuel mem1 base blkat count (rdx L) (skp (S L)) (skp L + 1)
          (blkat <=? blk) (1 + (k + 1) * (skp L + 1)) (cblk blk L (k + 1)) = Done (mem', r) /\
        alloc_post (S L) mem base blk n F blkat count mem' r) as Hnext.
    { intros mem1 Hfr Hs1 Hf1 Hlt Hfail. destruct (cb_range base L k ltac:(lia)).
      destruct (IH (k + 1) mem1) as (mem' & r & -> & Hfr' & Hp); try done; try lia.
      - destruct Hhd as (Hm & Hrest). split; [rewrite Hfr; [done | lia] | done].
      - intros k' Hk'. destruct (decide (k' = k)) as [-> |]; [done |]. apply Hdone. lia.
      - exists mem', r. split; [done |]. split; [| done]. eapply frame_trans; [| done].
        eapply frame_weaken; [done | lia | lia]. }
    destruct (Hs k ltac:(lia)) as [H1 H2].
    destruct (Z.lt_ge_cases (k * rdx L) n) as [Hlt | Hge].
    + destruct (shape_head _ _ _ _ (H1 Hlt)) as (c & Hc & Hcl). rewrite Hc, bind_Done_l.
      destruct (Z.leb_spec count (bm_bighint c)) as [Hge | Hlt']; [destruct (Z.ltb_spec blkat (cblk blk L (k + 1))) as [Hat | Hat] |]; simpl andb; cbv iota.
      * destruct (Hsub mem k ltac:(lia) Hlt) as (mem1 & r & -> & Hfr & Hp).
        { apply node_child; try done; lia. }
        rewrite bind_Done_l. cbv beta iota. destruct Hp as [(-> & Hnd & Hfail) | (Hr1 & Hr2 & Hq & Hall & Hat' & Hnd)].
        -- rewrite Z.eqb_refl. cbn [negb]. destruct Hnd as (Hsh & Hrp & _). apply Hnext; try done.
           ++ apply (skeleton_child _ mem _ _ _ k); done || lia.
           ++ apply (forest_child _ mem _ _ _ _ F _ k); done || lia.
        -- rewrite (proj2 (Z.eqb_neq _ _)) by (unfold SWAPBLK_NONE, cblk in *; nia). cbn [negb].
           edestruct (alloc_hit_post mem mem1 m k r) as (mem' & -> & Hp); try done; try lia.
           { unfold cblk in *. lia. }
           by exists mem', r.
      * rewrite (proj2 (Z.eqb_neq _ _)) by (destruct Hcl; lia).
        rewrite (proj2 (Z.ltb_ge _ _)) by lia. apply Hnext; try done.
        intros a Ha1 Ha2 Ha3. unfold cblk in *. lia.
      * rewrite (proj2 (Z.eqb_neq _ _)) by (destruct Hcl; lia).
        rewrite (proj2 (Z.ltb_ge _ _)) by lia. apply Hnext; try done.
        destruct (rep_hint _ _ _ _ _ _ (Hf k ltac:(lia) Hlt)) as (c' & Hc' & Hhc).
        rewrite Hc in Hc'. injection Hc' as <-. apply no_run_fails.
        eapply hint_no_run; [lia | done | lia].
    + destruct (H2 ltac:(lia)) as (c & Hc & Hct). rewrite Hc, bind_Done_l, Hct.
      rewrite (proj2 (Z.leb_gt count (-1))) by lia. cbn [andb]. change (-1 =? -1) with true. cbv iota.
      destruct (alloc_fail_post mem m) as (mem' & -> & Hp); try done.
      { apply fails_join; [lia | done |]. intros k' Hk'.
        destruct (Z.lt_ge_cases k' k); [apply Hdone; lia |].
        apply none_fails; [lia |]. intros j Hj. apply Htail. unfold cblk in Hj. rewrite rdx_S. nia. }
      by exists mem', SWAPBLK_NONE.
Qed.

End AllocLoop.

(** The allocator of a tree of level [L], as blist_alloc and the loop of
    blst_meta_alloc pick it. *)
Definition tree_alloc (depth L : nat) (mem : list blmeta) (scan blkat blk count : Z) :=
  match L with
  | O => blst_leaf_alloc mem scan blk count
  | S _ => blst_meta_alloc depth mem scan blkat blk count (rdx L) (skp L)
  end.

(** An all-allocated node fails at once. *)
Lemma alloc_empty_post L mem base blk n F blkat count m :
  0 <= base -> 1 <= count -> node (S L) mem base blk n F -> aget mem base = Done m ->
  none_in F blk (rdx (S L)) ->
  alloc_post (S L) mem base blk n F blkat count (upd mem base (Blmeta (bm_u m) (s32 0))) SWAPBLK_NONE.
Proof.
  intros Hb Hc Hnd Hm Hnone. pose proof (skp_nonneg (S L)).
  destruct (node_inv _ _ _ _ _ _ Hnd) as (m' & Hm' & Hl & Ha & Hh & Hs & _ & Ht).
  rewrite Hm in Hm'. injection Hm' as <-. change (s32 0) with 0.
  split; [eapply frame_weaken; [by apply frame_upd | lia | lia] |]. left.
  split; [done |]. split; [| by apply none_fails].
  eapply (node_intro _ _ _ _ _ _ (Blmeta (bm_u m) 0)); try done.
  - by eapply upd_eq.
  - by apply none_hint.
  - by apply skeleton_head.
  - by left.
Qed.

(** Entering a node that is not all allocated: its children are expanded. *)
Lemma alloc_enter L mem base blk n F m :
  (S L <= 6)%nat -> 0 <= base -> 0 < n <= rdx (S L) -> node (S L) mem base blk n F ->
  aget mem base = Done m -> bmu_avail m <> 0 ->
  exists mem' m', (if bmu_avail m =? rdx (S L) then
      mem ← set_bighint mem base (rdx (S L));
      init_children 16 mem base (skp (S L)) (skp L + 1) 1 (all_free_child (skp L + 1) (rdx L))
    else mret mem) = Done mem' /\
    head_ok L base blk F mem' m' /\ skeleton L mem' base n /\ forest L mem' base blk n F /\
    frame mem mem' base (base + skp (S L)).
Proof.
  intros HL Hb Hn Hnd Hm Hne. pose proof (skp_nonneg (S L)). pose proof (rdx_pos (S L)).
  pose proof (rdx_bound (S L) HL).
  destruct (node_inv _ _ _ _ _ _ Hnd) as (m' & Hm' & Hl & Ha & Hh & Hs & Hc & Ht).
  rewrite Hm in Hm'. injection Hm' as <-. destruct (Z.eqb_spec (bmu_avail m) (rdx (S L))) as [E | E].
  - assert (all_in F blk (rdx (S L))) as Hall by (apply cnt_all; [lia | by rewrite <- Ha]).
    erewrite set_bighint_upd by done. rewrite bind_Done_l, rdx_s32 by done.
    set (m' := Blmeta (bm_u m) (rdx (S L))).
    destruct (expand_full L (upd mem base m') base blk n F) as (mem' & -> & Hfr & Hs' & Hf');
      [done | lia | lia | by apply skeleton_head | done |].
    exists mem', m'. split; [done |]. split_and!; try done.
    + split; [rewrite Hfr by lia; by eapply upd_eq |]. split; [unfold live, m'; cbn [bm_bighint]; lia |].
      split; [done |]. intros a c ? ? ? ? ?. unfold m'. cbn [bm_bighint]. lia.
    + apply (frame_trans _ (upd mem base m')); [eapply frame_weaken; [by apply frame_upd | lia | lia] |].
      eapply frame_weaken; [done | lia | lia].
  - exists mem, m. split; [done |]. split_and!; try done.
    eapply not_collapsed; [rewrite <- Ha; done | rewrite <- Ha; done | done].
Qed.

Lemma tree_alloc_spec L depth mem base blk n F blkat count :
  (L <= 6)%nat -> (L <= depth)%nat -> 0 <= base -> 0 <= blk -> blk mod 32 = 0 ->
  0 < n <= rdx L -> 1 <= count <= 32 -> node L mem base blk n F ->
  exists mem' r, tree_alloc depth L mem base blkat blk count = Done (mem', r) /\
    alloc_post L mem base blk n F blkat count mem' r.
Proof.
  revert depth mem base blk n. induction L as [| L IH]; intros depth mem base blk n HL Hd Hb Hblk Hmod Hn Hc Hnd.
  { by apply leaf_alloc_post. }
  destruct depth as [| depth]; [lia |].
  destruct (node_inv _ _ _ _ _ _ Hnd) as (m & Hm & Hl & Ha & Hh & Hs & Hcol & Ht).
  unfold tree_alloc. cbn [blst_meta_alloc]. cbv zeta. rewrite Hm, bind_Done_l.
  rewrite skp_div, rdx_div. destruct (Z.eqb_spec (bmu_avail m) 0) as [E | E].
  - erewrite set_bighint_upd by done. rewrite bind_Done_l. do 2 eexists. split; [reflexivity |].
    eapply alloc_empty_post; try done; [lia |]. pose proof (rdx_pos (S L)).
    apply cnt_none; [lia | by rewrite <- Ha].
  - destruct (alloc_enter L mem base blk n F m) as (mem1 & m1 & -> & Hhd & Hs1 & Hf1 & Hfr1); try done.
    rewrite bind_Done_l. rewrite next_skip_leaf. replace (skp L + 1 - 1) with (skp L) by lia.
    match goal with |- context [alloc_loop ?f] => set (sub := f) end.
    assert (forall mem0 k, 0 <= k < 16 -> k * rdx L < n ->
      node L mem0 (cb base L k) (cblk blk L k) (cn n L k) F ->
      exists mem' r, sub mem0 (cb base L k) (cblk blk L k) = Done (mem', r) /\
        alloc_post L mem0 (cb base L k) (cblk blk L k) (cn n L k) F blkat count mem' r) as Hsub.
    { intros mem0 k Hk Hkn Hnd'. pose proof (rdx_pos L). destruct (cb_range base L k Hk).
      destruct (IH depth mem0 (cb base L k) (cblk blk L k) (cn n L k)) as (mem' & r & Hr & Hp);
        try done; try lia.
      - unfold cblk. nia.
      - by apply cblk_mod32.
      - unfold cn. lia.
      - exists mem', r. split; [| done]. by destruct L. }
    destruct (alloc_loop_spec L base blk n F blkat count sub HL Hb Hblk Hmod Hn Hc Ht Hsub 16 0 mem1 m1)
      as (mem' & r & Hrun & Hfr2 & Hp); try done; [pose proof (rdx_pos L); lia | intros; lia |].
    rewrite Z.mul_0_l, Z.add_0_r in Hrun. unfold cblk in Hrun at 1.
    rewrite Z.mul_0_l, Z.add_0_r in Hrun. exists mem', r. split; [exact Hrun |].
    split; [by eapply frame_trans | done].
Qed.
