(* ===== verification/BlistFree.v ===== *)
(** * Operations on the radix tree: freeing and filling

    Freeing adds an allocated range to the set of free blocks, whatever the
    leaves and subtrees it spans; filling takes a range out of it and returns
    how many of its blocks were free. *)

From stdpp Require Import prelude list strings.
From S2P Require Import Prelude.
From S2P Require Import Ranges.
From S2P Require Import Blist.
From S2P Require Import BlistLeaf.
From S2P Require Import BlistTree.
From S2P Require Import BlistOps.
Open Scope Z_scope.

(** ** Ranges in pieces *)

Lemma set_range_empty F a j : set_range F a 0 j = F j.
Proof. apply set_range_out. lia. Qed.

Lemma set_range_split F a c d j :
  0 <= c -> 0 <= d -> set_range (set_range F a c) (a + c) d j = set_range F a (c + d) j.
Proof.
  intros. destruct (inr a (c + d) j) eqn:E.
  - apply inr_spec in E. rewrite (set_range_in F) by lia.
    destruct (Z.lt_ge_cases j (a + c)).
    + rewrite set_range_out, set_range_in by lia. done.
    + by rewrite set_range_in by lia.
  - apply inr_false in E. by rewrite !set_range_out by lia.
Qed.

Lemma forest_ext L mem base blk n F G :
  (forall j, F j = G j) -> forest L mem base blk n F -> forest L mem base blk n G.
Proof. intros H Hf k Hk Hkn. apply (rep_ext _ _ _ _ _ F); [auto | by apply Hf]. Qed.

(** A child's hint and the hint before the child changed bound the node. *)
Lemma hint_merge G G' blk L k b b' :
  blk mod 32 = 0 -> hint G blk (rdx (S L)) b ->
  (forall j, ~ cblk blk L k <= j < cblk blk L k + rdx L -> G' j = G j) ->
  hint G' (cblk blk L k) (rdx L) b' -> hint G' blk (rdx (S L)) (Z.max b b').
Proof.
  intros Hm Hb Hout Hb' a c Hc Ha Hac Hq Hall. pose proof (rdx_pos L).
  destruct (child_of blk L a c) as (k' & Hk' & H1 & H2); try done.
  destruct (decide (k' = k)) as [-> | Hne].
  - specialize (Hb' a c Hc H1 H2 Hq Hall). lia.
  - specialize (Hb a c Hc Ha Hac Hq). assert (c <= b); [apply Hb | lia].
    intros j Hj. rewrite <- Hout; [by apply Hall |]. unfold cblk in *. nia.
Qed.

(** The child in which block [f] lies, as the code computes it. *)
Lemma child_index L blk f :
  (L <= 6)%nat -> blk <= f -> f < blk + rdx (S L) ->
  let k := (f - blk) `quot` rdx L in
  0 <= k < 16 /\ cblk blk L k <= f < cblk blk L (k + 1).
Proof.
  intros HL Hf1 Hf2 k. pose proof (rdx_pos L). rewrite rdx_S in Hf2.
  unfold k. rewrite Z.quot_div_nonneg by lia. unfold cblk.
  pose proof (Z.div_mod (f - blk) (rdx L) ltac:(lia)).
  pose proof (Z.mod_pos_bound (f - blk) (rdx L) ltac:(lia)).
  assert (0 <= (f - blk) / rdx L) by (apply Z.div_pos; lia). nia.
Qed.

(** ** Freeing *)

Section FreeLoop.
Context (L : nat) (base blk n : Z).
Context (sub : list blmeta -> Z -> Z -> Z -> Z -> outcome (list blmeta)).
Hypothesis HL : (S L <= 6)%nat.
Hypothesis Hbase : 0 <= base.
Hypothesis Hmod : blk mod 32 = 0.
Hypothesis Hn : 0 < n <= rdx (S L).
Hypothesis Hsub : forall mem k G fb v, 0 <= k < 16 -> k * rdx L < n ->
  node L mem (cb base L k) (cblk blk L k) (cn n L k) G ->
  1 <= v -> cblk blk L k <= fb -> fb + v <= cblk blk L k + cn n L k -> none_in G fb v ->
  exists mem', sub mem (cb base L k) fb v (cblk blk L k) = Done mem' /\
    frame mem mem' (cb base L k) (cb base L k + skp L) /\
    node L mem' (cb base L k) (cblk blk L k) (cn n L k) (set_range G fb v).

(** The head after the loop has raised its hint past a child's. *)
Lemma raise_hint mem m c k G G' :
  aget mem base = Done m -> live m -> aget mem (cb base L k) = Done c -> live c ->
  hint G blk (rdx (S L)) (bm_bighint m) ->
  (forall j, ~ cblk blk L k <= j < cblk blk L k + rdx L -> G' j = G j) ->
  hint G' (cblk blk L k) (rdx L) (bm_bighint c) ->
  exists m', (if bm_bighint m <? bm_bighint c then set_bighint mem base (bm_bighint c) else mret mem)
      = Done (upd mem base m') /\
    live m' /\ bm_u m' = bm_u m /\ hint G' blk (rdx (S L)) (bm_bighint m').
Proof.
  intros Hm Hl Hc Hlc Hh Hout Hhc. pose proof (hint_merge _ _ _ _ _ _ _ Hmod Hh Hout Hhc) as Hmax.
  destruct (Z.ltb_spec (bm_bighint m) (bm_bighint c)).
  - erewrite set_bighint_upd by done. rewrite s32_id by (unfold live in *; unfold_int; lia).
    eexists. split; [reflexivity |]. split; [done |]. split; [done |]. cbn [bm_bighint].
    by rewrite Z.max_r in Hmax by lia.
  - exists m. split.
    + f_equal. unfold upd. symmetry. apply list_insert_id. by apply aget_Done in Hm as [_ ?].
    + rewrite Z.max_l in Hmax by lia. done.
Qed.

Lemma free_loop_spec fuel k mem m G fb c :
  aget mem base = Done m -> live m -> hint G blk (rdx (S L)) (bm_bighint m) ->
  skeleton L mem base n -> forest L mem base blk n G -> none_in G (blk + n) (rdx (S L) - n) ->
  0 <= k <= 16 -> 16 - k <= Z.of_nat fuel -> 0 <= c -> fb + c <= blk + n -> none_in G fb c ->
  (0 < c -> cblk blk L k <= fb < cblk blk L (k + 1)) -> (c = 0 -> fb <= cblk blk L k) ->
  exists mem' m', free_loop sub fuel mem base (rdx L) (skp (S L)) (skp L + 1)
      (k * (skp L + 1) + 1) (cblk blk L k) fb c = Done mem' /\
    frame mem mem' base (base + skp (S L)) /\ aget mem' base = Done m' /\ live m' /\
    bm_u m' = bm_u m /\ hint (set_range G fb c) blk (rdx (S L)) (bm_bighint m') /\
    skeleton L mem' base n /\ forest L mem' base blk n (set_range G fb c).
Proof.
  revert k mem m G fb c. induction fuel as [| fuel IH];
    intros k mem m G fb c Hm Hl Hh Hs Hf Ht Hk Hfu Hc He Hno Hpos Hzero; cbn [free_loop]; cbv zeta;
    pose proof (skp_nonneg L); pose proof (rdx_pos L); pose proof (rdx_S L) as ER;
    (destruct (decide (c = 0)) as [-> | Hc0];
     [rewrite (proj2 (Z.ltb_ge _ _)), andb_false_r by lia; cbn [negb];
      exists mem, m; split; [done |]; split; [apply frame_refl |]; do 3 (split; [done |]);
      split; [eapply hint_ext; [| done]; intros; symmetry; apply set_range_empty |];
      split; [done |]; eapply forest_ext; [| done]; intros; symmetry; apply set_range_empty |]).
  { destruct (Hpos ltac:(lia)). unfold cblk in *. nia. }
  destruct (Hpos ltac:(lia)) as [Hp1 Hp2].
  assert (0 <= k < 16 /\ k * rdx L < n) as [Hk16 Hkn] by (unfold cblk in *; nia).
  rewrite (proj2 (Z.leb_le _ _)), (proj2 (Z.ltb_lt _ _)) by (rewrite ?skp_S; nia). cbn [andb negb].
  rewrite Hm, bind_Done_l, (proj2 (Z.eqb_neq _ _)) by (destruct Hl; lia). rewrite bind_Done_l.
  rewrite !rdx_s32 by lia.
  replace (base + (k * (skp L + 1) + 1)) with (cb base L k) by (unfold cb; lia).
  replace (k * (skp L + 1) + 1 + (skp L + 1)) with ((k + 1) * (skp L + 1) + 1) by lia.
  replace (cblk blk L k + rdx L) with (cblk blk L (k + 1)) by (unfold cblk; lia).
  set (v := Z.min (cblk blk L (k + 1) - fb) c). assert (1 <= v <= c) as Hv by lia.
  destruct (Hsub mem k G fb v) as (mem1 & Hrun & Hfr & Hsh & Hrp & _); try done; try lia.
  { by apply node_child; [done | done | lia | done | lia |]. }
  { unfold cn, cblk in *. lia. }
  { intros j Hj. apply Hno. lia. }
  rewrite Hrun, bind_Done_l. destruct (cb_range base L k ltac:(lia)).
  rewrite (Hfr base) by lia. rewrite Hm, bind_Done_l.
  destruct (rep_hint _ _ _ _ _ _ Hrp) as (ch & Hch & Hhc). rewrite Hch, bind_Done_l.
  destruct (shape_head _ _ _ _ Hsh) as (ch' & Hch' & Hlc). rewrite Hch in Hch'. injection Hch' as <-.
  assert (forall j, ~ cblk blk L k <= j < cblk blk L k + rdx L -> set_range G fb v j = G j) as Hout.
  { intros j Hj. apply set_range_out. unfold cblk in *. lia. }
  destruct (raise_hint mem1 m ch k G (set_range G fb v)) as (m1 & -> & Hl1 & Hu1 & Hh1); try done.
  { rewrite Hfr by lia. done. }
  rewrite bind_Done_l.
  destruct (IH (k + 1) (upd mem1 base m1) m1 (set_range G fb v) (fb + v) (c - v))
    as (mem' & m' & -> & Hfr' & Hm' & Hl' & Hu' & Hh' & Hs' & Hf'); try done; try lia.
  - eapply upd_eq. rewrite Hfr by lia. done.
  - apply skeleton_head; [done |]. by apply (skeleton_child _ mem _ _ _ k).
  - apply forest_head; [done |]. by apply (forest_child _ mem _ _ _ _ G _ k).
  - intros j Hj. rewrite set_range_out by lia. by apply Ht.
  - intros j Hj. rewrite set_range_out by lia. apply Hno. lia.
  - unfold cblk in *. lia.
  - exists mem', m'. split; [done |]. split.
    { eapply frame_trans; [| done]. apply (frame_trans _ mem1).
      - eapply frame_weaken; [done | lia | lia].
      - eapply frame_weaken; [by apply frame_upd | lia |]. pose proof (skp_nonneg (S L)). lia. }
    do 2 (split; [done |]). split; [by rewrite Hu' |].
    assert (forall j, set_range (set_range G fb v) (fb + v) (c - v) j = set_range G fb c j) as Hext.
    { intros j. rewrite set_range_split by lia. f_equal. lia. }
    split; [eapply hint_ext; [| done]; auto |]. split; [done |]. by eapply forest_ext.
Qed.

End FreeLoop.

Definition tree_free (depth L : nat) (mem : list blmeta) (scan freeBlk count blk : Z) :=
  match L with
  | O => blst_leaf_free mem scan freeBlk count
  | S _ => blst_meta_free depth mem scan freeBlk count (rdx L) (skp L) blk
  end.

Definition free_post (L : nat) (mem : list blmeta) (base blk n : Z) (F : Z -> bool)
    (f count : Z) (mem' : list blmeta) : Prop :=
  frame mem mem' base (base + skp L) /\ node L mem' base blk n (set_range F f count).

Lemma set_range_tail F f count a c :
  f + count <= a -> none_in F a c -> none_in (set_range F f count) a c.
Proof. intros H Hn j Hj. rewrite set_range_out by lia. by apply Hn. Qed.

Lemma leaf_free_post mem base blk n F f count :
  0 <= base -> 0 <= blk -> blk mod 32 = 0 -> 0 < n <= 32 -> node 0 mem base blk n F ->
  1 <= count -> blk <= f -> f + count <= blk + n -> none_in F f count ->
  exists mem', blst_leaf_free mem base f count = Done mem' /\
    free_post 0 mem base blk n F f count mem'.
Proof.
  intros Hb Hblk Hmod Hn Hnd Hc Hf He Hno. pose proof Hnd as (_ & (m & Hget & Hrep) & Ht).
  destruct (blst_leaf_free_spec mem base m F blk Hget Hrep (conj Hblk Hmod) f count)
    as (m' & -> & Hr); try done; try lia.
  eexists. split; [done |]. split.
  - change (skp 0) with 0. rewrite Z.add_0_r. by apply frame_upd.
  - eapply leaf_node; try done. by apply set_range_tail.
Qed.

(** The head's count is updated, and a collapsed node expanded, before the
    children are visited. *)
Lemma free_enter L mem base blk n F f count m :
  (S L <= 6)%nat -> 0 <= base -> 0 < n <= rdx (S L) -> node (S L) mem base blk n F ->
  aget mem base = Done m -> 1 <= count -> blk <= f -> f + count <= blk + n -> none_in F f count ->
  exists mem' m', (if bmu_avail m =? 0 then
      mem ← set_avail mem base count;
      mem ← set_bighint mem base count;
      if negb (count =? rdx (S L))
      then init_children 16 mem base (skp (S L)) (skp L + 1) 1 (Blmeta 0 0)
      else mret mem
    else set_avail mem base (bmu_avail m + count)) = Done mem' /\
    frame mem mem' base (base + skp (S L)) /\ aget mem' base = Done m' /\ live m' /\
    bmu_avail m' = cnt (set_range F f count) blk (rdx (S L)) /\
    skeleton L mem' base n /\
    (bmu_avail m' <> rdx (S L) ->
     hint F blk (rdx (S L)) (bm_bighint m') /\ forest L mem' base blk n F).
Proof.
  intros HL Hb Hn Hnd Hm Hc Hf He Hno. pose proof (skp_nonneg (S L)). pose proof (rdx_pos (S L)).
  pose proof (rdx_bound (S L) HL). pose proof (cnt_s32 L blk HL (set_range F f count)) as Hcs.
  destruct (node_inv _ _ _ _ _ _ Hnd) as (m' & Hm' & Hl & Ha & Hh & Hs & Hcol & Ht).
  rewrite Hm in Hm'. injection Hm' as <-.
  assert (cnt (set_range F f count) blk (rdx (S L)) = cnt F blk (rdx (S L)) + count) as Hcnt
    by (by apply cnt_set; try lia).
  destruct (Z.eqb_spec (bmu_avail m) 0) as [E | E].
  - assert (none_in F blk (rdx (S L))) as Hnone by (apply cnt_none; [lia | by rewrite <- Ha]).
    erewrite set_avail_upd by done. rewrite bind_Done_l.
    erewrite set_bighint_upd by (by eapply upd_eq). rewrite upd_upd, bind_Done_l. cbn [bm_u].
    rewrite s32_id by (unfold_int; lia). set (m' := Blmeta (u32 count) count).
    assert (bmu_avail m' = count) as Ha' by (apply avail_u32; lia).
    assert (live m') as Hl' by (unfold live, m'; cbn [bm_bighint]; lia).
    assert (aget (upd mem base m') base = Done m') as Hm' by (by eapply upd_eq).
    assert (frame mem (upd mem base m') base (base + skp (S L))) as Hfr0
      by (eapply frame_weaken; [by apply frame_upd | lia | lia]).
    destruct (Z.eqb_spec count (rdx (S L))) as [Ec | Ec]; cbn [negb].
    + exists (upd mem base m'), m'. split; [done |]. do 3 (split; [done |]).
      split; [lia |]. split; [by apply skeleton_head |]. lia.
    + destruct (expand_empty L (upd mem base m') base blk n F) as (mem' & -> & Hfr & Hs' & Hf');
        [done | lia | by apply skeleton_head | done |].
      exists mem', m'. split; [done |]. split.
      { eapply frame_trans; [done |]. eapply frame_weaken; [done | lia | lia]. }
      split; [rewrite Hfr by lia; done |]. split; [done |]. split; [lia |]. split; [done |].
      intros _. split; [| done]. apply none_hint; [done |]. unfold m'. cbn [bm_bighint]. lia.
  - erewrite set_avail_upd by done.
    exists (upd mem base (Blmeta (u32 (bmu_avail m + count)) (bm_bighint m))), (Blmeta (u32 (bmu_avail m + count)) (bm_bighint m)).
    rewrite Ha in *. rewrite <- Hcnt. split; [done |].
    split; [eapply frame_weaken; [by apply frame_upd | lia | lia] |].
    split; [by eapply upd_eq |]. split; [done |]. rewrite avail_u32 by lia. split; [done |].
    split; [by apply skeleton_head |]. intros Hne. split; [done |].
    apply forest_head; [done |]. eapply not_collapsed; [done | | done].
    pose proof (cnt_bounds (set_range F f count) blk (rdx (S L))). lia.
Qed.

Lemma tree_free_spec L depth mem base blk n F f count :
  (L <= 6)%nat -> (L <= depth)%nat -> 0 <= base -> 0 <= blk -> blk mod 32 = 0 ->
  0 < n <= rdx L -> node L mem base blk n F -> 1 <= count -> blk <= f -> f + count <= blk + n ->
  none_in F f count ->
  exists mem', tree_free depth L mem base f count blk = Done mem' /\
    free_post L mem base blk n F f count mem'.
Proof.
  revert depth mem base blk n F f count. induction L as [| L IH];
    intros depth mem base blk n F f count HL Hd Hb Hblk Hmod Hn Hnd Hc Hf He Hno.
  { apply leaf_free_post; try done. }
  destruct depth as [| depth]; [lia |]. pose proof (rdx_pos (S L)). pose proof (rdx_bound (S L) HL).
  destruct (node_inv _ _ _ _ _ _ Hnd) as (m & Hm & _ & _ & _ & _ & _ & Ht).
  unfold tree_free. cbn [blst_meta_free]. cbv zeta. rewrite Hm, bind_Done_l, skp_div, rdx_div.
  destruct (free_enter L mem base blk n F f count m) as
    (mem1 & m1 & -> & Hfr1 & Hm1 & Hl1 & Ha1 & Hs1 & Hrest); try done.
  rewrite bind_Done_l, Hm1, bind_Done_l.
  pose proof (cnt_bounds (set_range F f count) blk (rdx (S L)) ltac:(lia)).
  assert (none_in (set_range F f count) (blk + n) (rdx (S L) - n)) as Ht' by (by apply set_range_tail).
  pose proof (skp_nonneg (S L)).
  destruct (Z.eqb_spec (bmu_avail m1) (rdx (S L))) as [E | E].
  - erewrite set_bighint_upd by done. rewrite rdx_s32 by done. eexists. split; [reflexivity |]. split.
    { eapply frame_trans; [done |]. eapply frame_weaken; [by apply frame_upd | lia | lia]. }
    eapply node_intro; [by eapply upd_eq | | done | | by apply skeleton_head | | done].
    + unfold live. cbn [bm_bighint]. lia.
    + intros a c ? ? ? ? ?. cbn [bm_bighint]. lia.
    + right; left. apply cnt_all; [lia | by rewrite <- Ha1].
  - destruct (Hrest E) as [Hh1 Hf1]. rewrite (proj2 (Z.ltb_ge _ _)) by lia.
    rewrite next_skip_leaf. replace (skp L + 1 - 1) with (skp L) by lia. rewrite rdx_s32 by lia.
    destruct (child_index L blk f ltac:(lia) Hf ltac:(lia)) as [Hk16 Hkf].
    match goal with |- context [free_loop ?g] => set (sub := g) end.
    assert (forall mem k G fb v, 0 <= k < 16 -> k * rdx L < n ->
      node L mem (cb base L k) (cblk blk L k) (cn n L k) G ->
      1 <= v -> cblk blk L k <= fb -> fb + v <= cblk blk L k + cn n L k -> none_in G fb v ->
      exists mem', sub mem (cb base L k) fb v (cblk blk L k) = Done mem' /\
        frame mem mem' (cb base L k) (cb base L k + skp L) /\
        node L mem' (cb base L k) (cblk blk L k) (cn n L k) (set_range G fb v)) as Hsub.
    { intros mem0 k G fb v Hk Hkn Hnd' Hv Hlo Hhi Hno'. pose proof (rdx_pos L).
      destruct (cb_range base L k Hk).
      destruct (IH depth mem0 (cb base L k) (cblk blk L k) (cn n L k) G fb v) as (mem' & Hr & Hp);
        try done; try lia.
      - unfold cblk. nia.
      - by apply cblk_mod32.
      - unfold cn. lia.
      - exists mem'. split; [| done]. by destruct L. }
    destruct (free_loop_spec L base blk n sub HL Hb Hmod Hn Hsub 16 ((f - blk) `quot` rdx L) mem1 m1 F f count)
      as (mem' & m' & Hrun & Hfr' & Hm' & Hl' & Hu' & Hh' & Hs' & Hf'); try done; try lia.
    exists mem'. split; [exact Hrun |]. split; [by eapply frame_trans |].
    eapply node_intro; try done; [| by right; right].
    unfold bmu_avail in *. rewrite Hu'. done.
Qed.

(** ** Filling *)

Lemma clear_range_empty F a j : clear_range F a 0 j = F j.
Proof. apply clear_range_out. lia. Qed.

Lemma clear_range_split F a c d j :
  0 <= c -> 0 <= d -> clear_range (clear_range F a c) (a + c) d j = clear_range F a (c + d) j.
Proof.
  intros. destruct (inr a (c + d) j) eqn:E.
  - apply inr_spec in E. rewrite (clear_range_in F) by lia.
    destruct (Z.lt_ge_cases j (a + c)).
    + rewrite clear_range_out, clear_range_in by lia. done.
    + by rewrite clear_range_in by lia.
  - apply inr_false in E. by rewrite !clear_range_out by lia.
Qed.

Lemma clear_range_none F f count a c : none_in F a c -> none_in (clear_range F f count) a c.
Proof. intros Hn j Hj. unfold clear_range. by rewrite Hn. Qed.

Definition fill_post (L : nat) (mem : list blmeta) (base blk n : Z) (F : Z -> bool)
    (f count : Z) (mem' : list blmeta) : Prop :=
  frame mem mem' base (base + skp L) /\ node L mem' base blk n (clear_range F f count).

Section FillLoop.
Context (L : nat) (base blk n : Z).
Context (sub : list blmeta -> Z -> Z -> Z -> Z -> outcome (list blmeta * Z)).
Hypothesis HL : (S L <= 6)%nat.
Hypothesis Hbase : 0 <= base.
Hypothesis Hn : 0 < n <= rdx (S L).
Hypothesis Hsub : forall mem k G fb v, 0 <= k < 16 -> k * rdx L < n ->
  node L mem (cb base L k) (cblk blk L k) (cn n L k) G ->
  1 <= v <= 32 -> cblk blk L k <= fb -> fb + v <= cblk blk L k + cn n L k ->
  exists mem', sub mem (cb base L k) fb v (cblk blk L k) = Done (mem', cnt G fb v) /\
    fill_post L mem (cb base L k) (cblk blk L k) (cn n L k) G fb v mem'.

Lemma fill_loop_spec fuel k mem m G fb c acc :
  aget mem base = Done m -> live m ->
  skeleton L mem base n -> forest L mem base blk n G -> none_in G (blk + n) (rdx (S L) - n) ->
  0 <= k <= 16 -> 16 - k <= Z.of_nat fuel -> 0 <= c <= 32 -> fb + c <= blk + n ->
  (0 < c -> cblk blk L k <= fb < cblk blk L (k + 1)) -> (c = 0 -> fb <= cblk blk L k) ->
  exists mem', fill_loop sub fuel mem base (rdx L) (skp (S L)) (skp L + 1)
      (k * (skp L + 1) + 1) (cblk blk L k) fb c acc = Done (mem', acc + cnt G fb c) /\
    frame mem mem' (base + 1) (base + skp (S L)) /\
    skeleton L mem' base n /\ forest L mem' base blk n (clear_range G fb c).
Proof.
  revert k mem G fb c acc. induction fuel as [| fuel IH];
    intros k mem G fb c acc Hm Hl Hs Hf Ht Hk Hfu Hc He Hpos Hzero; cbn [fill_loop]; cbv zeta;
    pose proof (skp_nonneg L); pose proof (rdx_pos L); pose proof (rdx_S L) as ER;
    (destruct (decide (c = 0)) as [-> | Hc0];
     [rewrite (proj2 (Z.ltb_ge _ _)), andb_false_r by lia; cbn [negb];
      exists mem; rewrite cnt_0, Z.add_0_r; split; [done |]; split; [apply frame_refl |];
      split; [done |]; eapply forest_ext; [| done]; intros; symmetry; apply clear_range_empty |]).
  { destruct (Hpos ltac:(lia)). unfold cblk in *. nia. }
  destruct (Hpos ltac:(lia)) as [Hp1 Hp2].
  assert (0 <= k < 16 /\ k * rdx L < n) as [Hk16 Hkn] by (unfold cblk in *; nia).
  rewrite (proj2 (Z.leb_le _ _)), (proj2 (Z.ltb_lt _ _)) by (rewrite ?skp_S; nia). cbn [andb negb].
  rewrite Hm, bind_Done_l, (proj2 (Z.eqb_neq _ _)) by (destruct Hl; lia). rewrite bind_Done_l.
  rewrite !rdx_s32 by lia.
  replace (base + (k * (skp L + 1) + 1)) with (cb base L k) by (unfold cb; lia).
  replace (k * (skp L + 1) + 1 + (skp L + 1)) with ((k + 1) * (skp L + 1) + 1) by lia.
  replace (cblk blk L k + rdx L) with (cblk blk L (k + 1)) by (unfold cblk; lia).
  set (v := Z.min (cblk blk L (k + 1) - fb) c). assert (1 <= v <= c) as Hv by lia.
  destruct (Hsub mem k G fb v) as (mem1 & Hrun & Hfr & Hsh & Hrp & _); try done; try lia.
  { by apply node_child; [done | done | lia | done | lia |]. }
  { unfold cn, cblk in *. lia. }
  rewrite Hrun, bind_Done_l. destruct (cb_range base L k ltac:(lia)).
  assert (forall j, ~ cblk blk L k <= j < cblk blk L k + rdx L -> clear_range G fb v j = G j) as Hout.
  { intros j Hj. apply clear_range_out. unfold cblk in *. lia. }
  destruct (IH (k + 1) mem1 (clear_range G fb v) (fb + v) (c - v) (acc + cnt G fb v))
    as (mem' & -> & Hfr' & Hs' & Hf'); try done; try lia.
  - rewrite Hfr by lia. done.
  - by apply (skeleton_child _ mem _ _ _ k).
  - by apply (forest_child _ mem _ _ _ _ G _ k).
  - by apply clear_range_none.
  - unfold cblk in *. lia.
  - exists mem'. split.
    { do 2 f_equal. rewrite (cnt_ext (clear_range G fb v) G) by (intros; apply clear_range_out; lia).
      replace (cnt G fb c) with (cnt G fb (v + (c - v))) by (f_equal; lia).
      rewrite cnt_split by lia. lia. }
    split.
    { eapply frame_trans; [| done]. eapply frame_weaken; [done | lia | lia]. }
    split; [done |]. eapply forest_ext; [| done].
    intros j. rewrite clear_range_split by lia. f_equal. lia.
Qed.

End FillLoop.

Definition tree_fill (depth L : nat) (mem : list blmeta) (scan fillBlk count blk : Z) :=
  match L with
  | O => blst_leaf_fill mem scan fillBlk count
  | S _ => blst_meta_fill depth mem scan fillBlk count (rdx L) (skp L) blk
  end.

Lemma leaf_fill_post mem base blk n F f count :
  0 <= base -> 0 <= blk -> blk mod 32 = 0 -> 0 < n <= 32 -> node 0 mem base blk n F ->
  1 <= count -> blk <= f -> f + count <= blk + n ->
  exists mem', blst_leaf_fill mem base f count = Done (mem', cnt F f count) /\
    fill_post 0 mem base blk n F f count mem'.
Proof.
  intros Hb Hblk Hmod Hn Hnd Hc Hf He. pose proof Hnd as (_ & (m & Hget & Hrep) & Ht).
  destruct (blst_leaf_fill_spec mem base m F blk Hget Hrep (conj Hblk Hmod) f count)
    as (m' & -> & Hr); try done; try lia.
  eexists. split; [done |]. split.
  - change (skp 0) with 0. rewrite Z.add_0_r. by apply frame_upd.
  - eapply leaf_node; try done. by apply clear_range_none.
Qed.

(** An all-allocated node: nothing to fill. *)
Lemma fill_empty_post L mem base blk n F f count m :
  (S L <= 6)%nat -> 0 <= base -> node (S L) mem base blk n F -> aget mem base = Done m ->
  1 <= count <= 32 -> none_in F blk (rdx (S L)) ->
  fill_post (S L) mem base blk n F f count (upd mem base (Blmeta (u32 0) (s32 count))).
Proof.
  intros HL Hb Hnd Hm Hc Hnone. pose proof (skp_nonneg (S L)). pose proof (rdx_pos (S L)).
  destruct (node_inv _ _ _ _ _ _ Hnd) as (m' & Hm' & Hl & Ha & Hh & Hs & _ & Ht).
  rewrite Hm in Hm'. injection Hm' as <-. rewrite s32_id by (unfold_int; lia).
  split; [eapply frame_weaken; [by apply frame_upd | lia | lia] |].
  pose proof (clear_range_none F f count _ _ Hnone) as Hnone'.
  eapply node_intro; [by eapply upd_eq | | | | by apply skeleton_head | by left | by apply clear_range_none].
  - unfold live. cbn [bm_bighint]. lia.
  - rewrite avail_u32 by lia. symmetry. apply cnt_none; done || lia.
  - apply none_hint; [done |]. cbn [bm_bighint]. lia.
Qed.

Lemma fill_enter L mem base blk n F m :
  (S L <= 6)%nat -> 0 <= base -> 0 < n <= rdx (S L) -> node (S L) mem base blk n F ->
  aget mem base = Done m -> bmu_avail m <> 0 ->
  exists mem', (if bmu_avail m =? rdx (S L)
    then init_children 16 mem base (skp (S L)) (skp L + 1) 1 (all_free_child (skp L + 1) (rdx L))
    else mret mem) = Done mem' /\
    frame mem mem' (base + 1) (base + skp (S L)) /\ skeleton L mem' base n /\ forest L mem' base blk n F.
Proof.
  intros HL Hb Hn Hnd Hm Hne. pose proof (rdx_pos (S L)).
  destruct (node_inv _ _ _ _ _ _ Hnd) as (m' & Hm' & Hl & Ha & Hh & Hs & Hc & Ht).
  rewrite Hm in Hm'. injection Hm' as <-. destruct (Z.eqb_spec (bmu_avail m) (rdx (S L))) as [E | E].
  - apply (expand_full L mem base blk n F); try done; try lia.
    apply cnt_all; [lia | by rewrite <- Ha].
  - exists mem. split; [done |]. split; [apply frame_refl |]. split; [done |].
    eapply not_collapsed; [rewrite <- Ha; done | rewrite <- Ha; done | done].
Qed.

Lemma tree_fill_spec L depth mem base blk n F f count :
  (L <= 6)%nat -> (L <= depth)%nat -> 0 <= base -> 0 <= blk -> blk mod 32 = 0 ->
  0 < n <= rdx L -> node L mem base blk n F -> 1 <= count <= 32 -> blk <= f -> f + count <= blk + n ->
  exists mem', tree_fill depth L mem base f count blk = Done (mem', cnt F f count) /\
    fill_post L mem base blk n F f count mem'.
Proof.
  revert depth mem base blk n F f count. induction L as [| L IH];
    intros depth mem base blk n F f count HL Hd Hb Hblk Hmod Hn Hnd Hc Hf He.
  { apply leaf_fill_post; try done. lia. }
  destruct depth as [| depth]; [lia |]. pose proof (rdx_pos (S L)). pose proof (rdx_pos L).
  pose proof (rdx_S L). pose proof (skp_nonneg (S L)).
  destruct (node_inv _ _ _ _ _ _ Hnd) as (m & Hm & Hl & Ha & Hh & _ & _ & Ht).
  unfold tree_fill. cbn [blst_meta_fill]. cbv zeta. rewrite Hm, bind_Done_l, skp_div, rdx_div.
  rewrite (proj2 (Z.eqb_neq count _)) by lia. cbn [orb].
  destruct (Z.eqb_spec (bmu_avail m) 0) as [E | E].
  - assert (none_in F blk (rdx (S L))) as Hnone by (apply cnt_none; [lia | by rewrite <- Ha]).
    erewrite set_avail_upd by done. rewrite bind_Done_l.
    erewrite set_bighint_upd by (by eapply upd_eq). rewrite upd_upd, bind_Done_l, E.
    eexists. split; [| by eapply fill_empty_post].
    do 2 f_equal. symmetry. apply cnt_none; [lia |]. intros j Hj. apply Hnone. lia.
  - destruct (fill_enter L mem base blk n F m) as (mem1 & -> & Hfr1 & Hs1 & Hf1); try done.
    rewrite bind_Done_l, rdx_s32 by lia. rewrite (proj2 (Z.ltb_ge _ _)) by lia.
    rewrite next_skip_leaf. replace (skp L + 1 - 1) with (skp L) by lia.
    destruct (child_index L blk f ltac:(lia) Hf ltac:(lia)) as [Hk16 Hkf].
    match goal with |- context [fill_loop ?g] => set (sub := g) end.
    assert (forall mem k G fb v, 0 <= k < 16 -> k * rdx L < n ->
      node L mem (cb base L k) (cblk blk L k) (cn n L k) G ->
      1 <= v <= 32 -> cblk blk L k <= fb -> fb + v <= cblk blk L k + cn n L k ->
      exists mem', sub mem (cb base L k) fb v (cblk blk L k) = Done (mem', cnt G fb v) /\
        fill_post L mem (cb base L k) (cblk blk L k) (cn n L k) G fb v mem') as Hsub.
    { intros mem0 k G fb v Hk Hkn Hnd' Hv Hlo Hhi.
      destruct (cb_range base L k Hk).
      destruct (IH depth mem0 (cb base L k) (cblk blk L k) (cn n L k) G fb v) as (mem' & Hr & Hp);
        try done; try lia.
      - unfold cblk. nia.
      - by apply cblk_mod32.
      - unfold cn. lia.
      - exists mem'. split; [| done]. by destruct L. }
    assert (aget mem1 base = Done m) as Hm1 by (rewrite Hfr1 by lia; done).
    destruct (fill_loop_spec L base blk n sub HL Hn Hsub 16 ((f - blk) `quot` rdx L) mem1 m F f count 0)
      as (mem' & Hrun & Hfr' & Hs' & Hf'); try done; try lia.
    unfold cblk in Hrun. rewrite Hrun, bind_Done_l. rewrite Hfr', Hm1, bind_Done_l by lia.
    erewrite set_avail_upd by (rewrite Hfr' by lia; done). rewrite bind_Done_l.
    eexists. split; [reflexivity |]. split.
    { apply (frame_trans _ mem1); [eapply frame_weaken; [done | lia | lia] |].
      apply (frame_trans _ mem'); [eapply frame_weaken; [done | lia | lia] |].
      eapply frame_weaken; [by apply frame_upd | lia | lia]. }
    pose proof (cnt_s32 L blk HL (clear_range F f count)).
    assert (bmu_avail m - (0 + cnt F f count) = cnt (clear_range F f count) blk (rdx (S L))) as ->
      by (rewrite cnt_clear, Ha by lia; lia).
    eapply node_intro; [eapply upd_eq; rewrite Hfr' by lia; done | done | by apply avail_u32 | |
      by apply skeleton_head | right; right; by apply forest_head | by apply clear_range_none].
    eapply hint_mono; [done |]. intros j _. apply clear_range_le.
Qed.
