(* ===== verification/BlistInit.v ===== *)
(** * Creating the radix tree

    blst_radix_init computes how many slots a tree needs, and initialises
    whatever memory it is given, if there is that much of it, to the tree with
    every block allocated. *)

From stdpp Require Import prelude list strings.
From S2P Require Import Prelude.
From S2P Require Import Ranges.
From S2P Require Import Blist.
From S2P Require Import BlistLeaf.
From S2P Require Import BlistTree.
From S2P Require Import BlistOps.
Open Scope Z_scope.

(** The number of children that manage blocks. *)
Definition kids (L : nat) (n : Z) : Z := (n + rdx L - 1) / rdx L.

(** The index of the last slot that is used, relative to the root. *)
Definition need (L : nat) (n : Z) : Z :=
  match L with O => 0 | S L => 1 + kids L n * (skp L + 1) end.

Lemma kids_unique L n k : (k - 1) * rdx L < n <= k * rdx L -> kids L n = k.
Proof.
  intros. pose proof (rdx_pos L). unfold kids. symmetry.
  apply (Z.div_unique _ _ _ (n + rdx L - 1 - k * rdx L)); lia.
Qed.

Lemma kids_gt L n k : k * rdx L < n -> k < kids L n.
Proof.
  intros. pose proof (rdx_pos L). unfold kids.
  apply Z.lt_le_trans with (k + 1); [lia |]. apply Z.div_le_lower_bound; lia.
Qed.

Lemma kids_le L n : n <= rdx (S L) -> kids L n <= 16.
Proof.
  intros. rewrite rdx_S in *. pose proof (rdx_pos L). unfold kids.
  apply Z.lt_succ_r, Z.div_lt_upper_bound; lia.
Qed.

Lemma need_le L n : n <= rdx L -> need L n <= skp L + 1.
Proof.
  destruct L as [| L]; [simpl; lia |]. intros H%kids_le. unfold need. rewrite skp_S.
  pose proof (skp_nonneg L). nia.
Qed.

(** The two calls of blist_create: without memory, and with it. *)
Definition inits (Q : list blmeta -> list blmeta -> Prop) (om om' : option (list blmeta)) : Prop :=
  match om, om' with
  | None, None => True
  | Some l, Some l' => zlen l' = zlen l /\ Q l l'
  | _, _ => False
  end.

Definition room (om : option (list blmeta)) (last : Z) : Prop :=
  forall l, om = Some l -> last < zlen l.

Lemma inits_room Q om om' last : inits Q om om' -> room om last -> room om' last.
Proof.
  intros Hi Hr l ->. destruct om as [l0 |]; [| done]. destruct Hi as [Hz _].
  rewrite Hz. by apply Hr.
Qed.

Lemma inits_trans (Q1 Q2 Q3 : list blmeta -> list blmeta -> Prop) om1 om2 om3 :
  inits Q1 om1 om2 -> inits Q2 om2 om3 ->
  (forall l1 l2 l3, Q1 l1 l2 -> Q2 l2 l3 -> Q3 l1 l3) -> inits Q3 om1 om3.
Proof.
  destruct om1, om2, om3; try done; simpl. intros [E1 ?] [E2 ?] HQ. split; [congruence | by eapply HQ].
Qed.

Lemma upd_zlen mem i m : zlen (upd mem i m) = zlen mem.
Proof. unfold zlen, upd. by rewrite length_insert. Qed.

(** Both fields of a slot set to zero, and the terminator mark. *)
Lemma clear_slot om base f :
  (forall l, f l = (l ← set_bighint l base 0; set_avail l base 0) \/
             f l = (l ← set_bighint l base 0; set_bitmap l base 0)) ->
  0 <= base -> room om base ->
  exists om', opt_write om f = Done om' /\
    inits (fun l l' => frame l l' base base /\ aget l' base = Done (Blmeta 0 0)) om om'.
Proof.
  intros Hf Hb Hr. destruct om as [l |]; [| by exists None].
  destruct (aget_in_bounds l base) as [m Hm]; [specialize (Hr l eq_refl); lia |].
  assert (f l = Done (upd l base (Blmeta 0 0))) as E.
  { destruct (Hf l) as [-> | ->]; erewrite set_bighint_upd by done; rewrite bind_Done_l;
      [erewrite set_avail_upd by (by eapply upd_eq) | erewrite set_bitmap_upd by (by eapply upd_eq)];
      by rewrite upd_upd. }
  exists (Some (upd l base (Blmeta 0 0))). unfold opt_write. rewrite E. split; [done |].
  split; [apply upd_zlen |]. split; [by apply frame_upd | by eapply upd_eq].
Qed.

Lemma mark_terminator om i :
  0 <= i -> room om i ->
  exists om', opt_write om (fun l => set_bighint l i (-1)) = Done om' /\
    inits (fun l l' => frame l l' i i /\ slot l' i terminator) om om'.
Proof.
  intros Hi Hr. destruct om as [l |]; [| by exists None].
  destruct (aget_in_bounds l i) as [m Hm]; [specialize (Hr l eq_refl); lia |].
  eexists. unfold opt_write. erewrite set_bighint_upd by done. split; [reflexivity |].
  split; [apply upd_zlen |]. split; [by apply frame_upd |].
  eexists. split; [by eapply upd_eq | done].
Qed.

Definition init_post (L : nat) (base n : Z) (l l' : list blmeta) : Prop :=
  frame l l' base (base + skp L) /\ shape L l' base n /\ aget l' base = Done (Blmeta 0 0).

Section InitLoop.
Context (L : nat) (base n : Z).
Context (sub : option (list blmeta) -> Z -> Z -> outcome (option (list blmeta) * Z)).
Hypothesis HL : (S L <= 6)%nat.
Hypothesis Hbase : 0 <= base.
Hypothesis Hn : 0 < n <= rdx (S L).
Hypothesis Hsub : forall om k, 0 <= k < 16 -> k * rdx L < n -> room om (cb base L k + need L (cn n L k)) ->
  exists om', sub om (cb base L k) (cn n L k) = Done (om', need L (cn n L k)) /\
    inits (init_post L (cb base L k) (cn n L k)) om om'.

(** Children [k..] have been initialised. *)
Definition kids_post (k : Z) (l l' : list blmeta) : Prop :=
  frame l l' (cb base L k) (base + skp (S L)) /\
  forall k', k <= k' < 16 ->
    (k' * rdx L < n -> shape L l' (cb base L k') (cn n L k')) /\
    ((k' - 1) * rdx L < n <= k' * rdx L -> slot l' (cb base L k') terminator).

Lemma kids_post_step k l1 l2 l3 :
  0 <= k < 16 -> k * rdx L < n ->
  init_post L (cb base L k) (cn n L k) l1 l2 -> kids_post (k + 1) l2 l3 -> kids_post k l1 l3.
Proof.
  intros Hk Hkn (Hfr & Hsh & _) [Hfr' Hc]. pose proof (rdx_pos L).
  pose proof (cb_disjoint base L k (k + 1) ltac:(lia)). destruct (cb_range base L k Hk).
  split.
  - eapply frame_trans; [eapply frame_weaken; [done | lia | lia] |].
    eapply frame_weaken; [done | | lia]. pose proof (skp_nonneg L). lia.
  - intros k' Hk'. destruct (decide (k' = k)) as [-> |]; [| apply Hc; lia].
    split; [| lia]. intros _. eapply shape_frame; [| done].
    intros i Hi. apply Hfr'. lia.
Qed.

Lemma radix_init_loop_spec fuel k om memindex :
  0 <= k <= 16 -> Z.of_nat fuel = 16 - k -> (k - 1) * rdx L < n -> memindex <= 1 + k * (skp L + 1) ->
  room om (base + need (S L) n) ->
  exists om' mi, radix_init_loop sub fuel om base (rdx L) (skp (S L)) (skp L + 1)
      (1 + k * (skp L + 1)) (Z.max 0 (n - k * rdx L)) memindex = Done (om', need (S L) n, mi) /\
    mi <= need (S L) n /\ inits (kids_post k) om om'.
Proof.
  revert k om memindex. induction fuel as [| fuel IH]; intros k om memindex Hk Hfu Hkn Hmi Hroom;
    cbn [radix_init_loop]; pose proof (skp_nonneg L); pose proof (rdx_pos L); pose proof (rdx_S L).
  - rewrite (proj2 (Z.leb_gt _ _)) by (rewrite skp_S; nia). cbn [negb].
    exists om, memindex. assert (k = 16) as -> by lia.
    unfold need in *. rewrite (kids_unique L n 16) by lia. split; [done |]. split; [lia |].
    destruct om as [l |]; [| done]. split; [done |]. split; [apply frame_refl |]. intros. lia.
  - rewrite (proj2 (Z.leb_le _ _)) by (rewrite skp_S; nia). cbn [negb].
    rewrite !rdx_s32 by lia.
    replace (base + (1 + k * (skp L + 1))) with (cb base L k) by (unfold cb; lia).
    replace (1 + k * (skp L + 1) + (skp L + 1)) with (1 + (k + 1) * (skp L + 1)) by lia.
    destruct (Z.lt_ge_cases (k * rdx L) n) as [Hlt | Hge].
    + assert (exists om' mi, ('(mem, n0) ← sub om (cb base L k) (cn n L k);
        radix_init_loop sub fuel mem base (rdx L) (skp (S L)) (skp L + 1) (1 + (k + 1) * (skp L + 1))
          (Z.max 0 (n - (k + 1) * rdx L)) (1 + k * (skp L + 1) + n0)) = Done (om', need (S L) n, mi) /\
        mi <= need (S L) n /\ inits (kids_post k) om om') as Hrec.
      { pose proof (need_le L (cn n L k) ltac:(unfold cn; lia)).
        destruct (Hsub om k) as (om1 & -> & Hi1); [lia | done | |].
        { intros l Hl. specialize (Hroom l Hl). pose proof (kids_gt L n k Hlt).
          unfold need in Hroom. unfold cb. nia. }
        rewrite bind_Done_l.
        destruct (IH (k + 1) om1 (1 + k * (skp L + 1) + need L (cn n L k)))
          as (om' & mi & -> & Hmi' & Hi'); try lia.
        { by eapply inits_room. }
        exists om', mi. split; [done |]. split; [done |]. eapply inits_trans; [done | done |].
        intros l1 l2 l3. apply kids_post_step; done || lia. }
      unfold cn in Hrec. destruct (Z.leb_spec (rdx L) (Z.max 0 (n - k * rdx L))) as [Hfull | Hpart].
      * replace (Z.max 0 (n - k * rdx L) - rdx L) with (Z.max 0 (n - (k + 1) * rdx L)) by lia.
        rewrite (Z.min_l (rdx L)) in Hrec by lia. exact Hrec.
      * rewrite (proj2 (Z.ltb_lt _ _)) by lia.
        rewrite (Z.min_r (rdx L)) in Hrec by lia.
        rewrite (Z.max_l 0 (n - (k + 1) * rdx L)) in Hrec by lia.
        rewrite (Z.max_r 0 (n - k * rdx L)) by lia. exact Hrec.
    + rewrite (proj2 (Z.leb_gt _ _)), (proj2 (Z.ltb_ge _ _)) by lia.
      assert (need (S L) n = 1 + k * (skp L + 1)) as En
        by (unfold need; rewrite (kids_unique L n k) by lia; done).
      destruct (mark_terminator om (cb base L k)) as (om' & -> & Hi).
      { unfold cb. nia. }
      { intros l Hl. specialize (Hroom l Hl). unfold cb. lia. }
      rewrite bind_Done_l, En. exists om', memindex. split; [done |]. split; [lia |].
      destruct om as [l |], om' as [l' |]; try done. destruct Hi as [Hz [Hfr Hsl]].
      split; [done |]. destruct (cb_range base L k ltac:(lia)). split.
      { eapply frame_weaken; [done | lia | lia]. }
      intros k' Hk'. split; [nia |]. intros Hk''. assert (k' = k) as -> by nia. done.
Qed.

End InitLoop.

Lemma blst_radix_init_spec L depth om base n :
  (L <= 6)%nat -> (L <= depth)%nat -> 0 <= base -> 0 < n <= rdx L -> room om (base + need L n) ->
  exists om', blst_radix_init depth om base (rdx L) (skp L) n = Done (om', need L n) /\
    inits (init_post L base n) om om'.
Proof.
  revert depth om base n. induction L as [| L IH]; intros depth om base n HL Hd Hb Hn Hroom.
  - assert (blst_radix_init depth om base (rdx 0) (skp 0) n =
      (mem ← opt_write om (fun l => l ← set_bighint l base 0; set_bitmap l base 0); mret (mem, 0))) as ->
      by (by destruct depth).
    destruct (clear_slot om base (fun l => l ← set_bighint l base 0; set_bitmap l base 0))
      as (om' & -> & Hi); [by right | done | by rewrite Z.add_0_r in Hroom |].
    exists om'. split; [done |]. destruct om as [l |], om' as [l' |]; try done.
    destruct Hi as [Hz [Hfr Hh]]. split; [done |]. split; [by rewrite Z.add_0_r |]. split; [| done].
    split; [| done]. exists (Blmeta 0 0). by split.
  - destruct depth as [| depth]; [lia |]. cbn [blst_radix_init]. pose proof (rdx_pos L).
    pose proof (rdx_S L). pose proof (skp_nonneg L).
    rewrite (proj2 (Z.eqb_neq _ _)) by (unfold BLIST_BMAP_RADIX; lia).
    destruct (clear_slot om base (fun l => l ← set_bighint l base 0; set_avail l base 0))
      as (om1 & -> & Hi1); [by left | done | |].
    { intros l Hl. specialize (Hroom l Hl). unfold need in Hroom.
      pose proof (kids_gt L n 0 ltac:(lia)). nia. }
    rewrite bind_Done_l. cbv zeta. rewrite rdx_div, skp_div. replace (skp L + 1 - 1) with (skp L) by lia.
    destruct (radix_init_loop_spec L base n
      (fun mem scan' count' => blst_radix_init depth mem scan' (rdx L) (skp L) count') HL Hb Hn)
      with (fuel := 16%nat) (k := 0) (om := om1) (memindex := 0) as (om' & mi & Hrun & Hmi & Hi');
      try lia.
    { intros om2 k Hk Hkn Hr. destruct (cb_range base L k Hk). apply IH; try done; try lia.
      unfold cn. lia. }
    { by eapply inits_room. }
    rewrite Z.mul_0_l, Z.sub_0_r, Z.add_0_r, Z.max_r in Hrun by lia.
    rewrite Hrun, bind_Done_l. exists om'. split.
    { cbv beta iota. destruct (Z.ltb_spec mi (need (S L) n)); [done |]. do 2 f_equal. lia. }
    eapply inits_trans; [done | done |]. intros l1 l2 l3 [Hfr Hh] [Hfr' Hc].
    pose proof (skp_nonneg (S L)).
    assert (aget l3 base = Done (Blmeta 0 0)) as Hh3.
    { rewrite Hfr'; [done |]. unfold cb. lia. }
    split; [| split; [split; [by exists (Blmeta 0 0) | exact Hc] | done]].
    eapply frame_trans; [eapply frame_weaken; [done | lia | lia] |].
    eapply frame_weaken; [done | unfold cb; lia | lia].
Qed.
