(* ===== verification/BlistProps.v ===== *)
(** * The block allocator against its specification

    A blist stands for the set of its free blocks.  Creation, allocation,
    freeing, filling and resizing are the operations of the header comment of
    sys/kern/subr_blist.c on that set, and a client that frees only what it
    was given never makes the allocator panic or fault. *)

From stdpp Require Import prelude list strings.
From S2P Require Import Prelude.
From S2P Require Import Ranges.
From S2P Require Import Blist.
From S2P Require Import BlistLeaf.
From S2P Require Import BlistTree.
From S2P Require Import BlistOps.
From S2P Require Import BlistFree.
From S2P Require Import BlistInit.
Open Scope Z_scope.

(** [bl] is a well-formed tree whose free blocks are [F]. *)
Definition blist_ok (bl : blist) (F : Z -> bool) : Prop :=
  exists L, (L <= 6)%nat /\ bl_radix bl = rdx L /\ bl_skip bl = skp L /\
    0 < bl_blocks bl <= rdx L /\ node L (bl_root bl) 0 0 (bl_blocks bl) F /\
    (forall j, ~ 0 <= j < bl_blocks bl -> F j = false) /\
    bl_free bl = cnt F 0 (bl_blocks bl).

(** The set an allocator stands for matters only up to pointwise equality. *)
#[global] Instance blist_ok_proper bl :
  Proper (pointwise_relation Z eq ==> iff) (blist_ok bl).
Proof.
  assert (forall F G, (forall j, F j = G j) -> blist_ok bl F -> blist_ok bl G) as H.
  { intros F G E (L & HL & Hr & Hs & Hb & (Hsh & Hrp & Ht) & Hout & Hf).
    exists L. do 4 (split; [done |]). split; [split; [done | split] |].
    - eapply rep_ext; [| done]. auto.
    - eapply none_in_ext; [| done]. auto.
    - split; [intros j Hj; rewrite <- E; by apply Hout |].
      rewrite Hf. apply cnt_ext. auto. }
  intros F G E. split; apply H; [done | by symmetry].
Qed.

Lemma rdx_32 L : (rdx L =? BLIST_BMAP_RADIX) = match L with O => true | S _ => false end.
Proof.
  destruct L as [| L]; [done |]. apply Z.eqb_neq. pose proof (rdx_pos L).
  rewrite rdx_S. unfold BLIST_BMAP_RADIX. lia.
Qed.

Lemma skp_bound L : (L <= 6)%nat -> skp L < 2 ^ 31.
Proof. intros. do 7 (destruct L as [| L]; [simpl; lia |]). lia. Qed.

(** ** Creation *)

Lemma radix_for_spec fuel l blocks :
  (l <= 6)%nat -> blocks <= 2 ^ 29 -> (6 - l <= fuel)%nat ->
  exists L, (L <= 6)%nat /\ radix_for fuel (rdx l) (skp l) blocks = Done (rdx L, skp L) /\ blocks <= rdx L.
Proof.
  revert l. induction fuel as [| fuel IH]; intros l Hl Hb Hf; cbn [radix_for];
    destruct (Z.ltb_spec (rdx l) blocks); try (by exists l).
  - assert (l = 6%nat) as -> by lia. change (rdx 6) with (2 ^ 29) in *. lia.
  - destruct (decide (l = 6%nat)) as [-> |]; [change (rdx 6) with (2 ^ 29) in *; lia |].
    pose proof (skp_nonneg l). pose proof (skp_bound (S l) ltac:(lia)). rewrite skp_S in *.
    unfold BLIST_META_RADIX. cbv zeta. rewrite s32_id by (unfold_int; lia).
    unfold KKASSERT. rewrite (proj2 (Z.ltb_lt _ _)) by lia. rewrite bind_Done_l.
    replace (rdx l * 16) with (rdx (S l)) by (rewrite rdx_S; lia). apply IH; lia.
Qed.

Lemma create_ok garbage blocks :
  0 < blocks <= 2 ^ 29 -> (forall n, 0 <= n -> zlen (garbage n) = n) ->
  exists bl, blist_create garbage blocks = Done bl /\ bl_blocks bl = blocks /\
    zlen (bl_root bl) = bl_rootblks bl /\ blist_ok bl (fun _ => false).
Proof.
  intros Hb Hg. unfold blist_create.
  destruct (radix_for_spec MAX_DEPTH 0 blocks) as (L & HL & Hr & Hle); [lia | lia | unfold MAX_DEPTH; lia |].
  change (radix_for MAX_DEPTH BLIST_BMAP_RADIX 0 blocks) with (radix_for MAX_DEPTH (rdx 0) (skp 0) blocks).
  rewrite Hr, bind_Done_l.
  assert (0 <= need L blocks) as Hneed.
  { destruct L as [| L]; [simpl; lia |]. unfold need. pose proof (skp_nonneg L). pose proof (rdx_pos L).
    pose proof (kids_gt L blocks 0 ltac:(lia)). nia. }
  destruct (blst_radix_init_spec L MAX_DEPTH None 0 blocks) as (om & -> & _);
    [done | unfold MAX_DEPTH; lia | lia | lia | done |]. rewrite bind_Done_l.
  destruct (blst_radix_init_spec L MAX_DEPTH (Some (garbage (1 + need L blocks))) 0 blocks)
    as (om' & -> & Hi); [done | unfold MAX_DEPTH; lia | lia | lia | |].
  { intros l [= <-]. rewrite Hg by lia. lia. }
  rewrite bind_Done_l. eexists. split; [reflexivity |]. split; [done |].
  destruct om' as [l |]; [| done]. destruct Hi as [Hz (_ & Hsh & Hhd)].
  split; [simpl; by rewrite Hz, Hg by lia |].
  exists L. do 3 (split; [done |]). split; [cbn [bl_blocks]; lia |].
  split; [split; [done | split; [by apply rep_empty | done]] |].
  split; [done |]. symmetry. apply cnt_none; [cbn [bl_blocks]; lia | done].
Qed.

(** ** The operations *)

Lemma cnt_managed bl F L :
  0 < bl_blocks bl <= rdx L -> (L <= 6)%nat -> 0 <= cnt F 0 (bl_blocks bl) < 2 ^ 31.
Proof.
  intros Hb HL. pose proof (rdx_bound L HL). pose proof (cnt_bounds F 0 (bl_blocks bl)). lia.
Qed.

Lemma allocat_ok bl F count blkat :
  blist_ok bl F -> 1 <= count <= 32 ->
  exists bl' r, blist_allocat bl count blkat = Done (bl', r) /\ bl_blocks bl' = bl_blocks bl /\
    ((r = SWAPBLK_NONE /\ blist_ok bl' F /\ fails F blkat 0 (bl_blocks bl) count) \/
     (0 <= r /\ r + count <= bl_blocks bl /\ all_in F r count /\
      r / 32 = (r + count - 1) / 32 /\
      (blkat < bl_radix bl -> blkat < r / 32 * 32 + 32) /\
      blist_ok bl' (clear_range F r count))).
Proof.
  intros (L & HL & Hr & Hs & Hb & Hnd & Hout & Hf) Hc. unfold blist_allocat. rewrite Hr, Hs, rdx_32.
  destruct (tree_alloc_spec L MAX_DEPTH (bl_root bl) 0 0 (bl_blocks bl) F blkat count)
    as (mem' & r & Hrun & _ & Hp); try done; [unfold MAX_DEPTH; lia |].
  pose proof (cnt_managed bl F L Hb HL) as Hcb.
  assert ((if match L with O => true | S _ => false end then blst_leaf_alloc (bl_root bl) 0 0 count
    else blst_meta_alloc MAX_DEPTH (bl_root bl) 0 blkat 0 count (rdx L) (skp L)) = Done (mem', r)) as ->
    by (by destruct L).
  rewrite bind_Done_l. do 2 eexists. split; [reflexivity |]. split; [done |].
  destruct Hp as [(-> & Hnd' & Hfail) | (Hr1 & Hr2 & Hq & Hall & Hat & Hnd')]; [left | right].
  - split; [done |]. split.
    + exists L. do 4 (split; [done |]). split; [done |]. split; [done |].
      cbn [bl_free with_root bl_blocks]. rewrite Z.eqb_refl. cbn [negb].
      rewrite Hf. apply s32_id. unfold_int. lia.
    + intros a ? ? ? ?. apply Hfail; done || lia.
  - assert (r + count <= bl_blocks bl) as Hin.
    { destruct (Z.lt_ge_cases (bl_blocks bl) (r + count)); [| lia].
      specialize (Hall (r + count - 1) ltac:(lia)). rewrite Hout in Hall by lia. done. }
    do 5 (split; [done |]).
    exists L. do 4 (split; [done |]). split; [done |]. split.
    { intros j Hj. unfold clear_range. by rewrite Hout. }
    cbn [bl_free with_root bl_blocks]. rewrite (proj2 (Z.eqb_neq _ _)) by (unfold SWAPBLK_NONE; lia).
    cbn [negb]. pose proof (cnt_managed bl (clear_range F r count) L Hb HL).
    rewrite cnt_clear, (proj2 (cnt_all F r count ltac:(lia)) Hall) in * by lia.
    rewrite Hf. apply s32_id. unfold_int. lia.
Qed.

(** blist_alloc is the case of a zero hint. *)
Lemma alloc_allocat bl count : blist_alloc bl count = blist_allocat bl count 0.
Proof. reflexivity. Qed.

Lemma free_ok bl F f count :
  blist_ok bl F -> 1 <= count -> 0 <= f -> f + count <= bl_blocks bl -> none_in F f count ->
  exists bl', blist_free bl f count = Done bl' /\ bl_blocks bl' = bl_blocks bl /\
    blist_ok bl' (set_range F f count).
Proof.
  intros (L & HL & Hr & Hs & Hb & Hnd & Hout & Hf) Hc Hf0 He Hno. unfold blist_free. rewrite Hr, Hs, rdx_32.
  destruct (tree_free_spec L MAX_DEPTH (bl_root bl) 0 0 (bl_blocks bl) F f count)
    as (mem' & Hrun & _ & Hnd'); try done; [unfold MAX_DEPTH; lia |].
  assert ((if match L with O => true | S _ => false end then blst_leaf_free (bl_root bl) 0 f count
    else blst_meta_free MAX_DEPTH (bl_root bl) 0 f count (rdx L) (skp L) 0) = Done mem') as ->
    by (by destruct L).
  rewrite bind_Done_l. eexists. split; [reflexivity |]. split; [done |].
  exists L. do 4 (split; [done |]). split; [done |]. split.
  { intros j Hj. rewrite set_range_out by (cbn in Hj; lia). by apply Hout. }
  cbn [bl_free with_root bl_blocks]. pose proof (cnt_managed bl (set_range F f count) L Hb HL).
  rewrite cnt_set in * by (done || lia). rewrite Hf. apply s32_id. unfold_int. lia.
Qed.

Lemma fill_ok bl F f count :
  blist_ok bl F -> 1 <= count <= 32 -> 0 <= f -> f + count <= bl_blocks bl ->
  exists bl', blist_fill bl f count = Done (bl', cnt F f count) /\ bl_blocks bl' = bl_blocks bl /\
    blist_ok bl' (clear_range F f count).
Proof.
  intros (L & HL & Hr & Hs & Hb & Hnd & Hout & Hf) Hc Hf0 He. unfold blist_fill. rewrite Hr, Hs, rdx_32.
  destruct (tree_fill_spec L MAX_DEPTH (bl_root bl) 0 0 (bl_blocks bl) F f count)
    as (mem' & Hrun & _ & Hnd'); try done; [unfold MAX_DEPTH; lia |].
  assert ((if match L with O => true | S _ => false end then blst_leaf_fill (bl_root bl) 0 f count
    else blst_meta_fill MAX_DEPTH (bl_root bl) 0 f count (rdx L) (skp L) 0) = Done (mem', cnt F f count)) as ->
    by (by destruct L).
  rewrite bind_Done_l. eexists. split; [reflexivity |]. split; [done |].
  exists L. do 4 (split; [done |]). split; [done |]. split.
  { intros j Hj. unfold clear_range. rewrite Hout by (cbn in Hj; lia). done. }
  cbn [bl_free with_root bl_blocks]. pose proof (cnt_managed bl (clear_range F f count) L Hb HL).
  rewrite cnt_clear in * by lia. rewrite Hf. apply s32_id. unfold_int. lia.
Qed.

(** ** Resizing *)

(** [G] and the part of [F] inside [blk, blk + count). *)
Definition merged (G F : Z -> bool) (blk count : Z) : Z -> bool :=
  fun j => G j || (F j && inr blk count j).

Lemma merged_none G F blk count : none_in F blk count -> pointwise_relation Z eq G (merged G F blk count).
Proof.
  intros Hn j. unfold merged. destruct (inr blk count j) eqn:E.
  - apply inr_spec in E. rewrite Hn by done. by rewrite orb_false_r.
  - by rewrite andb_false_r, orb_false_r.
Qed.

Lemma merged_all G F blk count :
  all_in F blk count -> pointwise_relation Z eq (set_range G blk count) (merged G F blk count).
Proof.
  intros Hn j. unfold merged, set_range. destruct (inr blk count j) eqn:E.
  - apply inr_spec in E. rewrite Hn by done. done.
  - by rewrite andb_false_r.
Qed.

Lemma merged_split G F blk c d :
  0 <= c -> 0 <= d ->
  pointwise_relation Z eq (merged (merged G F blk c) F (blk + c) d) (merged G F blk (c + d)).
Proof.
  intros ? ? j. unfold merged, inr. destruct (G j), (F j); simpl; try done.
  destruct (Z.leb_spec blk j), (Z.ltb_spec j (blk + c)), (Z.leb_spec (blk + c) j), (Z.ltb_spec j (blk + c + d)),
    (Z.ltb_spec j (blk + (c + d))); simpl; done || lia.
Qed.

Lemma merged_out G F blk c a d :
  blk + c <= a -> none_in G a d -> none_in (merged G F blk c) a d.
Proof.
  intros Ha Hn j Hj. unfold merged. rewrite Hn, (proj2 (inr_false _ _ _)) by lia.
  by rewrite andb_false_r.
Qed.

(** [dest] becomes a tree of the same size for [G]. *)
Definition becomes (dest dest' : blist) (G : Z -> bool) : Prop :=
  bl_blocks dest' = bl_blocks dest /\ blist_ok dest' G.

Lemma free_becomes dest G F f count :
  blist_ok dest G -> 1 <= count -> 0 <= f -> f + count <= bl_blocks dest -> none_in G f count ->
  all_in F f count ->
  exists dest', blist_free dest f count = Done dest' /\ becomes dest dest' (merged G F f count).
Proof.
  intros Hok Hc Hf He Hno Hall. destruct (free_ok dest G f count) as (dest' & -> & Hb & Hok'); try done.
  exists dest'. split; [done |]. split; [done |]. by rewrite <- merged_all.
Qed.

Lemma copy_bits_spec fuel v blk i count dest G F :
  blist_ok dest G -> 0 <= blk -> 0 <= i <= count -> count <= 32 -> blk + count <= bl_blocks dest ->
  count - i <= Z.of_nat fuel -> none_in G (blk + i) (count - i) ->
  (forall j, 0 <= j < 32 -> Z.testbit v j = F (blk + j)) ->
  exists dest', copy_bits fuel v blk i count dest = Done dest' /\
    becomes dest dest' (merged G F (blk + i) (count - i)).
Proof.
  revert i dest G. induction fuel as [| fuel IH]; intros i dest G Hok Hblk Hi Hc He Hfu Hno Hv;
    cbn [copy_bits]; unfold BLIST_BMAP_RADIX;
    (destruct (decide (i = count)) as [-> |];
     [rewrite (proj2 (Z.ltb_ge count count)), andb_false_r by lia; cbn [negb]; exists dest;
      split; [done |]; split; [done |]; rewrite <- merged_none; [done |]; intros j ?; lia |]).
  { lia. }
  rewrite !(proj2 (Z.ltb_lt _ _)) by lia. cbn [andb negb]. rewrite Hv by lia.
  assert (exists dest1, (if F (blk + i) then blist_free dest (blk + i) 1 else mret dest) = Done dest1 /\
    becomes dest dest1 (merged G F (blk + i) 1)) as (dest1 & -> & Hb1 & Hok1).
  { destruct (F (blk + i)) eqn:E.
    - apply free_becomes; try done; try lia.
      + intros j Hj. apply Hno. lia.
      + intros j Hj. by replace j with (blk + i) by lia.
    - exists dest. split; [done |]. split; [done |]. rewrite <- merged_none; [done |].
      intros j Hj. by replace j with (blk + i) by lia. }
  rewrite bind_Done_l.
  destruct (IH (i + 1) dest1 (merged G F (blk + i) 1)) as (dest' & -> & Hb' & Hok'); try done; try lia.
  { apply merged_out; [lia |]. intros j Hj. apply Hno. lia. }
  exists dest'. split; [done |]. split; [congruence |].
  replace (count - i) with (1 + (count - (i + 1))) by lia. rewrite <- merged_split by lia.
  by replace (blk + i + 1) with (blk + (i + 1)) by lia.
Qed.

Section CopyLoop.
Context (L : nat) (mem : list blmeta) (base blk n : Z) (F : Z -> bool).
Context (sub : Z -> Z -> blist -> Z -> outcome blist).
Hypothesis HL : (S L <= 6)%nat.
Hypothesis Hblk : 0 <= blk.
Hypothesis Hsk : skeleton L mem base n.
Hypothesis Hsub : forall k dest G c, 0 <= k < 16 -> k * rdx L < n -> blist_ok dest G ->
  1 <= c <= cn n L k -> cblk blk L k + c <= bl_blocks dest -> none_in G (cblk blk L k) c ->
  exists dest', sub (cb base L k) (cblk blk L k) dest c = Done dest' /\
    becomes dest dest' (merged G F (cblk blk L k) c).

Lemma copy_loop_spec fuel k dest G c :
  blist_ok dest G -> 0 <= k <= 16 -> 16 - k <= Z.of_nat fuel ->
  0 <= c -> k * rdx L + c <= Z.min n (rdx (S L)) -> cblk blk L k + c <= bl_blocks dest ->
  none_in G (cblk blk L k) c ->
  exists dest', copy_loop sub fuel mem base (rdx L) (skp (S L)) (skp L + 1)
      (1 + k * (skp L + 1)) (cblk blk L k) c dest = Done dest' /\
    becomes dest dest' (merged G F (cblk blk L k) c).
Proof.
  revert k dest G c. induction fuel as [| fuel IH]; intros k dest G c Hok Hk Hfu Hc Hn He Hno;
    cbn [copy_loop]; pose proof (skp_nonneg L); pose proof (rdx_pos L); pose proof (rdx_S L);
    (destruct (Z.eqb_spec c 0) as [-> |]; cbn [negb andb];
     [exists dest; split; [done |]; split; [done |]; rewrite <- merged_none; [done |]; intros j ?; lia |]).
  { nia. }
  assert (0 <= k < 16) as Hk16 by nia. assert (k * rdx L < n) as Hkn by lia.
  rewrite (proj2 (Z.leb_le _ _)) by (rewrite skp_S; nia). cbn [negb].
  replace (base + (1 + k * (skp L + 1))) with (cb base L k) by (unfold cb; lia).
  replace (1 + k * (skp L + 1) + (skp L + 1)) with (1 + (k + 1) * (skp L + 1)) by lia.
  destruct (Hsk k Hk16) as [Hsh _]. destruct (shape_head _ _ _ _ (Hsh Hkn)) as (m & -> & Hl).
  rewrite bind_Done_l, (proj2 (Z.eqb_neq _ _)) by (destruct Hl; lia). rewrite !rdx_s32 by lia.
  set (v := Z.min (rdx L) c).
  replace (if rdx L <=? c then rdx L else c) with v by (unfold v; destruct (Z.leb_spec (rdx L) c); lia).
  replace (if rdx L <=? c then c - rdx L else 0) with (c - v)
    by (unfold v; destruct (Z.leb_spec (rdx L) c); lia).
  destruct (Hsub k dest G v) as (dest1 & -> & Hb1 & Hok1); try done; try lia.
  { unfold cn. lia. }
  { intros j Hj. apply Hno. lia. }
  rewrite bind_Done_l.
  replace (cblk blk L k + rdx L) with (cblk blk L (k + 1)) by (unfold cblk; lia).
  destruct (decide (c - v = 0)) as [Ez | Ez].
  - rewrite Ez. exists dest1. split; [destruct fuel; done |].
    split; [done |]. by replace c with v by lia.
  - assert (cblk blk L (k + 1) = cblk blk L k + v) as Ecb by (unfold cblk in *; lia).
    destruct (IH (k + 1) dest1 (merged G F (cblk blk L k) v) (c - v)) as (dest' & -> & Hb' & Hok');
      try done; try lia.
    { apply merged_out; [lia |]. intros j Hj. apply Hno. lia. }
    exists dest'. split; [done |]. split; [congruence |]. rewrite Ecb in Hok'.
    rewrite merged_split in Hok' by lia. by replace (v + (c - v)) with c in Hok' by lia.
Qed.

End CopyLoop.

Lemma blst_copy_spec L depth mem base blk n F dest G count :
  (L <= 6)%nat -> (L <= depth)%nat -> 0 <= base -> 0 <= blk -> 0 < n <= rdx L ->
  node L mem base blk n F -> blist_ok dest G -> 1 <= count <= n -> blk + count <= bl_blocks dest ->
  none_in G blk count ->
  exists dest', blst_copy depth mem base blk (rdx L) (skp L) dest count = Done dest' /\
    becomes dest dest' (merged G F blk count).
Proof.
  revert depth base blk n dest G count. induction L as [| L IH];
    intros depth base blk n dest G count HL Hd Hb Hblk Hn Hnd Hok Hc He Hno.
  - destruct Hnd as (_ & (m & Hm & Hu & _ & Hbits & _) & _).
    assert (blst_copy depth mem base blk (rdx 0) (skp 0) dest count =
      (if bm_u m =? u_m1 then blist_free dest blk count
       else if negb (bm_u m =? 0) then copy_bits 32 (bm_u m) blk 0 count dest else mret dest)) as ->
      by (destruct depth; cbn [blst_copy]; rewrite Hm, bind_Done_l; done).
    change (rdx 0) with 32 in *. destruct (Z.eqb_spec (bm_u m) u_m1) as [E | E].
    + apply free_becomes; try done; try lia. intros j Hj. replace j with (blk + (j - blk)) by lia.
      rewrite <- Hbits, E by lia. change u_m1 with (Z.ones 32). apply Z.ones_spec_low. lia.
    + destruct (Z.eqb_spec (bm_u m) 0) as [E0 | E0]; cbn [negb].
      * exists dest. split; [done |]. split; [done |]. rewrite <- merged_none; [done |].
        intros j Hj. replace j with (blk + (j - blk)) by lia. rewrite <- Hbits, E0 by lia. apply Z.bits_0.
      * destruct (copy_bits_spec 32 (bm_u m) blk 0 count dest G F) as (dest' & -> & Hbe); try done; try lia.
        { by rewrite Z.add_0_r, Z.sub_0_r. }
        exists dest'. split; [done |]. by rewrite Z.add_0_r, Z.sub_0_r in Hbe.
  - pose proof (rdx_pos (S L)). destruct depth as [| depth]; [lia |].
    destruct (node_inv _ _ _ _ _ _ Hnd) as (m & Hm & Hl & Ha & Hh & Hs & Hcol & Ht).
    cbn [blst_copy]. rewrite Hm, bind_Done_l, rdx_32. cbv iota.
    destruct (Z.eqb_spec (bmu_avail m) 0) as [E0 | E0].
    { assert (none_in F blk (rdx (S L))) as Hnone by (apply cnt_none; [lia | by rewrite <- Ha]).
      exists dest. split; [done |]. split; [done |]. rewrite <- merged_none; [done |].
      intros j Hj. apply Hnone. lia. }
    destruct (Z.eqb_spec (bmu_avail m) (rdx (S L))) as [E1 | E1].
    { assert (all_in F blk (rdx (S L))) as Hall by (apply cnt_all; [lia | by rewrite <- Ha]).
      assert (all_in F blk count) as Hall' by (intros j Hj; apply Hall; lia).
      rewrite rdx_s32 by done. destruct (Z.ltb_spec count (rdx (S L))).
      - by apply free_becomes; try lia.
      - replace (rdx (S L)) with count by lia. by apply free_becomes; try lia. }
    cbv zeta. rewrite rdx_div, skp_div. replace (skp L + 1 - 1) with (skp L) by lia.
    assert (forest L mem base blk n F) as Hf.
    { eapply not_collapsed; [by rewrite <- Ha | by rewrite <- Ha | done]. }
    destruct (copy_loop_spec L mem base blk n F
      (fun scan' blk' dest n => blst_copy depth mem scan' blk' (rdx L) (skp L) dest n) HL Hs)
      with (fuel := 16%nat) (k := 0) (dest := dest) (G := G) (c := count)
      as (dest' & Hrun & Hbe); try done; try lia.
    + intros k dest0 G0 c Hk Hkn Hok0 Hc0 He0 Hno0. pose proof (rdx_pos L).
      destruct (cb_range base L k Hk). apply (IH _ _ _ (cn n L k)); try done; try lia.
      * unfold cblk. nia.
      * unfold cn. lia.
      * apply node_child; try done. lia.
    + unfold cblk. lia.
    + unfold cblk. by rewrite Z.mul_0_l, Z.add_0_r.
    + unfold cblk in Hrun, Hbe. rewrite !Z.mul_0_l, !Z.add_0_r in Hrun.
      rewrite Z.mul_0_l, Z.add_0_r in Hbe. by exists dest'.
Qed.

(** ** The properties *)

(** For 1 to 2^29 blocks blist_create succeeds whatever the memory
    kmalloc returns holds, as long as it is as large as asked: the size
    computed by the dry run of blst_radix_init is enough for the real run,
    and the result is a well-formed tree with every block allocated. *)
Theorem blist_create_correct garbage blocks :
  0 < blocks <= 2 ^ 29 -> (forall n, 0 <= n -> zlen (garbage n) = n) ->
  exists bl, blist_create garbage blocks = Done bl /\ bl_blocks bl = blocks /\
    zlen (bl_root bl) = bl_rootblks bl /\ blist_ok bl (fun _ => false).
Proof. apply create_ok. Qed.

Lemma junk_length n : 0 <= n -> zlen (junk n) = n.
Proof. intros. unfold zlen, junk. rewrite length_replicate. lia. Qed.

Lemma blist_create_correct_witness :
  exists bl, blist_create junk 1000 = Done bl /\ bl_blocks bl = 1000 /\
    zlen (bl_root bl) = bl_rootblks bl /\ blist_ok bl (fun _ => false).
Proof. apply blist_create_correct; [lia | exact junk_length]. Defined.

(** C21: blist_alloc and blist_allocat of 1 to 32 blocks never fault or panic.
    They return blocks that were all free, lie inside one leaf, in the managed
    range and not in a leaf before the requested block, and only those blocks
    leave the free set; or they return SWAPBLK_NONE, the free set is as before
    and no run of free blocks at or after the requested one would have fit. *)
Theorem blist_alloc_correct bl F count blkat :
  blist_ok bl F -> 1 <= count <= 32 ->
  blist_alloc bl count = blist_allocat bl count 0 /\
  exists bl' r, blist_allocat bl count blkat = Done (bl', r) /\ bl_blocks bl' = bl_blocks bl /\
    ((r = SWAPBLK_NONE /\ blist_ok bl' F /\ fails F blkat 0 (bl_blocks bl) count) \/
     (0 <= r /\ r + count <= bl_blocks bl /\ all_in F r count /\
      r / 32 = (r + count - 1) / 32 /\
      (blkat < bl_radix bl -> blkat < r / 32 * 32 + 32) /\
      blist_ok bl' (clear_range F r count))).
Proof. intros. split; [done |]. by apply allocat_ok. Qed.

(** C30: blist_free of any allocated range of managed blocks, however many
    leaves and subtrees it spans, succeeds and adds exactly that range to the
    free set. *)
Theorem blist_free_correct bl F f count :
  blist_ok bl F -> 1 <= count -> 0 <= f -> f + count <= bl_blocks bl -> none_in F f count ->
  exists bl', blist_free bl f count = Done bl' /\ bl_blocks bl' = bl_blocks bl /\
    blist_ok bl' (set_range F f count).
Proof. apply free_ok. Qed.

(** blist_fill of up to 32 managed blocks, free or not and across leaf
    boundaries or not, takes them out of the free set and returns how many of
    them were free. *)
Theorem blist_fill_correct bl F f count :
  blist_ok bl F -> 1 <= count <= 32 -> 0 <= f -> f + count <= bl_blocks bl ->
  exists bl', blist_fill bl f count = Done (bl', cnt F f count) /\ bl_blocks bl' = bl_blocks bl /\
    blist_ok bl' (clear_range F f count).
Proof. apply fill_ok. Qed.

(** The set after a resize from [old] to [new] blocks. *)
Definition resized (F : Z -> bool) (old new : Z) (freenew : bool) : Z -> bool :=
  fun j => (F j && inr 0 (Z.min old new) j) || (freenew && inr (Z.min old new) (new - Z.min old new) j).

(** blist_resize keeps the state of every block that both trees manage;
    the blocks the new tree adds are free exactly when freenew was given. *)
Theorem blist_resize_correct garbage bl F new freenew :
  blist_ok bl F -> 0 < new <= 2 ^ 29 -> (forall n, 0 <= n -> zlen (garbage n) = n) ->
  exists bl', blist_resize garbage bl new freenew = Done bl' /\ bl_blocks bl' = new /\
    blist_ok bl' (resized F (bl_blocks bl) new freenew).
Proof.
  intros (L & HL & Hr & Hs & Hb & Hnd & Hout & Hf) Hnew Hg. unfold blist_resize.
  destruct (create_ok garbage new Hnew Hg) as (nb & -> & Hnb & _ & Hok). rewrite bind_Done_l.
  replace (if bl_blocks bl <? new then bl_blocks bl else new) with (Z.min (bl_blocks bl) new)
    by (destruct (Z.ltb_spec (bl_blocks bl) new); lia).
  set (c := Z.min (bl_blocks bl) new). rewrite Hr, Hs. cbv zeta.
  destruct (blst_copy_spec L MAX_DEPTH (bl_root bl) 0 0 (bl_blocks bl) F nb (fun _ => false) c)
    as (nb1 & -> & Hb1 & Hok1); try done; try lia; [unfold MAX_DEPTH; lia |].
  rewrite bind_Done_l, Hb1, Hnb. unfold resized. fold c.
  assert (pointwise_relation Z eq (merged (fun _ => false) F 0 c) (fun j => F j && inr 0 c j)) as Em
    by done.
  destruct freenew; cbn [andb]; [destruct (Z.ltb_spec c new) |].
  - destruct (free_ok nb1 (merged (fun _ => false) F 0 c) c (new - c)) as (nb2 & -> & Hb2 & Hok2);
      try done; try lia.
    { intros j Hj. unfold merged. rewrite (proj2 (inr_false _ _ _)) by lia. by rewrite andb_false_r. }
    exists nb2. split; [done |]. split; [congruence |]. done.
  - exists nb1. split; [done |]. split; [congruence |]. eapply blist_ok_proper; [| exact Hok1].
    intros j. unfold merged. rewrite (proj2 (inr_false c (new - c) j)) by lia. apply orb_false_r.
  - exists nb1. split; [done |]. split; [congruence |]. eapply blist_ok_proper; [| exact Hok1].
    intros j. apply orb_false_r.
Qed.

(** blist_fill of 33 blocks of a free 1000-block list panics, although
    its comment promises to mark any region: blst_meta_fill compares the size
    with the radix of a child instead of the radix of the node. *)
Theorem blist_fill_large_panics :
  (bl ← blist_create junk 1000; bl ← blist_free bl 0 1000; blist_fill bl 0 33)
  = Fault (Panic "blst_meta_fill: allocation too large").
Proof. vm_compute. reflexivity. Qed.

(** ** Clients *)

(** A client allocates [count] blocks at or after [blkat], or frees the [i]-th extent it
    holds; for an extent that it does not hold it makes no call. *)
Inductive request := Get (count blkat : Z) | Put (i : nat).

Definition serve (bl : blist) (held : list (Z * Z)) (q : request) : outcome (blist * list (Z * Z)) :=
  match q with
  | Get count blkat =>
      '(bl, r) ← blist_allocat bl count blkat;
      mret (bl, if r =? SWAPBLK_NONE then held else (r, count) :: held)
  | Put i =>
      match held !! i with
      | Some (r, c) => bl ← blist_free bl r c; mret (bl, delete i held)
      | None => mret (bl, held)
      end
  end.

(** Allocations are of 1 to BLIST_BMAP_RADIX = 32 blocks; blst_meta_alloc panics for more. *)
Definition get_small (q : request) : Prop := match q with Get count _ => 1 <= count <= 32 | Put _ => True end.

Fixpoint serve_all (bl : blist) (held : list (Z * Z)) (qs : list request)
    : outcome (blist * list (Z * Z)) :=
  match qs with
  | [] => mret (bl, held)
  | q :: qs => '(bl, held) ← serve bl held q; serve_all bl held qs
  end.

(** How many of the held extents contain block [j]. *)
Fixpoint owners (j : Z) (held : list (Z * Z)) : Z :=
  match held with
  | [] => 0
  | (r, c) :: held => (if inr r c j then 1 else 0) + owners j held
  end.

Lemma owners_delete j held i r c :
  held !! i = Some (r, c) -> owners j held = (if inr r c j then 1 else 0) + owners j (delete i held).
Proof.
  revert i. induction held as [| [r' c'] held IH]; intros [| i] H; simplify_eq/=; [done |].
  rewrite (IH i) by done. lia.
Qed.

Lemma owners_nonneg j held : 0 <= owners j held.
Proof. induction held as [| [r c] held IH]; simpl; [lia |]. destruct (inr r c j); lia. Qed.

(** Every managed block is free or has exactly one owner. *)
Definition accounted (blocks : Z) (F : Z -> bool) (held : list (Z * Z)) : Prop :=
  (forall j, (if F j then 1 else 0) + owners j held = if inr 0 blocks j then 1 else 0) /\
  Forall (fun '(r, c) => 1 <= c /\ 0 <= r /\ r + c <= blocks) held.

Lemma serve_ok bl F held q :
  get_small q -> blist_ok bl F -> accounted (bl_blocks bl) F held ->
  exists bl' held' F', serve bl held q = Done (bl', held') /\ bl_blocks bl' = bl_blocks bl /\
    blist_ok bl' F' /\ accounted (bl_blocks bl) F' held'.
Proof.
  intros Hq Hok [Hacc Hall]. destruct q as [count blkat | i]; simpl in *.
  - destruct (allocat_ok bl F count blkat Hok) as (bl' & r & -> & Hb & Hr); [lia |].
    rewrite bind_Done_l. destruct Hr as [(-> & Hok' & _) | (H1 & H2 & Hin & _ & _ & Hok')].
    { rewrite Z.eqb_refl. by exists bl', held, F. }
    rewrite (proj2 (Z.eqb_neq _ _)) by (unfold SWAPBLK_NONE; lia).
    exists bl', ((r, count) :: held), (clear_range F r count). do 3 (split; [done |]). split.
    + intros j. specialize (Hacc j). simpl. destruct (inr r count j) eqn:E.
      * apply inr_spec in E. rewrite clear_range_in, Hin in * by lia. lia.
      * apply inr_false in E. rewrite clear_range_out by lia. lia.
    + constructor; [lia | done].
  - destruct (held !! i) as [[r c] |] eqn:Hi; [| by exists bl, held, F].
    destruct (Forall_lookup_1 _ _ _ _ Hall Hi) as (Hc & Hr0 & Hrc).
    assert (none_in F r c) as Hno.
    { intros j Hj. specialize (Hacc j). rewrite (owners_delete j held i r c Hi) in Hacc.
      rewrite (proj2 (inr_spec r c j)) in Hacc by lia. pose proof (owners_nonneg j (delete i held)).
      destruct (F j); [destruct (inr 0 (bl_blocks bl) j); lia | done]. }
    destruct (free_ok bl F r c) as (bl' & -> & Hb & Hok'); try done. rewrite bind_Done_l.
    exists bl', (delete i held), (set_range F r c). do 3 (split; [done |]). split.
    + intros j. specialize (Hacc j). rewrite (owners_delete j held i r c Hi) in Hacc.
      destruct (inr r c j) eqn:E.
      * apply inr_spec in E. rewrite set_range_in by lia. rewrite Hno in Hacc by lia. lia.
      * apply inr_false in E. rewrite set_range_out by lia. lia.
    + by apply Forall_delete.
Qed.

Lemma serve_all_ok qs bl F held :
  Forall get_small qs -> blist_ok bl F -> accounted (bl_blocks bl) F held ->
  exists bl' held' F', serve_all bl held qs = Done (bl', held') /\ bl_blocks bl' = bl_blocks bl /\
    blist_ok bl' F' /\ accounted (bl_blocks bl) F' held'.
Proof.
  revert bl F held. induction qs as [| q qs IH]; intros bl F held Hqs Hok Hacc; simpl.
  { by exists bl, held, F. }
  inversion Hqs as [| ? ? Hq Hqs']; subst. destruct (serve_ok bl F held q Hq Hok Hacc) as (bl1 & held1 & F1 & -> & Hb1 & Hok1 & Hacc1).
  rewrite bind_Done_l. rewrite <- Hb1 in Hacc1.
  destruct (IH bl1 F1 held1 Hqs' Hok1 Hacc1) as (bl' & held' & F' & -> & Hb' & Hok' & Hacc').
  exists bl', held', F'. rewrite Hb1 in *. done.
Qed.

(** C3: A list of at most 2^29 blocks, with all blocks free at the start.  Whatever
    sequence of allocations of 1 to 32 blocks and of frees of what it holds a client
    makes, no call panics or faults, no block is handed out twice or outside the
    managed range, and the free count is exactly the number of blocks nobody holds.
    (An allocation of more than 32 blocks panics, "allocation too large".) *)
Theorem blist_client_safe garbage blocks qs :
  0 < blocks <= 2 ^ 29 -> (forall n, 0 <= n -> zlen (garbage n) = n) -> Forall get_small qs ->
  exists bl held,
    (bl ← blist_create garbage blocks; bl ← blist_free bl 0 blocks; serve_all bl [] qs)
      = Done (bl, held) /\
    (forall j, owners j held <= (if inr 0 blocks j then 1 else 0)) /\
    bl_free bl = cnt (fun j => owners j held =? 0) 0 blocks.
Proof.
  intros Hb Hg Hqs. destruct (create_ok garbage blocks Hb Hg) as (bl0 & -> & Hb0 & _ & Hok0).
  rewrite bind_Done_l. destruct (free_ok bl0 (fun _ => false) 0 blocks) as (bl1 & -> & Hb1 & Hok1); try done; try lia.
  rewrite bind_Done_l.
  destruct (serve_all_ok qs bl1 (set_range (fun _ => false) 0 blocks) []) as (bl & held & F & -> & Hb2 & Hok & Hacc & _);
    [done | done | |].
  { split; [| done]. intros j. simpl. rewrite Hb1, Hb0. unfold set_range. simpl. destruct (inr 0 blocks j); lia. }
  rewrite Hb1, Hb0 in Hacc. exists bl, held. split; [done |]. split.
  { intros j. specialize (Hacc j). destruct (F j); lia. }
  destruct Hok as (L & _ & _ & _ & _ & _ & _ & ->). rewrite Hb2, Hb1, Hb0. apply cnt_ext.
  intros j Hj. specialize (Hacc j). rewrite (proj2 (inr_spec 0 blocks j)) in Hacc by lia.
  destruct (F j), (Z.eqb_spec (owners j held) 0); done || lia.
Qed.

Lemma blist_client_safe_witness :
  exists bl held,
    (bl ← blist_create junk 1000; bl ← blist_free bl 0 1000; serve_all bl [] [Get 20 0; Get 20 0; Put 1; Get 32 700])
      = Done (bl, held) /\
    (forall j, owners j held <= (if inr 0 1000 j then 1 else 0)) /\
    bl_free bl = cnt (fun j => owners j held =? 0) 0 1000.
Proof. apply (blist_client_safe junk 1000); [lia | exact junk_length | repeat constructor; lia]. Defined.

(** *** Witnesses *)

Lemma empty_1000 : exists bl, blist_create junk 1000 = Done bl /\ bl_blocks bl = 1000 /\
  blist_ok bl (fun _ => false).
Proof.
  destruct (create_ok junk 1000) as (bl & H1 & H2 & _ & H3); [lia | exact junk_length |].
  exists bl. exact (conj H1 (conj H2 H3)).
Qed.

Lemma blist_alloc_correct_witness :
  exists bl, blist_create junk 1000 = Done bl /\
  exists bl' r, blist_allocat bl 20 500 = Done (bl', r) /\ bl_blocks bl' = bl_blocks bl /\
    ((r = SWAPBLK_NONE /\ blist_ok bl' (fun _ => false) /\ fails (fun _ => false) 500 0 (bl_blocks bl) 20) \/
     (0 <= r /\ r + 20 <= bl_blocks bl /\ all_in (fun _ => false) r 20 /\
      r / 32 = (r + 20 - 1) / 32 /\
      (500 < bl_radix bl -> 500 < r / 32 * 32 + 32) /\
      blist_ok bl' (clear_range (fun _ => false) r 20))).
Proof.
  destruct empty_1000 as (bl & Hc & _ & Hok). exists bl. split; [exact Hc |].
  apply (blist_alloc_correct bl (fun _ => false) 20 500 Hok). lia.
Defined.

Lemma blist_free_correct_witness :
  exists bl bl', blist_create junk 1000 = Done bl /\ blist_free bl 30 500 = Done bl' /\
    blist_ok bl' (set_range (fun _ => false) 30 500).
Proof.
  destruct empty_1000 as (bl & Hc & Hb & Hok).
  destruct (blist_free_correct bl (fun _ => false) 30 500 Hok) as (bl' & Hf & _ & Hok');
    [lia | lia | rewrite Hb; lia | intros j _; reflexivity |].
  exists bl, bl'. exact (conj Hc (conj Hf Hok')).
Defined.

Lemma blist_fill_correct_witness :
  exists bl bl', blist_create junk 1000 = Done bl /\ blist_fill bl 30 20 = Done (bl', 0) /\
    blist_ok bl' (clear_range (fun _ => false) 30 20).
Proof.
  destruct empty_1000 as (bl & Hc & Hb & Hok).
  destruct (blist_fill_correct bl (fun _ => false) 30 20 Hok) as (bl' & Hf & _ & Hok');
    [lia | lia | rewrite Hb; lia |].
  exists bl, bl'. exact (conj Hc (conj Hf Hok')).
Defined.

Lemma blist_resize_correct_witness :
  exists bl bl', blist_create junk 1000 = Done bl /\ blist_resize junk bl 600 true = Done bl' /\
    bl_blocks bl' = 600.
Proof.
  destruct empty_1000 as (bl & Hc & Hb & Hok).
  destruct (blist_resize_correct junk bl (fun _ => false) 600 true Hok) as (bl' & Hf & Hb' & _);
    [lia | exact junk_length |].
  exists bl, bl'. exact (conj Hc (conj Hf Hb')).
Defined.
