(* ===== verification/Sums.v ===== *)
(** * Sums over lists, as the models of locks use them for what the threads hold *)

From stdpp Require Import prelude list.
From S2P Require Import Prelude.
Open Scope Z_scope.

Definition b2z (b : bool) : Z := if b then 1 else 0.

Lemma b2z_bounds b : 0 <= b2z b <= 1.
Proof. destruct b; simpl; lia. Qed.

Fixpoint sumf {A} (f : A -> Z) (l : list A) : Z :=
  match l with [] => 0 | a :: l => f a + sumf f l end.

Lemma sumf_insert {A} (f : A -> Z) l i a b :
  l !! i = Some a -> sumf f (<[i := b]> l) = sumf f l - f a + f b.
Proof.
  revert i. induction l as [| c l IH]; intros [| i] H; simplify_eq/=; [lia |].
  rewrite IH by done. lia.
Qed.

Lemma sumf_nonneg {A} (f : A -> Z) l : (forall a, a ∈ l -> 0 <= f a) -> 0 <= sumf f l.
Proof.
  induction l as [| a l IH]; intros H; simpl; [lia |].
  pose proof (H a ltac:(by left)). assert (0 <= sumf f l); [apply IH; intros; apply H; by right | lia].
Qed.

Lemma sumf_ge {A} (f : A -> Z) l i a :
  (forall a, a ∈ l -> 0 <= f a) -> l !! i = Some a -> f a <= sumf f l.
Proof.
  intros Hf Hi. pose proof (sumf_nonneg f (<[i := a]> l)) as H.
  revert i Hi H. induction l as [| c l IH]; intros [| i] Hi _; simplify_eq/=.
  - assert (0 <= sumf f l); [apply sumf_nonneg; intros; apply Hf; by right | lia].
  - assert (f a <= sumf f l).
    { apply (IH ltac:(intros; apply Hf; by right) i Hi). intros. apply sumf_nonneg. done. }
    pose proof (Hf c ltac:(by left)). lia.
Qed.

Lemma sumf_two {A} (f : A -> Z) l i j a b :
  (forall a, a ∈ l -> 0 <= f a) -> i <> j -> l !! i = Some a -> l !! j = Some b -> f a + f b <= sumf f l.
Proof.
  revert i j. induction l as [| c l IH]; intros [| i] [| j] Hf Hne Hi Hj; simplify_eq/=; try done.
  - assert (f b <= sumf f l); [| lia]. eapply sumf_ge; [| done]. intros; apply Hf; by right.
  - assert (f a <= sumf f l); [| lia]. eapply sumf_ge; [| done]. intros; apply Hf; by right.
  - pose proof (Hf c ltac:(by left)). assert (f a + f b <= sumf f l); [| lia].
    apply (IH i j); try done; [intros; apply Hf; by right | congruence].
Qed.

Lemma sumf_pos {A} (f : A -> Z) l :
  0 < sumf f l -> exists i a, l !! i = Some a /\ 0 < f a.
Proof.
  induction l as [| a l IH]; simpl; [lia |]. intros H. destruct (Z.lt_ge_cases 0 (f a)).
  - by exists 0%nat, a.
  - destruct IH as (i & b & Hi & Hb); [lia |]. by exists (S i), b.
Qed.
