(* ===== verification/Mutex.v ===== *)
(** * The kernel mutex: sys/kern/kern_mutex.c and sys/sys/mutex2.h

    A recursive shared/exclusive lock kept in one 32-bit word, with a ring of
    exclusive waiters protected by a bit of that word.  Every read, write or
    compare-and-set of shared memory is one step of a thread, so that the
    theorems are about every interleaving of any number of threads. *)

From stdpp Require Import prelude list strings.
From S2P Require Import Prelude.
Open Scope Z_scope.

Definition MTX_EXCLUSIVE : Z := 0x80000000.
Definition MTX_SHWANTED : Z := 0x40000000.
Definition MTX_EXWANTED : Z := 0x20000000.
Definition MTX_EXLINK : Z := 0x10000000.
Definition MTX_MASK : Z := 0x0FFFFFFF.

Definition EAGAIN : Z := 35.
Definition EDEADLK : Z := 11.
Definition ENOLCK : Z := 77.

(** link->state *)
Inductive lstate := LINK_IDLE | LINK_ABORTED | LINK_LINKED | LINK_ACQUIRED.

#[export] Instance lstate_eq_dec : EqDecision lstate.
Proof. solve_decision. Defined.

(** struct mtx.  The ring of links is kept as the list of its links from
    mtx_link on; a thread is known by its number, and so is the one link
    structure it passes. *)
Record mtx := Mtx {
  mtx_lock : Z;
  mtx_owner : option nat;
  mtx_link : list nat
}.

Definition set_lock (m : mtx) (v : Z) : mtx := Mtx v (mtx_owner m) (mtx_link m).
Definition set_owner (m : mtx) (o : option nat) : mtx := Mtx (mtx_lock m) o (mtx_link m).
Definition set_ring (m : mtx) (q : list nat) : mtx := Mtx (mtx_lock m) (mtx_owner m) q.

(** mtx_init *)
Definition mtx_init : mtx := Mtx 0 None [].

(** atomic_cmpset_int and atomic_clear_int on mtx_lock *)
Definition cmpset (m : mtx) (old new : Z) : option mtx :=
  if mtx_lock m =? old then Some (set_lock m new) else None.
Definition atomic_clear (m : mtx) (bits : Z) : mtx := set_lock m (Z.ldiff (mtx_lock m) bits).

(** Linking at the end of the ring; taking a link out makes the next one the
    new start, wherever the link was. *)
Definition ring_insert (q : list nat) (l : nat) : list nat := q ++ [l].
Fixpoint ring_remove (a q : list nat) (l : nat) : list nat :=
  match q with
  | [] => a
  | x :: q => if decide (x = l) then q ++ a else ring_remove (a ++ [x]) q l
  end.

(** ** Threads *)

(** Which function wants the exclusive lock: mtx_lock_ex with a link of its
    own or of the caller, mtx_spinlock, mtx_lock_ex_try, mtx_spinlock_try. *)
Inductive kind := Block (own_link : bool) | Spin | Try | SpinTry.

(** Where a thread is, with the local variables it still needs. *)
Inductive pc :=
  | Idle
  (* the exclusive lock *)
  | ExFast (k : kind) | ExLoop (k : kind) | ExTest (k : kind) (lock : Z)
  | ExCas0 (k : kind) | ExOwner (k : kind) | ExRec (k : kind) (lock : Z) | SpOwner
  | ExLink (k : kind) (lock : Z) | ExLinking (k : kind)
  | ExAbort1 | ExAbort2 | ExAbort3
  | ExUnlink (k : kind) | ExSleep (k : kind) | ExWake (k : kind) (error : Z) | ExPost (k : kind) (error : Z)
  | DlLoop (k : kind) (error : Z) | DlCas (k : kind) (error lock : Z) | DlDel (k : kind) (error : Z)
  | DlClear (k : kind) (error : Z)
  (* the shared lock *)
  | ShFast (try : bool) | ShLoop (try : bool) | ShCas (try : bool) (lock : Z) | ShWant (lock : Z) | ShSleep
  (* upgrade and downgrade *)
  | UpFast | UpLoop | UpCas (lock : Z) | UpOwner | UpTest
  | DgFast | DgFast2 | DgLoop | DgTest (lock : Z) | DgCas (lock : Z)
  (* unlock *)
  | UnLoop | UnOwner (lock : Z) | UnCas (lock nlock : Z) | UnChain (lock nlock : Z)
  | ChStart | ChLoop (link : option nat) (clock : Z) | ChCas (link : option nat) (clock lock : Z) | ChOwner
  (* abort *)
  | AbLoop (l : nat) | AbCas (l : nat) (lock : Z) | AbDo (l : nat) | AbClear.

(** [t_ex] and [t_sh] count the exclusive and shared holds the thread has
    been given; [t_ret] is the last value a call returned; [t_leave] says
    that the unlock under way is part of mtx_spinunlock. *)
Record thr := Thr {
  t_pc : pc;
  t_ex : Z;
  t_sh : Z;
  t_link : lstate;
  t_crit : Z;
  t_spin : Z;
  t_leave : bool;
  t_ret : Z
}.

Definition at_pc (t : thr) (p : pc) : thr :=
  Thr p (t_ex t) (t_sh t) (t_link t) (t_crit t) (t_spin t) (t_leave t) (t_ret t).
Definition set_tlink (t : thr) (s : lstate) : thr :=
  Thr (t_pc t) (t_ex t) (t_sh t) s (t_crit t) (t_spin t) (t_leave t) (t_ret t).
Definition add_holds (t : thr) (ex sh : Z) : thr :=
  Thr (t_pc t) (t_ex t + ex) (t_sh t + sh) (t_link t) (t_crit t) (t_spin t) (t_leave t) (t_ret t).
Definition add_crit (t : thr) (d : Z) : thr :=
  Thr (t_pc t) (t_ex t) (t_sh t) (t_link t) (t_crit t + d) (t_spin t) (t_leave t) (t_ret t).
Definition add_spin (t : thr) (d : Z) : thr :=
  Thr (t_pc t) (t_ex t) (t_sh t) (t_link t) (t_crit t + d) (t_spin t + d) (t_leave t) (t_ret t).

(** Returning from the function the client called. *)
Definition finish (t : thr) (error : Z) : thr :=
  Thr Idle (t_ex t) (t_sh t) (t_link t)
    (if t_leave t then t_crit t - 1 else t_crit t)
    (if t_leave t then t_spin t - 1 else t_spin t) false error.

Record world := World { w_mtx : mtx; w_thr : list thr }.

(** What one step of one thread yields: the mutex and the thread. *)
Definition local := outcome (mtx * thr).

(** ** The exclusive lock *)

(** What each function does with a lock it can not take. *)
Definition lock_ex_contend (k : kind) (lock : Z) (m : mtx) (t : thr) : mtx * thr :=
  if btest lock MTX_EXLINK then (m, at_pc t (ExLoop k)) else (m, at_pc t (ExLink k lock)).
Definition spinlock_contend (m : mtx) (t : thr) : mtx * thr := (m, at_pc t (ExLoop Spin)).
Definition lock_ex_try_contend (m : mtx) (t : thr) : mtx * thr := (m, finish t EAGAIN).
Definition spinlock_try_contend (m : mtx) (t : thr) : mtx * thr :=
  (m, finish (add_spin t (-1)) EAGAIN).

Definition contend (k : kind) (lock : Z) (m : mtx) (t : thr) : local :=
  mret (match k with
        | Block _ => lock_ex_contend k lock m t
        | Spin => spinlock_contend m t
        | Try => lock_ex_try_contend m t
        | SpinTry => spinlock_try_contend m t
        end).

(** The inline part: mtx_lock_ex, mtx_spinlock and their variants. *)
Definition ex_fast (k : kind) (m : mtx) (t : thr) : local :=
  match cmpset m 0 (Z.lor MTX_EXCLUSIVE 1) with
  | Some m => mret (m, at_pc t (ExOwner (match k with Spin => Try | _ => k end)))
  | None =>
      mret (m, match k with
               | Block true => at_pc (set_tlink t LINK_IDLE) (ExLoop k)
               | _ => at_pc t (ExLoop k)
               end)
  end.

(** lock = mtx->mtx_lock; and the tests on it. *)
Definition ex_loop (k : kind) (m : mtx) (t : thr) : local :=
  let lock := mtx_lock m in
  if lock =? 0 then mret (m, at_pc t (ExCas0 k))
  else if btest lock MTX_EXCLUSIVE then mret (m, at_pc t (ExTest k lock))
  else contend k lock m t.

(** mtx->mtx_owner == curthread *)
Definition ex_test (me : nat) (k : kind) (lock : Z) (m : mtx) (t : thr) : local :=
  if decide (mtx_owner m = Some me) then
    _ ← KKASSERT "(lock & MTX_MASK) != MTX_MASK" (negb (Z.land lock MTX_MASK =? MTX_MASK));
    mret (m, at_pc t (ExRec k lock))
  else contend k lock m t.

Definition ex_cas0 (k : kind) (m : mtx) (t : thr) : local :=
  match cmpset m 0 (Z.lor MTX_EXCLUSIVE 1) with
  | Some m => mret (m, at_pc t (ExOwner k))
  | None => mret (m, at_pc t (ExLoop k))
  end.

(** After _mtx_spinlock returns mtx_spinlock sets the owner once more. *)
Definition ex_return (k : kind) (t : thr) : thr :=
  match k with Spin => at_pc t SpOwner | _ => finish t 0 end.

Definition ex_owner (me : nat) (k : kind) (m : mtx) (t : thr) : local :=
  mret (set_owner m (Some me), ex_return k (add_holds t 1 0)).

Definition ex_rec (k : kind) (lock : Z) (m : mtx) (t : thr) : local :=
  match cmpset m lock (u32 (lock + 1)) with
  | Some m => mret (m, ex_return k (add_holds t 1 0))
  | None => mret (m, at_pc t (ExLoop k))
  end.

Definition sp_owner (me : nat) (m : mtx) (t : thr) : local :=
  mret (set_owner m (Some me), finish t 0).

(** nlock = lock | MTX_EXWANTED | MTX_EXLINK; td_critcount is raised around
    the critical section. *)
Definition ex_link (k : kind) (lock : Z) (m : mtx) (t : thr) : local :=
  match cmpset m lock (Z.lor (Z.lor lock MTX_EXWANTED) MTX_EXLINK) with
  | Some m => mret (m, at_pc (add_crit t 1) (ExLinking k))
  | None => mret (m, at_pc t (ExLoop k))
  end.

Definition ex_linking (me : nat) (k : kind) (m : mtx) (t : thr) : local :=
  if decide (t_link t = LINK_ABORTED) then mret (m, at_pc t ExAbort1)
  else mret (set_ring m (ring_insert (mtx_link m) me), at_pc (set_tlink t LINK_LINKED) (ExUnlink k)).

Definition ex_abort1 (m : mtx) (t : thr) : local :=
  mret (atomic_clear m MTX_EXLINK, at_pc (add_crit t (-1)) ExAbort2).
Definition ex_abort2 (m : mtx) (t : thr) : local :=
  match mtx_link m with
  | [] => mret (m, at_pc t ExAbort3)
  | _ => mret (m, finish t ENOLCK)
  end.
Definition ex_abort3 (m : mtx) (t : thr) : local :=
  mret (atomic_clear m MTX_EXWANTED, finish t ENOLCK).

Definition ex_unlink (k : kind) (m : mtx) (t : thr) : local :=
  mret (atomic_clear m MTX_EXLINK, at_pc (add_crit t (-1)) (ExSleep k)).

(** tsleep(link, ...) returns. *)
Definition ex_sleep (k : kind) (error : Z) (m : mtx) (t : thr) : local :=
  mret (m, at_pc t (ExWake k error)).

Definition ex_wake (k : kind) (error : Z) (m : mtx) (t : thr) : local :=
  if decide (t_link t = LINK_LINKED) then mret (m, at_pc (add_crit t 1) (DlLoop k error))
  else mret (m, at_pc t (ExPost k error)).

Definition ex_post (me : nat) (k : kind) (error : Z) (m : mtx) (t : thr) : local :=
  match t_link t with
  | LINK_ACQUIRED =>
      _ ← KKASSERT "mtx->mtx_owner == link->owner" (bool_decide (mtx_owner m = Some me));
      mret (m, finish (add_holds t 1 0) 0)
  | LINK_ABORTED => mret (m, finish t ENOLCK)
  | _ => if negb (error =? 0) then mret (m, finish t error) else mret (m, at_pc t (ExLoop k))
  end.

(** mtx_delete_link *)
Definition dl_loop (k : kind) (error : Z) (m : mtx) (t : thr) : local :=
  let lock := mtx_lock m in
  if btest lock MTX_EXLINK then mret (m, t) else mret (m, at_pc t (DlCas k error lock)).
Definition dl_cas (k : kind) (error lock : Z) (m : mtx) (t : thr) : local :=
  match cmpset m lock (Z.lor lock MTX_EXLINK) with
  | Some m => mret (m, at_pc t (DlDel k error))
  | None => mret (m, at_pc t (DlLoop k error))
  end.
Definition dl_del (me : nat) (k : kind) (error : Z) (m : mtx) (t : thr) : local :=
  if decide (t_link t = LINK_LINKED)
  then mret (set_ring m (ring_remove [] (mtx_link m) me), at_pc (set_tlink t LINK_IDLE) (DlClear k error))
  else mret (m, at_pc t (DlClear k error)).
Definition dl_clear (k : kind) (error : Z) (m : mtx) (t : thr) : local :=
  mret (atomic_clear m MTX_EXLINK, at_pc (add_crit t (-1)) (ExPost k error)).

(** ** The shared lock *)

Definition sh_fast (try : bool) (m : mtx) (t : thr) : local :=
  match cmpset m 0 1 with
  | Some m => mret (m, finish (add_holds t 0 1) 0)
  | None => mret (m, at_pc t (ShLoop try))
  end.

Definition sh_loop (try : bool) (m : mtx) (t : thr) : local :=
  let lock := mtx_lock m in
  if negb (btest lock MTX_EXCLUSIVE) then
    _ ← KKASSERT "(lock & MTX_MASK) != MTX_MASK" (negb (Z.land lock MTX_MASK =? MTX_MASK));
    mret (m, at_pc t (ShCas try lock))
  else if try then mret (m, finish t EAGAIN)
  else mret (m, at_pc t (ShWant lock)).

Definition sh_cas (try : bool) (lock : Z) (m : mtx) (t : thr) : local :=
  match cmpset m lock (u32 (lock + 1)) with
  | Some m => mret (m, finish (add_holds t 0 1) 0)
  | None => mret (m, at_pc t (ShLoop try))
  end.

Definition sh_want (lock : Z) (m : mtx) (t : thr) : local :=
  match cmpset m lock (Z.lor lock MTX_SHWANTED) with
  | Some m => mret (m, at_pc t ShSleep)
  | None => mret (m, at_pc t (ShLoop false))
  end.

(** tsleep(mtx, ...) returns. *)
Definition sh_sleep (error : Z) (m : mtx) (t : thr) : local :=
  if negb (error =? 0) then mret (m, finish t error) else mret (m, at_pc t (ShLoop false)).

(** ** Upgrade and downgrade *)

(** The inline mtx_upgrade_try: the owner is not set. *)
Definition up_fast (m : mtx) (t : thr) : local :=
  match cmpset m 1 (Z.lor MTX_EXCLUSIVE 1) with
  | Some m => mret (m, finish (add_holds t 1 (-1)) 0)
  | None => mret (m, at_pc t UpLoop)
  end.

Definition up_loop (m : mtx) (t : thr) : local :=
  let lock := mtx_lock m in
  if Z.ldiff lock MTX_EXWANTED =? 1 then mret (m, at_pc t (UpCas lock))
  else if btest lock MTX_EXCLUSIVE then mret (m, at_pc t UpTest)
  else mret (m, finish t EDEADLK).

Definition up_cas (lock : Z) (m : mtx) (t : thr) : local :=
  match cmpset m lock (Z.lor lock MTX_EXCLUSIVE) with
  | Some m => mret (m, at_pc (add_holds t 0 (-1)) UpOwner)
  | None => mret (m, at_pc t UpLoop)
  end.

Definition up_owner (me : nat) (m : mtx) (t : thr) : local :=
  mret (set_owner m (Some me), finish (add_holds t 1 0) 0).

Definition up_test (me : nat) (m : mtx) (t : thr) : local :=
  _ ← KKASSERT "mtx->mtx_owner == curthread" (bool_decide (mtx_owner m = Some me));
  mret (m, finish t 0).

(** The inline mtx_downgrade: the owner is cleared first, and the uncontended
    word becomes 0. *)
Definition dg_fast (m : mtx) (t : thr) : local := mret (set_owner m None, at_pc t DgFast2).
Definition dg_fast2 (m : mtx) (t : thr) : local :=
  match cmpset m (Z.lor MTX_EXCLUSIVE 1) 0 with
  | Some m => mret (m, finish (add_holds t (- t_ex t) (t_ex t)) 0)
  | None => mret (m, at_pc t DgLoop)
  end.

Definition dg_loop (m : mtx) (t : thr) : local :=
  let lock := mtx_lock m in
  if negb (btest lock MTX_EXCLUSIVE) then
    _ ← KKASSERT "(lock & MTX_MASK) > 0" (0 <? Z.land lock MTX_MASK);
    mret (m, finish t 0)
  else mret (m, at_pc t (DgTest lock)).

Definition dg_test (me : nat) (lock : Z) (m : mtx) (t : thr) : local :=
  _ ← KKASSERT "mtx->mtx_owner == curthread" (bool_decide (mtx_owner m = Some me));
  mret (m, at_pc t (DgCas lock)).

Definition dg_cas (lock : Z) (m : mtx) (t : thr) : local :=
  match cmpset m lock (Z.ldiff lock (Z.lor MTX_EXCLUSIVE MTX_SHWANTED)) with
  | Some m => mret (m, finish (add_holds t (- t_ex t) (t_ex t)) 0)
  | None => mret (m, at_pc t DgLoop)
  end.

(** ** Unlock *)

(** The cases of _mtx_unlock on the lock word; mtx_unlock's own two tests are
    instances of the first two. *)
Definition un_loop (m : mtx) (t : thr) : local :=
  let lock := mtx_lock m in
  let nlock := Z.ldiff lock (Z.lor MTX_SHWANTED MTX_EXLINK) in
  if nlock =? 1 then mret (m, at_pc t (UnCas lock (Z.land lock MTX_EXLINK)))
  else if nlock =? Z.lor MTX_EXCLUSIVE 1 then mret (m, at_pc t (UnOwner lock))
  else if nlock =? Z.lor MTX_EXWANTED 1 then
    if btest lock MTX_EXLINK then mret (m, t)
    else mret (m, at_pc t (UnChain lock
      (Z.lor (Z.lor nlock (Z.lor MTX_EXLINK MTX_EXCLUSIVE)) (Z.land lock MTX_SHWANTED))))
  else if nlock =? Z.lor (Z.lor MTX_EXCLUSIVE MTX_EXWANTED) 1 then
    if btest lock MTX_EXLINK then mret (m, t)
    else mret (m, at_pc t (UnChain lock
      (Z.lor (Z.lor nlock MTX_EXLINK) (Z.land lock MTX_SHWANTED))))
  else
    let nlock := u32 (lock - 1) in
    _ ← KKASSERT "(nlock & MTX_MASK) != MTX_MASK" (negb (Z.land nlock MTX_MASK =? MTX_MASK));
    mret (m, at_pc t (UnCas lock nlock)).

Definition un_owner (lock : Z) (m : mtx) (t : thr) : local :=
  mret (set_owner m None, at_pc t (UnCas lock (Z.land lock MTX_EXLINK))).

(** One hold less. *)
Definition drop_hold (t : thr) : thr :=
  if 0 <? t_ex t then add_holds t (-1) 0 else add_holds t 0 (-1).

Definition un_cas (lock nlock : Z) (m : mtx) (t : thr) : local :=
  match cmpset m lock nlock with
  | Some m => mret (m, finish (drop_hold t) 0)
  | None => mret (m, at_pc t UnLoop)
  end.

Definition un_chain (lock nlock : Z) (m : mtx) (t : thr) : local :=
  match cmpset m lock nlock with
  | Some m => mret (m, at_pc (add_crit (drop_hold t) 1) ChStart)
  | None => mret (m, at_pc t UnLoop)
  end.

(** mtx_chain_link, the part under MTX_EXLINK.  [links] is the state of the
    links by number; the link taken off the ring becomes LINK_ACQUIRED. *)
Definition ch_start (links : nat -> option lstate) (m : mtx) (t : thr)
    : outcome (mtx * thr * option nat) :=
  match mtx_link m with
  | l :: q =>
      _ ← KKASSERT "link->state == MTX_LINK_LINKED" (bool_decide (links l = Some LINK_LINKED));
      let clock := match q with [] => Z.lor MTX_EXLINK MTX_EXWANTED | _ => MTX_EXLINK end in
      mret (set_owner (set_ring m q) (Some l), at_pc t (ChLoop (Some l) clock), Some l)
  | [] =>
      mret (m, at_pc t (ChLoop None
        (Z.lor MTX_EXLINK (Z.lor (Z.lor (Z.lor MTX_EXCLUSIVE MTX_EXWANTED) MTX_SHWANTED) 1))), None)
  end.

Definition ch_loop (link : option nat) (clock : Z) (m : mtx) (t : thr) : local :=
  mret (m, at_pc t (ChCas link clock (mtx_lock m))).

Definition ch_cas (link : option nat) (clock lock : Z) (m : mtx) (t : thr) : local :=
  match cmpset m lock (Z.ldiff lock clock) with
  | Some m =>
      match link with
      | Some _ => mret (m, finish (add_crit t (-1)) 0)
      | None => if btest lock MTX_SHWANTED then mret (m, at_pc t ChOwner)
                else mret (m, finish (add_crit t (-1)) 0)
      end
  | None => mret (m, at_pc t (ChLoop link clock))
  end.

Definition ch_owner (m : mtx) (t : thr) : local :=
  mret (set_owner m None, finish (add_crit t (-1)) 0).

(** ** Abort *)

Definition ab_loop (l : nat) (m : mtx) (t : thr) : local :=
  let lock := mtx_lock m in
  if btest lock MTX_EXLINK then mret (m, t) else mret (m, at_pc t (AbCas l lock)).
Definition ab_cas (l : nat) (lock : Z) (m : mtx) (t : thr) : local :=
  match cmpset m lock (Z.lor lock MTX_EXLINK) with
  | Some m => mret (m, at_pc t (AbDo l))
  | None => mret (m, at_pc t (AbLoop l))
  end.

(** The switch on link->state: the new state of the link. *)
Definition ab_do (l : nat) (s : lstate) (m : mtx) (t : thr) : mtx * thr * lstate :=
  match s with
  | LINK_IDLE => (m, at_pc t AbClear, LINK_ABORTED)
  | LINK_LINKED => (set_ring m (ring_remove [] (mtx_link m) l), at_pc t AbClear, LINK_ABORTED)
  | s => (m, at_pc t AbClear, s)
  end.

Definition ab_clear (m : mtx) (t : thr) : local :=
  mret (atomic_clear m MTX_EXLINK, finish (add_crit t (-1)) 0).

(** ** Interleaving *)

(** The calls a client can make. *)
Inductive call :=
  | LockEx (own_link : bool) | LockSh | SpinLock | LockExTry | LockShTry | SpinLockTry
  | UpgradeTry | UpgradeTryInline | Downgrade | DowngradeInline
  | Unlock | SpinUnlock | Abort (l : nat).

(** What resolves the choices of a thread: the call it makes when idle, and
    what tsleep returns. *)
Inductive choice := Call (c : call) | Go | Woken (error : Z).

Definition start (c : call) (t : thr) : thr :=
  match c with
  | LockEx own => at_pc t (ExFast (Block own))
  | LockSh => at_pc t (ShFast false)
  | SpinLock => at_pc (add_spin t 1) (ExFast Spin)
  | LockExTry => at_pc t (ExFast Try)
  | LockShTry => at_pc t (ShFast true)
  | SpinLockTry => at_pc (add_spin t 1) (ExFast SpinTry)
  | UpgradeTry => at_pc t UpLoop
  | UpgradeTryInline => at_pc t UpFast
  | Downgrade => at_pc t DgLoop
  | DowngradeInline => at_pc t DgFast
  | Unlock => at_pc t UnLoop
  | SpinUnlock => at_pc (Thr (t_pc t) (t_ex t) (t_sh t) (t_link t) (t_crit t) (t_spin t) true (t_ret t)) UnLoop
  | Abort l => at_pc (add_crit t 1) (AbLoop l)
  end.

(** The step of a thread that touches only the mutex and itself. *)
Definition local_step (me : nat) (m : mtx) (t : thr) : option local :=
  match t_pc t with
  | Idle | ExSleep _ | ShSleep | ChStart | AbDo _ => None
  | ExFast k => Some (ex_fast k m t)
  | ExLoop k => Some (ex_loop k m t)
  | ExTest k lock => Some (ex_test me k lock m t)
  | ExCas0 k => Some (ex_cas0 k m t)
  | ExOwner k => Some (ex_owner me k m t)
  | ExRec k lock => Some (ex_rec k lock m t)
  | SpOwner => Some (sp_owner me m t)
  | ExLink k lock => Some (ex_link k lock m t)
  | ExLinking k => Some (ex_linking me k m t)
  | ExAbort1 => Some (ex_abort1 m t)
  | ExAbort2 => Some (ex_abort2 m t)
  | ExAbort3 => Some (ex_abort3 m t)
  | ExUnlink k => Some (ex_unlink k m t)
  | ExWake k error => Some (ex_wake k error m t)
  | ExPost k error => Some (ex_post me k error m t)
  | DlLoop k error => Some (dl_loop k error m t)
  | DlCas k error lock => Some (dl_cas k error lock m t)
  | DlDel k error => Some (dl_del me k error m t)
  | DlClear k error => Some (dl_clear k error m t)
  | ShFast try => Some (sh_fast try m t)
  | ShLoop try => Some (sh_loop try m t)
  | ShCas try lock => Some (sh_cas try lock m t)
  | ShWant lock => Some (sh_want lock m t)
  | UpFast => Some (up_fast m t)
  | UpLoop => Some (up_loop m t)
  | UpCas lock => Some (up_cas lock m t)
  | UpOwner => Some (up_owner me m t)
  | UpTest => Some (up_test me m t)
  | DgFast => Some (dg_fast m t)
  | DgFast2 => Some (dg_fast2 m t)
  | DgLoop => Some (dg_loop m t)
  | DgTest lock => Some (dg_test me lock m t)
  | DgCas lock => Some (dg_cas lock m t)
  | UnLoop => Some (un_loop m t)
  | UnOwner lock => Some (un_owner lock m t)
  | UnCas lock nlock => Some (un_cas lock nlock m t)
  | UnChain lock nlock => Some (un_chain lock nlock m t)
  | ChLoop link clock => Some (ch_loop link clock m t)
  | ChCas link clock lock => Some (ch_cas link clock lock m t)
  | ChOwner => Some (ch_owner m t)
  | AbLoop l => Some (ab_loop l m t)
  | AbCas l lock => Some (ab_cas l lock m t)
  | AbClear => Some (ab_clear m t)
  end.

Definition put (w : world) (i : nat) (r : mtx * thr) : world :=
  World r.1 (<[i := r.2]> (w_thr w)).

Definition relink (w : world) (l : nat) (s : lstate) : world :=
  World (w_mtx w) (alter (fun t => set_tlink t s) l (w_thr w)).

(** One step of thread [i]: [None] when it can not make the chosen step. *)
Definition step (w : world) (i : nat) (c : choice) : option (outcome world) :=
  let m := w_mtx w in
  match w_thr w !! i with
  | None => None
  | Some t =>
    match t_pc t, c with
    | Idle, Call c => Some (Done (put w i (m, start c t)))
    | ExSleep k, Woken error => Some (ex_sleep k error m t ≫= fun r => Done (put w i r))
    | ShSleep, Woken error => Some (sh_sleep error m t ≫= fun r => Done (put w i r))
    | ChStart, Go =>
        Some (ch_start (fun l => t_link <$> w_thr w !! l) m t ≫= fun r =>
              let w := put w i r.1 in
              Done (match r.2 with Some l => relink w l LINK_ACQUIRED | None => w end))
    | AbDo l, Go =>
        match w_thr w !! l with
        | None => None
        | Some tl =>
            let '(m, t, s) := ab_do l (t_link tl) m t in
            Some (Done (relink (put w i (m, t)) l s))
        end
    | _, Go =>
        match local_step i m t with
        | None => None
        | Some r => Some (r ≫= fun r => Done (put w i r))
        end
    | _, _ => None
    end
  end.

(** A schedule: which thread steps, and how. *)
Fixpoint run_schedule (w : world) (s : list (nat * choice)) : option (outcome world) :=
  match s with
  | [] => Some (Done w)
  | (i, c) :: s =>
      match step w i c with
      | Some (Done w) => run_schedule w s
      | r => r
      end
  end.

Definition thr0 : thr := Thr Idle 0 0 LINK_IDLE 0 0 false 0.
Definition world0 (n : nat) : world := World mtx_init (replicate n thr0).
