(* ===== verification/MutexInv.v ===== *)
(** * The kernel mutex: the lock word, and the invariant

    The word as four flags and a 28-bit count, and what the tests and updates
    of sys/kern/kern_mutex.c do to them. *)

From stdpp Require Import prelude list strings.
From S2P Require Import Prelude.
From S2P Require Import Sums.
From S2P Require Import Mutex.
Open Scope Z_scope.

(** ** Words *)

(** High nibble and low 28 bits. *)
Definition hl (f n : Z) : Z := cat 28 f n.

Definition flags (e s x l : bool) : Z := 8 * b2z e + 4 * b2z s + 2 * b2z x + b2z l.

(** The word with MTX_EXCLUSIVE, MTX_SHWANTED, MTX_EXWANTED, MTX_EXLINK and the count. *)
Definition word (e s x l : bool) (n : Z) : Z := hl (flags e s x l) n.

Section Words.
Context (e s x l : bool) (n : Z).
Hypothesis Hn : 0 <= n < 2 ^ 28.

Lemma word_u32 : is_u32 (word e s x l n).
Proof. unfold word, hl, cat, flags, b2z, is_u32. destruct e, s, x, l; lia. Qed.

Lemma word_land f : Z.land (word e s x l n) (hl f 0) = hl (Z.land (flags e s x l) f) 0.
Proof. unfold word, hl. rewrite cat_land by lia. by rewrite Z.land_0_r. Qed.

Lemma word_lor f : Z.lor (word e s x l n) (hl f 0) = hl (Z.lor (flags e s x l) f) n.
Proof. unfold word, hl. rewrite cat_lor by lia. by rewrite Z.lor_0_r. Qed.

Lemma word_ldiff f : Z.ldiff (word e s x l n) (hl f 0) = hl (Z.ldiff (flags e s x l) f) n.
Proof. unfold word, hl. rewrite cat_ldiff by lia. by rewrite Z.ldiff_0_r. Qed.

Lemma hl_zero f : 0 <= f -> (hl f 0 =? 0) = (f =? 0).
Proof. intros. unfold hl, cat. destruct (Z.eqb_spec f 0), (Z.eqb_spec (f * 2 ^ 28 + 0) 0); done || lia. Qed.

Lemma word_exclusive : btest (word e s x l n) MTX_EXCLUSIVE = e.
Proof.
  unfold btest. change MTX_EXCLUSIVE with (hl 8 0). rewrite word_land, hl_zero.
  - by destruct e, s, x, l.
  - by destruct e, s, x, l.
Qed.

Lemma word_exwanted : btest (word e s x l n) MTX_EXWANTED = x.
Proof.
  unfold btest. change MTX_EXWANTED with (hl 2 0). rewrite word_land, hl_zero.
  - by destruct e, s, x, l.
  - by destruct e, s, x, l.
Qed.

Lemma word_exlink : btest (word e s x l n) MTX_EXLINK = l.
Proof.
  unfold btest. change MTX_EXLINK with (hl 1 0). rewrite word_land, hl_zero.
  - by destruct e, s, x, l.
  - by destruct e, s, x, l.
Qed.

Lemma word_mask : Z.land (word e s x l n) MTX_MASK = n.
Proof.
  change MTX_MASK with (cat 28 0 (2 ^ 28 - 1)). unfold word, hl. rewrite cat_land by lia.
  rewrite Z.land_0_r. change (2 ^ 28 - 1) with (Z.ones 28). rewrite Z.land_ones, Z.mod_small by lia. done.
Qed.

Lemma word_drop_exwanted : Z.ldiff (word e s x l n) MTX_EXWANTED = word e s false l n.
Proof. change MTX_EXWANTED with (hl 2 0). rewrite word_ldiff. by destruct e, s, x, l. Qed.

Lemma word_drop_wanted :
  Z.ldiff (word e s x l n) (Z.lor MTX_SHWANTED MTX_EXLINK) = word e false x false n.
Proof. change (Z.lor MTX_SHWANTED MTX_EXLINK) with (hl 5 0). rewrite word_ldiff. by destruct e, s, x, l. Qed.

Lemma word_drop_exlink : Z.ldiff (word e s x l n) MTX_EXLINK = word e s x false n.
Proof. change MTX_EXLINK with (hl 1 0). rewrite word_ldiff. by destruct e, s, x, l. Qed.

Lemma word_drop_both : Z.ldiff (word e s x l n) (Z.lor MTX_EXLINK MTX_EXWANTED) = word e s false false n.
Proof. change (Z.lor MTX_EXLINK MTX_EXWANTED) with (hl 3 0). rewrite word_ldiff. by destruct e, s, x, l. Qed.

Lemma word_keep_exlink : Z.land (word e s x l n) MTX_EXLINK = word false false false l 0.
Proof. change MTX_EXLINK with (hl 1 0). rewrite word_land. by destruct e, s, x, l. Qed.

Lemma word_add_shwanted : Z.lor (word e s x l n) MTX_SHWANTED = word e true x l n.
Proof. change MTX_SHWANTED with (hl 4 0). rewrite word_lor. by destruct e, s, x, l. Qed.

Lemma word_add_exclusive : Z.lor (word e s x l n) MTX_EXCLUSIVE = word true s x l n.
Proof. change MTX_EXCLUSIVE with (hl 8 0). rewrite word_lor. by destruct e, s, x, l. Qed.

Lemma word_add_exwanted : Z.lor (word e s x l n) MTX_EXWANTED = word e s true l n.
Proof. change MTX_EXWANTED with (hl 2 0). rewrite word_lor. by destruct e, s, x, l. Qed.

Lemma word_add_exlink : Z.lor (word e s x l n) MTX_EXLINK = word e s x true n.
Proof. change MTX_EXLINK with (hl 1 0). rewrite word_lor. by destruct e, s, x, l. Qed.

Lemma word_add_both : Z.lor (word e s x l n) (Z.lor MTX_EXLINK MTX_EXCLUSIVE) = word true s x true n.
Proof. change (Z.lor MTX_EXLINK MTX_EXCLUSIVE) with (hl 9 0). rewrite word_lor. by destruct e, s, x, l. Qed.

Lemma word_shwanted_of e' x' l' :
  Z.lor (word e' false x' l' n) (Z.land (word e s x l n) MTX_SHWANTED) = word e' s x' l' n.
Proof.
  change MTX_SHWANTED with (hl 4 0). rewrite word_land. unfold word, hl. rewrite cat_lor by lia.
  rewrite Z.lor_0_r. by destruct e', x', l', e, s, x, l.
Qed.

Lemma word_succ : n + 1 < 2 ^ 28 -> u32 (word e s x l n + 1) = word e s x l (n + 1).
Proof.
  intros. replace (word e s x l n + 1) with (word e s x l (n + 1)) by (unfold word, hl, cat; lia).
  apply u32_id. unfold word, hl, cat, flags, b2z, is_u32. destruct e, s, x, l; lia.
Qed.

Lemma word_pred : 1 <= n -> u32 (word e s x l n - 1) = word e s x l (n - 1).
Proof.
  intros. replace (word e s x l n - 1) with (word e s x l (n - 1)) by (unfold word, hl, cat; lia).
  apply u32_id. unfold word, hl, cat, flags, b2z, is_u32. destruct e, s, x, l; lia.
Qed.

End Words.

Lemma word_eqb e s x l n e' s' x' l' n' :
  0 <= n < 2 ^ 28 -> 0 <= n' < 2 ^ 28 ->
  (word e s x l n =? word e' s' x' l' n') =
  bool_decide (e = e' /\ s = s' /\ x = x' /\ l = l' /\ n = n').
Proof.
  intros. destruct (Z.eqb_spec (word e s x l n) (word e' s' x' l' n')) as [E | E];
    symmetry; [apply bool_decide_true | apply bool_decide_false].
  - unfold word, hl, cat, flags, b2z in E.
    destruct e, s, x, l, e', s', x', l'; first [split_and!; done || lia | lia].
  - intros (-> & -> & -> & -> & ->). done.
Qed.

Lemma word_inj e s x l n e' s' x' l' n' :
  0 <= n < 2 ^ 28 -> 0 <= n' < 2 ^ 28 -> word e s x l n = word e' s' x' l' n' ->
  e = e' /\ s = s' /\ x = x' /\ l = l' /\ n = n'.
Proof.
  intros Hn Hn' E%Z.eqb_eq. rewrite word_eqb in E by done. by apply bool_decide_eq_true in E.
Qed.

(** * Mutual exclusion of the kernel mutex: the invariant

    The invariant of every interleaving in which exclusive waiters are only
    woken by a hand-over, and that it is kept by every step. *)

(** ** What a thread holds *)

(** Exclusive holds, with the one a thread has while it is being given the
    lock or giving it away. *)
Definition own (t : thr) : Z :=
  t_ex t +
  match t_pc t with
  | ExOwner _ | UpOwner | ChStart => 1
  | ExSleep _ | ExWake _ _ | ExPost _ _ => if decide (t_link t = LINK_ACQUIRED) then 1 else 0
  | _ => 0
  end.

Definition owns (t : thr) : Z := if 0 <? own t then 1 else 0.

(** The thread has set MTX_EXLINK. *)
Definition inlink (t : thr) : Z :=
  match t_pc t with
  | ExLinking _ | ExUnlink _ | ChStart | ChLoop _ _ | ChCas _ _ _ => 1
  | _ => 0
  end.

(** The thread has announced an exclusive waiter that is not on the ring: it
    is about to be linked, or was just taken off. *)
Definition pend (t : thr) : Z :=
  match t_pc t with
  | ExLinking _ => 1
  | ChLoop _ c | ChCas _ c _ => if decide (c = Z.lor MTX_EXLINK MTX_EXWANTED) then 1 else 0
  | _ => 0
  end.

Definition waiting (t : thr) : Prop :=
  t_link t = LINK_LINKED /\ match t_pc t with ExUnlink _ | ExSleep _ => True | _ => False end.

Definition unlocking (t : thr) : bool :=
  match t_pc t with UnLoop | UnOwner _ | UnCas _ _ | UnChain _ _ => true | _ => false end.

(** A word a thread has read. *)
Definition seen (lock : Z) (P : bool -> bool -> bool -> bool -> Z -> Prop) : Prop :=
  exists e s x l n, lock = word e s x l n /\ 0 <= n < 2 ^ 28 /\ P e s x l n.

(** What a thread knows, by where it is. *)
Definition knows (i : nat) (t : thr) (m : mtx) : Prop :=
  match t_pc t with
  | ExTest _ lock => seen lock (fun e _ _ _ _ => e = true)
  | ExRec _ lock => 0 < t_ex t /\ seen lock (fun _ _ _ _ n => n + 1 < 2 ^ 28)
  | SpOwner => 0 < t_ex t
  | ExLink _ lock => seen lock (fun e s x l n => l = false /\ ~ (e = false /\ s = false /\ x = false /\ n = 0))
  | ExUnlink _ => t_link t = LINK_LINKED /\ i ∈ mtx_link m
  | ExSleep _ => (t_link t = LINK_LINKED /\ i ∈ mtx_link m) \/
                 (t_link t = LINK_ACQUIRED /\ mtx_owner m = Some i)
  | ExWake _ _ | ExPost _ _ => t_link t = LINK_ACQUIRED /\ mtx_owner m = Some i
  | ShCas _ lock => seen lock (fun e _ _ _ n => e = false /\ n + 1 < 2 ^ 28)
  | ShWant lock => seen lock (fun e _ _ _ _ => e = true)
  | UpLoop => 0 < t_ex t + t_sh t
  | UpCas lock => 0 < t_ex t + t_sh t /\ seen lock (fun e s _ l n => e = false /\ s = false /\ l = false /\ n = 1)
  | UpTest => 0 < t_ex t
  | UnLoop => 0 < t_ex t + t_sh t
  | UnOwner lock => t_ex t = 1 /\ seen lock (fun e _ x _ n => e = true /\ x = false /\ n = 1)
  | UnCas lock nlock =>
      0 < t_ex t + t_sh t /\
      seen lock (fun e s x l n =>
        (n = 1 /\ x = false /\ nlock = word false false false l 0 /\
         (e = true -> t_ex t = 1 /\ mtx_owner m = None)) \/
        (2 <= n /\ nlock = word e s x l (n - 1)))
  | UnChain lock nlock =>
      0 < t_ex t + t_sh t /\
      seen lock (fun e s x l n => n = 1 /\ x = true /\ l = false /\ nlock = word true s true true 1)
  | ChStart => t_ex t = 0 /\ mtx_link m <> []
  | ChLoop link clock =>
      link <> None /\ ((clock = MTX_EXLINK /\ mtx_link m <> []) \/
                       (clock = Z.lor MTX_EXLINK MTX_EXWANTED /\ mtx_link m = []))
  | ChCas link clock lock =>
      link <> None /\ ((clock = MTX_EXLINK /\ mtx_link m <> []) \/
                       (clock = Z.lor MTX_EXLINK MTX_EXWANTED /\ mtx_link m = [])) /\
      seen lock (fun _ _ _ _ _ => True)
  | ExAbort1 | ExAbort2 | ExAbort3 | DlLoop _ _ | DlCas _ _ _ | DlDel _ _ | DlClear _ _
  | UpFast | DgFast | DgFast2 | DgLoop | DgTest _ | DgCas _ | ChOwner
  | AbLoop _ | AbCas _ _ | AbDo _ | AbClear => False
  | _ => True
  end.

Definition local_ok (i : nat) (t : thr) (m : mtx) : Prop :=
  0 <= t_ex t /\ 0 <= t_sh t /\ t_link t <> LINK_ABORTED /\ t_crit t = t_spin t + inlink t /\
  (0 < t_ex t -> unlocking t = false -> mtx_owner m = Some i) /\
  (2 <= t_ex t -> mtx_owner m = Some i) /\ knows i t m.

(** The word, in terms of what the threads hold. *)
Definition word_ok (e s x l : bool) (n : Z) (q : list nat) (ts : list thr) : Prop :=
  0 <= n < 2 ^ 28 /\
  n = sumf own ts + sumf t_sh ts /\
  b2z e = sumf owns ts /\
  (e = true -> sumf t_sh ts = 0) /\
  b2z l = sumf inlink ts /\
  (x = true <-> q <> [] \/ 0 < sumf pend ts) /\
  (n = 0 -> e = false /\ s = false /\ x = false).

Record Inv (w : world) : Prop := {
  inv_word : exists e s x l n, mtx_lock (w_mtx w) = word e s x l n /\
    word_ok e s x l n (mtx_link (w_mtx w)) (w_thr w);
  inv_owner : forall i, mtx_owner (w_mtx w) = Some i ->
    exists t, w_thr w !! i = Some t /\ 0 < own t;
  inv_ring : NoDup (mtx_link (w_mtx w));
  inv_waiting : forall i, i ∈ mtx_link (w_mtx w) -> exists t, w_thr w !! i = Some t /\ waiting t;
  inv_local : forall i t, w_thr w !! i = Some t -> local_ok i t (w_mtx w)
}.

(** ** Consequences *)

Lemma own_nonneg t : 0 <= t_ex t -> 0 <= own t.
Proof. unfold own. destruct (t_pc t); try lia; destruct (decide _); lia. Qed.

Lemma own_ge_ex t : t_ex t <= own t.
Proof. unfold own. destruct (t_pc t); try lia; destruct (decide _); lia. Qed.

Lemma owns_bounds t : 0 <= owns t <= 1.
Proof. unfold owns. destruct (0 <? own t); lia. Qed.

Lemma owns_pos t : 0 < own t -> owns t = 1.
Proof. intros. unfold owns. by rewrite (proj2 (Z.ltb_lt _ _)). Qed.

Lemma owns_zero t : own t <= 0 -> owns t = 0.
Proof. intros. unfold owns. by rewrite (proj2 (Z.ltb_ge _ _)). Qed.

Lemma owns_eq t u : own t = own u -> owns t = owns u.
Proof. unfold owns. by intros ->. Qed.

Lemma inlink_bounds t : 0 <= inlink t <= 1.
Proof. unfold inlink. destruct (t_pc t); lia. Qed.

Lemma pend_inlink t : 0 <= pend t <= inlink t.
Proof. unfold pend, inlink. destruct (t_pc t); try lia; destruct (decide _); lia. Qed.

Section Facts.
Context (w : world).
Hypothesis Hinv : Inv w.

Lemma ex_nonneg t : t ∈ w_thr w -> 0 <= t_ex t /\ 0 <= t_sh t.
Proof. intros (i & Hi)%list_elem_of_lookup_1. by destruct (inv_local w Hinv i t Hi) as (? & ? & _). Qed.

Lemma own_all t : t ∈ w_thr w -> 0 <= own t.
Proof. intros H. apply own_nonneg. by apply ex_nonneg. Qed.

Lemma sum_own_nonneg : 0 <= sumf own (w_thr w).
Proof. apply sumf_nonneg, own_all. Qed.

(** Two owners are the same thread. *)
Lemma one_owner i j t u :
  w_thr w !! i = Some t -> w_thr w !! j = Some u -> 0 < own t -> 0 < own u -> i = j.
Proof.
  intros Hi Hj Ht Hu. destruct (decide (i = j)) as [| Hne]; [done |]. exfalso.
  destruct (inv_word w Hinv) as (e & s & x & l & n & _ & _ & _ & He & _).
  pose proof (sumf_two owns (w_thr w) i j t u ltac:(intros; apply owns_bounds) Hne Hi Hj).
  rewrite !owns_pos in * by done. pose proof (b2z_bounds e). lia.
Qed.

(** While one thread owns the lock nobody shares it. *)
Lemma owner_excludes i j t u :
  w_thr w !! i = Some t -> w_thr w !! j = Some u -> 0 < own t -> t_sh u = 0.
Proof.
  intros Hi Hj Ht. destruct (inv_word w Hinv) as (e & s & x & l & n & _ & _ & _ & He & Hsh & _).
  pose proof (sumf_ge owns (w_thr w) i t ltac:(intros; apply owns_bounds) Hi).
  rewrite owns_pos in * by done. destruct e; simpl in *; [| lia].
  pose proof (sumf_ge t_sh (w_thr w) j u ltac:(intros a Ha; by apply ex_nonneg) Hj).
  destruct (ex_nonneg u) as [_ ?]; [by eapply list_elem_of_lookup_2 |]. specialize (Hsh eq_refl). lia.
Qed.

(** Only one thread is inside a MTX_EXLINK section. *)
Lemma one_inlink i j t u :
  w_thr w !! i = Some t -> w_thr w !! j = Some u -> inlink t = 1 -> inlink u = 1 -> i = j.
Proof.
  intros Hi Hj Ht Hu. destruct (decide (i = j)) as [| Hne]; [done |]. exfalso.
  destruct (inv_word w Hinv) as (e & s & x & l & n & _ & _ & _ & _ & _ & Hl & _).
  pose proof (sumf_two inlink (w_thr w) i j t u ltac:(intros; apply inlink_bounds) Hne Hi Hj).
  pose proof (b2z_bounds l). lia.
Qed.

End Facts.

(** ** Steps of one thread *)

(** What another thread knows survives a step that leaves alone the owner (if
    it owns the lock), the ring (if it is inside a MTX_EXLINK section) and its
    place on the ring. *)
Lemma local_ok_stable i t m m' :
  local_ok i t m ->
  (0 < own t -> mtx_owner m' = mtx_owner m) ->
  (inlink t = 1 -> mtx_link m' = mtx_link m \/ waiting t) ->
  (waiting t -> i ∈ mtx_link m -> i ∈ mtx_link m') ->
  local_ok i t m'.
Proof.
  intros (H1 & H2 & H3 & H4 & H5 & H6 & H7) Ho Hq Hw. pose proof (own_ge_ex t).
  split_and!; try done.
  - intros Hex Hu. rewrite Ho by lia. by apply H5.
  - intros Hex. rewrite Ho by lia. by apply H6.
  - unfold knows, own, inlink, waiting in *. destruct (t_pc t) eqn:Hpc; try done.
    + destruct H7 as [Hl Hin]. split; [done |]. by apply Hw.
    + destruct H7 as [[Hl Hin] | [Hl Hown]]; [left; split; [done | by apply Hw] | right].
      split; [done |]. rewrite Ho; [done |]. rewrite decide_True by done. lia.
    + destruct H7 as [Hl Hown]. split; [done |]. rewrite Ho; [done |]. rewrite decide_True by done. lia.
    + destruct H7 as [Hl Hown]. split; [done |]. rewrite Ho; [done |]. rewrite decide_True by done. lia.
    + destruct H7 as (Hh & e & s & x & l & n & -> & Hn & Hc). split; [done |].
      exists e, s, x, l, n. split; [done |]. split; [done |].
      destruct Hc as [(? & ? & ? & Hex) | ?]; [left | by right].
      do 3 (split; [done |]). intros He. destruct (Hex He). split; [done |]. rewrite Ho; [done | lia].
    + destruct (Hq eq_refl) as [-> | [_ []]]. done.
    + destruct (Hq eq_refl) as [-> | [_ []]]. done.
    + destruct (Hq eq_refl) as [-> | [_ []]]. done.
Qed.

(** The change of the word must match the change of the thread; the owner
    changes only if the thread owns the lock, the ring only inside a
    MTX_EXLINK section. *)
Lemma inv_put w i t m' t' e s x l n e' s' x' l' n' :
  Inv w -> w_thr w !! i = Some t ->
  word_ok e s x l n (mtx_link (w_mtx w)) (w_thr w) ->
  mtx_lock m' = word e' s' x' l' n' -> 0 <= n' < 2 ^ 28 ->
  n' - n = own t' + t_sh t' - (own t + t_sh t) ->
  b2z e' - b2z e = owns t' - owns t ->
  (e' = true -> sumf t_sh (w_thr w) - t_sh t + t_sh t' = 0) ->
  b2z l' - b2z l = inlink t' - inlink t ->
  (x' = true <-> mtx_link m' <> [] \/ 0 < sumf pend (w_thr w) - pend t + pend t') ->
  (n' = 0 -> e' = false /\ s' = false /\ x' = false) ->
  mtx_owner m' = mtx_owner (w_mtx w) /\ (mtx_owner m' = Some i -> 0 < own t') \/
    0 < own t /\
    (mtx_owner m' = None \/ mtx_owner m' = Some i /\ 0 < own t') ->
  mtx_link m' = mtx_link (w_mtx w) /\ (waiting t -> waiting t') \/
    mtx_link m' = mtx_link (w_mtx w) ++ [i] /\ inlink t = 1 /\ ~ waiting t /\ waiting t' ->
  local_ok i t' m' ->
  Inv (put w i (m', t')).
Proof.
  intros Hinv Hi (Hn & Hsum & He & Hsh & Hl & Hx & Hz) Hlock Hn' Pn Pe Psh Pl Px Pz Po Pr Plo.
  assert (forall j u, j <> i -> w_thr w !! j = Some u ->
    (0 < own u -> mtx_owner m' = mtx_owner (w_mtx w)) /\
    (inlink u = 1 -> mtx_link m' = mtx_link (w_mtx w) \/ waiting u) /\
    (waiting u -> j ∈ mtx_link (w_mtx w) -> j ∈ mtx_link m')) as Hothers.
  { intros j u Hj Hu. split_and!.
    - intros Hown. destruct Po as [[-> _] | [Hot _]]; [done |].
      destruct Hj. by eapply one_owner.
    - intros Hil. destruct Pr as [[-> _] | (_ & Hit & _)]; [by left |].
      destruct Hj. by eapply one_inlink.
    - intros _ Hin. destruct Pr as [[-> _] | (-> & _)]; [done |].
      apply elem_of_app. by left. }
  constructor; simpl.
  - exists e', s', x', l', n'. split; [done |].
    unfold word_ok. rewrite !(sumf_insert _ _ _ t) by done. split_and!; try done; try lia; auto.
  - intros k Hk. destruct (decide (k = i)) as [-> | Hne].
    + exists t'. split; [apply list_lookup_insert_eq; by eapply lookup_lt_Some |].
      destruct Po as [[_ H] | [_ [H | [_ H]]]]; [by apply H | by rewrite H in Hk | done].
    + rewrite list_lookup_insert_ne by done. destruct Po as [[E _] | [_ [E | [E _]]]]; rewrite E in Hk.
      * by apply (inv_owner w Hinv).
      * done.
      * by injection Hk as ->.
  - destruct Pr as [[-> _] | (-> & _ & Hnw & _)]; [by apply (inv_ring w Hinv) |].
    apply NoDup_app. split; [by apply (inv_ring w Hinv) |]. split; [| apply NoDup_singleton].
    intros k Hk ->%list_elem_of_singleton. destruct (inv_waiting w Hinv i Hk) as (u & Hu & Hwu).
    rewrite Hi in Hu. by injection Hu as <-.
  - intros k Hk. assert (k ∈ mtx_link (w_mtx w) \/ k = i /\ waiting t') as [Hin | [-> Hw']].
    { destruct Pr as [[E _] | (E & _ & _ & Hw)]; rewrite E in Hk; [by left |].
      apply elem_of_app in Hk as [? | ->%list_elem_of_singleton]; [by left | by right]. }
    + destruct (inv_waiting w Hinv k Hin) as (u & Hu & Hwu).
      destruct (decide (k = i)) as [-> | Hne].
      * rewrite Hi in Hu. injection Hu as <-. exists t'.
        split; [apply list_lookup_insert_eq; by eapply lookup_lt_Some |].
        destruct Pr as [[_ H] | (_ & _ & H & _)]; [by apply H | done].
      * exists u. by rewrite list_lookup_insert_ne.
    + exists t'. split; [apply list_lookup_insert_eq; by eapply lookup_lt_Some | done].
  - intros j u Hu. destruct (decide (j = i)) as [-> | Hne].
    + rewrite list_lookup_insert_eq in Hu by (by eapply lookup_lt_Some). by injection Hu as <-.
    + rewrite list_lookup_insert_ne in Hu by done. destruct (Hothers j u Hne Hu) as (Ha & Hb & Hc).
      eapply local_ok_stable; [by apply (inv_local w Hinv) | done | done | done].
Qed.
