(* ===== verification/MutexSteps.v ===== *)
(** * Mutual exclusion of the kernel mutex: every step keeps the invariant *)

From stdpp Require Import prelude list strings.
From S2P Require Import Prelude.
From S2P Require Import Sums.
From S2P Require Import Mutex.
From S2P Require Import MutexInv.
Open Scope Z_scope.

(** The one assertion that can fail: 2^28 - 1 holds are counted already. *)
Definition overflow {A} : outcome A := Fault (Panic "(lock & MTX_MASK) != MTX_MASK").

Section Step.
Context (w : world) (i : nat) (t : thr) (e s x l : bool) (n : Z).
Hypothesis Hinv : Inv w.
Hypothesis Hi : w_thr w !! i = Some t.
Hypothesis Hlock : mtx_lock (w_mtx w) = word e s x l n.
Hypothesis Hok : word_ok e s x l n (mtx_link (w_mtx w)) (w_thr w).

Definition keeps (r : local) : Prop :=
  (exists m' t', r = Done (m', t') /\ Inv (put w i (m', t'))) \/ r = overflow.

Lemma n_range : 0 <= n < 2 ^ 28.
Proof. by destruct Hok. Qed.

Lemma local_t : local_ok i t (w_mtx w).
Proof. by apply (inv_local w Hinv). Qed.

Lemma own_t_nonneg : 0 <= own t /\ 0 <= t_ex t /\ 0 <= t_sh t.
Proof. destruct local_t as (? & ? & _). split; [by apply own_nonneg | done]. Qed.

(** What the word says about the holds of the thread. *)
Lemma holds_le : own t + t_sh t <= n.
Proof.
  destruct Hok as (_ & -> & _).
  pose proof (sumf_ge own (w_thr w) i t ltac:(intros; by eapply own_all) Hi).
  pose proof (sumf_ge t_sh (w_thr w) i t ltac:(intros; by eapply ex_nonneg) Hi). lia.
Qed.

Lemma owner_flag : 0 < own t -> e = true.
Proof.
  intros Ho. destruct Hok as (_ & _ & He & _).
  pose proof (sumf_ge owns (w_thr w) i t ltac:(intros; apply owns_bounds) Hi).
  rewrite owns_pos in * by done. destruct e; [done |]. simpl in *. lia.
Qed.

Lemma exclusive_no_shared : e = true -> t_sh t = 0.
Proof.
  intros E. destruct Hok as (_ & _ & _ & Hs & _). specialize (Hs E).
  pose proof (sumf_ge t_sh (w_thr w) i t ltac:(intros; by eapply ex_nonneg) Hi).
  destruct own_t_nonneg as (_ & _ & ?). lia.
Qed.

(** The exclusive holds are all of one thread. *)
Lemma owner_has_all : 0 < own t -> own t = n.
Proof.
  intros Ho. pose proof (owner_flag Ho) as E. destruct Hok as (_ & -> & He & Hs & _).
  rewrite (Hs E), Z.add_0_r.
  assert (forall ts j, ts !! j = Some t -> (forall a, a ∈ ts -> 0 <= own a) ->
    sumf owns ts <= 1 -> sumf own ts = own t) as H.
  { induction ts as [| a ts IH]; intros [| j] Hj Hnn Hle; simplify_eq/=.
    - rewrite owns_pos in Hle by done. assert (sumf own ts = 0); [| lia].
      assert (sumf owns ts = 0) as Hz.
      { pose proof (sumf_nonneg owns ts ltac:(intros; apply owns_bounds)). lia. }
      clear -Hz Hnn. induction ts as [| a ts IH]; simpl in *; [done |].
      pose proof (owns_bounds a). pose proof (sumf_nonneg owns ts ltac:(intros; apply owns_bounds)).
      rewrite IH; [| intros b Hb; apply Hnn; set_solver | lia].
      pose proof (Hnn a ltac:(set_solver)). destruct (Z.lt_ge_cases 0 (own a)); [| lia].
      rewrite (owns_pos a) in * by done. lia.
    - pose proof (sumf_ge owns ts j t ltac:(intros; apply owns_bounds) Hj) as Hge.
      rewrite owns_pos in Hge by done. pose proof (owns_bounds a).
      rewrite (IH j); [| done | intros b Hb; apply Hnn; by right | lia].
      pose proof (Hnn a ltac:(by left)). destruct (Z.lt_ge_cases 0 (own a)); [| lia].
      rewrite (owns_pos a) in * by done. lia. }
  symmetry. apply (H _ i Hi); [intros; by eapply own_all |]. pose proof (b2z_bounds e). lia.
Qed.

Lemma inlink_flag : inlink t = 1 -> l = true.
Proof.
  intros Ht. destruct Hok as (_ & _ & _ & _ & Hl & _).
  pose proof (sumf_ge inlink (w_thr w) i t ltac:(intros; apply inlink_bounds) Hi).
  destruct l; [done |]. simpl in *. lia.
Qed.

Lemma pend_le : sumf pend (w_thr w) <= b2z l.
Proof.
  destruct Hok as (_ & _ & _ & _ & -> & _). clear.
  induction (w_thr w) as [| a ts IH]; simpl; [lia |]. pose proof (pend_inlink a). lia.
Qed.

(** Without MTX_EXLINK an announced waiter is on the ring. *)
Lemma ring_not_empty : x = true -> l = false -> mtx_link (w_mtx w) <> [].
Proof.
  intros Ex El. destruct (Hok) as (_ & _ & _ & _ & _ & Hx & _). apply Hx in Ex as [? | Hp]; [done |].
  pose proof pend_le as Hle. rewrite El in Hle. simpl in Hle. lia.
Qed.

(** A step that only moves the thread. *)
Lemma keeps_stay t' :
  own t' = own t -> t_sh t' = t_sh t -> inlink t' = inlink t -> pend t' = pend t ->
  (waiting t -> waiting t') -> local_ok i t' (w_mtx w) -> keeps (mret (w_mtx w, t')).
Proof.
  intros H1 H2 H3 H4 H5 H6. left. eexists _, _. split; [done |].
  eapply inv_put; try done; try apply Hok.
  - lia.
  - unfold owns. rewrite H1. lia.
  - rewrite H2. destruct Hok as (_ & _ & _ & Hs & _). intros E. specialize (Hs E). lia.
  - lia.
  - rewrite H4. destruct Hok as (_ & _ & _ & _ & _ & -> & _).
    by replace (sumf pend (w_thr w) - pend t + pend t) with (sumf pend (w_thr w)) by lia.
  - left. split; [done |]. intros Ho. rewrite H1. destruct (inv_owner w Hinv i Ho) as (u & Hu & Hp).
    rewrite Hi in Hu. by injection Hu as <-.
  - by left.
Qed.

Lemma keeps_same : keeps (mret (w_mtx w, t)).
Proof. apply keeps_stay; try done. apply local_t. Qed.

(** The common part of [local_ok] when only the place changes. *)
Lemma local_at p :
  inlink (at_pc t p) = inlink t ->
  (unlocking t = true -> unlocking (at_pc t p) = true) ->
  knows i (at_pc t p) (w_mtx w) -> local_ok i (at_pc t p) (w_mtx w).
Proof.
  intros Hl Hu Hk. destruct local_t as (H1 & H2 & H3 & H4 & H5 & H6 & _).
  split_and!; simpl; try done.
  - by rewrite Hl.
  - intros Hex Hnu. apply H5; [done |]. destruct (unlocking t); [| done]. by rewrite Hu in Hnu.
Qed.

(** What a return leaves behind. *)
Lemma local_finish t' error m' :
  0 <= t_ex t' -> 0 <= t_sh t' -> t_link t' <> LINK_ABORTED -> t_crit t' = t_spin t' ->
  (0 < t_ex t' -> mtx_owner m' = Some i) -> local_ok i (finish t' error) m'.
Proof.
  intros H1 H2 H3 H4 H5. unfold local_ok. split_and!; simpl; try done.
  - unfold inlink. simpl. destruct (t_leave t'); lia.
  - intros. by apply H5.
  - intros. apply H5. lia.
Qed.

Ltac at_place Hpc :=
  unfold own, owns, inlink, pend, waiting, unlocking, knows; simpl; rewrite ?Hpc; simpl.

(** Prove [keeps] of a step to another place that changes nothing else. *)
Ltac goto Hpc :=
  apply keeps_stay;
  [ at_place Hpc; done || lia | done | at_place Hpc; done | at_place Hpc; done
  | at_place Hpc; by intros [_ []]
  | apply local_at; [at_place Hpc; done | at_place Hpc; done | at_place Hpc] ].

(** And of a return that changes no holds. *)
Ltac leave Hpc :=
  let H := fresh in
  pose proof local_t as H; unfold local_ok, inlink, unlocking in H; rewrite Hpc in H; simpl in H;
  apply keeps_stay;
  [ at_place Hpc; done || lia | done | at_place Hpc; done | at_place Hpc; done
  | at_place Hpc; by intros [_ []]
  | apply local_finish; simpl; naive_solver lia ].

(** The thread owns the lock after the step as it did before. *)
Ltac same_owns Hpc :=
  match goal with |- _ = owns ?a - owns ?b => rewrite (owns_eq a b); [lia | at_place Hpc; lia] end.

Ltac know Hpc H :=
  pose proof local_t as H; unfold local_ok, knows, inlink, unlocking in H; rewrite Hpc in H; simpl in H.

Lemma seen_now (P : bool -> bool -> bool -> bool -> Z -> Prop) :
  P e s x l n -> seen (word e s x l n) P.
Proof. intros. exists e, s, x, l, n. split; [done |]. split; [apply n_range | done]. Qed.

Lemma keeps_if (b : bool) r r' :
  (b = true -> keeps r) -> (b = false -> keeps r') -> keeps (if b then r else r').
Proof. destruct b; auto. Qed.

(** *** Exclusive locks *)

Lemma contend_ok k lock :
  t_pc t = ExLoop k \/ t_pc t = ExTest k lock ->
  seen lock (fun e s x l n => ~ (e = false /\ s = false /\ x = false /\ l = false /\ n = 0)) ->
  keeps (contend k lock (w_mtx w) t).
Proof.
  intros Hpc (e1 & s1 & x1 & l1 & n1 & -> & Hn1 & Hnz). unfold contend.
  destruct k; unfold lock_ex_contend, spinlock_contend, lock_ex_try_contend, spinlock_try_contend.
  - rewrite word_exlink by done. destruct l1, Hpc as [Hpc | Hpc]; goto Hpc; try done.
    + exists e1, s1, x1, false, n1. split; [done |]. split; [done |]. split; [done |]. naive_solver.
    + exists e1, s1, x1, false, n1. split; [done |]. split; [done |]. split; [done |]. naive_solver.
  - destruct Hpc as [Hpc | Hpc]; goto Hpc; done.
  - destruct Hpc as [Hpc | Hpc]; leave Hpc.
  - destruct Hpc as [Hpc | Hpc]; leave Hpc.
Qed.

Lemma ex_loop_ok k : t_pc t = ExLoop k -> keeps (ex_loop k (w_mtx w) t).
Proof.
  intros Hpc. unfold ex_loop. rewrite Hlock. pose proof n_range.
  change 0 with (word false false false false 0) at 1. rewrite word_eqb by lia.
  destruct (bool_decide_reflect (e = false /\ s = false /\ x = false /\ l = false /\ n = 0)) as [E | E].
  { goto Hpc. done. }
  rewrite word_exclusive by done. apply keeps_if; intros Ee.
  - goto Hpc. by apply seen_now.
  - apply contend_ok; [by left |]. by apply seen_now.
Qed.

Lemma ex_test_ok k lock : t_pc t = ExTest k lock -> keeps (ex_test i k lock (w_mtx w) t).
Proof.
  intros Hpc. know Hpc K. destruct K as (_ & _ & _ & _ & _ & _ & e1 & s1 & x1 & l1 & n1 & -> & Hn1 & ->).
  unfold ex_test. destruct (decide _) as [Ho | Ho].
  - unfold KKASSERT. rewrite word_mask by done. destruct (Z.eqb_spec n1 MTX_MASK) as [E | E].
    { by right. }
    cbn [negb]. rewrite bind_Done_l. goto Hpc. split.
    + destruct (inv_owner w Hinv i Ho) as (u & Hu & Hp). rewrite Hi in Hu. injection Hu as <-.
      unfold own in Hp. rewrite Hpc in Hp. lia.
    + exists true, s1, x1, l1, n1. unfold MTX_MASK in E. split_and!; done || lia.
  - apply contend_ok; [by right |]. exists true, s1, x1, l1, n1. split; [done |]. split; [done |]. naive_solver.
Qed.

(** A compare-and-set that fails sends the thread back. *)
Lemma keeps_cas lock new (f : mtx -> local) g :
  (mtx_lock (w_mtx w) = lock -> keeps (f (set_lock (w_mtx w) new))) -> keeps g ->
  keeps (match cmpset (w_mtx w) lock new with Some m => f m | None => g end).
Proof.
  intros Hf Hg. unfold cmpset. destruct (Z.eqb_spec (mtx_lock (w_mtx w)) lock); auto.
Qed.

Lemma sums_nonneg : 0 <= sumf own (w_thr w) /\ 0 <= sumf t_sh (w_thr w) /\ 0 <= sumf pend (w_thr w).
Proof.
  split_and!; apply sumf_nonneg.
  - intros. by eapply own_all.
  - intros. by eapply ex_nonneg.
  - intros. apply pend_inlink.
Qed.

(** A step that changes the word but neither the owner nor the ring. *)
Lemma keeps_word t' e' s' x' l' n' :
  0 <= n' < 2 ^ 28 ->
  n' - n = own t' + t_sh t' - (own t + t_sh t) ->
  b2z e' - b2z e = owns t' - owns t ->
  (e' = true -> sumf t_sh (w_thr w) - t_sh t + t_sh t' = 0) ->
  b2z l' - b2z l = inlink t' - inlink t ->
  (x' = x /\ pend t' = pend t \/ x' = true /\ pend t' = 1 \/
   x' = false /\ mtx_link (w_mtx w) = [] /\ pend t = 1 /\ pend t' = 0) ->
  (n' = 0 -> e' = false /\ s' = false /\ x' = false) ->
  (0 < own t -> 0 < own t' \/ mtx_owner (w_mtx w) <> Some i) ->
  (waiting t -> waiting t') -> local_ok i t' (w_mtx w) ->
  keeps (mret (set_lock (w_mtx w) (word e' s' x' l' n'), t')).
Proof.
  intros H1 H2 H3 H4 H5 Hx H8 H9 H10 H11. left. eexists _, _. split; [done |].
  destruct (Hok) as (_ & _ & _ & _ & _ & Hx1 & _). destruct sums_nonneg as (_ & _ & Hp).
  pose proof (sumf_ge pend (w_thr w) i t ltac:(intros; apply pend_inlink) Hi).
  eapply inv_put; try done; simpl.
  - destruct Hx as [[-> Ep] | [(-> & Ep) | (-> & Eq & Ep & Ep')]].
    + rewrite Hx1, Ep. by replace (sumf pend (w_thr w) - pend t + pend t) with (sumf pend (w_thr w)) by lia.
    + split; [right; lia | done].
    + split; [done |]. rewrite Eq. pose proof pend_le. pose proof (b2z_bounds l). intros [? | ?]; [done | lia].
  - left. split; [done |]. intros Ho. destruct (inv_owner w Hinv i Ho) as (u & Hu & Hu0).
    rewrite Hi in Hu. injection Hu as <-. by destruct (H9 Hu0).
  - left. done.
Qed.

(** The lock is free. *)
Lemma free_word :
  mtx_lock (w_mtx w) = 0 ->
  e = false /\ s = false /\ x = false /\ l = false /\ n = 0 /\
  own t = 0 /\ t_sh t = 0 /\ sumf t_sh (w_thr w) = 0.
Proof.
  rewrite Hlock. intros E. change 0 with (word false false false false 0) in E.
  pose proof n_range. apply word_inj in E as (Ee & Es & Ex & El & En); [| done | lia].
  pose proof holds_le. pose proof own_t_nonneg. pose proof sums_nonneg.
  destruct Hok as (_ & Hs & _). split_and!; done || lia.
Qed.

Lemma take_free k k' :
  mtx_lock (w_mtx w) = 0 -> t_pc t = ExFast k \/ t_pc t = ExCas0 k ->
  keeps (mret (set_lock (w_mtx w) (Z.lor MTX_EXCLUSIVE 1), at_pc t (ExOwner k'))).
Proof.
  intros H0 Hpc. destruct (free_word H0) as (Ee & Es & Ex & El & En & Ho & Hsh & Hsum).
  change (Z.lor MTX_EXCLUSIVE 1) with (word true false false false 1).
  assert (t_ex t = 0) as Hex by (pose proof (own_ge_ex t); pose proof own_t_nonneg; lia).
  assert (own (at_pc t (ExOwner k')) = 1) as Ho' by (unfold own; simpl; lia).
  apply keeps_word; rewrite ?Ho, ?Ho', ?En, ?Ee, ?El; simpl; try lia.
  - by rewrite owns_pos, owns_zero by lia.
  - destruct Hpc as [Hpc | Hpc]; at_place Hpc; done.
  - left. split; [done |]. destruct Hpc as [Hpc | Hpc]; at_place Hpc; done.
  - destruct Hpc as [Hpc | Hpc]; at_place Hpc; by intros [_ []].
  - apply local_at; destruct Hpc as [Hpc | Hpc]; at_place Hpc; done.
Qed.

Lemma ex_fast_ok k : t_pc t = ExFast k -> keeps (ex_fast k (w_mtx w) t).
Proof.
  intros Hpc. unfold ex_fast. apply keeps_cas.
  - intros H0. eapply take_free; eauto.
  - destruct k as [[] | | |]; try (goto Hpc; done).
    know Hpc K. destruct K as (? & ? & ? & ? & ? & ? & _).
    apply keeps_stay; try (at_place Hpc; done || lia || by intros [_ []]).
Qed.

Lemma ex_cas0_ok k : t_pc t = ExCas0 k -> keeps (ex_cas0 k (w_mtx w) t).
Proof.
  intros Hpc. unfold ex_cas0. apply keeps_cas.
  - intros H0. eapply take_free; eauto.
  - goto Hpc. done.
Qed.

(** A step of the owner of the lock that sets the owner field to itself. *)
Lemma keeps_set_owner t' :
  0 < own t -> own t' = own t -> t_sh t' = t_sh t -> inlink t' = inlink t -> pend t' = pend t ->
  (waiting t -> waiting t') -> local_ok i t' (set_owner (w_mtx w) (Some i)) ->
  keeps (mret (set_owner (w_mtx w) (Some i), t')).
Proof.
  intros H0 H1 H2 H3 H4 H5 H6. left. eexists _, _. split; [done |].
  eapply inv_put; try done; try apply Hok.
  - lia.
  - unfold owns. rewrite H1. lia.
  - rewrite H2. destruct Hok as (_ & _ & _ & Hs & _). intros E. specialize (Hs E). lia.
  - lia.
  - rewrite H4. destruct Hok as (_ & _ & _ & _ & _ & -> & _).
    by replace (sumf pend (w_thr w) - pend t + pend t) with (sumf pend (w_thr w)) by lia.
  - right. split; [done |]. right. split; [done | lia].
  - by left.
Qed.

Lemma local_return k t' m' :
  0 <= t_ex t' -> 0 <= t_sh t' -> t_link t' <> LINK_ABORTED -> t_crit t' = t_spin t' ->
  0 < t_ex t' -> mtx_owner m' = Some i -> local_ok i (ex_return k t') m'.
Proof.
  intros. destruct k; try (apply local_finish; by auto).
  unfold ex_return. split_and!; simpl; try done; try lia; unfold inlink; simpl; lia.
Qed.

Lemma own_return k t' : own (ex_return k t') = t_ex t'.
Proof. destruct k; unfold own; simpl; lia. Qed.

Lemma place_return k t' :
  t_sh (ex_return k t') = t_sh t' /\ inlink (ex_return k t') = 0 /\ pend (ex_return k t') = 0.
Proof. by destruct k. Qed.

Lemma ex_owner_ok k : t_pc t = ExOwner k -> keeps (ex_owner i k (w_mtx w) t).
Proof.
  intros Hpc. know Hpc K. destruct K as (? & ? & ? & ? & ? & ? & _).
  destruct (place_return k (add_holds t 1 0)) as (Hr1 & Hr2 & Hr3).
  apply keeps_set_owner.
  - unfold own. rewrite Hpc. lia.
  - rewrite own_return. unfold own. rewrite Hpc. done.
  - rewrite Hr1. simpl. lia.
  - rewrite Hr2. by at_place Hpc.
  - rewrite Hr3. by at_place Hpc.
  - unfold waiting. rewrite Hpc. by intros [_ []].
  - apply local_return; simpl; try done; lia.
Qed.

Lemma sp_owner_ok : t_pc t = SpOwner -> keeps (sp_owner i (w_mtx w) t).
Proof.
  intros Hpc. know Hpc K. destruct K as (? & ? & ? & ? & ? & ? & ?).
  apply keeps_set_owner; try (at_place Hpc; done || lia || by intros [_ []]).
  apply local_finish; simpl; try done; lia.
Qed.

Lemma ex_rec_ok k lock : t_pc t = ExRec k lock -> keeps (ex_rec k lock (w_mtx w) t).
Proof.
  intros Hpc. know Hpc K.
  destruct K as (? & ? & ? & ? & Hown & ? & Hex & e1 & s1 & x1 & l1 & n1 & -> & Hn1 & Hn2).
  unfold ex_rec. apply keeps_cas; [| goto Hpc; done].
  intros E. rewrite Hlock in E. pose proof n_range.
  apply word_inj in E as (<- & <- & <- & <- & <-); [| done | done].
  rewrite word_succ by done. assert (own t = t_ex t) as Ho by (unfold own; rewrite Hpc; lia).
  assert (e = true) as Ee by (apply owner_flag; lia).
  destruct (place_return k (add_holds t 1 0)) as (Hr1 & Hr2 & Hr3).
  apply keeps_word; rewrite ?own_return, ?Hr1, ?Hr2, ?Hr3; simpl; try lia.
  - rewrite !owns_pos by (rewrite ?own_return; simpl; lia). lia.
  - intros _. destruct Hok as (_ & _ & _ & Hs & _). rewrite (Hs Ee). lia.
  - at_place Hpc. lia.
  - left. split; [done |]. by at_place Hpc.
  - unfold waiting. rewrite Hpc. by intros [_ []].
  - apply local_return; simpl; try done; try lia. by apply Hown.
Qed.

Lemma ex_link_ok k lock : t_pc t = ExLink k lock -> keeps (ex_link k lock (w_mtx w) t).
Proof.
  intros Hpc. know Hpc K.
  destruct K as (? & ? & ? & ? & Hown & ? & e1 & s1 & x1 & l1 & n1 & -> & Hn1 & Hl1 & Hnz).
  unfold ex_link. apply keeps_cas; [| goto Hpc; done].
  intros E. rewrite Hlock in E. pose proof n_range.
  apply word_inj in E as (<- & <- & <- & <- & <-); [| done | done].
  rewrite word_add_exwanted, word_add_exlink by done.
  destruct (Hok) as (_ & _ & _ & Hs & _ & _ & Hz).
  apply keeps_word; [done | at_place Hpc; lia | same_owns Hpc | | | | | | at_place Hpc; by intros [_ []] |].
  - intros Ee. rewrite (Hs Ee). simpl. lia.
  - at_place Hpc. rewrite Hl1. done.
  - right; left. by at_place Hpc.
  - intros Hn0. destruct (Hz Hn0) as (? & ? & ?). exfalso. by apply Hnz.
  - at_place Hpc. left. lia.
  - split_and!; simpl; try done; try (at_place Hpc; done || lia); auto.
Qed.

Lemma ex_linking_ok k : t_pc t = ExLinking k -> keeps (ex_linking i k (w_mtx w) t).
Proof.
  intros Hpc. know Hpc K. destruct K as (? & ? & Hab & ? & Hown & ? & _).
  unfold ex_linking. rewrite decide_False by done. left. eexists _, _. split; [done |].
  destruct (Hok) as (? & ? & ? & Hs & ? & Hx & Hz).
  pose proof (sumf_ge pend (w_thr w) i t ltac:(intros; apply pend_inlink) Hi) as Hp.
  assert (pend t = 1) as Ep by (by at_place Hpc). assert (x = true) as Ex by (apply Hx; right; lia).
  eapply (inv_put _ _ _ _ _ e s x l n e s x l n);
    [done | done | done | done | done | at_place Hpc; lia | same_owns Hpc | | at_place Hpc; lia | | done | | |].
  - intros Ee. rewrite (Hs Ee). simpl. lia.
  - split; [| done]. intros _. left. simpl. unfold ring_insert. by destruct (mtx_link (w_mtx w)).
  - left. split; [done |]. intros Ho. destruct (inv_owner w Hinv i Ho) as (u & Hu & Hu0).
    rewrite Hi in Hu. injection Hu as <-. revert Hu0. at_place Hpc. lia.
  - right. split_and!; try done.
    + by at_place Hpc.
    + unfold waiting. rewrite Hpc. by intros [_ []].
  - split_and!; simpl; try done; try (at_place Hpc; done || lia).
    at_place Hpc. split; [done |]. apply elem_of_app. right. by apply list_elem_of_singleton.
Qed.

Lemma ex_unlink_ok k : t_pc t = ExUnlink k -> keeps (ex_unlink k (w_mtx w) t).
Proof.
  intros Hpc. know Hpc K. destruct K as (? & ? & ? & ? & Hown & ? & Hl & Hin).
  assert (inlink t = 1) as Ht by (by at_place Hpc). pose proof (inlink_flag Ht) as El.
  unfold ex_unlink, atomic_clear. rewrite Hlock, word_drop_exlink by apply n_range.
  destruct (Hok) as (Hn & _ & _ & Hs & _ & _ & Hz).
  apply keeps_word; [done | | | | | | done | | |].
  - at_place Hpc. rewrite Hl, decide_False by done. lia.
  - rewrite (owns_eq _ t); [lia |]. at_place Hpc. by rewrite Hl, decide_False.
  - intros Ee. rewrite (Hs Ee). simpl. lia.
  - rewrite El. at_place Hpc. done.
  - left. by at_place Hpc.
  - at_place Hpc. rewrite Hl, decide_False by done. by left.
  - at_place Hpc. done.
  - split_and!; simpl; try done; try (at_place Hpc; done || lia). left. done.
Qed.

Lemma ex_wake_ok k error : t_pc t = ExWake k error -> keeps (ex_wake k error (w_mtx w) t).
Proof.
  intros Hpc. know Hpc K. destruct K as (? & ? & ? & ? & ? & ? & Hl & Ho).
  unfold ex_wake. rewrite decide_False by (by rewrite Hl). goto Hpc. done.
Qed.

Lemma ex_post_ok k error : t_pc t = ExPost k error -> keeps (ex_post i k error (w_mtx w) t).
Proof.
  intros Hpc. know Hpc K. destruct K as (? & ? & ? & ? & ? & ? & Hl & Ho).
  unfold ex_post. rewrite Hl. unfold KKASSERT. rewrite bool_decide_true by done. rewrite bind_Done_l.
  apply keeps_stay; try (at_place Hpc; done || lia || by intros [_ []]).
  - at_place Hpc. rewrite Hl, decide_True by done. lia.
  - apply local_finish; simpl; try done; lia.
Qed.

(** *** Shared locks *)

(** One more shared hold: nobody owns the lock. *)
Lemma share_ok (fast : bool) try lock :
  t_pc t = (if fast then ShFast try else ShCas try lock) -> e = false -> n + 1 < 2 ^ 28 ->
  keeps (mret (set_lock (w_mtx w) (word e s x l (n + 1)), finish (add_holds t 0 1) 0)).
Proof.
  intros Hpc Ee Hn. know Hpc K. pose proof n_range.
  assert (own t = t_ex t) as Ho by (unfold own; rewrite Hpc; destruct fast; simpl; lia).
  assert (own (finish (add_holds t 0 1) 0) = own t) as Ho' by (rewrite Ho; unfold own; simpl; lia).
  apply keeps_word; rewrite ?Ho'; simpl; try lia.
  - by rewrite (owns_eq _ _ Ho'), !Z.sub_diag.
  - intros E. congruence.
  - unfold inlink. simpl. rewrite Hpc. destruct fast; simpl; lia.
  - left. split; [done |]. unfold pend. simpl. rewrite Hpc. by destruct fast.
  - unfold waiting. rewrite Hpc. destruct fast; by intros [_ []].
  - destruct fast; apply local_finish; simpl; naive_solver lia.
Qed.

Lemma sh_fast_ok try : t_pc t = ShFast try -> keeps (sh_fast try (w_mtx w) t).
Proof.
  intros Hpc. unfold sh_fast. apply keeps_cas; [| goto Hpc; done].
  intros H0. destruct (free_word H0) as (Ee & Es & Ex & El & En & _).
  change 1 with (word false false false false (0 + 1)) at 1.
  rewrite <- Ee at 1. rewrite <- Es at 1. rewrite <- Ex at 1. rewrite <- El at 1. rewrite <- En at 1.
  apply (share_ok true try 0); [done | done | lia].
Qed.

Lemma sh_loop_ok try : t_pc t = ShLoop try -> keeps (sh_loop try (w_mtx w) t).
Proof.
  intros Hpc. unfold sh_loop. pose proof n_range. rewrite Hlock, word_exclusive, word_mask by done.
  apply keeps_if; intros Ee.
  - apply negb_true_iff in Ee. unfold KKASSERT. destruct (Z.eqb_spec n MTX_MASK) as [E | E]; [by right |].
    cbn [negb]. rewrite bind_Done_l. goto Hpc. apply seen_now. unfold MTX_MASK in E. split; [done | lia].
  - apply negb_false_iff in Ee. destruct try; [leave Hpc | goto Hpc; by apply seen_now].
Qed.

Lemma sh_cas_ok try lock : t_pc t = ShCas try lock -> keeps (sh_cas try lock (w_mtx w) t).
Proof.
  intros Hpc. know Hpc K.
  destruct K as (_ & _ & _ & _ & _ & _ & e1 & s1 & x1 & l1 & n1 & -> & Hn1 & He1 & Hn2).
  unfold sh_cas. apply keeps_cas; [| goto Hpc; done].
  intros E. rewrite Hlock in E. pose proof n_range.
  apply word_inj in E as (<- & <- & <- & <- & <-); [| done | done].
  rewrite word_succ by done. eapply (share_ok false try); done.
Qed.

Lemma sh_want_ok lock : t_pc t = ShWant lock -> keeps (sh_want lock (w_mtx w) t).
Proof.
  intros Hpc. know Hpc K.
  destruct K as (? & ? & ? & ? & ? & ? & e1 & s1 & x1 & l1 & n1 & -> & Hn1 & He1).
  unfold sh_want. apply keeps_cas; [| goto Hpc; done].
  intros E. rewrite Hlock in E. pose proof n_range.
  apply word_inj in E as (<- & <- & <- & <- & <-); [| done | done].
  rewrite word_add_shwanted by done. destruct (Hok) as (_ & _ & _ & Hs & _ & _ & Hz).
  apply keeps_word; [done | at_place Hpc; lia | same_owns Hpc | | at_place Hpc; lia | | | | at_place Hpc; by intros [_ []] |].
  - intros Ee. rewrite (Hs Ee). simpl. lia.
  - left. by at_place Hpc.
  - intros Hn0. destruct (Hz Hn0) as (? & _). congruence.
  - at_place Hpc. by left.
  - apply local_at; at_place Hpc; done.
Qed.

(** *** Upgrades *)

Lemma up_loop_ok : t_pc t = UpLoop -> keeps (up_loop (w_mtx w) t).
Proof.
  intros Hpc. know Hpc K. destruct K as (? & ? & ? & ? & Hown & ? & Hh). pose proof n_range.
  unfold up_loop. rewrite Hlock, word_drop_exwanted, word_exclusive by done.
  change 1 with (word false false false false 1) at 1. rewrite word_eqb by lia.
  destruct (bool_decide_reflect (e = false /\ s = false /\ false = false /\ l = false /\ n = 1)) as [E | E].
  - goto Hpc. split; [done |]. apply seen_now. naive_solver.
  - apply keeps_if; intros Ee.
    + goto Hpc. pose proof (exclusive_no_shared Ee). lia.
    + leave Hpc.
Qed.

Lemma up_cas_ok lock : t_pc t = UpCas lock -> keeps (up_cas lock (w_mtx w) t).
Proof.
  intros Hpc. know Hpc K.
  destruct K as (? & ? & ? & ? & Hown & ? & Hh & e1 & s1 & x1 & l1 & n1 & -> & Hn1 & He1 & Hs1 & Hl1 & Hn2).
  unfold up_cas. apply keeps_cas; [| goto Hpc; done].
  intros E. rewrite Hlock in E. pose proof n_range.
  apply word_inj in E as (<- & <- & <- & <- & <-); [| done | done].
  rewrite word_add_exclusive by done. destruct (Hok) as (_ & Hsum & He & Hs & _ & _ & Hz).
  assert (own t = t_ex t) as Ho by (unfold own; rewrite Hpc; lia).
  assert (t_ex t = 0) as Hex.
  { destruct (Z.lt_ge_cases 0 (own t)) as [Hp | ?]; [| lia]. apply owner_flag in Hp. congruence. }
  assert (t_sh t = 1) as Hsh by (pose proof holds_le; lia).
  assert (own (at_pc (add_holds t 0 (-1)) UpOwner) = 1) as Ho' by (unfold own; simpl; lia).
  pose proof sums_nonneg as (Hs1' & _ & _).
  pose proof (sumf_ge t_sh (w_thr w) i t ltac:(intros; by eapply ex_nonneg) Hi).
  apply keeps_word; [done | rewrite Ho'; simpl; lia | | | at_place Hpc; lia | | lia | lia | at_place Hpc; by intros [_ []] |].
  - rewrite owns_pos, owns_zero, He1 by lia. done.
  - intros _. simpl. lia.
  - left. by at_place Hpc.
  - split_and!; simpl; try done; lia.
Qed.

Lemma up_owner_ok : t_pc t = UpOwner -> keeps (up_owner i (w_mtx w) t).
Proof.
  intros Hpc. know Hpc K. destruct K as (? & ? & ? & ? & ? & ? & _).
  apply keeps_set_owner; try (at_place Hpc; done || lia || by intros [_ []]).
  apply local_finish; simpl; try done; lia.
Qed.

Lemma up_test_ok : t_pc t = UpTest -> keeps (up_test i (w_mtx w) t).
Proof.
  intros Hpc. know Hpc K. destruct K as (? & ? & ? & ? & Hown & ? & Hex).
  unfold up_test, KKASSERT. rewrite bool_decide_true by (by apply Hown). rewrite bind_Done_l. leave Hpc.
Qed.

(** *** Unlock *)

(** The word the thread sees when it holds the lock and the count is one. *)
Lemma last_hold : 0 < t_ex t + t_sh t -> own t = t_ex t -> n = 1 ->
  (e = true -> t_ex t = 1 /\ t_sh t = 0) /\ (e = false -> t_ex t = 0 /\ t_sh t = 1).
Proof.
  intros Hh Ho En. pose proof holds_le. destruct own_t_nonneg as (_ & ? & ?). split; intros Ee.
  - pose proof (exclusive_no_shared Ee). lia.
  - destruct (Z.lt_ge_cases 0 (own t)) as [Hp | ?]; [| lia]. apply owner_flag in Hp. congruence.
Qed.

Lemma un_loop_ok : t_pc t = UnLoop -> keeps (un_loop (w_mtx w) t).
Proof.
  intros Hpc. know Hpc K. destruct K as (? & ? & ? & ? & _ & ? & Hh). pose proof n_range.
  assert (own t = t_ex t) as Ho by (unfold own; rewrite Hpc; lia).
  pose proof holds_le as Hle. pose proof (last_hold Hh Ho) as Hlast.
  unfold un_loop. cbv zeta. rewrite Hlock, word_drop_wanted, word_keep_exlink, word_exlink by done.
  change (word e false x false n =? 1) with (word e false x false n =? word false false false false 1).
  change (Z.lor MTX_EXCLUSIVE 1) with (word true false false false 1).
  change (Z.lor MTX_EXWANTED 1) with (word false false true false 1).
  change (Z.lor (Z.lor MTX_EXCLUSIVE MTX_EXWANTED) 1) with (word true false true false 1).
  rewrite !word_eqb by lia.
  apply keeps_if; [intros (Ee & _ & Ex & _ & En)%bool_decide_eq_true | intros E1%bool_decide_eq_false].
  { goto Hpc. split; [done |]. apply seen_now. left. split_and!; done || congruence. }
  apply keeps_if; [intros (Ee & _ & Ex & _ & En)%bool_decide_eq_true | intros E2%bool_decide_eq_false].
  { goto Hpc. split; [by apply Hlast |]. by apply seen_now. }
  apply keeps_if; [intros (Ee & _ & Ex & _ & En)%bool_decide_eq_true | intros E3%bool_decide_eq_false].
  { apply keeps_if; intros El; [apply keeps_same |]. goto Hpc. split; [done |].
    rewrite word_add_both, word_shwanted_of by done. apply seen_now. by rewrite Ex, En. }
  apply keeps_if; [intros (Ee & _ & Ex & _ & En)%bool_decide_eq_true | intros E4%bool_decide_eq_false].
  { apply keeps_if; intros El; [apply keeps_same |]. goto Hpc. split; [done |].
    rewrite word_add_exlink, word_shwanted_of by done. apply seen_now. by rewrite Ee, Ex, En. }
  assert (2 <= n) as Hn2.
  { destruct (decide (n = 1)); [| lia].
    destruct (decide (e = true)) as [He | He%not_true_is_false],
      (decide (x = true)) as [Hx | Hx%not_true_is_false]; exfalso; naive_solver. }
  rewrite word_pred, word_mask by lia. unfold KKASSERT.
  rewrite (proj2 (Z.eqb_neq _ _)) by (unfold MTX_MASK; lia). cbn [negb]. rewrite bind_Done_l.
  goto Hpc. split; [done |]. apply seen_now. by right.
Qed.

Lemma un_owner_ok lock : t_pc t = UnOwner lock -> keeps (un_owner lock (w_mtx w) t).
Proof.
  intros Hpc. know Hpc K.
  destruct K as (? & ? & ? & ? & _ & ? & Hex & e1 & s1 & x1 & l1 & n1 & -> & Hn1 & He1 & Hx1 & Hn2).
  unfold un_owner. rewrite word_keep_exlink by done. left. eexists _, _. split; [done |].
  assert (0 < own t) as Ho by (unfold own; rewrite Hpc; lia).
  destruct (Hok) as (? & ? & ? & Hs & ? & Hx & Hz).
  eapply (inv_put _ _ _ _ _ e s x l n e s x l n);
    [done | done | done | done | done | at_place Hpc; lia | same_owns Hpc | | at_place Hpc; lia | | done | | |].
  - intros Ee. rewrite (Hs Ee). simpl. lia.
  - rewrite Hx. replace (pend (at_pc t _)) with (pend t) by (by at_place Hpc).
    by replace (sumf pend (w_thr w) - pend t + pend t) with (sumf pend (w_thr w)) by lia.
  - right. split; [done |]. by left.
  - left. split; [done |]. at_place Hpc. by intros [_ []].
  - split_and!; simpl; try done; try lia; try (at_place Hpc; done || lia).
    at_place Hpc. split; [lia |]. exists e1, s1, x1, l1, n1. split; [done |]. split; [done |]. by left.
Qed.

(** The count goes down by one and the thread still has the rest. *)
Lemma un_cas_ok lock nlock : t_pc t = UnCas lock nlock -> keeps (un_cas lock nlock (w_mtx w) t).
Proof.
  intros Hpc. know Hpc K.
  destruct K as (Hex & Hsh & ? & ? & _ & Hown & Hh & e1 & s1 & x1 & l1 & n1 & -> & Hn1 & Hc).
  unfold un_cas. apply keeps_cas; [| goto Hpc; done].
  intros E. rewrite Hlock in E. pose proof n_range.
  apply word_inj in E as (<- & <- & <- & <- & <-); [| done | done].
  assert (own t = t_ex t) as Ho by (unfold own; rewrite Hpc; lia).
  assert (forall t', t' = finish (drop_hold t) 0 -> own t' + t_sh t' = own t + t_sh t - 1 /\
    t_ex t' = own t' /\ 0 <= t_ex t' <= t_ex t /\ 0 <= t_sh t' <= t_sh t) as Hdrop.
  { intros t' ->. rewrite Ho. unfold own, drop_hold. destruct (Z.ltb_spec 0 (t_ex t)); simpl; lia. }
  specialize (Hdrop _ eq_refl). remember (finish (drop_hold t) 0) as t' eqn:Et'.
  assert (inlink t' = 0 /\ pend t' = 0) as [Hil Hpe] by (by subst t').
  assert (inlink t = 0 /\ pend t = 0) as [Hil0 Hpe0] by (by unfold inlink, pend; rewrite Hpc).
  destruct (Hok) as (_ & Hsum & He & Hs & _ & Hx & Hz).
  assert (forall m', (0 < t_ex t' -> mtx_owner m' = Some i) -> local_ok i t' m') as Hloc.
  { intros m' Hm'. subst t'. unfold drop_hold in *.
    destruct (0 <? t_ex t); apply local_finish; simpl in *; try done; lia. }
  assert (waiting t -> waiting t') as Hw by (unfold waiting; rewrite Hpc; by intros [_ []]).
  destruct Hc as [(Hn2 & Hx1 & -> & Hlast) | (Hn2 & ->)].
  - destruct (last_hold Hh Ho Hn2) as [Hle Hlf].
    apply keeps_word; [lia | lia | | done | lia | | done | | done |].
    + destruct (decide (e = true)) as [Ee | Ee%not_true_is_false]; rewrite Ee.
      * destruct (Hle Ee). rewrite (owns_zero t'), (owns_pos t) by lia. done.
      * destruct (Hlf Ee). rewrite (owns_zero t'), (owns_zero t) by lia. done.
    + left. split; [done | congruence].
    + intros Hp. right. destruct (Hlast (owner_flag Hp)) as [_ ->]. done.
    + apply Hloc. pose proof holds_le. lia.
  - apply keeps_word; [lia | lia | | | lia | | lia | | done |].
    + destruct (Z.lt_ge_cases 0 (own t)) as [Hp | Hp].
      * pose proof (owner_has_all Hp). rewrite (owns_pos t'), (owns_pos t); [lia | done |].
        pose proof (exclusive_no_shared (owner_flag Hp)). lia.
      * rewrite (owns_zero t'), (owns_zero t) by lia. lia.
    + intros Ee. rewrite (Hs Ee). pose proof (exclusive_no_shared Ee). lia.
    + left. split; [done | congruence].
    + intros Hp. left. pose proof (owner_has_all Hp). pose proof (exclusive_no_shared (owner_flag Hp)). lia.
    + apply Hloc. intros Hp. apply Hown. destruct (Z.lt_ge_cases 0 (own t)) as [Hp' | ?]; [| lia].
      pose proof (owner_has_all Hp'). lia.
Qed.

Lemma un_chain_ok lock nlock : t_pc t = UnChain lock nlock -> keeps (un_chain lock nlock (w_mtx w) t).
Proof.
  intros Hpc. know Hpc K.
  destruct K as (Hex & Hsh & ? & ? & _ & Hown & Hh & e1 & s1 & x1 & l1 & n1 & -> & Hn1 & Hn2 & Hx1 & Hl1 & ->).
  unfold un_chain. apply keeps_cas; [| goto Hpc; done].
  intros E. rewrite Hlock in E. pose proof n_range.
  apply word_inj in E as (<- & <- & <- & <- & <-); [| done | done].
  assert (own t = t_ex t) as Ho by (unfold own; rewrite Hpc; lia).
  destruct (last_hold Hh Ho Hn2) as [Hle Hlf]. destruct (Hok) as (_ & Hsum & He & Hs & _ & Hx & Hz).
  set (t' := at_pc (add_crit (drop_hold t) 1) ChStart).
  assert (t_ex t' = 0 /\ t_sh t' = 0 /\ own t' = 1 /\ t_crit t' = t_crit t + 1 /\ t_spin t' = t_spin t) as (Hex' & Hsh' & Ho' & Hcr & Hsp).
  { unfold t', own, drop_hold. destruct (decide (e = true)) as [Ee | Ee%not_true_is_false].
    - destruct (Hle Ee). rewrite (proj2 (Z.ltb_lt _ _)) by lia. simpl. lia.
    - destruct (Hlf Ee). rewrite (proj2 (Z.ltb_ge _ _)) by lia. simpl. lia. }
  pose proof (ring_not_empty Hx1 Hl1) as Hring. pose proof sums_nonneg as (Hs1 & _ & _).
  pose proof (sumf_ge own (w_thr w) i t ltac:(intros; by eapply own_all) Hi).
  pose proof (sumf_ge t_sh (w_thr w) i t ltac:(intros; by eapply ex_nonneg) Hi).
  assert (own t + t_sh t = 1) as Hone by (pose proof holds_le; lia).
  apply keeps_word; [lia | lia | | intros _; lia | | | lia | lia | unfold waiting; rewrite Hpc; by intros [_ []] |].
  - rewrite (owns_pos t') by lia. destruct (decide (e = true)) as [Ee | Ee%not_true_is_false]; rewrite Ee.
    + destruct (Hle Ee). by rewrite owns_pos by lia.
    + destruct (Hlf Ee). by rewrite owns_zero by lia.
  - rewrite Hl1. at_place Hpc. done.
  - left. rewrite Hx1. by at_place Hpc.
  - split_and!; try lia.
    + unfold t', drop_hold. by destruct (0 <? t_ex t).
    + rewrite Hcr, Hsp. change (inlink t') with 1. lia.
    + unfold knows. simpl. done.
Qed.

Lemma ch_loop_ok link clock : t_pc t = ChLoop link clock -> keeps (ch_loop link clock (w_mtx w) t).
Proof.
  intros Hpc. know Hpc K. destruct K as (? & ? & ? & ? & ? & ? & Hl & Hc).
  unfold ch_loop. goto Hpc. split; [done |]. split; [done |]. rewrite Hlock. by apply seen_now.
Qed.

Lemma ch_cas_ok link clock lock : t_pc t = ChCas link clock lock -> keeps (ch_cas link clock lock (w_mtx w) t).
Proof.
  intros Hpc. know Hpc K.
  destruct K as (? & ? & ? & ? & Hown & ? & Hl & Hc & e1 & s1 & x1 & l1 & n1 & -> & Hn1 & _).
  unfold ch_cas. destruct link as [lk |]; [| done]. apply keeps_cas; [| goto Hpc; done].
  intros E. rewrite Hlock in E. pose proof n_range.
  apply word_inj in E as (<- & <- & <- & <- & <-); [| done | done].
  assert (inlink t = 1) as Ht by (by at_place Hpc). pose proof (inlink_flag Ht) as El.
  destruct (Hok) as (_ & Hsum & He & Hs & _ & Hx & Hz).
  assert (own (finish (add_crit t (-1)) 0) = own t) as Ho by (at_place Hpc; lia).
  assert (t_sh (finish (add_crit t (-1)) 0) = t_sh t) as Hsh' by done.
  assert (local_ok i (finish (add_crit t (-1)) 0) (w_mtx w)) as Hloc.
  { apply local_finish; simpl; try done; try lia. auto. }
  destruct Hc as [[-> Hq] | [-> Hq]].
  - rewrite word_drop_exlink by done.
    apply keeps_word; [done | lia | | | | | done | lia | unfold waiting; rewrite Hpc; by intros [_ []] | done].
    + rewrite (owns_eq _ _ Ho). lia.
    + intros Ee. rewrite (Hs Ee). simpl. lia.
    + rewrite El, Ht. done.
    + left. split; [done |]. unfold pend. by rewrite Hpc.
  - rewrite word_drop_both by done.
    apply keeps_word; [done | lia | | | | | | lia | unfold waiting; rewrite Hpc; by intros [_ []] | done].
    + rewrite (owns_eq _ _ Ho). lia.
    + intros Ee. rewrite (Hs Ee). simpl. lia.
    + rewrite El, Ht. done.
    + right; right. split; [done |]. split; [done |]. unfold pend. by rewrite Hpc.
    + intros Hn0. destruct (Hz Hn0) as (? & ? & ?). done.
Qed.

(** *** Sleeping, and new calls *)

Lemma sh_sleep_ok error : t_pc t = ShSleep -> keeps (sh_sleep error (w_mtx w) t).
Proof. intros Hpc. unfold sh_sleep. apply keeps_if; intros _; [leave Hpc | goto Hpc; done]. Qed.

Lemma ex_sleep_ok k error :
  t_pc t = ExSleep k -> t_link t <> LINK_LINKED -> keeps (ex_sleep k error (w_mtx w) t).
Proof.
  intros Hpc Hl. know Hpc K. destruct K as (? & ? & ? & ? & ? & ? & [[? _] | Ho]); [done |].
  unfold ex_sleep. apply keeps_stay.
  - at_place Hpc. done.
  - done.
  - by at_place Hpc.
  - by at_place Hpc.
  - unfold waiting. by intros [? _].
  - apply local_at; at_place Hpc; done.
Qed.

(** The calls of the fragment: no downgrade, no inline upgrade, no abort, and
    a thread unlocks or upgrades only what it holds. *)
Definition allowed_call (t : thr) (c : call) : Prop :=
  match c with
  | LockEx _ | LockSh | SpinLock | LockExTry | LockShTry | SpinLockTry => True
  | UpgradeTry | Unlock | SpinUnlock => 0 < t_ex t + t_sh t
  | UpgradeTryInline | Downgrade | DowngradeInline | Abort _ => False
  end.

Lemma start_ok c : t_pc t = Idle -> allowed_call t c -> keeps (mret (w_mtx w, start c t)).
Proof.
  intros Hpc Hc. know Hpc K. destruct K as (? & ? & ? & ? & Hown & ? & _).
  destruct c; simpl in Hc; try done;
    (apply keeps_stay; [at_place Hpc; done || lia | done | by at_place Hpc | by at_place Hpc
      | at_place Hpc; by intros [_ []] |]; split_and!; simpl; try done; try lia;
      at_place Hpc; try done; try lia; auto).
Qed.

End Step.
