(* ===== verification/MutexProps.v ===== *)
(** * Mutual exclusion of the kernel mutex

    The hand-over to the next waiter keeps the invariant too, so it holds in
    every reachable state; the schedules that break it when exclusive waiters
    time out, and what the inline upgrade and downgrade do. *)

From stdpp Require Import prelude list strings.
From S2P Require Import Prelude.
From S2P Require Import Sums.
From S2P Require Import Mutex.
From S2P Require Import MutexInv.
From S2P Require Import MutexSteps.
Open Scope Z_scope.

(** ** The hand-over *)

Section Chain.
Context (w : world) (i : nat) (t : thr) (e s x l : bool) (n : Z).
Hypothesis Hinv : Inv w.
Hypothesis Hi : w_thr w !! i = Some t.
Hypothesis Hlock : mtx_lock (w_mtx w) = word e s x l n.
Hypothesis Hok : word_ok e s x l n (mtx_link (w_mtx w)) (w_thr w).
Hypothesis Hpc : t_pc t = ChStart.

(** The first waiter is asleep and holds nothing. *)
Lemma next_owner k q :
  mtx_link (w_mtx w) = k :: q ->
  exists u kd, w_thr w !! k = Some u /\ k <> i /\ t_pc u = ExSleep kd /\ t_link u = LINK_LINKED /\
    t_ex u = 0 /\ own u = 0 /\ (k ∉ q) /\ NoDup q.
Proof.
  intros Hq. pose proof (inv_ring w Hinv) as Hnd. rewrite Hq in Hnd. apply NoDup_cons in Hnd as [Hnk Hnd].
  destruct (inv_waiting w Hinv k ltac:(rewrite Hq; by left)) as (u & Hu & Hl & Hp).
  assert (k <> i) as Hne.
  { intros ->. rewrite Hi in Hu. injection Hu as <-. by rewrite Hpc in Hp. }
  assert (0 < own t) as Ho.
  { unfold own. rewrite Hpc. destruct (inv_local w Hinv i t Hi) as (? & _). lia. }
  assert (own u = 0) as Hou.
  { destruct (Z.lt_ge_cases 0 (own u)) as [H |].
    - destruct Hne. by eapply one_owner.
    - pose proof (own_all w Hinv u ltac:(by eapply list_elem_of_lookup_2)). lia. }
  assert (exists kd, t_pc u = ExSleep kd) as [kd Hkd].
  { destruct (t_pc u) eqn:E; try done; [| by eexists]. destruct Hne.
    eapply (one_inlink w Hinv k i u t); try done; unfold inlink; [by rewrite E | by rewrite Hpc]. }
  exists u, kd. split_and!; try done.
  unfold own in Hou. rewrite Hkd, Hl, decide_False in Hou by done. lia.
Qed.

Lemma ch_start_ok :
  exists w', step w i Go = Some (Done w') /\ Inv w'.
Proof.
  pose proof (inv_local w Hinv i t Hi) as K. unfold local_ok, knows, inlink in K. rewrite Hpc in K.
  destruct K as (_ & Hsh & Hab & Hcr & _ & _ & Hex & Hring).
  destruct (mtx_link (w_mtx w)) as [| k q] eqn:Hq; [done |].
  destruct (next_owner k q Hq) as (u & kd & Hu & Hne & Hpu & Hlu & Hexu & Hou & Hkq & Hnd).
  set (clock := match q with [] => Z.lor MTX_EXLINK MTX_EXWANTED | _ => MTX_EXLINK end).
  set (m' := set_owner (set_ring (w_mtx w) q) (Some k)). set (t' := at_pc t (ChLoop (Some k) clock)).
  set (u' := set_tlink u LINK_ACQUIRED).
  assert (step w i Go = Some (Done (World m' (<[k := u']> (<[i := t']> (w_thr w)))))) as Hstep.
  { unfold step. rewrite Hi, Hpc. unfold ch_start. rewrite Hq, Hu. simpl fmap. rewrite Hlu.
    unfold KKASSERT. rewrite bool_decide_true by done. rewrite !bind_Done_l. simpl.
    unfold relink, put. simpl. do 3 f_equal. apply list_eq. intros j.
    destruct (decide (j = k)) as [-> | Hjk].
    - rewrite list_lookup_alter_eq, list_lookup_insert_ne, Hu, list_lookup_insert_eq by
        (rewrite ?length_insert; by eauto using lookup_lt_Some). done.
    - by rewrite list_lookup_alter_ne, (list_lookup_insert_ne _ k) by done. }
  eexists. split; [exact Hstep |].
  assert ((<[i := t']> (w_thr w)) !! k = Some u) as Hu1 by (by rewrite list_lookup_insert_ne).
  destruct (Hok) as (Hn & Hsum & He & Hs & Hl & Hx & Hz).
  assert (own t = 1 /\ own t' = 0 /\ own u' = 1) as (Ho & Ho' & Hou').
  { unfold own, t', u'. simpl. rewrite Hpc, Hpu. simpl. lia. }
  assert (inlink t = 1 /\ inlink t' = 1 /\ inlink u' = inlink u) as (Hil & Hil' & Hilu).
  { unfold inlink, t', u'. simpl. by rewrite Hpc. }
  assert (pend t = 0 /\ pend u = 0 /\ pend u' = 0) as (Hp & Hpu0 & Hpu').
  { unfold pend, u'. simpl. by rewrite Hpc, Hpu. }
  assert (q = [] <-> pend t' = 1) as Hpt'.
  { unfold pend, t', clock. simpl. by destruct q. }
  assert (forall j v, (<[k := u']> (<[i := t']> (w_thr w))) !! j = Some v ->
    (j = k /\ v = u') \/ (j = i /\ j <> k /\ v = t') \/ (j <> i /\ j <> k /\ w_thr w !! j = Some v)) as Hlook.
  { intros j v Hj. destruct (decide (j = k)) as [-> | Hjk].
    - rewrite list_lookup_insert_eq in Hj by (rewrite ?length_insert; by eauto using lookup_lt_Some).
      left. by injection Hj.
    - rewrite list_lookup_insert_ne in Hj by done. right. destruct (decide (j = i)) as [-> | Hji].
      + rewrite list_lookup_insert_eq in Hj by (by eauto using lookup_lt_Some). left. by injection Hj.
      + rewrite list_lookup_insert_ne in Hj by done. by right. }
  constructor; simpl.
  - exists e, s, x, l, n. split; [done |]. unfold word_ok.
    rewrite !(sumf_insert _ _ k u), !(sumf_insert _ _ i t) by done.
    rewrite (owns_pos t), (owns_zero t'), (owns_zero u), (owns_pos u') by lia.
    change (t_sh t') with (t_sh t). change (t_sh u') with (t_sh u).
    split_and!; try done; try lia.
    + intros Ee. specialize (Hs Ee). lia.
    + pose proof (sumf_nonneg pend (w_thr w) ltac:(intros; apply pend_inlink)).
      split; [intros _ | intros _; apply Hx; by left].
      destruct (decide (q = [])) as [Eq | Eq]; [right | by left]. apply Hpt' in Eq. lia.
  - intros j [= <-]. exists u'. split; [| lia].
    apply list_lookup_insert_eq. rewrite length_insert. by eapply lookup_lt_Some.
  - done.
  - intros j Hj. assert (j <> k) as Hjk by (intros ->; done).
    destruct (inv_waiting w Hinv j ltac:(rewrite Hq; by right)) as (v & Hv & Hwv).
    exists v. rewrite list_lookup_insert_ne by done.
    rewrite list_lookup_insert_ne; [done |]. intros ->. rewrite Hi in Hv. injection Hv as <-.
    destruct Hwv as [_ Hwv]. by rewrite Hpc in Hwv.
  - intros j v Hv. destruct (Hlook j v Hv) as [[-> ->] | [(-> & _ & ->) | (Hji & Hjk & Hv')]].
    + destruct (inv_local w Hinv k u Hu) as (? & ? & ? & Hcu & _).
      split_and!; try done. unfold knows, u'. simpl. rewrite Hpu. by right.
    + split_and!; try done; simpl; try lia.
      unfold knows, t'. simpl. split; [done |]. unfold clock. destruct q; [by right | by left].
    + apply (local_ok_stable j v (w_mtx w)); [by apply (inv_local w Hinv) | | |].
      * intros Hov. destruct Hji. eapply (one_owner w Hinv j i v t); try done. lia.
      * intros Hiv. destruct Hji. by eapply (one_inlink w Hinv j i v t).
      * intros _ Hin. rewrite Hq in Hin. apply elem_of_cons in Hin as [-> | Hin]; done.
Qed.

End Chain.

(** ** Every reachable state *)

(** The steps of the fragment. *)
Definition allowed (w : world) (i : nat) (c : choice) : Prop :=
  match w_thr w !! i with
  | None => False
  | Some t =>
      match c with
      | Call c => allowed_call t c
      | Go => True
      | Woken _ => t_pc t = ShSleep \/ t_link t <> LINK_LINKED
      end
  end.

Lemma step_keeps w i c r :
  Inv w -> allowed w i c -> step w i c = Some r -> (exists w', r = Done w' /\ Inv w') \/ r = overflow.
Proof.
  intros Hinv Ha Hstep. unfold allowed in Ha. destruct (w_thr w !! i) as [t |] eqn:Hi; [| done].
  destruct (inv_word w Hinv) as (e & s & x & l & n & Hlock & Hok).
  pose proof (inv_local w Hinv i t Hi) as (_ & _ & _ & _ & _ & _ & Hk). unfold knows in Hk.
  assert (forall r0, keeps w i r0 -> r = (r0 ≫= fun r => Done (put w i r)) ->
    (exists w', r = Done w' /\ Inv w') \/ r = overflow) as Hput.
  { intros r0 [(m' & t' & -> & Hi') | ->] ->; [left | by right]. by eexists. }
  unfold step in Hstep. rewrite Hi in Hstep.
  destruct (t_pc t) eqn:Hpc; destruct c as [c | | err]; try done;
    unfold local_step in Hstep; rewrite ?Hpc in Hstep; try done;
    match type of Hstep with
    | Some (?r0 ≫= _) = Some _ =>
        first [ apply (Hput r0); [| by injection Hstep as <-];
          eauto using ex_fast_ok, ex_loop_ok, ex_test_ok, ex_cas0_ok, ex_owner_ok, ex_rec_ok, sp_owner_ok,
            ex_link_ok, ex_linking_ok, ex_unlink_ok, ex_wake_ok, ex_post_ok, sh_fast_ok, sh_loop_ok,
            sh_cas_ok, sh_want_ok, up_loop_ok, up_cas_ok, up_owner_ok, up_test_ok, un_loop_ok, un_owner_ok,
            un_cas_ok, un_chain_ok, ch_loop_ok, ch_cas_ok, sh_sleep_ok; fail | idtac ]
    | _ => idtac
    end.
  - injection Hstep as <-. eapply (Hput (mret (w_mtx w, start c t))); [| done]. by eapply start_ok.
  - injection Hstep as <-. destruct Ha as [? | Hl]; [congruence |].
    apply (Hput (ex_sleep k err (w_mtx w) t)); [by eapply ex_sleep_ok | done].
  - destruct (ch_start_ok w i t e s x l n Hinv Hi Hlock Hok Hpc) as (w' & Hw & Hi').
    unfold step in Hw. rewrite Hi, Hpc in Hw. rewrite Hw in Hstep. injection Hstep as <-. left. by eexists.
Qed.

Inductive reachable (n : nat) : world -> Prop :=
  | reach_start : reachable n (world0 n)
  | reach_step w w' i c :
      reachable n w -> allowed w i c -> step w i c = Some (Done w') -> reachable n w'.

Lemma inv_start n : Inv (world0 n).
Proof.
  assert (forall f : thr -> Z, f thr0 = 0 -> sumf f (replicate n thr0) = 0) as Hsum.
  { intros f Hf. induction n as [| n' IH]; simpl; [done |]. rewrite Hf, IH. done. }
  constructor; simpl.
  - exists false, false, false, false, 0. split; [done |]. unfold word_ok.
    rewrite !Hsum by done. split_and!; try done; try lia. split; [done |]. intros [? | ?]; [done | lia].
  - done.
  - constructor.
  - intros i Hi. by apply elem_of_nil in Hi.
  - intros i t [-> _]%lookup_replicate. split_and!; simpl; done || lia.
Qed.

Lemma reachable_inv n w : reachable n w -> Inv w.
Proof.
  induction 1 as [| w w' i c _ IH Ha Hs]; [apply inv_start |].
  destruct (step_keeps w i c _ IH Ha Hs) as [(w'' & [= ->] & Hi') |]; done.
Qed.

(** ** The properties *)

(** C7: In every interleaving of any number of threads that lock (exclusively
    or shared, blocking, spinning or trying), upgrade with _mtx_upgrade_try and
    unlock, and in which exclusive waiters sleep until they are handed the
    lock, a thread that holds the mutex exclusively is the only holder. *)
Theorem mtx_mutual_exclusion n w i j t u :
  reachable n w -> w_thr w !! i = Some t -> w_thr w !! j = Some u -> i <> j ->
  0 < t_ex t -> t_ex u = 0 /\ t_sh u = 0 /\ t_sh t = 0.
Proof.
  intros Hr%reachable_inv Hi Hj Hne Hex. pose proof (own_ge_ex t). pose proof (own_ge_ex u).
  destruct (ex_nonneg w Hr u) as [Hu _]; [by eapply list_elem_of_lookup_2 |].
  split_and!; [| eapply (owner_excludes w Hr i j t u) | eapply (owner_excludes w Hr i i t t)]; try done; try lia.
  destruct (Z.lt_ge_cases 0 (t_ex u)); [| lia]. destruct Hne. eapply (one_owner w Hr i j t u); done || lia.
Qed.

(** In those interleavings no assertion of the code ever fails, except
    the one that stops the count from overflowing its 28 bits. *)
Theorem mtx_no_panic n w i c r :
  reachable n w -> allowed w i c -> step w i c = Some r ->
  (exists w', r = Done w' /\ reachable n w') \/ r = Fault (Panic "(lock & MTX_MASK) != MTX_MASK").
Proof.
  intros Hr Ha Hs. pose proof (reachable_inv n w Hr) as Hinv.
  destruct (step_keeps w i c _ Hinv Ha Hs) as [(w' & -> & _) | ->]; [left | by right].
  exists w'. split; [done |]. by eapply reach_step.
Qed.

(** C36: In those interleavings the word is never free while a thread waits
    for it exclusively: every sleeping thread is on the ring or has been made
    the owner, and a ring with waiters means that MTX_EXWANTED is set and the
    count is positive, so the last release will hand the lock over. *)
Theorem mtx_waiters_kept n w i t k :
  reachable n w -> w_thr w !! i = Some t -> t_pc t = ExSleep k ->
  (i ∈ mtx_link (w_mtx w) /\ btest (mtx_lock (w_mtx w)) MTX_EXWANTED = true /\
   0 < Z.land (mtx_lock (w_mtx w)) MTX_MASK) \/
  (t_link t = LINK_ACQUIRED /\ mtx_owner (w_mtx w) = Some i).
Proof.
  intros Hr%reachable_inv Hi Hpc. destruct (inv_local w Hr i t Hi) as (_ & _ & _ & _ & _ & _ & Hk).
  unfold knows in Hk. rewrite Hpc in Hk. destruct Hk as [[_ Hin] | ?]; [left | by right].
  destruct (inv_word w Hr) as (e & s & x & l & m & Hlock & Hn & _ & _ & _ & _ & Hx & Hz).
  assert (x = true) as Ex by (apply Hx; left; intros E; rewrite E in Hin; by apply elem_of_nil in Hin).
  rewrite Hlock, word_exwanted, word_mask by done. split_and!; try done.
  destruct (Z.lt_ge_cases 0 m); [done |]. destruct (Hz ltac:(lia)) as (_ & _ & ?). congruence.
Qed.

(** The count in the word is the number of holds: when every thread is
    idle, the word is the sum of the exclusive and shared holds, with
    MTX_EXCLUSIVE set exactly when there is an exclusive one. *)
Theorem mtx_word_counts_holds n w :
  reachable n w -> Forall (fun t => t_pc t = Idle) (w_thr w) ->
  Z.land (mtx_lock (w_mtx w)) MTX_MASK = sumf t_ex (w_thr w) + sumf t_sh (w_thr w) /\
  btest (mtx_lock (w_mtx w)) MTX_EXCLUSIVE = (0 <? sumf t_ex (w_thr w)) /\
  btest (mtx_lock (w_mtx w)) MTX_EXLINK = false.
Proof.
  intros Hr%reachable_inv Hidle. destruct (inv_word w Hr) as (e & s & x & l & m & Hlock & Hok).
  pose proof Hok as (Hn & Hs & He & _ & Hl & _). rewrite Hlock, word_mask, word_exclusive, word_exlink by done.
  assert (sumf own (w_thr w) = sumf t_ex (w_thr w)) as Ho.
  { clear -Hidle. induction Hidle as [| t ts Ht _ IH]; simpl; [done |]. rewrite IH. unfold own. rewrite Ht. lia. }
  assert (sumf inlink (w_thr w) = 0) as Hi.
  { clear -Hidle. induction Hidle as [| t ts Ht _ IH]; simpl; [done |]. rewrite IH. unfold inlink. by rewrite Ht. }
  split_and!.
  - lia.
  - destruct (Z.ltb_spec 0 (sumf t_ex (w_thr w))) as [Hp | Hp].
    + rewrite <- Ho in Hp. apply sumf_pos in Hp as (i & t & Ht & Hot). eapply (owner_flag w i t e); eauto.
    + destruct e; [| done]. assert (0 < sumf owns (w_thr w)) as Hp' by (simpl in He; lia).
      apply sumf_pos in Hp' as (i & t & Ht & Hot).
      pose proof (sumf_ge own (w_thr w) i t ltac:(intros; by eapply own_all) Ht).
      unfold owns in Hot. destruct (Z.ltb_spec 0 (own t)); lia.
  - destruct l; [| done]. simpl in Hl. lia.
Qed.

(** ** What goes wrong outside the fragment *)

Definition go (i n : nat) : list (nat * choice) := replicate n (i, Go).

(** With a timeout the mutex loses mutual exclusion.  Thread 1 times out
    waiting for thread 0 and leaves MTX_EXWANTED behind; thread 0 unlocks with
    an empty ring, and mtx_chain_link frees the word without clearing
    mtx_owner; thread 2 takes the free word, and before it stores itself as
    the owner thread 0 locks again and takes itself for the recursive owner. *)
Theorem mtx_timeout_breaks_exclusion :
  exists sched w t0 t2,
    run_schedule (world0 3) sched = Some (Done w) /\
    w_thr w !! 0%nat = Some t0 /\ w_thr w !! 2%nat = Some t2 /\ t_ex t0 = 1 /\ t_ex t2 = 1.
Proof.
  exists ((0%nat, Call (LockEx true)) :: go 0 2 ++ (1%nat, Call (LockEx true)) :: go 1 6 ++
     (1%nat, Woken EAGAIN) :: go 1 6 ++ (0%nat, Call Unlock) :: go 0 5 ++
     (2%nat, Call (LockEx true)) :: go 2 1 ++ (0%nat, Call (LockEx true)) :: go 0 4 ++ go 2 1).
  do 3 eexists. split; [vm_compute; reflexivity |]. by vm_compute.
Qed.

(** The inline mtx_downgrade of an uncontended exclusive lock sets the
    word to 0, which is free, instead of 1, which is shared: another thread
    can then take the lock exclusively. *)
Theorem mtx_downgrade_releases :
  exists sched w t0 t1,
    run_schedule (world0 2) sched = Some (Done w) /\
    w_thr w !! 0%nat = Some t0 /\ w_thr w !! 1%nat = Some t1 /\ t_sh t0 = 1 /\ t_ex t1 = 1.
Proof.
  exists ((0%nat, Call (LockEx true)) :: go 0 2 ++ (0%nat, Call DowngradeInline) :: go 0 2 ++
     (1%nat, Call (LockEx true)) :: go 1 2).
  do 3 eexists. split; [vm_compute; reflexivity |]. by vm_compute.
Qed.

(** The inline mtx_upgrade_try takes the exclusive lock without recording
    the owner: the thread that upgraded then waits for itself when it locks
    recursively. *)
Theorem mtx_upgrade_forgets_owner :
  exists sched w t0,
    run_schedule (world0 1) sched = Some (Done w) /\ w_thr w !! 0%nat = Some t0 /\
    t_ex t0 = 1 /\ t_pc t0 = ExSleep (Block true) /\ mtx_owner (w_mtx w) = None.
Proof.
  exists ((0%nat, Call LockSh) :: go 0 1 ++ (0%nat, Call UpgradeTryInline) :: go 0 1 ++
     (0%nat, Call (LockEx true)) :: go 0 6).
  do 2 eexists. split; [vm_compute; reflexivity |]. by vm_compute.
Qed.

(** *** Witnesses *)

(** Two threads: thread 0 holds the lock, thread 1 sleeps on the ring. *)
Definition contended : world :=
  World (Mtx (word true false true false 1) (Some 0%nat) [1%nat])
    [Thr Idle 1 0 LINK_IDLE 0 0 false 0; Thr (ExSleep (Block true)) 0 0 LINK_LINKED 0 0 false 0].

Fixpoint allowed_all (w : world) (sched : list (nat * choice)) : Prop :=
  match sched with
  | [] => True
  | (i, c) :: sched =>
      allowed w i c /\ match step w i c with Some (Done w) => allowed_all w sched | _ => False end
  end.

Lemma run_reachable n w sched w' :
  reachable n w -> allowed_all w sched -> run_schedule w sched = Some (Done w') -> reachable n w'.
Proof.
  revert w. induction sched as [| [i c] sched IH]; intros w Hr Ha Hrun; simpl in *.
  { by injection Hrun as <-. }
  destruct Ha as [Ha Hs]. destruct (step w i c) as [[w1 |] |] eqn:E; try done.
  by apply (IH w1); [eapply reach_step | |].
Qed.

Lemma contended_reachable : reachable 2 contended.
Proof.
  apply (run_reachable 2 (world0 2)
    ((0%nat, Call (LockEx true)) :: go 0 2 ++ (1%nat, Call (LockEx true)) :: go 1 6)).
  - constructor.
  - vm_compute. tauto.
  - vm_compute. reflexivity.
Qed.

Lemma mtx_mutual_exclusion_witness :
  exists t u, w_thr contended !! 0%nat = Some t /\ w_thr contended !! 1%nat = Some u /\
    0 < t_ex t /\ t_ex u = 0 /\ t_sh u = 0 /\ t_sh t = 0.
Proof.
  eexists _, _. split; [reflexivity |]. split; [reflexivity |]. split; [reflexivity |].
  apply (mtx_mutual_exclusion 2 contended 0 1); [apply contended_reachable | reflexivity | reflexivity | lia | reflexivity].
Defined.

Lemma mtx_waiters_kept_witness :
  (1%nat ∈ mtx_link (w_mtx contended) /\ btest (mtx_lock (w_mtx contended)) MTX_EXWANTED = true /\
   0 < Z.land (mtx_lock (w_mtx contended)) MTX_MASK) \/
  (LINK_LINKED = LINK_ACQUIRED /\ mtx_owner (w_mtx contended) = Some 1%nat).
Proof.
  apply (mtx_waiters_kept 2 contended 1
    (Thr (ExSleep (Block true)) 0 0 LINK_LINKED 0 0 false 0) (Block true));
    [apply contended_reachable | reflexivity | reflexivity].
Defined.

Lemma mtx_no_panic_witness :
  exists r, step contended 0 (Call Unlock) = Some r /\
    ((exists w', r = Done w' /\ reachable 2 w') \/ r = Fault (Panic "(lock & MTX_MASK) != MTX_MASK")).
Proof.
  eexists. split; [reflexivity |].
  apply (mtx_no_panic 2 contended 0 (Call Unlock)); [apply contended_reachable | reflexivity | reflexivity].
Defined.

(** Thread 0 shares the lock twice, thread 1 once. *)
Definition shared3 : world :=
  World (Mtx 3 None []) [Thr Idle 0 2 LINK_IDLE 0 0 false 0; Thr Idle 0 1 LINK_IDLE 0 0 false 0].

Lemma shared3_reachable : reachable 2 shared3.
Proof.
  apply (run_reachable 2 (world0 2)
    ((0%nat, Call LockSh) :: go 0 1 ++ (0%nat, Call LockSh) :: go 0 3 ++ (1%nat, Call LockShTry) :: go 1 3)).
  - constructor.
  - vm_compute. tauto.
  - vm_compute. reflexivity.
Qed.

Lemma mtx_word_counts_holds_witness :
  Z.land (mtx_lock (w_mtx shared3)) MTX_MASK = sumf t_ex (w_thr shared3) + sumf t_sh (w_thr shared3) /\
  btest (mtx_lock (w_mtx shared3)) MTX_EXCLUSIVE = (0 <? sumf t_ex (w_thr shared3)) /\
  btest (mtx_lock (w_mtx shared3)) MTX_EXLINK = false.
Proof.
  apply (mtx_word_counts_holds 2 shared3); [apply shared3_reachable |].
  repeat constructor.
Defined.
