(* ===== verification/FdTable.v ===== *)
(** * File descriptor allocation: sys/kern/kern_descrip.c

    The descriptor table is an array of 2^k - 1 nodes that is also an in-place
    binary tree: the [allocated] field of a node counts the descriptors in use
    in the run of descriptors that starts at the node.  fdalloc uses the
    counts to skip full runs. *)

From stdpp Require Import prelude list strings.
From S2P Require Import Prelude.
Open Scope Z_scope.

Definition EBADF : Z := 9.
Definition EMFILE : Z := 24.
Definition ENFILE : Z := 23.
Definition INT_MAX : Z := 2 ^ 31 - 1.
Definition NDFILE : Z := 15.

(** struct fdnode; files are known by number, [None] is NULL. *)
Record fdnode := Fdnode { fp : option Z; fileflags : Z; reserved : Z; allocated : Z }.

Definition fdnode0 : fdnode := Fdnode None 0 0 0.

(** struct filedesc, the part that manages descriptors. *)
Record filedesc := Filedesc {
  fd_files : list fdnode;
  fd_nfiles : Z;
  fd_lastfile : Z;
  fd_freefile : Z
}.

Definition set_files (fdp : filedesc) (l : list fdnode) : filedesc :=
  Filedesc l (fd_nfiles fdp) (fd_lastfile fdp) (fd_freefile fdp).
Definition set_lastfile (fdp : filedesc) (v : Z) : filedesc :=
  Filedesc (fd_files fdp) (fd_nfiles fdp) v (fd_freefile fdp).
Definition set_freefile (fdp : filedesc) (v : Z) : filedesc :=
  Filedesc (fd_files fdp) (fd_nfiles fdp) (fd_lastfile fdp) v.

(** flags & f *)
Definition bit_set (flags f : Z) : bool := negb (Z.land flags f =? 0).

Definition set_node (fdp : filedesc) (fd : Z) (n : fdnode) : outcome filedesc :=
  l ← aput (fd_files fdp) fd n; mret (set_files fdp l).

(** ** Trees in the array *)

Definition right_subtree_size (n : Z) : Z := Z.lxor n (Z.lor n (n + 1)).
Definition right_ancestor (n : Z) : Z := Z.lor n (n + 1).
Definition left_ancestor (n : Z) : Z := Z.land n (n + 1) - 1.

(** A descriptor has 31 bits, and each step of the loops below changes one. *)
Definition TREE_FUEL : nat := 32.

(** while (fd >= 0) { allocated += incr; KKASSERT(allocated >= 0);
                      fd = left_ancestor(fd); } *)
Fixpoint reserve_loop (fuel : nat) (files : list fdnode) (fd incr : Z) : outcome (list fdnode) :=
  if negb (0 <=? fd) then mret files
  else
    match fuel with
    | O => Fault OutOfFuel
    | S fuel =>
      n ← aget files fd;
      let a := allocated n + incr in
      files ← aput files fd (Fdnode (fp n) (fileflags n) (reserved n) a);
      _ ← KKASSERT "fdp->fd_files[fd].allocated >= 0" (0 <=? a);
      reserve_loop fuel files (left_ancestor fd) incr
    end.

Definition fdreserve_locked (fdp : filedesc) (fd incr : Z) : outcome filedesc :=
  l ← reserve_loop TREE_FUEL (fd_files fdp) fd incr; mret (set_files fdp l).

(** while (fd_lastfile >= 0 && fp == NULL && reserved == 0) --fd_lastfile; *)
Fixpoint lastfile_loop (fuel : nat) (files : list fdnode) (last : Z) : outcome Z :=
  if negb (0 <=? last) then mret last
  else
    n ← aget files last;
    if negb (bool_decide (fp n = None) && (reserved n =? 0)) then mret last
    else
      match fuel with
      | O => Fault OutOfFuel
      | S fuel => lastfile_loop fuel files (last - 1)
      end.

Definition fdfixup_locked (fdp : filedesc) (fd : Z) : outcome filedesc :=
  let fdp := if fd <? fd_freefile fdp then set_freefile fdp fd else fdp in
  last ← lastfile_loop (length (fd_files fdp)) (fd_files fdp) (fd_lastfile fdp);
  mret (set_lastfile fdp last).

(** do { nf = 2 * nf + 1; } while (nf <= want); *)
Fixpoint grow_size (fuel : nat) (nf want : Z) : outcome Z :=
  match fuel with
  | O => Fault OutOfFuel
  | S fuel =>
    let nf := 2 * nf + 1 in
    if nf <=? want then grow_size fuel nf want else mret nf
  end.

(** The table is copied to one of [nf] zeroed nodes. *)
Definition fdgrow_locked (fdp : filedesc) (want : Z) : outcome filedesc :=
  nf ← grow_size TREE_FUEL (fd_nfiles fdp) want;
  if nf <=? fd_nfiles fdp then mret fdp
  else
    let extra := nf - fd_nfiles fdp in
    mret (Filedesc (fd_files fdp ++ replicate (Z.to_nat extra) fdnode0) nf
            (fd_lastfile fdp) (fd_freefile fdp)).

(** ** Allocation *)

(** The limits fdalloc looks at: the resource limit of the process, the
    system-wide limits, and the owner's count of open files. *)
Record fdlimits := Fdlimits {
  rlim_cur : Z;
  maxfilesperproc : Z;
  minfilesperproc : Z;
  cr_uid : Z;
  ui_openfiles : Z;
  maxfilesperuser : Z
}.

Definition dtable_limit (lm : fdlimits) : Z :=
  let lim := if INT_MAX <? rlim_cur lm then INT_MAX else rlim_cur lm in
  let lim := if maxfilesperproc lm <? lim then maxfilesperproc lm else lim in
  if lim <? minfilesperproc lm then minfilesperproc lm else lim.

(** for (rsum = 0, rsize /= 2; rsize > 0; rsize /= 2): down the subtree of
    [fd] to its first free descriptor; [rsize] is the half the pass looks at. *)
Fixpoint descend (fuel : nat) (files : list fdnode) (fd rsum rsize : Z) : outcome Z :=
  if negb (0 <? rsize) then mret fd
  else
    match fuel with
    | O => Fault OutOfFuel
    | S fuel =>
      let node := fd + rsize in
      n ← aget files node;
      let rsum := rsum + allocated n in
      r ← aget files fd;
      if allocated r =? rsum + rsize then
        if allocated n =? 0 then mret node
        else descend fuel files node 0 (rsize / 2)
      else descend fuel files fd rsum (rsize / 2)
    end.

(** The outer loop: up the tree to a subtree with a free descriptor. *)
Fixpoint search (fuel : nat) (files : list fdnode) (top fd : Z) : outcome (option Z) :=
  if negb (u32 fd <? top) then mret None
  else
    match fuel with
    | O => Fault OutOfFuel
    | S fuel =>
      n ← aget files fd;
      if allocated n =? 0 then mret (Some fd)
      else
        let rsize := right_subtree_size fd in
        if allocated n =? rsize then search fuel files top (right_ancestor fd)
        else fd ← descend TREE_FUEL files fd 0 (rsize / 2); mret (Some fd)
    end.

(** The retry loop: the table grows when its descriptors are used up. *)
Fixpoint find_free (fuel : nat) (fdp : filedesc) (want lim : Z) : outcome (filedesc * option Z) :=
  match fuel with
  | O => Fault OutOfFuel
  | S fuel =>
    r ← search TREE_FUEL (fd_files fdp) (Z.min (u32 (fd_nfiles fdp)) (u32 lim))
          (s32 (Z.max (u32 want) (u32 (fd_freefile fdp))));
    match r with
    | Some fd => mret (fdp, Some fd)
    | None =>
        if lim <=? fd_nfiles fdp then mret (fdp, None)
        else fdp ← fdgrow_locked fdp want; find_free fuel fdp want lim
    end
  end.

(** The code after the label found. *)
Definition take_fd (fdp : filedesc) (want fd : Z) : outcome filedesc :=
  _ ← KKASSERT "fd < fdp->fd_nfiles" (fd <? fd_nfiles fdp);
  let fdp := if fd_lastfile fdp <? fd then set_lastfile fdp fd else fdp in
  let fdp := if want <=? fd_freefile fdp then set_freefile fdp fd else fdp in
  n ← aget (fd_files fdp) fd;
  _ ← KKASSERT "fdp->fd_files[fd].fp == NULL" (bool_decide (fp n = None));
  _ ← KKASSERT "fdp->fd_files[fd].reserved == 0" (reserved n =? 0);
  fdp ← set_node fdp fd (Fdnode (fp n) 0 1 (allocated n));
  fdreserve_locked fdp fd 1.

(** fdalloc: the table and the descriptor, or the error. *)
Definition fdalloc (lm : fdlimits) (fdp : filedesc) (want : Z) : outcome (filedesc * (Z + Z)) :=
  let lim := dtable_limit lm in
  if lim <=? want then mret (fdp, inl EMFILE)
  else if negb (cr_uid lm =? 0) && (minfilesperproc lm <=? fd_nfiles fdp)
          && (maxfilesperuser lm <? ui_openfiles lm)
  then mret (fdp, inl ENFILE)
  else
    fdp ← (if fd_nfiles fdp <=? want then fdgrow_locked fdp want else mret fdp);
    '(fdp, r) ← find_free 2 fdp want lim;
    match r with
    | None => mret (fdp, inl EMFILE)
    | Some fd => fdp ← take_fd fdp want fd; mret (fdp, inr fd)
    end.

(** fdavail: are [n] more descriptors available? *)
Fixpoint count_free (fuel : nat) (files : list fdnode) (j i n : Z) : outcome bool :=
  let i := i - 1 in
  if negb (0 <=? i) then mret false
  else
    match fuel with
    | O => Fault OutOfFuel
    | S fuel =>
      d ← aget files j;
      let n := if bool_decide (fp d = None) then n - 1 else n in
      if bool_decide (fp d = None) && (n <=? 0) then mret true
      else count_free fuel files (j + 1) i n
    end.

Definition fdavail (lm : fdlimits) (fdp : filedesc) (n : Z) : outcome bool :=
  let lim := dtable_limit lm in
  let i := lim - fd_nfiles fdp in
  let n' := if 0 <? i then n - i else n in
  if (0 <? i) && (n' <=? 0) then mret true
  else
    let last := Z.min (u32 (fd_nfiles fdp)) (u32 lim) in
    count_free (length (fd_files fdp)) (fd_files fdp) (fd_freefile fdp) (last - fd_freefile fdp) n'.

(** ** Using descriptors *)

Definition fsetfd_locked (fdp : filedesc) (f : option Z) (fd : Z) : outcome filedesc :=
  _ ← KKASSERT "(unsigned)fd < fdp->fd_nfiles" (u32 fd <? fd_nfiles fdp);
  n ← aget (fd_files fdp) fd;
  _ ← KKASSERT "fdp->fd_files[fd].reserved != 0" (negb (reserved n =? 0));
  match f with
  | Some _ => set_node fdp fd (Fdnode f (fileflags n) 0 (allocated n))
  | None =>
      fdp ← set_node fdp fd (Fdnode (fp n) (fileflags n) 0 (allocated n));
      fdp ← fdreserve_locked fdp fd (-1);
      fdfixup_locked fdp fd
  end.

(** funsetfd_locked: the file that was open, if any. *)
Definition funsetfd_locked (fdp : filedesc) (fd : Z) : outcome (filedesc * option Z) :=
  if fd_nfiles fdp <=? u32 fd then mret (fdp, None)
  else
    n ← aget (fd_files fdp) fd;
    match fp n with
    | None => mret (fdp, None)
    | Some f =>
        fdp ← set_node fdp fd (Fdnode None 0 (reserved n) (allocated n));
        fdp ← fdreserve_locked fdp fd (-1);
        fdp ← fdfixup_locked fdp fd;
        mret (fdp, Some f)
    end.

(** fgetfdflags, fsetfdflags and fclrfdflags: the open descriptor, or EBADF. *)
Definition fd_open (fdp : filedesc) (fd : Z) : outcome (Z + fdnode) :=
  if fd_nfiles fdp <=? u32 fd then mret (inl EBADF)
  else
    n ← aget (fd_files fdp) fd;
    mret (if bool_decide (fp n = None) then inl EBADF else inr n).

Definition fgetfdflags (fdp : filedesc) (fd : Z) : outcome (Z + Z) :=
  r ← fd_open fdp fd;
  mret (match r with inl e => inl e | inr n => inr (fileflags n) end).

Definition fsetfdflags (fdp : filedesc) (fd add_flags : Z) : outcome (filedesc * Z) :=
  r ← fd_open fdp fd;
  match r with
  | inl e => mret (fdp, e)
  | inr n =>
      fdp ← set_node fdp fd (Fdnode (fp n) (s8 (Z.lor (fileflags n) add_flags)) (reserved n) (allocated n));
      mret (fdp, 0)
  end.

Definition fclrfdflags (fdp : filedesc) (fd rem_flags : Z) : outcome (filedesc * Z) :=
  r ← fd_open fdp fd;
  match r with
  | inl e => mret (fdp, e)
  | inr n =>
      fdp ← set_node fdp fd (Fdnode (fp n) (s8 (Z.ldiff (fileflags n) rem_flags)) (reserved n) (allocated n));
      mret (fdp, 0)
  end.

(** The table of a new process: fdinit. *)
Definition fdinit : filedesc := Filedesc (replicate 15 fdnode0) NDFILE (-1) 0.

(** ** Duplicating a descriptor *)

Definition EINVAL : Z := 22.
Definition DUP_FIXED : Z := 1.
Definition DUP_VARIABLE : Z := 2.
Definition DUP_CLOEXEC : Z := 4.
Definition UF_EXCLOSE : Z := 1.

(** How a pass of kern_dup ends: with an error, with the new descriptor and
    the file that was replaced, or at "goto retry". *)
Inductive dup_result := DupError (e : Z) | DupDone (new : Z) (delfp : option Z) | DupRetry.

(** The flags of the copy. *)
Definition dup_flags (flags oldflags : Z) : Z :=
  s8 (if bit_set flags DUP_CLOEXEC then Z.lor oldflags UF_EXCLOSE else Z.ldiff oldflags UF_EXCLOSE).

(** The new descriptor is reserved: it gets the file and its flags. *)
Definition dup_install (fdp : filedesc) (f flags oldflags new : Z) : outcome filedesc :=
  fdp ← fsetfd_locked fdp (Some f) new;
  n ← aget (fd_files fdp) new;
  set_node fdp new (Fdnode (fp n) (dup_flags flags oldflags) (reserved n) (allocated n)).

(** The branch that allocates: fdalloc, then the checks for a lost race. *)
Definition dup_alloc (lm : fdlimits) (fdp : filedesc) (f flags oldflags old new : Z) :
    outcome (filedesc * dup_result) :=
  '(fdp, r) ← fdalloc lm fdp new;
  match r with
  | inl e => mret (fdp, DupError e)
  | inr newfd =>
      o ← (if fd_nfiles fdp <=? old then mret None else d ← aget (fd_files fdp) old; mret (fp d));
      if negb (bool_decide (o = Some f))
         || (negb (bit_set flags DUP_VARIABLE) && negb (new =? newfd))
         || (old =? newfd)
      then fdp ← fsetfd_locked fdp None newfd; mret (fdp, DupRetry)
      else fdp ← dup_install fdp f flags oldflags newfd; mret (fdp, DupDone newfd None)
  end.

(** The branch that replaces: the target becomes reserved. *)
Definition dup_replace (fdp : filedesc) (f flags oldflags new : Z) :
    outcome (filedesc * dup_result) :=
  n ← aget (fd_files fdp) new;
  if negb (reserved n =? 0) then mret (fdp, DupRetry)
  else
    let delfp := fp n in
    fdp ← set_node fdp new (Fdnode None (fileflags n) 1 (allocated n));
    fdp ← (if bool_decide (delfp = None) then
             fdp ← fdreserve_locked fdp new 1;
             mret (if fd_lastfile fdp <? new then set_lastfile fdp new else fdp)
           else mret fdp);
    _ ← KKASSERT "dup() picked an open file" (bool_decide (delfp = None) || bit_set flags DUP_FIXED);
    fdp ← dup_install fdp f flags oldflags new;
    mret (fdp, DupDone new delfp).

Definition kern_dup (lm : fdlimits) (fdp : filedesc) (flags old new : Z) :
    outcome (filedesc * dup_result) :=
  let dtsize := dtable_limit lm in
  if (new <? 0) || (dtsize <? new) then mret (fdp, DupError EINVAL)
  else
    r ← fd_open fdp old;
    match r with
    | inl e => mret (fdp, DupError e)
    | inr n =>
        if bit_set flags DUP_FIXED && (old =? new) then
          fdp ← (if bit_set flags DUP_CLOEXEC then
                   set_node fdp new (Fdnode (fp n) (s8 (Z.lor (fileflags n) UF_EXCLOSE)) (reserved n) (allocated n))
                 else mret fdp);
          mret (fdp, DupDone new None)
        else
          match fp n with
          | None => Fault NullDeref
          | Some f =>
              if bit_set flags DUP_VARIABLE || (fd_nfiles fdp <=? new)
              then dup_alloc lm fdp f flags (fileflags n) old new
              else dup_replace fdp f flags (fileflags n) new
          end
    end.

(** ** The table of a forked process *)

(** ni = (i - 1) / 2; while (ni > fd_lastfile && ni > NDFILE) ... *)
Fixpoint shrink_size (fuel : nat) (i lastfile : Z) : outcome Z :=
  let ni := Z.quot (i - 1) 2 in
  if negb ((lastfile <? ni) && (NDFILE <? ni)) then mret i
  else
    match fuel with
    | O => Fault OutOfFuel
    | S fuel => shrink_size fuel ni lastfile
    end.

(** Reserved descriptors and kqueues are not inherited. *)
Definition copy_node (kqueue : Z -> bool) (fdp : filedesc) (i : Z) : outcome filedesc :=
  n ← aget (fd_files fdp) i;
  if negb (reserved n =? 0) then
    fdp ← fdreserve_locked fdp i (-1);
    n ← aget (fd_files fdp) i;
    fdp ← set_node fdp i (Fdnode (fp n) (fileflags n) 0 (allocated n));
    fdfixup_locked fdp i
  else
    match fp n with
    | Some f => if kqueue f then '(fdp, _) ← funsetfd_locked fdp i; mret fdp else mret fdp
    | None => mret fdp
    end.

Fixpoint copy_loop (kqueue : Z -> bool) (cnt : nat) (fdp : filedesc) (i : Z) : outcome filedesc :=
  match cnt with
  | O => mret fdp
  | S cnt => fdp ← copy_node kqueue fdp i; copy_loop kqueue cnt fdp (i + 1)
  end.

(** fdcopy: [kqueue] tells which files have type DTYPE_KQUEUE. *)
Definition fdcopy (kqueue : Z -> bool) (fdp : filedesc) : outcome filedesc :=
  i ← (if fd_lastfile fdp <? NDFILE then mret NDFILE
       else shrink_size TREE_FUEL (fd_nfiles fdp) (fd_lastfile fdp));
  if zlen (fd_files fdp) <? i then Fault OutOfBounds
  else
    copy_loop kqueue (Z.to_nat i)
      (Filedesc (take (Z.to_nat i) (fd_files fdp)) i (fd_lastfile fdp) (fd_freefile fdp)) 0.
