(* ===== verification/FdTree.v ===== *)
(** * The tree of descriptors

    The shape of the in-place tree of sys/kern/kern_descrip.c: a node counts
    the run of descriptors from itself up to its bigger ancestor, and the
    nodes that count a descriptor are found by going to smaller ancestors. *)

From stdpp Require Import prelude list strings.
From S2P Require Import Prelude.
From S2P Require Import Ranges.
From S2P Require Import FdTable.
Open Scope Z_scope.

(** ** Nodes *)

(** Every node is [z] ones below a zero bit. *)
Definition node_at (z q : Z) : Z := q * 2 ^ (z + 1) + 2 ^ z - 1.

Lemma pow2_pos z : 0 <= z -> 0 < 2 ^ z.
Proof. intros. by apply Z.pow_pos_nonneg. Qed.

Lemma pow2_S z : 0 <= z -> 2 ^ (z + 1) = 2 * 2 ^ z.
Proof. intros. rewrite Z.pow_add_r by lia. lia. Qed.

Lemma node_cases n : 0 <= n -> exists z q, 0 <= z /\ 0 <= q /\ n = node_at z q.
Proof.
  intros Hn. induction n as [n IH] using (well_founded_induction (Z.lt_wf 0)).
  unfold node_at in *. pose proof (Z.div_mod n 2 ltac:(lia)). pose proof (Z.mod_pos_bound n 2 ltac:(lia)).
  destruct (decide (n mod 2 = 0)).
  - exists 0, (n / 2). split; [lia |]. split; [apply Z.div_pos; lia |].
    change (2 ^ (0 + 1)) with 2. change (2 ^ 0) with 1. lia.
  - destruct (IH (n / 2)) as (z & q & Hz & Hq & E); [lia | lia |].
    exists (z + 1), q. split; [lia |]. split; [lia |]. rewrite !pow2_S in * by lia. lia.
Qed.

Lemma node_nonneg z q : 0 <= z -> 0 <= q -> 0 <= node_at z q.
Proof. intros. unfold node_at. pose proof (pow2_pos z). pose proof (pow2_pos (z + 1)). nia. Qed.

Section Node.
Context (z q : Z).
Hypothesis Hz : 0 <= z.
Hypothesis Hq : 0 <= q.

Lemma node_cat : node_at z q = cat (z + 1) q (Z.ones z).
Proof. unfold node_at, cat. rewrite Z.ones_equiv. lia. Qed.

Lemma node_succ_cat : node_at z q + 1 = cat (z + 1) q (2 ^ z).
Proof. unfold node_at, cat. lia. Qed.

Lemma ones_range : 0 <= Z.ones z < 2 ^ (z + 1) /\ 0 <= 2 ^ z < 2 ^ (z + 1).
Proof. rewrite Z.ones_equiv, pow2_S by lia. pose proof (pow2_pos z). lia. Qed.

Lemma ones_lor : Z.lor (Z.ones z) (2 ^ z) = Z.ones (z + 1).
Proof.
  apply Z.bits_inj'. intros i Hi. rewrite Z.lor_spec, Z.pow2_bits_eqb by lia.
  destruct (Z.eqb_spec z i) as [-> |].
  - rewrite orb_true_r. symmetry. apply Z.ones_spec_low. lia.
  - rewrite orb_false_r. destruct (Z.lt_ge_cases i z).
    + rewrite !Z.ones_spec_low by lia. done.
    + rewrite !Z.ones_spec_high by lia. done.
Qed.

Lemma ones_land : Z.land (Z.ones z) (2 ^ z) = 0.
Proof.
  apply Z.bits_inj'. intros i Hi. rewrite Z.land_spec, Z.pow2_bits_eqb, Z.bits_0 by lia.
  destruct (Z.eqb_spec z i) as [-> |]; [| apply andb_false_r].
  by rewrite Z.ones_spec_high by lia.
Qed.

Lemma right_ancestor_node : right_ancestor (node_at z q) = node_at z q + 2 ^ z.
Proof.
  unfold right_ancestor. rewrite node_succ_cat, node_cat. pose proof ones_range.
  rewrite cat_lor by lia. rewrite Z.lor_diag, ones_lor. unfold cat. rewrite !Z.ones_equiv, pow2_S by lia. lia.
Qed.

Lemma right_subtree_size_node : right_subtree_size (node_at z q) = 2 ^ z.
Proof.
  unfold right_subtree_size. rewrite node_succ_cat, node_cat. pose proof ones_range.
  rewrite cat_lor by lia. rewrite Z.lor_diag, ones_lor.
  rewrite cat_lxor by (rewrite ?Z.ones_equiv, ?pow2_S in *; lia).
  rewrite Z.lxor_nilpotent. unfold cat. rewrite Z.mul_0_l, Z.add_0_l. apply Z.bits_inj'. intros i Hi.
  rewrite Z.lxor_spec, Z.pow2_bits_eqb by lia. destruct (Z.eqb_spec z i) as [-> |].
  - rewrite Z.ones_spec_high, Z.ones_spec_low by lia. done.
  - destruct (Z.lt_ge_cases i z).
    + rewrite !Z.ones_spec_low by lia. done.
    + rewrite !Z.ones_spec_high by lia. done.
Qed.

Lemma left_ancestor_node : left_ancestor (node_at z q) = q * 2 ^ (z + 1) - 1.
Proof.
  unfold left_ancestor. rewrite node_succ_cat, node_cat. pose proof ones_range.
  rewrite cat_land by lia. rewrite Z.land_diag, ones_land. unfold cat. lia.
Qed.

(** The start of the right half of a run of [2 ^ k] of this node. *)
Lemma node_half k : 0 <= k < z -> node_at z q + 2 ^ k = node_at k (q * 2 ^ (z - k) + 2 ^ (z - k - 1)).
Proof.
  intros Hk. unfold node_at. rewrite Z.mul_add_distr_r.
  rewrite <- Z.mul_assoc, <- !Z.pow_add_r by lia.
  replace (z - k + (k + 1)) with (z + 1) by lia. replace (z - k - 1 + (k + 1)) with z by lia. lia.
Qed.

End Node.

(** ** Which nodes count a descriptor *)

Definition size (n : Z) : Z := right_subtree_size n.
Definition covers (n j : Z) : Prop := n <= j < n + size n.

Lemma size_pos n : 0 <= n -> 0 < size n.
Proof.
  intros (z & q & ? & ? & ->)%node_cases. unfold size. rewrite right_subtree_size_node by done.
  by apply pow2_pos.
Qed.

Lemma left_ancestor_lt n : 0 <= n -> -1 <= left_ancestor n < n.
Proof.
  intros (z & q & ? & ? & ->)%node_cases. rewrite left_ancestor_node by done.
  unfold node_at. pose proof (pow2_pos z). pose proof (pow2_pos (z + 1)). nia.
Qed.

(** A node below [j] counts [j] if and only if it counts the smaller ancestor
    of [j]. *)
Lemma covers_left n j :
  0 <= n -> 0 <= j -> n <> j -> covers n j <-> covers n (left_ancestor j).
Proof.
  intros (zn & qn & Hzn & Hqn & ->)%node_cases (z & q & Hz & Hq & ->)%node_cases Hne.
  unfold covers, size. rewrite right_subtree_size_node, left_ancestor_node by done.
  unfold node_at in *. rewrite !pow2_S in * by done.
  pose proof (pow2_pos zn Hzn). pose proof (pow2_pos z Hz).
  destruct (Z.lt_ge_cases zn z) as [Hlt | Hge].
  - (* the run of n ends at a multiple of 2^(zn+1), and so does the ancestor *)
    replace (2 ^ z) with (2 ^ (z - zn) * 2 ^ zn) in * by (rewrite <- Z.pow_add_r by lia; f_equal; lia).
    assert (2 ^ (z - zn) = 2 * 2 ^ (z - zn - 1)) as Hp
      by (rewrite <- pow2_S by lia; f_equal; lia).
    set (a := 2 ^ (z - zn - 1)) in *. set (b := 2 ^ zn) in *. rewrite Hp in *.
    assert (0 < a) by (apply pow2_pos; lia). split; intros [Hlo Hhi]; exfalso.
    + (* qn * 2b + b - 1 <= q * 4ab + 2ab - 1 < qn * 2b + 2b - 1 *)
      assert (qn < 2 * q * a + a) by nia. assert (2 * q * a + a < qn + 1) by nia. lia.
    + assert (qn < 2 * q * a) by nia. assert (2 * q * a < qn + 1) by nia. lia.
  - replace (2 ^ zn) with (2 ^ (zn - z) * 2 ^ z) in * by (rewrite <- Z.pow_add_r by lia; f_equal; lia).
    set (a := 2 ^ (zn - z)) in *. set (b := 2 ^ z) in *.
    assert (0 < a) by (apply pow2_pos; lia). split; intros [Hlo Hhi].
    + assert (qn * (2 * a) + a <= 2 * q + 1) by nia.
      assert (2 * q + 1 < qn * (2 * a) + 2 * a) by nia.
      assert (qn * (2 * a) + a <= 2 * q \/ qn * (2 * a) + a = 2 * q + 1) as [? | E] by lia; [nia |].
      exfalso. apply Hne. nia.
    + assert (qn * (2 * a) + a <= 2 * q) by nia. assert (2 * q < qn * (2 * a) + 2 * a) by nia. split; [nia |].
      destruct (decide (zn = z)) as [-> |]; [unfold a in *; rewrite Z.sub_diag in *; change (2 ^ 0) with 1 in *; nia |].
      assert (a = 2 * 2 ^ (zn - z - 1)) by (unfold a; rewrite <- pow2_S by lia; f_equal; lia).
      nia.
Qed.

Lemma covers_self j : 0 <= j -> covers j j.
Proof. intros H. unfold covers. pose proof (size_pos j H). lia. Qed.

Lemma covers_neg n j : j < 0 -> 0 <= n -> ~ covers n j.
Proof. unfold covers. lia. Qed.

(** The runs of the nodes of a table of [2 ^ K - 1] nodes stay inside it. *)
Lemma size_fits K n : 0 <= K -> 0 <= n < 2 ^ K - 1 -> n + size n <= 2 ^ K - 1.
Proof.
  intros HK [H0 H1]. destruct (node_cases n H0) as (z & q & Hz & Hq & ->).
  unfold size. rewrite right_subtree_size_node by done. unfold node_at in *.
  rewrite pow2_S in * by done. pose proof (pow2_pos z Hz).
  assert (z < K) as HzK.
  { destruct (Z.lt_ge_cases z K); [done |]. exfalso.
    assert (2 ^ K <= 2 ^ z) by (apply Z.pow_le_mono_r; lia). nia. }
  replace (2 ^ K) with (2 ^ (K - z - 1) * (2 * 2 ^ z)) in * by (rewrite <- pow2_S, <- Z.pow_add_r by lia; f_equal; lia).
  set (a := 2 ^ (K - z - 1)) in *. set (b := 2 ^ z) in *. assert (q < a) by nia. nia.
Qed.

(** ** Updating the counts *)

(** A descriptor is in use: it has a file or is reserved. *)
Definition in_use (n : fdnode) : bool := negb (bool_decide (fp n = None) && (reserved n =? 0)).

(** The set of descriptors in use. *)
Definition used (files : list fdnode) (j : Z) : bool :=
  match aget files j with Done n => in_use n | Fault _ => false end.

(** Every node counts its run. *)
Definition counted (files : list fdnode) (A : Z -> bool) : Prop :=
  forall n d, aget files n = Done d -> allocated d = cnt A n (size n).

(** Going up, in either direction, makes a longer run of ones: after [k] steps
    [2 ^ k] divides the successor. *)
Definition aligned (k n : Z) : Prop := exists a, n + 1 = a * 2 ^ k.

Lemma aligned_node k z q :
  0 <= k -> 0 <= z -> 0 <= q -> aligned k (node_at z q) -> k <= z.
Proof.
  intros Hk Hz Hq [a Ha]. unfold node_at in Ha. rewrite pow2_S in Ha by done.
  destruct (Z.lt_ge_cases z k); [| done]. exfalso.
  replace (2 ^ k) with (2 ^ (k - z) * 2 ^ z) in Ha by (rewrite <- Z.pow_add_r by lia; f_equal; lia).
  assert (2 ^ (k - z) = 2 * 2 ^ (k - z - 1)) as Hp by (rewrite <- pow2_S by lia; f_equal; lia).
  rewrite Hp in Ha. pose proof (pow2_pos z Hz). set (b := 2 ^ z) in *. set (c := 2 ^ (k - z - 1)) in *.
  assert (2 * q + 1 = 2 * (a * c)) by nia. lia.
Qed.

Lemma aligned_up k n :
  0 <= k -> 0 <= n -> aligned k n ->
  aligned (k + 1) (left_ancestor n) /\ aligned (k + 1) (right_ancestor n).
Proof.
  intros Hk Hn Ha. destruct (node_cases n Hn) as (z & q & Hz & Hq & ->).
  apply aligned_node in Ha; try done. rewrite left_ancestor_node, right_ancestor_node by done.
  unfold aligned, node_at. rewrite (pow2_S z), (pow2_S k) by done.
  replace (2 ^ z) with (2 ^ (z - k) * 2 ^ k) by (rewrite <- Z.pow_add_r by lia; f_equal; lia).
  set (c := 2 ^ (z - k)). split; [exists (q * c) | exists (q * c + c)]; ring.
Qed.

Lemma aligned_bound k n : 0 <= n < 2 ^ k - 1 -> 0 <= k -> ~ aligned k n.
Proof. intros Hn Hk [a Ha]. pose proof (pow2_pos k Hk). destruct (Z.le_gt_cases a 0); nia. Qed.

Lemma aligned_0 n : aligned 0 n.
Proof. exists (n + 1). change (2 ^ 0) with 1. lia. Qed.

(** A node with its count changed if it counts [fd]. *)
Definition bump (fd incr n : Z) (d : fdnode) : fdnode :=
  Fdnode (fp d) (fileflags d) (reserved d) (allocated d + if inr n (size n) fd then incr else 0).

Lemma inr_covers n fd : inr n (size n) fd = true <-> covers n fd.
Proof. apply inr_spec. Qed.

Lemma inr_left n j : 0 <= n -> 0 <= j -> n <> j -> inr n (size n) j = inr n (size n) (left_ancestor j).
Proof.
  intros Hn Hj Hne. pose proof (covers_left n j Hn Hj Hne) as H.
  rewrite <- !inr_covers in H. destruct (inr n (size n) j), (inr n (size n) (left_ancestor j)); naive_solver.
Qed.

(** fdreserve_locked changes the count of exactly the nodes that count the
    descriptor. *)
Lemma reserve_loop_spec fuel k files fd incr :
  0 <= k -> 32 <= k + Z.of_nat fuel -> aligned k fd -> -1 <= fd < zlen files -> zlen files < 2 ^ 31 ->
  (forall n d, aget files n = Done d -> covers n fd -> 0 <= allocated d + incr) ->
  exists files', reserve_loop fuel files fd incr = Done files' /\ zlen files' = zlen files /\
    forall n d, aget files n = Done d -> aget files' n = Done (bump fd incr n d).
Proof.
  revert k files fd. induction fuel as [| fuel IH]; intros k files fd Hk Hf Ha Hfd Hlen Hpos; cbn [reserve_loop];
    (destruct (Z.leb_spec 0 fd) as [H0 | H0]; cbn [negb];
     [| exists files; split; [done |]; split; [done |]; intros n d Hd; rewrite Hd; f_equal; unfold bump;
        rewrite (proj2 (inr_false _ _ _)) by (apply aget_bounds in Hd; lia); destruct d; simpl; f_equal; lia]).
  { exfalso. apply (aligned_bound k fd); [| lia | done]. split; [done |].
    assert (2 ^ 32 <= 2 ^ k) by (apply Z.pow_le_mono_r; lia). lia. }
  destruct (aget_in_bounds files fd) as [d Hd]; [lia |]. rewrite Hd, bind_Done_l. cbv zeta.
  rewrite aput_in_bounds by lia. rewrite bind_Done_l.
  pose proof (Hpos fd d Hd (covers_self fd H0)) as Hpd.
  unfold KKASSERT. rewrite (proj2 (Z.leb_le _ _)) by lia. rewrite bind_Done_l.
  set (files1 := <[Z.to_nat fd := _]> files). pose proof (left_ancestor_lt fd H0).
  assert (zlen files1 = zlen files) as Hl1 by apply zlen_insert.
  assert (forall n d', aget files1 n = Done d' -> n <> fd -> aget files n = Done d') as Hold.
  { intros n d' Hn Hne. pose proof (aget_bounds _ _ _ Hn). unfold files1 in Hn.
    rewrite aget_insert_ne in Hn; done || lia. }
  destruct (IH (k + 1) files1 (left_ancestor fd)) as (files' & -> & Hl' & Hspec); try lia.
  - by apply aligned_up.
  - intros n d' Hn Hc. assert (0 <= n) by (apply aget_bounds in Hn; lia).
    destruct (decide (n = fd)) as [-> | Hne].
    { unfold covers in Hc. lia. }
    apply (Hpos n); [by apply Hold |]. by apply covers_left.
  - exists files'. split; [done |]. split; [lia |]. intros n d' Hn.
    assert (0 <= n < zlen files) by (by apply aget_bounds in Hn).
    destruct (decide (n = fd)) as [-> | Hne].
    + rewrite Hd in Hn. injection Hn as <-. erewrite Hspec by (apply aget_insert_eq; lia).
      unfold bump. simpl. f_equal. f_equal.
      rewrite (proj2 (inr_false fd _ _)), (proj2 (inr_spec fd _ _)); [lia | by apply covers_self | lia].
    + erewrite Hspec by (unfold files1; rewrite aget_insert_ne by lia; done).
      unfold bump. rewrite (inr_left n fd) by lia. done.
Qed.
