(* ===== verification/FdLemmas.v ===== *)
(** * Correctness of the operations on the descriptor table

    What the tree search, the updates of the counts, the growth of the table
    and the marks fd_freefile and fd_lastfile keep true
    (sys/kern/kern_descrip.c). *)

From stdpp Require Import prelude list strings.
From S2P Require Import Prelude.
From S2P Require Import Ranges.
From S2P Require Import FdTable.
From S2P Require Import FdTree.
Open Scope Z_scope.

(** ** Searching *)

(** [f] is the first free descriptor from [a] on. *)
Definition first_free (A : Z -> bool) (a f : Z) : Prop :=
  a <= f /\ A f = false /\ forall j, a <= j < f -> A j = true.

Section Search.
Context (files : list fdnode) (A : Z -> bool) (K : Z).
Hypothesis HK : 0 <= K <= 30.
Hypothesis Hlen : zlen files = 2 ^ K - 1.
Hypothesis Hcnt : counted files A.

Lemma K_bound : 2 ^ K <= 2 ^ 30.
Proof. apply Z.pow_le_mono_r; lia. Qed.

Lemma get_count n : 0 <= n < 2 ^ K - 1 -> exists d, aget files n = Done d /\ allocated d = cnt A n (size n).
Proof.
  intros Hn. destruct (aget_in_bounds files n) as [d Hd]; [lia |]. exists d. split; [done |]. by apply Hcnt.
Qed.

Lemma size_node z q : 0 <= z -> 0 <= q -> size (node_at z q) = 2 ^ z.
Proof. intros. by apply right_subtree_size_node. Qed.

(** The run [fd, fd + 2^k) has a free descriptor; [rsum] counts the rest of
    the run of [fd]. *)
Lemma descend_spec fuel k z q rsum :
  0 <= k <= z -> 0 <= q -> k <= Z.of_nat fuel ->
  node_at z q + 2 ^ z <= 2 ^ K - 1 ->
  rsum = cnt A (node_at z q + 2 ^ k) (2 ^ z - 2 ^ k) -> cnt A (node_at z q) (2 ^ k) < 2 ^ k ->
  exists f, descend fuel files (node_at z q) rsum (2 ^ k / 2) = Done f /\
    f < node_at z q + 2 ^ k /\ first_free A (node_at z q) f.
Proof.
  revert k z q rsum. induction fuel as [| fuel IH]; intros k z q rsum Hk Hq Hf Hfit Hsum Hfree;
    (destruct (decide (k = 0)) as [-> |]; [
      change (2 ^ 0) with 1 in *; change (1 / 2) with 0;
      exists (node_at z q); split; [done |]; split; [lia |]; split; [lia |]; split; [| lia];
      unfold cnt in Hfree; change (Z.to_nat 1) with 1%nat in Hfree; simpl in Hfree;
      destruct (A (node_at z q)); [lia | done] |]); [lia |].
  pose proof (node_nonneg z q ltac:(lia) Hq). pose proof (pow2_pos (k - 1) ltac:(lia)).
  assert (2 ^ k = 2 * 2 ^ (k - 1)) as Ek by (rewrite <- pow2_S by lia; f_equal; lia).
  assert (2 ^ k <= 2 ^ z) as Hkz by (apply Z.pow_le_mono_r; lia).
  assert (2 ^ k / 2 = 2 ^ (k - 1)) as Eh by (rewrite Ek, Z.mul_comm; by apply Z.div_mul).
  rewrite Eh. cbn [descend]. rewrite (proj2 (Z.ltb_lt _ _)) by lia. cbn [negb]. cbv zeta.
  set (q' := q * 2 ^ (z - (k - 1)) + 2 ^ (z - (k - 1) - 1)).
  assert (node_at z q + 2 ^ (k - 1) = node_at (k - 1) q') as En by (apply node_half; lia).
  assert (0 <= q') as Hq'.
  { unfold q'. pose proof (pow2_pos (z - (k - 1)) ltac:(lia)). pose proof (pow2_pos (z - (k - 1) - 1) ltac:(lia)). nia. }
  destruct (get_count (node_at z q + 2 ^ (k - 1))) as (dn & -> & Hdn); [lia |].
  rewrite bind_Done_l. destruct (get_count (node_at z q)) as (dr & -> & Hdr); [lia |]. rewrite bind_Done_l.
  rewrite size_node in Hdr by lia. rewrite En, size_node in Hdn by lia. rewrite <- En in Hdn.
  assert (rsum + allocated dn = cnt A (node_at z q + 2 ^ (k - 1)) (2 ^ z - 2 ^ (k - 1))) as Hsum'.
  { replace (2 ^ z - 2 ^ (k - 1)) with (2 ^ (k - 1) + (2 ^ z - 2 ^ k)) by lia.
    rewrite cnt_split, Hdn, Hsum by lia.
    replace (node_at z q + 2 ^ (k - 1) + 2 ^ (k - 1)) with (node_at z q + 2 ^ k) by lia. lia. }
  assert (allocated dr = cnt A (node_at z q) (2 ^ (k - 1)) + (rsum + allocated dn)) as Hsplit.
  { rewrite Hdr, Hsum'. replace (2 ^ z) with (2 ^ (k - 1) + (2 ^ z - 2 ^ (k - 1))) at 1 by lia.
    by rewrite cnt_split by lia. }
  assert (cnt A (node_at z q) (2 ^ k) = cnt A (node_at z q) (2 ^ (k - 1)) + allocated dn) as Hhalf.
  { rewrite Ek. replace (2 * 2 ^ (k - 1)) with (2 ^ (k - 1) + 2 ^ (k - 1)) by lia.
    rewrite cnt_split by lia. by rewrite Hdn. }
  destruct (Z.eqb_spec (allocated dr) (rsum + allocated dn + 2 ^ (k - 1))) as [E | E].
  - assert (all_in A (node_at z q) (2 ^ (k - 1))) as Hfull by (apply cnt_all; lia).
    destruct (Z.eqb_spec (allocated dn) 0) as [E0 | E0].
    + exists (node_at z q + 2 ^ (k - 1)). split; [done |]. split; [lia |]. split; [lia |]. split; [| done].
      assert (none_in A (node_at z q + 2 ^ (k - 1)) (2 ^ (k - 1))) as Hn by (apply cnt_none; lia).
      apply Hn. lia.
    + rewrite En in *. destruct (IH (k - 1) (k - 1) q' 0) as (f & Hf' & Hlt & Hge & Hff & Hall); try lia.
      { rewrite Z.sub_diag. done. }
      exists f. split; [done |]. split; [lia |]. split; [lia |]. split; [done |].
      intros j Hj. destruct (Z.lt_ge_cases j (node_at (k - 1) q')); [| apply Hall; lia].
      apply Hfull. lia.
  - pose proof (cnt_bounds A (node_at z q) (2 ^ (k - 1)) ltac:(lia)).
    destruct (IH (k - 1) z q (rsum + allocated dn)) as (f & Hf' & Hlt & Hff); try lia.
    exists f. split; [done |]. split; [lia | done].
Qed.

Lemma search_spec fuel k top fd :
  0 <= k -> 32 <= k + Z.of_nat fuel -> aligned k fd -> 0 <= fd < 2 ^ 31 -> top <= 2 ^ K - 1 ->
  exists r, search fuel files top fd = Done r /\
    match r with
    | Some f => f < 2 ^ K - 1 /\ first_free A fd f
    | None => forall j, fd <= j < top -> A j = true
    end.
Proof.
  pose proof K_bound. revert k fd. induction fuel as [| fuel IH]; intros k fd Hk Hfu Ha Hfd Htop; cbn [search];
    rewrite u32_id by (unfold_int; lia); (destruct (Z.ltb_spec fd top) as [Hlt | Hge]; cbn [negb];
    [| exists None; split; [done |]; intros; lia]).
  { exfalso. apply (aligned_bound k fd); [| lia | done].
    assert (2 ^ 32 <= 2 ^ k) by (apply Z.pow_le_mono_r; lia). lia. }
  destruct (get_count fd) as (d & -> & Hd); [lia |]. rewrite bind_Done_l. pose proof (size_pos fd ltac:(lia)).
  pose proof (size_fits K fd ltac:(lia) ltac:(lia)) as Hfits. cbv zeta. fold (size fd).
  destruct (Z.eqb_spec (allocated d) 0) as [E | E].
  - exists (Some fd). split; [done |]. split; [lia |]. split; [lia |]. split; [| lia].
    assert (none_in A fd (size fd)) as Hn by (apply cnt_none; lia). apply Hn. lia.
  - destruct (node_cases fd ltac:(lia)) as (z & q & Hz & Hq & Efd).
    assert (size fd = 2 ^ z) as Es by (rewrite Efd; by apply size_node).
    destruct (Z.eqb_spec (allocated d) (size fd)) as [E' | E'].
    + assert (all_in A fd (size fd)) as Hfull by (apply cnt_all; lia).
      assert (right_ancestor fd = fd + size fd) as Er by (rewrite Es, Efd; by apply right_ancestor_node).
      destruct (IH (k + 1) (right_ancestor fd)) as (r & -> & Hr); try lia.
      { by apply aligned_up; try lia. }
      exists r. split; [done |]. rewrite Er in Hr. destruct r as [f |].
      * destruct Hr as (Hf & Hge & Hff & Hall). split; [done |]. split; [lia |]. split; [done |].
        intros j Hj. destruct (Z.lt_ge_cases j (fd + size fd)); [apply Hfull; lia | apply Hall; lia].
      * intros j Hj. destruct (Z.lt_ge_cases j (fd + size fd)); [apply Hfull; lia | apply Hr; lia].
    + rewrite Es in *. rewrite Efd in *.
      assert (z <= 31).
      { destruct (Z.le_gt_cases z 31); [done |].
        assert (2 ^ 31 <= 2 ^ z) by (apply Z.pow_le_mono_r; lia). lia. }
      pose proof (cnt_bounds A (node_at z q) (2 ^ z) ltac:(lia)).
      destruct (descend_spec TREE_FUEL z z q 0) as (f & -> & Hlt' & Hff); try lia.
      { unfold TREE_FUEL. lia. }
      { by rewrite Z.sub_diag. }
      exists (Some f). split; [done |]. split; [lia | done].
Qed.

End Search.

(** ** Tables *)

(** The descriptors in use are [A], the counts are right, everything below
    fd_freefile is in use and nothing above fd_lastfile. *)
Record table_ok (fdp : filedesc) (A : Z -> bool) : Prop := {
  tb_size : exists K, 4 <= K <= 30 /\ fd_nfiles fdp = 2 ^ K - 1;
  tb_len : zlen (fd_files fdp) = fd_nfiles fdp;
  tb_used : forall j, used (fd_files fdp) j = A j;
  tb_count : counted (fd_files fdp) A;
  tb_reserved : forall j d, aget (fd_files fdp) j = Done d -> reserved d <> 0 -> fp d = None;
  tb_free : 0 <= fd_freefile fdp <= fd_nfiles fdp /\ forall j, 0 <= j < fd_freefile fdp -> A j = true;
  tb_last : -1 <= fd_lastfile fdp < fd_nfiles fdp /\
    (forall j, fd_lastfile fdp < j -> A j = false) /\
    (0 <= fd_lastfile fdp -> A (fd_lastfile fdp) = true)
}.

Lemma used_out files j : ~ 0 <= j < zlen files -> used files j = false.
Proof.
  intros H. unfold used. destruct (aget files j) eqn:E; [| done]. apply aget_bounds in E. lia.
Qed.

Lemma nfiles_bound fdp A : table_ok fdp A -> 15 <= fd_nfiles fdp < 2 ^ 30.
Proof.
  intros H. destruct (tb_size _ _ H) as (K & HK & ->).
  assert (2 ^ 4 <= 2 ^ K) by (apply Z.pow_le_mono_r; lia).
  pose proof (K_bound K ltac:(lia)). lia.
Qed.

(** Changing [A] at one descriptor changes the counts that include it. *)
Definition flip (A : Z -> bool) (fd : Z) (b : bool) : Z -> bool := fun j => if j =? fd then b else A j.

Definition bz (b : bool) : Z := if b then 1 else 0.

Lemma cnt_flip A fd b a c :
  0 <= c -> cnt (flip A fd b) a c = cnt A a c + if inr a c fd then bz b - bz (A fd) else 0.
Proof.
  intros Hc. destruct (inr a c fd) eqn:E.
  - apply inr_spec in E. rewrite (cnt_update A _ a c fd 1) by
      (lia || (intros j _ Hj; unfold flip; rewrite (proj2 (Z.eqb_neq _ _)) by lia; done)).
    unfold cnt. change (Z.to_nat 1) with 1%nat. simpl. unfold flip. rewrite Z.eqb_refl.
    destruct b, (A fd); simpl; lia.
  - apply inr_false in E. rewrite Z.add_0_r. apply cnt_ext. intros j Hj. unfold flip.
    by rewrite (proj2 (Z.eqb_neq _ _)) by lia.
Qed.

(** What a descriptor holds: its file, its flags and whether it is reserved. *)
Definition content (d : fdnode) : option Z * Z * Z := (fp d, fileflags d, reserved d).

Definition view (files : list fdnode) (j : Z) : option Z * Z * Z :=
  match aget files j with Done d => content d | Fault _ => content fdnode0 end.

Definition upd (V : Z -> option Z * Z * Z) (fd : Z) (c : option Z * Z * Z) : Z -> option Z * Z * Z :=
  fun j => if j =? fd then c else V j.

(** A node whose state of use changes, followed by fdreserve_locked. *)
Lemma update_counts fdp A fd d d' incr :
  table_ok fdp A -> aget (fd_files fdp) fd = Done d -> allocated d' = allocated d ->
  incr = bz (in_use d') - bz (in_use d) -> (reserved d' <> 0 -> fp d' = None) ->
  exists files', (fdp ← set_node fdp fd d'; fdreserve_locked fdp fd incr) = Done (set_files fdp files') /\
    zlen files' = zlen (fd_files fdp) /\
    (forall j, used files' j = flip A fd (in_use d') j) /\
    counted files' (flip A fd (in_use d')) /\
    (forall j e, aget files' j = Done e -> reserved e <> 0 -> fp e = None) /\
    (forall j, view files' j = upd (view (fd_files fdp)) fd (content d') j).
Proof.
  intros Hok Hd Hal Hincr Hres. pose proof (nfiles_bound _ _ Hok) as Hnf. pose proof (tb_len _ _ Hok) as Hlen.
  pose proof (aget_bounds _ _ _ Hd) as Hfd. assert (A fd = in_use d) as HA.
  { rewrite <- (tb_used _ _ Hok). unfold used. by rewrite Hd. }
  unfold set_node. rewrite aput_in_bounds by done. rewrite !bind_Done_l. set (files1 := <[Z.to_nat fd := d']> (fd_files fdp)).
  assert (zlen files1 = zlen (fd_files fdp)) as Hl1 by apply zlen_insert.
  assert (forall j e, aget files1 j = Done e -> allocated e = cnt A j (size j)) as Hcnt1.
  { intros j e Hj. destruct (decide (j = fd)) as [-> | Hne].
    - unfold files1 in Hj. rewrite aget_insert_eq in Hj by done. injection Hj as <-.
      rewrite Hal. by apply (tb_count _ _ Hok).
    - pose proof (aget_bounds _ _ _ Hj). unfold files1 in Hj. rewrite aget_insert_ne in Hj by lia.
      by apply (tb_count _ _ Hok). }
  destruct (reserve_loop_spec TREE_FUEL 0 files1 fd incr) as (files' & Hrun & Hl' & Hspec); try lia.
  { unfold TREE_FUEL. lia. }
  { apply aligned_0. }
  { intros n e Hn Hc. rewrite (Hcnt1 n e Hn). pose proof (size_pos n ltac:(apply aget_bounds in Hn; lia)).
    pose proof (cnt_bounds (flip A fd (in_use d')) n (size n) ltac:(lia)) as Hb.
    rewrite cnt_flip, (proj2 (inr_covers n fd) Hc), HA in Hb by lia. lia. }
  assert (forall j e, aget files' j = Done e ->
    exists e1, aget files1 j = Done e1 /\ e = bump fd incr j e1) as Hback.
  { intros j e Hj. pose proof (aget_bounds _ _ _ Hj). destruct (aget_in_bounds files1 j) as [e1 He1]; [lia |].
    exists e1. split; [done |]. rewrite (Hspec j e1 He1) in Hj. by injection Hj. }
  unfold fdreserve_locked.
  change (fd_files (set_files fdp files1)) with files1. rewrite Hrun, bind_Done_l. exists files'. split; [reflexivity |]. split; [lia |]. split_and!.
  - intros j. unfold used, flip. destruct (decide (0 <= j < zlen files1)) as [Hj | Hj].
    + destruct (aget_in_bounds files1 j Hj) as [e1 He1]. rewrite (Hspec j e1 He1).
      replace (in_use (bump fd incr j e1)) with (in_use e1) by done.
      destruct (Z.eqb_spec j fd) as [-> | Hne].
      * unfold files1 in He1. rewrite aget_insert_eq in He1 by done. by injection He1 as <-.
      * unfold files1 in He1. rewrite aget_insert_ne in He1 by lia.
        rewrite <- (tb_used _ _ Hok). unfold used. by rewrite He1.
    + rewrite (proj2 (Z.eqb_neq j fd)) by lia. rewrite <- (tb_used _ _ Hok), used_out by lia.
      destruct (aget files' j) eqn:E; [| done]. apply aget_bounds in E. lia.
  - intros j e (e1 & He1 & ->)%Hback. simpl. rewrite (Hcnt1 j e1 He1).
    rewrite cnt_flip, HA by (pose proof (size_pos j ltac:(apply aget_bounds in He1; lia)); lia).
    destruct (inr j (size j) fd); lia.
  - intros j e (e1 & He1 & ->)%Hback. simpl. destruct (decide (j = fd)) as [-> | Hne].
    + unfold files1 in He1. rewrite aget_insert_eq in He1 by done. by injection He1 as <-.
    + pose proof (aget_bounds _ _ _ He1). unfold files1 in He1. rewrite aget_insert_ne in He1 by lia.
      by apply (tb_reserved _ _ Hok j).
  - intros j. unfold view, upd. destruct (decide (0 <= j < zlen files1)) as [Hj | Hj].
    + destruct (aget_in_bounds files1 j Hj) as [e1 He1]. rewrite (Hspec j e1 He1).
      replace (content (bump fd incr j e1)) with (content e1) by done. unfold files1 in He1.
      destruct (Z.eqb_spec j fd) as [-> | Hne].
      * rewrite aget_insert_eq in He1 by done. by injection He1 as <-.
      * rewrite aget_insert_ne in He1 by lia. by rewrite He1.
    + rewrite (proj2 (Z.eqb_neq j fd)) by lia.
      destruct (aget files' j) eqn:E; [apply aget_bounds in E; lia |].
      destruct (aget (fd_files fdp) j) eqn:E'; [apply aget_bounds in E'; lia | done].
Qed.

(** fd_lastfile moves down to the last descriptor in use. *)
Lemma lastfile_spec fuel files last :
  last < zlen files -> -1 <= last -> last < Z.of_nat fuel ->
  exists last', lastfile_loop fuel files last = Done last' /\ -1 <= last' <= last /\
    (forall j, last' < j <= last -> used files j = false) /\ (0 <= last' -> used files last' = true).
Proof.
  revert last. induction fuel as [| fuel IH]; intros last Hl Hm Hf; cbn [lastfile_loop];
    (destruct (Z.leb_spec 0 last); cbn [negb];
     [| exists last; split; [done |]; split; [lia |]; split; [intros; lia | lia]]); [lia |].
  destruct (aget_in_bounds files last) as [d Hd]; [lia |]. rewrite Hd, bind_Done_l.
  assert (used files last = in_use d) as Hu by (unfold used; by rewrite Hd).
  fold (in_use d). destruct (in_use d) eqn:E.
  - exists last. split; [done |]. split; [lia |]. split; [intros; lia | done].
  - destruct (IH (last - 1)) as (last' & -> & Hb & Hn & Hy); [lia | lia | lia |].
    exists last'. split; [done |]. split; [lia |]. split; [| done].
    intros j Hj. destruct (decide (j = last)) as [-> |]; [congruence |]. apply Hn. lia.
Qed.

(** Giving a descriptor back: the common end of fsetfd(NULL) and funsetfd. *)
Lemma release_ok fdp A fd d d' :
  table_ok fdp A -> aget (fd_files fdp) fd = Done d -> allocated d' = allocated d ->
  in_use d = true -> in_use d' = false ->
  exists fdp', (fdp ← set_node fdp fd d'; fdp ← fdreserve_locked fdp fd (-1); fdfixup_locked fdp fd) = Done fdp' /\
    table_ok fdp' (flip A fd false) /\ fd_nfiles fdp' = fd_nfiles fdp /\
    forall j, view (fd_files fdp') j = upd (view (fd_files fdp)) fd (content d') j.
Proof.
  intros Hok Hd Hal Hu Hu'.
  destruct (update_counts fdp A fd d d' (-1) Hok Hd Hal) as (files' & Hrun & Hl & Hus & Hc & Hr & Hv).
  { by rewrite Hu, Hu'. }
  { intros Hr. unfold in_use in Hu'. rewrite (proj2 (Z.eqb_neq _ _)), andb_false_r in Hu' by done. done. }
  pose proof (aget_bounds _ _ _ Hd) as Hfd. rewrite Hu' in *.
  unfold set_node in *. rewrite aput_in_bounds in * by done. rewrite !bind_Done_l in *. rewrite Hrun, bind_Done_l.
  destruct (tb_free _ _ Hok) as [Hf1 Hf2]. destruct (tb_last _ _ Hok) as (Hl1 & Hl2 & Hl3).
  pose proof (tb_len _ _ Hok) as Hlen.
  unfold fdfixup_locked. cbv zeta.
  set (fdp1 := if fd <? fd_freefile (set_files fdp files') then _ else _).
  assert (fd_files fdp1 = files' /\ fd_nfiles fdp1 = fd_nfiles fdp /\ fd_lastfile fdp1 = fd_lastfile fdp /\
    fd_freefile fdp1 = Z.min fd (fd_freefile fdp)) as (E1 & E2 & E3 & E4).
  { unfold fdp1. simpl. destruct (Z.ltb_spec fd (fd_freefile fdp)); simpl; split_and!; done || lia. }
  rewrite E1, E3.
  destruct (lastfile_spec (length files') files' (fd_lastfile fdp)) as (last' & -> & Hb & Hn & Hy);
    [lia | lia | unfold zlen in *; lia |].
  rewrite bind_Done_l. eexists. split; [reflexivity |]. split; [| simpl; by rewrite E1, E2].
  constructor; simpl; rewrite ?E1, ?E2, ?E4; try done.
  - apply (tb_size _ _ Hok).
  - lia.
  - split; [lia |]. intros j Hj. unfold flip. rewrite (proj2 (Z.eqb_neq _ _)) by lia. apply Hf2. lia.
  - split; [lia |]. split.
    + intros j Hj. rewrite <- Hus. destruct (Z.le_gt_cases j (fd_lastfile fdp)); [apply Hn; lia |].
      rewrite Hus. unfold flip. destruct (j =? fd); [done | by apply Hl2].
    + intros H0. rewrite <- Hus. by apply Hy.
Qed.

(** ** Growing the table *)

Lemma grow_size_spec fuel K want :
  0 <= K <= 29 -> 30 - K <= Z.of_nat fuel -> want < 2 ^ 30 - 1 ->
  exists K', grow_size fuel (2 ^ K - 1) want = Done (2 ^ K' - 1) /\ K < K' <= 30 /\ want < 2 ^ K' - 1.
Proof.
  revert K. induction fuel as [| fuel IH]; intros K HK Hf Hw; [lia |]. cbn [grow_size]. cbv zeta.
  replace (2 * (2 ^ K - 1) + 1) with (2 ^ (K + 1) - 1) by (rewrite pow2_S by lia; lia).
  destruct (Z.leb_spec (2 ^ (K + 1) - 1) want) as [Hle | Hgt].
  - destruct (decide (K = 29)) as [-> |]; [change (29 + 1) with 30 in *; lia |].
    destruct (IH (K + 1)) as (K' & -> & HK' & Hw'); [lia | lia | done |].
    exists K'. split; [done |]. split; [lia | done].
  - exists (K + 1). split; [done |]. split; [lia | done].
Qed.

Lemma view_grow l k j : view (l ++ replicate k fdnode0) j = view l j.
Proof.
  unfold view. destruct (Z.lt_ge_cases j (zlen l)) as [H | H]; [by rewrite aget_app_l |].
  rewrite aget_app_r by done. destruct (aget l j) eqn:E; [apply aget_bounds in E; lia |].
  destruct (aget (replicate k fdnode0) _) eqn:E'; [| done].
  apply aget_Done in E' as [_ [-> _]%lookup_replicate_1]. done.
Qed.

Lemma used_view files j : used files j = negb (bool_decide ((view files j).1.1 = None) && ((view files j).2 =? 0)).
Proof. unfold used, view. by destruct (aget files j). Qed.

(** fdgrow_locked makes the table large enough and changes no descriptor. *)
Lemma fdgrow_ok fdp A want :
  table_ok fdp A -> fd_nfiles fdp < 2 ^ 30 - 1 -> want < 2 ^ 30 - 1 ->
  exists fdp', fdgrow_locked fdp want = Done fdp' /\ table_ok fdp' A /\
    fd_nfiles fdp < fd_nfiles fdp' /\ want < fd_nfiles fdp' /\ fd_freefile fdp' = fd_freefile fdp /\
    forall j, view (fd_files fdp') j = view (fd_files fdp) j.
Proof.
  intros Hok Hnf Hw. destruct (tb_size _ _ Hok) as (K & HK & EK). pose proof (tb_len _ _ Hok) as Hlen.
  assert (K <= 29) by (destruct (decide (K = 30)) as [-> |]; lia).
  destruct (grow_size_spec TREE_FUEL K want) as (K' & Hrun & HK' & Hw'); [lia | unfold TREE_FUEL; lia | done |].
  pose proof (pow2_pos K ltac:(lia)). assert (2 ^ K < 2 ^ K') by (apply Z.pow_lt_mono_r; lia).
  unfold fdgrow_locked. rewrite EK, Hrun, bind_Done_l, (proj2 (Z.leb_gt _ _)) by lia.
  eexists. split; [reflexivity |]. simpl. set (k := Z.to_nat _).
  assert (zlen (fd_files fdp ++ replicate k fdnode0) = 2 ^ K' - 1) as Hl.
  { rewrite zlen_app, Hlen, EK. unfold zlen. rewrite length_replicate. unfold k. lia. }
  split; [| split_and!; try lia; intros; by rewrite view_grow].
  destruct (tb_free _ _ Hok) as [Hf1 Hf2]. destruct (tb_last _ _ Hok) as (Hl1 & Hl2 & Hl3).
  constructor; simpl; try lia.
  - exists K'. split; lia.
  - intros j. rewrite used_view, view_grow, <- used_view. apply (tb_used _ _ Hok).
  - intros n d Hd. destruct (Z.lt_ge_cases n (zlen (fd_files fdp))).
    + rewrite aget_app_l in Hd by done. by apply (tb_count _ _ Hok).
    + rewrite aget_app_r in Hd by done. apply aget_Done in Hd as [_ [-> _]%lookup_replicate_1].
      simpl. symmetry. pose proof (size_pos n ltac:(lia)). apply cnt_none; [lia |]. intros j Hj.
      rewrite <- (tb_used _ _ Hok). apply used_out. lia.
  - intros j d Hd. destruct (Z.lt_ge_cases j (zlen (fd_files fdp))).
    + rewrite aget_app_l in Hd by done. by apply (tb_reserved _ _ Hok j).
    + rewrite aget_app_r in Hd by done. apply aget_Done in Hd as [_ [-> _]%lookup_replicate_1]. done.
  - split; [lia | done].
  - split; [lia | done].
Qed.

(** ** Finding and taking a descriptor *)

Section Alloc.
Context (A : Z -> bool) (want lim : Z).
Hypothesis Hlim : want < lim <= 2 ^ 30 - 1.
Hypothesis Hwant : 0 <= want.

Lemma search_table fdp :
  table_ok fdp A ->
  exists r, search TREE_FUEL (fd_files fdp) (Z.min (u32 (fd_nfiles fdp)) (u32 lim))
      (s32 (Z.max (u32 want) (u32 (fd_freefile fdp)))) = Done r /\
    match r with
    | Some f => f < fd_nfiles fdp /\ first_free A (Z.max want (fd_freefile fdp)) f
    | None => forall j, Z.max want (fd_freefile fdp) <= j < Z.min (fd_nfiles fdp) lim -> A j = true
    end.
Proof.
  intros Hok. pose proof (nfiles_bound _ _ Hok). destruct (tb_free _ _ Hok) as [Hf _].
  destruct (tb_size _ _ Hok) as (K & HK & EK).
  rewrite !u32_id, s32_id by (unfold_int; lia). rewrite EK.
  apply (search_spec _ _ K ltac:(lia)) with (k := 0); try lia.
  - rewrite (tb_len _ _ Hok). done.
  - apply (tb_count _ _ Hok).
  - unfold TREE_FUEL. lia.
  - apply aligned_0.
Qed.

(** Two rounds are enough: a table that has grown has a free descriptor. *)
Lemma find_free_spec fdp :
  table_ok fdp A -> want < fd_nfiles fdp ->
  exists fdp' r, find_free 2 fdp want lim = Done (fdp', r) /\ table_ok fdp' A /\
    (forall j, view (fd_files fdp') j = view (fd_files fdp) j) /\
    match r with
    | Some f => f < fd_nfiles fdp' /\ first_free A (Z.max want (fd_freefile fdp')) f
    | None => forall j, Z.max want (fd_freefile fdp') <= j < lim -> A j = true
    end.
Proof.
  intros Hok Hw. pose proof (nfiles_bound _ _ Hok). cbn [find_free].
  destruct (search_table fdp Hok) as (r & -> & Hr). rewrite bind_Done_l. destruct r as [f |].
  { exists fdp, (Some f). done. }
  destruct (Z.leb_spec lim (fd_nfiles fdp)) as [Hle | Hgt].
  { exists fdp, None. split; [done |]. split; [done |]. split; [done |]. intros j Hj. apply Hr. lia. }
  destruct (fdgrow_ok fdp A want Hok) as (fdp' & -> & Hok' & Hnf' & Hw' & Hff & Hv'); [lia | lia |].
  rewrite bind_Done_l. destruct (search_table fdp' Hok') as (r & -> & Hr'). rewrite bind_Done_l.
  destruct r as [f |]; [by exists fdp', (Some f) |]. exfalso.
  destruct (tb_free _ _ Hok) as [Hf _].
  assert (A (fd_nfiles fdp) = true) as Ht by (apply Hr'; lia).
  rewrite <- (tb_used _ _ Hok), used_out in Ht; [done |]. rewrite (tb_len _ _ Hok). lia.
Qed.

Lemma take_fd_spec fdp fd :
  table_ok fdp A -> fd < fd_nfiles fdp -> first_free A (Z.max want (fd_freefile fdp)) fd ->
  exists fdp', take_fd fdp want fd = Done fdp' /\ table_ok fdp' (flip A fd true) /\
    forall j, view (fd_files fdp') j = upd (view (fd_files fdp)) fd (None, 0, 1) j.
Proof.
  intros Hok Hfd (Hge & Hfree & Hall). pose proof (tb_len _ _ Hok) as Hlen.
  destruct (tb_free _ _ Hok) as [Hf1 Hf2]. destruct (tb_last _ _ Hok) as (Hl1 & Hl2 & Hl3).
  destruct (aget_in_bounds (fd_files fdp) fd) as [d Hd]; [lia |].
  assert (in_use d = false) as Hud.
  { rewrite <- Hfree, <- (tb_used _ _ Hok). unfold used. by rewrite Hd. }
  unfold in_use in Hud. apply negb_false_iff, andb_true_iff in Hud as [Hfp Hrs].
  unfold take_fd, KKASSERT. rewrite (proj2 (Z.ltb_lt fd (fd_nfiles fdp)) Hfd). rewrite bind_Done_l. cbv zeta.
  set (fdp1 := if fd_lastfile fdp <? fd then set_lastfile fdp fd else fdp).
  set (fdp2 := if want <=? fd_freefile fdp1 then set_freefile fdp1 fd else fdp1).
  assert (fd_files fdp2 = fd_files fdp /\ fd_nfiles fdp2 = fd_nfiles fdp /\
    fd_lastfile fdp2 = Z.max (fd_lastfile fdp) fd /\
    fd_freefile fdp2 = if want <=? fd_freefile fdp then fd else fd_freefile fdp) as (E1 & E2 & E3 & E4).
  { unfold fdp2, fdp1. destruct (Z.ltb_spec (fd_lastfile fdp) fd); simpl;
      destruct (want <=? fd_freefile fdp); simpl; split_and!; done || lia. }
  rewrite E1, Hd, bind_Done_l, Hfp, bind_Done_l, Hrs, bind_Done_l.
  destruct (update_counts fdp A fd d (Fdnode (fp d) 0 1 (allocated d)) 1 Hok Hd)
    as (files' & Hrun & Hl & Hus & Hc & Hr & Hv); [done | | |].
  { unfold in_use. simpl. by rewrite Hfp, Hrs. }
  { intros _. by apply bool_decide_eq_true_1 in Hfp. }
  unfold set_node in *. rewrite E1 in *. rewrite aput_in_bounds in * by lia. rewrite !bind_Done_l in *.
  unfold fdreserve_locked in *. cbn [fd_files set_files] in *.
  destruct (reserve_loop TREE_FUEL _ fd 1) as [files1 |]; [| discriminate].
  rewrite !bind_Done_l in *. injection Hrun as ->. eexists. split; [reflexivity |].
  assert (in_use (Fdnode (fp d) 0 1 (allocated d)) = true) as Hu.
  { unfold in_use. simpl. by rewrite andb_false_r. }
  rewrite Hu in *. split.
  - constructor; simpl; rewrite ?E2, ?E3, ?E4; try done.
    + apply (tb_size _ _ Hok).
    + lia.
    + destruct (Z.leb_spec want (fd_freefile fdp)); (split; [lia |]); intros j Hj; unfold flip.
      * destruct (j =? fd); [done |]. destruct (Z.lt_ge_cases j (fd_freefile fdp)); [by apply Hf2; lia |].
        apply Hall. lia.
      * destruct (j =? fd); [done |]. by apply Hf2.
    + split; [lia |]. unfold flip. split.
      * intros j Hj. rewrite (proj2 (Z.eqb_neq _ _)) by lia. apply Hl2. lia.
      * intros _. destruct (Z.eqb_spec (Z.max (fd_lastfile fdp) fd) fd) as [E | E]; [done |].
        rewrite Z.max_l by lia. apply Hl3. lia.
  - apply bool_decide_eq_true_1 in Hfp. unfold content in Hv. simpl in Hv. rewrite Hfp in Hv. exact Hv.
Qed.

End Alloc.

(** ** Tables, by what they hold *)

#[export] Instance table_ok_proper fdp : Proper (pointwise_relation Z eq ==> iff) (table_ok fdp).
Proof.
  intros A B H. assert (forall A B, (forall j, A j = B j) -> table_ok fdp A -> table_ok fdp B) as Himp.
  { clear. intros A B E [Hs Hl Hu Hc Hr [Hf1 Hf2] (Hl1 & Hl2 & Hl3)]. constructor; try done.
    - intros j. rewrite <- E. apply Hu.
    - intros n d Hd. rewrite (Hc n d Hd). apply cnt_ext. intros. apply E.
    - split; [done |]. intros. rewrite <- E. by apply Hf2.
    - split; [done |]. split; intros; rewrite <- E; [by apply Hl2 | by apply Hl3]. }
  split; apply Himp; intros j; [| symmetry]; apply H.
Qed.

(** The table is consistent. *)
Definition fd_ok (fdp : filedesc) : Prop := table_ok fdp (used (fd_files fdp)).

Lemma table_fd_ok fdp A : table_ok fdp A -> fd_ok fdp.
Proof. intros H. unfold fd_ok. assert (pointwise_relation Z eq (used (fd_files fdp)) A) as ->; [| done]. exact (tb_used _ _ H). Qed.

(** A descriptor with this content is in use. *)
Definition busy (c : option Z * Z * Z) : bool := negb (bool_decide (c.1.1 = None) && (c.2 =? 0)).

Lemma used_busy files j : used files j = busy (view files j).
Proof. apply used_view. Qed.

Lemma in_use_busy d : in_use d = busy (content d).
Proof. done. Qed.

Lemma view_get files j d : aget files j = Done d -> view files j = content d.
Proof. unfold view. by intros ->. Qed.

Lemma view_out files j : ~ 0 <= j < zlen files -> view files j = content fdnode0.
Proof. intros H. unfold view. destruct (aget files j) eqn:E; [apply aget_bounds in E; lia | done]. Qed.

(** A descriptor that holds something has a node. *)
Lemma view_node fdp fd :
  fd_ok fdp -> view (fd_files fdp) fd <> content fdnode0 ->
  0 <= fd < fd_nfiles fdp /\ exists d, aget (fd_files fdp) fd = Done d /\ view (fd_files fdp) fd = content d.
Proof.
  intros Hok Hv. unfold view in *. destruct (aget (fd_files fdp) fd) as [d |] eqn:E; [| done].
  pose proof (aget_bounds _ _ _ E). rewrite (tb_len _ _ Hok) in *. split; [done |]. by exists d.
Qed.

(** A node whose state of use does not change. *)
Lemma set_node_same fdp fd d d' :
  fd_ok fdp -> aget (fd_files fdp) fd = Done d -> allocated d' = allocated d -> in_use d' = in_use d ->
  (reserved d' <> 0 -> fp d' = None) ->
  exists fdp', set_node fdp fd d' = Done fdp' /\ fd_ok fdp' /\ fd_nfiles fdp' = fd_nfiles fdp /\
    (forall j, view (fd_files fdp') j = upd (view (fd_files fdp)) fd (content d') j) /\
    aget (fd_files fdp') fd = Done d'.
Proof.
  intros Hok Hd Hal Hu Hr. pose proof (aget_bounds _ _ _ Hd) as Hfd. unfold set_node.
  rewrite aput_in_bounds by done. rewrite bind_Done_l. eexists. split; [reflexivity |]. simpl.
  set (files' := <[Z.to_nat fd := d']> (fd_files fdp)).
  assert (zlen files' = zlen (fd_files fdp)) as Hl by apply zlen_insert.
  assert (forall j e, aget files' j = Done e -> j = fd /\ e = d' \/ aget (fd_files fdp) j = Done e) as Hg.
  { intros j e Hj. pose proof (aget_bounds _ _ _ Hj). unfold files' in Hj. destruct (decide (j = fd)) as [-> |].
    - rewrite aget_insert_eq in Hj by done. injection Hj as <-. by left.
    - rewrite aget_insert_ne in Hj by lia. by right. }
  assert (forall j, view files' j = upd (view (fd_files fdp)) fd (content d') j) as Hv.
  { intros j. unfold upd, view, files'. destruct (Z.eqb_spec j fd) as [-> | Hne]; [by rewrite aget_insert_eq |].
    destruct (Z.lt_ge_cases j 0) as [Hj | Hj].
    - unfold aget. by rewrite (proj2 (Z.ltb_lt j 0) Hj).
    - by rewrite aget_insert_ne by lia. }
  split; [| split; [done |]; split; [done | by apply aget_insert_eq]].
  apply (table_fd_ok _ (used (fd_files fdp))). destruct Hok as [Hs Hlen _ Hc Hres Hf Hla].
  constructor; simpl; try done; fold files'.
  - lia.
  - intros j. rewrite !used_busy, Hv. unfold upd. destruct (Z.eqb_spec j fd) as [-> | Hne]; [| done].
    rewrite (view_get _ _ _ Hd), <- !in_use_busy. done.
  - intros n e [[-> ->] | Hn]%Hg; [rewrite Hal; by apply Hc | by apply Hc].
  - intros j e [[-> ->] | Hn]%Hg; [done | by apply (Hres j)].
Qed.

(** The user has too many open files, and the table is not a small one. *)
Definition over_quota (lm : fdlimits) (fdp : filedesc) : Prop :=
  cr_uid lm <> 0 /\ minfilesperproc lm <= fd_nfiles fdp /\ maxfilesperuser lm < ui_openfiles lm.

(** fdalloc on a table whose descriptors in use are [A]. *)
Lemma fdalloc_spec lm fdp A want :
  table_ok fdp A -> 0 <= want -> dtable_limit lm <= 2 ^ 30 - 1 ->
  exists fdp' r, fdalloc lm fdp want = Done (fdp', r) /\
    match r with
    | Datatypes.inr fd => first_free A want fd /\ table_ok fdp' (flip A fd true) /\ ~ over_quota lm fdp /\
        forall j, view (fd_files fdp') j = upd (view (fd_files fdp)) fd (None, 0, 1) j
    | inl e => table_ok fdp' A /\ (forall j, view (fd_files fdp') j = view (fd_files fdp) j) /\
        ((e = EMFILE /\ (want < dtable_limit lm -> ~ over_quota lm fdp) /\ forall j, want <= j < dtable_limit lm -> A j = true) \/
         (e = ENFILE /\ want < dtable_limit lm /\ over_quota lm fdp))
    end.
Proof.
  intros Hok Hw Hlim. unfold fdalloc. cbv zeta.
  destruct (Z.leb_spec (dtable_limit lm) want) as [Hle | Hgt].
  { eexists _, _. split; [reflexivity |]. split; [done |]. split; [done |]. left. split; [done |]. split; intros; lia. }
  destruct (negb (cr_uid lm =? 0) && (minfilesperproc lm <=? fd_nfiles fdp) &&
    (maxfilesperuser lm <? ui_openfiles lm)) eqn:Hq.
  { eexists _, _. split; [reflexivity |]. split; [done |]. split; [done |]. right.
    apply andb_true_iff in Hq as [[Hq Hf%Z.leb_le]%andb_true_iff Hm%Z.ltb_lt]. apply negb_true_iff, Z.eqb_neq in Hq. done. }
  assert (~ over_quota lm fdp) as Hnq.
  { intros (H1 & H2 & H3). by rewrite (proj2 (Z.eqb_neq _ _) H1), (proj2 (Z.leb_le _ _) H2), (proj2 (Z.ltb_lt _ _) H3) in Hq. }
  pose proof (nfiles_bound _ _ Hok).
  assert (exists fdp1, (if fd_nfiles fdp <=? want then fdgrow_locked fdp want else mret fdp) = Done fdp1 /\
    table_ok fdp1 A /\ want < fd_nfiles fdp1 /\ forall j, view (fd_files fdp1) j = view (fd_files fdp) j)
    as (fdp1 & -> & Hok1 & Hw1 & Hv1).
  { destruct (Z.leb_spec (fd_nfiles fdp) want) as [H1 | H1]; [| by exists fdp].
    destruct (fdgrow_ok fdp A want Hok) as (fdp1 & ? & ? & ? & ? & ? & ?); [lia | lia |]. by exists fdp1. }
  rewrite bind_Done_l.
  destruct (find_free_spec A want (dtable_limit lm) ltac:(lia) Hw fdp1 Hok1 Hw1) as (fdp2 & r & -> & Hok2 & Hv2 & Hr).
  rewrite bind_Done_l. destruct (tb_free _ _ Hok2) as [_ Hff]. destruct r as [fd |].
  - destruct Hr as [Hlt Hfst].
    destruct (take_fd_spec A want Hw fdp2 fd Hok2 Hlt Hfst) as (fdp3 & -> & Hok3 & Hv3).
    rewrite bind_Done_l. eexists _, _. split; [reflexivity |]. split.
    + destruct Hfst as (Hge & Hfree & Hall). split; [lia |]. split; [done |]. intros j Hj.
      destruct (Z.lt_ge_cases j (fd_freefile fdp2)); [apply Hff; lia | apply Hall; lia].
    + split; [done |]. split; [done |]. intros j. rewrite Hv3. unfold upd. destruct (j =? fd); [done |]. by rewrite Hv2, Hv1.
  - eexists _, _. split; [reflexivity |]. split; [done |]. split; [intros j; by rewrite Hv2, Hv1 |]. left. split; [done |]. split; [done |].
    intros j Hj. destruct (Z.lt_ge_cases j (fd_freefile fdp2)); [apply Hff; lia | apply Hr; lia].
Qed.

(** fsetfd_locked gives a reserved descriptor its file ... *)
Lemma fsetfd_some_spec fdp fd f fl r :
  fd_ok fdp -> view (fd_files fdp) fd = (None, fl, r) -> r <> 0 ->
  exists fdp', fsetfd_locked fdp (Some f) fd = Done fdp' /\ fd_ok fdp' /\ fd_nfiles fdp' = fd_nfiles fdp /\
    (forall j, view (fd_files fdp') j = upd (view (fd_files fdp)) fd (Some f, fl, 0) j) /\
    exists n, aget (fd_files fdp') fd = Done n.
Proof.
  intros Hok Hv Hr. destruct (view_node fdp fd Hok) as (Hfd & d & Hd & E); [rewrite Hv; unfold content; simpl; congruence |].
  rewrite Hv in E. unfold content in E. injection E as E1 E2 E3. pose proof (nfiles_bound _ _ Hok).
  unfold fsetfd_locked, KKASSERT. rewrite u32_id by (unfold_int; lia).
  rewrite (proj2 (Z.ltb_lt _ _)) by lia. rewrite bind_Done_l, Hd, bind_Done_l.
  rewrite (proj2 (Z.eqb_neq _ _)) by congruence. cbn [negb]. rewrite bind_Done_l.
  destruct (set_node_same fdp fd d (Fdnode (Some f) (fileflags d) 0 (allocated d)) Hok Hd)
    as (fdp' & -> & Hok' & Hnf & Hv' & Hg); try done.
  { unfold in_use. simpl. rewrite (proj2 (Z.eqb_neq (reserved d) 0)) by congruence. by rewrite andb_false_r. }
  exists fdp'. split; [done |]. split; [done |]. split; [done |]. split; [| by eexists].
  intros j. rewrite Hv'. unfold content. simpl. by rewrite E2.
Qed.

(** ... or returns it to the pool. *)
Lemma fsetfd_none_spec fdp fd fl r :
  fd_ok fdp -> view (fd_files fdp) fd = (None, fl, r) -> r <> 0 ->
  exists fdp', fsetfd_locked fdp None fd = Done fdp' /\ fd_ok fdp' /\
    forall j, view (fd_files fdp') j = upd (view (fd_files fdp)) fd (None, fl, 0) j.
Proof.
  intros Hok Hv Hr. destruct (view_node fdp fd Hok) as (Hfd & d & Hd & E); [rewrite Hv; unfold content; simpl; congruence |].
  rewrite Hv in E. unfold content in E. injection E as E1 E2 E3. pose proof (nfiles_bound _ _ Hok).
  unfold fsetfd_locked, KKASSERT. rewrite u32_id by (unfold_int; lia).
  rewrite (proj2 (Z.ltb_lt _ _)) by lia. rewrite bind_Done_l, Hd, bind_Done_l.
  rewrite (proj2 (Z.eqb_neq _ _)) by congruence. cbn [negb]. rewrite bind_Done_l.
  destruct (release_ok fdp _ fd d (Fdnode (fp d) (fileflags d) 0 (allocated d)) Hok Hd)
    as (fdp' & -> & Hok' & _ & Hv'); try done.
  { unfold in_use. rewrite (proj2 (Z.eqb_neq (reserved d) 0)) by congruence. by rewrite andb_false_r. }
  { unfold in_use. simpl. rewrite <- E1. done. }
  exists fdp'. split; [done |]. split; [by eapply table_fd_ok |].
  intros j. rewrite Hv'. unfold content. simpl. by rewrite <- E1, <- E2.
Qed.

(** funsetfd_locked closes an open descriptor. *)
Lemma funsetfd_spec fdp fd :
  fd_ok fdp -> is_s32 fd ->
  match view (fd_files fdp) fd with
  | (Some f, _, _) => exists fdp', funsetfd_locked fdp fd = Done (fdp', Some f) /\ fd_ok fdp' /\ fd_nfiles fdp' = fd_nfiles fdp /\
      forall j, view (fd_files fdp') j = upd (view (fd_files fdp)) fd (None, 0, 0) j
  | (None, _, _) => funsetfd_locked fdp fd = Done (fdp, None)
  end.
Proof.
  intros Hok Hs. pose proof (nfiles_bound _ _ Hok) as Hnf. pose proof (tb_len _ _ Hok) as Hlen. unfold funsetfd_locked.
  destruct (decide (0 <= fd < fd_nfiles fdp)) as [Hfd | Hfd].
  - rewrite u32_id by (unfold_int; lia). rewrite (proj2 (Z.leb_gt _ _)) by lia.
    destruct (aget_in_bounds (fd_files fdp) fd) as [d Hd]; [lia |].
    rewrite (view_get _ _ _ Hd), Hd, bind_Done_l. unfold content. destruct (fp d) as [f |] eqn:Ef; [| done].
    assert (reserved d = 0) as Hr.
    { destruct (decide (reserved d = 0)); [done |]. rewrite (tb_reserved _ _ Hok fd d Hd) in Ef; done. }
    destruct (release_ok fdp _ fd d (Fdnode None 0 (reserved d) (allocated d)) Hok Hd)
      as (fdp' & Hrun & Hok' & Hnf' & Hv'); try done.
    { unfold in_use. by rewrite Ef. }
    { unfold in_use. simpl. by rewrite Hr. }
    destruct (set_node fdp fd _) as [fdp1 |]; [| discriminate]. rewrite bind_Done_l in Hrun; rewrite bind_Done_l.
    destruct (fdreserve_locked fdp1 fd (-1)) as [fdp2 |]; [| discriminate]. rewrite bind_Done_l in Hrun; rewrite bind_Done_l.
    rewrite Hrun, bind_Done_l. exists fdp'. split; [done |]. split; [by eapply table_fd_ok |]. split; [done |].
    intros j. rewrite Hv'. unfold content. simpl. by rewrite Hr.
  - rewrite view_out by lia. simpl. unfold u32. destruct (Z.lt_ge_cases fd 0).
    + replace (fd mod 2 ^ 32) with (fd + 2 ^ 32); [| apply (Z.mod_unique_pos _ _ (-1)); unfold_int; lia].
      rewrite (proj2 (Z.leb_le _ _)); [done |]. unfold_int. lia.
    + rewrite Z.mod_small by (unfold_int; lia). by rewrite (proj2 (Z.leb_le _ _)) by lia.
Qed.
