(* ===== verification/FdProps.v ===== *)
(** * The descriptor table against its specification

    What a process sees of its descriptor table is the function that gives
    the content of each descriptor; the theorems say what every operation of
    sys/kern/kern_descrip.c does to it, and that the counts, the low-water and
    the high-water mark stay exact. *)

From stdpp Require Import prelude list strings.
From S2P Require Import Prelude.
From S2P Require Import Ranges.
From S2P Require Import FdTable.
From S2P Require Import FdTree.
From S2P Require Import FdLemmas.
Open Scope Z_scope.

Abbreviation V fdp := (view (fd_files fdp)).

(** The lowest descriptor that is free in [W], from [want] on. *)
Definition lowest_free (W : Z -> option Z * Z * Z) (want fd : Z) : Prop :=
  want <= fd /\ busy (W fd) = false /\ forall j, want <= j < fd -> busy (W j) = true.

Lemma first_free_lowest files want fd : first_free (used files) want fd <-> lowest_free (view files) want fd.
Proof. unfold first_free, lowest_free. setoid_rewrite used_busy. done. Qed.

(** ** Duplicating *)

Lemma view_upd_eq (W : Z -> option Z * Z * Z) fd c : upd W fd c fd = c.
Proof. unfold upd. by rewrite Z.eqb_refl. Qed.

Lemma view_upd_ne (W : Z -> option Z * Z * Z) fd c j : j <> fd -> upd W fd c j = W j.
Proof. intros. unfold upd. by rewrite (proj2 (Z.eqb_neq _ _)). Qed.

Lemma dup_install_spec fdp f flags oldflags new fl r :
  fd_ok fdp -> V fdp new = (None, fl, r) -> r <> 0 ->
  exists fdp', dup_install fdp f flags oldflags new = Done fdp' /\ fd_ok fdp' /\
    forall j, V fdp' j = upd (V fdp) new (Some f, dup_flags flags oldflags, 0) j.
Proof.
  intros Hok Hv Hr. unfold dup_install.
  destruct (fsetfd_some_spec fdp new f fl r Hok Hv Hr) as (fdp1 & -> & Hok1 & _ & Hv1 & n & Hn).
  rewrite bind_Done_l, Hn, bind_Done_l. pose proof (view_get _ _ _ Hn) as E.
  rewrite Hv1, view_upd_eq in E. injection E as E1 E2 E3.
  destruct (set_node_same fdp1 new n (Fdnode (fp n) (dup_flags flags oldflags) (reserved n) (allocated n)) Hok1 Hn)
    as (fdp2 & -> & Hok2 & _ & Hv2 & _); [done | done | simpl; congruence |].
  exists fdp2. split; [done |]. split; [done |]. intros j. rewrite Hv2. unfold upd, content. simpl.
  rewrite <- E1, <- E3. destruct (Z.eqb_spec j new); [done |]. rewrite Hv1. by rewrite view_upd_ne.
Qed.

Lemma dup_alloc_spec lm fdp f flags oldflags old new c :
  fd_ok fdp -> V fdp old = (Some f, c.1, c.2) -> 0 <= new -> dtable_limit lm <= 2 ^ 30 - 1 ->
  bit_set flags DUP_VARIABLE = true \/ fd_nfiles fdp <= new ->
  exists fdp' r, dup_alloc lm fdp f flags oldflags old new = Done (fdp', r) /\ fd_ok fdp' /\
    match r with
    | DupDone nfd del => del = None /\ nfd <> old /\ lowest_free (V fdp) new nfd /\
        (bit_set flags DUP_VARIABLE = false -> nfd = new) /\
        forall j, V fdp' j = upd (V fdp) nfd (Some f, dup_flags flags oldflags, 0) j
    | DupError e => (e = EMFILE /\ (forall j, new <= j < dtable_limit lm -> busy (V fdp j) = true) \/ e = ENFILE /\ over_quota lm fdp) /\ forall j, V fdp' j = V fdp j
    | DupRetry => False
    end.
Proof.
  intros Hok Hold Hnew Hlim Hmode. unfold dup_alloc.
  destruct (fdalloc_spec lm fdp _ new Hok Hnew Hlim) as (fdp1 & r & -> & Hr). rewrite bind_Done_l.
  destruct r as [e | nfd].
  { destruct Hr as (Hok1 & Hv1 & He). eexists _, _. split; [reflexivity |]. split; [by eapply table_fd_ok |].
    split; [| done]. destruct He as [(-> & _ & He) | (-> & _ & He)]; [left | by right]. split; [done |]. intros j Hj. rewrite <- used_busy. by apply He. }
  destruct Hr as (Hff & Hok1 & _ & Hv1). apply first_free_lowest in Hff. pose proof Hff as (Hge & Hfree & Hall).
  assert (nfd <> old) as Hne by (intros ->; rewrite Hold in Hfree; done).
  apply table_fd_ok in Hok1. assert (V fdp1 old = (Some f, c.1, c.2)) as Hold1.
  { rewrite Hv1. by rewrite view_upd_ne. }
  destruct (view_node fdp1 old Hok1) as (Hlt & d & Hd & E); [by rewrite Hold1 |].
  rewrite Hold1 in E. injection E as E1 _ _.
  rewrite (proj2 (Z.leb_gt _ _)) by lia. rewrite Hd, !bind_Done_l.
  rewrite bool_decide_eq_true_2 by done. cbn [negb orb].
  assert (bit_set flags DUP_VARIABLE = false -> nfd = new) as Hfix.
  { intros Hb. destruct Hmode as [? | Hmode]; [congruence |]. destruct (decide (nfd = new)); [done |].
    specialize (Hall new ltac:(lia)). rewrite view_out in Hall; [done |]. rewrite (tb_len _ _ Hok). lia. }
  replace (negb (bit_set flags DUP_VARIABLE) && negb (new =? nfd)) with false.
  2:{ destruct (bit_set flags DUP_VARIABLE); [done |]. rewrite Hfix by done. by rewrite Z.eqb_refl. }
  rewrite (proj2 (Z.eqb_neq _ _)) by done. cbn [orb].
  destruct (dup_install_spec fdp1 f flags oldflags nfd 0 1 Hok1) as (fdp2 & -> & Hok2 & Hv2);
    [rewrite Hv1; apply view_upd_eq | done |].
  rewrite bind_Done_l. eexists _, _. split; [reflexivity |]. split; [done |]. split_and!; try done.
  intros j. rewrite Hv2. unfold upd. destruct (Z.eqb_spec j nfd); [done |]. rewrite Hv1. by rewrite view_upd_ne.
Qed.

(** Reserving a given free descriptor, as kern_dup does. *)
Lemma reserve_given fdp new d :
  fd_ok fdp -> aget (fd_files fdp) new = Done d -> in_use d = false ->
  exists fdp', (fdp ← set_node fdp new (Fdnode None (fileflags d) 1 (allocated d));
      fdp ← fdreserve_locked fdp new 1;
      mret (if fd_lastfile fdp <? new then set_lastfile fdp new else fdp)) = Done fdp' /\
    fd_ok fdp' /\ forall j, V fdp' j = upd (V fdp) new (None, fileflags d, 1) j.
Proof.
  intros Hok Hd Hu. pose proof (aget_bounds _ _ _ Hd) as Hb. pose proof (tb_len _ _ Hok) as Hlen.
  destruct (update_counts fdp _ new d (Fdnode None (fileflags d) 1 (allocated d)) 1 Hok Hd)
    as (files' & Hrun & Hl & Hus & Hc & Hr & Hv); [done | by rewrite Hu | done |].
  apply bind_Done in Hrun as (fdp1 & -> & Hrun). rewrite bind_Done_l, Hrun, bind_Done_l.
  eexists. split; [reflexivity |].
  set (fdp2 := if fd_lastfile (set_files fdp files') <? new then _ else _).
  assert (fd_files fdp2 = files' /\ fd_nfiles fdp2 = fd_nfiles fdp /\ fd_freefile fdp2 = fd_freefile fdp /\
    fd_lastfile fdp2 = Z.max (fd_lastfile fdp) new) as (E1 & E2 & E3 & E4).
  { unfold fdp2. simpl. destruct (Z.ltb_spec (fd_lastfile fdp) new); simpl; split_and!; done || lia. }
  split; [| rewrite E1; exact Hv]. apply (table_fd_ok _ (flip (used (fd_files fdp)) new true)).
  destruct (tb_free _ _ Hok) as [Hf1 Hf2]. destruct (tb_last _ _ Hok) as (Hl1 & Hl2 & Hl3).
  constructor; rewrite ?E1, ?E2, ?E3, ?E4; try done.
  - apply (tb_size _ _ Hok).
  - lia.
  - split; [lia |]. intros j Hj. unfold flip. destruct (j =? new); [done |]. by apply Hf2.
  - split; [lia |]. unfold flip. split.
    + intros j Hj. rewrite (proj2 (Z.eqb_neq _ _)) by lia. apply Hl2. lia.
    + intros _. destruct (Z.eqb_spec (Z.max (fd_lastfile fdp) new) new) as [E | E]; [done |].
      rewrite Z.max_l by lia. apply Hl3. lia.
Qed.

Lemma dup_replace_spec fdp f flags oldflags new :
  fd_ok fdp -> 0 <= new < fd_nfiles fdp -> bit_set flags DUP_FIXED = true ->
  exists fdp' r, dup_replace fdp f flags oldflags new = Done (fdp', r) /\ fd_ok fdp' /\
    match r with
    | DupDone nfd del => nfd = new /\ del = (V fdp new).1.1 /\ (V fdp new).2 = 0 /\
        forall j, V fdp' j = upd (V fdp) new (Some f, dup_flags flags oldflags, 0) j
    | DupRetry => fdp' = fdp /\ (V fdp new).2 <> 0
    | DupError _ => False
    end.
Proof.
  intros Hok Hnew Hfix. unfold dup_replace.
  destruct (aget_in_bounds (fd_files fdp) new) as [d Hd]; [by rewrite (tb_len _ _ Hok) |].
  rewrite Hd, bind_Done_l, (view_get _ _ _ Hd). simpl.
  destruct (Z.eqb_spec (reserved d) 0) as [Hr | Hr]; cbn [negb].
  2:{ eexists _, _. split; [reflexivity |]. done. }
  assert (exists fdp1, (fdp ← set_node fdp new (Fdnode None (fileflags d) 1 (allocated d));
    if bool_decide (fp d = None) then
      fdp ← fdreserve_locked fdp new 1;
      mret (if fd_lastfile fdp <? new then set_lastfile fdp new else fdp)
    else mret fdp) = Done fdp1 /\ fd_ok fdp1 /\
    forall j, V fdp1 j = upd (V fdp) new (None, fileflags d, 1) j) as (fdp1 & Hrun & Hok1 & Hv1).
  { destruct (fp d) as [g |] eqn:Eg.
    - destruct (set_node_same fdp new d (Fdnode None (fileflags d) 1 (allocated d)) Hok Hd)
        as (fdp1 & -> & Hok1 & _ & Hv1 & _); [done | unfold in_use; by rewrite Eg | done |].
      by exists fdp1.
    - apply (reserve_given fdp new d Hok Hd). unfold in_use. by rewrite Eg, Hr. }
  apply bind_Done in Hrun as (fdp0 & -> & Hrun). rewrite bind_Done_l, Hrun, bind_Done_l.
  unfold KKASSERT. rewrite Hfix, orb_true_r, bind_Done_l.
  destruct (dup_install_spec fdp1 f flags oldflags new (fileflags d) 1 Hok1) as (fdp2 & -> & Hok2 & Hv2);
    [rewrite Hv1; apply view_upd_eq | done |].
  rewrite bind_Done_l. eexists _, _. split; [reflexivity |]. split; [done |]. split_and!; try done.
  intros j. rewrite Hv2. unfold upd. destruct (Z.eqb_spec j new); [done |]. rewrite Hv1. by rewrite view_upd_ne.
Qed.

(** ** Inheriting *)

(** The content of a descriptor in the table of a forked process. *)
Definition inherit (kqueue : Z -> bool) (c : option Z * Z * Z) : option Z * Z * Z :=
  let '(f, fl, r) := c in
  if negb (r =? 0) then (f, fl, 0)
  else match f with Some g => if kqueue g then (None, 0, 0) else c | None => c end.

Lemma shrink_size_spec fuel K last :
  4 <= K <= 30 -> K <= Z.of_nat fuel -> last < 2 ^ K - 1 ->
  exists K', shrink_size fuel (2 ^ K - 1) last = Done (2 ^ K' - 1) /\ 4 <= K' <= K /\ last < 2 ^ K' - 1.
Proof.
  revert K. induction fuel as [| fuel IH]; intros K HK Hf Hl; [lia |]. cbn [shrink_size]. cbv zeta.
  assert (2 ^ K = 2 * 2 ^ (K - 1)) as Ek by (rewrite <- pow2_S by lia; f_equal; lia).
  pose proof (pow2_pos (K - 1) ltac:(lia)).
  replace (Z.quot (2 ^ K - 1 - 1) 2) with (2 ^ (K - 1) - 1).
  2:{ rewrite Z.quot_div_nonneg by lia. apply (Z.div_unique_pos _ _ _ 0); lia. }
  destruct (Z.ltb_spec last (2 ^ (K - 1) - 1)) as [Hlt | Hge]; cbn [negb andb]; [| exists K; split; [done | lia]].
  destruct (Z.ltb_spec NDFILE (2 ^ (K - 1) - 1)) as [Hnd | Hnd]; cbn [negb]; [| exists K; split; [done | lia]].
  unfold NDFILE in Hnd. assert (K <> 4) by (intros ->; change (4 - 1) with 3 in *; lia).
  destruct (IH (K - 1)) as (K' & -> & HK' & Hl'); [lia | lia | done |].
  exists K'. split; [done |]. split; [lia | done].
Qed.

(** fdreserve_locked does not look at the reservation of a node, so clearing
    it before or after makes no difference. *)
Definition clear_reserved (n : fdnode) : fdnode := Fdnode (fp n) (fileflags n) 0 (allocated n).

Definition obind {A B} (g : A -> B) (m : outcome A) : outcome B := x ← m; mret (g x).

Lemma aget_alter l k j :
  aget (alter clear_reserved k l) j =
  obind (fun d => if decide (Z.to_nat j = k) then clear_reserved d else d) (aget l j).
Proof.
  unfold aget. destruct (j <? 0); [done |]. destruct (decide (Z.to_nat j = k)) as [<- | Hne].
  - rewrite list_lookup_alter_eq. by destruct (l !! Z.to_nat j).
  - rewrite list_lookup_alter_ne by done. by destruct (l !! Z.to_nat j).
Qed.

Lemma aput_alter l k j x :
  aput (alter clear_reserved k l) j (if decide (Z.to_nat j = k) then clear_reserved x else x) =
  obind (alter clear_reserved k) (aput l j x).
Proof.
  unfold aput. rewrite length_alter. destruct ((0 <=? j) && (j <? Z.of_nat (length l))) eqn:E; [| done].
  cbn. f_equal. apply list_eq. intros i. apply andb_true_iff in E as [E0%Z.leb_le E%Z.ltb_lt].
  destruct (decide (Z.to_nat j = k)) as [<- | Hne]; destruct (decide (i = Z.to_nat j)) as [-> | Hi].
  - rewrite list_lookup_insert_eq, list_lookup_alter_eq, list_lookup_insert_eq; first [done | lia | rewrite length_alter; lia].
  - rewrite list_lookup_insert_ne, !list_lookup_alter_ne, list_lookup_insert_ne; done.
  - rewrite list_lookup_insert_eq, list_lookup_alter_ne, list_lookup_insert_eq; first [done | lia | rewrite length_alter; lia].
  - rewrite list_lookup_insert_ne by done. destruct (decide (k = i)) as [-> |].
    + by rewrite !list_lookup_alter_eq, list_lookup_insert_ne by done.
    + by rewrite !list_lookup_alter_ne, list_lookup_insert_ne by done.
Qed.

Lemma reserve_loop_alter fuel files fd incr k :
  reserve_loop fuel (alter clear_reserved k files) fd incr =
  obind (alter clear_reserved k) (reserve_loop fuel files fd incr).
Proof.
  revert files fd. induction fuel as [| fuel IH]; intros files fd; cbn [reserve_loop];
    destruct (negb (0 <=? fd)); try done.
  rewrite aget_alter. destruct (aget files fd) as [n |]; [| done]. unfold obind at 1. rewrite !bind_Done_l. cbv zeta.
  set (n' := Fdnode (fp n) (fileflags n) (reserved n) (allocated n + incr)).
  pose proof (aput_alter files k fd n') as Ha.
  replace (if decide (Z.to_nat fd = k) then clear_reserved n' else n') with
    (let m := if decide (Z.to_nat fd = k) then clear_reserved n else n in
     Fdnode (fp m) (fileflags m) (reserved m) (allocated m + incr)) in Ha
    by (by destruct (decide (Z.to_nat fd = k))).
  cbv zeta in Ha. rewrite Ha.
  replace (allocated (if decide (Z.to_nat fd = k) then clear_reserved n else n)) with (allocated n)
    by (by destruct (decide (Z.to_nat fd = k))).
  destruct (aput files fd n') as [files1 |]; [| done].
  unfold obind at 1. rewrite !bind_Done_l. unfold KKASSERT. destruct (0 <=? allocated n + incr); [| done].
  rewrite !bind_Done_l. apply IH.
Qed.

Lemma reserve_loop_len fuel files fd incr files' :
  reserve_loop fuel files fd incr = Done files' -> zlen files' = zlen files.
Proof.
  revert files fd. induction fuel as [| fuel IH]; intros files fd; cbn [reserve_loop];
    (destruct (negb (0 <=? fd)); [intros [= <-]; done |]); [done |].
  intros (n & _ & H)%bind_Done. apply bind_Done in H as (files1 & [_ ->]%aput_Done & H).
  apply bind_Done in H as (_ & _ & H%IH). by rewrite H, zlen_insert.
Qed.

Lemma alter_insert_get (l : list fdnode) k d : l !! k = Some d -> alter clear_reserved k l = <[k := clear_reserved d]> l.
Proof. revert k. induction l as [| x l IH]; intros [| k] H; simpl in *; [done | done | by injection H as -> |].
  change (x :: alter clear_reserved k l = x :: <[k := clear_reserved d]> l). by rewrite (IH k).
Qed.

(** Returning a reserved descriptor of the new table to the pool. *)
Lemma unreserve_spec fdp i d :
  fd_ok fdp -> aget (fd_files fdp) i = Done d -> reserved d <> 0 ->
  exists fdp', (fdp ← fdreserve_locked fdp i (-1); n ← aget (fd_files fdp) i;
      fdp ← set_node fdp i (clear_reserved n); fdfixup_locked fdp i) = Done fdp' /\
    fd_ok fdp' /\ fd_nfiles fdp' = fd_nfiles fdp /\ forall j, V fdp' j = upd (V fdp) i (content (clear_reserved d)) j.
Proof.
  intros Hok Hd Hr. pose proof (aget_bounds _ _ _ Hd) as Hb.
  assert (fp d = None) as Hfp by (by apply (tb_reserved _ _ Hok i)).
  destruct (release_ok fdp _ i d (clear_reserved d) Hok Hd) as (fdp' & Hrun & Hok' & Hnf' & Hv'); [done | | |].
  { unfold in_use. rewrite (proj2 (Z.eqb_neq (reserved d) 0)) by done. by rewrite andb_false_r. }
  { unfold in_use. simpl. by rewrite Hfp. }
  exists fdp'. split; [| split; [by eapply table_fd_ok | done]].
  unfold set_node in Hrun. rewrite aput_in_bounds in Hrun by done. rewrite !bind_Done_l in Hrun.
  unfold fdreserve_locked in *. cbn [fd_files set_files] in Hrun.
  pose proof (proj1 (aget_Done _ _ _) Hd) as [_ Hl].
  rewrite <- (alter_insert_get _ _ _ Hl), reserve_loop_alter in Hrun.
  destruct (reserve_loop TREE_FUEL (fd_files fdp) i (-1)) as [files1 |] eqn:Hloop; [| discriminate].
  unfold obind in Hrun. cbn [mbind outcome_bind mret outcome_ret fd_files set_files] in Hrun |- *.
  assert (zlen files1 = zlen (fd_files fdp)) as Hl1 by (by eapply reserve_loop_len).
  destruct (aget_in_bounds files1 i) as [n Hn]; [lia |]. rewrite Hn.
  cbn [mbind outcome_bind]. unfold set_node. cbn [fd_files set_files]. rewrite aput_in_bounds by lia.
  pose proof (proj1 (aget_Done _ _ _) Hn) as [_ Hn']. rewrite (alter_insert_get _ _ _ Hn') in Hrun. exact Hrun.
Qed.

Lemma copy_node_spec kqueue fdp i :
  fd_ok fdp -> 0 <= i < fd_nfiles fdp ->
  exists fdp', copy_node kqueue fdp i = Done fdp' /\ fd_ok fdp' /\ fd_nfiles fdp' = fd_nfiles fdp /\
    forall j, V fdp' j = upd (V fdp) i (inherit kqueue (V fdp i)) j.
Proof.
  intros Hok Hi. pose proof (nfiles_bound _ _ Hok). destruct (aget_in_bounds (fd_files fdp) i) as [d Hd];
    [by rewrite (tb_len _ _ Hok) |]. unfold copy_node. rewrite Hd, bind_Done_l.
  pose proof (view_get _ _ _ Hd) as Hv.
  assert (forall c, V fdp i = c -> forall j, V fdp j = upd (V fdp) i c j) as Hid.
  { intros c <- j. unfold upd. by destruct (Z.eqb_spec j i) as [-> |]. }
  destruct (Z.eqb_spec (reserved d) 0) as [Hr | Hr]; cbn [negb].
  - pose proof (funsetfd_spec fdp i Hok ltac:(unfold_int; lia)) as Hu. rewrite Hv in Hu |- *.
    unfold content in *. destruct (fp d) as [f |]; simpl; rewrite Hr; simpl in *.
    + destruct (kqueue f).
      * destruct Hu as (fdp' & -> & Hok' & Hnf' & Hv'). by exists fdp'.
      * exists fdp. split; [done |]. split; [done |]. split; [done |]. apply Hid. by rewrite Hv, Hr.
    + exists fdp. split; [done |]. split; [done |]. split; [done |]. apply Hid. by rewrite Hv, Hr.
  - destruct (unreserve_spec fdp i d Hok Hd Hr) as (fdp' & Hrun & Hok' & Hnf' & Hv').
    exists fdp'. split; [exact Hrun |]. split; [done |]. split; [done |]. intros j. rewrite Hv', Hv.
    unfold inherit, content. by rewrite (proj2 (Z.eqb_neq (reserved d) 0)).
Qed.

Lemma fork_loop_spec kqueue n fdp i :
  fd_ok fdp -> 0 <= i -> i + Z.of_nat n <= fd_nfiles fdp ->
  exists fdp', copy_loop kqueue n fdp i = Done fdp' /\ fd_ok fdp' /\
    forall j, V fdp' j = if inr i (Z.of_nat n) j then inherit kqueue (V fdp j) else V fdp j.
Proof.
  revert fdp i. induction n as [| n IH]; intros fdp i Hok Hi Hn; cbn [copy_loop].
  { exists fdp. split; [done |]. split; [done |]. intros j. by rewrite (proj2 (inr_false _ _ _)) by lia. }
  destruct (copy_node_spec kqueue fdp i Hok) as (fdp1 & -> & Hok1 & Hnf & Hv1); [lia |]. rewrite bind_Done_l.
  destruct (IH fdp1 (i + 1) Hok1) as (fdp' & -> & Hok' & Hv'); [lia | lia |].
  exists fdp'. split; [done |]. split; [done |]. intros j. rewrite Hv', Hv1. unfold upd.
  destruct (Z.eqb_spec j i) as [-> | Hne].
  - rewrite (proj2 (inr_false (i + 1) _ _)), (proj2 (inr_spec i _ _)) by lia. done.
  - destruct (inr (i + 1) (Z.of_nat n) j) eqn:E.
    + apply inr_spec in E. by rewrite (proj2 (inr_spec i _ _)) by lia.
    + apply inr_false in E. by rewrite (proj2 (inr_false i _ _)) by lia.
Qed.

(** The first 2^K' - 1 nodes are a table, if no descriptor behind them is used. *)
Lemma truncate_ok fdp K' :
  fd_ok fdp -> 4 <= K' -> 2 ^ K' - 1 <= fd_nfiles fdp -> fd_lastfile fdp < 2 ^ K' - 1 ->
  fd_ok (Filedesc (take (Z.to_nat (2 ^ K' - 1)) (fd_files fdp)) (2 ^ K' - 1) (fd_lastfile fdp) (fd_freefile fdp)) /\
  forall j, view (take (Z.to_nat (2 ^ K' - 1)) (fd_files fdp)) j =
    if inr 0 (2 ^ K' - 1) j then V fdp j else content fdnode0.
Proof.
  intros Hok HK Hfit Hlast. pose proof (tb_len _ _ Hok) as Hlen. set (i := 2 ^ K' - 1) in *.
  assert (15 <= i) by (assert (2 ^ 4 <= 2 ^ K') by (apply Z.pow_le_mono_r; lia); lia).
  set (files' := take (Z.to_nat i) (fd_files fdp)).
  assert (zlen files' = i) as Hl. { unfold files', zlen in *. rewrite length_take. lia. }
  assert (forall j, 0 <= j < i -> aget files' j = aget (fd_files fdp) j) as Hg.
  { intros j Hj. unfold aget, files'. rewrite (proj2 (Z.ltb_ge j 0)) by lia. by rewrite lookup_take_lt by lia. }
  assert (forall j, view files' j = if inr 0 i j then V fdp j else content fdnode0) as Hv.
  { intros j. destruct (inr 0 i j) eqn:E.
    - apply inr_spec in E. unfold view. by rewrite Hg by lia.
    - apply inr_false in E. apply view_out. lia. }
  split; [| exact Hv]. apply (table_fd_ok _ (used (fd_files fdp))).
  destruct Hok as [(K & HKK & EK) _ _ Hc Hr [Hf1 Hf2] (Hl1 & Hl2 & Hl3)].
  assert (K' <= 30) as HK30.
  { destruct (Z.le_gt_cases K' 30); [done |]. assert (2 ^ K < 2 ^ K') by (apply Z.pow_lt_mono_r; lia). lia. }
  assert (fd_freefile fdp <= i) as Hfi.
  { destruct (Z.le_gt_cases (fd_freefile fdp) i); [done |].
    specialize (Hf2 i ltac:(lia)). rewrite Hl2 in Hf2; done || lia. }
  constructor; simpl; try done; fold files'.
  - by exists K'.
  - intros j. rewrite !used_busy, Hv. destruct (inr 0 i j) eqn:E; [done |]. apply inr_false in E.
    destruct (Z.lt_ge_cases j 0); [by rewrite view_out by lia |].
    rewrite <- used_busy, Hl2 by lia. done.
  - intros n d Hd. pose proof (aget_bounds _ _ _ Hd). apply Hc. rewrite <- Hg; done || lia.
  - intros j d Hd. pose proof (aget_bounds _ _ _ Hd). apply (Hr j). rewrite <- Hg; done || lia.
  - split; [lia | done].
  - split; [lia | done].
Qed.

Lemma fdcopy_spec kqueue fdp :
  fd_ok fdp ->
  exists fdp', fdcopy kqueue fdp = Done fdp' /\ fd_ok fdp' /\
    forall j, V fdp' j = inherit kqueue (V fdp j) \/ busy (V fdp j) = false /\ V fdp' j = (None, 0, 0).
Proof.
  intros Hok. destruct (tb_size _ _ Hok) as (K & HK & EK). pose proof (tb_len _ _ Hok) as Hlen.
  pose proof (nfiles_bound _ _ Hok). destruct (tb_last _ _ Hok) as (Hl1 & Hl2 & _). unfold fdcopy.
  assert (exists K', (if fd_lastfile fdp <? NDFILE then mret NDFILE
      else shrink_size TREE_FUEL (fd_nfiles fdp) (fd_lastfile fdp)) = Done (2 ^ K' - 1) /\
    4 <= K' /\ 2 ^ K' - 1 <= fd_nfiles fdp /\ fd_lastfile fdp < 2 ^ K' - 1) as (K' & -> & HK' & Hfit & Hlast).
  { destruct (Z.ltb_spec (fd_lastfile fdp) NDFILE) as [Hlt | Hge].
    - exists 4. split; [done |]. unfold NDFILE in Hlt. change (2 ^ 4 - 1) with 15. lia.
    - rewrite EK in *. destruct (shrink_size_spec TREE_FUEL K (fd_lastfile fdp)) as (K' & -> & HK' & Hl');
        [lia | unfold TREE_FUEL; lia | lia |].
      exists K'. split; [done |]. split; [lia |]. split; [| done].
      assert (2 ^ K' <= 2 ^ K) by (apply Z.pow_le_mono_r; lia). lia. }
  rewrite bind_Done_l, (proj2 (Z.ltb_ge _ _)) by lia.
  destruct (truncate_ok fdp K' Hok HK' Hfit Hlast) as [Hok1 Hv1].
  assert (0 < 2 ^ K') by (apply pow2_pos; lia).
  destruct (fork_loop_spec kqueue (Z.to_nat (2 ^ K' - 1)) _ 0 Hok1) as (fdp' & -> & Hok' & Hv'); [lia | simpl; lia |].
  exists fdp'. split; [done |]. split; [done |]. intros j. rewrite Hv'. cbn [fd_files]. rewrite Z2Nat.id, Hv1 by lia.
  destruct (inr 0 (2 ^ K' - 1) j) eqn:E; [by left |]. apply inr_false in E. right. split; [| done].
  rewrite <- used_busy. destruct (Z.lt_ge_cases j 0); [apply used_out; lia | apply Hl2; lia].
Qed.

(** ** Counting available descriptors *)

(** A descriptor without a file, reserved or not. *)
Definition closed (W : Z -> option Z * Z * Z) (j : Z) : bool := bool_decide ((W j).1.1 = None).

Lemma count_free_spec fuel files j i n :
  0 <= j -> j + i <= zlen files -> i <= Z.of_nat fuel -> 0 < n ->
  count_free fuel files j i n = Done (n <=? cnt (closed (view files)) j (Z.max 0 i)).
Proof.
  revert j i n. induction fuel as [| fuel IH]; intros j i n Hj Hi Hf Hn; cbn [count_free]; cbv zeta;
    (destruct (Z.leb_spec 0 (i - 1)) as [H0 | H0]; cbn [negb];
     [| rewrite Z.max_l, cnt_0, (proj2 (Z.leb_gt _ _)) by lia; done]); [lia |].
  destruct (aget_in_bounds files j) as [d Hd]; [lia |]. rewrite Hd, bind_Done_l.
  rewrite Z.max_r by lia. replace i with (1 + (i - 1)) at 2 by lia. rewrite cnt_split by lia.
  assert (cnt (closed (view files)) j 1 = if bool_decide (fp d = None) then 1 else 0) as ->.
  { unfold cnt. change (Z.to_nat 1) with 1%nat. simpl. unfold closed. rewrite (view_get _ _ _ Hd). simpl.
    by destruct (bool_decide _). }
  destruct (bool_decide (fp d = None)); cbn [andb].
  - destruct (Z.leb_spec (n - 1) 0) as [Hn1 | Hn1].
    + pose proof (cnt_bounds (closed (view files)) (j + 1) (i - 1) ltac:(lia)).
      by rewrite (proj2 (Z.leb_le _ _)) by lia.
    + rewrite IH by lia. rewrite Z.max_r by lia. f_equal. apply eq_true_iff_eq. rewrite !Z.leb_le. lia.
  - rewrite IH by lia. rewrite Z.max_r by lia. done.
Qed.

(** ** The operations *)

Lemma fdinit_free j : used (fd_files fdinit) j = false.
Proof.
  rewrite used_busy. replace (fd_files fdinit) with ([] ++ replicate 15 fdnode0) by done.
  rewrite view_grow, view_out; [done |]. unfold zlen. simpl length. lia.
Qed.

Lemma fdinit_ok : fd_ok fdinit.
Proof.
  constructor.
  - exists 4. done.
  - done.
  - done.
  - intros n d Hd. pose proof (aget_bounds _ _ _ Hd). apply aget_Done in Hd as [_ [-> _]%lookup_replicate_1].
    symmetry. pose proof (size_pos n ltac:(lia)). apply cnt_none; [lia |]. intros j _. apply fdinit_free.
  - intros j d Hd. apply aget_Done in Hd as [_ [-> _]%lookup_replicate_1]. done.
  - split; [cbn [fdinit fd_freefile fd_nfiles fd_lastfile]; unfold NDFILE; lia |]. cbn [fdinit fd_freefile]. intros. lia.
  - split; [cbn [fdinit fd_freefile fd_nfiles fd_lastfile]; unfold NDFILE; lia |]. split; [| cbn [fdinit fd_freefile fd_nfiles fd_lastfile]; unfold NDFILE; lia]. intros j _. apply fdinit_free.
Qed.

(** The tables a process can have: fdinit, and what the operations make of
    it.  fsetfd is called for reserved descriptors, with or without a file. *)
Inductive fd_reach : filedesc -> Prop :=
  | reach_init : fd_reach fdinit
  | reach_alloc fdp lm want fdp' r :
      fd_reach fdp -> 0 <= want -> dtable_limit lm <= 2 ^ 30 - 1 ->
      fdalloc lm fdp want = Done (fdp', r) -> fd_reach fdp'
  | reach_set fdp f fd fdp' :
      fd_reach fdp -> (V fdp fd).2 <> 0 -> fsetfd_locked fdp f fd = Done fdp' -> fd_reach fdp'
  | reach_unset fdp fd fdp' f :
      fd_reach fdp -> is_s32 fd -> funsetfd_locked fdp fd = Done (fdp', f) -> fd_reach fdp'
  | reach_dup fdp lm flags old new fdp' r :
      fd_reach fdp -> is_s32 old -> is_s32 new -> dtable_limit lm <= 2 ^ 30 - 1 ->
      bit_set flags DUP_FIXED = negb (bit_set flags DUP_VARIABLE) ->
      kern_dup lm fdp flags old new = Done (fdp', r) -> fd_reach fdp'
  | reach_fork fdp kqueue fdp' :
      fd_reach fdp -> fdcopy kqueue fdp = Done fdp' -> fd_reach fdp'.

(** What kern_dup may answer, and what it leaves. *)
Definition dup_post (lm : fdlimits) (over : Prop) (W W' : Z -> option Z * Z * Z) (flags old new : Z) (r : dup_result) : Prop :=
  match r with
  | DupError e =>
      (forall j, W' j = W j) /\
      (e = EINVAL /\ (new < 0 \/ dtable_limit lm < new) \/ e = EBADF /\ (W old).1.1 = None \/
       e = EMFILE /\ (bit_set flags DUP_VARIABLE = true \/ dtable_limit lm <= new) /\ (forall j, new <= j < dtable_limit lm -> busy (W j) = true) \/
       e = ENFILE /\ over)
  | DupDone nfd del =>
      exists f fl, W old = (Some f, fl, 0) /\
      if bit_set flags DUP_FIXED && (old =? new) then
        nfd = new /\ del = None /\
        forall j, W' j = upd W new (Some f, if bit_set flags DUP_CLOEXEC then s8 (Z.lor fl UF_EXCLOSE) else fl, 0) j
      else
        nfd <> old /\ (forall j, W' j = upd W nfd (Some f, dup_flags flags fl, 0) j) /\
        if bit_set flags DUP_FIXED then nfd = new /\ (W new).2 = 0 /\ del = (W new).1.1
        else lowest_free W new nfd /\ del = None
  | DupRetry => bit_set flags DUP_FIXED = true /\ (forall j, W' j = W j) /\ (W new).2 <> 0
  end.

Lemma fd_open_spec fdp fd :
  fd_ok fdp -> is_s32 fd ->
  match V fdp fd with
  | (Some f, fl, r) => r = 0 /\ 0 <= fd < fd_nfiles fdp /\
      exists d, fd_open fdp fd = Done (Datatypes.inr d) /\ aget (fd_files fdp) fd = Done d /\ content d = (Some f, fl, 0)
  | (None, _, _) => fd_open fdp fd = Done (inl EBADF)
  end.
Proof.
  intros Hok Hs. pose proof (nfiles_bound _ _ Hok) as Hnf. pose proof (tb_len _ _ Hok) as Hlen. unfold fd_open.
  destruct (decide (0 <= fd < fd_nfiles fdp)) as [Hfd | Hfd].
  - rewrite u32_id by (unfold_int; lia). rewrite (proj2 (Z.leb_gt _ _)) by lia.
    destruct (aget_in_bounds (fd_files fdp) fd) as [d Hd]; [lia |].
    rewrite (view_get _ _ _ Hd), Hd, bind_Done_l. unfold content. destruct (fp d) as [f |] eqn:Ef; [| done].
    assert (reserved d = 0) as Hr.
    { destruct (decide (reserved d = 0)); [done |]. rewrite (tb_reserved _ _ Hok fd d Hd) in Ef; done. }
    split; [done |]. split; [done |]. exists d. split; [done |]. split; [done |]. by rewrite Ef, Hr.
  - rewrite view_out by lia. simpl. unfold u32. destruct (Z.lt_ge_cases fd 0).
    + replace (fd mod 2 ^ 32) with (fd + 2 ^ 32); [| apply (Z.mod_unique_pos _ _ (-1)); unfold_int; lia].
      rewrite (proj2 (Z.leb_le _ _)); [done |]. unfold_int. lia.
    + rewrite Z.mod_small by (unfold_int; lia). by rewrite (proj2 (Z.leb_le _ _)) by lia.
Qed.

Lemma kern_dup_spec lm fdp flags old new :
  fd_ok fdp -> is_s32 old -> is_s32 new -> dtable_limit lm <= 2 ^ 30 - 1 ->
  bit_set flags DUP_FIXED = negb (bit_set flags DUP_VARIABLE) ->
  exists fdp' r, kern_dup lm fdp flags old new = Done (fdp', r) /\ fd_ok fdp' /\
    dup_post lm (over_quota lm fdp) (V fdp) (V fdp') flags old new r.
Proof.
  intros Hok Hold Hnew Hlim Hmode. unfold kern_dup. cbv zeta.
  destruct ((new <? 0) || (dtable_limit lm <? new)) eqn:Hrange.
  { eexists _, _. split; [reflexivity |]. split; [done |]. split; [done |]. left. split; [done |].
    apply orb_true_iff in Hrange as [?%Z.ltb_lt | ?%Z.ltb_lt]; auto. }
  apply orb_false_iff in Hrange as [Hn0%Z.ltb_ge Hn1%Z.ltb_ge].
  pose proof (fd_open_spec fdp old Hok Hold) as Ho. destruct (V fdp old) as [[[f |] fl] r0] eqn:Eold.
  2:{ rewrite Ho, bind_Done_l. eexists _, _. split; [reflexivity |]. split; [done |]. split; [done |].
      right; left. split; [done |]. by rewrite Eold. }
  destruct Ho as (-> & Hlt & d & -> & Hd & Hc). rewrite bind_Done_l. injection Hc as Ef Efl Er.
  destruct (bit_set flags DUP_FIXED && (old =? new)) eqn:Hsame.
  - pose proof Hsame as [Hfix ->%Z.eqb_eq]%andb_true_iff. destruct (bit_set flags DUP_CLOEXEC) eqn:Hcl.
    + destruct (set_node_same fdp new d (Fdnode (fp d) (s8 (Z.lor (fileflags d) UF_EXCLOSE)) (reserved d) (allocated d)) Hok Hd)
        as (fdp1 & -> & Hok1 & _ & Hv1 & _); [done | done | simpl; by rewrite Er |].
      rewrite bind_Done_l. eexists _, _. split; [reflexivity |]. split; [done |]. exists f, fl. split; [done |].
      rewrite Hsame, Hcl. split; [done |]. split; [done |]. intros j. rewrite Hv1. unfold content. simpl. by rewrite Ef, Efl, Er.
    + rewrite bind_Done_l. eexists _, _. split; [reflexivity |]. split; [done |]. exists f, fl. split; [done |].
      rewrite Hsame, Hcl. split; [done |]. split; [done |]. intros j. unfold upd.
      by destruct (Z.eqb_spec j new) as [-> |].
  - rewrite Ef, Efl. destruct (bit_set flags DUP_VARIABLE || (fd_nfiles fdp <=? new)) eqn:Hal.
    + destruct (dup_alloc_spec lm fdp f flags fl old new (fl, 0)) as (fdp1 & r & -> & Hok1 & Hr); try done.
      { apply orb_true_iff in Hal as [? | ?%Z.leb_le]; auto. }
      exists fdp1, r. split; [done |]. split; [done |]. destruct r as [e | nfd del |]; [| | done].
      * destruct Hr as [He Hv]. split; [done |]. right; right. destruct He as [[-> He] | He]; [left | by right]. split; [done |]. split; [| done].
        apply orb_true_iff in Hal as [? | Hal%Z.leb_le]; [by left |]. right. apply Z.le_ngt. intros Hlt'. specialize (He new ltac:(lia)). rewrite view_out in He; [done |]. rewrite (tb_len _ _ Hok). lia.
      * destruct Hr as (-> & Hne & Hlow & Hfixed & Hv). exists f, fl. split; [done |]. rewrite Hsame.
        split; [done |]. split; [done |]. destruct (bit_set flags DUP_FIXED) eqn:Hfix; [| done].
        assert (nfd = new) as -> by (apply Hfixed; by destruct (bit_set flags DUP_VARIABLE)).
        destruct Hlow as (_ & Hb & _). unfold busy in Hb. apply negb_false_iff, andb_true_iff in Hb as [?%bool_decide_eq_true_1 ?%Z.eqb_eq].
        done.
    + apply orb_false_iff in Hal as [Hvar Hlt'%Z.leb_gt]. rewrite Hvar in Hmode. cbn [negb] in Hmode.
      destruct (dup_replace_spec fdp f flags fl new Hok ltac:(lia) Hmode) as (fdp1 & r & -> & Hok1 & Hr).
      exists fdp1, r. split; [done |]. split; [done |]. destruct r as [e | nfd del |]; [done | |].
      * destruct Hr as (-> & -> & Hr & Hv). exists f, fl. split; [done |]. rewrite Hsame. rewrite Hmode in *.
        split; [intros ->; by rewrite Z.eqb_refl in Hsame |]. done.
      * destruct Hr as [-> Hr]. done.
Qed.

(** fsetfd_locked of a reserved descriptor, with or without a file. *)
Lemma fsetfd_spec fdp f fd :
  fd_ok fdp -> (V fdp fd).2 <> 0 ->
  exists fdp', fsetfd_locked fdp f fd = Done fdp' /\ fd_ok fdp' /\
    forall j, V fdp' j = upd (V fdp) fd (f, (V fdp fd).1.2, 0) j.
Proof.
  intros Hok Hr. destruct (V fdp fd) as [[o fl] r] eqn:Hv. simpl in Hr.
  destruct (view_node fdp fd Hok) as (_ & d & Hd & E); [rewrite Hv; unfold content; simpl; congruence |].
  rewrite Hv in E. injection E as -> -> ->. rewrite (tb_reserved _ _ Hok fd d Hd Hr) in Hv.
  destruct f as [f |].
  - destruct (fsetfd_some_spec fdp fd f _ _ Hok Hv Hr) as (fdp' & ? & ? & _ & ? & _). by exists fdp'.
  - by apply (fsetfd_none_spec fdp fd _ _ Hok Hv).
Qed.

Lemma reach_fd_ok fdp : fd_reach fdp -> fd_ok fdp.
Proof.
  induction 1 as [| fdp lm want fdp' r _ IH Hw Hl E | fdp f fd fdp' _ IH Hr E | fdp fd fdp' f _ IH Hs E
    | fdp lm flags old new fdp' r _ IH Ho Hn Hl Hm E | fdp kqueue fdp' _ IH E].
  - apply fdinit_ok.
  - destruct (fdalloc_spec lm fdp _ want IH Hw Hl) as (fdp1 & r1 & E1 & Hr). rewrite E in E1. injection E1 as <- <-.
    destruct r; [destruct Hr as [Hr _] | destruct Hr as (_ & Hr & _)]; by eapply table_fd_ok.
  - destruct (fsetfd_spec fdp f fd IH Hr) as (fdp1 & E1 & Hok & _). congruence.
  - pose proof (funsetfd_spec fdp fd IH Hs) as Hu. destruct (V fdp fd) as [[[g |] fl] r].
    + destruct Hu as (fdp1 & E1 & Hok & _). congruence.
    + congruence.
  - destruct (kern_dup_spec lm fdp flags old new IH Ho Hn Hl Hm) as (fdp1 & r1 & E1 & Hok & _). congruence.
  - destruct (fdcopy_spec kqueue fdp IH) as (fdp1 & E1 & Hok & _). congruence.
Qed.

(** ** Properties *)

(** The limits of a small process, and a table with file 77 open as descriptor 0. *)
Definition lim10 : fdlimits := Fdlimits 10 1000 8 0 0 100.

Definition fd_reserved0 : filedesc := Eval vm_compute in
  match fdalloc lim10 fdinit 0 with Done (fdp, _) => fdp | Fault _ => fdinit end.

Definition fd_open0 : filedesc := Eval vm_compute in
  match fsetfd_locked fd_reserved0 (Some 77) 0 with Done fdp => fdp | Fault _ => fdinit end.

Lemma reach_reserved0 : fd_reach fd_reserved0.
Proof.
  apply (reach_alloc fdinit lim10 0 fd_reserved0 (Datatypes.inr 0)); [apply reach_init | lia | done |].
  by vm_compute.
Qed.

Lemma reach_open0 : fd_reach fd_open0.
Proof. apply (reach_set fd_reserved0 (Some 77) 0); [apply reach_reserved0 | done | by vm_compute]. Qed.

(** The descriptors in use. *)
Definition in_use_count (fdp : filedesc) : Z := cnt (fun j => busy (V fdp j)) 0 (fd_nfiles fdp).

(** C4: fdalloc on a consistent table answers, and the table stays consistent.
    For a user who is within the quota (root; or at most maxfilesperuser open files;
    or a table of less than minfilesperproc entries) and a [want] below the limit
    it returns the lowest free descriptor from [want] on, which becomes
    reserved, and no other descriptor changes; or it fails with EMFILE, and then
    every descriptor from [want] up to the limit is in use.  A user over the
    quota gets ENFILE.  An error changes nothing.  The table is one in which the quota
    test, which looks at the size of the table, agrees with the comment of fdalloc,
    which promises minfilesperproc descriptors to every process. *)
Theorem fdalloc_correct lm fdp want :
  fd_ok fdp -> 0 <= want -> dtable_limit lm <= 2 ^ 30 - 1 ->
  (over_quota lm fdp -> minfilesperproc lm <= in_use_count fdp) ->
  exists fdp' r, fdalloc lm fdp want = Done (fdp', r) /\ fd_ok fdp' /\
    match r with
    | Datatypes.inr fd => ~ over_quota lm fdp /\ lowest_free (V fdp) want fd /\ forall j, V fdp' j = upd (V fdp) fd (None, 0, 1) j
    | inl e => (forall j, V fdp' j = V fdp j) /\
        ((e = EMFILE /\ (want < dtable_limit lm -> ~ over_quota lm fdp) /\ forall j, want <= j < dtable_limit lm -> busy (V fdp j) = true) \/
         (e = ENFILE /\ want < dtable_limit lm /\ over_quota lm fdp /\ minfilesperproc lm <= in_use_count fdp))
    end.
Proof.
  intros Hok Hw Hl Hmin. destruct (fdalloc_spec lm fdp _ want Hok Hw Hl) as (fdp' & r & E & Hr).
  exists fdp', r. split; [done |]. destruct r as [e | fd].
  - destruct Hr as (Hok' & Hv & He). split; [by eapply table_fd_ok |]. split; [done |].
    destruct He as [(-> & Hq & He) | (-> & Hq & He)]; [left | right; auto]. split; [done |]. split; [done |]. intros j Hj. rewrite <- used_busy. by apply He.
  - destruct Hr as (Hff & Hok' & Hq & Hv). split; [by eapply table_fd_ok |]. by apply first_free_lowest in Hff.
Qed.

Lemma fdalloc_correct_witness :
  exists fdp' r, fdalloc lim10 fd_open0 0 = Done (fdp', r) /\ fd_ok fdp' /\ r = Datatypes.inr 1.
Proof.
  destruct (fdalloc_correct lim10 fd_open0 0 (reach_fd_ok _ reach_open0)) as (fdp' & r & E & Hok & _);
    [lia | done | intros [H _]; by destruct H |].
  exists fdp', r. split; [exact E |]. split; [exact Hok |]. vm_compute in E. injection E as _ <-. reflexivity.
Defined.

(** fsetfd_locked of a reserved descriptor never panics; it stores the
    file, or returns the descriptor to the pool, and keeps its flags. *)
Theorem fsetfd_correct fdp f fd :
  fd_ok fdp -> (V fdp fd).2 <> 0 ->
  exists fdp', fsetfd_locked fdp f fd = Done fdp' /\ fd_ok fdp' /\
    (forall j, V fdp' j = upd (V fdp) fd (f, (V fdp fd).1.2, 0) j) /\
    busy (V fdp' fd) = bool_decide (f <> None).
Proof.
  intros Hok Hr. destruct (fsetfd_spec fdp f fd Hok Hr) as (fdp' & E & Hok' & Hv).
  exists fdp'. split; [done |]. split; [done |]. split; [done |]. rewrite Hv, view_upd_eq. by destruct f.
Qed.

Lemma fsetfd_correct_witness :
  exists fdp', fsetfd_locked fd_reserved0 None 0 = Done fdp' /\ fd_ok fdp' /\ busy (V fdp' 0) = false.
Proof.
  destruct (fsetfd_correct fd_reserved0 None 0 (reach_fd_ok _ reach_reserved0)) as (fdp' & E & Hok & _ & Hb);
    [done |].
  exists fdp'. split; [exact E |]. split; [exact Hok | exact Hb].
Defined.

(** funsetfd_locked closes exactly the given descriptor and returns its
    file; for a descriptor that is not open, reserved ones included, it
    changes nothing and returns NULL. *)
Theorem funsetfd_correct fdp fd :
  fd_ok fdp -> is_s32 fd ->
  exists fdp', funsetfd_locked fdp fd = Done (fdp', (V fdp fd).1.1) /\ fd_ok fdp' /\
    if bool_decide ((V fdp fd).1.1 = None) then fdp' = fdp
    else forall j, V fdp' j = upd (V fdp) fd (None, 0, 0) j.
Proof.
  intros Hok Hs. pose proof (funsetfd_spec fdp fd Hok Hs) as Hu. destruct (V fdp fd) as [[[f |] fl] r]; simpl.
  - destruct Hu as (fdp' & E & Hok' & _ & Hv). exists fdp'. done.
  - exists fdp. done.
Qed.

Lemma funsetfd_correct_witness :
  exists fdp', funsetfd_locked fd_open0 0 = Done (fdp', Some 77) /\ fd_ok fdp' /\
    forall j, V fdp' j = upd (V fd_open0) 0 (None, 0, 0) j.
Proof.
  destruct (funsetfd_correct fd_open0 0 (reach_fd_ok _ reach_open0)) as (fdp' & E & Hok & Hv);
    [unfold is_s32; lia |].
  exists fdp'. exact (conj E (conj Hok Hv)).
Defined.

(** Everything that kern_dup may answer, for any [new] and any user. *)
Theorem kern_dup_answers lm fdp flags old new :
  fd_ok fdp -> is_s32 old -> is_s32 new -> dtable_limit lm <= 2 ^ 30 - 1 ->
  bit_set flags DUP_FIXED = negb (bit_set flags DUP_VARIABLE) ->
  exists fdp' r, kern_dup lm fdp flags old new = Done (fdp', r) /\ fd_ok fdp' /\
    dup_post lm (over_quota lm fdp) (V fdp) (V fdp') flags old new r.
Proof. apply kern_dup_spec. Qed.



(** fork.  The table fdcopy makes is consistent, also when it is smaller
    than the old one; every open descriptor is inherited with its file and
    flags, except kqueues, and reservations are not inherited. *)
Theorem fdcopy_correct kqueue fdp :
  fd_ok fdp ->
  exists fdp', fdcopy kqueue fdp = Done fdp' /\ fd_ok fdp' /\
    forall j, V fdp' j = inherit kqueue (V fdp j) \/ busy (V fdp j) = false /\ V fdp' j = (None, 0, 0).
Proof. apply fdcopy_spec. Qed.

Lemma fdcopy_correct_witness :
  exists fdp', fdcopy (fun _ => false) fd_open0 = Done fdp' /\ fd_ok fdp' /\ V fdp' 0 = (Some 77, 0, 0).
Proof.
  destruct (fdcopy_correct (fun _ => false) fd_open0 (reach_fd_ok _ reach_open0)) as (fdp' & E & Hok & _).
  exists fdp'. split; [exact E |]. split; [exact Hok |]. vm_compute in E. injection E as <-. reflexivity.
Defined.

(** fdavail(n) says whether n does not exceed the descriptors beyond the
    table and below the limit plus the descriptors of the table, below the
    limit and from fd_freefile on, that have no file. *)
Theorem fdavail_correct lm fdp n :
  fd_ok fdp -> 0 < n -> 0 <= dtable_limit lm < 2 ^ 31 ->
  let lim := dtable_limit lm in
  fdavail lm fdp n =
    Done (n <=? Z.max 0 (lim - fd_nfiles fdp) +
          cnt (closed (V fdp)) (fd_freefile fdp) (Z.max 0 (Z.min (fd_nfiles fdp) lim - fd_freefile fdp))).
Proof.
  intros Hok Hn Hl lim. pose proof (nfiles_bound _ _ Hok). destruct (tb_free _ _ Hok) as [Hf _].
  pose proof (tb_len _ _ Hok) as Hlen. unfold fdavail. fold lim in Hl |- *. cbv zeta.
  rewrite !u32_id by (unfold_int; lia).
  set (m := Z.min (fd_nfiles fdp) lim - fd_freefile fdp).
  pose proof (cnt_bounds (closed (V fdp)) (fd_freefile fdp) (Z.max 0 m) ltac:(lia)).
  destruct (Z.ltb_spec 0 (lim - fd_nfiles fdp)) as [Hi | Hi]; cbn [andb].
  - destruct (Z.leb_spec (n - (lim - fd_nfiles fdp)) 0) as [Hle | Hgt].
    { by rewrite (proj2 (Z.leb_le _ _)) by lia. }
    rewrite count_free_spec by (unfold zlen in *; lia). f_equal. apply eq_true_iff_eq. rewrite !Z.leb_le. lia.
  - rewrite count_free_spec by (unfold zlen in *; lia). f_equal. apply eq_true_iff_eq. rewrite !Z.leb_le. lia.
Qed.

Lemma fdavail_correct_witness : fdavail lim10 fd_open0 9 = Done true /\ fdavail lim10 fd_open0 11 = Done false.
Proof.
  split; rewrite (fdavail_correct lim10 fd_open0) by first [exact (reach_fd_ok _ reach_open0) | lia | split; done];
    reflexivity.
Defined.

(** The flags of a descriptor.  On an open descriptor fgetfdflags returns
    them, fsetfdflags adds to them and fclrfdflags takes from them, without
    any other change; on any other number the three return EBADF. *)
Theorem fdflags_correct fdp fd m :
  fd_ok fdp -> is_s32 fd ->
  match V fdp fd with
  | (None, _, _) => fgetfdflags fdp fd = Done (inl EBADF) /\ fsetfdflags fdp fd m = Done (fdp, EBADF) /\
      fclrfdflags fdp fd m = Done (fdp, EBADF)
  | (Some f, fl, _) => fgetfdflags fdp fd = Done (Datatypes.inr fl) /\
      (exists fdp', fsetfdflags fdp fd m = Done (fdp', 0) /\ fd_ok fdp' /\
        forall j, V fdp' j = upd (V fdp) fd (Some f, s8 (Z.lor fl m), 0) j) /\
      exists fdp', fclrfdflags fdp fd m = Done (fdp', 0) /\ fd_ok fdp' /\
        forall j, V fdp' j = upd (V fdp) fd (Some f, s8 (Z.ldiff fl m), 0) j
  end.
Proof.
  intros Hok Hs. pose proof (fd_open_spec fdp fd Hok Hs) as Ho. unfold fgetfdflags, fsetfdflags, fclrfdflags.
  destruct (V fdp fd) as [[[f |] fl] r]; [| by rewrite Ho].
  destruct Ho as (-> & _ & d & -> & Hd & [= Ef Efl Er]). rewrite !bind_Done_l, Efl. split; [done |].
  assert (forall v, exists fdp', (fdp0 ← set_node fdp fd (Fdnode (fp d) v (reserved d) (allocated d)); mret (fdp0, 0)) =
    Done (fdp', 0) /\ fd_ok fdp' /\ forall j, V fdp' j = upd (V fdp) fd (Some f, v, 0) j) as Hset; [| split; apply Hset].
  intros v. destruct (set_node_same fdp fd d (Fdnode (fp d) v (reserved d) (allocated d)) Hok Hd)
    as (fdp1 & -> & Hok1 & _ & Hv1 & _); [done | done | simpl; by rewrite Er |].
  exists fdp1. split; [done |]. split; [done |]. unfold content in Hv1. cbn in Hv1. by rewrite Ef, Er in Hv1.
Qed.

Lemma fdflags_correct_witness : fgetfdflags fd_open0 0 = Done (Datatypes.inr 0).
Proof. apply (fdflags_correct fd_open0 0 1 (reach_fd_ok _ reach_open0)). unfold is_s32. lia. Defined.

(** C28: In every table a process can have, no assertion of the descriptor
    code fails, no node outside the table is touched and every loop over the table
    ends: each operation returns.  A pass of kern_dup ends with a result, and goes
    back to its label retry only if the target of DUP_FIXED is reserved by another
    thread, and then with nothing changed: the retry ends when that thread
    has set or given back its descriptor. *)
Theorem fdtable_no_panic fdp :
  fd_reach fdp ->
  (forall lm want, 0 <= want -> dtable_limit lm <= 2 ^ 30 - 1 -> exists r, fdalloc lm fdp want = Done r) /\
  (forall f fd, (V fdp fd).2 <> 0 -> exists fdp', fsetfd_locked fdp f fd = Done fdp') /\
  (forall fd, is_s32 fd -> exists r, funsetfd_locked fdp fd = Done r) /\
  (forall lm flags old new, is_s32 old -> is_s32 new -> dtable_limit lm <= 2 ^ 30 - 1 ->
    bit_set flags DUP_FIXED = negb (bit_set flags DUP_VARIABLE) ->
    exists fdp' r, kern_dup lm fdp flags old new = Done (fdp', r) /\
      (r = DupRetry -> bit_set flags DUP_FIXED = true /\ (V fdp new).2 <> 0 /\ forall j, V fdp' j = V fdp j)) /\
  (forall kqueue, exists fdp', fdcopy kqueue fdp = Done fdp').
Proof.
  intros Hok%reach_fd_ok. split; [| split; [| split; [| split]]].
  - intros lm want Hw Hl. destruct (fdalloc_spec lm fdp _ want Hok Hw Hl) as (? & ? & ? & _). by eexists.
  - intros f fd Hr. destruct (fsetfd_spec fdp f fd Hok Hr) as (? & ? & _). by eexists.
  - intros fd Hs. pose proof (funsetfd_spec fdp fd Hok Hs) as Hu. destruct (V fdp fd) as [[[f |] fl] r].
    + destruct Hu as (? & ? & _). by eexists.
    + by eexists.
  - intros lm flags old new Ho Hn Hl Hm.
    destruct (kern_dup_spec lm fdp flags old new Hok Ho Hn Hl Hm) as (fdp' & r & E & _ & Hr). exists fdp', r. split; [done |]. intros ->. destruct Hr as (H1 & H2 & H3). done.
  - intros kqueue. destruct (fdcopy_spec kqueue fdp Hok) as (? & ? & _). by eexists.
Qed.

Lemma fdtable_no_panic_witness : exists r, fdalloc lim10 fd_open0 0 = Done r.
Proof. apply (fdtable_no_panic fd_open0 reach_open0); [lia | done]. Defined.

(** Opening and closing: a descriptor that is allocated, given a file and
    closed leaves every descriptor as it was, hands the file back, and is the
    one the next fdalloc returns. *)
Theorem open_close_roundtrip lm fdp want fdp1 fd fdp2 f fdp3 g :
  fd_ok fdp -> 0 <= want -> dtable_limit lm <= 2 ^ 30 - 1 ->
  fdalloc lm fdp want = Done (fdp1, Datatypes.inr fd) -> fsetfd_locked fdp1 (Some f) fd = Done fdp2 ->
  is_s32 fd -> funsetfd_locked fdp2 fd = Done (fdp3, g) ->
  g = Some f /\ (forall j, j <> fd -> V fdp3 j = V fdp j) /\ V fdp3 fd = (None, 0, 0) /\
  forall fdp4 fd', fdalloc lm fdp3 want = Done (fdp4, Datatypes.inr fd') -> fd' = fd.
Proof.
  intros Hok Hw Hl E1 E2 Hs E3.
  destruct (fdalloc_spec lm fdp _ want Hok Hw Hl) as (x & r & E & Hr). rewrite E1 in E. injection E as <- <-.
  destruct Hr as ((Hge & Hfree & Hall) & Hok1%table_fd_ok & _ & Hv1).
  destruct (fsetfd_spec fdp1 (Some f) fd Hok1) as (x & E & Hok2 & Hv2); [by rewrite Hv1, view_upd_eq |].
  rewrite E2 in E. injection E as <-. pose proof (funsetfd_spec fdp2 fd Hok2 Hs) as Hu.
  rewrite Hv2, view_upd_eq in Hu. destruct Hu as (x & E & Hok3 & _ & Hv3). rewrite E3 in E. injection E as <- ->.
  assert (forall j, j <> fd -> V fdp3 j = V fdp j) as Hsame.
  { intros j Hj. rewrite Hv3, view_upd_ne, Hv2, view_upd_ne, Hv1, view_upd_ne by done. done. }
  split; [done |]. split; [done |]. split; [rewrite Hv3; apply view_upd_eq |]. intros fdp4 fd' E4.
  destruct (fdalloc_spec lm fdp3 _ want Hok3 Hw Hl) as (x & r & E & Hr). rewrite E4 in E. injection E as <- <-.
  destruct Hr as ((Hge' & Hfree' & Hall') & _). destruct (Z.lt_trichotomy fd' fd) as [H | [H | H]]; [| done |]; exfalso.
  - specialize (Hall fd' ltac:(lia)). rewrite used_busy, Hsame, <- used_busy in Hfree' by lia. congruence.
  - specialize (Hall' fd ltac:(lia)). rewrite used_busy, Hv3, view_upd_eq in Hall'. done.
Qed.

Lemma open_close_roundtrip_witness :
  exists fdp3, funsetfd_locked fd_open0 0 = Done (fdp3, Some 77) /\ V fdp3 0 = (None, 0, 0).
Proof.
  destruct (funsetfd_locked fd_open0 0) as [[fdp3 g] |] eqn:E; [| by vm_compute in E].
  destruct (open_close_roundtrip lim10 fdinit 0 fd_reserved0 0 fd_open0 77 fdp3 g) as (-> & _ & Hv & _);
    [apply fdinit_ok | lia | done | by vm_compute | by vm_compute | unfold is_s32; lia | exact E |].
  exists fdp3. split; [reflexivity | exact Hv].
Defined.

(** ** Where the code does not do what it is meant to *)

Definition alloc_many (lm : fdlimits) (fdp : filedesc) : nat -> outcome (filedesc * list (Z + Z)) :=
  fix go k := match k with
  | O => mret (fdp, [])
  | S k => '(fdp, l) ← go k; '(fdp, r) ← fdalloc lm fdp 0; mret (fdp, l ++ [r])
  end.

(** With a limit of 10 descriptors a process gets 11: the search of the
    subtree looks at the size of the table only. *)
Theorem fdalloc_exceeds_limit :
  dtable_limit lim10 = 10 /\
  exists fdp, alloc_many lim10 fdinit 12 =
    Done (fdp, map Datatypes.inr [0; 1; 2; 3; 4; 5; 6; 7; 8; 9; 10] ++ [inl EMFILE]).
Proof. split; [done |]. eexists. vm_compute. reflexivity. Qed.

(** dup2 to the descriptor whose number is the limit succeeds. *)
Theorem kern_dup_at_limit :
  exists fdp, kern_dup lim10 fd_open0 DUP_FIXED 0 10 = Done (fdp, DupDone 10 None) /\ V fdp 10 = (Some 77, 0, 0).
Proof. eexists. split; [vm_compute; reflexivity | reflexivity]. Qed.

(** A process without any open file is refused a descriptor for its user's quota: the test
    that is to leave minfilesperproc = 8 descriptors to everyone looks at the size of the table,
    which is 15 from the start. *)
Theorem quota_hits_small_process : let lm := Fdlimits 10 1000 8 1001 101 100 in
  minfilesperproc lm = 8 /\ in_use_count fdinit = 0 /\ fdalloc lm fdinit 0 = Done (fdinit, inl ENFILE).
Proof. by vm_compute. Qed.

(** dup of descriptor 0 fails with ENFILE, and dup2 to a number that can not be a descriptor
    with EINVAL. *)
Theorem kern_dup_undocumented_errors :
  (exists fdp, kern_dup (Fdlimits 20 1000 8 1001 101 100) fd_open0 DUP_VARIABLE 0 0 = Done (fdp, DupError ENFILE)) /\
  (exists fdp, kern_dup lim10 fd_open0 DUP_FIXED 0 (-1) = Done (fdp, DupError EINVAL)).
Proof. split; eexists; vm_compute; reflexivity. Qed.

(** fdavail says a descriptor is available and fdalloc fails: fdavail counts
    reserved descriptors, and does not look at the quota of the user. *)
Theorem fdavail_then_fails :
  (exists fdp l fdp', alloc_many (Fdlimits 15 1000 8 0 0 100) fdinit 15 = Done (fdp, l) /\
    fdavail (Fdlimits 15 1000 8 0 0 100) fdp 1 = Done true /\
    fdalloc (Fdlimits 15 1000 8 0 0 100) fdp 0 = Done (fdp', inl EMFILE)) /\
  fdavail (Fdlimits 10 1000 8 1001 101 100) fdinit 1 = Done true /\
  fdalloc (Fdlimits 10 1000 8 1001 101 100) fdinit 0 = Done (fdinit, inl ENFILE).
Proof.
  split; [| by vm_compute]. eexists _, _, _. split; [vm_compute; reflexivity |].
  split; vm_compute; reflexivity.
Qed.
