(* ===== verification/FdClose.v ===== *)
(** * Closing and looking up descriptors: sys/kern/kern_descrip.c

    close, closefrom, the descriptors that are closed by exec and by set-id
    programs, looking up the file of a descriptor, and the standard
    descriptors of set-id programs, on top of the table of FdTable.v. *)

From stdpp Require Import prelude list strings.
From S2P Require Import Prelude.
From S2P Require Import Ranges.
From S2P Require Import FdTable.
From S2P Require Import FdTree.
From S2P Require Import FdLemmas.
From S2P Require Import FdProps.
Open Scope Z_scope.

Definition EINTR : Z := 4.
Definition ENOTSOCK : Z := 38.
Definition DTYPE_VNODE : Z := 1.
Definition DTYPE_SOCKET : Z := 2.
Definition DTYPE_FIFO : Z := 4.
Definition FD_CLOEXEC : Z := 1.

(** ** Limits *)

Definition sys_getdtablesize (lm : fdlimits) : Z :=
  let dtsize := dtable_limit lm in
  if negb (cr_uid lm =? 0) && (maxfilesperuser lm <? dtsize) then maxfilesperuser lm else dtsize.

(** ** Looking up *)

Section Files.
(** The fields of struct file that the code reads, whether a file is on
    procfs, and the result of closef. *)
Context (f_type f_flag : Z -> Z) (procfs : Z -> bool) (closef : Z -> Z).

(** holdfp: the file, or NULL. *)
Definition holdfp (fdp : filedesc) (fd flag : Z) : outcome (option Z) :=
  if fd_nfiles fdp <=? u32 fd then mret None
  else
    n ← aget (fd_files fdp) fd;
    mret (match fp n with
          | None => None
          | Some f => if (Z.land (f_flag f) flag =? 0) && negb (flag =? -1) then None else Some f
          end).

(** holdsock and holdvnode: the error and what is stored in *fpp. *)
Definition holdsock (fdp : filedesc) (fd : Z) : outcome (Z * option Z) :=
  if fd_nfiles fdp <=? u32 fd then mret (EBADF, None)
  else
    n ← aget (fd_files fdp) fd;
    mret (match fp n with
          | None => (EBADF, None)
          | Some f => if negb (f_type f =? DTYPE_SOCKET) then (ENOTSOCK, Some f) else (0, Some f)
          end).

Definition holdvnode (fdp : filedesc) (fd : Z) : outcome (Z * option Z) :=
  if fd_nfiles fdp <=? u32 fd then mret (EBADF, None)
  else
    n ← aget (fd_files fdp) fd;
    mret (match fp n with
          | None => (EBADF, None)
          | Some f =>
              if negb (f_type f =? DTYPE_VNODE) && negb (f_type f =? DTYPE_FIFO) then (EINVAL, None)
              else (0, Some f)
          end).

Definition checkfdclosed (fdp : filedesc) (fd : Z) (f : option Z) : outcome Z :=
  if fd_nfiles fdp <=? u32 fd then mret EBADF
  else n ← aget (fd_files fdp) fd; mret (if bool_decide (f = fp n) then 0 else EBADF).

(** ** Closing *)

Definition kern_close (fdp : filedesc) (fd : Z) : outcome (filedesc * Z) :=
  '(fdp, f) ← funsetfd_locked fdp fd;
  match f with
  | None => mret (fdp, EBADF)
  | Some f => mret (fdp, closef f)
  end.

(** while (fd <= fdp->fd_lastfile) ... *)
Fixpoint closefrom_loop (fuel : nat) (fdp : filedesc) (fd : Z) : outcome (filedesc * Z) :=
  if negb (fd <=? fd_lastfile fdp) then mret (fdp, 0)
  else
    match fuel with
    | O => Fault OutOfFuel
    | S fuel =>
        n ← aget (fd_files fdp) fd;
        if negb (bool_decide (fp n = None)) then
          '(fdp, e) ← kern_close fdp fd;
          if e =? EINTR then mret (fdp, EINTR) else closefrom_loop fuel fdp (fd + 1)
        else closefrom_loop fuel fdp (fd + 1)
    end.

Definition kern_closefrom (fdp : filedesc) (fd : Z) : outcome (filedesc * Z) :=
  if fd <? 0 then mret (fdp, EINVAL) else closefrom_loop (length (fd_files fdp)) fdp fd.

(** The loops of fdcloseexec, fdfree and setugidsafety: close the descriptors
    up to [max] whose node satisfies [pick]; the files that closef is called
    for, in order. *)
Fixpoint close_scan (pick : fdnode -> bool) (max : option Z) (fuel : nat) (fdp : filedesc) (i : Z) :
    outcome (filedesc * list Z) :=
  if negb (i <=? fd_lastfile fdp) then mret (fdp, [])
  else if match max with Some m => m <? i | None => false end then mret (fdp, [])
  else
    match fuel with
    | O => Fault OutOfFuel
    | S fuel =>
        n ← aget (fd_files fdp) i;
        if negb (bool_decide (fp n = None)) && pick n then
          '(fdp, f) ← funsetfd_locked fdp i;
          '(fdp, l) ← close_scan pick max fuel fdp (i + 1);
          mret (fdp, match f with Some f => f :: l | None => l end)
        else close_scan pick max fuel fdp (i + 1)
    end.

Definition fdcloseexec (fdp : filedesc) : outcome (filedesc * list Z) :=
  close_scan (fun n => bit_set (fileflags n) UF_EXCLOSE) None (length (fd_files fdp)) fdp 0.

(** The loop of fdfree that closes what is left when the last user of the
    table goes away. *)
Definition fdfree_close (fdp : filedesc) : outcome (filedesc * list Z) :=
  close_scan (fun _ => true) None (length (fd_files fdp)) fdp 0.

Definition is_unsafe (f : Z) : bool := (f_type f =? DTYPE_VNODE) && procfs f.

Definition setugidsafety (fdp : filedesc) : outcome (filedesc * list Z) :=
  close_scan (fun n => match fp n with Some f => is_unsafe f | None => false end) (Some 2)
    (length (fd_files fdp)) fdp 0.

(** ** The standard descriptors *)

(** The descriptor part of falloc; [full] when the system is out of files. *)
Definition falloc (lm : fdlimits) (full : bool) (fdp : filedesc) : outcome (filedesc * (Z + Z)) :=
  if full then mret (fdp, inl ENFILE) else fdalloc lm fdp 0.

(** fdcheckstd; [null] is the error of opening /dev/null, or its file.  A pass
    of kern_dup that has to be repeated is one that finds a reserved target. *)
Fixpoint checkstd_loop (lm : fdlimits) (full : bool) (null : Z + Z) (n : nat) (fdp : filedesc) (i devnull : Z) :
    outcome (filedesc * Z) :=
  match n with
  | O => mret (fdp, 0)
  | S n =>
      d ← aget (fd_files fdp) i;
      if negb (bool_decide (fp d = None)) then checkstd_loop lm full null n fdp (i + 1) devnull
      else if devnull <? 0 then
        '(fdp, r) ← falloc lm full fdp;
        match r with
        | inl e => mret (fdp, e)
        | Datatypes.inr devnull =>
            match null with
            | inl e => fdp ← fsetfd_locked fdp None devnull; mret (fdp, e)
            | Datatypes.inr f =>
                fdp ← fsetfd_locked fdp (Some f) devnull;
                _ ← KKASSERT "i == devnull" (i =? devnull);
                checkstd_loop lm full null n fdp (i + 1) devnull
            end
        end
      else
        '(fdp, r) ← kern_dup lm fdp DUP_FIXED devnull i;
        match r with
        | DupDone _ _ => checkstd_loop lm full null n fdp (i + 1) devnull
        | DupError e => mret (fdp, e)
        | DupRetry => Fault OutOfFuel
        end
  end.

Definition fdcheckstd (lm : fdlimits) (full : bool) (null : Z + Z) (fdp : filedesc) : outcome (filedesc * Z) :=
  checkstd_loop lm full null 3 fdp 0 (-1).

(** ** fcntl *)

(** The commands of fcntl on descriptors. *)
Inductive fcntl_cmd := F_GETFD | F_SETFD | F_DUPFD | F_DUP2FD | F_DUPFD_CLOEXEC | F_DUP2FD_CLOEXEC.

Inductive fcntl_result := FcError (e : Z) | FcDone (dat : Z) | FcRetry.

Definition of_dup (x : filedesc * dup_result) : filedesc * fcntl_result :=
  (x.1, match x.2 with DupError e => FcError e | DupDone n _ => FcDone n | DupRetry => FcRetry end).

Definition kern_fcntl (lm : fdlimits) (fdp : filedesc) (fd : Z) (cmd : fcntl_cmd) (dat : Z) :
    outcome (filedesc * fcntl_result) :=
  match cmd with
  | F_GETFD =>
      r ← fgetfdflags fdp fd;
      mret (fdp, match r with
                 | inl e => FcError e
                 | Datatypes.inr tmp => FcDone (if bit_set tmp UF_EXCLOSE then FD_CLOEXEC else 0)
                 end)
  | F_SETFD =>
      '(fdp, e) ← (if bit_set dat FD_CLOEXEC then fsetfdflags fdp fd UF_EXCLOSE else fclrfdflags fdp fd UF_EXCLOSE);
      mret (fdp, if e =? 0 then FcDone dat else FcError e)
  | F_DUPFD => x ← kern_dup lm fdp DUP_VARIABLE fd dat; mret (of_dup x)
  | F_DUP2FD => x ← kern_dup lm fdp DUP_FIXED fd dat; mret (of_dup x)
  | F_DUPFD_CLOEXEC => x ← kern_dup lm fdp (Z.lor DUP_VARIABLE DUP_CLOEXEC) fd dat; mret (of_dup x)
  | F_DUP2FD_CLOEXEC => x ← kern_dup lm fdp (Z.lor DUP_FIXED DUP_CLOEXEC) fd dat; mret (of_dup x)
  end.

(** ** What the loops do *)

(** The content of a descriptor once it is closed, if it was open. *)
Definition shut (c : option Z * Z * Z) : option Z * Z * Z :=
  if bool_decide (c.1.1 = None) then c else (None, 0, 0).

Lemma shut_closed c : c.1.1 = None -> shut c = c.
Proof. intros H. unfold shut. by rewrite bool_decide_eq_true_2. Qed.

Lemma shut_fp c : (shut c).1.1 = None.
Proof. unfold shut. destruct (bool_decide _) eqn:E; [by apply bool_decide_eq_true_1 in E | done]. Qed.

Lemma above_last fdp j : fd_ok fdp -> fd_lastfile fdp < j -> (V fdp j).1.1 = None.
Proof.
  intros Hok Hj. destruct (tb_last _ _ Hok) as (_ & Hl & _). specialize (Hl j Hj). rewrite used_busy in Hl.
  unfold busy in Hl. apply negb_false_iff, andb_true_iff in Hl as [Hl _]. by apply bool_decide_eq_true_1 in Hl.
Qed.

(** An index of a table is an int. *)
Lemma index_s32 fdp A j : table_ok fdp A -> 0 <= j < fd_nfiles fdp -> is_s32 j.
Proof. intros H Hj. pose proof (nfiles_bound _ _ H). unfold_int. lia. Qed.

(** Closing an open descriptor. *)
Lemma close_open fdp j n :
  fd_ok fdp -> aget (fd_files fdp) j = Done n -> fp n <> None ->
  exists fdp' f, funsetfd_locked fdp j = Done (fdp', Some f) /\ (V fdp j).1.1 = Some f /\ fd_ok fdp' /\
    fd_nfiles fdp' = fd_nfiles fdp /\ forall k, V fdp' k = upd (V fdp) j (shut (V fdp j)) k.
Proof.
  intros Hok Hn Hf. pose proof (aget_bounds _ _ _ Hn) as Hb. rewrite (tb_len _ _ Hok) in Hb.
  pose proof (funsetfd_spec fdp j Hok (index_s32 _ _ _ Hok Hb)) as Hu. pose proof (view_get _ _ _ Hn) as Ev.
  rewrite Ev in Hu |- *. unfold content in *. destruct (fp n) as [f |]; [| done].
  destruct Hu as (fdp' & E & Hok' & Hnf & Hv). exists fdp', f. done.
Qed.

Definition shut_range (W : Z -> option Z * Z * Z) (a b : Z) (j : Z) : option Z * Z * Z :=
  if (a <=? j) && (j <? b) then shut (W j) else W j.

Lemma closefrom_loop_spec fuel fdp fd :
  fd_ok fdp -> 0 <= fd -> fd_nfiles fdp - fd <= Z.of_nat fuel ->
  exists fdp' e k, closefrom_loop fuel fdp fd = Done (fdp', e) /\ fd_ok fdp' /\ fd <= k /\
    (forall j, V fdp' j = shut_range (V fdp) fd k j) /\
    ((e = 0 /\ forall j, k <= j -> (V fdp j).1.1 = None) \/
     (e = EINTR /\ exists f, (V fdp (k - 1)).1.1 = Some f /\ closef f = EINTR)).
Proof.
  revert fdp fd. induction fuel as [| fuel IH]; intros fdp fd Hok Hfd Hfu; cbn [closefrom_loop];
    destruct (tb_last _ _ Hok) as (Hl & _ & _);
    (destruct (Z.leb_spec fd (fd_lastfile fdp)) as [Hle | Hgt]; cbn [negb];
     [| exists fdp, 0, fd; split; [done |]; split; [done |]; split; [lia |]; split;
        [intros j; unfold shut_range; by destruct (Z.leb_spec fd j), (Z.ltb_spec j fd); try lia |];
        left; split; [done |]; intros j Hj; apply above_last; [done | lia] ]); [lia |].
  destruct (aget_in_bounds (fd_files fdp) fd) as [n Hn]; [rewrite (tb_len _ _ Hok); lia |].
  rewrite Hn, bind_Done_l. pose proof (view_get _ _ _ Hn) as Ev.
  destruct (bool_decide (fp n = None)) eqn:Ef; cbn [negb].
  - apply bool_decide_eq_true_1 in Ef. destruct (IH fdp (fd + 1) Hok) as (fdp' & e & k & -> & Hok' & Hk & Hv & He); [lia | lia |].
    exists fdp', e, k. split; [done |]. split; [done |]. split; [lia |]. split; [| done].
    intros j. rewrite Hv. unfold shut_range. destruct (decide (j = fd)) as [-> |].
    + rewrite Ev. rewrite shut_closed by (by rewrite <- Ef). by destruct (_ && _), (_ && _).
    + destruct (Z.leb_spec fd j), (Z.leb_spec (fd + 1) j); done || lia.
  - apply bool_decide_eq_false_1 in Ef. destruct (close_open fdp fd n Hok Hn Ef) as (fdp1 & f & E & Hf & Hok1 & Hnf & Hv1).
    unfold kern_close. rewrite E, bind_Done_l. cbn [mret outcome_ret mbind outcome_bind].
    destruct (Z.eqb_spec (closef f) EINTR) as [Hi | Hi].
    + exists fdp1, EINTR, (fd + 1). split; [done |]. split; [done |]. split; [lia |]. split.
      * intros j. rewrite Hv1. unfold upd, shut_range. destruct (Z.eqb_spec j fd) as [-> | Hne].
        -- by destruct (Z.leb_spec fd fd), (Z.ltb_spec fd (fd + 1)); try lia.
        -- by destruct (Z.leb_spec fd j), (Z.ltb_spec j (fd + 1)); try lia.
      * right. split; [done |]. exists f. by replace (fd + 1 - 1) with fd by lia.
    + destruct (IH fdp1 (fd + 1) Hok1) as (fdp' & e & k & -> & Hok' & Hk & Hv & He); [lia | lia |].
      exists fdp', e, k. split; [done |]. split; [done |]. split; [lia |]. split.
      * intros j. rewrite Hv. unfold shut_range. rewrite !Hv1. unfold upd. destruct (Z.eqb_spec j fd) as [-> | Hne].
        -- by destruct (Z.leb_spec (fd + 1) fd), (Z.leb_spec fd fd), (Z.ltb_spec fd k); try lia.
        -- destruct (Z.leb_spec fd j), (Z.leb_spec (fd + 1) j); done || lia.
      * destruct He as [[-> He] | [-> (g & Hg & Hc)]]; [left | right]; (split; [done |]).
        -- intros j Hj. specialize (He j Hj). rewrite Hv1 in He. unfold upd in He.
           destruct (Z.eqb_spec j fd); [lia | done].
        -- exists g. split; [| done]. rewrite Hv1 in Hg. unfold upd in Hg. destruct (Z.eqb_spec (k - 1) fd); [| done].
           by rewrite shut_fp in Hg.
Qed.

(** A scan closes the descriptors it picks. *)
Section Scan.
Context (pick : fdnode -> bool) (pickc : option Z * Z * Z -> bool) (max : option Z).
Hypothesis Hpick : forall n, pick n = pickc (content n).

Definition in_scan (i j : Z) : bool := (i <=? j) && match max with Some m => j <=? m | None => true end.

Definition scanned (W : Z -> option Z * Z * Z) (i j : Z) : option Z * Z * Z :=
  if in_scan i j && pickc (W j) then shut (W j) else W j.

Lemma close_scan_spec fuel fdp i :
  fd_ok fdp -> 0 <= i -> fd_nfiles fdp - i <= Z.of_nat fuel ->
  exists fdp' l, close_scan pick max fuel fdp i = Done (fdp', l) /\ fd_ok fdp' /\
    (forall j, V fdp' j = scanned (V fdp) i j) /\
    forall f, (f ∈ l) <-> exists j, in_scan i j = true /\ pickc (V fdp j) = true /\ (V fdp j).1.1 = Some f.
Proof.
  revert fdp i. induction fuel as [| fuel IH]; intros fdp i Hok Hi Hfu; cbn [close_scan];
    destruct (tb_last _ _ Hok) as (Hl & _ & _);
    (destruct (Z.leb_spec i (fd_lastfile fdp)) as [Hle | Hgt]; cbn [negb];
     [| exists fdp, []; split; [done |]; split; [done |]; split;
        [ intros j; unfold scanned, in_scan; destruct (Z.leb_spec i j); [| done];
          rewrite shut_closed by (apply above_last; [done | lia]); by destruct (_ && _)
        | intros f; split; [by intros ?%not_elem_of_nil |]; intros (j & Hj & _ & Hf); unfold in_scan in Hj;
          apply andb_true_iff in Hj as [Hj%Z.leb_le _]; rewrite above_last in Hf by (done || lia); done ] ]); [lia |].
  destruct (match max with Some m => m <? i | None => false end) eqn:Hm.
  { exists fdp, []. split; [done |]. split; [done |].
    assert (forall j, in_scan i j = false) as Hno.
    { intros j. unfold in_scan. destruct (Z.leb_spec i j); [| done]. destruct max as [m |]; [| done].
      apply Z.ltb_lt in Hm. simpl. apply Z.leb_gt. lia. }
    split; [intros j; unfold scanned; by rewrite Hno |].
    intros f. split; [by intros ?%not_elem_of_nil |]. intros (j & Hj & _). by rewrite Hno in Hj. }
  destruct (aget_in_bounds (fd_files fdp) i) as [n Hn]; [rewrite (tb_len _ _ Hok); lia |].
  rewrite Hn, bind_Done_l. pose proof (view_get _ _ _ Hn) as Ev.
  assert (in_scan i i = true) as Hii.
  { unfold in_scan. rewrite Z.leb_refl. destruct max as [m |]; [| done]. apply Z.ltb_ge in Hm. by apply Z.leb_le. }
  assert (forall j, j <> i -> in_scan i j = in_scan (i + 1) j) as Hstep.
  { intros j Hne. unfold in_scan. by destruct (Z.leb_spec i j), (Z.leb_spec (i + 1) j); try lia. }
  destruct (negb (bool_decide (fp n = None)) && pick n) eqn:Ep.
  - apply andb_true_iff in Ep as [Ef%negb_true_iff%bool_decide_eq_false_1 Ep]. rewrite Hpick, <- Ev in Ep.
    destruct (close_open fdp i n Hok Hn Ef) as (fdp1 & f & E & Hf & Hok1 & Hnf & Hv1). rewrite E, bind_Done_l.
    destruct (IH fdp1 (i + 1) Hok1) as (fdp' & l & -> & Hok' & Hv & Hin); [lia | lia |]. rewrite bind_Done_l.
    exists fdp', (f :: l). split; [done |]. split; [done |]. split.
    + intros j. rewrite Hv. unfold scanned. destruct (decide (j = i)) as [-> | Hne].
      * rewrite Hii, Ep. cbn [andb]. rewrite Hv1, view_upd_eq.
        replace (in_scan (i + 1) i) with false; [done |]. unfold in_scan. by destruct (Z.leb_spec (i + 1) i); [lia |].
      * rewrite Hstep, Hv1, view_upd_ne by done. done.
    + intros g. rewrite elem_of_cons, Hin. split.
      * intros [-> | (j & Hj & Hp & Hg)]; [by exists i |]. exists j. unfold in_scan in Hj.
        assert (j <> i) by (intros ->; destruct (Z.leb_spec (i + 1) i); [lia | done]).
        rewrite Hv1, view_upd_ne in Hp, Hg by done. rewrite Hstep by done. done.
      * intros (j & Hj & Hp & Hg). destruct (decide (j = i)) as [-> | Hne]; [left; congruence | right].
        exists j. rewrite <- Hstep by done. rewrite Hv1, view_upd_ne by done. done.
  - assert (forall c, V fdp i = c -> pickc c = true -> shut c = c) as Hsame.
    { intros c Ec Hc. apply shut_closed. rewrite <- Ec, Ev in *. rewrite <- Hpick in Hc. rewrite Hc, andb_true_r in Ep.
      apply negb_false_iff, bool_decide_eq_true_1 in Ep. done. }
    destruct (IH fdp (i + 1) Hok) as (fdp' & l & -> & Hok' & Hv & Hin); [lia | lia |].
    exists fdp', l. split; [done |]. split; [done |]. split.
    + intros j. rewrite Hv. unfold scanned. destruct (decide (j = i)) as [-> | Hne]; [| by rewrite Hstep].
      rewrite Hii. replace (in_scan (i + 1) i) with false by (unfold in_scan; by destruct (Z.leb_spec (i + 1) i); [lia |]).
      cbn [andb]. destruct (pickc (V fdp i)) eqn:Ec; [| done]. symmetry. by apply Hsame.
    + intros g. rewrite Hin. split; intros (j & Hj & Hp & Hg); exists j; (split; [| done]).
      * destruct (decide (j = i)) as [-> |]; [done | by rewrite Hstep].
      * rewrite <- Hstep; [done |]. intros ->. assert (shut (V fdp i) = V fdp i) as E by (by apply Hsame).
        unfold shut in E. rewrite Hg in E. rewrite bool_decide_eq_false_2 in E by done. by rewrite <- E in Hg.
Qed.

End Scan.

(** The standard descriptors: the descriptors before [i] are open, the others
    are not reserved. *)
Lemma checkstd_loop_spec lm full null n fdp i devnull :
  fd_ok fdp -> 0 <= i -> i + Z.of_nat n <= 3 -> dtable_limit lm <= 2 ^ 30 - 1 -> null <> inl 0 -> devnull < i ->
  (forall j, 0 <= j < i -> (V fdp j).1.1 <> None) -> (forall j, i <= j < i + Z.of_nat n -> (V fdp j).2 = 0) ->
  exists fdp' e, checkstd_loop lm full null n fdp i devnull = Done (fdp', e) /\ fd_ok fdp' /\
    (forall j, (V fdp j).1.1 <> None -> V fdp' j = V fdp j) /\
    (e = 0 -> forall j, 0 <= j < i + Z.of_nat n -> (V fdp' j).1.1 <> None).
Proof.
  revert fdp i devnull. induction n as [| n IH]; intros fdp i devnull Hok Hi Hn Hlim Hnull Hdev Hopen Hres; cbn [checkstd_loop].
  { exists fdp, 0. split; [done |]. split; [done |]. split; [done |]. intros _ j Hj. apply Hopen. lia. }
  pose proof (nfiles_bound _ _ Hok) as Hnf.
  destruct (aget_in_bounds (fd_files fdp) i) as [d Hd]; [rewrite (tb_len _ _ Hok); lia |].
  rewrite Hd, bind_Done_l. pose proof (view_get _ _ _ Hd) as Ev. pose proof (Hres i ltac:(lia)) as Hri.
  destruct (bool_decide (fp d = None)) eqn:Ef; cbn [negb].
  2:{ apply bool_decide_eq_false_1 in Ef.
      destruct (IH fdp (i + 1) devnull Hok) as (fdp' & e & -> & Hok' & Hsame & He); try lia; try done.
      - intros j Hj. destruct (decide (j = i)) as [-> |]; [by rewrite Ev | apply Hopen; lia].
      - intros j Hj. apply Hres. lia.
      - exists fdp', e. split; [done |]. split; [done |]. split; [done |]. intros E j Hj. apply He; [done | lia]. }
  apply bool_decide_eq_true_1 in Ef.
  assert ((V fdp i).1.1 = None) as Evi by (by rewrite Ev).
  (* what remains, once descriptor i is open *)
  assert (forall fdp1 c dn, fd_ok fdp1 -> (forall j, V fdp1 j = upd (V fdp) i c j) -> c.1.1 <> None -> dn <= i ->
    exists fdp' e, checkstd_loop lm full null n fdp1 (i + 1) dn = Done (fdp', e) /\ fd_ok fdp' /\
      (forall j, (V fdp j).1.1 <> None -> V fdp' j = V fdp j) /\
      (e = 0 -> forall j, 0 <= j < i + Z.of_nat (S n) -> (V fdp' j).1.1 <> None)) as Hnext.
  { intros fdp1 c dn Hok1 Hv1 Hc Hdn.
    destruct (IH fdp1 (i + 1) dn Hok1) as (fdp' & e & -> & Hok' & Hsame & He); try lia; try done.
    - intros j Hj. rewrite Hv1. unfold upd. destruct (Z.eqb_spec j i); [done | apply Hopen; lia].
    - intros j Hj. rewrite Hv1, view_upd_ne by lia. apply Hres. lia.
    - exists fdp', e. split; [done |]. split; [done |]. split.
      + intros j Hj. assert (j <> i) by (intros ->; done). rewrite Hsame; rewrite Hv1, view_upd_ne by done; done.
      + intros E j Hj. apply He; [done | lia]. }
  destruct (Z.ltb_spec devnull 0) as [Hneg | Hpos].
  - unfold falloc. destruct full; [eexists _, _; split; [reflexivity |]; split; [done |]; split; [done |]; done |].
    destruct (fdalloc_spec lm fdp _ 0 Hok ltac:(lia) Hlim) as (fdp1 & r & -> & Hr). rewrite bind_Done_l.
    destruct r as [e | fd].
    { destruct Hr as (Hok1 & Hv1 & He). exists fdp1, e. split; [done |]. split; [by eapply table_fd_ok |].
      split; [done |]. intros ->. destruct He as [[? _] | [? _]]; done. }
    destruct Hr as ((Hge & Hfree & Hall) & Hok1%table_fd_ok & _ & Hv1).
    assert (fd = i) as ->.
    { destruct (Z.lt_trichotomy fd i) as [Hlt | [-> | Hgt]]; [| done |]; exfalso.
      - specialize (Hopen fd ltac:(lia)). rewrite used_busy in Hfree. unfold busy in Hfree.
        by rewrite bool_decide_eq_false_2 in Hfree.
      - specialize (Hall i ltac:(lia)). rewrite used_busy in Hall. unfold busy in Hall.
        by rewrite bool_decide_eq_true_2, Hri in Hall. }
    destruct null as [e | f].
    + destruct (fsetfd_spec fdp1 None i Hok1) as (fdp2 & -> & Hok2 & Hv2); [by rewrite Hv1, view_upd_eq |].
      exists fdp2, e. split; [done |]. split; [done |]. split; [| intros ->; done].
      intros j Hj. assert (j <> i) by (intros ->; done). by rewrite Hv2, view_upd_ne, Hv1, view_upd_ne by done.
    + destruct (fsetfd_spec fdp1 (Some f) i Hok1) as (fdp2 & -> & Hok2 & Hv2); [by rewrite Hv1, view_upd_eq |].
      rewrite bind_Done_l. unfold KKASSERT. rewrite Z.eqb_refl, bind_Done_l.
      apply (Hnext fdp2 (Some f, 0, 0) i); [done | | done | lia].
      intros j. rewrite Hv2. unfold upd. destruct (Z.eqb_spec j i) as [-> | Hne].
      * by rewrite Hv1, view_upd_eq.
      * by rewrite Hv1, view_upd_ne.
  - destruct (kern_dup_spec lm fdp DUP_FIXED devnull i Hok) as (fdp1 & r & -> & Hok1 & Hr);
      [unfold_int; lia | unfold_int; lia | done | done |].
    rewrite bind_Done_l. destruct r as [e | nfd del |].
    + destruct Hr as [Hsame He]. exists fdp1, e. split; [done |]. split; [done |]. split; [done |].
      intros ->. by destruct He as [[? _] | [[? _] | [[? _] | [? _]]]].
    + destruct Hr as (f & fl & Hold & Hr). change (bit_set DUP_FIXED DUP_FIXED) with true in Hr. cbn [andb] in Hr.
      rewrite (proj2 (Z.eqb_neq devnull i)) in Hr by lia. destruct Hr as (_ & Hv & -> & _).
      by apply (Hnext fdp1 (Some f, dup_flags DUP_FIXED fl, 0) devnull); [| | | lia].
    + destruct Hr as (_ & _ & Hr). done.
Qed.

End Files.

(** ** Properties *)

(** exec.  fdcloseexec closes exactly the open descriptors that are marked
    close-on-exec, hands exactly their files to closef, and leaves every other
    descriptor as it is. *)
Theorem fdcloseexec_correct fdp :
  fd_ok fdp ->
  exists fdp' l, fdcloseexec fdp = Done (fdp', l) /\ fd_ok fdp' /\
    (forall j, 0 <= j -> V fdp' j = if bit_set (V fdp j).1.2 UF_EXCLOSE then shut (V fdp j) else V fdp j) /\
    forall f, (f ∈ l) <-> exists j, 0 <= j /\ bit_set (V fdp j).1.2 UF_EXCLOSE = true /\ (V fdp j).1.1 = Some f.
Proof.
  intros Hok. pose proof (tb_len _ _ Hok) as Hlen.
  destruct (close_scan_spec (fun n => bit_set (fileflags n) UF_EXCLOSE) (fun c => bit_set c.1.2 UF_EXCLOSE) None
    ltac:(done) (length (fd_files fdp)) fdp 0 Hok) as (fdp' & l & E & Hok' & Hv & Hin);
    [lia | unfold zlen in Hlen; lia |].
  exists fdp', l. split; [done |]. split; [done |]. split.
  - intros j Hj. rewrite Hv. unfold scanned, in_scan. by rewrite (proj2 (Z.leb_le 0 j) Hj).
  - intros f. rewrite Hin. unfold in_scan. setoid_rewrite andb_true_r. setoid_rewrite Z.leb_le. done.
Qed.

Definition fd_two : filedesc := Eval vm_compute in
  match kern_dup lim10 fd_open0 (Z.lor DUP_FIXED DUP_CLOEXEC) 0 4 with Done (fdp, _) => fdp | Fault _ => fdinit end.

Lemma reach_two : fd_reach fd_two.
Proof.
  apply (reach_dup fd_open0 lim10 (Z.lor DUP_FIXED DUP_CLOEXEC) 0 4 fd_two (DupDone 4 None)).
  - apply reach_open0.
  - unfold_int; lia.
  - unfold_int; lia.
  - done.
  - done.
  - by vm_compute.
Qed.

Lemma fdcloseexec_correct_witness :
  exists fdp', fdcloseexec fd_two = Done (fdp', [77]) /\ V fdp' 4 = (None, 0, 0) /\ V fdp' 0 = (Some 77, 0, 0).
Proof.
  destruct (fdcloseexec_correct fd_two (reach_fd_ok _ reach_two)) as (fdp' & l & E & _ & Hv & _).
  exists fdp'. split; [rewrite E; vm_compute in E; injection E as _ <-; reflexivity |].
  rewrite !Hv by lia. split; reflexivity.
Defined.

(** closefrom(fd).  Without an interrupted close, every descriptor from
    [fd] on is closed and every other one is unchanged; an interrupted close
    ends the call with EINTR behind the descriptor that was being closed. *)
Theorem kern_closefrom_correct closef fdp fd :
  fd_ok fdp -> 0 <= fd ->
  exists fdp' e k, kern_closefrom closef fdp fd = Done (fdp', e) /\ fd_ok fdp' /\
    (forall j, V fdp' j = shut_range (V fdp) fd k j) /\
    ((e = 0 /\ forall j, fd <= j -> (V fdp' j).1.1 = None) \/
     (e = EINTR /\ exists f, (V fdp (k - 1)).1.1 = Some f /\ closef f = EINTR)).
Proof.
  intros Hok Hfd. pose proof (tb_len _ _ Hok) as Hlen. unfold kern_closefrom. rewrite (proj2 (Z.ltb_ge _ _)) by done.
  destruct (closefrom_loop_spec closef (length (fd_files fdp)) fdp fd Hok Hfd) as (fdp' & e & k & E & Hok' & Hk & Hv & He);
    [unfold zlen in Hlen; lia |].
  exists fdp', e, k. split; [done |]. split; [done |]. split; [done |]. destruct He as [[-> He] | He]; [left | by right].
  split; [done |]. intros j Hj. rewrite Hv. unfold shut_range. rewrite (proj2 (Z.leb_le fd j) Hj). cbn [andb].
  destruct (Z.ltb_spec j k); [apply shut_fp | by apply He].
Qed.

Lemma kern_closefrom_correct_witness :
  exists fdp', kern_closefrom (fun _ => 0) fd_two 1 = Done (fdp', 0) /\ (V fdp' 4).1.1 = None.
Proof.
  destruct (kern_closefrom_correct (fun _ => 0) fd_two 1 (reach_fd_ok _ reach_two)) as (fdp' & e & k & E & _ & _ & He);
    [lia |].
  exists fdp'. split.
  - rewrite E. vm_compute in E. injection E as _ <-. reflexivity.
  - destruct He as [[_ He] | [-> (f & _ & Hc)]]; [apply He; lia | discriminate Hc].
Defined.

(** set-id programs.  If none of the descriptors 0, 1 and 2 is reserved,
    fdcheckstd never panics, keeps every open descriptor, and when it succeeds
    the three are open. *)
Theorem fdcheckstd_correct lm full null fdp :
  fd_ok fdp -> dtable_limit lm <= 2 ^ 30 - 1 -> null <> inl 0 -> (forall j, 0 <= j < 3 -> (V fdp j).2 = 0) ->
  exists fdp' e, fdcheckstd lm full null fdp = Done (fdp', e) /\ fd_ok fdp' /\
    (forall j, (V fdp j).1.1 <> None -> V fdp' j = V fdp j) /\
    (e = 0 -> forall j, 0 <= j < 3 -> (V fdp' j).1.1 <> None).
Proof.
  intros Hok Hlim Hnull Hres. apply (checkstd_loop_spec lm full null 3 fdp 0 (-1)); try done; try lia.
Qed.

Lemma fdcheckstd_correct_witness :
  exists fdp', fdcheckstd lim10 false (Datatypes.inr 5) fd_open0 = Done (fdp', 0) /\ (V fdp' 2).1.1 <> None.
Proof.
  destruct (fdcheckstd_correct lim10 false (Datatypes.inr 5) fd_open0 (reach_fd_ok _ reach_open0)) as (fdp' & e & E & _ & _ & He);
    [done | done | |].
  { intros j Hj. assert (j = 0 \/ j = 1 \/ j = 2) as [-> | [-> | ->]] by lia; reflexivity. }
  exists fdp'. split; [rewrite E; vm_compute in E; injection E as _ <-; reflexivity |].
  apply He; [vm_compute in E; injection E as _ <-; reflexivity | lia].
Defined.

(** holdsock of a descriptor that is not a socket fails, and still stores the
    file, on which it holds no reference. *)
Theorem holdsock_error_keeps_file : holdsock (fun _ => DTYPE_VNODE) fd_open0 0 = Done (ENOTSOCK, Some 77).
Proof. reflexivity. Qed.
