(* ===== verification/Rman.v ===== *)
(** * The resource manager: sys/kern/subr_rman.c

    Bus drivers reserve ranges of interrupts, ports and memory from a resource
    manager, which keeps a list of segments sorted by address.  Segments are
    objects that are known by number; the model keeps them in a heap, so that
    the segment list, the sharing lists and the caller's handle refer to the
    same object, and a use of a freed one is a fault. *)

From stdpp Require Import prelude list strings gmap.
From S2P Require Import Prelude.
From S2P Require Import Tailq.
Open Scope Z_scope.

Definition ENOMEM : Z := 12.
Definition EBUSY : Z := 16.

Definition RF_ALLOCATED : Z := 1.
Definition RF_ACTIVE : Z := 2.
Definition RF_SHAREABLE : Z := 4.
Definition RF_TIMESHARE : Z := 8.
Definition RF_WANTED : Z := 16.
Definition RF_FIRSTSHARE : Z := 32.
Definition RF_ALIGNMENT_MASK : Z := Z.shiftl 63 10.
Definition RF_ALIGNMENT (x : Z) : Z := Z.shiftr (Z.land x RF_ALIGNMENT_MASK) 10.

Inductive rman_type := RMAN_UNINIT | RMAN_GAUGE | RMAN_ARRAY.

(** struct resource; the handle of a resource is its number. *)
Record resource := Resource {
  r_start : Z;
  r_end : Z;
  r_flags : Z;
  r_dev : option Z;
  r_sharehead : option nat
}.

(** struct rman, with the memory it uses: the segment list, the resources, the
    sharing lists and the next number. *)
Record rman := Rman {
  rm_list : list nat;
  rm_heap : gmap nat resource;
  rm_heads : gmap nat (list nat);
  rm_next : nat
}.

Definition has (flags f : Z) : bool := negb (Z.land flags f =? 0).

Definition set_flags (r : resource) (v : Z) : resource :=
  Resource (r_start r) (r_end r) v (r_dev r) (r_sharehead r).
Definition set_start (r : resource) (v : Z) : resource :=
  Resource v (r_end r) (r_flags r) (r_dev r) (r_sharehead r).
Definition set_end (r : resource) (v : Z) : resource :=
  Resource (r_start r) v (r_flags r) (r_dev r) (r_sharehead r).
Definition set_dev (r : resource) (v : option Z) : resource :=
  Resource (r_start r) (r_end r) (r_flags r) v (r_sharehead r).
Definition set_sharehead (r : resource) (v : option nat) : resource :=
  Resource (r_start r) (r_end r) (r_flags r) (r_dev r) v.

Definition set_list (rm : rman) (l : list nat) : rman := Rman l (rm_heap rm) (rm_heads rm) (rm_next rm).
Definition set_heads (rm : rman) (h : gmap nat (list nat)) : rman := Rman (rm_list rm) (rm_heap rm) h (rm_next rm).

(** s->field, and s->field = v. *)
Definition deref (rm : rman) (s : nat) : outcome resource :=
  match rm_heap rm !! s with Some r => Done r | None => Fault NullDeref end.
Definition store (rm : rman) (s : nat) (r : resource) : rman :=
  Rman (rm_list rm) (<[s := r]> (rm_heap rm)) (rm_heads rm) (rm_next rm).
Definition kfree (rm : rman) (s : nat) : rman :=
  Rman (rm_list rm) (delete s (rm_heap rm)) (rm_heads rm) (rm_next rm).

(** ** Lists *)

(** for (s = TAILQ_FIRST(..); s && s->r_end < start; s = TAILQ_NEXT(s)) ;
    the rest of the list from [s] on. *)
Fixpoint skip_below (rm : rman) (start : Z) (l : list nat) : outcome (list nat) :=
  match l with
  | [] => mret []
  | s :: rest =>
      r ← deref rm s;
      if r_end r <? start then skip_below rm start rest else mret (s :: rest)
  end.

(** ** Managing regions *)

Section Kmalloc.
(** kmalloc(M_NOWAIT): does the n-th allocation succeed? *)
Context (kmalloc_ok : nat -> bool).

Definition kmalloc (rm : rman) (r : resource) : rman * option nat :=
  let n := rm_next rm in
  if kmalloc_ok n
  then (Rman (rm_list rm) (<[n := r]> (rm_heap rm)) (rm_heads rm) (S n), Some n)
  else (Rman (rm_list rm) (rm_heap rm) (rm_heads rm) (S n), None).

Definition rman_init (rm_type : rman_type) : outcome (Z + rman) :=
  match rm_type with
  | RMAN_UNINIT => Fault (Panic "rman_init")
  | RMAN_GAUGE => Fault (Panic "implement RMAN_GAUGE")
  | RMAN_ARRAY => mret (if kmalloc_ok 0%nat then inr (Rman [] ∅ ∅ 1) else inl ENOMEM)
  end.

Definition rman_manage_region (rm : rman) (start end_ : Z) : outcome (rman * Z) :=
  match kmalloc rm (Resource start end_ 0 None None) with
  | (rm, None) => mret (rm, ENOMEM)
  | (rm, Some r) =>
      l ← skip_below rm start (rm_list rm);
      mret (set_list rm (match l with
                         | [] => rm_list rm ++ [r]
                         | s :: _ => insert_before s r (rm_list rm)
                         end), 0)
  end.

(** The scan for a segment in use, and the loop that frees the segments. *)
Fixpoint any_allocated (rm : rman) (l : list nat) : outcome bool :=
  match l with
  | [] => mret false
  | s :: l => r ← deref rm s; if has (r_flags r) RF_ALLOCATED then mret true else any_allocated rm l
  end.

Fixpoint free_all (rm : rman) (l : list nat) : rman :=
  match l with [] => rm | s :: l => free_all (kfree (set_list rm l) s) l end.

Definition rman_fini (rm : rman) : outcome (rman * Z) :=
  b ← any_allocated rm (rm_list rm);
  mret (if (b : bool) then (rm, EBUSY) else (free_all rm (rm_list rm), 0)).

(** ** Reserving *)

(** libkern's max and min have u_int parameters. *)
Definition umax (a b : Z) : Z := Z.max (u32 a) (u32 b).
Definition umin (a b : Z) : Z := Z.min (u32 a) (u32 b).

(** The first address of a candidate, and the last one. *)
Definition cand_start (s : resource) (start flags : Z) : Z :=
  let rstart := umax (r_start s) start in
  let a := Z.shiftl 1 (RF_ALIGNMENT flags) in
  Z.ldiff (u64 (rstart + a - 1)) (u64 (a - 1)).

Definition cand_end (s : resource) (start end_ count : Z) : Z :=
  umin (r_end s) (umax (u64 (start + count)) end_).

(** Segment [s] is free and large enough: it is allocated, whole or split. *)
Definition carve (rm : rman) (sid : nat) (s : resource) (rstart count flags : Z) (dev : option Z) :
    rman * option nat :=
  if u64 (r_end s - r_start s + 1) =? count then
    (store rm sid (set_dev (set_flags s (Z.lor (r_flags s) (Z.lor RF_ALLOCATED flags))) dev), Some sid)
  else
    let rv := Resource rstart (u64 (rstart + count - 1)) (Z.lor flags RF_ALLOCATED) dev None in
    match kmalloc rm rv with
    | (rm, None) => (rm, None)
    | (rm, Some v) =>
        if (r_start s <? r_start rv) && (r_end rv <? r_end s) then
          match kmalloc rm (Resource (u64 (r_end rv + 1)) (r_end s) (r_flags s) None None) with
          | (rm, None) => (kfree rm v, None)
          | (rm, Some r) =>
              let rm := store rm sid (set_end s (u64 (r_start rv - 1))) in
              (set_list rm (insert_after v r (insert_after sid v (rm_list rm))), Some v)
          end
        else if r_start s =? r_start rv then
          let rm := store rm sid (set_start s (u64 (r_end rv + 1))) in
          (set_list rm (insert_before sid v (rm_list rm)), Some v)
        else
          let rm := store rm sid (set_end s (u64 (r_start rv - 1))) in
          (set_list rm (insert_after sid v (rm_list rm)), Some v)
    end.

(** First loop: [None] when no segment fits. *)
Fixpoint unshared_loop (rm : rman) (l : list nat) (start end_ count flags : Z) (dev : option Z) :
    outcome (option (rman * option nat)) :=
  match l with
  | [] => mret None
  | sid :: l =>
      s ← deref rm sid;
      if end_ <? r_start s then mret None
      else if has (r_flags s) RF_ALLOCATED then unshared_loop rm l start end_ count flags dev
      else
        let rstart := cand_start s start flags in
        let rend := cand_end s start end_ count in
        if count <=? u64 (rend - rstart + 1) then mret (Some (carve rm sid s rstart count flags dev))
        else unshared_loop rm l start end_ count flags dev
  end.

(** The sharing list of [s] with one more member. *)
Definition join_share (rm : rman) (sid : nat) (s : resource) (dev : option Z) : outcome (rman * option nat) :=
  let flags := Z.land (r_flags s) (Z.lor RF_ALLOCATED (Z.lor RF_SHAREABLE RF_TIMESHARE)) in
  match kmalloc rm (Resource (r_start s) (r_end s) flags dev None) with
  | (rm, None) => mret (rm, None)
  | (rm, Some v) =>
      '(rm, h) ←
        match r_sharehead s with
        | Some h => mret (rm, Some h)
        | None =>
            let n := rm_next rm in
            let rm := Rman (rm_list rm) (rm_heap rm) (rm_heads rm) (S n) in
            if kmalloc_ok n then
              mret (set_heads (store rm sid (set_sharehead (set_flags s (Z.lor (r_flags s) RF_FIRSTSHARE)) (Some n)))
                      (<[n := [sid]]> (rm_heads rm)), Some n)
            else mret (kfree rm v, None)
        end;
      match h with
      | None => mret (rm, None)
      | Some h =>
          r ← deref rm v;
          match rm_heads rm !! h with
          | None => Fault NullDeref
          | Some l => mret (set_heads (store rm v (set_sharehead r (Some h))) (<[h := v :: l]> (rm_heads rm)), Some v)
          end
      end
  end.

(** Second loop: a segment that is shared, or can be, and matches exactly. *)
Fixpoint shared_loop (rm : rman) (l : list nat) (start end_ count flags : Z) (dev : option Z) :
    outcome (rman * option nat) :=
  match l with
  | [] => mret (rm, None)
  | sid :: l =>
      s ← deref rm sid;
      if end_ <? r_start s then mret (rm, None)
      else if negb (Z.land (r_flags s) flags =? flags) then shared_loop rm l start end_ count flags dev
      else if (start <=? r_start s) && (r_end s <=? end_) && (u64 (r_end s - r_start s + 1) =? count)
      then join_share rm sid s dev
      else shared_loop rm l start end_ count flags dev
  end.

(** The loop over the sharing list: is anyone active? *)
Fixpoint any_active (rm : rman) (l : list nat) : outcome bool :=
  match l with
  | [] => mret false
  | s :: l => r ← deref rm s; if has (r_flags r) RF_ACTIVE then mret true else any_active rm l
  end.

Definition int_rman_activate_resource (rm : rman) (rid : nat) : outcome (rman * Z) :=
  r ← deref rm rid;
  let active := store rm rid (set_flags r (Z.lor (r_flags r) RF_ACTIVE)) in
  match r_sharehead r with
  | None => mret (active, 0)
  | Some h =>
      if negb (has (r_flags r) RF_TIMESHARE) || has (r_flags r) RF_ACTIVE then mret (active, 0)
      else
        match rm_heads rm !! h with
        | None => Fault NullDeref
        | Some l => b ← any_active rm l; mret (if (b : bool) then (rm, EBUSY) else (active, 0))
        end
  end.

(** The wakeup of the waiters has no effect on the lists. *)
Definition int_rman_deactivate_resource (rm : rman) (rid : nat) : outcome rman :=
  r ← deref rm rid;
  let f := Z.ldiff (r_flags r) RF_ACTIVE in
  mret (store rm rid (set_flags r (if has f RF_WANTED then Z.ldiff f RF_WANTED else f))).

(** ** Releasing *)

(** Leaving a sharing list. *)
Definition leave_share (rm : rman) (rid : nat) (r : resource) (h : nat) : outcome rman :=
  match rm_heads rm !! h with
  | None => Fault NullDeref
  | Some l =>
      let l := tailq_remove rid l in
      let rm := set_heads rm (<[h := l]> (rm_heads rm)) in
      match l with
      | [] => Fault NullDeref
      | sid :: rest =>
          s ← deref rm sid;
          let '(rm, s) :=
            if has (r_flags r) RF_FIRSTSHARE then
              let s := set_flags s (Z.lor (r_flags s) RF_FIRSTSHARE) in
              let rm := store rm sid s in
              (set_list rm (tailq_remove rid (insert_before rid sid (rm_list rm))), s)
            else (rm, s) in
          let rm :=
            match rest with
            | [] => set_heads (store rm sid (set_sharehead (set_flags s (Z.ldiff (r_flags s) RF_FIRSTSHARE)) None))
                      (delete h (rm_heads rm))
            | _ :: _ => rm
            end in
          mret (kfree rm rid)
      end
  end.

Definition free_neighbour (rm : rman) (o : option nat) : outcome (option (nat * resource)) :=
  match o with
  | None => mret None
  | Some s => r ← deref rm s; mret (if has (r_flags r) RF_ALLOCATED then None else Some (s, r))
  end.

Definition int_rman_release_resource (rm : rman) (rid : nat) : outcome rman :=
  r ← deref rm rid;
  rm ← (if has (r_flags r) RF_ACTIVE then int_rman_deactivate_resource rm rid else mret rm);
  r ← deref rm rid;
  match r_sharehead r with
  | Some h => leave_share rm rid r h
  | None =>
      s ← free_neighbour rm (tailq_prev None rid (rm_list rm));
      t ← free_neighbour rm (tailq_next rid (rm_list rm));
      match s, t with
      | Some (sid, s), Some (tid, t) =>
          let rm := store rm sid (set_end s (r_end t)) in
          let rm := set_list rm (tailq_remove tid (tailq_remove rid (rm_list rm))) in
          mret (kfree (kfree rm tid) rid)
      | Some (sid, s), None =>
          let rm := store rm sid (set_end s (r_end r)) in
          mret (kfree (set_list rm (tailq_remove rid (rm_list rm))) rid)
      | None, Some (tid, t) =>
          let rm := store rm tid (set_start t (r_start r)) in
          mret (kfree (set_list rm (tailq_remove rid (rm_list rm))) rid)
      | None, None => mret (store rm rid (set_flags r (Z.ldiff (r_flags r) RF_ALLOCATED)))
      end
  end.

(** The manager after the call and the resource, or NULL. *)
Definition rman_reserve_resource (rm : rman) (start end_ count flags : Z) (dev : option Z) :
    outcome (rman * option nat) :=
  let want_activate := has flags RF_ACTIVE in
  let flags := Z.ldiff flags RF_ACTIVE in
  l ← skip_below rm start (rm_list rm);
  u ← unshared_loop rm l start end_ count flags dev;
  '(rm, rv) ←
    match u with
    | Some res => mret res
    | None =>
        if negb (has flags (Z.lor RF_SHAREABLE RF_TIMESHARE)) then mret (rm, None)
        else shared_loop rm l start end_ count flags dev
    end;
  match rv with
  | Some v =>
      if want_activate then
        '(rm, e) ← int_rman_activate_resource rm v;
        if e =? 0 then mret (rm, Some v)
        else rm ← int_rman_release_resource rm v; mret (rm, None)
      else mret (rm, Some v)
  | None => mret (rm, None)
  end.

End Kmalloc.

(** ** Alignment flags *)

(** 1 << i for an int. *)
Definition shl1 (i : Z) : outcome Z :=
  if (0 <=? i) && (i <? 32) then mret (s32 (Z.shiftl 1 i)) else Fault UndefinedShift.

Fixpoint highest_bit (fuel : nat) (i size : Z) : outcome Z :=
  match fuel with
  | O => mret i
  | S fuel =>
      if negb (0 <? i) then mret i
      else
        b ← shl1 i;
        if negb (Z.land (u32 b) size =? 0) then mret i else highest_bit fuel (i - 1) size
  end.

Definition rman_make_alignment_flags (size : Z) : outcome Z :=
  i ← highest_bit 33 32 size;
  b ← shl1 i;
  let i := if negb (Z.land (u32 (Z.lnot b)) size =? 0) then i + 1 else i in
  mret (Z.shiftl i 10).
