(* ===== verification/RmanLemmas.v ===== *)
(** * The segment list of a resource manager

    The list of segments as one value, and what the operations of
    sys/kern/subr_rman.c do to it. *)

From stdpp Require Import prelude list strings gmap.
From S2P Require Import Prelude.
From S2P Require Import Tailq.
From S2P Require Import Rman.
Open Scope Z_scope.

Abbreviation segs := (list (nat * resource)).

(** ** Segment lists *)

Definition is_alloc (r : resource) : bool := has (r_flags r) RF_ALLOCATED.

Definition inside (r : resource) (x : Z) : bool := (r_start r <=? x) && (x <=? r_end r).

(** Is address [x] in an unallocated segment? *)
Definition free (L : segs) (x : Z) : bool := existsb (fun '(_, r) => negb (is_alloc r) && inside r x) L.

(** The segments follow each other without gaps, from [lo] on: the address
    behind the last one. *)
Fixpoint walk (lo : Z) (L : segs) : option Z :=
  match L with
  | [] => Some lo
  | (_, r) :: L => if (r_start r =? lo) && (lo <=? r_end r) then walk (r_end r + 1) L else None
  end.

Lemma walk_app lo L1 L2 : walk lo (L1 ++ L2) = walk lo L1 ≫= fun m => walk m L2.
Proof.
  revert lo. induction L1 as [| [i r] L1 IH]; intros lo; [done |].
  simpl. destruct ((r_start r =? lo) && (lo <=? r_end r)); [apply IH | done].
Qed.

Lemma walk_cons lo i r L hi :
  walk lo ((i, r) :: L) = Some hi <-> r_start r = lo /\ lo <= r_end r /\ walk (r_end r + 1) L = Some hi.
Proof.
  simpl. destruct (Z.eqb_spec (r_start r) lo), (Z.leb_spec lo (r_end r)); simpl; naive_solver lia.
Qed.

Lemma walk_le lo L hi : walk lo L = Some hi -> lo <= hi.
Proof.
  revert lo. induction L as [| [i r] L IH]; intros lo H; [naive_solver lia |].
  apply walk_cons in H as (_ & ? & H%IH). lia.
Qed.

(** A segment splits the list. *)
Lemma walk_mid lo L1 i r L2 hi :
  walk lo (L1 ++ (i, r) :: L2) = Some hi <->
  walk lo L1 = Some (r_start r) /\ r_start r <= r_end r /\ walk (r_end r + 1) L2 = Some hi.
Proof.
  rewrite walk_app. destruct (walk lo L1) as [m |]; simpl; [| naive_solver].
  destruct (Z.eqb_spec (r_start r) m), (Z.leb_spec m (r_end r)); simpl; split; intros; naive_solver lia.
Qed.

#[global] Arguments walk : simpl never.

(** Every segment lies between the ends, and a segment that comes later is higher. *)
Lemma walk_in lo L hi i r :
  walk lo L = Some hi -> ((i, r) ∈ L) -> lo <= r_start r /\ r_start r <= r_end r /\ r_end r < hi.
Proof.
  intros H (L1 & L2 & ->)%list_elem_of_split. apply walk_mid in H as (H1%walk_le & H2 & H3%walk_le). lia.
Qed.

Lemma free_app L1 L2 x : free (L1 ++ L2) x = free L1 x || free L2 x.
Proof. unfold free. apply existsb_app. Qed.

Lemma free_cons i r L x : free ((i, r) :: L) x = (negb (is_alloc r) && inside r x) || free L x.
Proof. done. Qed.

Lemma free_out lo L hi x : walk lo L = Some hi -> ~ lo <= x < hi -> free L x = false.
Proof.
  intros H Hx. destruct (free L x) eqn:E; [| done]. unfold free in E.
  apply existsb_exists in E as ([i r] & Hin%list_elem_of_In & Hr).
  apply andb_true_iff in Hr as [_ Hr]. unfold inside in Hr.
  apply andb_true_iff in Hr as [?%Z.leb_le ?%Z.leb_le].
  pose proof (walk_in _ _ _ _ _ H Hin). lia.
Qed.

(** ** Consistent managers *)

Section Excl.
(** No resource is shared, if [X] holds; unallocated segments never are. *)
Context (X : Prop).

Record rman_ok (rm : rman) (L : segs) : Prop := {
  ro_list : rm_list rm = L.*1;
  ro_nodup : NoDup (L.*1);
  ro_heap : forall i r, ((i, r) ∈ L) -> rm_heap rm !! i = Some r;
  ro_fresh : forall i r, rm_heap rm !! i = Some r -> (i < rm_next rm)%nat;
  ro_head : forall i r, ((i, r) ∈ L) -> is_alloc r = false \/ X -> r_sharehead r = None
}.

Lemma nodup_mid (L1 L2 : segs) i r :
  NoDup ((L1 ++ (i, r) :: L2).*1) -> (i ∉ L1.*1) /\ (i ∉ L2.*1) /\ NoDup ((L1 ++ L2).*1).
Proof.
  rewrite !fmap_app, fmap_cons. simpl. intros H.
  apply (NoDup_Permutation_proper _ _ (Permutation_sym (Permutation_middle _ _ _))) in H.
  apply NoDup_cons in H as [H1 H2]. set_solver.
Qed.

Lemma not_in_mid (L1 L2 : segs) i r v :
  (v ∉ (L1 ++ (i, r) :: L2).*1) <-> i <> v /\ (v ∉ L1.*1) /\ (v ∉ L2.*1).
Proof. rewrite fmap_app, fmap_cons, elem_of_app, elem_of_cons. naive_solver. Qed.

Lemma in_mid (L1 L2 : segs) i r : (i, r) ∈ L1 ++ (i, r) :: L2.
Proof. apply elem_of_app. right. left. Qed.

Lemma in_fst (L : segs) i r : ((i, r) ∈ L) -> (i ∈ L.*1).
Proof. intros H. apply list_elem_of_fmap. by exists (i, r). Qed.

Lemma ok_store rm L1 L2 i r r' :
  rman_ok rm (L1 ++ (i, r) :: L2) -> (is_alloc r' = false \/ X -> r_sharehead r' = None) ->
  rman_ok (store rm i r') (L1 ++ (i, r') :: L2).
Proof.
  intros [Hl Hn Hh Hf Hs] Hr. destruct (nodup_mid _ _ _ _ Hn) as (Hi1 & Hi2 & _).
  assert (forall j s, ((j, s) ∈ L1 ++ (i, r') :: L2) -> (j, s) = (i, r') \/ j <> i /\ ((j, s) ∈ L1 ++ (i, r) :: L2)) as Hin.
  { intros j s. rewrite !elem_of_app, !elem_of_cons. intros [H | [H | H]]; [right | by left | right];
      (split; [intros -> | set_solver]); by apply in_fst in H. }
  constructor; simpl.
  - rewrite Hl, !fmap_app. done.
  - rewrite !fmap_app in *. done.
  - intros j s [[= -> ->] | [Hne H]]%Hin; [apply lookup_insert_eq |]. rewrite lookup_insert_ne by done. by apply Hh.
  - intros j s. destruct (decide (i = j)) as [-> |].
    + intros _. apply (Hf j r). apply Hh. set_solver.
    + rewrite lookup_insert_ne by done. apply Hf.
  - intros j s [[= -> ->] | [Hne H]]%Hin; [done |]. by apply (Hs j).
Qed.

Lemma ok_kmalloc kok rm L r rm' o :
  rman_ok rm L -> kmalloc kok rm r = (rm', o) ->
  rman_ok rm' L /\ rm_next rm' = S (rm_next rm) /\
  match o with
  | Some v => (v ∉ L.*1) /\ rm_heap rm' !! v = Some r /\
      forall j, is_Some (rm_heap rm !! j) -> j <> v /\ rm_heap rm' !! j = rm_heap rm !! j
  | None => kok (rm_next rm) = false
  end.
Proof.
  intros [Hl Hn Hh Hf Hs]. unfold kmalloc. destruct (kok (rm_next rm)) eqn:E; intros [= <- <-].
  - assert (rm_next rm ∉ L.*1) as Hnew.
    { intros ([i s] & Hi & H)%list_elem_of_fmap. simpl in Hi. subst i. apply Hh in H. apply Hf in H. lia. }
    assert (forall j, is_Some (rm_heap rm !! j) -> j <> rm_next rm) as Hold.
    { intros j [x Hx%Hf] ->. lia. }
    split; [| split; [done |]; split; [done |]; split; [apply lookup_insert_eq |]; intros j Hj; split; [by apply Hold |];
      simpl; apply lookup_insert_ne; apply not_eq_sym; by apply Hold].
    constructor; simpl; try done.
    + intros i s H. rewrite lookup_insert_ne; [by apply Hh |]. intros <-. by apply in_fst in H.
    + intros i s. destruct (decide (rm_next rm = i)) as [-> |]; [intros; lia |].
      rewrite lookup_insert_ne by done. intros H%Hf. lia.
  - split; [| done]. constructor; simpl; try done. intros i s H%Hf. lia.
Qed.

Lemma ok_insert rm L1 L2 v r :
  rman_ok rm (L1 ++ L2) -> (v ∉ (L1 ++ L2).*1) -> rm_heap rm !! v = Some r ->
  (is_alloc r = false \/ X -> r_sharehead r = None) ->
  rman_ok (set_list rm (L1.*1 ++ v :: L2.*1)) (L1 ++ (v, r) :: L2).
Proof.
  intros [Hl Hn Hh Hf Hs] Hv Hr Hsh. constructor; simpl; try done.
  - by rewrite fmap_app.
  - rewrite fmap_app, fmap_cons. simpl. rewrite <- Permutation_middle, <- fmap_app. by constructor.
  - intros i s. rewrite elem_of_app, elem_of_cons. intros [H | [[= -> ->] | H]]; [| done |]; apply Hh; set_solver.
  - intros i s. rewrite elem_of_app, elem_of_cons. intros [H | [[= -> ->] | H]]; [| done |]; apply (Hs i); set_solver.
Qed.

Lemma ok_remove rm L1 L2 i r :
  rman_ok rm (L1 ++ (i, r) :: L2) -> rman_ok (kfree (set_list rm (L1.*1 ++ L2.*1)) i) (L1 ++ L2).
Proof.
  intros [Hl Hn Hh Hf Hs]. destruct (nodup_mid _ _ _ _ Hn) as (Hi1 & Hi2 & Hn'). constructor; simpl; try done.
  - by rewrite fmap_app.
  - intros j s Hj. rewrite lookup_delete_ne.
    + apply Hh. set_solver.
    + intros <-. apply in_fst in Hj. set_solver.
  - intros j s H. apply lookup_delete_Some in H as [_ H]. by apply (Hf j s).
  - intros j s Hj. apply (Hs j). set_solver.
Qed.

Lemma ok_kfree rm L v : rman_ok rm L -> (v ∉ L.*1) -> rman_ok (kfree rm v) L.
Proof.
  intros [Hl Hn Hh Hf Hs] Hv. constructor; simpl; try done.
  - intros j s Hj. rewrite lookup_delete_ne; [by apply Hh |]. intros <-. by apply in_fst in Hj.
  - intros j s H. apply lookup_delete_Some in H as [_ H]. by apply (Hf j s).
Qed.

Lemma ok_deref rm L i r : rman_ok rm L -> ((i, r) ∈ L) -> deref rm i = Done r.
Proof. intros H Hin. unfold deref. by rewrite (ro_heap _ _ H i r). Qed.

(** ** Taking a range out of a free segment *)

Lemma has_alloc f : has f RF_ALLOCATED = Z.odd f.
Proof.
  unfold has, RF_ALLOCATED. change 1 with (Z.ones 1). rewrite Z.land_ones by lia. change (2 ^ 1) with 2.
  rewrite Zmod_odd. by destruct (Z.odd f).
Qed.

Lemma odd_lor a b : Z.odd (Z.lor a b) = Z.odd a || Z.odd b.
Proof. rewrite <- !Z.bit0_odd. apply Z.lor_spec. Qed.

Lemma odd_ldiff a b : Z.odd (Z.ldiff a b) = Z.odd a && negb (Z.odd b).
Proof. rewrite <- !Z.bit0_odd. apply Z.ldiff_spec. Qed.

Lemma inside_spec r x : inside r x = true <-> r_start r <= x <= r_end r.
Proof. unfold inside. rewrite andb_true_iff, !Z.leb_le. done. Qed.

Lemma inside_false r x : inside r x = false <-> ~ r_start r <= x <= r_end r.
Proof. rewrite <- not_true_iff_false. by rewrite inside_spec. Qed.

Lemma inside_range a b f d h x : inside (Resource a b f d h) x = (a <=? x) && (x <=? b).
Proof. done. Qed.

(** Replacing a free segment by segments that have the same free addresses
    but those of [r]. *)
Lemma free_replace lo hi L1 sid s L2 mid r x :
  walk lo (L1 ++ (sid, s) :: L2) = Some hi -> is_alloc s = false ->
  r_start s <= r_start r -> r_end r <= r_end s ->
  free mid x = inside s x && negb (inside r x) ->
  free (L1 ++ mid ++ L2) x = free (L1 ++ (sid, s) :: L2) x && negb (inside r x).
Proof.
  intros Hw Hs Hlo Hhi Hmid. rewrite !free_app, free_cons, Hs, Hmid. cbn [negb andb].
  apply walk_mid in Hw as (H1 & H2 & H3).
  destruct (inside r x) eqn:E; cbn [negb]; [| by rewrite !andb_true_r].
  rewrite !andb_false_r. apply inside_spec in E.
  rewrite (free_out _ _ _ _ H1) by lia. rewrite (free_out _ _ _ _ H3) by lia. done.
Qed.

(** What a successful reservation leaves: the resource, and the same segments
    less its addresses. *)
Definition carved (lo hi : Z) (L : segs) (rstart count : Z) (dev : option Z) (rm' : rman) (v : nat) : Prop :=
  exists L' r, rman_ok rm' L' /\ walk lo L' = Some hi /\ ((v, r) ∈ L') /\
    r_start r = rstart /\ r_end r = rstart + count - 1 /\ is_alloc r = true /\ r_sharehead r = None /\ r_dev r = dev /\
    (forall x, inside r x = true -> free L x = true) /\
    forall x, free L' x = free L x && negb (inside r x).

Section Carve.
Context (kok : nat -> bool) (lo hi : Z) (L1 L2 : segs) (sid : nat) (s : resource) (rstart count flags : Z) (dev : option Z).
Hypothesis Hlo : 0 <= lo.
Hypothesis Hhi : hi < 2 ^ 32.
Hypothesis Hwalk : walk lo (L1 ++ (sid, s) :: L2) = Some hi.
Hypothesis Hfree : is_alloc s = false.
Hypothesis Hstart : r_start s <= rstart.
Hypothesis Hcount : 1 <= count.
Hypothesis Hend : rstart + count - 1 <= r_end s.

Abbreviation L := (L1 ++ (sid, s) :: L2).
Abbreviation rv := (Resource rstart (rstart + count - 1) (Z.lor flags RF_ALLOCATED) dev None).

Lemma seg_bounds : lo <= r_start s /\ r_end s < hi /\ walk lo L1 = Some (r_start s) /\ walk (r_end s + 1) L2 = Some hi.
Proof.
  pose proof Hwalk as (H1 & H2 & H3)%walk_mid.
  pose proof (walk_le _ _ _ H1). pose proof (walk_le _ _ _ H3). split; [done |]. split; [lia |]. done.
Qed.

Lemma rv_alloc : is_alloc rv = true.
Proof. unfold is_alloc. rewrite has_alloc. simpl. by rewrite odd_lor, orb_true_r. Qed.

(** The new segments in place of [s], in any of the three layouts. *)
Lemma carved_intro rm' v mid r :
  rman_ok rm' (L1 ++ mid ++ L2) -> walk (r_start s) mid = Some (r_end s + 1) -> ((v, r) ∈ mid) ->
  r_start r = rstart -> r_end r = rstart + count - 1 -> is_alloc r = true -> r_sharehead r = None -> r_dev r = dev ->
  (forall x, free mid x = inside s x && negb (inside r x)) ->
  carved lo hi L rstart count dev rm' v.
Proof.
  intros Hok Hm Hin Hr1 Hr2 Ha Hh Hd Hf. destruct seg_bounds as (? & ? & Hw1 & Hw2).
  exists (L1 ++ mid ++ L2), r. split; [done |]. split.
  { rewrite !walk_app, Hw1. simpl. rewrite walk_app, Hm. exact Hw2. }
  split; [rewrite !elem_of_app; auto |]. split_and!; try done.
  - intros x Hx%inside_spec. rewrite free_app, free_cons, Hfree, (proj2 (inside_spec s x)) by lia. by rewrite orb_true_r.
  - intros x. eapply free_replace; try done; lia.
Qed.

Lemma set_end_alloc (a : Z) : is_alloc (set_end s a) = false.
Proof. exact Hfree. Qed.

Lemma set_start_alloc (a : Z) : is_alloc (set_start s a) = false.
Proof. exact Hfree. Qed.

(** A boolean equation between ranges. *)
Ltac ranges :=
  rewrite ?free_cons, ?set_end_alloc, ?set_start_alloc, ?rv_alloc; unfold inside; cbn [negb andb orb r_start r_end set_end set_start free existsb];
  repeat match goal with |- context [?a <=? ?b] => destruct (Z.leb_spec a b) end; cbn; try reflexivity; lia.

Lemma carve_three rm v q :
  rman_ok rm L -> (v ∉ L.*1) -> (q ∉ L.*1) -> v <> q -> rm_heap rm !! v = Some rv ->
  rm_heap rm !! q = Some (Resource (rstart + count) (r_end s) (r_flags s) None None) ->
  r_start s < rstart -> rstart + count - 1 < r_end s ->
  carved lo hi L rstart count dev
    (let rm := store rm sid (set_end s (rstart - 1)) in
     set_list rm (insert_after v q (insert_after sid v (rm_list rm)))) v.
Proof.
  intros Hok Hv Hq Hvq Hhv Hhq H1 H2. cbv zeta. set (s1 := set_end s (rstart - 1)).
  set (R := Resource (rstart + count) (r_end s) (r_flags s) None None) in *.
  pose proof (nodup_mid _ _ _ _ (ro_nodup _ _ Hok)) as (Hn1 & Hn2 & _).
  apply not_in_mid in Hv as (Hsv & Hv1 & Hv2). apply not_in_mid in Hq as (Hsq & Hq1 & Hq2).
  assert (rman_ok (store rm sid s1) (L1 ++ (sid, s1) :: L2)) as Hok1.
  { eapply ok_store; [exact Hok |]. intros _. apply (ro_head _ _ Hok sid s); [apply in_mid | left; exact Hfree]. }
  rewrite (ro_list _ _ Hok1), fmap_app. cbn [fmap list_fmap fst].
  rewrite insert_after_mid by done.
  replace (L1.*1 ++ sid :: v :: L2.*1) with ((L1.*1 ++ [sid]) ++ v :: L2.*1) by (by rewrite <- app_assoc).
  assert (v ∉ L1.*1 ++ [sid]) as Hv3 by (rewrite elem_of_app, list_elem_of_singleton; naive_solver).
  rewrite insert_after_mid by exact Hv3.
  assert (rman_ok (set_list (store rm sid s1) ((L1.*1 ++ [sid]) ++ v :: L2.*1)) ((L1 ++ [(sid, s1)]) ++ (v, rv) :: L2)) as Hok2.
  { replace (L1.*1 ++ [sid]) with ((L1 ++ [(sid, s1)]).*1) by (by rewrite fmap_app).
    apply ok_insert; [by rewrite <- app_assoc | rewrite <- app_assoc; by apply not_in_mid | | done].
    simpl. by rewrite lookup_insert_ne. }
  assert (rman_ok (set_list (store rm sid s1) (((L1.*1 ++ [sid]) ++ [v]) ++ q :: L2.*1))
    (((L1 ++ [(sid, s1)]) ++ [(v, rv)]) ++ (q, R) :: L2)) as Hok3.
  { replace ((L1.*1 ++ [sid]) ++ [v]) with (((L1 ++ [(sid, s1)]) ++ [(v, rv)]).*1) by (by rewrite !fmap_app).
    apply (ok_insert (set_list (store rm sid s1) ((L1.*1 ++ [sid]) ++ v :: L2.*1)));
      [rewrite <- (app_assoc (L1 ++ [(sid, s1)])); exact Hok2 | | | by intros _].
    { rewrite <- app_assoc. apply not_in_mid. split; [done |]. split; [| done].
      rewrite fmap_app, elem_of_app. simpl. rewrite list_elem_of_singleton. naive_solver. }
    simpl. by rewrite lookup_insert_ne. }
  rewrite <- !app_assoc in Hok3. cbn [app] in Hok3. rewrite <- app_assoc. cbn [app].
  destruct seg_bounds as (? & ? & _).
  apply (carved_intro _ v [(sid, s1); (v, rv); (q, R)] rv); try done.
  - apply walk_cons. simpl. split; [done |]. split; [lia |]. apply walk_cons. simpl. split; [lia |]. split; [lia |].
    apply walk_cons. simpl. split; [lia |]. split; [lia | done].
  - right. left.
  - apply rv_alloc.
  - intros x. unfold s1, R. change (is_alloc (Resource (rstart + count) (r_end s) (r_flags s) None None)) with (is_alloc s).
    rewrite !free_cons. change (is_alloc (Resource (rstart + count) (r_end s) (r_flags s) None None)) with (is_alloc s).
    rewrite Hfree. ranges.
Qed.

Lemma carve_two rm v s1 (before : bool) :
  rman_ok rm L -> (v ∉ L.*1) -> rm_heap rm !! v = Some rv ->
  s1 = (if before then set_start s (rstart + count) else set_end s (rstart - 1)) ->
  (if before then rstart = r_start s /\ rstart + count - 1 < r_end s
   else r_start s < rstart /\ rstart + count - 1 = r_end s) ->
  carved lo hi L rstart count dev
    (let rm := store rm sid s1 in
     set_list rm ((if before then insert_before else insert_after) sid v (rm_list rm))) v.
Proof.
  intros Hok Hv Hhv Es1 Hgeo. cbv zeta.
  pose proof (nodup_mid _ _ _ _ (ro_nodup _ _ Hok)) as (Hn1 & Hn2 & _).
  apply not_in_mid in Hv as (Hsv & Hv1 & Hv2).
  assert (rman_ok (store rm sid s1) (L1 ++ (sid, s1) :: L2)) as Hok1.
  { eapply ok_store; [exact Hok |]. intros _. subst s1.
    destruct before; apply (ro_head _ _ Hok sid s); first [apply in_mid | left; exact Hfree]. }
  rewrite (ro_list _ _ Hok1), fmap_app. cbn [fmap list_fmap fst]. destruct seg_bounds as (? & ? & _).
  destruct before; destruct Hgeo as [Hg1 Hg2].
  - rewrite insert_before_mid by done.
    apply (carved_intro _ v [(v, rv); (sid, s1)] rv); try done.
    + apply (ok_insert (store rm sid s1) L1 ((sid, s1) :: L2)); [done | by apply not_in_mid | | done].
      simpl. by rewrite lookup_insert_ne.
    + subst s1. apply walk_cons. simpl. split; [lia |]. split; [lia |].
      apply walk_cons. simpl. split; [lia |]. split; [lia | done].
    + left.
    + apply rv_alloc.
    + intros x. subst s1. ranges.
  - rewrite insert_after_mid by done.
    apply (carved_intro _ v [(sid, s1); (v, rv)] rv); try done.
    + cbn [app]. replace (L1.*1 ++ sid :: v :: L2.*1) with ((L1 ++ [(sid, s1)]).*1 ++ v :: L2.*1)
        by (rewrite fmap_app, <- app_assoc; done).
      replace (L1 ++ (sid, s1) :: (v, rv) :: L2) with ((L1 ++ [(sid, s1)]) ++ (v, rv) :: L2) by (by rewrite <- app_assoc).
      apply ok_insert; [by rewrite <- app_assoc | rewrite <- app_assoc; by apply not_in_mid | | done].
      simpl. by rewrite lookup_insert_ne.
    + subst s1. apply walk_cons. simpl. split; [lia |]. split; [lia |].
      apply walk_cons. simpl. split; [lia |]. split; [lia |]. unfold walk. f_equal. lia.
    + right. left.
    + apply rv_alloc.
    + intros x. subst s1. ranges.
Qed.

Lemma carve_whole rm :
  rman_ok rm L -> rstart = r_start s -> rstart + count - 1 = r_end s ->
  carved lo hi L rstart count dev
    (store rm sid (set_dev (set_flags s (Z.lor (r_flags s) (Z.lor RF_ALLOCATED flags))) dev)) sid.
Proof.
  intros Hok H1 H2. set (s1 := set_dev _ _).
  assert (is_alloc s1 = true) as Ha.
  { unfold is_alloc. rewrite has_alloc. unfold s1. simpl. rewrite !odd_lor. by rewrite orb_true_r. }
  apply (carved_intro _ sid [(sid, s1)] s1); try done.
  - apply (ok_store _ _ _ _ s); [exact Hok |]. intros _. apply (ro_head _ _ Hok sid s); [apply in_mid | left; exact Hfree].
  - apply walk_cons. simpl. split; [done |]. split; [lia |]. unfold walk. done.
  - left.
  - apply (ro_head _ _ Hok sid s); [apply in_mid | left; exact Hfree].
  - intros x. rewrite free_cons, Ha. unfold s1, inside. cbn. by rewrite andb_negb_r.
Qed.

Lemma carve_spec rm rm' o :
  rman_ok rm L -> carve kok rm sid s rstart count flags dev = (rm', o) ->
  match o with
  | None => rman_ok rm' L /\ exists n, (rm_next rm <= n < rm_next rm')%nat /\ kok n = false
  | Some v => carved lo hi L rstart count dev rm' v
  end.
Proof.
  intros Hok. destruct seg_bounds as (? & ? & _). unfold carve.
  rewrite (u64_id (r_end s - r_start s + 1)) by (unfold_int; lia).
  destruct (Z.eqb_spec (r_end s - r_start s + 1) count) as [Hsz | Hsz].
  { intros [= <- <-]. apply carve_whole; [exact Hok | lia | lia]. }
  rewrite (u64_id (rstart + count - 1)) by (unfold_int; lia). cbv zeta. cbn [r_start r_end].
  replace (rstart + count - 1 + 1) with (rstart + count) by lia. rewrite (u64_id (rstart + count)) by (unfold_int; lia).
  destruct (kmalloc kok rm rv) as [rm1 [v |]] eqn:Ev.
  2:{ intros [= <- <-]. destruct (ok_kmalloc _ _ _ _ _ _ Hok Ev) as (Hok1 & En & Hk). split; [done |]. exists (rm_next rm). split; [lia | done]. }
  destruct (ok_kmalloc _ _ _ _ _ _ Hok Ev) as (Hok1 & En1 & Hv & Hhv & _).
  destruct ((r_start s <? rstart) && (rstart + count - 1 <? r_end s)) eqn:E3.
  - apply andb_true_iff in E3 as [E3%Z.ltb_lt E4%Z.ltb_lt].
    destruct (kmalloc kok rm1 _) as [rm2 [q |]] eqn:Eq; destruct (ok_kmalloc _ _ _ _ _ _ Hok1 Eq) as (Hok2 & En2 & Hq);
      intros [= <- <-].
    + destruct Hq as (Hq & Hhq & Hold). destruct (Hold v ltac:(by eexists)) as [Hvq Hv'].
      rewrite (u64_id (rstart - 1)) by (unfold_int; lia).
      apply (carve_three rm2 v q); try done. congruence.
    + split; [by apply ok_kfree |]. exists (rm_next rm1). split; [cbn; lia | done].
  - destruct (Z.eqb_spec (r_start s) rstart) as [Eb | Eb]; intros [= <- <-].
    + apply (carve_two rm1 v (set_start s (rstart + count)) true); try done. lia.
    + rewrite (u64_id (rstart - 1)) by (unfold_int; lia).
      apply (carve_two rm1 v (set_end s (rstart - 1)) false); try done.
      apply andb_false_iff in E3 as [E3%Z.ltb_ge | E3%Z.ltb_ge]; lia.
Qed.

End Carve.

(** ** Searching *)

(** The window of a request inside a segment holds [count] addresses. *)
Definition fits (s : resource) (start end_ count : Z) : Prop :=
  r_start s <= end_ /\ Z.max (r_start s) start + count - 1 <= Z.min (r_end s) (Z.max (start + count) end_).

Lemma skip_below_spec rm L1 L2 lo hi start :
  rman_ok rm (L1 ++ L2) -> walk lo (L1 ++ L2) = Some hi -> (forall i r, (i, r) ∈ L1 -> r_end r < start) ->
  exists L1' L2', L1 ++ L2 = L1' ++ L2' /\ skip_below rm start (L2.*1) = Done (L2'.*1) /\
    (forall i r, (i, r) ∈ L1' -> r_end r < start) /\ (forall i r, (i, r) ∈ L2' -> start <= r_end r).
Proof.
  revert L1. induction L2 as [| [i r] L2 IH]; intros L1 Hok Hw H1.
  { exists L1, []. split; [done |]. split; [done |]. split; [done |]. intros i r H. by apply not_elem_of_nil in H. }
  cbn [fmap list_fmap fst skip_below]. rewrite (ok_deref _ _ _ _ Hok (in_mid L1 L2 i r)), bind_Done_l.
  destruct (Z.ltb_spec (r_end r) start) as [Hlt | Hge].
  - replace (L1 ++ (i, r) :: L2) with ((L1 ++ [(i, r)]) ++ L2) in * by (by rewrite <- app_assoc).
    apply IH; [done | done |]. intros j s. rewrite elem_of_app, list_elem_of_singleton.
    intros [H | [= -> ->]]; [by apply (H1 j) | done].
  - exists L1, ((i, r) :: L2). split; [done |]. split; [done |]. split; [done |]. intros j s.
    rewrite elem_of_cons. intros [[= -> ->] | H]; [done |]. apply walk_mid in Hw as (_ & _ & Hw).
    pose proof (walk_in _ _ _ _ _ Hw H). lia.
Qed.

Section Reserve.
Context (kok : nat -> bool) (lo hi start end_ count flags : Z) (dev : option Z).
Hypothesis Hlo : 0 <= lo.
Hypothesis Hhi : hi < 2 ^ 32.
Hypothesis Hstart : 0 <= start.
Hypothesis Hend : 0 <= end_ < 2 ^ 32.
Hypothesis Hcount : 1 <= count.
Hypothesis Hwin : start + count < 2 ^ 32.
Hypothesis Halign : RF_ALIGNMENT flags = 0.

(** Without an alignment the candidate is the window inside the segment. *)
Lemma cand_start_eq s : 0 <= r_start s < 2 ^ 32 -> cand_start s start flags = Z.max (r_start s) start.
Proof.
  intros Hs. unfold cand_start, umax. rewrite Halign. change (Z.shiftl 1 0) with 1.
  change (u64 (1 - 1)) with 0. rewrite Z.ldiff_0_r, !u32_id by (unfold_int; lia).
  rewrite u64_id by (unfold_int; lia). lia.
Qed.

Lemma cand_end_eq s : 0 <= r_end s < 2 ^ 32 -> cand_end s start end_ count = Z.min (r_end s) (Z.max (start + count) end_).
Proof.
  intros Hs. unfold cand_end, umin, umax.
  rewrite u64_id, (u32_id (r_end s)), (u32_id (start + count)), (u32_id end_) by (unfold_int; lia).
  rewrite u32_id by (unfold_int; lia). done.
Qed.

(** What the search for a free segment may answer. *)
Definition reserved_post (rm : rman) (L : segs) (rm' : rman) (o : option nat) : Prop :=
  match o with
  | None => rman_ok rm' L /\
      ((exists n, (rm_next rm <= n < rm_next rm')%nat /\ kok n = false) \/ forall i s, (i, s) ∈ L -> is_alloc s = false -> ~ fits s start end_ count)
  | Some v => exists rstart, start <= rstart /\ rstart + count - 1 <= Z.max (start + count) end_ /\
      carved lo hi L rstart count dev rm' v
  end.

Lemma unshared_loop_spec rm L1 L2 :
  rman_ok rm (L1 ++ L2) -> walk lo (L1 ++ L2) = Some hi -> (forall i r, (i, r) ∈ L2 -> start <= r_end r) ->
  exists u, unshared_loop kok rm (L2.*1) start end_ count flags dev = Done u /\
    match u with
    | None => forall i s, (i, s) ∈ L2 -> is_alloc s = false -> ~ fits s start end_ count
    | Some (rm', o) => reserved_post rm (L1 ++ L2) rm' o
    end.
Proof.
  revert L1. induction L2 as [| [i s] L2 IH]; intros L1 Hok Hw Hge.
  { exists None. split; [done |]. intros i s H. by apply not_elem_of_nil in H. }
  pose proof Hw as (Hw1 & Hw2 & Hw3)%walk_mid. pose proof (walk_in _ _ _ _ _ Hw (in_mid L1 L2 i s)) as Hs.
  assert (start <= r_end s) as Hse by (apply (Hge i); left).
  cbn [fmap list_fmap fst unshared_loop]. rewrite (ok_deref _ _ _ _ Hok (in_mid L1 L2 i s)), bind_Done_l.
  destruct (Z.ltb_spec end_ (r_start s)) as [Hbr | Hin].
  { exists None. split; [done |]. intros j t. rewrite elem_of_cons. unfold fits.
    intros [[= -> ->] | Hj] _; [lia |]. pose proof (walk_in _ _ _ _ _ Hw3 Hj). lia. }
  assert (exists u, unshared_loop kok rm (L2.*1) start end_ count flags dev = Done u /\
    match u with
    | None => forall j t, (j, t) ∈ L2 -> is_alloc t = false -> ~ fits t start end_ count
    | Some (rm', o) => reserved_post rm (L1 ++ (i, s) :: L2) rm' o
    end) as (u & Eu & Hu).
  { replace (L1 ++ (i, s) :: L2) with ((L1 ++ [(i, s)]) ++ L2) in * by (by rewrite <- app_assoc).
    apply IH; [done | done |]. intros j t Hj. apply (Hge j). by right. }
  fold (is_alloc s). destruct (is_alloc s) eqn:Ha.
  { exists u. split; [done |]. destruct u; [done |]. intros j t. rewrite elem_of_cons.
    intros [[= -> ->] | Hj]; [congruence | by apply (Hu j)]. }
  cbv zeta. rewrite cand_start_eq, cand_end_eq by lia.
  set (rstart := Z.max (r_start s) start). set (rend := Z.min (r_end s) (Z.max (start + count) end_)).
  rewrite u64_id by (unfold_int; lia).
  destruct (Z.leb_spec count (rend - rstart + 1)) as [Hfit | Hno].
  - destruct (carve kok rm i s rstart count flags dev) as [rm' o] eqn:Ec. exists (Some (rm', o)). split; [done |].
    apply (carve_spec _ lo hi L1 L2) in Ec; try done; try lia. destruct o as [v |]; simpl.
    + exists rstart. split; [lia |]. split; [lia | done].
    + destruct Ec as [Hok' Hk]. split; [done |]. by left.
  - exists u. split; [done |]. destruct u; [done |]. intros j t. rewrite elem_of_cons.
    intros [[= -> ->] | Hj]; [| by apply (Hu j)]. intros _ [_ Hf]. fold rstart rend in Hf. lia.
Qed.

End Reserve.

(** ** Activating *)

Lemma carved_activate lo hi L rstart count dev rm v :
  carved lo hi L rstart count dev rm v ->
  exists rm', int_rman_activate_resource rm v = Done (rm', 0) /\ carved lo hi L rstart count dev rm' v.
Proof.
  intros (L' & r & Hok & Hw & Hin & H1 & H2 & Ha & Hh & Hd & Hsub & Hf).
  unfold int_rman_activate_resource. rewrite (ok_deref _ _ _ _ Hok Hin), bind_Done_l. cbv zeta. rewrite Hh.
  eexists. split; [reflexivity |]. apply list_elem_of_split in Hin as (A & B & ->).
  set (r' := set_flags r _). assert (is_alloc r' = true) as Ha'.
  { unfold is_alloc in *. rewrite has_alloc in *. unfold r'. simpl. by rewrite odd_lor, Ha. }
  exists (A ++ (v, r') :: B), r'. split; [apply (ok_store _ _ _ _ r); [done | done] |]. split.
  { apply walk_mid in Hw. apply walk_mid. done. }
  split; [apply in_mid |]. split_and!; try done. intros x. rewrite <- Hf, !free_app, !free_cons, Ha, Ha'. done.
Qed.

Lemma land_ldiff f a m : Z.ldiff m a = m -> Z.land (Z.ldiff f a) m = Z.land f m.
Proof.
  intros <-. apply Z.bits_inj'. intros i Hi. rewrite !Z.land_spec, !Z.ldiff_spec by done.
  by destruct (Z.testbit f i), (Z.testbit a i), (Z.testbit m i).
Qed.

Lemma reserve_spec kok lo hi rm L start end_ count flags dev :
  rman_ok rm L -> walk lo L = Some hi -> 0 <= lo -> hi < 2 ^ 32 -> 0 <= start -> 0 <= end_ < 2 ^ 32 -> 1 <= count ->
  start + count < 2 ^ 32 -> RF_ALIGNMENT flags = 0 -> has flags (Z.lor RF_SHAREABLE RF_TIMESHARE) = false ->
  exists rm' o, rman_reserve_resource kok rm start end_ count flags dev = Done (rm', o) /\
    reserved_post kok lo hi start end_ count dev rm L rm' o.
Proof.
  intros Hok Hw Hlo Hhi Hs He Hc Hwin Hal Hsh. unfold rman_reserve_resource. cbv zeta.
  destruct (skip_below_spec rm [] L lo hi start Hok Hw) as (L1 & L2 & EL & Esk & H1 & H2).
  { intros i r H. by apply not_elem_of_nil in H. }
  cbn [app] in EL. subst L. rewrite (ro_list _ _ Hok), Esk, bind_Done_l.
  assert (RF_ALIGNMENT (Z.ldiff flags RF_ACTIVE) = 0) as Hal'.
  { unfold RF_ALIGNMENT in *. by rewrite land_ldiff. }
  destruct (unshared_loop_spec kok lo hi start end_ count (Z.ldiff flags RF_ACTIVE) dev Hlo Hhi Hs He Hc Hwin Hal'
    rm L1 L2 Hok Hw H2) as (u & -> & Hu). rewrite bind_Done_l.
  destruct u as [[rm' [v |]] |].
  - rewrite bind_Done_l. destruct (has flags RF_ACTIVE).
    + destruct Hu as (rstart & Ha & Hb & (rm2 & -> & Hcv)%carved_activate). rewrite bind_Done_l.
      exists rm2, (Some v). split; [done |]. by exists rstart.
    + by exists rm', (Some v).
  - rewrite bind_Done_l. by exists rm', None.
  - assert (has (Z.ldiff flags RF_ACTIVE) (Z.lor RF_SHAREABLE RF_TIMESHARE) = false) as ->.
    { unfold has in *. by rewrite land_ldiff. }
    cbn [negb]. exists rm, None. split; [done |]. split; [done |]. right. intros i s.
    rewrite elem_of_app. intros [Hi | Hi]; [| by apply (Hu i)]. intros _ [_ Hf].
    pose proof (H1 i s Hi). lia.
Qed.

(** ** Releasing *)

Lemma free_prev rm L1 v r L2 :
  rman_ok rm (L1 ++ (v, r) :: L2) ->
  (free_neighbour rm (tailq_prev None v (rm_list rm)) = Done None) \/
  exists A p s, L1 = A ++ [(p, s)] /\ is_alloc s = false /\
    free_neighbour rm (tailq_prev None v (rm_list rm)) = Done (Some (p, s)).
Proof.
  intros Hok. destruct (nodup_mid _ _ _ _ (ro_nodup _ _ Hok)) as (Hn1 & _ & _).
  rewrite (ro_list _ _ Hok), fmap_app. cbn [fmap list_fmap fst]. rewrite tailq_prev_mid by done.
  destruct L1 as [| [p s] A _] using rev_ind; [by left |]. rewrite fmap_app. cbn [fmap list_fmap fst].
  rewrite last_snoc. cbn [free_neighbour].
  rewrite (ok_deref rm _ p s Hok), bind_Done_l by (rewrite <- app_assoc; apply in_mid).
  fold (is_alloc s). destruct (is_alloc s) eqn:E; [by left |]. right. by exists A, p, s.
Qed.

Lemma free_next rm L1 v r L2 :
  rman_ok rm (L1 ++ (v, r) :: L2) ->
  (free_neighbour rm (tailq_next v (rm_list rm)) = Done None) \/
  exists q t B, L2 = (q, t) :: B /\ is_alloc t = false /\
    free_neighbour rm (tailq_next v (rm_list rm)) = Done (Some (q, t)).
Proof.
  intros Hok. destruct (nodup_mid _ _ _ _ (ro_nodup _ _ Hok)) as (Hn1 & _ & _).
  rewrite (ro_list _ _ Hok), fmap_app. cbn [fmap list_fmap fst]. rewrite tailq_next_mid by done.
  destruct L2 as [| [q t] B]; [by left |]. cbn [fmap list_fmap head fst free_neighbour].
  rewrite (ok_deref rm _ q t Hok), bind_Done_l by (rewrite elem_of_app, !elem_of_cons; auto).
  fold (is_alloc t). destruct (is_alloc t) eqn:E; [by left |]. right. by exists q, t, B.
Qed.

(** The manager [rm'] is [L] with the addresses of [r] free again. *)
Definition given_back (lo hi : Z) (L : segs) (r : resource) (rm' : rman) : Prop :=
  exists L', rman_ok rm' L' /\ walk lo L' = Some hi /\ forall x, free L' x = free L x || inside r x.

(** Replacing the segments around [r] by one free segment. *)
Lemma merge_free lo hi A mid (p : nat) s B r x m1 m2 :
  walk lo (A ++ mid ++ B) = Some hi -> is_alloc s = false ->
  walk m1 mid = Some m2 -> r_start s = m1 -> r_end s = m2 - 1 -> m1 < m2 ->
  free mid x || inside r x = inside s x ->
  walk lo (A ++ (p, s) :: B) = Some hi /\ free (A ++ (p, s) :: B) x = free (A ++ mid ++ B) x || inside r x.
Proof.
  intros Hw Hs Hm H1 H2 Hlt Hf. split.
  - rewrite !walk_app in *. destruct (walk lo A) as [m |]; [| done]. cbn [mbind option_bind] in *.
    rewrite walk_app in Hw. destruct (walk m mid) as [m' |] eqn:Em; [| done]. cbn [mbind option_bind] in Hw.
    destruct mid as [| [i t] mid].
    { unfold walk in Hm. injection Hm as ->. lia. }
    pose proof Hm as (E1 & _ & _)%walk_cons. pose proof Em as (E2 & _ & _)%walk_cons.
    assert (m = m1) as -> by lia. rewrite Hm in Em. injection Em as <-. apply walk_cons.
    split; [done |]. split; [lia |]. by replace (r_end s + 1) with m2 by lia.
  - rewrite !free_app, free_cons, Hs. cbn [negb andb]. rewrite <- Hf.
    by destruct (free A x), (free mid x), (inside r x), (free B x).
Qed.

Ltac ranges_in :=
  rewrite ?free_cons; unfold inside; cbn [negb andb orb r_start r_end set_end set_start set_flags free existsb];
  repeat match goal with |- context [?a <=? ?b] => destruct (Z.leb_spec a b) end; cbn; try reflexivity; lia.

Section Release.
Context (lo hi : Z) (rm : rman) (v : nat) (r : resource).
Hypothesis Ha : is_alloc r = true.
Hypothesis Hh : r_sharehead r = None.

(** No neighbour is free. *)
Lemma release_alone L1 L2 :
  rman_ok rm (L1 ++ (v, r) :: L2) -> walk lo (L1 ++ (v, r) :: L2) = Some hi ->
  given_back lo hi (L1 ++ (v, r) :: L2) r (store rm v (set_flags r (Z.ldiff (r_flags r) RF_ALLOCATED))).
Proof.
  intros Hok Hw. set (r' := set_flags r _). assert (is_alloc r' = false) as Ha'.
  { unfold is_alloc. rewrite has_alloc. unfold r'. simpl. rewrite odd_ldiff. by rewrite andb_false_r. }
  exists (L1 ++ (v, r') :: L2). split; [by apply (ok_store _ _ _ _ r) |].
  split; [apply walk_mid in Hw; by apply walk_mid |].
  intros x. rewrite !free_app, !free_cons, Ha, Ha'. unfold r', inside. cbn.
  by destruct (free L1 x), (free L2 x), (r_start r <=? x), (x <=? r_end r).
Qed.

(** The next segment is free. *)
Lemma release_next L1 q t B :
  rman_ok rm (L1 ++ (v, r) :: (q, t) :: B) -> walk lo (L1 ++ (v, r) :: (q, t) :: B) = Some hi -> is_alloc t = false ->
  given_back lo hi (L1 ++ (v, r) :: (q, t) :: B) r
    (let rm := store rm q (set_start t (r_start r)) in
     kfree (set_list rm (tailq_remove v (rm_list rm))) v).
Proof.
  intros Hok Hw Ht. cbv zeta. pose proof (nodup_mid _ _ _ _ (ro_nodup _ _ Hok)) as (Hn1 & Hn2 & _).
  pose proof Hw as (Hw1 & Hr & Hw2)%walk_mid. pose proof Hw2 as (E1 & E2 & E3)%walk_cons.
  set (t' := set_start t (r_start r)).
  assert (rman_ok (store rm q t') (L1 ++ (v, r) :: (q, t') :: B)) as Hok1.
  { replace (L1 ++ (v, r) :: (q, t') :: B) with ((L1 ++ [(v, r)]) ++ (q, t') :: B) by (by rewrite <- app_assoc).
    apply (ok_store _ _ _ _ t); [by rewrite <- app_assoc |]. intros _.
    apply (ro_head _ _ Hok q t); [rewrite elem_of_app, !elem_of_cons; auto | by left]. }
  rewrite (ro_list _ _ Hok1), fmap_app. cbn [fmap list_fmap fst]. rewrite tailq_remove_mid by done.
  exists (L1 ++ (q, t') :: B). split; [exact (ok_remove _ _ ((q, t') :: B) _ _ Hok1) |].
  assert (forall x, walk lo (L1 ++ (q, t') :: B) = Some hi /\
    free (L1 ++ (q, t') :: B) x = free (L1 ++ [(v, r); (q, t)] ++ B) x || inside r x) as Hm.
  { intros x. apply (merge_free _ _ _ _ _ _ _ _ _ (r_start r) (r_end t + 1)); try done;
      try (unfold t'; cbn [r_start r_end set_start]; lia).
    - apply walk_cons. split; [done |]. split; [lia |]. apply walk_cons. split; [done |]. split; [lia | done].
    - rewrite !free_cons, Ha, Ht. unfold t'. ranges_in. }
  split; [apply (Hm 0) | intros x; apply (Hm x)].
Qed.

(** The previous segment is free. *)
Lemma release_prev A p s L2 :
  rman_ok rm (A ++ (p, s) :: (v, r) :: L2) -> walk lo (A ++ (p, s) :: (v, r) :: L2) = Some hi -> is_alloc s = false ->
  given_back lo hi (A ++ (p, s) :: (v, r) :: L2) r
    (let rm := store rm p (set_end s (r_end r)) in
     kfree (set_list rm (tailq_remove v (rm_list rm))) v).
Proof.
  intros Hok Hw Hs. cbv zeta. pose proof Hw as (E1 & E2 & (E3 & E4 & _)%walk_cons)%walk_mid.
  set (s' := set_end s (r_end r)).
  assert (rman_ok (store rm p s') (A ++ (p, s') :: (v, r) :: L2)) as Hok1.
  { apply (ok_store _ _ _ _ s); [done |]. intros _. apply (ro_head _ _ Hok p s); [apply in_mid | by left]. }
  rewrite (ro_list _ _ Hok1).
  replace (A ++ (p, s') :: (v, r) :: L2) with ((A ++ [(p, s')]) ++ (v, r) :: L2) in * by (by rewrite <- app_assoc).
  pose proof (nodup_mid _ _ _ _ (ro_nodup _ _ Hok1)) as (Hn1 & _ & _).
  rewrite fmap_app. cbn [fmap list_fmap fst]. rewrite tailq_remove_mid by exact Hn1.
  exists (A ++ (p, s') :: L2). split.
  { replace (A ++ (p, s') :: L2) with ((A ++ [(p, s')]) ++ L2) by (by rewrite <- app_assoc).
    exact (ok_remove _ _ _ _ _ Hok1). }
  assert (forall x, walk lo (A ++ (p, s') :: L2) = Some hi /\
    free (A ++ (p, s') :: L2) x = free (A ++ [(p, s); (v, r)] ++ L2) x || inside r x) as Hm.
  { intros x. apply (merge_free _ _ _ _ _ _ _ _ _ (r_start s) (r_end r + 1)); try done;
      try (unfold s'; cbn [r_start r_end set_end]; lia).
    - apply walk_cons. split; [done |]. split; [lia |]. apply walk_cons. split; [done |]. split; [lia | done].
    - rewrite !free_cons, Ha, Hs. unfold s'. ranges_in. }
  split; [apply (Hm 0) | intros x; apply (Hm x)].
Qed.

(** Both are. *)
Lemma release_both A p s q t B :
  rman_ok rm (A ++ (p, s) :: (v, r) :: (q, t) :: B) -> walk lo (A ++ (p, s) :: (v, r) :: (q, t) :: B) = Some hi ->
  is_alloc s = false -> is_alloc t = false ->
  given_back lo hi (A ++ (p, s) :: (v, r) :: (q, t) :: B) r
    (let rm := store rm p (set_end s (r_end t)) in
     let rm := set_list rm (tailq_remove q (tailq_remove v (rm_list rm))) in
     kfree (kfree rm q) v).
Proof.
  intros Hok Hw Hs Ht. cbv zeta.
  pose proof Hw as (E1 & E2 & (E3 & E4 & (E5 & E6 & _)%walk_cons)%walk_cons)%walk_mid.
  set (s' := set_end s (r_end t)).
  assert (rman_ok (store rm p s') (A ++ (p, s') :: (v, r) :: (q, t) :: B)) as Hok1.
  { apply (ok_store _ _ _ _ s); [done |]. intros _. apply (ro_head _ _ Hok p s); [apply in_mid | by left]. }
  rewrite (ro_list _ _ Hok1).
  replace (A ++ (p, s') :: (v, r) :: (q, t) :: B) with ((A ++ [(p, s')]) ++ (v, r) :: (q, t) :: B) in *
    by (by rewrite <- app_assoc).
  pose proof (nodup_mid _ _ _ _ (ro_nodup _ _ Hok1)) as (Hn1 & _ & _).
  rewrite fmap_app. cbn [fmap list_fmap fst]. rewrite tailq_remove_mid by exact Hn1.
  replace ((A ++ [(p, s')]) ++ (v, r) :: (q, t) :: B) with (((A ++ [(p, s')]) ++ [(v, r)]) ++ (q, t) :: B) in Hok1
    by (by rewrite <- app_assoc).
  pose proof (nodup_mid _ _ _ _ (ro_nodup _ _ Hok1)) as (Hq & _ & _).
  rewrite tailq_remove_mid by (rewrite fmap_app, elem_of_app in Hq; tauto).
  exists (A ++ (p, s') :: B). split.
  { pose proof (ok_remove _ _ _ _ _ Hok1) as Hok2. rewrite <- (app_assoc (A ++ [(p, s')])) in Hok2. cbn [app] in Hok2.
    pose proof (ok_remove _ _ _ _ _ Hok2) as Hok3. rewrite <- (app_assoc A [(p, s')] B) in Hok3. exact Hok3. }
  assert (forall x, walk lo (A ++ (p, s') :: B) = Some hi /\
    free (A ++ (p, s') :: B) x = free (A ++ [(p, s); (v, r); (q, t)] ++ B) x || inside r x) as Hm.
  { intros x. apply (merge_free _ _ _ _ _ _ _ _ _ (r_start s) (r_end t + 1)); try done;
      try (unfold s'; cbn [r_start r_end set_end]; lia).
    - apply walk_cons. split; [done |]. split; [lia |]. apply walk_cons. split; [done |]. split; [lia |].
      apply walk_cons. split; [done |]. split; [lia | done].
    - rewrite !free_cons, Ha, Hs, Ht. unfold s'. ranges_in. }
  split; [apply (Hm 0) | intros x; apply (Hm x)].
Qed.

End Release.

(** Deactivation changes only the flags of the resource. *)
Lemma deactivate_spec rm L1 v r L2 :
  rman_ok rm (L1 ++ (v, r) :: L2) -> is_alloc r = true ->
  exists f, (if has (r_flags r) RF_ACTIVE then int_rman_deactivate_resource rm v else mret rm) =
      Done (if has (r_flags r) RF_ACTIVE then store rm v (set_flags r f) else rm) /\
    is_alloc (set_flags r f) = true.
Proof.
  intros Hok Ha. unfold int_rman_deactivate_resource. rewrite (ok_deref _ _ _ _ Hok (in_mid _ _ _ _)), bind_Done_l. cbv zeta.
  eexists. split; [destruct (has (r_flags r) RF_ACTIVE); reflexivity |].
  unfold is_alloc in *. rewrite has_alloc in *. cbn [r_flags set_flags].
  destruct (has (Z.ldiff (r_flags r) RF_ACTIVE) RF_WANTED); rewrite !odd_ldiff, Ha; done.
Qed.

Lemma release_spec lo hi rm L v r :
  rman_ok rm L -> walk lo L = Some hi -> ((v, r) ∈ L) -> is_alloc r = true -> r_sharehead r = None ->
  exists rm', int_rman_release_resource rm v = Done rm' /\ given_back lo hi L r rm'.
Proof.
  intros Hok Hw (L1 & L2 & ->)%list_elem_of_split Ha Hh. unfold int_rman_release_resource.
  rewrite (ok_deref _ _ _ _ Hok (in_mid _ _ _ _)), bind_Done_l.
  destruct (deactivate_spec _ _ _ _ _ Hok Ha) as (f & -> & Hf). rewrite bind_Done_l.
  assert (exists rm1 r1, (if has (r_flags r) RF_ACTIVE then store rm v (set_flags r f) else rm) = rm1 /\
    rman_ok rm1 (L1 ++ (v, r1) :: L2) /\ is_alloc r1 = true /\ r_sharehead r1 = None /\
    r_start r1 = r_start r /\ r_end r1 = r_end r) as (rm1 & r1 & -> & Hok1 & Ha1 & Hh1 & Es & Ee).
  { destruct (has (r_flags r) RF_ACTIVE); [| by exists rm, r].
    exists (store rm v (set_flags r f)), (set_flags r f). split; [done |].
    split; [apply (ok_store _ _ _ _ r); [done | done] | done]. }
  rewrite (ok_deref _ _ _ _ Hok1 (in_mid _ _ _ _)), bind_Done_l, Hh1.
  assert (walk lo (L1 ++ (v, r1) :: L2) = Some hi) as Hw1.
  { apply walk_mid in Hw. apply walk_mid. by rewrite Es, Ee. }
  assert (forall rm', given_back lo hi (L1 ++ (v, r1) :: L2) r1 rm' -> given_back lo hi (L1 ++ (v, r) :: L2) r rm') as Hgb.
  { intros rm' (L' & Hok' & Hw' & Hx). exists L'. split; [done |]. split; [done |]. intros x. rewrite Hx.
    rewrite !free_app, !free_cons, Ha, Ha1. unfold inside. by rewrite Es, Ee. }
  destruct (free_prev rm1 L1 v r1 L2 Hok1) as [-> | (A & p & s & -> & Hs & ->)];
    (destruct (free_next rm1 _ v r1 L2 Hok1) as [-> | (q & t & B & -> & Ht & ->)]); rewrite !bind_Done_l;
    (eexists; split; [reflexivity |]); apply Hgb.
  - by apply release_alone.
  - by apply release_next.
  - rewrite <- app_assoc in *. by apply release_prev.
  - rewrite <- app_assoc in *. by apply release_both.
Qed.

End Excl.
