(* ===== verification/RmanProps.v ===== *)
(** * Resource reservation against its specification

    A reservation takes a run of free addresses inside the requested window
    out of the free addresses, a release gives exactly the addresses of the
    resource back, and no two resources overlap. *)

From stdpp Require Import prelude list strings gmap.
From S2P Require Import Prelude.
From S2P Require Import Tailq.
From S2P Require Import Rman.
From S2P Require Import RmanLemmas.
Open Scope Z_scope.

(** What a request may ask for: no alignment and no sharing, and addresses
    below 2^32. *)
Record exclusive_request (start end_ count flags : Z) : Prop := {
  eq_start : 0 <= start;
  eq_end : 0 <= end_ < 2 ^ 32;
  eq_count : 1 <= count;
  eq_window : start + count < 2 ^ 32;
  eq_align : RF_ALIGNMENT flags = 0;
  eq_share : has flags (Z.lor RF_SHAREABLE RF_TIMESHARE) = false
}.

(** A manager of the addresses from [lo] up to [hi - 1]. *)
Definition manages (X : Prop) (lo hi : Z) (rm : rman) (L : segs) : Prop :=
  rman_ok X rm L /\ walk lo L = Some hi /\ 0 <= lo /\ hi < 2 ^ 32.

Lemma reserve_manages X kok lo hi rm L start end_ count flags dev :
  manages X lo hi rm L -> exclusive_request start end_ count flags ->
  exists rm' o, rman_reserve_resource kok rm start end_ count flags dev = Done (rm', o) /\
    reserved_post X kok lo hi start end_ count dev rm L rm' o.
Proof. intros (Hok & Hw & Hlo & Hhi) []. by apply reserve_spec. Qed.

(** ** Clients *)

(** The managers that clients can make of one that manages [lo, hi - 1]: by
    exclusive requests, and by releasing what is allocated. *)
Inductive rman_reach (kok : nat -> bool) (lo hi : Z) : rman -> Prop :=
  | rr_init rm rm' : rman_init kok RMAN_ARRAY = Done (inr rm) ->
      rman_manage_region kok rm lo (hi - 1) = Done (rm', 0) -> rman_reach kok lo hi rm'
  | rr_reserve rm start end_ count flags dev rm' o :
      rman_reach kok lo hi rm -> exclusive_request start end_ count flags ->
      rman_reserve_resource kok rm start end_ count flags dev = Done (rm', o) -> rman_reach kok lo hi rm'
  | rr_release rm v r rm' :
      rman_reach kok lo hi rm -> (v ∈ rm_list rm) -> deref rm v = Done r -> is_alloc r = true ->
      int_rman_release_resource rm v = Done rm' -> rman_reach kok lo hi rm'.

Lemma in_rm_list X rm L v r : rman_ok X rm L -> (v ∈ rm_list rm) -> deref rm v = Done r -> ((v, r) ∈ L).
Proof.
  intros Hok Hv Hd. rewrite (ro_list _ _ _ Hok) in Hv. apply list_elem_of_fmap in Hv as ([i s] & -> & Hin).
  simpl in Hd. rewrite (ok_deref _ _ _ _ _ Hok Hin) in Hd. by injection Hd as <-.
Qed.

Lemma manage_first kok lo hi rm rm' :
  0 <= lo < hi -> hi < 2 ^ 32 -> rman_init kok RMAN_ARRAY = Done (inr rm) ->
  rman_manage_region kok rm lo (hi - 1) = Done (rm', 0) ->
  manages True lo hi rm' [(1%nat, Resource lo (hi - 1) 0 None None)].
Proof.
  intros Hlo Hhi Hi. unfold rman_init in Hi. destruct (kok 0%nat); [| done]. injection Hi as <-.
  unfold rman_manage_region, kmalloc. simpl. destruct (kok 1%nat); [| discriminate]. intros [= <-].
  split; [| split; [| lia]].
  - constructor; simpl.
    + done.
    + apply NoDup_singleton.
    + intros i r [= -> ->]%list_elem_of_singleton. apply lookup_insert_eq.
    + intros i r [[<- _] | [_ H]]%lookup_insert_Some; [lia |]. by rewrite lookup_empty in H.
    + intros i r [= -> ->]%list_elem_of_singleton. done.
  - apply walk_cons. simpl. split; [done |]. split; [lia |]. unfold walk. f_equal. lia.
Qed.

Lemma reach_manages kok lo hi rm :
  0 <= lo < hi -> hi < 2 ^ 32 -> rman_reach kok lo hi rm -> exists L, manages True lo hi rm L.
Proof.
  intros Hlo Hhi. induction 1 as [rm rm' Hi Hm | rm start end_ count flags dev rm' o _ [L HL] Hreq Hrun
    | rm v r rm' _ [L HL] Hv Hd Ha Hrun].
  - eexists. by eapply manage_first.
  - destruct (reserve_manages _ kok lo hi rm L start end_ count flags dev HL Hreq) as (rm1 & o1 & E & Hpost).
    rewrite Hrun in E. injection E as <- <-. destruct HL as (_ & Hw & Hb). destruct o as [v |].
    + destruct Hpost as (rstart & _ & _ & L' & r & Hok' & Hw' & _). by exists L'.
    + destruct Hpost as [Hok' _]. by exists L.
  - destruct HL as (Hok & Hw & Hb). pose proof (in_rm_list _ _ _ _ _ Hok Hv Hd) as Hin.
    destruct (release_spec True lo hi rm L v r Hok Hw Hin Ha) as (rm1 & E & L' & Hok' & Hw' & _).
    { apply (ro_head _ _ _ Hok v r Hin). by right. }
    rewrite Hrun in E. injection E as <-. by exists L'.
Qed.

(** Two segments with a common address are the same. *)
Lemma walk_disjoint lo L hi i r j t x :
  walk lo L = Some hi -> ((i, r) ∈ L) -> ((j, t) ∈ L) -> inside r x = true -> inside t x = true -> (i, r) = (j, t).
Proof.
  intros Hw (L1 & L2 & ->)%list_elem_of_split Hj Hr%inside_spec Ht%inside_spec.
  pose proof Hw as (H1 & H2 & H3)%walk_mid. rewrite elem_of_app, elem_of_cons in Hj.
  destruct Hj as [Hj | [-> | Hj]]; [| done |].
  - pose proof (walk_in _ _ _ _ _ H1 Hj). lia.
  - pose proof (walk_in _ _ _ _ _ H3 Hj). lia.
Qed.

(** Every managed address is in a segment. *)
Lemma walk_cover lo L hi x : walk lo L = Some hi -> lo <= x < hi -> exists i r, ((i, r) ∈ L) /\ inside r x = true.
Proof.
  revert lo. induction L as [| [i r] L IH]; intros lo Hw Hx.
  { unfold walk in Hw. injection Hw as ->. lia. }
  apply walk_cons in Hw as (H1 & H2 & H3). destruct (Z.le_gt_cases x (r_end r)).
  - exists i, r. split; [left | apply inside_spec; lia].
  - destruct (IH _ H3) as (j & t & Hj & Ht); [lia |]. exists j, t. split; [by right | done].
Qed.

(** ** Properties *)

Definition kok : nat -> bool := fun _ => true.

(** A manager of the addresses 0 to 99 with 10 to 19 reserved. *)
Definition rm_new : rman := Eval vm_compute in
  match rman_init kok RMAN_ARRAY with
  | Done (inr rm) => match rman_manage_region kok rm 0 99 with Done (rm, _) => rm | Fault _ => rm end
  | _ => Rman [] ∅ ∅ 0
  end.

Definition rm_one : rman := Eval vm_compute in
  match rman_reserve_resource kok rm_new 10 19 10 0 (Some 7) with Done (rm, _) => rm | Fault _ => rm_new end.

Lemma reach_new : rman_reach kok 0 100 rm_new.
Proof. eapply rr_init; [reflexivity | by vm_compute]. Qed.

Lemma request_10_19 : exclusive_request 10 19 10 0.
Proof. constructor; done. Qed.

Lemma reach_one : rman_reach kok 0 100 rm_one.
Proof. apply (rr_reserve kok 0 100 rm_new 10 19 10 0 (Some 7) rm_one (Some 2%nat)); [apply reach_new | apply request_10_19 | by vm_compute]. Qed.



(** [count] addresses of the segment lie in the window. *)
Definition room (s : resource) (start end_ count : Z) : Prop := Z.max (r_start s) start + count - 1 <= Z.min (r_end s) end_.



(** rman_release_resource of a resource that is not shared gives exactly
    its addresses back, merging free neighbours. *)
Theorem rman_release_correct X lo hi rm L v r :
  manages X lo hi rm L -> ((v, r) ∈ L) -> is_alloc r = true -> r_sharehead r = None ->
  exists rm' L', int_rman_release_resource rm v = Done rm' /\ manages X lo hi rm' L' /\
    forall x, free L' x = free L x || inside r x.
Proof.
  intros (Hok & Hw & Hb) Hin Ha Hh. destruct (release_spec X lo hi rm L v r Hok Hw Hin Ha Hh) as (rm' & E & L' & ? & ? & ?).
  by exists rm', L'.
Qed.

Lemma rman_release_correct_witness : exists rm', int_rman_release_resource rm_one 2 = Done rm' /\ rm_list rm' = [1%nat].
Proof.
  destruct (reach_manages kok 0 100 rm_one) as (L & HL); [lia | lia | apply reach_one |].
  assert ((2%nat, Resource 10 19 1 (Some 7) None) ∈ L) as Hin.
  { apply (in_rm_list True rm_one); [apply HL | vm_compute; set_solver | reflexivity]. }
  destruct (rman_release_correct True 0 100 rm_one L 2 _ HL Hin) as (rm' & L' & E & _); [reflexivity | reflexivity |].
  exists rm'. split; [exact E |]. vm_compute in E. injection E as <-. reflexivity.
Defined.

(** Time sharing.  Activating a resource that others share succeeds only
    if none of them is active, so at most one sharer is active; otherwise the
    answer is EBUSY and nothing changes. *)
Theorem rman_timeshare_exclusive rm v r h l :
  deref rm v = Done r -> r_sharehead r = Some h -> rm_heads rm !! h = Some l ->
  has (r_flags r) RF_TIMESHARE = true -> has (r_flags r) RF_ACTIVE = false ->
  (forall i, (i ∈ l) -> exists s, deref rm i = Done s) ->
  exists rm' e, int_rman_activate_resource rm v = Done (rm', e) /\
    ((e = EBUSY /\ rm' = rm /\ exists i s, (i ∈ l) /\ deref rm i = Done s /\ has (r_flags s) RF_ACTIVE = true) \/
     (e = 0 /\ rm' = store rm v (set_flags r (Z.lor (r_flags r) RF_ACTIVE)) /\
      forall i s, (i ∈ l) -> deref rm i = Done s -> has (r_flags s) RF_ACTIVE = false)).
Proof.
  intros Hd Hh Hl Ht Hac Hall. unfold int_rman_activate_resource. rewrite Hd, bind_Done_l. cbv zeta.
  rewrite Hh, Ht, Hac, Hl. cbn [negb orb].
  assert (exists b, any_active rm l = Done b /\
    if b then exists i s, (i ∈ l) /\ deref rm i = Done s /\ has (r_flags s) RF_ACTIVE = true
    else forall i s, (i ∈ l) -> deref rm i = Done s -> has (r_flags s) RF_ACTIVE = false) as (b & -> & Hb).
  { clear Hl. induction l as [| i l IH].
    { exists false. split; [done |]. intros i s H. by apply not_elem_of_nil in H. }
    destruct (Hall i) as [s Hs]; [left |]. cbn [any_active]. rewrite Hs, bind_Done_l.
    destruct (has (r_flags s) RF_ACTIVE) eqn:E.
    - exists true. split; [done |]. exists i, s. split; [left | done].
    - destruct IH as (b & -> & Hb). { intros j Hj. apply Hall. by right. }
      exists b. split; [done |]. destruct b.
      + destruct Hb as (j & t & Hj & ?). exists j, t. split; [by right | done].
      + intros j t [-> | Hj]%elem_of_cons Ht'; [congruence | by apply (Hb j)]. }
  rewrite bind_Done_l. destruct b; eexists _, _; (split; [reflexivity |]); [left | right]; done.
Qed.

Definition rm_shared : rman :=
  Rman [1%nat] {[1%nat := Resource 0 9 (RF_ALLOCATED + RF_TIMESHARE + RF_FIRSTSHARE) None (Some 3%nat);
                 2%nat := Resource 0 9 (RF_ALLOCATED + RF_TIMESHARE) None (Some 3%nat)]}
    {[3%nat := [2%nat; 1%nat]]} 4.

Lemma rman_timeshare_exclusive_witness :
  exists rm', int_rman_activate_resource rm_shared 2 = Done (rm', 0) /\
    int_rman_activate_resource rm' 1 = Done (rm', EBUSY).
Proof.
  destruct (rman_timeshare_exclusive rm_shared 2 (Resource 0 9 (RF_ALLOCATED + RF_TIMESHARE) None (Some 3%nat)) 3
    [2%nat; 1%nat]) as (rm' & e & E & _); [reflexivity | reflexivity | reflexivity | reflexivity | reflexivity | |].
  { intros i [-> | [-> | []%not_elem_of_nil]%elem_of_cons]%elem_of_cons; eexists; reflexivity. }
  vm_compute in E. injection E as <- <-. eexists. split; [vm_compute; reflexivity | vm_compute; reflexivity].
Defined.

(** ** Several regions *)

(** Segments in ascending order, from [lo] on, with gaps. *)
Fixpoint ascending (lo : Z) (L : segs) : Prop :=
  match L with
  | [] => True
  | (_, r) :: L => lo <= r_start r <= r_end r /\ ascending (r_end r + 1) L
  end.

Lemma ascending_mono lo lo' L : lo' <= lo -> ascending lo L -> ascending lo' L.
Proof. destruct L as [| [i r] L]; simpl; [done |]. intros. split; [lia | tauto]. Qed.

(** A new segment between the ones below it and the ones above it. *)
Lemma ascending_insert lo L1 L2 v r :
  ascending lo (L1 ++ L2) -> lo <= r_start r <= r_end r -> (forall i s, (i, s) ∈ L1 -> r_end s < r_start r) ->
  match L2 with [] => True | (_, s) :: _ => r_end r < r_start s end -> ascending lo (L1 ++ (v, r) :: L2).
Proof.
  revert lo. induction L1 as [| [i s] L1 IH]; intros lo Ha Hr H1 H2; cbn [app ascending] in *.
  - split; [done |]. destruct L2 as [| [j t] L2]; [done |]. cbn [ascending] in *. split; [lia | tauto].
  - destruct Ha as [Hs Ha]. split; [done |]. apply IH; [done | | | done].
    + assert (r_end s < r_start r) by (apply (H1 i); left). lia.
    + intros j t Hj. apply (H1 j). by right.
Qed.

Lemma skip_below_split X rm L0 L start :
  rman_ok X rm (L0 ++ L) ->
  exists L1 L2, L = L1 ++ L2 /\ skip_below rm start (L.*1) = Done (L2.*1) /\
    (forall i s, (i, s) ∈ L1 -> r_end s < start) /\
    match L2 with [] => True | (_, s) :: _ => start <= r_end s end.
Proof.
  revert L0. induction L as [| [i r] L IH]; intros L0 Hok.
  { exists [], []. split; [done |]. split; [done |]. split; [| done]. intros i s H. by apply not_elem_of_nil in H. }
  cbn [fmap list_fmap fst skip_below]. rewrite (ok_deref _ _ _ _ _ Hok (in_mid L0 L i r)), bind_Done_l.
  destruct (Z.ltb_spec (r_end r) start) as [Hlt | Hge].
  - replace (L0 ++ (i, r) :: L) with ((L0 ++ [(i, r)]) ++ L) in Hok by (by rewrite <- app_assoc).
    destruct (IH _ Hok) as (L1 & L2 & -> & E & H1 & H2). exists ((i, r) :: L1), L2.
    split; [done |]. split; [done |]. split; [| done]. intros j s [[= -> ->] | Hj]%elem_of_cons; [done | by apply (H1 j)].
  - exists [], ((i, r) :: L). split; [done |]. split; [done |]. split; [| done]. intros j s H. by apply not_elem_of_nil in H.
Qed.

(** rman_manage_region of a region that overlaps no segment adds it to
    the free addresses and keeps the list sorted by address; when kmalloc
    fails the answer is ENOMEM and the segments are unchanged. *)
Theorem rman_manage_correct X kmalloc_ok lo rm L start end_ :
  rman_ok X rm L -> ascending lo L -> lo <= start <= end_ ->
  (forall i s, (i, s) ∈ L -> r_end s < start \/ end_ < r_start s) ->
  exists rm' e, rman_manage_region kmalloc_ok rm start end_ = Done (rm', e) /\
    ((e = ENOMEM /\ rman_ok X rm' L) \/
     (e = 0 /\ exists L', rman_ok X rm' L' /\ ascending lo L' /\
      forall x, free L' x = free L x || ((start <=? x) && (x <=? end_)))).
Proof.
  intros Hok Has Hr Hdis. unfold rman_manage_region.
  destruct (kmalloc kmalloc_ok rm _) as [rm1 [v |]] eqn:Ek; destruct (ok_kmalloc _ _ _ _ _ _ _ Hok Ek) as (Hok1 & _ & Hv).
  2:{ eexists _, _. split; [reflexivity |]. by left. }
  destruct Hv as (Hv & Hh & _). set (r := Resource start end_ 0 None None) in *.
  destruct (skip_below_split X rm1 [] L start Hok1) as (L1 & L2 & -> & E & H1 & H2).
  rewrite (ro_list _ _ _ Hok1), E, bind_Done_l. eexists _, _. split; [reflexivity |]. right. split; [done |].
  exists (L1 ++ (v, r) :: L2). split; [| split].
  - pose proof (ok_insert X rm1 L1 L2 v r Hok1 Hv Hh ltac:(done)) as Hok2. destruct L2 as [| [j s] L2].
    + rewrite app_nil_r. cbn [fmap list_fmap] in Hok2 |- *. done.
    + cbn [fmap list_fmap fst]. rewrite fmap_app. cbn [fmap list_fmap fst].
      destruct (nodup_mid _ _ _ _ (ro_nodup _ _ _ Hok1)) as (Hj & _ & _).
      rewrite insert_before_mid by done. exact Hok2.
  - apply ascending_insert; try done. destruct L2 as [| [j s] L2]; [done |].
    destruct (Hdis j s) as [? | ?]; [apply in_mid | lia | done].
  - intros x. rewrite !free_app, free_cons. change (is_alloc r) with false. unfold inside. cbn [r_start r_end r].
    by destruct (free L1 x), (free L2 x), ((start <=? x) && (x <=? end_)).
Qed.

Lemma rman_manage_correct_witness :
  exists rm', rman_manage_region kok rm_new 200 299 = Done (rm', 0) /\ rm_list rm' = [1%nat; 2%nat].
Proof.
  destruct (rman_manage_correct True kok 0 rm_new [(1%nat, Resource 0 99 0 None None)] 200 299) as (rm' & e & E & _).
  - apply (manage_first kok 0 100 (Rman [] ∅ ∅ 1)); [lia | lia | reflexivity | by vm_compute].
  - simpl. split; [lia | done].
  - lia.
  - intros i s [= -> ->]%list_elem_of_singleton. left. simpl. lia.
  - vm_compute in E. injection E as <- <-. eexists. split; [vm_compute; reflexivity | reflexivity].
Defined.

(** rman_fini refuses with EBUSY, changing nothing, exactly while a
    segment is allocated; otherwise it empties the manager. *)
Theorem rman_fini_correct X rm L :
  rman_ok X rm L ->
  exists rm' e, rman_fini rm = Done (rm', e) /\
    if existsb (fun '(_, r) => is_alloc r) L then e = EBUSY /\ rm' = rm
    else e = 0 /\ rm_list rm' = [] /\ forall i r, (i, r) ∈ L -> rm_heap rm' !! i = None.
Proof.
  intros Hok. unfold rman_fini.
  assert (forall L0 L1, L = L0 ++ L1 -> any_allocated rm (L1.*1) = Done (existsb (fun '(_, r) => is_alloc r) L1)) as Hany.
  { intros L0 L1. revert L0. induction L1 as [| [i r] L1 IH]; intros L0 EL; [done |].
    subst L. cbn [fmap list_fmap fst any_allocated existsb].
    rewrite (ok_deref _ _ _ _ _ Hok (in_mid L0 L1 i r)), bind_Done_l. fold (is_alloc r).
    destruct (is_alloc r); [done |]. apply (IH (L0 ++ [(i, r)])). by rewrite <- app_assoc. }
  rewrite (ro_list _ _ _ Hok), (Hany [] L eq_refl), bind_Done_l.
  destruct (existsb _ L); [by eexists _, _ |]. eexists _, _. split; [reflexivity |]. split; [done |].
  assert (forall l rm0, rm_list rm0 = l -> rm_list (free_all rm0 l) = [] /\
    (forall i, rm_heap rm0 !! i = None -> rm_heap (free_all rm0 l) !! i = None) /\
    forall i, i ∈ l -> rm_heap (free_all rm0 l) !! i = None) as Hfree.
  { induction l as [| s l IH]; intros rm0 E; cbn [free_all].
    { split; [done |]. split; [done |]. intros i H. by apply not_elem_of_nil in H. }
    destruct (IH (kfree (set_list rm0 l) s)) as (H1 & H2 & H3); [done |]. split; [done |]. split.
    - intros i Hi. apply H2. simpl. by apply lookup_delete_None; right.
    - intros i [-> | Hi]%elem_of_cons; [apply H2; simpl; apply lookup_delete_eq | by apply H3]. }
  destruct (Hfree (L.*1) rm (ro_list _ _ _ Hok)) as (H1 & _ & H3). split; [done |].
  intros i r Hi. apply H3. by eapply in_fst.
Qed.

Lemma rman_fini_correct_witness : rman_fini rm_one = Done (rm_one, EBUSY).
Proof.
  destruct (reach_manages kok 0 100 rm_one) as (L & HL); [lia | lia | apply reach_one |].
  destruct (rman_fini_correct True rm_one L (proj1 HL)) as (rm' & e & E & _).
  rewrite E. vm_compute in E. injection E as <- <-. reflexivity.
Defined.

(** ** Where the code does not do what it is meant to *)

(** The segments of a manager: first and last address, and flags. *)
Definition seg_list (rm : rman) : list (Z * Z * Z) :=
  omap (fun i => r ← rm_heap rm !! i; Some (r_start r, r_end r, r_flags r)) (rm_list rm).

Definition region (start end_ : Z) : rman :=
  Rman [1%nat] {[1%nat := Resource start end_ 0 None None]} ∅ 2.

(** A request for 4 addresses with an alignment of 16 from a manager of the
    addresses 1 to 9 gets the addresses 16 to 19: when the aligned start is
    behind the end of the segment, rend - rstart + 1 wraps around. *)
Theorem rman_align_outside :
  exists rm', rman_reserve_resource kok (region 1 9) 1 9 4 (Z.shiftl 4 10) None = Done (rm', Some 2%nat) /\
    seg_list rm' = [(1, 15, 0); (16, 19, 4097)].
Proof. eexists. split; vm_compute; reflexivity. Qed.

(** A request for exactly the addresses 4 to 13 gets 5 to 14: the end of the
    window is taken as start + count. *)
Theorem rman_exact_request_moved :
  exists rm', rman_reserve_resource kok (region 5 20) 4 13 10 0 None = Done (rm', Some 2%nat) /\
    seg_list rm' = [(5, 14, 1); (15, 20, 0)].
Proof. eexists. split; vm_compute; reflexivity. Qed.

(** A segment that is released keeps RF_SHAREABLE, so a later exclusive
    reservation of it can be shared. *)
Theorem rman_stale_shareable :
  ('(rm, v1) ← rman_reserve_resource kok (region 0 9) 0 9 10 RF_SHAREABLE (Some 1);
   rm ← int_rman_release_resource rm 1;
   '(rm, v2) ← rman_reserve_resource kok rm 0 9 10 0 (Some 2);
   '(rm, v3) ← rman_reserve_resource kok rm 0 9 10 RF_SHAREABLE (Some 3);
   mret (v1, v2, v3)) = Done (Some 1%nat, Some 1%nat, Some 2%nat).
Proof. vm_compute. reflexivity. Qed.

(** Releasing a resource merges it with the next segment of the list, also
    when that is another region: the addresses in between, which nobody gave
    to the manager, can then be reserved. *)
Theorem rman_release_merges_gap :
  ('(rm, _) ← rman_manage_region kok (region 0 9) 100 109;
   '(rm, _) ← rman_reserve_resource kok rm 0 9 10 0 None;
   rm ← int_rman_release_resource rm 1;
   '(rm, v) ← rman_reserve_resource kok rm 50 59 10 0 None;
   mret (v, seg_list rm)) = Done (Some 3%nat, [(0, 49, 0); (50, 59, 1); (60, 109, 0)]).
Proof. vm_compute. reflexivity. Qed.

(** Addresses from 2^32 on: the window is computed in u_int, and the resource
    lies below the region. *)
Theorem rman_window_truncated :
  exists rm', rman_reserve_resource kok (region (2 ^ 32) (2 ^ 32 + 9)) (2 ^ 32) (2 ^ 32 + 9) 5 0 None = Done (rm', Some 2%nat) /\
    seg_list rm' = [(2 ^ 32, 2 ^ 64 - 1, 0); (0, 4, 1)].
Proof. eexists. split; vm_compute; reflexivity. Qed.

(** The loop of rman_make_alignment_flags starts with 1 << 32. *)
Theorem rman_alignment_flags_undefined size : rman_make_alignment_flags size = Fault UndefinedShift.
Proof. reflexivity. Qed.
