(* ===== verification/Lockf.v ===== *)
(** * Advisory byte-range locks: sys/kern/kern_lockf.c

    A vnode has a lockf structure with the ranges that are locked, sorted by
    their first byte, and the requests that wait.  A range is an object that
    is known by number and lives in a heap, so that the lists and the local
    pointers of lf_setlock refer to the same object; a use of a freed one is a
    fault.  A process that sleeps in lf_setlock is a value of type [sleeper],
    which has its local variables. *)

From stdpp Require Import prelude list strings gmap.
From S2P Require Import Prelude.
From S2P Require Import Tailq.
Open Scope Z_scope.

Definition EDEADLK : Z := 11.
Definition EINVAL : Z := 22.
Definition EAGAIN : Z := 35.
Definition ENOLCK : Z := 77.

Definition F_GETLK : Z := 7.
Definition F_SETLK : Z := 8.
Definition F_RDLCK : Z := 1.
Definition F_UNLCK : Z := 2.
Definition F_WRLCK : Z := 3.
Definition F_WAIT : Z := 16.
Definition F_POSIX : Z := 64.
Definition F_NOEND : Z := 128.

Definition SEEK_SET : Z := 0.
Definition SEEK_CUR : Z := 1.
Definition SEEK_END : Z := 2.

Definition LLONG_MAX : Z := 2 ^ 63 - 1.

(** struct lockf_range; the owner is the address of a process (POSIX locks) or
    of an open file (flock), or NULL. *)
Record lockf_range := LockfRange {
  lf_type : Z;
  lf_flags : Z;
  lf_start : Z;
  lf_end : Z;
  lf_owner : option nat
}.

Definition set_flags (r : lockf_range) (v : Z) : lockf_range :=
  LockfRange (lf_type r) v (lf_start r) (lf_end r) (lf_owner r).
Definition set_start (r : lockf_range) (v : Z) : lockf_range :=
  LockfRange (lf_type r) (lf_flags r) v (lf_end r) (lf_owner r).
Definition set_end (r : lockf_range) (v : Z) : lockf_range :=
  LockfRange (lf_type r) (lf_flags r) (lf_start r) v (lf_owner r).

(** struct lockf, with the memory of the ranges, the counters of POSIX locks
    per user and per process, the VMAYHAVELOCKS flag of the vnode, and the calls
    of wakeup() that were made, on the ranges that are the wait channels. *)
Record lockf := Lockf {
  lf_range : list nat;
  lf_blocked : list nat;
  init_done : bool;
  lf_heap : gmap nat lockf_range;
  lf_next : nat;
  ui_posixlocks : gmap nat Z;
  p_numposixlocks : gmap nat Z;
  v_mayhavelocks : bool;
  lf_wakeups : list nat
}.

Definition set_range (lk : lockf) (l : list nat) : lockf :=
  Lockf l (lf_blocked lk) (init_done lk) (lf_heap lk) (lf_next lk)
    (ui_posixlocks lk) (p_numposixlocks lk) (v_mayhavelocks lk) (lf_wakeups lk).
Definition set_blocked (lk : lockf) (l : list nat) : lockf :=
  Lockf (lf_range lk) l (init_done lk) (lf_heap lk) (lf_next lk)
    (ui_posixlocks lk) (p_numposixlocks lk) (v_mayhavelocks lk) (lf_wakeups lk).
Definition set_heap (lk : lockf) (h : gmap nat lockf_range) : lockf :=
  Lockf (lf_range lk) (lf_blocked lk) (init_done lk) h (lf_next lk)
    (ui_posixlocks lk) (p_numposixlocks lk) (v_mayhavelocks lk) (lf_wakeups lk).
Definition set_counts (lk : lockf) (u p : gmap nat Z) : lockf :=
  Lockf (lf_range lk) (lf_blocked lk) (init_done lk) (lf_heap lk) (lf_next lk)
    u p (v_mayhavelocks lk) (lf_wakeups lk).
Definition set_mayhave (lk : lockf) (b : bool) : lockf :=
  Lockf (lf_range lk) (lf_blocked lk) (init_done lk) (lf_heap lk) (lf_next lk)
    (ui_posixlocks lk) (p_numposixlocks lk) b (lf_wakeups lk).

(** wakeup(range) *)
Definition wakeup (lk : lockf) (range : nat) : lockf :=
  Lockf (lf_range lk) (lf_blocked lk) (init_done lk) (lf_heap lk) (lf_next lk)
    (ui_posixlocks lk) (p_numposixlocks lk) (v_mayhavelocks lk) (lf_wakeups lk ++ [range]).

(** range->field, and range->field = v. *)
Definition deref (lk : lockf) (i : nat) : outcome lockf_range :=
  match lf_heap lk !! i with Some r => Done r | None => Fault NullDeref end.
Definition store (lk : lockf) (i : nat) (r : lockf_range) : lockf :=
  set_heap lk (<[i := r]> (lf_heap lk)).

(** Pointers compared. *)
Definition same (p q : option nat) : bool := bool_decide (p = q).

(** ** Ranges *)

Definition lf_match (range : lockf_range) (type flags : Z) : bool :=
  if negb (lf_type range =? type) then false
  else if btest (Z.lxor (lf_flags range) flags) F_POSIX then false
  else true.

Definition lf_overlap (range : lockf_range) (start end_ : Z) : bool :=
  if (lf_start range >=? start) && (lf_start range <=? end_) then true
  else if (start >=? lf_start range) && (start <=? lf_end range) then true
  else false.

Definition lf_alloc_range (lk : lockf) : lockf * nat :=
  let n := lf_next lk in
  (Lockf (lf_range lk) (lf_blocked lk) (init_done lk)
     (<[n := LockfRange 0 0 0 0 None]> (lf_heap lk)) (S n)
     (ui_posixlocks lk) (p_numposixlocks lk) (v_mayhavelocks lk) (lf_wakeups lk), n).

Definition lf_destroy_range (lk : lockf) (i : nat) : lockf :=
  set_heap lk (delete i (lf_heap lk)).

(** lf_type and lf_flags are shorts. *)
Definition s16 (z : Z) : Z := (z + 2 ^ 15) mod 2 ^ 16 - 2 ^ 15.

Definition lf_create_range (lk : lockf) (range : nat) (owner : option nat)
    (type flags start end_ : Z) : outcome lockf :=
  KKASSERT "lf_create_range" (start <=? end_);;
  mret (store lk range (LockfRange (s16 type) (s16 flags) start end_ owner)).

(** while (insert_point && insert_point->lf_start < elm->lf_start)
        insert_point = TAILQ_NEXT(insert_point, lf_link); *)
Fixpoint lf_insert_point (lk : lockf) (fuel : nat) (key : Z) (insert_point : option nat) :
    outcome (option nat) :=
  match insert_point with
  | None => mret None
  | Some ip =>
      match fuel with
      | O => Fault OutOfFuel
      | S fuel =>
          r ← deref lk ip;
          if lf_start r <? key
          then lf_insert_point lk fuel key (tailq_next ip (lf_range lk))
          else mret (Some ip)
      end
  end.

Definition lf_insert (lk : lockf) (elm : nat) (insert_point : option nat) : outcome lockf :=
  e ← deref lk elm;
  ip ← lf_insert_point lk (S (length (lf_range lk))) (lf_start e) insert_point;
  mret (set_range lk (match ip with
                      | Some ip => insert_before ip elm (lf_range lk)
                      | None => lf_range lk ++ [elm]
                      end)).

(** TAILQ_FOREACH_MUTABLE of lf_wakeup. *)
Fixpoint lf_wakeup_loop (lk : lockf) (start end_ : Z) (l : list nat) : outcome lockf :=
  match l with
  | [] => mret lk
  | range :: l =>
      r ← deref lk range;
      if negb (lf_overlap r start end_) then lf_wakeup_loop lk start end_ l
      else lf_wakeup_loop (wakeup (store (set_blocked lk (tailq_remove range (lf_blocked lk)))
                                     range (set_flags r 1)) range) start end_ l
  end.

Definition lf_wakeup (lk : lockf) (start end_ : Z) : outcome lockf :=
  lf_wakeup_loop lk start end_ (lf_blocked lk).

(** ** Accounting *)

(** What the code reads of a process: its uidinfo, its uid, its limit
    RLIMIT_POSIXLOCKS and its pid. *)
Record proc := Proc {
  p_uip : nat;
  cr_uid : Z;
  rlim_cur : Z;
  p_pid : Z
}.

(** A counter that was never changed is 0. *)
Definition counter (m : gmap nat Z) (i : nat) : Z := default 0 (m !! i).

Section Lockf.
Context (proc_of : nat -> proc) (maxposixlocksperuid : Z).

Definition lf_count_adjust (lk : lockf) (p : nat) (increase : bool) : outcome lockf :=
  let uip := p_uip (proc_of p) in
  let n := if increase
           then counter (ui_posixlocks lk) uip + counter (p_numposixlocks lk) p
           else counter (ui_posixlocks lk) uip - counter (p_numposixlocks lk) p in
  KKASSERT "Negative number of POSIX locks" (0 <=? n);;
  mret (set_counts lk (<[uip := n]> (ui_posixlocks lk)) (p_numposixlocks lk)).

(** The result is false where the function returns 0. *)
Definition lf_count_change (lk : lockf) (owner : option nat) (diff : Z) : outcome (lockf * bool) :=
  match owner with
  | None => mret (lk, false)
  | Some p =>
      let uip := p_uip (proc_of p) in
      let max := s32 (Z.min (rlim_cur (proc_of p)) maxposixlocksperuid) in
      if (0 <? diff) && negb (cr_uid (proc_of p) =? 0) && negb (max =? -1)
         && (counter (ui_posixlocks lk) uip >=? max)
      then mret (lk, true)
      else
        let u := counter (ui_posixlocks lk) uip + diff in
        let n := counter (p_numposixlocks lk) p + diff in
        KKASSERT "Negative number of POSIX locks held by user" (0 <=? u);;
        KKASSERT "Negative number of POSIX locks held by proc" (0 <=? n);;
        mret (set_counts lk (<[uip := u]> (ui_posixlocks lk))
                (<[p := n]> (p_numposixlocks lk)), false)
  end.

(** ** lf_setlock *)

(** The scan of the locked ranges: the insertion point, the first and last
    range of ours that overlaps, and the conflicting range where the loop stops. *)
Fixpoint lf_scan (lk : lockf) (owner : option nat) (type start end_ : Z) (l : list nat)
    (insert_point first_match last_match : option nat) :
    outcome (option nat * option nat * option nat * option nat) :=
  match l with
  | [] => mret (insert_point, first_match, last_match, None)
  | range :: l =>
      r ← deref lk range;
      let insert_point :=
        if same insert_point None && (lf_start r >=? start) then Some range else insert_point in
      if lf_end r <? start
      then lf_scan lk owner type start end_ l insert_point first_match last_match
      else if lf_start r >? end_ then mret (insert_point, first_match, last_match, None)
      else if same (lf_owner r) owner
      then lf_scan lk owner type start end_ l insert_point
             (if same first_match None then Some range else first_match) (Some range)
      else if negb (type =? F_UNLCK) && ((type =? F_WRLCK) || (lf_type r =? F_WRLCK))
      then mret (insert_point, first_match, last_match, Some range)
      else lf_scan lk owner type start end_ l insert_point first_match last_match
  end.

(** The state of the loop that clips: the locks, brange, count, wakeup_needed
    and the deadlist. *)
Record clip := Clip {
  c_lk : lockf;
  c_brange : option nat;
  c_count : Z;
  c_wakeup : bool;
  c_dead : list nat
}.

Definition c_set_lk (c : clip) (lk : lockf) : clip :=
  Clip lk (c_brange c) (c_count c) (c_wakeup c) (c_dead c).
Definition c_set_brange (c : clip) (b : option nat) : clip :=
  Clip (c_lk c) b (c_count c) (c_wakeup c) (c_dead c).
Definition c_set_wakeup (c : clip) (w : bool) : clip :=
  Clip (c_lk c) (c_brange c) (c_count c) w (c_dead c).

(** TAILQ_REMOVE(&lock->lf_range, range), --count if it is a POSIX lock,
    TAILQ_INSERT_TAIL(&deadlist, range). *)
Definition lf_scrap (c : clip) (range : nat) : outcome clip :=
  r ← deref (c_lk c) range;
  mret (Clip (set_range (c_lk c) (tailq_remove range (lf_range (c_lk c)))) (c_brange c)
          (if btest (lf_flags r) F_POSIX then c_count c - 1 else c_count c)
          (c_wakeup c) (c_dead c ++ [range])).

(** [into] takes over the end of [from], which is scrapped. *)
Definition lf_absorb (c : clip) (into from : nat) : outcome clip :=
  a ← deref (c_lk c) into;
  b ← deref (c_lk c) from;
  lf_scrap (c_set_lk c (store (c_lk c) into
    (set_flags (set_end a (lf_end b))
       (Z.lor (lf_flags a) (Z.land (lf_flags b) F_NOEND))))) from.

(** The part of the loop for a range that starts before the request, up to
    the test for the last match; it adjusts [next]. *)
Definition lf_clip_left (type flags start : Z) (range : nat) (next : option nat) (c : clip) :
    outcome (clip * option nat) :=
  r ← deref (c_lk c) range;
  match (if (lf_end r >=? start - 1) && lf_match r type flags then c_brange c else None) with
  | Some b =>
      let next := if same next (Some b) then tailq_next b (lf_range (c_lk c)) else next in
      c ← lf_absorb c range b;
      mret (c_set_brange c (Some range), next)
  | None =>
      if lf_end r >=? start
      then mret (c_set_lk c (store (c_lk c) range
                  (set_flags (set_end r (start - 1))
                     (if negb (type =? F_UNLCK) then Z.ldiff (lf_flags r) F_NOEND
                      else lf_flags r))), next)
      else mret (c, next)
  end.

(** The part for a range that ends after the request. *)
Definition lf_clip_right (type flags end_ : Z) (range : nat) (next : option nat) (c : clip) :
    outcome clip :=
  r ← deref (c_lk c) range;
  match (if (lf_start r <=? end_ + 1) && lf_match r type flags then c_brange c else None) with
  | Some b => lf_absorb c b range
  | None =>
      if lf_start r <=? end_
      then
        let lk := store (c_lk c) range (set_start r (end_ + 1)) in
        lk ← lf_insert (set_range lk (tailq_remove range (lf_range lk))) range next;
        mret (c_set_lk c lk)
      else mret c
  end.

(** while ((range = next) != NULL) { ... } *)
Fixpoint lf_clip (fuel : nat) (owner : option nat) (type flags start end_ : Z)
    (first_match last_match : nat) (next : option nat) (c : clip) : outcome clip :=
  match next with
  | None => mret c
  | Some range =>
      match fuel with
      | O => Fault OutOfFuel
      | S fuel =>
          let next := tailq_next range (lf_range (c_lk c)) in
          r ← deref (c_lk c) range;
          if negb (same (lf_owner r) owner) || same (Some range) (c_brange c)
          then lf_clip fuel owner type flags start end_ first_match last_match next c
          else
            let c := c_set_wakeup c
              (c_wakeup c || (type =? F_UNLCK)
               || ((type =? F_RDLCK) && (lf_type r =? F_WRLCK))) in
            if lf_start r <? start
            then
              KKASSERT "range == first_match" (Nat.eqb range first_match);;
              p ← lf_clip_left type flags start range next c;
              if Nat.eqb range last_match then mret p.1
              else lf_clip fuel owner type flags start end_ first_match last_match p.2 p.1
            else if lf_end r >? end_
            then
              KKASSERT "range == last_match" (Nat.eqb range last_match);;
              lf_clip_right type flags end_ range next c
            else
              KKASSERT "enclosed" ((lf_start r >=? start) && (lf_end r <=? end_));;
              c ← lf_scrap c range;
              if Nat.eqb range last_match then mret c
              else lf_clip fuel owner type flags start end_ first_match last_match next c
      end
  end.

(** The merge of brange with the ranges next to it in the list. *)
Definition lf_merge_prev (owner : option nat) (type flags : Z) (b : nat) (c : clip) : outcome clip :=
  match tailq_prev None b (lf_range (c_lk c)) with
  | None => mret c
  | Some range =>
      r ← deref (c_lk c) range;
      br ← deref (c_lk c) b;
      if same (lf_owner r) owner && (lf_end r =? lf_start br - 1) && lf_match r type flags
      then c ← lf_absorb c range b; mret (c_set_brange c (Some range))
      else mret c
  end.

Definition lf_merge_next (owner : option nat) (type flags : Z) (c : clip) : outcome clip :=
  match c_brange c with
  | None => mret c
  | Some b =>
      match tailq_next b (lf_range (c_lk c)) with
      | None => mret c
      | Some range =>
          r ← deref (c_lk c) range;
          br ← deref (c_lk c) b;
          if same (lf_owner r) owner && (lf_start r =? s64 (lf_end br + 1)) && lf_match r type flags
          then lf_absorb c b range
          else mret c
      end
  end.

Definition lf_merge (owner : option nat) (type flags : Z) (c : clip) : outcome clip :=
  match c_brange c with
  | None => mret c
  | Some b => c ← lf_merge_prev owner type flags b c; lf_merge_next owner type flags c
  end.

(** do_cleanup: the ranges that were not used are freed. *)
Definition lf_cleanup (lk : lockf) (new_range1 new_range2 : option nat) : lockf :=
  let lk := match new_range1 with Some i => lf_destroy_range lk i | None => lk end in
  match new_range2 with Some i => lf_destroy_range lk i | None => lk end.

(** double_clip and unlock_override *)
Definition lf_double_clip (first last : lockf_range) (first_is_last : bool) (start end_ : Z) : bool :=
  (lf_start first <? start) && (first_is_last && (lf_end last >? end_)).

Definition lf_unlock_override (first last : lockf_range) (type start end_ : Z) : bool :=
  negb (lf_start first <? start) && ((type =? F_UNLCK) && (lf_end last <=? end_)).

(** The first value of count. *)
Definition lf_precharge (first last : lockf_range) (first_is_last : bool)
    (type flags start end_ : Z) : Z :=
  if btest flags F_POSIX && negb (lf_unlock_override first last type start end_)
     && (negb (lf_match first type flags) && negb (lf_match last type flags))
  then if lf_double_clip first last first_is_last start end_ && negb (type =? F_UNLCK)
       then -2 else -1
  else 0.

(** The case of two clips: the right part becomes a lock of its own. *)
Definition lf_split (lk : lockf) (first_match new_range2 : nat) (start end_ count : Z) :
    outcome (lockf * Z) :=
  f ← deref lk first_match;
  lk ← lf_create_range lk new_range2 (lf_owner f) (lf_type f) (lf_flags f) (end_ + 1) (lf_end f);
  let lk := store lk first_match
              (set_flags (set_end f (start - 1)) (Z.ldiff (lf_flags f) F_NOEND)) in
  lk ← lf_insert lk new_range2 (Some first_match);
  n ← deref lk new_range2;
  mret (lk, if btest (lf_flags n) F_POSIX then count + 1 else count).

(** From the lock for the requested range to the accounting at the end, for
    a request that overlaps locks of ours; [count] is paid for. *)
Definition lf_replace (lk : lockf) (owner : option nat) (type flags start end_ : Z)
    (insert_point : option nat) (first_match last_match new_range1 new_range2 : nat)
    (double_clip : bool) (count : Z) : outcome lockf :=
  '(lk, brange, count) ←
    (if negb (type =? F_UNLCK)
     then
       lk ← lf_create_range lk new_range1 owner type flags start end_;
       lk ← lf_insert lk new_range1 insert_point;
       mret (lk, Some new_range1, if btest flags F_POSIX then count + 1 else count)
     else mret (lk, None, count));
  '(lk, last_match, count) ←
    (if double_clip : bool
     then
       KKASSERT "first_match == last_match" (Nat.eqb first_match last_match);;
       p ← lf_split lk first_match new_range2 start end_ count;
       mret (p.1, new_range2, p.2)
     else mret (lk, last_match, count));
  c ← lf_clip (S (length (lf_range lk))) owner type flags start end_ first_match last_match
        (Some first_match) (Clip lk brange count false []);
  c ← lf_merge owner type flags c;
  let lk := fold_left lf_destroy_range (c_dead c) (c_lk c) in
  KKASSERT "count <= 0" (c_count c <=? 0);;
  lk ← (if c_count c <? 0
        then p ← lf_count_change lk owner (c_count c); mret p.1 else mret lk);
  lk ← (if c_wakeup c then lf_wakeup lk start end_ else mret lk);
  mret (lf_cleanup lk (if negb (type =? F_UNLCK) then None else Some new_range1)
          (if double_clip then None else Some new_range2)).

(** The request that a call of lf_setlock serves. *)
Record request := Request {
  rq_owner : option nat;
  rq_type : Z;
  rq_flags : Z;
  rq_start : Z;
  rq_end : Z
}.

(** From the test for conflicts on, when there is none. *)
Definition lf_grant (lk : lockf) (rq : request)
    (insert_point first_match last_match : option nat) (new_range1 new_range2 : nat) :
    outcome (lockf * Z) :=
  let owner := rq_owner rq in
  let type := rq_type rq in
  let flags := rq_flags rq in
  let start := rq_start rq in
  let end_ := rq_end rq in
  match first_match, last_match with
  | None, _ =>
      if type =? F_UNLCK
      then mret (lf_cleanup lk (Some new_range1) (Some new_range2), 0)
      else
        p ← (if btest flags F_POSIX then lf_count_change lk owner 1 else mret (lk, false));
        if p.2 : bool
        then mret (lf_cleanup p.1 (Some new_range1) (Some new_range2), ENOLCK)
        else
          lk ← lf_create_range p.1 new_range1 owner type flags start end_;
          lk ← lf_insert lk new_range1 insert_point;
          mret (lf_cleanup lk None (Some new_range2), 0)
  | Some _, None => Fault NullDeref
  | Some fm, Some lm =>
      first ← deref lk fm;
      last ← deref lk lm;
      let double_clip := lf_double_clip first last (Nat.eqb fm lm) start end_ in
      let count := lf_precharge first last (Nat.eqb fm lm) type flags start end_ in
      p ← (if negb (count =? 0) then lf_count_change lk owner (- count) else mret (lk, false));
      if p.2 : bool
      then mret (lf_cleanup p.1 (Some new_range1) (Some new_range2), ENOLCK)
      else
        lk ← lf_replace p.1 owner type flags start end_ insert_point fm lm
               new_range1 new_range2 double_clip count;
        mret (lk, 0)
  end.

(** Is one of the requests that wait made by [owner]? *)
Fixpoint lf_owner_blocked (lk : lockf) (owner : option nat) (l : list nat) : outcome bool :=
  match l with
  | [] => mret false
  | b :: l => r ← deref lk b;
              if same (lf_owner r) owner then mret true else lf_owner_blocked lk owner l
  end.

(** A process in tsleep: its request, the counter of wakeups, brange and the
    preallocated second range.  The second sleep is for two ticks. *)
Record sleeper := Sleeper {
  sl_request : request;
  sl_count : Z;
  sl_brange : nat;
  sl_new_range2 : nat
}.

Inductive lf_result :=
  | LfReturn (error : Z)
  | LfSleep (sl : sleeper)
  | LfDelay (sl : sleeper) (error : Z).

(** The conflict with [range]; [unlock] is the recursive call of lf_setlock. *)
Definition lf_conflict (unlock : lockf -> request -> outcome (lockf * lf_result))
    (lk : lockf) (rq : request) (range : nat) (count : Z) (new_range1 new_range2 : nat) :
    outcome (lockf * lf_result) :=
  let owner := rq_owner rq in
  let type := rq_type rq in
  let flags := rq_flags rq in
  let start := rq_start rq in
  let end_ := rq_end rq in
  if negb (btest flags F_WAIT)
  then mret (lf_cleanup lk (Some new_range1) (Some new_range2), LfReturn EAGAIN)
  else
    r ← deref lk range;
    dead ← (if btest flags F_POSIX then lf_owner_blocked lk (lf_owner r) (lf_blocked lk)
            else mret false);
    if dead : bool
    then mret (lf_cleanup lk (Some new_range1) (Some new_range2), LfReturn EDEADLK)
    else
      lk ← (if negb (btest flags F_POSIX) && (type =? F_WRLCK)
            then p ← unlock lk (Request owner F_UNLCK 0 start end_); mret p.1
            else mret lk);
      lk ← lf_create_range lk new_range1 owner type 0 start end_;
      mret (set_blocked lk (lf_blocked lk ++ [new_range1]),
            LfSleep (Sleeper rq count new_range1 new_range2)).

(** restart: up to the return or the next sleep.  [depth] bounds the
    recursion; a call with F_UNLCK does not call again. *)
Fixpoint lf_restart (depth : nat) (lk : lockf) (rq : request) (count : Z)
    (new_range1 new_range2 : option nat) : outcome (lockf * lf_result) :=
  match depth with
  | O => Fault OutOfFuel
  | S depth =>
      let '(lk, n1) := match new_range1 with Some i => (lk, i) | None => lf_alloc_range lk end in
      let '(lk, n2) := match new_range2 with Some i => (lk, i) | None => lf_alloc_range lk end in
      '(insert_point, first_match, last_match, range) ←
        lf_scan lk (rq_owner rq) (rq_type rq) (rq_start rq) (rq_end rq) (lf_range lk)
          None None None;
      match range with
      | Some range =>
          lf_conflict (fun lk rq => lf_restart depth lk rq 0 None None) lk rq range count n1 n2
      | None =>
          p ← lf_grant lk rq insert_point first_match last_match n1 n2;
          mret (p.1, LfReturn p.2)
      end
  end.

Definition lf_setlock (lk : lockf) (rq : request) : outcome (lockf * lf_result) :=
  lf_restart 2 lk rq 0 None None.

(** What follows a sleep: lf_awake the part after the test for a livelock,
    lf_woken all that follows the first tsleep, which returned [error]. *)
Definition lf_awake (lk : lockf) (sl : sleeper) (count error : Z) : outcome (lockf * lf_result) :=
  let lk := lf_destroy_range lk (sl_brange sl) in
  if negb (error =? 0)
  then mret (lf_cleanup lk None (Some (sl_new_range2 sl)), LfReturn error)
  else lf_restart 2 lk (sl_request sl) count None (Some (sl_new_range2 sl)).

Definition lf_woken (lk : lockf) (sl : sleeper) (error : Z) : outcome (lockf * lf_result) :=
  b ← deref lk (sl_brange sl);
  let lk := if lf_flags b =? 0
            then set_blocked lk (tailq_remove (sl_brange sl) (lf_blocked lk)) else lk in
  if sl_count sl =? 2 then mret (lk, LfDelay sl error)
  else lf_awake lk sl (sl_count sl + 1) error.

(** ** lf_getlock *)

(** struct flock *)
Record flock := Flock {
  l_start : Z;
  l_len : Z;
  l_pid : Z;
  l_type : Z;
  l_whence : Z
}.

Fixpoint lf_first_blocking (lk : lockf) (owner : option nat) (type start end_ : Z)
    (l : list nat) : outcome (option lockf_range) :=
  match l with
  | [] => mret None
  | range :: l =>
      r ← deref lk range;
      if negb (same (lf_owner r) owner) && lf_overlap r start end_
         && ((type =? F_WRLCK) || (lf_type r =? F_WRLCK))
      then mret (Some r)
      else lf_first_blocking lk owner type start end_ l
  end.

Definition lf_getlock (fl : flock) (lk : lockf) (owner : option nat) (type start end_ : Z) :
    outcome flock :=
  range ← lf_first_blocking lk owner type start end_ (lf_range lk);
  mret (match range with
        | None => Flock (l_start fl) (l_len fl) (l_pid fl) F_UNLCK (l_whence fl)
        | Some r =>
            Flock (lf_start r)
              (if btest (lf_flags r) F_NOEND then 0 else s64 (lf_end r - lf_start r + 1))
              (match lf_owner r with
               | Some p => if btest (lf_flags r) F_POSIX then p_pid (proc_of p) else -1
               | None => -1
               end)
              (lf_type r) SEEK_SET
        end).

(** ** lf_advlock *)

(** The request that a flock structure stands for, or an error. *)
Definition lf_request (fl : flock) (a_id : option nat) (a_flags size : Z) : Z + request :=
  let range (start : Z) :=
    if start <? 0 then inl EINVAL
    else if l_len fl =? 0
    then inr (Request a_id (l_type fl) (Z.lor a_flags F_NOEND) start LLONG_MAX)
    else if l_len fl <? 0 then inl EINVAL
    else
      let end_ := s64 (start + l_len fl - 1) in
      if end_ <? start then inl EINVAL
      else inr (Request a_id (l_type fl) a_flags start end_) in
  if (l_whence fl =? SEEK_SET) || (l_whence fl =? SEEK_CUR) then range (l_start fl)
  else if l_whence fl =? SEEK_END then range (s64 (size + l_start fl))
  else inl EINVAL.

(** What lf_advlock does after lf_setlock returned. *)
Definition lf_advlock_done (a_op : Z) (lk : lockf) : lockf :=
  if a_op =? F_SETLK then set_mayhave lk true
  else if bool_decide (lf_range lk = []) && bool_decide (lf_blocked lk = [])
  then set_mayhave lk false else lk.

Definition lf_advlock_result (a_op : Z) (p : lockf * lf_result) : lockf * lf_result :=
  match p.2 with
  | LfReturn error => (lf_advlock_done a_op p.1, LfReturn error)
  | _ => p
  end.

Definition lf_advlock (lk : lockf) (a_op : Z) (fl : flock) (a_id : option nat) (a_flags size : Z) :
    outcome (lockf * flock * lf_result) :=
  match lf_request fl a_id a_flags size with
  | inl error => mret (lk, fl, LfReturn error)
  | inr rq =>
      let lk := if init_done lk then lk
                else Lockf [] [] true (lf_heap lk) (lf_next lk) (ui_posixlocks lk)
                       (p_numposixlocks lk) (v_mayhavelocks lk) (lf_wakeups lk) in
      if (a_op =? F_SETLK) || (a_op =? F_UNLCK)
      then
        p ← lf_setlock lk rq;
        let '(lk, res) := lf_advlock_result a_op p in
        mret (lk, fl, res)
      else if a_op =? F_GETLK
      then
        fl ← lf_getlock fl lk (rq_owner rq) (rq_type rq) (rq_start rq) (rq_end rq);
        mret (lk, fl, LfReturn 0)
      else mret (lk, fl, LfReturn EINVAL)
  end.

End Lockf.
