(* ===== verification/LockfLists.v ===== *)
(** * Byte-range locks: the list of ranges and what it holds

    The ranges of a lockf structure as a list of numbers with their contents,
    the functions of Lockf.v at an element of that list, and sums over it: how
    often a byte is locked by an owner and how many POSIX locks an owner has
    are sums, so that the effect of an operation on them is arithmetic. *)

From stdpp Require Import prelude list strings gmap sorting.
From S2P Require Import Prelude.
From S2P Require Import Tailq.
From S2P Require Import Lockf.
Open Scope Z_scope.

Abbreviation elems := (list (nat * lockf_range)).

(** ** Sums *)

Fixpoint tally (f : lockf_range -> Z) (R : elems) : Z :=
  match R with [] => 0 | p :: R => f p.2 + tally f R end.

Lemma tally_app f R1 R2 : tally f (R1 ++ R2) = tally f R1 + tally f R2.
Proof. induction R1 as [| p R1 IH]; simpl; [done | lia]. Qed.

Lemma tally_cons f p R : tally f (p :: R) = f p.2 + tally f R.
Proof. done. Qed.

Create Rewrite HintDb tally.
#[export] Hint Rewrite tally_app tally_cons : tally.

Lemma tally_nonneg f R : (forall r, 0 <= f r) -> 0 <= tally f R.
Proof. intros Hf. induction R as [| p R IH]; simpl; [lia | specialize (Hf p.2); lia]. Qed.

Lemma tally_zero f R : Forall (fun p => f p.2 = 0) R -> tally f R = 0.
Proof. induction 1 as [| p R Hp _ IH]; simpl; lia. Qed.

Lemma tally_pos_elem f R p : (forall r, 0 <= f r) -> p ∈ R -> f p.2 <= tally f R.
Proof.
  intros Hf. induction 1 as [p R | p q R _ IH]; simpl.
  - pose proof (tally_nonneg f R Hf). lia.
  - specialize (Hf q.2). lia.
Qed.

(** A byte that is counted is in a range of the list. *)
Lemma tally_elem f R : (forall r, 0 <= f r) -> 0 < tally f R -> exists p, p ∈ R /\ 0 < f p.2.
Proof.
  intros Hf. induction R as [| p R IH]; simpl; [lia |]. intros H.
  destruct (decide (0 < f p.2)) as [Hp |]; [exists p; split; [left | done] |].
  destruct IH as (q & Hq & ?); [specialize (Hf p.2); lia |]. exists q. split; [by right | done].
Qed.

Definition ind (b : bool) : Z := if b then 1 else 0.

Lemma ind_nonneg b : 0 <= ind b.
Proof. by destruct b. Qed.

Lemma ind_le_1 b : ind b <= 1.
Proof. by destruct b. Qed.

(** Byte [x] is in the range. *)
Definition inside (x : Z) (r : lockf_range) : bool := (lf_start r <=? x) && (x <=? lf_end r).
Definition owned (o : option nat) (r : lockf_range) : bool := bool_decide (lf_owner r = o).

(** The locks of [o] at byte [x]: those of type [t], and all. *)
Definition cov (o : option nat) (t x : Z) (r : lockf_range) : Z :=
  ind (owned o r && inside x r && (lf_type r =? t)).
Definition covers (o : option nat) (x : Z) (r : lockf_range) : Z :=
  ind (owned o r && inside x r).

(** The POSIX locks of [o]. *)
Definition posix (o : option nat) (r : lockf_range) : Z :=
  ind (owned o r && btest (lf_flags r) F_POSIX).

Lemma cov_nonneg o t x r : 0 <= cov o t x r. Proof. apply ind_nonneg. Qed.
Lemma covers_nonneg o x r : 0 <= covers o x r. Proof. apply ind_nonneg. Qed.
Lemma posix_nonneg o r : 0 <= posix o r. Proof. apply ind_nonneg. Qed.
#[export] Hint Resolve cov_nonneg covers_nonneg posix_nonneg ind_nonneg : kern.

Lemma owned_eq o r : lf_owner r = o -> owned o r = true.
Proof. intros. unfold owned. by rewrite bool_decide_true. Qed.

Lemma owned_ne o r : lf_owner r <> o -> owned o r = false.
Proof. intros. unfold owned. by rewrite bool_decide_false. Qed.

Lemma same_owned o r : same (lf_owner r) o = owned o r.
Proof. done. Qed.

(** [sums]: expand sums over lists; [cases]: decide the comparisons of a sum at
    one byte. *)
Ltac sums := autorewrite with tally; cbn [snd tally].
Ltac cases :=
  repeat match goal with
  | |- context [?a <=? ?b] => destruct (Z.leb_spec a b)
  | |- context [?a =? ?b] => destruct (Z.eqb_spec a b)
  end; cbn [andb ind]; lia.

(** [foralls]: the elements of a list that a Forall in the goal speaks of. *)
Ltac foralls := repeat (rewrite Forall_app || rewrite Forall_cons || rewrite Forall_nil); cbn [snd].

(** A byte is locked with one type by one owner at a time. *)
Lemma inside_true x r : inside x r = true <-> lf_start r <= x <= lf_end r.
Proof. unfold inside. rewrite andb_true_iff, !Z.leb_le. done. Qed.

Lemma inside_not x r : inside x r = false <-> x < lf_start r \/ lf_end r < x.
Proof. unfold inside. rewrite andb_false_iff, !Z.leb_gt. done. Qed.

(** Two locks of one owner do not meet when no byte is counted twice. *)
Definition once (o : option nat) (R : elems) : Prop := forall x, tally (covers o x) R <= 1.

Lemma once_app o R1 R2 : once o (R1 ++ R2) -> once o R1 /\ once o R2.
Proof.
  intros H. split; intros x; specialize (H x); rewrite tally_app in H;
    pose proof (tally_nonneg (covers o x) R1 (covers_nonneg o x));
    pose proof (tally_nonneg (covers o x) R2 (covers_nonneg o x)); lia.
Qed.

Definition wide (r : lockf_range) : Prop := lf_start r <= lf_end r.

Lemma once_disjoint o A p B q C :
  once o (A ++ p :: B ++ q :: C) -> lf_owner p.2 = o -> lf_owner q.2 = o ->
  wide p.2 -> wide q.2 -> lf_start p.2 <= lf_start q.2 -> lf_end p.2 < lf_start q.2.
Proof.
  intros H Hp Hq Wp Wq Hle. destruct (decide (lf_end p.2 < lf_start q.2)) as [| Hn]; [done |].
  specialize (H (lf_start q.2)). autorewrite with tally in H.
  pose proof (tally_nonneg _ A (covers_nonneg o (lf_start q.2))).
  pose proof (tally_nonneg _ B (covers_nonneg o (lf_start q.2))).
  pose proof (tally_nonneg _ C (covers_nonneg o (lf_start q.2))).
  unfold wide in *. unfold covers at 2 4 in H.
  rewrite !owned_eq, !(proj2 (inside_true _ _)) in H by (done || lia). simpl in H. lia.
Qed.

(** ** Sorted lists *)

Definition le_start (p q : nat * lockf_range) : Prop := lf_start p.2 <= lf_start q.2.

Definition below (s : Z) (R : elems) : Prop := Forall (fun p => lf_start p.2 < s) R.
Definition above (s : Z) (R : elems) : Prop := Forall (fun p => s <= lf_start p.2) R.

Lemma sorted_app R1 R2 :
  StronglySorted le_start (R1 ++ R2) <->
  StronglySorted le_start R1 /\ StronglySorted le_start R2 /\
  forall p q, p ∈ R1 -> q ∈ R2 -> le_start p q.
Proof.
  induction R1 as [| a R1 IH]; simpl.
  - split; [intros; split_and!; [constructor | done | intros ? ? []%elem_of_nil] | tauto].
  - split.
    + inversion 1 as [| ? ? H1 H2]; subst. apply IH in H1 as (Ha & Hb & Hc).
      apply Forall_app in H2 as [H2 H3]. split_and!; [by constructor | done |].
      intros p q [-> | Hp]%elem_of_cons Hq; [| by apply Hc].
      rewrite Forall_forall in H3. by apply H3.
    + intros (Ha & Hb & Hc). inversion Ha as [| ? ? H1 H2]; subst. constructor.
      * apply IH. split_and!; try done. intros p q Hp. apply Hc. by right.
      * apply Forall_app. split; [done |]. rewrite Forall_forall. intros q Hq. apply Hc; [left | done].
Qed.

(** A sorted list splits at every key. *)
Lemma sorted_split s R : StronglySorted le_start R ->
  exists R1 R2, R = R1 ++ R2 /\ below s R1 /\ above s R2.
Proof.
  induction 1 as [| p R _ IH Hp].
  - exists [], []. split_and!; done || constructor.
  - destruct (decide (lf_start p.2 < s)).
    + destruct IH as (R1 & R2 & -> & H1 & H2). exists (p :: R1), R2.
      split_and!; [done | by constructor | done].
    + exists [], (p :: R). split_and!; [done | constructor |]. constructor; [lia |].
      eapply Forall_impl; [exact Hp |]. unfold le_start. simpl. intros. lia.
Qed.

(** Splits of one list at the same key are the same. *)
Lemma split_unique s R1 R2 R1' R2' :
  R1 ++ R2 = R1' ++ R2' -> below s R1 -> above s R2 -> below s R1' -> above s R2' ->
  R1 = R1' /\ R2 = R2'.
Proof.
  revert R1'. induction R1 as [| p R1 IH]; intros [| q R1'] E H1 H2 H1' H2'; simpl in *.
  - done.
  - subst R2. inversion H1'; inversion H2; subst; lia.
  - subst R2'. inversion H1; inversion H2'; subst; lia.
  - injection E as -> E. inversion H1; inversion H1'; subst.
    destruct (IH _ E) as [-> ->]; done.
Qed.

(** ** The list in memory *)

Section Repr.
Context (lk0 : lockf) (K : list nat).
Hypothesis HK : NoDup K.

(** What the operations on the list leave as it is in [lk0]. *)
Record framed (lk : lockf) : Prop := Framed {
  fr_blocked : lf_blocked lk = lf_blocked lk0;
  fr_init : init_done lk = init_done lk0;
  fr_next : lf_next lk = lf_next lk0;
  fr_ui : ui_posixlocks lk = ui_posixlocks lk0;
  fr_p : p_numposixlocks lk = p_numposixlocks lk0;
  fr_may : v_mayhavelocks lk = v_mayhavelocks lk0;
  fr_wakeups : lf_wakeups lk = lf_wakeups lk0;
  fr_heap : forall j, j ∉ K -> lf_heap lk !! j = lf_heap lk0 !! j
}.

(** The ranges of the list are [R]; the ranges of [K] that are not in the list
    are [out]. *)
Record repr (lk : lockf) (out : list nat) (R : elems) : Prop := Repr {
  rp_range : lf_range lk = R.*1;
  rp_ids : out ++ R.*1 ≡ₚ K;
  rp_heap : Forall (fun p => lf_heap lk !! p.1 = Some p.2) R;
  rp_frame : framed lk
}.

Lemma repr_nodup lk out R : repr lk out R -> NoDup (out ++ R.*1).
Proof. intros [_ H _ _]. by rewrite H. Qed.

Lemma repr_perm lk out out' R : out ≡ₚ out' -> repr lk out R -> repr lk out' R.
Proof. intros E [H1 H2 H3 H4]. split; try done. by rewrite <- E. Qed.

Lemma repr_notin lk out A i r B :
  repr lk out (A ++ (i, r) :: B) -> (i ∉ A.*1) /\ (i ∉ B.*1) /\ (i ∉ out).
Proof.
  intros H%repr_nodup. rewrite fmap_app, fmap_cons in H. simpl in H.
  apply NoDup_app in H as (_ & H1 & H2). apply NoDup_app in H2 as (_ & H3 & H4).
  apply NoDup_cons in H4 as [H4 _]. split_and!; [| done |].
  - intros Hi. apply (H3 i Hi). left.
  - intros Hi. apply (H1 i Hi). apply elem_of_app. right. left.
Qed.

Lemma repr_in_K lk out R i : repr lk out R -> (i ∈ out) \/ (i ∈ R.*1) -> i ∈ K.
Proof. intros [_ H _ _] Hi. rewrite <- H. by apply elem_of_app. Qed.

Lemma repr_lookup lk out R p : repr lk out R -> p ∈ R -> deref lk p.1 = Done p.2.
Proof.
  intros H Hp. unfold deref.
  rewrite (proj1 (Forall_forall _ _) (rp_heap _ _ _ H) p Hp). done.
Qed.

Lemma repr_deref lk out A i r B : repr lk out (A ++ (i, r) :: B) -> deref lk i = Done r.
Proof. intros H. apply (repr_lookup _ _ _ (i, r) H). apply elem_of_app. right. left. Qed.

Lemma repr_next lk out A i r B :
  repr lk out (A ++ (i, r) :: B) -> tailq_next i (lf_range lk) = head B.*1.
Proof.
  intros H. rewrite (rp_range _ _ _ H), fmap_app. apply tailq_next_mid.
  by destruct (repr_notin _ _ _ _ _ _ H).
Qed.

Lemma repr_prev lk out A i r B :
  repr lk out (A ++ (i, r) :: B) -> tailq_prev None i (lf_range lk) = last A.*1.
Proof.
  intros H. rewrite (rp_range _ _ _ H), fmap_app. simpl. rewrite tailq_prev_mid.
  - by destruct (last A.*1).
  - by destruct (repr_notin _ _ _ _ _ _ H).
Qed.

Lemma framed_store lk i r : framed lk -> i ∈ K -> framed (store lk i r).
Proof.
  intros [] Hi. split; simpl; try done. intros j Hj.
  rewrite lookup_insert_ne; [by auto | by intros ->].
Qed.

Lemma heap_store_notin lk i r (R : elems) :
  i ∉ R.*1 -> Forall (fun p => lf_heap lk !! p.1 = Some p.2) R ->
  Forall (fun p => lf_heap (store lk i r) !! p.1 = Some p.2) R.
Proof.
  intros Hi. rewrite !Forall_forall. intros H p Hp. simpl.
  rewrite lookup_insert_ne; [by apply H |]. intros ->. apply Hi. by apply list_elem_of_fmap_2.
Qed.

Lemma repr_store lk out A i r r' B :
  repr lk out (A ++ (i, r) :: B) -> repr (store lk i r') out (A ++ (i, r') :: B).
Proof.
  intros H. destruct (repr_notin _ _ _ _ _ _ H) as (HA & HB & _).
  assert (i ∈ K) as Hi.
  { apply (repr_in_K _ _ _ i H). right. rewrite fmap_app. set_solver. }
  destruct H as [H1 H2 H3 H4]. apply Forall_app in H3 as [H3 H5].
  inversion H5; subst. split.
  - simpl. rewrite H1, !fmap_app. done.
  - rewrite <- H2, !fmap_app. done.
  - apply Forall_app. split; [by apply heap_store_notin |].
    constructor; [simpl; by rewrite lookup_insert_eq | by apply heap_store_notin].
  - by apply framed_store.
Qed.

Lemma repr_remove lk out A i r B :
  repr lk out (A ++ (i, r) :: B) ->
  repr (set_range lk (tailq_remove i (lf_range lk))) (out ++ [i]) (A ++ B).
Proof.
  intros H. destruct (repr_notin _ _ _ _ _ _ H) as (HA & _ & _).
  destruct H as [H1 H2 H3 [H4 H5 H6 H7 H8 H9 H10]]. rewrite fmap_app in H1. simpl in H1.
  split.
  - simpl. rewrite H1, tailq_remove_mid by done. by rewrite fmap_app.
  - rewrite <- H2, !fmap_app, fmap_cons. simpl. solve_Permutation.
  - apply Forall_app in H3 as [? H3]. inversion H3; subst. by apply Forall_app.
  - done.
Qed.

(** A range that is not in the list may be written. *)
Lemma repr_put lk out R i r : repr lk (i :: out) R -> repr (store lk i r) (i :: out) R.
Proof.
  intros H. assert (i ∉ R.*1) as Hi.
  { pose proof (repr_nodup _ _ _ H) as [Hn _]%NoDup_cons. set_solver. }
  assert (i ∈ K) by (apply (repr_in_K _ _ _ i H); left; left).
  destruct H as [H1 H2 H3 H4]. split; try done; [by apply heap_store_notin | by apply framed_store].
Qed.

Lemma repr_insert_before lk out A B i r :
  repr lk (i :: out) (A ++ B) -> lf_heap lk !! i = Some r ->
  repr (set_range lk (match head B.*1 with
                      | Some ip => insert_before ip i (lf_range lk)
                      | None => lf_range lk ++ [i]
                      end)) out (A ++ (i, r) :: B).
Proof.
  intros H Hr. pose proof (repr_nodup _ _ _ H) as Hn.
  destruct H as [H1 H2 H3 [H4 H5 H6 H7 H8 H9 H10]]. split.
  - simpl. rewrite H1, !fmap_app, fmap_cons. destruct B as [| [j rj] B]; simpl.
    + by rewrite app_nil_r.
    + rewrite insert_before_mid; [done |]. rewrite fmap_app in Hn. simpl in Hn.
      apply NoDup_cons in Hn as [_ Hn]. apply NoDup_app in Hn as (_ & _ & Hn).
      apply NoDup_app in Hn as (_ & Hn & _). intros Hj. apply (Hn j Hj). left.
  - rewrite <- H2, !fmap_app, fmap_cons. simpl. solve_Permutation.
  - apply Forall_app in H3 as [? H3]. apply Forall_app. split; [done |]. by constructor.
  - done.
Qed.

(** The walk of lf_insert stops at the first range that starts at [key] or after it. *)
Lemma insert_point_walk lk out A B C key fuel :
  repr lk out (A ++ B ++ C) -> below key B -> above key C -> (length B < fuel)%nat ->
  lf_insert_point lk fuel key (head (B ++ C).*1) = Done (head C.*1).
Proof.
  revert A fuel. induction B as [| [i r] B IH]; intros A fuel H HB HC Hf; simpl.
  - destruct C as [| [j rj] C]; simpl; [by destruct fuel |].
    destruct fuel as [| fuel]; [simpl in Hf; lia |]. simpl.
    rewrite (repr_deref _ _ A j rj C H), bind_Done_l.
    inversion HC; subst. simpl in *. by rewrite (proj2 (Z.ltb_ge _ _)) by lia.
  - destruct fuel as [| fuel]; [simpl in Hf; lia |]. simpl.
    rewrite (repr_deref _ _ A i r _ H), bind_Done_l.
    inversion HB; subst. simpl in *. rewrite (proj2 (Z.ltb_lt _ _)) by lia.
    rewrite (repr_next _ _ A i r _ H).
    apply (IH (A ++ [(i, r)])); [| done | done | lia]. by rewrite <- app_assoc.
Qed.

Lemma lf_insert_at lk out A B C i r :
  repr lk (i :: out) (A ++ B ++ C) -> lf_heap lk !! i = Some r ->
  below (lf_start r) B -> above (lf_start r) C ->
  exists lk', lf_insert lk i (head (B ++ C).*1) = Done lk' /\
              repr lk' out (A ++ B ++ (i, r) :: C) /\ lf_heap lk' = lf_heap lk.
Proof.
  intros H Hr HB HC. unfold lf_insert. unfold deref at 1. rewrite Hr, bind_Done_l.
  rewrite (insert_point_walk _ _ _ _ _ _ _ H HB HC).
  2:{ rewrite (rp_range _ _ _ H), length_fmap, !length_app. lia. }
  rewrite bind_Done_l. eexists. split; [reflexivity |]. split; [| done].
  rewrite app_assoc in H |- *. by apply repr_insert_before.
Qed.

End Repr.
