(* ===== verification/LockfClip.v ===== *)
(** * Byte-range locks: the loop of lf_setlock that clips

    lf_clip, lf_merge and their parts at an element of the list: which list of
    ranges they leave, and what they do to count. *)

From stdpp Require Import prelude list strings gmap sorting.
From S2P Require Import Prelude.
From S2P Require Import Tailq.
From S2P Require Import Lockf.
From S2P Require Import LockfLists.
Open Scope Z_scope.

(** [a] extended to the end of [b]. *)
Definition absorb (a b : lockf_range) : lockf_range :=
  set_flags (set_end a (lf_end b)) (Z.lor (lf_flags a) (Z.land (lf_flags b) F_NOEND)).

Section Clip.
Context (lk0 : lockf) (K : list nat).
Hypothesis HK : NoDup K.
Context (own : option nat) (type flags s e : Z).

(** The loop variables, with the list [R]; [sp] are preallocated ranges. *)
Record st (sp : list nat) (c : clip) (R : elems) (b : option nat) (n : Z) (w : bool) : Prop := St {
  st_repr : repr lk0 K (c_lk c) (c_dead c ++ sp) R;
  st_brange : c_brange c = b;
  st_count : c_count c = n;
  st_wakeup : c_wakeup c = w
}.

Definition paid (r : lockf_range) : Z := ind (btest (lf_flags r) F_POSIX).

Lemma scrap_at sp c A i r B b n w :
  st sp c (A ++ (i, r) :: B) b n w ->
  exists c', lf_scrap c i = Done c' /\ st sp c' (A ++ B) b (n - paid r) w.
Proof.
  intros [H Hb Hn Hw]. unfold lf_scrap. rewrite (repr_deref _ _ _ _ _ _ _ _ H), bind_Done_l.
  eexists. split; [reflexivity |]. split; simpl; try done.
  - apply repr_remove in H; [| done]. eapply repr_perm; [| exact H]. solve_Permutation.
  - unfold paid, ind. destruct (btest _ _); lia.
Qed.

Lemma absorb_at sp c A i a B j r C b n w :
  st sp c (A ++ (i, a) :: B ++ (j, r) :: C) b n w ->
  exists c', lf_absorb c i j = Done c' /\
             st sp c' (A ++ (i, absorb a r) :: B ++ C) b (n - paid r) w.
Proof.
  intros [H Hb Hn Hw]. unfold lf_absorb.
  rewrite (repr_deref _ _ _ _ _ _ _ _ H), bind_Done_l.
  assert (deref (c_lk c) j = Done r) as ->.
  { apply (repr_deref lk0 K _ (c_dead c ++ sp) (A ++ (i, a) :: B) j r C). by rewrite <- app_assoc. }
  rewrite bind_Done_l.
  pose proof (repr_store _ _ HK _ _ _ _ _ (absorb a r) _ H) as H'.
  set (c1 := c_set_lk c _). assert (st sp c1 ((A ++ (i, absorb a r) :: B) ++ (j, r) :: C) b n w) as H1.
  { split; try done. by rewrite <- app_assoc. }
  destruct (scrap_at _ _ _ _ _ _ _ _ _ H1) as (c' & E & H2). exists c'. split; [exact E |].
  by rewrite <- app_assoc in H2.
Qed.

(** The ranges of the others. *)
Definition others (X : elems) : elems := filter (fun p => owned own p.2 = false) X.

(** Does the request free a lock of this range for other owners? *)
Definition downgrades (r : lockf_range) : bool :=
  (type =? F_UNLCK) || ((type =? F_RDLCK) && (lf_type r =? F_WRLCK)).
Definition wake (X : elems) : bool := existsb (fun p => owned own p.2 && downgrades p.2) X.

Definition own_enclosed (X : elems) : Prop :=
  Forall (fun p => lf_owner p.2 = own -> s <= lf_start p.2 /\ lf_end p.2 <= e) X.

Lemma owned_spec r : if owned own r then lf_owner r = own else lf_owner r <> own.
Proof. unfold owned. by case_bool_decide. Qed.

(** The loop body at a range that is not ours, or is brange. *)
Lemma clip_skip sp fuel fm lm c P i r Q b n w :
  st sp c (P ++ (i, r) :: Q) b n w -> owned own r = false \/ b = Some i ->
  lf_clip (S fuel) own type flags s e fm lm (Some i) c =
  lf_clip fuel own type flags s e fm lm (head Q.*1) c.
Proof.
  intros [H Hb Hn Hw] Hs. cbn [lf_clip].
  rewrite (repr_deref _ _ _ _ _ _ _ _ H), bind_Done_l, (repr_next _ _ HK _ _ _ _ _ _ H), same_owned, Hb.
  destruct Hs as [-> | ->]; [done |]. unfold same. by rewrite bool_decide_true, orb_true_r.
Qed.

(** The loop deletes our ranges that are enclosed by the request. *)
Lemma clip_enclosed sp fuel fm lm X : forall c P Q b n w,
  st sp c (P ++ X ++ Q) b n w ->
  (forall i, b = Some i -> i ∉ X.*1) -> lm ∉ X.*1 -> own_enclosed X ->
  exists c',
    lf_clip (length X + fuel) own type flags s e fm lm (head (X ++ Q).*1) c =
    lf_clip fuel own type flags s e fm lm (head Q.*1) c' /\
    st sp c' (P ++ others X ++ Q) b (n - tally (posix own) X) (w || wake X).
Proof.
  induction X as [| [i r] X IH]; intros c P Q b n w H Hb Hm Hx.
  { exists c. split; [done |]. cbn. rewrite Z.sub_0_r, orb_false_r. done. }
  inversion Hx as [| ? ? Hr Hx']; subst. cbn [snd] in Hr. pose proof (owned_spec r) as Ho.
  cbn [app length plus fmap list_fmap head fst].
  destruct (owned own r) eqn:Eo.
  - destruct (Hr Ho) as [H1 H2]. destruct H as [H Hbr Hn Hw]. cbn [lf_clip].
    rewrite (repr_deref _ _ _ _ _ _ _ _ H), bind_Done_l, (repr_next _ _ HK _ _ _ _ _ _ H), same_owned, Eo, Hbr.
    assert (same (Some i) b = false) as ->.
    { unfold same. apply bool_decide_false. intros <-. apply (Hb i); [done | left]. }
    cbn [negb orb]. rewrite (proj2 (Z.ltb_ge _ _)) by lia. rewrite Z.gtb_ltb, (proj2 (Z.ltb_ge _ _)) by lia.
    rewrite Z.geb_leb, !(proj2 (Z.leb_le _ _)) by lia. cbn [andb KKASSERT]. rewrite bind_Done_l.
    set (c1 := c_set_wakeup c _).
    assert (st sp c1 (P ++ (i, r) :: X ++ Q) b n (w || downgrades r)) as Hc.
    { split; try done. simpl. rewrite Hw. unfold downgrades. by rewrite orb_assoc. }
    destruct (scrap_at _ _ _ _ _ _ _ _ _ Hc) as (c2 & E2 & Hc2). rewrite E2, bind_Done_l.
    rewrite (proj2 (Nat.eqb_neq i lm)) by (intros ->; apply Hm; left).
    destruct (IH c2 P Q b _ _ Hc2) as (c' & E & H').
    + intros j Ej Hj. apply (Hb j Ej). by right.
    + intros Hj. apply Hm. by right.
    + done.
    + exists c'. split; [exact E |]. unfold others, wake in *. cbn [existsb snd].
        rewrite filter_cons_False by (simpl; congruence). rewrite Eo. cbn [andb].
        rewrite orb_assoc. cbn [tally snd]. unfold posix at 1. rewrite Eo. cbn [andb].
        unfold paid in H'. replace (n - (_ + _)) with
          (n - ind (btest (lf_flags r) F_POSIX) - tally (posix own) X) by lia. exact H'.
  - rewrite (clip_skip sp _ _ _ c P i r _ b n w H (or_introl Eo)).
    destruct (IH c (P ++ [(i, r)]) Q b n w) as (c' & E & H').
    + by rewrite <- app_assoc.
    + intros j Ej Hj. apply (Hb j Ej). by right.
    + intros Hj. apply Hm. by right.
    + done.
    + exists c'. split; [exact E |]. unfold others, wake in *. cbn [existsb snd].
      rewrite filter_cons_True by done. rewrite Eo. cbn [andb orb tally snd].
      unfold posix at 1. rewrite Eo. cbn [andb ind]. rewrite <- app_assoc in H'. exact H'.
Qed.

(** The body at our range [i], up to the three cases. *)
Lemma clip_ours sp fuel fm lm c P i r Q b n w :
  st sp c (P ++ (i, r) :: Q) b n w -> lf_owner r = own -> b <> Some i ->
  exists c1, st sp c1 (P ++ (i, r) :: Q) b n (w || downgrades r) /\
  lf_clip (S fuel) own type flags s e fm lm (Some i) c =
  if lf_start r <? s
  then
    KKASSERT "range == first_match" (Nat.eqb i fm);;
    p ← lf_clip_left type flags s i (head Q.*1) c1;
    if Nat.eqb i lm then mret p.1 else lf_clip fuel own type flags s e fm lm p.2 p.1
  else if lf_end r >? e
  then
    KKASSERT "range == last_match" (Nat.eqb i lm);;
    lf_clip_right type flags e i (head Q.*1) c1
  else
    KKASSERT "enclosed" ((lf_start r >=? s) && (lf_end r <=? e));;
    c ← lf_scrap c1 i;
    if Nat.eqb i lm then mret c else lf_clip fuel own type flags s e fm lm (head Q.*1) c.
Proof.
  intros [H Hbr Hn Hw] Ho Hb. eexists (c_set_wakeup c _). split; cycle 1.
  - cbn [lf_clip].
    rewrite (repr_deref _ _ _ _ _ _ _ _ H), bind_Done_l, (repr_next _ _ HK _ _ _ _ _ _ H), same_owned, owned_eq, Hbr by done.
    unfold same. rewrite bool_decide_false by congruence. cbn [negb orb]. reflexivity.
  - split; try done. simpl. rewrite Hw. unfold downgrades. by rewrite orb_assoc.
Qed.

(** Our range that starts before the request, when brange extends it. *)
Lemma clip_first_merge sp fuel lm c A f fr X bi br Y n w :
  st sp c (A ++ (f, fr) :: X ++ (bi, br) :: Y) (Some bi) n w ->
  lf_owner fr = own -> lf_start fr < s -> s - 1 <= lf_end fr -> lf_match fr type flags = true ->
  exists c', st sp c' (A ++ (f, absorb fr br) :: X ++ Y) (Some f) (n - paid br) (w || downgrades fr) /\
  lf_clip (S fuel) own type flags s e f lm (Some f) c =
  if Nat.eqb f lm then mret c' else lf_clip fuel own type flags s e f lm (head (X ++ Y).*1) c'.
Proof.
  intros H Ho Hs He Hm. pose proof (repr_notin _ _ HK _ _ _ _ _ _ (st_repr _ _ _ _ _ _ H)) as (_ & Hf & _).
  destruct (clip_ours sp fuel f lm _ _ _ _ _ _ _ _ H Ho) as (c1 & H1 & ->).
  { intros [= ->]. apply Hf. rewrite fmap_app. set_solver. }
  rewrite (proj2 (Z.ltb_lt _ _)) by lia. rewrite Nat.eqb_refl. cbn [KKASSERT]. rewrite bind_Done_l.
  unfold lf_clip_left. rewrite (repr_deref _ _ _ _ _ _ _ _ (st_repr _ _ _ _ _ _ H1)), bind_Done_l.
  rewrite Z.geb_leb, (proj2 (Z.leb_le _ _)), Hm, (st_brange _ _ _ _ _ _ H1) by lia. cbn [andb].
  destruct (absorb_at _ _ _ _ _ _ _ _ _ _ _ _ H1) as (c2 & -> & [H2 H3 H4 H5]). rewrite !bind_Done_l.
  exists (c_set_brange c2 (Some f)). split; [by split |]. cbn [fst snd].
  destruct (Nat.eqb f lm); [done |]. f_equal.
  destruct X as [| [j r] X]; cbn [app fmap list_fmap head fst].
  - unfold same. rewrite bool_decide_true by done.
    apply (repr_next lk0 K HK _ (c_dead c1 ++ sp) (A ++ [(f, fr)]) bi br Y).
    rewrite <- app_assoc. apply H1.
  - unfold same. rewrite bool_decide_false; [done |]. intros [= ->].
    pose proof (st_repr _ _ _ _ _ _ H) as Hr.
    replace (A ++ (f, fr) :: ((bi, r) :: X) ++ (bi, br) :: Y) with
      ((A ++ [(f, fr)]) ++ (bi, r) :: X ++ (bi, br) :: Y) in Hr by (by rewrite <- app_assoc).
    apply (repr_notin _ _ HK) in Hr as (_ & Hr & _). apply Hr. rewrite fmap_app. set_solver.
Qed.

(** The left part of a range that is clipped. *)
Definition clipped_left (r : lockf_range) : lockf_range :=
  if lf_end r >=? s
  then set_flags (set_end r (s - 1))
         (if negb (type =? F_UNLCK) then Z.ldiff (lf_flags r) F_NOEND else lf_flags r)
  else r.

Lemma clip_first_cut sp fuel lm c A f fr Y b n w :
  st sp c (A ++ (f, fr) :: Y) b n w -> b <> Some f ->
  lf_owner fr = own -> lf_start fr < s -> b = None \/ lf_match fr type flags = false ->
  exists c', st sp c' (A ++ (f, clipped_left fr) :: Y) b n (w || downgrades fr) /\
  lf_clip (S fuel) own type flags s e f lm (Some f) c =
  if Nat.eqb f lm then mret c' else lf_clip fuel own type flags s e f lm (head Y.*1) c'.
Proof.
  intros H Hbf Ho Hs Hm.
  destruct (clip_ours sp fuel f lm _ _ _ _ _ _ _ _ H Ho Hbf) as (c1 & H1 & ->).
  rewrite (proj2 (Z.ltb_lt _ _)) by lia. rewrite Nat.eqb_refl. cbn [KKASSERT]. rewrite bind_Done_l.
  unfold lf_clip_left. rewrite (repr_deref _ _ _ _ _ _ _ _ (st_repr _ _ _ _ _ _ H1)), bind_Done_l.
  rewrite (st_brange _ _ _ _ _ _ H1).
  assert ((if (lf_end fr >=? s - 1) && lf_match fr type flags then b else None) = None) as ->.
  { destruct Hm as [-> | ->]; [by destruct (_ && _) |]. by rewrite andb_false_r. }
  unfold clipped_left. destruct (lf_end fr >=? s).
  - rewrite bind_Done_l. eexists (c_set_lk c1 _). split; [| reflexivity].
    destruct H1. split; try done. cbn [c_lk c_set_lk c_dead]. by eapply repr_store.
  - rewrite bind_Done_l. exists c1. split; [done | reflexivity].
Qed.

(** The last of our ranges: deleted, merged or cut. *)
Lemma clip_last_enclosed sp fuel fm c P l lr C b n w :
  st sp c (P ++ (l, lr) :: C) b n w -> b <> Some l ->
  lf_owner lr = own -> s <= lf_start lr -> lf_end lr <= e ->
  exists c', lf_clip (S fuel) own type flags s e fm l (Some l) c = Done c' /\
             st sp c' (P ++ C) b (n - paid lr) (w || downgrades lr).
Proof.
  intros H Hb Ho Hs He. destruct (clip_ours sp fuel fm l _ _ _ _ _ _ _ _ H Ho Hb) as (c1 & H1 & ->).
  rewrite (proj2 (Z.ltb_ge _ _)) by lia. rewrite Z.gtb_ltb, (proj2 (Z.ltb_ge _ _)) by lia.
  rewrite Z.geb_leb, !(proj2 (Z.leb_le _ _)) by lia. cbn [andb KKASSERT]. rewrite bind_Done_l.
  destruct (scrap_at _ _ _ _ _ _ _ _ _ H1) as (c2 & -> & H2). rewrite bind_Done_l, Nat.eqb_refl.
  by exists c2.
Qed.

Lemma clip_last_merge sp fuel fm c P1 bi br P2 l lr C n w :
  st sp c (P1 ++ (bi, br) :: P2 ++ (l, lr) :: C) (Some bi) n w -> bi <> l ->
  lf_owner lr = own -> s <= lf_start lr <= e + 1 -> e < lf_end lr -> lf_match lr type flags = true ->
  exists c', lf_clip (S fuel) own type flags s e fm l (Some l) c = Done c' /\
             st sp c' (P1 ++ (bi, absorb br lr) :: P2 ++ C) (Some bi) (n - paid lr) (w || downgrades lr).
Proof.
  intros H Hb Ho Hs He Hm. pose proof H as H0.
  replace (P1 ++ (bi, br) :: P2 ++ (l, lr) :: C) with ((P1 ++ (bi, br) :: P2) ++ (l, lr) :: C)
    in H0 by (by rewrite <- app_assoc).
  destruct (clip_ours sp fuel fm l _ _ _ _ _ _ _ _ H0 Ho) as (c1 & H1 & ->); [congruence |].
  rewrite (proj2 (Z.ltb_ge _ _)) by lia. rewrite Z.gtb_ltb, (proj2 (Z.ltb_lt _ _)), Nat.eqb_refl by lia.
  cbn [KKASSERT]. rewrite bind_Done_l. unfold lf_clip_right.
  rewrite (repr_deref _ _ _ _ _ _ _ _ (st_repr _ _ _ _ _ _ H1)), bind_Done_l.
  rewrite (proj2 (Z.leb_le _ _)), Hm, (st_brange _ _ _ _ _ _ H1) by lia. cbn [andb].
  rewrite <- app_assoc in H1. apply (absorb_at _ _ _ _ _ _ _ _ _ _ _ _ H1).
Qed.

Lemma clip_last_cut sp fuel fm c P l lr C b n w :
  st sp c (P ++ (l, lr) :: C) b n w -> b <> Some l ->
  lf_owner lr = own -> s <= lf_start lr <= e + 1 -> e < lf_end lr ->
  b = None \/ lf_match lr type flags = false -> StronglySorted le_start ((l, lr) :: C) ->
  exists c' C1 C2, lf_clip (S fuel) own type flags s e fm l (Some l) c = Done c' /\
    C = C1 ++ C2 /\ below (e + 1) C1 /\ above (e + 1) C2 /\
    st sp c' (P ++ C1 ++ (l, set_start lr (e + 1)) :: C2) b n (w || downgrades lr).
Proof.
  intros H Hb Ho Hs He Hm Hsort.
  destruct (clip_ours sp fuel fm l _ _ _ _ _ _ _ _ H Ho Hb) as (c1 & H1 & ->).
  rewrite (proj2 (Z.ltb_ge _ _)) by lia. rewrite Z.gtb_ltb, (proj2 (Z.ltb_lt _ _)), Nat.eqb_refl by lia.
  cbn [KKASSERT]. rewrite bind_Done_l. unfold lf_clip_right.
  rewrite (repr_deref _ _ _ _ _ _ _ _ (st_repr _ _ _ _ _ _ H1)), bind_Done_l.
  rewrite (st_brange _ _ _ _ _ _ H1).
  assert ((if (lf_start lr <=? e + 1) && lf_match lr type flags then b else None) = None) as ->.
  { destruct Hm as [-> | ->]; [by destruct (_ && _) |]. by rewrite andb_false_r. }
  inversion Hsort as [| ? ? HsC Hle]; subst.
  destruct (sorted_split (e + 1) C HsC) as (C1 & C2 & -> & HC1 & HC2).
  destruct (Z.leb_spec (lf_start lr) e).
  - destruct H1 as [H1 H2 H3 H4].
    apply (repr_store _ _ HK _ _ _ _ _ (set_start lr (e + 1))) in H1.
    set (lk1 := store (c_lk c1) l _) in *.
    apply (repr_remove _ _ HK) in H1. set (lk2 := set_range lk1 _) in *.
    eapply repr_perm in H1; [| apply Permutation_app_comm].
    destruct (lf_insert_at lk0 K HK lk2 (c_dead c1 ++ sp) P C1 C2 l (set_start lr (e + 1)))
      as (lk3 & E3 & H5 & _); [exact H1 | | exact HC1 | exact HC2 |].
    { simpl. by rewrite lookup_insert_eq. }
    rewrite E3, bind_Done_l. exists (c_set_lk c1 lk3), C1, C2. split_and!; try done.
  - assert (C1 = []) as ->.
    { destruct C1 as [| p C1]; [done |]. exfalso. inversion HC1; inversion Hle; subst.
      unfold le_start in *. simpl in *. lia. }
    exists c1, [], C2. split_and!; try done. simpl.
    assert (set_start lr (e + 1) = lr) as ->; [| done].
    destruct lr; unfold set_start; simpl in *. f_equal. lia.
Qed.
End Clip.
