(* ===== verification/LockfEffect.v ===== *)
(** * Byte-range locks: the effect of the loop that clips

    Whatever the position of our locks relative to the request, the loop leaves
    a sorted list in which the bytes of the request are locked once, with the
    type of the request (or not at all, for an unlock), and nothing else is
    changed; count follows the number of POSIX locks. *)

From stdpp Require Import prelude list strings gmap sorting.
From S2P Require Import Prelude.
From S2P Require Import Tailq.
From S2P Require Import Lockf.
From S2P Require Import LockfLists.
From S2P Require Import LockfClip.
Open Scope Z_scope.

Definition is_s16 (z : Z) : Prop := - 2 ^ 15 <= z < 2 ^ 15.

Lemma s16_id z : is_s16 z -> s16 z = z.
Proof. unfold is_s16, s16. intros. rewrite Z.mod_small; lia. Qed.

(** A short is a number whose bits from 15 on are equal. *)
Lemma is_s16_shift z : is_s16 z <-> Z.shiftr z 15 = 0 \/ Z.shiftr z 15 = -1.
Proof.
  unfold is_s16. rewrite Z.shiftr_div_pow2 by done. split; [| intros [H|H]].
  - intros Hz. assert (-1 <= z / 2 ^ 15 < 1); [| lia].
    split; [apply Z.div_le_lower_bound | apply Z.div_lt_upper_bound]; lia.
  - pose proof (Z.div_mod z (2 ^ 15)). pose proof (Z.mod_pos_bound z (2 ^ 15)). lia.
  - pose proof (Z.div_mod z (2 ^ 15)). pose proof (Z.mod_pos_bound z (2 ^ 15)). lia.
Qed.

Lemma s16_lor x y : is_s16 x -> Z.shiftr y 15 = 0 -> is_s16 (Z.lor x y).
Proof. rewrite !is_s16_shift. intros H E. by rewrite Z.shiftr_lor, E, Z.lor_0_r. Qed.

Lemma s16_ldiff x y : is_s16 x -> Z.shiftr y 15 = 0 -> is_s16 (Z.ldiff x y).
Proof. rewrite !is_s16_shift. intros H E. by rewrite Z.shiftr_ldiff, E, Z.ldiff_0_r. Qed.

(** Which owners use POSIX locks: a process does, an open file uses flock locks,
    and no owner uses both. *)
Class Style := posix_owner : option nat -> bool.

(** A range as lf_setlock makes them. *)
Record wf {sty : Style} (r : lockf_range) : Prop := Wf {
  wf_start : 0 <= lf_start r;
  wf_wide : lf_start r <= lf_end r;
  wf_end : lf_end r <= LLONG_MAX;
  wf_type : lf_type r = F_RDLCK \/ lf_type r = F_WRLCK;
  wf_flags : is_s16 (lf_flags r);
  wf_style : btest (lf_flags r) F_POSIX = posix_owner (lf_owner r)
}.

Section Effect.
Context {sty : Style}.
Context (own : option nat) (type flags s e : Z).

Abbreviation others := (others own).
Abbreviation own_enclosed := (own_enclosed own s e).

(** Sums that do not look at our ranges. *)
Definition foreign (f : lockf_range -> Z) : Prop := forall r, lf_owner r = own -> f r = 0.

Definition locks : bool := negb (type =? F_UNLCK).
Definition within (x : Z) : bool := (s <=? x) && (x <=? e).

(** What the request does to a list. *)
Record effect (R0 R : elems) : Prop := Effect {
  ef_foreign : forall f, foreign f -> tally f R = tally f R0;
  ef_own : forall t x, tally (cov own t x) R =
             if within x then ind (locks && (type =? t)) else tally (cov own t x) R0;
  ef_sorted : StronglySorted le_start R;
  ef_wf : Forall (fun p => wf p.2) R
}.

(** Ranges that are ours are outside the request. *)
Definition own_apart (R : elems) : Prop :=
  Forall (fun p => lf_owner p.2 = own -> lf_end p.2 < s \/ e < lf_start p.2) R.

(** None of the ranges is ours. *)
Definition own_free (R : elems) : Prop := Forall (fun p => lf_owner p.2 <> own) R.

(** *** Sums over the parts of the list *)

Lemma cov_own t x r : lf_owner r = own -> cov own t x r = ind (inside x r && (lf_type r =? t)).
Proof. intros. unfold cov. by rewrite owned_eq. Qed.

Lemma posix_own r : lf_owner r = own -> posix own r = paid r.
Proof. intros. unfold posix. by rewrite owned_eq. Qed.

Lemma cov_apart t x R : own_apart R -> within x = true -> tally (cov own t x) R = 0.
Proof.
  intros H Hx. unfold within in Hx. zbool. apply tally_zero. eapply Forall_impl; [exact H |].
  intros [i r] Hr. simpl in *. unfold cov. pose proof (owned_spec own r) as Ho.
  destruct (owned own r); [| done]. rewrite (proj2 (inside_not x r)); [done |].
  specialize (Hr Ho). lia.
Qed.

Lemma cov_enclosed t x X : own_enclosed X -> within x = false -> tally (cov own t x) X = 0.
Proof.
  intros H Hx. apply tally_zero. eapply Forall_impl; [exact H |].
  intros [i r] Hr. simpl in *. unfold cov. pose proof (owned_spec own r) as Ho.
  destruct (owned own r); [| done]. rewrite (proj2 (inside_not x r)); [done |].
  specialize (Hr Ho). unfold within in Hx. apply andb_false_iff in Hx as [?|?]; zbool; lia.
Qed.

Lemma others_own_free X : own_free (others X).
Proof.
  apply Forall_forall. intros p [H _]%list_elem_of_filter.
  pose proof (owned_spec own p.2) as Ho. by rewrite H in Ho.
Qed.

Lemma cov_free t x X : own_free X -> tally (cov own t x) X = 0.
Proof.
  intros H. apply tally_zero. eapply Forall_impl; [exact H |].
  intros [i r] Hr. simpl in *. unfold cov. by rewrite owned_ne.
Qed.

Lemma posix_free X : own_free X -> tally (posix own) X = 0.
Proof.
  intros H. apply tally_zero. eapply Forall_impl; [exact H |].
  intros [i r] Hr. simpl in *. unfold posix. by rewrite owned_ne.
Qed.

Lemma foreign_others f X : foreign f -> tally f (others X) = tally f X.
Proof.
  intros Hf. induction X as [| [i r] X IH]; [done |]. unfold LockfClip.others in *.
  rewrite filter_cons. cbn [snd tally]. pose proof (owned_spec own r) as Ho.
  destruct (decide (owned own r = false)) as [E | E]; cbn [tally snd].
  - lia.
  - rewrite (Hf r), IH; [lia |]. by destruct (owned own r).
Qed.

Lemma others_free X : own_free X -> others X = X.
Proof.
  induction 1 as [| p X Hp _ IH]; [done |]. unfold LockfClip.others in *.
  rewrite filter_cons_True by (by apply owned_ne). by rewrite IH.
Qed.

Lemma Forall_others P X : Forall P X -> Forall P (others X).
Proof.
  intros H. apply Forall_forall. intros p [_ Hp]%list_elem_of_filter.
  rewrite Forall_forall in H. by apply H.
Qed.

Lemma sorted_others X : StronglySorted le_start X -> StronglySorted le_start (others X).
Proof.
  induction 1 as [| p X _ IH Hp]; [constructor |]. unfold LockfClip.others in *. rewrite filter_cons.
  case_decide; [| done]. constructor; [done |].
  apply Forall_forall. intros q [_ Hq]%list_elem_of_filter. rewrite Forall_forall in Hp. by apply Hp.
Qed.

Lemma own_free_enclosed X : own_free X -> own_enclosed X.
Proof. intros H. eapply Forall_impl; [exact H |]. intros p Hp. simpl in *. tauto. Qed.

Lemma wake_app X Y : wake own type (X ++ Y) = wake own type X || wake own type Y.
Proof. apply existsb_app. Qed.

Lemma own_free_wake X : own_free X -> wake own type X = false.
Proof.
  induction 1 as [| p X Hp _ IH]; [done |]. unfold wake in *. simpl. by rewrite owned_ne, IH.
Qed.

(** *** Sorted lists, edited *)

Lemma sorted_remove A p B : StronglySorted le_start (A ++ p :: B) -> StronglySorted le_start (A ++ B).
Proof.
  intros (H1 & H2 & H3)%sorted_app. apply sorted_app. inversion H2; subst.
  split_and!; try done. intros a b Ha Hb. apply H3; [done | by right].
Qed.

Lemma sorted_replace A p q B :
  lf_start p.2 = lf_start q.2 ->
  StronglySorted le_start (A ++ p :: B) -> StronglySorted le_start (A ++ q :: B).
Proof.
  intros E (H1 & H2 & H3)%sorted_app. apply sorted_app. inversion H2; subst.
  split_and!; [done | |].
  - constructor; [done |]. eapply Forall_impl; [eassumption |]. unfold le_start. intros; lia.
  - intros a b Ha [-> | Hb]%elem_of_cons.
    + unfold le_start. rewrite <- E. apply (H3 a p); [done | left].
    + apply H3; [done | by right].
Qed.

Definition upto (k : Z) (R : elems) : Prop := Forall (fun p => lf_start p.2 <= k) R.

Lemma below_upto k k' R : below k R -> k <= k' -> upto k' R.
Proof. intros H Hk. eapply Forall_impl; [exact H |]. intros p Hp. simpl in *. lia. Qed.

Lemma upto_weaken k k' R : upto k R -> k <= k' -> upto k' R.
Proof. intros H Hk. eapply Forall_impl; [exact H |]. intros p Hp. simpl in *. lia. Qed.

Lemma sorted_insert A q B :
  upto (lf_start q.2) A -> above (lf_start q.2) B ->
  StronglySorted le_start (A ++ B) -> StronglySorted le_start (A ++ q :: B).
Proof.
  intros HA HB (H1 & H2 & H3)%sorted_app. apply sorted_app. unfold upto, above, le_start in *.
  rewrite Forall_forall in HA. split_and!; [done | by constructor |].
  intros a b Ha [-> | Hb]%elem_of_cons; [| by apply H3]. specialize (HA a Ha). simpl in *. lia.
Qed.

Lemma sorted_others_mid A X B :
  StronglySorted le_start (A ++ X ++ B) -> StronglySorted le_start (A ++ others X ++ B).
Proof.
  intros (H1 & (H2 & H3 & H4)%sorted_app & H5)%sorted_app.
  assert (forall p, p ∈ others X -> p ∈ X) as Hin by (intros p [_ Hp]%list_elem_of_filter; done).
  apply sorted_app. split_and!; [done | |].
  - apply sorted_app. split_and!; [by apply sorted_others | done |]. intros p q Hp Hq. by apply H4; [apply Hin |].
  - intros p q Hp [Hq | Hq]%elem_of_app; apply H5; try done; apply elem_of_app; auto.
Qed.

(** Splits of a sorted list around an element. *)
Lemma sorted_mid_below A p B : StronglySorted le_start (A ++ p :: B) -> upto (lf_start p.2) A.
Proof.
  intros (_ & _ & H)%sorted_app. apply Forall_forall. intros a Ha. apply (H a p Ha). left.
Qed.

Lemma sorted_mid_above A p B : StronglySorted le_start (A ++ p :: B) -> above (lf_start p.2) B.
Proof. intros (_ & H & _)%sorted_app. inversion H; subst. done. Qed.

(** *** The loop from a range that starts within the request *)

(** A range of ours that lf_match accepts. *)
Definition mine (r : lockf_range) : Prop :=
  lf_owner r = own /\ lf_type r = type /\ btest (lf_flags r) F_POSIX = btest flags F_POSIX.

Lemma btest_lxor x y m k : m = 2 ^ k -> 0 <= k -> btest (Z.lxor x y) m = xorb (btest x m) (btest y m).
Proof.
  intros -> Hk. assert (forall z, btest z (2 ^ k) = Z.testbit z k) as E; [| by rewrite !E, Z.lxor_spec].
  intros z. unfold btest. destruct (Z.eqb_spec (Z.land z (2 ^ k)) 0) as [H | H].
  - apply (f_equal (fun v => Z.testbit v k)) in H.
    rewrite Z.land_spec, Z.pow2_bits_true, andb_true_r, Z.bits_0 in H by done. by rewrite H.
  - destruct (Z.testbit z k) eqn:Hz; [done |]. exfalso. apply H. apply Z.bits_inj'. intros i Hi.
    rewrite Z.land_spec, Z.bits_0, Z.pow2_bits_eqb by done.
    destruct (Z.eqb_spec k i) as [-> |]; [by rewrite Hz | apply andb_false_r].
Qed.

Lemma lf_match_mine r : lf_owner r = own -> lf_match r type flags = true <-> mine r.
Proof.
  intros Ho. unfold lf_match, mine. rewrite (btest_lxor _ _ _ 6) by done.
  destruct (Z.eqb_spec (lf_type r) type); simpl; [| naive_solver].
  destruct (btest (lf_flags r) F_POSIX), (btest flags F_POSIX); simpl; naive_solver.
Qed.

Lemma absorb_posix a b : btest (lf_flags (absorb a b)) F_POSIX = btest (lf_flags a) F_POSIX.
Proof.
  unfold absorb. cbn [lf_flags set_flags]. rewrite btest_lor.
  assert (btest (Z.land (lf_flags b) F_NOEND) F_POSIX = false) as ->; [| apply orb_false_r].
  unfold btest. rewrite <- Z.land_assoc. change (Z.land F_NOEND F_POSIX) with 0. by rewrite Z.land_0_r.
Qed.

Lemma posix_absorb a b : lf_owner a = own -> posix own (absorb a b) = paid a.
Proof. intros H. rewrite posix_own by done. unfold paid. by rewrite absorb_posix. Qed.

Lemma absorb_s16 a b : is_s16 (lf_flags a) -> is_s16 (lf_flags (absorb a b)).
Proof.
  intros Ha. apply s16_lor; [exact Ha |]. rewrite Z.shiftr_land.
  change (Z.shiftr F_NOEND 15) with 0. apply Z.land_0_r.
Qed.

Lemma wf_absorb a b : wf a -> wf b -> lf_start a <= lf_end b -> wf (absorb a b).
Proof.
  intros [] [] H. split; try done; [by apply absorb_s16 | by rewrite absorb_posix].
Qed.

(** What the loop does from the first range that starts in the request on. *)
Record rest_ok (P R1 R : elems) (b : option nat) : Prop := RestOk {
  ro_foreign : forall f, foreign f -> tally f R = tally f R1;
  ro_own : forall t x, tally (cov own t x) R =
             if within x then tally (cov own t x) P else tally (cov own t x) R1;
  ro_sorted : StronglySorted le_start R;
  ro_wf : Forall (fun p => wf p.2) R;
  ro_brange : forall bi, b = Some bi -> exists Y1 br Y2, R = Y1 ++ (bi, br) :: Y2 /\ mine br
}.

(** Where brange is before the loop reaches a range that may be merged with it. *)
Definition brange_in (b : option nat) (P : elems) : Prop :=
  match b with
  | None => True
  | Some bi => exists P1 br P2, P = P1 ++ (bi, br) :: P2 /\ mine br /\ lf_end br = e /\ lf_start br <= s
  end.

Section Rest.
Context (lk0 : lockf) (K : list nat).
Hypothesis HK : NoDup K.
Hypothesis Hse : 0 <= s <= e.
Hypothesis He : e <= LLONG_MAX.
Context (P X C : elems) (l : nat) (lr : lockf_range) (b : option nat).
Hypothesis Hsort : StronglySorted le_start (P ++ X ++ (l, lr) :: C).
Hypothesis Hwf : Forall (fun p => wf p.2) (P ++ X ++ (l, lr) :: C).
Hypothesis HX : own_enclosed X.
Hypothesis HC : own_apart C.
Hypothesis Hlo : lf_owner lr = own.
Hypothesis Hls : s <= lf_start lr <= e + 1.
Hypothesis Hb : brange_in b P.

Lemma rest_facts t x :
  (within x = true -> tally (cov own t x) C = 0) /\
  (within x = false -> tally (cov own t x) X = 0) /\
  tally (cov own t x) (others X) = 0 /\
  cov own t x lr = ind (inside x lr && (lf_type lr =? t)).
Proof.
  split_and!; intros; [by apply cov_apart | by apply cov_enclosed | apply cov_free, others_own_free |
    by apply cov_own].
Qed.

Lemma rest_wf : Forall (fun p => wf p.2) (P ++ others X ++ C) /\ wf lr.
Proof.
  pose proof Hwf as H. apply Forall_app in H as [H1 H2]. apply Forall_app in H2 as [H2 H3].
  inversion H3; subst. split; [| done]. repeat apply Forall_app_2; try done. by apply Forall_others.
Qed.

Lemma rest_sorted : StronglySorted le_start (P ++ others X ++ (l, lr) :: C).
Proof. by apply sorted_others_mid. Qed.

Lemma rest_brange R (f : lockf_range -> lockf_range) :
  (forall P1 bi br P2, P = P1 ++ (bi, br) :: P2 -> b = Some bi -> exists Y1 Y2, R = Y1 ++ (bi, f br) :: Y2) ->
  (forall r, mine r -> mine (f r)) ->
  forall bi, b = Some bi -> exists Y1 br Y2, R = Y1 ++ (bi, br) :: Y2 /\ mine br.
Proof.
  intros HR Hf bi E. pose proof Hb as H. rewrite E in H. destruct H as (P1 & br & P2 & EP & Hm & _).
  destruct (HR _ _ _ _ EP E) as (Y1 & Y2 & ->). exists Y1, (f br), Y2. auto.
Qed.

(** The last range is deleted. *)
Lemma rest_delete : lf_end lr <= e -> rest_ok P (P ++ X ++ (l, lr) :: C) (P ++ others X ++ C) b.
Proof.
  intros Hle. split.
  - intros f Hf. sums. rewrite foreign_others, (Hf lr) by done. lia.
  - intros t x. destruct (rest_facts t x) as (H1 & H2 & H3 & H4). sums. rewrite H3, H4.
    destruct (within x) eqn:Ex; [rewrite H1 by done; lia |]. rewrite H2 by done.
    rewrite (proj2 (inside_not x lr)); [simpl; lia |].
    unfold within in Ex. apply andb_false_iff in Ex as [?|?]; zbool; lia.
  - pose proof rest_sorted as H. rewrite app_assoc in H |- *. by apply sorted_remove in H.
  - apply rest_wf.
  - apply (rest_brange _ id); [| done]. intros P1 bi br P2 -> _. exists P1, (P2 ++ others X ++ C).
    by rewrite <- app_assoc.
Qed.

(** The last range is cut. *)
Lemma rest_cut C1 C2 :
  e < lf_end lr -> C = C1 ++ C2 -> below (e + 1) C1 -> above (e + 1) C2 ->
  rest_ok P (P ++ X ++ (l, lr) :: C) (P ++ others X ++ C1 ++ (l, set_start lr (e + 1)) :: C2) b.
Proof.
  intros Hle EC HC1 HC2. split.
  - intros f Hf. sums. rewrite foreign_others, EC, (Hf lr), (Hf (set_start lr _)) by done. sums. lia.
  - intros t x. destruct (rest_facts t x) as (H1 & H2 & H3 & H4). revert H1 H2. sums. rewrite H3, H4.
    rewrite cov_own by done. rewrite EC. sums. intros H1 H2.
    destruct (within x) eqn:Ex; unfold within in Ex; unfold inside; cbn [lf_start lf_end lf_type set_start].
    + zbool. rewrite (proj2 (Z.leb_gt (e + 1) x)) by lia. cbn [andb ind]. specialize (H1 eq_refl). lia.
    + rewrite H2 by done. replace ((e + 1 <=? x) && (x <=? lf_end lr))
        with ((lf_start lr <=? x) && (x <=? lf_end lr)); [lia |].
      apply andb_false_iff in Ex as [Ex|Ex]; zbool; destruct (Z.leb_spec x (lf_end lr));
        rewrite ?andb_true_r, ?andb_false_r; try done;
        destruct (Z.leb_spec (lf_start lr) x), (Z.leb_spec (e + 1) x); done || lia.
  - pose proof rest_sorted as H. rewrite EC, app_assoc in H. rewrite (app_assoc P), (app_assoc (P ++ others X)).
    apply sorted_insert; [| exact HC2 |].
    + apply Forall_app_2; [| apply (below_upto _ _ _ HC1); simpl; lia].
      apply (upto_weaken _ _ _ (sorted_mid_below _ _ _ H)). simpl. lia.
    + apply sorted_remove in H. by rewrite <- app_assoc.
  - destruct rest_wf as [H []]. rewrite EC in H. rewrite !Forall_app in H |- *.
    destruct H as (? & ? & ? & ?). split_and!; try done. constructor; [| done].
    split; simpl in *; try done; lia.
  - apply (rest_brange _ id); [| done]. intros P1 bi br P2 -> _. eexists P1, _.
    by rewrite <- app_assoc.
Qed.

(** The last range is merged with brange. *)
Lemma rest_merge P1 bi br P2 :
  e < lf_end lr -> b = Some bi -> P = P1 ++ (bi, br) :: P2 -> mine br -> lf_end br = e ->
  lf_start br <= s -> lf_match lr type flags = true ->
  rest_ok P (P ++ X ++ (l, lr) :: C) (P1 ++ (bi, absorb br lr) :: P2 ++ others X ++ C) b.
Proof.
  intros Hle Eb EP Hbr Hbe Hbs Hm. apply lf_match_mine in Hm; [| done].
  destruct Hbr as (Hbo & Hbt & Hbp). destruct Hm as (_ & Hlt & _). split.
  - intros f Hf. rewrite EP. sums. rewrite foreign_others, (Hf lr), (Hf br), (Hf (absorb br lr)) by done. lia.
  - intros t x. destruct (rest_facts t x) as (H1 & H2 & H3 & H4). rewrite EP. sums. rewrite H3, H4.
    rewrite (cov_own _ _ br), (cov_own _ _ (absorb br lr)) by done. unfold inside, absorb.
    cbn [lf_start lf_end lf_type set_flags set_end]. rewrite Hbt, Hlt, Hbe.
    destruct (within x) eqn:Ex; unfold within in Ex.
    + rewrite H1 by done. zbool. destruct (type =? t); rewrite ?andb_true_r, ?andb_false_r; cases.
    + rewrite H2 by done. apply andb_false_iff in Ex as [Ex|Ex]; zbool;
        destruct (type =? t); rewrite ?andb_true_r, ?andb_false_r; cases.
  - pose proof rest_sorted as H. rewrite EP, <- app_assoc in H. simpl in H.
    apply (sorted_replace _ _ (bi, absorb br lr)) in H; [| done].
    replace (P1 ++ (bi, absorb br lr) :: P2 ++ others X ++ (l, lr) :: C) with
      ((P1 ++ (bi, absorb br lr) :: P2 ++ others X) ++ (l, lr) :: C) in H
      by (by rewrite <- !app_assoc, <- !app_comm_cons, <- app_assoc).
    apply sorted_remove in H. by rewrite <- !app_assoc, <- !app_comm_cons, <- app_assoc in H.
  - destruct rest_wf as [H Hl]. rewrite EP, <- app_assoc in H. simpl in H.
    rewrite Forall_app, Forall_cons in H |- *. destruct H as (? & ? & ?). split_and!; try done.
    apply wf_absorb; try done. lia.
  - intros bi' E. rewrite Eb in E. injection E as <-. exists P1, (absorb br lr), (P2 ++ others X ++ C).
    split; [done |]. split_and!; try done. by rewrite absorb_posix.
Qed.

(** The loop from here to its end. *)
Lemma clip_rest sp fuel fm c n w :
  st lk0 K sp c (P ++ X ++ (l, lr) :: C) b n w -> (length X < fuel)%nat ->
  exists c' R n',
    lf_clip fuel own type flags s e fm l (head (X ++ (l, lr) :: C).*1) c = Done c' /\
    st lk0 K sp c' R b n' (w || wake own type X || downgrades type lr) /\
    rest_ok P (P ++ X ++ (l, lr) :: C) R b /\
    n' - n = tally (posix own) R - tally (posix own) (P ++ X ++ (l, lr) :: C) /\
    n' + tally (posix own) X <= n /\
    (b <> None \/ lf_end lr <= e -> lf_match lr type flags = true \/ lf_end lr <= e ->
     n' + tally (posix own) X + paid lr <= n).
Proof.
  intros H Hf. pose proof (repr_nodup _ _ HK _ _ _ (st_repr _ _ _ _ _ _ _ _ H)) as Hnd.
  rewrite !fmap_app in Hnd. apply NoDup_app in Hnd as (_ & _ & Hnd).
  apply NoDup_app in Hnd as (_ & HnP & Hnd). apply NoDup_app in Hnd as (_ & HnX & _).
  assert (forall i, i ∈ P.*1 -> (i ∉ X.*1) /\ i <> l) as HbX.
  { intros i Hi. specialize (HnP i Hi). split.
    - intros Hx. apply HnP, elem_of_app. by left.
    - intros ->. apply HnP, elem_of_app. right. left. }
  assert (forall i, b = Some i -> i ∈ P.*1) as HbP.
  { intros i E. pose proof Hb as H'. rewrite E in H'. destruct H' as (P1 & br & P2 & -> & _).
    rewrite fmap_app. set_solver. }
  assert (l ∉ X.*1) as HlX.
  { intros Hi. apply (HnX l Hi). left. }
  replace fuel with (length X + S (fuel - S (length X)))%nat by lia.
  destruct (clip_enclosed lk0 K HK own type flags s e sp (S (fuel - S (length X))) fm l X c P ((l, lr) :: C) b n w)
    as (c1 & -> & H1); try done.
  { intros i E. by apply HbX, HbP. }
  assert (b <> Some l) as Hbl.
  { intros E. by destruct (HbX _ (HbP _ E)). }
  assert (posix own lr = paid lr) as Hp by (by apply posix_own).
  assert (tally (posix own) (others X) = 0) as Ho by (apply posix_free, others_own_free).
  assert (0 <= paid lr) as Hpp by apply ind_nonneg.
  cbn [fmap list_fmap head fst]. rewrite app_assoc in H1. 
  destruct (Z.le_gt_cases (lf_end lr) e) as [Hle | Hle].
  - destruct (clip_last_enclosed lk0 K HK own type flags s e sp (fuel - S (length X)) fm _ _ _ _ _ _ _ _ H1)
      as (c2 & -> & H2); try done; try lia.
    eexists c2, _, _. split; [reflexivity |]. rewrite <- app_assoc in H2. split; [exact H2 |].
    split; [by apply rest_delete |]. sums. rewrite Ho, Hp. lia.
  - destruct (decide (b <> None /\ lf_match lr type flags = true)) as [[Hb1 Hm] | Hno].
    + assert (exists bi, b = Some bi) as [bi Eb] by (destruct b; eauto; done).
      pose proof Hb as Hb2. rewrite Eb in Hb2. destruct Hb2 as (P1 & br & P2 & EP & Hbr & Hbe & Hbs).
      rewrite <- app_assoc in H1. rewrite Eb, EP, <- app_assoc, <- app_comm_cons, (app_assoc P2) in H1.
      destruct (clip_last_merge lk0 K HK own type flags s e sp (fuel - S (length X)) fm _ _ _ _ _ _ _ _ _ _ H1)
        as (c2 & -> & H2); try done; try lia; try congruence.
      rewrite <- Eb in H2. eexists c2, _, _. split; [reflexivity |]. split; [exact H2 |].
      split. { rewrite <- app_assoc. by apply rest_merge. }
      rewrite EP. sums. rewrite Ho, Hp. destruct Hbr as (Hbo & _).
      rewrite posix_absorb, (posix_own br) by done. lia.
    + destruct (clip_last_cut lk0 K HK own type flags s e sp (fuel - S (length X)) fm _ _ _ _ _ _ _ _ H1)
        as (c2 & C1 & C2 & -> & EC & HC1 & HC2 & H2); try done; try lia.
      { destruct b; [right | by left]. destruct (lf_match _ _ _); [| done]. exfalso. by apply Hno. }
      { pose proof rest_sorted as Hs. rewrite app_assoc in Hs. by apply sorted_app in Hs as (_ & Hs & _). }
      eexists c2, _, _. split; [reflexivity |]. rewrite <- app_assoc in H2. split; [exact H2 |].
      split; [by apply rest_cut |]. rewrite EC. sums. rewrite Ho, Hp.
      assert (posix own (set_start lr (e + 1)) = paid lr) as -> by (by rewrite posix_own by done).
      split_and!; [lia | lia |]. intros Hb1 Hm. exfalso. destruct (lf_match lr type flags) eqn:?; [| destruct Hm; done || lia].
      destruct Hb1 as [Hb1 | ?]; [| lia]. by apply Hno.
Qed.
End Rest.
End Effect.
