(* ===== verification/LockfGrant.v ===== *)
(** * Byte-range locks: granting a request

    The effect of lf_grant, which installs a request that conflicts with no
    other owner, for every position of our locks relative to it. *)

From stdpp Require Import prelude list strings gmap sorting.
From S2P Require Import Prelude.
From S2P Require Import Tailq.
From S2P Require Import Lockf.
From S2P Require Import LockfLists.
From S2P Require Import LockfClip.
From S2P Require Import LockfEffect.
Open Scope Z_scope.

Section Loop.
Context {sty : Style}.
Context (lk0 : lockf) (K : list nat).
Hypothesis HK : NoDup K.
Context (own : option nat) (type flags s e : Z).
Hypothesis Hse : 0 <= s <= e.
Hypothesis He : e <= LLONG_MAX.
Context (b : option nat).
Hypothesis Hlocks : locks type = bool_decide (is_Some b).

(** brange, where it is in the list. *)
Definition brq : lockf_range := LockfRange type flags s e own.
Definition bl : elems := match b with Some bi => [(bi, brq)] | None => [] end.

Abbreviation within := (within s e).
Abbreviation effect := (effect own type s e).
Abbreviation own_apart := (own_apart own s e).
Abbreviation own_enclosed := (own_enclosed own s e).
Abbreviation own_free := (own_free own).
Abbreviation st := (st lk0 K).
Abbreviation run := (lf_clip).

(** The loop from [c] with list [R1] ends with [R]; before brange was put
    into it, the list was [R0]. *)
Record loop_ok (R0 R1 R : elems) (b' : option nat) (n n' : Z) : Prop := LoopOk {
  lo_effect : effect R0 R;
  lo_count : n' - n = tally (posix own) R - tally (posix own) R1;
  lo_locks : locks type = true ->
    exists Y1 bi br Y2, b' = Some bi /\ R = Y1 ++ (bi, br) :: Y2 /\ mine own type flags br;
  lo_unlocks : locks type = false -> b' = None
}.

Lemma tally_bl f : tally f bl = if locks type then f brq else 0.
Proof. rewrite Hlocks. unfold bl. destruct b; simpl; lia. Qed.

Lemma foreign_bl f : foreign own f -> tally f bl = 0.
Proof. intros Hf. rewrite tally_bl. destruct (locks type); [by apply Hf | done]. Qed.

Lemma cov_bl t x : tally (cov own t x) bl = if within x then ind (locks type && (type =? t)) else 0.
Proof.
  rewrite tally_bl, cov_own by done. unfold inside, LockfEffect.within. cbn [lf_start lf_end lf_type brq].
  by destruct (locks type), ((s <=? x) && (x <=? e)).
Qed.

Lemma brange_in_bl A1 A2 : brange_in own type flags s e b (A1 ++ bl ++ A2).
Proof.
  unfold brange_in, bl. destruct b as [bi |]; [| done]. exists A1, brq, A2. split_and!; done.
Qed.

Lemma mine_brq : mine own type flags brq.
Proof. done. Qed.

(** From what clip_rest shows to the effect of the whole loop. *)
Lemma rest_loop P R0 R2 R1 R b' n n' :
  rest_ok own type flags s e P R2 R b' ->
  n' - n = tally (posix own) R - tally (posix own) R1 ->
  (forall f, foreign own f -> tally f R2 = tally f R0) ->
  (forall t x, within x = true -> tally (cov own t x) P = ind (locks type && (type =? t))) ->
  (forall t x, within x = false -> tally (cov own t x) R2 = tally (cov own t x) R0) ->
  bool_decide (is_Some b') = locks type ->
  loop_ok R0 R1 R b' n n'.
Proof.
  intros [H1 H2 H3 H4 H5] Hn Hf Hin Hout Hb'. split.
  - split; try done; [intros f Hf'; rewrite H1, Hf; done |].
    intros t x. rewrite H2. destruct (within x) eqn:E; auto.
  - done.
  - intros El. rewrite El in Hb'. destruct b' as [bi |]; [| done].
    destruct (H5 bi eq_refl) as (Y1 & br & Y2 & ? & ?). by exists Y1, bi, br, Y2.
  - intros El. rewrite El in Hb'. by destruct b'.
Qed.

(** Our first lock that overlaps starts within the request. *)
Lemma clip_inside sp fuel fm A1 A2 X l lr C c n w :
  let R1 := A1 ++ bl ++ A2 ++ X ++ (l, lr) :: C in
  st sp c R1 b n w -> (length X < fuel)%nat ->
  StronglySorted le_start R1 -> Forall (fun p => wf p.2) R1 ->
  own_apart A1 -> own_apart A2 -> own_enclosed X -> own_apart C ->
  lf_owner lr = own -> s <= lf_start lr <= e ->
  exists c' R n' w',
    run fuel own type flags s e fm l (head (X ++ (l, lr) :: C).*1) c = Done c' /\
    st sp c' R b n' w' /\ w' = w || wake own type X || downgrades type lr /\
    loop_ok (A1 ++ A2 ++ X ++ (l, lr) :: C) R1 R b n n' /\
    n' + tally (posix own) X <= n /\
    (locks type = true -> lf_match lr type flags = true -> n' + tally (posix own) X + paid lr <= n).
Proof.
  intros R1 H Hf Hs Hw HA1 HA2 HX HC Ho Hl. set (P := A1 ++ bl ++ A2).
  assert (R1 = P ++ X ++ (l, lr) :: C) as ER by (unfold R1, P; by rewrite <- !app_assoc).
  rewrite ER in *.
  destruct (clip_rest own type flags s e lk0 K HK Hse He P X C l lr b Hs Hw HX HC Ho) with (sp := sp) (c := c) (n := n) (w := w) (fuel := fuel) (fm := fm)
    as (c' & R & n' & E & H1 & H2 & H3 & H4 & H5); [lia | apply brange_in_bl | done | done |].
  exists c', R, n', (w || wake own type X || downgrades type lr). split_and!; try done.
  - apply (rest_loop P _ (P ++ X ++ (l, lr) :: C)); try done; unfold P.
    + intros f Hf'. sums. rewrite foreign_bl by done. lia.
    + intros t x E'. sums. rewrite cov_bl, E', !(cov_apart _ s e) by done. lia.
    + intros t x E'. sums. rewrite cov_bl, E'. lia.
  - intros El Hm. apply H5; [| by left]. left. rewrite El in Hlocks. by destruct b.
Qed.

(** *** Our first lock that overlaps starts before the request *)

Section First.
Context (f : nat) (fr : lockf_range).
Hypothesis Hfo : lf_owner fr = own.
Hypothesis Hfs : lf_start fr < s.
Hypothesis Hfe : s - 1 <= lf_end fr <= e.
Hypothesis Hfw : wf fr.
Hypothesis Hbf : b <> Some f.

Lemma brq_wf : locks type = true -> type = F_RDLCK \/ type = F_WRLCK \/ type = F_UNLCK ->
  is_s16 flags -> btest flags F_POSIX = posix_owner own -> wf brq.
Proof.
  intros Hl Ht Hfl Hsty. unfold locks in Hl. zbool. split; simpl; lia || done || tauto.
Qed.

(** Merged with brange. *)
Lemma cov_merged t x : lf_match fr type flags = true ->
  cov own t x (absorb fr brq) = if within x then ind (type =? t) else cov own t x fr.
Proof.
  intros Hm. apply (lf_match_mine own) in Hm as (_ & Ht & _); [| done]. rewrite !cov_own by done.
  unfold LockfEffect.within, inside. cbn [lf_start lf_end lf_type absorb set_flags set_end brq].
  rewrite Ht. destruct (type =? t); rewrite ?andb_true_r, ?andb_false_r; [cases | by destruct (_ && _)].
Qed.

(** Cut. *)
Definition fcut : lockf_range := clipped_left type s fr.

Lemma fcut_fields :
  lf_start fcut = lf_start fr /\ lf_end fcut = s - 1 /\ lf_type fcut = lf_type fr /\
  lf_owner fcut = own /\ paid fcut = paid fr.
Proof.
  unfold fcut, clipped_left. rewrite Z.geb_leb. destruct (Z.leb_spec s (lf_end fr)); simpl.
  - split_and!; try done. unfold paid. f_equal. cbn [lf_flags set_flags].
    destruct (type =? F_UNLCK); simpl; [done |]. by apply btest_ldiff_disjoint.
  - split_and!; try done. lia.
Qed.

Lemma fcut_wf : wf fcut.
Proof.
  destruct fcut_fields as (H1 & H2 & H3 & H4 & _). destruct Hfw. split; rewrite ?H1, ?H2, ?H3; try done; try lia;
    unfold fcut, clipped_left; (destruct (lf_end fr >=? s); [| done]); cbn [lf_flags lf_owner set_flags set_end];
    (destruct (negb _); [| done]).
  - by apply s16_ldiff.
  - by rewrite btest_ldiff_disjoint.
Qed.

Lemma cov_cut t x : cov own t x fcut = if within x then 0 else cov own t x fr.
Proof.
  destruct fcut_fields as (H1 & H2 & H3 & H4 & _). rewrite !cov_own by done.
  unfold LockfEffect.within, inside. rewrite H1, H2, H3.
  destruct (lf_type fr =? t); rewrite ?andb_true_r, ?andb_false_r; [cases | by destruct (_ && _)].
Qed.

(** It is the only one. *)
Lemma clip_single sp fuel A C1 C2 c n w :
  let R1 := A ++ (f, fr) :: C1 ++ bl ++ C2 in
  st sp c R1 b n w ->
  StronglySorted le_start R1 -> Forall (fun p => wf p.2) R1 ->
  own_apart A -> own_apart C1 -> own_apart C2 ->
  exists c' R b' n',
    run (S fuel) own type flags s e f f (Some f) c = Done c' /\
    st sp c' R b' n' (w || downgrades type fr) /\
    loop_ok (A ++ (f, fr) :: C1 ++ C2) R1 R b' n n' /\ n' <= n /\
    (locks type = true -> lf_match fr type flags = true -> n' + paid brq <= n).
Proof.
  intros R1 H Hs Hw HA HC1 HC2. unfold R1 in *. clear R1.
  destruct (decide (b <> None /\ lf_match fr type flags = true)) as [[Hb1 Hm] | Hno].
  - assert (exists bi, b = Some bi) as [bi Eb] by (destruct b; eauto; done).
    assert (bl = [(bi, brq)]) as Ebl by (unfold bl; by rewrite Eb).
    assert (locks type = true) as El by (rewrite Hlocks, Eb; done).
    rewrite Ebl in *. rewrite Eb in H. simpl app in *.
    destruct (clip_first_merge lk0 K HK own type flags s e sp fuel f _ _ _ _ _ _ _ _ _ _ H)
      as (c' & H1 & ->); try done; try lia.
    rewrite Nat.eqb_refl. eexists c', _, _, _. split; [reflexivity |]. split; [exact H1 |].
    pose proof (posix_own own fr Hfo) as Hp1. pose proof (posix_own own brq eq_refl) as Hp2.
    pose proof (posix_absorb own fr brq Hfo) as Hp3.
    assert (0 <= paid brq) by apply ind_nonneg. split; [| lia]. split.
    + split.
      * intros g Hg. sums. rewrite !(Hg _) by done. lia.
      * intros t x. sums. rewrite cov_merged, El by done. cbn [andb].
        destruct (within x) eqn:Ex; [| done]. rewrite !(cov_apart _ s e) by done. lia.
      * apply (sorted_replace _ _ (f, absorb fr brq)) in Hs; [| done].
        rewrite app_comm_cons, app_assoc in Hs |- *. by apply sorted_remove in Hs.
      * rewrite Forall_app, Forall_cons, Forall_app, Forall_cons in Hw. destruct Hw as (? & ? & ? & ? & ?).
        rewrite Forall_app, Forall_cons, Forall_app. split_and!; try done. apply wf_absorb; try done. simpl. lia.
    + sums. rewrite Hp1, Hp2, Hp3. lia.
    + intros _. exists A, f, (absorb fr brq), (C1 ++ C2). split_and!; try done.
      apply (lf_match_mine own) in Hm as (? & ? & ?); [| done]. split_and!; try done. by rewrite absorb_posix.
    + congruence.
  - destruct (clip_first_cut lk0 K HK own type flags s e sp fuel f _ _ _ _ _ _ _ _ H)
      as (c' & H1 & ->); try done.
    { destruct b; [right | by left]. destruct (lf_match _ _ _); [| done]. exfalso. by apply Hno. }
    rewrite Nat.eqb_refl. eexists c', _, _, _. split; [reflexivity |]. split; [exact H1 |].
    fold fcut. pose proof fcut_fields as (F1 & F2 & F3 & F4 & F5).
    split; [| split; [lia |]]; cycle 1.
    { intros El Hm. exfalso. apply Hno. split; [| done]. rewrite El in Hlocks. by destruct b. }
    split.
    + split.
      * intros g Hg. sums. rewrite (Hg fr), (Hg fcut), foreign_bl by done. lia.
      * intros t x. sums. rewrite cov_cut, cov_bl.
        destruct (within x) eqn:Ex; [| lia]. rewrite !(cov_apart _ s e) by done. lia.
      * by apply (sorted_replace _ _ (f, fcut)) in Hs.
      * rewrite Forall_app, Forall_cons in Hw |- *. destruct Hw as (? & ? & ?). split_and!; try done. apply fcut_wf.
    + sums. rewrite !posix_own by done. lia.
    + intros El. unfold bl. rewrite El in Hlocks. destruct b as [bi |]; [| done].
      exists (A ++ (f, fcut) :: C1), bi, brq, C2. split_and!; try done. by rewrite <- app_assoc.
    + intros El. rewrite El in Hlocks. by destruct b.
Qed.

(** There are more. *)
Section Across.
Context (A X1 X2 C : elems) (l : nat) (lr : lockf_range).
Let R0 := A ++ (f, fr) :: X1 ++ X2 ++ (l, lr) :: C.
Let R1 := A ++ (f, fr) :: X1 ++ bl ++ X2 ++ (l, lr) :: C.
Hypothesis Hs : StronglySorted le_start R1.
Hypothesis Hw : Forall (fun p => wf p.2) R1.
Hypothesis HA : own_apart A.
Hypothesis HX1 : own_free X1.
Hypothesis HX2 : own_enclosed X2.
Hypothesis HC : own_apart C.
Hypothesis Hlo : lf_owner lr = own.
Hypothesis Hls : s <= lf_start lr <= e + 1.
Hypothesis Hfl : f <> l.

Let gain r : Z := if lf_match r type flags then paid r else 0.

Lemma across_merge sp fuel bi c n w :
  b = Some bi -> lf_match fr type flags = true ->
  st sp c R1 b n w -> (length X1 + length X2 < fuel)%nat ->
  exists c' R n',
    run (S fuel) own type flags s e f l (Some f) c = Done c' /\
    st sp c' R (Some f) n' (w || downgrades type fr || wake own type X2 || downgrades type lr) /\
    loop_ok R0 R1 R (Some f) n n' /\ n' + paid brq + gain lr <= n.
Proof.
  intros Eb Hm H Hf. assert (bl = [(bi, brq)]) as Ebl by (unfold bl; by rewrite Eb).
  assert (locks type = true) as El by (rewrite Hlocks, Eb; done).
  unfold R1 in *. rewrite Ebl in *. rewrite Eb in H. simpl app in *.
  destruct (clip_first_merge lk0 K HK own type flags s e sp fuel l _ _ _ _ _ _ _ _ _ _ H)
    as (c1 & H1 & ->); try done; try lia. rewrite (proj2 (Nat.eqb_neq f l)) by done.
  set (ab := absorb fr brq) in *. set (P := A ++ [(f, ab)]).
  assert (forall T, A ++ (f, ab) :: T = P ++ T) as EP by (intros T; unfold P; by rewrite <- app_assoc).
  rewrite (app_assoc X1 X2), EP in H1. rewrite (app_assoc X1 X2).
  assert (mine own type flags ab) as Hab.
  { apply (lf_match_mine own) in Hm as (? & ? & ?); [| done]. split_and!; try done. unfold ab. by rewrite absorb_posix. }
  apply (sorted_replace _ _ (f, ab)) in Hs; [| done].
  rewrite app_comm_cons, (app_assoc A) in Hs. apply sorted_remove in Hs.
  rewrite <- app_assoc, <- app_comm_cons, EP, (app_assoc X1) in Hs.
  assert (Forall (fun p => wf p.2) (P ++ (X1 ++ X2) ++ (l, lr) :: C)) as Hw'.
  { unfold P. revert Hw. foralls. intros Hw.
    assert (wf ab) by (apply wf_absorb; [done | tauto | simpl; lia]). tauto. }
  assert (own_enclosed (X1 ++ X2)) as HX by (apply Forall_app_2; [by apply own_free_enclosed | done]).
  destruct (clip_rest own type flags s e lk0 K HK Hse He P (X1 ++ X2) C l lr (Some f) Hs Hw' HX HC Hlo Hls)
    with (sp := sp) (c := c1) (n := n - paid brq) (w := w || downgrades type fr) (fuel := fuel) (fm := f)
    as (c' & R & n' & E & H2 & H3 & H4 & H5 & H6); try done.
  { exists A, ab, []. split_and!; try done; simpl; lia. }
  { rewrite length_app. lia. }
  exists c', R, n'. split; [exact E |]. rewrite wake_app, (own_free_wake _ _ X1) in H2 by done. split; [exact H2 |].
  pose proof (tally_nonneg _ (X1 ++ X2) (posix_nonneg own)) as Hpos.
  split; cycle 1.
  { unfold gain. destruct (lf_match lr type flags) eqn:Eml; [| lia].
    assert (n' + tally (posix own) (X1 ++ X2) + paid lr <= n - paid brq); [| lia].
    apply H6; left; done. }
  assert (posix own ab = posix own fr) as Hpa.
  { rewrite (posix_own own fr) by done. by apply posix_absorb. }
  pose proof (posix_own own brq eq_refl) as Hpb.
  apply (rest_loop P _ (P ++ (X1 ++ X2) ++ (l, lr) :: C)); try done; unfold P, R0.
  - revert H4. unfold P. sums. lia.
  - intros g Hg. sums. rewrite !(Hg _) by done. lia.
  - intros t x Ex. sums. unfold ab. rewrite cov_merged, Ex, El, (cov_apart _ s e) by done. simpl. lia.
  - intros t x Ex. sums. unfold ab. rewrite cov_merged, Ex by done. lia.
Qed.

Lemma across_cut sp fuel c n w :
  b = None \/ lf_match fr type flags = false ->
  st sp c R1 b n w -> (length X1 + length X2 + 1 < fuel)%nat ->
  exists c' R n',
    run (S fuel) own type flags s e f l (Some f) c = Done c' /\
    st sp c' R b n' (w || downgrades type fr || wake own type X2 || downgrades type lr) /\
    loop_ok R0 R1 R b n n' /\ (locks type = true -> n' + gain lr <= n) /\ n' <= n.
Proof.
  intros Hm H Hf. unfold R1 in *.
  destruct (clip_first_cut lk0 K HK own type flags s e sp fuel l _ _ _ _ _ _ _ _ H)
    as (c1 & H1 & ->); try done. rewrite (proj2 (Nat.eqb_neq f l)) by done. fold fcut in H1.
  set (Q := bl ++ X2 ++ (l, lr) :: C) in *. set (A' := A ++ [(f, fcut)]).
  assert (forall T, A ++ (f, fcut) :: T = A' ++ T) as EP by (intros T; unfold A'; by rewrite <- app_assoc).
  rewrite EP in H1.
  pose proof (repr_nodup _ _ HK _ _ _ (st_repr _ _ _ _ _ _ _ _ H1)) as Hnd. rewrite !fmap_app in Hnd.
  apply NoDup_app in Hnd as (_ & _ & Hnd). apply NoDup_app in Hnd as (_ & _ & Hnd).
  apply NoDup_app in Hnd as (_ & Hnd & _).
  replace fuel with (length X1 + (fuel - length X1))%nat by lia.
  destruct (clip_enclosed lk0 K HK own type flags s e sp (fuel - length X1) f l X1 c1 A' Q b n
              (w || downgrades type fr) H1) as (c2 & -> & H2).
  { intros i Eb Hi. apply (Hnd i Hi). unfold Q, bl. rewrite Eb. left. }
  { intros Hi. apply (Hnd l Hi). unfold Q. rewrite !fmap_app. set_solver. }
  { by apply own_free_enclosed. }
  rewrite (others_free own X1), (posix_free own X1), (own_free_wake own type X1), Z.sub_0_r, orb_false_r in H2 by done.
  assert (exists fuel', (length X2 < fuel')%nat /\
    run (fuel - length X1)%nat own type flags s e f l (head Q.*1) c2 =
    run fuel' own type flags s e f l (head (X2 ++ (l, lr) :: C).*1) c2) as (fuel' & Hf' & ->).
  { unfold Q, bl in *. destruct b as [bi |]; cycle 1.
    - exists (fuel - length X1)%nat. split; [lia | done].
    - destruct (fuel - length X1)%nat as [| k] eqn:Ek; [lia |]. exists k. split; [lia |]. simpl app in *.
      rewrite app_assoc in H2. exact (clip_skip lk0 K HK own type flags s e sp _ f l c2 _ bi brq _ _ _ _ H2 (or_intror eq_refl)). }
  set (P := A' ++ X1 ++ bl).
  assert (A' ++ X1 ++ Q = P ++ X2 ++ (l, lr) :: C) as EQ by (unfold P, Q; by rewrite <- !app_assoc).
  apply (sorted_replace _ _ (f, fcut)) in Hs; [| by destruct fcut_fields]. rewrite EP in Hs.
  assert (Forall (fun p => wf p.2) (A' ++ X1 ++ Q)) as Hw'.
  { unfold A', Q. revert Hw. unfold Q. foralls. pose proof fcut_wf. tauto. }
  rewrite EQ in *.
  destruct (clip_rest own type flags s e lk0 K HK Hse He P X2 C l lr b Hs Hw' HX2 HC Hlo Hls)
    with (sp := sp) (c := c2) (n := n) (w := w || downgrades type fr) (fuel := fuel') (fm := f)
    as (c' & R & n' & E & H3 & H4 & H5 & H6 & H7); try done.
  { unfold P. rewrite app_assoc, <- (app_nil_r bl). apply brange_in_bl. }
  exists c', R, n'. split; [exact E |]. split; [exact H3 |].
  pose proof (tally_nonneg _ X2 (posix_nonneg own)) as Hpos. destruct fcut_fields as (F1 & F2 & F3 & F4 & F5).
  split; [| split; [| lia]]; cycle 1.
  { intros El. unfold gain. destruct (lf_match lr type flags) eqn:Eml; [| lia].
    assert (n' + tally (posix own) X2 + paid lr <= n); [| lia].
    apply H7; left; [| done]. rewrite El in Hlocks. by destruct b. }
  apply (rest_loop P _ (P ++ X2 ++ (l, lr) :: C)); try done; unfold P, R0, A'.
  - revert H5. unfold P, A', Q. sums. rewrite (posix_own own fcut), F5, (posix_own own fr) by done. lia.
  - intros g Hg. sums. rewrite (Hg fcut), (Hg fr), foreign_bl by done. lia.
  - intros t x Ex. sums. rewrite cov_cut, cov_bl, Ex, (cov_apart _ s e), (cov_free own t x X1) by done. lia.
  - intros t x Ex. sums. rewrite cov_cut, cov_bl, Ex. lia.
Qed.

Lemma clip_across sp fuel c n w :
  st sp c R1 b n w -> (length X1 + length X2 + 1 < fuel)%nat ->
  exists c' R b' n',
    run (S fuel) own type flags s e f l (Some f) c = Done c' /\
    st sp c' R b' n' (w || downgrades type fr || wake own type X2 || downgrades type lr) /\
    loop_ok R0 R1 R b' n n' /\ n' <= n /\
    (locks type = true ->
     n' + (if lf_match fr type flags then paid brq else 0) + gain lr <= n).
Proof.
  intros H Hf. destruct (decide (b <> None /\ lf_match fr type flags = true)) as [[Hb1 Hm] | Hno].
  - assert (exists bi, b = Some bi) as [bi Eb] by (destruct b; eauto; done).
    destruct (across_merge sp fuel bi c n w Eb Hm H) as (c' & R & n' & H1 & H2 & H3 & H4); [lia |].
    exists c', R, (Some f), n'. rewrite Hm.
    assert (0 <= paid brq /\ 0 <= gain lr); [| split_and!; done || lia].
    unfold gain. split; [apply ind_nonneg |].
    destruct (lf_match lr type flags); [apply ind_nonneg | lia].
  - destruct (across_cut sp fuel c n w) as (c' & R & n' & H1 & H2 & H3 & H4 & H5); try done.
    { destruct b; [right | by left]. destruct (lf_match _ _ _); [| done]. exfalso. by apply Hno. }
    exists c', R, b, n'. split_and!; try done. intros El. specialize (H4 El).
    destruct (lf_match fr type flags) eqn:Em; [| lia]. exfalso. apply Hno. split; [| done].
    rewrite El in Hlocks. by destruct b.
Qed.
End Across.
End First.

End Loop.

(** ** The merge with the neighbours in the list *)

Section Merge.
Context {sty : Style}.
Context (lk0 : lockf) (K : list nat).
Hypothesis HK : NoDup K.
Context (own : option nat) (type flags s e : Z).
Abbreviation effect := (effect own type s e).
Abbreviation st := (st lk0 K).

(** [R'] is [R] with adjacent locks joined, and brange is [bi]. *)
Record joined (R R' : elems) (bi : nat) (n n' : Z) : Prop := Joined {
  jo_effect : forall R0, effect R0 R -> effect R0 R';
  jo_count : n' - n = tally (posix own) R' - tally (posix own) R;
  jo_le : n' <= n;
  jo_brange : exists Y1 br Y2, R' = Y1 ++ (bi, br) :: Y2 /\ mine own type flags br
}.

Lemma join_pair Y1 i a j r Y2 n :
  mine own type flags a -> mine own type flags r -> lf_end a + 1 = lf_start r ->
  wf a -> wf r ->
  joined (Y1 ++ (i, a) :: (j, r) :: Y2) (Y1 ++ (i, absorb a r) :: Y2) i n (n - paid r).
Proof.
  intros (Ha1 & Ha2 & Ha3) (Hr1 & Hr2 & Hr3) Hadj Hwa Hwr. split.
  - intros R0 [E1 E2 E3 E4]. split.
    + intros g Hg. rewrite <- E1 by done. sums. rewrite (Hg a), (Hg r), (Hg (absorb a r)) by done. lia.
    + intros t x. rewrite <- E2. sums. rewrite !cov_own by done. unfold inside, absorb.
      cbn [lf_start lf_end lf_type set_flags set_end]. rewrite Ha2, Hr2. destruct Hwa, Hwr.
      destruct (type =? t); rewrite ?andb_true_r, ?andb_false_r; [| simpl; lia].
      assert (forall p q u, ind ((p <=? u) && (u <=? q)) = if decide (p <= u <= q) then 1 else 0) as Ei.
      { intros p q u. case_decide; cases. }
      rewrite !Ei. repeat case_decide; lia.
    + apply (sorted_replace _ _ (i, absorb a r)) in E3; [| done].
      replace (Y1 ++ (i, absorb a r) :: (j, r) :: Y2) with ((Y1 ++ [(i, absorb a r)]) ++ (j, r) :: Y2) in E3
        by (by rewrite <- app_assoc).
      apply sorted_remove in E3. by rewrite <- app_assoc in E3.
    + revert E4. foralls. destruct Hwa, Hwr. assert (wf (absorb a r)) by (apply wf_absorb; [done | done | lia]). tauto.
  - sums. rewrite posix_absorb, (posix_own own a), (posix_own own r) by done. lia.
  - assert (0 <= paid r) by apply ind_nonneg. lia.
  - exists Y1, (absorb a r), Y2. split; [done |]. split_and!; [done | done |]. by rewrite absorb_posix.
Qed.

Lemma joined_refl Y1 bi br Y2 n :
  mine own type flags br -> joined (Y1 ++ (bi, br) :: Y2) (Y1 ++ (bi, br) :: Y2) bi n n.
Proof. intros H. split; try done; [lia |]. by exists Y1, br, Y2. Qed.

Lemma joined_trans R R' R'' bi bi' n n' n'' :
  joined R R' bi n n' -> joined R' R'' bi' n' n'' -> joined R R'' bi' n n''.
Proof. intros [] []. split; eauto; lia. Qed.

Lemma wf_at (Y1 : elems) i r Y2 : Forall (fun p => wf p.2) (Y1 ++ (i, r) :: Y2) -> wf r.
Proof. foralls. tauto. Qed.

Lemma merge_prev sp c Y1 bi br Y2 n w :
  st sp c (Y1 ++ (bi, br) :: Y2) (Some bi) n w -> mine own type flags br ->
  Forall (fun p => wf p.2) (Y1 ++ (bi, br) :: Y2) ->
  exists c' R' bi' n', lf_merge_prev own type flags bi c = Done c' /\
    st sp c' R' (Some bi') n' w /\ joined (Y1 ++ (bi, br) :: Y2) R' bi' n n'.
Proof.
  intros H Hm Hw. pose proof (st_repr _ _ _ _ _ _ _ _ H) as Hr. unfold lf_merge_prev.
  rewrite (repr_prev _ _ HK _ _ _ _ _ _ Hr).
  destruct Y1 as [| [i a] Y1 _] using rev_ind.
  { exists c, ([] ++ (bi, br) :: Y2), bi, n. split_and!; try done. by apply (joined_refl []). }
  rewrite fmap_app. cbn [fmap list_fmap fst]. rewrite last_snoc. rewrite <- app_assoc in *. simpl app in *.
  rewrite (repr_deref _ _ _ _ _ _ _ _ Hr), bind_Done_l.
  assert (deref (c_lk c) bi = Done br) as ->.
  { apply (repr_deref lk0 K _ (c_dead c ++ sp) (Y1 ++ [(i, a)]) bi br Y2). by rewrite <- app_assoc. }
  rewrite bind_Done_l, same_owned. pose proof (owned_spec own a) as Ho.
  destruct (owned own a) eqn:Eo, (Z.eqb_spec (lf_end a) (lf_start br - 1)), (lf_match a type flags) eqn:Em; cbn [andb].
  2-8: exists c, (Y1 ++ (i, a) :: (bi, br) :: Y2), bi, n; split_and!; try done;
       change ((i, a) :: (bi, br) :: Y2) with ([(i, a)] ++ (bi, br) :: Y2); rewrite app_assoc; by apply joined_refl.
  destruct (absorb_at lk0 K HK sp c Y1 i a [] bi br Y2 _ _ _ H) as (c1 & -> & [H1 H2 H3 H4]).
  rewrite bind_Done_l. eexists (c_set_brange c1 (Some i)), _, i, _.
  split; [reflexivity |]. split; [split; done |]. apply join_pair; try done.
  - by apply (lf_match_mine own).
  - lia.
  - by apply wf_at in Hw.
  - change ((i, a) :: (bi, br) :: Y2) with ([(i, a)] ++ (bi, br) :: Y2) in Hw. rewrite app_assoc in Hw. by apply wf_at in Hw.
Qed.

Lemma merge_next sp c Y1 bi br Y2 n w :
  st sp c (Y1 ++ (bi, br) :: Y2) (Some bi) n w -> mine own type flags br ->
  Forall (fun p => wf p.2) (Y1 ++ (bi, br) :: Y2) ->
  exists c' R' n', lf_merge_next own type flags c = Done c' /\
    st sp c' R' (Some bi) n' w /\ joined (Y1 ++ (bi, br) :: Y2) R' bi n n'.
Proof.
  intros H Hm Hw. pose proof (st_repr _ _ _ _ _ _ _ _ H) as Hr. unfold lf_merge_next.
  rewrite (st_brange _ _ _ _ _ _ _ _ H), (repr_next _ _ HK _ _ _ _ _ _ Hr).
  assert (exists c' R' n', Done c = Done c' /\ st sp c' R' (Some bi) n' w /\
            joined (Y1 ++ (bi, br) :: Y2) R' bi n n') as Hstay.
  { exists c, (Y1 ++ (bi, br) :: Y2), n. split_and!; try done. by apply joined_refl. }
  destruct Y2 as [| [j r] Y2]; [exact Hstay |]. cbn [fmap list_fmap head fst].
  assert (deref (c_lk c) j = Done r) as ->.
  { apply (repr_deref lk0 K _ (c_dead c ++ sp) (Y1 ++ [(bi, br)]) j r Y2). by rewrite <- app_assoc. }
  rewrite bind_Done_l, (repr_deref _ _ _ _ _ _ _ _ Hr), bind_Done_l, same_owned.
  pose proof (owned_spec own r) as Ho.
  destruct (owned own r) eqn:Eo, (Z.eqb_spec (lf_start r) (s64 (lf_end br + 1))) as [Es |],
    (lf_match r type flags) eqn:Em; cbn [andb]; try exact Hstay. clear Hstay.
  pose proof (wf_at _ _ _ _ Hw) as Hwb.
  assert (wf r) as Hwr.
  { change ((bi, br) :: (j, r) :: Y2) with ([(bi, br)] ++ (j, r) :: Y2) in Hw. rewrite app_assoc in Hw. by apply wf_at in Hw. }
  assert (lf_end br + 1 = lf_start r) as Hadj.
  { destruct Hwb as [? ? Hb _ _ _], Hwr as [Hr0 _ _ _ _ _]. unfold LLONG_MAX in *.
    destruct (Z.eq_dec (lf_end br) (2 ^ 63 - 1)) as [E |].
    - rewrite E in Es. change (s64 (2 ^ 63 - 1 + 1)) with (- 2 ^ 63) in Es. lia.
    - rewrite s64_id in Es; [done |]. unfold is_s64. lia. }
  destruct (absorb_at lk0 K HK sp c Y1 bi br [] j r Y2 _ _ _ H) as (c1 & -> & H1).
  eexists c1, _, _. split; [reflexivity |]. split; [exact H1 |].
  apply join_pair; try done. by apply (lf_match_mine own).
Qed.

Lemma merge_ok R0 R1 sp c R b' n n' w :
  st sp c R b' n' w -> loop_ok own type flags s e R0 R1 R b' n n' ->
  exists c' R' b2 n2, lf_merge own type flags c = Done c' /\
    st sp c' R' b2 n2 w /\ loop_ok own type flags s e R0 R1 R' b2 n n2 /\ n2 <= n'.
Proof.
  intros H [L1 L2 L3 L4]. unfold lf_merge. rewrite (st_brange _ _ _ _ _ _ _ _ H).
  destruct (locks type) eqn:El.
  - destruct (L3 eq_refl) as (Y1 & bi & br & Y2 & -> & -> & Hm).
    destruct (merge_prev _ _ _ _ _ _ _ _ H Hm (ef_wf _ _ _ _ _ _ L1)) as (c1 & R2 & b1 & n1 & -> & H1 & J1).
    rewrite bind_Done_l. pose proof (jo_brange _ _ _ _ _ J1) as (Z1 & br1 & Z2 & -> & Hm1).
    pose proof (jo_effect _ _ _ _ _ J1 _ L1) as L1'.
    destruct (merge_next _ _ _ _ _ _ _ _ H1 Hm1 (ef_wf _ _ _ _ _ _ L1')) as (c2 & R3 & n2 & -> & H2 & J2).
    exists c2, R3, (Some b1), n2. split; [done |]. split; [done |].
    pose proof (joined_trans _ _ _ _ _ _ _ _ J1 J2) as [J3 J4 J5 (T1 & br2 & T2 & -> & ?)]. split; [| done]. split.
    + by apply J3.
    + lia.
    + intros _. by exists T1, b1, br2, T2.
    + congruence.
  - pose proof (L4 eq_refl) as ->. exists c, R, None, n'. split; [done |]. split; [done |].
    split; [| done]. split; try done. congruence.
Qed.
End Merge.
