(* ===== verification/LockfScan.v ===== *)
(** * Byte-range locks: the scan for conflicts

    What lf_scan finds in the sorted list of ranges, and what lf_wakeup does to
    the requests that wait. *)

From stdpp Require Import prelude list strings gmap sorting.
From S2P Require Import Prelude.
From S2P Require Import Tailq.
From S2P Require Import Lockf.
From S2P Require Import LockfLists.
From S2P Require Import LockfClip.
From S2P Require Import LockfEffect.
Open Scope Z_scope.

Section Scan.
Context (lk0 : lockf) (K : list nat) (lk : lockf) (out : list nat) (R : elems).
Hypothesis HK : NoDup K.
Hypothesis HR : repr lk0 K lk out R.
Hypothesis Hsort : StronglySorted le_start R.
Context (own : option nat) (type s e : Z).
Hypothesis Hse : s <= e.

(** A range that overlaps the request. *)
Definition meets (r : lockf_range) : Prop := lf_start r <= e /\ s <= lf_end r.

(** A range of another owner that the request has to wait for. *)
Definition conflicts (r : lockf_range) : Prop :=
  lf_owner r <> own /\ meets r /\ type <> F_UNLCK /\ (type = F_WRLCK \/ lf_type r = F_WRLCK).

Definition peaceful (D : elems) : Prop := Forall (fun p => ~ conflicts p.2) D.

(** The first and the last of our ranges that overlap. *)
Definition hit (r : lockf_range) : Prop := lf_owner r = own /\ meets r.

Definition found (D : elems) (fm lm : option nat) : Prop :=
  match fm, lm with
  | None, None => own_apart own s e D
  | Some f, Some l =>
      exists A fr, own_apart own s e A /\ hit fr /\
      ((f = l /\ exists C, D = A ++ (f, fr) :: C /\ own_apart own s e C) \/
       (exists X lr C, D = A ++ (f, fr) :: X ++ (l, lr) :: C /\ hit lr /\ own_apart own s e C))
  | _, _ => False
  end.

(** The insertion point, in the part of the list that was seen. *)
Definition ip_ok (D : elems) (ip : option nat) : Prop :=
  match ip with
  | None => below s D
  | Some i => exists D1 r D2, D = D1 ++ (i, r) :: D2 /\ below s D1 /\ s <= lf_start r
  end.

Lemma ip_step D i r ip :
  ip_ok D ip ->
  ip_ok (D ++ [(i, r)]) (if same ip None && (lf_start r >=? s) then Some i else ip).
Proof.
  unfold same. destruct ip as [j |]; cbn [ip_ok].
  - intros (D1 & rj & D2 & -> & H1 & H2). rewrite bool_decide_false by done. cbn.
    exists D1, rj, (D2 ++ [(i, r)]). by rewrite <- app_assoc.
  - intros H. rewrite bool_decide_true, Z.geb_leb by done. cbn [andb].
    destruct (Z.leb_spec s (lf_start r)); cbn [ip_ok].
    + exists D, r, []. done.
    + apply Forall_app_2; [done |]. by constructor.
Qed.

Lemma found_step_miss D i r fm lm :
  (lf_owner r = own -> lf_end r < s \/ e < lf_start r) ->
  found D fm lm -> found (D ++ [(i, r)]) fm lm.
Proof.
  intros Hr. assert (forall C, own_apart own s e C -> own_apart own s e (C ++ [(i, r)])) as Hap.
  { intros C HC. apply Forall_app_2; [done |]. by constructor. }
  destruct fm as [f |], lm as [l |]; cbn [found]; auto.
  intros (A & fr & HA & Hh & [(-> & C & -> & HC) | (X & lr & C & -> & Hl & HC)]); exists A, fr; split_and!; try done.
  - left. split; [done |]. exists (C ++ [(i, r)]). rewrite <- app_assoc. auto.
  - right. exists X, lr, (C ++ [(i, r)]). rewrite <- app_assoc. cbn. rewrite <- app_assoc. auto.
Qed.

Lemma found_step_hit D i r fm lm :
  hit r -> found D fm lm -> found (D ++ [(i, r)]) (if same fm None then Some i else fm) (Some i).
Proof.
  intros Hr. assert (own_apart own s e []) as Hnil by constructor.
  destruct fm as [f |], lm as [l |]; cbn [found]; try done; unfold same.
  - rewrite bool_decide_false by done.
    intros (A & fr & HA & Hh & [(-> & C & -> & HC) | (X & lr & C & -> & Hl & HC)]);
      exists A, fr; split_and!; try done; right.
    + exists C, r, []. by rewrite <- app_assoc.
    + exists (X ++ (l, lr) :: C), r, []. rewrite <- app_assoc. cbn. by rewrite <- app_assoc.
  - rewrite bool_decide_true by done. intros HD. exists D, r. split_and!; try done. left. split; [done |]. by exists [].
Qed.

(** The rest of a sorted list after a range that starts past the request. *)
Lemma past_apart C : Forall (fun p => e < lf_start p.2) C -> own_apart own s e C /\ peaceful C.
Proof.
  intros H. split; eapply Forall_impl; try exact H; intros p Hp; cbn in *.
  - by right.
  - intros (_ & (? & ?) & _). lia.
Qed.

Lemma found_past C : Forall (fun p => e < lf_start p.2) C -> forall D fm lm, found D fm lm -> found (D ++ C) fm lm.
Proof.
  induction 1 as [| [i r] C Hp _ IH]; intros D fm lm HD; [by rewrite app_nil_r |].
  replace (D ++ (i, r) :: C) with ((D ++ [(i, r)]) ++ C) by (by rewrite <- app_assoc).
  apply IH, found_step_miss; [| done]. intros _. by right.
Qed.

Lemma ip_past C i D : ip_ok D (Some i) -> ip_ok (D ++ C) (Some i).
Proof. intros (D1 & r & D2 & -> & ?). exists D1, r, (D2 ++ C). by rewrite <- app_assoc. Qed.

Lemma lf_scan_ok S : forall D ip fm lm,
  R = D ++ S -> ip_ok D ip -> found D fm lm -> peaceful D ->
  exists ip' fm' lm' cf, lf_scan lk own type s e S.*1 ip fm lm = Done (ip', fm', lm', cf) /\
    match cf with
    | Some i => exists r, (i, r) ∈ R /\ conflicts r
    | None => ip_ok R ip' /\ found R fm' lm' /\ peaceful R
    end.
Proof.
  induction S as [| [i r] S IH]; intros D ip fm lm E Hip Hf Hp.
  { exists ip, fm, lm, None. rewrite app_nil_r in E. subst D. by split. }
  cbn [fmap list_fmap lf_scan fst]. pose proof HR as HR'. rewrite E in HR'.
  rewrite (repr_deref _ _ _ _ _ _ _ _ HR'), bind_Done_l.
  pose proof (ip_step D i r ip Hip) as Hip'. set (ip1 := if _ && _ then _ else ip) in *.
  assert (R = (D ++ [(i, r)]) ++ S) as E' by (by rewrite <- app_assoc).
  assert (~ conflicts r -> peaceful (D ++ [(i, r)])) as Hp'.
  { intros Hc. apply Forall_app_2; [done |]. by constructor. }
  destruct (Z.ltb_spec (lf_end r) s).
  { apply IH with (D := D ++ [(i, r)]); try done.
    - apply found_step_miss; [| done]. by left.
    - apply Hp'. intros (_ & [? ?] & _). lia. }
  rewrite Z.gtb_ltb. destruct (Z.ltb_spec e (lf_start r)).
  { exists ip1, fm, lm, None. split; [done |].
    assert (Forall (fun p => e < lf_start p.2) ((i, r) :: S)) as Hpast.
    { constructor; [done |]. rewrite E in Hsort. apply sorted_mid_above in Hsort.
      eapply Forall_impl; [exact Hsort |]. cbn. intros. lia. }
    split_and!.
    - rewrite E'. destruct ip1 as [j |] eqn:Ej; [by apply ip_past |]. exfalso.
      cbn [ip_ok] in Hip'. apply Forall_app in Hip' as [_ Hip']. inversion Hip'; subst. cbn in *. lia.
    - rewrite E. by apply found_past.
    - rewrite E. apply Forall_app_2; [done |]. by apply past_apart. }
  rewrite same_owned. pose proof (owned_spec own r) as Ho. destruct (owned own r).
  { apply IH with (D := D ++ [(i, r)]); try done.
    - by eapply found_step_hit.
    - apply Hp'. by intros []. }
  destruct (negb (type =? F_UNLCK) && ((type =? F_WRLCK) || (lf_type r =? F_WRLCK))) eqn:Ec.
  - exists ip1, fm, lm, (Some i). split; [done |]. exists r. split; [rewrite E; set_solver |].
    apply andb_true_iff in Ec as [E1 E2]. zbool. apply orb_true_iff in E2. rewrite !Z.eqb_eq in E2. done.
  - apply IH with (D := D ++ [(i, r)]); try done.
    + apply found_step_miss; [| done]. done.
    + apply Hp'. intros (_ & _ & E1 & E2). apply andb_false_iff in Ec as [Ec | Ec]; zbool; [done |]. naive_solver.
Qed.

(** The scan of the whole list. *)
Lemma lf_scan_spec :
  exists ip fm lm cf, lf_scan lk own type s e (lf_range lk) None None None = Done (ip, fm, lm, cf) /\
    match cf with
    | Some i => exists r, (i, r) ∈ R /\ conflicts r
    | None =>
        (exists I1 I2, R = I1 ++ I2 /\ below s I1 /\ above s I2 /\ ip = head I2.*1) /\
        found R fm lm /\ peaceful R
    end.
Proof.
  rewrite (rp_range _ _ _ _ _ HR).
  destruct (lf_scan_ok R [] None None None) as (ip & fm & lm & cf & E & H); try done; try constructor.
  exists ip, fm, lm, cf. split; [done |]. destruct cf; [done |]. destruct H as (H1 & H2 & H3). split_and!; try done.
  destruct ip as [i |]; cbn [ip_ok] in H1.
  - destruct H1 as (D1 & r & D2 & ER & HD1 & Hr). exists D1, ((i, r) :: D2). split_and!; try done.
    constructor; [done |]. pose proof Hsort as Hs. rewrite ER in Hs. apply sorted_mid_above in Hs.
    eapply Forall_impl; [exact Hs |]. cbn. intros. lia.
  - exists R, []. split_and!; [by rewrite app_nil_r | done | constructor | done].
Qed.
End Scan.
