(* ===== verification/LockfReplace.v ===== *)
(** * Byte-range locks: lf_replace

    The part of lf_setlock that replaces locks of ours by the requested one:
    the new lock, the case of two clips, the loop, the merge and the
    accounting.  Its assertions hold and count ends at or below zero. *)

From stdpp Require Import prelude list strings gmap sorting.
From S2P Require Import Prelude.
From S2P Require Import Tailq.
From S2P Require Import Lockf.
From S2P Require Import LockfLists.
From S2P Require Import LockfClip.
From S2P Require Import LockfEffect.
From S2P Require Import LockfGrant.
From S2P Require Import LockfScan.
Open Scope Z_scope.

(** ** Locks of one owner are apart *)

Lemma own_after {sty : Style} o A p B q :
  StronglySorted le_start (A ++ p :: B) -> Forall (fun p => wf p.2) (A ++ p :: B) ->
  once o (A ++ p :: B) -> lf_owner p.2 = o -> q ∈ B -> lf_owner q.2 = o ->
  lf_end p.2 < lf_start q.2.
Proof.
  intros Hs Hw Ho Hp Hq Hqo. apply list_elem_of_split in Hq as (B1 & B2 & ->).
  revert Hw. foralls. intros (_ & W1 & _ & W2 & _). destruct W1, W2.
  apply (once_disjoint o A p B1 q B2); try done.
  apply sorted_mid_above in Hs. revert Hs. unfold above. foralls. intros (_ & ? & _). lia.
Qed.

Section Replace.
Context {sty : Style}.
Context (lk1 : lockf) (K : list nat) (R0 : elems) (n1 n2 : nat).
Hypothesis HK : NoDup K.
Context (own : option nat) (type flags s e : Z).
Hypothesis Hse : 0 <= s <= e.
Hypothesis He : e <= LLONG_MAX.
Hypothesis Htype : type = F_RDLCK \/ type = F_WRLCK \/ type = F_UNLCK.
Hypothesis Hflags : is_s16 flags.
Hypothesis Hsort : StronglySorted le_start R0.
Hypothesis Hwf : Forall (fun p => wf p.2) R0.
Hypothesis Honce : once own R0.
(** An owner uses POSIX locks or flock locks, not both. *)
Hypothesis Hstyle : btest flags F_POSIX = posix_owner own.

Abbreviation P := (ind (btest flags F_POSIX)).

(** What the parts of lf_replace up to the accounting make of [R0], when count
    starts at [n0]. *)
Definition replaced (sp : list nat) (c : clip) (w : bool) (n0 : Z) : Prop :=
  exists R b n, st lk1 K sp c R b n w /\ loop_ok own type flags s e R0 R0 R b n0 n /\ n <= 0.

Definition install (lk : lockf) (ip : option nat) (count : Z) : outcome (lockf * option nat * Z) :=
  if negb (type =? F_UNLCK)
  then
    lk ← lf_create_range lk n1 own type flags s e;
    lk ← lf_insert lk n1 ip;
    mret (lk, Some n1, if btest flags F_POSIX then count + 1 else count)
  else mret (lk, None, count).

(** brange, and the preallocated ranges that are left. *)
Definition b1 : option nat := if locks type then Some n1 else None.
Definition sp1 : list nat := if locks type then [n2] else [n1; n2].
Abbreviation bl1 := (bl own type flags s e b1).

Lemma b1_locks : locks type = bool_decide (is_Some b1).
Proof. unfold b1. by destruct (locks type). Qed.

Lemma install_ok I1 I2 count :
  repr lk1 K lk1 [n1; n2] R0 -> R0 = I1 ++ I2 -> below s I1 -> above s I2 ->
  exists lk2, install lk1 (head I2.*1) count = Done (lk2, b1, if locks type then count + P else count) /\
    repr lk1 K lk2 sp1 (I1 ++ bl1 ++ I2) /\
    StronglySorted le_start (I1 ++ bl1 ++ I2) /\ Forall (fun p => wf p.2) (I1 ++ bl1 ++ I2).
Proof.
  intros H ER H1 H2. unfold install, b1, sp1, bl, locks. destruct (type =? F_UNLCK) eqn:Et; cbn [negb].
  - exists lk1. rewrite ER in *. done.
  - unfold lf_create_range. rewrite (proj2 (Z.leb_le s e)) by lia. cbn [KKASSERT]. rewrite !bind_Done_l.
    rewrite !s16_id by (done || (unfold is_s16; destruct Htype as [-> | [-> | ->]]; done)).
    change (LockfRange type flags s e own) with (brq own type flags s e).
    apply (repr_put _ _ HK _ _ _ _ (brq own type flags s e)) in H. rewrite ER in H.
    destruct (lf_insert_at lk1 K HK (store lk1 n1 (brq own type flags s e)) [n2] I1 [] I2 n1 (brq own type flags s e))
      as (lk2 & E2 & H3 & _); [done | unfold store; cbn [lf_heap set_heap]; by rewrite lookup_insert_eq | constructor | done |].
    cbn [app] in E2. rewrite E2, bind_Done_l. exists lk2. split.
    { unfold ind. destruct (btest flags F_POSIX); [done |]. do 2 f_equal. lia. }
    split; [done |]. split.
    + apply sorted_insert; [| done | by rewrite <- ER]. eapply below_upto; [exact H1 | done].
    + rewrite ER in Hwf. revert Hwf. foralls. intros [? ?]. split_and!; try done.
      apply brq_wf; try done. unfold locks. by rewrite Et.
Qed.

(** ** Two clips *)

Definition left_part (r : lockf_range) : lockf_range :=
  set_flags (set_end r (s - 1)) (Z.ldiff (lf_flags r) F_NOEND).

Lemma split_ok lk out A f fr T1 T2 count :
  repr lk1 K lk (n2 :: out) (A ++ (f, fr) :: T1 ++ T2) -> wf fr ->
  lf_start fr < s -> e < lf_end fr -> below (e + 1) T1 -> above (e + 1) T2 ->
  exists lk', lf_split lk f n2 s e count = Done (lk', count + paid fr) /\
    repr lk1 K lk' out (A ++ (f, left_part fr) :: T1 ++ (n2, set_start fr (e + 1)) :: T2).
Proof.
  intros H Hfw H1 H2 H3 H4. unfold lf_split. rewrite (repr_deref _ _ _ _ _ _ _ _ H), bind_Done_l.
  unfold lf_create_range. rewrite (proj2 (Z.leb_le _ _)) by lia. cbn [KKASSERT]. rewrite !bind_Done_l.
  destruct Hfw as [? ? ? Hft Hff Hfy].
  rewrite !s16_id by (done || (unfold is_s16; destruct Hft as [-> | ->]; done)).
  change (LockfRange (lf_type fr) (lf_flags fr) (e + 1) (lf_end fr) (lf_owner fr)) with (set_start fr (e + 1)).
  apply (repr_put _ _ HK _ _ _ _ (set_start fr (e + 1))) in H.
  set (lka := store lk n2 _) in *.
  assert (lf_heap lka !! n2 = Some (set_start fr (e + 1))) as Hn2 by (simpl; by rewrite lookup_insert_eq).
  destruct (repr_notin _ _ HK _ _ _ _ _ _ H) as (_ & _ & Hf).
  apply (repr_store _ _ HK _ _ _ _ _ (left_part fr)) in H. fold (left_part fr).
  set (lkb := store lka f _) in *.
  assert (lf_heap lkb !! n2 = Some (set_start fr (e + 1))) as Hn2'.
  { simpl. rewrite lookup_insert_ne; [done |]. intros ->. apply Hf. left. }
  destruct (lf_insert_at lk1 K HK lkb out A ((f, left_part fr) :: T1) T2 n2 (set_start fr (e + 1)))
    as (lk' & E & H5 & Hh); try done.
  { constructor; [| done]. unfold left_part. cbn [snd lf_start set_start set_flags set_end]. lia. }
  cbn [app fmap list_fmap head fst] in E. rewrite E, bind_Done_l. unfold deref. rewrite Hh, Hn2', bind_Done_l.
  exists lk'. split; [| done]. cbn [lf_flags set_start]. unfold paid, ind.
  destruct (btest (lf_flags fr) F_POSIX); [done |]. by rewrite Z.add_0_r.
Qed.

(** ** The positions of our locks *)

(** Our first overlapping range and the rest of the list. *)
Section Positions.
Context (A : elems) (f : nat) (fr : lockf_range) (T : elems).
Hypothesis ER : R0 = A ++ (f, fr) :: T.
Hypothesis HA : own_apart own s e A.
Hypothesis Hf : hit own s e fr.

Lemma fr_wf : wf fr.
Proof. pose proof Hwf as H. rewrite ER in H. revert H. foralls. tauto. Qed.

Lemma after_first q : q ∈ T -> lf_owner q.2 = own -> lf_end fr < lf_start q.2.
Proof.
  intros Hq Hqo. destruct Hf as [Hfo _].
  apply (own_after own A (f, fr) T q); try done; by rewrite <- ER.
Qed.

Lemma first_paid : paid fr = P.
Proof.
  pose proof (wf_style _ fr_wf) as H. destruct Hf as [Ho _]. unfold paid. by rewrite H, Ho, Hstyle.
Qed.

Lemma paid_in q : q ∈ R0 -> lf_owner q.2 = own -> paid q.2 = P.
Proof.
  intros Hq Ho. rewrite Forall_forall in Hwf. unfold paid. by rewrite (wf_style _ (Hwf q Hq)), Ho, Hstyle.
Qed.

(** Between the first and the last one all our ranges are enclosed. *)
Lemma between_enclosed X l lr C :
  T = X ++ (l, lr) :: C -> hit own s e lr -> own_enclosed own s e X.
Proof.
  intros ET [Hlo [Hl1 Hl2]]. destruct Hf as [Hfo [Hf1 Hf2]]. apply Forall_forall. intros q Hq Hqo.
  assert (lf_end fr < lf_start q.2) by (apply after_first; [rewrite ET; set_solver | done]).
  apply list_elem_of_split in Hq as (X1 & X2 & ->).
  assert (R0 = (A ++ (f, fr) :: X1) ++ q :: X2 ++ (l, lr) :: C) as ER2.
  { rewrite ER, ET, <- !app_assoc. done. }
  assert (lf_end q.2 < lf_start (l, lr).2); [| simpl in *; lia].
  apply (own_after own (A ++ (f, fr) :: X1) q (X2 ++ (l, lr) :: C)); rewrite <- ?ER2; try done. set_solver.
Qed.
End Positions.

(** ** Which requests free something *)

(** If nobody is woken, no lock of ours becomes weaker. *)
Definition quiet (w : bool) : Prop :=
  w = false -> locks type = true /\
    (type = F_RDLCK -> forall x, within s e x = true -> tally (cov own F_WRLCK x) R0 = 0).

Lemma downgrades_false r : downgrades type r = false ->
  locks type = true /\ (type = F_RDLCK -> forall x, cov own F_WRLCK x r = 0).
Proof.
  unfold downgrades, locks. intros H. zbool. apply andb_false_iff in H0.
  split; [by apply negb_true_iff, Z.eqb_neq |]. intros ->.
  destruct H0 as [H0 | H0]; [done |]. intros x. unfold cov. rewrite H0. by rewrite andb_false_r.
Qed.

Lemma wake_false X : wake own type X = false -> type = F_RDLCK -> forall x, tally (cov own F_WRLCK x) X = 0.
Proof.
  intros H Ht x. apply tally_zero, Forall_forall. intros q Hq.
  destruct (owned own q.2 && downgrades type q.2) eqn:E.
  - assert (wake own type X = true); [| congruence]. apply existsb_exists. exists q. split; [by apply list_elem_of_In | done].
  - apply andb_false_iff in E as [E | E].
    + unfold cov. by rewrite E.
    + destruct (downgrades_false _ E) as [_ H']. by apply H'.
Qed.

(** ** The first value of count is enough *)

Lemma precharge_cases fr lr same :
  let pre := lf_precharge fr lr same type flags s e in
  pre <= 0 /\
  (locks type = true -> lf_match fr type flags = false -> lf_match lr type flags = false ->
   pre = if lf_double_clip fr lr same s e then - (2 * P) else - P) /\
  (locks type = false -> lf_start fr < s -> wf fr -> wf lr -> pre = - P).
Proof.
  unfold lf_precharge, locks. cbv zeta. split_and!.
  - destruct (_ && _); [destruct (_ && _) |]; lia.
  - intros Hl H1 H2. zbool. unfold lf_unlock_override. rewrite H1, H2, (proj2 (Z.eqb_neq _ _) Hl).
    cbn [negb andb]. rewrite andb_false_r, andb_true_r. cbn [negb]. rewrite andb_true_r.
    destruct (btest flags F_POSIX); cbn [andb]; destruct (lf_double_clip _ _ _ _ _); done.
  - intros Hl Hs [_ _ _ W1 _ _] [_ _ _ W2 _ _]. apply negb_false_iff in Hl. unfold lf_unlock_override.
    rewrite Hl, (proj2 (Z.ltb_lt _ _)) by done. zbool.
    assert (forall r, lf_type r = F_RDLCK \/ lf_type r = F_WRLCK -> lf_match r type flags = false) as Hm.
    { intros r Hr. unfold lf_match. rewrite Hl. destruct Hr as [-> | ->]; done. }
    rewrite !Hm by done. cbn [negb andb]. rewrite !andb_true_r, andb_false_r. by destruct (btest flags F_POSIX).
Qed.

(** ** The loop, by the position of our locks *)

Abbreviation loop := (fun lk n fm lm => lf_clip (S (length (lf_range lk))) own type flags s e fm lm
  (Some fm) (Clip lk b1 n false [])).
Abbreviation paid_b := (if locks type then P else 0).

(** [n0] is the first value of count; brange is in the list. *)
Definition outcome_ok (sp : list nat) (n0 : Z) (r : outcome clip) : Prop :=
  exists c w, r = Done c /\ replaced sp c w n0 /\ quiet w.

Lemma posix_bl : tally (posix own) bl1 = paid_b.
Proof.
  rewrite (tally_bl _ _ _ _ _ _ b1_locks). destruct (locks type); [| done]. by rewrite posix_own.
Qed.

(** The first one starts within the request. *)
Lemma case_inside A f fr X l lr C I1 I2 lk2 :
  let pre := lf_precharge fr lr (Nat.eqb f l) type flags s e in
  repr lk1 K lk2 sp1 (I1 ++ bl1 ++ I2) ->
  StronglySorted le_start (I1 ++ bl1 ++ I2) -> Forall (fun p => wf p.2) (I1 ++ bl1 ++ I2) ->
  R0 = I1 ++ I2 -> below s I1 -> above s I2 ->
  R0 = A ++ X ++ (l, lr) :: C -> own_apart own s e A -> own_apart own s e C -> own_enclosed own s e X ->
  hit own s e lr -> s <= lf_start lr -> Some (f, fr) = head (X ++ (l, lr) :: C) -> above s (X ++ (l, lr) :: C) ->
  lf_owner fr = own ->
  outcome_ok sp1 pre (loop lk2 (pre + paid_b) f l).
Proof.
  intros pre H Hs Hw EI HI1 HI2 ER HA HC HX [Hlo [Hl1 Hl2]] Hls Hfm Habove Hfo.
  destruct (sorted_split s A) as (A1 & A2 & EA & HA1 & HA2).
  { pose proof Hsort as Hs'. rewrite ER in Hs'. by apply sorted_app in Hs' as [Hs' _]. }
  assert (I1 = A1 /\ I2 = A2 ++ X ++ (l, lr) :: C) as [-> ->].
  { apply (split_unique s); try done; [| by apply Forall_app_2]. rewrite <- EI, ER, EA. by rewrite <- !app_assoc. }
  rewrite EA in HA. apply Forall_app in HA as [HA1' HA2'].
  destruct (clip_inside lk1 K HK own type flags s e Hse He b1 b1_locks sp1 (S (length (lf_range lk2))) f
    A1 A2 X l lr C (Clip lk2 b1 (pre + paid_b) false []) (pre + paid_b) false)
    as (c & R & n & w & E & H1 & -> & H2 & H3 & H4); try done.
  { rewrite (rp_range _ _ _ _ _ H), length_fmap, !length_app. simpl. lia. }
  assert (head (X ++ (l, lr) :: C).*1 = Some f) as Eh.
  { destruct X as [| [i r] X]; simpl in *; congruence. }
  rewrite Eh in E. exists c, (false || wake own type X || downgrades type lr). split; [exact E |]. split.
  - exists R, b1, n. split; [done |]. destruct H2 as [L1 L2 L3 L4]. split.
    + split; try done; [by rewrite EI |]. revert L2. rewrite EI. sums. rewrite posix_bl. lia.
    + assert (forall q, q ∈ X ++ [(l, lr)] -> lf_owner q.2 = own -> paid q.2 = P) as Hpaid.
      { intros q Hq. apply paid_in. rewrite ER. revert Hq. clear. set_solver. }
      destruct (precharge_cases fr lr (Nat.eqb f l)) as (Q1 & Q2 & Q3). fold pre in Q1, Q2, Q3.
      pose proof (tally_nonneg _ X (posix_nonneg own)) as HpX.
      assert (0 <= P) by apply ind_nonneg.
      destruct (locks type) eqn:El; [| lia].
      destruct (lf_match lr type flags) eqn:Em.
      { specialize (H4 eq_refl eq_refl). pose proof (Hpaid (l, lr)) as Hp. cbn [snd] in Hp.
        rewrite Hp in H4; [lia | set_solver | done]. }
      destruct (lf_match fr type flags) eqn:Emf.
      * destruct X as [| q X]; [simpl in Hfm; injection Hfm as <- <-; congruence |].
        simpl in Hfm. injection Hfm as <-. pose proof (Hpaid (f, fr)) as Hp. cbn [snd] in Hp.
        rewrite tally_cons in H3. cbn [snd] in H3. rewrite posix_own, Hp in H3; [| set_solver | done | done].
        pose proof (tally_nonneg _ X (posix_nonneg own)). lia.
      * rewrite (Q2 eq_refl eq_refl eq_refl) in *. destruct (lf_double_clip _ _ _ _ _); lia.
  - intros Hw'. cbn [orb] in Hw'. apply orb_false_iff in Hw' as [W1 W2].
    destruct (downgrades_false _ W2) as [Hl Hd]. split; [done |]. intros Ht x Hx. rewrite EI. sums.
    rewrite (wake_false _ W1 Ht), (Hd Ht), !(cov_apart own s e) by done. lia.
Qed.

Lemma not_brange I1 I2 lk2 A f fr T :
  repr lk1 K lk2 sp1 (I1 ++ bl1 ++ I2) -> R0 = I1 ++ I2 -> R0 = A ++ (f, fr) :: T -> b1 <> Some f.
Proof.
  intros H EI ER Eb. pose proof (repr_nodup _ _ HK _ _ _ H) as Hn. unfold bl in Hn. rewrite Eb in Hn.
  rewrite !fmap_app in Hn. apply NoDup_app in Hn as (_ & _ & Hn). simpl in Hn.
  apply NoDup_app in Hn as (_ & Hn1 & Hn2). apply NoDup_cons in Hn2 as [Hn2 _].
  assert (f ∈ (I1 ++ I2).*1) as Hin by (rewrite <- EI, ER, fmap_app; set_solver).
  rewrite fmap_app in Hin. apply elem_of_app in Hin as [Hin | Hin]; [| done]. apply (Hn1 f Hin). left.
Qed.

Lemma brq_paid : paid (brq own type flags s e) = P.
Proof. done. Qed.

(** It starts before the request, and is the only one. *)
Lemma case_single A f fr C I1 I2 lk2 :
  let pre := lf_precharge fr fr true type flags s e in
  repr lk1 K lk2 sp1 (I1 ++ bl1 ++ I2) ->
  StronglySorted le_start (I1 ++ bl1 ++ I2) -> Forall (fun p => wf p.2) (I1 ++ bl1 ++ I2) ->
  R0 = I1 ++ I2 -> below s I1 -> above s I2 ->
  R0 = A ++ (f, fr) :: C -> own_apart own s e A -> own_apart own s e C ->
  hit own s e fr -> lf_start fr < s -> lf_end fr <= e ->
  outcome_ok sp1 pre (loop lk2 (pre + paid_b) f f).
Proof.
  intros pre H Hs Hw EI HI1 HI2 ER HA HC Hf Hfs Hfe. pose proof Hf as [Hfo [Hf1 Hf2]].
  pose proof (fr_wf A f fr C ER) as Hfw. pose proof (not_brange _ _ _ _ _ _ _ H EI ER) as Hnb.
  destruct (sorted_split s C) as (C1 & C2 & EC & HC1 & HC2).
  { pose proof Hsort as Hs'. rewrite ER in Hs'. apply sorted_app in Hs' as (_ & Hs' & _). by inversion Hs'. }
  pose proof Hsort as Hs0. rewrite ER in Hs0. apply sorted_mid_below in Hs0. cbn [snd] in Hs0.
  assert (I1 = A ++ (f, fr) :: C1 /\ I2 = C2) as [-> ->].
  { apply (split_unique s); try done; [rewrite <- EI, ER, EC; by rewrite <- app_assoc |].
    apply Forall_app_2; [| by constructor]. eapply Forall_impl; [exact Hs0 |]. simpl. intros. lia. }
  rewrite <- app_assoc in H, Hs, Hw. cbn [app] in H, Hs, Hw.
  rewrite EC in HC. apply Forall_app in HC as [HC1' HC2'].
  assert (s - 1 <= lf_end fr <= e) as Hfe' by lia.
  destruct (clip_single lk1 K HK own type flags s e Hse He b1 b1_locks f fr Hfo Hfs Hfe' Hfw Hnb
    sp1 (length (lf_range lk2)) A C1 C2 (Clip lk2 b1 (pre + paid_b) false []) (pre + paid_b) false)
    as (c & R & b' & n & E & H1 & H2 & H3 & H4); try done.
  exists c, (false || downgrades type fr). split; [exact E |]. split.
  - exists R, b', n. split; [done |]. destruct H2 as [L1 L2 L3 L4]. split.
    + split; try done; [by rewrite ER, EC |]. revert L2. rewrite ER, EC. sums. rewrite posix_bl. lia.
    + destruct (precharge_cases fr fr true) as (Q1 & Q2 & Q3). fold pre in Q1, Q2, Q3.
      assert (0 <= P) by apply ind_nonneg. rewrite brq_paid in H4.
      destruct (locks type) eqn:El; [| lia].
      destruct (lf_match fr type flags) eqn:Em; [specialize (H4 eq_refl eq_refl); lia |].
      rewrite (Q2 eq_refl eq_refl eq_refl) in *. destruct (lf_double_clip _ _ _ _ _); lia.
  - intros Hw'. cbn [orb] in Hw'. destruct (downgrades_false _ Hw') as [Hl Hd]. split; [done |].
    intros Ht x Hx. rewrite ER, EC. sums. rewrite (Hd Ht), !(cov_apart own s e) by done. lia.
Qed.

(** It starts before the request, and there are more. *)
Lemma case_across A f fr X l lr C I1 I2 lk2 :
  let pre := lf_precharge fr lr false type flags s e in
  repr lk1 K lk2 sp1 (I1 ++ bl1 ++ I2) ->
  StronglySorted le_start (I1 ++ bl1 ++ I2) -> Forall (fun p => wf p.2) (I1 ++ bl1 ++ I2) ->
  R0 = I1 ++ I2 -> below s I1 -> above s I2 ->
  R0 = A ++ (f, fr) :: X ++ (l, lr) :: C -> own_apart own s e A -> own_apart own s e C ->
  hit own s e fr -> hit own s e lr -> lf_start fr < s ->
  outcome_ok sp1 pre (loop lk2 (pre + paid_b) f l).
Proof.
  intros pre H Hs Hw EI HI1 HI2 ER HA HC Hf Hl Hfs. pose proof Hf as [Hfo [Hf1 Hf2]]. pose proof Hl as [Hlo [Hl1 Hl2]].
  pose proof (fr_wf A f fr _ ER) as Hfw. pose proof (not_brange _ _ _ _ _ _ _ H EI ER) as Hnb.
  pose proof (between_enclosed A f fr _ ER HA Hf X l lr C eq_refl Hl) as HX.
  assert (lf_end fr < lf_start lr) as Hfl by (apply (after_first A f fr _ ER Hf (l, lr)); [set_solver | done]).
  pose proof Hsort as Hs0. rewrite ER in Hs0.
  destruct (sorted_split s X) as (X1 & X2 & EX & HX1 & HX2).
  { apply sorted_app in Hs0 as (_ & Hs' & _). inversion Hs' as [| ? ? Hs'' _]; subst. by apply sorted_app in Hs'' as [Hs'' _]. }
  assert (above s C) as HCs.
  { rewrite app_comm_cons, app_assoc in Hs0. apply sorted_mid_above in Hs0. eapply Forall_impl; [exact Hs0 |]. simpl. intros. lia. }
  apply sorted_mid_below in Hs0. cbn [snd] in Hs0.
  assert (I1 = A ++ (f, fr) :: X1 /\ I2 = X2 ++ (l, lr) :: C) as [-> ->].
  { apply (split_unique s); try done.
    - rewrite <- EI, ER, EX. by rewrite <- !app_assoc.
    - apply Forall_app_2; [| by constructor]. eapply Forall_impl; [exact Hs0 |]. simpl. intros. lia.
    - apply Forall_app_2; [done |]. constructor; [simpl; lia | done]. }
  assert (own_free own X1) as HXf.
  { rewrite EX in HX. apply Forall_app in HX as [HX _]. unfold below, own_free in *. rewrite Forall_forall in HX, HX1 |- *.
    intros q Hq Ho. specialize (HX q Hq Ho). specialize (HX1 q Hq). simpl in *. lia. }
  rewrite EX in HX. apply Forall_app in HX as [_ HX].
  rewrite <- app_assoc in H, Hs, Hw. cbn [app] in H, Hs, Hw.
  assert (f <> l) as Hne.
  { intros <-. destruct (repr_notin _ _ HK _ _ _ _ _ _ H) as (_ & Hn & _). apply Hn. rewrite !fmap_app. set_solver. }
  assert (s - 1 <= lf_end fr <= e) as Hfe' by lia. assert (s <= lf_start lr <= e + 1) as Hls' by lia.
  destruct (clip_across lk1 K HK own type flags s e Hse He b1 b1_locks f fr Hfo Hfs Hfe' Hfw Hnb
    A X1 X2 C l lr Hs Hw HA HXf HX HC Hlo Hls' Hne sp1 (length (lf_range lk2)) (Clip lk2 b1 (pre + paid_b) false []) (pre + paid_b) false)
    as (c & R & b' & n & E & H1 & H2 & H3 & H4); [done | |].
  { rewrite (rp_range _ _ _ _ _ H), length_fmap. repeat (rewrite length_app || cbn [length]). lia. }
  exists c, (false || downgrades type fr || wake own type X2 || downgrades type lr). split; [exact E |]. split.
  - exists R, b', n. split; [done |]. destruct H2 as [L1 L2 L3 L4]. split.
    + split; try done; [by rewrite EI, <- app_assoc |]. revert L2. rewrite EI. sums. rewrite posix_bl. lia.
    + destruct (precharge_cases fr lr false) as (Q1 & Q2 & Q3). fold pre in Q1, Q2, Q3.
      assert (0 <= P) by apply ind_nonneg. rewrite brq_paid in H4.
      assert (paid lr = P) as Hpl by (apply (paid_in (l, lr)); [rewrite ER; set_solver | done]). rewrite Hpl in H4.
      destruct (locks type) eqn:El; [| lia]. specialize (H4 eq_refl).
      destruct (lf_match fr type flags) eqn:Emf, (lf_match lr type flags) eqn:Eml; try lia.
      rewrite (Q2 eq_refl eq_refl eq_refl) in *. destruct (lf_double_clip _ _ _ _ _); lia.
  - intros Hw'. cbn [orb] in Hw'. apply orb_false_iff in Hw' as [[W1 W2]%orb_false_iff W3].
    destruct (downgrades_false _ W1) as [Hlk Hd1]. destruct (downgrades_false _ W3) as [_ Hd2]. split; [done |].
    intros Ht x Hx. rewrite EI. sums.
    rewrite (Hd1 Ht), (Hd2 Ht), (wake_false _ W2 Ht), (cov_free own _ _ X1), !(cov_apart own s e) by done. lia.
Qed.

(** It starts before the request and ends after it. *)
Definition sp2 : list nat := if locks type then [] else [n1].

Lemma left_part_wf r : wf r -> lf_start r < s -> s <= lf_end r -> wf (left_part r).
Proof.
  intros [] ? ?. split; unfold left_part; cbn [lf_start lf_end lf_type lf_flags set_flags set_end]; try done; try lia.
  - by apply s16_ldiff.
  - by rewrite btest_ldiff_disjoint.
Qed.

Lemma left_part_paid r : paid (left_part r) = paid r.
Proof. unfold paid, left_part. cbn [lf_flags set_flags]. f_equal. by apply btest_ldiff_disjoint. Qed.

Lemma left_part_match r : lf_match (left_part r) type flags = lf_match r type flags.
Proof.
  unfold lf_match. cbn [lf_type left_part set_flags set_end]. destruct (negb _); [done |].
  rewrite !(btest_lxor _ _ _ 6) by done. unfold left_part. cbn [lf_flags set_flags].
  by rewrite btest_ldiff_disjoint.
Qed.

(** The two parts of a range hold what it holds outside the request. *)
Lemma parts_cov r t x :
  lf_owner r = own -> lf_start r < s -> e < lf_end r -> within s e x = false ->
  cov own t x (left_part r) + cov own t x (set_start r (e + 1)) = cov own t x r.
Proof.
  intros Ho H1 H2 Hx. rewrite !cov_own by done. unfold inside, left_part.
  cbn [lf_start lf_end lf_type set_flags set_end set_start].
  destruct (lf_type r =? t); rewrite ?andb_true_r, ?andb_false_r; [| done].
  apply andb_false_iff in Hx as [Hx | Hx]; zbool; cases.
Qed.

Lemma case_double A f fr C I1 I2 lk2 :
  let pre := lf_precharge fr fr true type flags s e in
  repr lk1 K lk2 sp1 (I1 ++ bl1 ++ I2) ->
  StronglySorted le_start (I1 ++ bl1 ++ I2) -> Forall (fun p => wf p.2) (I1 ++ bl1 ++ I2) ->
  R0 = I1 ++ I2 -> below s I1 -> above s I2 ->
  R0 = A ++ (f, fr) :: C -> own_apart own s e A -> own_apart own s e C ->
  hit own s e fr -> lf_start fr < s -> e < lf_end fr ->
  exists lk3, lf_split lk2 f n2 s e (pre + paid_b) = Done (lk3, pre + paid_b + P) /\
    outcome_ok sp2 pre (loop lk3 (pre + paid_b + P) f n2).
Proof.
  intros pre H Hs Hw EI HI1 HI2 ER HA HC Hf Hfs Hfe. pose proof Hf as [Hfo [Hf1 Hf2]].
  pose proof (fr_wf A f fr C ER) as Hfw. pose proof (not_brange _ _ _ _ _ _ _ H EI ER) as Hnb.
  pose proof (first_paid A f fr C ER Hf) as Hfp.
  pose proof Hsort as Hs0. rewrite ER in Hs0.
  assert (StronglySorted le_start C) as HsC by (apply sorted_app in Hs0 as (_ & Hs' & _); by inversion Hs').
  destruct (sorted_split (e + 1) C) as (D & C2 & EC & HD & HC2); [done |].
  destruct (sorted_split s D) as (C1 & D1 & ED & HC1 & HD1).
  { rewrite EC in HsC. by apply sorted_app in HsC as [HsC _]. }
  apply sorted_mid_below in Hs0. cbn [snd] in Hs0.
  assert (I1 = A ++ (f, fr) :: C1 /\ I2 = D1 ++ C2) as [-> ->].
  { apply (split_unique s); try done.
    - rewrite <- EI, ER, EC, ED. by rewrite <- !app_assoc.
    - apply Forall_app_2; [| by constructor]. eapply Forall_impl; [exact Hs0 |]. simpl. intros. lia.
    - apply Forall_app_2; [done |]. eapply Forall_impl; [exact HC2 |]. simpl. intros. lia. }
  assert (own_free own D) as HDf.
  { unfold below, own_free in *. rewrite Forall_forall in HD |- *. intros q Hq Ho. specialize (HD q Hq).
    assert (lf_end fr < lf_start q.2); [| simpl in *; lia].
    apply (after_first A f fr C ER Hf); [rewrite EC; set_solver | done]. }
  rewrite ED in HDf. apply Forall_app in HDf as [HC1f HD1f].
  rewrite EC in HC. apply Forall_app in HC as [_ HC2'].
  rewrite <- app_assoc in H, Hs, Hw. cbn [app] in H, Hs, Hw.
  rewrite (app_assoc bl1), (app_assoc C1) in H.
  assert (below (e + 1) (C1 ++ bl1 ++ D1)) as HT1.
  { apply Forall_app_2; [eapply Forall_impl; [exact HC1 |]; simpl; intros; lia |].
    apply Forall_app_2.
    - unfold bl. destruct b1; constructor; [simpl; lia | done].
    - rewrite ED in HD. by apply Forall_app in HD as [_ HD]. }
  destruct (split_ok lk2 sp2 A f fr (C1 ++ bl1 ++ D1) C2 (pre + paid_b)) as (lk3 & E3 & H3); try done.
  { eapply repr_perm; [| exact H]. unfold sp1, sp2. destruct (locks type); [done | apply Permutation_swap]. }
  rewrite Hfp in E3. exists lk3. split; [exact E3 |].
  set (fl := left_part fr) in *. set (fR := set_start fr (e + 1)) in *.
  rewrite <- !app_assoc in H3.
  assert (StronglySorted le_start (A ++ (f, fl) :: C1 ++ bl1 ++ D1 ++ (n2, fR) :: C2)) as Hs3.
  { apply (sorted_replace _ _ (f, fl)) in Hs; [| done].
    assert (forall T, A ++ (f, fl) :: C1 ++ bl1 ++ D1 ++ T = (A ++ (f, fl) :: C1 ++ bl1 ++ D1) ++ T) as Eapp.
    { intros T. by rewrite <- app_assoc, <- app_comm_cons, <- !app_assoc. }
    rewrite Eapp in Hs |- *. apply sorted_insert; [| done | done].
    apply Forall_app_2; [eapply upto_weaken; [exact Hs0 | simpl; lia] |].
    constructor; [simpl; lia |]. eapply below_upto; [exact HT1 | done]. }
  assert (wf fl) as Hflw by (apply left_part_wf; done || lia).
  assert (wf fR) as HfRw by (destruct Hfw; split; simpl; done || lia).
  assert (Forall (fun p => wf p.2) (A ++ (f, fl) :: C1 ++ bl1 ++ D1 ++ (n2, fR) :: C2)) as Hw3.
  { revert Hw. foralls. tauto. }
  assert (f <> n2) as Hne.
  { intros ->. destruct (repr_notin _ _ HK _ _ _ _ _ _ H3) as (_ & Hn & _). apply Hn. rewrite !fmap_app. set_solver. }
  assert (s - 1 <= lf_end fl <= e) as Hfle by (simpl; lia). assert (s <= lf_start fR <= e + 1) as HfRs by (simpl; lia).
  destruct (clip_across lk1 K HK own type flags s e Hse He b1 b1_locks f fl Hfo Hfs Hfle Hflw Hnb
    A C1 D1 C2 n2 fR Hs3 Hw3 HA HC1f (own_free_enclosed own s e D1 HD1f) HC2' Hfo HfRs Hne sp2 (length (lf_range lk3))
    (Clip lk3 b1 (pre + paid_b + P) false []) (pre + paid_b + P) false)
    as (c & R & b' & n & E & H4 & H5 & H6 & H7); [done | |].
  { rewrite (rp_range _ _ _ _ _ H3), length_fmap. repeat (rewrite length_app || cbn [length]). lia. }
  rewrite (own_free_wake own type D1) in H4 by done.
  eexists c, _. split; [exact E |]. split.
  - exists R, b', n. split; [exact H4 |]. destruct H5 as [[F1 F2 F3 F4] L2 L3 L4]. split.
    + split; try done.
      * split; try done.
        -- intros g Hg. rewrite F1, ER, EC, ED by done. sums. rewrite (Hg fl), (Hg fR), (Hg fr) by done. lia.
        -- intros t x. rewrite F2. destruct (within s e x) eqn:Ex; [done |].
           rewrite ER, EC, ED. sums. pose proof (parts_cov fr t x Hfo Hfs Hfe Ex). fold fl fR in H0. lia.
      * revert L2. rewrite ER, EC, ED. sums. rewrite posix_bl, (posix_own own fl), (posix_own own fR), (posix_own own fr) by done.
        unfold fl at 1. rewrite left_part_paid. change (paid fR) with (paid fr). lia.
    + destruct (precharge_cases fr fr true) as (Q1 & Q2 & Q3). fold pre in Q1, Q2, Q3.
      assert (0 <= P) by apply ind_nonneg. rewrite brq_paid in H7. unfold fl at 1 in H7. rewrite left_part_match in H7.
      change (lf_match fR type flags) with (lf_match fr type flags) in H7. change (paid fR) with (paid fr) in H7. rewrite Hfp in H7.
      assert (lf_double_clip fr fr true s e = true) as Hdc.
      { unfold lf_double_clip. rewrite Z.gtb_ltb, !(proj2 (Z.ltb_lt _ _)) by lia. done. }
      destruct (locks type) eqn:El.
      * specialize (H7 eq_refl). destruct (lf_match fr type flags) eqn:Em; [lia |].
        rewrite (Q2 eq_refl eq_refl eq_refl), Hdc in *. lia.
      * rewrite (Q3 eq_refl) in *; try done. lia.
  - intros Hw'. rewrite !orb_false_iff in Hw'. destruct Hw' as (((_ & W1) & _) & _).
    change (downgrades type fl) with (downgrades type fr) in W1.
    destruct (downgrades_false _ W1) as [Hl Hd]. split; [done |].
    intros Ht x Hx. rewrite ER, EC, ED. sums.
    rewrite (Hd Ht), (cov_free own _ _ C1), (cov_free own _ _ D1), !(cov_apart own s e) by done. lia.
Qed.
End Replace.
