(* ===== verification/LockfState.v ===== *)
(** * Byte-range locks: the state after a request was granted

    lf_wakeup, lf_count_change, lf_replace and lf_grant on a whole lockf
    structure: lists, memory and counters. *)

From stdpp Require Import prelude list strings gmap sorting.
From S2P Require Import Prelude.
From S2P Require Import Tailq.
From S2P Require Import Lockf.
From S2P Require Import LockfLists.
From S2P Require Import LockfClip.
From S2P Require Import LockfEffect.
From S2P Require Import LockfGrant.
From S2P Require Import LockfScan.
From S2P Require Import LockfReplace.
Open Scope Z_scope.

(** ** Waking *)

Lemma lf_overlap_meets r s e : wide r -> s <= e -> lf_overlap r s e = true <-> meets s e r.
Proof.
  unfold lf_overlap, meets, wide. intros. rewrite !Z.geb_leb.
  destruct (Z.leb_spec s (lf_start r)), (Z.leb_spec (lf_start r) e), (Z.leb_spec (lf_start r) s), (Z.leb_spec s (lf_end r));
    simpl; split; try done; lia.
Qed.

(** The request of number [j] is woken. *)
Definition wakes (lk : lockf) (s e : Z) (j : nat) : bool :=
  bool_decide (j ∈ lf_blocked lk) &&
  match lf_heap lk !! j with Some r => lf_overlap r s e | None => false end.

Definition wake_flag (b : bool) (r : lockf_range) : lockf_range := if b then set_flags r 1 else r.

(** The structure with the overlapping requests woken, if [w]. *)
Record woken (w : bool) (s e : Z) (lk lk' : lockf) : Prop := Woken {
  wo_range : lf_range lk' = lf_range lk;
  wo_blocked : lf_blocked lk' = filter (fun j => w && wakes lk s e j = false) (lf_blocked lk);
  wo_heap : forall j, lf_heap lk' !! j = wake_flag (w && wakes lk s e j) <$> lf_heap lk !! j;
  wo_init : init_done lk' = init_done lk;
  wo_next : lf_next lk' = lf_next lk;
  wo_ui : ui_posixlocks lk' = ui_posixlocks lk;
  wo_p : p_numposixlocks lk' = p_numposixlocks lk;
  wo_may : v_mayhavelocks lk' = v_mayhavelocks lk;
  wo_wakeups : lf_wakeups lk' = lf_wakeups lk ++ filter (fun j => w && wakes lk s e j = true) (lf_blocked lk)
}.

Lemma filter_all {A} (P : A -> Prop) `{!forall x, Decision (P x)} (l : list A) : Forall P l -> filter P l = l.
Proof. induction 1; [done |]. rewrite filter_cons_True by done. by f_equal. Qed.

Lemma filter_ext_in {A} (P Q : A -> Prop) `{!forall x, Decision (P x), !forall x, Decision (Q x)} (l : list A) :
  (forall x, x ∈ l -> P x <-> Q x) -> filter P l = filter Q l.
Proof.
  induction l as [| x l IH]; intros HPQ; [done |]. rewrite !filter_cons.
  assert (P x <-> Q x) by (apply HPQ; left). rewrite IH by (intros y Hy; apply HPQ; by right).
  by repeat case_decide; try tauto.
Qed.

Lemma filter_all_out {A} (P : A -> Prop) `{!forall x, Decision (P x)} l : (forall x, x ∈ l -> ~ P x) -> filter P l = [].
Proof. induction l as [| x l IH]; intros HP; [done |]. rewrite filter_cons_False by (apply HP; left). apply IH. intros y Hy. apply HP. by right. Qed.

Lemma woken_refl s e lk : woken false s e lk lk.
Proof.
  split; try done.
  - rewrite filter_all; [done |]. by apply Forall_true.
  - intros j. cbn. by destruct (lf_heap lk !! j).
  - by rewrite filter_all_out, app_nil_r.
Qed.

(** Does the request with this content overlap? *)
Definition hits (s e : Z) (o : option lockf_range) : bool :=
  match o with Some r => lf_overlap r s e | None => false end.

Lemma wakeup_loop_ok s e l : forall lk D,
  lf_blocked lk = D ++ l -> NoDup (D ++ l) -> Forall (fun i => is_Some (lf_heap lk !! i)) l ->
  exists lk', lf_wakeup_loop lk s e l = Done lk' /\
    lf_blocked lk' = D ++ filter (fun j => hits s e (lf_heap lk !! j) = false) l /\
    (forall j, lf_heap lk' !! j =
       wake_flag (bool_decide (j ∈ l) && hits s e (lf_heap lk !! j)) <$> lf_heap lk !! j) /\
    lf_range lk' = lf_range lk /\ init_done lk' = init_done lk /\ lf_next lk' = lf_next lk /\
    ui_posixlocks lk' = ui_posixlocks lk /\ p_numposixlocks lk' = p_numposixlocks lk /\
    v_mayhavelocks lk' = v_mayhavelocks lk /\ lf_wakeups lk' = lf_wakeups lk ++ filter (fun j => hits s e (lf_heap lk !! j) = true) l.
Proof.
  induction l as [| i l IH]; intros lk D HD Hn Hh.
  { exists lk. split_and!; try done; [intros j; by destruct (lf_heap lk !! j) | by rewrite app_nil_r]. }
  inversion Hh as [| ? ? [r Hr] Hh']; subst. cbn [lf_wakeup_loop]. unfold deref. rewrite Hr, bind_Done_l.
  assert (i ∉ l) as Hil by (apply NoDup_app in Hn as (_ & _ & Hn); by inversion Hn).
  assert (i ∉ D) as HiD by (apply NoDup_app in Hn as (_ & Hn & _); intros Hi; apply (Hn i Hi); left).
  destruct (lf_overlap r s e) eqn:Eo; cbn [negb].
  - set (lk1 := wakeup _ i).
    assert (forall j, j <> i -> lf_heap lk1 !! j = lf_heap lk !! j) as Hne.
    { intros j Hj. simpl. by rewrite lookup_insert_ne. }
    destruct (IH lk1 D) as (lk' & E & H1 & H2 & H3).
    + simpl. rewrite HD. by apply tailq_remove_mid.
    + apply NoDup_app in Hn as (Hn1 & Hn2 & Hn3). apply NoDup_app. split_and!; [done | | by inversion Hn3].
      intros x Hx Hx'. apply (Hn2 x Hx). by right.
    + rewrite Forall_forall in Hh' |- *. intros j Hj. rewrite Hne; [by apply Hh' |]. by intros ->.
    + exists lk'. split; [done |]. split_and!; try tauto.
      * rewrite H1. f_equal. rewrite (filter_cons_False _ i) by (rewrite Hr; simpl; congruence).
        apply filter_ext_in. intros j Hj. rewrite Hne; [done |]. by intros ->.
      * intros j. rewrite H2. destruct (decide (j = i)) as [-> | Hj].
        -- rewrite (bool_decide_false (i ∈ l)), (bool_decide_true (i ∈ i :: l)) by (done || left).
           simpl. rewrite lookup_insert_eq, Hr. simpl. by rewrite Eo.
        -- rewrite Hne by done. do 3 f_equal. apply bool_decide_ext. set_solver.
      * destruct H3 as (_ & _ & _ & _ & _ & _ & ->). cbn [lk1 wakeup lf_wakeups store set_heap set_blocked]. rewrite <- app_assoc. cbn [app]. rewrite (filter_cons_True _ i) by (by rewrite Hr). do 2 f_equal.
        apply filter_ext_in. intros j Hj. change (lf_heap lk1 !! j) with (lf_heap lk1 !! j). rewrite Hne; [done |]. by intros ->.
  - destruct (IH lk (D ++ [i])) as (lk' & E & H1 & H2 & H3); [by rewrite <- app_assoc | by rewrite <- app_assoc | done |].
    exists lk'. split; [done |]. split_and!; try tauto.
    + rewrite H1, <- app_assoc. f_equal. rewrite (filter_cons_True _ i) by (by rewrite Hr). done.
    + intros j. rewrite H2. destruct (decide (j = i)) as [-> | Hj].
      * rewrite Hr. simpl. by rewrite Eo, !andb_false_r.
      * do 3 f_equal. apply bool_decide_ext. set_solver.
    + destruct H3 as (_ & _ & _ & _ & _ & _ & ->). by rewrite (filter_cons_False _ i) by (rewrite Hr; simpl; congruence).
Qed.

Lemma lf_wakeup_ok lk s e :
  NoDup (lf_blocked lk) -> Forall (fun i => is_Some (lf_heap lk !! i)) (lf_blocked lk) ->
  exists lk', lf_wakeup lk s e = Done lk' /\ woken true s e lk lk'.
Proof.
  intros Hn Hh. destruct (wakeup_loop_ok s e (lf_blocked lk) lk []) as (lk' & E & H1 & H2 & H3 & H4); try done.
  exists lk'. split; [exact E |]. split; try tauto; try done.
  - rewrite H1. simpl. apply filter_ext_in. intros j Hj. unfold wakes. by rewrite bool_decide_true.
  - destruct H4 as (_ & _ & _ & _ & _ & ->). f_equal. apply filter_ext_in. intros j Hj. unfold wakes. by rewrite bool_decide_true.
Qed.

(** ** Counting *)

(** What [own] adds to the counters. *)
Definition share (own : option nat) (p : nat) (d : Z) : Z := if decide (own = Some p) then d else 0.

Section Count.
Context (proc_of : nat -> proc) (maxposixlocksperuid : Z).

Definition share_u (own : option nat) (u : nat) (d : Z) : Z :=
  match own with Some p => if decide (p_uip (proc_of p) = u) then d else 0 | None => 0 end.

(** The structure with [d] POSIX locks more. *)
Record charged (own : option nat) (d : Z) (lk lk' : lockf) : Prop := Charged {
  ch_range : lf_range lk' = lf_range lk;
  ch_blocked : lf_blocked lk' = lf_blocked lk;
  ch_heap : lf_heap lk' = lf_heap lk;
  ch_init : init_done lk' = init_done lk;
  ch_next : lf_next lk' = lf_next lk;
  ch_may : v_mayhavelocks lk' = v_mayhavelocks lk;
  ch_wakeups : lf_wakeups lk' = lf_wakeups lk;
  ch_p : forall p, counter (p_numposixlocks lk') p = counter (p_numposixlocks lk) p + share own p d;
  ch_ui : forall u, counter (ui_posixlocks lk') u = counter (ui_posixlocks lk) u + share_u own u d
}.

Lemma charged_zero own lk : charged own 0 lk lk.
Proof.
  split; try done; intros; unfold share, share_u; [case_decide; lia |].
  destruct own; [case_decide |]; lia.
Qed.

Lemma counter_insert m i j v : counter (<[i := v]> m) j = if decide (i = j) then v else counter m j.
Proof. unfold counter. case_decide; [subst; by rewrite lookup_insert_eq | by rewrite lookup_insert_ne]. Qed.

(** The counters of [own] allow for the change. *)
Definition affordable (own : option nat) (d : Z) (lk : lockf) : Prop :=
  match own with
  | Some p => 0 <= counter (p_numposixlocks lk) p + d /\
              0 <= counter (ui_posixlocks lk) (p_uip (proc_of p)) + d
  | None => True
  end.

(** The limit on locks that lf_count_change applies. *)
Definition refused (own : option nat) (lk : lockf) : Prop :=
  match own with
  | Some p =>
      let max := s32 (Z.min (rlim_cur (proc_of p)) maxposixlocksperuid) in
      cr_uid (proc_of p) <> 0 /\ max <> -1 /\ max <= counter (ui_posixlocks lk) (p_uip (proc_of p))
  | None => False
  end.

Lemma count_change_ok own d lk :
  affordable own d lk ->
  (exists lk', lf_count_change proc_of maxposixlocksperuid lk own d = Done (lk', false) /\ charged own d lk lk') \/
  (lf_count_change proc_of maxposixlocksperuid lk own d = Done (lk, true) /\ 0 < d /\ refused own lk).
Proof.
  destruct own as [p |]; cbn [affordable]; cycle 1.
  { intros _. left. exists lk. split; [done |]. split; try done; intros; unfold share, share_u; [case_decide; done || lia | lia]. }
  intros [H1 H2]. unfold lf_count_change. cbv zeta.
  destruct ((0 <? d) && _ && _ && _) eqn:E.
  - right. rewrite !andb_true_iff, !negb_true_iff, Z.geb_leb in E. destruct E as [[[? ?] ?] ?]. zbool.
    split; [done |]. split; [done |]. cbn [refused]. split_and!; done.
  - left. rewrite !(proj2 (Z.leb_le _ _)) by lia. cbn [KKASSERT]. rewrite !bind_Done_l.
    eexists. split; [reflexivity |]. split; try done; intros; cbn; rewrite counter_insert; unfold share;
      repeat case_decide; subst; try congruence; lia.
Qed.

(** A refund is never refused. *)
Lemma count_refund_ok own d lk :
  affordable own d lk -> d <= 0 ->
  exists lk', lf_count_change proc_of maxposixlocksperuid lk own d = Done (lk', false) /\ charged own d lk lk'.
Proof. intros Ha Hd. destruct (count_change_ok own d lk Ha) as [H | (_ & H & _)]; [done | lia]. Qed.
End Count.

(** ** The whole structure *)

(** Everything but the memory, and the memory without the objects [l]. *)
Record freed (l : list nat) (lk lk' : lockf) : Prop := Freed {
  fd_heap : forall j, lf_heap lk' !! j = if decide (j ∈ l) then None else lf_heap lk !! j;
  fd_rest : lk' = set_heap lk (lf_heap lk')
}.

Lemma freed_same l lk lk' : freed l lk lk' ->
  lf_range lk' = lf_range lk /\ lf_blocked lk' = lf_blocked lk /\ init_done lk' = init_done lk /\
  lf_next lk' = lf_next lk /\ ui_posixlocks lk' = ui_posixlocks lk /\
  p_numposixlocks lk' = p_numposixlocks lk /\ v_mayhavelocks lk' = v_mayhavelocks lk /\ lf_wakeups lk' = lf_wakeups lk.
Proof. intros [_ E]. rewrite E. done. Qed.

Lemma freed_trans l1 l2 lk lk' lk'' : freed l1 lk lk' -> freed l2 lk' lk'' -> freed (l1 ++ l2) lk lk''.
Proof.
  intros [H1 E1] [H2 E2]. split; [| rewrite E2, E1; done]. intros j. rewrite H2, H1.
  repeat case_decide; set_solver.
Qed.

Lemma freed_destroy i lk : freed [i] lk (lf_destroy_range lk i).
Proof.
  split; [| done]. intros j. simpl. case_decide as Hj.
  - apply list_elem_of_singleton in Hj as ->. apply lookup_delete_eq.
  - apply lookup_delete_ne. set_solver.
Qed.

Lemma freed_nil lk : freed [] lk lk.
Proof. split; [| by destruct lk]. intros j. by rewrite decide_False by set_solver. Qed.

Lemma freed_fold l : forall lk, freed l lk (fold_left lf_destroy_range l lk).
Proof.
  induction l as [| i l IH]; intros lk; [apply freed_nil |]. simpl.
  exact (freed_trans [i] l _ _ _ (freed_destroy i lk) (IH _)).
Qed.

Definition opt_list (o : option nat) : list nat := match o with Some i => [i] | None => [] end.

Lemma freed_cleanup lk o1 o2 : freed (opt_list o1 ++ opt_list o2) lk (lf_cleanup lk o1 o2).
Proof.
  unfold lf_cleanup. apply (freed_trans _ _ _ (match o1 with Some i => lf_destroy_range lk i | None => lk end)).
  - destruct o1; [apply freed_destroy | apply freed_nil].
  - destruct o2; [apply freed_destroy | apply freed_nil].
Qed.

Section After.
Context (proc_of : nat -> proc) (maxposixlocksperuid : Z).
Context (own : option nat) (s e : Z).

(** [lk'] has the ranges [R']; of the objects in [K] only those are left; if
    [w], the requests that overlap were woken; [own] has [d] POSIX locks more. *)
Record after (K : list nat) (lk lk' : lockf) (R' : elems) (w : bool) (d : Z) : Prop := After {
  af_range : lf_range lk' = R'.*1;
  af_nodup : NoDup R'.*1;
  af_ids : forall j, j ∈ R'.*1 -> j ∈ K;
  af_heap : Forall (fun p => lf_heap lk' !! p.1 = Some p.2) R';
  af_free : forall j, j ∈ K -> j ∉ R'.*1 -> lf_heap lk' !! j = None;
  af_other : forall j, j ∉ K -> lf_heap lk' !! j = wake_flag (w && wakes lk s e j) <$> lf_heap lk !! j;
  af_blocked : lf_blocked lk' = filter (fun j => w && wakes lk s e j = false) (lf_blocked lk);
  af_init : init_done lk' = init_done lk;
  af_next : lf_next lk' = lf_next lk;
  af_may : v_mayhavelocks lk' = v_mayhavelocks lk;
  af_wakeups : lf_wakeups lk' = lf_wakeups lk ++ filter (fun j => w && wakes lk s e j = true) (lf_blocked lk);
  af_p : forall p, counter (p_numposixlocks lk') p = counter (p_numposixlocks lk) p + share own p d;
  af_ui : forall u, counter (ui_posixlocks lk') u = counter (ui_posixlocks lk) u + share_u proc_of own u d
}.

(** The requests that wait are not among the objects that are changed. *)
Definition blocked_apart (K : list nat) (lk : lockf) : Prop :=
  NoDup (lf_blocked lk) /\ Forall (fun i => (i ∉ K) /\ is_Some (lf_heap lk !! i)) (lf_blocked lk).

(** The list was changed to [R], and the spare ranges are freed. *)
Lemma after_repr K R sp lk lk2 lk' :
  repr lk K lk2 sp R -> NoDup K -> freed sp lk2 lk' -> after K lk lk' R false 0.
Proof.
  intros H HK Hfr. pose proof (fd_heap _ _ _ Hfr) as Hh.
  destruct (freed_same _ _ _ Hfr) as (F1 & F2 & F3 & F4 & F5 & F6 & F7 & F8).
  pose proof (repr_nodup _ _ HK _ _ _ H) as Hn. destruct H as [R1 Hids R3 [G1 G2 G3 G4 G5 G6 G8 G7]].
  pose proof (woken_refl s e lk) as [_ Hb Hw _ _ _ _ _ Hk]. apply NoDup_app in Hn as (_ & Hn1 & Hn2).
  split; rewrite ?F1, ?F2, ?F3, ?F4, ?F5, ?F6, ?F7, ?F8, ?G1, ?G8, ?G4, ?G5; try done.
  - intros j Hj. rewrite <- Hids. set_solver.
  - rewrite Forall_forall in R3 |- *. intros p Hp.
    rewrite Hh, decide_False; [by apply R3 |]. intros Hin. apply (Hn1 _ Hin). by apply list_elem_of_fmap_2.
  - intros j Hj Hj'. rewrite Hh, decide_True; [done |]. rewrite <- Hids in Hj. set_solver.
  - intros j Hj. rewrite Hh, decide_False, G7; [apply Hw | done |]. intros Hin. apply Hj. rewrite <- Hids. set_solver.
  - intros p. unfold share. case_decide; lia.
  - intros u. unfold share_u. destruct own; [case_decide |]; lia.
Qed.

(** A failed request frees its two preallocated ranges. *)
Lemma after_nothing K R n1 n2 lk :
  repr lk K lk [n1; n2] R -> NoDup K ->
  after K lk (lf_cleanup lk (Some n1) (Some n2)) R false 0.
Proof. intros H HK. apply (after_repr K R [n1; n2] lk lk); try done. exact (freed_cleanup lk (Some n1) (Some n2)). Qed.

Lemma share_add p d1 d2 : share own p (d1 + d2) = share own p d1 + share own p d2.
Proof. unfold share. case_decide; lia. Qed.

Lemma share_u_add u d1 d2 : share_u proc_of own u (d1 + d2) = share_u proc_of own u d1 + share_u proc_of own u d2.
Proof. unfold share_u. destruct own; [case_decide |]; lia. Qed.

Lemma after_charged K lk lkc lk' R w d1 d2 :
  charged proc_of own d1 lk lkc -> after K lkc lk' R w d2 -> after K lk lk' R w (d1 + d2).
Proof.
  intros [C1 C2 C3 C4 C5 C6 Cw C7 C8] [A1 A2 A3 A4 A5 A6 A7 A8 A9 A10 Aw A11 A12].
  assert (forall j, wakes lkc s e j = wakes lk s e j) as Hwk by (intros j; unfold wakes; by rewrite C2, C3).
  split; try done; try congruence.
  - intros j Hj. rewrite A6, Hwk, C3; done.
  - rewrite A7, C2. apply filter_ext_in. intros j _. by rewrite Hwk.
  - rewrite Aw, C2, Cw. f_equal. apply filter_ext_in. intros j _. by rewrite Hwk.
  - intros p. rewrite A11, C7, share_add. lia.
  - intros u. rewrite A12, C8, share_u_add. lia.
Qed.

Lemma repr_charged K R out d lk lkc :
  charged proc_of own d lk lkc -> repr lk K lk out R -> repr lkc K lkc out R.
Proof. intros [C1 C2 C3 C4 C5 C6 Cw C7 C8] [R1 R2 R3 _]. split; [congruence | done | by rewrite C3 | by split]. Qed.

Lemma blocked_charged K d lk lkc :
  charged proc_of own d lk lkc -> blocked_apart K lk -> blocked_apart K lkc.
Proof. intros [C1 C2 C3 C4 C5 C6 Cw C7 C8] [H1 H2]. unfold blocked_apart. by rewrite C2, C3. Qed.
End After.

(** ** lf_replace *)

Section Finish.
Context {sty : Style}.
Context (proc_of : nat -> proc) (maxposixlocksperuid : Z).
Context (lk1 : lockf) (K : list nat) (R0 : elems).
Hypothesis HK : NoDup K.
Context (own : option nat) (type flags s e : Z).
Hypothesis Hse : 0 <= s <= e.
Hypothesis Hblocked : blocked_apart K lk1.

(** lf_replace after the loop. *)
Definition finish (c : clip) (o1 o2 : option nat) : outcome lockf :=
  c ← lf_merge own type flags c;
  let lk := fold_left lf_destroy_range (c_dead c) (c_lk c) in
  KKASSERT "count <= 0" (c_count c <=? 0);;
  lk ← (if c_count c <? 0
        then p ← lf_count_change proc_of maxposixlocksperuid lk own (c_count c); mret p.1 else mret lk);
  lk ← (if c_wakeup c then lf_wakeup lk s e else mret lk);
  mret (lf_cleanup lk o1 o2).

(** The steps of [finish] on the structure. *)
Lemma after_steps sp c R b n w lk2 lk3 lk4 o1 o2 :
  st lk1 K sp c R b n w -> opt_list o1 ++ opt_list o2 = sp ->
  lk2 = fold_left lf_destroy_range (c_dead c) (c_lk c) ->
  charged proc_of own n lk2 lk3 -> woken w s e lk3 lk4 ->
  after proc_of own s e K lk1 (lf_cleanup lk4 o1 o2) R w n.
Proof.
  intros [H _ _ _] Hsp -> Hc Hw.
  pose proof (freed_fold (c_dead c) (c_lk c)) as Hf2. set (lk2 := fold_left _ _ _) in *.
  pose proof (freed_cleanup lk4 o1 o2) as Hf5. rewrite Hsp in Hf5. set (lk5 := lf_cleanup lk4 o1 o2) in *.
  destruct (freed_same _ _ _ Hf2) as (A1 & A2 & A3 & A4 & A5 & A6 & A7 & A8).
  destruct (freed_same _ _ _ Hf5) as (B1 & B2 & B3 & B4 & B5 & B6 & B7 & B8).
  destruct Hc as [C1 C2 C3 C4 C5 C6 Cw C7 C8]. destruct Hw as [W1 W2 W3 W4 W5 W6 W7 W8 W9].
  pose proof (repr_nodup _ _ HK _ _ _ H) as Hn. destruct H as [R1 R2 R3 [G1 G2 G3 G4 G5 G6 G8 G7]].
  apply NoDup_app in Hn as (_ & Hn1 & Hn2). destruct Hblocked as [Hb1 Hb2]. rewrite Forall_forall in Hb2.
  assert (forall j, lf_heap lk3 !! j = if decide (j ∈ c_dead c) then None else lf_heap (c_lk c) !! j) as Hh3.
  { intros j. rewrite C3. apply Hf2. }
  assert (forall j, j ∉ K -> lf_heap lk3 !! j = lf_heap lk1 !! j) as Hout.
  { intros j Hj. rewrite Hh3, decide_False, G7; [done | done |]. intros Hd. apply Hj. rewrite <- R2. set_solver. }
  assert (lf_blocked lk3 = lf_blocked lk1) as Hbl by congruence.
  assert (forall j, j ∉ K -> wakes lk3 s e j = wakes lk1 s e j) as Hwk.
  { intros j Hj. unfold wakes. by rewrite Hbl, Hout. }
  assert (forall j, j ∈ K -> wakes lk3 s e j = false) as HwkK.
  { intros j Hj. unfold wakes. rewrite bool_decide_false; [done |]. rewrite Hbl. intros Hin. by destruct (Hb2 j Hin). }
  assert (forall j, lf_heap lk5 !! j = if decide (j ∈ sp) then None else
            wake_flag (w && wakes lk3 s e j) <$> lf_heap lk3 !! j) as Hh5.
  { intros j. rewrite (fd_heap _ _ _ Hf5). case_decide; [done | apply W3]. }
  split.
  - congruence.
  - done.
  - intros j Hj. rewrite <- R2. set_solver.
  - rewrite Forall_forall in R3 |- *. intros p Hp.
    assert (p.1 ∈ R.*1) as Hp1 by (by apply list_elem_of_fmap_2).
    assert (p.1 ∈ K) as HpK by (rewrite <- R2; set_solver).
    rewrite Hh5, decide_False, HwkK, andb_false_r, Hh3, decide_False, R3; try done;
      intros Hin; apply (Hn1 p.1); try done; set_solver.
  - intros j Hj Hj'. rewrite Hh5. case_decide as Hd; [done |]. rewrite Hh3, decide_True; [done |].
    rewrite <- R2 in Hj. set_solver.
  - intros j Hj. rewrite Hh5, decide_False, Hwk, Hout; try done. intros Hin. apply Hj. rewrite <- R2. set_solver.
  - rewrite B2, W2, Hbl. apply filter_ext_in. intros j Hj. rewrite Hwk; [done |]. by destruct (Hb2 j Hj).
  - congruence.
  - congruence.
  - congruence.
  - rewrite B8, W9, Hbl. f_equal; [congruence |]. apply filter_ext_in. intros j Hj. rewrite Hwk; [done |]. by destruct (Hb2 j Hj).
  - intros p. rewrite B6, W7, C7. f_equal. congruence.
  - intros u. rewrite B5, W6, C8. f_equal. congruence.
Qed.

Lemma finish_ok sp c w n0 o1 o2 :
  replaced lk1 K R0 own type flags s e sp c w n0 -> opt_list o1 ++ opt_list o2 = sp ->
  (forall R, effect own type s e R0 R ->
     affordable proc_of own (n0 + tally (posix own) R - tally (posix own) R0) lk1) ->
  exists lk' R, finish c o1 o2 = Done lk' /\ effect own type s e R0 R /\
    after proc_of own s e K lk1 lk' R w (n0 + tally (posix own) R - tally (posix own) R0).
Proof.
  intros (R1 & b1 & n1 & H1 & L1 & Hn1) Hsp Haff. unfold finish.
  destruct (merge_ok lk1 K HK own type flags s e R0 R0 sp c R1 b1 n0 n1 w H1 L1)
    as (c2 & R & b & n & -> & H & L & Hn). rewrite bind_Done_l. cbv zeta.
  pose proof (st_count _ _ _ _ _ _ _ _ H) as Hcnt. pose proof (st_wakeup _ _ _ _ _ _ _ _ H) as Hwk. rewrite Hcnt, Hwk.
  rewrite (proj2 (Z.leb_le _ _)) by lia. cbn [KKASSERT]. rewrite bind_Done_l.
  set (lk2 := fold_left _ _ _) in *. destruct (freed_same _ _ _ (freed_fold (c_dead c2) (c_lk c2))) as (_ & A2 & _ & _ & A5 & A6 & _ & _).
  fold lk2 in A2, A5, A6. pose proof (st_repr _ _ _ _ _ _ _ _ H) as Hr. pose proof (rp_frame _ _ _ _ _ Hr) as [G1 _ _ G4 G5 _ _ _].
  pose proof (lo_effect _ _ _ _ _ _ _ _ _ _ _ L) as Heff. pose proof (lo_count _ _ _ _ _ _ _ _ _ _ _ L) as Hc.
  assert (n = n0 + tally (posix own) R - tally (posix own) R0) as En by lia.
  assert (exists lk3, (if n <? 0 then p ← lf_count_change proc_of maxposixlocksperuid lk2 own n; mret p.1 else mret lk2) = Done lk3
            /\ charged proc_of own n lk2 lk3) as (lk3 & -> & Hch).
  { destruct (Z.ltb_spec n 0).
    - destruct (count_refund_ok proc_of maxposixlocksperuid own n lk2) as (lk3 & -> & Hch); [| lia |].
      + specialize (Haff R Heff). rewrite <- En in Haff. unfold affordable in *. by rewrite A5, A6, G4, G5.
      + exists lk3. by rewrite bind_Done_l.
    - assert (n = 0) as -> by lia. exists lk2. split; [done |]. apply charged_zero. }
  rewrite bind_Done_l.
  assert (exists lk4, (if w then lf_wakeup lk3 s e else mret lk3) = Done lk4 /\ woken w s e lk3 lk4) as (lk4 & -> & Hw4).
  { destruct w; [| exists lk3; split; [done | apply woken_refl]].
    assert (lf_blocked lk3 = lf_blocked lk1) as Eb by (rewrite (ch_blocked _ _ _ _ _ Hch); congruence).
    destruct Hblocked as [Hb1 Hb2]. apply lf_wakeup_ok; rewrite Eb; [done |].
    rewrite Forall_forall in Hb2 |- *. intros i Hi. destruct (Hb2 i Hi) as [HiK [r Hir]].
    rewrite (ch_heap _ _ _ _ _ Hch), (fd_heap _ _ _ (freed_fold (c_dead c2) (c_lk c2))), decide_False.
    - rewrite (fr_heap _ _ _ (rp_frame _ _ _ _ _ Hr)) by done. by exists r.
    - intros Hd. apply HiK. rewrite <- (rp_ids _ _ _ _ _ Hr). set_solver. }
  rewrite bind_Done_l. eexists _, R. split; [reflexivity |]. split; [exact Heff |].
  rewrite <- En. by apply (after_steps sp c2 R b n w lk2 lk3 lk4).
Qed.
End Finish.

Section Install.
Context {sty : Style}.
Context (proc_of : nat -> proc) (maxposixlocksperuid : Z).
Context (lk1 : lockf) (K : list nat) (R0 : elems) (n1 n2 : nat).
Hypothesis HK : NoDup K.
Hypothesis Hrep : repr lk1 K lk1 [n1; n2] R0.
Hypothesis Hblocked : blocked_apart K lk1.
Context (own : option nat) (type flags s e : Z).
Hypothesis Hse : 0 <= s <= e.
Hypothesis He : e <= LLONG_MAX.
Hypothesis Htype : type = F_RDLCK \/ type = F_WRLCK \/ type = F_UNLCK.
Hypothesis Hflags : is_s16 flags.
Hypothesis Hsort : StronglySorted le_start R0.
Hypothesis Hwf : Forall (fun p => wf p.2) R0.
Hypothesis Honce : once own R0.
Hypothesis Hstyle : btest flags F_POSIX = posix_owner own.

Abbreviation quiet := (quiet R0 own type s e).
Abbreviation outcome_ok := (outcome_ok lk1 K R0 own type flags s e).
Abbreviation b1 := (b1 n1 type).
Abbreviation sp1 := (sp1 n1 n2 type).
Abbreviation sp2 := (sp2 n1 type).
Abbreviation paid_b := (if locks type then ind (btest flags F_POSIX) else 0).
Abbreviation install := (install n1 own type flags s e).

(** The locks, brange in the list: what lf_replace does from there to the end
    of the loop. *)
Definition cut_and_clip (lk2 : lockf) (fm lm : nat) (dc : bool) (n : Z) : outcome clip :=
  '(lk, lm, n) ←
    (if dc : bool
     then
       KKASSERT "first_match == last_match" (Nat.eqb fm lm);;
       p ← lf_split lk2 fm n2 s e n;
       mret (p.1, n2, p.2)
     else mret (lk2, lm, n));
  lf_clip (S (length (lf_range lk))) own type flags s e fm lm (Some fm) (Clip lk b1 n false []).

Lemma cut_and_clip_ok f l I1 I2 fr lr :
  found own s e R0 (Some f) (Some l) -> deref lk1 f = Done fr -> deref lk1 l = Done lr ->
  R0 = I1 ++ I2 -> below s I1 -> above s I2 ->
  let dc := lf_double_clip fr lr (Nat.eqb f l) s e in
  let pre := lf_precharge fr lr (Nat.eqb f l) type flags s e in
  exists lk2, install lk1 (head I2.*1) pre = Done (lk2, b1, pre + paid_b) /\
    outcome_ok (if dc then sp2 else sp1) pre (cut_and_clip lk2 f l dc (pre + paid_b)).
Proof.
  intros (A & fr' & HA & Hf & Hcase) Hdf Hdl EI HI1 HI2 dc pre.
  destruct (install_ok lk1 K R0 n1 n2 HK own type flags s e Hse He Htype Hflags Hsort Hwf Honce Hstyle I1 I2 pre)
    as (lk2 & E & H2 & Hs2 & Hw2); try done.
  exists lk2. split.
  { rewrite E. do 2 f_equal. destruct (locks type); lia. }
  assert (forall i r B C, R0 = B ++ (i, r) :: C -> deref lk1 i = Done r) as Hder.
  { intros i r B C ER. pose proof Hrep as Hr. rewrite ER in Hr. by apply repr_deref in Hr. }
  assert (lf_start fr' < s \/ s <= lf_start fr') as [Hlt | Hge] by lia.
  - destruct Hcase as [(<- & C & ER & HC) | (X & lr' & C & ER & Hl & HC)].
    + rewrite (Hder _ _ _ _ ER) in Hdf, Hdl. injection Hdf as <-. injection Hdl as <-.
      unfold dc, pre. rewrite Nat.eqb_refl. unfold cut_and_clip, lf_double_clip. rewrite (proj2 (Z.ltb_lt _ _)) by done.
      rewrite Z.gtb_ltb. destruct (Z.ltb_spec e (lf_end fr')); cbn [andb].
      * rewrite Nat.eqb_refl. cbn [KKASSERT]. rewrite bind_Done_l.
        destruct (case_double lk1 K R0 n1 n2 HK own type flags s e Hse He Htype Hflags Hsort Hwf Honce Hstyle
          A f fr' C I1 I2 lk2) as (lk3 & E3 & H3); try done. by rewrite E3, !bind_Done_l.
      * rewrite bind_Done_l.
        apply (case_single lk1 K R0 n1 n2 HK own type flags s e Hse He Htype Hflags Hsort Hwf Honce Hstyle A f fr' C I1 I2); done.
    + assert (Nat.eqb f l = false) as Hfl.
      { apply Nat.eqb_neq. intros <-. pose proof Hrep as Hr. rewrite ER in Hr.
        destruct (repr_notin _ _ HK _ _ _ _ _ _ Hr) as (_ & Hn & _). apply Hn. rewrite fmap_app. set_solver. }
      rewrite (Hder _ _ _ _ ER) in Hdf.
      rewrite app_comm_cons, app_assoc in ER. rewrite (Hder _ _ _ _ ER) in Hdl. rewrite <- app_assoc, <- app_comm_cons in ER.
      injection Hdf as <-. injection Hdl as <-.
      unfold dc, pre. rewrite Hfl. unfold cut_and_clip, lf_double_clip. rewrite andb_false_r, bind_Done_l.
      apply (case_across lk1 K R0 n1 n2 HK own type flags s e Hse He Htype Hflags Hsort Hwf Honce Hstyle A f fr' X l lr' C I1 I2); done.
  - assert (exists X lr' C, R0 = A ++ X ++ (l, lr') :: C /\ Some (f, fr') = head (X ++ (l, lr') :: C) /\
      own_apart own s e C /\ hit own s e lr' /\ own_enclosed own s e X) as (X & lr' & C & ER & Eh & HC & Hl & HX).
    { destruct Hcase as [(<- & C & ER & HC) | (X & lr' & C & ER & Hl & HC)].
      - exists [], fr', C. split_and!; try done; try apply Hf. constructor.
      - exists ((f, fr') :: X), lr', C. split_and!; try done; try apply Hl.
        pose proof (between_enclosed K R0 HK own type flags s e Hse He Htype Hflags Hsort Hwf Honce Hstyle A f fr' _ ER HA Hf X l lr' C eq_refl Hl) as HX.
        constructor; [| exact HX]. intros _. cbn [snd].
        assert (lf_end fr' < lf_start lr') by (apply (after_first R0 own s e Hsort Hwf Honce A f fr' _ ER Hf (l, lr')); [set_solver | apply Hl]).
        destruct Hl as [_ [? ?]]. lia. }
    assert (exists T, X ++ (l, lr') :: C = (f, fr') :: T) as [T ET].
    { destruct (X ++ (l, lr') :: C) as [| q T]; [done |]. injection Eh as ->. by exists T. }
    pose proof Hsort as HT. rewrite ER, ET in HT. apply sorted_mid_above in HT. cbn [snd] in HT.
    assert (lf_start fr' <= lf_start lr') as Hfl.
    { destruct X as [| q X]; cbn in ET; [by injection ET as <- <- |]. injection ET as _ <-.
      revert HT. unfold above. foralls. tauto. }
    assert (deref lk1 f = Done fr' /\ deref lk1 l = Done lr') as [E1 E2].
    { split; [| rewrite app_assoc in ER; by apply (Hder _ _ _ _ ER)].
      rewrite ET in ER. by apply (Hder _ _ _ _ ER). }
    rewrite E1 in Hdf. rewrite E2 in Hdl. injection Hdf as <-. injection Hdl as <-.
    unfold dc, pre, cut_and_clip, lf_double_clip. rewrite (proj2 (Z.ltb_ge _ _)) by done. cbn [andb]. rewrite bind_Done_l.
    apply (case_inside lk1 K R0 n1 n2 HK own type flags s e Hse He Htype Hflags Hsort Hwf Honce Hstyle A f fr' X l lr' C I1 I2); try done.
    + lia.
    + rewrite ET. constructor; [done |]. eapply Forall_impl; [exact HT |]. simpl. intros. lia.
    + apply Hf.
Qed.

Lemma replace_ok f l I1 I2 fr lr :
  found own s e R0 (Some f) (Some l) -> deref lk1 f = Done fr -> deref lk1 l = Done lr ->
  R0 = I1 ++ I2 -> below s I1 -> above s I2 ->
  let dc := lf_double_clip fr lr (Nat.eqb f l) s e in
  let pre := lf_precharge fr lr (Nat.eqb f l) type flags s e in
  (forall R, effect own type s e R0 R ->
     affordable proc_of own (pre + tally (posix own) R - tally (posix own) R0) lk1) ->
  exists lk' R w,
    lf_replace proc_of maxposixlocksperuid lk1 own type flags s e (head I2.*1) f l n1 n2 dc pre = Done lk' /\
    effect own type s e R0 R /\ quiet w /\
    after proc_of own s e K lk1 lk' R w (pre + tally (posix own) R - tally (posix own) R0).
Proof.
  intros Hfd Hdf Hdl EI HI1 HI2 dc pre Haff.
  destruct (cut_and_clip_ok f l I1 I2 fr lr Hfd Hdf Hdl EI HI1 HI2) as (lk2 & E1 & c & w & E2 & Hr & Hq).
  fold dc pre in E1, E2, Hr. unfold cut_and_clip in E2.
  apply bind_Done in E2 as ([[lk3 lm] n3] & E2 & E3).
  destruct (finish_ok proc_of maxposixlocksperuid lk1 K R0 HK own type flags s e Hse Hblocked (if dc then sp2 else sp1) c w pre
    (if negb (type =? F_UNLCK) then None else Some n1) (if dc then None else Some n2)) as (lk' & R & E4 & He4 & Ha4); try done.
  { unfold LockfReplace.sp1, LockfReplace.sp2, locks. by destruct (type =? F_UNLCK), dc. }
  exists lk', R, w. split; [| done]. unfold lf_replace. unfold LockfReplace.install in E1.
  rewrite E1, bind_Done_l, E2, bind_Done_l, E3, bind_Done_l. exact E4.
Qed.
End Install.
