(* ===== verification/LockfInv.v ===== *)
(** * Byte-range locks: the invariant and lf_grant

    The invariant of the table of locks, that granting a request keeps it, and
    the effect of lf_grant on every branch. *)

From stdpp Require Import prelude list strings gmap sorting.
From S2P Require Import Prelude.
From S2P Require Import Tailq.
From S2P Require Import Lockf.
From S2P Require Import LockfLists.
From S2P Require Import LockfClip.
From S2P Require Import LockfEffect.
From S2P Require Import LockfGrant.
From S2P Require Import LockfScan.
From S2P Require Import LockfReplace.
From S2P Require Import LockfState.
Open Scope Z_scope.

(** ** The table of locks *)

(** Sorted by start; an owner holds a byte once; a byte that is locked
    exclusively is locked by one owner. *)
Record table_ok {sty : Style} (R : elems) : Prop := TableOk {
  to_sorted : StronglySorted le_start R;
  to_wf : Forall (fun p => wf p.2) R;
  to_once : forall o, once o R;
  to_excl : forall o o' x, o <> o' -> 0 < tally (cov o F_WRLCK x) R -> tally (covers o' x) R = 0
}.

(** How a byte is locked by an owner, which is the meaning of a table. *)
Definition held (R : elems) (o : option nat) (t x : Z) : bool := 0 <? tally (cov o t x) R.

Lemma covers_split {sty : Style} R o x : Forall (fun p => wf p.2) R ->
  tally (covers o x) R = tally (cov o F_RDLCK x) R + tally (cov o F_WRLCK x) R.
Proof.
  induction 1 as [| [i r] R Hw _ IH]; [done |]. rewrite !tally_cons, IH. cbn [snd] in *. destruct Hw as [_ _ _ Ht _ _].
  unfold covers, cov. destruct Ht as [-> | ->]; cbn; destruct (owned o r && inside x r); cbn; lia.
Qed.

Lemma covers_le o t x R : tally (cov o t x) R <= tally (covers o x) R.
Proof.
  induction R as [| [i r] R IH]; [done |]. rewrite !tally_cons. cbn [snd]. unfold cov, covers in *.
  destruct (owned o r && inside x r), (lf_type r =? t); cbn in *; lia.
Qed.

(** *** Requests *)

Record rq_ok {sty : Style} (rq : request) : Prop := RqOk {
  rk_range : 0 <= rq_start rq <= rq_end rq;
  rk_end : rq_end rq <= LLONG_MAX;
  rk_type : rq_type rq = F_RDLCK \/ rq_type rq = F_WRLCK \/ rq_type rq = F_UNLCK;
  rk_flags : is_s16 (rq_flags rq);
  rk_style : btest (rq_flags rq) F_POSIX = posix_owner (rq_owner rq)
}.

Abbreviation rq_effect := (fun rq => effect (rq_owner rq) (rq_type rq) (rq_start rq) (rq_end rq)).
Abbreviation rq_within := (fun rq => within (rq_start rq) (rq_end rq)).
Abbreviation rq_conflicts := (fun rq => conflicts (rq_owner rq) (rq_type rq) (rq_start rq) (rq_end rq)).
Abbreviation rq_peaceful := (fun rq => peaceful (rq_owner rq) (rq_type rq) (rq_start rq) (rq_end rq)).

(** Sums for another owner. *)
Lemma cov_foreign own o t x : o <> own -> foreign own (cov o t x).
Proof. intros Ho r Hr. unfold cov. by rewrite owned_ne by congruence. Qed.

Lemma covers_foreign own o x : o <> own -> foreign own (covers o x).
Proof. intros Ho r Hr. unfold covers. by rewrite owned_ne by congruence. Qed.

(** In a table without conflict nobody else locks what the request needs. *)
Lemma peaceful_cov rq R o x :
  rq_peaceful rq R -> rq_type rq <> F_UNLCK -> o <> rq_owner rq -> rq_within rq x = true ->
  tally (cov o F_WRLCK x) R = 0 /\ (rq_type rq = F_WRLCK -> tally (covers o x) R = 0).
Proof.
  intros Hp Ht Ho Hx. unfold within in Hx. zbool.
  assert (forall p, p ∈ R -> owned o p.2 && inside x p.2 = true ->
            rq_type rq <> F_WRLCK /\ lf_type p.2 <> F_WRLCK) as H'.
  { intros p Hin [H1 H2]%andb_true_iff. apply inside_true in H2. unfold owned in H1. apply bool_decide_eq_true in H1.
    unfold peaceful in Hp. rewrite Forall_forall in Hp. specialize (Hp p Hin).
    assert (meets (rq_start rq) (rq_end rq) p.2) as Hm by (split; lia).
    unfold conflicts in Hp. assert (lf_owner p.2 <> rq_owner rq) by congruence. tauto. }
  split; [| intros Hw]; apply tally_zero, Forall_forall; intros p Hin; specialize (H' p Hin); unfold cov, covers.
  - destruct (owned o p.2 && inside x p.2); [| done]. destruct (H' eq_refl) as [_ H'']. by rewrite (proj2 (Z.eqb_neq _ _) H'').
  - destruct (owned o p.2 && inside x p.2); [| done]. by destruct (H' eq_refl).
Qed.

(** Granting a request that conflicts with nothing keeps the table. *)
Lemma effect_table {sty : Style} rq R R' :
  rq_ok rq -> table_ok R -> rq_peaceful rq R -> rq_effect rq R R' -> table_ok R'.
Proof.
  intros Hrq [T1 T2 T3 T4] Hp [E1 E2 E3 E4].
  assert (forall o x, o <> rq_owner rq -> tally (covers o x) R' = tally (covers o x) R) as Eo.
  { intros o x Ho. apply E1. by apply covers_foreign. }
  assert (forall x, rq_within rq x = false -> tally (covers (rq_owner rq) x) R' = tally (covers (rq_owner rq) x) R) as Eout.
  { intros x Hx. rewrite !covers_split, !E2, Hx by done. done. }
  assert (forall x, rq_within rq x = true -> tally (covers (rq_owner rq) x) R' <= 1) as Ein.
  { intros x Hx. rewrite covers_split, !E2, Hx by done. unfold locks.
    destruct (rk_type _ Hrq) as [-> | [-> | ->]]; cbn; lia. }
  split; try done.
  - intros o x. destruct (decide (o = rq_owner rq)) as [-> | Ho]; [| rewrite Eo by done; apply T3].
    destruct (rq_within rq x) eqn:Hx; [by apply Ein | rewrite Eout by done; apply T3].
  - intros o o' x Hne Hw. destruct (decide (o = rq_owner rq)) as [-> | Ho].
    + rewrite Eo by done. rewrite E2 in Hw. destruct (rq_within rq x) eqn:Hx; [| by apply (T4 (rq_owner rq))].
      destruct (locks (rq_type rq)) eqn:Hl; cbn in Hw; [| lia].
      destruct (Z.eqb_spec (rq_type rq) F_WRLCK) as [Ht |]; cbn in Hw; [| lia].
      apply (peaceful_cov rq R o' x); try done. by rewrite Ht.
    + rewrite E1 in Hw by (by apply cov_foreign).
      destruct (decide (o' = rq_owner rq)) as [-> | Ho']; [| rewrite Eo by done; by apply (T4 o)].
      destruct (rq_within rq x) eqn:Hx; [| rewrite Eout by done; by apply (T4 o)].
      rewrite covers_split, !E2, Hx by done. destruct (locks (rq_type rq)) eqn:Hl; [| done].
      assert (rq_type rq <> F_UNLCK) as Ht by (unfold locks in Hl; by zbool).
      pose proof (proj1 (peaceful_cov rq R o x Hp Ht Ho Hx)). lia.
Qed.

(** ** The counters *)

(** The POSIX locks that processes and users have on other files. *)
Class Base := {
  base_p : nat -> Z;
  base_u : nat -> Z;
  base_p_nonneg : forall p, 0 <= base_p p;
  base_u_nonneg : forall u, 0 <= base_u u
}.

Section Ledger.
Context {base : Base}.
Context (proc_of : nat -> proc) (maxposixlocksperuid : Z).

(** The POSIX locks of the processes of a user. *)
Definition posix_u (u : nat) (r : lockf_range) : Z :=
  ind (match lf_owner r with Some p => bool_decide (p_uip (proc_of p) = u) | None => false end
       && btest (lf_flags r) F_POSIX).

(** Every lock is counted, once. *)
Record ledger (lk : lockf) (R : elems) : Prop := Ledger {
  le_p : forall p, counter (p_numposixlocks lk) p = base_p p + tally (posix (Some p)) R;
  le_ui : forall u, counter (ui_posixlocks lk) u = base_u u + tally (posix_u u) R
}.

(** The share of one owner in the locks of a user. *)
Lemma posix_u_change own f R R' :
  (forall f, foreign own f -> tally f R' = tally f R) ->
  tally (posix_u f) R' - tally (posix_u f) R =
  share_u proc_of own f (tally (posix own) R' - tally (posix own) R).
Proof.
  intros Hf.
  assert (forall T, tally (posix_u f) T =
    tally (fun r => if owned own r then 0 else posix_u f r) T + share_u proc_of own f (tally (posix own) T)) as E.
  { induction T as [| [i r] T IH]; [unfold share_u; destruct own; [case_decide |]; done |].
    rewrite !tally_cons, IH, share_u_add. cbn [snd]. pose proof (owned_spec own r) as Ho.
    destruct (owned own r) eqn:Eo.
    - rewrite (posix_own own r Ho). unfold posix_u at 1. rewrite Ho. unfold share_u. destruct own as [p |]; [| done].
      case_decide as Hu; [rewrite bool_decide_true by done | rewrite bool_decide_false by done]; unfold paid; cbn [andb ind]; lia.
    - assert (posix own r = 0) as -> by (unfold posix; by rewrite Eo).
      assert (share_u proc_of own f 0 = 0) as -> by (unfold share_u; destruct own; [case_decide |]; done). lia. }
  rewrite !E, Hf.
  - unfold share_u. destruct own; [case_decide |]; lia.
  - intros r Hr. by rewrite owned_eq.
Qed.

Lemma ledger_change own lk lk' R R' :
  (forall f, foreign own f -> tally f R' = tally f R) -> ledger lk R ->
  (forall p, counter (p_numposixlocks lk') p =
     counter (p_numposixlocks lk) p + share own p (tally (posix own) R' - tally (posix own) R)) ->
  (forall u, counter (ui_posixlocks lk') u =
     counter (ui_posixlocks lk) u + share_u proc_of own u (tally (posix own) R' - tally (posix own) R)) ->
  ledger lk' R'.
Proof.
  intros Hf [L1 L2] Hp Hu. split.
  - intros p. rewrite Hp. specialize (L1 p). unfold share. case_decide as Ho; [subst own; lia |].
    rewrite Hf; [lia |]. intros r Hr. unfold posix. rewrite owned_ne; [done | congruence].
  - intros u. rewrite Hu. specialize (L2 u). pose proof (posix_u_change own u R R' Hf). lia.
Qed.

(** The counters are large enough for every change to a table. *)
Lemma ledger_affordable own lk R d :
  ledger lk R -> 0 <= tally (posix own) R + d -> affordable proc_of own d lk.
Proof.
  intros [L1 L2] Hd. destruct own as [p |]; cbn [affordable]; [| done]. specialize (L1 p). specialize (L2 (p_uip (proc_of p))).
  pose proof (base_p_nonneg p). pose proof (base_u_nonneg (p_uip (proc_of p))).
  split; [lia |].
  assert (tally (posix (Some p)) R <= tally (posix_u (p_uip (proc_of p))) R); [| lia].
  clear. induction R as [| [i r] R IH]; [done |]. rewrite !tally_cons. cbn [snd]. unfold posix, posix_u in *.
  pose proof (owned_spec (Some p) r) as Ho. destruct (owned (Some p) r); [rewrite Ho, bool_decide_true by done; lia |].
  cbn [andb ind]. match goal with |- _ <= ind ?b + _ => pose proof (ind_nonneg b) end. lia.
Qed.
End Ledger.

(** ** lf_grant *)

(** The locks of the owner do not become weaker. *)
Definition not_weaker (o : option nat) (R R' : elems) : Prop := forall x,
  (0 < tally (cov o F_WRLCK x) R -> 0 < tally (cov o F_WRLCK x) R') /\
  (0 < tally (covers o x) R -> 0 < tally (covers o x) R').

Section Grant.
Context {sty : Style} {base : Base}.
Context (proc_of : nat -> proc) (maxposixlocksperuid : Z).
Context (lk : lockf) (K : list nat) (R : elems) (n1 n2 : nat).
Hypothesis HK : NoDup K.
Hypothesis Hrep : repr lk K lk [n1; n2] R.
Hypothesis Hblocked : blocked_apart K lk.
Hypothesis Htable : table_ok R.
Hypothesis Hledger : ledger proc_of lk R.
Context (rq : request).
Hypothesis Hrq : rq_ok rq.

Abbreviation own := (rq_owner rq).
Abbreviation s := (rq_start rq).
Abbreviation e := (rq_end rq).
Abbreviation pos := (tally (posix own)).

(** The result of an operation on the table: [R'] with the counters changed
    accordingly, and everything woken that the request may have freed. *)
Definition table_after (lk' : lockf) (R' : elems) (w : bool) : Prop :=
  after proc_of own s e K lk lk' R' w (pos R' - pos R) /\ (w = false -> not_weaker own R R').

Lemma quiet_not_weaker w R' :
  quiet R own (rq_type rq) s e w -> rq_effect rq R R' -> w = false -> not_weaker own R R'.
Proof.
  intros Hq [_ E2 _ E4] Hw x. destruct (Hq Hw) as [Hl Hrd]. rewrite !(covers_split _ own) by (done || apply Htable).
  rewrite !E2, Hl. destruct (within s e x) eqn:Ex; [| lia]. cbn [andb].
  destruct (rk_type _ Hrq) as [Et | [Et | Et]].
  - rewrite (Hrd Et x Ex), Et. cbn. lia.
  - rewrite Et. cbn. lia.
  - unfold locks in Hl. by rewrite Et in Hl.
Qed.

Lemma not_weaker_refl o T : not_weaker o T T.
Proof. by split. Qed.

(** The outcome when the limit on POSIX locks is reached. *)
Definition no_locks (lk' : lockf) : Prop :=
  after proc_of own s e K lk lk' R false 0 /\
  btest (rq_flags rq) F_POSIX = true /\ refused proc_of maxposixlocksperuid own lk /\
  (rq_type rq = F_UNLCK -> 0 < s \/ e < LLONG_MAX).

Definition grant_post (lk' : lockf) (err : Z) : Prop :=
  (err = 0 /\ exists R' w, rq_effect rq R R' /\ table_after lk' R' w) \/ (err = ENOLCK /\ no_locks lk').

(** No lock of ours overlaps: the table gets a new one. *)
Lemma insert_effect I1 I2 :
  own_apart own s e R -> R = I1 ++ I2 -> below s I1 -> above s I2 -> rq_type rq <> F_UNLCK ->
  rq_effect rq R (I1 ++ (n1, brq own (rq_type rq) (rq_flags rq) s e) :: I2) /\
  not_weaker own R (I1 ++ (n1, brq own (rq_type rq) (rq_flags rq) s e) :: I2).
Proof.
  intros Hap EI H1 H2 Ht. set (br := brq _ _ _ _ _). destruct Htable as [T1 T2 _ _].
  assert (locks (rq_type rq) = true) as Hl by (by apply negb_true_iff, Z.eqb_neq).
  assert (forall f, tally f (I1 ++ (n1, br) :: I2) = tally f R + f br) as Ef by (intros f; rewrite EI; sums; lia).
  split; cycle 1.
  { intros x. rewrite !Ef. pose proof (cov_nonneg own F_WRLCK x br). pose proof (covers_nonneg own x br). lia. }
  split.
  - intros f Hf. rewrite Ef, (Hf br) by done. lia.
  - intros t x. rewrite Ef, cov_own, Hl by done. unfold inside, within. cbn [lf_start lf_end lf_type br brq].
    destruct ((s <=? x) && (x <=? e)) eqn:Ex; cbn [andb ind]; [| lia]. rewrite (cov_apart _ s e); done.
  - apply sorted_insert; [| done | by rewrite <- EI]. by eapply below_upto.
  - rewrite EI in T2. revert T2. foralls. intros [? ?]. split_and!; try done.
    destruct Hrq. by apply brq_wf.
Qed.

Lemma grant_new I1 I2 ip lm :
  own_apart own s e R -> R = I1 ++ I2 -> below s I1 -> above s I2 -> ip = head I2.*1 ->
  exists lk' err, lf_grant proc_of maxposixlocksperuid lk rq ip None lm n1 n2 = Done (lk', err) /\ grant_post lk' err.
Proof.
  intros Hap EI H1 H2 ->. pose proof Hrq as [Q1 Q2 Q3 Q4 Q5]. pose proof Htable as [T1 T2 T3 _].
  unfold lf_grant. cbv zeta. destruct (Z.eqb_spec (rq_type rq) F_UNLCK) as [Et | Et].
  - eexists _, 0. split; [reflexivity |]. left. split; [done |]. exists R, false. split; cycle 1.
    { split; [| intros _; apply not_weaker_refl]. rewrite Z.sub_diag. by apply after_nothing. }
    split; try done. intros t x. destruct (within s e x) eqn:Ex; [| done].
    rewrite (cov_apart _ s e) by done. unfold locks. by rewrite Et.
  - assert (locks (rq_type rq) = true) as Hl by (by apply negb_true_iff, Z.eqb_neq).
    set (P := ind (btest (rq_flags rq) F_POSIX)).
    assert ((exists lkc, (if btest (rq_flags rq) F_POSIX then lf_count_change proc_of maxposixlocksperuid lk own 1 else mret (lk, false))
                = Done (lkc, false) /\ charged proc_of own P lk lkc) \/
            ((if btest (rq_flags rq) F_POSIX then lf_count_change proc_of maxposixlocksperuid lk own 1 else mret (lk, false))
                = Done (lk, true) /\ btest (rq_flags rq) F_POSIX = true /\ refused proc_of maxposixlocksperuid own lk)) as Hch.
    { unfold P. destruct (btest (rq_flags rq) F_POSIX).
      - destruct (count_change_ok proc_of maxposixlocksperuid own 1 lk) as [H | (H & _ & H')]; [| left; exact H | right; done].
        apply (ledger_affordable _ _ _ R); [done |]. pose proof (tally_nonneg _ R (posix_nonneg own)). lia.
      - left. exists lk. split; [done | apply charged_zero]. }
    destruct Hch as [(lkc & -> & Hc) | (-> & Hp & Hr)]; rewrite bind_Done_l; cbn [fst snd]; cycle 1.
    { eexists _, ENOLCK. split; [reflexivity |]. right. split; [done |]. split; [by apply after_nothing | done]. }
    destruct (install_ok lkc K R n1 n2 HK own (rq_type rq) (rq_flags rq) s e Q1 Q2 Q3 Q4 T1 T2 (T3 own) Q5 I1 I2 0)
      as (lk2 & E & H4 & _ & _); [by apply (repr_charged proc_of own K R [n1; n2] P lk) | done | done | done |].
    unfold install in E. rewrite (proj2 (Z.eqb_neq _ _) Et) in E. cbn [negb] in E.
    apply bind_Done in E as (lka & Ea & E). apply bind_Done in E as (lkb & Eb & E). injection E as -> _ _.
    rewrite Ea, bind_Done_l, Eb, bind_Done_l. eexists _, 0. split; [reflexivity |]. left. split; [done |].
    destruct (insert_effect I1 I2 Hap EI H1 H2 Et) as [He Hnw].
    unfold bl, b1, sp1 in H4. rewrite Hl in H4. set (br := brq _ _ _ _ _) in *. cbn [app] in H4.
    exists (I1 ++ (n1, br) :: I2), false. split; [done |]. split; [| done].
    replace (pos (I1 ++ (n1, br) :: I2) - pos R) with (P + 0).
    + eapply after_charged; [exact Hc |]. eapply after_repr; [exact H4 | done |].
      exact (freed_cleanup lk2 None (Some n2)).
    + rewrite EI. sums. rewrite (posix_own own br) by done. unfold paid, P. cbn [lf_flags br brq]. lia.
Qed.

Lemma grant_replace I1 I2 ip f l :
  found own s e R (Some f) (Some l) -> R = I1 ++ I2 -> below s I1 -> above s I2 -> ip = head I2.*1 ->
  exists lk' err, lf_grant proc_of maxposixlocksperuid lk rq ip (Some f) (Some l) n1 n2 = Done (lk', err) /\ grant_post lk' err.
Proof.
  intros Hf EI H1 H2 ->. pose proof Hrq as [Q1 Q2 Q3 Q4 Q5]. pose proof Htable as [T1 T2 T3 _].
  assert (forall A i r C, R = A ++ (i, r) :: C -> exists r, deref lk i = Done r /\ wf r) as Hdw.
  { intros A i r C ER. exists r. split; [pose proof Hrep as Hr; rewrite ER in Hr; by apply repr_deref in Hr |].
    rewrite ER in T2. revert T2. foralls. tauto. }
  assert (exists fr, deref lk f = Done fr /\ wf fr) as (fr & Ef & Wf1).
  { destruct Hf as (A & fr & _ & _ & [(-> & C & ER & _) | (X & lr & C & ER & _)]); by apply Hdw in ER. }
  assert (exists lr, deref lk l = Done lr /\ wf lr) as (lr & El & Wl1).
  { destruct Hf as (A & fr' & _ & _ & [(-> & C & ER & _) | (X & lr & C & ER & _)]); [by exists fr |].
    rewrite app_comm_cons, app_assoc in ER. by apply Hdw in ER. }
  unfold lf_grant. cbv zeta. rewrite Ef, bind_Done_l, El, bind_Done_l.
  set (dc := lf_double_clip _ _ _ _ _). set (pre := lf_precharge _ _ _ _ _ _ _).
  pose proof (tally_nonneg _ R (posix_nonneg own)) as Hpn.
  assert (pre <= 0) as Hpre by (unfold pre, lf_precharge; destruct (_ && _); [destruct (_ && _) |]; lia).
  assert (pre <> 0 -> btest (rq_flags rq) F_POSIX = true) as Hpp.
  { unfold pre, lf_precharge. by destruct (btest (rq_flags rq) F_POSIX). }
  assert ((exists lkc, (if negb (pre =? 0) then lf_count_change proc_of maxposixlocksperuid lk own (- pre) else mret (lk, false))
              = Done (lkc, false) /\ charged proc_of own (- pre) lk lkc) \/
          ((if negb (pre =? 0) then lf_count_change proc_of maxposixlocksperuid lk own (- pre) else mret (lk, false))
              = Done (lk, true) /\ pre <> 0 /\ refused proc_of maxposixlocksperuid own lk)) as Hch.
  { destruct (Z.eqb_spec pre 0) as [-> |]; cbn [negb].
    - left. exists lk. split; [done | apply charged_zero].
    - destruct (count_change_ok proc_of maxposixlocksperuid own (- pre) lk) as [H | (H & _ & H')]; [| left; exact H | right; auto].
      apply (ledger_affordable _ _ _ R); [done | lia]. }
  destruct Hch as [(lkc & -> & Hc) | (-> & Hp & Hr)]; rewrite bind_Done_l; cbn [fst snd]; cycle 1.
  { eexists _, ENOLCK. split; [reflexivity |]. right. split; [done |]. split; [by apply after_nothing |].
    split; [by apply Hpp |]. split; [done |]. intros Ht.
    destruct (decide (0 < s)) as [| Hs0]; [by left | right]. destruct (decide (e < LLONG_MAX)) as [| He0]; [done |].
    exfalso. apply Hp. unfold pre, lf_precharge, lf_unlock_override. rewrite Ht, (proj2 (Z.ltb_ge _ _)), (proj2 (Z.leb_le _ _));
      [by rewrite andb_false_r | |].
    - pose proof (wf_end _ Wl1). lia.
    - pose proof (wf_start _ Wf1). lia. }
  destruct (replace_ok proc_of maxposixlocksperuid lkc K R n1 n2 HK
    (repr_charged proc_of own K R [n1; n2] (- pre) lk lkc Hc Hrep) (blocked_charged proc_of own K (- pre) lk lkc Hc Hblocked)
    own (rq_type rq) (rq_flags rq) s e Q1 Q2 Q3 Q4 T1 T2 (T3 own) Q5 f l I1 I2 fr lr)
    as (lk' & R' & w & E & He & Hq & Ha); try done.
  { unfold deref. by rewrite (ch_heap _ _ _ _ _ Hc). }
  { unfold deref. by rewrite (ch_heap _ _ _ _ _ Hc). }
  { intros R' _. pose proof (tally_nonneg _ R' (posix_nonneg own)) as Hpn'. fold pre.
    assert (affordable proc_of own (pos R' - pos R) lk) as Haf by (apply (ledger_affordable _ _ _ R); [done | lia]).
    revert Haf. unfold affordable. destruct own as [p |]; [| done].
    rewrite (ch_p _ _ _ _ _ Hc), (ch_ui _ _ _ _ _ Hc). unfold share, share_u. rewrite !decide_True by done. lia. }
  fold dc pre in E, Ha. rewrite E, bind_Done_l. exists lk', 0. split; [done |]. left. split; [done |].
  exists R', w. split; [done |]. split; [| by apply quiet_not_weaker].
  replace (pos R' - pos R) with (- pre + (pre + pos R' - pos R)) by lia. by eapply after_charged.
Qed.

(** lf_grant after a scan that found no conflict. *)
Lemma lf_grant_ok ip fm lm :
  (exists I1 I2, R = I1 ++ I2 /\ below s I1 /\ above s I2 /\ ip = head I2.*1) ->
  found own s e R fm lm ->
  exists lk' err, lf_grant proc_of maxposixlocksperuid lk rq ip fm lm n1 n2 = Done (lk', err) /\ grant_post lk' err.
Proof.
  intros (I1 & I2 & EI & H1 & H2 & Ei) Hf. destruct fm as [f |], lm as [l |]; try done.
  - by apply (grant_replace I1 I2).
  - by apply (grant_new I1 I2).
Qed.
End Grant.
