(* ===== verification/LockfSet.v ===== *)
(** * Byte-range locks: lf_setlock

    A call of lf_setlock up to its return or its next sleep, on a lockf
    structure that other processes use too: it returns, without a fault, with
    the locks changed as requested or not at all, with nothing leaked, and with
    every waiting request woken that it may have unblocked. *)

From stdpp Require Import prelude list strings gmap sorting.
From S2P Require Import Prelude.
From S2P Require Import Tailq.
From S2P Require Import Lockf.
From S2P Require Import LockfLists.
From S2P Require Import LockfClip.
From S2P Require Import LockfEffect.
From S2P Require Import LockfGrant.
From S2P Require Import LockfScan.
From S2P Require Import LockfReplace.
From S2P Require Import LockfState.
From S2P Require Import LockfInv.
Open Scope Z_scope.

Section Set_.
Context {sty : Style} {base : Base}.
Context (proc_of : nat -> proc) (maxposixlocksperuid : Z).

(** The structure [lk] with the locks [R], when the objects [M] belong to
    processes that sleep (or to the call that runs). *)
Record lock_ok (lk : lockf) (R : elems) (M : list nat) : Prop := LockOk {
  lk_range : lf_range lk = R.*1;
  lk_heap : Forall (fun p => lf_heap lk !! p.1 = Some p.2) R;
  lk_nodup : NoDup (R.*1 ++ M);
  lk_live : forall j, is_Some (lf_heap lk !! j) <-> j ∈ R.*1 ++ M;
  lk_fresh : forall j, j ∈ R.*1 ++ M -> (j < lf_next lk)%nat;
  lk_blocked_nodup : NoDup (lf_blocked lk);
  lk_blocked_in : forall j, j ∈ lf_blocked lk -> j ∈ M;
  lk_table : table_ok R;
  lk_ledger : ledger proc_of lk R
}.

Lemma lock_ok_perm lk R M M' : M ≡ₚ M' -> lock_ok lk R M -> lock_ok lk R M'.
Proof.
  intros E [H1 H2 H3 H4 H5 H6 H7 H8 H9]. split; try done.
  - by rewrite <- E.
  - intros j. by rewrite H4, E.
  - intros j. rewrite <- E. apply H5.
  - intros j. rewrite <- E. apply H7.
Qed.

(** *** Allocation *)

Lemma alloc_ok lk R M :
  lock_ok lk R M ->
  lock_ok (lf_alloc_range lk).1 R ((lf_alloc_range lk).2 :: M) /\ (lf_alloc_range lk).2 ∉ lf_blocked lk.
Proof.
  intros [H1 H2 H3 H4 H5 H6 H7 H8 H9]. set (n := lf_next lk).
  assert (n ∉ R.*1 ++ M) as Hn by (intros Hn; specialize (H5 n Hn); unfold n in *; lia).
  split; [| intros Hb; apply Hn; apply elem_of_app; right; by apply H7].
  cbn [lf_alloc_range fst snd]. fold n. split; cbn; try done.
  - rewrite Forall_forall in H2 |- *. intros p Hp. rewrite lookup_insert_ne; [by apply H2 |].
    intros ->. apply Hn, elem_of_app. left. by apply list_elem_of_fmap_2.
  - rewrite <- Permutation_middle. by apply NoDup_cons.
  - intros j. rewrite <- Permutation_middle. destruct (decide (j = n)) as [-> | Hj].
    + rewrite lookup_insert_eq. split; [intros _; left | by eexists].
    + rewrite lookup_insert_ne, H4, elem_of_cons by done. tauto.
  - intros j. rewrite <- Permutation_middle. intros [-> | Hj]%elem_of_cons; [lia |]. specialize (H5 j Hj). lia.
  - intros j Hj. right. by apply H7.
  - destruct H9 as [L1 L2]. by split.
Qed.

Lemma alloc_kept lk j : j <> lf_next lk -> lf_heap (lf_alloc_range lk).1 !! j = lf_heap lk !! j.
Proof. intros Hj. cbn. by rewrite lookup_insert_ne. Qed.

(** *** What a call does to the others *)

(** The objects [M] of the others are as before, except that the requests that
    overlap are woken if [w]; [tail] is the request that starts to wait. *)
Record kept (w : bool) (s e : Z) (M : list nat) (lk lk' : lockf) (tail : list nat) : Prop := Kept {
  kp_heap : forall j, j ∈ M -> lf_heap lk' !! j = wake_flag (w && wakes lk s e j) <$> lf_heap lk !! j;
  kp_blocked : lf_blocked lk' = filter (fun j => w && wakes lk s e j = false) (lf_blocked lk) ++ tail;
  kp_init : init_done lk' = init_done lk;
  kp_may : v_mayhavelocks lk' = v_mayhavelocks lk;
  kp_wakeups : lf_wakeups lk' = lf_wakeups lk ++ filter (fun j => w && wakes lk s e j = true) (lf_blocked lk)
}.

(** How the locks of [own] may have changed. *)
Record touched (own : option nat) (s e : Z) (R R' : elems) (w : bool) : Prop := Touched {
  tc_foreign : forall f, foreign own f -> tally f R' = tally f R;
  tc_outside : forall t x, within s e x = false -> tally (cov own t x) R' = tally (cov own t x) R;
  tc_quiet : w = false -> not_weaker own R R'
}.

Lemma touched_refl own s e R : touched own s e R R false.
Proof. by split. Qed.

(** From [after] to the state of the structure, with the two ranges of the call gone. *)
Lemma after_lock_ok own s e lk lk' R R' n1 n2 M w :
  lock_ok lk R (n1 :: n2 :: M) -> n1 ∉ lf_blocked lk -> n2 ∉ lf_blocked lk ->
  after proc_of own s e (n1 :: n2 :: R.*1) lk lk' R' w (tally (posix own) R' - tally (posix own) R) ->
  (forall f, foreign own f -> tally f R' = tally f R) -> table_ok R' ->
  lock_ok lk' R' M /\ kept w s e M lk lk' [].
Proof.
  intros [H1 H2 H3 H4 H5 H6 H7 H8 H9] Hb1 Hb2 [A1 A2 A3 A4 A5 A6 A7 A8 A9 A10 A11 A12] Hf Ht.
  assert (forall j, j ∈ M -> j ∉ n1 :: n2 :: R.*1) as HM.
  { intros j Hj Hj'. assert (R.*1 ++ n1 :: n2 :: M ≡ₚ (n1 :: n2 :: R.*1) ++ M) as Ep by solve_Permutation.
    rewrite Ep in H3. apply NoDup_app in H3 as (_ & H3 & _). by apply (H3 j). }
  split.
  - split; try done.
    + apply NoDup_app. split_and!; [done | |].
      * intros j Hj Hj'. apply (HM j Hj'). by apply A3.
      * apply NoDup_app in H3 as (_ & _ & H3). by inversion H3 as [| ? ? _ H3']; inversion H3'.
    + intros j. destruct (decide (j ∈ n1 :: n2 :: R.*1)) as [Hj | Hj].
      * destruct (decide (j ∈ R'.*1)) as [Hj' | Hj'].
        -- split; [intros _; set_solver |]. intros _. apply list_elem_of_fmap in Hj' as (p & -> & Hp).
           rewrite Forall_forall in A4. rewrite (A4 p Hp). by eexists.
        -- rewrite A5 by done. split; [intros [? ?]; done |]. intros [? | HjM]%elem_of_app; [done |]. by destruct (HM j HjM).
      * rewrite A6, fmap_is_Some, H4 by done. set_solver.
    + intros j Hj. rewrite A9. apply H5. apply elem_of_app in Hj as [Hj | Hj]; [apply A3 in Hj |]; set_solver.
    + rewrite A7. by apply NoDup_filter.
    + intros j. rewrite A7. intros [_ Hj]%list_elem_of_filter. specialize (H7 j Hj). set_solver.
    + by apply (ledger_change proc_of own lk lk' R R').
  - split; try done; [intros j Hj; apply A6; by apply HM | by rewrite app_nil_r].
Qed.

(** *** Blocked requests *)

(** A lock of another owner stands against the request. *)
Definition blocked_by (R : elems) (own : option nat) (type s e : Z) : Prop :=
  type <> F_UNLCK /\ exists o x, o <> own /\ within s e x = true /\
    (0 < tally (cov o F_WRLCK x) R \/ (type = F_WRLCK /\ 0 < tally (covers o x) R)).

Lemma conflict_blocked R i r own type s e :
  Forall (fun p => wf p.2) R -> s <= e -> (i, r) ∈ R -> conflicts own type s e r -> blocked_by R own type s e.
Proof.
  intros Hw Hse Hin (Ho & [Hm1 Hm2] & Ht & Hc). split; [done |].
  rewrite Forall_forall in Hw. pose proof (wf_wide _ (Hw _ Hin)) as Hwd. cbn [snd] in Hwd.
  exists (lf_owner r), (Z.max s (lf_start r)). split; [done |].
  assert (inside (Z.max s (lf_start r)) r = true) as Hi by (apply inside_true; lia).
  split; [unfold within; apply andb_true_iff; rewrite !Z.leb_le; lia |].
  destruct Hc as [Hc | Hc]; [right; split; [done |] | left].
  - apply (Z.lt_le_trans _ 1); [lia |].
    pose proof (tally_pos_elem _ R (i, r) (covers_nonneg (lf_owner r) (Z.max s (lf_start r))) Hin) as Hp.
    cbn [snd] in Hp. unfold covers at 1 in Hp. rewrite owned_eq, Hi in Hp by done. exact Hp.
  - apply (Z.lt_le_trans _ 1); [lia |].
    pose proof (tally_pos_elem _ R (i, r) (cov_nonneg (lf_owner r) F_WRLCK (Z.max s (lf_start r))) Hin) as Hp.
    cbn [snd] in Hp. unfold cov at 1 in Hp. rewrite owned_eq, Hi, Hc in Hp by done. exact Hp.
Qed.

(** A request that is not woken stays blocked: the owner that changed its locks
    did not give up what the request waits for. *)
Lemma blocked_kept own s e R R' w o type bs be :
  touched own s e R R' w -> Forall (fun p => wf p.2) R -> Forall (fun p => wf p.2) R' ->
  (w = false \/ be < s \/ e < bs) -> blocked_by R o type bs be -> blocked_by R' o type bs be.
Proof.
  intros [T1 T2 T3] HwR HwR' Hw [Ht (o' & x & Ho & Hx & Hc)]. split; [done |]. exists o', x. split; [done |]. split; [done |].
  destruct (decide (o' = own)) as [-> | Hne].
  - destruct Hw as [-> | Hw]; [destruct (T3 eq_refl x) as [N1 N2]; tauto |].
    assert (within s e x = false) as Hout.
    { unfold within in *. zbool. apply andb_false_iff. rewrite !Z.leb_gt. lia. }
    rewrite covers_split, !T2, <- covers_split by done. done.
  - rewrite !T1 by (by apply cov_foreign || by apply covers_foreign). done.
Qed.

(** *** The call *)

Section Call.
Context (rq : request) (M : list nat) (lk : lockf) (R : elems).
Abbreviation own := (rq_owner rq).
Abbreviation s := (rq_start rq).
Abbreviation e := (rq_end rq).

(** The call returned [err]. *)
Definition ret_post (lk' : lockf) (err : Z) : Prop :=
  exists R' w, lock_ok lk' R' M /\ kept w s e M lk lk' [] /\ touched own s e R R' w /\
  ((err = 0 /\ rq_effect rq R R' /\ rq_peaceful rq R) \/
   (err = EAGAIN /\ R' = R /\ btest (rq_flags rq) F_WAIT = false /\ blocked_by R own (rq_type rq) s e) \/
   (err = EDEADLK /\ R' = R /\ btest (rq_flags rq) F_WAIT = true /\ btest (rq_flags rq) F_POSIX = true /\
    blocked_by R own (rq_type rq) s e) \/
   (err = ENOLCK /\ R' = R /\ btest (rq_flags rq) F_POSIX = true /\ refused proc_of maxposixlocksperuid own lk /\
    (rq_type rq = F_UNLCK -> 0 < s \/ e < LLONG_MAX))).

(** The call sleeps. *)
Definition sleep_post (lk' : lockf) (count : Z) (sl : sleeper) : Prop :=
  exists R' w, lock_ok lk' R' (sl_brange sl :: sl_new_range2 sl :: M) /\ kept w s e M lk lk' [sl_brange sl] /\
  touched own s e R R' w /\
  sl_request sl = rq /\ sl_count sl = count /\
  lf_heap lk' !! sl_brange sl = Some (LockfRange (rq_type rq) 0 s e own) /\
  btest (rq_flags rq) F_WAIT = true /\ blocked_by R' own (rq_type rq) s e /\
  (((btest (rq_flags rq) F_POSIX = true \/ rq_type rq <> F_WRLCK) /\ R' = R) \/
   (btest (rq_flags rq) F_POSIX = false /\ rq_type rq = F_WRLCK /\ effect own F_UNLCK s e R R')).

Definition call_post (count : Z) (lk' : lockf) (res : lf_result) : Prop :=
  match res with
  | LfReturn err => ret_post lk' err
  | LfSleep sl => sleep_post lk' count sl
  | LfDelay _ _ => False
  end.
End Call.

(** The two preallocated ranges. *)
Definition prealloc (lk : lockf) (new2 : option nat) : lockf * nat * nat :=
  let '(lk, n1) := lf_alloc_range lk in
  let '(lk, n2) := match new2 with Some i => (lk, i) | None => lf_alloc_range lk end in
  (lk, n1, n2).

Lemma prealloc_ok lk R M new2 :
  lock_ok lk R (opt_list new2 ++ M) -> (forall i, new2 = Some i -> i ∉ lf_blocked lk) ->
  let '(lk2, n1, n2) := prealloc lk new2 in
  lock_ok lk2 R (n1 :: n2 :: M) /\ (n1 ∉ lf_blocked lk) /\ (n2 ∉ lf_blocked lk) /\
  lf_blocked lk2 = lf_blocked lk /\ init_done lk2 = init_done lk /\ (v_mayhavelocks lk2 = v_mayhavelocks lk /\ lf_wakeups lk2 = lf_wakeups lk) /\
  ui_posixlocks lk2 = ui_posixlocks lk /\ p_numposixlocks lk2 = p_numposixlocks lk /\
  (forall j, j ∈ M -> lf_heap lk2 !! j = lf_heap lk !! j).
Proof.
  intros H Hb. unfold prealloc. destruct (alloc_ok lk R _ H) as [H1 Hb1].
  assert (forall j, j ∈ M -> j <> lf_next lk) as Hne.
  { intros j Hj ->. assert (lf_next lk < lf_next lk)%nat; [| lia]. apply (lk_fresh _ _ _ H). set_solver. }
  destruct (lf_alloc_range lk) as [lk1 n1] eqn:E1. cbn [fst snd] in *.
  assert (n1 = lf_next lk /\ lf_next lk1 = S n1 /\ lf_blocked lk1 = lf_blocked lk /\ init_done lk1 = init_done lk /\
    (v_mayhavelocks lk1 = v_mayhavelocks lk /\ lf_wakeups lk1 = lf_wakeups lk) /\ ui_posixlocks lk1 = ui_posixlocks lk /\ p_numposixlocks lk1 = p_numposixlocks lk /\
    forall j, j ∈ M -> lf_heap lk1 !! j = lf_heap lk !! j) as (En & En1 & F1 & F2 & [F3 F3w] & F4 & F5 & F6).
  { injection E1 as <- <-. split_and!; try done. intros j Hj. cbn. rewrite lookup_insert_ne; [done |]. by specialize (Hne j Hj). }
  destruct new2 as [i |]; cbn [opt_list app] in *.
  - split_and!; try done. by apply Hb.
  - destruct (alloc_ok lk1 R _ H1) as [H2 Hb2]. destruct (lf_alloc_range lk1) as [lk2 n2] eqn:E2. cbn [fst snd] in *.
    rewrite F1 in Hb2. split; [eapply lock_ok_perm; [| exact H2]; apply Permutation_swap |].
    injection E2 as <- <-. split_and!; try done. intros j Hj. cbn. rewrite lookup_insert_ne; [by apply F6 |].
    rewrite En1, En. intros <-. assert (lf_next lk < lf_next lk)%nat; [| lia].
    pose proof (lk_fresh _ _ _ H (S (lf_next lk))). set_solver by lia.
Qed.

Section Prepared.
Context (lk : lockf) (R : elems) (M : list nat) (n1 n2 : nat).
Hypothesis Hlk : lock_ok lk R (n1 :: n2 :: M).
Hypothesis Hn1 : n1 ∉ lf_blocked lk.
Hypothesis Hn2 : n2 ∉ lf_blocked lk.
Abbreviation K := (n1 :: n2 :: R.*1).

Lemma prepared_nodup : NoDup K.
Proof.
  pose proof (lk_nodup _ _ _ Hlk) as H.
  assert (R.*1 ++ n1 :: n2 :: M ≡ₚ K ++ M) as E by solve_Permutation. rewrite E in H. by apply NoDup_app in H as [H _].
Qed.

Lemma prepared_repr : repr lk K lk [n1; n2] R.
Proof. destruct Hlk. by split. Qed.

Lemma prepared_blocked : blocked_apart K lk.
Proof.
  destruct Hlk as [H1 H2 H3 H4 H5 H6 H7 H8 H9]. split; [done |]. apply Forall_forall. intros j Hj. split.
  - pose proof (H7 j Hj) as HM. intros HjK.
    assert (R.*1 ++ n1 :: n2 :: M ≡ₚ K ++ M) as E by solve_Permutation. rewrite E in H3. apply NoDup_app in H3 as (_ & H3 & _).
    apply (H3 j HjK). apply elem_of_cons in HM as [-> | [-> | HM]%elem_of_cons]; done.
  - apply H4. apply elem_of_app. right. by apply H7.
Qed.

(** The request conflicts with nothing. *)
Lemma granted rq ip fm lm :
  rq_ok rq ->
  (exists I1 I2, R = I1 ++ I2 /\ below (rq_start rq) I1 /\ above (rq_start rq) I2 /\ ip = head I2.*1) ->
  found (rq_owner rq) (rq_start rq) (rq_end rq) R fm lm -> rq_peaceful rq R ->
  exists lk' err, lf_grant proc_of maxposixlocksperuid lk rq ip fm lm n1 n2 = Done (lk', err) /\
    ret_post rq M lk R lk' err.
Proof.
  intros Hrq Hip Hf Hp. pose proof Hlk as [_ _ _ _ _ _ _ Ht Hled].
  destruct (lf_grant_ok proc_of maxposixlocksperuid lk K R n1 n2 prepared_nodup prepared_repr prepared_blocked
    Ht Hled rq Hrq ip fm lm Hip Hf) as (lk' & err & E & [(-> & R' & w & He & Ha & Hq) | (-> & Ha & Hpx & Hr)]);
    eexists _, _; (split; [exact E |]).
  - pose proof (effect_table rq R R' Hrq Ht Hp He) as Ht'. pose proof He as [E1 E2 _ _].
    destruct (after_lock_ok _ _ _ _ _ _ _ _ _ _ _ Hlk Hn1 Hn2 Ha E1 Ht') as [Hlk' Hk].
    exists R', w. split; [done |]. split; [done |]. split; [| by left]. split; try done.
    intros t x Hx. by rewrite E2, Hx.
  - assert (after proc_of (rq_owner rq) (rq_start rq) (rq_end rq) K lk lk' R false
      (tally (posix (rq_owner rq)) R - tally (posix (rq_owner rq)) R)) as Ha' by (by rewrite Z.sub_diag).
    destruct (after_lock_ok _ _ _ _ _ _ _ _ _ _ _ Hlk Hn1 Hn2 Ha' (fun _ _ => eq_refl) Ht) as [Hlk' Hk].
    exists R, false. split; [done |]. split; [done |]. split; [apply touched_refl |]. tauto.
Qed.

(** The call fails and frees its ranges. *)
Lemma failed rq :
  lock_ok (lf_cleanup lk (Some n1) (Some n2)) R M /\
  kept false (rq_start rq) (rq_end rq) M lk (lf_cleanup lk (Some n1) (Some n2)) [].
Proof.
  pose proof (after_nothing proc_of (rq_owner rq) (rq_start rq) (rq_end rq) K R n1 n2 lk prepared_repr prepared_nodup) as Ha.
  rewrite <- (Z.sub_diag (tally (posix (rq_owner rq)) R)) in Ha.
  exact (after_lock_ok _ _ _ _ _ _ _ _ _ _ _ Hlk Hn1 Hn2 Ha (fun _ _ => eq_refl) (lk_table _ _ _ Hlk)).
Qed.

Lemma owner_blocked_done o l :
  (forall j, j ∈ l -> j ∈ lf_blocked lk) -> exists b, lf_owner_blocked lk o l = Done b.
Proof.
  induction l as [| j l IH]; intros Hl; [by exists false |]. cbn [lf_owner_blocked].
  assert (is_Some (lf_heap lk !! j)) as [r Hr].
  { apply (lk_live _ _ _ Hlk), elem_of_app. right. apply (lk_blocked_in _ _ _ Hlk), Hl. left. }
  unfold deref. rewrite Hr, bind_Done_l. destruct (same _ _); [by exists true |]. apply IH. intros i Hi. apply Hl. by right.
Qed.

Lemma n1_notin : n1 ∉ M.
Proof.
  pose proof (lk_nodup _ _ _ Hlk) as H. apply NoDup_app in H as (_ & _ & H). inversion H as [| ? ? Hn _]; subst. set_solver.
Qed.

(** The request [r] starts to wait on its range [n1]. *)
Lemma enqueue lk3 R3 w s e r :
  lock_ok lk3 R3 (n1 :: n2 :: M) -> kept w s e (n1 :: n2 :: M) lk lk3 [] ->
  let lk4 := set_blocked (store lk3 n1 r) (lf_blocked lk3 ++ [n1]) in
  lock_ok lk4 R3 (n1 :: n2 :: M) /\ kept w s e M lk lk4 [n1] /\ lf_heap lk4 !! n1 = Some r.
Proof.
  intros H3 [K1 K2 K3 K4] lk4. rewrite app_nil_r in K2.
  assert (n1 ∉ lf_blocked lk3) as Hnb by (rewrite K2; intros [_ ?]%list_elem_of_filter; done).
  destruct H3 as [H1 H2 H3 H4 H5 H6 H7 H8 H9]. split_and!.
  - split; cbn; try done.
    + rewrite Forall_forall in H2 |- *. intros p Hp. rewrite lookup_insert_ne; [by apply H2 |].
      intros ->. apply NoDup_app in H3 as (_ & H3 & _). apply (H3 p.1); [by apply list_elem_of_fmap_2 | left].
    + intros j. destruct (decide (j = n1)) as [-> | Hj].
      * rewrite lookup_insert_eq. split; [intros _; set_solver | by eexists].
      * by rewrite lookup_insert_ne by done.
    + apply NoDup_app. split_and!; [done | set_solver | apply NoDup_singleton].
    + intros j [Hj | ->%list_elem_of_singleton]%elem_of_app; [by apply H7 | left].
    + destruct H9 as [L1 L2]. by split.
  - split; cbn; try done.
    + intros j Hj. rewrite lookup_insert_ne; [apply K1; set_solver |]. intros <-. by apply n1_notin.
    + by rewrite K2.
  - cbn. by rewrite lookup_insert_eq.
Qed.

Lemma kept_refl s e M' : kept false s e M' lk lk [].
Proof.
  destruct (woken_refl s e lk) as [_ W2 W3 _ _ _ _ _]. split; try done. by rewrite app_nil_r.
Qed.

(** The conflict with a range of another owner. *)
Lemma conflict_ok unlock rq range rr count :
  rq_ok rq -> (range, rr) ∈ R -> rq_conflicts rq rr ->
  (btest (rq_flags rq) F_POSIX = false -> rq_type rq = F_WRLCK ->
   let uq := Request (rq_owner rq) F_UNLCK 0 (rq_start rq) (rq_end rq) in
   exists lk3, unlock lk uq = Done (lk3, LfReturn 0) /\ ret_post uq (n1 :: n2 :: M) lk R lk3 0) ->
  exists lk' res, lf_conflict unlock lk rq range count n1 n2 = Done (lk', res) /\ call_post rq M lk R count lk' res.
Proof.
  intros Hrq Hin Hc Hun. unfold lf_conflict. cbv zeta.
  pose proof (conflict_blocked R range rr _ _ _ _ (to_wf _ (lk_table _ _ _ Hlk)) (proj2 (rk_range _ Hrq)) Hin Hc) as Hb.
  destruct (failed rq) as [Hf1 Hf2].
  destruct (btest (rq_flags rq) F_WAIT) eqn:Ew; cbn [negb]; cycle 1.
  { eexists _, _. split; [reflexivity |]. exists R, false. split_and!; try done; try apply touched_refl; tauto. }
  pose proof (repr_lookup _ _ _ _ _ (range, rr) prepared_repr Hin) as Er. cbn [fst snd] in Er. rewrite Er, bind_Done_l.
  assert (exists dead, (if btest (rq_flags rq) F_POSIX then lf_owner_blocked lk (lf_owner rr) (lf_blocked lk) else mret false) = Done dead
    /\ (dead = true -> btest (rq_flags rq) F_POSIX = true)) as (dead & -> & Hd).
  { destruct (btest (rq_flags rq) F_POSIX); [| by exists false].
    destruct (owner_blocked_done (lf_owner rr) (lf_blocked lk)) as [b ->]; [done |]. by exists b. }
  rewrite bind_Done_l. destruct dead.
  { eexists _, _. split; [reflexivity |]. exists R, false. specialize (Hd eq_refl).
    split_and!; try done; try apply touched_refl; tauto. }
  assert (exists lk3 R3 w, (if negb (btest (rq_flags rq) F_POSIX) && (rq_type rq =? F_WRLCK)
      then p ← unlock lk (Request (rq_owner rq) F_UNLCK 0 (rq_start rq) (rq_end rq)); mret p.1 else mret lk) = Done lk3 /\
    lock_ok lk3 R3 (n1 :: n2 :: M) /\ kept w (rq_start rq) (rq_end rq) (n1 :: n2 :: M) lk lk3 [] /\
    touched (rq_owner rq) (rq_start rq) (rq_end rq) R R3 w /\
    (((btest (rq_flags rq) F_POSIX = true \/ rq_type rq <> F_WRLCK) /\ R3 = R) \/
     (btest (rq_flags rq) F_POSIX = false /\ rq_type rq = F_WRLCK /\
       effect (rq_owner rq) F_UNLCK (rq_start rq) (rq_end rq) R R3))) as (lk3 & R3 & w & -> & H3 & K3 & T3 & C3).
  { destruct (btest (rq_flags rq) F_POSIX), (Z.eqb_spec (rq_type rq) F_WRLCK) as [Et | Et]; cbn [negb andb].
    3: { destruct (Hun eq_refl Et) as (lk3 & -> & R3 & w & H1 & H2 & H3 & [(_ & H4 & _) | [(?&_)|[(?&_)|(?&_)]]]); try done.
         exists lk3, R3, w. rewrite bind_Done_l. split_and!; try done. by right. }
    all: exists lk, R, false; split_and!; try done; try apply kept_refl; try apply touched_refl; left; split; try done; by (left + right). }
  rewrite bind_Done_l. unfold lf_create_range. rewrite (proj2 (Z.leb_le _ _)) by apply Hrq. cbn [KKASSERT]. rewrite !bind_Done_l.
  rewrite (s16_id (rq_type rq)) by (unfold is_s16; destruct (rk_type _ Hrq) as [-> | [-> | ->]]; done). change (s16 0) with 0.
  destruct (enqueue lk3 R3 w _ _ (LockfRange (rq_type rq) 0 (rq_start rq) (rq_end rq) (rq_owner rq)) H3 K3) as (E1 & E2 & E3).
  eexists _, _. split; [reflexivity |]. exists R3, w. split_and!; try done.
  assert (touched (rq_owner rq) (rq_start rq) (rq_end rq) R R3 w) as T3' by done. clear -T3' Hb.
  destruct Hb as (Ht & o & x & Ho & Hx & Hb). split; [done |]. exists o, x. split; [done |]. split; [done |].
  rewrite !(tc_foreign _ _ _ _ _ _ T3') by (by apply cov_foreign || by apply covers_foreign). done.
Qed.
End Prepared.

(** *** From the preallocated state back to the state at the call *)

Lemma kept_prealloc w s e M lk lk2 lk' tail :
  kept w s e M lk2 lk' tail -> lf_blocked lk2 = lf_blocked lk ->
  init_done lk2 = init_done lk -> v_mayhavelocks lk2 = v_mayhavelocks lk /\ lf_wakeups lk2 = lf_wakeups lk ->
  (forall j, j ∈ M -> lf_heap lk2 !! j = lf_heap lk !! j) -> (forall j, j ∈ lf_blocked lk -> j ∈ M) ->
  kept w s e M lk lk' tail.
Proof.
  intros [K1 K2 K3 K4 K5] Hb Hi [Hm Hk] Hh Hin.
  assert (forall j, j ∈ M -> wakes lk2 s e j = wakes lk s e j) as Hw.
  { intros j Hj. unfold wakes. by rewrite Hb, Hh. }
  split; try congruence.
  - intros j Hj. by rewrite K1, Hw, Hh.
  - rewrite K2, Hb. f_equal. apply filter_ext_in. intros j Hj. by rewrite Hw by auto.
  - rewrite K5, Hb, Hk. f_equal. apply filter_ext_in. intros j Hj. by rewrite Hw by auto.
Qed.

Lemma call_prealloc rq M lk lk2 R count lk' res :
  call_post rq M lk2 R count lk' res -> lf_blocked lk2 = lf_blocked lk ->
  init_done lk2 = init_done lk -> v_mayhavelocks lk2 = v_mayhavelocks lk /\ lf_wakeups lk2 = lf_wakeups lk ->
  ui_posixlocks lk2 = ui_posixlocks lk ->
  (forall j, j ∈ M -> lf_heap lk2 !! j = lf_heap lk !! j) -> (forall j, j ∈ lf_blocked lk -> j ∈ M) ->
  call_post rq M lk R count lk' res.
Proof.
  intros H Hb Hi Hm Hu Hh Hin. destruct res as [err | sl | sl err]; [| | done].
  - destruct H as (R' & w & H1 & H2 & H3 & H4). exists R', w. split; [done |].
    split; [by eapply kept_prealloc |]. split; [done |]. unfold refused in *. by rewrite <- Hu.
  - destruct H as (R' & w & H1 & H2 & H3). exists R', w. split; [done |]. split; [by eapply kept_prealloc | done].
Qed.

(** A request that needs nothing from others is answered at once. *)
Lemma restart_unlock d lk R M rq count new2 :
  lock_ok lk R (opt_list new2 ++ M) -> (forall i, new2 = Some i -> i ∉ lf_blocked lk) -> rq_ok rq -> rq_type rq = F_UNLCK ->
  exists lk' err, lf_restart proc_of maxposixlocksperuid (S d) lk rq count None new2 = Done (lk', LfReturn err) /\
    ret_post rq M lk R lk' err.
Proof.
  intros H Hb Hrq Ht. pose proof (prealloc_ok lk R M new2 H Hb) as Hp. unfold prealloc in Hp. cbn [lf_restart].
  destruct (lf_alloc_range lk) as [lk1 n1].
  destruct (match new2 with Some i => (lk1, i) | None => lf_alloc_range lk1 end) as [lk2 n2].
  destruct Hp as (H2 & Hn1 & Hn2 & F1 & F2 & F3 & F4 & F5 & F6). rewrite <- F1 in Hn1, Hn2.
  destruct (lf_scan_spec lk2 (n1 :: n2 :: R.*1) lk2 [n1; n2] R (prepared_nodup _ _ _ _ _ H2) (prepared_repr _ _ _ _ _ H2)
    (to_sorted _ (lk_table _ _ _ H2)) (rq_owner rq) (rq_type rq) (rq_start rq) (rq_end rq))
    as (ip & fm & lm & cf & -> & Hcf); [apply Hrq |]. rewrite bind_Done_l.
  destruct cf as [i |]; [destruct Hcf as (r & _ & _ & _ & Hc & _); done |]. destruct Hcf as (Hip & Hfd & Hpc).
  destruct (granted lk2 R M n1 n2 H2 Hn1 Hn2 rq ip fm lm Hrq Hip Hfd Hpc) as (lk' & err & -> & Hpost).
  rewrite bind_Done_l. exists lk', err. split; [done |].
  apply (call_prealloc rq M lk lk2 R count lk' (LfReturn err)); try done.
  intros j Hj. pose proof (lk_blocked_in _ _ _ H j Hj) as HjM. apply elem_of_app in HjM as [HjM |]; [| done].
  exfalso. destruct new2 as [i |]; cbn in HjM; [| by apply elem_of_nil in HjM].
  apply list_elem_of_singleton in HjM as ->. by apply (Hb i).
Qed.

(** Unlocking with flags 0, as flock-style requests do before they sleep, does
    not fail. *)
Lemma restart_ok lk R M rq count new2 :
  lock_ok lk R (opt_list new2 ++ M) -> (forall i, new2 = Some i -> i ∉ lf_blocked lk) -> rq_ok rq ->
  exists lk' res, lf_restart proc_of maxposixlocksperuid 2 lk rq count None new2 = Done (lk', res) /\
    call_post rq M lk R count lk' res.
Proof.
  intros H Hb Hrq. pose proof (prealloc_ok lk R M new2 H Hb) as Hp. unfold prealloc in Hp. remember 1%nat as d. cbn [lf_restart].
  destruct (lf_alloc_range lk) as [lk1 n1].
  destruct (match new2 with Some i => (lk1, i) | None => lf_alloc_range lk1 end) as [lk2 n2].
  destruct Hp as (H2 & Hn1 & Hn2 & F1 & F2 & F3 & F4 & F5 & F6). rewrite <- F1 in Hn1, Hn2.
  destruct (lf_scan_spec lk2 (n1 :: n2 :: R.*1) lk2 [n1; n2] R (prepared_nodup _ _ _ _ _ H2) (prepared_repr _ _ _ _ _ H2)
    (to_sorted _ (lk_table _ _ _ H2)) (rq_owner rq) (rq_type rq) (rq_start rq) (rq_end rq))
    as (ip & fm & lm & cf & -> & Hcf); [apply Hrq |]. rewrite bind_Done_l.
  assert (exists lk' res,
    match cf with
    | Some range => lf_conflict (fun lk rq => lf_restart proc_of maxposixlocksperuid d lk rq 0 None None) lk2 rq range count n1 n2
    | None => p ← lf_grant proc_of maxposixlocksperuid lk2 rq ip fm lm n1 n2; mret (p.1, LfReturn p.2)
    end = Done (lk', res) /\ call_post rq M lk2 R count lk' res) as (lk' & res & E & Hpost).
  { destruct cf as [i |].
    - destruct Hcf as (r & Hin & Hc). apply (conflict_ok lk2 R M n1 n2 H2 Hn1 Hn2 _ rq i r); try done.
      intros Hpx Hwr uq. subst d.
      destruct (restart_unlock 0 lk2 R (n1 :: n2 :: M) uq 0 None) as (lk3 & err & -> & Hret); try done.
      { destruct Hrq as [? ? ? ? Hsty]. split; cbn; try done; [by right; right | by rewrite <- Hsty, Hpx]. }
      assert (err = 0) as ->; [| by exists lk3].
      destruct Hret as (R' & w & _ & _ & _ & [(? & _) | [(? & _ & _ & Hbl & _) | [(? & _ & Hbl & _) | (? & _ & Hbl & _)]]]); done.
    - destruct Hcf as (Hip & Hfd & Hpc).
      destruct (granted lk2 R M n1 n2 H2 Hn1 Hn2 rq ip fm lm Hrq Hip Hfd Hpc) as (lk' & err & -> & Hpost).
      rewrite bind_Done_l. exists lk', (LfReturn err). done. }
  exists lk', res. split; [exact E |]. apply (call_prealloc rq M lk lk2); try done.
  intros j Hj. pose proof (lk_blocked_in _ _ _ H j Hj) as HjM. apply elem_of_app in HjM as [HjM |]; [| done].
  exfalso. destruct new2 as [i |]; cbn in HjM; [| by apply elem_of_nil in HjM].
  apply list_elem_of_singleton in HjM as ->. by apply (Hb i).
Qed.

(** *** After a sleep *)

Lemma destroy_ok lk R M i :
  lock_ok lk R (i :: M) -> i ∉ lf_blocked lk ->
  lock_ok (lf_destroy_range lk i) R M /\ forall s e, kept false s e M lk (lf_destroy_range lk i) [].
Proof.
  intros [H1 H2 H3 H4 H5 H6 H7 H8 H9] Hi.
  assert (R.*1 ++ i :: M ≡ₚ i :: R.*1 ++ M) as Ep by solve_Permutation. rewrite Ep in H3. apply NoDup_cons in H3 as [H3 H3'].
  split.
  - split; cbn; try done.
    + rewrite Forall_forall in H2 |- *. intros p Hp. rewrite lookup_delete_ne; [by apply H2 |].
      intros ->. apply H3, elem_of_app. left. by apply list_elem_of_fmap_2.
    + intros j. destruct (decide (j = i)) as [-> | Hj].
      * rewrite lookup_delete_eq. split; [intros []; done | done].
      * rewrite lookup_delete_ne, H4, Ep, elem_of_cons by done. tauto.
    + intros j Hj. apply H5. rewrite Ep. by right.
    + intros j Hj. pose proof (H7 j Hj) as [-> | ?]%elem_of_cons; done.
    + destruct H9 as [L1 L2]. by split.
  - intros s e. destruct (woken_refl s e lk) as [_ W2 W3 _ _ _ _ _]. split; cbn; try done.
    + intros j Hj. rewrite lookup_delete_ne; [apply W3 |]. intros <-. apply H3. set_solver.
    + by rewrite app_nil_r.
Qed.

(** The request of the sleeper leaves the list of those that wait. *)
Lemma dequeue_ok lk R M i :
  lock_ok lk R M -> lock_ok (set_blocked lk (tailq_remove i (lf_blocked lk))) R M /\
    i ∉ tailq_remove i (lf_blocked lk).
Proof.
  intros [H1 H2 H3 H4 H5 H6 H7 H8 H9].
  assert (NoDup (tailq_remove i (lf_blocked lk)) /\ (forall j, j ∈ tailq_remove i (lf_blocked lk) -> j ∈ lf_blocked lk) /\
    (i ∉ tailq_remove i (lf_blocked lk))) as (Hn & Hin & Hi).
  { destruct (decide (i ∈ lf_blocked lk)) as [(l1 & l2 & E)%list_elem_of_split | Hi].
    - rewrite E in H6 |- *. apply NoDup_app in H6 as (Hl1 & Hd & Hl2). inversion Hl2 as [| ? ? Hil2 Hl2']; subst.
      assert (i ∉ l1) as Hil1 by (intros Hx; apply (Hd i Hx); left).
      rewrite tailq_remove_mid by done. split_and!; [| set_solver | set_solver].
      apply NoDup_app. split_and!; try done. intros x Hx Hx'. apply (Hd x Hx). by right.
    - assert (tailq_remove i (lf_blocked lk) = lf_blocked lk) as ->; [| done].
      induction (lf_blocked lk) as [| y l IH]; [done |]. cbn. rewrite (proj2 (Nat.eqb_neq y i)) by set_solver.
      f_equal. apply IH; [by inversion H6 | set_solver | set_solver]. }
  split; [| done]. split; cbn; try done; [intros j Hj; by apply H7, Hin | destruct H9 as [L1 L2]; by split].
Qed.
End Set_.
