(* ===== verification/LockfWorld.v ===== *)
(** * Byte-range locks: all processes

    A lockf structure and the calls of lf_advlock that sleep on it.  A step is
    a new call, the return of tsleep in a call that sleeps, because it was woken
    or for another reason, or the end of the delay of a call.  Every call runs
    to its return or to its next sleep under the token, so that the steps are
    all interleavings. *)

From stdpp Require Import prelude list strings gmap sorting.
From S2P Require Import Prelude.
From S2P Require Import Tailq.
From S2P Require Import Lockf.
From S2P Require Import LockfLists.
From S2P Require Import LockfEffect.
From S2P Require Import LockfScan.
From S2P Require Import LockfReplace.
From S2P Require Import LockfState.
From S2P Require Import LockfInv.
From S2P Require Import LockfSet.
Open Scope Z_scope.

(** A call that sleeps, with the operation of lf_advlock. *)
Inductive pending :=
  | Asleep (a_op : Z) (sl : sleeper)
  | Delayed (a_op : Z) (sl : sleeper) (error : Z).

Definition pd_sleeper (p : pending) : sleeper :=
  match p with Asleep _ sl => sl | Delayed _ sl _ => sl end.

Record world := World { w_lk : lockf; w_pending : list pending }.

(** The calls that sleep after a call with this result. *)
Definition add_pending (a_op : Z) (res : lf_result) (P : list pending) : list pending :=
  match res with
  | LfReturn _ => P
  | LfSleep sl => P ++ [Asleep a_op sl]
  | LfDelay sl error => P ++ [Delayed a_op sl error]
  end.

Section World.
Context {sty : Style} {base : Base}.
Context (proc_of : nat -> proc) (maxposixlocksperuid : Z).

(** Calls as the rest of the kernel makes them: F_SETLK with a lock to set,
    F_UNLCK with F_UNLCK, F_GETLK; small flags; POSIX locks for processes and
    flock locks for open files. *)
Record call_ok (a_op : Z) (fl : flock) (a_id : option nat) (a_flags : Z) : Prop := CallOk {
  ck_op : (a_op = F_SETLK /\ (l_type fl = F_RDLCK \/ l_type fl = F_WRLCK)) \/
          (a_op = F_UNLCK /\ l_type fl = F_UNLCK) \/ a_op = F_GETLK;
  ck_start : is_s64 (l_start fl);
  ck_len : is_s64 (l_len fl);
  ck_flags : 0 <= a_flags < 2 ^ 15;
  ck_style : a_op <> F_GETLK -> btest a_flags F_POSIX = posix_owner a_id
}.

Inductive step : world -> world -> Prop :=
  | step_call lk P a_op fl a_id a_flags size lk' fl' res :
      call_ok a_op fl a_id a_flags ->
      lf_advlock proc_of maxposixlocksperuid lk a_op fl a_id a_flags size = Done (lk', fl', res) ->
      step (World lk P) (World lk' (add_pending a_op res P))
  | step_woken lk A B a_op sl error p :
      lf_woken proc_of maxposixlocksperuid lk sl error = Done p ->
      step (World lk (A ++ Asleep a_op sl :: B))
           (World (lf_advlock_result a_op p).1 (add_pending a_op p.2 (A ++ B)))
  | step_delayed lk A B a_op sl error p :
      lf_awake proc_of maxposixlocksperuid lk sl 2 error = Done p ->
      step (World lk (A ++ Delayed a_op sl error :: B))
           (World (lf_advlock_result a_op p).1 (add_pending a_op p.2 (A ++ B))).

(** ** The invariant *)

(** The objects of the calls that sleep. *)
Definition pd_ids (p : pending) : list nat := [sl_brange (pd_sleeper p); sl_new_range2 (pd_sleeper p)].
Definition objects (P : list pending) : list nat := concat (map pd_ids P).

(** The content of the range that a request waits on; [f] tells if it was woken. *)
Definition wait_range (rq : request) (f : Z) : lockf_range :=
  LockfRange (rq_type rq) f (rq_start rq) (rq_end rq) (rq_owner rq).

Abbreviation rq_blocked := (fun R rq => blocked_by R (rq_owner rq) (rq_type rq) (rq_start rq) (rq_end rq)).

Record sleeper_ok (lk : lockf) (a_op : Z) (sl : sleeper) : Prop := SleeperOk {
  so_request : rq_ok (sl_request sl);
  so_type : rq_type (sl_request sl) <> F_UNLCK;
  so_op : a_op = F_SETLK;
  so_new2 : sl_new_range2 sl ∉ lf_blocked lk
}.

Definition pend_ok (lk : lockf) (R : elems) (p : pending) : Prop :=
  match p with
  | Asleep a_op sl =>
      let rq := sl_request sl in
      sleeper_ok lk a_op sl /\
      ((sl_brange sl ∈ lf_blocked lk /\ lf_heap lk !! sl_brange sl = Some (wait_range rq 0) /\ rq_blocked R rq) \/
       ((sl_brange sl ∉ lf_blocked lk) /\ lf_heap lk !! sl_brange sl = Some (wait_range rq 1) /\ sl_brange sl ∈ lf_wakeups lk))
  | Delayed a_op sl _ => sleeper_ok lk a_op sl /\ (sl_brange sl ∉ lf_blocked lk)
  end.

Record world_ok (w : world) (R : elems) : Prop := WorldOk {
  wk_lock : lock_ok proc_of (w_lk w) R (objects (w_pending w));
  wk_pending : Forall (pend_ok (w_lk w) R) (w_pending w);
  wk_init : init_done (w_lk w) = false -> R = [] /\ lf_blocked (w_lk w) = [] /\ w_pending w = [];
  wk_may : R <> [] -> v_mayhavelocks (w_lk w) = true
}.

Lemma objects_app A B : objects (A ++ B) = objects A ++ objects B.
Proof. unfold objects. by rewrite map_app, concat_app. Qed.

Lemma objects_in p P j : p ∈ P -> j ∈ pd_ids p -> j ∈ objects P.
Proof.
  intros Hp Hj. unfold objects. apply list_elem_of_In, in_concat. exists (pd_ids p).
  split; [by apply in_map, list_elem_of_In | by apply list_elem_of_In].
Qed.

(** What a call that sleeps depends on. *)
Lemma pend_ext lk lk' R p :
  lf_wakeups lk' = lf_wakeups lk ->
  (forall j, j ∈ pd_ids p -> lf_heap lk' !! j = lf_heap lk !! j /\ (j ∈ lf_blocked lk' <-> j ∈ lf_blocked lk)) ->
  pend_ok lk R p -> pend_ok lk' R p.
Proof.
  intros Hk H. assert (sl_new_range2 (pd_sleeper p) ∈ pd_ids p) as H2 by (right; left).
  assert (sl_brange (pd_sleeper p) ∈ pd_ids p) as H1 by left.
  destruct (H _ H1) as [E1 B1], (H _ H2) as [_ B2].
  destruct p as [op sl | op sl err]; cbn in *; rewrite ?E1, ?Hk; intros [[S1 S2 S3 S4] Hc].
  - split; [split; tauto |]. destruct Hc as [(? & ? & ?) | (? & ? & ?)]; [left | right]; tauto.
  - split; [split; tauto | tauto].
Qed.

(** The calls that sleep, after another call changed the locks. *)
Lemma pend_kept lk lk' R R' own s e w M tail p :
  kept w s e M lk lk' tail -> touched own s e R R' w -> table_ok R -> table_ok R' -> s <= e ->
  (forall j, j ∈ pd_ids p -> j ∈ M /\ (j ∉ tail)) ->
  pend_ok lk R p -> pend_ok lk' R' p.
Proof.
  intros [K1 K2 _ _ K5] Ht HR HR' Hse Hid.
  assert (sl_new_range2 (pd_sleeper p) ∈ pd_ids p) as H2 by (right; left).
  assert (sl_brange (pd_sleeper p) ∈ pd_ids p) as H1 by left.
  assert (forall j, j ∈ pd_ids p -> j ∈ lf_blocked lk' <-> (w && wakes lk s e j = false) /\ j ∈ lf_blocked lk) as Hb.
  { intros j Hj. destruct (Hid j Hj) as [_ Hjt]. rewrite K2, elem_of_app, list_elem_of_filter. tauto. }
  destruct (Hid _ H1) as [M1 _]. specialize (K1 _ M1).
  assert (forall sl op, pd_sleeper p = sl -> sleeper_ok lk op sl -> sleeper_ok lk' op sl) as Hs.
  { intros sl op <- [S1 S2 S3 S4]. split; try done. rewrite Hb by done. tauto. }
  destruct p as [op sl | op sl err]; cbn [pend_ok pd_sleeper] in *; intros [S Hc]; (split; [by apply Hs |]).
  - destruct Hc as [(Hin & Hh & Hbl) | (Hin & Hh & Hk)].
    + rewrite Hh in K1. cbn [fmap option_fmap option_map] in K1. rewrite Hb by done.
      destruct (w && wakes lk s e (sl_brange sl)) eqn:Ew; cbn [wake_flag] in K1; [right; split_and!; [naive_solver | exact K1 |] |].
      { rewrite K5. apply elem_of_app. right. by apply list_elem_of_filter. }
      left. split; [done |]. split; [exact K1 |]. destruct S as [[Q1 _ _ _ _] _ _ _].
      eapply blocked_kept; [exact Ht | apply HR | apply HR' | | exact Hbl].
      apply andb_false_iff in Ew as [Ew | Ew]; [by left | right]. unfold wakes in Ew. rewrite bool_decide_true, Hh in Ew by done.
      cbn [andb] in Ew. assert (~ meets s e (wait_range (sl_request sl) 0)) as Hm.
      { rewrite <- lf_overlap_meets; [congruence | | done]. unfold wide. cbn. lia. }
      unfold meets in Hm. cbn in Hm. lia.
    + right. rewrite Hb by done. split_and!; [tauto | | rewrite K5; set_solver]. rewrite K1, Hh. unfold wakes. by rewrite bool_decide_false, andb_false_r.
  - rewrite Hb by done. tauto.
Qed.

(** An unlock makes no locks. *)
Lemma unlock_nonempty own s e R R' : effect own F_UNLCK s e R R' -> R' <> [] -> R <> [].
Proof.
  intros [E1 E2 _ E4] HR' ->. destruct R' as [| [i r] T]; [done |].
  assert (wf r) as Hw by (revert E4; foralls; tauto). destruct Hw as [_ Hwd _ _ _ _].
  assert (0 < tally (cov (lf_owner r) (lf_type r) (lf_start r)) ((i, r) :: T)) as Hpos.
  { apply (Z.lt_le_trans _ 1); [lia |].
    pose proof (tally_pos_elem _ ((i, r) :: T) (i, r) (cov_nonneg (lf_owner r) (lf_type r) (lf_start r))) as Hp.
    cbn [snd] in Hp. unfold cov at 1 in Hp.
    rewrite owned_eq, Z.eqb_refl, (proj2 (inside_true _ _)) in Hp by (done || lia). apply Hp. left. }
  destruct (decide (lf_owner r = own)) as [Ho | Ho].
  - rewrite Ho, E2 in Hpos. by destruct (within s e (lf_start r)).
  - rewrite E1 in Hpos by (by apply cov_foreign). done.
Qed.

Lemma lock_ok_done a_op lk R M : lock_ok proc_of lk R M -> lock_ok proc_of (lf_advlock_done a_op lk) R M.
Proof.
  intros [H1 H2 H3 H4 H5 H6 H7 H8 [L1 L2]]. unfold lf_advlock_done.
  destruct (a_op =? F_SETLK); [| destruct (_ && _)]; (split; [done .. |]); by split.
Qed.

Lemma pend_ok_done a_op lk R p : pend_ok lk R p -> pend_ok (lf_advlock_done a_op lk) R p.
Proof.
  apply pend_ext; [| intros j _]; unfold lf_advlock_done; (destruct (a_op =? F_SETLK); [done |]); by destruct (_ && _).
Qed.

Section Settle.
Context (lk : lockf) (R : elems) (P : list pending).
Hypothesis Htable : table_ok R.
Hypothesis Hpend : Forall (pend_ok lk R) P.
Hypothesis Hblk : forall j, j ∈ lf_blocked lk -> j ∈ objects P.
Hypothesis Hinit : init_done lk = true.
Hypothesis Hmay : R <> [] -> v_mayhavelocks lk = true.

Lemma others_pending lk' R' own s e w X tail :
  lock_ok proc_of lk' R' (X ++ objects P) -> kept w s e (objects P) lk lk' tail ->
  (forall j, j ∈ tail -> j ∈ X) -> touched own s e R R' w -> s <= e -> Forall (pend_ok lk' R') P.
Proof.
  intros Hlk Hk HX Ht Hse. rewrite Forall_forall in Hpend |- *. intros p Hp.
  apply (pend_kept lk lk' R R' own s e w (objects P) tail p); try done; [apply Hlk | | by apply Hpend].
  intros j Hj. assert (j ∈ objects P) as HjP by (by apply (objects_in p)). split; [done |].
  intros Hjt. pose proof (lk_nodup _ _ _ _ Hlk) as Hn. apply NoDup_app in Hn as (_ & _ & Hn).
  apply NoDup_app in Hn as (_ & Hn & _). by apply (Hn j (HX j Hjt)).
Qed.

(** The world after a call that ended or sleeps. *)
Lemma settle a_op rq count lk' res :
  rq_ok rq -> (a_op = F_SETLK \/ (a_op = F_UNLCK /\ rq_type rq = F_UNLCK)) ->
  call_post proc_of maxposixlocksperuid rq (objects P) lk R count lk' res ->
  exists R', world_ok (World (lf_advlock_result a_op (lk', res)).1 (add_pending a_op res P)) R'.
Proof.
  intros Hrq Hop Hpost. pose proof (proj2 (rk_range _ Hrq)) as Hse.
  destruct res as [err | sl | sl err]; [| | done]; destruct Hpost as (R' & w & H1 & H2 & H3 & H4);
    exists R'; unfold lf_advlock_result; cbn [fst snd add_pending].
  - pose proof (others_pending lk' R' _ _ _ w [] [] H1 H2 ltac:(done) H3 Hse) as Hp. split; cbn [w_lk w_pending].
    + by apply lock_ok_done.
    + eapply Forall_impl; [exact Hp |]. intros p. apply pend_ok_done.
    + unfold lf_advlock_done. rewrite <- Hinit, <- (kp_init _ _ _ _ _ _ _ H2).
      destruct (a_op =? F_SETLK); [| destruct (_ && _)]; cbn; rewrite (kp_init _ _ _ _ _ _ _ H2), Hinit; done.
    + intros HR'. unfold lf_advlock_done. destruct (Z.eqb_spec a_op F_SETLK); [done |]. destruct Hop as [| [Ho Ht]]; [done |].
      rewrite bool_decide_false by (rewrite (lk_range _ _ _ _ H1); by destruct R'). cbn.
      rewrite (kp_may _ _ _ _ _ _ _ H2). apply Hmay.
      destruct H4 as [(_ & He & _) | [(_ & -> & _) | [(_ & -> & _) | (_ & -> & _)]]]; try done.
      rewrite Ht in He. by eapply unlock_nonempty.
  - destruct H4 as (Hrq' & Hcount & Hh & Hwait & Hb & HR').
    assert (lock_ok proc_of lk' R' ([sl_brange sl; sl_new_range2 sl] ++ objects P)) as H1' by done.
    pose proof (others_pending lk' R' _ _ _ w _ _ H1' H2 ltac:(set_solver) H3 Hse) as Hp.
    pose proof (lk_nodup _ _ _ _ H1) as Hn. apply NoDup_app in Hn as (_ & _ & Hn). inversion Hn as [| ? ? Hn1 Hn2]; subst.
    inversion Hn2 as [| ? ? Hn3 _]; subst.
    split; cbn [w_lk w_pending].
    + eapply lock_ok_perm; [| exact H1]. rewrite objects_app. unfold objects at 2. cbn. solve_Permutation.
    + apply Forall_app. split; [done |]. constructor; [| done]. cbn [pend_ok]. rewrite (kp_blocked _ _ _ _ _ _ _ H2). split.
      * split; try done; [apply Hb | |].
        -- destruct Hop as [| [_ Ht]]; [done |]. by destruct Hb.
        -- rewrite (kp_blocked _ _ _ _ _ _ _ H2). intros [[_ Hin]%list_elem_of_filter | Hin]%elem_of_app.
           ++ apply Hn3. by apply Hblk.
           ++ apply Hn1. apply list_elem_of_singleton in Hin as <-. left.
      * left. split; [set_solver |]. by split.
    + rewrite (kp_init _ _ _ _ _ _ _ H2), Hinit. done.
    + intros Hne. rewrite (kp_may _ _ _ _ _ _ _ H2). apply Hmay. destruct HR' as [[_ ->] | (_ & _ & He)]; [done |].
      by eapply unlock_nonempty.
Qed.
End Settle.

(** ** Every step keeps the invariant, and can be taken *)

Lemma s64_range z : is_s64 (s64 z).
Proof. unfold is_s64, s64. pose proof (Z.mod_pos_bound (z + 2 ^ 63) (2 ^ 64)). lia. Qed.

Lemma request_ok a_op fl a_id a_flags size rq :
  call_ok a_op fl a_id a_flags -> a_op <> F_GETLK -> lf_request fl a_id a_flags size = inr rq ->
  rq_ok rq /\ rq_type rq = l_type fl /\ rq_owner rq = a_id.
Proof.
  intros [C1 C2 C3 C4 C5] Hop E. unfold lf_request in E. specialize (C5 Hop).
  assert (exists start, is_s64 start /\
    (if start <? 0 then inl EINVAL
     else if l_len fl =? 0 then inr (Request a_id (l_type fl) (Z.lor a_flags F_NOEND) start LLONG_MAX)
     else if l_len fl <? 0 then inl EINVAL
     else if s64 (start + l_len fl - 1) <? start then inl EINVAL
     else inr (Request a_id (l_type fl) a_flags start (s64 (start + l_len fl - 1)))) = (inr rq : Z + request)) as (start & Hs & E').
  { destruct (_ || _); [by exists (l_start fl) |]. destruct (_ =? _); [| done].
    exists (s64 (size + l_start fl)). split; [apply s64_range | done]. }
  clear E. assert (l_type fl = F_RDLCK \/ l_type fl = F_WRLCK \/ l_type fl = F_UNLCK) as Ht by tauto.
  unfold is_s64 in *. pose proof (s64_range (start + l_len fl - 1)) as He. unfold is_s64 in He.
  destruct (Z.ltb_spec start 0); [done |]. destruct (l_len fl =? 0).
  - injection E' as <-. split; [| done]. split; cbn; unfold LLONG_MAX; try done; try lia.
    + apply s16_lor; [unfold is_s16; lia | done].
    + by rewrite btest_lor, C5, orb_false_r.
  - destruct (l_len fl <? 0); [done |]. destruct (Z.ltb_spec (s64 (start + l_len fl - 1)) start); [done |].
    injection E' as <-. split; [| done]. split; cbn; unfold LLONG_MAX; try done; try lia. unfold is_s16. lia.
Qed.

(** The structure as lf_advlock initialises it. *)
Lemma init_ok lk P R :
  world_ok (World lk P) R ->
  let lk0 := if init_done lk then lk
             else Lockf [] [] true (lf_heap lk) (lf_next lk) (ui_posixlocks lk) (p_numposixlocks lk) (v_mayhavelocks lk) (lf_wakeups lk) in
  world_ok (World lk0 P) R /\ init_done lk0 = true.
Proof.
  intros HW. pose proof HW as [W1 W2 W3 W4]. cbn [w_lk w_pending] in *. destruct (init_done lk) eqn:Ei; [done |].
  cbv zeta. split; [| done].
  destruct (W3 eq_refl) as (-> & Hb & _). destruct W1 as [H1 H2 H3 H4 H5 H6 H7 H8 [L1 L2]]. split; cbn [w_lk w_pending]; try done.
  - split; cbn; try done; try (by apply NoDup_nil); try (by split). by intros j Hj%elem_of_nil.
  - eapply Forall_impl; [exact W2 |]. intros p. apply pend_ext; [done |]. intros j _. cbn. by rewrite Hb.
Qed.

(** F_GETLK finds the first lock in the list that stands against the request. *)
Definition stands (o : option nat) (type start end_ : Z) (r : lockf_range) : bool :=
  negb (same (lf_owner r) o) && lf_overlap r start end_ && ((type =? F_WRLCK) || (lf_type r =? F_WRLCK)).

Lemma first_blocking_ok lk o type start end_ R :
  Forall (fun p => lf_heap lk !! p.1 = Some p.2) R ->
  lf_first_blocking lk o type start end_ R.*1 = Done (snd <$> head (filter (fun p => stands o type start end_ p.2 = true) R)).
Proof.
  induction 1 as [| [i r] R Hi _ IH]; [done |]. cbn [fmap list_fmap lf_first_blocking fst] in *. unfold deref. rewrite Hi, bind_Done_l.
  cbn [snd]. rewrite filter_cons. cbn [snd]. fold (stands o type start end_ r). destruct (stands o type start end_ r) eqn:E.
  - by rewrite decide_True.
  - by rewrite decide_False.
Qed.

Lemma call_total lk P R a_op fl a_id a_flags size :
  world_ok (World lk P) R -> call_ok a_op fl a_id a_flags ->
  exists lk' fl' res R', lf_advlock proc_of maxposixlocksperuid lk a_op fl a_id a_flags size = Done (lk', fl', res) /\
    world_ok (World lk' (add_pending a_op res P)) R'.
Proof.
  intros HW Hc. unfold lf_advlock. destruct (lf_request fl a_id a_flags size) as [err | rq] eqn:Erq.
  { exists lk, fl, (LfReturn err), R. done. }
  destruct (init_ok lk P R HW) as [[W1 W2 W3 W4] Hi]. cbv zeta in W1, W2, W3, W4, Hi. set (lk0 := if init_done lk then lk else _) in *.
  cbn [w_lk w_pending] in *. pose proof (ck_op _ _ _ _ Hc) as Hop.
  destruct (Z.eqb_spec a_op F_GETLK) as [Eg | Eg].
  - rewrite Eg. change ((F_GETLK =? F_SETLK) || (F_GETLK =? F_UNLCK)) with false. cbv iota.
    unfold lf_getlock. rewrite (lk_range _ _ _ _ W1), (first_blocking_ok _ _ _ _ _ _ (lk_heap _ _ _ _ W1)), !bind_Done_l.
    eexists lk0, _, (LfReturn 0), R. split; [reflexivity |]. by split.
  - destruct (request_ok _ _ _ _ _ _ Hc Eg Erq) as (Hrq & Ht & Ho).
    assert ((a_op =? F_SETLK) || (a_op =? F_UNLCK) = true) as -> by (destruct Hop as [[-> _] | [[-> _] | ->]]; done).
    destruct (restart_ok proc_of maxposixlocksperuid lk0 R (objects P) rq 0 None) as (lk' & res & E & Hpost); try done.
    unfold lf_setlock. rewrite E, bind_Done_l. destruct (settle lk0 R P (lk_table _ _ _ _ W1) W2 (lk_blocked_in _ _ _ _ W1) Hi W4 a_op rq 0 lk' res) as [R' HW'];
      try done; [destruct Hop as [[-> _] | [[-> ?] | ->]]; [by left | right; by rewrite Ht | done] |].
    destruct (lf_advlock_result a_op (lk', res)) as [lk'' res'] eqn:Er.
    assert (res' = res) as -> by (unfold lf_advlock_result in Er; cbn in Er; destruct res; congruence).
    exists lk'', fl, res, R'. done.
Qed.

(** A sleeper's range leaves the list of those that wait, if it is still in it. *)
Definition unlinked (lk : lockf) (sl : sleeper) (f : Z) : lockf :=
  if f =? 0 then set_blocked lk (tailq_remove (sl_brange sl) (lf_blocked lk)) else lk.

Lemma tailq_remove_ne i j l : j <> i -> j ∈ tailq_remove i l <-> j ∈ l.
Proof.
  intros Hj. induction l as [| y l IH]; [done |]. cbn. destruct (Nat.eqb_spec y i) as [-> |]; rewrite !elem_of_cons; [naive_solver |].
  by rewrite IH.
Qed.

Section Sleep.
Context (lk : lockf) (R : elems) (A B : list pending) (p : pending).
Hypothesis HW : world_ok (World lk (A ++ p :: B)) R.
Abbreviation sl := (pd_sleeper p).
Abbreviation rest := (A ++ B).

Lemma sleep_objects : objects (A ++ p :: B) ≡ₚ sl_brange sl :: sl_new_range2 sl :: objects rest.
Proof. rewrite !objects_app. unfold objects at 2. cbn. fold (objects B). solve_Permutation. Qed.

Lemma sleep_lock : lock_ok proc_of lk R (sl_brange sl :: sl_new_range2 sl :: objects rest).
Proof. destruct HW as [W1 _ _ _]. eapply lock_ok_perm; [apply sleep_objects | exact W1]. Qed.

Lemma sleep_rest : Forall (pend_ok lk R) rest.
Proof. destruct HW as [_ W2 _ _]. cbn in W2. rewrite Forall_app, Forall_cons in W2. apply Forall_app. tauto. Qed.

Lemma sleep_init : init_done lk = true.
Proof.
  destruct HW as [_ _ W3 _]. cbn in *. destruct (init_done lk); [done |]. destruct (W3 eq_refl) as (_ & _ & H). by destruct A.
Qed.

Lemma rest_ids q j : q ∈ rest -> j ∈ pd_ids q -> j <> sl_brange sl /\ j <> sl_new_range2 sl.
Proof.
  intros Hq Hj. assert (j ∈ objects rest) as Hjo by (by apply (objects_in q)).
  pose proof (lk_nodup _ _ _ _ sleep_lock) as Hn. apply NoDup_app in Hn as (_ & _ & Hn).
  inversion Hn as [| ? ? Hn1 Hn2]; subst. inversion Hn2 as [| ? ? Hn3 _]; subst. set_solver.
Qed.

(** lf_awake, when the request of the sleeper does not wait any more. *)
Lemma awake_total lk1 a_op count error :
  lock_ok proc_of lk1 R (sl_brange sl :: sl_new_range2 sl :: objects rest) -> sleeper_ok lk1 a_op sl ->
  sl_brange sl ∉ lf_blocked lk1 -> Forall (pend_ok lk1 R) rest -> init_done lk1 = true ->
  (R <> [] -> v_mayhavelocks lk1 = true) ->
  exists q R', lf_awake proc_of maxposixlocksperuid lk1 sl count error = Done q /\
    world_ok (World (lf_advlock_result a_op q).1 (add_pending a_op q.2 rest)) R'.
Proof.
  intros Hlk [S1 S2 S3 S4] Hb Hp Hi Hm. unfold lf_awake. cbv zeta.
  destruct (destroy_ok proc_of lk1 R _ _ Hlk Hb) as [Hlk2 _]. set (lk2 := lf_destroy_range lk1 (sl_brange sl)) in *.
  assert (Forall (pend_ok lk2 R) rest) as Hp2.
  { rewrite Forall_forall in Hp |- *. intros q Hq. apply (pend_ext lk1); [done | | by apply Hp]. intros j Hj.
    destruct (rest_ids q j Hq Hj) as [Hne _]. split; [| done]. cbn. by rewrite lookup_delete_ne. }
  destruct (Z.eqb_spec error 0) as [_ | _]; cbn [negb].
  - destruct (restart_ok proc_of maxposixlocksperuid lk2 R (objects rest) (sl_request sl) count (Some (sl_new_range2 sl)))
      as (lk' & res & E & Hpost); try done; [by intros i [= <-] |].
    assert (forall j, j ∈ lf_blocked lk2 -> j ∈ objects rest) as Hblk.
    { intros j Hj. pose proof (lk_blocked_in _ _ _ _ Hlk2 j Hj) as [-> | ?]%elem_of_cons; [by destruct S4 | done]. }
    destruct (settle lk2 R rest (lk_table _ _ _ _ Hlk2) Hp2 Hblk Hi Hm a_op (sl_request sl) count lk' res S1 (or_introl S3) Hpost)
      as [R' HW']. exists (lk', res), R'. by split.
  - destruct (destroy_ok proc_of lk2 R _ _ Hlk2 S4) as [Hlk3 _]. eexists _, R. split; [reflexivity |].
    unfold lf_cleanup, lf_advlock_result, lf_advlock_done. rewrite S3. cbn [fst snd add_pending].
    set (lk3 := lf_destroy_range lk2 (sl_new_range2 sl)) in *. change (F_SETLK =? F_SETLK) with true. cbv iota.
    split; cbn [w_lk w_pending]; try done.
    + by apply (lock_ok_done F_SETLK lk3).
    + rewrite Forall_forall in Hp2 |- *. intros q Hq. apply (pend_ext lk2); [done | | by apply Hp2]. intros j Hj.
      destruct (rest_ids q j Hq Hj) as [_ Hne]. split; [| done]. cbn. by rewrite lookup_delete_ne.
    + cbn. congruence.
Qed.
End Sleep.

Lemma delayed_total lk P A B a_op sl error R :
  world_ok (World lk P) R -> P = A ++ Delayed a_op sl error :: B ->
  exists q R', lf_awake proc_of maxposixlocksperuid lk sl 2 error = Done q /\
    world_ok (World (lf_advlock_result a_op q).1 (add_pending a_op q.2 (A ++ B))) R'.
Proof.
  intros HW ->. pose proof HW as [_ W2 _ W4]. cbn in W2, W4. rewrite Forall_app, Forall_cons in W2. destruct W2 as (_ & [Hs Hb] & _).
  apply (awake_total lk R A B (Delayed a_op sl error) HW lk a_op 2 error); try done.
  - by apply sleep_lock.
  - by eapply sleep_rest.
  - by eapply sleep_init.
Qed.

Lemma woken_total lk P A B a_op sl error R :
  world_ok (World lk P) R -> P = A ++ Asleep a_op sl :: B ->
  exists q R', lf_woken proc_of maxposixlocksperuid lk sl error = Done q /\
    world_ok (World (lf_advlock_result a_op q).1 (add_pending a_op q.2 (A ++ B))) R'.
Proof.
  intros HW ->. pose proof HW as [_ W2 _ W4]. cbn in W2, W4. rewrite Forall_app, Forall_cons in W2. destruct W2 as (_ & [Hs Hb] & _).
  set (p := Asleep a_op sl) in *. pose proof (sleep_lock _ _ _ _ _ HW) as Hlk. pose proof (sleep_init _ _ _ _ _ HW) as Hi.
  pose proof (sleep_rest _ _ _ _ _ HW) as Hr.
  assert (exists f, lf_heap lk !! sl_brange sl = Some (wait_range (sl_request sl) f) /\ (f <> 0 -> sl_brange sl ∉ lf_blocked lk)) as (f & Hf & Hfb).
  { destruct Hb as [(? & ? & _) | (? & ? & _)]; [by exists 0 | by exists 1]. }
  unfold lf_woken, deref. rewrite Hf, bind_Done_l. cbn [lf_flags wait_range]. cbv zeta. fold (unlinked lk sl f). set (lk1 := unlinked lk sl f).
  assert (lock_ok proc_of lk1 R (sl_brange sl :: sl_new_range2 sl :: objects (A ++ B)) /\ (sl_brange sl ∉ lf_blocked lk1)) as [Hlk1 Hb1].
  { unfold lk1, unlinked. destruct (Z.eqb_spec f 0) as [-> | Hne]; [by apply dequeue_ok | split; [done | by apply Hfb]]. }
  assert (forall j, j <> sl_brange sl -> j ∈ lf_blocked lk1 <-> j ∈ lf_blocked lk) as Hother.
  { intros j Hj. unfold lk1, unlinked. destruct (f =? 0); [by apply tailq_remove_ne | done]. }
  assert (lf_heap lk1 = lf_heap lk /\ init_done lk1 = init_done lk /\ v_mayhavelocks lk1 = v_mayhavelocks lk /\ lf_wakeups lk1 = lf_wakeups lk) as (E1 & E2 & E3 & E4).
  { unfold lk1, unlinked. by destruct (f =? 0). }
  assert (sleeper_ok lk1 a_op sl) as Hs1.
  { destruct Hs as [S1 S2 S3 S4]. split; try done. rewrite Hother; [done |]. intros E.
    pose proof (lk_nodup _ _ _ _ Hlk) as Hn. apply NoDup_app in Hn as (_ & _ & Hn). inversion Hn as [| ? ? Hn1 _]; subst.
    apply Hn1. cbn. rewrite E. left. }
  assert (Forall (pend_ok lk1 R) (A ++ B)) as Hr1.
  { rewrite Forall_forall in Hr |- *. intros q Hq. apply (pend_ext lk); [done | | by apply Hr]. intros j Hj.
    destruct (rest_ids lk R A B p HW q j Hq Hj) as [Hne _]. rewrite E1. split; [done | by apply Hother]. }
  destruct (sl_count sl =? 2).
  - eexists _, R. split; [reflexivity |]. cbn [lf_advlock_result fst snd add_pending]. split; cbn [w_lk w_pending].
    + eapply lock_ok_perm; [| exact Hlk1]. rewrite (objects_app (A ++ B)).
      change (objects [Delayed a_op sl error]) with [sl_brange sl; sl_new_range2 sl]. solve_Permutation.
    + apply Forall_app. split; [done |]. by constructor.
    + rewrite E2, Hi. done.
    + by rewrite E3.
  - apply (awake_total lk R A B p HW lk1 a_op (sl_count sl + 1) error); try done; [by rewrite E2 | by rewrite E3].
Qed.

Lemma step_ok w w' R : world_ok w R -> step w w' -> exists R', world_ok w' R'.
Proof.
  intros HW Hs. destruct Hs as [lk P a_op fl a_id a_flags size lk' fl' res Hc E | lk A B a_op sl error p E | lk A B a_op sl error p E].
  - destruct (call_total _ _ _ _ _ _ _ size HW Hc) as (lk2 & fl2 & res2 & R' & E' & HW'). rewrite E in E'. injection E' as -> -> ->. by exists R'.
  - destruct (woken_total _ _ A B a_op sl error R HW eq_refl) as (q & R' & E' & HW'). rewrite E in E'. injection E' as ->. by exists R'.
  - destruct (delayed_total _ _ A B a_op sl error R HW eq_refl) as (q & R' & E' & HW'). rewrite E in E'. injection E' as ->. by exists R'.
Qed.

(** A vnode without locks, whose counters may count locks on other files. *)
Definition initial (u p : gmap nat Z) : world := World (Lockf [] [] false ∅ 0 u p false []) [].

Definition reachable (w : world) : Prop := exists u p,
  (forall i, counter u i = base_u i) /\ (forall i, counter p i = base_p i) /\ rtc step (initial u p) w.

Lemma reachable_ok w : reachable w -> exists R, world_ok w R.
Proof.
  intros (u & p & Hu & Hp & Hr).
  assert (world_ok (initial u p) []) as H0.
  { split; cbn; try done. split; cbn; try done; try (by apply NoDup_nil); try (by intros j Hj%elem_of_nil).
    - intros j. rewrite lookup_empty. split; [by intros [] | by intros Hj%elem_of_nil].
    - split; try done; try constructor.
    - split; intros; cbn; by rewrite ?Hp, ?Hu, Z.add_0_r. }
  remember (initial u p) as w0. clear Heqw0. revert H0. generalize ([] : elems).
  induction Hr as [w | w w1 w2 Hs _ IH]; intros R H; [by exists R |].
  destruct (step_ok _ _ _ H Hs) as [R' H']. by apply (IH R').
Qed.
End World.
