(* ===== verification/LockfProps.v ===== *)
(** * Byte-range locks: results

    What kern_lockf.c promises: the effect of a call on the locks, and what
    holds in every state that calls, wakeups and signals can lead to.  The
    theorems at the end show inputs on which the code does not do what it is
    meant to do. *)

From stdpp Require Import prelude list strings gmap sorting.
From S2P Require Import Prelude.
From S2P Require Import Tailq.
From S2P Require Import Lockf.
From S2P Require Import LockfLists.
From S2P Require Import LockfClip.
From S2P Require Import LockfEffect.
From S2P Require Import LockfScan.
From S2P Require Import LockfState.
From S2P Require Import LockfInv.
From S2P Require Import LockfSet.
From S2P Require Import LockfWorld.
Open Scope Z_scope.

(** ** An example for the witnesses *)

Module Demo.
(** All owners are processes of one user, without locks on other files. *)
#[export] Instance style : Style := fun _ => true.
#[export, refine] Instance base : Base := {| base_p := fun _ => 0; base_u := fun _ => 0 |}.
Proof. all: lia. Defined.

Definition procs (p : nat) : proc := Proc 7 1000 100 (Z.of_nat p).
Definition lk0 : lockf := Lockf [] [] true ∅ 0 ∅ ∅ false [].
Definition fl (type start len : Z) : flock := Flock start len 0 type SEEK_SET.

(** Calls one after the other, the results ignored. *)
Definition call (w : world) (c : Z * flock * nat * Z) : outcome world :=
  let '(op, f, id, flags) := c in
  '(lk, _, res) ← lf_advlock procs 1000 (w_lk w) op f (Some id) flags 0;
  mret (World lk (add_pending op res (w_pending w))).

Definition start : world := World (Lockf [] [] false ∅ 0 ∅ ∅ false []) [].

(** Two shared locks that overlap, and an exclusive request that waits. *)
Definition w2 : outcome world :=
  w ← call start (F_SETLK, fl F_RDLCK 0 11, 1%nat, F_POSIX);
  call w (F_SETLK, fl F_RDLCK 5 16, 2%nat, F_POSIX).
Definition w3 : outcome world := w ← w2; call w (F_SETLK, fl F_WRLCK 8 1, 3%nat, F_POSIX + F_WAIT).
End Demo.

Section Props.
Context {sty : Style} {base : Base}.
Context (proc_of : nat -> proc) (maxposixlocksperuid : Z).

(** C10: lf_setlock always comes back.  If it returns 0, the owner holds exactly
    the requested type on exactly the bytes of the request (nothing for an
    unlock), and no other byte of any owner has changed.  If it returns EAGAIN,
    EDEADLK or ENOLCK, no lock has changed.  If it sleeps, it was told to wait
    and a lock of another owner stands against the request; an flock-style
    request for an exclusive lock has then given up the owner's locks on the
    range, otherwise no lock has changed. *)
Theorem lf_setlock_correct lk R M rq :
  lock_ok proc_of lk R M -> rq_ok rq ->
  exists lk' res R', lf_setlock proc_of maxposixlocksperuid lk rq = Done (lk', res) /\
  match res with
  | LfReturn err =>
      lock_ok proc_of lk' R' M /\
      ((err = 0 /\ forall o t x, held R' o t x =
          if bool_decide (o = rq_owner rq) && rq_within rq x
          then negb (rq_type rq =? F_UNLCK) && (rq_type rq =? t) else held R o t x) \/
       ((err = EAGAIN \/ err = EDEADLK \/ err = ENOLCK) /\ R' = R))
  | LfSleep sl =>
      lock_ok proc_of lk' R' (sl_brange sl :: sl_new_range2 sl :: M) /\
      btest (rq_flags rq) F_WAIT = true /\
      blocked_by R' (rq_owner rq) (rq_type rq) (rq_start rq) (rq_end rq) /\
      forall o t x, held R' o t x =
        if negb (btest (rq_flags rq) F_POSIX) && (rq_type rq =? F_WRLCK)
           && bool_decide (o = rq_owner rq) && rq_within rq x
        then false else held R o t x
  | LfDelay _ _ => False
  end.
Proof.
  intros Hlk Hrq.
  assert (forall type R', effect (rq_owner rq) type (rq_start rq) (rq_end rq) R R' -> forall o t x, held R' o t x =
    if bool_decide (o = rq_owner rq) && rq_within rq x then negb (type =? F_UNLCK) && (type =? t) else held R o t x) as Hheld.
  { intros type R' [E1 E2 _ _] o t x. unfold held. case_bool_decide as Ho; cbn [andb].
    - subst o. rewrite E2. destruct (rq_within rq x); [| done]. unfold locks. by destruct (negb _ && _).
    - by rewrite E1 by (by apply cov_foreign). }
  destruct (restart_ok proc_of maxposixlocksperuid lk R M rq 0 None Hlk ltac:(done) Hrq) as (lk' & res & E & Hpost).
  destruct res as [err | sl | sl err]; [| | done]; destruct Hpost as (R' & w & H1 & H2 & H3 & H4); exists lk'; eexists _, R'; (split; [exact E |]).
  - split; [done |]. destruct H4 as [(-> & He & _) | H4]; [left; split; [done | by apply Hheld] |]. right. naive_solver.
  - destruct H4 as (Hrq' & _ & _ & Hw & Hb & HR). split; [done |]. split; [done |]. split; [done |]. intros o t x.
    destruct HR as [[Hp ->] | (Hp & Ht & He)].
    + destruct Hp as [-> | Hp%Z.eqb_neq]; [done |]. by rewrite Hp, andb_false_r.
    + rewrite (Hheld _ _ He), Hp, Ht. cbn. by destruct (bool_decide _ && _).
Qed.

(** the range of a request: the end of a range that passes the largest
    offset wraps around in 64 bits and is refused, as are negative starts and
    lengths; otherwise the request is for the bytes from l_start on, l_len of
    them or up to the largest offset. *)
Theorem lf_request_range fl a_id a_flags size :
  is_s64 (l_start fl) -> is_s64 (l_len fl) -> l_whence fl = SEEK_SET \/ l_whence fl = SEEK_CUR ->
  lf_request fl a_id a_flags size =
  if (l_start fl <? 0) || (l_len fl <? 0) || (LLONG_MAX <? l_start fl + l_len fl - 1) then inl EINVAL
  else inr (if l_len fl =? 0
            then Request a_id (l_type fl) (Z.lor a_flags F_NOEND) (l_start fl) LLONG_MAX
            else Request a_id (l_type fl) a_flags (l_start fl) (l_start fl + l_len fl - 1)).
Proof.
  intros Hs Hl Hw. unfold lf_request. cbv zeta.
  assert ((l_whence fl =? SEEK_SET) || (l_whence fl =? SEEK_CUR) = true) as -> by (destruct Hw as [-> | ->]; done).
  unfold is_s64, LLONG_MAX in *. destruct (Z.ltb_spec (l_start fl) 0); [done |]. cbn [orb].
  destruct (Z.eqb_spec (l_len fl) 0) as [E0 |]; [by rewrite !(proj2 (Z.ltb_ge _ _)) by lia |].
  destruct (Z.ltb_spec (l_len fl) 0); [done |]. cbn [orb].
  destruct (Z.ltb_spec (2 ^ 63 - 1) (l_start fl + l_len fl - 1)).
  - assert (s64 (l_start fl + l_len fl - 1) = l_start fl + l_len fl - 1 - 2 ^ 64) as ->.
    { unfold s64. rewrite <- (Z.mod_unique_pos _ _ 1 (l_start fl + l_len fl - 1 + 2 ^ 63 - 2 ^ 64)); lia. }
    by rewrite (proj2 (Z.ltb_lt _ _)) by lia.
  - rewrite s64_id by (unfold is_s64; lia). by rewrite (proj2 (Z.ltb_ge _ _)) by lia.
Qed.

(** ** Every reachable state *)

(** C39: every range of the list has a type and a place: it is live, it is a shared
    or an exclusive lock, its bytes are offsets of a file, first before last, and
    it has the style of its owner; the list is sorted by the first byte, which
    the scan of lf_setlock relies on when it stops early. *)
Theorem lockf_well_formed w :
  reachable proc_of maxposixlocksperuid w ->
  exists rs : list lockf_range,
    Forall2 (fun i r => lf_heap (w_lk w) !! i = Some r) (lf_range (w_lk w)) rs /\
    StronglySorted (fun a b => lf_start a <= lf_start b) rs /\
    forall r, r ∈ rs ->
      (lf_type r = F_RDLCK \/ lf_type r = F_WRLCK) /\
      0 <= lf_start r <= lf_end r /\ lf_end r <= LLONG_MAX /\
      btest (lf_flags r) F_POSIX = posix_owner (lf_owner r).
Proof.
  intros [R [[H1 H2 _ _ _ _ _ [T1 T2 _ _] _] _ _ _]]%reachable_ok. cbn in *. exists R.*2. split_and!.
  - rewrite H1. clear -H2. induction H2; cbn; by constructor.
  - clear -T1. induction T1 as [| p R _ IH HF]; cbn; constructor; [done |]. apply Forall_fmap. done.
  - intros r (p & -> & Hp)%list_elem_of_fmap. rewrite Forall_forall in T2. destruct (T2 p Hp). auto with lia.
Qed.

(** C11: two ranges of the list that share a byte belong to different owners and
    are both shared locks: an exclusively locked byte is locked by its owner
    only, and the ranges of one owner do not overlap, whatever calls, wakeups
    and signals came before. *)
Theorem lockf_exclusion w i j a b :
  reachable proc_of maxposixlocksperuid w ->
  i ∈ lf_range (w_lk w) -> j ∈ lf_range (w_lk w) -> i <> j ->
  lf_heap (w_lk w) !! i = Some a -> lf_heap (w_lk w) !! j = Some b ->
  lf_start a <= lf_end b -> lf_start b <= lf_end a ->
  lf_owner a <> lf_owner b /\ lf_type a = F_RDLCK /\ lf_type b = F_RDLCK.
Proof.
  intros [R [[H1 H2 H3 H4 H5 H6 H7 [T1 T2 T3 T4] H9] _ _ _]]%reachable_ok Hi Hj Hij Ha Hb Hab Hba. cbn in *.
  assert (forall k r, k ∈ lf_range (w_lk w) -> lf_heap (w_lk w) !! k = Some r -> (k, r) ∈ R) as Hin.
  { intros k r Hk Hr. rewrite H1 in Hk. apply list_elem_of_fmap in Hk as ([k' r'] & -> & Hk).
    rewrite Forall_forall in H2. specialize (H2 _ Hk). cbn in *. congruence. }
  pose proof (Hin i a Hi Ha) as Hia. pose proof (Hin j b Hj Hb) as Hjb.
  rewrite Forall_forall in T2. pose proof (T2 _ Hia) as [_ W1 _ Wt1 _ _]. pose proof (T2 _ Hjb) as [_ W2 _ Wt2 _ _]. cbn [snd] in *.
  set (x := Z.max (lf_start a) (lf_start b)).
  assert (inside x a = true /\ inside x b = true) as [Ia Ib] by (rewrite !inside_true; lia).
  assert (lf_owner a <> lf_owner b) as Ho.
  { intros Ho. specialize (T3 (lf_owner a) x).
    apply list_elem_of_split in Hia as (A & B & ->). rewrite tally_app, tally_cons in T3. cbn [snd] in T3.
    assert ((j, b) ∈ A ++ B) as Hj' by (clear -Hjb Hij; set_solver).
    pose proof (tally_pos_elem _ _ _ (covers_nonneg (lf_owner a) x) Hj') as Hp. rewrite tally_app in Hp. cbn [snd] in Hp.
    unfold covers at 2 in T3. unfold covers at 1 in Hp. rewrite owned_eq, Ia in T3 by done. rewrite owned_eq, Ib in Hp by done. cbn in *. lia. }
  split; [done |].
  assert (forall k r k' r', (k, r) ∈ R -> (k', r') ∈ R -> lf_owner r <> lf_owner r' -> inside x r = true -> inside x r' = true ->
            lf_type r <> F_WRLCK) as Hno.
  { intros k r k' r' Hk Hk' Hne Hr Hr' Ht. pose proof (T4 (lf_owner r) (lf_owner r') x Hne) as Hex.
    pose proof (tally_pos_elem _ _ _ (cov_nonneg (lf_owner r) F_WRLCK x) Hk) as P1.
    pose proof (tally_pos_elem _ _ _ (covers_nonneg (lf_owner r') x) Hk') as P2. cbn [snd] in *.
    unfold cov at 1 in P1. unfold covers at 1 in P2. rewrite owned_eq, Hr, Ht in P1 by done. rewrite owned_eq, Hr' in P2 by done. cbn in P1, P2.
    rewrite Hex in P2; lia. }
  split; [destruct Wt1 as [| Ht]; [done |]; by destruct (Hno _ _ _ _ Hia Hjb Ho Ia Ib) |].
  destruct Wt2 as [| Ht]; [done |]. by destruct (Hno _ _ _ _ Hjb Hia (not_eq_sym Ho) Ib Ia).
Qed.

(** A range of another owner in the list stands against the request. *)
Definition held_up (lk : lockf) (rq : request) : Prop := exists j b, j ∈ lf_range lk /\ lf_heap lk !! j = Some b /\
  lf_owner b <> rq_owner rq /\ lf_start b <= rq_end rq /\ rq_start rq <= lf_end b /\ (rq_type rq = F_WRLCK \/ lf_type b = F_WRLCK).

Lemma blocked_held_up lk R M rq : lock_ok proc_of lk R M -> blocked_by R (rq_owner rq) (rq_type rq) (rq_start rq) (rq_end rq) -> held_up lk rq.
Proof.
  intros Hlk (_ & o & x & Ho & Hx & Hc).
  assert (exists p, p ∈ R /\ lf_owner p.2 = o /\ inside x p.2 = true /\ (rq_type rq = F_WRLCK \/ lf_type p.2 = F_WRLCK)) as ([j b] & Hj & Hjo & Hjx & Hjt).
  { destruct Hc as [Hc | [Hw Hc]].
    - apply tally_elem in Hc as (p & Hp & Hpc); [| apply cov_nonneg]. exists p. unfold cov in Hpc.
      destruct (owned o p.2) eqn:Eo, (inside x p.2), (Z.eqb_spec (lf_type p.2) F_WRLCK); cbn in Hpc; try lia.
      unfold owned in Eo. apply bool_decide_eq_true in Eo. tauto.
    - apply tally_elem in Hc as (p & Hp & Hpc); [| apply covers_nonneg]. exists p. unfold covers in Hpc.
      destruct (owned o p.2) eqn:Eo, (inside x p.2); cbn in Hpc; try lia.
      unfold owned in Eo. apply bool_decide_eq_true in Eo. tauto. }
  cbn [snd] in *. apply inside_true in Hjx. unfold within in Hx. zbool. exists j, b. rewrite (lk_range _ _ _ _ Hlk).
  pose proof (lk_heap _ _ _ _ Hlk) as Hheap. rewrite Forall_forall in Hheap. specialize (Hheap _ Hj).
  split_and!; try done; try congruence; try lia. by apply (list_elem_of_fmap_2 fst) in Hj.
Qed.

(** C12: no wakeup is lost.  In every reachable state, every call that sleeps in
    tsleep is accounted for: either its request is queued in lf_blocked, with the
    flag of its range clear, and is really held up by a lock of another owner that
    overlaps it, where one of the two is exclusive; or it has been taken out of
    lf_blocked, its flag is set and wakeup() was called on its range, so that the
    tsleep returns.  lf_blocked holds only requests of calls that sleep.  So when
    the locks that stand against a request are gone, it has been woken. *)
Theorem lockf_no_lost_wakeup w :
  reachable proc_of maxposixlocksperuid w ->
  (forall a_op sl, Asleep a_op sl ∈ w_pending w ->
     (sl_brange sl ∈ lf_blocked (w_lk w) /\ lf_heap (w_lk w) !! sl_brange sl = Some (wait_range (sl_request sl) 0) /\ held_up (w_lk w) (sl_request sl)) \/
     ((sl_brange sl ∉ lf_blocked (w_lk w)) /\ lf_heap (w_lk w) !! sl_brange sl = Some (wait_range (sl_request sl) 1) /\ sl_brange sl ∈ lf_wakeups (w_lk w))) /\
  (forall i, i ∈ lf_blocked (w_lk w) -> exists a_op sl, Asleep a_op sl ∈ w_pending w /\ i = sl_brange sl).
Proof.
  intros [R [Hlk Hp _ _]]%reachable_ok. rewrite Forall_forall in Hp. split.
  - intros a_op sl Hin. destruct (Hp _ Hin) as [_ [(H1 & H2 & H3) | (H1 & H2 & H3)]]; [left | by right]. split_and!; try done. by eapply blocked_held_up.
  - intros i Hi. pose proof (lk_blocked_in _ _ _ _ Hlk i Hi) as Hio. apply list_elem_of_In, in_concat in Hio as (l & Hl & Hil).
    apply in_map_iff in Hl as (p & <- & Hpin%list_elem_of_In). specialize (Hp p Hpin). apply list_elem_of_In in Hil. unfold pd_ids in Hil.
    destruct p as [op sl | op sl err]; cbn in Hp, Hil; destruct Hp as [[_ _ _ Hn] Hb];
      apply elem_of_cons in Hil as [-> | ->%list_elem_of_singleton]; try done. by exists op, sl.
Qed.

(** C38: nothing goes wrong and every operation ends: in every reachable state,
    every call of lf_advlock that the kernel can make returns or goes to sleep,
    and every sleeping call does so again when its tsleep returns, for whatever
    reason; no assertion fails, no freed range is used and no loop runs away. *)
Theorem lockf_progress w :
  reachable proc_of maxposixlocksperuid w ->
  (forall a_op fl a_id a_flags size, call_ok a_op fl a_id a_flags ->
     exists r, lf_advlock proc_of maxposixlocksperuid (w_lk w) a_op fl a_id a_flags size = Done r) /\
  (forall a_op sl error, Asleep a_op sl ∈ w_pending w ->
     exists r, lf_woken proc_of maxposixlocksperuid (w_lk w) sl error = Done r) /\
  (forall a_op sl error, Delayed a_op sl error ∈ w_pending w ->
     exists r, lf_awake proc_of maxposixlocksperuid (w_lk w) sl 2 error = Done r).
Proof.
  intros [R HW]%reachable_ok. destruct w as [lk P]. cbn [w_lk w_pending] in *. split_and!.
  - intros a_op fl a_id a_flags size Hc.
    destruct (call_total proc_of maxposixlocksperuid lk P R a_op fl a_id a_flags size HW Hc) as (? & ? & ? & ? & E & _). by eexists.
  - intros a_op sl error Hin. apply list_elem_of_split in Hin as (A & B & E).
    destruct (woken_total proc_of maxposixlocksperuid lk P A B a_op sl error R HW E) as (? & ? & E' & _). by eexists.
  - intros a_op sl error Hin. apply list_elem_of_split in Hin as (A & B & E).
    destruct (delayed_total proc_of maxposixlocksperuid lk P A B a_op sl error R HW E) as (? & ? & E' & _). by eexists.
Qed.

(** nothing leaks and nothing is freed too early: the ranges in memory are
    exactly those of the list and the two that each sleeping call has. *)
Theorem lockf_no_leak w j :
  reachable proc_of maxposixlocksperuid w ->
  NoDup (lf_range (w_lk w) ++ objects (w_pending w)) /\
  (is_Some (lf_heap (w_lk w) !! j) <-> j ∈ lf_range (w_lk w) ++ objects (w_pending w)).
Proof.
  intros [R [Hlk _ _ _]]%reachable_ok. rewrite (lk_range _ _ _ _ Hlk). split; [apply Hlk | apply (lk_live _ _ _ _ Hlk)].
Qed.

(** VMAYHAVELOCKS is set on a vnode with locks, which closef and fdrop rely on
    when they skip the unlock for vnodes without it. *)
Theorem lockf_mayhavelocks w :
  reachable proc_of maxposixlocksperuid w -> lf_range (w_lk w) <> [] -> v_mayhavelocks (w_lk w) = true.
Proof.
  intros [R [Hlk _ _ Hm]]%reachable_ok Hne. apply Hm. intros ->. apply Hne. apply Hlk.
Qed.

(** The POSIX locks of a process in the list. *)
Definition is_posix (lk : lockf) (p i : nat) : bool :=
  match lf_heap lk !! i with
  | Some r => owned (Some p) r && btest (lf_flags r) F_POSIX
  | None => false
  end.

Lemma tally_posix lk p R :
  Forall (fun q => lf_heap lk !! q.1 = Some q.2) R ->
  tally (posix (Some p)) R = zlen (filter (fun i => is_posix lk p i = true) R.*1).
Proof.
  induction 1 as [| [i r] R Hi _ IH]; [done |]. cbn [fmap list_fmap fst] in *. rewrite tally_cons, IH, filter_cons. cbn [snd] in *.
  assert (is_posix lk p i = owned (Some p) r && btest (lf_flags r) F_POSIX) as -> by (unfold is_posix; by rewrite Hi).
  unfold posix at 1. destruct (owned (Some p) r && btest (lf_flags r) F_POSIX).
  - rewrite decide_True by done. by rewrite zlen_cons.
  - by rewrite decide_False.
Qed.

(** the number of POSIX locks that is charged to a process is exact: what it
    has on other files plus the ranges it has in the list. *)
Theorem lockf_accounting w p :
  reachable proc_of maxposixlocksperuid w ->
  counter (p_numposixlocks (w_lk w)) p =
  base_p p + zlen (filter (fun i => is_posix (w_lk w) p i = true) (lf_range (w_lk w))).
Proof.
  intros [R [Hlk _ _ _]]%reachable_ok. rewrite (lk_range _ _ _ _ Hlk), <- tally_posix by apply Hlk.
  apply (le_p _ _ _ (lk_ledger _ _ _ _ Hlk)).
Qed.

(** an F_UNLCK of the entire range always succeeds and leaves the owner
    without locks, which closef and fdrop assume. *)
Theorem lockf_unlock_all w a_id a_flags size :
  reachable proc_of maxposixlocksperuid w ->
  0 <= a_flags < 2 ^ 15 -> btest a_flags F_POSIX = posix_owner a_id ->
  exists lk' fl', lf_advlock proc_of maxposixlocksperuid (w_lk w) F_UNLCK
      (Flock 0 0 0 F_UNLCK SEEK_SET) a_id a_flags size = Done (lk', fl', LfReturn 0) /\
    forall i, i ∈ lf_range lk' -> exists r, lf_heap lk' !! i = Some r /\ lf_owner r <> a_id.
Proof.
  intros [R HW]%reachable_ok Hf Hs. destruct w as [lk P]. cbn [w_lk]. unfold lf_advlock.
  change (lf_request (Flock 0 0 0 F_UNLCK SEEK_SET) a_id a_flags size) with
    (inr (Request a_id F_UNLCK (Z.lor a_flags F_NOEND) 0 LLONG_MAX) : Z + request). cbv iota.
  set (rq := Request _ _ _ _ _). destruct (init_ok proc_of lk P R HW) as [[W1 W2 W3 W4] Hi].
  set (lk0 := if init_done lk then lk else _) in *. cbn [w_lk w_pending] in *.
  assert (rq_ok rq) as Hrq.
  { split; cbn; unfold LLONG_MAX; try done; try lia; try (by right; right).
    - apply s16_lor; [unfold is_s16; lia | done].
    - by rewrite btest_lor, Hs, orb_false_r. }
  destruct (restart_unlock proc_of maxposixlocksperuid 1 lk0 R (objects P) rq 0 None W1 ltac:(done) Hrq eq_refl) as (lk' & err & E & Hret).
  change ((F_UNLCK =? F_SETLK) || (F_UNLCK =? F_UNLCK)) with true. cbv iota. unfold lf_setlock. rewrite E, bind_Done_l.
  destruct Hret as (R' & v & H1 & _ & _ & [(-> & [_ E2 _ E4] & _) | [(_ & _ & _ & Hb & _) | [(_ & _ & _ & _ & Hb & _) | (_ & _ & _ & _ & Hb)]]]);
    [| done | done | destruct (Hb eq_refl); cbn in *; lia].
  cbn [lf_advlock_result fst snd]. exists (lf_advlock_done F_UNLCK lk'). eexists. split; [reflexivity |].
  pose proof (lock_ok_done proc_of F_UNLCK lk' R' _ H1) as H2. intros i Hii. rewrite (lk_range _ _ _ _ H2) in Hii.
  apply list_elem_of_fmap in Hii as ([i' r] & -> & Hin). exists r. pose proof (lk_heap _ _ _ _ H2) as Hh.
  rewrite Forall_forall in Hh, E4. split; [by apply (Hh _ Hin) |]. intros Ho.
  destruct (E4 _ Hin) as [V1 V2 V3 _ _ _]. cbn [snd] in *.
  pose proof (tally_pos_elem _ _ _ (cov_nonneg a_id (lf_type r) (lf_start r)) Hin) as Hp. cbn [snd] in Hp.
  pose proof (E2 (lf_type r) (lf_start r)) as E2'. change (rq_owner rq) with a_id in E2'. rewrite E2' in Hp. unfold cov in Hp.
  rewrite owned_eq, (proj2 (inside_true _ _)), Z.eqb_refl in Hp by (done || lia).
  destruct (within (rq_start rq) (rq_end rq) (lf_start r)) eqn:Ex; [cbn in Hp; lia |].
  unfold within in Ex. cbn in Ex. apply andb_false_iff in Ex. rewrite !Z.leb_gt in Ex. lia.
Qed.

(** F_GETLK reports F_UNLCK when no lock of another owner stands against the
    request, and otherwise the type, the start and, unless it has none, the
    length of such a lock. *)
Theorem lockf_getlk_correct w fl a_id a_flags size rq :
  reachable proc_of maxposixlocksperuid w -> init_done (w_lk w) = true ->
  lf_request fl a_id a_flags size = inr rq -> rq_start rq <= rq_end rq ->
  exists fl', lf_advlock proc_of maxposixlocksperuid (w_lk w) F_GETLK fl a_id a_flags size = Done (w_lk w, fl', LfReturn 0) /\
  let against r := lf_owner r <> rq_owner rq /\ lf_start r <= rq_end rq /\ rq_start rq <= lf_end r /\
                   (rq_type rq = F_WRLCK \/ lf_type r = F_WRLCK) in
  ((l_type fl' = F_UNLCK /\ forall i r, i ∈ lf_range (w_lk w) -> lf_heap (w_lk w) !! i = Some r -> ~ against r) \/
   (exists i r, i ∈ lf_range (w_lk w) /\ lf_heap (w_lk w) !! i = Some r /\ against r /\
      l_type fl' = lf_type r /\ l_whence fl' = SEEK_SET /\ l_start fl' = lf_start r /\
      l_len fl' = if btest (lf_flags r) F_NOEND then 0 else s64 (lf_end r - lf_start r + 1))).
Proof.
  intros [R [Hlk _ _ _]]%reachable_ok Hi Hrq Hse. cbn in *. unfold lf_advlock. rewrite Hrq, Hi.
  change ((F_GETLK =? F_SETLK) || (F_GETLK =? F_UNLCK)) with false. cbv iota. unfold lf_getlock.
  pose proof (lk_heap _ _ _ _ Hlk) as Hh. pose proof (to_wf _ (lk_table _ _ _ _ Hlk)) as Hw.
  rewrite (lk_range _ _ _ _ Hlk), (first_blocking_ok _ _ _ _ _ _ Hh), !bind_Done_l.
  eexists. split; [reflexivity |]. cbv zeta. rewrite Forall_forall in Hh, Hw.
  assert (forall p, p ∈ R -> stands (rq_owner rq) (rq_type rq) (rq_start rq) (rq_end rq) p.2 = true <->
    (lf_owner p.2 <> rq_owner rq /\ lf_start p.2 <= rq_end rq /\ rq_start rq <= lf_end p.2 /\ (rq_type rq = F_WRLCK \/ lf_type p.2 = F_WRLCK))) as Hst.
  { intros p Hp. unfold stands. rewrite !andb_true_iff, lf_overlap_meets, negb_true_iff, orb_true_iff, !Z.eqb_eq; [| apply (Hw p Hp) | done].
    unfold same, meets. rewrite bool_decide_eq_false. tauto. }
  destruct (filter _ R) as [| [i r] F] eqn:EF; cbn [head snd fmap option_fmap option_map].
  - left. split; [done |]. intros i r Hii Hir Hag. apply list_elem_of_fmap in Hii as ([i' r'] & -> & Hin).
    pose proof (Hh _ Hin) as Hr'. cbn in *. rewrite Hir in Hr'. injection Hr' as ->.
    assert ((i', r') ∈ ([] : elems)) as Hnil; [| by apply elem_of_nil in Hnil].
    rewrite <- EF. apply list_elem_of_filter. split; [by apply (Hst _ Hin) | done].
  - assert ((i, r) ∈ filter (fun p => stands (rq_owner rq) (rq_type rq) (rq_start rq) (rq_end rq) p.2 = true) R) as Hin
      by (rewrite EF; left). apply list_elem_of_filter in Hin as [Hs Hin].
    right. exists i, r. split; [by apply (list_elem_of_fmap_2 fst) in Hin |]. split; [by apply (Hh _ Hin) |].
    split; [by apply (Hst _ Hin) | done].
Qed.
End Props.

(** ** Witnesses *)

Module Witness.
Import Demo.

Lemma call_step w op f id flags w' :
  call_ok op f (Some id) flags -> call w (op, f, id, flags) = Done w' -> step procs 1000 w w'.
Proof.
  intros Hc E. destruct w as [lk P]. unfold call in E. cbn [w_lk w_pending] in E.
  apply bind_Done in E as ([[lk' fl'] res] & E & [= <-]). by eapply step_call.
Qed.

Lemma start_initial : start = initial ∅ ∅.
Proof. reflexivity. Qed.

Lemma setlk_ok type start len id flags :
  type = F_RDLCK \/ type = F_WRLCK -> is_s64 start -> is_s64 len -> 0 <= flags < 2 ^ 15 ->
  btest flags F_POSIX = true -> call_ok F_SETLK (fl type start len) (Some id) flags.
Proof. intros. split; try assumption; [by left | intros _; assumption]. Qed.

Lemma reach2 w : w2 = Done w -> reachable procs 1000 w.
Proof.
  intros (w1 & E1 & E2)%bind_Done. exists ∅, ∅. split; [reflexivity |]. split; [reflexivity |]. rewrite <- start_initial.
  apply (rtc_l _ _ w1).
  - apply call_step in E1; [exact E1 |]. apply setlk_ok; [by left | unfold is_s64; lia .. | unfold F_POSIX; lia | reflexivity].
  - apply rtc_once. apply call_step in E2; [exact E2 |]. apply setlk_ok; [by left | unfold is_s64; lia .. | unfold F_POSIX; lia | reflexivity].
Qed.

Lemma reach3 w : w3 = Done w -> reachable procs 1000 w.
Proof.
  intros (w1 & E1 & E2)%bind_Done. destruct (reach2 w1 E1) as (u & p & Hu & Hp & Hr). exists u, p.
  split; [exact Hu |]. split; [exact Hp |]. apply (rtc_r _ w1); [exact Hr |].
  apply call_step in E2; [exact E2 |]. apply setlk_ok; [by right | unfold is_s64; lia .. | unfold F_POSIX, F_WAIT; lia | reflexivity].
Qed.

Lemma lf_setlock_correct_witness :
  exists lk' res R', lf_setlock procs 1000 lk0 (Request (Some 1%nat) F_WRLCK F_POSIX 10 20) = Done (lk', res) /\
  match res with
  | LfReturn err => err = 0 /\ held R' (Some 1%nat) F_WRLCK 15 = true /\ held R' (Some 1%nat) F_WRLCK 21 = false
  | _ => False
  end.
Proof.
  destruct (lf_setlock_correct procs 1000 lk0 [] [] (Request (Some 1%nat) F_WRLCK F_POSIX 10 20)) as (lk' & res & R' & E & H).
  - split; try done; try (by apply NoDup_nil); try (by intros j Hj%elem_of_nil).
    + intros j. cbn. rewrite lookup_empty. split; [by intros [] | by intros Hj%elem_of_nil].
    + split; try done; try constructor.
  - split; cbn; try done; try lia.
  - exists lk', res, R'. split; [exact E |]. vm_compute in E. injection E as <- <-. cbn iota in H.
    destruct H as [_ [[_ Hh] | [[H | [H | H]] _]]]; done.
Defined.

Lemma lockf_exclusion_witness :
  match w2 with
  | Done w => exists i j a b, i <> j /\ lf_heap (w_lk w) !! i = Some a /\ lf_heap (w_lk w) !! j = Some b /\
      lf_start a = 0 /\ lf_start b = 5 /\ lf_owner a <> lf_owner b /\ lf_type a = F_RDLCK /\ lf_type b = F_RDLCK
  | Fault _ => False
  end.
Proof.
  assert (exists w, w2 = Done w) as [w E] by (eexists; vm_compute; reflexivity).
  rewrite E. pose proof (reach2 w E) as Hr. vm_compute in E. injection E as <-.
  exists 0%nat, 2%nat. do 2 eexists. split; [lia |]. split; [reflexivity |]. split; [reflexivity |].
  split; [reflexivity |]. split; [reflexivity |].
  eapply (lockf_exclusion procs 1000 _ 0%nat 2%nat _ _ Hr); [left | right; left | lia | reflexivity | reflexivity | cbn; lia | cbn; lia].
Defined.

Lemma lockf_well_formed_witness :
  match w2 with
  | Done w => exists rs, Forall2 (fun i r => lf_heap (w_lk w) !! i = Some r) (lf_range (w_lk w)) rs /\
      length rs = 2%nat /\ StronglySorted (fun a b => lf_start a <= lf_start b) rs
  | Fault _ => False
  end.
Proof.
  assert (exists w, w2 = Done w) as [w E] by (eexists; vm_compute; reflexivity).
  rewrite E. destruct (lockf_well_formed procs 1000 w (reach2 w E)) as (rs & Hr & Hs & _).
  exists rs. split; [exact Hr |]. split; [| exact Hs].
  rewrite <- (Forall2_length _ _ _ Hr). vm_compute in E. injection E as <-. reflexivity.
Defined.

Lemma lockf_no_lost_wakeup_witness :
  match w3 with
  | Done w => match w_pending w with
              | [Asleep op sl] => lf_blocked (w_lk w) = [sl_brange sl] /\ held_up (w_lk w) (sl_request sl)
              | _ => False
              end
  | Fault _ => False
  end.
Proof.
  assert (exists w, w3 = Done w) as [w E] by (eexists; vm_compute; reflexivity).
  rewrite E. pose proof (reach3 w E) as Hr. vm_compute in E. injection E as <-. cbn [w_pending w_lk]. split; [reflexivity |].
  destruct (lockf_no_lost_wakeup procs 1000 _ Hr) as [H _]. edestruct H as [(_ & _ & Hh) | (Hn & _)]; [left | exact Hh |].
  exfalso. apply Hn. left.
Defined.

Lemma lockf_progress_witness :
  match w3 with
  | Done w => match w_pending w with
              | [Asleep op sl] => exists r, lf_woken procs 1000 (w_lk w) sl 0 = Done r
              | _ => False
              end
  | Fault _ => False
  end.
Proof.
  assert (exists w, w3 = Done w) as [w E] by (eexists; vm_compute; reflexivity).
  rewrite E. pose proof (reach3 w E) as Hr. vm_compute in E. injection E as <-. cbn [w_pending w_lk].
  destruct (lockf_progress procs 1000 _ Hr) as (_ & H & _). eapply H. left.
Defined.

Lemma lockf_no_leak_witness :
  match w3 with Done w => is_Some (lf_heap (w_lk w) !! 4%nat) <-> 4%nat ∈ lf_range (w_lk w) ++ objects (w_pending w) | Fault _ => False end.
Proof.
  assert (exists w, w3 = Done w) as [w E] by (eexists; vm_compute; reflexivity).
  rewrite E. exact (proj2 (lockf_no_leak procs 1000 w 4%nat (reach3 w E))).
Defined.

Lemma lockf_mayhavelocks_witness :
  match w2 with Done w => lf_range (w_lk w) <> [] /\ v_mayhavelocks (w_lk w) = true | Fault _ => False end.
Proof.
  assert (exists w, w2 = Done w) as [w E] by (eexists; vm_compute; reflexivity).
  rewrite E. pose proof (lockf_mayhavelocks procs 1000 w (reach2 w E)) as H. vm_compute in E. injection E as <-.
  split; [done | by apply H].
Defined.

Lemma lockf_accounting_witness :
  match w2 with Done w => counter (p_numposixlocks (w_lk w)) 2%nat = 1 | Fault _ => False end.
Proof.
  assert (exists w, w2 = Done w) as [w E] by (eexists; vm_compute; reflexivity).
  rewrite E. rewrite (lockf_accounting procs 1000 w 2%nat (reach2 w E)). vm_compute in E. injection E as <-. reflexivity.
Defined.

Lemma lockf_unlock_all_witness :
  match w2 with
  | Done w => exists lk' fl', lf_advlock procs 1000 (w_lk w) F_UNLCK (Flock 0 0 0 F_UNLCK SEEK_SET) (Some 1%nat) F_POSIX 0
                = Done (lk', fl', LfReturn 0) /\ forall i, i ∈ lf_range lk' -> exists r, lf_heap lk' !! i = Some r /\ lf_owner r <> Some 1%nat
  | Fault _ => False
  end.
Proof.
  assert (exists w, w2 = Done w) as [w E] by (eexists; vm_compute; reflexivity).
  rewrite E. apply (lockf_unlock_all procs 1000 w (Some 1%nat) F_POSIX 0 (reach2 w E)); [vm_compute; split; congruence | reflexivity].
Defined.

Lemma lockf_getlk_correct_witness :
  match w2 with
  | Done w => exists fl', lf_advlock procs 1000 (w_lk w) F_GETLK (fl F_WRLCK 18 5) (Some 1%nat) F_POSIX 0
                = Done (w_lk w, fl', LfReturn 0) /\ l_type fl' = F_RDLCK /\ l_start fl' = 5
  | Fault _ => False
  end.
Proof.
  assert (exists w, w2 = Done w) as [w E] by (eexists; vm_compute; reflexivity).
  rewrite E. pose proof (reach2 w E) as Hr. vm_compute in E. injection E as <-.
  edestruct (lockf_getlk_correct procs 1000 _ (fl F_WRLCK 18 5) (Some 1%nat) F_POSIX 0
      (Request (Some 1%nat) F_WRLCK F_POSIX 18 22) Hr) as (fl' & E' & _);
    [reflexivity | reflexivity | cbn; lia |].
  exists fl'. split; [exact E' |]. vm_compute in E'. injection E' as <-. done.
Defined.

Lemma lf_request_range_witness :
  lf_request (fl F_WRLCK (2 ^ 62) (2 ^ 62)) (Some 1%nat) F_POSIX 0 =
    inr (Request (Some 1%nat) F_WRLCK F_POSIX (2 ^ 62) (2 ^ 63 - 1)) /\
  lf_request (fl F_WRLCK (2 ^ 62) (2 ^ 62 + 1)) (Some 1%nat) F_POSIX 0 = inl EINVAL.
Proof.
  split; rewrite lf_request_range; try (by left); try reflexivity; unfold is_s64; cbn; lia.
Defined.
End Witness.

(** ** Where the code does something else *)

(** F_GETLK says that a lock has no end after its end was unlocked: the clip on
    the left keeps F_NOEND when the request is an unlock.  Process 1 locks the
    whole file and unlocks it from byte 100 on; process 2 is told that bytes 0
    to infinity are locked, although it can lock byte 100. *)
Theorem lf_clip_left_keeps_noend :
  (w ← Demo.call Demo.start (F_SETLK, Demo.fl F_WRLCK 0 0, 1%nat, F_POSIX);
   w ← Demo.call w (F_UNLCK, Demo.fl F_UNLCK 100 0, 1%nat, F_POSIX);
   '(_, f, _) ← lf_advlock Demo.procs 1000 (w_lk w) F_GETLK (Demo.fl F_WRLCK 0 0) (Some 2%nat) F_POSIX 0;
   '(_, _, r) ← lf_advlock Demo.procs 1000 (w_lk w) F_SETLK (Demo.fl F_WRLCK 100 0) (Some 2%nat) F_POSIX 0;
   mret (l_start f, l_len f, r)) = Done (0, 0, LfReturn 0).
Proof. vm_compute. reflexivity. Qed.

(** The limit on POSIX locks can be passed by one: lf_count_change compares the
    old number with the limit, also when two locks are added.  With a limit of 2,
    a user who has one lock and changes the middle of it has three. *)
Theorem lf_count_change_exceeds_limit :
  (p ← lf_setlock Demo.procs 2 Demo.lk0 (Request (Some 1%nat) F_WRLCK F_POSIX 0 100);
   p ← lf_setlock Demo.procs 2 p.1 (Request (Some 1%nat) F_RDLCK F_POSIX 20 30);
   mret (p.2, counter (ui_posixlocks p.1) 7)) = Done (LfReturn 0, 3).
Proof. vm_compute. reflexivity. Qed.

(** An unlock that only shortens a lock fails at the limit, although it needs no
    new lock: the charge for the worst case is taken first. *)
Theorem lf_unlock_tail_enolck :
  (p ← lf_setlock Demo.procs 1 Demo.lk0 (Request (Some 1%nat) F_WRLCK F_POSIX 0 100);
   p ← lf_setlock Demo.procs 1 p.1 (Request (Some 1%nat) F_UNLCK F_POSIX 50 100);
   mret p.2) = Done (LfReturn ENOLCK).
Proof. vm_compute. reflexivity. Qed.
