(* ===== verification/Qsort.v ===== *)
(** * Sorting and searching: sys/libkern/qsort.c and sys/libkern/bsearch.c

    kqsort is the quicksort of Bentley and McIlroy: it collects the elements
    that equal the pivot at both ends, moves them to the middle and goes on with
    the rest; short arrays, and arrays that a partition finds in order, are
    sorted by insertion.  kqsort_r is the same text with a thunk, which is a part
    of [cmp] here.

    The array is a list of elements, a pointer into it the number of an element;
    where the code computes with differences of pointers, these are numbers of
    bytes, stored in ints.  How swapfunc moves the bytes of two elements (as longs
    or as chars) does not matter here. *)

From stdpp Require Import prelude list sorting.
From S2P Require Import Prelude.
Open Scope Z_scope.

Section Qsort.
Context {A : Type} (cmp : A -> A -> Z) (es : Z).

(** cmp(x, y) on pointers *)
Definition CMP (l : list A) (x y : Z) : outcome Z :=
  a ← aget l x; b ← aget l y; mret (cmp a b).

Definition swap (l : list A) (x y : Z) : outcome (list A) :=
  a ← aget l x; b ← aget l y; l ← aput l x b; aput l y a.

(** A number of bytes as a number of elements; a pointer into the middle of an
    element is a fault. *)
Definition elements (bytes : Z) : outcome Z :=
  if bytes mod es =? 0 then mret (bytes / es) else Fault OutOfBounds.

(** do { swap the next unit } while (--i > 0) of swapfunc, for [k] elements *)
Fixpoint swap_run (l : list A) (x y : Z) (k : nat) : outcome (list A) :=
  match k with
  | O => mret l
  | S k => l ← swap l x y; swap_run l (x + 1) (y + 1) k
  end.

(** vecswap(x, y, n), with y and n as the code computes them: y = z - n *)
Definition vecswap (l : list A) (x z n : Z) : outcome (list A) :=
  if n >? 0 then k ← elements n; swap_run l x (z - k) (Z.to_nat k) else mret l.

Definition med3 (l : list A) (a b c : Z) : outcome Z :=
  ab ← CMP l a b;
  if ab <? 0 then
    bc ← CMP l b c;
    if bc <? 0 then mret b else ac ← CMP l a c; mret (if ac <? 0 then c else a)
  else
    bc ← CMP l b c;
    if bc >? 0 then mret b else ac ← CMP l a c; mret (if ac <? 0 then a else c).

(** for (pl = pm; pl > a && CMP(pl - es, pl) > 0; pl -= es) swap(pl, pl - es);
    with pl = a + k *)
Fixpoint isort_inner (l : list A) (a : Z) (k : nat) : outcome (list A) :=
  match k with
  | O => mret l
  | S k' =>
      let pl := a + Z.of_nat k in
      c ← CMP l (pl - 1) pl;
      if c >? 0 then l ← swap l pl (pl - 1); isort_inner l a k' else mret l
  end.

(** for (pm = a + es; pm < a + n * es; pm += es) ... *)
Fixpoint isort_loop (fuel : nat) (l : list A) (a n pm : Z) : outcome (list A) :=
  if pm <? a + n then
    match fuel with
    | O => Fault OutOfFuel
    | S fuel => l ← isort_inner l a (Z.to_nat (pm - a)); isort_loop fuel l a n (pm + 1)
    end
  else mret l.

Definition isort (l : list A) (a n : Z) : outcome (list A) :=
  isort_loop (Z.to_nat n) l a n (a + 1).

(** The variables of the partition. *)
Record part := Part {
  q_l : list A;
  pa : Z; pb : Z; pc : Z; pd : Z;
  swap_cnt : Z
}.

(** while (pb <= pc && (r = CMP(pb, a)) <= 0) ... *)
Fixpoint scan_up (fuel : nat) (a : Z) (s : part) : outcome part :=
  if pb s <=? pc s then
    match fuel with
    | O => Fault OutOfFuel
    | S fuel =>
        r ← CMP (q_l s) (pb s) a;
        if r <=? 0 then
          if r =? 0 then
            l ← swap (q_l s) (pa s) (pb s);
            scan_up fuel a (Part l (pa s + 1) (pb s + 1) (pc s) (pd s) 1)
          else scan_up fuel a (Part (q_l s) (pa s) (pb s + 1) (pc s) (pd s) (swap_cnt s))
        else mret s
    end
  else mret s.

(** while (pb <= pc && (r = CMP(pc, a)) >= 0) ... *)
Fixpoint scan_down (fuel : nat) (a : Z) (s : part) : outcome part :=
  if pb s <=? pc s then
    match fuel with
    | O => Fault OutOfFuel
    | S fuel =>
        r ← CMP (q_l s) (pc s) a;
        if r >=? 0 then
          if r =? 0 then
            l ← swap (q_l s) (pc s) (pd s);
            scan_down fuel a (Part l (pa s) (pb s) (pc s - 1) (pd s - 1) 1)
          else scan_down fuel a (Part (q_l s) (pa s) (pb s) (pc s - 1) (pd s) (swap_cnt s))
        else mret s
    end
  else mret s.

(** for (;;) { ... } *)
Fixpoint partition (fuel : nat) (a : Z) (s : part) : outcome part :=
  match fuel with
  | O => Fault OutOfFuel
  | S fuel' =>
      s ← scan_up fuel a s;
      s ← scan_down fuel a s;
      if pb s >? pc s then mret s
      else
        l ← swap (q_l s) (pb s) (pc s);
        partition fuel' a (Part l (pa s) (pb s + 1) (pc s - 1) (pd s) 1)
  end.

(** The choice of the pivot. *)
Definition pivot (l : list A) (a n : Z) : outcome Z :=
  let pm := a + n / 2 in
  if n >? 7 then
    let pl := a in
    let pn := a + (n - 1) in
    '(pl, pm, pn) ←
      (if n >? 40 then
         d ← elements (s32 (n / 8 * es));
         pl ← med3 l pl (pl + d) (pl + 2 * d);
         pm ← med3 l (pm - d) pm (pm + d);
         pn ← med3 l (pn - 2 * d) (pn - d) pn;
         mret (pl, pm, pn)
       else mret (pl, pm, pn));
    med3 l pl pm pn
  else mret pm.

(** kqsort(a, n, es, cmp); [goto loop] is a call.  The recursion ends when the
    array is short: fuel is at least n + 1. *)
Fixpoint kqsort_loop (fuel : nat) (l : list A) (a n : Z) : outcome (list A) :=
  match fuel with
  | O => Fault OutOfFuel
  | S fuel =>
      if n <? 7 then isort l a n
      else
        pm ← pivot l a n;
        l ← swap l a pm;
        s ← partition (Z.to_nat n) a (Part l (a + 1) (a + 1) (a + (n - 1)) (a + (n - 1)) 0);
        if swap_cnt s =? 0 then isort (q_l s) a n
        else
          let pn := a + n in
          let r := s32 (Z.min ((pa s - a) * es) ((pb s - pa s) * es)) in
          l ← vecswap (q_l s) a (pb s) r;
          let r := s32 (Z.min ((pd s - pc s) * es) ((pn - pd s - 1) * es)) in
          l ← vecswap l (pb s) pn r;
          let r := s32 ((pb s - pa s) * es) in
          l ← (if u64 r >? es then kqsort_loop fuel l a (u64 r / es) else mret l);
          let r := s32 ((pd s - pc s) * es) in
          if u64 r >? es then
            k ← elements r;
            kqsort_loop fuel l (pn - k) (u64 r / es)
          else mret l
  end.

Definition kqsort (l : list A) (n : Z) : outcome (list A) :=
  kqsort_loop (S (Z.to_nat n)) l 0 n.
End Qsort.

(** kbsearch: the search key, the array and a comparison of the two; the result
    is the number of an element, or none. *)
Fixpoint kbsearch_loop {K A : Type} (compar : K -> A -> Z) (key : K) (l : list A)
    (fuel : nat) (base lim : Z) : outcome (option Z) :=
  if lim =? 0 then mret None
  else
    match fuel with
    | O => Fault OutOfFuel
    | S fuel =>
        let p := base + Z.shiftr lim 1 in
        x ← aget l p;
        let cmp := compar key x in
        if cmp =? 0 then mret (Some p)
        else if cmp >? 0
        then kbsearch_loop compar key l fuel (p + 1) (Z.shiftr (lim - 1) 1)
        else kbsearch_loop compar key l fuel base (Z.shiftr lim 1)
    end.

Definition kbsearch {K A : Type} (compar : K -> A -> Z) (key : K) (l : list A) (nmemb : Z) :
    outcome (option Z) :=
  kbsearch_loop compar key l (Z.to_nat nmemb) 0 nmemb.

Example kqsort_small : kqsort Z.sub 8 [5; 3; 9; 1; 3; 7; 2; 8; 3; 0] 10 = Done [0; 1; 2; 3; 3; 3; 5; 7; 8; 9].
Proof. reflexivity. Qed.
