(* ===== verification/QsortProps.v ===== *)
(** * Sorting and searching: results

    kqsort sorts, whatever the size of the elements, as long as the array has
    fewer than 2^31 bytes; with any comparison function it ends, stays inside the
    array and only permutes it.  kbsearch finds an element of a sorted array if
    there is one. *)

From stdpp Require Import prelude list sorting.
From S2P Require Import Prelude.
From S2P Require Import Qsort.
Open Scope Z_scope.

(** ** Access to arrays in pieces *)

Section Pieces.
Context {A : Type}.
Implicit Types (l B C pre post X Y : list A) (x y : A).

Lemma swap_unfold l i j x y B C D E :
  l = B ++ x :: C -> i = zlen B -> l = D ++ y :: E -> j = zlen D ->
  swap l i j = aput (B ++ y :: C) j x.
Proof.
  intros E1 Hi E2 Hj. unfold swap. rewrite (aget_at l i B x C), bind_Done_l by done.
  rewrite (aget_at l j D y E), bind_Done_l by done. by rewrite (aput_at l i y B x C).
Qed.

Lemma swap_at l i j B x C y D :
  l = B ++ x :: C ++ y :: D -> i = zlen B -> j = zlen B + 1 + zlen C ->
  swap l i j = Done (B ++ y :: C ++ x :: D).
Proof.
  intros E -> Hj. assert (l = (B ++ x :: C) ++ y :: D) as E' by (rewrite E; by lnorm).
  rewrite (swap_unfold l _ j x y B (C ++ y :: D) (B ++ x :: C) D) by (done || zl).
  rewrite (aput_at _ j x (B ++ y :: C) y D); [by lnorm | by lnorm | zl].
Qed.

Lemma swap_at_rev l i j B x C y D :
  l = B ++ x :: C ++ y :: D -> i = zlen B -> j = zlen B + 1 + zlen C ->
  swap l j i = Done (B ++ y :: C ++ x :: D).
Proof.
  intros E -> Hj. assert (l = (B ++ x :: C) ++ y :: D) as E' by (rewrite E; by lnorm).
  rewrite (swap_unfold l j _ y x (B ++ x :: C) D B (C ++ y :: D)) by (done || zl).
  by rewrite (aput_at _ _ y B x (C ++ x :: D)) by (done || by lnorm).
Qed.

Lemma swap_self l i B x C : l = B ++ x :: C -> i = zlen B -> swap l i i = Done l.
Proof. intros E ->. by rewrite (swap_unfold l _ _ x x B C B C), (aput_at _ _ x B x C), <- E. Qed.

(** Both cases at once: the element at [j] comes before what is at [i ..  j). *)
Lemma swap_front l i j B X x C :
  l = B ++ X ++ x :: C -> i = zlen B -> j = zlen B + zlen X ->
  exists X', swap l i j = Done (B ++ x :: X' ++ C) /\ X' ≡ₚ X.
Proof.
  intros E -> ->. destruct X as [| y X].
  - exists []. split; [| done]. rewrite Z.add_0_r, (swap_self l _ B x C); [by rewrite E | done..].
  - exists (X ++ [y]). split; [| solve_Permutation]. rewrite (swap_at l _ _ B y X x C); [by lnorm | done | done | zl].
Qed.

Lemma swap_back l i j B X x C :
  l = B ++ x :: X ++ C -> i = zlen B -> j = zlen B + zlen X ->
  exists X', swap l i j = Done (B ++ X' ++ x :: C) /\ X' ≡ₚ X.
Proof.
  intros E -> ->. destruct X as [| y X _] using rev_ind.
  - exists []. split; [| done]. rewrite Z.add_0_r, (swap_self l _ B x C); [by rewrite E | done..].
  - exists (y :: X). split; [| solve_Permutation]. rewrite (swap_at l _ _ B x X y C); [by lnorm | | done | zl]. rewrite E. by lnorm.
Qed.

Lemma swap_run_at X Y : forall l i j B C D,
  l = B ++ X ++ C ++ Y ++ D -> length X = length Y -> i = zlen B -> j = zlen B + zlen X + zlen C ->
  swap_run l i j (length X) = Done (B ++ Y ++ C ++ X ++ D).
Proof.
  revert Y. induction X as [| x X IH]; intros [| y Y] l i j B C D -> HL -> ->; try done. cbn [swap_run length app].
  rewrite (swap_at _ _ _ B x (X ++ C) y (Y ++ D)), bind_Done_l by (by lnorm || by zl).
  injection HL as HL. rewrite (IH Y _ _ _ (B ++ [y]) (C ++ [x]) D); [by lnorm | by lnorm | done | zl | zl].
Qed.

(** vecswap of the shorter of two neighbours: they change places. *)
Lemma vecswap_neighbours es l B X Y D :
  0 < es -> l = B ++ X ++ Y ++ D ->
  exists X' Y', vecswap es l (zlen B) (zlen B + zlen X + zlen Y) (Z.min (zlen X * es) (zlen Y * es)) =
    Done (B ++ Y' ++ X' ++ D) /\ X' ≡ₚ X /\ Y' ≡ₚ Y.
Proof.
  intros He ->. rewrite Z.mul_min_distr_nonneg_r by lia. set (k := Z.min (zlen X) (zlen Y)).
  assert (0 <= k) as Hk by (pose proof (zlen_nonneg X); pose proof (zlen_nonneg Y); lia).
  unfold vecswap, elements. rewrite Z_mod_mult, Z.div_mul by lia. cbn [Z.eqb]. rewrite bind_Done_l.
  destruct (Z.gtb_spec (k * es) 0) as [Hpos | Hz].
  - assert (0 < k) as Hk' by nia. destruct (Z.leb_spec (zlen X) (zlen Y)).
    + assert (k = zlen X) as -> by lia. rewrite <- (take_drop (length Y - length X) Y).
      set (Y1 := take _ Y). set (Y2 := drop _ Y).
      assert (length X = length Y2) as HL by (unfold Y2; rewrite length_drop; zl).
      exists X, (Y2 ++ Y1). replace (Z.to_nat (zlen X)) with (length X) by zl.
      rewrite (swap_run_at X Y2 _ _ _ B Y1 D); [| by lnorm | done | done |].
      * split_and!; [by lnorm | done | solve_Permutation].
      * rewrite zlen_app. unfold zlen. lia.
    + assert (k = zlen Y) as -> by lia. rewrite <- (take_drop (length Y) X).
      set (X1 := take _ X). set (X2 := drop _ X).
      assert (length X1 = length Y) as HL by (unfold X1; rewrite length_take; zl).
      exists (X2 ++ X1), Y. replace (Z.to_nat (zlen Y)) with (length X1) by zl.
      rewrite (swap_run_at X1 Y _ _ _ B X2 D); [| by lnorm | done | done |].
      * split_and!; [by lnorm | solve_Permutation | done].
      * rewrite zlen_app. unfold zlen. lia.
  - assert (k = 0) as Hk0 by nia. assert (X = [] \/ Y = []) as [-> | ->].
    { destruct X, Y; [by left | by left | by right |]. subst k. zl. }
    + exists [], Y. done.
    + exists X, []. done.
Qed.
End Pieces.

(** ** Comparison functions *)

(** A comparison function that orders the elements: the sign of the result
    changes with the order of the arguments, and "not after" is transitive. *)
Record orders {A : Type} (cmp : A -> A -> Z) : Prop := Orders {
  or_sign : forall x y, cmp x y < 0 <-> 0 < cmp y x;
  or_trans : forall x y z, cmp x y <= 0 -> cmp y z <= 0 -> cmp x z <= 0
}.

Section Sort.
Context {A : Type} (cmp : A -> A -> Z).
Implicit Types (l pre post X Y E L M G : list A) (x y p : A).

Definition sorted (l : list A) : Prop := StronglySorted (fun x y => cmp x y <= 0) l.

Lemma orders_ge x y : orders cmp -> 0 <= cmp x y -> cmp y x <= 0.
Proof. intros [H _] ?. destruct (H x y). destruct (Z.le_gt_cases (cmp y x) 0); [done |]. lia. Qed.

Lemma CMP_at l i j x y : aget l i = Done x -> aget l j = Done y -> CMP cmp l i j = Done (cmp x y).
Proof. intros E1 E2. unfold CMP. by rewrite E1, bind_Done_l, E2. Qed.

(** The result of sorting a part of an array: the rest stays, the part is
    permuted, and sorted if the comparison function orders. *)
Definition sorts_to pre X post (r : outcome (list A)) : Prop :=
  exists X', r = Done (pre ++ X' ++ post) /\ X' ≡ₚ X /\ (orders cmp -> sorted X').

(** ** Insertion sort *)

Lemma isort_inner_ok X : forall pre x Y,
  (orders cmp -> sorted X) ->
  sorts_to pre (X ++ [x]) Y (isort_inner cmp (pre ++ X ++ x :: Y) (zlen pre) (length X)).
Proof.
  induction X as [| y X IH] using rev_ind; intros pre x Y HX.
  - exists [x]. split_and!; [done | done |]. intros _. repeat constructor.
  - rewrite length_app, Nat.add_1_r. cbn [isort_inner].
    rewrite (CMP_at _ _ _ y x), bind_Done_l;
      [| apply (aget_at _ _ (pre ++ X) _ (x :: Y)); [by lnorm | zl] | apply (aget_at _ _ (pre ++ X ++ [y]) _ Y); [by lnorm | zl]].
    assert (orders cmp -> sorted X /\ forall z, z ∈ X -> cmp z y <= 0) as HX'.
    { intros Ho. specialize (HX Ho). apply StronglySorted_app in HX as (H1 & H2 & _). split; [done |]. intros z Hz. apply H1; [done | by left]. }
    destruct (Z.gtb_spec (cmp y x) 0) as [Hc | Hc].
    + rewrite (swap_at_rev _ _ _ (pre ++ X) y [] x Y), bind_Done_l; [| by lnorm | zl | zl]. lnorm.
      destruct (IH pre x (y :: Y)) as (X' & E & Hp & Hs); [naive_solver |].
      exists (X' ++ [y]). split_and!; [rewrite E; by lnorm | rewrite Hp; solve_Permutation |].
      intros Ho. apply StronglySorted_app. split_and!; [| by apply Hs | repeat constructor].
      intros a b Ha ->%list_elem_of_singleton. rewrite Hp in Ha. apply elem_of_app in Ha as [Ha | ->%list_elem_of_singleton].
      * by apply HX'.
      * apply orders_ge; [done | lia].
    + exists ((X ++ [y]) ++ [x]). split_and!; [by lnorm | done |]. intros Ho. apply StronglySorted_app.
      split_and!; [| by apply HX | repeat constructor].
      intros a b Ha ->%list_elem_of_singleton. apply elem_of_app in Ha as [Ha | ->%list_elem_of_singleton]; [| done].
      eapply (or_trans _ Ho); [by apply HX' | done].
Qed.

Lemma isort_loop_ok Y : forall fuel pre X post,
  (length Y <= fuel)%nat -> (orders cmp -> sorted X) ->
  sorts_to pre (X ++ Y) post
    (isort_loop cmp fuel (pre ++ X ++ Y ++ post) (zlen pre) (zlen X + zlen Y) (zlen pre + zlen X)).
Proof.
  induction Y as [| y Y IH]; intros fuel pre X post Hf HX.
  - rewrite app_nil_r. exists X. split_and!; [| done | done].
    destruct fuel; cbn [isort_loop]; rewrite (proj2 (Z.ltb_ge _ _)) by zl; done.
  - destruct fuel as [| fuel]; [cbn in Hf; lia |]. cbn [isort_loop]. rewrite (proj2 (Z.ltb_lt _ _)) by zl.
    replace (Z.to_nat _) with (length X) by zl. cbn [app].
    destruct (isort_inner_ok X pre y (Y ++ post) HX) as (X' & -> & Hp & Hs). rewrite bind_Done_l.
    assert (zlen X' = zlen X + 1) as HL by (unfold zlen; rewrite Hp, length_app; cbn; lia).
    destruct (IH fuel pre X' post) as (Z' & E & Hp' & Hs'); [cbn in Hf; lia | done |].
    exists Z'. rewrite zlen_cons. split_and!; [| by rewrite Hp', Hp, <- app_assoc | done].
    rewrite <- E. f_equal; lia.
Qed.

Lemma isort_ok pre X post : sorts_to pre X post (isort cmp (pre ++ X ++ post) (zlen pre) (zlen X)).
Proof.
  destruct X as [| x X].
  - exists []. split_and!; [| done | constructor]. unfold isort. change (Z.to_nat (zlen [])) with 0%nat. cbn [isort_loop]. by rewrite (proj2 (Z.ltb_ge _ _)) by zl.
  - unfold isort. rewrite zlen_cons. apply (isort_loop_ok X _ pre [x] post); [zl |]. intros _. repeat constructor.
Qed.

(** ** The partition *)

(** The array during the partition around the pivot [p], which stays at [a]: the
    elements equal to it at both ends, the smaller and the larger ones, and in the
    middle those that are still to be looked at. *)
Record shape pre post p (s : part) E1 L M G E2 : Prop := Shape {
  sh_l : q_l s = pre ++ p :: E1 ++ L ++ M ++ G ++ E2 ++ post;
  sh_pa : pa s = zlen pre + 1 + zlen E1;
  sh_pb : pb s = pa s + zlen L;
  sh_pc : pc s = pb s + zlen M - 1;
  sh_pd : pd s = pc s + zlen G;
  sh_E1 : Forall (fun x => cmp x p = 0) E1;
  sh_L : Forall (fun x => cmp x p < 0) L;
  sh_G : Forall (fun x => 0 < cmp x p) G;
  sh_E2 : Forall (fun x => cmp x p = 0) E2
}.

Lemma scan_up_ok post p G E2 M : forall fuel pre s E1 L,
  shape pre post p s E1 L M G E2 -> (length M <= fuel)%nat ->
  exists s' E1' L' M', scan_up cmp fuel (zlen pre) s = Done s' /\ shape pre post p s' E1' L' M' G E2 /\
    E1' ++ L' ++ M' ≡ₚ E1 ++ L ++ M /\ (length M' <= length M)%nat /\ Forall (fun x => 0 < cmp x p) (take 1 M').
Proof.
  induction M as [| m M IH]; intros fuel pre s E1 L [Hl Ha Hb Hc Hd H1 H2 H3 H4] Hf.
  - exists s, E1, L, []. split_and!; [| done.. | constructor].
    destruct fuel; cbn [scan_up]; rewrite (proj2 (Z.leb_gt _ _)) by zl; done.
  - destruct fuel as [| fuel]; [cbn in Hf; lia |]. cbn [scan_up]. rewrite (proj2 (Z.leb_le _ _)) by zl.
    rewrite (CMP_at _ _ _ m p), bind_Done_l; [| apply (aget_at _ _ (pre ++ p :: E1 ++ L) _ (M ++ G ++ E2 ++ post)); [rewrite Hl; by lnorm | zl] |
      apply (aget_at _ _ pre _ (E1 ++ L ++ (m :: M) ++ G ++ E2 ++ post)); done].
    destruct (Z.leb_spec (cmp m p) 0) as [Hle | Hgt].
    + destruct (Z.eqb_spec (cmp m p) 0) as [H0 | H0].
      * destruct (swap_front (q_l s) (pa s) (pb s) (pre ++ p :: E1) L m (M ++ G ++ E2 ++ post)) as (L' & -> & HL');
          [rewrite Hl; by lnorm | zl | zl |]. rewrite bind_Done_l.
        assert (zlen L' = zlen L) as HLL by (unfold zlen; by rewrite HL').
        match goal with |- context [scan_up _ _ _ ?s1] => destruct (IH fuel pre s1 (E1 ++ [m]) L') as (s' & E1' & L1 & M' & -> & Hs & Hp & Hlen & Hh) end;
          [| cbn in Hf; lia |].
        { split; cbn; try done; try zl; [by lnorm | by apply Forall_app_2; [| constructor] | by rewrite HL']. }
        exists s', E1', L1, M'. split_and!; [done | done | rewrite Hp, HL'; solve_Permutation | cbn; lia | done].
      * match goal with |- context [scan_up _ _ _ ?s1] => destruct (IH fuel pre s1 E1 (L ++ [m])) as (s' & E1' & L1 & M' & -> & Hs & Hp & Hlen & Hh) end;
          [| cbn in Hf; lia |].
        { split; cbn; try done; try zl; [rewrite Hl; by lnorm | apply Forall_app_2; [done | constructor; [lia | done]]]. }
        exists s', E1', L1, M'. split_and!; [done | done | rewrite Hp; solve_Permutation | cbn; lia | done].
    + exists s, E1, L, (m :: M). split_and!; [done.. | by constructor].
Qed.

Lemma scan_down_ok post p E1 L M : forall fuel pre s G E2,
  shape pre post p s E1 L M G E2 -> (length M <= fuel)%nat ->
  exists s' M' R G' E2', scan_down cmp fuel (zlen pre) s = Done s' /\ shape pre post p s' E1 L M' G' E2' /\
    M = M' ++ R /\ G' ++ E2' ≡ₚ R ++ G ++ E2 /\ (M' = [] \/ exists N y, M' = N ++ [y] /\ cmp y p < 0).
Proof.
  induction M as [| m M IH] using rev_ind; intros fuel pre s G E2 [Hl Ha Hb Hc Hd H1 H2 H3 H4] Hf.
  - exists s, [], [], G, E2. split_and!; [| done.. | by left].
    destruct fuel; cbn [scan_down]; rewrite (proj2 (Z.leb_gt _ _)) by zl; done.
  - rewrite length_app in Hf. cbn in Hf. destruct fuel as [| fuel]; [lia |]. cbn [scan_down]. rewrite (proj2 (Z.leb_le _ _)) by zl.
    rewrite (CMP_at _ _ _ m p), bind_Done_l; [| apply (aget_at _ _ (pre ++ p :: E1 ++ L ++ M) _ (G ++ E2 ++ post)); [rewrite Hl; by lnorm | zl] |
      apply (aget_at _ _ pre _ (E1 ++ L ++ (M ++ [m]) ++ G ++ E2 ++ post)); done].
    rewrite Z.geb_leb. destruct (Z.leb_spec 0 (cmp m p)) as [Hle | Hgt].
    + destruct (Z.eqb_spec (cmp m p) 0) as [H0 | H0].
      * destruct (swap_back (q_l s) (pc s) (pd s) (pre ++ p :: E1 ++ L ++ M) G m (E2 ++ post)) as (G' & -> & HG');
          [rewrite Hl; by lnorm | zl | zl |]. rewrite bind_Done_l.
        assert (zlen G' = zlen G) as HLL by (unfold zlen; by rewrite HG').
        match goal with |- context [scan_down _ _ _ ?s1] => destruct (IH fuel pre s1 G' (m :: E2)) as (s' & M' & R & G1 & E2' & -> & Hs & -> & Hp & Hh) end;
          [| lia |].
        { split; cbn; try done; try zl; [by lnorm | by rewrite HG' | by constructor]. }
        exists s', M', (R ++ [m]), G1, E2'. split_and!; [done | done | by lnorm | rewrite Hp, HG'; solve_Permutation | done].
      * match goal with |- context [scan_down _ _ _ ?s1] => destruct (IH fuel pre s1 (m :: G) E2) as (s' & M' & R & G1 & E2' & -> & Hs & -> & Hp & Hh) end;
          [| lia |].
        { split; cbn; try done; try zl; [rewrite Hl; by lnorm | constructor; [lia | done]]. }
        exists s', M', (R ++ [m]), G1, E2'. split_and!; [done | done | by lnorm | rewrite Hp; solve_Permutation | done].
    + exists s, (M ++ [m]), [], G, E2. split_and!; [done | done | by rewrite app_nil_r | done | right; by exists M, m].
Qed.

Lemma partition_ok post p fuel : forall M pre s E1 L G E2,
  shape pre post p s E1 L M G E2 -> (length M < fuel)%nat ->
  exists s' E1' L' G' E2', partition cmp fuel (zlen pre) s = Done s' /\ shape pre post p s' E1' L' [] G' E2' /\
    E1' ++ L' ++ G' ++ E2' ≡ₚ E1 ++ L ++ M ++ G ++ E2.
Proof.
  induction fuel as [| fuel IH]; intros M pre s E1 L G E2 Hs Hf; [lia |]. cbn [partition].
  destruct (scan_up_ok post p G E2 M (S fuel) pre s E1 L Hs ltac:(lia)) as (s1 & E1' & L' & M1 & -> & Hs1 & Hp1 & Hl1 & Hh). rewrite bind_Done_l.
  destruct (scan_down_ok post p E1' L' M1 (S fuel) pre s1 G E2 Hs1 ltac:(lia)) as (s2 & M2 & R & G' & E2' & -> & Hs2 & -> & Hp2 & Hy). rewrite bind_Done_l.
  assert (E1 ++ L ++ M ++ G ++ E2 ≡ₚ E1' ++ L' ++ M2 ++ G' ++ E2') as HP.
  { transitivity ((E1 ++ L ++ M) ++ G ++ E2); [solve_Permutation |]. rewrite <- Hp1, Hp2. solve_Permutation. }
  destruct Hs2 as [Hl Ha Hb Hc Hd H1 H2 H3 H4].
  destruct Hy as [-> | (N & y & -> & Hyp)].
  - destruct (Z.gtb_spec (pb s2) (pc s2)); [| zl]. exists s2, E1', L', G', E2'. split_and!; [done.. | by rewrite HP].
  - destruct N as [| x N]; cbn [app take] in Hh; apply Forall_cons in Hh as [Hx _]; [lia |].
    destruct (Z.gtb_spec (pb s2) (pc s2)); [zl |].
    rewrite (swap_at _ _ _ (pre ++ p :: E1' ++ L') x N y (G' ++ E2' ++ post)), bind_Done_l; [| rewrite Hl; by lnorm | zl | zl].
    match goal with |- context [partition _ _ _ ?s1] => destruct (IH N pre s1 E1' (L' ++ [y]) (x :: G') E2') as (s' & F1 & L1 & G1 & F2 & -> & Hs' & Hp) end.
    { split; cbn; try done; try zl; [by lnorm | apply Forall_app_2; [done | by constructor] | by constructor]. }
    { rewrite !length_app in *. cbn in *. lia. }
    exists s', F1, L1, G1, F2. split_and!; [done | done |]. rewrite Hp, HP. solve_Permutation.
Qed.

(** ** The pivot *)

Context (es : Z) (Hes : 0 < es).

Lemma elements_mul k : elements es (k * es) = Done k.
Proof. unfold elements. by rewrite Z_mod_mult, Z.div_mul by lia. Qed.

Lemma CMP_in_bounds l i j : 0 <= i < zlen l -> 0 <= j < zlen l -> exists c, CMP cmp l i j = Done c.
Proof.
  intros [x Hx]%aget_in_bounds [y Hy]%aget_in_bounds. exists (cmp x y). by apply CMP_at.
Qed.

Lemma med3_ok l i j k : 0 <= i < zlen l -> 0 <= j < zlen l -> 0 <= k < zlen l ->
  exists m, med3 cmp l i j k = Done m /\ (m = i \/ m = j \/ m = k).
Proof.
  intros Hi Hj Hk. unfold med3.
  destruct (CMP_in_bounds l i j Hi Hj) as [ij Eij], (CMP_in_bounds l j k Hj Hk) as [jk Ejk], (CMP_in_bounds l i k Hi Hk) as [ik Eik].
  rewrite Eij, Ejk, Eik, !bind_Done_l. repeat case_match; eauto.
Qed.

Lemma pivot_ok l a n :
  7 <= n -> n * es < 2 ^ 31 -> 0 <= a -> a + n <= zlen l ->
  exists pm, pivot cmp es l a n = Done pm /\ a <= pm < a + n.
Proof.
  intros Hn Hb Ha Hl. unfold pivot. assert (0 <= n / 2 /\ n / 2 + n / 8 < n /\ n / 8 <= n / 2 /\ 4 * (n / 8) < n - 1 /\ 0 <= n / 8) as Hd by (Z.div_mod_to_equations; lia).
  destruct (Z.gtb_spec n 7); [| exists (a + n / 2); split; [done | lia]].
  destruct (Z.gtb_spec n 40).
  - rewrite s32_id, elements_mul, !bind_Done_l by (unfold is_s32; nia).
    destruct (med3_ok l a (a + n / 8) (a + 2 * (n / 8))) as (p1 & -> & Hp1); [lia.. |]. rewrite bind_Done_l.
    destruct (med3_ok l (a + n / 2 - n / 8) (a + n / 2) (a + n / 2 + n / 8)) as (p2 & -> & Hp2); [lia.. |]. rewrite bind_Done_l.
    destruct (med3_ok l (a + (n - 1) - 2 * (n / 8)) (a + (n - 1) - n / 8) (a + (n - 1))) as (p3 & -> & Hp3); [lia.. |]. rewrite !bind_Done_l.
    destruct (med3_ok l p1 p2 p3) as (m & -> & Hm); [lia.. |]. exists m. split; [done | lia].
  - rewrite bind_Done_l. destruct (med3_ok l a (a + n / 2) (a + (n - 1))) as (m & -> & Hm); [lia.. |]. exists m. split; [done | lia].
Qed.

(** ** The whole *)

Lemma sorts_short pre X post : (length X <= 1)%nat -> sorts_to pre X post (mret (pre ++ X ++ post)).
Proof.
  intros HL. exists X. split_and!; [done.. |]. intros _. destruct X as [| x [| y X]]; [constructor | repeat constructor | cbn in HL; lia].
Qed.

(** The part that a byte count stands for. *)
Lemma bytes_of_part X : zlen X * es < 2 ^ 31 ->
  s32 (zlen X * es) = zlen X * es /\ u64 (zlen X * es) = zlen X * es /\ zlen X * es / es = zlen X /\
  ((u64 (zlen X * es) >? es) = false -> (length X <= 1)%nat).
Proof.
  intros Hb. pose proof (zlen_nonneg X). rewrite s32_id, u64_id, Z.div_mul by (unfold is_s32, is_u64; nia).
  split_and!; try done. rewrite Z.gtb_ltb, Z.ltb_ge. intros. assert (zlen X <= 1) by nia. zl.
Qed.

Lemma sorted_parts p L P G :
  orders cmp -> sorted L -> sorted G -> Forall (fun x => cmp x p < 0) L ->
  Forall (fun x => cmp x p = 0) P -> Forall (fun x => 0 < cmp x p) G -> sorted (L ++ P ++ G).
Proof.
  intros Ho HL HG FL FP FG. rewrite Forall_forall in FL, FP, FG.
  assert (forall x y, cmp x p <= 0 -> 0 <= cmp y p -> cmp x y <= 0) as Hxy.
  { intros x y Hx Hy. eapply (or_trans _ Ho); [exact Hx | by apply orders_ge]. }
  apply StronglySorted_app. split_and!; [| done |].
  - intros x y Hx [Hy | Hy]%elem_of_app; apply Hxy.
    + specialize (FL x Hx). lia.
    + specialize (FP y Hy). lia.
    + specialize (FL x Hx). lia.
    + specialize (FG y Hy). lia.
  - apply StronglySorted_app. split_and!; [| | done].
    + intros x y Hx Hy. specialize (FP x Hx). specialize (FG y Hy). apply Hxy; lia.
    + clear -FP Hxy. induction P as [| x P IH]; constructor; [apply IH; set_solver |].
      apply Forall_forall. intros y Hy. pose proof (FP x ltac:(left)). pose proof (FP y ltac:(by right)). apply Hxy; lia.
Qed.

(** The recursive call for a part, if it has more than one element. *)
Lemma part_ok fuel pre X post :
  zlen X * es < 2 ^ 31 ->
  sorts_to pre X post (kqsort_loop cmp es fuel (pre ++ X ++ post) (zlen pre) (zlen X)) ->
  sorts_to pre X post
    (if u64 (s32 (zlen X * es)) >? es
     then kqsort_loop cmp es fuel (pre ++ X ++ post) (zlen pre) (u64 (s32 (zlen X * es)) / es)
     else mret (pre ++ X ++ post)).
Proof.
  intros Hb IH. destruct (bytes_of_part X Hb) as (-> & E & Ed & Hsmall).
  destruct (u64 (zlen X * es) >? es); [by rewrite E, Ed | apply sorts_short, Hsmall; done].
Qed.

(** What follows the partition: the elements that equal the pivot move to the
    middle, then both sides are sorted. *)
Lemma kqsort_rest_ok fuel pre p E1 L G E2 post :
  (forall pre X post, (length X < fuel)%nat -> zlen X * es < 2 ^ 31 ->
     sorts_to pre X post (kqsort_loop cmp es fuel (pre ++ X ++ post) (zlen pre) (zlen X))) ->
  (length (E1 ++ L ++ G ++ E2) < fuel)%nat -> zlen (p :: E1 ++ L ++ G ++ E2) * es < 2 ^ 31 ->
  Forall (fun x => cmp x p = 0) E1 -> Forall (fun x => cmp x p < 0) L ->
  Forall (fun x => 0 < cmp x p) G -> Forall (fun x => cmp x p = 0) E2 ->
  let pb := zlen pre + zlen (p :: E1) + zlen L in
  let pn := pb + zlen G + zlen E2 in
  sorts_to pre (p :: E1 ++ L ++ G ++ E2) post
    (l ← vecswap es (pre ++ (p :: E1) ++ L ++ G ++ E2 ++ post) (zlen pre) pb (Z.min (zlen (p :: E1) * es) (zlen L * es));
     l ← vecswap es l pb pn (Z.min (zlen G * es) (zlen E2 * es));
     l ← (if u64 (s32 (zlen L * es)) >? es
          then kqsort_loop cmp es fuel l (zlen pre) (u64 (s32 (zlen L * es)) / es) else mret l);
     if u64 (s32 (zlen G * es)) >? es
     then kqsort_loop cmp es fuel l (pn - zlen G) (u64 (s32 (zlen G * es)) / es) else mret l).
Proof.
  intros IH Hf Hb F1 F2 F3 F4 pb0 pn. subst pb0 pn. rewrite !zlen_cons, !zlen_app in Hb. rewrite !length_app in Hf.
  pose proof (zlen_nonneg L). pose proof (zlen_nonneg G). pose proof (zlen_nonneg E1). pose proof (zlen_nonneg E2).
  destruct (vecswap_neighbours es _ pre (p :: E1) L (G ++ E2 ++ post) Hes eq_refl) as (P' & L' & -> & HP' & HL'). rewrite bind_Done_l.
  assert (zlen L' = zlen L /\ zlen P' = zlen (p :: E1)) as [EL EP] by (unfold zlen; by rewrite HL', HP').
  replace (zlen pre + zlen (p :: E1) + zlen L) with (zlen (pre ++ L' ++ P')) by (rewrite !zlen_app; lia).
  destruct (vecswap_neighbours es (pre ++ L' ++ P' ++ G ++ E2 ++ post) (pre ++ L' ++ P') G E2 post Hes) as (G' & E2' & -> & HG' & HE'); [by lnorm |].
  rewrite bind_Done_l. assert (zlen G' = zlen G /\ zlen E2' = zlen E2) as [EG EE] by (unfold zlen; by rewrite HG', HE'). lnorm.
  rewrite <- EL. destruct (part_ok fuel pre L' (P' ++ E2' ++ G' ++ post)) as (L'' & -> & HL'' & Hs1); [nia | apply IH; [zl | nia] |].
  rewrite bind_Done_l, <- EG. assert (zlen L'' = zlen L') as EL' by (unfold zlen; by rewrite HL'').
  replace (zlen (pre ++ L' ++ P') + zlen G' + zlen E2 - zlen G') with (zlen (pre ++ L'' ++ P' ++ E2')) by (rewrite !zlen_app; lia).
  replace (pre ++ L'' ++ P' ++ E2' ++ G' ++ post) with ((pre ++ L'' ++ P' ++ E2') ++ G' ++ post) by (by lnorm).
  destruct (part_ok fuel (pre ++ L'' ++ P' ++ E2') G' post) as (G'' & -> & HG'' & Hs2); [nia | apply IH; [zl | nia] |].
  exists (L'' ++ (P' ++ E2') ++ G''). split_and!; [by lnorm | rewrite HL'', HL', HP', HE', HG'', HG'; solve_Permutation |].
  intros Ho. apply (sorted_parts p); [done | by apply Hs1 | by apply Hs2 | by rewrite HL'', HL' | | by rewrite HG'', HG'].
  rewrite HP', HE'. apply Forall_app_2; [constructor; [| done] | done].
  destruct (or_sign _ Ho p p). lia.
Qed.

Lemma kqsort_loop_ok fuel : forall pre X post,
  (length X < fuel)%nat -> zlen X * es < 2 ^ 31 ->
  sorts_to pre X post (kqsort_loop cmp es fuel (pre ++ X ++ post) (zlen pre) (zlen X)).
Proof.
  induction fuel as [| fuel IH]; intros pre X post Hf Hb; [lia |]. cbn [kqsort_loop].
  destruct (Z.ltb_spec (zlen X) 7) as [| Hn]; [apply isort_ok |].
  destruct (pivot_ok (pre ++ X ++ post) (zlen pre) (zlen X)) as (pm & -> & Hpm); [done | done | zl | zl |]. rewrite bind_Done_l.
  destruct (lookup_lt_is_Some_2 X (Z.to_nat (pm - zlen pre))) as [p Hp]; [zl |].
  apply list_elem_of_split_length in Hp as (X1 & X2 & -> & HX1).
  destruct (swap_front (pre ++ (X1 ++ p :: X2) ++ post) (zlen pre) pm pre X1 p (X2 ++ post)) as (X1' & -> & HX1'); [by lnorm | done | zl |].
  rewrite bind_Done_l. set (n := zlen (X1 ++ p :: X2)) in *.
  assert (length X1' = length X1) as HL1 by (by rewrite HX1').
  destruct (partition_ok post p (Z.to_nat n) (X1' ++ X2) pre
      (Part (pre ++ p :: X1' ++ X2 ++ post) (zlen pre + 1) (zlen pre + 1) (zlen pre + (n - 1)) (zlen pre + (n - 1)) 0) [] [] [] [])
    as (s & E1 & L & G & E2 & -> & [Hl Ha Hpb Hpc Hpd F1 F2 F3 F4] & HP).
  { split; cbn [q_l pa pb pc pd app]; try done; try (subst n; zl). by lnorm. }
  { subst n. zl. }
  rewrite bind_Done_l. cbn [app] in HP, Hl. rewrite !app_nil_r in HP.
  assert (p :: E1 ++ L ++ G ++ E2 ≡ₚ X1 ++ p :: X2) as HPX by (rewrite HP, HX1'; solve_Permutation).
  assert (zlen L + zlen G + zlen (p :: E1) + zlen E2 = n) as Hsum.
  { subst n. unfold zlen. rewrite <- HPX. cbn. rewrite !length_app. lia. }
  pose proof (zlen_nonneg L). pose proof (zlen_nonneg G). pose proof (zlen_nonneg E2). pose proof (zlen_nonneg (p :: E1)).
  destruct (Z.eqb_spec (swap_cnt s) 0).
  { destruct (isort_ok pre (p :: E1 ++ L ++ G ++ E2) post) as (X' & E & Hp' & Hs).
    exists X'. split_and!; [| by rewrite Hp', HPX | done]. rewrite <- E, Hl. f_equal; [by lnorm | subst n; zl]. }
  destruct (kqsort_rest_ok fuel pre p E1 L G E2 post IH) as (X' & E & Hp' & Hs);
    [apply Permutation_length in HPX; zl | by rewrite (zlen_perm _ _ HPX) | done.. |].
  exists X'. split_and!; [| by rewrite Hp', HPX | done]. rewrite <- E. clear E. 
  replace (pa s - zlen pre) with (zlen (p :: E1)) by (rewrite zlen_cons; lia).
  replace (pb s - pa s) with (zlen L) by lia. replace (pd s - pc s) with (zlen G) by lia.
  replace (zlen pre + n - pd s - 1) with (zlen E2) by (rewrite zlen_cons in Hsum; zl).
  rewrite !(s32_id (Z.min _ _)) by (unfold is_s32; nia).
  replace (zlen pre + zlen (p :: E1) + zlen L) with (pb s) by (rewrite zlen_cons; lia).
  replace (pb s + zlen G + zlen E2) with (zlen pre + n) by (rewrite zlen_cons in Hsum; zl).
  rewrite (s32_id (zlen G * es)), elements_mul by (unfold is_s32; nia).
  cbn [app] in *. by rewrite Hl.
Qed.
End Sort.

(** ** kbsearch *)

Section Search.
Context {K A : Type} (compar : K -> A -> Z) (key : K) (l : list A).

(** The array is in order for the key: first the elements before it, then those
    that equal it, then those after it. *)
Definition searchable : Prop := StronglySorted (fun x y => Z.sgn (compar key y) <= Z.sgn (compar key x)) l.

(** Every element that equals the key is in the window. *)
Definition within_window (base lim : Z) : Prop :=
  forall i x, aget l i = Done x -> compar key x = 0 -> base <= i < base + lim.

Lemma searchable_lt i j x y :
  searchable -> aget l i = Done x -> aget l j = Done y -> i < j -> Z.sgn (compar key y) <= Z.sgn (compar key x).
Proof.
  unfold searchable. intros Hs [Hi Hx]%aget_Done [Hj Hy]%aget_Done Hij.
  apply list_elem_of_split_length in Hx as (B & C & E & HB). rewrite E in *.
  apply StronglySorted_app in Hs as (_ & _ & Hs). apply StronglySorted_inv in Hs as [_ Hs].
  rewrite lookup_app_r in Hy by lia. destruct (Z.to_nat j - length B)%nat eqn:Ej; [lia |]. cbn in Hy.
  rewrite Forall_forall in Hs. apply Hs. by eapply list_elem_of_lookup_2.
Qed.

Lemma kbsearch_loop_ok fuel : forall base lim,
  searchable -> 0 <= base -> 0 <= lim -> base + lim <= zlen l -> lim < 2 ^ Z.of_nat fuel -> within_window base lim ->
  exists r, kbsearch_loop compar key l fuel base lim = Done r /\
  match r with
  | Some p => exists x, aget l p = Done x /\ compar key x = 0
  | None => forall x, x ∈ l -> compar key x <> 0
  end.
Proof.
  induction fuel as [| fuel IH]; intros base lim Hs Hb Hl Hbl Hf Hw.
  - assert (lim = 0) as -> by (cbn in Hf; lia). exists None. split; [done |].
    intros x [i Hi]%list_elem_of_lookup Hx. specialize (Hw (Z.of_nat i) x). rewrite aget_Done, Nat2Z.id in Hw. destruct Hw; [split; [lia | done] | done | lia].
  - cbn [kbsearch_loop]. destruct (Z.eqb_spec lim 0) as [-> | Hne].
    { exists None. split; [done |]. intros x [i Hi]%list_elem_of_lookup Hx. specialize (Hw (Z.of_nat i) x).
      rewrite aget_Done, Nat2Z.id in Hw. destruct Hw; [split; [lia | done] | done | lia]. }
    rewrite !Z.shiftr_div_pow2 by lia. change (2 ^ 1) with 2.
    rewrite Nat2Z.inj_succ, Z.pow_succ_r in Hf by lia.
    assert (0 <= lim / 2 < lim /\ 2 * (lim / 2) <= lim <= 2 * (lim / 2) + 1 /\ 0 <= (lim - 1) / 2 /\ 2 * ((lim - 1) / 2) <= lim - 1 <= 2 * ((lim - 1) / 2) + 1) as Hd
      by (Z.div_mod_to_equations; lia).
    destruct (aget_in_bounds l (base + lim / 2)) as [x Hx]; [lia |]. rewrite Hx, bind_Done_l.
    destruct (Z.eqb_spec (compar key x) 0) as [H0 | H0]; [by exists (Some (base + lim / 2)); eauto |].
    destruct (Z.gtb_spec (compar key x) 0) as [Hgt | Hle]; apply IH; try lia; try done.
    + intros i y Hy Hz. specialize (Hw i y Hy Hz). destruct (Z.lt_trichotomy i (base + lim / 2)) as [Hlt | [-> | Hlt]]; [| congruence | lia].
      pose proof (searchable_lt _ _ _ _ Hs Hy Hx Hlt). lia.
    + intros i y Hy Hz. specialize (Hw i y Hy Hz). destruct (Z.lt_trichotomy i (base + lim / 2)) as [Hlt | [-> | Hlt]]; [lia | congruence |].
      pose proof (searchable_lt _ _ _ _ Hs Hx Hy Hlt). lia.
Qed.

(** More fuel does not change a result. *)
Lemma kbsearch_loop_fuel f : forall g base lim r, (f <= g)%nat ->
  kbsearch_loop compar key l f base lim = Done r -> kbsearch_loop compar key l g base lim = Done r.
Proof.
  induction f as [| f IH]; intros [| g] base lim r Hfg; try lia; cbn [kbsearch_loop]; destruct (lim =? 0); try done.
  intros (x & Hx & E)%bind_Done. rewrite Hx, bind_Done_l. cbv zeta in *. repeat case_match; eauto with lia.
Qed.

Lemma within_window_all : within_window 0 (zlen l).
Proof. intros i x Hx%aget_bounds _. lia. Qed.
End Search.

(** ** Results *)

(** C19: kqsort sorts: on an array of fewer than 2^31 bytes, with a comparison
    function that orders the elements, it comes back with the first n elements
    permuted into order, and leaves what follows them alone. *)
Theorem kqsort_correct {A} (cmp : A -> A -> Z) es X rest :
  0 < es -> zlen X * es < 2 ^ 31 -> orders cmp ->
  exists X', kqsort cmp es (X ++ rest) (zlen X) = Done (X' ++ rest) /\ X' ≡ₚ X /\ sorted cmp X'.
Proof.
  intros He Hb Ho. destruct (kqsort_loop_ok cmp es He (S (length X)) [] X rest) as (X' & E & Hp & Hs); [lia | done |].
  exists X'. unfold kqsort. replace (Z.to_nat (zlen X)) with (length X) by zl. naive_solver.
Qed.

(** kqsort with any comparison function, even one that does not order the
    elements: it ends, reads and writes inside the array only, and the result is a
    permutation of the array. *)
Theorem kqsort_any_comparison {A} (cmp : A -> A -> Z) es X rest :
  0 < es -> zlen X * es < 2 ^ 31 ->
  exists X', kqsort cmp es (X ++ rest) (zlen X) = Done (X' ++ rest) /\ X' ≡ₚ X.
Proof.
  intros He Hb. destruct (kqsort_loop_ok cmp es He (S (length X)) [] X rest) as (X' & E & Hp & Hs); [lia | done |].
  exists X'. unfold kqsort. replace (Z.to_nat (zlen X)) with (length X) by zl. naive_solver.
Qed.

(** kbsearch on an array that is in order for the key finds an element that
    equals the key if and only if there is one, and with at most k comparisons in
    an array of fewer than 2^k elements. *)
Theorem kbsearch_correct {K A} (compar : K -> A -> Z) key l k :
  searchable compar key l -> zlen l < 2 ^ Z.of_nat k ->
  exists r, kbsearch_loop compar key l k 0 (zlen l) = Done r /\ kbsearch compar key l (zlen l) = Done r /\
  match r with
  | Some p => exists x, aget l p = Done x /\ compar key x = 0
  | None => forall x, x ∈ l -> compar key x <> 0
  end.
Proof.
  intros Hs Hk. pose proof (zlen_nonneg l). set (g := Nat.max k (Z.to_nat (zlen l))).
  destruct (kbsearch_loop_ok compar key l k 0 (zlen l)) as (r & E & Hr); try done; try lia; [apply within_window_all |].
  destruct (kbsearch_loop_ok compar key l (Z.to_nat (zlen l)) 0 (zlen l)) as (r' & E' & _); try done; try lia.
  { rewrite Z2Nat.id by lia. apply Z.pow_gt_lin_r; lia. }
  { apply within_window_all. }
  exists r. unfold kbsearch. split_and!; [done | | done]. rewrite E'.
  apply (kbsearch_loop_fuel compar key l _ g) in E; [| lia]. apply (kbsearch_loop_fuel compar key l _ g) in E'; [| lia]. congruence.
Qed.

Lemma kqsort_correct_witness :
  exists X', kqsort Z.sub 8 ([3; 1; 2] ++ [0]) 3 = Done (X' ++ [0]) /\ X' ≡ₚ [3; 1; 2] /\ sorted Z.sub X'.
Proof. apply (kqsort_correct Z.sub 8 [3; 1; 2] [0]); [lia | vm_compute; reflexivity | split; lia]. Defined.

Lemma kqsort_any_comparison_witness :
  exists X', kqsort (fun _ _ => 1) 8 ([3; 1; 2] ++ [0]) 3 = Done (X' ++ [0]) /\ X' ≡ₚ [3; 1; 2].
Proof. apply (kqsort_any_comparison (fun _ _ => 1) 8 [3; 1; 2] [0]); [lia | vm_compute; reflexivity]. Defined.

Lemma kbsearch_correct_witness :
  exists r, kbsearch_loop Z.sub 5 [1; 3; 5; 7] 3 0 4 = Done r /\ kbsearch Z.sub 5 [1; 3; 5; 7] 4 = Done r /\ r = Some 2.
Proof.
  destruct (kbsearch_correct Z.sub 5 [1; 3; 5; 7] 3) as (r & E1 & E2 & _); [repeat constructor; lia | vm_compute; reflexivity |].
  exists r. split; [exact E1 |]. split; [exact E2 |]. vm_compute in E1. congruence.
Defined.

(** sorting and searching fit together: in an array that kqsort sorted,
    kbsearch with the same comparison function finds every key that the array
    had before, and no other. *)
Theorem kqsort_kbsearch {A} (cmp : A -> A -> Z) es X key :
  0 < es -> zlen X * es < 2 ^ 31 -> orders cmp ->
  exists X' r, kqsort cmp es X (zlen X) = Done X' /\ kbsearch cmp key X' (zlen X) = Done r /\
    (is_Some r <-> exists x, x ∈ X /\ cmp key x = 0).
Proof.
  intros He Hb Ho. destruct (kqsort_loop_ok cmp es He (S (length X)) [] X []) as (X' & E & Hp & Hs); [lia | done |].
  assert (searchable cmp key X') as Hsr.
  { specialize (Hs Ho). clear -Hs Ho. induction Hs as [| x X _ IH HF]; constructor; [done |].
    apply (Forall_impl _ _ _ HF). intros y Hxy.
    destruct (Z.lt_trichotomy (cmp key x) 0) as [Hc | [Hc | Hc]].
    - assert (cmp key y < 0); [| lia]. apply (or_sign _ Ho).
      destruct (Z.le_gt_cases (cmp y key) 0) as [Hyk |]; [| lia].
      assert (cmp x key <= 0) by (by eapply (or_trans _ Ho)). apply (or_sign _ Ho) in Hc. lia.
    - assert (cmp key y <= 0) by (eapply (or_trans _ Ho); [| done]; lia). lia.
    - lia. }
  destruct (kbsearch_loop_ok cmp key X' (length X) 0 (zlen X')) as (r & Er & Hr); try done; try (unfold zlen; lia).
  { rewrite <- (Permutation_length Hp). apply Z.pow_gt_lin_r; unfold zlen; lia. }
  { apply within_window_all. }
  exists X', r. unfold kqsort, kbsearch. cbn [app] in E. rewrite app_nil_r in E. rewrite app_nil_r in E.
  split_and!; [by replace (Z.to_nat (zlen X)) with (length X) by zl | |].
  - rewrite <- (zlen_perm _ _ Hp) at 2. rewrite <- Er. f_equal. zl.
  - destruct r as [p |].
    + split; [intros _ | by eauto]. destruct Hr as (x & [_ Hx]%aget_Done & Hc). exists x. split; [| done]. rewrite <- Hp. by eapply list_elem_of_lookup_2.
    + split; [by intros [] |]. intros (x & Hx & Hc). rewrite <- Hp in Hx. by destruct (Hr x Hx).
Qed.

Lemma kqsort_kbsearch_witness :
  exists X' r, kqsort Z.sub 8 [4; 2; 9] 3 = Done X' /\ kbsearch Z.sub 9 X' 3 = Done r /\ is_Some r.
Proof.
  destruct (kqsort_kbsearch Z.sub 8 [4; 2; 9] 9) as (X' & r & E1 & E2 & E3); [lia | vm_compute; reflexivity | split; lia |].
  exists X', r. split; [exact E1 |]. split; [exact E2 |]. apply E3. exists 9. split; [right; right; left | lia].
Defined.

(** The byte counts of the partition are ints: with elements of 2^29 bytes, the
    count for eight of them is 0, and the part with the smaller elements is left as
    it is. *)
Theorem kqsort_large_array_unsorted :
  kqsort Z.sub (2 ^ 29) [9; 0; 8; 7; 1; 10; 6; 2; 9; 5; 3; 4; 9] 13 =
  Done [5; 3; 8; 7; 1; 4; 6; 2; 0; 9; 9; 9; 10].
Proof. vm_compute. reflexivity. Qed.
