(* ===== verification/Quad.v ===== *)
(** * 64-bit arithmetic on 32-bit words: sys/libkern/quad.h, qdivrem.c, muldi3.c, ...

    On a machine with 32-bit longs the compiler calls these routines for
    arithmetic on quads.  They take a quad apart into two longs or four digits of
    16 bits.  The division is Knuth's algorithm D, the multiplication Karatsuba's.

    Signed quads are values in [-2^63, 2^63), unsigned ones in [0, 2^64); the
    union uu is a conversion between the two and the words.  A digit is an
    unsigned short.  The arrays of __qdivrem start with zeros where C leaves them
    unset; the code does not read those elements. *)

From stdpp Require Import prelude list.
From S2P Require Import Prelude.
Open Scope Z_scope.

Definition LONG_BITS : Z := 32.
Definition QUAD_BITS : Z := 64.
Definition HALF_BITS : Z := 16.

(** tmp.ul[H] and tmp.ul[L] of a quad, and the quad of two longs *)
Definition ulH (q : Z) : Z := Z.shiftr (u64 q) LONG_BITS.
Definition ulL (q : Z) : Z := u32 q.
Definition slH (q : Z) : Z := s32 (ulH q).
Definition uquad (h l : Z) : Z := h * 2 ^ 32 + l.
Definition quad (h l : Z) : Z := s64 (uquad h l).

Definition HHALF (x : Z) : Z := Z.shiftr x HALF_BITS.
Definition LHALF (x : Z) : Z := Z.land x (Z.shiftl 1 HALF_BITS - 1).
Definition LHUP (x : Z) : Z := u32 (Z.shiftl x HALF_BITS).

(** ** Division *)

Definition B : Z := Z.shiftl 1 HALF_BITS.
Definition COMBINE (a b : Z) : Z := Z.lor (u32 (Z.shiftl a HALF_BITS)) b.

(** The digits of a quad, the highest one first. *)
Definition digits (q : Z) : list Z := [HHALF (ulH q); LHALF (ulH q); HHALF (ulL q); LHALF (ulL q)].

(** tmp.q where tmp.ul[H] = COMBINE(q1, q2), tmp.ul[L] = COMBINE(q3, q4) *)
Definition undigits (q1 q2 q3 q4 : Z) : Z := uquad (COMBINE q1 q2) (COMBINE q3 q4).

(** shl(p, len, sh): the array and the index of p[0].  [k] elements are left
    before the last one. *)
Fixpoint shl_loop (a : list Z) (p : Z) (k : nat) (sh : Z) : outcome (list Z) :=
  match k with
  | O => x ← aget a p; aput a p (LHALF (Z.shiftl x sh))
  | S k =>
      x ← aget a p;
      y ← aget a (p + 1);
      a ← aput a p (Z.lor (LHALF (Z.shiftl x sh)) (Z.shiftr y (HALF_BITS - sh)));
      shl_loop a (p + 1) k sh
  end.

Definition shl (a : list Z) (p len sh : Z) : outcome (list Z) := shl_loop a p (Z.to_nat len) sh.

(** The four unrolled divisions for a divisor of one digit. *)
Definition qdivrem1 (u1 u2 u3 u4 t : Z) : outcome (Z * Z) :=
  if t =? 0 then Fault DivideByZero
  else
    let q1 := u1 / t in
    let rbj := COMBINE (u1 mod t) u2 in
    let q2 := rbj / t in
    let rbj := COMBINE (rbj mod t) u3 in
    let q3 := rbj / t in
    let rbj := COMBINE (rbj mod t) u4 in
    let q4 := rbj / t in
    mret (undigits (u16 q1) (u16 q2) (u16 q3) (u16 q4), rbj mod t).

(** for (n = 4; v[1] == 0; v++) if (--n == 1) ...: the position of v and n; n = 1
    where the code divides by v[2]. *)
Fixpoint skip_v (fuel : nat) (vs : list Z) (v n : Z) : outcome (Z * Z) :=
  x ← aget vs (v + 1);
  if x =? 0 then
    let n := n - 1 in
    if n =? 1 then mret (v, n)
    else match fuel with O => Fault OutOfFuel | S fuel => skip_v fuel vs (v + 1) n end
  else mret (v, n).

(** for (m = 4 - n; u[1] == 0; u++) m--; *)
Fixpoint skip_u (fuel : nat) (us : list Z) (u m : Z) : outcome (Z * Z) :=
  x ← aget us (u + 1);
  if x =? 0 then
    match fuel with O => Fault OutOfFuel | S fuel => skip_u fuel us (u + 1) (m - 1) end
  else mret (u, m).

(** for (t = v[1]; t < B / 2; t <<= 1) d++; *)
Fixpoint d1_shift (fuel : nat) (t d : Z) : outcome Z :=
  if t <? B / 2 then
    match fuel with O => Fault OutOfFuel | S fuel => d1_shift fuel (u32 (Z.shiftl t 1)) (d + 1) end
  else mret d.

(** qhat_too_big: and the while loop around it *)
Fixpoint d3_dec (fuel : nat) (v1 v2 uj2 qhat rhat : Z) : outcome Z :=
  match fuel with
  | O => Fault OutOfFuel
  | S fuel =>
      let qhat := u32 (qhat - 1) in
      let rhat := u32 (rhat + v1) in
      if rhat >=? B then mret qhat
      else if u32 (v2 * qhat) >? COMBINE rhat uj2
      then d3_dec fuel v1 v2 uj2 qhat rhat else mret qhat
  end.

(** D3: calculate qhat *)
Definition d3_qhat (v1 v2 uj0 uj1 uj2 : Z) : outcome Z :=
  if uj0 =? v1 then d3_dec 3 v1 v2 uj2 B uj1
  else
    let nn := COMBINE uj0 uj1 in
    if v1 =? 0 then Fault DivideByZero
    else
      let qhat := nn / v1 in
      let rhat := nn mod v1 in
      if u32 (v2 * qhat) >? COMBINE rhat uj2 then d3_dec 3 v1 v2 uj2 qhat rhat else mret qhat.

(** D4: multiply and subtract; u and v are positions, i counts down *)
Fixpoint d4_mulsub (us vs : list Z) (u v j qhat t : Z) (i : nat) : outcome (list Z * Z) :=
  match i with
  | O => mret (us, t)
  | S i' =>
      x ← aget us (u + Z.of_nat i + j);
      y ← aget vs (v + Z.of_nat i);
      let t := u32 (x - y * qhat - t) in
      us ← aput us (u + Z.of_nat i + j) (LHALF t);
      d4_mulsub us vs u v j qhat (Z.land (u32 (B - HHALF t)) (B - 1)) i'
  end.

(** D6: add back *)
Fixpoint d6_addback (us vs : list Z) (u v j t : Z) (i : nat) : outcome (list Z * Z) :=
  match i with
  | O => mret (us, t)
  | S i' =>
      x ← aget us (u + Z.of_nat i + j);
      y ← aget vs (v + Z.of_nat i);
      let t := u32 (t + (x + y)) in
      us ← aput us (u + Z.of_nat i + j) (LHALF t);
      d6_addback us vs u v j (HHALF t) i'
  end.

(** The body of the loop on j: the array u and the digit q[j]. *)
Definition d_step (us vs : list Z) (u v j n v1 v2 : Z) : outcome (list Z * Z) :=
  uj0 ← aget us (u + j);
  uj1 ← aget us (u + j + 1);
  uj2 ← aget us (u + j + 2);
  qhat ← d3_qhat v1 v2 uj0 uj1 uj2;
  '(us, t) ← d4_mulsub us vs u v j qhat 0 (Z.to_nat n);
  x ← aget us (u + j);
  let t := u32 (x - t) in
  us ← aput us (u + j) (LHALF t);
  if negb (HHALF t =? 0) then
    let qhat := u32 (qhat - 1) in
    '(us, t) ← d6_addback us vs u v j 0 (Z.to_nat n);
    x ← aget us (u + j);
    us ← aput us (u + j) (LHALF (u32 (x + t)));
    mret (us, u16 qhat)
  else mret (us, u16 qhat).

(** do { ... } while (++j <= m); q is the position of q[0]; [k] = m - j *)
Fixpoint d_loop (k : nat) (us vs qs : list Z) (u v q j n v1 v2 : Z) : outcome (list Z * list Z) :=
  '(us, qj) ← d_step us vs u v j n v1 v2;
  qs ← aput qs (q + j) qj;
  match k with
  | O => mret (us, qs)
  | S k => d_loop k us vs qs u v q (j + 1) n v1 v2
  end.

(** for (i = m + n; i > m; --i) u[i] = (u[i] >> d) | LHALF(u[i - 1] << (HALF_BITS - d));
    [k] = i - m *)
Fixpoint shr_loop (us : list Z) (u m d : Z) (k : nat) : outcome (list Z) :=
  match k with
  | O => aput us (u + m) 0
  | S k' =>
      let i := u + m + Z.of_nat k in
      x ← aget us i;
      y ← aget us (i - 1);
      us ← aput us i (Z.lor (Z.shiftr x d) (LHALF (Z.shiftl y (HALF_BITS - d))));
      shr_loop us u m d k'
  end.

(** for (i = 4 - m; --i >= 0;) q[i] = 0; *)
Fixpoint clear_q (qs : list Z) (k : nat) : outcome (list Z) :=
  match k with
  | O => mret qs
  | S k => qs ← aput qs (Z.of_nat k) 0; clear_q qs k
  end.

(** tmp.ul[H] = COMBINE(a[1], a[2]); tmp.ul[L] = COMBINE(a[3], a[4]); *)
Definition collect (a : list Z) : outcome Z :=
  a1 ← aget a 1; a2 ← aget a 2; a3 ← aget a 3; a4 ← aget a 4; mret (undigits a1 a2 a3 a4).

(** Algorithm D, for a divisor of n digits; the quotient and the remainder. *)
Definition program_d (us vs : list Z) (v n : Z) : outcome (Z * Z) :=
  '(u, m) ← skip_u 4 us 0 (4 - n);
  qs ← clear_q [0; 0; 0; 0; 0] (Z.to_nat (4 - m));
  let q := 4 - m in
  t ← aget vs (v + 1);
  d ← d1_shift 16 t 0;
  '(us, vs) ←
    (if d >? 0 then
       us ← shl us u (m + n) d;
       vs ← shl vs (v + 1) (n - 1) d;
       mret (us, vs)
     else mret (us, vs));
  v1 ← aget vs (v + 1);
  v2 ← aget vs (v + 2);
  '(us, qs) ← d_loop (Z.to_nat m) us vs qs u v q 0 n v1 v2;
  us ← (if negb (d =? 0) then shr_loop us u m d (Z.to_nat n) else mret us);
  r ← collect us;
  q ← collect qs;
  mret (q, r).

(** __qdivrem(uq, vq, &rem): the quotient and the remainder *)
Definition qdivrem (uq vq : Z) : outcome (Z * Z) :=
  if vq =? 0 then Fault DivideByZero
  else if uq <? vq then mret (0, uq)
  else
    let us := 0 :: digits uq in
    let vs := 0 :: digits vq in
    '(v, n) ← skip_v 4 vs 0 4;
    if n =? 1 then
      t ← aget vs (v + 2);
      u1 ← aget us 1; u2 ← aget us 2; u3 ← aget us 3; u4 ← aget us 4;
      qdivrem1 u1 u2 u3 u4 t
    else program_d us vs v n.

Definition udivdi3 (a b : Z) : outcome Z := p ← qdivrem a b; mret p.1.
Definition umoddi3 (a b : Z) : outcome Z := p ← qdivrem a b; mret p.2.

Definition divdi3 (a b : Z) : outcome Z :=
  let '(ua, neg) := if a <? 0 then (u64 (- u64 a), true) else (a, false) in
  let '(ub, neg) := if b <? 0 then (u64 (- u64 b), negb neg) else (b, neg) in
  p ← qdivrem ua ub;
  mret (s64 (if neg then u64 (- p.1) else p.1)).

Definition moddi3 (a b : Z) : outcome Z :=
  let '(ua, neg) := if a <? 0 then (u64 (- u64 a), true) else (a, false) in
  let ub := if b <? 0 then u64 (- u64 b) else b in
  p ← qdivrem ua ub;
  mret (s64 (if neg : bool then u64 (- p.2) else p.2)).

(** ** Multiplication *)

Definition lmulq (u v : Z) : Z :=
  let u1 := HHALF u in let u0 := LHALF u in
  let v1 := HHALF v in let v0 := LHALF v in
  let low := u32 (u0 * v0) in
  if (u1 =? 0) && (v1 =? 0) then low
  else
    let '(udiff, neg) := if u1 >=? u0 then (u32 (u1 - u0), false) else (u32 (u0 - u1), true) in
    let '(vdiff, neg) := if v0 >=? v1 then (u32 (v0 - v1), neg) else (u32 (v1 - v0), negb neg) in
    let mid := u32 (udiff * vdiff) in
    let high := u32 (u1 * v1) in
    let prodh := u32 (high + HHALF high) in
    let prodl := LHUP high in
    let '(prodh, prodl) :=
      if neg then
        let was := prodl in
        let prodl := u32 (prodl - LHUP mid) in
        (u32 (prodh - (HHALF mid + Z.b2z (prodl >? was))), prodl)
      else
        let was := prodl in
        let prodl := u32 (prodl + LHUP mid) in
        (u32 (prodh + (HHALF mid + Z.b2z (prodl <? was))), prodl) in
    let was := prodl in
    let prodl := u32 (prodl + LHUP low) in
    let prodh := u32 (prodh + (HHALF low + Z.b2z (prodl <? was))) in
    let prodl := u32 (prodl + low) in
    let prodh := if prodl <? low then u32 (prodh + 1) else prodh in
    uquad prodh prodl.

(** [negq] is the negation of a quad: u.q = -a *)
Definition negq (q : Z) : Z := s64 (- q).

Definition muldi3 (a b : Z) : Z :=
  let '(u, negall) := if a >=? 0 then (a, false) else (negq a, true) in
  let '(v, negall) := if b >=? 0 then (b, negall) else (negq b, negb negall) in
  let u1 := ulH u in let u0 := ulL u in
  let v1 := ulH v in let v0 := ulL v in
  let prod :=
    if (u1 =? 0) && (v1 =? 0) then s64 (lmulq u0 v0)
    else
      let low := lmulq u0 v0 in
      let '(udiff, negmid) := if u1 >=? u0 then (u32 (u1 - u0), false) else (u32 (u0 - u1), true) in
      let '(vdiff, negmid) := if v0 >=? v1 then (u32 (v0 - v1), negmid) else (u32 (v1 - v0), negb negmid) in
      let mid := u32 (udiff * vdiff) in
      let high := u32 (u1 * v1) in
      quad (u32 (high + (if negmid : bool then u32 (- mid) else mid) + ulL low + ulH low)) (ulL low) in
  if negall : bool then negq prod else prod.

(** ** The rest *)

Definition adddi3 (a b : Z) : Z :=
  let l := u32 (ulL a + ulL b) in
  quad (u32 (ulH a + ulH b + Z.b2z (l <? ulL b))) l.

Definition subdi3 (a b : Z) : Z :=
  let l := u32 (ulL a - ulL b) in
  quad (u32 (ulH a - ulH b - Z.b2z (l >? ulL a))) l.

Definition negdi2 (a : Z) : Z :=
  let l := u32 (- ulL a) in
  quad (u32 (- ulH a - Z.b2z (l >? 0))) l.

Definition ashldi3 (a shift : Z) : Z :=
  if shift >=? LONG_BITS then
    quad (if shift >=? QUAD_BITS then 0 else u32 (Z.shiftl (ulL a) (shift - LONG_BITS))) 0
  else if shift >? 0 then
    quad (Z.lor (u32 (Z.shiftl (ulH a) shift)) (Z.shiftr (ulL a) (LONG_BITS - shift)))
      (u32 (Z.shiftl (ulL a) shift))
  else a.

Definition lshldi3 (a shift : Z) : Z :=
  if shift >=? LONG_BITS then
    quad (if shift >=? QUAD_BITS then 0 else u32 (Z.shiftl (ulL a) (shift - LONG_BITS))) 0
  else if shift >? 0 then
    quad (Z.lor (u32 (Z.shiftl (ulH a) shift)) (Z.shiftr (ulL a) (LONG_BITS - shift)))
      (u32 (Z.shiftl (ulL a) shift))
  else a.

Definition lshrdi3 (a shift : Z) : Z :=
  if shift >=? LONG_BITS then
    quad 0 (if shift >=? QUAD_BITS then 0 else Z.shiftr (ulH a) (shift - LONG_BITS))
  else if shift >? 0 then
    quad (Z.shiftr (ulH a) shift)
      (Z.lor (Z.shiftr (ulL a) shift) (u32 (Z.shiftl (ulH a) (LONG_BITS - shift))))
  else a.

Definition ashrdi3 (a shift : Z) : Z :=
  if shift >=? LONG_BITS then
    let s := Z.shiftr (Z.shiftr (slH a) (LONG_BITS - 1)) 1 in
    quad (u32 s) (u32 (if shift >=? QUAD_BITS then s else Z.shiftr (slH a) (shift - LONG_BITS)))
  else if shift >? 0 then
    quad (u32 (Z.shiftr (slH a) shift))
      (Z.lor (Z.shiftr (ulL a) shift) (u32 (Z.shiftl (ulH a) (LONG_BITS - shift))))
  else a.

Definition cmpdi2 (a b : Z) : Z :=
  if slH a <? slH b then 0 else if slH a >? slH b then 2
  else if ulL a <? ulL b then 0 else if ulL a >? ulL b then 2 else 1.

Definition ucmpdi2 (a b : Z) : Z :=
  if ulH a <? ulH b then 0 else if ulH a >? ulH b then 2
  else if ulL a <? ulL b then 0 else if ulL a >? ulL b then 2 else 1.

Example qdivrem_big : qdivrem (2 ^ 64 - 1) (2 ^ 35 + 12345) = Done ((2 ^ 64 - 1) / (2 ^ 35 + 12345), (2 ^ 64 - 1) mod (2 ^ 35 + 12345)).
Proof. vm_compute. reflexivity. Qed.
Example qdivrem_addback : qdivrem 0x7fff800100000000 0x800080020005 = Done (0x7fff800100000000 / 0x800080020005, 0x7fff800100000000 mod 0x800080020005).
Proof. vm_compute. reflexivity. Qed.
Example muldi3_neg : muldi3 (-1234567890123) 9876543210987 = s64 (-1234567890123 * 9876543210987).
Proof. vm_compute. reflexivity. Qed.
Example ashrdi3_neg : ashrdi3 (-1234567890123) 37 = Z.shiftr (-1234567890123) 37.
Proof. vm_compute. reflexivity. Qed.
