(* ===== verification/QuadDiv.v ===== *)
(** * 64-bit division: the parts of algorithm D

    Numbers are lists of digits in base B, the highest digit first.  Each loop of
    __qdivrem is shown to do to the numbers what algorithm D says. *)

From stdpp Require Import prelude list.
From S2P Require Import Prelude.
From S2P Require Import Quad.
Open Scope Z_scope.

Lemma B_eq : B = 65536.
Proof. reflexivity. Qed.

Lemma HHALF_eq x : HHALF x = x / B.
Proof. unfold HHALF. by rewrite Z.shiftr_div_pow2. Qed.

Lemma LHALF_eq x : LHALF x = x mod B.
Proof. unfold LHALF. change (Z.shiftl 1 HALF_BITS - 1) with (Z.ones 16). by rewrite Z.land_ones. Qed.

Lemma COMBINE_eq a b : 0 <= a < B -> 0 <= b < B -> COMBINE a b = a * B + b.
Proof.
  intros Ha Hb. unfold COMBINE. rewrite B_eq in *. rewrite Z.shiftl_mul_pow2 by done.
  rewrite u32_id by (unfold is_u32, HALF_BITS; lia). by apply (lor_add 16).
Qed.

Definition digit (x : Z) : Prop := 0 <= x < B.

Lemma digit_mod x : digit (x mod B).
Proof. apply Z.mod_pos_bound. done. Qed.

Lemma digit_LHALF x : digit (LHALF x).
Proof. rewrite LHALF_eq. apply digit_mod. Qed.

Lemma u16_digit x : digit x -> u16 x = x.
Proof. intros. by apply Z.mod_small. Qed.

(** ** The value of a list of digits *)

Definition val (l : list Z) : Z := fold_left (fun a d => a * B + d) l 0.

(** The value of l digits is below this. *)
Definition bound (l : list Z) : Z := B ^ zlen l.

Lemma fold_val l : forall a, fold_left (fun a d => a * B + d) l a = a * bound l + val l.
Proof.
  unfold bound, val. induction l as [| d l IH] using rev_ind; intros a; [change (B ^ zlen []) with 1; cbn [fold_left]; lia |].
  rewrite !fold_left_app. cbn [fold_left]. rewrite (IH a), zlen_app, Z.pow_add_r by (unfold zlen; lia).
  change (B ^ zlen [d]) with B. lia.
Qed.

Lemma val_app l k : val (l ++ k) = val l * bound k + val k.
Proof. unfold val at 1. rewrite fold_left_app. apply fold_val. Qed.

Lemma bound_app l k : bound (l ++ k) = bound l * bound k.
Proof. unfold bound. rewrite zlen_app, Z.pow_add_r; [done | unfold zlen; lia ..]. Qed.

Lemma bound_cons x l : bound (x :: l) = B * bound l.
Proof. change (x :: l) with ([x] ++ l). rewrite bound_app. done. Qed.

Lemma bound_pos l : 0 < bound l.
Proof. apply Z.pow_pos_nonneg; [done | apply zlen_nonneg]. Qed.

Lemma bound_length l k : length l = length k -> bound l = bound k.
Proof. unfold bound, zlen. by intros ->. Qed.

Lemma val_cons x l : val (x :: l) = x * bound l + val l.
Proof. apply (val_app [x]). Qed.

Lemma val_snoc l x : val (l ++ [x]) = val l * B + x.
Proof. apply (val_app l [x]). Qed.

Lemma val_range l : Forall digit l -> 0 <= val l < bound l.
Proof.
  induction 1 as [| x l Hx _ IH]; [done |]. rewrite val_cons, bound_cons. unfold digit in Hx. nia.
Qed.

Lemma val_zeros k : val (replicate k 0) = 0.
Proof. induction k as [| k IH]; [done |]. cbn [replicate]. rewrite val_cons, IH. lia. Qed.

(** Two numbers of the same length with the same value have the same digits. *)
Lemma val_zero_inv l : Forall digit l -> val l = 0 -> l = replicate (length l) 0.
Proof.
  induction 1 as [| x l Hx Hl IH]; [done |]. rewrite val_cons. intros E. pose proof (val_range l Hl). pose proof (bound_pos l).
  unfold digit in Hx. assert (x = 0) as -> by nia. cbn. f_equal. apply IH. lia.
Qed.

(** ** D4 and D6 *)

Lemma borrow x y qhat t :
  digit x -> digit y -> 0 <= qhat < B -> digit t ->
  let r := u32 (x - y * qhat - t) in
  let t' := Z.land (u32 (B - HHALF r)) (B - 1) in
  digit t' /\ x - y * qhat - t = LHALF r - t' * B.
Proof.
  intros Hx Hy Hq Ht r t'. unfold digit in *. subst t' r. rewrite LHALF_eq, HHALF_eq.
  set (s := x - y * qhat - t). change (B - 1) with (Z.ones 16). rewrite Z.land_ones by done. change (2 ^ 16) with B.
  set (k := - (s / B)). assert (- (B * B) < s < B) as Hs by nia.
  assert (s = - k * B + s mod B) as Es by (pose proof (Z.div_mod s B ltac:(done)); subst k; lia).
  assert (0 <= k < B) as Hk.
  { subst k. assert (- B <= s / B) by (apply Z.div_le_lower_bound; [done | lia]).
    assert (s / B < 1) by (apply Z.div_lt_upper_bound; [done | lia]).
    pose proof (Z.mod_pos_bound s B ltac:(done)). destruct (Z.eq_dec (s / B) (- B)) as [E |]; [| lia].
    exfalso. assert (- (B - 1) * (B - 1) - (B - 1) <= s) by nia. pose proof (Z.div_mod s B ltac:(done)). nia. }
  assert (u32 s mod B = s mod B) as E1.
  { unfold u32. change (2 ^ 32) with (B * B). rewrite Z.rem_mul_r by done. rewrite Z.mul_comm, Z_mod_plus_full, Z.mod_mod; done. }
  assert (u32 s / B = (- k) mod B) as E2.
  { unfold u32. change (2 ^ 32) with (B * B). rewrite Z.rem_mul_r by done.
    rewrite Z.mul_comm, Z.div_add by done. rewrite (Z.div_small (s mod B)) by (apply Z.mod_pos_bound; done). subst k. rewrite Z.opp_involutive. lia. }
  rewrite E1, E2. assert (u32 (B - (- k) mod B) mod B = k) as ->; [| split; [done | lia]].
  rewrite u32_id by (pose proof (Z.mod_pos_bound (- k) B ltac:(done)); unfold is_u32; rewrite B_eq in *; lia).
  rewrite Zminus_mod_idemp_r. replace (B - - k) with (k + 1 * B) by lia. rewrite Z_mod_plus_full. by apply Z.mod_small.
Qed.

Lemma d4_mulsub_ok vs v C X : forall us u j qhat t A D Y E,
  us = A ++ X ++ D -> vs = C ++ Y ++ E -> length X = length Y -> Forall digit X -> Forall digit Y ->
  zlen A = u + j + 1 -> zlen C = v + 1 -> 0 <= qhat < B -> digit t ->
  exists X' t', d4_mulsub us vs u v j qhat t (length X) = Done (A ++ X' ++ D, t') /\
    length X' = length X /\ Forall digit X' /\ digit t' /\
    val X' - t' * bound X = val X - qhat * val Y - t.
Proof.
  induction X as [| x X IH] using rev_ind; intros us u j qhat t A D Y E -> Hvs HL HX HY HA HC Hq Ht.
  - destruct Y; [| done]. exists [], t. split_and!; try done. change (bound []) with 1. change (val []) with 0. lia.
  - destruct Y as [| y Y _] using rev_ind; [rewrite length_app in HL; cbn in HL; lia |].
    rewrite !length_app in HL. cbn in HL. rewrite length_app, Nat.add_1_r. cbn [d4_mulsub].
    apply Forall_app in HX as [HX [Hx _]%Forall_cons]. apply Forall_app in HY as [HY [Hy _]%Forall_cons].
    rewrite (aget_at (A ++ (X ++ [x]) ++ D) _ (A ++ X) x D), bind_Done_l by (by lnorm || zl).
    rewrite (aget_at vs _ (C ++ Y) y E), bind_Done_l by ((rewrite Hvs; by lnorm) || zl).
    destruct (borrow x y qhat t Hx Hy Hq Ht) as [Ht1 E1]. cbv zeta. set (r := u32 (x - y * qhat - t)) in *. set (t1 := Z.land (u32 (B - HHALF r)) (B - 1)) in *.
    rewrite (aput_at (A ++ (X ++ [x]) ++ D) _ (LHALF r) (A ++ X) x D), bind_Done_l by (by lnorm || zl). rewrite <- app_assoc. cbn [app].
    destruct (IH (A ++ X ++ LHALF r :: D) u j qhat t1 A (LHALF r :: D) Y (y :: E)) as (X' & t' & -> & HL' & HX' & Ht' & Ev); try done; [rewrite Hvs; by lnorm | lia |].
    exists (X' ++ [LHALF r]), t'. split_and!; [by lnorm | rewrite !length_app; cbn; lia | | done |].
    { apply Forall_app_2; [done |]. constructor; [apply digit_LHALF | done]. }
    rewrite !val_snoc, bound_app. change (bound [x]) with B. nia.
Qed.

Lemma carry x y t : digit x -> digit y -> 0 <= t <= 1 ->
  let r := u32 (t + (x + y)) in 0 <= HHALF r <= 1 /\ x + y + t = LHALF r + HHALF r * B.
Proof.
  intros Hx Hy Ht r. subst r. unfold digit in *. rewrite LHALF_eq, HHALF_eq.
  rewrite u32_id by (unfold is_u32; rewrite B_eq in *; lia).
  pose proof (Z.div_mod (t + (x + y)) B ltac:(done)). split; [| lia].
  split; [apply Z.div_pos; [lia | done] |]. assert ((t + (x + y)) / B < 2); [| lia]. apply Z.div_lt_upper_bound; [done | lia].
Qed.

Lemma d6_addback_ok vs v C X : forall us u j t A D Y E,
  us = A ++ X ++ D -> vs = C ++ Y ++ E -> length X = length Y -> Forall digit X -> Forall digit Y ->
  zlen A = u + j + 1 -> zlen C = v + 1 -> 0 <= t <= 1 ->
  exists X' t', d6_addback us vs u v j t (length X) = Done (A ++ X' ++ D, t') /\
    length X' = length X /\ Forall digit X' /\ 0 <= t' <= 1 /\
    val X' + t' * bound X = val X + val Y + t.
Proof.
  induction X as [| x X IH] using rev_ind; intros us u j t A D Y E -> Hvs HL HX HY HA HC Ht.
  - destruct Y; [| done]. exists [], t. split_and!; try done; try lia. change (bound []) with 1. change (val []) with 0. lia.
  - destruct Y as [| y Y _] using rev_ind; [rewrite length_app in HL; cbn in HL; lia |].
    rewrite !length_app in HL. cbn in HL. rewrite length_app, Nat.add_1_r. cbn [d6_addback].
    apply Forall_app in HX as [HX [Hx _]%Forall_cons]. apply Forall_app in HY as [HY [Hy _]%Forall_cons].
    rewrite (aget_at (A ++ (X ++ [x]) ++ D) _ (A ++ X) x D), bind_Done_l by (by lnorm || zl).
    rewrite (aget_at vs _ (C ++ Y) y E), bind_Done_l by ((rewrite Hvs; by lnorm) || zl).
    destruct (carry x y t Hx Hy Ht) as [Ht1 E1]. cbv zeta. set (r := u32 (t + (x + y))) in *.
    rewrite (aput_at (A ++ (X ++ [x]) ++ D) _ (LHALF r) (A ++ X) x D), bind_Done_l by (by lnorm || zl). rewrite <- app_assoc. cbn [app].
    destruct (IH (A ++ X ++ LHALF r :: D) u j (HHALF r) A (LHALF r :: D) Y (y :: E)) as (X' & t' & -> & HL' & HX' & Ht' & Ev); try done; [rewrite Hvs; by lnorm | lia |].
    exists (X' ++ [LHALF r]), t'. split_and!; [by lnorm | rewrite !length_app; cbn; lia | | lia | lia |].
    { apply Forall_app_2; [done |]. constructor; [apply digit_LHALF | done]. }
    rewrite !val_snoc, bound_app. change (bound [x]) with B. nia.
Qed.

(** ** D3 *)

Section D3.
Context (v1 v2 uj0 uj1 uj2 b vr ur : Z).
Hypotheses (Hv1 : 32768 <= v1 < B) (Hv2 : digit v2) (H0 : digit uj0) (H1 : digit uj1) (H2 : digit uj2).
Hypotheses (Hb : 0 < b) (Hvr : 0 <= vr < b) (Hur : 0 <= ur < b).
Let V := (v1 * B + v2) * b + vr.
Let N := uj0 * B + uj1.
Let U := (N * B + uj2) * b + ur.
Hypothesis HUV : U < V * B.

Lemma V_pos : 0 < V.
Proof. unfold digit in *. subst V. rewrite B_eq in *. nia. Qed.

Lemma d3_too_big qhat : 0 <= qhat -> N * B + uj2 < qhat * (v1 * B + v2) -> U / V < qhat.
Proof.
  pose proof V_pos. intros Hq Hlt. unfold digit in *. rewrite B_eq in *. apply Z.div_lt_upper_bound; [done |]. subst U V. rewrite ?B_eq in *.
  assert ((N * 65536 + uj2 + 1) * b <= qhat * (v1 * 65536 + v2) * b) by (apply Z.mul_le_mono_nonneg_r; lia).
  pose proof (Z.mul_nonneg_nonneg qhat vr Hq ltac:(lia)). lia.
Qed.

Lemma d3_close qhat : 0 <= qhat <= B -> qhat * (v1 * B + v2) <= N * B + uj2 -> qhat <= U / V + 1.
Proof.
  pose proof V_pos. intros Hq Hle. unfold digit in *. rewrite B_eq in *.
  assert (qhat - 1 <= U / V); [| lia]. apply Z.div_le_lower_bound; [done |]. subst U V. rewrite ?B_eq in *.
  assert (qhat * (v1 * 65536 + v2) * b <= (N * 65536 + uj2) * b) by (apply Z.mul_le_mono_nonneg_r; lia).
  assert (qhat * vr <= 65536 * b) by (apply Z.mul_le_mono_nonneg; lia).
  assert (65536 * b <= (v1 * 65536 + v2) * b) by (apply Z.mul_le_mono_nonneg_r; lia). lia.
Qed.

Lemma quotient_digit : 0 <= U / V < B.
Proof.
  pose proof V_pos. unfold digit in *. split.
  - apply Z.div_pos; [subst U V N; rewrite B_eq in *; nia | done].
  - apply Z.div_lt_upper_bound; [done | lia].
Qed.

Lemma d3_dec_ok fuel : forall qhat rhat,
  qhat * v1 + rhat = N -> qhat <= B -> U / V < qhat -> 0 <= rhat < B -> B <= rhat + Z.of_nat fuel * v1 ->
  exists qh, d3_dec fuel v1 v2 uj2 qhat rhat = Done qh /\ U / V <= qh <= U / V + 1 /\ 0 <= qh < B.
Proof.
  pose proof quotient_digit as Hqd.
  induction fuel as [| fuel IH]; intros qhat rhat HN HqB Hlt Hr Hf; [lia |]. cbn [d3_dec]. unfold digit in *.
  rewrite (u32_id (qhat - 1)), (u32_id (rhat + v1)) by (unfold is_u32; rewrite B_eq in *; lia).
  destruct (Z.geb_spec (rhat + v1) B) as [Hge | Hlt'].
  - exists (qhat - 1). split; [done |]. split; [split; [lia |] | lia]. apply d3_close; [lia |].
    assert ((qhat - 1) * v2 <= B * B) by nia. nia.
  - rewrite u32_id by (unfold is_u32; change (2 ^ 32) with (B * B); nia). rewrite COMBINE_eq by lia.
    destruct (Z.gtb_spec (v2 * (qhat - 1)) ((rhat + v1) * B + uj2)) as [Hgt | Hle].
    + apply IH; try lia. apply d3_too_big; [lia |]. nia.
    + exists (qhat - 1). split; [done |]. split; [split; [lia |] | lia]. apply d3_close; [lia |]. nia.
Qed.

Lemma d3_qhat_ok : exists qh, d3_qhat v1 v2 uj0 uj1 uj2 = Done qh /\ U / V <= qh <= U / V + 1 /\ 0 <= qh < B.
Proof.
  pose proof quotient_digit as Hqd. pose proof V_pos as HV. unfold d3_qhat. unfold digit in *.
  destruct (Z.eqb_spec uj0 v1) as [E |].
  - apply d3_dec_ok; try lia; try (subst N; lia); rewrite B_eq in *; lia.
  - rewrite COMBINE_eq by lia. fold N. destruct (Z.eqb_spec v1 0); [lia |].
    assert (uj0 < v1) as Hu.
    { destruct (Z.lt_ge_cases uj0 v1); [done | exfalso]. subst U V N. rewrite B_eq in *.
      assert ((v1 + 1) * (65536 * 65536 * b) <= uj0 * (65536 * 65536 * b)) by (apply Z.mul_le_mono_nonneg_r; lia).
      assert (v2 * b <= 65535 * b) by (apply Z.mul_le_mono_nonneg_r; lia).
      pose proof (Z.mul_nonneg_nonneg uj1 b ltac:(lia) ltac:(lia)). pose proof (Z.mul_nonneg_nonneg uj2 b ltac:(lia) ltac:(lia)). lia. }
    pose proof (Z.div_mod N v1 ltac:(lia)) as Edm. pose proof (Z.mod_pos_bound N v1 ltac:(lia)) as Hm.
    assert (0 <= N / v1 < B) as Hq.
    { split; [apply Z.div_pos; subst N; rewrite B_eq in *; lia |]. apply Z.div_lt_upper_bound; [lia |]. subst N. nia. }
    assert (U / V <= N / v1) as Hge.
    { destruct (Z.le_gt_cases (U / V) (N / v1)); [done | exfalso].
      assert (N + 1 <= (U / V) * v1) by nia.
      assert (U < U / V * V) as Hbad; [| pose proof (Z.mul_div_le U V HV); lia].
      assert ((N + 1) * (B * b) <= U / V * v1 * (B * b)) by (apply Z.mul_le_mono_nonneg_r; rewrite B_eq in *; lia).
      assert (U < (N + 1) * (B * b)) by (subst U; rewrite B_eq in *; nia).
      assert (v1 * (B * b) <= V) by (subst V; rewrite B_eq in *; nia). nia. }
    rewrite u32_id by (unfold is_u32; change (2 ^ 32) with (B * B); nia). rewrite COMBINE_eq by lia.
    destruct (Z.gtb_spec (v2 * (N / v1)) (N mod v1 * B + uj2)) as [Hgt | Hle].
    + apply d3_dec_ok; try lia; [apply d3_too_big; [lia |]; nia | rewrite B_eq in *; lia].
    + exists (N / v1). split; [done |]. split; [split; [lia |] | lia]. apply d3_close; [lia |]. nia.
Qed.
End D3.

(** ** One step, and the loop on j *)

(** A number cut behind its first digits. *)
Lemma val_top3 x0 x1 x2 X : val (x0 :: x1 :: x2 :: X) = ((x0 * B + x1) * B + x2) * bound X + val X.
Proof. rewrite !val_cons, !bound_cons. lia. Qed.

Lemma val_top2 y1 y2 Y : val (y1 :: y2 :: Y) = (y1 * B + y2) * bound Y + val Y.
Proof. rewrite !val_cons, !bound_cons. lia. Qed.

Section Step.
Context (vs C Y E : list Z) (v v1 v2 : Z).
Hypotheses (Hvs : vs = C ++ (v1 :: v2 :: Y) ++ E) (HC : zlen C = v + 1).
Hypotheses (HY : Forall digit (v1 :: v2 :: Y)) (Hnorm : 32768 <= v1).
Let V := val (v1 :: v2 :: Y).
Let n := zlen (v1 :: v2 :: Y).

Lemma d_step_ok us u j A x0 X D :
  us = A ++ (x0 :: X) ++ D -> zlen A = u + j -> zlen X = n -> Forall digit (x0 :: X) ->
  val (x0 :: X) < V * B ->
  exists X', d_step us vs u v j n v1 v2 = Done (A ++ (0 :: X') ++ D, val (x0 :: X) / V) /\
    zlen X' = n /\ Forall digit X' /\ val X' = val (x0 :: X) mod V /\ digit (val (x0 :: X) / V).
Proof.
  intros Hus HA HX Hd HU. destruct X as [| x1 [| x2 X]]; [unfold n, zlen in HX; cbn in HX; lia .. |].
  assert (length X = length Y) as HL by (subst n; zl). set (U := val (x0 :: x1 :: x2 :: X)) in *.
  apply Forall_cons in Hd as [H0 Hd]. pose proof Hd as [H1 [H2 HdX]%Forall_cons]%Forall_cons.
  pose proof HY as [Hv1 [Hv2 HdY]%Forall_cons]%Forall_cons.
  pose proof (val_range X HdX) as RX. pose proof (val_range Y HdY) as RY. rewrite <- (bound_length X Y HL) in RY.
  assert (V = (v1 * B + v2) * bound X + val Y) as EV by (subst V; rewrite val_top2, (bound_length X Y HL); done).
  assert (U = ((x0 * B + x1) * B + x2) * bound X + val X) as EU by apply val_top3.
  destruct (d3_qhat_ok v1 v2 x0 x1 x2 (bound X) (val Y) (val X)) as (qh & Eq & Hq & HqB); try done;
    [unfold digit in Hv1; lia | apply bound_pos | by rewrite <- EV, <- EU |].
  pose proof (quotient_digit v1 v2 x0 x1 x2 (bound X) (val Y) (val X)) as Hdig. rewrite <- EV, <- EU in *.
  specialize (Hdig ltac:(unfold digit in *; lia) Hv2 H0 H1 H2 (bound_pos X) RY RX HU).
  assert (0 < V) as HVpos by (rewrite EV; unfold digit in *; rewrite B_eq; pose proof (bound_pos X); nia).
  pose proof (Z.div_mod U V ltac:(lia)) as Edm. pose proof (Z.mod_pos_bound U V HVpos) as Hm.
  pose proof (val_range _ HY) as HVb. fold V in HVb. set (XX := x1 :: x2 :: X) in *.
  assert (bound (v1 :: v2 :: Y) = bound XX) as EbV by (apply bound_length; subst XX; cbn; lia). rewrite EbV in HVb.
  assert (U = x0 * bound XX + val XX) as EU2 by apply val_cons.
  unfold d_step. rewrite (aget_at us (u + j) A x0 (XX ++ D)), bind_Done_l by (done || zl).
  rewrite (aget_at us (u + j + 1) (A ++ [x0]) x1 (x2 :: X ++ D)), bind_Done_l by ((rewrite Hus; by lnorm) || zl).
  rewrite (aget_at us (u + j + 2) (A ++ [x0; x1]) x2 (X ++ D)), bind_Done_l by ((rewrite Hus; by lnorm) || zl).
  rewrite Eq, bind_Done_l. replace (Z.to_nat n) with (length XX) by (subst XX n; zl).
  destruct (d4_mulsub_ok vs v C XX us u j qh 0 (A ++ [x0]) D (v1 :: v2 :: Y) E) as (X1 & t & -> & HL1 & HX1 & Ht & Ev); try done;
    [rewrite Hus; by lnorm | subst XX; cbn; lia | zl |]. rewrite bind_Done_l. fold V in Ev.
  set (us1 := (A ++ [x0]) ++ X1 ++ D). rewrite (aget_at us1 (u + j) A x0 (X1 ++ D)), bind_Done_l by ((subst us1; by lnorm) || lia).
  rewrite (aput_at us1 (u + j) _ A x0 (X1 ++ D)), bind_Done_l by ((subst us1; by lnorm) || lia).
  pose proof (val_range X1 HX1) as RX1. rewrite (bound_length X1 XX HL1) in RX1. pose proof (bound_pos XX) as Hbp.
  assert (qh = U / V \/ qh = U / V + 1) as [-> | ->] by lia.
  - assert ((x0 - t) * bound XX + val X1 = U mod V) as Er by lia.
    assert (x0 - t = 0) as Ht0 by nia. rewrite Ht0 in *. change (HHALF (u32 0)) with 0. change (LHALF (u32 0)) with 0. cbn [negb Z.eqb].
    exists X1. rewrite u16_digit by done. split_and!; [done | unfold zlen in *; congruence | done | lia | done].
  - assert ((x0 - t) * bound XX + val X1 = U mod V - V) as Er by lia.
    assert (x0 - t = -1) as Ht0 by nia. rewrite Ht0 in *. change (HHALF (u32 (-1))) with 65535. change (LHALF (u32 (-1))) with 65535. cbn [negb Z.eqb].
    destruct (d6_addback_ok vs v C X1 (A ++ 65535 :: X1 ++ D) u j 0 (A ++ [65535]) D (v1 :: v2 :: Y) E) as (X2 & t2 & E2 & HL2 & HX2 & Ht2 & Ev2); try done;
      [by lnorm | subst XX; cbn in *; lia | zl |]. rewrite <- HL1, E2, bind_Done_l.
    rewrite (aget_at ((A ++ [65535]) ++ X2 ++ D) (u + j) A 65535 (X2 ++ D)), bind_Done_l by ((by lnorm) || lia).
    rewrite (aput_at ((A ++ [65535]) ++ X2 ++ D) (u + j) _ A 65535 (X2 ++ D)), bind_Done_l by ((by lnorm) || lia).
    fold V in Ev2. rewrite (bound_length X1 XX HL1) in Ev2. pose proof (val_range X2 HX2) as RX2. rewrite (bound_length X2 X1 HL2), (bound_length X1 XX HL1) in RX2.
    assert (t2 = 1) as -> by nia. change (LHALF (u32 (65535 + 1))) with 0.
    exists X2. rewrite u32_id, u16_digit by (unfold is_u32, digit in *; rewrite B_eq in *; lia).
    split_and!; [do 2 f_equal; lia | unfold zlen in *; congruence | done | lia | done].
Qed.

(** The digits [D] are taken in one after the other, as in long division. *)
Lemma d_loop_ok u q D : forall us qs j A x0 X Q R,
  us = A ++ (x0 :: X) ++ D -> zlen A = u + j -> zlen X = n -> Forall digit (x0 :: X) -> Forall digit D ->
  val (x0 :: X) < V * B -> qs = Q ++ R -> zlen Q = q + j -> length R = S (length D) ->
  exists X' Qd, d_loop (length D) us vs qs u v q j n v1 v2 = Done (A ++ replicate (S (length D)) 0 ++ X', Q ++ Qd) /\
    zlen X' = n /\ Forall digit X' /\ length Qd = length R /\ Forall digit Qd /\
    val Qd * V + val X' = val ((x0 :: X) ++ D) /\ val X' < V.
Proof.
  assert (0 < V) as HVpos.
  { pose proof HY as [Hd1 [Hd2 HdY]%Forall_cons]%Forall_cons. pose proof (val_range Y HdY). pose proof (bound_pos Y).
    subst V. rewrite val_top2. unfold digit in *. rewrite B_eq in *. nia. }
  induction D as [| d D IH]; intros us qs j A x0 X Q R Hus HA HX Hd HD HU Hqs HQ HR.
  - destruct R as [| r [| ? R]]; [done | | done]. destruct (d_step_ok us u j A x0 X [] Hus HA HX Hd HU) as (X' & E1 & HX' & Hd' & Ev & Hq).
    cbn [d_loop length]. rewrite E1, bind_Done_l. rewrite (aput_at qs _ _ Q r []), bind_Done_l by (done || lia).
    set (U := val (x0 :: X)) in *. exists X', [U / V]. pose proof (Z.mod_pos_bound U V HVpos). pose proof (Z.div_mod U V ltac:(lia)).
    rewrite ?app_nil_r. fold U. split_and!; try done; try lia; [by constructor |].
    rewrite val_cons. change (bound []) with 1. change (val []) with 0. lia.
  - destruct R as [| r R]; [done |]. injection HR as HR. apply Forall_cons in HD as [Hdd HD].
    destruct (d_step_ok us u j A x0 X (d :: D) Hus HA HX Hd HU) as (X' & E1 & HX' & Hd' & Ev & Hq).
    cbn [d_loop length]. rewrite E1, bind_Done_l. rewrite (aput_at qs _ _ Q r R), bind_Done_l by (done || lia).
    set (U := val (x0 :: X)) in *. pose proof (Z.mod_pos_bound U V HVpos) as Hm. pose proof (Z.div_mod U V ltac:(lia)) as Edm.
    assert (exists y0 Y0, X' ++ [d] = y0 :: Y0) as (y0 & Y0 & EY) by (destruct X'; by eexists _, _).
    assert (val (y0 :: Y0) = U mod V * B + d) as EvY by (by rewrite <- EY, val_snoc, Ev).
    assert (Forall digit (y0 :: Y0)) as HdY0 by (rewrite <- EY; by apply Forall_app_2; [| constructor]).
    destruct (IH (A ++ (0 :: X') ++ d :: D) (Q ++ U / V :: R) (j + 1) (A ++ [0]) y0 Y0 (Q ++ [U / V]) R)
      as (X2 & Qd & -> & HX2 & Hd2 & HLQ & HdQ & Ev2 & Hlt); try done.
    { rewrite <- EY. by lnorm. }
    { zl. }
    { rewrite <- HX'. apply (f_equal length) in EY. zl. }
    { rewrite EvY. unfold digit in Hdd. nia. }
    { by lnorm. }
    { zl. }
    exists X2, (U / V :: Qd). split_and!; [f_equal; f_equal; by lnorm | done | done | cbn; lia | by constructor | | done].
    rewrite val_app, EvY in Ev2. rewrite val_cons, val_app, (bound_length Qd (d :: D)), (bound_cons d D), (val_cons d D) by (cbn; lia).
    fold U. nia.
Qed.
End Step.

(** ** Shifts *)

(** A digit that is moved left by [sh] bits, with the bits of the next digit. *)
Lemma shl_digit x y sh : 0 < sh < 16 -> digit x -> digit y ->
  Z.lor (LHALF (Z.shiftl x sh)) (Z.shiftr y (HALF_BITS - sh)) = (x * 2 ^ sh) mod B + y * 2 ^ sh / B.
Proof.
  intros Hsh Hx Hy. change HALF_BITS with 16. rewrite LHALF_eq, Z.shiftl_mul_pow2, Z.shiftr_div_pow2 by lia.
  assert (B = 2 ^ (16 - sh) * 2 ^ sh) as EB by (rewrite <- Z.pow_add_r by lia; by replace (16 - sh + sh) with 16 by lia).
  assert (0 < 2 ^ sh /\ 0 < 2 ^ (16 - sh)) as [P1 P2] by (split; apply Z.pow_pos_nonneg; lia).
  assert ((x * 2 ^ sh) mod B = x mod 2 ^ (16 - sh) * 2 ^ sh) as E1 by (rewrite EB; rewrite Z.mul_mod_distr_r by lia; done).
  assert (y * 2 ^ sh / B = y / 2 ^ (16 - sh)) as E2 by (rewrite EB; rewrite Z.div_mul_cancel_r by lia; done).
  rewrite E1, E2. apply lor_add; [lia |]. unfold digit in Hy. rewrite EB in Hy.
  split; [apply Z.div_pos; lia | apply Z.div_lt_upper_bound; lia].
Qed.

Lemma shl_loop_ok sh X : forall a p A x D,
  a = A ++ (x :: X) ++ D -> zlen A = p -> Forall digit (x :: X) -> 0 < sh < 16 ->
  exists X', shl_loop a p (length X) sh = Done (A ++ X' ++ D) /\ length X' = S (length X) /\ Forall digit X' /\
    val (x :: X) * 2 ^ sh = x * 2 ^ sh / B * bound (x :: X) + val X'.
Proof.
  induction X as [| y X IH]; intros a p A x D Ha Hp Hd Hsh; cbn [shl_loop length].
  - rewrite (aget_at a p A x D), bind_Done_l by done. rewrite (aput_at a p _ A x D) by done. rewrite LHALF_eq, Z.shiftl_mul_pow2 by lia.
    exists [(x * 2 ^ sh) mod B]. split_and!; [done | done | constructor; [apply digit_mod | done] |].
    rewrite !val_cons, !bound_cons. change (bound []) with 1. change (val []) with 0. pose proof (Z.div_mod (x * 2 ^ sh) B ltac:(done)). lia.
  - apply Forall_cons in Hd as [Hx Hd]. pose proof Hd as [Hy _]%Forall_cons.
    rewrite (aget_at a p A x (y :: X ++ D)), bind_Done_l by done.
    rewrite (aget_at a (p + 1) (A ++ [x]) y (X ++ D)), bind_Done_l by ((rewrite Ha; by lnorm) || zl).
    rewrite shl_digit by done. set (x' := (x * 2 ^ sh) mod B + y * 2 ^ sh / B). rewrite (aput_at a p x' A x (y :: X ++ D)), bind_Done_l by done.
    destruct (IH (A ++ x' :: y :: X ++ D) (p + 1) (A ++ [x']) y D) as (X' & -> & HL & Hd' & Ev); [by lnorm | zl | done | done |].
    exists (x' :: X'). split_and!; [by lnorm | cbn; lia | |].
    { constructor; [| done]. subst x'. rewrite <- shl_digit by done.
      apply (lor_bounded 16); [lia | apply digit_LHALF | apply shiftr_bounded; [change HALF_BITS with 16; lia | done]]. }
    rewrite (val_cons x), (val_cons x'), Z.mul_add_distr_r, Ev, (bound_cons x), (bound_length X' (y :: X)) by done.
    subst x'. pose proof (Z.div_mod (x * 2 ^ sh) B ltac:(done)). nia.
Qed.

(** A digit that is moved right by [d] bits, with the bits of the digit before. *)
Lemma shr_digit x y d w : 0 < d < 16 -> digit x -> digit y -> w mod B = y ->
  Z.lor (Z.shiftr x d) (LHALF (Z.shiftl y (HALF_BITS - d))) = (w * B + x) / 2 ^ d - w / 2 ^ d * B.
Proof.
  intros Hd Hx Hy <-. change HALF_BITS with 16. rewrite LHALF_eq, Z.shiftl_mul_pow2, Z.shiftr_div_pow2 by lia.
  assert (B = 2 ^ (16 - d) * 2 ^ d) as EB by (rewrite <- Z.pow_add_r by lia; by replace (16 - d + d) with 16 by lia).
  assert (0 < 2 ^ d /\ 0 < 2 ^ (16 - d)) as [P1 P2] by (split; apply Z.pow_pos_nonneg; lia).
  assert ((w mod B * 2 ^ (16 - d)) mod B = w mod 2 ^ d * 2 ^ (16 - d)) as ->.
  { rewrite EB. rewrite (Z.mul_comm (2 ^ (16 - d)) (2 ^ d)). rewrite Z.mul_mod_distr_r by lia. f_equal.
    apply Z.mod_mod_divide. exists (2 ^ (16 - d)). lia. }
  assert (0 <= x / 2 ^ d < 2 ^ (16 - d)) as Hxr.
  { unfold digit in Hx. split; [apply Z.div_pos; lia | apply Z.div_lt_upper_bound; lia]. }
  rewrite Z.lor_comm, lor_add by lia.
  assert ((w * B + x) / 2 ^ d = w * 2 ^ (16 - d) + x / 2 ^ d) as ->.
  { rewrite EB. replace (w * (2 ^ (16 - d) * 2 ^ d) + x) with (x + w * 2 ^ (16 - d) * 2 ^ d) by lia. rewrite Z.div_add by lia. lia. }
  pose proof (Z.div_mod w (2 ^ d) ltac:(lia)). rewrite EB. nia.
Qed.

Lemma shr_loop_ok d X : forall us u m A D,
  us = A ++ (0 :: X) ++ D -> zlen A = u + m -> Forall digit X -> 0 < d < 16 ->
  exists X', shr_loop us u m d (length X) = Done (A ++ (0 :: X') ++ D) /\ length X' = length X /\ Forall digit X' /\
    val X' = val X / 2 ^ d.
Proof.
  induction X as [| x X IH] using rev_ind; intros us u m A D Hus HA HX Hd.
  - cbn [length shr_loop]. rewrite (aput_at us _ 0 A 0 D) by done. exists []. split_and!; try done.
  - rewrite length_app, Nat.add_1_r. cbn [shr_loop]. apply Forall_app in HX as [HX [Hx _]%Forall_cons].
    assert (exists y, digit y /\ val X mod B = y /\ aget us (u + m + Z.of_nat (S (length X)) - 1) = Done y) as (y & Hy & Hw & Ey).
    { destruct X as [| y X _] using rev_ind.
      - exists 0. split_and!; [done | done |]. apply (aget_at us _ A 0 ([x] ++ D)); [by rewrite Hus | cbn; lia].
      - apply Forall_app in HX as [HX [Hy _]%Forall_cons]. exists y. split_and!; [done | |].
        + rewrite val_snoc. rewrite Z.add_comm, Z_mod_plus_full. by apply Z.mod_small.
        + apply (aget_at us _ (A ++ 0 :: X) y (x :: D)); [rewrite Hus; by lnorm | zl]. }
    rewrite (aget_at us (u + m + Z.of_nat (S (length X))) (A ++ 0 :: X) x D), bind_Done_l by ((rewrite Hus; by lnorm) || zl). rewrite Ey, bind_Done_l.
    rewrite (shr_digit x y d (val X)) by done. set (x' := (val X * B + x) / 2 ^ d - val X / 2 ^ d * B).
    rewrite (aput_at us _ x' (A ++ 0 :: X) x D), bind_Done_l by ((rewrite Hus; by lnorm) || zl).
    destruct (IH ((A ++ 0 :: X) ++ x' :: D) u m A (x' :: D)) as (X' & -> & HL & Hd' & Ev); [by lnorm | done | done | done |].
    exists (X' ++ [x']). split_and!; [by lnorm | rewrite !length_app; cbn; lia | | rewrite !val_snoc, Ev; lia].
    apply Forall_app_2; [done |]. constructor; [| done]. subst x'. rewrite <- (shr_digit x y d (val X)) by done.
    apply (lor_bounded 16); [lia | apply shiftr_bounded; [lia | done] | apply digit_LHALF].
Qed.
