(* ===== verification/QuadProps.v ===== *)
(** * 64-bit arithmetic: results

    Every routine computes what the C operator it stands for means on 64-bit
    integers. *)

From stdpp Require Import prelude list.
From S2P Require Import Prelude.
From S2P Require Import Quad.
From S2P Require Import QuadDiv.
Open Scope Z_scope.

(** ** Digits of a quad *)

Lemma ulH_eq q : ulH q = u64 q / 2 ^ 32.
Proof. unfold ulH. by rewrite Z.shiftr_div_pow2. Qed.

Lemma words q : is_u32 (ulH q) /\ is_u32 (ulL q) /\ uquad (ulH q) (ulL q) = u64 q.
Proof.
  rewrite ulH_eq. unfold ulL, uquad, u32. unfold_int. pose proof (Z.mod_pos_bound q (2 ^ 64) ltac:(lia)) as Hq.
  pose proof (Z.mod_pos_bound q (2 ^ 32) ltac:(lia)) as Hl. split_and!; try lia.
  - apply Z.div_pos; lia.
  - apply Z.div_lt_upper_bound; lia.
  - pose proof (Z.div_mod (q mod 2 ^ 64) (2 ^ 32) ltac:(lia)) as E.
    rewrite (Z.mod_mod_divide q (2 ^ 64) (2 ^ 32)) in E by (exists (2 ^ 32); lia). lia.
Qed.

Lemma halves x : is_u32 x -> digit (HHALF x) /\ digit (LHALF x) /\ HHALF x * B + LHALF x = x.
Proof.
  unfold digit. unfold_int. rewrite HHALF_eq, LHALF_eq. intros Hx. rewrite B_eq. pose proof (Z.div_mod x 65536 ltac:(lia)).
  pose proof (Z.mod_pos_bound x 65536 ltac:(lia)). split_and!; lia.
Qed.

Lemma digits_ok q : is_u64 q -> Forall digit (digits q) /\ val (digits q) = q.
Proof.
  intros Hq. destruct (words q) as (Hh & Hl & E). rewrite u64_id in E by done. unfold uquad in E.
  destruct (halves _ Hh) as (D1 & D2 & E1), (halves _ Hl) as (D3 & D4 & E2). unfold digits.
  split; [repeat (apply Forall_cons_2; [done |]); apply Forall_nil_2 |]. rewrite !val_cons, !bound_cons. change (bound []) with 1. change (val []) with 0. rewrite B_eq in *. lia.
Qed.

Lemma collect_ok a : Forall digit a -> length a = 5%nat -> head a = Some 0 -> collect a = Done (val a).
Proof.
  destruct a as [| a0 [| a1 [| a2 [| a3 [| a4 [| ? ?]]]]]]; try done. intros Hd _ [= ->].
  apply Forall_cons in Hd as [_ [H1 [H2 [H3 [H4 _]%Forall_cons]%Forall_cons]%Forall_cons]%Forall_cons].
  transitivity (Done (undigits a1 a2 a3 a4)); [reflexivity | f_equal]. unfold undigits, uquad.
  rewrite !COMBINE_eq by done. rewrite !val_cons, !bound_cons. change (bound []) with 1. change (val []) with 0. rewrite B_eq. lia.
Qed.

(** ** A divisor of one digit *)

Lemma qdivrem1_ok u1 u2 u3 u4 t : digit u1 -> digit u2 -> digit u3 -> digit u4 -> digit t -> t <> 0 ->
  qdivrem1 u1 u2 u3 u4 t = Done (val [u1; u2; u3; u4] / t, val [u1; u2; u3; u4] mod t).
Proof.
  intros H1 H2 H3 H4 Ht Hne. unfold qdivrem1. rewrite (proj2 (Z.eqb_neq t 0) Hne).
  assert (forall r, 0 <= r mod t < t) as Hmod by (intros; apply Z.mod_pos_bound; unfold digit in *; lia).
  assert (forall r, digit (r mod t)) as Hmd by (intros r; specialize (Hmod r); unfold digit in *; lia).
  assert (forall r x, 0 <= r < t -> digit x -> digit ((r * B + x) / t)) as Hdig.
  { intros r x Hr Hx. unfold digit in *. split; [apply Z.div_pos; nia | apply Z.div_lt_upper_bound; nia]. }
  rewrite !COMBINE_eq by (done || apply Hmd). set (r1 := u1 mod t). set (w2 := r1 * B + u2). set (w3 := w2 mod t * B + u3). set (w4 := w3 mod t * B + u4).
  assert (digit (u1 / t)) as Hq1. { unfold digit in *. split; [apply Z.div_pos; lia | apply Z.div_lt_upper_bound; nia]. }
  rewrite !u16_digit by (try apply Hdig; try done; apply Hmod). unfold undigits, uquad.
  rewrite !COMBINE_eq by (try apply Hdig; try done; apply Hmod).
  assert (val [u1; u2; u3; u4] = ((u1 * B + u2) * B + u3) * B + u4) as -> by
    (rewrite !val_cons, !bound_cons; change (bound []) with 1; change (val []) with 0; lia).
  pose proof (Z.div_mod u1 t Hne) as E1. pose proof (Z.div_mod w2 t Hne) as E2. pose proof (Z.div_mod w3 t Hne) as E3. pose proof (Z.div_mod w4 t Hne) as E4.
  change (2 ^ 32) with (B * B). set (Q := (u1 / t * B + w2 / t) * (B * B) + (w3 / t * B + w4 / t)).
  assert (((u1 * B + u2) * B + u3) * B + u4 = t * Q + w4 mod t) as E.
  { subst Q w2 w3 w4 r1. rewrite B_eq in *. lia. }
  unfold mret, outcome_ret. f_equal. f_equal; [apply (Z.div_unique_pos _ _ _ (w4 mod t)) | apply (Z.mod_unique_pos _ _ Q)]; done.
Qed.

(** ** Algorithm D *)

Lemma skip_u_ok us W : forall fuel k m,
  us = replicate (S k) 0 ++ W -> Forall digit W -> val W <> 0 -> (length W <= fuel)%nat ->
  exists k' w W', skip_u fuel us (Z.of_nat k) m = Done (Z.of_nat k', m + Z.of_nat k - Z.of_nat k') /\
    us = replicate (S k') 0 ++ w :: W' /\ w <> 0 /\ Forall digit (w :: W') /\ val (w :: W') = val W.
Proof.
  induction W as [| w W IH]; intros fuel k m Hus Hd Hne Hf; [done |].
  destruct fuel as [| fuel]; [cbn in Hf; lia |]. cbn [skip_u].
  rewrite (aget_at us _ (replicate (S k) 0) w W), bind_Done_l; [| done | unfold zlen; rewrite length_replicate; lia].
  destruct (Z.eqb_spec w 0) as [-> | Hw].
  - replace (Z.of_nat k + 1) with (Z.of_nat (S k)) by lia. apply Forall_cons in Hd as [_ Hd].
    rewrite val_cons, Z.mul_0_l, Z.add_0_l in Hne.
    assert (us = replicate (S (S k)) 0 ++ W) as Hus1 by (rewrite Hus, (replicate_S_end (S k)); by lnorm).
    destruct (IH fuel (S k) (m - 1) Hus1 Hd Hne ltac:(cbn in Hf; lia)) as (k' & w & W' & E & Hus' & Hw & Hd' & Ev).
    exists k', w, W'. split_and!; [rewrite E; do 2 f_equal; lia | done | done | done | rewrite Ev, val_cons; lia].
  - exists k, w, W. split_and!; try done. do 2 f_equal. lia.
Qed.

Lemma d1_shift_ok fuel : forall t d, 0 < t < B -> 32768 <= t * 2 ^ Z.of_nat fuel ->
  exists e, d1_shift fuel t d = Done (d + e) /\ 0 <= e <= Z.of_nat fuel /\ 32768 <= t * 2 ^ e < B.
Proof.
  induction fuel as [| fuel IH]; intros t d Ht Hf; cbn [d1_shift]; change (B / 2) with 32768; destruct (Z.ltb_spec t 32768).
  - cbn in Hf. lia.
  - exists 0. rewrite Z.add_0_r. split; [done |]. cbn. lia.
  - rewrite Z.shiftl_mul_pow2, u32_id by (unfold is_u32; lia). change (2 ^ 1) with 2. rewrite Nat2Z.inj_succ, Z.pow_succ_r in * by lia.
    destruct (IH (t * 2) (d + 1)) as (e & -> & He & Hb); [rewrite B_eq in *; lia | lia |].
    exists (e + 1). rewrite Z.pow_add_r by lia. split_and!; try lia. f_equal. lia.
  - exists 0. rewrite Z.add_0_r. split; [done |]. rewrite Z.pow_0_r. lia.
Qed.

(** The shifts that make the first digit of the divisor large. *)
Lemma normalise_ok us vs u v m n k w W C y Y d :
  us = replicate (S k) 0 ++ w :: W -> u = Z.of_nat k -> zlen (w :: W) = m + n -> Forall digit (w :: W) ->
  vs = C ++ y :: Y -> zlen C = v + 1 -> zlen (y :: Y) = n -> Forall digit (y :: Y) ->
  0 <= d < 16 -> 32768 <= y * 2 ^ d < B ->
  exists X y' Y', (if d >? 0 then us ← shl us u (m + n) d; vs ← shl vs (v + 1) (n - 1) d; mret (us, vs) else mret (us, vs)) =
      Done (replicate k 0 ++ X, C ++ y' :: Y') /\
    zlen X = m + n + 1 /\ Forall digit X /\ val X = val (w :: W) * 2 ^ d /\
    zlen (y' :: Y') = n /\ Forall digit (y' :: Y') /\ val (y' :: Y') = val (y :: Y) * 2 ^ d /\ 32768 <= y'.
Proof.
  intros Hus Hu Hm Hdw Hvs HC Hn Hdy Hd Hy. assert (us = replicate k 0 ++ (0 :: w :: W) ++ []) as Hus'.
  { rewrite Hus, app_nil_r, replicate_S_end. by lnorm. }
  destruct (Z.gtb_spec d 0).
  - unfold shl. replace (Z.to_nat (m + n)) with (length (w :: W)) by zl. replace (Z.to_nat (n - 1)) with (length Y) by zl.
    destruct (shl_loop_ok d (w :: W) us u (replicate k 0) 0 []) as (X & -> & HL & HdX & Ev); [done | unfold zlen; rewrite length_replicate; lia | by apply Forall_cons_2 | lia |].
    rewrite bind_Done_l, app_nil_r.
    destruct (shl_loop_ok d Y vs (v + 1) C y []) as (Y1 & -> & HL1 & HdY & Ev1); [by rewrite app_nil_r | done | done | lia |].
    rewrite bind_Done_l, app_nil_r. destruct Y1 as [| y' Y']; [done |]. injection HL1 as HL1.
    rewrite val_cons, bound_cons, Z.mul_0_l, Z.div_0_l, Z.mul_0_l, Z.add_0_l in Ev by done.
    rewrite (Z.div_small (y * 2 ^ d)), Z.mul_0_l, Z.add_0_l in Ev1 by lia.
    exists X, y', Y'. split_and!; try done; try zl.
    pose proof (bound_pos Y) as Hb. rewrite !val_cons, (bound_length Y' Y HL1) in Ev1.
    apply Forall_cons in HdY as [_ RY%val_range]. rewrite (bound_length Y' Y HL1) in RY. apply Forall_cons in Hdy as [_ RY'%val_range]. nia.
  - assert (d = 0) as -> by lia. rewrite Z.pow_0_r in *. rewrite app_nil_r in Hus'. exists (0 :: w :: W), y, Y. rewrite !Z.mul_1_r in *.
    split_and!; try done; try zl; [by rewrite Hus', Hvs | by apply Forall_cons_2].
Qed.

(** A number with its first n + 1 digits split off. *)
Lemma val_split k (l : list Z) : (k <= length l)%nat -> exists L R, l = L ++ R /\ length L = k /\ val l = val L * bound R + val R.
Proof.
  intros Hk. exists (take k l), (drop k l). rewrite <- val_app, take_drop, length_take. split_and!; [done | lia | done].
Qed.

Lemma pow_bound l k : zlen l = k -> bound l = B ^ k.
Proof. unfold bound. by intros ->. Qed.

(** From the loop on j to the end, on numbers that are shifted by [d] bits. *)
Lemma program_d_rest k m n C v v1 v2 Y X d uq vq :
  zlen (v1 :: v2 :: Y) = n -> zlen X = m + n + 1 -> 0 <= m <= 2 -> Z.of_nat k + m + n = 4 -> zlen C = v + 1 ->
  Forall digit X -> Forall digit (v1 :: v2 :: Y) -> 32768 <= v1 -> 0 <= d < 16 ->
  val X = uq * 2 ^ d -> val (v1 :: v2 :: Y) = vq * 2 ^ d -> uq < B ^ (m + n) -> B ^ (n - 1) <= vq ->
  ('(us, qs) ← d_loop (Z.to_nat m) (replicate k 0 ++ X) (C ++ v1 :: v2 :: Y) [0; 0; 0; 0; 0] (Z.of_nat k) v (4 - m) 0 n v1 v2;
   us ← (if negb (d =? 0) then shr_loop us (Z.of_nat k) m d (Z.to_nat n) else mret us);
   r ← collect us; q ← collect qs; mret (q, r)) = Done (uq / vq, uq mod vq).
Proof.
  intros Hn HLX Hm Hk HC HdX HdY Hv1 Hd EvX EvY Huq Hvq. set (V := val (v1 :: v2 :: Y)) in *.
  assert (0 < 2 ^ d) as Hp by (apply Z.pow_pos_nonneg; lia). assert (2 <= n) as Hn2 by (subst n; zl).
  assert (0 < B ^ (n - 1)) as Hbn by (apply Z.pow_pos_nonneg; [done | lia]).
  destruct (val_split (S (Z.to_nat n)) X) as (L & D & -> & HLL & EvL); [zl |].
  destruct L as [| x0 X]; [done |]. injection HLL as HLL. apply Forall_app in HdX as [HdL HdD].
  assert (length D = Z.to_nat m) as HLD by zl. rewrite (pow_bound D m) in EvL by zl.
  assert (0 < B ^ m) as Hbm by (apply Z.pow_pos_nonneg; [done | lia]). pose proof (val_range D HdD) as RD.
  assert (val (x0 :: X) < V * B) as HU.
  { assert (val (x0 :: X) * B ^ m < B ^ (m + n) * 2 ^ d) as Hlt by nia. rewrite Z.pow_add_r in Hlt by lia.
    assert (B ^ n = B * B ^ (n - 1)) as EBn by (rewrite <- Z.pow_succ_r by lia; f_equal; lia).
    assert (B ^ (n - 1) * (B * 2 ^ d) <= vq * (B * 2 ^ d)) by (apply Z.mul_le_mono_nonneg_r; [rewrite B_eq; lia | done]).
    rewrite EvY. apply (Z.mul_lt_mono_pos_r (B ^ m)); [done |].
    assert (B ^ (n - 1) * (B * 2 ^ d) * B ^ m <= vq * (B * 2 ^ d) * B ^ m) by (apply Z.mul_le_mono_nonneg_r; lia). rewrite EBn in Hlt. lia. }
  rewrite <- HLD. replace [0; 0; 0; 0; 0] with (replicate (Z.to_nat (4 - m)) 0 ++ replicate (S (length D)) 0).
  2: { rewrite <- replicate_add, HLD. replace (Z.to_nat (4 - m) + S (Z.to_nat m))%nat with 5%nat by lia. done. }
  rewrite <- Hn.
  destruct (d_loop_ok (C ++ v1 :: v2 :: Y) C Y [] v v1 v2 ltac:(by rewrite app_nil_r) HC HdY Hv1 (Z.of_nat k) (4 - m) D
      (replicate k 0 ++ (x0 :: X) ++ D) (replicate (Z.to_nat (4 - m)) 0 ++ replicate (S (length D)) 0) 0
      (replicate k 0) x0 X (replicate (Z.to_nat (4 - m)) 0) (replicate (S (length D)) 0))
    as (X' & Qd & -> & HX' & Hd' & HLQ & HdQ & Ev & Hlt);
    try done; try (unfold zlen; rewrite ?length_replicate; zl). rewrite bind_Done_l. fold V in Ev, Hlt.
  rewrite val_app, (pow_bound D m), <- EvL, EvX in Ev by zl. pose proof (val_range _ Hd') as RX'. rewrite length_replicate in HLQ.
  assert (val Qd = uq / vq /\ val X' = uq mod vq * 2 ^ d) as [EQ ER].
  { rewrite EvY in *. pose proof (Z.div_mod uq vq ltac:(lia)) as Edm. pose proof (Z.mod_pos_bound uq vq ltac:(lia)) as Hmod.
    assert (val Qd = uq * 2 ^ d / (vq * 2 ^ d)) as E1 by (apply (Z.div_unique_pos _ _ _ (val X')); [nia | lia]).
    rewrite Z.div_mul_cancel_r in E1 by lia. split; [done |]. rewrite E1 in Ev. nia. }
  assert (exists X2, (if negb (d =? 0) then shr_loop (replicate k 0 ++ replicate (S (length D)) 0 ++ X') (Z.of_nat k) m d (Z.to_nat n)
            else mret (replicate k 0 ++ replicate (S (length D)) 0 ++ X')) = Done (replicate k 0 ++ replicate (S (length D)) 0 ++ X2) /\
          length X2 = length X' /\ Forall digit X2 /\ val X2 = uq mod vq) as (X2 & E2 & HL2 & Hd2 & Ev2).
  { destruct (Z.eqb_spec d 0) as [-> | Hd0]; cbn [negb].
    - rewrite Z.pow_0_r, Z.mul_1_r in ER. by exists X'.
    - replace (Z.to_nat n) with (length X') by zl. rewrite replicate_S_end.
      destruct (shr_loop_ok d X' (replicate k 0 ++ (replicate (length D) 0 ++ [0]) ++ X') (Z.of_nat k) m (replicate k 0 ++ replicate (length D) 0) [])
        as (X2 & -> & HL2 & Hd2 & Ev2); [by rewrite app_nil_r; lnorm | unfold zlen; rewrite length_app, !length_replicate; lia | done | lia |].
      exists X2. rewrite Ev2, ER, Z.div_mul, app_nil_r by lia. split_and!; try done. f_equal. by lnorm. }
  rewrite Hn, E2, bind_Done_l. clear E2.
  assert (forall k, Forall digit (replicate k 0)) as Hz by (intros; apply Forall_replicate; done).
  rewrite (collect_ok (replicate k 0 ++ replicate (S (length D)) 0 ++ X2)), bind_Done_l; cycle 1.
  { repeat apply Forall_app_2; done. }
  { rewrite !length_app, !length_replicate. zl. }
  { destruct k; done. }
  rewrite collect_ok, bind_Done_l; cycle 1.
  { apply Forall_app_2; done. }
  { rewrite !length_app, !length_replicate. lia. }
  { destruct (Z.to_nat (4 - m)) eqn:E4; [lia | done]. }
  by rewrite !val_app, !val_zeros, EQ, Ev2, !Z.mul_0_l.
Qed.

Lemma program_d_ok Ud vs v C y1 y2 Y :
  length Ud = 4%nat -> Forall digit Ud -> vs = C ++ y1 :: y2 :: Y -> zlen C = v + 1 ->
  (length (y1 :: y2 :: Y) <= 4)%nat -> Forall digit (y1 :: y2 :: Y) -> y1 <> 0 -> val (y1 :: y2 :: Y) <= val Ud ->
  program_d (0 :: Ud) vs v (zlen (y1 :: y2 :: Y)) = Done (val Ud / val (y1 :: y2 :: Y), val Ud mod val (y1 :: y2 :: Y)).
Proof.
  intros HLu HdU Hvs HC HLy HdY Hy1 Hle. set (n := zlen (y1 :: y2 :: Y)). set (vq := val (y1 :: y2 :: Y)) in *. set (uq := val Ud) in *.
  assert (B ^ (n - 1) <= vq) as Hvq.
  { pose proof HdY as [D1 HdY']%Forall_cons. subst vq. rewrite val_cons, (pow_bound (y2 :: Y) (n - 1)) by (subst n; zl).
    pose proof (val_range _ HdY'). assert (0 < B ^ (n - 1)) by (apply Z.pow_pos_nonneg; [done | subst n; zl]). unfold digit in D1. nia. }
  assert (0 < B ^ (n - 1)) as Hbn by (apply Z.pow_pos_nonneg; [done | subst n; zl]).
  unfold program_d. destruct (skip_u_ok (0 :: Ud) Ud 4 0 (4 - n)) as (k & w & W & E & Hus & Hw & HdW & Ev); [done | done | subst uq; lia | lia |].
  change (Z.of_nat 0) with 0 in E. rewrite E, bind_Done_l, Z.add_0_r. clear E. set (m := 4 - n - Z.of_nat k). fold uq in Ev.
  assert (zlen (w :: W) = m + n) as HLW.
  { apply (f_equal length) in Hus. rewrite length_app, length_replicate in Hus. cbn in Hus. subst m. zl. }
  assert (0 <= m <= 2) as Hm.
  { split; [| subst m n; zl]. destruct (Z.le_gt_cases 0 m); [done | exfalso]. pose proof (val_range _ HdW) as RW.
    rewrite Ev, (pow_bound _ (m + n)) in RW by done. assert (B ^ (m + n) <= B ^ (n - 1)) by (apply Z.pow_le_mono_r; [done | lia]). lia. }
  assert (clear_q [0; 0; 0; 0; 0] (Z.to_nat (4 - m)) = Done [0; 0; 0; 0; 0]) as ->.
  { assert (m = 0 \/ m = 1 \/ m = 2) as [-> | [-> | ->]] by lia; reflexivity. }
  rewrite bind_Done_l, (aget_at vs (v + 1) C y1 (y2 :: Y)), bind_Done_l by done.
  pose proof HdY as [D1 _]%Forall_cons.
  destruct (d1_shift_ok 16 y1 0) as (d & -> & Hd & Hyd); [unfold digit in D1; lia | unfold digit in D1; lia |]. rewrite bind_Done_l, Z.add_0_l.
  assert (d < 16) as Hd16. { destruct (Z.lt_ge_cases d 16); [done | exfalso]. assert (d = 16) as -> by lia. rewrite B_eq in *. lia. }
  destruct (normalise_ok (0 :: Ud) vs (Z.of_nat k) v m n k w W C y1 (y2 :: Y) d) as (X & v1 & [| v2 Y'] & -> & HLX & HdX & EvX & HLY & HdY' & EvY & Hv1);
    try done; try lia; [subst n; zl |]. rewrite bind_Done_l.
  rewrite (aget_at (C ++ v1 :: v2 :: Y') (v + 1) C v1 (v2 :: Y')), bind_Done_l by done.
  rewrite (aget_at (C ++ v1 :: v2 :: Y') (v + 2) (C ++ [v1]) v2 Y'), bind_Done_l by ((by lnorm) || zl).
  rewrite Ev in EvX. apply program_d_rest; try done; try (subst m; lia).
  pose proof (val_range _ HdW) as RW. rewrite Ev, (pow_bound _ (m + n)) in RW by done. lia.
Qed.

(** The leading zeros of the divisor are skipped. *)
Lemma skip_v_ok v1 v2 v3 v4 : skip_v 4 [0; v1; v2; v3; v4] 0 4 =
  if v1 =? 0 then if v2 =? 0 then if v3 =? 0 then Done (2, 1) else Done (2, 2) else Done (1, 3) else Done (0, 4).
Proof. reflexivity. Qed.

Lemma qdivrem_value uq vq : is_u64 uq -> is_u64 vq -> vq <> 0 -> qdivrem uq vq = Done (uq / vq, uq mod vq).
Proof.
  intros Hu Hv Hne. unfold qdivrem. rewrite (proj2 (Z.eqb_neq vq 0) Hne).
  destruct (Z.ltb_spec uq vq) as [Hlt | Hge].
  { unfold_int. by rewrite Z.div_small, Z.mod_small by lia. }
  destruct (digits_ok uq Hu) as [Hdu Eu], (digits_ok vq Hv) as [Hdv Ev]. unfold digits in *.
  set (u1 := HHALF (ulH uq)) in *. set (u2 := LHALF (ulH uq)) in *. set (u3 := HHALF (ulL uq)) in *. set (u4 := LHALF (ulL uq)) in *.
  set (v1 := HHALF (ulH vq)) in *. set (v2 := LHALF (ulH vq)) in *. set (v3 := HHALF (ulL vq)) in *. set (v4 := LHALF (ulL vq)) in *.
  pose proof Hdv as [D1 [D2 [D3 [D4 _]%Forall_cons]%Forall_cons]%Forall_cons]%Forall_cons.
  pose proof Hdu as [F1 [F2 [F3 [F4 _]%Forall_cons]%Forall_cons]%Forall_cons]%Forall_cons.
  rewrite skip_v_ok, <- Eu. rewrite <- Ev in Hne, Hge |- *. rewrite <- Eu in Hge.
  destruct (Z.eqb_spec v1 0) as [E1 |]; [destruct (Z.eqb_spec v2 0) as [E2 |]; [destruct (Z.eqb_spec v3 0) as [E3 |] |] |];
    rewrite bind_Done_l; cbn [Z.eqb Pos.eqb].
  - assert (val [v1; v2; v3; v4] = v4) as EV by (rewrite E1, E2, E3; reflexivity). rewrite EV in *.
    change (aget [0; v1; v2; v3; v4] (2 + 2)) with (Done v4). rewrite bind_Done_l. by apply qdivrem1_ok.
  - assert (val [v1; v2; v3; v4] = val [v3; v4]) as EV by (rewrite E1, E2; reflexivity). rewrite EV in *.
    apply (program_d_ok [u1; u2; u3; u4] _ 2 [0; v1; v2] v3 v4 []); try done; [cbn; lia | by repeat apply Forall_cons_2].
  - assert (val [v1; v2; v3; v4] = val [v2; v3; v4]) as EV by (rewrite E1; reflexivity). rewrite EV in *.
    apply (program_d_ok [u1; u2; u3; u4] _ 1 [0; v1] v2 v3 [v4]); try done; [cbn; lia | by repeat apply Forall_cons_2].
  - by apply (program_d_ok [u1; u2; u3; u4] _ 0 [0] v1 v2 [v3; v4]).
Qed.

(** ** Multiplication *)

Lemma LHUP_eq x : LHUP x = u32 (x * B).
Proof. unfold LHUP. by rewrite Z.shiftl_mul_pow2. Qed.

(** Addition of a word with its carry. *)
Lemma carry_out a b : is_u32 a -> is_u32 b -> a + b = u32 (a + b) + Z.b2z (u32 (a + b) <? a) * 2 ^ 32.
Proof.
  unfold_int. intros Ha Hb. destruct (Z.lt_ge_cases (a + b) (2 ^ 32)).
  - rewrite Z.mod_small, (proj2 (Z.ltb_ge _ _)) by lia. cbn. lia.
  - rewrite <- (Z.mod_unique_pos (a + b) (2 ^ 32) 1 (a + b - 2 ^ 32)) by lia. rewrite (proj2 (Z.ltb_lt _ _)) by lia. cbn. lia.
Qed.

Lemma borrow_out a b : is_u32 a -> is_u32 b -> a - b = u32 (a - b) - Z.b2z (u32 (a - b) >? a) * 2 ^ 32.
Proof.
  unfold_int. intros Ha Hb. rewrite Z.gtb_ltb. destruct (Z.lt_ge_cases (a - b) 0).
  - rewrite <- (Z.mod_unique_pos (a - b) (2 ^ 32) (-1) (a - b + 2 ^ 32)) by lia. rewrite (proj2 (Z.ltb_lt _ _)) by lia. cbn. lia.
  - rewrite Z.mod_small, (proj2 (Z.ltb_ge _ _)) by lia. cbn. lia.
Qed.

(** [same64 a b]: the numbers are the same as quads. *)
Definition same64 (a b : Z) : Prop := exists k, a = b + k * 2 ^ 64.

Lemma same64_eq a b : same64 a b -> is_u64 a -> is_u64 b -> a = b.
Proof. intros [k ->]. unfold_int. lia. Qed.

Lemma same64_u64 a : same64 (u64 a) a.
Proof. exists (- (a / 2 ^ 64)). unfold u64. pose proof (Z.div_mod a (2 ^ 64)). lia. Qed.

Lemma same64_s64 a : same64 (s64 a) a.
Proof. exists (- ((a + 2 ^ 63) / 2 ^ 64)). unfold s64. pose proof (Z.div_mod (a + 2 ^ 63) (2 ^ 64)). lia. Qed.

Lemma same64_s64_eq a b : same64 a b -> s64 a = s64 b.
Proof. intros [k ->]. unfold s64. replace (b + k * 2 ^ 64 + 2 ^ 63) with (b + 2 ^ 63 + k * 2 ^ 64) by lia. by rewrite Z_mod_plus_full. Qed.

Lemma u32_wrap a : exists k, u32 a = a + k * 2 ^ 32.
Proof. exists (- (a / 2 ^ 32)). unfold u32. pose proof (Z.div_mod a (2 ^ 32)). lia. Qed.

Lemma u32_is a : is_u32 (u32 a).
Proof. apply u32_range. Qed.
#[local] Hint Resolve u32_is : core.

(** x << N as a quad: its words are HHALF(x) and LHUP(x). *)
Lemma half_up x : is_u32 x -> HHALF x * 2 ^ 32 + LHUP x = x * B /\ is_u32 (LHUP x).
Proof.
  intros Hx. rewrite HHALF_eq, LHUP_eq. split; [| apply u32_range]. unfold u32. change (2 ^ 32) with (B * B).
  rewrite Z.mul_mod_distr_r by done. pose proof (Z.div_mod x B ltac:(done)). lia.
Qed.

Lemma add_up ph pl x : is_u32 pl -> is_u32 x ->
  same64 (uquad (u32 (ph + (HHALF x + Z.b2z (u32 (pl + LHUP x) <? pl)))) (u32 (pl + LHUP x))) (uquad ph pl + x * B).
Proof.
  intros Hp Hx. destruct (half_up x Hx) as [E Hl]. pose proof (carry_out pl (LHUP x) Hp Hl) as Ec.
  set (c := Z.b2z _) in *. destruct (u32_wrap (ph + (HHALF x + c))) as [k ->]. exists k. unfold uquad. lia.
Qed.

Lemma sub_up ph pl x : is_u32 pl -> is_u32 x ->
  same64 (uquad (u32 (ph - (HHALF x + Z.b2z (u32 (pl - LHUP x) >? pl)))) (u32 (pl - LHUP x))) (uquad ph pl - x * B).
Proof.
  intros Hp Hx. destruct (half_up x Hx) as [E Hl]. pose proof (borrow_out pl (LHUP x) Hp Hl) as Ec.
  set (c := Z.b2z _) in *. destruct (u32_wrap (ph - (HHALF x + c))) as [k ->]. exists k. unfold uquad. lia.
Qed.

Lemma add_low ph pl x : is_u32 pl -> is_u32 x ->
  same64 (uquad (if u32 (pl + x) <? x then u32 (ph + 1) else ph) (u32 (pl + x))) (uquad ph pl + x).
Proof.
  intros Hp Hx. pose proof (carry_out x pl Hx Hp) as Ec. rewrite (Z.add_comm x pl) in Ec. unfold uquad.
  destruct (u32 (pl + x) <? x); cbn in Ec.
  - destruct (u32_wrap (ph + 1)) as [k ->]. exists k. lia.
  - exists 0. lia.
Qed.

(** The differences of the halves and the sign of their product. *)
Lemma diff_ok a b : digit a -> digit b ->
  exists d (n : bool), (if a >=? b then (u32 (a - b), false) else (u32 (b - a), true)) = (d, n) /\ digit d /\ a - b = if n then - d else d.
Proof.
  unfold digit. rewrite B_eq. intros Ha Hb. destruct (Z.geb_spec a b); rewrite u32_id by (unfold is_u32; lia); eexists _, _; (split; [reflexivity |]); lia.
Qed.

Lemma lmulq_ok u v : is_u32 u -> is_u32 v -> lmulq u v = u * v.
Proof.
  intros Hu Hv. destruct (halves u Hu) as (D1 & D0 & Eu), (halves v Hv) as (F1 & F0 & Ev).
  unfold lmulq. set (u1 := HHALF u) in *. set (u0 := LHALF u) in *. set (v1 := HHALF v) in *. set (v0 := LHALF v) in *.
  assert (forall a b, digit a -> digit b -> is_u32 (a * b)) as Hmul by (unfold digit, is_u32; rewrite B_eq; intros; nia).
  assert (is_u64 (u * v)) as Huv by (unfold_int; nia).
  rewrite !(u32_id (u0 * v0)), !(u32_id (u1 * v1)) by auto.
  destruct ((u1 =? 0) && (v1 =? 0)) eqn:Ez.
  { zbool. rewrite <- Eu, <- Ev. nia. }
  destruct (diff_ok u1 u0 D1 D0) as (ud & un & -> & Dud & Eud).
  assert (exists vd (vn : bool), (if v0 >=? v1 then (u32 (v0 - v1), un) else (u32 (v1 - v0), negb un)) = (vd, vn) /\
    digit vd /\ (u1 - u0) * (v0 - v1) = if vn then - (ud * vd) else ud * vd) as (vd & vn & -> & Dvd & Emid).
  { destruct (diff_ok v0 v1 F0 F1) as (vd & n & E & Dvd & Evd). destruct (v0 >=? v1); injection E as E <-; rewrite E; eexists vd, _; (split; [reflexivity |]).
    - split; [done |]. rewrite Eud, Evd. destruct un; cbn; lia.
    - split; [done |]. rewrite Eud, Evd. destruct un; cbn; lia. }
  rewrite (u32_id (ud * vd)) by auto. set (mid := ud * vd) in *. set (high := u1 * v1). set (low := u0 * v0).
  assert (u * v = high * 2 ^ 32 + (high + (u1 - u0) * (v0 - v1) + low) * B + low) as Etot.
  { rewrite <- Eu, <- Ev. subst high low. rewrite B_eq. lia. }
  assert (is_u32 high /\ is_u32 mid /\ is_u32 low) as (Hh & Hm & Hl) by (subst high mid low; auto).
  destruct (half_up high Hh) as [Eh Hlh].
  assert (exists ph pl, (if vn then (u32 (u32 (high + HHALF high) - (HHALF mid + Z.b2z (u32 (LHUP high - LHUP mid) >? LHUP high))), u32 (LHUP high - LHUP mid))
     else (u32 (u32 (high + HHALF high) + (HHALF mid + Z.b2z (u32 (LHUP high + LHUP mid) <? LHUP high))), u32 (LHUP high + LHUP mid))) = (ph, pl) /\ is_u32 pl /\
     same64 (uquad ph pl) (high * 2 ^ 32 + (high + (u1 - u0) * (v0 - v1)) * B)) as (ph & pl & -> & Hpl & [k1 E1]).
  { assert (same64 (uquad (u32 (high + HHALF high)) (LHUP high)) (high * 2 ^ 32 + high * B)) as [k0 E0].
    { destruct (u32_wrap (high + HHALF high)) as [k ->]. exists k. unfold uquad. lia. }
    destruct vn; eexists _, _; (split; [reflexivity |]); (split; [auto |]).
    - destruct (sub_up (u32 (high + HHALF high)) (LHUP high) mid Hlh Hm) as [k E]. exists (k0 + k). rewrite E, E0, Emid. lia.
    - destruct (add_up (u32 (high + HHALF high)) (LHUP high) mid Hlh Hm) as [k E]. exists (k0 + k). rewrite E, E0, Emid. lia. }
  destruct (add_up ph pl low Hpl Hl) as [k2 E2]. set (ph2 := u32 (ph + _)) in *. set (pl2 := u32 (pl + _)) in *.
  assert (is_u32 pl2 /\ is_u32 ph2) as [Hpl2 Hph2] by (subst pl2 ph2; auto).
  destruct (add_low ph2 pl2 low Hpl2 Hl) as [k3 E3]. apply same64_eq; [| | done].
  - exists (k1 + k2 + k3). rewrite E3, E2, E1, Etot. lia.
  - assert (is_u32 (u32 (pl2 + low))) as R1 by auto. assert (is_u32 (if u32 (pl2 + low) <? low then u32 (ph2 + 1) else ph2)) as R2 by (case_match; auto).
    unfold uquad, is_u64, is_u32 in *. lia.
Qed.

(** ** Results *)

Lemma same64_trans a b c : same64 a b -> same64 b c -> same64 a c.
Proof. intros [k ->] [j ->]. exists (j + k). lia. Qed.

Lemma same64_opp a b : same64 a b -> same64 (- a) (- b).
Proof. intros [k ->]. exists (- k). lia. Qed.

Lemma same64_mul a b c d : same64 a b -> same64 c d -> same64 (a * c) (b * d).
Proof. intros [k ->] [j ->]. exists (b * j + k * d + k * j * 2 ^ 64). lia. Qed.

Lemma same64_quad h l : same64 (quad h l) (uquad h l).
Proof. apply same64_s64. Qed.

(** The product of two quads from the words, without the top half. *)
Lemma karatsuba u v :
  let u1 := ulH u in let u0 := ulL u in let v1 := ulH v in let v0 := ulL v in
  let low := lmulq u0 v0 in
  forall mid, (exists k, mid = (u1 - u0) * (v0 - v1) + k * 2 ^ 32) ->
  same64 (uquad (u32 (u32 (u1 * v1) + mid + ulL low + ulH low)) (ulL low)) (u * v).
Proof.
  intros u1 u0 v1 v0 low mid [km Hmid]. destruct (words u) as (Hu1 & Hu0 & Eu), (words v) as (Hv1 & Hv0 & Ev).
  fold u1 in Hu1, Eu. fold u0 in Hu0, Eu. fold v1 in Hv1, Ev. fold v0 in Hv0, Ev.
  assert (low = u0 * v0) as Elow by (apply lmulq_ok; done). destruct (words low) as (_ & _ & El).
  rewrite (u64_id low) in El by (rewrite Elow; unfold_int; nia). unfold uquad in *.
  destruct (same64_u64 u) as [ku Ku], (same64_u64 v) as [kv Kv].
  destruct (u32_wrap (u1 * v1)) as [k1 ->]. destruct (u32_wrap (u1 * v1 + k1 * 2 ^ 32 + mid + ulL low + ulH low)) as [k2 ->].
  assert (u * v = (u1 * 2 ^ 32 + u0 - ku * 2 ^ 64) * (v1 * 2 ^ 32 + v0 - kv * 2 ^ 64)) as -> by (f_equal; lia).
  assert (ulL low = u0 * v0 - ulH low * 2 ^ 32) as -> by lia. rewrite Hmid.
  exists (k1 + k2 + km - ulH low - u1 * v1 + ku * (v1 * 2 ^ 32 + v0) + kv * (u1 * 2 ^ 32 + u0) - ku * kv * 2 ^ 64). lia.
Qed.

Lemma diff_wrap a b : exists k, (if a >=? b then (u32 (a - b), false) else (u32 (b - a), true)) =
  (if a >=? b then a - b + k * 2 ^ 32 else b - a + k * 2 ^ 32, negb (a >=? b)).
Proof. destruct (a >=? b); [destruct (u32_wrap (a - b)) as [k ->] | destruct (u32_wrap (b - a)) as [k ->]]; by exists k. Qed.

(** __muldi3 multiplies: on all signed quads, the result is the product in
    64 bits. *)
Theorem muldi3_correct a b : muldi3 a b = s64 (a * b).
Proof.
  unfold muldi3.
  assert (exists u (na : bool), (if a >=? 0 then (a, false) else (negq a, true)) = (u, na) /\ same64 u (if na then - a else a)) as (u & na & -> & Su).
  { destruct (a >=? 0); eexists _, _; (split; [reflexivity |]); [by exists 0; lia | apply same64_s64]. }
  assert (exists v (nb : bool), (if b >=? 0 then (b, na) else (negq b, negb na)) = (v, nb) /\ same64 (if nb then - (u * v) else u * v) (a * b)) as (v & nb & -> & Sv).
  { destruct (b >=? 0); eexists _, _; (split; [reflexivity |]).
    - destruct Su as [k Ek]. destruct na; [exists (- k * b) | exists (k * b)]; rewrite Ek; lia.
    - destruct (same64_s64 (- b)) as [j Ej], Su as [k Ek]. unfold negq. rewrite Ej, Ek. destruct na; cbn [negb];
        [exists (- a * j + k * (- b) + k * j * 2 ^ 64) | exists (- (a * j + k * (- b) + k * j * 2 ^ 64))]; lia. }
  set (prod := if (ulH u =? 0) && (ulH v =? 0) then _ else _). assert (same64 prod (u * v)) as Sp.
  { subst prod. destruct ((ulH u =? 0) && (ulH v =? 0)) eqn:Ez.
    - zbool. destruct (words u) as (_ & Hu & Eu), (words v) as (_ & Hv & Ev). unfold uquad in *.
      apply (same64_trans _ (lmulq (ulL u) (ulL v))); [apply same64_s64 |]. rewrite lmulq_ok by done.
      replace (ulL u) with (u64 u) by lia. replace (ulL v) with (u64 v) by lia. apply same64_mul; apply same64_u64.
    - destruct (diff_wrap (ulH u) (ulL u)) as [k1 ->]. set (un := ulH u >=? ulL u).
      assert (exists k2 (n : bool), (if ulL v >=? ulH v then (u32 (ulL v - ulH v), negb un) else (u32 (ulH v - ulL v), negb (negb un))) =
        ((if ulL v >=? ulH v then ulL v - ulH v else ulH v - ulL v) + k2 * 2 ^ 32, n) /\ n = xorb (negb un) (negb (ulL v >=? ulH v))) as (k2 & n & -> & ->).
      { destruct (ulL v >=? ulH v); [destruct (u32_wrap (ulL v - ulH v)) as [k ->] | destruct (u32_wrap (ulH v - ulL v)) as [k ->]]; exists k; eexists; (split; [reflexivity |]); by destruct un. }
      apply (same64_trans _ _ _ (same64_quad _ _)). apply karatsuba. set (vn := ulL v >=? ulH v).
      destruct (u32_wrap ((if un then ulH u - ulL u + k1 * 2 ^ 32 else ulL u - ulH u + k1 * 2 ^ 32) * ((if vn then ulL v - ulH v else ulH v - ulL v) + k2 * 2 ^ 32))) as [k3 ->].
      destruct un, vn; cbn [negb xorb].
      + exists (k1 * (ulL v - ulH v) + k2 * (ulH u - ulL u) + k1 * k2 * 2 ^ 32 + k3). lia.
      + match goal with |- context [u32 (- ?x)] => destruct (u32_wrap (- x)) as [k4 ->] end.
        exists (- (k1 * (ulH v - ulL v) + k2 * (ulH u - ulL u) + k1 * k2 * 2 ^ 32 + k3) + k4). lia.
      + match goal with |- context [u32 (- ?x)] => destruct (u32_wrap (- x)) as [k4 ->] end.
        exists (- (k1 * (ulL v - ulH v) + k2 * (ulL u - ulH u) + k1 * k2 * 2 ^ 32 + k3) + k4). lia.
      + exists (k1 * (ulH v - ulL v) + k2 * (ulL u - ulH u) + k1 * k2 * 2 ^ 32 + k3). lia. }
  assert (prod = s64 (u * v)) as Eprod.
  { subst prod. rewrite <- (same64_s64_eq _ _ Sp). destruct ((ulH u =? 0) && (ulH v =? 0)); [| repeat case_match; unfold quad];
      symmetry; apply s64_id; unfold s64, is_s64; match goal with |- _ <= ?x mod _ - _ < _ => pose proof (Z.mod_pos_bound x (2 ^ 64)) end; lia. }
  destruct nb.
  - unfold negq. apply same64_s64_eq. apply (same64_trans _ (- (u * v))); [by apply same64_opp | done].
  - rewrite Eprod. by apply same64_s64_eq.
Qed.

(** C20: __qdivrem divides: for all unsigned quads and a divisor that is not 0 it
    comes back with the quotient and the remainder.  So algorithm D, with its
    estimate of the quotient digits, the correction by one and the digits of 16
    bits, agrees with the division of integers; no intermediate value overflows
    in a way that matters, and no digit outside the arrays is touched. *)
Theorem qdivrem_correct uq vq :
  is_u64 uq -> is_u64 vq -> vq <> 0 -> qdivrem uq vq = Done (uq / vq, uq mod vq).
Proof. apply qdivrem_value. Qed.

Lemma qdivrem_correct_witness :
  qdivrem 0x7fff800100000000 0x800080020005 = Done (65533, 140739635904527).
Proof. rewrite qdivrem_correct; [reflexivity | split; reflexivity || discriminate | split; reflexivity || discriminate | discriminate]. Defined.

(** |a| for a quad, as an unsigned quad *)
Lemma abs_quad a : is_s64 a -> (if a <? 0 then u64 (- u64 a) else a) = Z.abs a /\ is_u64 (Z.abs a).
Proof.
  unfold_int. intros Ha. split; [| lia]. destruct (Z.ltb_spec a 0); [| lia].
  rewrite <- (Z.mod_unique_pos a (2 ^ 64) (-1) (a + 2 ^ 64)) by lia.
  rewrite <- (Z.mod_unique_pos (- (a + 2 ^ 64)) (2 ^ 64) (-1) (- a)) by lia. lia.
Qed.

Lemma signed_result (n : bool) x : s64 (if n then u64 (- x) else x) = s64 (if n then - x else x).
Proof. destruct n; [| done]. apply same64_s64_eq, same64_u64. Qed.

(** signed division and remainder truncate toward zero, and the remainder
    has the sign of the dividend, as C wants; the one quotient that does not
    fit, -2^63 / -1, wraps around. *)
Theorem divdi3_moddi3_correct a b :
  is_s64 a -> is_s64 b -> b <> 0 -> divdi3 a b = Done (s64 (Z.quot a b)) /\ moddi3 a b = Done (Z.rem a b).
Proof.
  intros Ha Hb Hne. destruct (abs_quad a Ha) as [Ea Ua], (abs_quad b Hb) as [Eb Ub].
  assert (qdivrem (Z.abs a) (Z.abs b) = Done (Z.abs a / Z.abs b, Z.abs a mod Z.abs b)) as E by (apply qdivrem_value; [done | done | lia]).
  assert (0 <= Z.abs a mod Z.abs b < Z.abs b) as Hm by (apply Z.mod_pos_bound; lia).
  split.
  - unfold divdi3. transitivity (p ← qdivrem (Z.abs a) (Z.abs b); mret (s64 (if xorb (a <? 0) (b <? 0) then u64 (- p.1) else p.1))).
    { rewrite <- Ea, <- Eb. destruct (a <? 0), (b <? 0); reflexivity. }
    rewrite E, bind_Done_l. cbn [fst]. rewrite signed_result. unfold mret, outcome_ret. do 2 f_equal.
    rewrite Z.quot_div by done. destruct (Z.ltb_spec a 0), (Z.ltb_spec b 0); cbn [xorb];
      rewrite ?(Z.sgn_neg a), ?(Z.sgn_neg b) by lia; rewrite ?(Z.sgn_pos b) by lia; try lia.
    + destruct (Z.eq_dec a 0) as [-> |]; [rewrite Z.abs_0, Z.div_0_l by lia; lia | rewrite (Z.sgn_pos a) by lia; lia].
    + destruct (Z.eq_dec a 0) as [-> |]; [rewrite Z.abs_0, Z.div_0_l by lia; lia | rewrite (Z.sgn_pos a) by lia; lia].
  - unfold moddi3. transitivity (p ← qdivrem (Z.abs a) (Z.abs b); mret (s64 (if a <? 0 then u64 (- p.2) else p.2))).
    { rewrite <- Ea, <- Eb. destruct (a <? 0), (b <? 0); reflexivity. }
    rewrite E, bind_Done_l. cbn [snd]. rewrite signed_result. unfold mret, outcome_ret. f_equal.
    rewrite Z.rem_mod by done. assert (is_s64 (Z.abs a mod Z.abs b)) as Hr.
    { unfold_int. assert (Z.abs a mod Z.abs b <= Z.abs b - 1) by lia. lia. }
    destruct (Z.ltb_spec a 0).
    + rewrite s64_id by (unfold_int; lia). rewrite Z.sgn_neg by lia. lia.
    + rewrite s64_id by done. destruct (Z.eq_dec a 0) as [-> |]; [rewrite Z.abs_0, Z.mod_0_l by lia; lia | rewrite Z.sgn_pos by lia; lia].
Qed.

Lemma divdi3_moddi3_correct_witness :
  divdi3 (-7) 2 = Done (-3) /\ moddi3 (-7) 2 = Done (-1) /\ divdi3 (- 2 ^ 63) (-1) = Done (- 2 ^ 63).
Proof.
  assert (is_s64 (-7) /\ is_s64 2 /\ is_s64 (- 2 ^ 63) /\ is_s64 (-1)) as (H1 & H2 & H3 & H4) by (unfold is_s64; lia).
  destruct (divdi3_moddi3_correct (-7) 2 H1 H2 ltac:(discriminate)) as [-> ->].
  destruct (divdi3_moddi3_correct (- 2 ^ 63) (-1) H3 H4 ltac:(discriminate)) as [-> _]. vm_compute. split; [reflexivity | split; reflexivity].
Defined.

(** ** Addition, shifts and comparison *)

Lemma quad_same h l x : same64 (uquad h l) x -> quad h l = s64 x.
Proof. apply same64_s64_eq. Qed.

(** The words of a quad give it back. *)
Lemma words_same q : exists k, ulH q * 2 ^ 32 + ulL q = q + k * 2 ^ 64.
Proof. destruct (words q) as (_ & _ & E). unfold uquad in E. rewrite E. apply same64_u64. Qed.

(** addition, subtraction and negation of quads with the carry between the
    words are those of 64-bit integers. *)
Theorem quad_add_sub_neg_correct a b :
  adddi3 a b = s64 (a + b) /\ subdi3 a b = s64 (a - b) /\ negdi2 a = s64 (- a).
Proof.
  destruct (words a) as (_ & Ha & _), (words b) as (_ & Hb & _), (words_same a) as [ka Ea], (words_same b) as [kb Eb].
  split_and!; apply quad_same; unfold uquad.
  - pose proof (carry_out (ulL b) (ulL a) Hb Ha) as Ec. rewrite (Z.add_comm (ulL b)) in Ec. set (c := Z.b2z _) in *.
    destruct (u32_wrap (ulH a + ulH b + c)) as [k ->]. exists (ka + kb + k). lia.
  - pose proof (borrow_out (ulL a) (ulL b) Ha Hb) as Ec. set (c := Z.b2z _) in *.
    destruct (u32_wrap (ulH a - ulH b - c)) as [k ->]. exists (ka - kb + k). lia.
  - pose proof (borrow_out 0 (ulL a) ltac:(done) Ha) as Ec. rewrite Z.sub_0_l in Ec. set (c := Z.b2z _) in *.
    destruct (u32_wrap (- ulH a - c)) as [k ->]. exists (k - ka). lia.
Qed.

(** Two words shifted left: the bits that leave the low word enter the high one. *)
Lemma shl_words h l s : is_u32 h -> is_u32 l -> 0 < s < 32 ->
  same64 (uquad (Z.lor (u32 (Z.shiftl h s)) (Z.shiftr l (32 - s))) (u32 (Z.shiftl l s))) ((h * 2 ^ 32 + l) * 2 ^ s).
Proof.
  intros Hh Hl Hs. rewrite !Z.shiftl_mul_pow2, Z.shiftr_div_pow2 by lia. unfold u32.
  assert (2 ^ 32 = 2 ^ (32 - s) * 2 ^ s) as EB by (rewrite <- Z.pow_add_r by lia; f_equal; lia).
  assert (0 < 2 ^ s /\ 0 < 2 ^ (32 - s)) as [P1 P2] by (split; apply Z.pow_pos_nonneg; lia).
  assert (forall x, (x * 2 ^ s) mod 2 ^ 32 = x mod 2 ^ (32 - s) * 2 ^ s) as Em by (intros x; rewrite EB, Z.mul_mod_distr_r by lia; done).
  rewrite !Em, lor_add; [| lia |].
  - pose proof (Z.div_mod h (2 ^ (32 - s)) ltac:(lia)) as E1. pose proof (Z.div_mod l (2 ^ (32 - s)) ltac:(lia)) as E2.
    exists (- (h / 2 ^ (32 - s))). unfold uquad. change (2 ^ 64) with (2 ^ 32 * 2 ^ 32). rewrite EB in *.
    set (p := 2 ^ (32 - s)) in *. set (r := 2 ^ s) in *. set (hm := h mod p) in *. set (lm := l mod p) in *.
    set (hd := h / p) in *. set (ld := l / p) in *. rewrite E1, E2. lia.
  - unfold is_u32 in Hl. rewrite EB in Hl. split; [apply Z.div_pos; lia | apply Z.div_lt_upper_bound; lia].
Qed.

(** Two words shifted right. *)
Lemma shr_words h l s : is_u32 l -> 0 < s < 32 ->
  h / 2 ^ s * 2 ^ 32 + Z.lor (Z.shiftr l s) (u32 (Z.shiftl h (32 - s))) = (h * 2 ^ 32 + l) / 2 ^ s.
Proof.
  intros Hl Hs. rewrite !Z.shiftl_mul_pow2, Z.shiftr_div_pow2 by lia. unfold u32.
  assert (2 ^ 32 = 2 ^ s * 2 ^ (32 - s)) as EB by (rewrite <- Z.pow_add_r by lia; f_equal; lia).
  assert (0 < 2 ^ s /\ 0 < 2 ^ (32 - s)) as [P1 P2] by (split; apply Z.pow_pos_nonneg; lia).
  assert ((h * 2 ^ (32 - s)) mod 2 ^ 32 = h mod 2 ^ s * 2 ^ (32 - s)) as -> by (rewrite EB, Z.mul_mod_distr_r by lia; done).
  rewrite Z.lor_comm, lor_add; [| lia |].
  - replace (h * 2 ^ 32 + l) with (l + h * 2 ^ (32 - s) * 2 ^ s) by (rewrite EB; lia). rewrite Z.div_add by lia.
    pose proof (Z.div_mod h (2 ^ s) ltac:(lia)) as E1. rewrite EB. nia.
  - unfold is_u32 in Hl. rewrite EB in Hl. split; [apply Z.div_pos; lia | apply Z.div_lt_upper_bound; lia].
Qed.

Lemma slH_eq a : is_s64 a -> slH a = a / 2 ^ 32 /\ a = slH a * 2 ^ 32 + ulL a /\ is_s32 (slH a) /\ slH a mod 2 ^ 32 = ulH a.
Proof.
  intros Ha. destruct (words a) as (Hh & Hl & E). unfold uquad in E. unfold slH.
  assert (exists k, s32 (ulH a) = ulH a + k * 2 ^ 32) as [k Ek].
  { exists (- ((ulH a + 2 ^ 31) / 2 ^ 32)). unfold s32. pose proof (Z.div_mod (ulH a + 2 ^ 31) (2 ^ 32)). lia. }
  destruct (same64_u64 a) as [j Ej]. pose proof (s32_range (ulH a)) as Hr.
  assert (a = s32 (ulH a) * 2 ^ 32 + ulL a) as Ea by (rewrite Ek; unfold_int; lia).
  split_and!; [| done | done | rewrite Ek, Z_mod_plus_full; by apply Z.mod_small].
  apply (Z.div_unique_pos a (2 ^ 32) _ (ulL a)); [done | lia].
Qed.

Lemma ashldi3_ok a s : is_s64 a -> 0 <= s -> ashldi3 a s = s64 (a * 2 ^ s).
Proof.
  intros Ha Hs. destruct (words a) as (Hh & Hl & _), (words_same a) as [ka Ea]. unfold ashldi3, LONG_BITS, QUAD_BITS.
  destruct (Z.geb_spec s 32); [destruct (Z.geb_spec s 64) |].
  - apply quad_same. exists (- (a * 2 ^ (s - 64))). unfold uquad. replace (2 ^ s) with (2 ^ (s - 64) * 2 ^ 64) by (rewrite <- Z.pow_add_r by lia; f_equal; lia). lia.
  - apply quad_same. rewrite Z.shiftl_mul_pow2 by lia. destruct (u32_wrap (ulL a * 2 ^ (s - 32))) as [k ->].
    assert (2 ^ s = 2 ^ (s - 32) * 2 ^ 32) as -> by (rewrite <- Z.pow_add_r by lia; f_equal; lia).
    exists (k - ulH a * 2 ^ (s - 32) + ka * 2 ^ (s - 32) * 2 ^ 32). unfold uquad. nia.
  - destruct (Z.gtb_spec s 0).
    + apply quad_same. destruct (shl_words (ulH a) (ulL a) s Hh Hl) as [k ->]; [lia |]. exists (k + ka * 2 ^ s). nia.
    + assert (s = 0) as -> by lia. rewrite Z.pow_0_r, Z.mul_1_r. by rewrite s64_id.
Qed.

Lemma lshrdi3_ok a s : is_s64 a -> 0 <= s -> lshrdi3 a s = s64 (u64 a / 2 ^ s).
Proof.
  intros Ha Hs. destruct (words a) as (Hh & Hl & E). unfold uquad in E. unfold lshrdi3, LONG_BITS, QUAD_BITS.
  pose proof (Z.mod_pos_bound a (2 ^ 64) ltac:(lia)) as Hu. fold (u64 a) in Hu.
  destruct (Z.geb_spec s 32); [destruct (Z.geb_spec s 64) |].
  - rewrite Z.div_small; [done |]. split; [lia |]. apply (Z.lt_le_trans _ (2 ^ 64)); [lia | apply Z.pow_le_mono_r; lia].
  - rewrite Z.shiftr_div_pow2 by lia. unfold quad, uquad. f_equal. replace s with (32 + (s - 32)) at 2 by lia.
    rewrite Z.pow_add_r, <- Z.div_div by lia. rewrite <- E, Z.div_add_l, (Z.div_small (ulL a)) by (done || lia). by rewrite Z.add_0_r.
  - destruct (Z.gtb_spec s 0).
    + unfold quad, uquad. f_equal. rewrite <- E, <- shr_words by (done || lia). by rewrite (Z.shiftr_div_pow2 (ulH a)) by lia.
    + assert (s = 0) as -> by lia. rewrite Z.pow_0_r, Z.div_1_r. rewrite (same64_s64_eq _ _ (same64_u64 a)). by rewrite s64_id.
Qed.

(** A word with its sign in front. *)
Lemma sign_extend x y : is_s32 x -> y = x / 2 ^ 32 -> quad (u32 y) (u32 x) = x.
Proof.
  intros Hx ->. rewrite (quad_same _ _ x); [rewrite s64_id; [done | unfold_int; lia] |].
  destruct (u32_wrap (x / 2 ^ 32)) as [k ->]. exists k. unfold uquad, u32. pose proof (Z.div_mod x (2 ^ 32) ltac:(lia)). lia.
Qed.

Lemma div_s32 x p : is_s32 x -> 0 < p -> is_s32 (x / p) /\ x / p / 2 ^ 32 = x / 2 ^ 32.
Proof.
  unfold is_s32. intros Hx Hp. assert (- 2 ^ 31 <= x / p < 2 ^ 31) as Hr.
  { split; [apply Z.div_le_lower_bound; nia | apply Z.div_lt_upper_bound; nia]. }
  split; [done |]. destruct (Z.lt_ge_cases x 0).
  - assert (x / p < 0) by (apply Z.div_lt_upper_bound; lia).
    rewrite <- (Z.div_unique_pos x (2 ^ 32) (-1) (x + 2 ^ 32)) by lia. by rewrite <- (Z.div_unique_pos (x / p) (2 ^ 32) (-1) (x / p + 2 ^ 32)) by lia.
  - assert (0 <= x / p) by (apply Z.div_pos; lia). by rewrite !Z.div_small by lia.
Qed.

Lemma ashrdi3_ok a s : is_s64 a -> 0 <= s -> ashrdi3 a s = a / 2 ^ s.
Proof.
  intros Ha Hs. destruct (slH_eq a Ha) as (Eh & Ea & Hh & Emod). destruct (words a) as (_ & Hl & _).
  unfold ashrdi3, LONG_BITS, QUAD_BITS. rewrite Z.shiftr_shiftr by lia. rewrite (Z.shiftr_div_pow2 (slH a) (32 - 1 + 1)) by lia. change (32 - 1 + 1) with 32.
  destruct (Z.geb_spec s 32) as [H32 |]; [destruct (Z.geb_spec s 64) as [H64 |] |].
  - destruct (div_s32 (slH a) (2 ^ 32) Hh ltac:(lia)) as [Hx E1]. rewrite sign_extend by (done || lia).
    assert (slH a / 2 ^ 32 = a / 2 ^ 64) as -> by (rewrite Eh, Z.div_div by lia; done).
    assert (a / 2 ^ s = a / 2 ^ 64 / 2 ^ (s - 64)) as -> by (rewrite Z.div_div, <- Z.pow_add_r by lia; do 2 f_equal; lia).
    assert (a / 2 ^ 64 = -1 \/ a / 2 ^ 64 = 0) as [-> | ->]; [| | by rewrite Z.div_0_l by lia].
    + destruct (Z.lt_ge_cases a 0); [left; symmetry; apply (Z.div_unique_pos a (2 ^ 64) (-1) (a + 2 ^ 64)); unfold_int; lia | right; apply Z.div_small; unfold_int; lia].
    + rewrite <- (Z.div_unique_pos (-1) (2 ^ (s - 64)) (-1) (2 ^ (s - 64) - 1)); lia.
  - rewrite (Z.shiftr_div_pow2 (slH a) (s - 32)) by lia. destruct (div_s32 (slH a) (2 ^ (s - 32)) Hh ltac:(lia)) as [Hx E1].
    rewrite sign_extend by (done || lia). rewrite Eh, Z.div_div, <- Z.pow_add_r by lia. do 2 f_equal. lia.
  - destruct (Z.gtb_spec s 0).
    + assert (u32 (Z.shiftl (ulH a) (32 - s)) = u32 (Z.shiftl (slH a) (32 - s))) as ->.
      { rewrite !Z.shiftl_mul_pow2, <- Emod by lia. unfold u32. by rewrite Z.mul_mod_idemp_l. }
      rewrite (quad_same _ _ (a / 2 ^ s)).
      * apply s64_id. unfold_int. split; [apply Z.div_le_lower_bound; nia | apply Z.div_lt_upper_bound; nia].
      * pose proof (shr_words (slH a) (ulL a) s Hl ltac:(lia)) as E. rewrite <- Ea in E. rewrite <- E, (Z.shiftr_div_pow2 (slH a)) by lia.
        destruct (u32_wrap (slH a / 2 ^ s)) as [k ->]. exists k. unfold uquad. lia.
    + assert (s = 0) as -> by lia. by rewrite Z.pow_0_r, Z.div_1_r.
Qed.

(** the shifts of quads for every count: to the left by zero fill, to the right
    by zero fill or with the sign; counts of 32 and 64 and more included. *)
Theorem quad_shift_correct a s : is_s64 a -> 0 <= s ->
  ashldi3 a s = s64 (a * 2 ^ s) /\ lshldi3 a s = s64 (a * 2 ^ s) /\
  lshrdi3 a s = s64 (u64 a / 2 ^ s) /\ ashrdi3 a s = a / 2 ^ s.
Proof.
  intros Ha Hs. split_and!; [by apply ashldi3_ok | by apply ashldi3_ok | by apply lshrdi3_ok | by apply ashrdi3_ok].
Qed.

Lemma quad_shift_correct_witness : ashldi3 (-5) 40 = -5497558138880 /\ ashrdi3 (-5497558138880) 40 = -5.
Proof.
  destruct (quad_shift_correct (-5) 40 ltac:(unfold is_s64; lia) ltac:(lia)) as [-> _].
  destruct (quad_shift_correct (-5497558138880) 40 ltac:(unfold is_s64; lia) ltac:(lia)) as (_ & _ & _ & ->). split; reflexivity.
Defined.

(** the comparisons return 0, 1 or 2 as a is less than, equal to or greater
    than b, for signed and for unsigned quads. *)
Theorem quad_cmp_correct a b :
  (is_s64 a -> is_s64 b -> cmpdi2 a b = if a <? b then 0 else if a =? b then 1 else 2) /\
  (is_u64 a -> is_u64 b -> ucmpdi2 a b = if a <? b then 0 else if a =? b then 1 else 2).
Proof.
  split; intros Ha Hb.
  - destruct (slH_eq a Ha) as (_ & Ea & _ & _), (slH_eq b Hb) as (_ & Eb & _ & _), (words a) as (_ & Hla & _), (words b) as (_ & Hlb & _).
    unfold cmpdi2. rewrite !Z.gtb_ltb. unfold is_u32 in *.
    repeat match goal with |- context [?x <? ?y] => destruct (Z.ltb_spec x y) | |- context [?x =? ?y] => destruct (Z.eqb_spec x y) end; lia.
  - destruct (words a) as (Hha & Hla & Ea), (words b) as (Hhb & Hlb & Eb). rewrite u64_id in Ea, Eb by done. unfold uquad in *.
    unfold ucmpdi2. rewrite !Z.gtb_ltb. unfold is_u32 in *.
    repeat match goal with |- context [?x <? ?y] => destruct (Z.ltb_spec x y) | |- context [?x =? ?y] => destruct (Z.eqb_spec x y) end; lia.
Qed.

Lemma quad_cmp_correct_witness : cmpdi2 (-1) 1 = 0 /\ ucmpdi2 (2 ^ 64 - 1) 1 = 2.
Proof.
  destruct (quad_cmp_correct (-1) 1) as [-> _]; [| unfold is_s64; lia | unfold is_s64; lia].
  destruct (quad_cmp_correct (2 ^ 64 - 1) 1) as [_ ->]; [| unfold is_u64; lia | unfold is_u64; lia]. split; reflexivity.
Defined.
