(* ===== verification/Strtol.v ===== *)
(** * Numbers and text: sys/libkern/strtol.c, strtoul.c, strtoq.c, strtouq.c and
    ksprintn of sys/kern/subr_prf.c

    The four functions that read a number share all their text but the limits.
    Memory is a list of bytes, a pointer an index into it; a long has 64 bits.
    The results of the functions are the number and the value for *endptr. *)

From stdpp Require Import prelude list.
From S2P Require Import Prelude.
Open Scope Z_scope.

(** ** sys/sys/ctype.h *)

Definition isspace (c : Z) : bool := (c =? 32) || ((c >=? 9) && (c <=? 13)).
Definition isascii (c : Z) : bool := Z.land c (Z.lnot 0x7f) =? 0.
Definition isupper (c : Z) : bool := (c >=? 65) && (c <=? 90).
Definition islower (c : Z) : bool := (c >=? 97) && (c <=? 122).
Definition isalpha (c : Z) : bool := isupper c || islower c.
Definition isdigit (c : Z) : bool := (c >=? 48) && (c <=? 57).
Definition toupper (c : Z) : Z := c - 0x20 * Z.b2z ((c >=? 97) && (c <=? 122)).

Definition LONG_MAX : Z := 2 ^ 63 - 1.
Definition LONG_MIN : Z := - 2 ^ 63.
Definition ULONG_MAX : Z := 2 ^ 64 - 1.
Definition QUAD_MAX : Z := 2 ^ 63 - 1.
Definition QUAD_MIN : Z := - 2 ^ 63.
Definition UQUAD_MAX : Z := 2 ^ 64 - 1.

(** ** The common text *)

(** do { c = *s++; } while (isspace(c)); *)
Fixpoint skip_space (fuel : nat) (str : list Z) (s : Z) : outcome (Z * Z) :=
  c ← aget str s;
  if isspace c
  then match fuel with O => Fault OutOfFuel | S fuel => skip_space fuel str (s + 1) end
  else mret (c, s + 1).

(** The sign. *)
Definition take_sign (str : list Z) (c s : Z) : outcome (Z * Z * bool) :=
  if c =? 45 then c ← aget str s; mret (c, s + 1, true)
  else if c =? 43 then c ← aget str s; mret (c, s + 1, false)
  else mret (c, s, false).

(** 0x, and the base if it is 0. *)
Definition take_base (str : list Z) (c s base : Z) : outcome (Z * Z * Z) :=
  '(c, s, base) ←
    (if ((base =? 0) || (base =? 16)) && (c =? 48)
     then
       x ← aget str s;
       if (x =? 120) || (x =? 88) then c ← aget str (s + 1); mret (c, s + 2, 16)
       else mret (c, s, base)
     else mret (c, s, base));
  mret (c, s, if base =? 0 then if c =? 48 then 8 else 10 else base).

(** The value of a character as a digit, none where the loop breaks. *)
Definition digit_of (c : Z) : option Z :=
  if negb (isascii c) then None
  else if isdigit c then Some (u8 (c - 48))
  else if isalpha c then Some (u8 (c - (if isupper c then 65 - 10 else 97 - 10)))
  else None.

(** for (acc = 0, any = 0;; c = *s++) ...: acc, any and s at the end *)
Fixpoint digit_loop (fuel : nat) (str : list Z) (base cutoff cutlim c s acc any : Z) :
    outcome (Z * Z * Z) :=
  match digit_of c with
  | None => mret (acc, any, s)
  | Some d =>
      if d >=? base then mret (acc, any, s)
      else
        let '(acc, any) :=
          if (any <? 0) || (acc >? cutoff) || ((acc =? cutoff) && (d >? cutlim)) then (acc, -1)
          else (u64 (u64 (acc * u64 base) + d), 1) in
        match fuel with
        | O => Fault OutOfFuel
        | S fuel => c ← aget str s; digit_loop fuel str base cutoff cutlim c (s + 1) acc any
        end
  end.

(** Up to the loop and through it: acc, any, s and neg; [limit] gives the largest
    absolute value. *)
Definition read_number (str : list Z) (nptr base : Z) (limit : bool -> Z) :
    outcome (Z * Z * Z * bool) :=
  '(c, s) ← skip_space (length str) str nptr;
  '(c, s, neg) ← take_sign str c s;
  '(c, s, base) ← take_base str c s base;
  let cutlim := s32 (limit neg mod u64 base) in
  let cutoff := limit neg / u64 base in
  '(acc, any, s) ← digit_loop (length str) str base cutoff cutlim c s 0 0;
  mret (acc, any, s, neg).

(** *endptr = any ? s - 1 : nptr *)
Definition endptr (any s nptr : Z) : Z := if negb (any =? 0) then s - 1 else nptr.

Definition strtol (str : list Z) (nptr base : Z) : outcome (Z * Z) :=
  '(acc, any, s, neg) ← read_number str nptr base (fun neg => if neg then u64 (- u64 LONG_MIN) else LONG_MAX);
  let acc := if any <? 0 then u64 (if neg : bool then LONG_MIN else LONG_MAX)
             else if neg then u64 (- acc) else acc in
  mret (s64 acc, endptr any s nptr).

Definition strtoul (str : list Z) (nptr base : Z) : outcome (Z * Z) :=
  '(acc, any, s, neg) ← read_number str nptr base (fun _ => ULONG_MAX);
  let acc := if any <? 0 then ULONG_MAX else if neg : bool then u64 (- acc) else acc in
  mret (acc, endptr any s nptr).

Definition strtoq (str : list Z) (nptr base : Z) : outcome (Z * Z) :=
  '(acc, any, s, neg) ← read_number str nptr base
     (fun neg => if neg then u64 (u64 (- (QUAD_MIN + QUAD_MAX)) + QUAD_MAX) else QUAD_MAX);
  let acc := if any <? 0 then u64 (if neg : bool then QUAD_MIN else QUAD_MAX)
             else if neg then u64 (- acc) else acc in
  mret (s64 acc, endptr any s nptr).

Definition strtouq (str : list Z) (nptr base : Z) : outcome (Z * Z) :=
  '(acc, any, s, neg) ← read_number str nptr base (fun _ => UQUAD_MAX);
  let acc := if any <? 0 then UQUAD_MAX else if neg : bool then u64 (- acc) else acc in
  mret (acc, endptr any s nptr).

(** ** ksprintn *)

(** hex2ascii_data of sys/libkern/bcd.c *)
Definition hex2ascii_data : list Z :=
  [48; 49; 50; 51; 52; 53; 54; 55; 56; 57; 97; 98; 99; 100; 101; 102; 103; 104; 105; 106; 107; 108;
   109; 110; 111; 112; 113; 114; 115; 116; 117; 118; 119; 120; 121; 122].

(** do { ... } while (num /= base); the digits go into nbuf[1 ..], the last one
    first; p is the position of the last character written *)
Fixpoint ksprintn_loop (fuel : nat) (nbuf : list Z) (p num base : Z) (upper : bool) :
    outcome (list Z * Z) :=
  c ← aget hex2ascii_data (num mod base);
  nbuf ← aput nbuf (p + 1) (if upper then toupper c else c);
  let num := num / base in
  if num =? 0 then mret (nbuf, p + 1)
  else match fuel with O => Fault OutOfFuel | S fuel => ksprintn_loop fuel nbuf (p + 1) num base upper end.

Definition ksprintn (nbuf : list Z) (num base : Z) (upper : bool) : outcome (list Z * Z) :=
  nbuf ← aput nbuf 0 0;
  if base =? 0 then Fault DivideByZero
  else ksprintn_loop (length nbuf) nbuf 0 num base upper.

(** What kvcprintf makes of it: it prints from p down to the NUL at the start. *)
Fixpoint print_down (fuel : nat) (nbuf : list Z) (p : Z) : outcome (list Z) :=
  c ← aget nbuf p;
  if c =? 0 then mret []
  else match fuel with O => Fault OutOfFuel | S fuel => l ← print_down fuel nbuf (p - 1); mret (c :: l) end.

Definition MAXNBUF : Z := 8 * 8 + 1.

Example strtol_hex : strtol [32; 45; 48; 120; 49; 70; 122; 0] 0 0 = Done (-31, 6).
Proof. reflexivity. Qed.
Example strtol_max : strtol [57; 50; 50; 51; 51; 55; 50; 48; 51; 54; 56; 53; 52; 55; 55; 53; 56; 48; 56; 0] 0 10 = Done (LONG_MAX, 19).
Proof. vm_compute. reflexivity. Qed.
Example strtol_min : strtol [45; 57; 50; 50; 51; 51; 55; 50; 48; 51; 54; 56; 53; 52; 55; 55; 53; 56; 48; 56; 0] 0 10 = Done (LONG_MIN, 20).
Proof. vm_compute. reflexivity. Qed.
Example ksprintn_dec : (p ← ksprintn (replicate 65 0) 1234 10 false; print_down 65 p.1 p.2) = Done [49; 50; 51; 52].
Proof. reflexivity. Qed.
