(* ===== verification/StrtolProps.v ===== *)
(** * Numbers and text: results

    A reference reads a number from a list of characters, without pointers and
    with integers that do not overflow.  The C functions agree with it, with the
    result limited to the type. *)

From stdpp Require Import prelude list.
From S2P Require Import Prelude.
From S2P Require Import Strtol.
Open Scope Z_scope.

(** ** The reference *)

Fixpoint ref_space (l : list Z) : list Z :=
  match l with c :: l' => if isspace c then ref_space l' else l | [] => [] end.

Definition ref_sign (l : list Z) : bool * list Z :=
  if hd0 l =? 45 then (true, tail l) else if hd0 l =? 43 then (false, tail l) else (false, l).

Definition ref_base (base : Z) (l : list Z) : Z * list Z :=
  if ((base =? 0) || (base =? 16)) && (hd0 l =? 48) && ((hd0 (tail l) =? 120) || (hd0 (tail l) =? 88))
  then (16, drop 2 l)
  else (if base =? 0 then if hd0 l =? 48 then 8 else 10 else base, l).

(** The digits at the start, in base [b]. *)
Fixpoint ref_digits (b : Z) (l : list Z) : list Z :=
  match l with
  | c :: l => match digit_of c with
              | Some d => if d <? b then d :: ref_digits b l else []
              | None => []
              end
  | [] => []
  end.

(** Horner's rule. *)
Definition horner (b : Z) (ds : list Z) (a : Z) : Z := fold_left (fun a d => a * b + d) ds a.

Record number := Number { n_neg : bool; n_abs : Z; n_some : bool; n_len : Z }.

Definition ref_number (base : Z) (l : list Z) : number :=
  let '(neg, l2) := ref_sign (ref_space l) in
  let '(b, l3) := ref_base base l2 in
  let ds := ref_digits b l3 in
  Number neg (horner b ds 0) (negb (bool_decide (ds = []))) (zlen l - zlen l3 + zlen ds).

(** The signed value, limited to [lo, hi]; *endptr is the start if there were no
    digits. *)
Definition ref_result (nptr lo hi : Z) (n : number) : Z * Z :=
  (Z.max lo (Z.min hi (if n_neg n then - n_abs n else n_abs n)),
   if n_some n then nptr + n_len n else nptr).

(** A base that the functions accept. *)
Definition base_ok (base : Z) : Prop := base = 0 \/ 2 <= base <= 36.

(** ** The pointer and the rest of the string *)

(** [c] is the character before [s], and the rest of the string from [c] on is [l]. *)
Definition reading (str : list Z) (c s : Z) (l : list Z) : Prop :=
  string_at str (s - 1) l /\ c = hd0 l.

Lemma reading_next str c s l : reading str c s l -> c <> 0 ->
  exists l', l = c :: l' /\ aget str s = Done (hd0 l') /\ reading str (hd0 l') (s + 1) l'.
Proof.
  intros [H ->] Hc. destruct l as [| x l]; [done |]. apply string_next in H. rewrite Z.sub_add in H.
  exists l. split_and!; [done | by apply string_get |]. split; [| done]. by replace (s + 1 - 1) with s by lia.
Qed.

Lemma skip_space_ok str l : forall fuel p, string_at str p l -> (length l <= fuel)%nat ->
  exists s, skip_space fuel str p = Done (hd0 (ref_space l), s) /\ reading str (hd0 (ref_space l)) s (ref_space l) /\
    s = p + zlen l - zlen (ref_space l) + 1.
Proof.
  induction l as [| c l IH]; intros fuel p H Hf.
  - exists (p + 1). unfold reading. replace (p + 1 - 1) with p by lia.
    destruct fuel; cbn [skip_space]; rewrite (string_get _ _ _ H), bind_Done_l; (split_and!; [done | done | done | unfold zlen; cbn; lia]).
  - cbn [ref_space]. destruct (isspace c) eqn:Ec.
    + destruct fuel as [| fuel]; [cbn in Hf; lia |]. cbn [skip_space]. rewrite (string_get _ _ _ H), bind_Done_l, hd0_cons, Ec.
      destruct (IH fuel (p + 1)) as (s & -> & Hr & Hs); [by eapply string_next | cbn in Hf; lia |].
      exists s. split_and!; [done | done | rewrite zlen_cons; lia].
    + exists (p + 1). unfold reading. replace (p + 1 - 1) with p by lia.
      destruct fuel; cbn [skip_space]; rewrite (string_get _ _ _ H), bind_Done_l, hd0_cons, Ec; (split_and!; [done | done | done | lia]).
Qed.

Lemma take_sign_ok str c s l : reading str c s l ->
  exists s', take_sign str c s = Done (hd0 (ref_sign l).2, s', (ref_sign l).1) /\ reading str (hd0 (ref_sign l).2) s' (ref_sign l).2 /\
    s' = s + zlen l - zlen (ref_sign l).2.
Proof.
  intros H. pose proof H as [_ ->]. unfold take_sign, ref_sign. destruct (Z.eqb_spec (hd0 l) 45) as [E |]; [| destruct (Z.eqb_spec (hd0 l) 43) as [E |]].
  1, 2: destruct (reading_next _ _ _ _ H) as (l' & El & Eg & Hr); [lia |]; rewrite Eg, bind_Done_l; rewrite El; cbn [tail fst snd];
    exists (s + 1); (split_and!; [done | exact Hr | rewrite zlen_cons; lia]).
  exists s. split_and!; [done | exact H | cbn; lia].
Qed.

Lemma take_base_ok str c s l base : reading str c s l ->
  exists s', take_base str c s base = Done (hd0 (ref_base base l).2, s', (ref_base base l).1) /\
    reading str (hd0 (ref_base base l).2) s' (ref_base base l).2 /\ s' = s + zlen l - zlen (ref_base base l).2.
Proof.
  intros H. pose proof H as [_ Ec]. unfold take_base, ref_base. rewrite <- Ec.
  destruct (((base =? 0) || (base =? 16)) && (c =? 48)) eqn:E0; cbn [andb].
  - apply andb_true_iff in E0 as [Eb E48%Z.eqb_eq]. destruct (reading_next _ _ _ _ H) as (l1 & -> & Eg & Hr1); [lia |].
    rewrite Eg, bind_Done_l. cbn [tail drop]. destruct ((hd0 l1 =? 120) || (hd0 l1 =? 88)) eqn:Ex.
    + assert (hd0 l1 <> 0) as Hx by (intros E; rewrite E in Ex; done). destruct (reading_next _ _ _ _ Hr1 Hx) as (l2 & -> & Eg2 & Hr2).
      rewrite Eg2, !bind_Done_l. cbn [fst snd Z.eqb drop]. exists (s + 2). replace (s + 1 + 1) with (s + 2) in Hr2 by lia.
      split_and!; [done | exact Hr2 | rewrite drop_0, !zlen_cons; lia].
    + rewrite bind_Done_l. exists s. cbn [fst snd]. subst c. rewrite hd0_cons. split_and!; [done | exact H | lia].
  - rewrite bind_Done_l. exists s. cbn [fst snd]. rewrite <- Ec. split_and!; [done | exact H | lia].
Qed.

(** ** The loop over the digits *)

Lemma digit_of_range c d : digit_of c = Some d -> 0 <= d < 256.
Proof.
  unfold digit_of. repeat case_match; intros [= <-]; apply Z.mod_pos_bound; done.
Qed.

Lemma horner_ge b ds : forall a, 2 <= b -> Forall (fun d => 0 <= d) ds -> 0 <= a -> a <= horner b ds a.
Proof.
  unfold horner. induction ds as [| d ds IH]; intros a Hb Hd Ha; [cbn; lia |]. apply Forall_cons in Hd as [Hd Hds].
  cbn [fold_left]. etrans; [| apply IH; [done | done | nia]]. nia.
Qed.

Lemma ref_digits_ok b l : Forall (fun d => 0 <= d < b) (ref_digits b l).
Proof.
  induction l as [| c l IH]; cbn [ref_digits]; [constructor |]. destruct (digit_of c) eqn:E; [| constructor].
  apply digit_of_range in E. destruct (Z.ltb_spec z b); constructor; [lia | done].
Qed.

(** The test for overflow, without overflow: the next digit still fits. *)
Lemma cutoff_test M b acc d : 2 <= b <= 36 -> 0 <= M -> 0 <= d < b ->
  ((acc >? M / b) || ((acc =? M / b) && (d >? s32 (M mod b)))) = (M <? acc * b + d).
Proof.
  intros Hb HM Hd. pose proof (Z.div_mod M b ltac:(lia)) as E. pose proof (Z.mod_pos_bound M b ltac:(lia)) as Hm.
  rewrite s32_id by (unfold is_s32; lia). apply Bool.eq_true_iff_eq.
  rewrite orb_true_iff, andb_true_iff, !Z.gtb_lt, Z.eqb_eq, Z.ltb_lt. nia.
Qed.

(** Once the limit is passed, any is -1; before, acc is the exact value. *)
Definition loop_state (M b : Z) (ds : list Z) (acc any v : Z) : Prop :=
  if M <? v then any = -1 else acc = v /\ any = if bool_decide (ds = []) then 0 else 1.

Lemma digit_loop_ok str b M l : forall fuel c s acc any ds v,
  reading str c s l -> (length l <= fuel)%nat -> 2 <= b <= 36 -> 0 <= M < 2 ^ 64 -> 0 <= v ->
  loop_state M b ds acc any v ->
  exists acc' any', digit_loop fuel str b (M / b) (s32 (M mod b)) c s acc any = Done (acc', any', s + zlen (ref_digits b l)) /\
    loop_state M b (ds ++ ref_digits b l) acc' any' (horner b (ref_digits b l) v).
Proof.
  induction l as [| c l IH]; intros fuel c0 s acc any ds v Hr Hf Hb HM Hv Hst.
  - destruct Hr as [_ ->]. exists acc, any. rewrite app_nil_r. unfold zlen. rewrite Z.add_0_r. split; [| done]. by destruct fuel.
  - destruct (digit_of c) as [d |] eqn:Ed; cycle 1.
    { destruct Hr as [_ ->]. exists acc, any. cbn [ref_digits]. rewrite Ed, app_nil_r. unfold zlen. rewrite Z.add_0_r.
      split; [| done]. rewrite hd0_cons. destruct fuel; cbn [digit_loop]; by rewrite Ed. }
    pose proof Hr as [Hstr ->]. rewrite hd0_cons in *. cbn [ref_digits]. rewrite Ed. pose proof (digit_of_range _ _ Ed) as Hd.
    destruct (Z.ltb_spec d b) as [Hlt | Hge]; cycle 1.
    { exists acc, any. rewrite app_nil_r. unfold zlen. rewrite Z.add_0_r. split; [| done].
      destruct fuel; cbn [digit_loop]; rewrite Ed; destruct (Z.geb_spec d b); done || lia. }
    destruct fuel as [| fuel]; [cbn in Hf; lia |]. cbn [digit_loop]. rewrite Ed. destruct (Z.geb_spec d b); [lia |].
    assert (c <> 0) as Hc by (intros ->; discriminate Ed).
    destruct (reading_next _ _ _ _ Hr Hc) as (l' & [= <-] & Eg & Hr').
    assert (exists acc1 any1, (if (any <? 0) || (acc >? M / b) || ((acc =? M / b) && (d >? s32 (M mod b))) then (acc, -1)
        else (u64 (u64 (acc * u64 b) + d), 1)) = (acc1, any1) /\ loop_state M b (ds ++ [d]) acc1 any1 (v * b + d)) as (acc1 & any1 & -> & Hst1).
    { rewrite <- orb_assoc, cutoff_test by lia. unfold loop_state in *. rewrite (bool_decide_eq_false_2 (ds ++ [d] = [])) by (by destruct ds).
      destruct (Z.ltb_spec M v).
      - subst any. cbn [orb Z.ltb Z.compare]. rewrite (proj2 (Z.ltb_lt M (v * b + d))) by nia. by eexists _, _.
      - destruct Hst as [-> ->]. assert (((if bool_decide (ds = []) then 0 else 1) <? 0) = false) as -> by (by case_bool_decide).
        cbn [orb]. destruct (Z.ltb_spec M (v * b + d)); eexists _, _; (split; [reflexivity |]); [done |]. split; [| done].
        rewrite (u64_id b) by (unfold is_u64; lia). rewrite (u64_id (v * b)) by (unfold is_u64; nia). by rewrite u64_id by (unfold is_u64; nia). }
    rewrite Eg, bind_Done_l.
    destruct (IH fuel (hd0 l) (s + 1) acc1 any1 (ds ++ [d]) (v * b + d) Hr' ltac:(cbn in Hf; lia) Hb HM ltac:(nia) Hst1) as (acc' & any' & -> & Hst').
    exists acc', any'. rewrite zlen_cons. split; [do 2 f_equal; lia |]. by rewrite <- app_assoc in Hst'.
Qed.

(** ** The functions *)

Lemma ref_base_ok base l : base_ok base -> 2 <= (ref_base base l).1 <= 36.
Proof. unfold base_ok, ref_base. intros Hb. repeat case_match; cbn [fst]; zbool; lia. Qed.

Lemma string_suffix str p l s l' : string_at str p l -> reading str (hd0 l') s l' -> (length l' < length str)%nat.
Proof. intros _ [H _]. by eapply string_bound. Qed.

Lemma read_number_ok str nptr base limit l : let n := ref_number base l in
  string_at str nptr l -> base_ok base -> (forall neg, 0 <= limit neg < 2 ^ 64) ->
  exists acc any, read_number str nptr base limit = Done (acc, any, nptr + n_len n + 1, n_neg n) /\
    if limit (n_neg n) <? n_abs n then any = -1 else acc = n_abs n /\ any = Z.b2z (n_some n).
Proof.
  intros n Hstr Hb HM. subst n. unfold read_number, ref_number.
  destruct (skip_space_ok str l (length str) nptr Hstr) as (s1 & -> & H1 & E1); [pose proof (string_bound _ _ _ Hstr); lia |]. rewrite bind_Done_l.
  destruct (take_sign_ok _ _ _ _ H1) as (s2 & -> & H2 & E2). rewrite bind_Done_l. destruct (ref_sign (ref_space l)) as [neg l2]. cbn [fst snd] in *.
  destruct (take_base_ok _ _ _ _ base H2) as (s3 & -> & H3 & E3). rewrite bind_Done_l.
  pose proof (ref_base_ok base l2 Hb) as Hbb. destruct (ref_base base l2) as [b l3]. cbn [fst snd] in *.
  rewrite (u64_id b) by (unfold is_u64; lia).
  destruct (digit_loop_ok str b (limit neg) l3 (length str) (hd0 l3) s3 0 0 [] 0) as (acc & any & -> & Hst); try done.
  { pose proof (string_suffix _ _ _ _ _ Hstr H3). lia. }
  { unfold loop_state. specialize (HM neg). rewrite (proj2 (Z.ltb_ge _ _)) by lia. done. }
  rewrite bind_Done_l. exists acc, any. cbn [n_len n_neg n_abs n_some]. split; [do 3 f_equal; lia |].
  unfold loop_state in Hst. cbn [app] in Hst. destruct (limit neg <? _); [done |]. destruct Hst as [-> ->]. split; [done |]. by case_bool_decide.
Qed.

Lemma endptr_ok any nptr n : any = -1 \/ any = Z.b2z (n_some n) -> (any = -1 -> n_some n = true) ->
  endptr any (nptr + n_len n + 1) nptr = if n_some n then nptr + n_len n else nptr.
Proof.
  unfold endptr. intros [-> | ->] Hs; [rewrite Hs by done | destruct (n_some n)]; cbn; lia.
Qed.

Lemma ref_some base l : n_some (ref_number base l) = false -> n_abs (ref_number base l) = 0.
Proof.
  unfold ref_number. destruct (ref_sign (ref_space l)) as [neg l2]. destruct (ref_base base l2) as [b l3]. cbn [n_some n_abs].
  rewrite negb_false_iff, bool_decide_eq_true. by intros ->.
Qed.

Lemma ref_abs_nonneg base l : base_ok base -> 0 <= n_abs (ref_number base l).
Proof.
  intros Hb. unfold ref_number. destruct (ref_sign (ref_space l)) as [neg l2]. pose proof (ref_base_ok base l2 Hb) as Hbb.
  destruct (ref_base base l2) as [b l3]. cbn [n_abs fst] in *. apply horner_ge; [lia | | done].
  eapply Forall_impl; [apply ref_digits_ok |]. cbn. lia.
Qed.

(** The end of all four functions, from the state that read_number leaves. *)
Lemma read_finish_ok base l M any acc nptr : let n := ref_number base l in
  base_ok base -> 0 <= M -> (if M <? n_abs n then any = -1 else acc = n_abs n /\ any = Z.b2z (n_some n)) ->
  (any <? 0) = (M <? n_abs n) /\ ((M <? n_abs n) = false -> acc = n_abs n) /\
  endptr any (nptr + n_len n + 1) nptr = if n_some n then nptr + n_len n else nptr.
Proof.
  intros n Hb HM Hst. subst n. destruct (Z.ltb_spec M (n_abs (ref_number base l))) as [Hlt | Hge].
  - subst any. split_and!; [done | done |]. apply endptr_ok; [by left |]. intros _.
    destruct (n_some (ref_number base l)) eqn:E; [done |]. apply ref_some in E. lia.
  - destruct Hst as [-> ->]. split_and!; [by destruct (n_some _) | done |]. apply endptr_ok; [by right |]. by destruct (n_some _).
Qed.

Lemma s64_u64 x : s64 (u64 x) = s64 x.
Proof. unfold s64, u64. by rewrite Zplus_mod_idemp_l. Qed.

Lemma signed_ok str nptr base l limit :
  string_at str nptr l -> base_ok base -> (forall neg, limit neg = if neg : bool then 2 ^ 63 else 2 ^ 63 - 1) ->
  ('(acc, any, s, neg) ← read_number str nptr base limit;
   let acc := if any <? 0 then u64 (if neg : bool then - 2 ^ 63 else 2 ^ 63 - 1) else if neg then u64 (- acc) else acc in
   mret (s64 acc, endptr any s nptr)) = Done (ref_result nptr (- 2 ^ 63) (2 ^ 63 - 1) (ref_number base l)).
Proof.
  intros Hstr Hb Hlim. destruct (read_number_ok str nptr base limit l Hstr Hb) as (acc & any & -> & Hst).
  { intros neg. rewrite Hlim. destruct neg; lia. }
  rewrite bind_Done_l. set (n := ref_number base l) in *. rewrite Hlim in Hst.
  destruct (read_finish_ok base l (if n_neg n then 2 ^ 63 else 2 ^ 63 - 1) any acc nptr) as (Ea & Hacc & Ee); [done | by destruct (n_neg n) | done |].
  fold n in Ea, Hacc, Ee. rewrite Ee. unfold mret, outcome_ret, ref_result. f_equal. f_equal. rewrite Ea.
  pose proof (ref_abs_nonneg base l Hb) as H0. fold n in H0.
  destruct (n_neg n).
  - destruct (Z.ltb_spec (2 ^ 63) (n_abs n)); [rewrite s64_u64, s64_id by (unfold is_s64; lia); lia |].
    rewrite Hacc, s64_u64, s64_id by (done || unfold is_s64; lia). lia.
  - destruct (Z.ltb_spec (2 ^ 63 - 1) (n_abs n)); [rewrite s64_u64, s64_id by (unfold is_s64; lia); lia |].
    rewrite Hacc, s64_id by (done || unfold is_s64; lia). lia.
Qed.

Lemma unsigned_ok str nptr base l :
  string_at str nptr l -> base_ok base ->
  ('(acc, any, s, neg) ← read_number str nptr base (fun _ => 2 ^ 64 - 1);
   let acc := if any <? 0 then 2 ^ 64 - 1 else if neg : bool then u64 (- acc) else acc in
   mret (acc, endptr any s nptr)) =
  let n := ref_number base l in
  Done (if 2 ^ 64 - 1 <? n_abs n then 2 ^ 64 - 1 else if n_neg n then u64 (- n_abs n) else n_abs n,
        if n_some n then nptr + n_len n else nptr).
Proof.
  intros Hstr Hb. destruct (read_number_ok str nptr base (fun _ => 2 ^ 64 - 1) l Hstr Hb) as (acc & any & -> & Hst); [lia |].
  rewrite bind_Done_l. cbv zeta. set (n := ref_number base l) in *.
  destruct (read_finish_ok base l (2 ^ 64 - 1) any acc nptr) as (Ea & Hacc & Ee); [done | lia | done |].
  fold n in Ea, Hacc, Ee. rewrite Ee, Ea. unfold mret, outcome_ret. do 2 f_equal.
  destruct (2 ^ 64 - 1 <? n_abs n); [done |]. by rewrite Hacc.
Qed.

(** ** Results *)

(** C40: strtol and strtoq read the number that the reference reads, for every
    string and every base: the value if it fits, otherwise the nearest limit of
    the type, and *endptr behind the last digit, or at the start if there are no
    digits.  They never read past the end of the string. *)
Theorem strtol_strtoq_correct str nptr base l :
  string_at str nptr l -> base_ok base ->
  strtol str nptr base = Done (ref_result nptr LONG_MIN LONG_MAX (ref_number base l)) /\
  strtoq str nptr base = Done (ref_result nptr QUAD_MIN QUAD_MAX (ref_number base l)).
Proof.
  intros Hstr Hb. split; apply signed_ok; try done; by intros [].
Qed.

Lemma strtol_strtoq_correct_witness :
  strtol [7; 45; 57; 57; 33; 0] 1 10 = Done (-99, 4) /\ strtoq [7; 45; 57; 57; 33; 0] 1 10 = Done (-99, 4).
Proof.
  apply (strtol_strtoq_correct [7; 45; 57; 57; 33; 0] 1 10 [45; 57; 57; 33]).
  - exists [7], []. split; [reflexivity |]. split; [reflexivity |]. repeat (apply Forall_cons_2; [lia |]). apply Forall_nil_2.
  - right. lia.
Defined.

(** strtoul and strtouq read the same numbers; a number that is too large gives
    the largest value, a negative one wraps around. *)
Theorem strtoul_strtouq_correct str nptr base l :
  string_at str nptr l -> base_ok base ->
  let n := ref_number base l in
  let r := (if ULONG_MAX <? n_abs n then ULONG_MAX else if n_neg n then u64 (- n_abs n) else n_abs n,
            if n_some n then nptr + n_len n else nptr) in
  strtoul str nptr base = Done r /\ strtouq str nptr base = Done r.
Proof. intros Hstr Hb n r. split; by apply unsigned_ok. Qed.

Lemma strtoul_strtouq_correct_witness :
  strtoul [48; 120; 70; 70; 0] 0 0 = Done (255, 4) /\ strtouq [48; 120; 70; 70; 0] 0 0 = Done (255, 4).
Proof.
  apply (strtoul_strtouq_correct [48; 120; 70; 70; 0] 0 0 [48; 120; 70; 70]).
  - exists [], []. split; [reflexivity |]. split; [reflexivity |]. repeat (apply Forall_cons_2; [lia |]). apply Forall_nil_2.
  - left. reflexivity.
Defined.

(** ** ksprintn *)

(** The character for a digit. *)
Definition char_of (upper : bool) (d : Z) : Z :=
  let c := nth (Z.to_nat d) hex2ascii_data 0 in if upper then toupper c else c.

(** A digit is written as a character that reads as the digit and is not NUL, a
    space, a sign or, below 16, an x. *)
Definition char_ok (upper : bool) (d : Z) : bool :=
  let c := char_of upper d in
  bool_decide (hex2ascii_data !! Z.to_nat d = Some (nth (Z.to_nat d) hex2ascii_data 0)) &&
  (bool_decide (digit_of c = Some d) && ((0 <? c) && ((c <? 256) && (negb (isspace c) && (negb (c =? 45) && (negb (c =? 43) &&
  ((16 <=? d) || negb ((c =? 120) || (c =? 88))))))))).

Lemma chars_ok upper d : 0 <= d < 36 -> let c := char_of upper d in
  aget hex2ascii_data d = Done (nth (Z.to_nat d) hex2ascii_data 0) /\ digit_of c = Some d /\ 0 < c < 256 /\
  isspace c = false /\ c <> 45 /\ c <> 43 /\ (d < 16 -> (c =? 120) || (c =? 88) = false).
Proof.
  intros Hd. assert (forallb (char_ok upper) (seqZ 0 36) = true) as H by (destruct upper; vm_compute; reflexivity).
  rewrite forallb_forall in H. specialize (H d). cbv zeta. rewrite aget_Done. unfold char_ok in H. cbv zeta in H.
  rewrite !andb_true_iff, !bool_decide_eq_true, !negb_true_iff, orb_true_iff, !Z.ltb_lt, !Z.eqb_neq, Z.leb_le, negb_true_iff in H.
  destruct H as (H1 & H2 & H3 & H4 & H5 & H6 & H7 & H8); [apply list_elem_of_In, elem_of_seqZ; lia |].
  split; [split; [lia | done] |]. repeat (split; [done || lia |]). intros Hd16. destruct H8 as [H8 | H8]; [lia | exact H8].
Qed.

(** The digits of a number, the last one first. *)
Lemma ksprintn_loop_ok base upper : 2 <= base <= 36 -> forall fuel X R p num,
  zlen X = p + 1 -> 0 <= num < base ^ zlen R -> (length R <= fuel)%nat -> R <> [] ->
  exists ds R', ksprintn_loop fuel (X ++ R) p num base upper = Done (X ++ map (char_of upper) ds ++ R', p + zlen ds) /\
    ds <> [] /\ Forall (fun d => 0 <= d < base) ds /\ horner base (rev ds) 0 = num /\ (length ds <= length R)%nat.
Proof.
  intros Hb. induction fuel as [| fuel IH]; intros X R p num HX Hnum Hf HR; [destruct R; cbn in Hf; [done | lia] |].
  destruct R as [| r R]; [done |]. cbn [ksprintn_loop].
  assert (0 <= num mod base < base) as Hm by (apply Z.mod_pos_bound; lia).
  destruct (chars_ok upper (num mod base) ltac:(lia)) as [Hc _]. rewrite Hc, bind_Done_l. fold (char_of upper (num mod base)).
  rewrite (aput_at (X ++ r :: R) _ _ X r R), bind_Done_l by (done || lia).
  pose proof (Z.div_mod num base ltac:(lia)) as Edm.
  destruct (Z.eqb_spec (num / base) 0) as [E0 | E0].
  - exists [num mod base], R. split_and!; [done | done | by constructor | unfold horner; cbn; lia | cbn; lia].
  - destruct (IH (X ++ [char_of upper (num mod base)]) R (p + 1) (num / base)) as (ds & R' & E & Hne & Hd & Ev & HLd).
    + zl.
    + rewrite zlen_cons, Z.pow_add_r, Z.pow_1_r in Hnum by (unfold zlen; lia). split; [apply Z.div_pos; lia | apply Z.div_lt_upper_bound; lia].
    + cbn in Hf. lia.
    + intros ->. rewrite zlen_cons in Hnum. change (base ^ (1 + zlen [])) with (base ^ 1) in Hnum. rewrite Z.pow_1_r in Hnum.
      apply E0, Z.div_small. lia.
    + rewrite <- app_assoc in E. cbn [app] in E. rewrite E. exists (num mod base :: ds), R'.
      split_and!; [cbn [map]; rewrite zlen_cons; f_equal; f_equal; [by lnorm | lia] | done | by constructor | | cbn; lia].
      cbn [rev]. unfold horner in *. rewrite fold_left_app, Ev. cbn. lia.
Qed.

Lemma print_down_ok X R : forall fuel, Forall (fun c => c <> 0) X -> (length X <= fuel)%nat ->
  print_down fuel (0 :: X ++ R) (zlen X) = Done (rev X).
Proof.
  revert R. induction X as [| c X IH] using rev_ind; intros R fuel HX Hf.
  - destruct fuel; done.
  - rewrite length_app in Hf. cbn in Hf. destruct fuel as [| fuel]; [lia |]. cbn [print_down].
    apply Forall_app in HX as [HX [Hc _]%Forall_cons].
    rewrite (aget_at _ _ (0 :: X) c R), bind_Done_l by ((by lnorm) || zl). destruct (Z.eqb_spec c 0); [done |].
    replace (zlen (X ++ [c]) - 1) with (zlen X) by zl. rewrite <- app_assoc, (IH ([c] ++ R)) by (done || lia).
    rewrite bind_Done_l, rev_app_distr. done.
Qed.

Lemma ref_digits_chars upper b ds : 2 <= b <= 36 -> Forall (fun d => 0 <= d < b) ds -> ref_digits b (map (char_of upper) ds) = ds.
Proof.
  intros Hb. induction 1 as [| d ds Hd _ IH]; [done |]. cbn [map ref_digits].
  destruct (chars_ok upper d ltac:(lia)) as (_ & -> & _). rewrite (proj2 (Z.ltb_lt d b)) by lia. by rewrite IH.
Qed.

(** What the reference reads from digits alone. *)
Lemma ref_number_chars upper b ds : 2 <= b <= 36 -> Forall (fun d => 0 <= d < b) ds -> ds <> [] ->
  ref_number b (map (char_of upper) ds) = Number false (horner b ds 0) true (zlen ds).
Proof.
  intros Hb Hds Hne. unfold ref_number. set (l := map (char_of upper) ds).
  assert (ref_digits b l = ds) as El by (by apply ref_digits_chars). destruct ds as [| d ds]; [done |].
  pose proof Hds as [Hd Hds']%Forall_cons. destruct (chars_ok upper d ltac:(lia)) as (_ & _ & Hc & Hsp & H45 & H43 & _).
  assert (ref_space l = l) as -> by (cbn [l map ref_space]; by rewrite Hsp).
  assert (ref_sign l = (false, l)) as ->.
  { unfold ref_sign. cbn [l map]. rewrite hd0_cons. by rewrite (proj2 (Z.eqb_neq _ _) H45), (proj2 (Z.eqb_neq _ _) H43). }
  assert (ref_base b l = (b, l)) as ->.
  { unfold ref_base. rewrite (proj2 (Z.eqb_neq b 0)) by lia. cbn [orb].
    destruct (Z.eqb_spec b 16) as [-> |]; [| done]. cbn [andb]. destruct (hd0 l =? 48); [| done]. cbn [andb l map tail].
    destruct ds as [| d2 ds]; [done |]. cbn [map]. rewrite hd0_cons. apply Forall_cons in Hds' as [Hd2 _].
    destruct (chars_ok upper d2 ltac:(lia)) as (_ & _ & _ & _ & _ & _ & Hx). rewrite Hx by lia. done. }
  rewrite El. f_equal. lia.
Qed.

(** what ksprintn prints, strtouq reads back: for every number of 64 bits, every
    base and both cases of letters, the digits fit into a buffer of MAXNBUF
    characters, and reading them gives the number and consumes them all. *)
Theorem ksprintn_strtouq_roundtrip nbuf num base upper :
  zlen nbuf = MAXNBUF -> is_u64 num -> 2 <= base <= 36 ->
  exists nbuf' p txt, ksprintn nbuf num base upper = Done (nbuf', p) /\
    print_down (length nbuf) nbuf' p = Done txt /\ strtouq (txt ++ [0]) 0 base = Done (num, zlen txt).
Proof.
  intros HL Hnum Hb. destruct nbuf as [| x nbuf]; [done |]. unfold ksprintn.
  rewrite (aput_at (x :: nbuf) 0 0 [] x nbuf), bind_Done_l by done. cbn [app]. destruct (Z.eqb_spec base 0); [lia |].
  destruct (ksprintn_loop_ok base upper Hb (length (0 :: nbuf)) [0] nbuf 0 num) as (ds & R' & E & Hne & Hds & Ev & HLd).
  { done. }
  { rewrite zlen_cons in HL. replace (zlen nbuf) with 64 by (unfold MAXNBUF in HL; lia). unfold is_u64 in Hnum.
    assert (2 ^ 64 <= base ^ 64) by (apply Z.pow_le_mono_l; lia). lia. }
  { cbn. lia. }
  { intros ->. unfold zlen, MAXNBUF in HL. cbn in HL. lia. }
  cbn [app] in E. rewrite E, Z.add_0_l.
  assert (Forall (fun d => 0 <= d < base) (rev ds)) as Hrev by (by apply Forall_rev).
  set (txt := map (char_of upper) (rev ds)).
  assert (Forall (fun c => 0 < c < 256) txt) as Htxt.
  { apply Forall_map. eapply Forall_impl; [exact Hrev |]. cbn. intros d Hd. destruct (chars_ok upper d ltac:(lia)) as (_ & _ & Hc & _). exact Hc. }
  eexists _, _, txt. split; [reflexivity |]. split.
  - replace (zlen ds) with (zlen (map (char_of upper) ds)) by (unfold zlen; by rewrite length_map).
    rewrite print_down_ok; [unfold txt; by rewrite map_rev | |].
    + apply Forall_map. eapply Forall_impl; [exact Hds |]. cbn. intros d Hd. destruct (chars_ok upper d ltac:(lia)) as (_ & _ & Hc & _). cbn in Hc. lia.
    + rewrite length_map. cbn. lia.
  - unfold strtouq. etrans; [apply (unsigned_ok (txt ++ [0]) 0 base txt); [| by right] |].
    { exists [], []. by split_and!. }
    unfold txt. rewrite ref_number_chars by (done || by intros ?%(f_equal (@rev Z)); rewrite rev_involutive in *). cbv zeta. cbn [n_abs n_neg n_some n_len].
    rewrite Ev. unfold is_u64 in Hnum. rewrite (proj2 (Z.ltb_ge _ num)) by lia. do 2 f_equal. unfold zlen. rewrite length_map. lia.
Qed.

Lemma ksprintn_strtouq_roundtrip_witness :
  exists nbuf' p txt, ksprintn (replicate 65 7) 48879 16 true = Done (nbuf', p) /\
    print_down 65 nbuf' p = Done txt /\ strtouq (txt ++ [0]) 0 16 = Done (48879, zlen txt).
Proof. apply (ksprintn_strtouq_roundtrip (replicate 65 7) 48879 16 true); [reflexivity | unfold is_u64; lia | lia]. Defined.

(** "0x" without a digit behind it: the C standard reads the 0 and stops at the x;
    strtol reads nothing and sets *endptr to the start. *)
Theorem strtol_bare_0x : strtol [48; 120; 0] 0 16 = Done (0, 0) /\ strtol [48; 121; 0] 0 16 = Done (0, 1).
Proof. split; reflexivity. Qed.
