(* ===== verification/Libstr.v ===== *)
(** * Strings: sys/libkern/str*.c, index.c, memcchr.c

    A block of memory is a list of bytes, 0 to 255, and a pointer an index into it.
    A function that copies has a block to write to and a block to read from: their
    strings may not overlap. *)

From stdpp Require Import prelude list.
From S2P Require Import Prelude.
Open Scope Z_scope.

(** ** Length and search *)

(** for (s = str; *s; ++s); *)
Fixpoint strlen_loop (fuel : nat) (mem : list Z) (s : Z) : outcome Z :=
  c ← aget mem s;
  if c =? 0 then mret s
  else match fuel with O => Fault OutOfFuel | S fuel => strlen_loop fuel mem (s + 1) end.

Definition strlen (mem : list Z) (str : Z) : outcome Z :=
  s ← strlen_loop (length mem) mem str; mret (s - str).

(** index(p, ch) and rindex(p, ch); the result is a pointer or NULL.  A char is
    signed, and compared with the int ch. *)
Fixpoint index_loop (fuel : nat) (mem : list Z) (p ch : Z) : outcome (option Z) :=
  c ← aget mem p;
  if s8 c =? ch then mret (Some p)
  else if c =? 0 then mret None
  else match fuel with O => Fault OutOfFuel | S fuel => index_loop fuel mem (p + 1) ch end.

Definition index (mem : list Z) (p ch : Z) : outcome (option Z) := index_loop (length mem) mem p ch.

Fixpoint rindex_loop (fuel : nat) (mem : list Z) (p ch : Z) (save : option Z) : outcome (option Z) :=
  c ← aget mem p;
  let save := if s8 c =? ch then Some p else save in
  if c =? 0 then mret save
  else match fuel with O => Fault OutOfFuel | S fuel => rindex_loop fuel mem (p + 1) ch save end.

Definition rindex (mem : list Z) (p ch : Z) : outcome (option Z) := rindex_loop (length mem) mem p ch None.

(** ** Comparison *)

(** while (s1 and s2 point to the same character) if it is NUL return (0); the
    difference of the characters otherwise *)
Fixpoint strcmp (fuel : nat) (m1 m2 : list Z) (s1 s2 : Z) : outcome Z :=
  a ← aget m1 s1;
  b ← aget m2 s2;
  if a =? b then
    if a =? 0 then mret 0
    else match fuel with O => Fault OutOfFuel | S fuel => strcmp fuel m1 m2 (s1 + 1) (s2 + 1) end
  else mret (a - b).

(** do { ... } while (--n != 0); n counts down *)
Fixpoint strncmp (n : nat) (m1 m2 : list Z) (s1 s2 : Z) : outcome Z :=
  match n with
  | O => mret 0
  | S n =>
      a ← aget m1 s1;
      b ← aget m2 s2;
      if negb (a =? b) then mret (a - b)
      else if a =? 0 then mret 0
      else strncmp n m1 m2 (s1 + 1) (s2 + 1)
  end.

(** ** Copies *)

(** The do-while loop of strlcpy, entered with n > 0: dst, d, s and n *)
Fixpoint strlcpy_loop (n : nat) (dst src : list Z) (d s : Z) : outcome (list Z * Z * Z * nat) :=
  match n with
  | O => mret (dst, d, s, O)
  | S n' =>
      c ← aget src s;
      dst ← aput dst d c;
      if c =? 0 then mret (dst, d + 1, s + 1, n) else strlcpy_loop n' dst src (d + 1) (s + 1)
  end.

(** while ( *s++ ) ; *)
Definition skip_rest (src : list Z) (s : Z) : outcome Z :=
  s ← strlen_loop (length src) src s; mret (s + 1).

Definition strlcpy (dst src : list Z) (dst0 src0 siz : Z) : outcome (list Z * Z) :=
  '(dst, d, s, n) ←
    (if (negb (siz =? 0)) && (negb (siz - 1 =? 0))
     then strlcpy_loop (Z.to_nat (siz - 1)) dst src dst0 src0
     else mret (dst, dst0, src0, O));
  '(dst, s) ←
    (if Nat.eqb n 0 then
       dst ← (if negb (siz =? 0) then aput dst d 0 else mret dst);
       s ← skip_rest src s;
       mret (dst, s)
     else mret (dst, s));
  mret (dst, s - src0 - 1).

(** while (n-- != 0 && the character at d is not NUL) d++; *)
Fixpoint strlcat_end (n : nat) (dst : list Z) (d : Z) : outcome Z :=
  match n with
  | O => mret d
  | S n => c ← aget dst d; if c =? 0 then mret d else strlcat_end n dst (d + 1)
  end.

(** while ( *s ) { if (n != 1) { *d++ = *s; n--; } s++; } *)
Fixpoint strlcat_loop (fuel : nat) (dst src : list Z) (d s n : Z) : outcome (list Z * Z * Z) :=
  c ← aget src s;
  if c =? 0 then mret (dst, d, s)
  else
    '(dst, d, n) ←
      (if negb (n =? 1) then dst ← aput dst d c; mret (dst, d + 1, n - 1) else mret (dst, d, n));
    match fuel with O => Fault OutOfFuel | S fuel => strlcat_loop fuel dst src d (s + 1) n end.

Definition strlcat (dst src : list Z) (dst0 src0 siz : Z) : outcome (list Z * Z) :=
  d ← strlcat_end (Z.to_nat siz) dst dst0;
  let dlen := d - dst0 in
  let n := siz - dlen in
  if n =? 0 then k ← strlen src src0; mret (dst, dlen + k)
  else
    '(dst, d, s) ← strlcat_loop (length src) dst src d src0 n;
    dst ← aput dst d 0;
    mret (dst, dlen + (s - src0)).

(** The padding and the copy of strncpy. *)
Fixpoint strncpy_pad (n : nat) (dst : list Z) (d : Z) : outcome (list Z) :=
  match n with O => mret dst | S n => dst ← aput dst d 0; strncpy_pad n dst (d + 1) end.

Fixpoint strncpy (n : nat) (dst src : list Z) (d s : Z) : outcome (list Z) :=
  match n with
  | O => mret dst
  | S n =>
      c ← aget src s;
      dst ← aput dst d c;
      if c =? 0 then strncpy_pad n dst (d + 1) else strncpy n dst src (d + 1) (s + 1)
  end.

(** ** strsep *)

(** do { if ((sc = *spanp++) == c) ... } while (sc != 0); is c among the delimiters
    or NUL? *)
Fixpoint strsep_span (fuel : nat) (delim : list Z) (spanp c : Z) : outcome bool :=
  sc ← aget delim spanp;
  if sc =? c then mret true
  else if sc =? 0 then mret false
  else match fuel with O => Fault OutOfFuel | S fuel => strsep_span fuel delim (spanp + 1) c end.

(** for (tok = s;;) ...: the memory and the new *stringp *)
Fixpoint strsep_loop (fuel : nat) (mem delim : list Z) (s : Z) : outcome (list Z * option Z) :=
  c ← aget mem s;
  found ← strsep_span (length delim) delim 0 c;
  if found : bool then
    if c =? 0 then mret (mem, None)
    else mem ← aput mem s 0; mret (mem, Some (s + 1))
  else match fuel with O => Fault OutOfFuel | S fuel => strsep_loop fuel mem delim (s + 1) end.

(** The memory, *stringp and the token. *)
Definition strsep (mem delim : list Z) (stringp : option Z) : outcome (list Z * option Z * option Z) :=
  match stringp with
  | None => mret (mem, None, None)
  | Some s => '(mem, sp) ← strsep_loop (length mem) mem delim s; mret (mem, sp, Some s)
  end.

(** ** memcchr *)

(** The eight bytes from an aligned address on, as a little-endian word. *)
Fixpoint load (k : nat) (mem : list Z) (a : Z) : outcome Z :=
  match k with
  | O => mret 0
  | S k => x ← aget mem a; r ← load k mem (a + 1); mret (x + 2 ^ 8 * r)
  end.

(** Eight repetitions of c. *)
Definition repeat_byte (c : Z) : Z :=
  let word := u8 c in
  let word := Z.lor word (u64 (Z.shiftl word 8)) in
  let word := Z.lor word (u64 (Z.shiftl word 16)) in
  Z.lor word (u64 (Z.shiftl word 32)).

(** TESTBYTE from p on, [k] times at most: where p stops, and if it met another
    character *)
Fixpoint testbytes (k : nat) (mem : list Z) (p c : Z) : outcome (Z * bool) :=
  match k with
  | O => mret (p, false)
  | S k => x ← aget mem p; if negb (x =? c) then mret (p, true) else testbytes k mem (p + 1) c
  end.

(** for (; lp < end; lp++) ...: the p of done, or none *)
Fixpoint memcchr_words (fuel : nat) (mem : list Z) (lp endp c : Z) : outcome (option Z) :=
  if lp <? endp then
    w ← load 8 mem lp;
    if negb (w =? repeat_byte c) then '(p, _) ← testbytes 7 mem lp (u8 c); mret (Some p)
    else match fuel with O => Fault OutOfFuel | S fuel => memcchr_words fuel mem (lp + 8) endp c end
  else mret None.

(** The address [begin] is its index in the block, which starts at an aligned
    address. *)
Definition memcchr (mem : list Z) (begin c n : Z) : outcome (option Z) :=
  if n =? 0 then mret None
  else
    let lp := Z.ldiff begin 7 in
    let endp := begin + n in
    w ← load 8 mem lp;
    '(p, done) ←
      (if negb (w =? repeat_byte c) then testbytes (Z.to_nat (lp + 8 - begin)) mem begin (u8 c)
       else mret (begin, false));
    r ← (if done : bool then mret (Some p) else memcchr_words (Z.to_nat n) mem (lp + 8) endp c);
    mret (match r with Some p => if p <? endp then Some p else None | None => None end).

Example strlcpy_cut : strlcpy (replicate 6 9) [104; 101; 108; 108; 111; 0] 1 0 4 = Done ([9; 104; 101; 108; 0; 9], 5).
Proof. reflexivity. Qed.
Example strlcat_fits : strlcat [97; 0; 9; 9; 9; 9] [98; 99; 0] 0 0 6 = Done ([97; 98; 99; 0; 9; 9], 3).
Proof. reflexivity. Qed.
Example memcchr_far : memcchr (replicate 20 5 ++ [6] ++ replicate 11 5) 3 5 29 = Done (Some 20).
Proof. reflexivity. Qed.
