(* ===== verification/LibstrProps.v ===== *)
(** * Strings: results

    What the string functions do to the strings [l] that [string_at] finds in
    memory, and which bytes of the destination they write. *)

From stdpp Require Import prelude list.
From S2P Require Import Prelude.
From S2P Require Import Libstr.
Open Scope Z_scope.

(** ** Length and search *)

Lemma hd0_nonzero l : Forall (fun c => 0 < c < 256) l -> hd0 l = 0 <-> l = [].
Proof. intros HF. destruct l; [done |]. apply Forall_inv in HF. cbn. split; [lia | done]. Qed.

Lemma string_nul mem p l : string_at mem p l -> (hd0 l =? 0) = bool_decide (l = []).
Proof.
  intros (A & C & _ & _ & HF). pose proof (hd0_nonzero l HF) as Hz.
  destruct (Z.eqb_spec (hd0 l) 0); case_bool_decide; naive_solver.
Qed.

Lemma strlen_loop_ok mem l : forall fuel p, string_at mem p l -> (length l <= fuel)%nat ->
  strlen_loop fuel mem p = Done (p + zlen l).
Proof.
  induction l as [| c l IH]; intros fuel p H Hf;
    destruct fuel as [| fuel]; cbn [strlen_loop]; rewrite (string_get _ _ _ H), bind_Done_l, (string_nul _ _ _ H); cbn [length] in Hf.
  1,2: rewrite bool_decide_true by done; unfold zlen; cbn; by rewrite Z.add_0_r.
  - lia.
  - rewrite bool_decide_false by done. rewrite (IH fuel (p + 1)) by (first [by eapply string_next | lia]).
    f_equal. rewrite zlen_cons. lia.
Qed.

Lemma strlen_ok mem p l : string_at mem p l -> strlen mem p = Done (zlen l).
Proof.
  intros H. unfold strlen. rewrite (strlen_loop_ok mem l) by (first [done | apply string_bound in H; lia]).
  rewrite bind_Done_l. unfold mret, outcome_ret. f_equal. lia.
Qed.

(** ** Comparison *)

(** The order of strings by their first difference. *)
Fixpoint string_cmp (l1 l2 : list Z) : Z :=
  match l1, l2 with
  | a :: l1, b :: l2 => if a =? b then string_cmp l1 l2 else a - b
  | _, _ => hd0 l1 - hd0 l2
  end.

Lemma string_cmp_hd l1 l2 : hd0 l1 <> hd0 l2 -> string_cmp l1 l2 = hd0 l1 - hd0 l2.
Proof.
  destruct l1 as [| a l1], l2 as [| b l2]; cbn; intros H; try done.
  by rewrite (proj2 (Z.eqb_neq a b)).
Qed.

Lemma string_hd_eq m1 m2 p1 p2 l1 l2 : string_at m1 p1 l1 -> string_at m2 p2 l2 -> hd0 l1 = hd0 l2 ->
  (l1 = [] /\ l2 = []) \/ exists a k1 k2, l1 = a :: k1 /\ l2 = a :: k2.
Proof.
  intros (? & ? & _ & _ & H1) (? & ? & _ & _ & H2) E.
  destruct l1 as [| a l1], l2 as [| b l2]; [by left | apply Forall_inv in H2 | apply Forall_inv in H1 |]; cbn in E; [lia | lia |].
  right. subst. eauto.
Qed.

Lemma strcmp_ok m1 m2 l1 : forall l2 fuel s1 s2, string_at m1 s1 l1 -> string_at m2 s2 l2 -> (length l1 <= fuel)%nat ->
  strcmp fuel m1 m2 s1 s2 = Done (string_cmp l1 l2).
Proof.
  induction l1 as [| a l1 IH]; intros l2 fuel s1 s2 H1 H2 Hf; (destruct fuel as [| fuel]; cbn [strcmp]; cbn [length] in Hf; [try lia |]);
    rewrite (string_get _ _ _ H1), (string_get _ _ _ H2), !bind_Done_l;
    match goal with |- context [?x =? ?y] => destruct (Z.eqb_spec x y) as [E | E] end;
    try (by rewrite string_cmp_hd by done);
    destruct (string_hd_eq _ _ _ _ _ _ H1 H2 E) as [[E1 ->] | (? & k1 & k2 & [= <- <-] & ->)]; try done.
  rewrite (string_nul _ _ _ H1), bool_decide_false by done.
  rewrite (IH k2 fuel (s1 + 1) (s2 + 1)) by (first [by eapply string_next | lia]).
  cbn. by rewrite Z.eqb_refl.
Qed.

Lemma strncmp_ok m1 m2 l1 : forall l2 n s1 s2, string_at m1 s1 l1 -> string_at m2 s2 l2 ->
  strncmp n m1 m2 s1 s2 = Done (string_cmp (take n l1) (take n l2)).
Proof.
  induction l1 as [| a l1 IH]; intros l2 n s1 s2 H1 H2; (destruct n as [| n]; [done |]; cbn [strncmp]);
    rewrite (string_get _ _ _ H1), (string_get _ _ _ H2), !bind_Done_l;
    match goal with |- context [negb (?x =? ?y)] => destruct (Z.eqb_spec x y) as [E | E] end; cbn [negb];
    try (by rewrite string_cmp_hd; destruct l2);
    destruct (string_hd_eq _ _ _ _ _ _ H1 H2 E) as [[E1 ->] | (? & k1 & k2 & [= <- <-] & ->)]; try done.
  rewrite (string_nul _ _ _ H1), bool_decide_false by done.
  rewrite (IH k2 n (s1 + 1) (s2 + 1)) by (by eapply string_next).
  cbn. by rewrite Z.eqb_refl.
Qed.

Lemma string_cmp_eq l1 : forall l2, Forall (fun c => 0 < c < 256) l1 -> Forall (fun c => 0 < c < 256) l2 ->
  string_cmp l1 l2 = 0 <-> l1 = l2.
Proof.
  induction l1 as [| a l1 IH]; intros [| b l2] H1 H2; cbn; [done | | |].
  - apply Forall_inv in H2. split; [lia | done].
  - apply Forall_inv in H1. split; [lia | done].
  - destruct (Z.eqb_spec a b) as [-> | E].
    + rewrite IH by (by eapply Forall_inv_tail). naive_solver.
    + split; [lia | naive_solver].
Qed.

(** Less: the shorter of two strings with a common beginning, or the smaller
    character at the first difference. *)
Definition string_lt (l1 l2 : list Z) : Prop :=
  exists p, (exists b k, l1 = p /\ l2 = p ++ b :: k) \/ (exists a b k1 k2, l1 = p ++ a :: k1 /\ l2 = p ++ b :: k2 /\ a < b).

Lemma string_lt_cons a l1 l2 : string_lt l1 l2 -> string_lt (a :: l1) (a :: l2).
Proof.
  intros [p [(b & k & -> & ->) | (x & y & k1 & k2 & -> & -> & H)]]; exists (a :: p); [left; by exists b, k | right; by exists x, y, k1, k2].
Qed.

Lemma string_cmp_lt l1 : forall l2, Forall (fun c => 0 < c < 256) l1 -> Forall (fun c => 0 < c < 256) l2 ->
  string_cmp l1 l2 < 0 <-> string_lt l1 l2.
Proof.
  induction l1 as [| a l1 IH]; intros [| b l2] H1 H2; cbn.
  - split; [done |]. intros [[] [(? & ? & ? & ?) | (? & ? & ? & ? & ? & ?)]]; simplify_list_eq.
  - apply Forall_inv in H2. split; [| lia]. intros _. exists []. left. by exists b, l2.
  - apply Forall_inv in H1. split; [lia |]. intros [[] [(? & ? & ? & ?) | (? & ? & ? & ? & ? & ? & ?)]]; simplify_list_eq.
  - destruct (Z.eqb_spec a b) as [-> | E].
    + rewrite IH by (by eapply Forall_inv_tail). split; [apply string_lt_cons |].
      intros [[| c p] [(? & ? & ? & ?) | (? & ? & ? & ? & ? & ? & ?)]]; simplify_list_eq; [lia | exists p; left; eauto | exists p; right; eauto 10].
    + split.
      * intros. exists []. right. exists a, b, l1, l2. split_and!; [done | done | lia].
      * intros [[| c p] [(? & ? & ? & ?) | (? & ? & ? & ? & ? & ? & ?)]]; simplify_list_eq; lia.
Qed.

(** ** Copies *)

Ltac pairs := repeat match goal with |- (_, _) = (_, _) => f_equal | |- Done _ = Done _ => f_equal end.

(** The string [t] written over the beginning of [R]. *)
Definition put_string (t R : list Z) : list Z := t ++ 0 :: drop (S (length t)) R.

Lemma strlcpy_loop_ok src l : forall n dst A R C d s, string_at src s l -> dst = A ++ R ++ C -> length R = n -> d = zlen A ->
  strlcpy_loop n dst src d s =
    Done (if decide (length l < n)%nat
          then (A ++ put_string l R ++ C, d + zlen l + 1, s + zlen l + 1, (n - length l)%nat)
          else (A ++ take n l ++ C, d + Z.of_nat n, s + Z.of_nat n, O)).
Proof.
  induction l as [| c l IH]; intros n dst A R C d s H -> HR ->; (destruct n as [| n]; [destruct R; [cbn; by rewrite !Z.add_0_r | done] |]);
    (destruct R as [| r R]; [done |]); injection HR as HR; cbn [strlcpy_loop]; rewrite (string_get _ _ _ H), bind_Done_l.
  - rewrite (aput_at (A ++ (r :: R) ++ C) _ _ A r (R ++ C)), bind_Done_l by (first [by lnorm | done]).
    cbn [hd0 head default option_fmap Z.eqb]. rewrite decide_True by (cbn; lia). cbn. unfold put_string, zlen. cbn.
    by rewrite drop_0, !Z.add_0_r.
  - rewrite (aput_at (A ++ (r :: R) ++ C) _ _ A r (R ++ C)), bind_Done_l by (first [by lnorm | done]).
    rewrite (string_nul _ _ _ H), bool_decide_false by done. rewrite hd0_cons.
    rewrite (IH n _ (A ++ [c]) R C) by (first [by eapply string_next | by lnorm | done | zl]). f_equal.
    cbn [length]. destruct (decide (length l < n)%nat), (decide (S (length l) < S n)%nat); try lia; unfold put_string; lnorm;
      cbn [length drop take app Nat.sub]; rewrite ?zlen_cons; pairs; first [done | lia].
Qed.

Lemma string_drop mem p l k : string_at mem p l -> (k <= length l)%nat -> string_at mem (p + Z.of_nat k) (drop k l).
Proof.
  intros (X & Y & -> & -> & HF) Hk. exists (X ++ take k l), Y. split_and!.
  - by rewrite <- app_assoc, (app_assoc (take k l)), take_drop.
  - rewrite zlen_app. f_equal. unfold zlen. rewrite length_take. lia.
  - by apply Forall_drop.
Qed.

Lemma skip_rest_ok src l p k : string_at src p l -> (k <= length l)%nat -> skip_rest src (p + Z.of_nat k) = Done (p + zlen l + 1).
Proof.
  intros H Hk. pose proof (string_drop _ _ _ _ H Hk) as Hs. unfold skip_rest.
  rewrite (strlen_loop_ok src (drop k l)) by (first [done | apply string_bound in Hs; lia]).
  rewrite bind_Done_l. unfold mret, outcome_ret. f_equal. unfold zlen. rewrite length_drop. lia.
Qed.

(** strlcpy writes the longest prefix that fits and a NUL, and returns the length
    of the whole string. *)
Lemma strlcpy_ok dst src dst0 src0 siz l A R C :
  string_at src src0 l -> dst = A ++ R ++ C -> zlen R = siz -> dst0 = zlen A ->
  strlcpy dst src dst0 src0 siz =
    Done (A ++ (if decide (siz = 0) then [] else put_string (take (Z.to_nat (siz - 1)) l) R) ++ C, zlen l).
Proof.
  intros H -> Hsiz ->. unfold strlcpy.
  pose proof (fun k => skip_rest_ok src l src0 k H) as Hskip.
  destruct (Z.eqb_spec siz 0) as [-> | E0].
  - cbn [negb andb]. rewrite bind_Done_l. cbn [Nat.eqb]. rewrite bind_Done_l.
    specialize (Hskip O ltac:(lia)). rewrite Z.add_0_r in Hskip. rewrite Hskip, !bind_Done_l.
    assert (R = []) as -> by (destruct R; [done | rewrite zlen_cons in Hsiz; pose proof (zlen_nonneg R); lia]).
    unfold mret, outcome_ret. cbn. pairs; first [done | lia].
  - rewrite decide_False by done. destruct (exists_last (l := R)) as (R1 & z & ->); [by intros -> |].
    pose proof (zlen_nonneg R1). rewrite zlen_app in Hsiz. change (zlen [z]) with 1 in Hsiz.
    assert (En : Z.to_nat (siz - 1) = length R1) by (unfold zlen in *; lia). cbn [negb andb].
    assert (Eloop : (if negb (siz - 1 =? 0) then strlcpy_loop (Z.to_nat (siz - 1)) (A ++ (R1 ++ [z]) ++ C) src (zlen A) src0
                     else mret (A ++ (R1 ++ [z]) ++ C, zlen A, src0, O)) = strlcpy_loop (length R1) (A ++ (R1 ++ [z]) ++ C) src (zlen A) src0).
    { rewrite En. destruct (Z.eqb_spec (siz - 1) 0) as [E1 |]; [| done]. by replace (length R1) with O by lia. }
    rewrite Eloop. rewrite (strlcpy_loop_ok src l _ _ A R1 (z :: C)) by (first [done | by lnorm]). rewrite bind_Done_l. clear Eloop.
    destruct (decide (length l < length R1)%nat) as [Hlt | Hge].
    + destruct (Nat.eqb_spec (length R1 - length l) 0); [lia |]. rewrite bind_Done_l. unfold mret, outcome_ret.
      rewrite En, take_ge by lia. unfold put_string. lnorm. rewrite drop_app_le by lia. lnorm. pairs; first [done | lia].
    + cbn [Nat.eqb]. rewrite (aput_at _ _ 0 (A ++ take (length R1) l) z C), !bind_Done_l
        by (first [by lnorm | rewrite zlen_app; f_equal; unfold zlen; rewrite length_take; lia]).
      rewrite Hskip, !bind_Done_l by lia. unfold mret, outcome_ret. rewrite En. unfold put_string. rewrite length_take, drop_ge by (rewrite length_app; cbn; lia).
      lnorm. pairs; first [done | lia].
Qed.

Lemma strlcat_end_ok R : forall dst A C d, dst = A ++ R ++ C -> d = zlen A ->
  strlcat_end (length R) dst d = Done (d + zlen (cstr R)).
Proof.
  induction R as [| c R IH]; intros dst A C d -> ->; cbn [length strlcat_end].
  - unfold zlen. cbn. by rewrite Z.add_0_r.
  - rewrite (aget_at (A ++ (c :: R) ++ C) _ A c (R ++ C)), bind_Done_l by (first [by lnorm | done]). cbn [cstr].
    destruct (Z.eqb_spec c 0).
    + unfold zlen. cbn. by rewrite Z.add_0_r.
    + rewrite (IH _ (A ++ [c]) C) by (first [by lnorm | zl]). f_equal. rewrite zlen_cons. lia.
Qed.

Lemma strlcat_loop_ok src l : forall fuel dst A R C d s, string_at src s l -> dst = A ++ R ++ C -> R <> [] -> d = zlen A ->
  (length l <= fuel)%nat ->
  strlcat_loop fuel dst src d s (zlen R) =
    Done (A ++ take (length R - 1) l ++ drop (length l `min` (length R - 1)) R ++ C, d + zlen (take (length R - 1) l), s + zlen l).
Proof.
  induction l as [| c l IH]; intros fuel dst A R C d s H -> HR -> Hf;
    (destruct fuel as [| fuel]; cbn [strlcat_loop]; cbn [length] in Hf; [try lia |]);
    rewrite (string_get _ _ _ H), bind_Done_l, (string_nul _ _ _ H).
  1,2: rewrite bool_decide_true by done; rewrite take_nil; unfold zlen; cbn; by rewrite drop_0, !Z.add_0_r.
  rewrite bool_decide_false, hd0_cons by done. destruct R as [| r R]; [done |].
  destruct (Z.eqb_spec (zlen (r :: R)) 1) as [E | E]; cbn [negb].
  - rewrite bind_Done_l. assert (R = []) as -> by (destruct R; [done | rewrite !zlen_cons in E; pose proof (zlen_nonneg R); lia]).
    rewrite (IH fuel _ A [r] C) by (first [done | by eapply string_next | lia]).
    cbn [length Nat.sub take app]. rewrite !Nat.min_0_r. cbn. unfold zlen. cbn. pairs; first [done | lia].
  - rewrite (aput_at (A ++ (r :: R) ++ C) _ c A r (R ++ C)), !bind_Done_l by (first [by lnorm | done]).
    rewrite zlen_cons in E |- *. replace (1 + zlen R - 1) with (zlen R) by lia. destruct R as [| r' R]; [done |].
    rewrite (IH fuel _ (A ++ [c]) (r' :: R) C) by (first [done | by eapply string_next | by lnorm | zl]).
    cbn [length Nat.sub]. lnorm. rewrite Nat.sub_0_r. cbn [take Nat.min drop]. unfold zlen. cbn [length]. lnorm. pairs; first [done | lia].
Qed.

Lemma cstr_split R : R = cstr R \/ R = cstr R ++ 0 :: drop (S (length (cstr R))) R.
Proof.
  induction R as [| c R IH]; [by left |]. cbn [cstr]. destruct (Z.eqb_spec c 0) as [-> |]; [by right |].
  cbn [length drop app]. destruct IH as [IH | IH]; [left | right]; by f_equal.
Qed.

(** strlcat appends the longest prefix that fits; it changes nothing if there is
    no end of a string in the destination. *)
Lemma strlcat_ok dst src dst0 src0 siz l A R C :
  string_at src src0 l -> dst = A ++ R ++ C -> zlen R = siz -> dst0 = zlen A ->
  strlcat dst src dst0 src0 siz =
    Done (A ++ (if decide (cstr R = R) then R else put_string (take (Z.to_nat (siz - 1)) (cstr R ++ l)) R) ++ C, zlen (cstr R) + zlen l).
Proof.
  intros H -> <- ->. unfold strlcat.
  replace (Z.to_nat (zlen R)) with (length R) by (unfold zlen; lia).
  rewrite (strlcat_end_ok R _ A C), bind_Done_l by done. replace (zlen A + zlen (cstr R) - zlen A) with (zlen (cstr R)) by lia.
  destruct (cstr_split R) as [E | E].
  - rewrite <- E at 1. rewrite <- E, Z.sub_diag, (strlen_ok _ _ _ H), bind_Done_l. rewrite decide_True by done. done.
  - set (X := cstr R) in *. set (Y := drop (S (length X)) R) in *. clearbody X Y. subst R.
    rewrite decide_False by (intros E; apply (f_equal length) in E; rewrite length_app in E; cbn in E; lia).
    replace (zlen (X ++ 0 :: Y) - zlen X) with (zlen (0 :: Y)) by zl.
    destruct (Z.eqb_spec (zlen (0 :: Y)) 0) as [E |]; [rewrite zlen_cons in E; pose proof (zlen_nonneg Y); lia |].
    rewrite (strlcat_loop_ok src l _ _ (A ++ X) (0 :: Y) C), bind_Done_l
      by (first [done | by lnorm | zl | apply string_bound in H; lia]).
    assert (Hlt : (length l `min` (length (0%Z :: Y) - 1) < length (0%Z :: Y))%nat) by (cbn; lia).
    destruct (drop (length l `min` (length (0%Z :: Y) - 1)) (0 :: Y)) as [| z D] eqn:ED; [apply (f_equal length) in ED; rewrite length_drop in ED; cbn in *; lia |].
    set (T := take (length (0%Z :: Y) - 1) l) in *.
    rewrite (aput_at _ _ 0 (A ++ X ++ T) z (D ++ C)), bind_Done_l by (first [by lnorm | zl]).
    unfold mret, outcome_ret. pairs; [| lia].
    rewrite take_app_ge by (unfold zlen; rewrite length_app; cbn; lia).
    replace (Z.to_nat (zlen (X ++ 0%Z :: Y) - 1) - length X)%nat with (length (0%Z :: Y) - 1)%nat by (unfold zlen; rewrite length_app; cbn; lia).
    fold T. unfold put_string. lnorm. rewrite length_app, drop_app_ge by lia. repeat f_equal.
    replace (S (length X + length T) - length X)%nat with (S (length l `min` (length (0%Z :: Y) - 1)))%nat by (unfold T; rewrite length_take; lia).
    replace D with (drop 1 (drop (length l `min` (length (0%Z :: Y) - 1)) (0 :: Y))) by (by rewrite ED).
    rewrite drop_drop. f_equal. lia.
Qed.

Lemma strncpy_pad_ok R : forall dst A C d, dst = A ++ R ++ C -> d = zlen A ->
  strncpy_pad (length R) dst d = Done (A ++ replicate (length R) 0 ++ C).
Proof.
  induction R as [| r R IH]; intros dst A C d -> ->; cbn [length strncpy_pad]; [done |].
  rewrite (aput_at (A ++ (r :: R) ++ C) _ 0 A r (R ++ C)), bind_Done_l by (first [by lnorm | done]).
  rewrite (IH _ (A ++ [0]) C) by (first [by lnorm | zl]). cbn [replicate]. by lnorm.
Qed.

(** strncpy writes all n bytes: the string and NULs, or its first n characters. *)
Lemma strncpy_ok src l : forall R dst A C d s, string_at src s l -> dst = A ++ R ++ C -> d = zlen A ->
  strncpy (length R) dst src d s = Done (A ++ take (length R) (l ++ replicate (length R) 0) ++ C).
Proof.
  induction l as [| c l IH]; intros R dst A C d s H -> ->; (destruct R as [| r R]; [done |]); cbn [length strncpy];
    rewrite (string_get _ _ _ H), bind_Done_l, (aput_at (A ++ (r :: R) ++ C) _ _ A r (R ++ C)), bind_Done_l by (first [by lnorm | done]).
  - cbn [hd0 head default Z.eqb]. rewrite (strncpy_pad_ok R _ (A ++ [0]) C) by (first [by lnorm | zl]).
    lnorm. cbn [replicate take]. rewrite take_ge by (rewrite length_replicate; lia). done.
  - rewrite (string_nul _ _ _ H), bool_decide_false, hd0_cons by done.
    rewrite (IH R _ (A ++ [c]) C) by (first [by eapply string_next | by lnorm | zl]). lnorm. cbn [take]. repeat f_equal.
    rewrite !take_app, !take_replicate. cbn [app]. do 4 f_equal. lia.
Qed.

(** ** strsep *)

Lemma strsep_span_ok delim ds c : forall fuel p, string_at delim p ds -> (length ds <= fuel)%nat ->
  strsep_span fuel delim p c = Done ((c =? 0) || bool_decide (c ∈ ds)).
Proof.
  induction ds as [| d ds IH]; intros fuel p H Hf; (destruct fuel as [| fuel]; cbn [strsep_span]; cbn [length] in Hf; [try lia |]);
    rewrite (string_get _ _ _ H), bind_Done_l, (string_nul _ _ _ H).
  1,2: cbn [hd0 head default]; rewrite (Z.eqb_sym 0 c), bool_decide_true by done; destruct (c =? 0); [done |];
    by rewrite bool_decide_false by (by apply not_elem_of_nil).
  rewrite hd0_cons, bool_decide_false by done. destruct (Z.eqb_spec d c) as [-> | Hc].
  - rewrite (bool_decide_true (c ∈ c :: ds)) by (by left). by rewrite orb_true_r.
  - rewrite (IH fuel (p + 1)) by (first [by eapply string_next | lia]). do 2 f_equal. apply bool_decide_ext. rewrite elem_of_cons. naive_solver.
Qed.

(** The string up to the first delimiter, and what follows the delimiter, if there
    is one. *)
Fixpoint field (ds l : list Z) : list Z * option (list Z) :=
  match l with
  | [] => ([], None)
  | c :: l => if bool_decide (c ∈ ds) then ([], Some l) else let '(t, r) := field ds l in (c :: t, r)
  end.

Lemma strsep_loop_ok delim ds : string_at delim 0 ds -> forall l fuel mem A C p,
  mem = A ++ l ++ 0 :: C -> p = zlen A -> Forall (fun c => 0 < c < 256) l -> (length l <= fuel)%nat ->
  strsep_loop fuel mem delim p =
    Done (match field ds l with
          | (t, Some r) => (A ++ t ++ 0 :: r ++ 0 :: C, Some (p + zlen t + 1))
          | (t, None) => (mem, None)
          end).
Proof.
  intros Hd. induction l as [| c l IH]; intros fuel mem A C p -> -> HF Hf;
    (destruct fuel as [| fuel]; cbn [strsep_loop]; cbn [length] in Hf; [try lia |]).
  1,2: rewrite (aget_at (A ++ [] ++ 0 :: C) _ A 0 C), bind_Done_l by done;
    rewrite (strsep_span_ok _ ds), bind_Done_l by (first [done | apply string_bound in Hd; lia]); done.
  rewrite (aget_at (A ++ (c :: l) ++ 0 :: C) _ A c (l ++ 0 :: C)), bind_Done_l by (first [by lnorm | done]).
  rewrite (strsep_span_ok _ ds), bind_Done_l by (first [done | apply string_bound in Hd; lia]).
  pose proof (Forall_inv HF) as Hc. cbn beta in Hc. rewrite (proj2 (Z.eqb_neq c 0)) by lia. cbn [orb field].
  destruct (bool_decide (c ∈ ds)).
  - rewrite (aput_at (A ++ (c :: l) ++ 0 :: C) _ 0 A c (l ++ 0 :: C)), bind_Done_l by (first [by lnorm | done]).
    unfold mret, outcome_ret. unfold zlen. cbn. by rewrite Z.add_0_r.
  - rewrite (IH fuel _ (A ++ [c]) C) by (first [by lnorm | zl | by eapply Forall_inv_tail | lia]).
    destruct (field ds l) as [t [r |]]; [| done]. lnorm. rewrite zlen_cons. pairs. f_equal. lia.
Qed.

(** The calls of strsep until it returns NULL, and the strings it returned. *)
Fixpoint tokens (fuel : nat) (mem delim : list Z) (sp : option Z) : outcome (list (list Z)) :=
  match fuel with
  | O => Fault OutOfFuel
  | S fuel =>
      '(mem, sp, tok) ← strsep mem delim sp;
      match tok with
      | None => mret []
      | Some t => k ← strlen mem t; r ← tokens fuel mem delim sp; mret (take (Z.to_nat k) (drop (Z.to_nat t) mem) :: r)
      end
  end.

Fixpoint fields (fuel : nat) (ds l : list Z) : list (list Z) :=
  match fuel with
  | O => []
  | S fuel => match field ds l with (t, Some r) => t :: fields fuel ds r | (t, None) => [t] end
  end.

Lemma field_length ds l t r : field ds l = (t, Some r) -> (length r < length l)%nat.
Proof.
  revert t r. induction l as [| c l IH]; intros t r; cbn [field]; [done |]. case_bool_decide; [intros [= <- <-]; cbn; lia |].
  destruct (field ds l) as [t' [r' |]] eqn:E; intros [= <- <-]. specialize (IH _ _ eq_refl). cbn. lia.
Qed.

Lemma field_eq ds l t o : field ds l = (t, o) ->
  Forall (fun c => c ∉ ds) t /\ match o with Some r => exists c, c ∈ ds /\ l = t ++ c :: r | None => l = t end.
Proof.
  revert t o. induction l as [| c l IH]; intros t o; cbn [field]; [by intros [= <- <-] |]. case_bool_decide as Hc.
  - intros [= <- <-]. split; [done |]. by exists c.
  - destruct (field ds l) as [t' o'] eqn:E; intros [= <- <-]. destruct (IH _ _ eq_refl) as [H1 H2]. split; [by constructor |].
    destruct o'; [destruct H2 as (d & Hd & ->); by exists d | by subst].
Qed.

Lemma strsep_ok mem delim ds l A C p : string_at delim 0 ds -> mem = A ++ l ++ 0 :: C -> p = zlen A ->
  Forall (fun c => 0 < c < 256) l ->
  strsep mem delim (Some p) =
    Done (match field ds l with
          | (t, Some r) => (A ++ t ++ 0 :: r ++ 0 :: C, Some (p + zlen t + 1), Some p)
          | (t, None) => (mem, None, Some p)
          end).
Proof.
  intros Hd Hm Hp HF. unfold strsep.
  rewrite (strsep_loop_ok delim ds Hd l _ mem A C) by (first [done | subst; rewrite !length_app; cbn; lia]).
  by destruct (field ds l) as [t [r |]].
Qed.

Lemma read_back (A t C : list Z) p : p = zlen A -> take (Z.to_nat (zlen t)) (drop (Z.to_nat p) (A ++ t ++ C)) = t.
Proof. intros ->. unfold zlen. by rewrite !Nat2Z.id, drop_app_length, take_app_length. Qed.

Lemma tokens_ok delim ds : string_at delim 0 ds -> forall n l fuel mem A C p,
  (length l < n)%nat -> (n < fuel)%nat -> mem = A ++ l ++ 0 :: C -> p = zlen A -> Forall (fun c => 0 < c < 256) l ->
  tokens fuel mem delim (Some p) = Done (fields n ds l).
Proof.
  intros Hd. induction n as [| n IH]; intros l fuel mem A C p Hl Hf Hm Hp HF; [lia |].
  destruct fuel as [| fuel]; [lia |]. cbn [tokens fields].
  rewrite (strsep_ok mem delim ds l A C p) by done. destruct (field ds l) as [t [r |]] eqn:E; rewrite bind_Done_l; destruct (field_eq _ _ _ _ E) as [_ Hr].
  - destruct Hr as (c & _ & El). assert (HFt : Forall (fun c => 0 < c < 256) t /\ Forall (fun c => 0 < c < 256) r).
    { rewrite El in HF. apply Forall_app in HF as [? ?%Forall_inv_tail]. done. }
    destruct HFt as [HFt HFr].
    rewrite (strlen_ok _ _ t), bind_Done_l by (by exists A, (r ++ 0 :: C)).
    rewrite (IH r fuel _ (A ++ t ++ [0]) C) by (first [apply field_length in E; lia | by lnorm | done | subst p; zl]).
    rewrite bind_Done_l. unfold mret, outcome_ret. f_equal. f_equal. apply (read_back A t (0 :: r ++ 0 :: C)). done.
  - subst t. rewrite (strlen_ok _ _ l), bind_Done_l by (subst mem; by exists A, C).
    destruct fuel as [| fuel]; [lia |]. cbn. unfold mret, outcome_ret. f_equal. f_equal. subst mem. by apply (read_back A l (0 :: C)).
Qed.

(** ** index and rindex *)

Lemma s8_char c ch : 0 < c < 256 -> 0 < ch < 128 -> (s8 c =? ch) = bool_decide (ch = c).
Proof.
  intros Hc Hch. unfold s8. destruct (decide (c < 128)).
  - rewrite Z.mod_small by lia. destruct (Z.eqb_spec (c + 2 ^ 7 - 2 ^ 7) ch); case_bool_decide; lia.
  - replace (c + 2 ^ 7) with (c - 128 + 1 * 2 ^ 8) by lia. rewrite Z.mod_add, Z.mod_small by lia.
    destruct (Z.eqb_spec (c - 128 - 2 ^ 7) ch); case_bool_decide; lia.
Qed.

Lemma index_loop_ok mem ch l : 0 < ch < 128 -> forall fuel p, string_at mem p l -> (length l <= fuel)%nat ->
  index_loop fuel mem p ch = Done ((fun i => p + Z.of_nat i) <$> (fst <$> list_find (eq ch) l)).
Proof.
  intros Hch. induction l as [| c l IH]; intros fuel p H Hf; (destruct fuel as [| fuel]; cbn [index_loop]; cbn [length] in Hf; [try lia |]);
    rewrite (string_get _ _ _ H), bind_Done_l, (string_nul _ _ _ H).
  1,2: cbn [hd0 head default]; change (s8 0) with 0; rewrite (proj2 (Z.eqb_neq 0 ch)) by lia; by rewrite bool_decide_true by done.
  rewrite hd0_cons, (bool_decide_false (c :: l = [])) by done. cbn [list_find].
  assert (Hc : 0 < c < 256) by (destruct H as (? & ? & _ & _ & HF); by apply Forall_inv in HF).
  rewrite (s8_char c ch) by done. case_bool_decide as E.
  - rewrite decide_True by done. cbn. by rewrite Z.add_0_r.
  - rewrite decide_False by done. rewrite (IH fuel (p + 1)) by (first [by eapply string_next | lia]). f_equal.
    destruct (list_find (eq ch) l) as [[i x] |]; cbn; [| done]. f_equal. lia.
Qed.

(** The last position of a character. *)
Fixpoint last_find (ch : Z) (l : list Z) : option nat :=
  match l with
  | [] => None
  | c :: l => match last_find ch l with Some i => Some (S i) | None => if decide (ch = c) then Some O else None end
  end.

Lemma rindex_loop_ok mem ch l : 0 < ch < 128 -> forall fuel p save, string_at mem p l -> (length l <= fuel)%nat ->
  rindex_loop fuel mem p ch save = Done (match last_find ch l with Some i => Some (p + Z.of_nat i) | None => save end).
Proof.
  intros Hch. induction l as [| c l IH]; intros fuel p save H Hf; (destruct fuel as [| fuel]; cbn [rindex_loop]; cbn [length] in Hf; [try lia |]);
    rewrite (string_get _ _ _ H), bind_Done_l, (string_nul _ _ _ H).
  1,2: cbn [hd0 head default]; change (s8 0) with 0; rewrite (proj2 (Z.eqb_neq 0 ch)) by lia; by rewrite bool_decide_true by done.
  assert (Hc : 0 < c < 256) by (destruct H as (? & ? & _ & _ & HF); by apply Forall_inv in HF).
  rewrite hd0_cons, (bool_decide_false (c :: l = [])), (s8_char c ch) by done. cbn [last_find].
  rewrite (IH fuel (p + 1)) by (first [by eapply string_next | lia]). f_equal.
  destruct (last_find ch l) as [i |]; [f_equal; lia |]. case_bool_decide; [rewrite decide_True | rewrite decide_False]; try done.
  by rewrite Z.add_0_r.
Qed.

(** ** memcchr *)

Fixpoint repeats (c : Z) (k : nat) : Z := match k with O => 0 | S k => c + 2 ^ 8 * repeats c k end.

Lemma repeat_byte_ok c : repeat_byte c = repeats (u8 c) 8.
Proof.
  assert (Hu : 0 <= u8 c < 256) by (unfold u8; apply Z.mod_pos_bound; lia).
  assert (Hall : forallb (fun n => repeat_byte (Z.of_nat n) =? repeats (Z.of_nat n) 8) (seq 0 256) = true) by (by vm_compute).
  assert (E : repeat_byte c = repeat_byte (u8 c)) by (unfold repeat_byte; assert (u8 (u8 c) = u8 c) as -> by (unfold u8; by rewrite Z.mod_mod); done).
  rewrite forallb_forall in Hall. specialize (Hall (Z.to_nat (u8 c))). rewrite Z2Nat.id in Hall by lia.
  rewrite E. apply Z.eqb_eq, Hall. apply in_seq. lia.
Qed.

Section Memcchr.
Variables (mem : list Z) (c : Z).
Hypothesis Hmem : Forall is_u8 mem.
Hypothesis Hwords : zlen mem mod 8 = 0.

Definition same (a b : Z) : Prop := forall i x, a <= i < b -> aget mem i = Done x -> x = u8 c.

Lemma same_app a b d : same a b -> same b d -> same a d.
Proof. intros H1 H2 i x Hi. destruct (decide (i < b)); [apply H1 | apply H2]; lia. Qed.

Lemma load_ok k : forall a, 0 <= a -> a + Z.of_nat k <= zlen mem ->
  exists w, load k mem a = Done w /\ (w = repeats (u8 c) k <-> same a (a + Z.of_nat k)).
Proof.
  induction k as [| k IH]; intros a Ha Hb.
  - exists 0. split; [done |]. split; [| done]. intros _ i x Hi. lia.
  - destruct (aget_in_bounds mem a) as [x Hx]; [lia |]. destruct (IH (a + 1)) as (w & Hw & Hs); [lia | lia |].
    exists (x + 2 ^ 8 * w). cbn [load repeats]. rewrite Hx, bind_Done_l, Hw, bind_Done_l. split; [done |].
    assert (Hxb : 0 <= x < 256). { apply aget_Done in Hx as [_ Hx]. by apply (Forall_lookup_1 _ _ _ _ Hmem) in Hx. }
    assert (Hu : 0 <= u8 c < 256) by (unfold u8; apply Z.mod_pos_bound; lia). split.
    + intros E. assert (x = u8 c /\ w = repeats (u8 c) k) as [-> Ew] by lia. apply Hs in Ew.
      intros i y Hi Hy. destruct (decide (i = a)) as [-> | ]; [congruence | apply (Ew i y); [lia | done]].
    + intros H. rewrite (H a x) by (first [lia | done]). rewrite (proj2 Hs); [done |]. intros i y Hi. apply H. lia.
Qed.

Lemma testbytes_ok k : forall p, 0 <= p -> p + Z.of_nat k <= zlen mem ->
  exists p' found, testbytes k mem p (u8 c) = Done (p', found) /\ p <= p' <= p + Z.of_nat k /\ same p p' /\
    (if found : bool then p' < p + Z.of_nat k /\ exists x, aget mem p' = Done x /\ x <> u8 c else p' = p + Z.of_nat k).
Proof.
  induction k as [| k IH]; intros p Hp Hb.
  - exists p, false. split_and!; [done | lia | lia | intros i x Hi; lia | lia].
  - destruct (aget_in_bounds mem p) as [x Hx]; [lia |]. cbn [testbytes]. rewrite Hx, bind_Done_l.
    destruct (Z.eqb_spec x (u8 c)) as [E | E]; cbn [negb].
    + destruct (IH (p + 1)) as (p' & found & -> & Hr & Hs & Hf); [lia | lia |]. exists p', found.
      split_and!; [done | lia | lia | | destruct found; [split; [lia | apply Hf] | lia]].
      intros i y Hi Hy. destruct (decide (i = p)) as [-> | ]; [congruence | apply (Hs i y); [lia | done]].
    + exists p, true. split_and!; [done | lia | lia | intros i y Hi; lia | lia | by exists x].
Qed.

(** The first other byte from [a] on, if it is below [b]. *)
Definition first_other (a b : Z) (r : option Z) : Prop :=
  match r with
  | Some p => a <= p < b /\ same a p /\ exists x, aget mem p = Done x /\ x <> u8 c
  | None => same a b
  end.

Lemma not_same_testbytes p : 0 <= p -> p + 8 <= zlen mem -> ~ same p (p + 8) ->
  exists p' f, testbytes 7 mem p (u8 c) = Done (p', f) /\ p <= p' < p + 8 /\ same p p' /\ exists x, aget mem p' = Done x /\ x <> u8 c.
Proof.
  intros Hp Hb Hn. destruct (testbytes_ok 7 p) as (p' & found & E & Hr & Hs & Hf); [lia | lia |]. exists p', found.
  split_and!; [done | lia | lia | done |]. destruct found; [apply Hf |].
  destruct (aget_in_bounds mem p') as [x Hx]; [lia |]. exists x. split; [done |]. intros ->. apply Hn.
  intros i y Hi Hy. destruct (decide (i = p')) as [-> | ]; [congruence | apply (Hs i y); [lia | done]].
Qed.

Lemma memcchr_words_ok fuel : forall lp endp, 0 <= lp -> lp mod 8 = 0 -> endp <= zlen mem -> (endp - lp <= Z.of_nat fuel) ->
  exists r, memcchr_words fuel mem lp endp c = Done r /\
    (match r with Some p => lp <= p /\ same lp p /\ exists x, aget mem p = Done x /\ x <> u8 c | None => same lp endp end).
Proof.
  induction fuel as [| fuel IH]; intros lp endp Hlp Hal Hend Hf; cbn [memcchr_words]; destruct (Z.ltb_spec lp endp) as [Hlt | Hlt].
  1: lia.
  1,3: exists None; split; [done |]; intros i x Hi; lia.
  assert (Hw8 : lp + 8 <= zlen mem).
  { apply Z.div_exact in Hal; [| lia]. apply Z.div_exact in Hwords; [| lia]. lia. }
  destruct (load_ok 8 lp) as (w & -> & Hw); [lia | lia |]. rewrite bind_Done_l, repeat_byte_ok.
  destruct (Z.eqb_spec w (repeats (u8 c) 8)) as [E | E]; cbn [negb].
  - apply Hw in E. change (Z.of_nat 8) with 8 in E. destruct (IH (lp + 8) endp) as (r & -> & Hr); [lia | | lia | lia |].
    { rewrite <- Z.add_mod_idemp_r, Z.mod_same, Z.add_0_r by lia. done. }
    exists r. split; [done |]. destruct r as [p |].
    + destruct Hr as (H1 & H2 & H3). split_and!; [lia | by eapply same_app | done].
    + by eapply same_app.
  - destruct (not_same_testbytes lp) as (p & f & -> & Hp & Hs & Hx); [lia | lia | tauto |].
    rewrite bind_Done_l. exists (Some p). split; [done |]. split_and!; [lia | done | done].
Qed.

Lemma memcchr_ok begin n : 0 <= begin -> 0 <= n -> begin + n <= zlen mem ->
  exists r, memcchr mem begin c n = Done r /\ first_other begin (begin + n) r.
Proof.
  intros Hb Hn Hend. unfold memcchr. destruct (Z.eqb_spec n 0) as [-> | En].
  { exists None. split; [done |]. intros i x Hi. lia. }
  assert (Elp : Z.ldiff begin 7 = begin - begin mod 8).
  { change 7 with (Z.ones 3). rewrite Z.ldiff_ones_r, Z.shiftl_mul_pow2, Z.shiftr_div_pow2 by lia.
    pose proof (Z.div_mod begin 8). change (2 ^ 3) with 8. lia. }
  rewrite Elp. set (lp := begin - begin mod 8). pose proof (Z.mod_pos_bound begin 8).
  assert (Hal : lp mod 8 = 0). { unfold lp. rewrite Zminus_mod_idemp_r, Z.sub_diag. done. }
  assert (Hw8 : lp + 8 <= zlen mem). { pose proof Hal as Hal'. apply Z.div_exact in Hal'; [| lia]. apply Z.div_exact in Hwords; [| lia]. lia. }
  assert (Hlp : 0 <= lp) by (pose proof (Z.mod_le begin 8); lia).
  destruct (load_ok 8 lp) as (w & -> & Hw); [lia | lia |]. rewrite bind_Done_l, repeat_byte_ok. change (Z.of_nat 8) with 8 in Hw.
  assert (Hfirst : exists p done, (if negb (w =? repeats (u8 c) 8) then testbytes (Z.to_nat (lp + 8 - begin)) mem begin (u8 c) else mret (begin, false)) = Done (p, done) /\
            (if done : bool then begin <= p /\ same begin p /\ exists x, aget mem p = Done x /\ x <> u8 c else same begin (lp + 8))).
  { destruct (Z.eqb_spec w (repeats (u8 c) 8)) as [E | E]; cbn [negb].
    - exists begin, false. split; [done |]. apply Hw in E. intros i x Hi. apply E. lia.
    - destruct (testbytes_ok (Z.to_nat (lp + 8 - begin)) begin) as (p & f & -> & Hr & Hs & Hf); [lia | lia |].
      exists p, f. split; [done |]. destruct f; [split_and!; [lia | done | apply Hf] |]. rewrite Hf, Z2Nat.id in Hs by lia.
      by replace (lp + 8) with (begin + (lp + 8 - begin)) by lia. }
  destruct Hfirst as (p & done_ & -> & Hp). rewrite bind_Done_l. destruct done_.
  - rewrite bind_Done_l. destruct Hp as (H1 & H2 & H3). destruct (Z.ltb_spec p (begin + n)).
    + exists (Some p). split; [done |]. split_and!; [lia | lia | done | done].
    + exists None. split; [done |]. intros i x Hi. apply H2. lia.
  - destruct (memcchr_words_ok (Z.to_nat n) (lp + 8) (begin + n)) as (r & -> & Hr); [lia | | lia | lia |].
    { rewrite <- Z.add_mod_idemp_r, Z.mod_same, Z.add_0_r by lia. done. }
    rewrite bind_Done_l. destruct r as [q |].
    + destruct Hr as (H1 & H2 & H3). destruct (Z.ltb_spec q (begin + n)).
      * exists (Some q). split; [done |]. split_and!; [lia | lia | by eapply same_app | done].
      * exists None. split; [done |]. intros i x Hi. apply (same_app begin (lp + 8) q); [done | done | lia].
    + exists None. split; [done |]. by eapply same_app.
Qed.
End Memcchr.

(** ** Results *)

Definition chars (l : list Z) : Prop := Forall (fun c => 0 < c < 256) l.

Lemma put_string_length t R : (length t < length R)%nat -> length (put_string t R) = length R.
Proof. intros. unfold put_string. rewrite length_app. cbn [length]. rewrite length_drop. lia. Qed.

Lemma put_string_cstr t R : chars t -> cstr (put_string t R) = t.
Proof. intros HF. apply cstr_app_nul. eapply Forall_impl; [done |]. cbn. lia. Qed.

Lemma put_string_twice t t' R : (length t <= length t')%nat -> put_string t' (put_string t R) = put_string t' R.
Proof.
  intros Hle. unfold put_string. do 2 f_equal. rewrite drop_app_ge by lia.
  replace (S (length t') - length t)%nat with (S (length t' - length t))%nat by lia. cbn [drop].
  rewrite drop_drop. f_equal. lia.
Qed.

Lemma put_string_changes t R : (length t < length R)%nat -> chars t -> cstr (put_string t R) <> put_string t R.
Proof.
  intros Hlt HF E. apply (f_equal length) in E. rewrite put_string_cstr, put_string_length in E by done. lia.
Qed.

(** strlcpy and strlcat build a string in a buffer of [siz] bytes and write
    nothing outside it: after both calls it holds the longest prefix of the
    concatenation that fits, with its NUL; the results are the lengths that the
    strings would have had, from which the caller sees that they were cut. *)
Theorem strlcpy_strlcat_correct dst src1 src2 p1 p2 l1 l2 A R C :
  string_at src1 p1 l1 -> string_at src2 p2 l2 -> dst = A ++ R ++ C -> R <> [] ->
  let siz := zlen R in
  let t1 := take (length R - 1) l1 in
  exists dst1,
    strlcpy dst src1 (zlen A) p1 siz = Done (dst1, zlen l1) /\ string_at dst1 (zlen A) t1 /\
    strlcat dst1 src2 (zlen A) p2 siz =
      Done (A ++ put_string (take (length R - 1) (l1 ++ l2)) R ++ C, zlen t1 + zlen l2) /\
    length (put_string (take (length R - 1) (l1 ++ l2)) R) = length R.
Proof.
  intros H1 H2 -> HR siz t1. assert (Hpos : (0 < length R)%nat) by (destruct R; [done | cbn; lia]).
  assert (Esiz : Z.to_nat (siz - 1) = (length R - 1)%nat) by (unfold siz, zlen; lia).
  assert (HF1 : chars t1) by (apply Forall_take; by destruct H1 as (? & ? & _ & _ & ?)).
  assert (Ht1 : (length t1 < length R)%nat) by (unfold t1; rewrite length_take; lia).
  rewrite (strlcpy_ok _ src1 _ p1 siz l1 A R C), decide_False, Esiz by (first [done | unfold siz, zlen; lia]). fold t1.
  eexists. split_and!; [done | | |].
  - exists A, (drop (S (length t1)) R ++ C). unfold put_string. split_and!; [by lnorm | done | done].
  - rewrite (strlcat_ok _ src2 _ p2 siz l2 A (put_string t1 R) C) by (first [done | unfold siz, zlen; by rewrite put_string_length]).
    rewrite decide_False by (by apply put_string_changes). rewrite put_string_cstr, Esiz by done.
    assert (Et : take (length R - 1) (t1 ++ l2) = take (length R - 1) (l1 ++ l2)).
    { unfold t1. rewrite !take_app, take_take, length_take. f_equal; [f_equal; lia |].
      destruct (decide (length R - 1 <= length l1)%nat); [| f_equal; lia].
      replace (length R - 1 - (length R - 1) `min` length l1)%nat with O by lia.
      by replace (length R - 1 - length l1)%nat with O by lia. }
    rewrite Et, put_string_twice; [done |]. rewrite length_take, length_app. unfold t1. rewrite length_take. lia.
  - rewrite put_string_length; [done |]. rewrite length_take. lia.
Qed.

(** "ab" and "cd" in four bytes. *)
Lemma strlcpy_strlcat_correct_witness :
  exists dst1,
    strlcpy [9; 9; 9; 9; 9; 9] [97; 98; 0] 1 0 4 = Done (dst1, 2) /\ string_at dst1 1 [97; 98] /\
    strlcat dst1 [99; 100; 0] 1 0 4 = Done ([9; 97; 98; 99; 0; 9], 4) /\ 4%nat = 4%nat.
Proof.
  apply (strlcpy_strlcat_correct [9; 9; 9; 9; 9; 9] [97; 98; 0] [99; 100; 0] 0 0 [97; 98] [99; 100] [9] [9; 9; 9; 9] [9]);
    [exists [], []; split_and!; [done | done | repeat constructor; lia] | exists [], []; split_and!; [done | done | repeat constructor; lia] | done | done].
Defined.

Lemma filter_none (ds l : list Z) : Forall (fun c => c ∉ ds) l -> filter (fun c => c ∈ ds) l = [].
Proof. induction 1 as [| c l Hc _ IH]; [done |]. by rewrite filter_cons_False. Qed.

(** strsep splits: the calls until it returns NULL give the fields of the
    string between the delimiters, the empty ones too, in order, and end. *)
Theorem strsep_fields mem delim p l ds : string_at mem p l -> string_at delim 0 ds ->
  tokens (S (S (length l))) mem delim (Some p) = Done (fields (S (length l)) ds l) /\
  Forall (fun t => Forall (fun c => c ∉ ds) t) (fields (S (length l)) ds l) /\
  length (fields (S (length l)) ds l) = S (length (filter (fun c => c ∈ ds) l)).
Proof.
  intros (A & C & Hm & Hp & HF) Hd. split; [apply (tokens_ok delim ds Hd (S (length l)) l _ mem A C); [lia | lia | done | done | done] |].
  assert (Hgen : forall n k, (length k < n)%nat -> Forall (fun t => Forall (fun c => c ∉ ds) t) (fields n ds k) /\
            length (fields n ds k) = S (length (filter (fun c => c ∈ ds) k))); [| apply Hgen; lia].
  induction n as [| n IH]; intros k Hk; [lia |]. cbn [fields].
  destruct (field ds k) as [t [r |]] eqn:E; destruct (field_eq _ _ _ _ E) as [Ht Hr].
  - destruct Hr as (c & Hc & ->). destruct (IH r) as [IH1 IH2]; [rewrite length_app in Hk; cbn in Hk; lia |].
    split; [by constructor |]. cbn [length]. rewrite IH2, filter_app, filter_cons_True by done.
    by rewrite (filter_none ds t).
  - subst t. split; [by repeat constructor |]. cbn. by rewrite (filter_none ds k).
Qed.

(** ",a,,b" has four fields. *)
Lemma strsep_fields_witness :
  tokens 7 [44; 97; 44; 44; 98; 0] [44; 58; 0] (Some 0) = Done [[]; [97]; []; [98]] /\
  Forall (fun t => Forall (fun c => c ∉ [44; 58]) t) [[]; [97]; []; [98]] /\ 4%nat = 4%nat.
Proof.
  apply (strsep_fields [44; 97; 44; 44; 98; 0] [44; 58; 0] 0 [44; 97; 44; 44; 98] [44; 58]);
    exists [], []; (split_and!; [done | done | repeat constructor; lia]).
Defined.

(** strcmp and strncmp return 0 exactly for equal strings, and a negative number
    exactly if the first is less. *)
Theorem strcmp_correct m1 m2 s1 s2 l1 l2 n : string_at m1 s1 l1 -> string_at m2 s2 l2 ->
  exists r rn, strcmp (length m1) m1 m2 s1 s2 = Done r /\ (r = 0 <-> l1 = l2) /\ (r < 0 <-> string_lt l1 l2) /\
    strncmp n m1 m2 s1 s2 = Done rn /\ (rn = 0 <-> take n l1 = take n l2) /\ (rn < 0 <-> string_lt (take n l1) (take n l2)).
Proof.
  intros H1 H2. exists (string_cmp l1 l2), (string_cmp (take n l1) (take n l2)).
  rewrite (strcmp_ok m1 m2 l1 l2), (strncmp_ok m1 m2 l1 l2) by (first [done | apply string_bound in H1; lia]).
  destruct H1 as (? & ? & _ & _ & H1), H2 as (? & ? & _ & _ & H2).
  split_and!; first [done | apply string_cmp_eq | apply string_cmp_lt]; by try apply Forall_take.
Qed.

(** memcchr, a word at a time, finds the first byte of the buffer that is not c. *)
Theorem memcchr_correct mem c begin n : Forall is_u8 mem -> zlen mem mod 8 = 0 -> 0 <= begin -> 0 <= n -> begin + n <= zlen mem ->
  exists r, memcchr mem begin c n = Done r /\ first_other mem c begin (begin + n) r.
Proof. intros. by apply memcchr_ok. Qed.

(** index and rindex of an ASCII character: the first and the last one. *)
Theorem index_rindex_correct mem p l ch : string_at mem p l -> 0 < ch < 128 ->
  index mem p ch = Done ((fun i => p + Z.of_nat i) <$> (fst <$> list_find (eq ch) l)) /\
  rindex mem p ch = Done ((fun i => p + Z.of_nat i) <$> last_find ch l).
Proof.
  intros H Hch. pose proof (string_bound _ _ _ H). unfold index, rindex.
  rewrite (index_loop_ok mem ch l), (rindex_loop_ok mem ch l) by (first [done | lia]). split; [done |]. by destruct (last_find ch l).
Qed.

(** But not of other characters: *u.p is a signed char and ch an int, so that
    index(p, 0xe9) does not find the 0xe9 in a string. *)
Theorem index_high_char : index [99; 0xe9; 0] 0 0xe9 = Done None.
Proof. reflexivity. Qed.
