(* ===== verification/Seq.v ===== *)
(** * TCP sequence numbers: sys/netinet/tcp_seq.h

    Sequence numbers are counted modulo 2^32, and compared by the sign of their
    difference as an int.  The lemmas relate them to the integers that they
    stand for: numbers that are less than 2^31 apart compare as integers. *)

From stdpp Require Import prelude.
From S2P Require Import Prelude.
Open Scope Z_scope.

Definition SEQ_LT (a b : Z) : bool := s32 (a - b) <? 0.
Definition SEQ_LEQ (a b : Z) : bool := s32 (a - b) <=? 0.
Definition SEQ_GT (a b : Z) : bool := s32 (a - b) >? 0.
Definition SEQ_GEQ (a b : Z) : bool := s32 (a - b) >=? 0.

Definition seq_max (a b : Z) : Z := if SEQ_GT a b then a else b.
Definition seq_min (a b : Z) : Z := if SEQ_LT a b then a else b.

(** ** Comparison of near numbers *)

Definition near (x y : Z) : Prop := - 2 ^ 31 < x - y < 2 ^ 31.

Lemma s32_seq x y : s32 (u32 x - u32 y) = s32 (x - y).
Proof.
  unfold s32, u32. f_equal. rewrite <- (Z.add_mod_idemp_l (x mod _ - y mod _)), <- Zminus_mod, Z.add_mod_idemp_l by lia. done.
Qed.

Lemma s32_near x y : near x y -> s32 (u32 x - u32 y) = x - y.
Proof. intros [? ?]. rewrite s32_seq. apply s32_id. unfold is_s32. lia. Qed.

Lemma u32_seq_sub x y : u32 (u32 x - u32 y) = u32 (x - y).
Proof. unfold u32. by rewrite <- Zminus_mod. Qed.

Lemma u32_seq_add x y : u32 (u32 x + y) = u32 (x + y).
Proof. unfold u32. by rewrite Z.add_mod_idemp_l. Qed.

Section Near.
Context (x y : Z) (H : near x y).

Lemma SEQ_LT_near : SEQ_LT (u32 x) (u32 y) = (x <? y).
Proof. unfold SEQ_LT. rewrite s32_near by done. destruct (Z.ltb_spec (x - y) 0), (Z.ltb_spec x y); lia. Qed.

Lemma SEQ_LEQ_near : SEQ_LEQ (u32 x) (u32 y) = (x <=? y).
Proof. unfold SEQ_LEQ. rewrite s32_near by done. destruct (Z.leb_spec (x - y) 0), (Z.leb_spec x y); lia. Qed.

Lemma SEQ_GT_near : SEQ_GT (u32 x) (u32 y) = (y <? x).
Proof. unfold SEQ_GT. rewrite s32_near, Z.gtb_ltb by done. destruct (Z.ltb_spec 0 (x - y)), (Z.ltb_spec y x); lia. Qed.

Lemma SEQ_GEQ_near : SEQ_GEQ (u32 x) (u32 y) = (y <=? x).
Proof. unfold SEQ_GEQ. rewrite s32_near, Z.geb_leb by done. destruct (Z.leb_spec 0 (x - y)), (Z.leb_spec y x); lia. Qed.

Lemma seq_min_near : seq_min (u32 x) (u32 y) = u32 (Z.min x y).
Proof. unfold seq_min. rewrite SEQ_LT_near. destruct (Z.ltb_spec x y); f_equal; lia. Qed.

Lemma seq_max_near : seq_max (u32 x) (u32 y) = u32 (Z.max x y).
Proof. unfold seq_max. rewrite SEQ_GT_near. destruct (Z.ltb_spec y x); f_equal; lia. Qed.

Lemma seq_eq_near : u32 x = u32 y <-> x = y.
Proof.
  split; [| by intros ->]. intros E. assert (Hs : s32 (u32 x - u32 y) = 0) by (by rewrite E, Z.sub_diag).
  rewrite s32_near in Hs by done. lia.
Qed.
End Near.

(** Every number near [base] (the sequence space once around) is one of these. *)
Lemma seq_unwrap base s : is_u32 s -> exists x, s = u32 x /\ base - 2 ^ 31 <= x < base + 2 ^ 31.
Proof.
  intros Hs. exists (base + s32 (s - base)). pose proof (s32_range (s - base)) as Hr. unfold is_s32, is_u32 in *.
  split; [| lia]. unfold s32, u32. replace (base + ((s - base + 2 ^ 31) mod 2 ^ 32 - 2 ^ 31)) with (base - 2 ^ 31 + (s - base + 2 ^ 31) mod 2 ^ 32) by lia.
  rewrite Z.add_mod_idemp_r by lia. replace (base - 2 ^ 31 + (s - base + 2 ^ 31)) with s by lia. by rewrite Z.mod_small.
Qed.
