(* ===== verification/Sack.v ===== *)
(** * The SACK scoreboard: sys/netinet/tcp_sack.c, the side of the sender

    The sender of a TCP connection keeps the blocks of data that the receiver has
    reported as selectively acknowledged in a list that is sorted by sequence
    number, with a hint where the last search ended and a cache of one free
    block.  Blocks are objects that are known by number: the list, the hint and
    the cache refer to them, and a use of a freed one is a fault.  kmalloc with
    M_NOWAIT may fail; counters for statistics are left out.

    The receiver's side of the file is in Sackrep.v. *)

From stdpp Require Import prelude list strings gmap.
From S2P Require Import Prelude.
From S2P Require Import Tailq.
From S2P Require Import Seq.
Open Scope Z_scope.

Definition ENOMEM : Z := 12.
Definition MAXSAVEDBLOCKS : Z := 8.

Record sackblock := Sackblock { sblk_start : Z; sblk_end : Z }.
Record raw_sackblock := RawSackblock { rblk_start : Z; rblk_end : Z }.

(** struct scoreboard, with the memory it uses. *)
Record scoreboard := Scoreboard {
  nblocks : Z;
  sackblocks : list nat;
  lostseq : Z;
  lastfound : option nat;
  freecache : option nat;
  scb_heap : gmap nat sackblock;
  scb_next : nat
}.

Definition set_nblocks (s : scoreboard) v := Scoreboard v (sackblocks s) (lostseq s) (lastfound s) (freecache s) (scb_heap s) (scb_next s).
Definition set_sackblocks (s : scoreboard) v := Scoreboard (nblocks s) v (lostseq s) (lastfound s) (freecache s) (scb_heap s) (scb_next s).
Definition set_lostseq (s : scoreboard) v := Scoreboard (nblocks s) (sackblocks s) v (lastfound s) (freecache s) (scb_heap s) (scb_next s).
Definition set_lastfound (s : scoreboard) v := Scoreboard (nblocks s) (sackblocks s) (lostseq s) v (freecache s) (scb_heap s) (scb_next s).
Definition set_freecache (s : scoreboard) v := Scoreboard (nblocks s) (sackblocks s) (lostseq s) (lastfound s) v (scb_heap s) (scb_next s).
Definition set_heap (s : scoreboard) v := Scoreboard (nblocks s) (sackblocks s) (lostseq s) (lastfound s) (freecache s) v (scb_next s).

(** sb->field; *sb = b *)
Definition deref (s : scoreboard) (sb : option nat) : outcome sackblock :=
  match sb with
  | None => Fault NullDeref
  | Some i => match scb_heap s !! i with Some b => Done b | None => Fault NullDeref end
  end.
Definition store (s : scoreboard) (i : nat) (b : sackblock) : scoreboard := set_heap s (<[i := b]> (scb_heap s)).

(** The fields of struct tcpcb that tcp_sack.c uses. *)
Record tcpcb := Tcpcb {
  snd_una : Z; snd_max : Z; snd_wnd : Z; snd_bwnd : Z;
  t_maxseg : Z; t_rxtthresh : Z;
  rexmt_high : Z; rexmt_rescue : Z; sack_flags : Z;
  scb : scoreboard;
  rcv_nxt : Z;
  reportblk : raw_sackblock; encloseblk : raw_sackblock;
  nsackhistory : Z; sackhistory : list raw_sackblock
}.

Definition set_una (tp : tcpcb) v := Tcpcb v (snd_max tp) (snd_wnd tp) (snd_bwnd tp) (t_maxseg tp) (t_rxtthresh tp) (rexmt_high tp) (rexmt_rescue tp) (sack_flags tp) (scb tp) (rcv_nxt tp) (reportblk tp) (encloseblk tp) (nsackhistory tp) (sackhistory tp).
Definition set_max (tp : tcpcb) v := Tcpcb (snd_una tp) v (snd_wnd tp) (snd_bwnd tp) (t_maxseg tp) (t_rxtthresh tp) (rexmt_high tp) (rexmt_rescue tp) (sack_flags tp) (scb tp) (rcv_nxt tp) (reportblk tp) (encloseblk tp) (nsackhistory tp) (sackhistory tp).
Definition set_scb (tp : tcpcb) v := Tcpcb (snd_una tp) (snd_max tp) (snd_wnd tp) (snd_bwnd tp) (t_maxseg tp) (t_rxtthresh tp) (rexmt_high tp) (rexmt_rescue tp) (sack_flags tp) v (rcv_nxt tp) (reportblk tp) (encloseblk tp) (nsackhistory tp) (sackhistory tp).
Definition set_rexmt_high (tp : tcpcb) v := Tcpcb (snd_una tp) (snd_max tp) (snd_wnd tp) (snd_bwnd tp) (t_maxseg tp) (t_rxtthresh tp) v (rexmt_rescue tp) (sack_flags tp) (scb tp) (rcv_nxt tp) (reportblk tp) (encloseblk tp) (nsackhistory tp) (sackhistory tp).
Definition set_rexmt_rescue (tp : tcpcb) v := Tcpcb (snd_una tp) (snd_max tp) (snd_wnd tp) (snd_bwnd tp) (t_maxseg tp) (t_rxtthresh tp) (rexmt_high tp) v (sack_flags tp) (scb tp) (rcv_nxt tp) (reportblk tp) (encloseblk tp) (nsackhistory tp) (sackhistory tp).
Definition set_sack_flags (tp : tcpcb) v := Tcpcb (snd_una tp) (snd_max tp) (snd_wnd tp) (snd_bwnd tp) (t_maxseg tp) (t_rxtthresh tp) (rexmt_high tp) (rexmt_rescue tp) v (scb tp) (rcv_nxt tp) (reportblk tp) (encloseblk tp) (nsackhistory tp) (sackhistory tp).
Definition set_rxtthresh (tp : tcpcb) v := Tcpcb (snd_una tp) (snd_max tp) (snd_wnd tp) (snd_bwnd tp) (t_maxseg tp) v (rexmt_high tp) (rexmt_rescue tp) (sack_flags tp) (scb tp) (rcv_nxt tp) (reportblk tp) (encloseblk tp) (nsackhistory tp) (sackhistory tp).
Definition set_reportblk (tp : tcpcb) v := Tcpcb (snd_una tp) (snd_max tp) (snd_wnd tp) (snd_bwnd tp) (t_maxseg tp) (t_rxtthresh tp) (rexmt_high tp) (rexmt_rescue tp) (sack_flags tp) (scb tp) (rcv_nxt tp) v (encloseblk tp) (nsackhistory tp) (sackhistory tp).
Definition set_history (tp : tcpcb) n h := Tcpcb (snd_una tp) (snd_max tp) (snd_wnd tp) (snd_bwnd tp) (t_maxseg tp) (t_rxtthresh tp) (rexmt_high tp) (rexmt_rescue tp) (sack_flags tp) (scb tp) (rcv_nxt tp) (reportblk tp) (encloseblk tp) n h.

Definition TSACK_F_SACKRESCUED : Z := 0x0001.
Definition TSACK_F_DUPSEG : Z := 0x0002.
Definition TSACK_F_ENCLOSESEG : Z := 0x0004.
Definition TSACK_F_SACKLEFT : Z := 0x0008.

Definition sack_rescued (tp : tcpcb) : bool := btest (sack_flags tp) TSACK_F_SACKRESCUED.
Definition clear_rescued (tp : tcpcb) : tcpcb := set_sack_flags tp (Z.ldiff (sack_flags tp) TSACK_F_SACKRESCUED).

(** ** Search *)

(** tcp_sack_tcpcb_init; the rest of the tcpcb is zero. *)
Definition tcp_sack_tcpcb_init : scoreboard := Scoreboard 0 [] 0 None None ∅ 0.

(** do { ... } while (cur != last); *)
Fixpoint lookup_loop (fuel : nat) (s : scoreboard) (seq : Z) (cur last prev : option nat) :
    outcome (option nat * bool) :=
  b ← deref s cur;
  if SEQ_GT (sblk_end b) seq then
    if SEQ_GEQ seq (sblk_start b) then mret (cur, true)
    else mret (match cur with Some c => tailq_prev None c (sackblocks s) | None => None end, false)
  else
    let cur := match cur with Some c => tailq_next c (sackblocks s) | None => None end in
    if decide (cur = last) then mret (prev, false)
    else match fuel with O => Fault OutOfFuel | S fuel => lookup_loop fuel s seq cur last prev end.

(** The scoreboard, *sb and the result. *)
Definition sack_block_lookup (s : scoreboard) (seq : Z) : outcome (scoreboard * option nat * bool) :=
  match sackblocks s with
  | [] => mret (s, None, false)
  | first :: _ =>
      '(cur, last_, prev) ←
        match lastfound s with
        | None => mret (Some first, None, last (sackblocks s))
        | Some hint =>
            h ← deref s (Some hint);
            if SEQ_GEQ seq (sblk_start h) then mret (Some hint, None, last (sackblocks s))
            else mret (Some first, Some hint, tailq_prev None hint (sackblocks s))
        end;
      '(sb, found) ← lookup_loop (length (sackblocks s)) s seq cur last_ prev;
      mret (set_lastfound s sb, sb, found)
  end.

(** ** Blocks *)

Section Sack.
(** kmalloc(M_NOWAIT): does the n-th allocation succeed? *)
Context (kmalloc_ok : nat -> bool).
(** sysctl variables *)
Context (tcp_do_rfc6675 tcp_do_rescuesack tcp_aggressive_rescuesack tcp_do_smartsack : bool).

Definition alloc_sackblock (s : scoreboard) (raw : raw_sackblock) : scoreboard * option nat :=
  let b := Sackblock (rblk_start raw) (rblk_end raw) in
  match freecache s with
  | Some i => (store (set_freecache s None) i b, Some i)
  | None =>
      let n := scb_next s in
      let s := Scoreboard (nblocks s) (sackblocks s) (lostseq s) (lastfound s) (freecache s) (scb_heap s) (S n) in
      if kmalloc_ok n then (store s n b, Some n) else (s, None)
  end.

Definition alloc_sackblock_limit (s : scoreboard) (raw : raw_sackblock) : scoreboard * option nat :=
  if nblocks s =? MAXSAVEDBLOCKS then (s, None) else alloc_sackblock s raw.

Definition free_sackblock (s : scoreboard) (i : nat) : scoreboard :=
  match freecache s with
  | None => set_freecache s (Some i)
  | Some _ => set_heap s (delete i (scb_heap s))
  end.

(** if (scb->lastfound == sb) scb->lastfound = NULL; TAILQ_REMOVE(..., sb);
    free_sackblock(scb, sb); --scb->nblocks; *)
Definition remove_block (s : scoreboard) (i : nat) : scoreboard :=
  let s := if decide (lastfound s = Some i) then set_lastfound s None else s in
  let s := set_sackblocks s (tailq_remove i (sackblocks s)) in
  let s := free_sackblock s i in
  set_nblocks s (nblocks s - 1).

(** ** Acknowledged blocks *)

(** while (sb && SEQ_LEQ(sb->sblk_end, th_ack)) ...: the scoreboard and sb *)
Fixpoint ack_loop (fuel : nat) (s : scoreboard) (th_ack : Z) (sb : option nat) : outcome (scoreboard * option nat) :=
  match sb with
  | None => mret (s, None)
  | Some i =>
      b ← deref s sb;
      if SEQ_LEQ (sblk_end b) th_ack then
        let nb := tailq_next i (sackblocks s) in
        let s := remove_block s i in
        _ ← KKASSERT "SACK block count underflow" (nblocks s >=? 0);
        match fuel with O => Fault OutOfFuel | S fuel => ack_loop fuel s th_ack nb end
      else mret (s, sb)
  end.

(** TAILQ_FOREACH_MUTABLE(sb, ...) { free_sackblock(scb, sb); --scb->nblocks; } *)
Fixpoint cleanup_loop (s : scoreboard) (l : list nat) : outcome scoreboard :=
  match l with
  | [] => mret s
  | i :: l =>
      _ ← deref s (Some i);
      let s := free_sackblock s i in
      cleanup_loop (set_nblocks s (nblocks s - 1)) l
  end.

Definition tcp_sack_cleanup (s : scoreboard) : outcome scoreboard :=
  s ← cleanup_loop s (sackblocks s);
  _ ← KKASSERT "SACK block count not zero" (nblocks s =? 0);
  mret (set_lastfound (set_sackblocks s []) None).

Definition tcp_sack_discard (tp : tcpcb) : outcome tcpcb :=
  s ← tcp_sack_cleanup (scb tp);
  let tp := set_rexmt_high (set_scb tp s) (snd_una tp) in
  let tp := clear_rescued tp in
  mret (set_scb tp (set_lostseq (scb tp) (snd_una tp))).

Definition tcp_sack_destroy (s : scoreboard) : outcome scoreboard :=
  s ← tcp_sack_cleanup s;
  mret (match freecache s with
        | Some i => set_freecache (set_heap s (delete i (scb_heap s))) None
        | None => s
        end).

Definition tcp_sack_ack_blocks (tp : tcpcb) (th_ack : Z) : outcome tcpcb :=
  '(s, sb) ← ack_loop (length (sackblocks (scb tp))) (scb tp) th_ack (head (sackblocks (scb tp)));
  let tp := set_scb tp s in
  match sb with
  | None => mret tp
  | Some _ =>
      b ← deref s sb;
      if SEQ_GEQ th_ack (sblk_start b) then tcp_sack_discard tp else mret tp
  end.

(** ** New blocks *)

Definition tcp_sack_ndsack_blocks (blocks : list raw_sackblock) (una : Z) : Z :=
  match blocks with
  | [] => 0
  | b0 :: rest =>
      if SEQ_LT (rblk_start b0) una then 1
      else match rest with
           | b1 :: _ => if SEQ_GEQ (rblk_start b0) (rblk_start b1) && SEQ_LEQ (rblk_end b0) (rblk_end b1) then 2 else 0
           | [] => 0
           end
  end.

(** while (sb != NULL && SEQ_GEQ(workingblock->sblk_end, sb->sblk_end)) ... *)
Fixpoint consolidate_loop (fuel : nat) (s : scoreboard) (working : nat) (sb : option nat) :
    outcome (scoreboard * option nat) :=
  match sb with
  | None => mret (s, None)
  | Some i =>
      w ← deref s (Some working);
      b ← deref s sb;
      if SEQ_GEQ (sblk_end w) (sblk_end b) then
        let nextblock := tailq_next i (sackblocks s) in
        let s := remove_block s i in
        _ ← KKASSERT "removed overlapped block" (nblocks s >? 0);
        match fuel with O => Fault OutOfFuel | S fuel => consolidate_loop fuel s working nextblock end
      else mret (s, sb)
  end.

(** From "Consolidate right-hand side" to the end of insert_block. *)
Definition consolidate (s : scoreboard) (working : nat) : outcome scoreboard :=
  '(s, sb) ← consolidate_loop (length (sackblocks s)) s working (tailq_next working (sackblocks s));
  match sb with
  | None => mret s
  | Some i =>
      w ← deref s (Some working);
      b ← deref s sb;
      if SEQ_GEQ (sblk_end w) (sblk_start b) then
        let s := store s working (Sackblock (sblk_start w) (sblk_end b)) in
        let s := remove_block s i in
        _ ← KKASSERT "removed partial right" (nblocks s >? 0);
        mret s
      else mret s
  end.

(** From the lookup on: [sb] is the block that contains the start of the new one or
    precedes it. *)
Definition insert_found (s : scoreboard) (raw : raw_sackblock) (sb : option nat) (overlap_front : bool) :
    outcome (scoreboard * Z * bool) :=
  match sb with
  | None =>
      match alloc_sackblock_limit s raw with
      | (s, None) => mret (s, ENOMEM, true)
      | (s, Some i) =>
          s ← consolidate (set_nblocks (set_sackblocks s (i :: sackblocks s)) (nblocks s + 1)) i;
          mret (s, 0, true)
      end
  | Some p =>
      b ← deref s sb;
      if overlap_front || (sblk_end b =? rblk_start raw) then
        if SEQ_GT (rblk_end raw) (sblk_end b) then
          s ← consolidate (store s p (Sackblock (sblk_start b) (rblk_end raw))) p;
          mret (s, 0, true)
        else mret (s, 0, false)
      else
        match alloc_sackblock_limit s raw with
        | (s, None) => mret (s, ENOMEM, true)
        | (s, Some i) =>
            s ← consolidate (set_nblocks (set_sackblocks s (insert_after p i (sackblocks s))) (nblocks s + 1)) i;
            mret (s, 0, true)
        end
  end.

(** The scoreboard, the error and *update. *)
Definition insert_block (s : scoreboard) (raw : raw_sackblock) : outcome (scoreboard * Z * bool) :=
  match sackblocks s with
  | [] =>
      _ ← KKASSERT "emply scb w/ blocks" (nblocks s =? 0);
      match alloc_sackblock s raw with
      | (s, None) => mret (s, ENOMEM, true)
      | (s, Some i) => mret (set_nblocks (set_sackblocks s (i :: sackblocks s)) 1, 0, true)
      end
  | _ :: _ =>
      _ ← KKASSERT "insert_block() called w/ no blocks" (nblocks s >? 0);
      _ ← KKASSERT "too many SACK blocks" (nblocks s <=? MAXSAVEDBLOCKS);
      '(s, sb, overlap_front) ← sack_block_lookup s (rblk_start raw);
      insert_found s raw sb overlap_front
  end.

(** for (i = startblock; i < numblocks; i++) ...: the scoreboard, and whether
    TOF_SACK_REDUNDANT is still set *)
Fixpoint add_loop (s : scoreboard) (una max : Z) (blocks : list raw_sackblock) (redundant : bool) :
    outcome (scoreboard * bool) :=
  match blocks with
  | [] => mret (s, redundant)
  | b :: blocks =>
      if SEQ_LEQ (rblk_start b) una then add_loop s una max blocks redundant
      else if SEQ_GT (rblk_end b) max then mret (s, redundant)
      else
        '(s, error, update) ← insert_block s b;
        let redundant := if update : bool then false else redundant in
        if negb (error =? 0) then mret (s, redundant) else add_loop s una max blocks redundant
  end.

Definition tcp_sack_add_blocks (tp : tcpcb) (blocks : list raw_sackblock) : outcome (tcpcb * bool) :=
  let startblock := if tcp_sack_ndsack_blocks blocks (snd_una tp) >? 0 then 1%nat else 0%nat in
  '(s, redundant) ← add_loop (scb tp) (snd_una tp) (snd_max tp) (drop startblock blocks) true;
  mret (set_scb tp s, redundant).

(** ** What is lost *)

(** sb = TAILQ_LAST(...); while (sb != NULL) { ...; sb = TAILQ_PREV(...) }: the new
    lostseq, if the loop returns with one *)
Fixpoint lost_loop (fuel : nat) (s : scoreboard) (rxtthresh rxtthresh_bytes : Z) (sb : option nat)
    (nsackblocks bytes_sacked : Z) : outcome (option Z) :=
  match sb with
  | None => mret None
  | Some i =>
      b ← deref s sb;
      let nsackblocks := nsackblocks + 1 in
      let bytes_sacked := s32 (bytes_sacked + u32 (sblk_end b - sblk_start b)) in
      if (nsackblocks =? rxtthresh) || (bytes_sacked >=? rxtthresh_bytes) then mret (Some (sblk_start b))
      else match fuel with
           | O => Fault OutOfFuel
           | S fuel => lost_loop fuel s rxtthresh rxtthresh_bytes (tailq_prev None i (sackblocks s)) nsackblocks bytes_sacked
           end
  end.

Definition tcp_sack_update_lostseq (s : scoreboard) (una maxseg rxtthresh : Z) : outcome scoreboard :=
  let rxtthresh_bytes := if tcp_do_rfc6675 then s32 (u32 (rxtthresh - 1) * maxseg) else s32 (u32 rxtthresh * maxseg) in
  r ← lost_loop (length (sackblocks s)) s rxtthresh rxtthresh_bytes (last (sackblocks s)) 0 0;
  mret (set_lostseq s (default una r)).

Definition tcp_sack_islost (s : scoreboard) (seqnum : Z) : bool := SEQ_LT seqnum (lostseq s).

Definition tcp_sack_update_scoreboard (tp : tcpcb) (blocks : list raw_sackblock) : outcome (tcpcb * bool) :=
  tp ← tcp_sack_ack_blocks tp (snd_una tp);
  '(tp, redundant) ← tcp_sack_add_blocks tp blocks;
  s ← tcp_sack_update_lostseq (scb tp) (snd_una tp) (t_maxseg tp) (t_rxtthresh tp);
  let tp := set_scb tp s in
  let '(tp, rexmt_high_update) :=
    if SEQ_LT (rexmt_high tp) (snd_una tp) then (set_rexmt_high tp (snd_una tp), true) else (tp, false) in
  let tp :=
    if sack_rescued tp then
      if SEQ_LEQ (rexmt_rescue tp) (snd_una tp) then clear_rescued tp
      else if tcp_aggressive_rescuesack && rexmt_high_update && SEQ_LT (rexmt_rescue tp) (rexmt_high tp)
      then set_rexmt_rescue tp (rexmt_high tp) else tp
    else tp in
  mret (tp, redundant).

(** tcp_ncr_update_rxtthresh of sys/netinet/tcp_input.c; tcprexmtthresh is 3. *)
Definition tcprexmtthresh : Z := 3.
Definition tcp_ncr_update_rxtthresh (tp : tcpcb) : outcome tcpcb :=
  let ownd := u32 (snd_max tp - snd_una tp) in
  if t_maxseg tp =? 0 then Fault DivideByZero
  else
    let t := s32 (Z.max tcprexmtthresh (Z.shiftr (ownd / t_maxseg tp) 1)) in
    if negb (t =? t_rxtthresh tp) then
      s ← tcp_sack_update_lostseq (scb tp) (snd_una tp) (t_maxseg tp) t;
      mret (set_scb (set_rxtthresh tp t) s)
    else mret (set_rxtthresh tp t).

(** ** Sums over the blocks *)

(** TAILQ_FOREACH(sb, &scb->sackblocks, sblk_list), with the state of the loop;
    the body may return early with [inr]. *)
Fixpoint foreach {S R : Type} (s : scoreboard) (body : sackblock -> S -> S + R) (l : list nat) (st : S) : outcome (S + R) :=
  match l with
  | [] => mret (inl st)
  | i :: l =>
      b ← deref s (Some i);
      match body b st with inl st => foreach s body l st | inr r => mret (inr r) end
  end.

Definition tcp_sack_has_sacked (s : scoreboard) (amount : Z) : outcome bool :=
  r ← foreach s (fun b bytes =>
        let bytes := s32 (bytes + u32 (sblk_end b - sblk_start b)) in
        if u32 bytes >=? amount then inr true else inl bytes) (sackblocks s) 0;
  mret (match r with inr t => t | inl _ => false end).

(** while (sb && SEQ_GT(seq, sb->sblk_start)) ... *)
Definition tcp_sack_bytes_below (s : scoreboard) (seq : Z) : outcome Z :=
  r ← foreach s (fun b bytes =>
        if SEQ_GT seq (sblk_start b)
        then inl (s32 (bytes + u32 (seq_min seq (sblk_end b) - sblk_start b))) else inr bytes) (sackblocks s) 0;
  mret (match r with inl n => n | inr n => n end).

Definition tcp_sack_compute_pipe (tp : tcpcb) : outcome Z :=
  let s := scb tp in
  r ← foreach (R := Empty_set) s (fun b '(nlost, nretransmitted) =>
        let nretransmitted :=
          if SEQ_LT (sblk_start b) (rexmt_high tp)
          then s32 (nretransmitted - u32 (seq_min (sblk_end b) (rexmt_high tp) - sblk_start b)) else nretransmitted in
        let nlost :=
          if SEQ_GEQ (sblk_start b) (lostseq s) then s32 (nlost - u32 (sblk_end b - sblk_start b)) else nlost in
        inl (nlost, nretransmitted))
        (sackblocks s) (s32 (snd_max tp - lostseq s), s32 (rexmt_high tp - snd_una tp));
  mret (match r with inl (nlost, nretransmitted) => u32 (nlost + nretransmitted) | inr e => match (e : Empty_set) with end end).

(** ** What to send *)

Definition tcp_sack_skip_sacked (s : scoreboard) (rexmt : Z) : outcome (scoreboard * Z) :=
  '(s, sb, found) ← sack_block_lookup s rexmt;
  if found : bool then b ← deref s sb; mret (s, sblk_end b) else mret (s, rexmt).

Definition tcp_sack_first_unsacked_len (tp : tcpcb) : outcome Z :=
  match sackblocks (scb tp) with
  | [] => mret (t_maxseg tp)
  | i :: _ =>
      b ← deref (scb tp) (Some i);
      _ ← KKASSERT "invalid sb start" (SEQ_LT (snd_una tp) (sblk_start b));
      mret (u32 (sblk_start b - snd_una tp))
  end.

(** sendunsacked: the tcpcb, *nextrexmt and *plen *)
Definition sendunsacked (tp : tcpcb) (torexmt : Z) : outcome (tcpcb * (Z * Z)) :=
  '(s, sb, found) ← sack_block_lookup (scb tp) (u32 (torexmt + t_maxseg tp));
  let tp := set_scb tp s in
  if found : bool then b ← deref s sb; mret (tp, (torexmt, u32 (sblk_start b - torexmt)))
  else mret (tp, (torexmt, t_maxseg tp)).

(** The tcpcb, what is returned through nextrexmt and plen if the result is TRUE, and
    *rescue; [ssb_cc] is the number of bytes in the send buffer. *)
Definition tcp_sack_nextseg (tp : tcpcb) (ssb_cc : Z) : outcome (tcpcb * option (Z * Z) * bool) :=
  let lastblock := last (sackblocks (scb tp)) in
  '(s, high) ← tcp_sack_skip_sacked (scb tp) (rexmt_high tp);
  let tp := set_rexmt_high (set_scb tp s) high in
  let torexmt := rexmt_high tp in
  before_last ←
    match lastblock with
    | None => mret false
    | Some _ => b ← deref s lastblock; mret (SEQ_LT torexmt (sblk_end b))
    end;
  if before_last && tcp_sack_islost s torexmt then
    '(tp, r) ← sendunsacked tp torexmt; mret (tp, Some r, false)
  else
    let off := u32 (snd_max tp - snd_una tp) in
    let sendwin := Z.min (u32 (snd_wnd tp)) (u32 (snd_bwnd tp)) in
    let len := Z.min ssb_cc sendwin - off in
    if len >? 0 then mret (tp, Some (snd_max tp, t_maxseg tp), false)
    else if before_last : bool then '(tp, r) ← sendunsacked tp torexmt; mret (tp, Some r, false)
    else if tcp_do_rescuesack || tcp_do_rfc6675 then
      if sack_rescued tp && negb tcp_aggressive_rescuesack then mret (tp, None, false)
      else
        '(tp, torexmt) ←
          (if sack_rescued tp then
             '(s, t) ← tcp_sack_skip_sacked (scb tp) (rexmt_rescue tp); mret (set_scb tp s, t)
           else mret (tp, torexmt));
        let torexmt := if torexmt =? snd_max tp then snd_una tp else torexmt in
        '(tp, r) ← sendunsacked tp torexmt; mret (tp, Some r, true)
    else if tcp_do_smartsack && bool_decide (lastblock = None) then
      '(tp, r) ← sendunsacked tp torexmt; mret (tp, Some r, true)
    else mret (tp, None, false).
End Sack.
