(* ===== verification/SackInv.v ===== *)
(** * The SACK scoreboard: representation

    [scb_mem] says that the objects of a scoreboard hold a list of blocks, given by
    the integers that the sequence numbers stand for: the list has no duplicates,
    the hint points into it, the cache does not, the count is right, and nothing
    else is allocated.  [sorted] says that the blocks lie between two numbers, in
    order, and do not touch. *)

From stdpp Require Import prelude list strings gmap.
From S2P Require Import Prelude.
From S2P Require Import Tailq.
From S2P Require Import Seq.
From S2P Require Import Sack.
Open Scope Z_scope.

(** A block: its number, and the numbers of its first byte and of the byte behind it. *)
#[warnings="-notation-for-abbreviation"]
Notation blk := (nat * (Z * Z))%type (only parsing).

Fixpoint sorted (lo : Z) (bl : list blk) (hi : Z) : Prop :=
  match bl with
  | [] => lo <= hi
  | (_, (a, b)) :: bl => lo < a /\ a < b /\ sorted b bl hi
  end.

(** The memory holds the block. *)
Definition holds (h : gmap nat sackblock) (p : blk) : Prop := h !! p.1 = Some (Sackblock (u32 p.2.1) (u32 p.2.2)).

Record scb_mem (s : scoreboard) (bl : list blk) : Prop := {
  mem_ids : sackblocks s = bl.*1;
  mem_nodup : NoDup bl.*1;
  mem_blocks : Forall (holds (scb_heap s)) bl;
  mem_count : nblocks s = zlen bl;
  mem_hint : forall i, lastfound s = Some i -> i ∈ bl.*1;
  mem_cache : forall i, freecache s = Some i -> i ∉ bl.*1;
  mem_heap : forall i, is_Some (scb_heap s !! i) <-> i ∈ bl.*1 \/ freecache s = Some i;
  mem_next : forall i, is_Some (scb_heap s !! i) -> (i < scb_next s)%nat
}.

Definition scb_rep (s : scoreboard) (lo : Z) (bl : list blk) (hi : Z) : Prop :=
  scb_mem s bl /\ sorted lo bl hi /\ zlen bl <= MAXSAVEDBLOCKS.

(** ** Sorted lists *)

Lemma sorted_le bl : forall lo hi, sorted lo bl hi -> lo <= hi.
Proof. induction bl as [| [i [a b]] bl IH]; intros lo hi; cbn [sorted]; [done |]. intros (H1 & H2 & H%IH). lia. Qed.

Lemma sorted_weaken bl : forall lo lo' hi hi', sorted lo bl hi -> lo' <= lo -> hi <= hi' -> sorted lo' bl hi'.
Proof.
  induction bl as [| [i [a b]] bl IH]; intros lo lo' hi hi'; cbn [sorted]; [lia |].
  intros (H1 & H2 & H3) Hl Hh. split_and!; [lia | done |]. eapply IH; [done | lia | done].
Qed.

Lemma sack_sorted_app l1 i a b l2 : forall lo hi,
  sorted lo (l1 ++ (i, (a, b)) :: l2) hi <-> sorted lo l1 (a - 1) /\ a < b /\ sorted b l2 hi.
Proof.
  induction l1 as [| [j [c d]] l1 IH]; intros lo hi; cbn [app sorted]; [split; intros (? & ? & ?); split_and!; [lia | done | done | lia | done | done] |].
  rewrite IH. tauto.
Qed.

Lemma sorted_in bl : forall lo hi i a b, sorted lo bl hi -> (i, (a, b)) ∈ bl -> lo < a /\ a < b /\ b <= hi.
Proof.
  intros lo hi i a b H (l1 & l2 & ->)%list_elem_of_split. apply sack_sorted_app in H as (H1 & H2 & H3).
  apply sorted_le in H1, H3. lia.
Qed.

(** ** Objects *)

Lemma holds_frame (h h' : gmap nat sackblock) (l : list blk) :
  (forall i, i ∈ l.*1 -> h' !! i = h !! i) -> Forall (holds h) l -> Forall (holds h') l.
Proof.
  intros Hh HF. rewrite Forall_forall in *. intros p Hp. unfold holds. rewrite Hh; [by apply HF |]. by apply list_elem_of_fmap_2.
Qed.

Section Mem.
Context (s : scoreboard).

Lemma mem_deref bl i a b : scb_mem s bl -> (i, (a, b)) ∈ bl -> deref s (Some i) = Done (Sackblock (u32 a) (u32 b)).
Proof. intros H Hi. pose proof (mem_blocks _ _ H) as HF. rewrite Forall_forall in HF. specialize (HF _ Hi). unfold holds in HF. cbn in HF. unfold deref. by rewrite HF. Qed.

Lemma mem_deref_mid l1 i a b l2 : scb_mem s (l1 ++ (i, (a, b)) :: l2) -> deref s (Some i) = Done (Sackblock (u32 a) (u32 b)).
Proof. intros H. eapply mem_deref; [done |]. set_solver. Qed.

Lemma mem_not_in l1 i p l2 : scb_mem s (l1 ++ (i, p) :: l2) -> (i ∉ l1.*1) /\ (i ∉ l2.*1).
Proof.
  intros H. pose proof (mem_nodup _ _ H) as Hn. rewrite fmap_app in Hn. cbn in Hn. apply NoDup_app in Hn as (_ & H1 & H2).
  apply NoDup_cons in H2 as [H2 _]. split; [| done]. intros Hi. apply (H1 _ Hi). by left.
Qed.

Lemma mem_next_mid l1 i p l2 : scb_mem s (l1 ++ (i, p) :: l2) -> tailq_next i (sackblocks s) = head (l2.*1).
Proof. intros H. destruct (mem_not_in _ _ _ _ H). rewrite (mem_ids _ _ H), fmap_app. cbn. by apply tailq_next_mid. Qed.

Lemma mem_prev_mid l1 i p l2 : scb_mem s (l1 ++ (i, p) :: l2) -> tailq_prev None i (sackblocks s) = last (l1.*1).
Proof.
  intros H. destruct (mem_not_in _ _ _ _ H). rewrite (mem_ids _ _ H), fmap_app. cbn. rewrite tailq_prev_mid by done. by destruct (last (l1.*1)).
Qed.
End Mem.

Lemma mem_set_lastfound s bl o : scb_mem s bl -> (forall i, o = Some i -> i ∈ bl.*1) -> scb_mem (set_lastfound s o) bl.
Proof. intros [] Ho. by constructor. Qed.

Lemma mem_set_lostseq s bl z : scb_mem s bl -> scb_mem (set_lostseq s z) bl.
Proof. intros []. by constructor. Qed.

Lemma mem_store s l1 i p l2 a b : scb_mem s (l1 ++ (i, p) :: l2) ->
  scb_mem (store s i (Sackblock (u32 a) (u32 b))) (l1 ++ (i, (a, b)) :: l2).
Proof.
  intros H. destruct (mem_not_in _ _ _ _ _ H) as [Hn1 Hn2]. destruct H as [H1 H2 H3 H4 H5 H6 H7 H8].
  assert (Eids : (l1 ++ (i, p) :: l2).*1 = (l1 ++ (i, (a, b)) :: l2).*1) by (by rewrite !fmap_app).
  rewrite Eids in *. constructor; try done; cbn.
  - rewrite Forall_app, Forall_cons in *. destruct H3 as (H3 & _ & H3'). unfold holds at 2. cbn. rewrite lookup_insert_eq. split_and!; [| done |].
    all: eapply holds_frame; [| done]; intros j Hj; apply lookup_insert_ne; by intros ->.
  - rewrite H4. by rewrite !zlen_app, !zlen_cons.
  - intros j. rewrite <- H7. destruct (decide (i = j)) as [<- | ]; [rewrite lookup_insert_eq | by rewrite lookup_insert_ne].
    split; [| done]. intros _. rewrite H7. left. rewrite fmap_app. set_solver.
  - intros j. destruct (decide (i = j)) as [<- | ]; [| rewrite lookup_insert_ne by done; apply H8].
    intros _. apply H8, H7. left. rewrite fmap_app. set_solver.
Qed.

Lemma mem_remove s l1 i p l2 : scb_mem s (l1 ++ (i, p) :: l2) -> scb_mem (remove_block s i) (l1 ++ l2).
Proof.
  intros H. destruct (mem_not_in _ _ _ _ _ H) as [Hn1 Hn2]. destruct H as [H1 H2 H3 H4 H5 H6 H7 H8].
  rewrite !fmap_app in *. cbn [fmap list_fmap fst] in *.
  assert (Hi : i ∈ l1.*1 ++ i :: l2.*1) by set_solver.
  assert (Hne : freecache s <> Some i) by (intros E; by apply (H6 _ E)).
  assert (Hin : forall j, j ∈ l1.*1 ++ l2.*1 <-> j ∈ l1.*1 ++ i :: l2.*1 /\ j <> i).
  { intros j. rewrite !elem_of_app, elem_of_cons. split; [| naive_solver]. intros [Hj | Hj]; (split; [naive_solver | by intros ->]). }
  set (s1 := if decide (lastfound s = Some i) then set_lastfound s None else s).
  assert (Es1 : sackblocks s1 = sackblocks s /\ nblocks s1 = nblocks s /\ freecache s1 = freecache s /\ scb_heap s1 = scb_heap s /\ scb_next s1 = scb_next s)
    by (unfold s1; by case_decide).
  destruct Es1 as (E1 & E2 & E3 & E4 & E5).
  assert (Hhint : forall j, lastfound s1 = Some j -> j ∈ l1.*1 ++ l2.*1).
  { unfold s1. intros j Hj. apply Hin. case_decide as Hd; cbn in Hj; [done |]. split; [by apply H5 | congruence]. }
  assert (HF : Forall (holds (scb_heap s)) (l1 ++ l2)).
  { rewrite Forall_app, Forall_cons in *. naive_solver. }
  unfold remove_block. fold s1. unfold free_sackblock. cbn [freecache set_sackblocks]. rewrite E3.
  assert (Hcnt : nblocks s1 - 1 = zlen (l1 ++ l2)) by (rewrite E2, H4, !zlen_app, zlen_cons; lia).
  assert (Hids : tailq_remove i (sackblocks s1) = l1.*1 ++ l2.*1) by (by rewrite E1, H1, tailq_remove_mid).
  assert (Hnd : NoDup (l1.*1 ++ l2.*1)).
  { apply NoDup_app in H2 as (? & Hd & [_ ?]%NoDup_cons). apply NoDup_app. split_and!; [done | | done]. intros j Hj. specialize (Hd j Hj). set_solver. }
  destruct (freecache s) as [f |] eqn:Ef; constructor; cbn; rewrite ?fmap_app; try done; rewrite ?E3, ?E4, ?E5, ?Ef; try done.
  - eapply holds_frame; [| done]. intros j Hj. rewrite fmap_app in Hj. rewrite lookup_delete_ne; [done |]. intros <-. by apply Hin in Hj as [_ ?].
  - intros j [= <-]. rewrite Hin. intros [Hj _]. by apply (H6 f).
  - intros j. destruct (decide (i = j)) as [<- | Hij].
    + rewrite lookup_delete_eq, Hin. split; [by intros [? ?] | intros [[_ ?] | ?]; congruence].
    + rewrite lookup_delete_ne, H7, Hin by done. naive_solver.
  - intros j. destruct (decide (i = j)) as [<- | Hij]; [rewrite lookup_delete_eq; by intros [? ?] | rewrite lookup_delete_ne by done; apply H8].
  - intros j [= <-]. rewrite Hin. by intros [_ ?].
  - intros j. rewrite H7, Hin. destruct (decide (i = j)) as [<- | Hij]; [naive_solver |]. naive_solver.
Qed.

Lemma remove_lostseq s i : lostseq (remove_block s i) = lostseq s.
Proof. unfold remove_block, free_sackblock. cbn. by case_decide; cbn; destruct (freecache s). Qed.

(** An allocated block that is put into the list. *)
Lemma mem_alloc kmalloc_ok s bl x y : scb_mem s bl ->
  match alloc_sackblock kmalloc_ok s (RawSackblock (u32 x) (u32 y)) with
  | (s', None) => scb_mem s' bl /\ lostseq s' = lostseq s /\ freecache s = None /\ lastfound s' = lastfound s
  | (s', Some i) => sackblocks s' = bl.*1 /\ nblocks s' = zlen bl /\ lostseq s' = lostseq s /\
      forall l1 l2, bl = l1 ++ l2 ->
        scb_mem (set_nblocks (set_sackblocks s' (l1.*1 ++ i :: l2.*1)) (zlen bl + 1)) (l1 ++ (i, (x, y)) :: l2)
  end.
Proof.
  intros H. pose proof H as [H1 H2 H3 H4 H5 H6 H7 H8]. unfold alloc_sackblock.
  assert (Hnew : forall s' i, i ∉ bl.*1 -> scb_heap s' = <[i := Sackblock (u32 x) (u32 y)]> (scb_heap s) -> freecache s' = None ->
            lastfound s' = lastfound s -> (freecache s = Some i \/ freecache s = None) -> (i < scb_next s')%nat -> (scb_next s <= scb_next s')%nat ->
            forall l1 l2, bl = l1 ++ l2 ->
            scb_mem (set_nblocks (set_sackblocks s' (l1.*1 ++ i :: l2.*1)) (zlen bl + 1)) (l1 ++ (i, (x, y)) :: l2)).
  { intros s' i Hi Eh Ef El Hf Hlt Hle l1 l2 ->. rewrite fmap_app in *.
    assert (Hin : forall j, j ∈ l1.*1 ++ i :: l2.*1 <-> j = i \/ j ∈ l1.*1 ++ l2.*1) by (intros j; rewrite !elem_of_app, elem_of_cons; naive_solver).
    assert (HF : Forall (holds (<[i := Sackblock (u32 x) (u32 y)]> (scb_heap s))) (l1 ++ l2)).
    { eapply holds_frame; [| done]. intros j Hj. rewrite fmap_app in Hj. apply lookup_insert_ne. by intros <-. }
    constructor; cbn; rewrite ?fmap_app; cbn [fmap list_fmap fst]; rewrite ?Eh, ?Ef, ?El; try done.
    - apply NoDup_app in H2 as (? & Hd & ?). apply NoDup_app. split_and!; [done | | apply NoDup_cons; split; [set_solver | done]]. set_solver.
    - rewrite Forall_app, Forall_cons in *. split_and!; [naive_solver | | naive_solver]. unfold holds. cbn. by rewrite lookup_insert_eq.
    - rewrite !zlen_app, zlen_cons. lia.
    - intros j Hj. apply Hin. right. by apply H5.
    - intros j. rewrite Hin. destruct (decide (i = j)) as [<- | Hij]; [rewrite lookup_insert_eq; naive_solver |].
      rewrite lookup_insert_ne, H7 by done. naive_solver.
    - intros j. destruct (decide (i = j)) as [<- | Hij]; [done |]. rewrite lookup_insert_ne by done. intros Hj%H8. lia. }
  destruct (freecache s) as [f |] eqn:Ef.
  - split_and!; [done | done | done |]. apply Hnew; try done; [by apply H6 | by left |]. apply H8, H7. by right.
  - destruct (kmalloc_ok (scb_next s)) eqn:Ek; cbn.
    + split_and!; [done | done | done |]. apply Hnew; cbn; try done; [| by right | lia | lia].
      intros Hi. assert (Hlt : (scb_next s < scb_next s)%nat) by (apply H8, H7; by left). lia.
    + split_and!; [| done | done | done]. constructor; cbn; rewrite ?Ef; try done. intros i Hi%H8. lia.
Qed.
