(* ===== verification/SackUpdate.v ===== *)
(** * The SACK scoreboard: search, insertion and removal, and the update by an acknowledgement *)

From stdpp Require Import prelude list strings gmap.
From S2P Require Import Prelude.
From S2P Require Import Tailq.
From S2P Require Import Seq.
From S2P Require Import Sack.
From S2P Require Import SackInv.
Open Scope Z_scope.

(** ** Search *)

(** The block that contains [x] or precedes it, and whether it contains it. *)
Fixpoint find_block (x : Z) (prev : option nat) (bl : list blk) : option nat * bool :=
  match bl with
  | [] => (prev, false)
  | (i, (a, b)) :: bl =>
      if x <? a then (prev, false) else if x <? b then (Some i, true) else find_block x (Some i) bl
  end.

Lemma find_block_below x prev l : forall lo, (forall i a b, (i, (a, b)) ∈ l -> b <= x) -> sorted lo l x ->
  find_block x prev l = (match last (l.*1) with Some i => Some i | None => prev end, false).
Proof.
  revert prev. induction l as [| [i [a b]] l IH]; intros prev lo Hb Hs; [done |]. cbn [find_block]. destruct Hs as (H1 & H2 & H3).
  assert (Hbx : b <= x) by (eapply Hb; by left).
  destruct (Z.ltb_spec x a); [lia |]. destruct (Z.ltb_spec x b); [lia |].
  rewrite (IH _ b) by (first [done | intros; eapply Hb; by right]). cbn [fmap list_fmap fst]. rewrite last_cons. by destruct (last (l.*1)).
Qed.

Lemma find_block_app x prev l1 i a b l2 lo : sorted lo l1 (a - 1) -> a <= x ->
  find_block x prev (l1 ++ (i, (a, b)) :: l2) =
    find_block x (match last (l1.*1) with Some j => Some j | None => prev end) ((i, (a, b)) :: l2).
Proof.
  revert prev lo. induction l1 as [| [j [c d]] l1 IH]; intros prev lo Hs Ha; [done |]. destruct Hs as (H1 & H2 & H3).
  pose proof (sorted_le _ _ _ H3). cbn [app]. cbn [find_block]. destruct (Z.ltb_spec x c); [lia |]. destruct (Z.ltb_spec x d); [lia |].
  rewrite (IH _ d) by done. cbn [fmap list_fmap fst find_block]. rewrite last_cons. by destruct (last (l1.*1)).
Qed.

Lemma find_block_before x prev l1 i a b l2 : x < a -> find_block x prev (l1 ++ (i, (a, b)) :: l2) = find_block x prev l1.
Proof.
  revert prev. induction l1 as [| [j [c d]] l1 IH]; intros prev Ha; cbn [app find_block]; [by destruct (Z.ltb_spec x a); [| lia] |].
  by rewrite IH.
Qed.

(** The two outcomes of a search. *)
Lemma find_block_cases x lo bl hi : sorted lo bl hi ->
  (find_block x None bl = (None, false) /\ match bl with [] => True | (_, (a, _)) :: _ => x < a end) \/
  exists l1 i a b l2, bl = l1 ++ (i, (a, b)) :: l2 /\ find_block x None bl = (Some i, x <? b) /\ a <= x /\
    match l2 with [] => True | (_, (c, _)) :: _ => x < c end.
Proof.
  intros Hs. assert (Hgen : forall l prev m, sorted m l hi -> (find_block x prev l = (prev, false) /\ match l with [] => True | (_, (a, _)) :: _ => x < a end) \/
    exists l1 i a b l2, l = l1 ++ (i, (a, b)) :: l2 /\ find_block x prev l = (Some i, x <? b) /\ a <= x /\ match l2 with [] => True | (_, (c, _)) :: _ => x < c end);
    [| by eapply Hgen].
  clear Hs lo. induction l as [| [i [a b]] l IH]; intros prev m Hm; [by left |]. destruct Hm as (H1 & H2 & H3). cbn [find_block].
  destruct (Z.ltb_spec x a) as [Hxa | Hxa]; [by left |]. right.
  destruct (Z.ltb_spec x b) as [Hxb | Hxb].
  - exists [], i, a, b, l. rewrite (proj2 (Z.ltb_lt x b)) by done. split_and!; [done | done | lia |].
    destruct l as [| [j [c d]] l]; [done |]. destruct H3. lia.
  - destruct (IH (Some i) b H3) as [[E Hl] | (l1 & j & c & d & l2 & -> & E & Hc & Hl)].
    + exists [], i, a, b, l. rewrite E, (proj2 (Z.ltb_ge x b)) by done. by split_and!.
    + exists ((i, (a, b)) :: l1), j, c, d, l2. by split_and!.
Qed.

Section Lookup.
Context (s : scoreboard) (bl : list blk) (lo hi x : Z).
Hypothesis Hmem : scb_mem s bl.
Hypothesis Hsorted : sorted lo bl hi.
Hypothesis Hnear : hi - 2 ^ 31 < x < lo + 2 ^ 31.

Lemma blk_near i a b : (i, (a, b)) ∈ bl -> near a x /\ near b x.
Proof. intros Hi. destruct (sorted_in _ _ _ _ _ _ Hsorted Hi). unfold near. lia. Qed.

(** From the block of [l2] that [cur] points to, up to [l3]. *)
Lemma lookup_loop_ok l1 l2 l3 : forall fuel cur last_ prev m, bl = l1 ++ l2 ++ l3 -> cur = head (l2.*1) -> l2 <> [] ->
  last_ = head (l3.*1) -> prev = last (l2.*1) -> (length l2 <= fuel)%nat -> sorted m l2 hi ->
  lookup_loop fuel s (u32 x) cur last_ prev = Done (find_block x (last (l1.*1)) l2).
Proof.
  revert l1. induction l2 as [| [i [a b]] l2 IH]; intros l1 fuel cur last_ prev m Ebl -> Hne -> -> Hf Hs; [done |].
  assert (Hin : (i, (a, b)) ∈ bl) by (rewrite Ebl; set_solver). destruct (blk_near _ _ _ Hin) as [Na Nb].
  pose proof Hmem as Hm. rewrite Ebl in Hm. cbn [app] in Hm. destruct Hs as (Hs1 & Hs2 & Hs3).
  destruct fuel as [| fuel]; cbn [length] in Hf; [lia |]. cbn [lookup_loop fmap list_fmap fst head].
  rewrite (mem_deref s bl i a b) by done. rewrite bind_Done_l. cbn [sblk_end sblk_start].
  rewrite SEQ_GT_near, SEQ_GEQ_near by (first [done | by unfold near in *; lia]). cbn [find_block].
  destruct (Z.ltb_spec x b) as [Hb | Hb].
  - destruct (Z.leb_spec a x), (Z.ltb_spec x a); try lia; [done |].
    by rewrite (mem_prev_mid _ _ _ _ _ Hm).
  - destruct (Z.ltb_spec x a); [lia |]. rewrite (mem_next_mid _ _ _ _ _ Hm), fmap_app.
    destruct l2 as [| [j [c d]] l2].
    + cbn [app fmap list_fmap]. rewrite decide_True by done. done.
    + cbn [app fmap list_fmap fst head]. rewrite decide_False.
      2: { intros E. pose proof (mem_nodup _ _ Hm) as Hn. destruct l3 as [| [k q] l3]; [done |]. cbn in E. injection E as <-.
           rewrite !fmap_app in Hn. cbn [fmap list_fmap fst] in Hn. apply NoDup_app in Hn as (_ & _ & Hn).
           apply NoDup_cons in Hn as [_ Hn]. rewrite fmap_app in Hn. cbn in Hn. apply NoDup_cons in Hn as [Hn _]. set_solver. }
      rewrite (IH (l1 ++ [(i, (a, b))]) fuel (Some j) (head (l3.*1)) _ b); cbn [fmap list_fmap fst].
      * rewrite fmap_app. cbn. by rewrite last_snoc.
      * rewrite Ebl. by lnorm.
      * done.
      * done.
      * done.
      * done.
      * cbn [length]. cbn [length] in Hf. lia.
      * done.
Qed.

(** The hint changes nothing but the time that the search takes. *)
Lemma sack_block_lookup_ok : bl <> [] ->
  sack_block_lookup s (u32 x) = Done (set_lastfound s (find_block x None bl).1, (find_block x None bl).1, (find_block x None bl).2).
Proof.
  intros Hne. unfold sack_block_lookup. pose proof (mem_ids _ _ Hmem) as Eids. rewrite Eids.
  assert (Ebl : exists f fa fb bl', bl = (f, (fa, fb)) :: bl') by (destruct bl as [| [? [? ?]]]; [done | eauto]).
  destruct Ebl as (f & fa & fb & bl' & Ebl).
  assert (Hids : (f :: bl'.*1) = bl.*1) by (by rewrite Ebl). rewrite <- Hids.
  assert (Hfull : forall l1 l2 hd, bl = l1 ++ l2 -> hd = head (l2.*1) -> l2 <> [] ->
            lookup_loop (length (f :: bl'.*1)) s (u32 x) hd None (last (f :: bl'.*1)) = Done (find_block x (last (l1.*1)) l2)).
  { intros l1 l2 hd El -> Hl2. destruct l2 as [| [i [a b]] l2]; [done |]. pose proof Hsorted as Hs. rewrite El in Hs. apply sack_sorted_app in Hs as (Hs1 & Hs2 & Hs3).
    apply (lookup_loop_ok l1 ((i, (a, b)) :: l2) [] _ _ _ _ (a - 1)); try done; [by rewrite app_nil_r | | |].
    - rewrite Hids, El, fmap_app. cbn [fmap list_fmap fst]. by rewrite last_app_cons.
    - rewrite Hids, length_fmap, El, length_app. lia.
    - cbn. split_and!; [lia | done | done]. }
  destruct (lastfound s) as [hint |] eqn:Eh.
  - pose proof (mem_hint _ _ Hmem _ Eh) as Hhint. apply list_elem_of_fmap in Hhint as ([h [a b]] & -> & Hin). cbn [fst].
    rewrite (mem_deref s bl h a b) by done. rewrite bind_Done_l. cbn [sblk_start]. destruct (blk_near _ _ _ Hin) as [Na Nb].
    rewrite SEQ_GEQ_near by (unfold near in *; lia). apply list_elem_of_split in Hin as (l1 & l2 & El).
    pose proof Hmem as Hm. rewrite El in Hm. pose proof Hsorted as Hs. rewrite El in Hs. apply sack_sorted_app in Hs as (Hs1 & Hs2 & Hs3).
    destruct (Z.leb_spec a x) as [Hax | Hax]; rewrite bind_Done_l.
    + rewrite (Hfull l1 ((h, (a, b)) :: l2)) by done. rewrite bind_Done_l.
      rewrite El, (find_block_app x None l1 h a b l2 lo) by done. destruct (last (l1.*1)); by destruct (find_block _ _ _).
    + rewrite Hids, <- Eids, (mem_prev_mid _ _ _ _ _ Hm), Eids. destruct l1 as [| [g [c d]] l1].
      * (* the hint is the first block *)
        rewrite El in Ebl. cbn in Ebl. injection Ebl as -> -> -> ->. cbn [fmap list_fmap last]. rewrite El. cbn [find_block].
        destruct (Z.ltb_spec x fa); [| lia].
        assert (Hstop : forall fuel last_, lookup_loop fuel s (u32 x) (Some f) last_ None = Done (None, false)).
        { intros fuel last_. destruct fuel; cbn [lookup_loop]; rewrite (mem_deref s bl f fa fb), bind_Done_l by (first [done | rewrite El; by left]);
            cbn [sblk_end sblk_start]; rewrite SEQ_GT_near, SEQ_GEQ_near by (unfold near in *; lia);
            (destruct (Z.ltb_spec x fb); [| lia]); (destruct (Z.leb_spec fa x); [lia |]); by rewrite (mem_prev_mid s [] f (fa, fb) bl'). }
        rewrite Hstop, bind_Done_l. cbn [app find_block]. by rewrite (proj2 (Z.ltb_lt x fa)).
      * rewrite El in Ebl. cbn [app] in Ebl. injection Ebl as -> -> -> Ebl.
        rewrite (lookup_loop_ok [] ((f, (fa, fb)) :: l1) ((h, (a, b)) :: l2) _ _ _ _ lo); try done.
        2: { rewrite El, length_fmap, length_app. lia. }
        2: { eapply sorted_weaken; [done | lia |]. apply sorted_le in Hs3. lia. }
        rewrite bind_Done_l. cbn [last fmap list_fmap]. rewrite El, find_block_before by done. by destruct (find_block _ _ _).
  - rewrite bind_Done_l. rewrite (Hfull [] bl) by (first [done | by rewrite <- Hids]). rewrite bind_Done_l. cbn. by destruct (find_block x None bl).
Qed.
End Lookup.

(** ** Consolidation *)

Fixpoint drop_covered (y : Z) (l : list blk) : list blk :=
  match l with
  | [] => []
  | (i, (c, d)) :: r => if d <=? y then drop_covered y r else l
  end.

(** The working block with what it overlaps on its right. *)
Definition merge (w : nat) (a y : Z) (l : list blk) : list blk :=
  match drop_covered y l with
  | [] => [(w, (a, y))]
  | (i, (c, d)) :: r => if c <=? y then (w, (a, d)) :: r else (w, (a, y)) :: (i, (c, d)) :: r
  end.

(** The bytes that the blocks cover. *)
Definition covers (bl : list blk) (z : Z) : Prop := exists i a b, (i, (a, b)) ∈ bl /\ a <= z < b.

Lemma covers_nil z : covers [] z <-> False.
Proof. split; [| done]. intros (i & a & b & H & _). by apply not_elem_of_nil in H. Qed.

Lemma covers_cons i a b l z : covers ((i, (a, b)) :: l) z <-> a <= z < b \/ covers l z.
Proof.
  unfold covers. split.
  - intros (j & c & d & [[= -> -> ->] | H]%elem_of_cons & Hz); [by left | right; eauto 6].
  - intros [H | (j & c & d & H & Hz)]; [exists i, a, b; split; [by left | done] | exists j, c, d; split; [by right | done]].
Qed.

Lemma covers_app l1 l2 z : covers (l1 ++ l2) z <-> covers l1 z \/ covers l2 z.
Proof.
  unfold covers. setoid_rewrite elem_of_app. naive_solver.
Qed.

Lemma sorted_covers lo bl hi z : sorted lo bl hi -> covers bl z -> lo < z < hi.
Proof. intros Hs (i & a & b & Hi & Hz). destruct (sorted_in _ _ _ _ _ _ Hs Hi). lia. Qed.

Lemma drop_covered_ok y l : forall lo hi, sorted lo l hi ->
  sorted lo (drop_covered y l) hi /\ (length (drop_covered y l) <= length l)%nat /\
  (forall z, covers l z -> z < y \/ covers (drop_covered y l) z) /\ (forall z, covers (drop_covered y l) z -> covers l z) /\
  match drop_covered y l with [] => True | (_, (c, d)) :: _ => y < d end.
Proof.
  induction l as [| [i [c d]] l IH]; intros lo hi Hs; cbn [drop_covered]; [by split_and!; [done | lia | intros z; rewrite covers_nil | done | done] |].
  destruct (Z.leb_spec d y) as [Hd | Hd].
  - destruct Hs as (H1 & H2 & H3). destruct (IH _ _ H3) as (I1 & I2 & I3 & I4 & I5).
    split_and!; [eapply sorted_weaken; [done | lia | lia] | cbn; lia | | | done].
    + intros z. rewrite covers_cons. intros [? | ?%I3]; [left; lia | done].
    + intros z Hz%I4. rewrite covers_cons. by right.
  - split_and!; [done | lia | by right | done | lia].
Qed.

Lemma sack_merge_ok w a y l lo l1 hi : sorted lo l1 (a - 1) -> a < y -> y <= hi -> sorted a l hi ->
  sorted lo (l1 ++ merge w a y l) hi /\ (length (merge w a y l) <= S (length l))%nat /\
  (forall z, covers (merge w a y l) z <-> a <= z < y \/ covers l z).
Proof.
  intros Hs1 Hay Hyhi Hs. destruct (drop_covered_ok y l a hi Hs) as (D1 & D2 & D3 & D4 & D5). unfold merge.
  assert (Hout : forall z, covers l z -> a <= z) by (intros z Hz; apply (sorted_covers _ _ _ _ Hs) in Hz; lia).
  destruct (drop_covered y l) as [| [i [c d]] r].
  - split_and!; [apply sack_sorted_app; split_and!; [done | done | cbn; lia] | cbn; lia |].
    intros z. rewrite covers_cons, covers_nil. split; [naive_solver |]. intros [? | Hz]; [by left |].
    destruct (D3 _ Hz) as [? | ?%covers_nil]; [left; specialize (Hout _ Hz); lia | done].
  - destruct D1 as (D1a & D1b & D1c). destruct (Z.leb_spec c y) as [Hc | Hc].
    + split_and!; [apply sack_sorted_app; split_and!; [done | lia | done] | cbn in *; lia |].
      intros z. rewrite covers_cons. split.
      * intros [Hz | Hz]; [| right; apply D4; rewrite covers_cons; by right].
        destruct (decide (z < y)); [left; lia | right; apply D4; rewrite covers_cons; left; lia].
      * intros [? | Hz]; [left; lia |]. destruct (D3 _ Hz) as [? | Hz']; [left; specialize (Hout _ Hz); lia |].
        rewrite covers_cons in Hz'. destruct Hz' as [? | ?]; [left; lia | by right].
    + split_and!; [apply sack_sorted_app; split_and!; [done | lia | cbn; split_and!; [lia | lia | done]] | cbn in *; lia |].
      intros z. rewrite covers_cons. split; [intros [? | ?%D4]; naive_solver |].
      intros [? | Hz]; [by left |]. destruct (D3 _ Hz) as [? | Hz']; [left; specialize (Hout _ Hz); lia | by right].
Qed.

Section Consolidate.
Context (l1 : list blk) (w : nat) (a y lo hi : Z).
Hypothesis Hwin : hi - lo < 2 ^ 31.
Hypothesis Hy : lo <= y <= hi.

Lemma consolidate_loop_ok l2 : forall fuel s m, scb_mem s (l1 ++ (w, (a, y)) :: l2) -> (length l2 <= fuel)%nat -> lo <= m -> sorted m l2 hi ->
  exists s', consolidate_loop fuel s w (head (l2.*1)) = Done (s', head ((drop_covered y l2).*1)) /\
    scb_mem s' (l1 ++ (w, (a, y)) :: drop_covered y l2) /\ lostseq s' = lostseq s.
Proof.
  induction l2 as [| [i [c d]] l2 IH]; intros fuel s m Hm Hf Hlo Hs; [exists s; by destruct fuel |].
  destruct Hs as (Hs1 & Hs2 & Hs3). pose proof (sorted_le _ _ _ Hs3).
  assert (Hm' : scb_mem s ((l1 ++ [(w, (a, y))]) ++ (i, (c, d)) :: l2)) by (by lnorm).
  destruct fuel as [| fuel]; cbn [length] in Hf; [lia |]. cbn [consolidate_loop fmap list_fmap fst head drop_covered].
  rewrite (mem_deref_mid _ _ _ _ _ _ Hm), bind_Done_l, (mem_deref_mid _ _ _ _ _ _ Hm'), bind_Done_l. cbn [sblk_end].
  rewrite SEQ_GEQ_near by (unfold near; lia). destruct (Z.leb_spec d y).
  - rewrite (mem_next_mid _ _ _ _ _ Hm'). apply mem_remove in Hm'. rewrite <- app_assoc in Hm'. cbn [app] in Hm'.
    rewrite (mem_count _ _ Hm'). unfold KKASSERT. rewrite zlen_app, zlen_cons.
    destruct (Z.gtb_spec (zlen l1 + (1 + zlen l2)) 0); [| pose proof (zlen_nonneg l1); pose proof (zlen_nonneg l2); lia]. rewrite bind_Done_l.
    destruct (IH fuel (remove_block s i) d) as (s' & E & Hm2 & El); [done | lia | lia | done |].
    exists s'. rewrite E, El, remove_lostseq. done.
  - exists s. done.
Qed.

Lemma consolidate_ok l2 s m : scb_mem s (l1 ++ (w, (a, y)) :: l2) -> lo <= m -> sorted m l2 hi ->
  exists s', consolidate s w = Done s' /\ scb_mem s' (l1 ++ merge w a y l2) /\ lostseq s' = lostseq s.
Proof.
  intros Hm Hlo Hs. unfold consolidate. rewrite (mem_next_mid _ _ _ _ _ Hm), (mem_ids _ _ Hm), length_fmap.
  destruct (consolidate_loop_ok l2 (length (l1 ++ (w, (a, y)) :: l2)) s m) as (s' & -> & Hm' & El);
    [done | rewrite length_app; cbn; lia | done | done |].
  rewrite bind_Done_l. destruct (drop_covered_ok y l2 m hi Hs) as (D1 & _ & _ & _ & D5). unfold merge.
  destruct (drop_covered y l2) as [| [i [c d]] r]; [by exists s' |]. cbn [fmap list_fmap fst head].
  destruct D1 as (D1a & D1b & D1c). pose proof (sorted_le _ _ _ D1c).
  assert (Hm2 : scb_mem s' ((l1 ++ [(w, (a, y))]) ++ (i, (c, d)) :: r)) by (by lnorm).
  rewrite (mem_deref_mid _ _ _ _ _ _ Hm'), bind_Done_l, (mem_deref_mid _ _ _ _ _ _ Hm2), bind_Done_l. cbn [sblk_end sblk_start].
  rewrite SEQ_GEQ_near by (unfold near; lia). destruct (Z.leb_spec c y); [| by exists s'].
  pose proof (mem_store s' l1 w (a, y) _ a d Hm') as Hm3.
  assert (Hm4 : scb_mem (store s' w (Sackblock (u32 a) (u32 d))) ((l1 ++ [(w, (a, d))]) ++ (i, (c, d)) :: r)) by (by lnorm).
  apply mem_remove in Hm4. rewrite <- app_assoc in Hm4. cbn [app] in Hm4. rewrite (mem_count _ _ Hm4). unfold KKASSERT. rewrite zlen_app, zlen_cons.
  destruct (Z.gtb_spec (zlen l1 + (1 + zlen r)) 0); [| pose proof (zlen_nonneg l1); pose proof (zlen_nonneg r); lia]. rewrite bind_Done_l.
  eexists. split; [done |]. split; [done |]. by rewrite remove_lostseq.
Qed.
End Consolidate.

(** ** Insertion *)

Section Insert.
Context (kmalloc_ok : nat -> bool) (lo hi x y : Z).
Hypothesis Hwin : hi - lo < 2 ^ 31.
Hypothesis Hxy : lo < x /\ x < y /\ y <= hi.

Let raw := RawSackblock (u32 x) (u32 y).

(** What insert_block leaves, given the blocks [bl] before: the block is added; or
    there was no room for it, and nothing changed. *)
Definition inserted (s : scoreboard) (bl : list blk) (r : scoreboard * Z * bool) : Prop :=
  let '(s', error, update) := r in
  exists bl', scb_rep s' lo bl' hi /\ lostseq s' = lostseq s /\
    ((error = 0 /\ (forall z, covers bl' z <-> covers bl z \/ x <= z < y) /\
      (if update : bool then exists z, x <= z < y /\ ~ covers bl z else bl' = bl)) \/
     (error = ENOMEM /\ update = true /\ bl' = bl /\ (exists z, x <= z < y /\ ~ covers bl z) /\
      (zlen bl = MAXSAVEDBLOCKS \/ (freecache s = None /\ kmalloc_ok (scb_next s) = false)))).

(** A new block between [l1] and [l2]. *)
Lemma insert_new s l1 l2 : scb_rep s lo (l1 ++ l2) hi -> sorted lo l1 (x - 1) -> sorted x l2 hi ->
  match alloc_sackblock_limit kmalloc_ok s raw with
  | (s', None) => inserted s (l1 ++ l2) (s', ENOMEM, true)
  | (s', Some i) => sackblocks s' = (l1 ++ l2).*1 /\ nblocks s' = zlen (l1 ++ l2) /\
      exists s'', consolidate (set_nblocks (set_sackblocks s' (l1.*1 ++ i :: l2.*1)) (nblocks s' + 1)) i = Done s'' /\
        inserted s (l1 ++ l2) (s'', 0, true)
  end.
Proof.
  intros (Hm & Hs & Hn) Hs1 Hs2.
  assert (Hnew : exists z, x <= z < y /\ ~ covers (l1 ++ l2) z).
  { exists x. split; [lia |]. rewrite covers_app. intros [Hc | Hc]; [apply (sorted_covers _ _ _ _ Hs1) in Hc | apply (sorted_covers _ _ _ _ Hs2) in Hc]; lia. }
  unfold alloc_sackblock_limit. rewrite (mem_count _ _ Hm). destruct (Z.eqb_spec (zlen (l1 ++ l2)) MAXSAVEDBLOCKS) as [E8 | E8].
  { exists (l1 ++ l2). split; [done |]. split; [done |]. right. split_and!; [done | done | done | done | by left]. }
  pose proof (mem_alloc kmalloc_ok s (l1 ++ l2) x y Hm) as Ha. fold raw in Ha.
  destruct (alloc_sackblock kmalloc_ok s raw) as [s' [i |]] eqn:Ea.
  - destruct Ha as (Eids & En & El & Ha). split; [done |]. split; [done |]. specialize (Ha l1 l2 eq_refl). rewrite En.
    destruct (consolidate_ok l1 i x y lo hi Hwin ltac:(lia) l2 _ x Ha ltac:(lia) Hs2) as (s'' & -> & Hm'' & El').
    eexists. split; [done |]. destruct (sack_merge_ok i x y l2 lo l1 hi) as (M1 & M2 & M3); [done | lia | lia | done |].
    exists (l1 ++ merge i x y l2). unfold scb_rep. split_and!; [done | done | | by rewrite El' |].
    + rewrite zlen_app in *. unfold zlen in *. unfold MAXSAVEDBLOCKS in *. lia.
    + left. split; [done |]. split; [| done]. intros z. rewrite !covers_app, M3. tauto.
  - destruct Ha as (Hm' & El & Ef & Eh). exists (l1 ++ l2). split; [done |]. split; [done |]. right. split_and!; try done. right. split; [done |].
    unfold alloc_sackblock in Ea. rewrite Ef in Ea. by destruct (kmalloc_ok (scb_next s)).
Qed.

(** A block in front that is extended. *)
Lemma insert_extend s l1 p a b l2 : scb_rep s lo (l1 ++ (p, (a, b)) :: l2) hi -> a <= x <= b -> b < y ->
  exists s'', consolidate (store s p (Sackblock (u32 a) (u32 y))) p = Done s'' /\ inserted s (l1 ++ (p, (a, b)) :: l2) (s'', 0, true).
Proof.
  intros (Hm & Hs & Hn) Hx Hby. apply sack_sorted_app in Hs as (Hs1 & Hab & Hs2).
  pose proof (mem_store s l1 p (a, b) l2 a y Hm) as Hm'. pose proof (sorted_le _ _ _ Hs1).
  destruct (consolidate_ok l1 p a y lo hi Hwin ltac:(lia) l2 _ b Hm' ltac:(lia) Hs2) as (s'' & -> & Hm'' & El').
  eexists. split; [done |]. destruct (sack_merge_ok p a y l2 lo l1 hi) as (M1 & M2 & M3); [done | lia | lia | eapply sorted_weaken; [done | lia | lia] |].
  exists (l1 ++ merge p a y l2). unfold scb_rep. split_and!; [done | done | | by rewrite El' |].
  - rewrite zlen_app in *. rewrite zlen_cons in Hn. unfold zlen, MAXSAVEDBLOCKS in *. lia.
  - left. split; [done |]. split.
    + intros z. rewrite !covers_app, M3, covers_cons. split; [| naive_solver lia].
      intros [? | [? | ?]]; [naive_solver | | naive_solver]. destruct (decide (z < b)); [left; right; left; lia | right; lia].
    + exists b. split; [lia |]. rewrite covers_app, covers_cons. intros [Hc | [? | Hc]]; [apply (sorted_covers _ _ _ _ Hs1) in Hc; lia | lia | apply (sorted_covers _ _ _ _ Hs2) in Hc; lia].
Qed.

Lemma inserted_set_lastfound s bl o r : inserted (set_lastfound s o) bl r -> inserted s bl r.
Proof. by destruct r as [[s' e] u]. Qed.

Lemma insert_found_none s bl : scb_rep s lo bl hi -> match bl with [] => True | (_, (a, _)) :: _ => x < a end ->
  exists r, insert_found kmalloc_ok s raw None false = Done r /\ inserted s bl r.
Proof.
  intros Hrep Hfirst. pose proof Hrep as (Hm & Hs & Hn).
  assert (Hsx : sorted x bl hi) by (destruct bl as [| [f [fa fb]] bl]; cbn in *; [lia | naive_solver]).
  pose proof (insert_new s [] bl Hrep ltac:(cbn; lia) Hsx) as Hi. unfold insert_found.
  destruct (alloc_sackblock_limit kmalloc_ok s raw) as [s' [i |]]; [| eauto].
  destruct Hi as (Eids & En & s'' & Ec & Hi). cbn [app fmap list_fmap] in *. rewrite Eids, Ec, bind_Done_l. eauto.
Qed.

Lemma insert_found_some s l1 p a b l2 : scb_rep s lo (l1 ++ (p, (a, b)) :: l2) hi -> a <= x ->
  match l2 with [] => True | (_, (c, _)) :: _ => x < c end ->
  exists r, insert_found kmalloc_ok s raw (Some p) (x <? b) = Done r /\ inserted s (l1 ++ (p, (a, b)) :: l2) r.
Proof.
  intros Hrep Hax Hl2. pose proof Hrep as (Hm & Hs & Hn). unfold insert_found. rewrite (mem_deref_mid _ _ _ _ _ _ Hm), bind_Done_l.
  cbn [sblk_end sblk_start raw rblk_start rblk_end]. apply sack_sorted_app in Hs as (Hs1 & Hab & Hs2). pose proof (sorted_le _ _ _ Hs1). pose proof (sorted_le _ _ _ Hs2).
  assert (Eb : (x <? b) || (u32 b =? u32 x) = bool_decide (x <= b)).
  { assert (u32 b = u32 x <-> b = x) by (apply seq_eq_near; unfold near; lia).
    destruct (Z.ltb_spec x b), (Z.eqb_spec (u32 b) (u32 x)); case_bool_decide; cbn; try done; lia. }
  rewrite Eb, SEQ_GT_near by (unfold near; lia). case_bool_decide as Hxb.
  - destruct (Z.ltb_spec b y) as [Hby | Hby].
    + destruct (insert_extend s l1 p a b l2) as (s'' & Ec & Hi); [done | lia | done |]. rewrite Ec, bind_Done_l. eauto.
    + eexists. split; [done |]. eexists. split; [done |]. split; [done |]. left. split; [done |]. split; [| done].
      intros z. rewrite covers_app, covers_cons. naive_solver lia.
  - pose proof (insert_new s (l1 ++ [(p, (a, b))]) l2) as Hi. rewrite <- app_assoc in Hi. cbn [app] in Hi. fold raw. specialize (Hi Hrep).
    assert (Hp1 : sorted lo (l1 ++ [(p, (a, b))]) (x - 1)) by (apply sack_sorted_app; split_and!; [done | done | cbn; lia]).
    assert (Hp2 : sorted x l2 hi) by (destruct l2 as [| [j [c d]] l2]; cbn in *; [lia | naive_solver]).
    specialize (Hi Hp1 Hp2). destruct (alloc_sackblock_limit kmalloc_ok s raw) as [s' [i |]]; [| eauto].
    destruct Hi as (Eids & En & s'' & Ec & Hi). rewrite Eids.
    assert (insert_after p i ((l1 ++ (p, (a, b)) :: l2).*1) = (l1 ++ [(p, (a, b))]).*1 ++ i :: l2.*1) as ->.
    { rewrite !fmap_app. cbn [fmap list_fmap fst]. rewrite insert_after_mid by (by destruct (mem_not_in _ _ _ _ _ Hm)). by lnorm. }
    rewrite Ec, bind_Done_l. eauto.
Qed.

Lemma insert_empty s : scb_rep s lo [] hi -> exists r, insert_block kmalloc_ok s raw = Done r /\ inserted s [] r.
Proof.
  intros (Hm & Hs & Hn). assert (Hx : exists z, x <= z < y /\ ~ covers [] z) by (exists x; rewrite covers_nil; split; [lia | tauto]).
  unfold insert_block. rewrite (mem_ids _ _ Hm), (mem_count _ _ Hm). cbn [fmap list_fmap].
  change (zlen (@nil blk) =? 0) with true. unfold KKASSERT at 1. rewrite bind_Done_l.
  pose proof (mem_alloc kmalloc_ok s [] x y Hm) as Ha. fold raw in Ha. destruct (alloc_sackblock kmalloc_ok s raw) as [s' [i |]] eqn:Ea.
  - destruct Ha as (Eids & En & El & Ha). specialize (Ha [] [] eq_refl). eexists. split; [done |]. rewrite Eids.
    exists [(i, (x, y))]. split; [split_and!; [done | cbn; lia | done] |]. split; [done |]. left. split; [done |]. split; [| done].
    intros z. rewrite covers_cons, covers_nil. tauto.
  - destruct Ha as (Hm' & El & Ef & Eh). eexists. split; [done |]. exists []. split; [done |]. split; [done |]. right. split_and!; try done.
    right. split; [done |]. unfold alloc_sackblock in Ea. rewrite Ef in Ea. by destruct (kmalloc_ok (scb_next s)).
Qed.

Lemma insert_block_ok s bl : scb_rep s lo bl hi -> exists r, insert_block kmalloc_ok s raw = Done r /\ inserted s bl r.
Proof.
  intros Hrep. destruct (decide (bl = [])) as [-> | Hne]; [by apply insert_empty |]. pose proof Hrep as (Hm & Hs & Hn).
  unfold insert_block. rewrite (mem_ids _ _ Hm), (mem_count _ _ Hm).
  assert (Hcons : forall A (u v : A), match bl.*1 with [] => u | _ :: _ => v end = v) by (destruct bl; done). rewrite Hcons. clear Hcons.
  assert ((zlen bl >? 0) = true) as -> by (destruct bl; [done | rewrite zlen_cons, Z.gtb_lt; pose proof (zlen_nonneg bl); lia]).
  rewrite (proj2 (Z.leb_le _ _) Hn). unfold KKASSERT. rewrite !bind_Done_l. cbn [raw rblk_start].
  rewrite (sack_block_lookup_ok s bl lo hi x) by (first [done | lia]). rewrite bind_Done_l. fold raw.
  destruct (find_block_cases x lo bl hi Hs) as [[E Hfirst] | (l1 & p & a & b & l2 & -> & E & Hax & Hl2)]; rewrite E; cbn [fst snd].
  - destruct (insert_found_none (set_lastfound s None) bl) as (r & -> & Hr); [by split_and!; [apply mem_set_lastfound | |] | done |].
    eexists. split; [done | by eapply inserted_set_lastfound].
  - destruct (insert_found_some (set_lastfound s (Some p)) l1 p a b l2) as (r & -> & Hr); [| done | done |].
    + split_and!; [| done | done]. apply mem_set_lastfound; [done |]. intros ? [= <-]. rewrite fmap_app. set_solver.
    + eexists. split; [done | by eapply inserted_set_lastfound].
Qed.
End Insert.

(** * The SACK scoreboard: acknowledgements and new reports *)

(** ** Cleanup *)

(** While tcp_sack_cleanup runs, with [l] still to be freed. *)
Record loose (s : scoreboard) (l : list nat) : Prop := {
  loose_nodup : NoDup l;
  loose_count : nblocks s = zlen l;
  loose_cache : forall i, freecache s = Some i -> i ∉ l;
  loose_heap : forall i, is_Some (scb_heap s !! i) <-> i ∈ l \/ freecache s = Some i;
  loose_next : forall i, is_Some (scb_heap s !! i) -> (i < scb_next s)%nat
}.

Lemma cleanup_loop_ok l : forall s, loose s l -> exists s', cleanup_loop s l = Done s' /\ loose s' [] /\ lostseq s' = lostseq s.
Proof.
  induction l as [| i l IH]; intros s [H1 H2 H3 H4 H5]; [by exists s |]. cbn [cleanup_loop].
  assert (Hi : is_Some (scb_heap s !! i)) by (apply H4; left; by left). destruct Hi as [b Hb]. unfold deref. rewrite Hb, bind_Done_l.
  apply NoDup_cons in H1 as [Hni H1]. rewrite zlen_cons in H2.
  set (s1 := set_nblocks (free_sackblock s i) (nblocks (free_sackblock s i) - 1)).
  assert (Hl : loose s1 l /\ lostseq s1 = lostseq s).
  { unfold s1, free_sackblock. destruct (freecache s) as [f |] eqn:Ef; (split; [| done]); constructor; cbn; rewrite ?Ef; try done; try lia.
    - intros j [= <-]. intros Hj. by apply (H3 f); [| right].
    - intros j. destruct (decide (i = j)) as [<- | Hij].
      + rewrite lookup_delete_eq. split; [by intros [? ?] |]. intros [? | [= ->]]; [done |]. exfalso. by apply (H3 i); [| left].
      + rewrite lookup_delete_ne, H4, elem_of_cons by done. naive_solver.
    - intros j. destruct (decide (i = j)) as [<- | Hij]; [rewrite lookup_delete_eq; by intros [? ?] | rewrite lookup_delete_ne by done; apply H5].
    - intros j [= <-]. done.
    - intros j. rewrite H4, elem_of_cons. naive_solver. }
  destruct Hl as [Hl El]. destruct (IH s1 Hl) as (s' & E & Hs' & El'). exists s'. rewrite E, El'. done.
Qed.

Lemma cleanup_ok s bl : scb_mem s bl -> exists s', tcp_sack_cleanup s = Done s' /\ scb_mem s' [] /\ lostseq s' = lostseq s.
Proof.
  intros Hm. unfold tcp_sack_cleanup. destruct (cleanup_loop_ok (sackblocks s) s) as (s' & -> & [H1 H2 H3 H4 H5] & El).
  { rewrite (mem_ids _ _ Hm). destruct Hm as [? ? ? ? ? ? ? ?]. constructor; try done. unfold zlen in *. by rewrite length_fmap. }
  rewrite bind_Done_l, H2. unfold KKASSERT. cbn. eexists. split; [done |]. split; [| done]. constructor; cbn; try done.
Qed.

(** tcp_sack_destroy gives all the memory back. *)
Lemma sack_destroy_ok s bl : scb_mem s bl -> exists s', tcp_sack_destroy s = Done s' /\ scb_mem s' [] /\ freecache s' = None /\ scb_heap s' = ∅.
Proof.
  intros Hm. unfold tcp_sack_destroy. destruct (cleanup_ok s bl Hm) as (s' & -> & [H1 H2 H3 H4 H5 H6 H7 H8] & El). rewrite bind_Done_l.
  assert (Hempty : forall h : gmap nat sackblock, (forall i, ~ is_Some (h !! i)) -> h = ∅).
  { intros h Hh. apply map_eq. intros i. rewrite lookup_empty. destruct (h !! i) eqn:E; [| done]. exfalso. apply (Hh i). by rewrite E. }
  destruct (freecache s') as [f |] eqn:Ef; eexists; (split; [done |]).
  - assert (Hd : forall i, ~ is_Some (delete f (scb_heap s') !! i)).
    { intros i. destruct (decide (f = i)) as [<- | Hi]; [rewrite lookup_delete_eq; by intros [? ?] |].
      rewrite lookup_delete_ne, H7 by done. intros [Hx | [= ->]]; [by apply not_elem_of_nil in Hx | done]. }
    split_and!; [| done | by apply Hempty]. constructor; cbn; try done.
    + intros i. split; [intros Hx; by apply Hd in Hx |]. intros [Hx | ?]; [by apply not_elem_of_nil in Hx | done].
    + intros i Hx. by apply Hd in Hx.
  - split_and!; [by constructor; rewrite ?Ef | done |]. apply Hempty. intros i. rewrite H7. intros [Hx | ?]; [by apply not_elem_of_nil in Hx | done].
Qed.

(** ** Acknowledged blocks *)

Section Ack.
Context (lo hi k : Z).
Hypothesis Hwin : hi - lo < 2 ^ 31.
Hypothesis Hk : lo <= k <= hi.

Lemma ack_loop_ok bl : forall fuel s m, scb_mem s bl -> (length bl <= fuel)%nat -> lo <= m -> sorted m bl hi ->
  exists s', ack_loop fuel s (u32 k) (head (bl.*1)) = Done (s', head ((drop_covered k bl).*1)) /\
    scb_mem s' (drop_covered k bl) /\ lostseq s' = lostseq s.
Proof.
  induction bl as [| [i [c d]] bl IH]; intros fuel s m Hm Hf Hlo Hs; [exists s; by destruct fuel |].
  destruct Hs as (Hs1 & Hs2 & Hs3). pose proof (sorted_le _ _ _ Hs3).
  destruct fuel as [| fuel]; cbn [length] in Hf; [lia |]. cbn [ack_loop fmap list_fmap fst head drop_covered].
  rewrite (mem_deref_mid s [] i c d bl Hm), bind_Done_l. cbn [sblk_end]. rewrite SEQ_LEQ_near by (unfold near; lia).
  destruct (Z.leb_spec d k); [| by exists s].
  rewrite (mem_next_mid s [] i (c, d) bl Hm). apply (mem_remove s [] i (c, d) bl) in Hm. cbn [app] in Hm. rewrite (mem_count _ _ Hm).
  unfold KKASSERT. destruct (Z.geb_spec (zlen bl) 0); [| pose proof (zlen_nonneg bl); lia]. rewrite bind_Done_l.
  destruct (IH fuel (remove_block s i) d) as (s' & E & Hm2 & El); [done | lia | lia | done |]. exists s'. by rewrite E, El, remove_lostseq.
Qed.

(** The blocks behind an acknowledgement; an acknowledgement inside a block means
    that the receiver has dropped data that it had reported. *)
Definition acked (bl : list blk) : list blk :=
  match drop_covered k bl with
  | (i, (c, d)) :: r => if c <=? k then [] else (i, (c, d)) :: r
  | [] => []
  end.

Lemma drop_covered_sorted bl : forall m, sorted m bl hi ->
  match drop_covered k bl with [] => True | (_, (c, d)) :: _ => c <= k \/ sorted k (drop_covered k bl) hi end.
Proof.
  induction bl as [| [i [c d]] bl IH]; intros m Hs; cbn [drop_covered]; [done |]. destruct Hs as (H1 & H2 & H3).
  destruct (Z.leb_spec d k); [by eapply IH |]. destruct (decide (c <= k)); [by left | right]. cbn. split_and!; [lia | done | done].
Qed.

Lemma drop_covered_length bl : (length (drop_covered k bl) <= length bl)%nat.
Proof. induction bl as [| [i [c d]] bl IH]; cbn [drop_covered]; [lia |]. destruct (d <=? k); cbn [length]; lia. Qed.

Lemma acked_ok bl m : sorted m bl hi -> sorted k (acked bl) hi /\ (length (acked bl) <= length bl)%nat.
Proof.
  intros Hs. unfold acked. pose proof (drop_covered_sorted bl m Hs) as Hd. pose proof (drop_covered_length bl).
  destruct (drop_covered k bl) as [| [i [c d]] r]; [cbn; lia |]. destruct (Z.leb_spec c k); [cbn; lia |]. destruct Hd as [? | Hd]; [lia | done].
Qed.

Lemma acked_spec bl m : sorted m bl hi -> forall z, covers (acked bl) z <-> covers bl z /\ k <= z /\ ~ covers bl k.
Proof.
  unfold acked. revert m. induction bl as [| [i [c d]] bl IH]; intros m Hs z; cbn [drop_covered]; [rewrite !covers_nil; tauto |].
  destruct Hs as (H1 & H2 & H3). destruct (Z.leb_spec d k) as [Hd | Hd].
  - rewrite (IH d H3), !covers_cons. split; [| naive_solver lia]. intros (Hc & Hkz & Hk'). split_and!; [by right | done |]. intros [? | ?]; [lia | done].
  - destruct (Z.leb_spec c k) as [Hc | Hc].
    + rewrite covers_nil. split; [done |]. intros (_ & _ & Hn). apply Hn. rewrite covers_cons. left. lia.
    + assert (Hall : forall y, covers ((i, (c, d)) :: bl) y -> c <= y) by (intros y; rewrite covers_cons; intros [? | Hy]; [lia | apply (sorted_covers _ _ _ _ H3) in Hy; lia]).
      split; [| naive_solver]. intros Hz. split_and!; [done | specialize (Hall _ Hz); lia |]. intros Hy. specialize (Hall _ Hy). lia.
Qed.

(** The fields of the connection that the scoreboard does not change. *)
Definition same_conn (tp tp' : tcpcb) : Prop :=
  snd_una tp' = snd_una tp /\ snd_max tp' = snd_max tp /\ snd_wnd tp' = snd_wnd tp /\ snd_bwnd tp' = snd_bwnd tp /\
  t_maxseg tp' = t_maxseg tp /\ t_rxtthresh tp' = t_rxtthresh tp /\ rexmt_rescue tp' = rexmt_rescue tp /\ rcv_nxt tp' = rcv_nxt tp /\
  reportblk tp' = reportblk tp /\ encloseblk tp' = encloseblk tp /\ nsackhistory tp' = nsackhistory tp /\ sackhistory tp' = sackhistory tp.

Lemma discard_ok tp bl : scb_mem (scb tp) bl ->
  exists tp', tcp_sack_discard tp = Done tp' /\ same_conn tp tp' /\ scb_mem (scb tp') [] /\ rexmt_high tp' = snd_una tp /\
    lostseq (scb tp') = snd_una tp /\ sack_flags tp' = Z.ldiff (sack_flags tp) TSACK_F_SACKRESCUED.
Proof.
  intros Hm. unfold tcp_sack_discard. destruct (cleanup_ok _ _ Hm) as (s' & -> & Hm' & El). rewrite bind_Done_l.
  eexists. split; [done |]. split; [done |]. split; [by apply mem_set_lostseq |]. done.
Qed.

Lemma ack_blocks_ok tp bl : scb_rep (scb tp) lo bl hi -> snd_una tp = u32 k ->
  exists tp', tcp_sack_ack_blocks tp (u32 k) = Done tp' /\ same_conn tp tp' /\ scb_rep (scb tp') k (acked bl) hi /\
    (rexmt_high tp' = rexmt_high tp \/ rexmt_high tp' = u32 k) /\ (sack_rescued tp' = true -> sack_rescued tp = true).
Proof.
  intros (Hm & Hs & Hn) Hu. destruct (acked_ok bl lo Hs) as [Ha1 Ha2].
  assert (Han : zlen (acked bl) <= MAXSAVEDBLOCKS) by (unfold zlen in *; lia).
  unfold tcp_sack_ack_blocks. rewrite (mem_ids _ _ Hm), length_fmap.
  destruct (ack_loop_ok bl (length bl) (scb tp) lo) as (s' & -> & Hm' & El); [done | lia | lia | done |]. rewrite bind_Done_l.
  pose proof (drop_covered_ok k bl lo hi Hs) as (D1 & D2 & _).
  revert Hm' Ha1 Ha2 Han D1 D2. unfold acked. destruct (drop_covered k bl) as [| [i [c d]] r]; intros Hm' Ha1 Ha2 Han D1 D2.
  - eexists. split; [done |]. split; [done |]. split; [by split_and! |]. split; [by left | done].
  - cbn [fmap list_fmap fst head]. rewrite (mem_deref_mid s' [] i c d r Hm'), bind_Done_l. cbn [sblk_start].
    destruct D1 as (D1a & D1b & D1c). pose proof (sorted_le _ _ _ D1c). rewrite SEQ_GEQ_near by (unfold near; lia).
    destruct (Z.leb_spec c k).
    + destruct (discard_ok (set_scb tp s') _ Hm') as (tp' & -> & Hsame & Hm2 & Eh & _ & Ef). exists tp'.
      split; [done |]. split; [done |]. split; [by split_and! |]. split; [right; by rewrite Eh |]. unfold sack_rescued. by rewrite Ef, btest_ldiff_same.
    + eexists. split; [done |]. split; [done |]. split; [by split_and! |]. split; [by left | done].
Qed.
End Ack.

(** ** New blocks *)

(** The integer near [base] that a sequence number stands for. *)
Definition unwrap (base s : Z) : Z := base + s32 (s - base).

Lemma unwrap_u32 base x : base - 2 ^ 31 <= x < base + 2 ^ 31 -> unwrap base (u32 x) = x.
Proof.
  intros Hx. unfold unwrap, s32, u32. rewrite <- (Z.add_mod_idemp_l (x mod _ - base)), Zminus_mod_idemp_l, Z.add_mod_idemp_l by lia.
  rewrite Z.mod_small by lia. lia.
Qed.

(** What tcp_dooptions lets through (a block is not empty), and the comparison with
    snd_max that tcp_sack_add_blocks leaves out: a block starts before snd_max. *)
Definition option_block (b : raw_sackblock) : Prop :=
  is_u32 (rblk_start b) /\ is_u32 (rblk_end b) /\ SEQ_LEQ (rblk_end b) (rblk_start b) = false.
Definition below_max (max : Z) (b : raw_sackblock) : Prop := SEQ_LEQ (rblk_start b) max = true.

Lemma SEQ_LEQ_false x b : b - 2 ^ 31 <= x < b + 2 ^ 31 -> SEQ_LEQ (u32 x) (u32 b) = false -> b < x.
Proof.
  intros Hx. unfold SEQ_LEQ. rewrite s32_seq, s32_id by (unfold is_s32; lia). destruct (Z.leb_spec (x - b) 0); [done | lia].
Qed.

(** The blocks that tcp_sack_add_blocks goes through, as integers near [una]. *)
Fixpoint accepted (una : Z) (max : Z) (blocks : list raw_sackblock) : list (Z * Z) :=
  match blocks with
  | [] => []
  | b :: blocks =>
      if SEQ_LEQ (rblk_start b) (u32 una) then accepted una max blocks
      else if SEQ_GT (rblk_end b) (u32 max) then []
      else (unwrap una (rblk_start b), unwrap una (rblk_end b)) :: accepted una max blocks
  end.

Definition reported (l : list (Z * Z)) (z : Z) : Prop := exists x y, (x, y) ∈ l /\ x <= z < y.

Lemma reported_cons x y l z : reported ((x, y) :: l) z <-> x <= z < y \/ reported l z.
Proof.
  unfold reported. setoid_rewrite elem_of_cons. split; [intros (? & ? & [[= -> ->] | ?] & ?); eauto | intros [? | (? & ? & ? & ?)]; eauto].
Qed.

(** *** The allocations of a call *)

Lemma remove_next s i : scb_next (remove_block s i) = scb_next s.
Proof. unfold remove_block, free_sackblock. destruct (decide _); cbn; by destruct (freecache s). Qed.

Lemma consolidate_loop_next fuel : forall s w sb r, consolidate_loop fuel s w sb = Done r -> scb_next r.1 = scb_next s.
Proof.
  induction fuel as [| fuel IH]; intros s w sb r H; cbn in H; (destruct sb as [i |]; [| by revert H; intros [= <-]]); inv_bind; (destruct (SEQ_GEQ _ _); [| by revert H; intros [= <-]]); inv_bind; [done |].
  apply IH in H. by rewrite H, remove_next.
Qed.

Lemma consolidate_next s w s' : consolidate s w = Done s' -> scb_next s' = scb_next s.
Proof.
  unfold consolidate. intros H. apply bind_Done in H as ([s1 sb] & Hl & H). apply consolidate_loop_next in Hl. cbn in Hl. rewrite <- Hl. destruct sb as [i |]; [| by revert H; intros [= <-]].
  inv_bind. destruct (SEQ_GEQ _ _); [| by revert H; intros [= <-]]. inv_bind. revert H; intros [= <-]. by rewrite remove_next.
Qed.

Lemma lookup_next s seq r : sack_block_lookup s seq = Done r -> scb_next r.1.1 = scb_next s /\ nblocks r.1.1 = nblocks s.
Proof.
  unfold sack_block_lookup. intros H. repeat (first [progress inv_bind | match type of H with context [match ?x with _ => _ end] => destruct x end]); try done; by revert H; intros [= <-].
Qed.

Lemma ack_loop_next a fuel : forall s sb r, ack_loop fuel s a sb = Done r -> scb_next r.1 = scb_next s.
Proof.
  induction fuel as [| fuel IH]; intros s sb r H; cbn [ack_loop] in H; (destruct sb as [i |]; [| by revert H; intros [= <-]]); inv_bind; (destruct (SEQ_LEQ _ _); [| by revert H; intros [= <-]]); inv_bind; [done |].
  apply IH in H. by rewrite H, remove_next.
Qed.

Lemma discard_next tp tp' : tcp_sack_discard tp = Done tp' -> scb_next (scb tp') = scb_next (scb tp).
Proof.
  unfold tcp_sack_discard, tcp_sack_cleanup. intros H. apply bind_Done in H as (s & Hs & H). revert H. intros [= <-]. cbn. apply bind_Done in Hs as (s1 & H1 & Hs). apply bind_Done in Hs as (_ & _ & Hs). revert Hs. intros [= <-]. cbn.
  revert H1. generalize (scb tp) at 1 3. induction (sackblocks (scb tp)) as [| i l IH]; intros s0 H1; cbn [cleanup_loop] in H1; [by revert H1; intros [= <-] |].
  apply bind_Done in H1 as (_ & _ & H1). apply IH in H1. rewrite H1. cbn. unfold free_sackblock. by destruct (freecache s0).
Qed.

Lemma ack_next tp a tp' : tcp_sack_ack_blocks tp a = Done tp' -> scb_next (scb tp') = scb_next (scb tp).
Proof.
  unfold tcp_sack_ack_blocks. intros H. apply bind_Done in H as ([s sb] & Hl & H). apply ack_loop_next in Hl. cbn in Hl. destruct sb as [i |]; [| by revert H; intros [= <-]].
  apply bind_Done in H as (b & _ & H). destruct (SEQ_GEQ _ _); [apply discard_next in H; by rewrite H | by revert H; intros [= <-]].
Qed.

(** An allocation that fails is one of this call. *)
Lemma alloc_next kmalloc_ok s raw : (scb_next s <= scb_next (alloc_sackblock kmalloc_ok s raw).1)%nat /\
  ((alloc_sackblock kmalloc_ok s raw).2 = None -> (scb_next s < scb_next (alloc_sackblock kmalloc_ok s raw).1)%nat).
Proof. unfold alloc_sackblock. destruct (freecache s); cbn; [by split |]. destruct (kmalloc_ok _); cbn; (split; [lia | done || (intros _; lia)]). Qed.

Lemma limit_next kmalloc_ok s raw : (scb_next s <= scb_next (alloc_sackblock_limit kmalloc_ok s raw).1)%nat /\
  ((alloc_sackblock_limit kmalloc_ok s raw).2 = None -> nblocks s = MAXSAVEDBLOCKS \/ (scb_next s < scb_next (alloc_sackblock_limit kmalloc_ok s raw).1)%nat).
Proof. unfold alloc_sackblock_limit. destruct (Z.eqb_spec (nblocks s) MAXSAVEDBLOCKS); [split; [done | by left] |]. destruct (alloc_next kmalloc_ok s raw). auto. Qed.

Definition allocates (s : scoreboard) (r : scoreboard * Z * bool) : Prop :=
  (scb_next s <= scb_next r.1.1)%nat /\ (r.1.2 = ENOMEM -> nblocks s = MAXSAVEDBLOCKS \/ (scb_next s < scb_next r.1.1)%nat).

Lemma insert_found_next kmalloc_ok s raw sb f r : insert_found kmalloc_ok s raw sb f = Done r -> allocates s r.
Proof.
  assert (Hnew : forall l r, match alloc_sackblock_limit kmalloc_ok s raw with
      | (s, None) => mret (s, ENOMEM, true)
      | (s, Some i) => s ← consolidate (set_nblocks (set_sackblocks s (l s i)) (nblocks s + 1)) i; mret (s, 0, true) end = Done r -> allocates s r).
  { intros l r0. destruct (limit_next kmalloc_ok s raw) as [H1 H2]. destruct (alloc_sackblock_limit _ _ _) as [s1 [i |]]; cbn [fst snd] in *; intros H; [apply bind_Done in H as (s2 & H0 & H) |]; revert H; intros [= <-]; [| split; cbn; auto].
    apply consolidate_next in H0. cbn in H0. split; cbn; [lia | done]. }
  unfold insert_found. destruct sb as [p |]; [| apply (Hnew (fun s i => i :: sackblocks s))]. intros H. apply bind_Done in H as (b & _ & H). destruct (_ || _); [| by apply (Hnew (fun s i => insert_after p i (sackblocks s)))].
  destruct (SEQ_GT _ _); [apply bind_Done in H as (s2 & H0 & H) |]; revert H; intros [= <-]; [apply consolidate_next in H0; cbn in H0 |]; split; cbn; (lia || done).
Qed.

Lemma insert_block_next kmalloc_ok s raw r : insert_block kmalloc_ok s raw = Done r -> allocates s r.
Proof.
  unfold insert_block. destruct (sackblocks s); intros H; inv_bind.
  - destruct (alloc_next kmalloc_ok s raw) as [H1 H2]. destruct (alloc_sackblock _ _ _) as [s1 [i |]]; cbn in *; revert H; intros [= <-]; split; cbn; auto. done.
  - destruct x1 as [[s1 sb] f]. apply lookup_next in H2 as [E1 E2]. cbn in *. apply insert_found_next in H as [H3 H4]. unfold allocates. rewrite <- E1, <- E2. done.
Qed.

Section Add.
Context (kmalloc_ok : nat -> bool) (una max : Z).
Hypothesis Hwin : 0 <= max - una < 2 ^ 31.

Lemma accepted_block b : option_block b -> below_max (u32 max) b -> SEQ_LEQ (rblk_start b) (u32 una) = false -> SEQ_GT (rblk_end b) (u32 max) = false ->
  exists x y, b = RawSackblock (u32 x) (u32 y) /\ x = unwrap una (rblk_start b) /\ y = unwrap una (rblk_end b) /\ una < x /\ x < y /\ y <= max.
Proof.
  intros (H1 & H2 & H3) H4 H5 H6. destruct b as [s e]. cbn in *. unfold below_max in H4. cbn in H4.
  destruct (seq_unwrap una s H1) as (x & -> & Hx). apply SEQ_LEQ_false in H5; [| done].
  rewrite SEQ_LEQ_near in H4 by (unfold near; lia). apply Z.leb_le in H4.
  destruct (seq_unwrap x e H2) as (y & -> & Hy). apply SEQ_LEQ_false in H3; [| lia].
  rewrite SEQ_GT_near in H6 by (unfold near; lia). apply Z.ltb_ge in H6.
  exists x, y. rewrite !unwrap_u32 by lia. split_and!; try done; lia.
Qed.

(** What is left of [bl] after the blocks [l], the first [n] of which were added; the
    allocations that were tried are those from [k] up to [k']. *)
Definition added (k k' : nat) (bl bl' : list blk) (l : list (Z * Z)) (red red' : bool) : Prop :=
  exists n, (forall z, covers bl' z <-> covers bl z \/ reported (take n l) z) /\
    ((n = length l)%nat \/ zlen bl' = MAXSAVEDBLOCKS \/ exists m, (k <= m < k')%nat /\ kmalloc_ok m = false) /\
    (red' = true -> red = true /\ bl' = bl /\ (n = length l)%nat) /\
    (red = true -> red' = false -> exists z, reported l z /\ ~ covers bl z).

Lemma add_loop_ok blocks : forall s bl red, Forall option_block blocks -> Forall (below_max (u32 max)) blocks -> scb_rep s una bl max ->
  exists s' bl' red', add_loop kmalloc_ok s (u32 una) (u32 max) blocks red = Done (s', red') /\ scb_rep s' una bl' max /\
    lostseq s' = lostseq s /\ (scb_next s <= scb_next s')%nat /\ added (scb_next s) (scb_next s') bl bl' (accepted una max blocks) red red'.
Proof.
  assert (Hnone : forall k bl red, added k k bl bl [] red red).
  { intros k bl red. exists O. split_and!; [| by left | done | by intros ->].
    intros z. split; [by left |]. intros [? | (? & ? & Hx & _)]; [done | by apply not_elem_of_nil in Hx]. }
  induction blocks as [| b blocks IH]; intros s bl red Ho Hb Hrep; cbn [add_loop accepted]; [exists s, bl, red; by split_and!; [| | | |] |].
  apply Forall_cons in Ho as [Ho1 Ho], Hb as [Hb1 Hb].
  destruct (SEQ_LEQ (rblk_start b) (u32 una)) eqn:E1; [by apply IH |].
  destruct (SEQ_GT (rblk_end b) (u32 max)) eqn:E2; [exists s, bl, red; by split_and! |].
  destruct (accepted_block b Ho1 Hb1 E1 E2) as (x & y & -> & Ex & Ey & Hx & Hxy & Hy). cbn [rblk_start rblk_end] in *. rewrite <- Ex, <- Ey.
  destruct (insert_block_ok kmalloc_ok una max x y ltac:(lia) ltac:(lia) s bl Hrep) as ([[s1 e] u] & Eib & bl1 & Hrep1 & El1 & Hi).
  destruct (insert_block_next _ _ _ _ Eib) as [Hnx1 Hnx2]. cbn [fst snd] in Hnx1, Hnx2. rewrite Eib, bind_Done_l. destruct Hi as [(-> & Hc1 & Hu) | (-> & -> & -> & Hnew & Hfail)].
  - cbn [Z.eqb negb]. destruct (IH s1 bl1 (if u then false else red) Ho Hb Hrep1) as (s' & bl' & red' & -> & Hrep' & El' & Hk' & n & Hn1 & Hn2 & Hn3 & Hn4).
    exists s', bl', red'. split; [done |]. split; [done |]. split; [by rewrite El' |]. split; [lia |]. exists (S n). cbn [take length]. split_and!.
    + intros z. rewrite Hn1, Hc1, reported_cons. tauto.
    + destruct Hn2 as [-> | [? | (m & ? & ?)]]; [by left | by right; left | right; right; exists m; split; [lia | done]].
    + intros Hr. destruct (Hn3 Hr) as (Hr1 & -> & ->). destruct u; [done |]. by subst.
    + intros -> Hr. destruct u.
      * destruct Hu as (z & Hz & Hnz). exists z. rewrite reported_cons. split; [by left | done].
      * subst bl1. destruct (Hn4 eq_refl Hr) as (z & Hz & Hnz). exists z. rewrite reported_cons. split; [by right | done].
  - cbn [ENOMEM Z.eqb negb]. exists s1, bl, false. split; [done |]. split; [done |]. split; [done |]. split; [done |]. exists O. split_and!.
    + intros z. split; [by left |]. intros [? | (? & ? & Hz & _)]; [done | by apply not_elem_of_nil in Hz].
    + right. destruct Hfail as [? | [_ ?]]; [by left |]. destruct (Hnx2 eq_refl) as [Hmx |]; [left; rewrite <- (mem_count _ _ (proj1 Hrep)); done | right; exists (scb_next s); split; [lia | done]].
    + done.
    + intros -> _. destruct Hnew as (z & Hz & Hnz). exists z. rewrite reported_cons. split; [by left | done].
Qed.
End Add.
