(* ===== verification/SackSend.v ===== *)
(** * The SACK scoreboard: what is lost, what is in the network, and what to send next

    The sums that the code forms over the blocks, as counts of bytes. *)

From stdpp Require Import prelude list strings gmap.
From S2P Require Import Prelude.
From S2P Require Import Ranges.
From S2P Require Import Tailq.
From S2P Require Import Seq.
From S2P Require Import Sack.
From S2P Require Import SackInv.
From S2P Require Import SackUpdate.
Open Scope Z_scope.

(** ** Counting *)

Lemma cnt_or F G p n : (forall z, p <= z < p + n -> F z = true -> G z = true -> False) ->
  cnt (fun z => F z || G z) p n = cnt F p n + cnt G p n.
Proof.
  unfold cnt. intros H. assert (Hn : forall z, p <= z < p + Z.of_nat (Z.to_nat n) -> F z = true -> G z = true -> False) by (intros z Hz; apply H; lia).
  clear H. revert p Hn. induction (Z.to_nat n) as [| k IH]; intros p Hn; [done |]. cbn [cnt_nat]. rewrite IH by (intros z Hz; apply Hn; lia).
  specialize (Hn p ltac:(lia)). destruct (F p), (G p); cbn; try lia.
Qed.

Lemma cnt_negb F p n : 0 <= n -> cnt (fun z => negb (F z)) p n = n - cnt F p n.
Proof.
  intros H. unfold cnt. rewrite <- (Z2Nat.id n) at 2 by done. clear H. revert p. induction (Z.to_nat n) as [| k IH]; intros p; [done |].
  cbn [cnt_nat]. rewrite IH. destruct (F p); cbn [negb]; lia.
Qed.

Lemma cnt_interval a b p n : a <= b -> 0 <= n -> cnt (fun z => (a <=? z) && (z <? b)) p n = Z.max 0 (Z.min b (p + n) - Z.max a p).
Proof.
  intros Hab H. unfold cnt. rewrite <- (Z2Nat.id n) at 2 by done. clear H. revert p. induction (Z.to_nat n) as [| k IH]; intros p; cbn [cnt_nat]; [lia |].
  rewrite IH. destruct (Z.leb_spec a p), (Z.ltb_spec p b); cbn [andb]; lia.
Qed.

(** The bytes that the blocks cover, as a decision. *)
Fixpoint sacked (bl : list blk) (z : Z) : bool :=
  match bl with
  | [] => false
  | (_, (a, b)) :: bl => ((a <=? z) && (z <? b)) || sacked bl z
  end.

Lemma sacked_covers bl z : sacked bl z = true <-> covers bl z.
Proof.
  induction bl as [| [i [a b]] bl IH]; cbn [sacked]; [by rewrite covers_nil |].
  rewrite orb_true_iff, IH, covers_cons, andb_true_iff, Z.leb_le, Z.ltb_lt. tauto.
Qed.

(** The bytes of the blocks between [p] and [q]. *)
Fixpoint between (p q : Z) (bl : list blk) : Z :=
  match bl with
  | [] => 0
  | (_, (a, b)) :: bl => Z.max 0 (Z.min b q - Z.max a p) + between p q bl
  end.

Lemma cnt_sacked bl : forall lo hi p q, sorted lo bl hi -> p <= q -> cnt (sacked bl) p (q - p) = between p q bl.
Proof.
  induction bl as [| [i [a b]] bl IH]; intros lo hi p q Hs Hpq; cbn [sacked between].
  - apply cnt_none; [lia | done].
  - destruct Hs as (H1 & H2 & H3). rewrite cnt_or.
    + rewrite (IH b hi), cnt_interval by (first [lia | done]). f_equal. lia.
    + intros z _ Hz Hz'. apply sacked_covers in Hz'. apply (sorted_covers _ _ _ _ H3) in Hz'. rewrite andb_true_iff, Z.leb_le, Z.ltb_lt in Hz. lia.
Qed.

Lemma between_bounds lo hi p q bl : sorted lo bl hi -> p <= q -> 0 <= between p q bl <= q - p.
Proof. intros Hs Hpq. rewrite <- (cnt_sacked bl lo hi) by done. apply cnt_bounds. lia. Qed.

(** ** Loops over the blocks *)

Lemma foreach_step {S R : Type} s (body : sackblock -> S -> S + R) i a b l st :
  holds (scb_heap s) (i, (a, b)) ->
  foreach s body (i :: l) st =
    match body (Sackblock (u32 a) (u32 b)) st with Datatypes.inl st => foreach s body l st | Datatypes.inr r => mret (Datatypes.inr r) end.
Proof. unfold holds. cbn. intros ->. by rewrite bind_Done_l. Qed.

Lemma s32_sub_small n m : - 2 ^ 31 <= n - m < 2 ^ 31 -> 0 <= m < 2 ^ 32 -> s32 (n - u32 m) = n - m.
Proof. intros. rewrite u32_id by done. by apply s32_id. Qed.

Lemma s32_add_small n m : - 2 ^ 31 <= n + m < 2 ^ 31 -> 0 <= m < 2 ^ 32 -> s32 (n + u32 m) = n + m.
Proof. intros. rewrite u32_id by done. by apply s32_id. Qed.

Lemma u32_seq_diff x y : 0 <= x - y < 2 ^ 32 -> u32 (u32 x - u32 y) = x - y.
Proof. intros. rewrite u32_seq_sub. by apply u32_id. Qed.

(** The bytes of all blocks. *)
Fixpoint total (bl : list blk) : Z := match bl with [] => 0 | (_, (a, b)) :: bl => b - a + total bl end.

Lemma total_bounds bl : forall lo hi, sorted lo bl hi -> 0 <= total bl <= hi - lo.
Proof.
  induction bl as [| [i [a b]] bl IH]; intros lo hi Hs; cbn [total]; [cbn in Hs; lia |]. destruct Hs as (? & ? & ?%IH). lia.
Qed.

Lemma total_app l1 l2 : total (l1 ++ l2) = total l1 + total l2.
Proof. induction l1 as [| [i [a b]] l1 IH]; cbn [total app]; lia. Qed.

(** tcp_sack_bytes_below counts the bytes of the blocks below a number. *)
Lemma bytes_below_ok s lo bl hi x : scb_rep s lo bl hi -> hi - lo < 2 ^ 31 -> lo <= x <= hi ->
  tcp_sack_bytes_below s (u32 x) = Done (cnt (sacked bl) lo (x - lo)).
Proof.
  intros (Hm & Hs & _) Hwin Hx. unfold tcp_sack_bytes_below. rewrite (mem_ids _ _ Hm), (cnt_sacked bl lo hi) by (first [done | lia]).
  set (body := fun (b : sackblock) (bytes : Z) => _).
  assert (Hgen : forall l m n, Forall (holds (scb_heap s)) l -> sorted m l hi -> lo <= m -> 0 <= n <= m - lo ->
            exists r, foreach s body (l.*1) n = Done r /\
              match r with Datatypes.inl k => k | Datatypes.inr k => k end = n + between lo x l).
  { induction l as [| [i [a b]] l IH]; intros m n HF Hl Hm' Hn; [exists (Datatypes.inl n); split; [done | cbn; lia] |].
    apply Forall_cons in HF as [Hp HF]. destruct Hl as (H1 & H2 & H3). pose proof (sorted_le _ _ _ H3). cbn [fmap list_fmap fst between].
    rewrite (foreach_step s body i a b _ n Hp). unfold body at 1. cbn [sblk_start sblk_end].
    rewrite SEQ_GT_near, seq_min_near by (unfold near; lia). destruct (Z.ltb_spec a x) as [Ha | Ha].
    - rewrite u32_seq_diff, s32_id by (unfold is_s32; lia).
      destruct (IH b (n + (Z.min x b - a)) HF H3) as (r & Hr & Hv); [lia | lia |]. exists r. rewrite Hr. split; [done | lia].
    - exists (Datatypes.inr n). split; [done |]. assert (between lo x l = 0).
      { clear IH HF Hp. revert b H2 H3 H. induction l as [| [j [c d]] l IH']; intros b H2 H3 H; [done |]. cbn [between]. destruct H3 as (? & ? & H3).
        rewrite (IH' d) by (first [done | lia | apply sorted_le in H3; lia]). lia. }
      lia. }
  destruct (Hgen bl lo 0 (mem_blocks _ _ Hm) Hs ltac:(lia) ltac:(lia)) as (r & Hr & Hv).
  unfold body in Hr |- *. rewrite Hr, bind_Done_l. unfold mret, outcome_ret. f_equal. by destruct r; cbn in *; lia.
Qed.

(** ** The pipe *)

(** No block starts before [p] and ends behind it. *)
Definition splits (bl : list blk) (p : Z) : Prop := forall i a b, (i, (a, b)) ∈ bl -> p <= a \/ b <= p.

(** tcp_sack_compute_pipe counts the bytes that are neither acknowledged nor lost,
    and once more those that were retransmitted. *)
Lemma compute_pipe_ok tp bl una max lost high :
  scb_rep (scb tp) una bl max -> max - una < 2 ^ 31 ->
  snd_una tp = u32 una -> snd_max tp = u32 max -> lostseq (scb tp) = u32 lost -> rexmt_high tp = u32 high ->
  una <= lost <= max -> una <= high <= max -> splits bl lost ->
  tcp_sack_compute_pipe tp =
    Done (u32 (cnt (fun z => negb (sacked bl z)) lost (max - lost) + cnt (fun z => negb (sacked bl z)) una (high - una))).
Proof.
  intros (Hm & Hs & _) Hwin Eu Em El Eh Hlost Hhigh Hsplit. unfold tcp_sack_compute_pipe. rewrite (mem_ids _ _ Hm), Em, El, Eu, Eh.
  rewrite !s32_near by (unfold near; lia). rewrite !cnt_negb, !(cnt_sacked bl una max) by (first [done | lia]).
  set (body := fun (b : sackblock) (st : Z * Z) => _).
  assert (Hgen : forall l m n k, Forall (holds (scb_heap (scb tp))) l -> sorted m l max -> una <= m -> splits l lost ->
            0 <= max - lost - n <= m - una -> 0 <= high - una - k <= m - una ->
            foreach (scb tp) body (l.*1) (n, k) = Done (Datatypes.inl (n - between lost max l, k - between una high l))).
  { induction l as [| [i [a b]] l IH]; intros m n k HF Hl Hm' Hsp Hn Hk; [cbn; by rewrite !Z.sub_0_r |].
    apply Forall_cons in HF as [Hp HF]. destruct Hl as (H1 & H2 & H3). pose proof (sorted_le _ _ _ H3). cbn [fmap list_fmap fst between].
    rewrite (foreach_step (scb tp) body i a b _ (n, k) Hp). unfold body at 1. cbn [sblk_start sblk_end].
    rewrite SEQ_LT_near, SEQ_GEQ_near, seq_min_near by (unfold near; lia).
    rewrite (u32_seq_diff b a) by lia. assert (Hsp1 : lost <= a \/ b <= lost) by (eapply Hsp; by left).
    assert (Ek : (if a <? high then s32 (k - u32 (u32 (Z.min b high) - u32 a)) else k) = k - Z.max 0 (Z.min b high - Z.max a una)).
    { destruct (Z.ltb_spec a high); [| lia]. rewrite u32_seq_diff, s32_id by (unfold is_s32; lia). lia. }
    assert (En : (if lost <=? a then s32 (n - (b - a)) else n) = n - Z.max 0 (Z.min b max - Z.max a lost)).
    { destruct (Z.leb_spec lost a); [rewrite s32_id by (unfold is_s32; lia) |]; lia. }
    rewrite Ek, En, (IH b) by (first [done | lia | intros j c d Hj; eapply Hsp; by right]).
    f_equal. f_equal. f_equal; lia. }
  rewrite (Hgen bl una _ _ (mem_blocks _ _ Hm) Hs) by (first [done | lia]). rewrite bind_Done_l. done.
Qed.

(** ** Lost data *)

(** The blocks that start above [z], and their bytes. *)
Definition above (z : Z) (bl : list blk) : list blk := filter (fun p : blk => z < p.2.1) bl.

Lemma above_app z l1 l2 : above z (l1 ++ l2) = above z l1 ++ above z l2.
Proof. apply filter_app. Qed.

Lemma above_all z l lo hi : sorted lo l hi -> z <= lo -> above z l = l.
Proof.
  revert lo. induction l as [| [i [a b]] l IH]; intros lo Hs Hz; [done |]. destruct Hs as (H1 & H2 & H3). unfold above.
  rewrite filter_cons_True by (cbn; lia). f_equal. apply (IH b); [done | lia].
Qed.

Lemma above_bounds z l : forall lo hi, sorted lo l hi -> zlen (above z l) <= zlen l /\ 0 <= total (above z l) <= total l.
Proof.
  induction l as [| [i [a b]] l IH]; intros lo hi Hs; [done |]. destruct Hs as (H1 & H2 & H3). destruct (IH _ _ H3) as [I1 I2]. unfold above in *.
  destruct (decide (z < a)); [rewrite filter_cons_True by done | rewrite filter_cons_False by done]; rewrite ?zlen_cons; cbn [total]; lia.
Qed.

Lemma filter_nil_in (P : blk -> Prop) `{forall p, Decision (P p)} (l : list blk) : (forall p, p ∈ l -> ~ P p) -> filter P l = [].
Proof.
  induction l as [| p l IH]; intros Hl; [done |]. rewrite filter_cons_False by (apply Hl; by left). apply IH. intros q Hq. apply Hl. by right.
Qed.

(** Lost: as many blocks, or as many bytes, as the thresholds say were received
    above the number. *)
Definition is_lost (rxtthresh bytes : Z) (bl : list blk) (z : Z) : Prop :=
  rxtthresh <= zlen (above z bl) \/ bytes <= total (above z bl).

Section Lost.
Context (s : scoreboard) (una max rxtthresh tb : Z) (bl : list blk).
Hypothesis Hm : scb_mem s bl.
Hypothesis Hs : sorted una bl max.
Hypothesis Hwin : max - una < 2 ^ 31.
Hypothesis Hthresh : 0 < rxtthresh.
Hypothesis Htb : 0 < tb.

(** The number below which everything is lost, as an integer. *)
Definition lost_at (lost : Z) : Prop :=
  (exists l1 i b l2, bl = l1 ++ (i, (lost, b)) :: l2 /\
     (rxtthresh <= 1 + zlen l2 \/ tb <= b - lost + total l2) /\ zlen l2 < rxtthresh /\ total l2 < tb) \/
  (lost = una /\ zlen bl < rxtthresh /\ total bl < tb).

Lemma lost_loop_ok l1 : forall l2 fuel, bl = l1 ++ l2 -> (length l1 <= fuel)%nat -> zlen l2 < rxtthresh -> total l2 < tb ->
  exists r lost, lost_loop fuel s rxtthresh tb (last (l1.*1)) (zlen l2) (total l2) = Done r /\ default (u32 una) r = u32 lost /\ lost_at lost.
Proof.
  induction l1 as [| [i [a b]] l1 IH] using rev_ind; intros l2 fuel Ebl Hf Hn Hb.
  - exists None, una. cbn in Ebl. subst l2. split_and!; [by destruct fuel | done | right; by split_and!].
  - rewrite length_app in Hf. cbn [length] in Hf. destruct fuel as [| fuel]; [lia |]. rewrite fmap_app. cbn [fmap list_fmap fst]. rewrite last_snoc. cbn [lost_loop].
    rewrite <- app_assoc in Ebl. cbn [app] in Ebl. pose proof Hm as Hm'. pose proof Hs as Hs'. rewrite Ebl in Hm', Hs'.
    rewrite (mem_deref_mid _ _ _ _ _ _ Hm'), bind_Done_l. cbn [sblk_start sblk_end].
    apply sack_sorted_app in Hs' as (S1 & S2 & S3). pose proof (total_bounds _ _ _ S3). pose proof (sorted_le _ _ _ S1).
    rewrite u32_seq_diff by lia. rewrite s32_id by (unfold is_s32; lia). rewrite (mem_prev_mid _ _ _ _ _ Hm').
    destruct ((zlen l2 + 1 =? rxtthresh) || (total l2 + (b - a) >=? tb)) eqn:E.
    + exists (Some (u32 a)), a. split_and!; [done | done |]. left. exists l1, i, b, l2. split_and!; try done.
      apply orb_true_iff in E as [E%Z.eqb_eq | E%Z.geb_le]; [left | right]; lia.
    + apply orb_false_iff in E as [E1%Z.eqb_neq E2]. rewrite Z.geb_leb in E2. apply Z.leb_gt in E2.
      destruct (IH ((i, (a, b)) :: l2) fuel) as (r & lost & Hr & Hl); [done | lia | rewrite zlen_cons; lia | cbn; lia |].
      exists r, lost. split; [| done]. rewrite zlen_cons in Hr. cbn [total] in Hr. rewrite <- Hr. f_equal; lia.
Qed.

Lemma lost_at_spec lost : lost_at lost -> una <= lost <= max /\ splits bl lost /\
  (forall z, una <= z -> ~ covers bl z -> z < lost <-> is_lost rxtthresh tb bl z).
Proof.
  intros [(l1 & i & b & l2 & -> & H1 & H2 & H3) | (-> & H1 & H2)].
  - apply sack_sorted_app in Hs as (S1 & S2 & S3). pose proof (sorted_le _ _ _ S1). pose proof (sorted_le _ _ _ S3). split; [lia |]. split.
    + intros j c d Hj. apply elem_of_app in Hj as [Hj | [[= -> -> ->] | Hj]%elem_of_cons]; [right; apply (sorted_in _ _ _ _ _ _ S1) in Hj; lia | by left |].
      left. apply (sorted_in _ _ _ _ _ _ S3) in Hj. lia.
    + intros z Hz Hnc. unfold is_lost. rewrite above_app. destruct (decide (z < lost)) as [Hlt | Hge].
      * split; [| done]. intros _. destruct (above_bounds z _ _ _ S1) as [B1 B2]. rewrite (above_all z ((i, (lost, b)) :: l2) (lost - 1) max) by (first [cbn; split_and!; [lia | done | done] | lia]).
        rewrite zlen_app, zlen_cons, total_app. cbn [total]. pose proof (zlen_nonneg (above z l1)). destruct H1 as [H1 | H1]; [left | right]; lia.
      * split; [lia |]. assert (Hzb : b <= z). { destruct (decide (z < b)); [| lia]. exfalso. apply Hnc. rewrite covers_app, covers_cons. right. left. lia. }
        assert (E1 : above z l1 = []).
        { apply filter_nil_in. intros [j [c d]] Hj. apply (sorted_in _ _ _ _ _ _ S1) in Hj. cbn. lia. }
        rewrite E1. unfold above. rewrite filter_cons_False by (cbn; lia). cbn [app]. destruct (above_bounds z _ _ _ S3) as [B1 B2]. unfold above in *. intros [? | ?]; lia.
  - pose proof (sorted_le _ _ _ Hs). split; [lia |]. split; [intros j c d Hj; left; apply (sorted_in _ _ _ _ _ _ Hs) in Hj; lia |].
    intros z Hz Hnc. split; [lia |]. destruct (above_bounds z _ _ _ Hs) as [B1 B2]. intros [? | ?]; lia.
Qed.
End Lost.

(** * The SACK scoreboard: choosing what to send, and the invariant of a connection *)

(** ** Searching *)

Section Search.
Context (s : scoreboard) (bl : list blk) (lo hi x : Z).
Hypothesis Hrep : scb_rep s lo bl hi.
Hypothesis Hnear : hi - 2 ^ 31 < x < lo + 2 ^ 31.

(** A search gives the block around [x], if there is one, and changes the hint only. *)
Lemma lookup_ok : exists s' sb found, sack_block_lookup s (u32 x) = Done (s', sb, found) /\ scb_rep s' lo bl hi /\ lostseq s' = lostseq s /\
  (if found : bool then exists i a b, sb = Some i /\ (i, (a, b)) ∈ bl /\ a <= x < b else ~ covers bl x).
Proof.
  pose proof Hrep as (Hm & Hs & Hn). destruct (decide (bl = [])) as [E | Hne].
  - exists s, None, false. split_and!; [unfold sack_block_lookup; by rewrite (mem_ids _ _ Hm), E | done | done |]. rewrite E, covers_nil. tauto.
  - rewrite (sack_block_lookup_ok s bl lo hi x) by done.
    destruct (find_block_cases x lo bl hi Hs) as [[E Hfirst] | (l1 & i & a & b & l2 & El & E & Hax & Hl2)]; rewrite E; cbn [fst snd].
    + exists (set_lastfound s None), None, false. split_and!; [done | split_and!; [by apply mem_set_lastfound | done | done] | done |].
      intros Hc. destruct bl as [| [f [fa fb]] bl']; [by apply covers_nil in Hc |].
      assert (Hx : fa - 1 < x) by (apply (sorted_covers (fa - 1) ((f, (fa, fb)) :: bl') hi); [| done]; cbn in *; split_and!; [lia | naive_solver | naive_solver]). lia.
    + exists (set_lastfound s (Some i)), (Some i), (x <? b). split_and!; [done | split_and!; [| done | done] | done |].
      { apply mem_set_lastfound; [done |]. intros ? [= <-]. rewrite El, fmap_app. set_solver. }
      destruct (Z.ltb_spec x b).
      * exists i, a, b. split_and!; [done | rewrite El; set_solver | done | done].
      * rewrite El in Hs |- *. apply sack_sorted_app in Hs as (S1 & S2 & S3). rewrite covers_app, covers_cons.
        intros [Hc | [? | Hc]]; [apply (sorted_covers _ _ _ _ S1) in Hc; lia | lia |].
        destruct l2 as [| [j [c d]] l2]; [by apply covers_nil in Hc |].
        assert (c - 1 < x) by (apply (sorted_covers (c - 1) ((j, (c, d)) :: l2) hi); [| done]; cbn in *; split_and!; [lia | naive_solver | naive_solver]). lia.
Qed.

(** The first byte from [x] on that is not covered. *)
Definition skipped (z : Z) : Prop := x <= z /\ ~ covers bl z /\ (forall y, x <= y < z -> covers bl y).

Lemma skip_sacked_ok : exists s' z, tcp_sack_skip_sacked s (u32 x) = Done (s', u32 z) /\ scb_rep s' lo bl hi /\ lostseq s' = lostseq s /\
  skipped z /\ (z = x \/ z <= hi).
Proof.
  destruct lookup_ok as (s' & sb & found & E & Hrep' & El & Hf). unfold tcp_sack_skip_sacked. rewrite E, bind_Done_l. destruct found.
  - destruct Hf as (i & a & b & -> & Hi & Hx). pose proof Hrep' as (Hm' & Hs' & _). rewrite (mem_deref s' bl i a b Hm' Hi), bind_Done_l.
    exists s', b. split_and!; [done | done | done | | right; by apply (sorted_in _ _ _ _ _ _ Hs' Hi)]. split_and!; [lia | |].
    + apply list_elem_of_split in Hi as (l1 & l2 & ->). apply sack_sorted_app in Hs' as (S1 & S2 & S3). rewrite covers_app, covers_cons.
      intros [Hc | [? | Hc]]; [apply (sorted_covers _ _ _ _ S1) in Hc; lia | lia | apply (sorted_covers _ _ _ _ S3) in Hc; lia].
    + intros y Hy. exists i, a, b. split; [done | lia].
  - exists s', x. split_and!; [done | done | done | | by left]. split_and!; [lia | done | lia].
Qed.
End Search.

(** ** The next segment *)

(** The fields that sending does not change. *)
Definition same_send (tp tp' : tcpcb) : Prop :=
  same_conn tp tp' /\ sack_flags tp' = sack_flags tp /\ lostseq (scb tp') = lostseq (scb tp).

Section Nextseg.
Context (tcp_do_rfc6675 tcp_do_rescuesack tcp_aggressive_rescuesack tcp_do_smartsack : bool).
Context (bl : list blk) (una max : Z).

(** A segment that is sent again starts with a byte that is not acknowledged and ends
    before the block in which it would end. *)
Definition segment (maxseg z len : Z) : Prop :=
  ~ covers bl z /\ 0 < len <= maxseg /\
  (len = maxseg /\ ~ covers bl (z + maxseg) \/ exists i b, (i, (z + len, b)) ∈ bl /\ z + maxseg < b).

Lemma sendunsacked_ok tp z : scb_rep (scb tp) una bl max -> una <= z <= max -> ~ covers bl z -> 0 < t_maxseg tp < 2 ^ 32 ->
  max + t_maxseg tp - una < 2 ^ 31 ->
  exists tp' len, sendunsacked tp (u32 z) = Done (tp', (u32 z, len)) /\ same_send tp tp' /\ rexmt_high tp' = rexmt_high tp /\
    scb_rep (scb tp') una bl max /\ segment (t_maxseg tp) z len.
Proof.
  intros Hrep Hz Hnc Hseg Hwin. unfold sendunsacked. rewrite u32_seq_add.
  destruct (lookup_ok (scb tp) bl una max (z + t_maxseg tp) Hrep ltac:(lia)) as (s' & sb & found & E & Hrep' & El & Hf).
  rewrite E, bind_Done_l. destruct found.
  - destruct Hf as (i & a & b & -> & Hi & Hx). pose proof Hrep' as (Hm' & Hs' & _). rewrite (mem_deref s' bl i a b Hm' Hi), bind_Done_l.
    assert (Haz : z < a). { destruct (decide (z < a)); [done |]. exfalso. apply Hnc. exists i, a, b. split; [done | lia]. }
    cbn [sblk_start]. rewrite u32_seq_diff by lia. eexists _, _. split; [done |]. split; [done |]. split; [done |]. split; [done |].
    split_and!; [done | lia | lia |]. right. exists i, b. replace (z + (a - z)) with a by lia. split; [done | lia].
  - eexists _, _. split; [done |]. split; [done |]. split; [done |]. split; [done |]. split_and!; [done | cbn; lia | cbn; lia |]. by left.
Qed.

(** There is a reported block above [z]. *)
Definition below_last (z : Z) : bool := match last bl with Some (_, (_, b)) => z <? b | None => false end.

(** The answer is to send the segment at [y] again. *)
Definition again (maxseg y : Z) (r : option (Z * Z)) : Prop := exists len, r = Some (u32 y, len) /\ segment maxseg y len.

(** The answer of tcp_sack_nextseg, where [z] is the first byte from rexmt_high on that was
    not reported.  If data above it was reported, and it is lost or there is no new data
    that may be sent, the segment at [z]; else new data, if there is some; else, to rescue the
    connection, one segment: at [z] for the first time, and then, if that is to be done more
    than once, at the first byte behind the last one sent so that was not reported, from
    snd_una again if there is none; else nothing. *)
Definition nextseg_result (tp : tcpcb) (cc z : Z) (r : option (Z * Z)) (rescue : bool) : Prop :=
  let room := 0 <? Z.min cc (Z.min (u32 (snd_wnd tp)) (u32 (snd_bwnd tp))) - (max - una) in
  if below_last z && (tcp_sack_islost (scb tp) (u32 z) || negb room) then rescue = false /\ again (t_maxseg tp) z r
  else if room then rescue = false /\ r = Some (u32 max, t_maxseg tp)
  else if tcp_do_rescuesack || tcp_do_rfc6675 then
    if sack_rescued tp && negb tcp_aggressive_rescuesack then rescue = false /\ r = None
    else rescue = true /\ exists y, again (t_maxseg tp) (if y =? max then una else y) r /\
      if sack_rescued tp then exists x, rexmt_rescue tp = u32 x /\ una <= x <= max /\ skipped bl x y else y = z
  else if tcp_do_smartsack && bool_decide (bl = []) then rescue = true /\ again (t_maxseg tp) z r
  else rescue = false /\ r = None.

Lemma before_last_ok s s1 z : scb_rep s una bl max -> scb_rep s1 una bl max -> una <= z <= max -> max - una < 2 ^ 31 ->
  match last (sackblocks s) with None => mret false | Some _ => b ← deref s1 (last (sackblocks s)); mret (SEQ_LT (u32 z) (sblk_end b)) end = Done (below_last z) /\
  bool_decide (last (sackblocks s) = None) = bool_decide (bl = []).
Proof.
  intros (Hm & Hs & _) (Hm1 & _ & _) Hz Hwin. rewrite (mem_ids _ _ Hm). unfold below_last. destruct bl as [| [i [a b]] l _] eqn:El using rev_ind; [done |]. rewrite fmap_app. cbn [fmap list_fmap fst]. rewrite !last_snoc.
  assert (Hi : (i, (a, b)) ∈ l ++ [(i, (a, b))]) by (apply elem_of_app; right; by left). pose proof (sorted_in _ _ _ _ _ _ Hs Hi) as Hb.
  rewrite (mem_deref s1 _ i a b Hm1 Hi), bind_Done_l. cbn [sblk_end]. split; [| by destruct l]. rewrite SEQ_LT_near by (unfold near; lia). done.
Qed.

Lemma u32_max z : una <= z <= max -> max - una < 2 ^ 31 -> (u32 z =? u32 max) = (z =? max).
Proof.
  intros Hz Hw. destruct (Z.eqb_spec z max) as [-> | Hne]; [apply Z.eqb_refl |]. apply Z.eqb_neq. intros E. assert (Hn : near z max) by (unfold near; lia).
  apply s32_near in Hn. rewrite E, Z.sub_diag in Hn. change (s32 0) with 0 in Hn. lia.
Qed.

Lemma same_send_trans tp tp1 tp' : same_send tp tp1 -> same_send tp1 tp' -> same_send tp tp'.
Proof. intros (A1 & A2 & A3) (B1 & B2 & B3). unfold same_send, same_conn in *. destruct_and!. split_and!; congruence. Qed.

Lemma nextseg_ok tp cc high resc : scb_rep (scb tp) una bl max -> snd_una tp = u32 una -> snd_max tp = u32 max ->
  rexmt_high tp = u32 high -> una <= high <= max -> (sack_rescued tp = true -> rexmt_rescue tp = u32 resc /\ una <= resc <= max) ->
  0 < t_maxseg tp < 2 ^ 32 -> max + t_maxseg tp - una < 2 ^ 31 ->
  exists tp' r rescue high', tcp_sack_nextseg tcp_do_rfc6675 tcp_do_rescuesack tcp_aggressive_rescuesack tcp_do_smartsack tp cc = Done (tp', r, rescue) /\
    same_send tp tp' /\ scb_rep (scb tp') una bl max /\ rexmt_high tp' = u32 high' /\ high <= high' <= max /\ skipped bl high high' /\
    nextseg_result tp cc high' r rescue.
Proof.
  intros Hrep Eu Em Eh Hhigh Hresc Hseg Hwin. pose proof Hrep as (Hm & Hs & _). unfold tcp_sack_nextseg. rewrite Eh.
  destruct (skip_sacked_ok (scb tp) bl una max high Hrep ltac:(lia)) as (s1 & h' & -> & Hrep1 & El1 & Hskip & Hh'). rewrite bind_Done_l.
  pose proof Hskip as (Hsk1 & Hsk2 & Hsk3). assert (Hhm : h' <= max) by lia.
  set (tp1 := set_rexmt_high (set_scb tp s1) (u32 h')). change (rexmt_high tp1) with (u32 h').
  destruct (before_last_ok (scb tp) s1 h' Hrep Hrep1 ltac:(lia) ltac:(lia)) as [-> Hlast]. rewrite bind_Done_l.
  assert (Hsame1 : same_send tp tp1) by (split_and!; done). assert (Hun : ~ covers bl una) by (intros Hc; apply (sorted_covers _ _ _ _ Hs) in Hc; lia).
  (* a segment that is sent again *)
  assert (Hsend : forall tp2 y rs, scb_rep (scb tp2) una bl max -> same_send tp1 tp2 -> rexmt_high tp2 = u32 h' -> una <= y <= max -> ~ covers bl y ->
            (forall r, again (t_maxseg tp) y r -> nextseg_result tp cc h' r rs) ->
            exists tp' r rescue high', ('(tp, r) ← sendunsacked tp2 (u32 y); mret (tp, Some r, rs)) = Done (tp', r, rescue) /\
              same_send tp tp' /\ scb_rep (scb tp') una bl max /\ rexmt_high tp' = u32 high' /\ high <= high' <= max /\ skipped bl high high' /\ nextseg_result tp cc high' r rescue).
  { intros tp2 y rs Hrep2 Hs2 Eh2 Hy Hyc Hres. pose proof Hs2 as ((_ & _ & _ & _ & G2 & _) & _). assert (G : t_maxseg tp2 = t_maxseg tp) by (rewrite G2; done).
    destruct (sendunsacked_ok tp2 y Hrep2 Hy Hyc ltac:(lia) ltac:(lia)) as (tp' & len & -> & Hsame & Eh3 & Hrep3 & Hsegm). rewrite bind_Done_l.
    exists tp', (Some (u32 y, len)), rs, h'. split_and!; try done; try congruence; [by eapply same_send_trans; [| eapply same_send_trans] |]. apply Hres. exists len. by rewrite <- G. }
  assert (Hstay : forall r rs, nextseg_result tp cc h' r rs -> exists tp' r' rescue high', Done (tp1, r, rs) = Done (tp', r', rescue) /\
            same_send tp tp' /\ scb_rep (scb tp') una bl max /\ rexmt_high tp' = u32 high' /\ high <= high' <= max /\ skipped bl high high' /\ nextseg_result tp cc high' r' rescue)
    by (intros r rs Hr; exists tp1, r, rs, h'; by split_and!).
  pose proof (Hsend tp1 h') as Hsend1. specialize (fun rs => Hsend1 rs Hrep1 (ltac:(by split_and!)) eq_refl ltac:(lia) Hsk2) as Hs1.
  assert (Elost : tcp_sack_islost s1 (u32 h') = tcp_sack_islost (scb tp) (u32 h')) by (unfold tcp_sack_islost; by rewrite El1). rewrite Elost.
  change (snd_max tp1) with (snd_max tp). change (snd_una tp1) with (snd_una tp). change (snd_wnd tp1) with (snd_wnd tp). change (snd_bwnd tp1) with (snd_bwnd tp). rewrite Em, Eu, u32_seq_diff by lia.
  rewrite Z.gtb_ltb. unfold nextseg_result in *. set (room := 0 <? _) in *. cbv zeta in *.
  destruct (below_last h') eqn:Eb; cbn [andb orb negb] in *.
  { destruct (tcp_sack_islost (scb tp) (u32 h')); cbn [andb orb negb] in *; [apply Hs1; by intros r |]. destruct room; cbn [andb orb negb] in *; [apply Hstay; by split | apply Hs1; by intros r]. }
  destruct room; [apply Hstay; by split |]. destruct (tcp_do_rescuesack || tcp_do_rfc6675).
  - change (sack_rescued tp1) with (sack_rescued tp). destruct (sack_rescued tp) eqn:Er; cbn [andb negb] in *.
    + destruct tcp_aggressive_rescuesack; cbn [negb] in *; [| by apply Hstay].
      destruct (Hresc eq_refl) as [Err Hres]. change (rexmt_rescue tp1) with (rexmt_rescue tp). rewrite Err in Hsend |- *.
      destruct (skip_sacked_ok (scb tp1) bl una max resc Hrep1 ltac:(lia)) as (s2 & t & -> & Hrep2 & El2 & Hsk & Ht4). pose proof Hsk as (Ht1 & Ht2 & Ht3). rewrite !bind_Done_l.
      change (snd_max (set_scb tp1 s2)) with (snd_max tp). change (snd_una (set_scb tp1 s2)) with (snd_una tp). rewrite Em, Eu, u32_max by lia.
      replace (if t =? max then u32 una else u32 t) with (u32 (if t =? max then una else t)) by (by destruct (t =? max)).
      apply Hsend; [done | split_and!; try done; by rewrite El2 | done | destruct (t =? max); lia | by destruct (t =? max) |]. intros r Hr. split; [done |]. exists t. split; [done |]. by exists resc.
    + rewrite bind_Done_l. change (snd_max tp1) with (snd_max tp). change (snd_una tp1) with (snd_una tp). rewrite Em, Eu, u32_max by lia.
      replace (if h' =? max then u32 una else u32 h') with (u32 (if h' =? max then una else h')) by (by destruct (h' =? max)).
      apply Hsend; [done | by split_and! | done | destruct (h' =? max); lia | by destruct (h' =? max) |]. intros r Hr. split; [done |]. by exists h'.
  - rewrite Hlast. destruct (tcp_do_smartsack && bool_decide (bl = [])); [apply Hs1; by intros r | by apply Hstay].
Qed.
End Nextseg.
