(* ===== verification/SackProps.v ===== *)
(** * The SACK scoreboard: results

    The world of a connection: its tcpcb, and the integers that snd_una, snd_max and
    the bound of the scoreboard stand for.  The steps are what the rest of TCP does
    to them, in any order. *)

From stdpp Require Import prelude list strings gmap.
From S2P Require Import Prelude.
From S2P Require Import Ranges.
From S2P Require Import Tailq.
From S2P Require Import Seq.
From S2P Require Import Sack.
From S2P Require Import SackInv.
From S2P Require Import SackUpdate.
From S2P Require Import SackSend.
Open Scope Z_scope.

Section Props.
Context (kmalloc_ok : nat -> bool).
Context (tcp_do_rfc6675 tcp_do_rescuesack tcp_aggressive_rescuesack tcp_do_smartsack : bool).

#[local] #[warnings="-notation-for-abbreviation"]
Notation update := (tcp_sack_update_scoreboard kmalloc_ok tcp_do_rfc6675 tcp_aggressive_rescuesack).
#[local] #[warnings="-notation-for-abbreviation"]
Notation nextseg := (tcp_sack_nextseg tcp_do_rfc6675 tcp_do_rescuesack tcp_aggressive_rescuesack tcp_do_smartsack).

(** The threshold of bytes. *)
Definition thresh_bytes (tp : tcpcb) : Z := (if tcp_do_rfc6675 then t_rxtthresh tp - 1 else t_rxtthresh tp) * t_maxseg tp.

(** The parameters of a connection: a segment has at least one byte, and the
    thresholds fit into an int. *)
Definition params_ok (tp : tcpcb) : Prop :=
  0 < t_maxseg tp < 2 ^ 16 /\ 2 <= t_rxtthresh tp /\ t_rxtthresh tp * t_maxseg tp < 2 ^ 31.

(** The scoreboard was brought up to date when snd_una was [lo]; [bl] are its blocks.
    rexmt_high is one below snd_una after limited transmit. *)
Record sack_inv (tp : tcpcb) (lo una max : Z) (bl : list blk) : Prop := {
  inv_una : snd_una tp = u32 una;
  inv_max : snd_max tp = u32 max;
  inv_order : lo <= una <= max;
  inv_window : max + t_maxseg tp - lo < 2 ^ 31 - 1;
  inv_params : params_ok tp;
  inv_scb : scb_rep (scb tp) lo bl max;
  inv_high : exists high, rexmt_high tp = u32 high /\ lo - 1 <= high <= max;
  inv_rescue : sack_rescued tp = true -> exists r, rexmt_rescue tp = u32 r /\ lo <= r <= max
}.

(** The blocks of an option: 32-bit numbers, each of them with an end behind its start, which
    tcp_dooptions checks (the others are left out); and that none of them starts above
    snd_max, which nothing checks: a peer that reports bytes that were never sent is not
    covered (see [sack_remote_null_dereference]). *)
Definition option_ok (max : Z) (blocks : list raw_sackblock) : Prop :=
  Forall option_block blocks /\ Forall (below_max (u32 max)) blocks.

(** tcp_sack_add_blocks leaves out the first block if it is a D-SACK. *)
Definition sack_blocks (una : Z) (blocks : list raw_sackblock) : list raw_sackblock :=
  drop (if tcp_sack_ndsack_blocks blocks (u32 una) >? 0 then 1%nat else 0%nat) blocks.

(** ** Lost data *)

Lemma update_lostseq_ok s bl una max maxseg rxtthresh :
  scb_rep s una bl max -> max - una < 2 ^ 31 -> 0 < maxseg -> 2 <= rxtthresh -> rxtthresh * maxseg < 2 ^ 31 ->
  exists s' lost, tcp_sack_update_lostseq tcp_do_rfc6675 s (u32 una) maxseg rxtthresh = Done s' /\ scb_rep s' una bl max /\
    lostseq s' = u32 lost /\ lost_at una rxtthresh ((if tcp_do_rfc6675 then rxtthresh - 1 else rxtthresh) * maxseg) bl lost.
Proof.
  intros (Hm & Hs & Hn) Hwin Hseg Hthr Hprod. unfold tcp_sack_update_lostseq.
  assert (E : (if tcp_do_rfc6675 then s32 (u32 (rxtthresh - 1) * maxseg) else s32 (u32 rxtthresh * maxseg)) =
              (if tcp_do_rfc6675 then rxtthresh - 1 else rxtthresh) * maxseg).
  { assert (rxtthresh < 2 ^ 31) by nia. destruct tcp_do_rfc6675; rewrite u32_id by (unfold is_u32; lia); apply s32_id; unfold is_s32; nia. }
  rewrite E, (mem_ids _ _ Hm), length_fmap. set (tb := (if tcp_do_rfc6675 then rxtthresh - 1 else rxtthresh) * maxseg).
  assert (Htb : 0 < tb) by (unfold tb; destruct tcp_do_rfc6675; nia).
  destruct (lost_loop_ok s una max rxtthresh tb bl Hm Hs Hwin bl [] (length bl)) as (r & lost & Hr & El & Hl);
    [by rewrite app_nil_r | done | unfold zlen; cbn; lia | done |].
  change (zlen (@nil blk)) with 0 in Hr. cbn [total] in Hr. rewrite Hr, bind_Done_l. eexists _, lost. split; [done |].
  split; [split_and!; [by apply mem_set_lostseq | done | done] |]. done.
Qed.

(** ** The effect of an acknowledgement *)

(** An acknowledgement of the bytes below [una] with SACK blocks. *)
Lemma update_ok tp lo una max bl blocks : sack_inv tp lo una max bl -> option_ok max blocks ->
  exists tp' redundant bl' lost, update tp blocks = Done (tp', redundant) /\ sack_inv tp' una una max bl' /\
    (exists high, rexmt_high tp' = u32 high /\ una <= high <= max) /\
    added kmalloc_ok (scb_next (scb tp)) (scb_next (scb tp')) (acked una bl) bl' (accepted una max (sack_blocks una blocks)) true redundant /\
    lostseq (scb tp') = u32 lost /\ lost_at una (t_rxtthresh tp) (thresh_bytes tp) bl' lost /\
    t_maxseg tp' = t_maxseg tp /\ t_rxtthresh tp' = t_rxtthresh tp.
Proof.
  intros [Eu Em Ho Hw Hp Hrep (high & Eh & Hh) Hresc] [Hopt Hbelow]. pose proof Hp as (Hseg & Hthr & Hprod). unfold tcp_sack_update_scoreboard.
  rewrite Eu. destruct (ack_blocks_ok lo max una ltac:(lia) ltac:(lia) tp bl Hrep Eu) as (tp1 & Eack & Hsame1 & Hrep1 & Hh1 & Hf1). rewrite Eack, bind_Done_l. apply ack_next in Eack.
  destruct Hsame1 as (U1 & M1 & _ & _ & G1 & R1 & Q1 & _). unfold tcp_sack_add_blocks. rewrite U1, M1, Eu, Em.
  destruct (add_loop_ok kmalloc_ok una max ltac:(lia) (sack_blocks una blocks) (scb tp1) (acked una bl) true) as (s2 & bl' & red & E2 & Hrep2 & El2 & _ & Hadd);
    [by apply Forall_drop | by apply Forall_drop | done |].
  unfold sack_blocks in E2. rewrite E2, !bind_Done_l. change (scb (set_scb tp1 s2)) with s2. change (snd_una (set_scb tp1 s2)) with (snd_una tp1).
  change (t_maxseg (set_scb tp1 s2)) with (t_maxseg tp1). change (t_rxtthresh (set_scb tp1 s2)) with (t_rxtthresh tp1). rewrite U1, Eu, G1, R1.
  destruct (update_lostseq_ok s2 bl' una max (t_maxseg tp) (t_rxtthresh tp) Hrep2) as (s3 & lost & Els & Hrep3 & El3 & Hl3); [lia | lia | done | done |].
  rewrite Els, bind_Done_l. assert (En3 : scb_next s3 = scb_next s2) by (unfold tcp_sack_update_lostseq in Els; apply bind_Done in Els as (o & _ & Els); by revert Els; intros [= <-]). rewrite Eack, <- En3 in Hadd. set (tp2 := set_scb (set_scb tp1 s2) s3).
  assert (Hhigh2 : exists h, rexmt_high tp1 = u32 h /\ lo - 1 <= h <= max).
  { destruct Hh1 as [-> | ->]; [exists high; done | exists una; split; [done | lia]]. }
  destruct Hhigh2 as (h & Eh1 & Hh2). change (rexmt_high tp2) with (rexmt_high tp1). change (snd_una tp2) with (snd_una tp1). rewrite Eh1, U1, Eu.
  rewrite SEQ_LT_near by (unfold near; lia).
  set (r3 := if h <? una then (set_rexmt_high tp2 (u32 una), true) else (tp2, false)). destruct r3 as [tp3 upd] eqn:E3.
  assert (H3 : rexmt_high tp3 = u32 (Z.max h una) /\ snd_una tp3 = u32 una /\ snd_max tp3 = u32 max /\ t_maxseg tp3 = t_maxseg tp /\
            t_rxtthresh tp3 = t_rxtthresh tp /\ scb tp3 = s3 /\ rexmt_rescue tp3 = rexmt_rescue tp).
  { unfold r3 in E3. destruct (Z.ltb_spec h una); injection E3 as <- <-; cbn; rewrite ?U1, ?M1, ?G1, ?R1, ?Q1, ?Eh1; split_and!; try done; f_equal; lia. }
  destruct H3 as (Eh3 & U3 & M3 & G3 & R3 & S3 & Q3).
  set (tp4 := if sack_rescued tp3 then _ else tp3).
  assert (H4 : rexmt_high tp4 = u32 (Z.max h una) /\ snd_una tp4 = u32 una /\ snd_max tp4 = u32 max /\ t_maxseg tp4 = t_maxseg tp /\
            t_rxtthresh tp4 = t_rxtthresh tp /\ scb tp4 = s3).
  { unfold tp4. destruct (sack_rescued tp3); [| done]. destruct (SEQ_LEQ _ _); [done |]. by destruct (tcp_aggressive_rescuesack && upd && _). }
  destruct H4 as (Eh4 & U4 & M4 & G4 & R4 & S4).
  assert (Hresc4 : sack_rescued tp4 = true -> exists r, rexmt_rescue tp4 = u32 r /\ una <= r <= max).
  { unfold tp4. destruct (sack_rescued tp3) eqn:Er3; [| by intros ?; congruence]. rewrite Q3, U3, Eh3.
    assert (Er : sack_rescued tp1 = true) by (unfold r3 in E3; by destruct (h <? una); injection E3 as <- <-).
    destruct (Hresc (Hf1 Er)) as (r & Err & Hr). rewrite Err. rewrite SEQ_LEQ_near, SEQ_LT_near by (unfold near; lia).
    destruct (Z.leb_spec r una) as [Hle | Hgt].
    - unfold sack_rescued, clear_rescued. cbn [sack_flags set_sack_flags]. by rewrite btest_ldiff_same.
    - intros _. destruct (tcp_aggressive_rescuesack && upd && (r <? Z.max h una)); cbn [rexmt_rescue set_rexmt_rescue]; rewrite ?Q3, ?Eh3;
        [exists (Z.max h una); split; [done | lia] | exists r; split; [by rewrite Err | lia]]. }
  exists tp4, red, bl', lost. split; [done |]. split; [| split; [| split; [by rewrite S4 | split; [by rewrite S4 | split; [done | done]]]]].
  - constructor; try done; [lia | rewrite G4; lia | unfold params_ok; rewrite G4, R4; done | by rewrite S4 |]. exists (Z.max h una). split; [done | lia].
  - exists (Z.max h una). split; [done | lia].
Qed.

(** ** The steps of a connection *)

(** tcp_sack_rexmt after it has sent: rexmt_high, and for a rescue segment
    rexmt_rescue and its flag. *)
Definition set_rescue (tp : tcpcb) (r : Z) : tcpcb :=
  set_sack_flags (set_rexmt_rescue tp r) (Z.lor (sack_flags tp) TSACK_F_SACKRESCUED).

Inductive reachable : tcpcb -> Z -> Z -> Z -> Prop :=
| r_start tp iss :
    snd_una tp = u32 iss -> snd_max tp = u32 iss -> rexmt_high tp = u32 iss -> sack_rescued tp = false ->
    params_ok tp -> scb tp = tcp_sack_tcpcb_init -> reachable tp iss iss iss
| r_send tp lo una max n :
    (* data is sent: snd_max grows, within the window *)
    reachable tp lo una max -> 0 <= n -> max + n + t_maxseg tp - lo < 2 ^ 31 - 1 ->
    reachable (set_max tp (u32 (max + n))) lo una (max + n)
| r_fastack tp lo una max n :
    (* header prediction: snd_una advances, the scoreboard is not looked at *)
    reachable tp lo una max -> 0 <= n -> una + n <= max -> reachable (set_una tp (u32 (una + n))) lo (una + n) max
| r_ack tp lo una max n blocks tp' redundant :
    reachable tp lo una max -> 0 <= n -> una + n <= max -> option_ok max blocks ->
    update (set_una tp (u32 (una + n))) blocks = Done (tp', redundant) -> reachable tp' (una + n) (una + n) max
| r_nextseg tp una max cc tp' r rescue high :
    reachable tp una una max -> rexmt_high tp = u32 high -> una <= high <= max -> nextseg tp cc = Done (tp', r, rescue) ->
    reachable tp' una una max
| r_skip tp lo una max z s' z' :
    (* tcp_output after a timeout *)
    reachable tp lo una max -> una <= z <= max -> tcp_sack_skip_sacked (scb tp) (u32 z) = Done (s', z') ->
    reachable (set_scb tp s') lo una max
| r_rexmt tp lo una max high :
    reachable tp lo una max -> una <= high <= max -> reachable (set_rexmt_high tp (u32 high)) lo una max
| r_limited tp lo una max :
    (* tcp_sack_limitedxmit *)
    reachable tp lo una max -> reachable (set_rexmt_high tp (u32 (una - 1))) lo una max
| r_rescue tp lo una max r :
    reachable tp lo una max -> una <= r <= max -> reachable (set_rescue tp (u32 r)) lo una max
| r_discard tp lo una max tp' :
    (* retransmission timeout *)
    reachable tp lo una max -> tcp_sack_discard tp = Done tp' -> reachable tp' una una max
| r_ncr tp una max tp' :
    reachable tp una una max -> tcp_ncr_update_rxtthresh tcp_do_rfc6675 tp = Done tp' -> reachable tp' una una max.

Lemma sack_inv_start tp iss : snd_una tp = u32 iss -> snd_max tp = u32 iss -> rexmt_high tp = u32 iss -> sack_rescued tp = false ->
  params_ok tp -> scb tp = tcp_sack_tcpcb_init -> sack_inv tp iss iss iss [].
Proof.
  intros Eu Em Eh Er Hp Es. pose proof Hp as (Hseg & _). constructor; try done; try lia; [| exists iss; split; [done | lia] | by rewrite Er].
  rewrite Es. split_and!; [| cbn; lia | done]. constructor; cbn; try done; [constructor | |].
  - intros i. rewrite lookup_empty. split; [by intros [? ?] |]. intros [Hx | ?]; [by apply not_elem_of_nil in Hx | done].
  - intros i. rewrite lookup_empty. by intros [? ?].
Qed.

Lemma inv_discard tp lo una max bl tp' : sack_inv tp lo una max bl -> tcp_sack_discard tp = Done tp' -> sack_inv tp' una una max [].
Proof.
  intros [Eu Em Ho Hw Hp (Hm & _) _ _] E. destruct (discard_ok tp bl Hm) as (tp2 & E2 & Hsame & Hm2 & Eh & _ & Ef). rewrite E in E2. injection E2 as <-.
  destruct Hsame as (U & M & _ & _ & G & R & _). constructor; try (by rewrite ?U, ?M); [lia | rewrite G; lia | unfold params_ok; by rewrite G, R | | |].
  - split_and!; [done | cbn; lia | done].
  - exists una. rewrite Eh. split; [done | lia].
  - unfold sack_rescued. by rewrite Ef, btest_ldiff_same.
Qed.

Lemma ncr_ok tp una max bl : sack_inv tp una una max bl ->
  exists tp' , tcp_ncr_update_rxtthresh tcp_do_rfc6675 tp = Done tp' /\ sack_inv tp' una una max bl.
Proof.
  intros [Eu Em Ho Hw Hp Hrep Hh Hr]. pose proof Hp as (Hseg & Hthr & Hprod). unfold tcp_ncr_update_rxtthresh.
  rewrite (proj2 (Z.eqb_neq (t_maxseg tp) 0)) by lia. rewrite Eu, Em, u32_seq_diff, Z.shiftr_div_pow2 by lia. change (2 ^ 1) with 2.
  set (t := Z.max tcprexmtthresh ((max - una) / t_maxseg tp / 2)).
  assert (Hdiv : 0 <= (max - una) / t_maxseg tp / 2 /\ (max - una) / t_maxseg tp / 2 * t_maxseg tp <= max - una).
  { pose proof (Z.div_pos (max - una) (t_maxseg tp)). pose proof (Z.mul_div_le (max - una) (t_maxseg tp)).
    pose proof (Z.mul_div_le ((max - una) / t_maxseg tp) 2). pose proof (Z.div_pos ((max - una) / t_maxseg tp) 2). nia. }
  assert (Ht : 2 <= t /\ t * t_maxseg tp < 2 ^ 31 /\ t < 2 ^ 31) by (unfold t, tcprexmtthresh; nia).
  rewrite s32_id by (unfold is_s32; lia).
  assert (Hinv : forall s, scb_rep s una bl max -> sack_inv (set_scb (set_rxtthresh tp t) s) una una max bl).
  { intros s Hs. constructor; try done. unfold params_ok. cbn. split_and!; lia. }
  destruct (negb (t =? t_rxtthresh tp)).
  - destruct (update_lostseq_ok (scb tp) bl una max (t_maxseg tp) t Hrep) as (s' & lost & -> & Hrep' & _); [lia | lia | lia | lia |].
    rewrite bind_Done_l. eexists. split; [done |]. by apply Hinv.
  - eexists. split; [done |]. by apply (Hinv (scb tp)).
Qed.

Lemma sack_reachable_inv tp lo una max : reachable tp lo una max -> exists bl, sack_inv tp lo una max bl.
Proof.
  induction 1 as [tp iss Eu Em Eh Er Hp Es | tp lo una max n _ [bl I] Hn Hw | tp lo una max n _ [bl I] Hn Hu
                 | tp lo una max n blocks tp' red _ [bl I] Hn Hu Hopt E | tp una max cc tp' r rescue high _ [bl I] Eh Hh E
                 | tp lo una max z s' z' _ [bl I] Hz E | tp lo una max high _ [bl I] Hh | tp lo una max _ [bl I] | tp lo una max r _ [bl I] Hr
                 | tp lo una max tp' _ [bl I] E | tp una max tp' _ [bl I] E].
  - eexists. by apply sack_inv_start.
  - exists bl. destruct I as [I1 I2 I3 I4 I5 (I6a & I6b & I6c) (h & I7 & I7') I8]. constructor; try done; cbn; try lia; [| exists h; split; [done | lia] |].
    + split_and!; [done | eapply sorted_weaken; [done | lia | lia] | done].
    + intros Hx. destruct (I8 Hx) as (r & ? & ?). exists r. split; [done | lia].
  - exists bl. destruct I. constructor; try done; cbn; lia.
  - assert (I' : sack_inv (set_una tp (u32 (una + n))) lo (una + n) max bl) by (destruct I; constructor; try done; cbn; lia).
    destruct (update_ok _ _ _ _ _ _ I' Hopt) as (tp2 & red2 & bl' & lost & E2 & I2 & _). rewrite E in E2. injection E2 as <- <-. by exists bl'.
  - exists bl. destruct I as [I1 I2 I3 I4 I5 I6 I7 I8]. pose proof I5 as (Hseg & _).
    assert (Hr8 : exists resc, sack_rescued tp = true -> rexmt_rescue tp = u32 resc /\ una <= resc <= max).
    { destruct (sack_rescued tp); [destruct (I8 eq_refl) as (r8 & ?); by exists r8 | by exists 0]. }
    destruct Hr8 as (resc & Hr8).
    destruct (nextseg_ok tcp_do_rfc6675 tcp_do_rescuesack tcp_aggressive_rescuesack tcp_do_smartsack bl una max tp cc high resc)
      as (tp2 & r2 & rs2 & h2 & E2 & (Hsame & Ef & _) & Hrep2 & Eh2 & Hh2 & _); try done; [lia | lia |].
    rewrite E in E2. injection E2 as <- <- <-. destruct Hsame as (U & M & _ & _ & G & R & Q & _). unfold sack_rescued in *.
    constructor; rewrite ?U, ?M, ?G, ?Q; try done; [unfold params_ok; by rewrite G, R | exists h2; split; [done | lia] |].
    unfold sack_rescued. rewrite Ef. exact I8.
  - exists bl. destruct I as [I1 I2 I3 I4 I5 I6 I7 I8]. pose proof I5 as (Hseg & _).
    destruct (skip_sacked_ok (scb tp) bl lo max z I6 ltac:(lia)) as (s2 & z2 & E2 & Hrep2 & _). rewrite E in E2. injection E2 as <- _. by constructor.
  - exists bl. destruct I. constructor; try done. cbn. exists high. split; [done | lia].
  - exists bl. destruct I. constructor; try done. cbn. exists (una - 1). split; [done | lia].
  - exists bl. destruct I. constructor; try done. cbn. intros _. exists r. split; [done | lia].
  - exists []. by eapply inv_discard.
  - exists bl. destruct (ncr_ok tp una max bl I) as (tp2 & E2 & I2). rewrite E in E2. by injection E2 as <-.
Qed.

(** ** Results *)

(** C2: an acknowledgement with SACK blocks none of which starts above snd_max does to
    the scoreboard what it should.  The bytes it covers are the old ones from snd_una on,
    none of them if the receiver went back on its reports (the byte snd_una was
    reported), and those of the blocks that were accepted; all blocks that were accepted
    are in it, unless the scoreboard is full or a kmalloc of this call failed.  Blocks that
    start at or below snd_una are left out, and a block that ends above snd_max ends the
    option.  An option that is said to be redundant reports nothing new; and
    tcp_sack_islost says of a byte that was not reported whether enough was received above
    it. *)
Theorem sack_update_correct tp lo una max bl blocks : sack_inv tp lo una max bl -> option_ok max blocks ->
  let new := accepted una max (sack_blocks una blocks) in
  exists tp' redundant bl' n, update tp blocks = Done (tp', redundant) /\ sack_inv tp' una una max bl' /\
    (forall z, covers bl' z <-> (covers bl z /\ una <= z /\ ~ covers bl una) \/ reported (take n new) z) /\
    ((n = length new)%nat \/ zlen bl' = MAXSAVEDBLOCKS \/ exists m, (scb_next (scb tp) <= m < scb_next (scb tp'))%nat /\ kmalloc_ok m = false) /\
    (redundant = true -> forall z, reported new z -> covers bl z) /\
    (forall z, una <= z <= max -> ~ covers bl' z ->
       tcp_sack_islost (scb tp') (u32 z) = true <-> is_lost (t_rxtthresh tp) (thresh_bytes tp) bl' z).
Proof.
  intros I Hopt new. destruct (update_ok _ _ _ _ _ _ I Hopt) as (tp' & red & bl' & lost & E & I' & _ & (n & Hn1 & Hn2 & Hn3 & _) & El & Hl & _).
  pose proof I as [_ _ Ho Hw (Hseg & Hthr & Hprod) (_ & Hs & _) _ _]. pose proof I' as [_ _ _ Hw' _ (Hm' & Hs' & _) _ _].
  pose proof (acked_spec lo max una ltac:(lia) bl lo Hs) as Hack.
  exists tp', red, bl', n. split; [done |]. split; [done |]. split; [intros z; rewrite Hn1, Hack; tauto |]. split; [done |]. split.
  - intros Hr z Hz. destruct (Hn3 Hr) as (_ & -> & ->). rewrite firstn_all in Hn1. assert (Hc : covers (acked una bl) z) by (apply Hn1; by right).
    apply Hack in Hc. tauto.
  - intros z Hz Hnc. assert (Htb : 0 < thresh_bytes tp) by (unfold thresh_bytes; destruct tcp_do_rfc6675; nia).
    destruct (lost_at_spec (scb tp') una max (t_rxtthresh tp) (thresh_bytes tp) bl' Hm' Hs' lost Hl) as (Hrange & _ & Hspec).
    unfold tcp_sack_islost. rewrite El, SEQ_LT_near, Z.ltb_lt by (unfold near; lia). apply Hspec; [lia | done].
Qed.

(** The heap of a scoreboard holds its blocks and the cached one. *)
Lemma first_unsacked_ok tp una max bl : sack_inv tp una una max bl ->
  exists n, tcp_sack_first_unsacked_len tp = Done n /\ 0 < n /\ forall z, una <= z < una + n -> ~ covers bl z.
Proof.
  intros [Eu _ Ho Hw (Hseg & _) (Hm & Hs & _) _ _]. unfold tcp_sack_first_unsacked_len. rewrite (mem_ids _ _ Hm).
  destruct bl as [| [i [a b]] bl]; cbn [fmap list_fmap fst].
  - eexists. split; [done |]. split; [lia |]. intros z _. rewrite covers_nil. tauto.
  - rewrite (mem_deref_mid _ [] i a b bl Hm), bind_Done_l, Eu. cbn [sblk_start]. destruct Hs as (S1 & S2 & S3). pose proof (sorted_le _ _ _ S3).
    rewrite SEQ_LT_near by (unfold near; lia). destruct (Z.ltb_spec una a); [| lia]. unfold KKASSERT. rewrite bind_Done_l, u32_seq_diff by lia.
    eexists. split; [done |]. split; [lia |]. intros z Hz. rewrite covers_cons. intros [? | Hc]; [lia |]. apply (sorted_covers _ _ _ _ S3) in Hc. lia.
Qed.

(** C18: however acknowledgements with SACK options without a block that starts above
    snd_max, transmissions, timeouts and failures of kmalloc follow each other, no
    operation on the scoreboard fails an assertion, follows a null pointer, uses a freed
    block or does not end; there are never more than eight blocks; and when the connection
    goes, all the memory is given back. *)
Theorem sack_safe tp lo una max : reachable tp lo una max ->
  (forall n blocks, 0 <= n -> una + n <= max -> option_ok max blocks ->
     exists tp' redundant k, update (set_una tp (u32 (una + n))) blocks = Done (tp', redundant) /\ tcp_sack_first_unsacked_len tp' = Done k) /\
  (forall z, una <= z <= max -> exists r, tcp_sack_skip_sacked (scb tp) (u32 z) = Done r) /\
  (exists tp', tcp_sack_discard tp = Done tp') /\
  nblocks (scb tp) <= MAXSAVEDBLOCKS /\
  (exists s, tcp_sack_destroy (scb tp) = Done s /\ scb_heap s = ∅).
Proof.
  intros [bl I]%sack_reachable_inv. pose proof I as [_ _ Ho Hw (Hseg & _) (Hm & Hs & Hn) _ _]. split_and!.
  - intros n blocks Hn0 Hu Hopt.
    assert (I' : sack_inv (set_una tp (u32 (una + n))) lo (una + n) max bl) by (destruct I; constructor; try done; cbn; lia).
    destruct (update_ok _ _ _ _ _ _ I' Hopt) as (tp2 & red2 & bl' & lost & E2 & I2 & _).
    destruct (first_unsacked_ok _ _ _ _ I2) as (k & Ek & _). by exists tp2, red2, k.
  - intros z Hz. destruct (skip_sacked_ok (scb tp) bl lo max z ltac:(done) ltac:(lia)) as (s2 & z2 & E2 & _). eauto.
  - destruct (discard_ok tp bl Hm) as (tp' & E & _). eauto.
  - by rewrite (mem_count _ _ Hm).
  - destruct (sack_destroy_ok _ _ Hm) as (s & E & _ & _ & Eh). eauto.
Qed.

(** C24: the choice of the next segment.  tcp_sack_nextseg moves rexmt_high to the first
    byte [z] from it on that was not reported, and chooses: the segment at [z], if data
    above [z] was reported and [z] is lost or no new data can be sent; else new data from
    snd_max on, if the send buffer and the windows hold some; else a segment to rescue the
    connection, if that is enabled, at [z], or behind the last one that was sent so; else
    nothing.  A segment that is sent again starts with a byte that was not reported and has
    t_maxseg bytes, or ends where the block begins that holds the byte t_maxseg behind its
    start (blocks between are sent over). *)
Theorem sack_nextseg_correct tp una max cc high : reachable tp una una max -> rexmt_high tp = u32 high -> una <= high <= max ->
  exists bl tp' r rescue z, nextseg tp cc = Done (tp', r, rescue) /\ scb_rep (scb tp) una bl max /\ scb_rep (scb tp') una bl max /\
    rexmt_high tp' = u32 z /\ skipped bl high z /\
    nextseg_result tcp_do_rfc6675 tcp_do_rescuesack tcp_aggressive_rescuesack tcp_do_smartsack bl una max tp cc z r rescue.
Proof.
  intros [bl I]%sack_reachable_inv Eh Hh. destruct I as [I1 I2 I3 I4 I5 I6 I7 I8]. pose proof I5 as (Hseg & _).
  assert (Hr8 : exists resc, sack_rescued tp = true -> rexmt_rescue tp = u32 resc /\ una <= resc <= max).
  { destruct (sack_rescued tp); [destruct (I8 eq_refl) as (r8 & ?); by exists r8 | by exists 0]. }
  destruct Hr8 as (resc & Hr8).
  destruct (nextseg_ok tcp_do_rfc6675 tcp_do_rescuesack tcp_aggressive_rescuesack tcp_do_smartsack bl una max tp cc high resc)
    as (tp2 & r2 & rs2 & h2 & E2 & _ & Hrep2 & Eh2 & _ & Hsk & Hr2); try done; [lia | lia |].
  exists bl, tp2, r2, rs2, h2. by split_and!.
Qed.

(** C25: with rexmt_high at or above snd_una, as it is outside of limited transmit,
    tcp_sack_compute_pipe is the estimate of RFC 3517: the bytes that are neither
    acknowledged nor lost, and once more the bytes that were sent again and are not
    acknowledged. *)
Theorem sack_pipe_correct tp lo una max bl blocks tp' redundant high :
  sack_inv tp lo una max bl -> option_ok max blocks -> update tp blocks = Done (tp', redundant) -> una <= high <= max ->
  exists bl', scb_rep (scb tp') una bl' max /\
    tcp_sack_compute_pipe (set_rexmt_high tp' (u32 high)) =
      Done (cnt (fun z => negb (sacked bl' z) && negb (tcp_sack_islost (scb tp') (u32 z))) una (max - una) +
            cnt (fun z => negb (sacked bl' z)) una (high - una)).
Proof.
  intros I Hopt E Hh. destruct (update_ok _ _ _ _ _ _ I Hopt) as (tp2 & red & bl' & lost & E2 & I' & _ & _ & El & Hl & _). rewrite E in E2. injection E2 as <- <-.
  pose proof I as [_ _ Ho Hw (Hseg & Hthr & Hprod) _ _ _]. pose proof I' as [Eu' Em' _ Hw' _ Hrep' _ _]. pose proof Hrep' as (Hm' & Hs' & _).
  assert (Htb : 0 < thresh_bytes tp) by (unfold thresh_bytes; destruct tcp_do_rfc6675; nia).
  destruct (lost_at_spec (scb tp') una max (t_rxtthresh tp) (thresh_bytes tp) bl' Hm' Hs' lost Hl) as (Hrange & Hsplit & _).
  exists bl'. split; [done |]. rewrite (compute_pipe_ok (set_rexmt_high tp' (u32 high)) bl' una max lost high) by (first [done | lia]).
  assert (Ec : cnt (fun z => negb (sacked bl' z) && negb (tcp_sack_islost (scb tp') (u32 z))) una (max - una) =
               cnt (fun z => negb (sacked bl' z)) lost (max - lost)).
  { replace (max - una) with ((lost - una) + (max - lost)) by lia. rewrite cnt_split by lia.
    assert (Hlost : forall z, una <= z <= max -> tcp_sack_islost (scb tp') (u32 z) = (z <? lost)) by (intros z Hz; unfold tcp_sack_islost; rewrite El; apply SEQ_LT_near; unfold near; lia).
    rewrite (proj2 (cnt_none _ una (lost - una) ltac:(lia))); [rewrite Z.add_0_l; replace (una + (lost - una)) with lost by lia |].
    - apply cnt_ext. intros z Hz. rewrite Hlost by lia. destruct (Z.ltb_spec z lost); [lia |]. by rewrite andb_true_r.
    - intros z Hz. rewrite Hlost by lia. destruct (Z.ltb_spec z lost); [| lia]. by rewrite andb_false_r. }
  rewrite Ec. f_equal. apply u32_id. pose proof (cnt_bounds (fun z => negb (sacked bl' z)) lost (max - lost) ltac:(lia)).
  pose proof (cnt_bounds (fun z => negb (sacked bl' z)) una (high - una) ltac:(lia)). unfold is_u32. lia.
Qed.
End Props.

(** ** Examples *)

Module Witness.

(** A connection with 8000 bytes outstanding, and an option with two blocks. *)
Definition tp0 : tcpcb :=
  Tcpcb 1000 9000 65535 65535 1460 3 1000 0 0 tcp_sack_tcpcb_init 0 (RawSackblock 0 0) (RawSackblock 0 0) 0 [].
Definition blocks0 : list raw_sackblock := [RawSackblock 2000 2100; RawSackblock 3000 3100].

Lemma params0 : params_ok tp0.
Proof. unfold params_ok. cbn. lia. Qed.

Lemma tp0_inv : sack_inv tp0 1000 1000 9000 [].
Proof.
  constructor; try done; cbn; try lia; [| exists 1000; split; [done | lia]].
  split_and!; [| cbn; lia | done]. destruct (sack_inv_start (set_max tp0 1000) 1000) as [_ _ _ _ _ (Hm & _) _ _]; done.
Qed.

Lemma blocks0_ok : option_ok 9000 blocks0.
Proof. split; (repeat (apply Forall_cons_2; [done |])); apply Forall_nil_2. Qed.

Lemma tp0_reachable : reachable (fun _ => true) false false false false tp0 1000 1000 9000.
Proof.
  assert (Hp := params0).
  apply (r_send _ _ _ _ _ (set_max tp0 1000) 1000 1000 1000 8000); [| lia | cbn; lia].
  by apply (r_start _ _ _ _ _ (set_max tp0 1000) 1000).
Qed.

Lemma sack_update_correct_witness :
  let new := accepted 1000 9000 (sack_blocks 1000 blocks0) in
  new = [(2000, 2100); (3000, 3100)] /\
  exists tp' redundant bl' n, tcp_sack_update_scoreboard (fun _ => true) false false tp0 blocks0 = Done (tp', redundant) /\
    sack_inv tp' 1000 1000 9000 bl' /\
    (forall z, covers bl' z <-> (covers [] z /\ 1000 <= z /\ ~ covers [] 1000) \/ reported (take n new) z) /\
    ((n = length new)%nat \/ zlen bl' = MAXSAVEDBLOCKS \/ exists m : nat, (scb_next (scb tp0) <= m < scb_next (scb tp'))%nat /\ true = false) /\
    (redundant = true -> forall z, reported new z -> covers [] z) /\
    (forall z, 1000 <= z <= 9000 -> ~ covers bl' z ->
       tcp_sack_islost (scb tp') (u32 z) = true <-> is_lost 3 (thresh_bytes false tp0) bl' z).
Proof.
  split; [done |]. exact (sack_update_correct (fun _ => true) false false tp0 1000 1000 9000 [] blocks0 tp0_inv blocks0_ok).
Defined.

Lemma sack_safe_witness :
  (forall n blocks, 0 <= n -> 1000 + n <= 9000 -> option_ok 9000 blocks ->
     exists tp' redundant k, tcp_sack_update_scoreboard (fun _ => true) false false (set_una tp0 (u32 (1000 + n))) blocks = Done (tp', redundant) /\
       tcp_sack_first_unsacked_len tp' = Done k) /\
  (forall z, 1000 <= z <= 9000 -> exists r, tcp_sack_skip_sacked (scb tp0) (u32 z) = Done r) /\
  (exists tp', tcp_sack_discard tp0 = Done tp') /\
  0 <= MAXSAVEDBLOCKS /\
  (exists s, tcp_sack_destroy (scb tp0) = Done s /\ scb_heap s = ∅).
Proof. exact (sack_safe (fun _ => true) false false false false tp0 1000 1000 9000 tp0_reachable). Defined.

Lemma sack_nextseg_correct_witness :
  exists bl tp' r rescue high', tcp_sack_nextseg false false false false tp0 8000 = Done (tp', r, rescue) /\
    scb_rep (scb tp0) 1000 bl 9000 /\ scb_rep (scb tp') 1000 bl 9000 /\
    rexmt_high tp' = u32 high' /\ skipped bl 1000 high' /\ nextseg_result false false false false bl 1000 9000 tp0 8000 high' r rescue.
Proof.
  apply (sack_nextseg_correct (fun _ => true) false false false false tp0 1000 9000 8000 1000 tp0_reachable); [done | lia].
Defined.

(** The tcpcb after the option. *)
Definition tp1 : tcpcb :=
  match tcp_sack_update_scoreboard (fun _ => true) false false tp0 blocks0 with Done (tp, _) => tp | _ => tp0 end.

Lemma sack_pipe_correct_witness :
  exists bl', scb_rep (scb tp1) 1000 bl' 9000 /\
    tcp_sack_compute_pipe (set_rexmt_high tp1 (u32 1500)) =
      Done (cnt (fun z => negb (sacked bl' z) && negb (tcp_sack_islost (scb tp1) (u32 z))) 1000 8000 +
            cnt (fun z => negb (sacked bl' z)) 1000 500).
Proof.
  apply (sack_pipe_correct (fun _ => true) false false tp0 1000 1000 9000 [] blocks0 tp1 false 1500 tp0_inv blocks0_ok); [by vm_compute | lia].
Defined.
End Witness.

(** ** Where the code goes wrong *)

(** tcp_sack_add_blocks compares the start of a block with snd_una and its end with
    snd_max, which lets a block through that reaches around the sequence space: it
    starts far above snd_max and ends below snd_una.  tcp_dooptions lets it through too.
    In a search that starts at the front with such a block as the hint, the end of the
    list is not noticed: four blocks in one option from the peer, and the kernel follows
    a null pointer. *)
Definition evil_blocks : list raw_sackblock :=
  [RawSackblock (1000 + 2 ^ 31 - 1) 998; RawSackblock (1000 + 2 ^ 31) (1001 + 2 ^ 31);
   RawSackblock 2000 2100; RawSackblock 3000 3100].

Theorem sack_remote_null_dereference :
  Forall option_block evil_blocks /\
  tcp_sack_update_scoreboard (fun _ => true) false false Witness.tp0 evil_blocks = Fault NullDeref.
Proof. split; [| by vm_compute]. repeat (apply Forall_cons_2; [done |]). apply Forall_nil_2. Qed.

(** rexmt_high is the number behind the last byte that was sent again; limited transmit
    sets it to snd_una - 1, and the pipe is one byte too small. *)
Theorem sack_limited_pipe_short :
  tcp_sack_compute_pipe (set_scb Witness.tp0 (set_lostseq tcp_sack_tcpcb_init 1000)) = Done 8000 /\
  tcp_sack_compute_pipe (set_rexmt_high (set_scb Witness.tp0 (set_lostseq tcp_sack_tcpcb_init 1000)) 999) = Done 7999.
Proof. by vm_compute. Qed.

(** A segment that is sent again can have data in it that was reported: only the block
    at its end is looked for. *)
Theorem sack_segment_over_block :
  match tcp_sack_update_scoreboard (fun _ => true) false false Witness.tp0 [RawSackblock 1100 1200; RawSackblock 8000 9000] with
  | Done (tp, _) => tcp_sack_nextseg false false false false tp 0 ≫= fun r => mret r.1.2
  | Fault f => Fault f
  end = Done (Some (1000, 1460)).
Proof. by vm_compute. Qed.
