(* ===== verification/Sackrep.v ===== *)
(** * SACK options: sys/netinet/tcp_sack.c, the side of the receiver, and
    tcp_dooptions of sys/netinet/tcp_input.c

    The receiver of data reports the segment that has just come in, what encloses it,
    and the blocks that it reported last, in a TCP option; the sender's tcp_dooptions
    reads the options of a segment.  The space for options is an array of bytes; a
    pointer into it is an index.  The option TCP_SIGNATURE of the kernel is off. *)

From stdpp Require Import prelude list strings gmap.
From S2P Require Import Prelude.
From S2P Require Import Seq.
From S2P Require Import Sack.
Open Scope Z_scope.

(** ** Constants: sys/netinet/tcp.h *)

Definition TH_FIN : Z := 0x01.
Definition TCPOPT_EOL : Z := 0.
Definition TCPOPT_NOP : Z := 1.
Definition TCPOPT_2NOPs : Z := Z.lor (Z.shiftl TCPOPT_NOP 24) (Z.shiftl TCPOPT_NOP 16).
Definition TCPOPT_MAXSEG : Z := 2.
Definition TCPOLEN_MAXSEG : Z := 4.
Definition TCPOPT_WINDOW : Z := 3.
Definition TCPOLEN_WINDOW : Z := 3.
Definition TCPOPT_SACK_PERMITTED : Z := 4.
Definition TCPOLEN_SACK_PERMITTED : Z := 2.
Definition TCPOPT_SACK : Z := 5.
Definition TCPOLEN_SACK : Z := 2.
Definition TCPOLEN_SACK_BLOCK : Z := 8.
Definition TCPOPT_SACK_ALIGNED : Z := Z.lor TCPOPT_2NOPs (Z.shiftl TCPOPT_SACK 8).
Definition TCPOLEN_SACK_ALIGNED : Z := 4.
Definition TCPOPT_TIMESTAMP : Z := 8.
Definition TCPOLEN_TIMESTAMP : Z := 10.
Definition TCPOLEN_TSTAMP_APPA : Z := TCPOLEN_TIMESTAMP + 2.
Definition TCPOPT_TSTAMP_HDR : Z := Z.lor (Z.lor TCPOPT_2NOPs (Z.shiftl TCPOPT_TIMESTAMP 8)) TCPOLEN_TIMESTAMP.
Definition TCP_MAX_WINSHIFT : Z := 14.
Definition TCP_MAXOLEN : Z := Z.shiftl 0xf 2 - 20.
Definition MAX_SACK_REPORT_BLOCKS : Z := 4.

(** TCP_SACK_BLKEND *)
Definition TCP_SACK_BLKEND (len thflags : Z) : Z := u32 (len + Z.b2z (btest thflags TH_FIN)).

(** TCP_MAXOLEN - optlen, of type u_int *)
Definition room (optlen : Z) : Z := u32 (TCP_MAXOLEN - optlen).

(** ** Words in network order *)

(** *lp = htonl(v) at the index [i], and ntohl of the word at [i] *)
Definition put32 (m : list Z) (i v : Z) : outcome (list Z) :=
  m ← aput m i (Z.shiftr (u32 v) 24);
  m ← aput m (i + 1) (u8 (Z.shiftr (u32 v) 16));
  m ← aput m (i + 2) (u8 (Z.shiftr (u32 v) 8));
  aput m (i + 3) (u8 v).

Definition get16 (m : list Z) (i : Z) : outcome Z :=
  a ← aget m i; b ← aget m (i + 1); mret (a * 2 ^ 8 + b).

Definition get32 (m : list Z) (i : Z) : outcome Z :=
  a ← get16 m i; b ← get16 m (i + 2); mret (a * 2 ^ 16 + b).

(** ** The history of reported blocks *)

Definition tcp_sack_report_cleanup (tp : tcpcb) : tcpcb :=
  let tp := set_sack_flags tp (Z.ldiff (sack_flags tp) (Z.lor (Z.lor TSACK_F_DUPSEG TSACK_F_ENCLOSESEG) TSACK_F_SACKLEFT)) in
  set_reportblk tp (RawSackblock (rblk_end (reportblk tp)) (rblk_end (reportblk tp))).

Definition tcp_sack_report_needed (tp : tcpcb) : bool :=
  btest (sack_flags tp) (Z.lor (Z.lor TSACK_F_DUPSEG TSACK_F_ENCLOSESEG) TSACK_F_SACKLEFT) ||
  negb (rblk_start (reportblk tp) =? rblk_end (reportblk tp)).

(** for (i = openslot = 0; i < nblocks; ++i) ...; [k] rounds are left: the history,
    nsackhistory and openslot *)
Fixpoint ack_history_loop (k : nat) (h : list raw_sackblock) (rcv_nxt i openslot n : Z) : outcome (list raw_sackblock * Z * Z) :=
  match k with
  | O => mret (h, n, openslot)
  | S k =>
      b ← aget h i;
      if SEQ_LEQ (rblk_end b) rcv_nxt then ack_history_loop k h rcv_nxt (i + 1) openslot (n - 1)
      else
        h ← (if SEQ_LT (rblk_start b) rcv_nxt then aput h i (RawSackblock rcv_nxt (rblk_end b)) else mret h);
        if i =? openslot then ack_history_loop k h rcv_nxt (i + 1) (openslot + 1) n
        else
          b ← aget h i;
          h ← aput h openslot b;
          ack_history_loop k h rcv_nxt (i + 1) (openslot + 1) n
  end.

Definition tcp_sack_ack_history (tp : tcpcb) : outcome tcpcb :=
  '(h, n, openslot) ← ack_history_loop (Z.to_nat (nsackhistory tp)) (sackhistory tp) (rcv_nxt tp) 0 0 (nsackhistory tp);
  _ ← KKASSERT "tcp_sack_ack_history miscounted" (openslot =? n);
  mret (set_history tp n h).

(** copy[cindex++] = sackhistory[j] for the rest of the history *)
Fixpoint copy_rest (k : nat) (h copy : list raw_sackblock) (j cindex : Z) : outcome (list raw_sackblock * Z) :=
  match k with
  | O => mret (copy, cindex)
  | S k => b ← aget h j; copy ← aput copy cindex b; copy_rest k h copy (j + 1) (cindex + 1)
  end.

(** for (i = cindex = 0; i < tp->nsackhistory; ++i) ...: copy, cindex, start and end *)
Fixpoint reported_loop (k : nat) (h copy : list raw_sackblock) (i cindex start end_ : Z) :
    outcome (list raw_sackblock * Z * Z * Z) :=
  match k with
  | O => mret (copy, cindex, start, end_)
  | S k =>
      oldblock ← aget h i;
      let old_start := rblk_start oldblock in
      let old_end := rblk_end oldblock in
      if SEQ_LT end_ old_start || SEQ_GT start old_end then
        (* case 0 *)
        copy ← aput copy cindex oldblock;
        reported_loop k h copy (i + 1) (cindex + 1) start end_
      else if SEQ_GEQ start old_start && SEQ_LEQ end_ old_end then
        (* cases 1 and 2 *)
        '(copy, cindex) ← copy_rest k h copy (i + 1) cindex;
        mret (copy, cindex, old_start, old_end)
      else if SEQ_GEQ old_end start && SEQ_LT old_start start then
        (* case 4 *)
        reported_loop k h copy (i + 1) cindex old_start end_
      else if SEQ_GEQ end_ old_start && SEQ_GT old_end end_ then
        (* case 5 *)
        reported_loop k h copy (i + 1) cindex start old_end
      else
        (* case 3 *)
        _ ← KKASSERT "bad logic" (SEQ_LEQ start old_start && SEQ_GEQ end_ old_end);
        reported_loop k h copy (i + 1) cindex start end_
  end.

(** for (i = 0; i < cindex; ++i) tp->sackhistory[i + 1] = copy[i]; *)
Fixpoint copy_back (k : nat) (h copy : list raw_sackblock) (i : Z) : outcome (list raw_sackblock) :=
  match k with
  | O => mret h
  | S k => b ← aget copy i; h ← aput h (i + 1) b; copy_back k h copy (i + 1)
  end.

(** The array copy is not initialised. *)
Definition tcp_sack_update_reported_history (tp : tcpcb) (start end_ : Z) : outcome tcpcb :=
  let copy := replicate (Z.to_nat MAX_SACK_REPORT_BLOCKS) (RawSackblock 0 0) in
  '(copy, cindex, start, end_) ← reported_loop (Z.to_nat (nsackhistory tp)) (sackhistory tp) copy 0 0 start end_;
  h ← aput (sackhistory tp) 0 (RawSackblock start end_);
  let cindex := Z.min cindex (MAX_SACK_REPORT_BLOCKS - 1) in
  h ← copy_back (Z.to_nat cindex) h copy 0;
  mret (set_history tp (cindex + 1) h).

(** ** The option *)

(** *lp++ = htonl(start); *lp++ = htonl(end); optlen += TCPOLEN_SACK_BLOCK; [optlen] is
    also the index of lp *)
Definition put_block (opt : list Z) (optlen : Z) (b : raw_sackblock) : outcome (list Z * Z) :=
  opt ← put32 opt optlen (rblk_start b);
  opt ← put32 opt (optlen + 4) (rblk_end b);
  mret (opt, optlen + TCPOLEN_SACK_BLOCK).

(** An entry of the reassembly queue: th_seq and th_flags of its header, tqe_len, and
    the contents of the mbuf chain tqe_m. *)
Record tseg_qent := TsegQent { q_seq : Z; q_len : Z; q_flags : Z; q_m : list Z }.

(** while (q != NULL && TCP_MAXOLEN - optlen >= TCPOLEN_SACK_BLOCK) ... *)
Fixpoint fill_left (q : list tseg_qent) (opt : list Z) (optlen : Z) : outcome (list Z * Z) :=
  match q with
  | [] => mret (opt, optlen)
  | e :: q =>
      if room optlen >=? TCPOLEN_SACK_BLOCK then
        '(opt, optlen) ← put_block opt optlen (RawSackblock (q_seq e) (TCP_SACK_BLKEND (q_seq e + q_len e) (q_flags e)));
        fill_left q opt optlen
      else mret (opt, optlen)
  end.

(** while (n < tp->nsackhistory && TCP_MAXOLEN - optlen >= TCPOLEN_SACK_BLOCK) ... *)
Fixpoint fill_right (k : nat) (h : list raw_sackblock) (hstart n : Z) (opt : list Z) (optlen : Z) : outcome (list Z * Z) :=
  match k with
  | O => mret (opt, optlen)
  | S k =>
      if room optlen >=? TCPOLEN_SACK_BLOCK then
        b ← aget h n;
        '(opt, optlen) ← (if negb (rblk_start b =? hstart) then put_block opt optlen b else mret (opt, optlen));
        fill_right k h hstart (n + 1) opt optlen
      else mret (opt, optlen)
  end.

Section Report.
Context (tcp_do_smartsack : bool).

(** The blocks for the incoming segment: the tcpcb, opt, optlen and hstart. *)
Definition fill_segment (tp : tcpcb) (opt : list Z) (optlen : Z) : outcome (tcpcb * list Z * Z * Z) :=
  let hstart := rcv_nxt tp in
  if negb (rblk_start (reportblk tp) =? rblk_end (reportblk tp)) then
    '(opt, optlen) ← put_block opt optlen (reportblk tp);
    '(opt, optlen, b) ←
      (if btest (sack_flags tp) TSACK_F_ENCLOSESEG then
         _ ← KKASSERT "no room for enclosing SACK block" (room optlen >=? TCPOLEN_SACK_BLOCK);
         '(opt, optlen) ← put_block opt optlen (encloseblk tp);
         mret (opt, optlen, encloseblk tp)
       else mret (opt, optlen, reportblk tp));
    tp ← (if SEQ_GT (rblk_start b) (rcv_nxt tp)
          then tcp_sack_update_reported_history tp (rblk_start b) (rblk_end b) else mret tp);
    mret (tp, opt, optlen, rblk_start b)
  else mret (tp, opt, optlen, hstart).

(** The tcpcb, the options and *plen; [segq] is the reassembly queue. *)
Definition tcp_sack_fill_report (tp : tcpcb) (segq : list tseg_qent) (opt : list Z) (plen : Z) : outcome (tcpcb * list Z * Z) :=
  _ ← KKASSERT "no room for SACK header and one block" (room plen >=? TCPOLEN_SACK_ALIGNED + TCPOLEN_SACK_BLOCK);
  tp ← tcp_sack_ack_history tp;
  '(tp, opt, optlen, hstart) ← fill_segment tp opt (plen + TCPOLEN_SACK_ALIGNED);
  '(opt, optlen) ←
    (if tcp_do_smartsack && btest (sack_flags tp) TSACK_F_SACKLEFT
     then fill_left segq opt optlen
     else fill_right (Z.to_nat (nsackhistory tp)) (sackhistory tp) hstart 0 opt optlen);
  let tp := tcp_sack_report_cleanup tp in
  let nblocks := (optlen - plen - 4) / 4 / 2 in
  opt ← put32 opt plen (Z.lor TCPOPT_SACK_ALIGNED (TCPOLEN_SACK + nblocks * TCPOLEN_SACK_BLOCK));
  mret (tp, opt, optlen).
End Report.

(** ** The timestamp option: tcp_output *)

Definition put_tstamp (opt : list Z) (optlen ticks ts_recent : Z) : outcome (list Z * Z) :=
  opt ← put32 opt optlen TCPOPT_TSTAMP_HDR;
  opt ← put32 opt (optlen + 4) ticks;
  opt ← put32 opt (optlen + 8) ts_recent;
  mret (opt, optlen + TCPOLEN_TSTAMP_APPA).

(** ** Reading the options *)

Definition TOF_TS : Z := 0x0001.
Definition TOF_MSS : Z := 0x0010.
Definition TOF_SCALE : Z := 0x0020.
Definition TOF_SACK_PERMITTED : Z := 0x0040.
Definition TOF_SACK : Z := 0x0080.
Definition TOF_DSACK : Z := 0x0400.

Record tcpopt := Tcpopt {
  to_flags : Z;
  to_tsval : Z; to_tsecr : Z;
  to_mss : Z;
  to_requested_s_scale : Z;
  to_sackblocks : list raw_sackblock
}.

Definition to_set (to : tcpopt) (f : Z) : tcpopt :=
  Tcpopt (Z.lor (to_flags to) f) (to_tsval to) (to_tsecr to) (to_mss to) (to_requested_s_scale to) (to_sackblocks to).

(** for (i = 0; i < to->to_nsackblocks; i++) ...: the blocks, or none if one is invalid *)
Fixpoint sack_option (k : nat) (m : list Z) (cp : Z) : outcome (option (list raw_sackblock)) :=
  match k with
  | O => mret (Some [])
  | S k =>
      s ← get32 m cp;
      e ← get32 m (cp + 4);
      if SEQ_LEQ e s then mret None
      else
        r ← sack_option k m (cp + 8);
        mret (match r with Some l => Some (RawSackblock s e :: l) | None => None end)
  end.

Section Options.
Context (is_syn : bool) (ack ticks : Z).

(** switch (opt) ... *)
Definition do_option (m : list Z) (cp opt optlen : Z) (to : tcpopt) : outcome tcpopt :=
  if opt =? TCPOPT_MAXSEG then
    if negb (optlen =? TCPOLEN_MAXSEG) then mret to
    else if negb is_syn then mret to
    else
      mss ← get16 m (cp + 2);
      mret (Tcpopt (Z.lor (to_flags to) TOF_MSS) (to_tsval to) (to_tsecr to) mss (to_requested_s_scale to) (to_sackblocks to))
  else if opt =? TCPOPT_WINDOW then
    if negb (optlen =? TCPOLEN_WINDOW) then mret to
    else if negb is_syn then mret to
    else
      s ← aget m (cp + 2);
      mret (Tcpopt (Z.lor (to_flags to) TOF_SCALE) (to_tsval to) (to_tsecr to) (to_mss to) (Z.min s TCP_MAX_WINSHIFT) (to_sackblocks to))
  else if opt =? TCPOPT_TIMESTAMP then
    if negb (optlen =? TCPOLEN_TIMESTAMP) then mret to
    else
      tsval ← get32 m (cp + 2);
      tsecr ← get32 m (cp + 6);
      let tsecr := if negb (tsecr =? 0) && SEQ_GT tsecr ticks then 0 else tsecr in
      mret (Tcpopt (Z.lor (to_flags to) TOF_TS) tsval tsecr (to_mss to) (to_requested_s_scale to) (to_sackblocks to))
  else if opt =? TCPOPT_SACK_PERMITTED then
    if negb (optlen =? TCPOLEN_SACK_PERMITTED) then mret to
    else if negb is_syn then mret to
    else mret (to_set to TOF_SACK_PERMITTED)
  else if opt =? TCPOPT_SACK then
    if negb (Z.land (optlen - 2) 0x07 =? 0) then mret to
    else
      r ← sack_option (Z.to_nat ((optlen - 2) / 8)) m (cp + 2);
      match r with
      | None => mret (Tcpopt (Z.ldiff (Z.lor (to_flags to) TOF_SACK) TOF_SACK) (to_tsval to) (to_tsecr to) (to_mss to) (to_requested_s_scale to) [])
      | Some l =>
          let f := Z.lor (to_flags to) TOF_SACK in
          let f := if negb (tcp_sack_ndsack_blocks l ack =? 0) then Z.lor f TOF_DSACK else f in
          mret (Tcpopt f (to_tsval to) (to_tsecr to) (to_mss to) (to_requested_s_scale to) l)
      end
  else mret to.

(** for (; cnt > 0; cnt -= optlen, cp += optlen) ... *)
Fixpoint dooptions_loop (fuel : nat) (m : list Z) (cp cnt : Z) (to : tcpopt) : outcome tcpopt :=
  if cnt >? 0 then
    match fuel with
    | O => Fault OutOfFuel
    | S fuel =>
        opt ← aget m cp;
        if opt =? TCPOPT_EOL then mret to
        else if opt =? TCPOPT_NOP then dooptions_loop fuel m (cp + 1) (cnt - 1) to
        else if cnt <? 2 then mret to
        else
          optlen ← aget m (cp + 1);
          if (optlen <? 2) || (optlen >? cnt) then mret to
          else
            to ← do_option m cp opt optlen to;
            dooptions_loop fuel m (cp + optlen) (cnt - optlen) to
    end
  else mret to.

(** The options [cp, cp + cnt) of [m]; the fields of the tcpopt are not initialised but
    for to_flags, which says which of them are set. *)
Definition tcp_dooptions (m : list Z) (cp cnt : Z) : outcome tcpopt :=
  dooptions_loop (Z.to_nat cnt) m cp cnt (Tcpopt 0 0 0 0 0 []).
End Options.
