(* ===== verification/SackrepHist.v ===== *)
(** * SACK options: words, and the history of reported blocks *)

From stdpp Require Import prelude list strings gmap.
From S2P Require Import Prelude.
From S2P Require Import Seq.
From S2P Require Import Sack.
From S2P Require Import Sackrep.
Open Scope Z_scope.

(** ** Words *)

Definition bytes32 (v : Z) : list Z := [Z.shiftr (u32 v) 24; u8 (Z.shiftr (u32 v) 16); u8 (Z.shiftr (u32 v) 8); u8 v].

Lemma put32_at A a b c d C v i : i = zlen A -> put32 (A ++ [a; b; c; d] ++ C) i v = Done (A ++ bytes32 v ++ C).
Proof.
  intros ->. unfold put32, bytes32. cbn [app].
  rewrite (aput_at _ _ _ A a (b :: c :: d :: C)), bind_Done_l by done.
  rewrite (aput_at _ _ _ (A ++ [Z.shiftr (u32 v) 24]) b (c :: d :: C)), bind_Done_l by (first [by lnorm | zl]).
  rewrite (aput_at _ _ _ (A ++ [Z.shiftr (u32 v) 24; u8 (Z.shiftr (u32 v) 16)]) c (d :: C)), bind_Done_l by (first [by lnorm | zl]).
  rewrite (aput_at _ _ _ (A ++ [Z.shiftr (u32 v) 24; u8 (Z.shiftr (u32 v) 16); u8 (Z.shiftr (u32 v) 8)]) d C) by (first [by lnorm | zl]).
  by lnorm.
Qed.

Lemma get16_at m A a b C i : m = A ++ a :: b :: C -> i = zlen A -> get16 m i = Done (a * 2 ^ 8 + b).
Proof.
  intros -> ->. unfold get16. rewrite (aget_at _ (zlen A) A a (b :: C)), bind_Done_l by done.
  rewrite (aget_at (A ++ a :: b :: C) (zlen A + 1) (A ++ [a]) b C), bind_Done_l by (first [by lnorm | zl]). done.
Qed.

Lemma bytes32_value v : ((Z.shiftr (u32 v) 24) * 2 ^ 8 + u8 (Z.shiftr (u32 v) 16)) * 2 ^ 16 + (u8 (Z.shiftr (u32 v) 8) * 2 ^ 8 + u8 v) = u32 v.
Proof.
  rewrite !Z.shiftr_div_pow2 by lia. pose proof (u32_range v) as Hr. unfold is_u32 in Hr. set (w := u32 v) in *.
  assert (Ev : u8 v = w mod 2 ^ 8). { unfold w, u8, u32. rewrite Z.mod_mod_divide; [done |]. exists (2 ^ 24). lia. }
  rewrite Ev. unfold u8. pose proof (Z.div_mod w (2 ^ 8)). pose proof (Z.div_mod (w / 2 ^ 8) (2 ^ 8)). pose proof (Z.div_mod (w / 2 ^ 16) (2 ^ 8)).
  rewrite !Z.div_div in * by lia. change (2 ^ 8 * 2 ^ 8) with (2 ^ 16) in *. change (2 ^ 16 * 2 ^ 8) with (2 ^ 24) in *. lia.
Qed.

Lemma get32_at m A v C i : m = A ++ bytes32 v ++ C -> i = zlen A -> get32 m i = Done (u32 v).
Proof.
  intros -> ->. unfold get32, bytes32. cbn [app].
  rewrite (get16_at _ A (Z.shiftr (u32 v) 24) (u8 (Z.shiftr (u32 v) 16)) (u8 (Z.shiftr (u32 v) 8) :: u8 v :: C) (zlen A)), bind_Done_l by done.
  rewrite (get16_at _ (A ++ [Z.shiftr (u32 v) 24; u8 (Z.shiftr (u32 v) 16)]) (u8 (Z.shiftr (u32 v) 8)) (u8 v) C (zlen A + 2)), bind_Done_l by (first [by lnorm | zl]).
  unfold mret, outcome_ret. f_equal. apply bytes32_value.
Qed.

(** ** Blocks of integers *)

Definition raw (p : Z * Z) : raw_sackblock := RawSackblock (u32 p.1) (u32 p.2).

(** Blocks that do not touch. *)
Definition apart (p q : Z * Z) : Prop := p.2 < q.1 \/ q.2 < p.1.
Definition touch (p q : Z * Z) : bool := (q.1 <=? p.2) && (p.1 <=? q.2).

Lemma touch_apart p q : touch p q = false <-> apart p q.
Proof. unfold touch, apart. rewrite andb_false_iff, !Z.leb_gt. done. Qed.

Fixpoint apart_all (l : list (Z * Z)) : Prop :=
  match l with [] => True | p :: l => Forall (apart p) l /\ apart_all l end.

(** A nonempty block between two numbers. *)
Definition block_in (lo hi : Z) (p : Z * Z) : Prop := lo <= p.1 /\ p.1 < p.2 /\ p.2 <= hi.

Definition hist_ok (lo hi : Z) (hl : list (Z * Z)) : Prop := Forall (block_in lo hi) hl /\ apart_all hl.

Definition in_block (z : Z) (p : Z * Z) : Prop := p.1 <= z < p.2.
Definition in_blocks (z : Z) (l : list (Z * Z)) : Prop := Exists (in_block z) l.

(** ** A new block and the history *)

Definition union (p q : Z * Z) : Z * Z := (Z.min p.1 q.1, Z.max p.2 q.2).

(** The new block with all that it touches, and the blocks that are left. *)
Fixpoint merge_hist (c : Z * Z) (l : list (Z * Z)) : (Z * Z) * list (Z * Z) :=
  match l with
  | [] => (c, [])
  | p :: l => if touch c p then merge_hist (union c p) l else ((merge_hist c l).1, p :: (merge_hist c l).2)
  end.

Lemma union_apart c p q : q.1 < q.2 -> apart q c -> apart q p -> touch c p = true -> apart q (union c p).
Proof. unfold apart, union, touch. cbn. rewrite andb_true_iff, !Z.leb_le. lia. Qed.

Lemma union_block lo hi c p : block_in lo hi c -> block_in lo hi p -> block_in lo hi (union c p).
Proof. unfold block_in, union. cbn. lia. Qed.

Lemma union_in c p z : c.1 < c.2 -> p.1 < p.2 -> touch c p = true -> in_block z (union c p) <-> in_block z c \/ in_block z p.
Proof. unfold in_block, union, touch. cbn. rewrite andb_true_iff, !Z.leb_le. lia. Qed.

Lemma merge_hist_apart q : forall l c, q.1 < q.2 -> apart q c -> Forall (apart q) l -> apart q (merge_hist c l).1.
Proof.
  induction l as [| p l IH]; intros c Hq Hc Hl; [done |]. apply Forall_cons in Hl as [Hp Hl]. cbn [merge_hist].
  destruct (touch c p) eqn:E; [apply IH; [done | by apply union_apart | done] | by apply IH].
Qed.

Lemma merge_hist_sub c l p : p ∈ (merge_hist c l).2 -> p ∈ l.
Proof.
  revert c. induction l as [| q l IH]; intros c; cbn [merge_hist]; [done |].
  destruct (touch c q); [intros H%IH; by right |]. cbn [snd]. rewrite !elem_of_cons. intros [-> | H%IH]; [by left | by right].
Qed.

Lemma merge_hist_ok lo hi l : forall c, block_in lo hi c -> hist_ok lo hi l ->
  hist_ok lo hi ((merge_hist c l).1 :: (merge_hist c l).2) /\
  (forall z, in_blocks z ((merge_hist c l).1 :: (merge_hist c l).2) <-> in_block z c \/ in_blocks z l) /\
  (merge_hist c l).1.1 <= c.1 /\ c.2 <= (merge_hist c l).1.2 /\ (length (merge_hist c l).2 <= length l)%nat.
Proof.
  unfold in_blocks. induction l as [| p l IH]; intros c Hc [HB HA]; cbn [merge_hist].
  - cbn [fst snd]. split_and!; [split; [apply Forall_cons; by split; [| apply Forall_nil] | by split; [apply Forall_nil |]] | intros z; rewrite Exists_cons; tauto | lia | lia | cbn; lia].
  - apply Forall_cons in HB as [Hp HB]. destruct HA as [HA1 HA]. destruct (touch c p) eqn:E.
    + destruct (IH (union c p)) as (I1 & I2 & I3 & I4 & I5); [by apply union_block | done |]. split_and!; [done | | | | cbn; lia].
      * intros z. rewrite I2, union_in, Exists_cons by (first [apply Hc | apply Hp | done]). tauto.
      * assert ((union c p).1 <= c.1) by (unfold union; cbn; lia). lia.
      * assert (c.2 <= (union c p).2) by (unfold union; cbn; lia). lia.
    + destruct (IH c Hc) as ((I1a & I1b) & I2 & I3 & I4 & I5); [done |]. cbn [fst snd]. apply Forall_cons in I1a as [I1m I1a]. destruct I1b as [I1c I1b].
      assert (Hpm : apart p (merge_hist c l).1). { apply merge_hist_apart; [apply Hp | | done]. apply touch_apart in E. unfold apart in *. lia. }
      split_and!; [split; [by repeat (apply Forall_cons; split) |] | | done | done | cbn; lia].
      * split; [apply Forall_cons; split; [unfold apart in *; lia | done] |]. split; [| done]. rewrite Forall_forall in *. intros q Hq%merge_hist_sub. by apply HA1.
      * intros z. rewrite !Exists_cons. specialize (I2 z). rewrite Exists_cons in I2. tauto.
Qed.

(** ** The code *)

Section History.
Context (lo hi : Z).
Hypothesis Hwin : hi - lo < 2 ^ 31.

Lemma copy_rest_ok rest : forall done_ tl K D h copy j cindex, h = map raw (done_ ++ rest) ++ tl -> j = zlen done_ ->
  copy = map raw K ++ D -> cindex = zlen K -> (length rest <= length D)%nat ->
  exists D', copy_rest (length rest) h copy j cindex = Done (map raw (K ++ rest) ++ D', zlen (K ++ rest)) /\ (length D' + length rest = length D)%nat.
Proof.
  induction rest as [| p rest IH]; intros done_ tl K D h copy j cindex -> -> -> -> Hlen; cbn [length copy_rest].
  - exists D. rewrite app_nil_r. split; [done | lia].
  - destruct D as [| d D]; [cbn in Hlen; lia |].
    rewrite (aget_at _ (zlen done_) (map raw done_) (raw p) (map raw rest ++ tl)), bind_Done_l by (first [rewrite map_app; by lnorm | unfold zlen; by rewrite length_map]).
    rewrite (aput_at _ (zlen K) (raw p) (map raw K) d D), bind_Done_l by (first [done | unfold zlen; by rewrite length_map]).
    destruct (IH (done_ ++ [p]) tl (K ++ [p]) D (map raw (done_ ++ p :: rest) ++ tl) (map raw K ++ raw p :: D) (zlen done_ + 1) (zlen K + 1)) as (D' & E & Hl).
    + by lnorm.
    + zl.
    + rewrite map_app. cbn [map]. by lnorm.
    + zl.
    + cbn in Hlen. lia.
    + exists D'. rewrite E. lnorm. split; [done | cbn; lia].
Qed.

Lemma merge_hist_none c l : Forall (fun p => touch c p = false) l -> merge_hist c l = (c, l).
Proof. induction 1 as [| p l Hp _ IH]; [done |]. cbn [merge_hist]. by rewrite Hp, IH. Qed.

Lemma reported_loop_ok rest : forall done_ tl K D h copy i cindex c, h = map raw (done_ ++ rest) ++ tl -> i = zlen done_ ->
  copy = map raw K ++ D -> cindex = zlen K -> (length rest <= length D)%nat -> block_in lo hi c -> hist_ok lo hi rest ->
  exists D', reported_loop (length rest) h copy i cindex (u32 c.1) (u32 c.2) =
    Done (map raw (K ++ (merge_hist c rest).2) ++ D', zlen (K ++ (merge_hist c rest).2), u32 (merge_hist c rest).1.1, u32 (merge_hist c rest).1.2) /\
    (length (K ++ (merge_hist c rest).2) + length D' = length K + length D)%nat.
Proof.
  induction rest as [| p rest IH]; intros done_ tl K D h copy i cindex c -> -> -> -> Hlen Hc [HB HA]; cbn [length reported_loop merge_hist].
  - exists D. cbn [fst snd]. rewrite app_nil_r. split; [done | lia].
  - apply Forall_cons in HB as [Hp HB]. destruct HA as [HA1 HA]. destruct D as [| d D]; [cbn in Hlen; lia |]. cbn [length] in Hlen.
    pose proof Hc as (C1 & C2 & C3). pose proof Hp as (P1 & P2 & P3).
    rewrite (aget_at _ (zlen done_) (map raw done_) (raw p) (map raw rest ++ tl)), bind_Done_l by (first [rewrite map_app; by lnorm | unfold zlen; by rewrite length_map]).
    cbn [rblk_start rblk_end raw]. rewrite !SEQ_LT_near, !SEQ_GT_near, !SEQ_GEQ_near, !SEQ_LEQ_near by (unfold near; lia).
    assert (Enext : map raw (done_ ++ p :: rest) ++ tl = map raw ((done_ ++ [p]) ++ rest) ++ tl) by (by lnorm).
    assert (Hmore : forall c', block_in lo hi c' -> exists D', reported_loop (length rest) (map raw (done_ ++ p :: rest) ++ tl) (map raw K ++ d :: D) (zlen done_ + 1) (zlen K) (u32 c'.1) (u32 c'.2) =
        Done (map raw (K ++ (merge_hist c' rest).2) ++ D', zlen (K ++ (merge_hist c' rest).2), u32 (merge_hist c' rest).1.1, u32 (merge_hist c' rest).1.2) /\
        (length (K ++ (merge_hist c' rest).2) + length D' = length K + length (d :: D))%nat).
    { intros c' Hc'. apply (IH (done_ ++ [p]) tl); try done; [zl | cbn; lia]. }
    destruct (touch c p) eqn:E.
    + pose proof E as E'. unfold touch in E'. apply andb_true_iff in E' as [E1%Z.leb_le E2%Z.leb_le].
      destruct (Z.ltb_spec c.2 p.1); [lia |]. destruct (Z.ltb_spec p.2 c.1); [lia |]. cbn [orb].
      destruct (Z.leb_spec p.1 c.1) as [L1 | L1], (Z.leb_spec c.2 p.2) as [L2 | L2]; cbn [andb].
      * (* the old block contains the new one *)
        assert (Eu : union c p = p) by (unfold union; destruct c, p; cbn in *; f_equal; lia). rewrite Eu.
        rewrite (merge_hist_none p rest) by (eapply Forall_impl; [done |]; intros q Hq; by apply touch_apart). cbn [fst snd].
        destruct (copy_rest_ok rest (done_ ++ [p]) tl K (d :: D) (map raw (done_ ++ p :: rest) ++ tl) (map raw K ++ d :: D) (zlen done_ + 1) (zlen K)) as (D' & E4 & Hl); try done; [zl | cbn; lia |].
        exists D'. rewrite E4, bind_Done_l. split; [done |]. rewrite length_app. cbn [length] in *. lia.
      * destruct (Z.leb_spec c.1 p.2); [| lia]. destruct (Z.ltb_spec p.1 c.1) as [L3 | L3]; cbn [andb].
        -- replace (union c p) with (p.1, c.2) by (unfold union; f_equal; lia). apply (Hmore (p.1, c.2)). unfold block_in. cbn. lia.
        -- destruct (Z.leb_spec p.1 c.2); [| lia]. destruct (Z.ltb_spec c.2 p.2); [lia |]. cbn [andb]. destruct (Z.leb_spec c.1 p.1); [| lia].
           destruct (Z.leb_spec p.2 c.2); [| lia]. cbn [andb]. unfold KKASSERT. rewrite bind_Done_l.
           replace (union c p) with c by (unfold union; destruct c; cbn in *; f_equal; lia). by apply Hmore.
      * destruct (Z.leb_spec c.1 p.2); [| lia]. destruct (Z.ltb_spec p.1 c.1); [lia |]. cbn [andb]. destruct (Z.leb_spec p.1 c.2); [| lia].
        destruct (Z.ltb_spec c.2 p.2) as [L3 | L3]; cbn [andb].
        -- replace (union c p) with (c.1, p.2) by (unfold union; f_equal; lia). apply (Hmore (c.1, p.2)). unfold block_in. cbn. lia.
        -- destruct (Z.leb_spec c.1 p.1); [| lia]. destruct (Z.leb_spec p.2 c.2); [| lia]. cbn [andb]. unfold KKASSERT. rewrite bind_Done_l.
           replace (union c p) with c by (unfold union; destruct c; cbn in *; f_equal; lia). by apply Hmore.
      * destruct (Z.leb_spec c.1 p.2); [| lia]. destruct (Z.ltb_spec p.1 c.1); [lia |]. cbn [andb]. destruct (Z.leb_spec p.1 c.2); [| lia].
        destruct (Z.ltb_spec c.2 p.2); [lia |]. cbn [andb]. destruct (Z.leb_spec c.1 p.1); [| lia]. destruct (Z.leb_spec p.2 c.2); [| lia]. cbn [andb].
        unfold KKASSERT. rewrite bind_Done_l. replace (union c p) with c by (unfold union; destruct c; cbn in *; f_equal; lia). by apply Hmore.
    + pose proof E as E'. apply touch_apart in E'. unfold apart in E'.
      assert ((c.2 <? p.1) || (p.2 <? c.1) = true) as -> by (destruct (Z.ltb_spec c.2 p.1), (Z.ltb_spec p.2 c.1); try done; lia).
      rewrite (aput_at _ (zlen K) (raw p) (map raw K) d D), bind_Done_l by (first [done | unfold zlen; by rewrite length_map]).
      destruct (IH (done_ ++ [p]) tl (K ++ [p]) D (map raw (done_ ++ p :: rest) ++ tl) (map raw K ++ raw p :: D) (zlen done_ + 1) (zlen K + 1) c) as (D' & E4 & Hl); try done.
      * zl.
      * rewrite map_app. cbn [map]. by lnorm.
      * zl.
      * lia.
      * exists D'. rewrite E4. cbn [fst snd]. lnorm. split; [done |]. rewrite !length_app in *. cbn [length] in *. lia.
Qed.
End History.

(** * SACK options: the operations on the history *)

(** The history of [tp] is the list [hl] of blocks of integers, the last report first. *)
Definition hist (tp : tcpcb) (hl : list (Z * Z)) : Prop :=
  nsackhistory tp = zlen hl /\ zlen (sackhistory tp) = MAX_SACK_REPORT_BLOCKS /\ exists D, sackhistory tp = map raw hl ++ D.

(** ** Acknowledged blocks *)

(** What is left of the blocks when all before [nxt] has come in. *)
Definition ack_hist (nxt : Z) (hl : list (Z * Z)) : list (Z * Z) :=
  omap (fun p => if p.2 <=? nxt then None else Some (Z.max p.1 nxt, p.2)) hl.

Lemma ack_hist_cons nxt p hl :
  ack_hist nxt (p :: hl) = if p.2 <=? nxt then ack_hist nxt hl else (Z.max p.1 nxt, p.2) :: ack_hist nxt hl.
Proof. unfold ack_hist. cbn. by destruct (p.2 <=? nxt). Qed.

Lemma ack_hist_apart nxt p hl : Forall (apart p) hl -> Forall (apart (Z.max p.1 nxt, p.2)) (ack_hist nxt hl).
Proof.
  induction 1 as [| q hl Hq _ IH]; [apply Forall_nil_2 |]. rewrite ack_hist_cons. destruct (Z.leb_spec q.2 nxt); [done |].
  apply Forall_cons_2; [| done]. unfold apart in *. cbn. lia.
Qed.

Lemma ack_hist_ok lo hi nxt hl : lo <= nxt -> hist_ok lo hi hl -> hist_ok nxt hi (ack_hist nxt hl).
Proof.
  intros Hn. induction hl as [| p hl IH]; intros [HB HA]; [split; [apply Forall_nil_2 | done] |].
  apply Forall_cons in HB as [Hp HB]. destruct HA as [HA1 HA]. destruct (IH (conj HB HA)) as [I1 I2]. rewrite ack_hist_cons.
  destruct (Z.leb_spec p.2 nxt); [by split |]. split; [apply Forall_cons_2; [| done] | split; [by apply ack_hist_apart | done]].
  unfold block_in in *. cbn. lia.
Qed.

Lemma ack_hist_in nxt hl z : in_blocks z (ack_hist nxt hl) <-> in_blocks z hl /\ nxt <= z.
Proof.
  unfold in_blocks. induction hl as [| p hl IH]; [rewrite !Exists_nil; tauto |]. rewrite ack_hist_cons, Exists_cons.
  destruct (Z.leb_spec p.2 nxt); [rewrite IH | rewrite Exists_cons, IH]; unfold in_block; cbn [fst snd]; [|].
  - split; [tauto |]. intros [[? | ?] ?]; [lia | done].
  - split; [intros [? | [? ?]]; [split; [left |]; lia | tauto] |]. intros [[? | ?] ?]; [left; lia | by right].
Qed.

Section Code.
Context (lo hi : Z).
Hypothesis Hwin : hi - lo < 2 ^ 31.

Lemma ack_history_loop_ok nxt rest : lo <= nxt <= hi -> Forall (block_in lo hi) rest -> forall K G D h i openslot n,
  h = map raw K ++ G ++ map raw rest ++ D -> i = zlen K + zlen G -> openslot = zlen K -> n = zlen K + zlen rest ->
  exists D', ack_history_loop (length rest) h (u32 nxt) i openslot n = Done (map raw (K ++ ack_hist nxt rest) ++ D', zlen (K ++ ack_hist nxt rest), zlen (K ++ ack_hist nxt rest)) /\
    (length (map raw (K ++ ack_hist nxt rest) ++ D') = length h)%nat.
Proof.
  intros Hn. induction rest as [| p rest IH]; intros HB K G D h i openslot n -> -> -> ->; cbn [length ack_history_loop].
  - exists (G ++ D). cbn [ack_hist omap map app]. rewrite app_nil_r, Z.add_0_r. split; [done |]. by rewrite !length_app.
  - apply Forall_cons in HB as [(P1 & P2 & P3) HB].
    assert (Hlen : zlen (map raw K) = zlen K) by (unfold zlen; by rewrite length_map).
    rewrite (aget_at _ (zlen K + zlen G) (map raw K ++ G) (raw p) (map raw rest ++ D)), bind_Done_l by (first [by lnorm | zl]).
    cbn [rblk_start rblk_end raw]. rewrite SEQ_LEQ_near, SEQ_LT_near by (unfold near; lia). rewrite ack_hist_cons.
    destruct (Z.leb_spec p.2 nxt) as [Hl | Hl].
    + destruct (IH HB K (G ++ [raw p]) D (map raw K ++ G ++ map raw (p :: rest) ++ D) (zlen K + zlen G + 1) (zlen K) (zlen K + zlen (p :: rest) - 1)) as (D' & E & Hl'); [by lnorm | zl | done | zl |].
      exists D'. by rewrite E.
    + set (c := (Z.max p.1 nxt, p.2)).
      assert (Eput : (if p.1 <? nxt then aput (map raw K ++ G ++ map raw (p :: rest) ++ D) (zlen K + zlen G) (RawSackblock (u32 nxt) (u32 p.2)) else mret (map raw K ++ G ++ map raw (p :: rest) ++ D))
          = Done ((map raw K ++ G) ++ raw c :: map raw rest ++ D)).
      { destruct (Z.ltb_spec p.1 nxt).
        - rewrite (aput_at _ (zlen K + zlen G) _ (map raw K ++ G) (raw p) (map raw rest ++ D)) by (first [by lnorm | zl]).
          unfold c, raw. cbn [fst snd]. by rewrite Z.max_r by lia.
        - unfold mret, outcome_ret. lnorm. unfold c. rewrite Z.max_l by lia. by destruct p. }
      rewrite Eput, bind_Done_l. destruct (Z.eqb_spec (zlen K + zlen G) (zlen K)) as [Hg | Hg].
      * assert (G = []) as -> by (destruct G; [done | zl]).
        destruct (IH HB (K ++ [c]) [] D ((map raw K ++ []) ++ raw c :: map raw rest ++ D) (zlen K + zlen (@nil raw_sackblock) + 1) (zlen K + 1) (zlen K + zlen (p :: rest))) as (D' & E & Hl'); [rewrite map_app; cbn [map]; by lnorm | zl | zl | zl |].
        exists D'. rewrite E. revert Hl'. lnorm. intros Hl'. split; [done |]. rewrite Hl'. rewrite !length_app. cbn [length]. rewrite !length_app, !length_map. cbn [length]. lia.
      * destruct G as [| g G]; [zl |].
        rewrite (aget_at _ (zlen K + zlen (g :: G)) (map raw K ++ g :: G) (raw c) (map raw rest ++ D)), bind_Done_l by (first [done | zl]).
        rewrite (aput_at _ (zlen K) (raw c) (map raw K) g (G ++ raw c :: map raw rest ++ D)), bind_Done_l by (first [by lnorm | done]).
        destruct (IH HB (K ++ [c]) (G ++ [raw c]) D (map raw K ++ raw c :: G ++ raw c :: map raw rest ++ D) (zlen K + zlen (g :: G) + 1) (zlen K + 1) (zlen K + zlen (p :: rest))) as (D' & E & Hl'); [rewrite map_app; cbn [map]; by lnorm | zl | zl | zl |].
        exists D'. rewrite E. revert Hl'. lnorm. intros Hl'. split; [done |]. rewrite Hl'. rewrite !length_app. cbn [length]. rewrite !length_app. cbn [length]. rewrite !length_app, !length_map. cbn [length]. lia.
Qed.

Lemma ack_history_ok tp nxt hl : rcv_nxt tp = u32 nxt -> lo <= nxt <= hi -> hist tp hl -> hist_ok lo hi hl ->
  exists h, tcp_sack_ack_history tp = Done (set_history tp (zlen (ack_hist nxt hl)) h) /\
    hist (set_history tp (zlen (ack_hist nxt hl)) h) (ack_hist nxt hl).
Proof.
  intros En Hn (E1 & E2 & D & E3) [HB _]. unfold tcp_sack_ack_history. rewrite E1, E3, En. unfold zlen at 1. rewrite Nat2Z.id.
  destruct (ack_history_loop_ok nxt hl Hn HB [] [] D (map raw hl ++ D) 0 0 (zlen hl)) as (D' & -> & Hl); [done | done | done | done |].
  rewrite bind_Done_l. unfold KKASSERT. rewrite Z.eqb_refl, bind_Done_l. eexists. split; [done |].
  split_and!; [done | | by exists D']. cbn [sackhistory set_history]. rewrite <- E2, E3. unfold zlen. by rewrite Hl.
Qed.

(** ** A new block *)

Lemma copy_back_ok k : forall K M T h i, h = map raw K ++ T -> zlen K = i + 1 -> (k + Z.to_nat i <= length M)%nat -> 0 <= i ->
  (k <= length T)%nat -> forall D, exists T', copy_back k h (map raw M ++ D) i = Done (map raw (K ++ take k (drop (Z.to_nat i) M)) ++ T') /\
    (length T' + k = length T)%nat.
Proof.
  induction k as [| k IH]; intros K M T h i -> HK HM Hi HT D; cbn [copy_back take].
  - exists T. rewrite firstn_O, app_nil_r. split; [done | lia].
  - destruct T as [| t T]; [cbn in HT; lia |]. cbn [length] in *.
    destruct (lookup_lt_is_Some_2 M (Z.to_nat i)) as [c Hc]; [lia |].
    pose proof (take_drop_middle M _ c Hc) as Em.
    rewrite (aget_at _ i (map raw (take (Z.to_nat i) M)) (raw c) (map raw (drop (S (Z.to_nat i)) M) ++ D)), bind_Done_l.
    2: { rewrite <- Em at 1. rewrite map_app. cbn [map]. by lnorm. }
    2: { unfold zlen. rewrite length_map, length_take. lia. }
    rewrite (aput_at _ (i + 1) (raw c) (map raw K) t T), bind_Done_l by (first [done | unfold zlen in *; rewrite length_map; lia]).
    destruct (IH (K ++ [c]) M T (map raw K ++ raw c :: T) (i + 1)) with (D := D) as (T' & E & Hl); [rewrite map_app; cbn [map]; by lnorm | zl | lia | lia | lia |].
    exists T'. rewrite E. split; [| lia]. f_equal. f_equal. f_equal. rewrite (drop_S M c (Z.to_nat i)) by done. cbn [take].
    replace (Z.to_nat (i + 1)) with (S (Z.to_nat i)) by lia. by lnorm.
Qed.

Lemma update_reported_history_ok tp c hl : hist tp hl -> hist_ok lo hi hl -> block_in lo hi c ->
  let hl' := take 4 ((merge_hist c hl).1 :: (merge_hist c hl).2) in
  exists h, tcp_sack_update_reported_history tp (u32 c.1) (u32 c.2) = Done (set_history tp (zlen hl') h) /\ hist (set_history tp (zlen hl') h) hl'.
Proof.
  intros (E1 & E2 & D & E3) Hh Hc hl'. unfold tcp_sack_update_reported_history. rewrite E1, E3. unfold zlen at 1. rewrite Nat2Z.id.
  assert (Hlen : (length hl + length D = 4)%nat). { unfold zlen in E2. rewrite E3, length_app, length_map in E2. unfold MAX_SACK_REPORT_BLOCKS in E2. lia. }
  destruct (merge_hist_ok lo hi hl c Hc Hh) as (_ & _ & _ & _ & Hle).
  destruct (reported_loop_ok lo hi Hwin hl [] D [] (replicate 4 (RawSackblock 0 0)) (map raw hl ++ D) (replicate 4 (RawSackblock 0 0)) 0 0 c) as (D1 & Er & Hl1);
    [done | done | done | done | cbn; lia | done | done |].
  change (Z.to_nat MAX_SACK_REPORT_BLOCKS) with 4%nat. rewrite Er, bind_Done_l. cbn [app] in *. set (mg := merge_hist c hl) in *.
  assert (exists x T, map raw hl ++ D = x :: T /\ length T = 3%nat) as (x & T & -> & HT).
  { assert (Hx : length (map raw hl ++ D) = 4%nat) by (rewrite length_app, length_map; lia). destruct (map raw hl ++ D) as [| x T]; cbn in Hx; [lia |]. exists x, T. split; [done | lia]. }
  rewrite (aput_at _ 0 _ [] x T), bind_Done_l by done. cbn [app]. change (RawSackblock (u32 mg.1.1) (u32 mg.1.2)) with (raw mg.1).
  set (k := Z.to_nat (Z.min (zlen mg.2) (MAX_SACK_REPORT_BLOCKS - 1))).
  assert (Ek : k = Nat.min (length mg.2) 3) by (unfold k, zlen, MAX_SACK_REPORT_BLOCKS; lia).
  destruct (copy_back_ok k [mg.1] mg.2 T (raw mg.1 :: T) 0) with (D := D1) as (T' & Ec & HT'); [done | done | cbn; lia | lia | lia |].
  rewrite Ec, bind_Done_l. cbn [drop app] in *. change (Z.to_nat 0) with 0%nat in *. rewrite drop_0 in *.
  assert (Ehl : hl' = mg.1 :: take k mg.2). { unfold hl'. cbn [take]. f_equal. rewrite Ek. destruct (Nat.min_spec (length mg.2) 3) as [[H ->] | [H ->]]; [| done]. rewrite !take_ge by lia. done. }
  exists (map raw hl' ++ T'). rewrite Ehl. split.
  - unfold mret, outcome_ret. f_equal. f_equal. unfold zlen. cbn [length]. rewrite length_take, Ek. unfold zlen, MAX_SACK_REPORT_BLOCKS. lia.
  - split_and!; [done | | by exists T']. cbn [sackhistory set_history]. unfold zlen. rewrite length_app, length_map. cbn [length]. rewrite length_take, Ek in *. unfold MAX_SACK_REPORT_BLOCKS. lia.
Qed.
End Code.

Lemma hist_ok_take lo hi n hl : hist_ok lo hi hl -> hist_ok lo hi (take n hl).
Proof.
  revert n. induction hl as [| p hl IH]; intros [| n] [HB HA]; cbn [take]; try (split; [apply Forall_nil_2 | done]).
  apply Forall_cons in HB as [Hp HB]. destruct HA as [HA1 HA]. destruct (IH n (conj HB HA)) as [I1 I2].
  split; [by apply Forall_cons_2 | split; [by apply Forall_take | done]].
Qed.
