(* ===== verification/SackrepReport.v ===== *)
(** * SACK options: what tcp_sack_fill_report writes and tcp_dooptions reads *)

From stdpp Require Import prelude list strings gmap.
From S2P Require Import Prelude.
From S2P Require Import Seq.
From S2P Require Import Sack.
From S2P Require Import Sackrep.
From S2P Require Import SackrepHist.
From S2P Require Import SackUpdate.
Open Scope Z_scope.

(** ** Blocks as bytes *)

Definition block_bytes (b : raw_sackblock) : list Z := bytes32 (rblk_start b) ++ bytes32 (rblk_end b).
Definition encode (L : list raw_sackblock) : list Z := mjoin (block_bytes <$> L).

Lemma zlen_bytes32 v : zlen (bytes32 v) = 4.
Proof. done. Qed.

Lemma encode_app L1 L2 : encode (L1 ++ L2) = encode L1 ++ encode L2.
Proof. unfold encode. by rewrite fmap_app, join_app. Qed.

Lemma encode_cons b L : encode (b :: L) = bytes32 (rblk_start b) ++ bytes32 (rblk_end b) ++ encode L.
Proof. unfold encode, block_bytes. cbn. done. Qed.

Lemma zlen_encode L : zlen (encode L) = 8 * zlen L.
Proof. induction L as [| b L IH]; [done |]. rewrite encode_cons, !zlen_app, zlen_cons, IH, !zlen_bytes32. lia. Qed.

Lemma take4 {A} (Q : list A) : 4 <= zlen Q -> exists a b c d Q', Q = [a; b; c; d] ++ Q' /\ zlen Q' = zlen Q - 4.
Proof. destruct Q as [| a [| b [| c [| d Q]]]]; intros; try zl. exists a, b, c, d, Q. split; [done | zl]. Qed.

Lemma put_block_ok A L Q b : 8 <= zlen Q -> exists Q',
  put_block (A ++ encode L ++ Q) (zlen (A ++ encode L)) b = Done (A ++ encode (L ++ [b]) ++ Q', zlen (A ++ encode (L ++ [b]))) /\ zlen Q' = zlen Q - 8.
Proof.
  intros HQ. destruct (take4 Q) as (x1 & x2 & x3 & x4 & Q1 & -> & H1); [lia |]. destruct (take4 Q1) as (y1 & y2 & y3 & y4 & Q' & -> & H2); [lia |].
  exists Q'. split; [| lia]. unfold put_block. rewrite (app_assoc A). rewrite put32_at, bind_Done_l by done. rewrite (app_assoc _ (bytes32 (rblk_start b))), put32_at, bind_Done_l by (rewrite (zlen_app (A ++ _)); done).
  unfold mret, outcome_ret. f_equal. rewrite encode_app, encode_cons. f_equal; [cbn [encode fmap list_fmap mjoin list_join]; by rewrite app_nil_r, <- !app_assoc |].
  rewrite !zlen_app, !zlen_encode, !zlen_bytes32. unfold TCPOLEN_SACK_BLOCK. change (zlen (@nil raw_sackblock)) with 0. lia.
Qed.

Lemma room_ok optlen : 0 <= optlen <= 40 -> room optlen = 40 - optlen.
Proof. intros. unfold room. change TCP_MAXOLEN with 40. apply u32_id. unfold is_u32. lia. Qed.

(** The blocks that there is room for. *)
Definition slots (optlen : Z) : nat := Z.to_nat ((40 - optlen) / 8).

Lemma slots_0 optlen : 40 - optlen < 8 -> 0 <= 40 - optlen -> slots optlen = 0%nat.
Proof. intros. unfold slots. rewrite Z.div_small by lia. done. Qed.

Lemma slots_S optlen : 8 <= 40 - optlen -> slots optlen = S (slots (optlen + 8)).
Proof. intros. unfold slots. replace (40 - optlen) with (40 - (optlen + 8) + 1 * 8) by lia. rewrite Z.div_add by lia. rewrite <- Z2Nat.inj_succ; [f_equal; lia |]. apply Z.div_pos; lia. Qed.

(** ** Filling in *)

(** The block of an entry of the reassembly queue. *)
Definition q_block (e : tseg_qent) : raw_sackblock := RawSackblock (q_seq e) (TCP_SACK_BLKEND (q_seq e + q_len e) (q_flags e)).

Lemma filled_bounds A L Q : zlen (A ++ encode L ++ Q) = 40 -> 0 <= zlen (A ++ encode L) <= 40 /\ zlen Q = 40 - zlen (A ++ encode L).
Proof. rewrite app_assoc, zlen_app. pose proof (zlen_nonneg Q). pose proof (zlen_nonneg (A ++ encode L)). lia. Qed.

Lemma filled_next A L Q Q' b : zlen (A ++ encode L ++ Q) = 40 -> zlen Q' = zlen Q - 8 ->
  zlen (A ++ encode (L ++ [b]) ++ Q') = 40 /\ zlen (A ++ encode (L ++ [b])) = zlen (A ++ encode L) + 8.
Proof. rewrite encode_app, !zlen_app, !zlen_encode. intros. change (zlen [b]) with 1. lia. Qed.

Lemma fill_left_ok q : forall A L Q, zlen (A ++ encode L ++ Q) = 40 ->
  exists Q', let L' := L ++ take (slots (zlen (A ++ encode L))) (map q_block q) in
    fill_left q (A ++ encode L ++ Q) (zlen (A ++ encode L)) = Done (A ++ encode L' ++ Q', zlen (A ++ encode L')) /\ zlen (A ++ encode L' ++ Q') = 40.
Proof.
  induction q as [| e q IH]; intros A L Q H; cbn [fill_left map].
  - exists Q. rewrite firstn_nil, app_nil_r. done.
  - destruct (filled_bounds _ _ _ H) as [Hb HQ]. rewrite room_ok by done. unfold TCPOLEN_SACK_BLOCK. rewrite Z.geb_leb. destruct (Z.leb_spec 8 (40 - zlen (A ++ encode L))) as [Hr | Hr].
    + fold (q_block e). destruct (put_block_ok A L Q (q_block e)) as (Q1 & -> & H1); [lia |]. rewrite bind_Done_l. destruct (filled_next A L Q Q1 (q_block e) H H1) as [H2 H3].
      destruct (IH A (L ++ [q_block e]) Q1 H2) as (Q' & E & H4). exists Q'. rewrite slots_S, <- H3 by lia. cbn [take]. revert E H4. rewrite <- !(app_assoc L). cbn [app]. done.
    + exists Q. rewrite slots_0 by lia. rewrite firstn_O, app_nil_r. done.
Qed.

Lemma fill_right_ok hstart rest : forall A L Q h done_ D, zlen (A ++ encode L ++ Q) = 40 -> h = done_ ++ rest ++ D ->
  exists Q', let L' := L ++ take (slots (zlen (A ++ encode L))) (filter (fun b => rblk_start b ≠ hstart) rest) in
    fill_right (length rest) h hstart (zlen done_) (A ++ encode L ++ Q) (zlen (A ++ encode L)) = Done (A ++ encode L' ++ Q', zlen (A ++ encode L')) /\ zlen (A ++ encode L' ++ Q') = 40.
Proof.
  induction rest as [| b rest IH]; intros A L Q h done_ D H ->; cbn [fill_right length].
  - exists Q. rewrite filter_nil, firstn_nil, app_nil_r. done.
  - destruct (filled_bounds _ _ _ H) as [Hb HQ]. rewrite room_ok by done. unfold TCPOLEN_SACK_BLOCK. rewrite Z.geb_leb. destruct (Z.leb_spec 8 (40 - zlen (A ++ encode L))) as [Hr | Hr].
    + rewrite (aget_at _ (zlen done_) done_ b (rest ++ D)), bind_Done_l by done. assert (En : zlen done_ + 1 = zlen (done_ ++ [b])) by zl. rewrite En. rewrite filter_cons.
      destruct (Z.eqb_spec (rblk_start b) hstart) as [Hs | Hs]; cbn [negb].
      * unfold mret at 1, outcome_ret at 1. rewrite bind_Done_l. rewrite decide_False by tauto. apply (IH A L Q _ (done_ ++ [b]) D); [done |]. by lnorm.
      * rewrite decide_True by done. destruct (put_block_ok A L Q b) as (Q1 & -> & H1); [lia |]. rewrite bind_Done_l. destruct (filled_next A L Q Q1 b H H1) as [H2 H3].
        destruct (IH A (L ++ [b]) Q1 (done_ ++ b :: rest ++ D) (done_ ++ [b]) D H2) as (Q' & E & H4); [by lnorm |].
        exists Q'. rewrite slots_S, <- H3 by lia. cbn [take]. revert E H4. rewrite <- !(app_assoc L). cbn [app]. done.
    + exists Q. rewrite slots_0 by lia. rewrite firstn_O, app_nil_r. done.
Qed.

(** ** The report *)

Section Report.
Context (tcp_do_smartsack : bool) (lo hi nxt : Z).
Hypothesis Hwin : hi - lo < 2 ^ 31.
Hypothesis Hnxt : lo <= nxt <= hi.

Definition enclosed (tp : tcpcb) : bool := btest (sack_flags tp) TSACK_F_ENCLOSESEG.

(** The blocks for the incoming segment: itself, and what encloses it. *)
Definition seg_blocks (tp : tcpcb) : list raw_sackblock :=
  if rblk_start (reportblk tp) =? rblk_end (reportblk tp) then []
  else reportblk tp :: (if enclosed tp then [encloseblk tp] else []).
Definition seg_block (tp : tcpcb) : raw_sackblock := if enclosed tp then encloseblk tp else reportblk tp.

(** The block of received data around the incoming segment, if there is one to report. *)
Definition seg_ok (tp : tcpcb) (seg : option (Z * Z)) : Prop :=
  match seg with
  | None => rblk_start (reportblk tp) = rblk_end (reportblk tp)
  | Some c => rblk_start (reportblk tp) <> rblk_end (reportblk tp) /\ seg_block tp = raw c /\ near c.1 nxt /\ (nxt < c.1 -> block_in nxt hi c)
  end.

Definition new_hist (seg : option (Z * Z)) (hl : list (Z * Z)) : list (Z * Z) :=
  match seg with
  | Some c => if nxt <? c.1 then take 4 ((merge_hist c hl).1 :: (merge_hist c hl).2) else hl
  | None => hl
  end.

Definition hstart (seg : option (Z * Z)) : Z := match seg with Some c => u32 c.1 | None => u32 nxt end.

Definition more_blocks (tp : tcpcb) (segq : list tseg_qent) (seg : option (Z * Z)) (hl : list (Z * Z)) : list raw_sackblock :=
  if tcp_do_smartsack && btest (sack_flags tp) TSACK_F_SACKLEFT then map q_block segq
  else filter (fun b => rblk_start b ≠ hstart seg) (map raw hl).

(** The blocks of the option: those of the segment, then as many of the rest as fit. *)
Definition report (tp : tcpcb) (segq : list tseg_qent) (seg : option (Z * Z)) (hl : list (Z * Z)) (plen : Z) : list raw_sackblock :=
  seg_blocks tp ++ take (slots (plen + 4 + 8 * zlen (seg_blocks tp))) (more_blocks tp segq seg (new_hist seg (ack_hist nxt hl))).

Lemma fill_segment_ok tp A Q seg hl : rcv_nxt tp = u32 nxt -> hist tp hl -> hist_ok nxt hi hl -> seg_ok tp seg ->
  zlen (A ++ Q) = 40 -> 8 * zlen (seg_blocks tp) <= zlen Q ->
  exists tp' n h Q', fill_segment tp (A ++ Q) (zlen A) = Done (tp', A ++ encode (seg_blocks tp) ++ Q', zlen (A ++ encode (seg_blocks tp)), hstart seg) /\
    zlen (A ++ encode (seg_blocks tp) ++ Q') = 40 /\ tp' = set_history tp n h /\ hist tp' (new_hist seg hl).
Proof.
  intros En Hh Hok Hs Hl Hr. unfold fill_segment, seg_blocks, seg_ok, seg_block, enclosed in *. destruct seg as [c |].
  - destruct Hs as (Hne & Hc & Hnear & Hin). destruct (Z.eqb_spec (rblk_start (reportblk tp)) (rblk_end (reportblk tp))) as [| _]; [done |]. cbn [negb].
    assert (Hfin : forall (A' Q' : list Z) b, b = raw c -> exists tp' n h,
        (tp ← (if SEQ_GT (rblk_start b) (rcv_nxt tp) then tcp_sack_update_reported_history tp (rblk_start b) (rblk_end b) else mret tp);
         mret (tp, A' ++ Q', zlen A', rblk_start b)) = Done (tp', A' ++ Q', zlen A', hstart (Some c)) /\ tp' = set_history tp n h /\ hist tp' (new_hist (Some c) hl)).
    { intros A' Q' b ->. cbn [rblk_start rblk_end raw new_hist hstart]. rewrite En, SEQ_GT_near by done. destruct (Z.ltb_spec nxt c.1) as [Hgt | Hle].
      - destruct (update_reported_history_ok nxt hi ltac:(lia) tp c hl Hh Hok (Hin Hgt)) as (h & -> & Hh'). rewrite bind_Done_l. by eexists _, _, _.
      - exists tp, (nsackhistory tp), (sackhistory tp). split_and!; [done | by destruct tp | done]. }
    assert (Hput1 : exists Q1, put_block (A ++ Q) (zlen A) (reportblk tp) = Done (A ++ encode [reportblk tp] ++ Q1, zlen (A ++ encode [reportblk tp])) /\ zlen Q1 = zlen Q - 8).
    { pose proof (put_block_ok A [] Q (reportblk tp)) as Hp. rewrite app_nil_l in Hp. cbn [encode fmap list_fmap mjoin list_join app] in Hp. rewrite app_nil_r in Hp. apply Hp.
      rewrite zlen_cons in Hr. match type of Hr with context [1 + @zlen ?T ?x] => pose proof (@zlen_nonneg T x) end. lia. }
    destruct Hput1 as (Q1 & -> & H1). rewrite bind_Done_l.
    assert (H40 : zlen (A ++ encode [reportblk tp] ++ Q1) = 40). { rewrite !zlen_app, zlen_encode in *. change (zlen [reportblk tp]) with 1. lia. }
    destruct (btest (sack_flags tp) TSACK_F_ENCLOSESEG).
    + change (zlen [reportblk tp; encloseblk tp]) with 2 in Hr. rewrite room_ok by (by eapply filled_bounds). destruct (filled_bounds _ _ _ H40) as [_ H3].
      rewrite (proj2 (Z.geb_le (40 - zlen (A ++ encode [reportblk tp])) TCPOLEN_SACK_BLOCK)) by (unfold TCPOLEN_SACK_BLOCK; lia). unfold KKASSERT. rewrite bind_Done_l.
      destruct (put_block_ok A [reportblk tp] Q1 (encloseblk tp)) as (Q2 & -> & H2); [lia |]. rewrite bind_Done_l. cbn [app]. unfold mret at 1, outcome_ret at 1. rewrite bind_Done_l.
      destruct (Hfin (A ++ encode [reportblk tp; encloseblk tp]) Q2 (encloseblk tp) Hc) as (tp' & n & h & E & Etp & Hh'). rewrite <- app_assoc in E.
      exists tp', n, h, Q2. split_and!; [done | | done | done]. by apply (filled_next A [reportblk tp] Q1 Q2 (encloseblk tp)).
    + unfold mret at 1, outcome_ret at 1. rewrite bind_Done_l. destruct (Hfin (A ++ encode [reportblk tp]) Q1 (reportblk tp) Hc) as (tp' & n & h & E & Etp & Hh'). rewrite <- app_assoc in E.
      by exists tp', n, h, Q1.
  - rewrite (proj2 (Z.eqb_eq _ _) Hs). cbn [negb]. exists tp, (nsackhistory tp), (sackhistory tp), Q. cbn [encode fmap list_fmap mjoin list_join]. rewrite !app_nil_r, En. cbn [app hstart new_hist]. split_and!; [done | done | by destruct tp | done].
Qed.

Definition sack_header (n : Z) : list Z := [TCPOPT_NOP; TCPOPT_NOP; TCPOPT_SACK; 2 + 8 * n].

Lemma header_bytes n : 0 <= n <= 4 -> bytes32 (Z.lor TCPOPT_SACK_ALIGNED (TCPOLEN_SACK + n * TCPOLEN_SACK_BLOCK)) = sack_header n.
Proof. intros. assert (n = 0 \/ n = 1 \/ n = 2 \/ n = 3 \/ n = 4) as [-> | [-> | [-> | [-> | ->]]]] by lia; done. Qed.

Lemma fill_report_ok tp segq P Q seg hl : rcv_nxt tp = u32 nxt -> hist tp hl -> hist_ok lo hi hl -> seg_ok tp seg ->
  zlen (P ++ Q) = 40 -> 12 <= zlen Q -> 4 + 8 * zlen (seg_blocks tp) <= zlen Q ->
  let L := report tp segq seg hl (zlen P) in
  exists tp' Q', tcp_sack_fill_report tcp_do_smartsack tp segq (P ++ Q) (zlen P) = Done (tp', P ++ sack_header (zlen L) ++ encode L ++ Q', zlen (P ++ sack_header (zlen L) ++ encode L)) /\
    zlen (P ++ sack_header (zlen L) ++ encode L ++ Q') = 40 /\ hist tp' (new_hist seg (ack_hist nxt hl)) /\
    tcp_sack_report_needed tp' = false /\ rcv_nxt tp' = rcv_nxt tp.
Proof.
  intros En Hh Hok Hs Hl H12 Hr L. unfold tcp_sack_fill_report. pose proof (zlen_nonneg P) as HP. pose proof Hl as Hl0. rewrite zlen_app in Hl0.
  rewrite room_ok by lia. rewrite (proj2 (Z.geb_le (40 - zlen P) _)) by (unfold TCPOLEN_SACK_ALIGNED, TCPOLEN_SACK_BLOCK; lia). unfold KKASSERT. rewrite bind_Done_l.
  destruct (ack_history_ok lo hi Hwin tp nxt hl En Hnxt Hh Hok) as (h & -> & Hh1). rewrite bind_Done_l. set (tp1 := set_history tp _ h) in *.
  destruct (take4 Q) as (a & b & c & d & Q0 & -> & HQ0); [lia |].
  replace (zlen P + TCPOLEN_SACK_ALIGNED) with (zlen (P ++ [a; b; c; d])) by (rewrite zlen_app; done). rewrite (app_assoc P).
  destruct (fill_segment_ok tp1 (P ++ [a; b; c; d]) Q0 seg (ack_hist nxt hl)) as (tp2 & n2 & h2 & Q1 & -> & H40 & Etp2 & Hh2);
    [done | done | apply ack_hist_ok with lo; [lia | done] | done | by rewrite <- app_assoc | change (seg_blocks tp1) with (seg_blocks tp); lia |].
  rewrite bind_Done_l. change (seg_blocks tp1) with (seg_blocks tp) in *. assert (Ef : sack_flags tp2 = sack_flags tp) by (by rewrite Etp2).
  assert (Esl : slots (zlen ((P ++ [a; b; c; d]) ++ encode (seg_blocks tp))) = slots (zlen P + 4 + 8 * zlen (seg_blocks tp))) by (rewrite !zlen_app, zlen_encode; done).
  assert (Hmore : exists Q2, (if tcp_do_smartsack && btest (sack_flags tp2) TSACK_F_SACKLEFT
      then fill_left segq ((P ++ [a; b; c; d]) ++ encode (seg_blocks tp) ++ Q1) (zlen ((P ++ [a; b; c; d]) ++ encode (seg_blocks tp)))
      else fill_right (Z.to_nat (nsackhistory tp2)) (sackhistory tp2) (hstart seg) 0 ((P ++ [a; b; c; d]) ++ encode (seg_blocks tp) ++ Q1) (zlen ((P ++ [a; b; c; d]) ++ encode (seg_blocks tp))))
      = Done ((P ++ [a; b; c; d]) ++ encode L ++ Q2, zlen ((P ++ [a; b; c; d]) ++ encode L)) /\ zlen ((P ++ [a; b; c; d]) ++ encode L ++ Q2) = 40).
  { unfold L, report, more_blocks. rewrite Ef, <- Esl. destruct (tcp_do_smartsack && btest (sack_flags tp) TSACK_F_SACKLEFT).
    - by apply fill_left_ok.
    - destruct Hh2 as (E1 & _ & D & ->). rewrite E1. unfold zlen at 1. rewrite Nat2Z.id.
      pose proof (fill_right_ok (hstart seg) (map raw (new_hist seg (ack_hist nxt hl))) (P ++ [a; b; c; d]) (seg_blocks tp) Q1 _ [] D H40 eq_refl) as Hf. by rewrite length_map in Hf. }
  destruct Hmore as (Q2 & -> & H40'). rewrite bind_Done_l.
  assert (HLn : (zlen ((P ++ [a; b; c; d]) ++ encode L) - zlen P - 4) / 4 / 2 = zlen L).
  { rewrite !zlen_app, zlen_encode. change (zlen [a; b; c; d]) with 4. replace (zlen P + 4 + 8 * zlen L - zlen P - 4) with (zlen L * 2 * 4) by lia. by rewrite !Z.div_mul by lia. }
  rewrite HLn. assert (HL4 : 0 <= zlen L <= 4). { pose proof (zlen_nonneg L). rewrite !zlen_app, zlen_encode in H40'. change (zlen [a; b; c; d]) with 4 in H40'. pose proof (zlen_nonneg Q2). lia. }
  rewrite <- (app_assoc P [a; b; c; d] (encode L ++ Q2)), put32_at, bind_Done_l by done. rewrite header_bytes by done.
  exists (tcp_sack_report_cleanup tp2), Q2. split_and!.
  - unfold mret, outcome_ret. f_equal. f_equal. rewrite <- app_assoc, !zlen_app. done.
  - rewrite <- H40'. rewrite <- app_assoc, !zlen_app. done.
  - by subst tp2.
  - unfold tcp_sack_report_needed, tcp_sack_report_cleanup. cbn [sack_flags set_sack_flags reportblk set_reportblk rblk_start rblk_end]. by rewrite btest_ldiff_same, Z.eqb_refl.
  - by subst tp2.
Qed.
End Report.

(** * SACK options: reading *)

Section Options.
Context (is_syn : bool) (ack ticks : Z).

#[local] #[warnings="-notation-for-abbreviation"] Notation loop := (dooptions_loop is_syn ack ticks).

(** ** What was written *)

Lemma sack_option_ok L : forall A C m i, Forall option_block L -> m = A ++ encode L ++ C -> i = zlen A -> sack_option (length L) m i = Done (Some L).
Proof.
  induction L as [| b L IH]; intros A C m i HL -> ->; cbn [length sack_option]; [done |]. apply Forall_cons in HL as [(H1 & H2 & H3) HL].
  rewrite encode_cons, <- !app_assoc.
  rewrite (get32_at _ A (rblk_start b) (bytes32 (rblk_end b) ++ encode L ++ C) (zlen A)), bind_Done_l by done.
  rewrite (get32_at _ (A ++ bytes32 (rblk_start b)) (rblk_end b) (encode L ++ C) (zlen A + 4)), bind_Done_l by (first [by rewrite <- app_assoc | rewrite zlen_app; done]).
  rewrite !u32_id, H3 by done. rewrite (IH (A ++ bytes32 (rblk_start b) ++ bytes32 (rblk_end b)) C), bind_Done_l by (first [done | by rewrite <- !app_assoc | rewrite !zlen_app, !zlen_bytes32; lia]).
  by destruct b.
Qed.

(** The tcpopt with the blocks [L]. *)
Definition with_sack (to : tcpopt) (L : list raw_sackblock) : tcpopt :=
  let f := Z.lor (to_flags to) TOF_SACK in
  let f := if negb (tcp_sack_ndsack_blocks L ack =? 0) then Z.lor f TOF_DSACK else f in
  Tcpopt f (to_tsval to) (to_tsecr to) (to_mss to) (to_requested_s_scale to) L.

Lemma loop_end fuel m cp to : loop fuel m cp 0 to = Done to.
Proof. by destruct fuel. Qed.

(** One option after the other. *)
Lemma loop_nop fuel m A C cp cnt to : m = A ++ TCPOPT_NOP :: C -> cp = zlen A -> 0 < cnt -> loop (S fuel) m cp cnt to = loop fuel m (cp + 1) (cnt - 1) to.
Proof. intros -> -> Hc. cbn [dooptions_loop]. rewrite Z.gtb_ltb, (proj2 (Z.ltb_lt 0 cnt)) by lia. by rewrite (aget_at _ (zlen A) A TCPOPT_NOP C), bind_Done_l. Qed.

Lemma loop_option fuel m A opt len C cp cnt to : m = A ++ opt :: len :: C -> cp = zlen A -> opt <> TCPOPT_EOL -> opt <> TCPOPT_NOP -> 2 <= len <= cnt ->
  loop (S fuel) m cp cnt to = (to ← do_option is_syn ack ticks m cp opt len to; loop fuel m (cp + len) (cnt - len) to).
Proof.
  intros -> -> H1 H2 Hc. cbn [dooptions_loop]. rewrite Z.gtb_ltb, (proj2 (Z.ltb_lt 0 cnt)) by lia. rewrite (aget_at _ (zlen A) A opt (len :: C)), bind_Done_l by done.
  rewrite (proj2 (Z.eqb_neq _ _) H1), (proj2 (Z.eqb_neq _ _) H2). destruct (Z.ltb_spec cnt 2); [lia |].
  rewrite (aget_at _ (zlen A + 1) (A ++ [opt]) len C), bind_Done_l by (first [by lnorm | zl]). destruct (Z.ltb_spec len 2); [lia |]. rewrite Z.gtb_ltb. destruct (Z.ltb_spec cnt len); [lia | done].
Qed.

Lemma loop_sack fuel m P L Q cp cnt to : Forall option_block L -> zlen L <= 4 -> m = P ++ sack_header (zlen L) ++ encode L ++ Q -> cp = zlen P -> cnt = 4 + 8 * zlen L ->
  loop (S (S (S fuel))) m cp cnt to = Done (with_sack to L).
Proof.
  intros HL H4 Em -> ->. pose proof (zlen_nonneg L) as H0. set (n := zlen L) in *. unfold sack_header in Em. cbn [app] in Em.
  rewrite (loop_nop _ m P ([TCPOPT_NOP; TCPOPT_SACK; 2 + 8 * n] ++ encode L ++ Q)) by (first [done | lia]).
  rewrite (loop_nop _ m (P ++ [TCPOPT_NOP]) ([TCPOPT_SACK; 2 + 8 * n] ++ encode L ++ Q)) by (first [by rewrite <- app_assoc | rewrite zlen_app; done | lia]).
  rewrite (loop_option _ m (P ++ [TCPOPT_NOP; TCPOPT_NOP]) TCPOPT_SACK (2 + 8 * n) (encode L ++ Q)) by (first [by rewrite <- app_assoc | rewrite zlen_app; change (zlen [TCPOPT_NOP; TCPOPT_NOP]) with 2; lia | done | lia]).
  unfold do_option. cbn [Z.eqb TCPOPT_SACK TCPOPT_MAXSEG TCPOPT_WINDOW TCPOPT_TIMESTAMP TCPOPT_SACK_PERMITTED Pos.eqb].
  replace (2 + 8 * n - 2) with (8 * n) by lia. assert (Eland : Z.land (8 * n) 0x07 = 0). { change 0x07 with (Z.ones 3). rewrite Z.land_ones by lia. replace (8 * n) with (n * 2 ^ 3) by lia. apply Z.mod_mul. lia. }
  rewrite Eland. cbn [Z.eqb negb]. replace (8 * n) with (n * 8) by lia. rewrite Z.div_mul by lia. replace (Z.to_nat n) with (length L) by (unfold n, zlen; lia).
  rewrite (sack_option_ok L (P ++ sack_header n) Q) by (first [done | by rewrite Em, <- app_assoc | rewrite zlen_app; change (zlen (sack_header n)) with 4; lia]). rewrite bind_Done_l. cbn match.
  replace (4 + n * 8 - 1 - 1 - (2 + n * 8)) with 0 by lia. apply loop_end.
Qed.

(** The timestamp option that tcp_output puts before. *)
Definition tstamp_bytes (tsval tsecr : Z) : list Z := [TCPOPT_NOP; TCPOPT_NOP; TCPOPT_TIMESTAMP; TCPOLEN_TIMESTAMP] ++ bytes32 tsval ++ bytes32 tsecr.

Lemma put_tstamp_ok Q tsval tsecr : 12 <= zlen Q -> exists Q', put_tstamp Q 0 tsval tsecr = Done (tstamp_bytes tsval tsecr ++ Q', 12) /\ zlen Q' = zlen Q - 12.
Proof.
  intros H. destruct (take4 Q) as (a1 & a2 & a3 & a4 & Q1 & -> & H1); [lia |]. destruct (take4 Q1) as (b1 & b2 & b3 & b4 & Q2 & -> & H2); [lia |].
  destruct (take4 Q2) as (c1 & c2 & c3 & c4 & Q3 & -> & H3); [lia |]. exists Q3. split; [| lia]. unfold put_tstamp.
  pose proof (put32_at [] a1 a2 a3 a4 ([b1; b2; b3; b4] ++ [c1; c2; c3; c4] ++ Q3) TCPOPT_TSTAMP_HDR 0 eq_refl) as E1. cbn [app] in E1 |- *. rewrite E1, bind_Done_l.
  rewrite (put32_at (bytes32 TCPOPT_TSTAMP_HDR) b1 b2 b3 b4 ([c1; c2; c3; c4] ++ Q3)), bind_Done_l by done. rewrite (app_assoc (bytes32 TCPOPT_TSTAMP_HDR)).
  rewrite (put32_at (bytes32 TCPOPT_TSTAMP_HDR ++ bytes32 tsval) c1 c2 c3 c4 Q3), bind_Done_l by done. done.
Qed.

(** The tcpopt with the timestamps. *)
Definition with_tstamp (to : tcpopt) (tsval tsecr : Z) : tcpopt :=
  Tcpopt (Z.lor (to_flags to) TOF_TS) (u32 tsval) (if negb (u32 tsecr =? 0) && SEQ_GT (u32 tsecr) ticks then 0 else u32 tsecr) (to_mss to) (to_requested_s_scale to) (to_sackblocks to).

Lemma loop_tstamp fuel tsval tsecr Q cnt to : 12 <= cnt -> loop (S (S (S fuel))) (tstamp_bytes tsval tsecr ++ Q) 0 cnt to = loop fuel (tstamp_bytes tsval tsecr ++ Q) 12 (cnt - 12) (with_tstamp to tsval tsecr).
Proof.
  intros Hc. set (m := tstamp_bytes tsval tsecr ++ Q). assert (Em : m = [TCPOPT_NOP; TCPOPT_NOP; TCPOPT_TIMESTAMP; TCPOLEN_TIMESTAMP] ++ bytes32 tsval ++ bytes32 tsecr ++ Q) by (unfold m, tstamp_bytes; by rewrite <- !app_assoc).
  rewrite (loop_nop _ m [] ([TCPOPT_NOP; TCPOPT_TIMESTAMP; TCPOLEN_TIMESTAMP] ++ bytes32 tsval ++ bytes32 tsecr ++ Q)) by (first [done | lia]).
  rewrite (loop_nop _ m [TCPOPT_NOP] ([TCPOPT_TIMESTAMP; TCPOLEN_TIMESTAMP] ++ bytes32 tsval ++ bytes32 tsecr ++ Q)) by (first [done | lia]).
  rewrite (loop_option _ m [TCPOPT_NOP; TCPOPT_NOP] TCPOPT_TIMESTAMP TCPOLEN_TIMESTAMP (bytes32 tsval ++ bytes32 tsecr ++ Q)) by (first [done | unfold TCPOLEN_TIMESTAMP; lia]).
  unfold do_option. cbn [Z.eqb TCPOPT_TIMESTAMP TCPOLEN_TIMESTAMP TCPOPT_MAXSEG TCPOPT_WINDOW Pos.eqb negb].
  rewrite (get32_at m [TCPOPT_NOP; TCPOPT_NOP; TCPOPT_TIMESTAMP; TCPOLEN_TIMESTAMP] tsval (bytes32 tsecr ++ Q) (0 + 1 + 1 + 2)), bind_Done_l by done.
  rewrite (get32_at m ([TCPOPT_NOP; TCPOPT_NOP; TCPOPT_TIMESTAMP; TCPOLEN_TIMESTAMP] ++ bytes32 tsval) tsecr Q (0 + 1 + 1 + 6)), bind_Done_l by done.
  unfold mret at 1, outcome_ret at 1. rewrite bind_Done_l. replace (cnt - 1 - 1 - TCPOLEN_TIMESTAMP) with (cnt - 12) by (unfold TCPOLEN_TIMESTAMP; lia). done.
Qed.

(** ** Any bytes *)

Lemma get16_safe m i : Forall is_u8 m -> 0 <= i -> i + 2 <= zlen m -> exists v, get16 m i = Done v /\ 0 <= v < 2 ^ 16.
Proof.
  intros Hm H0 H1. unfold get16. destruct (aget_in_bounds m i) as [a Ha]; [lia |]. destruct (aget_in_bounds m (i + 1)) as [b Hb]; [lia |].
  rewrite Ha, bind_Done_l, Hb, bind_Done_l. eexists. split; [done |]. apply aget_Done in Ha as [_ Ha]. apply aget_Done in Hb as [_ Hb].
  pose proof (Forall_lookup_1 _ _ _ _ Hm Ha) as Ua. pose proof (Forall_lookup_1 _ _ _ _ Hm Hb) as Ub. unfold is_u8 in *. lia.
Qed.

Lemma get32_safe m i : Forall is_u8 m -> 0 <= i -> i + 4 <= zlen m -> exists v, get32 m i = Done v /\ is_u32 v.
Proof.
  intros Hm H0 H1. unfold get32. destruct (get16_safe m i Hm H0 ltac:(lia)) as (a & -> & Ha). destruct (get16_safe m (i + 2) Hm ltac:(lia) ltac:(lia)) as (b & Hb & Hb').
  rewrite bind_Done_l, Hb, bind_Done_l. eexists. split; [done |]. unfold is_u32. lia.
Qed.

Lemma sack_option_safe k : forall m i, Forall is_u8 m -> 0 <= i -> i + 8 * Z.of_nat k <= zlen m ->
  exists r, sack_option k m i = Done r /\ match r with Some L => Forall option_block L /\ length L = k | None => True end.
Proof.
  induction k as [| k IH]; intros m i Hm H0 H1; cbn [sack_option]; [exists (Some []); split; [done |]; by split; [apply Forall_nil |] |].
  destruct (get32_safe m i Hm H0 ltac:(lia)) as (s & -> & Hs). destruct (get32_safe m (i + 4) Hm ltac:(lia) ltac:(lia)) as (e & He & He'). rewrite bind_Done_l, He, bind_Done_l.
  destruct (SEQ_LEQ e s) eqn:E; [by exists None |]. destruct (IH m (i + 8) Hm ltac:(lia) ltac:(lia)) as (r & -> & Hr). rewrite bind_Done_l. eexists. split; [done |]. destruct r as [L |]; [| done].
  destruct Hr as [Hr1 Hr2]. split; [| cbn; by rewrite Hr2]. apply Forall_cons. by split.
Qed.

(** What the blocks of an option are like, if the option has at most [cnt] bytes. *)
Definition blocks_ok (cnt : Z) (to : tcpopt) : Prop := Forall option_block (to_sackblocks to) /\ 8 * zlen (to_sackblocks to) <= cnt.

Lemma do_option_safe m cp opt optlen to cnt : Forall is_u8 m -> 0 <= cp -> 2 <= optlen <= cnt -> cp + optlen <= zlen m -> blocks_ok cnt to ->
  exists to', do_option is_syn ack ticks m cp opt optlen to = Done to' /\ blocks_ok cnt to'.
Proof.
  intros Hm H0 H1 H2 Hto. unfold do_option.
  destruct (opt =? TCPOPT_MAXSEG). { destruct (Z.eqb_spec optlen TCPOLEN_MAXSEG) as [E |]; cbn [negb]; [| by eexists]. destruct is_syn; cbn [negb]; [| by eexists].
    unfold TCPOLEN_MAXSEG in E. destruct (get16_safe m (cp + 2) Hm ltac:(lia) ltac:(lia)) as (v & -> & _). rewrite bind_Done_l. by eexists. }
  destruct (opt =? TCPOPT_WINDOW). { destruct (Z.eqb_spec optlen TCPOLEN_WINDOW) as [E |]; cbn [negb]; [| by eexists]. destruct is_syn; cbn [negb]; [| by eexists].
    unfold TCPOLEN_WINDOW in E. destruct (aget_in_bounds m (cp + 2)) as [v Hv]; [lia |]. rewrite Hv, bind_Done_l. by eexists. }
  destruct (opt =? TCPOPT_TIMESTAMP). { destruct (Z.eqb_spec optlen TCPOLEN_TIMESTAMP) as [E |]; cbn [negb]; [| by eexists]. unfold TCPOLEN_TIMESTAMP in E.
    destruct (get32_safe m (cp + 2) Hm ltac:(lia) ltac:(lia)) as (v & -> & _). destruct (get32_safe m (cp + 6) Hm ltac:(lia) ltac:(lia)) as (w & Hw & _). rewrite bind_Done_l, Hw, bind_Done_l. by eexists. }
  destruct (opt =? TCPOPT_SACK_PERMITTED). { destruct (negb (optlen =? TCPOLEN_SACK_PERMITTED)); [by eexists |]. by destruct (negb is_syn); eexists. }
  destruct (opt =? TCPOPT_SACK); [| by eexists]. destruct (negb (Z.land (optlen - 2) 0x07 =? 0)); [by eexists |].
  pose proof (Z.div_pos (optlen - 2) 8 ltac:(lia) ltac:(lia)) as Hp. pose proof (Z.mul_div_le (optlen - 2) 8 ltac:(lia)) as Hle.
  destruct (sack_option_safe (Z.to_nat ((optlen - 2) / 8)) m (cp + 2) Hm ltac:(lia) ltac:(lia)) as (r & -> & Hr). rewrite bind_Done_l. destruct r as [L |]; (eexists; split; [done |]).
  - destruct Hr as [Hr1 Hr2]. split; [done |]. cbn [to_sackblocks]. unfold zlen. rewrite Hr2. lia.
  - split; [by apply Forall_nil |]. cbn [to_sackblocks]. change (zlen (@nil raw_sackblock)) with 0. lia.
Qed.

Lemma loop_safe total fuel : forall m cp cnt to, Forall is_u8 m -> 0 <= cp -> cp + cnt <= zlen m -> cnt <= Z.of_nat fuel -> cnt <= total -> blocks_ok total to ->
  exists to', loop fuel m cp cnt to = Done to' /\ blocks_ok total to'.
Proof.
  induction fuel as [| fuel IH]; intros m cp cnt to Hm H0 H1 H2 H3 Hto; cbn [dooptions_loop]; rewrite Z.gtb_ltb; (destruct (Z.ltb_spec 0 cnt); [| by eexists]); [lia |].
  destruct (aget_in_bounds m cp) as [opt Hopt]; [lia |]. rewrite Hopt, bind_Done_l. destruct (opt =? TCPOPT_EOL); [by eexists |]. destruct (opt =? TCPOPT_NOP); [apply IH; try done; lia |].
  destruct (Z.ltb_spec cnt 2); [by eexists |]. destruct (aget_in_bounds m (cp + 1)) as [len Hlen]; [lia |]. rewrite Hlen, bind_Done_l. rewrite Z.gtb_ltb.
  destruct (Z.ltb_spec len 2); [by eexists |]. cbn [orb]. destruct (Z.ltb_spec cnt len); [by eexists |].
  destruct (do_option_safe m cp opt len to total Hm H0 ltac:(lia) ltac:(lia) Hto) as (to' & -> & Hto'). rewrite bind_Done_l. apply IH; try done; lia.
Qed.
End Options.
