(* ===== verification/Reass.v ===== *)
(** * Receiving data: sys/netinet/tcp_input.c, tcp_reass and the parts of tcp_input
    that handle the data of a segment

    A segment is trimmed at both ends to what the receiver can take, and is then
    appended to the socket buffer, if it is the next, or sorted into the reassembly
    queue.  The queue is a list of entries; an mbuf chain stands for its contents,
    with m_adj and m_cat of sys/kern/uipc_mbuf.c on them.  Urgent data, timers and
    statistics are left out; so is the rest of tcp_input, which may drop the segment
    between these parts. *)

From stdpp Require Import prelude list strings gmap.
From S2P Require Import Prelude.
From S2P Require Import Seq.
From S2P Require Import Sack.
From S2P Require Import Sackrep.
Open Scope Z_scope.

(** ** Constants: tcp.h, tcp_fsm.h, tcp_var.h *)

Definition TH_SYN : Z := 0x02.
Definition TH_PUSH : Z := 0x08.
Definition TH_ACK : Z := 0x10.
Definition TCPS_SYN_RECEIVED : Z := 4.
Definition TCPS_ESTABLISHED : Z := 5.
Definition TCPS_CLOSE_WAIT : Z := 6.
Definition TCPS_FIN_WAIT_1 : Z := 7.
Definition TCPS_CLOSING : Z := 8.
Definition TCPS_FIN_WAIT_2 : Z := 10.
Definition TCPS_TIME_WAIT : Z := 11.
Definition TCPS_HAVEESTABLISHED (s : Z) : bool := s >=? TCPS_ESTABLISHED.
Definition TCPS_HAVERCVDFIN (s : Z) : bool := s >=? TCPS_TIME_WAIT.
Definition TF_ACKNOW : Z := 0x00000001.
Definition TF_SACK_PERMITTED : Z := 0x00000200.
Definition TF_NEEDSYN : Z := 0x00000400.
Definition TF_NEEDFIN : Z := 0x00000800.
Definition TF_SAWFIN : Z := 0x00020000.
Definition TF_QUEDFIN : Z := 0x00200000.

(** ** State *)

(** A connection: the fields of Sack.v, the reassembly queue, flags, state and window
    of its tcpcb, the contents of so_rcv and SS_CANTRCVMORE of its socket, and the
    global number of queue entries. *)
Record conn := Conn {
  tp : tcpcb;
  t_segq : list tseg_qent;
  t_flags : Z;
  t_state : Z;
  rcv_wnd : Z;
  so_rcv : list Z;
  cantrcvmore : bool;
  tcp_reass_qsize : Z
}.

Definition set_tp (c : conn) v := Conn v (t_segq c) (t_flags c) (t_state c) (rcv_wnd c) (so_rcv c) (cantrcvmore c) (tcp_reass_qsize c).
Definition set_segq (c : conn) v := Conn (tp c) v (t_flags c) (t_state c) (rcv_wnd c) (so_rcv c) (cantrcvmore c) (tcp_reass_qsize c).
Definition set_t_flags (c : conn) v := Conn (tp c) (t_segq c) v (t_state c) (rcv_wnd c) (so_rcv c) (cantrcvmore c) (tcp_reass_qsize c).
Definition set_t_state (c : conn) v := Conn (tp c) (t_segq c) (t_flags c) v (rcv_wnd c) (so_rcv c) (cantrcvmore c) (tcp_reass_qsize c).
Definition set_so (c : conn) v b := Conn (tp c) (t_segq c) (t_flags c) (t_state c) (rcv_wnd c) v b (tcp_reass_qsize c).
Definition set_qsize (c : conn) v := Conn (tp c) (t_segq c) (t_flags c) (t_state c) (rcv_wnd c) (so_rcv c) (cantrcvmore c) v.

Definition set_rcv_nxt (tp : tcpcb) v := Tcpcb (snd_una tp) (snd_max tp) (snd_wnd tp) (snd_bwnd tp) (t_maxseg tp) (t_rxtthresh tp) (rexmt_high tp) (rexmt_rescue tp) (sack_flags tp) (scb tp) v (reportblk tp) (encloseblk tp) (nsackhistory tp) (sackhistory tp).
Definition set_encloseblk (tp : tcpcb) v := Tcpcb (snd_una tp) (snd_max tp) (snd_wnd tp) (snd_bwnd tp) (t_maxseg tp) (t_rxtthresh tp) (rexmt_high tp) (rexmt_rescue tp) (sack_flags tp) (scb tp) (rcv_nxt tp) (reportblk tp) v (nsackhistory tp) (sackhistory tp).

Definition set_report_start (tp : tcpcb) v := set_reportblk tp (RawSackblock v (rblk_end (reportblk tp))).
Definition set_report_end (tp : tcpcb) v := set_reportblk tp (RawSackblock (rblk_start (reportblk tp)) v).
Definition set_enclose_start (tp : tcpcb) v := set_encloseblk tp (RawSackblock v (rblk_end (encloseblk tp))).
Definition set_enclose_end (tp : tcpcb) v := set_encloseblk tp (RawSackblock (rblk_start (encloseblk tp)) v).
(** tp->reportblk.rblk_start = tp->reportblk.rblk_end; *)
Definition no_report (tp : tcpcb) : tcpcb := set_report_start tp (rblk_end (reportblk tp)).

Definition add_sack_flags (tp : tcpcb) f := set_sack_flags tp (Z.lor (sack_flags tp) f).
Definition add_t_flags (c : conn) f := set_t_flags c (Z.lor (t_flags c) f).
Definition dupseg (tp : tcpcb) : bool := btest (sack_flags tp) TSACK_F_DUPSEG.
Definition DUP_ENCLOSE : Z := Z.lor TSACK_F_DUPSEG TSACK_F_ENCLOSESEG.

(** m_adj: [n] bytes off the head, or [- n] off the tail *)
Definition m_adj (m : list Z) (n : Z) : list Z :=
  if n >=? 0 then drop (Z.to_nat n) m else take (Z.to_nat (zlen m + n)) m.

(** The end of an entry, and its end in a SACK block. *)
Definition q_end (q : tseg_qent) : Z := u32 (q_seq q + q_len q).
Definition q_end_sack (q : tseg_qent) : Z := TCP_SACK_BLKEND (q_seq q + q_len q) (q_flags q).
(** q->tqe_th->th_flags |= th_flags & TH_FIN *)
Definition fin_if (fl : Z) (q : tseg_qent) : tseg_qent :=
  if btest fl TH_FIN then TsegQent (q_seq q) (q_len q) (Z.lor (q_flags q) TH_FIN) (q_m q) else q.

(** A segment: the header's th_seq and th_flags, the copy thflags of the flags that
    tcp_input changes, tlen, and the data. *)
Record segment := Segment { th_seq : Z; th_flags : Z; thflags : Z; tlen : Z; seg_m : list Z }.

(** ** tcp_reass *)

(** TAILQ_FOREACH(q, ...) if (SEQ_GT(q->tqe_th->th_seq, th->th_seq)) break; the entries
    before q, and q with the rest *)
Fixpoint find_after (l : list tseg_qent) (seq : Z) : list tseg_qent * list tseg_qent :=
  match l with
  | [] => ([], [])
  | q :: l' =>
      if SEQ_GT (q_seq q) seq then ([], l)
      else let '(pre, post) := find_after l' seq in (q :: pre, post)
  end.

(** A preceding segment [p]: either it has all data of the incoming one, or what is left
    of th_seq, *tlenp and m *)
Definition overlap_prev (tp : tcpcb) (p : tseg_qent) (seq fl len : Z) (m : list Z) : (tcpcb * tseg_qent) + (tcpcb * Z * Z * list Z) :=
  let i := s32 (q_seq p + q_len p - seq) in
  if i >? 0 then
    let tp := add_sack_flags tp DUP_ENCLOSE in
    let tp := set_enclose_start tp (q_seq p) in
    if i >=? len then
      let p := fin_if fl p in
      inl (set_enclose_end tp (q_end_sack p), p)
    else
      let m := m_adj m i in
      let len := len - i in
      let seq := u32 (seq + i) in
      let tp := set_enclose_end tp (TCP_SACK_BLKEND (seq + len) fl) in
      inr (set_report_end tp seq, seq, len, m)
  else inr (tp, seq, len, m).

(** while (q) ...: the tcpcb, th->th_flags, the rest of the queue and tcp_reass_qsize *)
Fixpoint overlap_next (tp : tcpcb) (seq fl len : Z) (post : list tseg_qent) (qsize : Z) : tcpcb * Z * list tseg_qent * Z :=
  match post with
  | [] => (tp, fl, [], qsize)
  | q :: post' =>
      let i := s32 (seq + len - q_seq q) in
      if i <=? 0 then (tp, fl, post, qsize)
      else
        let tp :=
          if negb (dupseg tp) then
            let tp := add_sack_flags tp DUP_ENCLOSE in
            let tp := set_encloseblk tp (reportblk tp) in
            set_report_start tp (q_seq q)
          else tp in
        let tp :=
          if btest (sack_flags tp) TSACK_F_ENCLOSESEG && SEQ_GT (q_end_sack q) (rblk_end (encloseblk tp))
          then set_enclose_end tp (q_end_sack q) else tp in
        if i <? q_len q then
          (tp, fl, TsegQent (u32 (q_seq q + i)) (q_len q - i) (q_flags q) (m_adj (q_m q) i) :: post', qsize)
        else
          let fl := if btest (q_flags q) TH_FIN then Z.lor fl TH_FIN else fl in
          overlap_next tp seq fl len post' (qsize - 1)
  end.

(** The new entry, coalesced with the following segment if they touch *)
Definition coalesce_next (tp : tcpcb) (te : tseg_qent) (post : list tseg_qent) (qsize : Z) : tcpcb * tseg_qent * list tseg_qent * Z :=
  match post with
  | q :: post' =>
      if q_end te =? q_seq q then
        let te := TsegQent (q_seq te) (q_len te + q_len q) (q_flags te) (q_m te) in
        let te := fin_if (q_flags q) te in
        let tend_sack := q_end_sack te in
        let te := TsegQent (q_seq te) (q_len te) (q_flags te) (q_m te ++ q_m q) in
        let tp := set_enclose_end tp tend_sack in
        let tp := if negb (dupseg tp) then set_report_end tp tend_sack else tp in
        (tp, te, post', qsize - 1)
      else (tp, te, post, qsize)
  | [] => (tp, te, [], qsize)
  end.

(** ... and with the preceding one, or inserted: the queue up to the new data *)
Definition coalesce_prev (tp : tcpcb) (pre : list tseg_qent) (te : tseg_qent) (qsize : Z) : tcpcb * list tseg_qent * Z :=
  match last pre with
  | None => (tp, [te], qsize)
  | Some p =>
      if q_end p =? q_seq te then
        let p := fin_if (q_flags te) p in
        let p := TsegQent (q_seq p) (q_len p + q_len te) (q_flags p) (q_m p ++ q_m te) in
        let tp := set_enclose_start tp (q_seq p) in
        let tp := if negb (dupseg tp) then set_report_start tp (q_seq p) else tp in
        (tp, removelast pre ++ [p], qsize - 1)
      else (tp, pre ++ [te], qsize)
  end.

(** Sorting the segment into the queue, up to present: the tcpcb, the queue and
    tcp_reass_qsize *)
Definition enqueue (tp : tcpcb) (segq : list tseg_qent) (seq fl len : Z) (m : list Z) (qsize : Z) : tcpcb * list tseg_qent * Z :=
  let '(pre, post) := find_after segq seq in
  match match last pre with
        | None => inr (tp, seq, len, m)
        | Some p => overlap_prev tp p seq fl len m
        end with
  | inl (tp, p) => (tp, removelast pre ++ p :: post, qsize - 1)
  | inr (tp, seq, len, m) =>
      let '(tp, fl, post, qsize) := overlap_next tp seq fl len post qsize in
      let '(tp, te, post, qsize) := coalesce_next tp (TsegQent seq len fl m) post qsize in
      let '(tp, pre, qsize) := coalesce_prev tp pre te qsize in
      (tp, pre ++ post, qsize)
  end.

(** present: the connection and the flags that tcp_reass returns *)
Definition present (c : conn) : outcome (conn * Z) :=
  if negb (TCPS_HAVEESTABLISHED (t_state c)) then mret (c, 0)
  else
    match t_segq c with
    | [] => mret (c, 0)
    | q :: rest =>
        if negb (q_seq q =? rcv_nxt (tp c)) then mret (c, 0)
        else
          let t := set_rcv_nxt (tp c) (u32 (rcv_nxt (tp c) + q_len q)) in
          let t := if negb (dupseg t) then no_report t else t in
          let t := set_sack_flags t (Z.ldiff (sack_flags t) TSACK_F_ENCLOSESEG) in
          _ ← KKASSERT "segment not coalesced" (match rest with [] => true | q2 :: _ => negb (q_seq q2 =? rcv_nxt t) end);
          let c := set_segq (set_tp c t) rest in
          let c := if cantrcvmore c then c else set_so c (so_rcv c ++ q_m q) (cantrcvmore c) in
          mret (set_qsize c (tcp_reass_qsize c - 1), Z.land (q_flags q) TH_FIN)
    end.

Section Reass.
Context (tcp_reass_maxseg : Z).

(** [th] is NULL or the segment's th_seq, th_flags, *tlenp and m; [kmalloc_ok] says
    whether there is memory for a queue entry.  The connection and the flags. *)
Definition tcp_reass (kmalloc_ok : bool) (c : conn) (th : option (Z * Z * Z * list Z)) : outcome (conn * Z) :=
  match th with
  | None => present c
  | Some (seq, fl, len, m) =>
      if negb (seq =? rcv_nxt (tp c)) && (tcp_reass_qsize c + 1 >=? tcp_reass_maxseg) then
        mret (set_tp c (no_report (tp c)), 0)
      else if negb kmalloc_ok then mret (set_tp c (no_report (tp c)), 0)
      else
        let qsize := tcp_reass_qsize c + 1 in
        let c := if btest fl TH_FIN then add_t_flags c TF_QUEDFIN else c in
        let '(t, q, qsize) := enqueue (tp c) (t_segq c) seq fl len m qsize in
        present (set_qsize (set_segq (set_tp c t) q) qsize)
  end.

(** ** tcp_input *)

(** todrop = tp->rcv_nxt - th->th_seq; if (todrop > 0) ... *)
Definition drop_head (c : conn) (s : segment) : conn * segment :=
  let todrop := s32 (rcv_nxt (tp c) - th_seq s) in
  if todrop >? 0 then
    let c :=
      if btest (t_flags c) TF_SACK_PERMITTED then
        let e := TCP_SACK_BLKEND (th_seq s + tlen s) (thflags s) in
        let e := if SEQ_GT e (rcv_nxt (tp c)) then rcv_nxt (tp c) else e in
        let t := set_reportblk (tp c) (RawSackblock (th_seq s) e) in
        let t := add_sack_flags t (Z.lor TSACK_F_DUPSEG TSACK_F_SACKLEFT) in
        add_t_flags (set_tp c t) TF_ACKNOW
      else c in
    let '(seq, fl, todrop) :=
      if btest (thflags s) TH_SYN then (u32 (th_seq s + 1), Z.ldiff (thflags s) TH_SYN, todrop - 1)
      else (th_seq s, thflags s, todrop) in
    let '(c, fl, todrop) :=
      if (todrop >? tlen s) || ((todrop =? tlen s) && negb (btest fl TH_FIN))
      then (add_t_flags c TF_ACKNOW, Z.ldiff fl TH_FIN, tlen s)
      else (c, fl, todrop) in
    (c, Segment (u32 (seq + todrop)) (th_flags s) fl (tlen s - todrop) (m_adj (seg_m s) todrop))
  else (c, s).

Inductive verdict :=
  | Continue (c : conn) (s : segment)
  | DropAfterAck
  | NewConnection.

(** todrop = (th->th_seq + tlen) - (tp->rcv_nxt + tp->rcv_wnd); if (todrop > 0) ... *)
Definition drop_tail (c : conn) (s : segment) : verdict :=
  let todrop := s32 (th_seq s + tlen s - (rcv_nxt (tp c) + rcv_wnd c)) in
  if todrop >? 0 then
    let cut c := Continue c (Segment (th_seq s) (th_flags s) (Z.ldiff (thflags s) (Z.lor TH_PUSH TH_FIN)) (tlen s - todrop) (m_adj (seg_m s) (- todrop))) in
    if todrop >=? tlen s then
      if btest (thflags s) TH_SYN && (t_state c =? TCPS_TIME_WAIT) && SEQ_GT (th_seq s) (rcv_nxt (tp c)) then NewConnection
      else if (rcv_wnd c =? 0) && (th_seq s =? rcv_nxt (tp c)) then cut (add_t_flags c TF_ACKNOW)
      else DropAfterAck
    else cut c
  else Continue c s.

(** The acknowledgement of our SYN, in SYN_RECEIVED; the flags that tcp_reass returns are
    not used *)
Definition syn_acked (c : conn) (s : segment) : outcome conn :=
  if t_state c =? TCPS_SYN_RECEIVED then
    let c :=
      if btest (t_flags c) TF_NEEDFIN
      then set_t_flags (set_t_state c TCPS_FIN_WAIT_1) (Z.ldiff (t_flags c) TF_NEEDFIN)
      else set_t_state c TCPS_ESTABLISHED in
    if (tlen s =? 0) && negb (btest (thflags s) TH_FIN) then
      '(c, _) ← tcp_reass true c None;
      mret c
    else mret c
  else mret c.

(** dodata, to where thflags says whether a FIN is to be processed; [delay_ack] is
    DELAY_ACK(tp) *)
Definition dodata (kmalloc_ok delay_ack : bool) (c : conn) (s : segment) : outcome (conn * Z) :=
  if (negb (tlen s =? 0) || btest (thflags s) TH_FIN) && negb (TCPS_HAVERCVDFIN (t_state c)) then
    let c := if btest (thflags s) TH_FIN then add_t_flags c TF_SAWFIN else c in
    if (th_seq s =? rcv_nxt (tp c)) && (match t_segq c with [] => true | _ => false end) && TCPS_HAVEESTABLISHED (t_state c) then
      let c := if btest (thflags s) TH_FIN then add_t_flags c TF_QUEDFIN else c in
      let c := if delay_ack then c else add_t_flags c TF_ACKNOW in
      let c := set_tp c (set_rcv_nxt (tp c) (u32 (rcv_nxt (tp c) + tlen s))) in
      let c := if cantrcvmore c then c else set_so c (so_rcv c ++ seg_m s) (cantrcvmore c) in
      mret (c, Z.land (th_flags s) TH_FIN)
    else
      let c :=
        if negb (dupseg (tp c))
        then set_tp c (set_reportblk (tp c) (RawSackblock (th_seq s) (TCP_SACK_BLKEND (th_seq s + tlen s) (thflags s))))
        else c in
      '(c, fl) ← tcp_reass kmalloc_ok c (Some (th_seq s, th_flags s, tlen s, seg_m s));
      mret (add_t_flags c TF_ACKNOW, fl)
  else mret (c, Z.ldiff (thflags s) TH_FIN).

(** if (thflags & TH_FIN) ...; [delay_ack] is DELAY_ACK(tp) *)
Definition do_fin (delay_ack : bool) (c : conn) (fl : Z) : conn :=
  if btest fl TH_FIN then
    let c :=
      if negb (TCPS_HAVERCVDFIN (t_state c)) then
        let c := set_so c (so_rcv c) true in
        let c := if delay_ack && btest (t_flags c) TF_NEEDSYN then c else add_t_flags c TF_ACKNOW in
        set_tp c (set_rcv_nxt (tp c) (u32 (rcv_nxt (tp c) + 1)))
      else c in
    if (t_state c =? TCPS_SYN_RECEIVED) || (t_state c =? TCPS_ESTABLISHED) then set_t_state c TCPS_CLOSE_WAIT
    else if t_state c =? TCPS_FIN_WAIT_1 then set_t_state c TCPS_CLOSING
    else if t_state c =? TCPS_FIN_WAIT_2 then set_t_state c TCPS_TIME_WAIT
    else c
  else c.

(** The way of a segment's data through tcp_input, in SYN_RECEIVED and later states; None
    if the connection is closed.  [delay_ack] is DELAY_ACK(tp) where the data and where the
    FIN is processed. *)
Definition tcp_input_data (kmalloc_ok : bool) (delay_ack : bool * bool) (c : conn) (s : segment) : outcome (option conn) :=
  let '(c, s) := drop_head c s in
  match drop_tail c s with
  | Continue c s =>
      if btest (thflags s) TH_SYN then mret None
      else if negb (btest (thflags s) TH_ACK) && negb ((t_state c =? TCPS_SYN_RECEIVED) || btest (t_flags c) TF_NEEDSYN) then mret (Some c)
      else
        c ← (if btest (thflags s) TH_ACK then syn_acked c s else mret c);
        '(c, fl) ← dodata kmalloc_ok delay_ack.1 c s;
        mret (Some (do_fin delay_ack.2 c fl))
  | DropAfterAck => mret (Some c)
  | NewConnection => mret None
  end.
End Reass.

(** ** Freeing the queue *)

(** What tcp_drain_oncpu does to a connection. *)
Fixpoint drain_loop (l : list tseg_qent) (c : conn) : conn :=
  match l with
  | [] => c
  | te :: l =>
      let c := set_segq c l in
      let c := if btest (q_flags te) TH_FIN then set_t_flags c (Z.ldiff (t_flags c) TF_QUEDFIN) else c in
      drain_loop l (set_qsize c (tcp_reass_qsize c - 1))
  end.
Definition tcp_drain_conn (c : conn) : conn := drain_loop (t_segq c) c.

(** ** A segment with an old timestamp *)

(** May it be merged with the last entry of the queue? *)
Definition tcp_paws_canreasslast (l : list tseg_qent) (seq len : Z) : bool :=
  match last l with
  | None => false
  | Some lst =>
      if q_end lst =? seq then negb (btest (q_flags lst) TH_FIN)
      else if negb (u32 (seq + len) =? q_seq lst) then false
      else
        match last (removelast l) with
        | None => true
        | Some prev => SEQ_GEQ seq (q_end prev)
        end
  end.
