(* ===== verification/ReassInv.v ===== *)
(** * Receiving data: the reassembly queue as intervals of a stream

    The peer sends the bytes of one stream, [stream z] with the sequence number [z], and
    a FIN after the last one, before [fin].  An entry of the queue is an interval. *)

From stdpp Require Import prelude list list_numbers strings gmap.
From S2P Require Import Prelude.
From S2P Require Import Seq.
From S2P Require Import Sack.
From S2P Require Import Sackrep.
From S2P Require Import SackrepHist.
From S2P Require Import SackrepReport.
From S2P Require Import Reass.
Open Scope Z_scope.

(** The bytes [ea, eb), and whether the FIN is at its end. *)
Record ent := Ent { ea : Z; eb : Z; ef : bool }.

(** The sequence numbers of an entry: a FIN has one. *)
Definition eblk (e : ent) : Z * Z := (ea e, eb e + Z.b2z (ef e)).

(** ** Intervals *)

(** An interval of the stream between [lo] and [hi], with something in it. *)
Definition ent_ok (fin lo hi : Z) (e : ent) : Prop :=
  lo <= ea e /\ ea e <= eb e /\ eb e < hi /\ eb e <= fin /\ (ef e = true -> eb e = fin) /\ (ea e < eb e \/ ef e = true).

(** Intervals in order, with gaps between them. *)
Fixpoint chain (lo : Z) (l : list ent) : Prop :=
  match l with [] => True | e :: l => lo <= ea e /\ chain (eb e + 1) l end.

Definition cov (l : list ent) (z : Z) : Prop := Exists (fun e => ea e <= z < eb e) l.
Definition has_fin (l : list ent) : bool := existsb ef l.

Lemma chain_le lo lo' l : lo' <= lo -> chain lo l -> chain lo' l.
Proof. destruct l; [done |]. cbn. intros ? [? ?]. split; [lia | done]. Qed.

Lemma chain_app lo l1 e l2 : chain lo (l1 ++ e :: l2) <-> chain lo (l1 ++ [e]) /\ chain (eb e + 1) l2.
Proof. revert lo. induction l1 as [| x l1 IH]; intros lo; cbn; [tauto |]. rewrite IH. tauto. Qed.

Lemma chain_app_l lo l1 l2 : chain lo (l1 ++ l2) -> chain lo l1.
Proof. revert lo. induction l1 as [| x l1 IH]; intros lo; cbn; [done |]. intros [? ?]. split; [done |]. by apply IH. Qed.

(** The last entry of a chain may be replaced by one that starts at the same place. *)
Lemma chain_last lo l e e' : ea e <= ea e' -> chain lo (l ++ [e]) -> chain lo (l ++ [e']).
Proof. intros H. revert lo. induction l as [| x l IH]; intros lo; cbn; [intros [? _]; split; [lia | done] |]. intros [? ?]. split; [done |]. by apply IH. Qed.

Lemma chain_snoc lo l p e : eb p < ea e -> chain lo (l ++ [p]) -> chain lo (l ++ [p; e]).
Proof. intros H. revert lo. induction l as [| x l IH]; intros lo; cbn; [intros [? _]; split_and!; [done | lia | done] |]. intros [? ?]. split; [done |]. by apply IH. Qed.

Lemma cov_app l1 l2 z : cov (l1 ++ l2) z <-> cov l1 z \/ cov l2 z.
Proof. apply Exists_app. Qed.

Lemma cov_cons e l z : cov (e :: l) z <-> ea e <= z < eb e \/ cov l z.
Proof. apply Exists_cons. Qed.

Lemma cov_nil z : cov [] z <-> False.
Proof. apply Exists_nil. Qed.

Lemma has_fin_app l1 l2 : has_fin (l1 ++ l2) = has_fin l1 || has_fin l2.
Proof. apply existsb_app. Qed.

(** ** The following entries *)

(** All that touches [b], joined. *)
Fixpoint absorb (b : Z) (f : bool) (l : list ent) : Z * bool * list ent :=
  match l with
  | [] => (b, f, [])
  | e :: l' => if ea e <=? b then absorb (Z.max b (eb e)) (f || ef e) l' else (b, f, l)
  end.

Lemma absorb_stop b f l : chain (b + 1) l -> absorb b f l = (b, f, l).
Proof. destruct l as [| e l]; [done |]. cbn. intros [? _]. destruct (Z.leb_spec (ea e) b); [lia | done]. Qed.

Lemma absorb_le b f l b' f' l' : absorb b f l = (b', f', l') -> b <= b'.
Proof.
  revert b f. induction l as [| e l IH]; cbn [absorb]; intros b f E; [injection E; lia |].
  destruct (ea e <=? b); [| injection E; lia]. specialize (IH _ _ E). lia.
Qed.

Lemma absorb_ok fin lo hi a l : forall b f b' f' l', absorb b f l = (b', f', l') -> ent_ok fin lo hi (Ent a b f) -> Forall (ent_ok fin lo hi) l -> chain (a + 1) l ->
  ent_ok fin lo hi (Ent a b' f') /\ Forall (ent_ok fin lo hi) l' /\ chain (b' + 1) l' /\
  (forall z, (a <= z < b' \/ cov l' z) <-> (a <= z < b \/ cov l z)) /\ (f' || has_fin l') = (f || has_fin l).
Proof.
  induction l as [| e l IH]; intros b f b' f' l'; cbn [absorb].
  - intros [= <- <- <-] H1 H2 H3. split_and!; done.
  - intros E H1 H2 H3. pose proof H2 as H2'. apply Forall_cons in H2 as [He H2]. destruct H3 as [H3 H3']. destruct (Z.leb_spec (ea e) b) as [Hle | Hgt].
    + destruct He as (E1 & E2 & E3 & E4 & E5 & E6). pose proof H1 as (F1 & F2 & F3 & F4 & F5 & F6). cbn [ea eb ef] in *.
      destruct (IH _ _ _ _ _ E) as (I1 & I2 & I3 & I4 & I5); [| done | apply (chain_le (eb e + 1)); [lia | done] |].
      { unfold ent_ok. cbn [ea eb ef]. split_and!; [done | lia | lia | lia | | ].
        - rewrite orb_true_iff. intros [H | H]; [specialize (F5 H) | specialize (E5 H)]; lia.
        - destruct F6 as [? | ->]; [left; lia | right; done]. }
      split_and!; [done | done | done | | rewrite I5; cbn; by rewrite orb_assoc].
      intros z. rewrite I4, cov_cons. split; [intros [? | ?]; [| tauto] | intros [? | [? | ?]]; [| | tauto]]; [destruct (decide (z < b)); [left | right; left]; lia | left; lia | left; lia].
    + injection E as <- <- <-. split_and!; try done. split; [lia | done].
Qed.

Section Stream.
Context (stream : Z -> Z) (fin : Z).

(** ** Pieces of the stream *)

Definition slice (a b : Z) : list Z := stream <$> seqZ a (b - a).

Lemma zlen_slice a b : a <= b -> zlen (slice a b) = b - a.
Proof. intros. unfold zlen, slice. rewrite length_fmap, length_seqZ. lia. Qed.

Lemma slice_nil a : slice a a = [].
Proof. unfold slice. by rewrite Z.sub_diag. Qed.

Lemma slice_app a b c : a <= b -> b <= c -> slice a b ++ slice b c = slice a c.
Proof.
  intros H1 H2. unfold slice. rewrite <- fmap_app. f_equal. replace (c - a) with ((b - a) + (c - b)) by lia.
  rewrite seqZ_app by lia. do 2 f_equal; lia.
Qed.

Lemma slice_drop a b i : 0 <= i -> a + i <= b -> drop (Z.to_nat i) (slice a b) = slice (a + i) b.
Proof.
  intros H1 H2. rewrite <- (slice_app a (a + i) b) by lia. rewrite drop_app_length'; [done |].
  pose proof (zlen_slice a (a + i)). unfold zlen in *. lia.
Qed.

Lemma slice_take a b i : 0 <= i -> a + i <= b -> take (Z.to_nat i) (slice a b) = slice a (a + i).
Proof.
  intros H1 H2. rewrite <- (slice_app a (a + i) b) by lia. rewrite take_app_length'; [done |].
  pose proof (zlen_slice a (a + i)). unfold zlen in *. lia.
Qed.

(** ** Entries *)

(** The entry [q] holds the interval [e]. *)
Definition rep (q : tseg_qent) (e : ent) : Prop :=
  q_seq q = u32 (ea e) /\ q_len q = eb e - ea e /\ btest (q_flags q) TH_FIN = ef e /\ q_m q = slice (ea e) (eb e).

Section Window.
Context (lo hi : Z).
Hypothesis Hwin : hi - lo < 2 ^ 31.

Lemma find_after_ok q l x : Forall2 rep q l -> Forall (ent_ok fin lo hi) l -> lo <= x <= hi ->
  exists qpre qpost lpre lpost, find_after q (u32 x) = (qpre, qpost) /\ q = qpre ++ qpost /\ l = lpre ++ lpost /\ Forall2 rep qpre lpre /\ Forall2 rep qpost lpost /\
    Forall (fun e => ea e <= x) lpre /\ match lpost with [] => True | e :: _ => x < ea e end.
Proof.
  intros H Hok Hx. induction H as [| q0 e q l Hr H IH]; cbn [find_after].
  - by exists [], [], [], [].
  - apply Forall_cons in Hok as [(E1 & E2 & E3 & _) Hok]. pose proof Hr as (Es & _). rewrite Es, SEQ_GT_near by (unfold near; lia). destruct (Z.ltb_spec x (ea e)).
    + exists [], (q0 :: q), [], (e :: l). split_and!; try done. by constructor.
    + destruct (IH Hok) as (qpre & qpost & lpre & lpost & -> & -> & -> & I1 & I2 & I3 & I4). exists (q0 :: qpre), qpost, (e :: lpre), lpost.
      split_and!; try done; by constructor.
Qed.

Lemma rep_end q e : rep q e -> q_end q = u32 (eb e).
Proof. intros (E1 & E2 & _). unfold q_end. rewrite E1, E2, u32_seq_add. f_equal. lia. Qed.

Lemma rep_end_sack q e : rep q e -> q_end_sack q = u32 (eblk e).2.
Proof.
  intros (E1 & E2 & E3 & _). unfold q_end_sack, TCP_SACK_BLKEND, eblk. cbn. rewrite E1, E2, E3, <- Z.add_assoc, u32_seq_add. f_equal. lia.
Qed.

Lemma fin_if_rep fl q e : rep q e -> rep (fin_if fl q) (Ent (ea e) (eb e) (ef e || btest fl TH_FIN)).
Proof.
  intros (E1 & E2 & E3 & E4). unfold fin_if. destruct (btest fl TH_FIN); [| rewrite orb_false_r; by split_and!].
  split_and!; try done. cbn [q_flags ef]. by rewrite btest_lor, E3.
Qed.

(** A duplicate block that is to be reported. *)
Definition dup_ok (wlo whi : Z) (t : tcpcb) : Prop := exists x y, reportblk t = raw (x, y) /\ wlo <= x < y /\ y <= whi.

(** The blocks that are to be reported are those of [a, b), with the FIN if [f]. *)
Definition tr (wlo whi : Z) (t : tcpcb) (a b : Z) (f : bool) : Prop :=
  if dupseg t then dup_ok wlo whi t /\ (enclosed t = true -> encloseblk t = raw (a, b + Z.b2z f))
  else enclosed t = false /\ reportblk t = raw (a, b + Z.b2z f).

(** What the steps do not change. *)
Definition same (t t' : tcpcb) : Prop :=
  rcv_nxt t' = rcv_nxt t /\ nsackhistory t' = nsackhistory t /\ sackhistory t' = sackhistory t /\ scb t' = scb t /\
  (dupseg t = true -> dupseg t' = true /\ rblk_start (reportblk t') = rblk_start (reportblk t)) /\
  ((dupseg t = true -> enclosed t = true) -> dupseg t' = true -> enclosed t' = true).
End Window.
End Stream.
