(* ===== verification/ReassSeg.v ===== *)
(** * Receiving data: the parts of tcp_reass, and a segment and the queue *)

From stdpp Require Import prelude list list_numbers strings gmap.
From S2P Require Import Prelude.
From S2P Require Import Seq.
From S2P Require Import Sack.
From S2P Require Import Sackrep.
From S2P Require Import SackrepHist.
From S2P Require Import SackrepReport.
From S2P Require Import Reass.
From S2P Require Import ReassInv.
Open Scope Z_scope.

Lemma same_refl t : same t t.
Proof. unfold same. split_and!; tauto. Qed.

Lemma same_trans t1 t2 t3 : same t1 t2 -> same t2 t3 -> same t1 t3.
Proof.
  unfold same. intros (A1 & A2 & A3 & A4 & A5 & A6) (B1 & B2 & B3 & B4 & B5 & B6). split_and!; try congruence; [| tauto].
  intros H. destruct (A5 H) as [H1 H2]. destruct (B5 H1) as [H3 H4]. split; congruence.
Qed.

Lemma dup_enclose t : dupseg (add_sack_flags t DUP_ENCLOSE) = true /\ enclosed (add_sack_flags t DUP_ENCLOSE) = true.
Proof. unfold dupseg, enclosed, add_sack_flags. cbn [sack_flags set_sack_flags]. rewrite !btest_lor. split; apply orb_true_r. Qed.

Section Stream.
Context (stream : Z -> Z) (fin : Z).
Context (wlo whi lo hi : Z).
Hypothesis Hwin : hi - lo < 2 ^ 31.

#[local] #[warnings="-notation-for-abbreviation"] Notation rep := (rep stream).
#[local] #[warnings="-notation-for-abbreviation"] Notation slice := (slice stream).
#[local] #[warnings="-notation-for-abbreviation"] Notation ent_ok := (ent_ok fin lo hi).
#[local] #[warnings="-notation-for-abbreviation"] Notation tr := (tr wlo whi).

(** ** The following entries *)

(** The first time that an entry is found to overlap. *)
Definition first_dup (t : tcpcb) (q : tseg_qent) : tcpcb :=
  let t :=
    if negb (dupseg t) then
      let t := add_sack_flags t DUP_ENCLOSE in
      let t := set_encloseblk t (reportblk t) in
      set_report_start t (q_seq q)
    else t in
  if btest (sack_flags t) TSACK_F_ENCLOSESEG && SEQ_GT (q_end_sack q) (rblk_end (encloseblk t))
  then set_enclose_end t (q_end_sack q) else t.

Lemma overlap_next_cons t seq fl len q post qs : overlap_next t seq fl len (q :: post) qs =
  let i := s32 (seq + len - q_seq q) in
  if i <=? 0 then (t, fl, q :: post, qs)
  else if i <? q_len q then (first_dup t q, fl, TsegQent (u32 (q_seq q + i)) (q_len q - i) (q_flags q) (m_adj (q_m q) i) :: post, qs)
  else overlap_next (first_dup t q) seq (if btest (q_flags q) TH_FIN then Z.lor fl TH_FIN else fl) len post (qs - 1).
Proof. done. Qed.

Lemma first_dup_same t q : same t (first_dup t q) /\ dupseg (first_dup t q) = true.
Proof.
  assert (H : forall t', same t' (if btest (sack_flags t') TSACK_F_ENCLOSESEG && SEQ_GT (q_end_sack q) (rblk_end (encloseblk t')) then set_enclose_end t' (q_end_sack q) else t') /\
     dupseg (if btest (sack_flags t') TSACK_F_ENCLOSESEG && SEQ_GT (q_end_sack q) (rblk_end (encloseblk t')) then set_enclose_end t' (q_end_sack q) else t') = dupseg t').
  { intros t'. destruct (_ && _); [| split; [apply same_refl | done]]. unfold same. cbn. split_and!; try done; tauto. }
  unfold first_dup. destruct (dupseg t) eqn:E; cbn [negb].
  - destruct (H t) as [H1 H2]. by rewrite H2.
  - set (t1 := set_report_start _ _). assert (H0 : same t t1 /\ dupseg t1 = true).
    { destruct (dup_enclose t) as [D1 D2]. split; [| exact D1]. unfold same. split_and!; try done; try congruence; intros _ _; exact D2. }
    destruct (H t1) as [H1 H2]. rewrite H2. split; [| apply H0]. eapply same_trans; [apply H0 | done].
Qed.

(** The enclosing block after that. *)
Lemma first_dup_ok t q e a b f : rep q e -> tr t a b f -> wlo <= ea e -> ea e < b -> (dupseg t = false -> b + Z.b2z f <= whi) -> dup_ok wlo whi (first_dup t q).
Proof.
  intros (Es & _) Ht H1 H2 H3. assert (Er : reportblk (first_dup t q) = if dupseg t then reportblk t else RawSackblock (u32 (ea e)) (rblk_end (reportblk t))).
  { unfold first_dup. destruct (dupseg t); cbn [negb]; [by destruct (_ && _) |]. rewrite Es. by destruct (_ && _). }
  unfold dup_ok. rewrite Er. unfold ReassInv.tr in Ht. destruct (dupseg t); [apply Ht |]. destruct Ht as [_ ->]. exists (ea e), (b + Z.b2z f).
  specialize (H3 eq_refl). split; [done |]. destruct f; cbn in *; lia.
Qed.

Lemma first_dup_tr t q e a b f : rep q e -> tr t a b f -> near (eblk e).2 (b + Z.b2z f) ->
  enclosed (first_dup t q) = true -> encloseblk (first_dup t q) = raw (a, Z.max (b + Z.b2z f) (eblk e).2).
Proof.
  intros Hr Ht Hn. unfold first_dup, ReassInv.tr in *. set (e' := eblk e) in *. assert (H : forall t', (enclosed t' = true -> encloseblk t' = raw (a, b + Z.b2z f)) ->
    enclosed (if btest (sack_flags t') TSACK_F_ENCLOSESEG && SEQ_GT (q_end_sack q) (rblk_end (encloseblk t')) then set_enclose_end t' (q_end_sack q) else t') = true ->
    encloseblk (if btest (sack_flags t') TSACK_F_ENCLOSESEG && SEQ_GT (q_end_sack q) (rblk_end (encloseblk t')) then set_enclose_end t' (q_end_sack q) else t') = raw (a, Z.max (b + Z.b2z f) e'.2)).
  { intros t' Ht'. fold (enclosed t'). destruct (enclosed t') eqn:En; cbn [andb]; [| congruence]. specialize (Ht' eq_refl). rewrite (rep_end_sack stream q e Hr). fold e'. rewrite Ht'. cbn [rblk_end raw snd].
    rewrite SEQ_GT_near by done. destruct (Z.ltb_spec (b + Z.b2z f) e'.2); intros _.
    - unfold set_enclose_end. cbn [encloseblk set_encloseblk]. rewrite Ht'. unfold raw. cbn [rblk_start fst snd]. by rewrite Z.max_r by lia.
    - rewrite Ht', Z.max_l by lia. done. }
  destruct (dupseg t); cbn [negb]; [apply H, Ht |]. apply H. intros _. cbn. apply Ht.
Qed.

Lemma rep_intro a b f fl m : btest fl TH_FIN = f -> m = slice a b -> rep (TsegQent (u32 a) (b - a) fl m) (Ent a b f).
Proof. intros <- ->. by split_and!. Qed.

Lemma coalesce_next_ok post l t a' a b f fl qs : Forall2 rep post l -> ent_ok (Ent a b f) -> Forall ent_ok l -> chain b l -> btest fl TH_FIN = f ->
  (match l with e :: _ => ea e = b | [] => False end \/ tr t a' b f) ->
  (dupseg t = true -> dup_ok wlo whi t /\ (enclosed t = true -> exists y, encloseblk t = raw (a', y))) -> (dupseg t = false -> enclosed t = false /\ exists y, reportblk t = raw (a', y)) ->
  forall b' f' l', absorb b f l = (b', f', l') ->
  exists t' te' post' qs', coalesce_next t (TsegQent (u32 a) (b - a) fl (slice a b)) post qs = (t', te', post', qs') /\
    rep te' (Ent a b' f') /\ Forall2 rep post' l' /\ tr t' a' b' f' /\ same t t' /\ qs' + zlen l = qs + zlen l'.
Proof.
  intros Hp Ha Hl Hc Hf Htr Hdup Hnodup b' f' l' E. assert (Hte : rep (TsegQent (u32 a) (b - a) fl (slice a b)) (Ent a b f)) by (by apply rep_intro).
  destruct Hp as [| q e post l Hq Hp]; cbn [coalesce_next].
  - cbn in E. injection E as <- <- <-. destruct Htr as [[] | Htr]. eexists _, _, _, _. split; [done |]. split_and!; try done; first [by constructor | apply same_refl].
  - rewrite (rep_end _ _ _ Hte). pose proof Hq as (Es & El & Ef & Em). cbn [eb]. rewrite Es. apply Forall_cons in Hl as [He Hl]. destruct Hc as [Hc Hc'].
    destruct Ha as (A1 & A2 & A3 & A4 & A5 & A6). destruct He as (E1 & E2 & E3 & E4 & E5 & E6). cbn [ea eb ef] in *. cbn [absorb] in E.
    destruct (Z.eqb_spec (u32 b) (u32 (ea e))) as [Heq | Hne].
    + apply (proj1 (seq_eq_near b (ea e) ltac:(unfold near; lia))) in Heq. destruct (Z.leb_spec (ea e) b); [| lia]. rewrite Z.max_r in E by lia.
      rewrite absorb_stop in E by done. injection E as <- <- <-.
      assert (Hte1 : rep (fin_if (q_flags q) (TsegQent (u32 a) (b - a + q_len q) fl (slice a b ++ q_m q))) (Ent a (eb e) (f || ef e))).
      { pose proof (fin_if_rep stream (q_flags q) (TsegQent (u32 a) (b - a + q_len q) fl (slice a b ++ q_m q)) (Ent a (eb e) f)) as H1. cbn [ea eb ef] in H1. rewrite Ef in H1. apply H1.
        rewrite El, Em, <- Heq, slice_app by lia. replace (b - a + (eb e - b)) with (eb e - a) by lia. by apply rep_intro. }
      set (x := fin_if (q_flags q) (TsegQent (u32 a) (b - a + q_len q) fl (slice a b ++ q_m q))) in Hte1.
      assert (Ex : TsegQent (q_seq (fin_if (q_flags q) (TsegQent (u32 a) (b - a + q_len q) fl (slice a b)))) (q_len (fin_if (q_flags q) (TsegQent (u32 a) (b - a + q_len q) fl (slice a b))))
         (q_flags (fin_if (q_flags q) (TsegQent (u32 a) (b - a + q_len q) fl (slice a b)))) (q_m (fin_if (q_flags q) (TsegQent (u32 a) (b - a + q_len q) fl (slice a b))) ++ q_m q) = x).
      { unfold x, fin_if. by destruct (btest (q_flags q) TH_FIN). }
      assert (Ex2 : q_end_sack (fin_if (q_flags q) (TsegQent (u32 a) (b - a + q_len q) fl (slice a b))) = u32 (eb e + Z.b2z (f || ef e))).
      { transitivity (q_end_sack x); [unfold x, fin_if; by destruct (btest (q_flags q) TH_FIN) | exact (rep_end_sack _ _ _ Hte1)]. }
      cbn [q_seq q_len q_flags q_m]. rewrite Ex2, Ex. eexists _, x, post, (qs - 1). split; [done |]. split_and!; [done | done | | | zl].
      * unfold ReassInv.tr. change (dupseg (set_enclose_end t _)) with (dupseg t). destruct (dupseg t) eqn:Ed; cbn [negb].
        -- change (dupseg (set_enclose_end t _)) with (dupseg t). rewrite Ed. destruct (Hdup eq_refl) as [Hdo Hdup']. split; [exact Hdo |]. intros He. destruct (Hdup' He) as [y Hy]. unfold set_enclose_end. cbn [encloseblk set_encloseblk]. by rewrite Hy.
        -- change (dupseg (set_report_end _ _)) with (dupseg t). rewrite Ed. destruct (Hnodup eq_refl) as [He [y Hy]]. split; [exact He |].
           unfold set_report_end. cbn [reportblk set_reportblk set_enclose_end set_encloseblk]. by rewrite Hy.
      * unfold same. change (dupseg (set_enclose_end t _)) with (dupseg t). destruct (dupseg t) eqn:Ed; cbn [negb]; split_and!; try done; try congruence.
        -- change (dupseg (set_enclose_end t _)) with (dupseg t). tauto.
        -- change (dupseg (set_report_end _ _)) with (dupseg t). congruence.
    + destruct (Z.leb_spec (ea e) b) as [Hle | Hgt].
      { exfalso. apply Hne. f_equal. lia. }
      injection E as <- <- <-. destruct Htr as [Hx | Htr]; [lia |]. eexists _, _, _, _. split; [done |]. split_and!; try done; first [by constructor | apply same_refl].
Qed.

Lemma next_ok post l : Forall2 rep post l -> forall t a' a b f fl qs, ent_ok (Ent a b f) -> Forall ent_ok l -> chain (a + 1) l -> btest fl TH_FIN = f -> tr t a' b f -> (dupseg t = false -> b + Z.b2z f <= whi) -> wlo <= a ->
  forall b' f' l', absorb b f l = (b', f', l') ->
  exists t' te' post' qs',
    (let '(t, fl, post, qs) := overlap_next t (u32 a) fl (b - a) post qs in coalesce_next t (TsegQent (u32 a) (b - a) fl (slice a b)) post qs) = (t', te', post', qs') /\
    rep te' (Ent a b' f') /\ Forall2 rep post' l' /\ tr t' a' b' f' /\ same t t' /\ qs' + zlen l = qs + zlen l'.
Proof.
  induction 1 as [| q e post l Hq Hp IH]; intros t a' a b f fl qs Ha Hl Hc Hf Htr Hb Hwlo b' f' l' E.
  - apply (coalesce_next_ok [] [] t a' a b f); try done; [by right | |]; intros H; unfold ReassInv.tr in Htr; rewrite H in Htr; [destruct Htr; split; [done | intros H2; eauto] | destruct Htr; eauto].
  - pose proof Hq as (Es & El & Ef & Em). pose proof Hl as Hl0. apply Forall_cons in Hl as [He Hl]. pose proof Hc as [Hc1 Hc2]. pose proof Ha as (A1 & A2 & A3 & A4 & A5 & A6). pose proof He as (E1 & E2 & E3 & E4 & E5 & E6). cbn [ea eb ef] in *.
    rewrite overlap_next_cons. cbv zeta. rewrite Es.
    assert (Ei : s32 (u32 a + (b - a) - u32 (ea e)) = b - ea e). { transitivity (s32 (u32 b - u32 (ea e))); [| apply s32_near; unfold near; lia]. unfold s32, u32. f_equal.
      rewrite <- (Z.add_mod_idemp_l (a mod _ + _ - _)), <- (Z.add_mod_idemp_l (b mod _ - _)) by lia. f_equal. f_equal. rewrite <- Zminus_mod. rewrite Zminus_mod_idemp_r, <- (Zminus_mod_idemp_l (a mod _ + _)), Z.add_mod_idemp_l, Zminus_mod_idemp_l by lia. f_equal. lia. }
    rewrite Ei. destruct (Z.leb_spec (b - ea e) 0) as [Hno | Hov].
    + apply (coalesce_next_ok (q :: post) (e :: l) t a' a b f); try done; [by constructor | split; [lia | done] | by right | |]; intros H; unfold ReassInv.tr in Htr; rewrite H in Htr; [destruct Htr; split; [done | intros H2; eauto] | destruct Htr; eauto].
    + destruct (first_dup_same t q) as [Hs Hd].
      assert (Hnear : near (eblk e).2 (b + Z.b2z f)). { unfold near, eblk. cbn. destruct (ef e), f; cbn; lia. }
      pose proof (first_dup_tr t q e a' b f Hq Htr Hnear) as Henc. pose proof (first_dup_ok t q e a' b f Hq Htr ltac:(lia) ltac:(lia) Hb) as Hdok. set (t1 := first_dup t q) in *.
      cbn [absorb] in E. destruct (Z.leb_spec (ea e) b); [| lia]. rewrite El. destruct (Z.ltb_spec (b - ea e) (eb e - ea e)) as [Hlt | Hge].
      * (* the entry is trimmed *)
        assert (Hq1 : rep (TsegQent (u32 (q_seq q + (b - ea e))) (eb e - ea e - (b - ea e)) (q_flags q) (m_adj (q_m q) (b - ea e))) (Ent b (eb e) (ef e))).
        { rewrite Es, u32_seq_add. replace (ea e + (b - ea e)) with b by lia. replace (eb e - ea e - (b - ea e)) with (eb e - b) by lia. apply rep_intro; [done |].
          unfold m_adj. rewrite (proj2 (Z.geb_le _ _)) by lia. rewrite Em, slice_drop by lia. f_equal. lia. }
        rewrite Es in Hq1.
        destruct (coalesce_next_ok (TsegQent (u32 (u32 (ea e) + (b - ea e))) (eb e - ea e - (b - ea e)) (q_flags q) (m_adj (q_m q) (b - ea e)) :: post) (Ent b (eb e) (ef e) :: l) t1 a' a b f fl qs) with (b' := b') (f' := f') (l' := l')
          as (t' & te' & post' & qs' & Ec & R1 & R2 & R3 & R4 & R5); [by constructor | done | | | done | by left | by eauto | congruence | | ].
        -- apply Forall_cons. split; [| done]. unfold ReassInv.ent_ok. cbn [ea eb ef]. split_and!; try done; try lia.
        -- split; [done | done].
        -- cbn [absorb ea eb ef]. destruct (Z.leb_spec b b); [| lia]. done.
        -- eexists _, _, _, _. split; [exact Ec |]. split_and!; try done; try (by eapply same_trans); zl.
      * (* the entry is covered *)
        rewrite Z.max_l in E by lia.
        destruct (IH t1 a' a b (f || ef e) (if btest (q_flags q) TH_FIN then Z.lor fl TH_FIN else fl) (qs - 1)) with (b' := b') (f' := f') (l' := l')
          as (t' & te' & post' & qs' & Ec & R1 & R2 & R3 & R4 & R5); [| done | | | | congruence | done | done |].
        -- unfold ReassInv.ent_ok. cbn [ea eb ef]. split_and!; try done; [| by destruct A6 as [? | ->]; [left | right]]. rewrite orb_true_iff. intros [H2 | H2]; [by apply A5 |]. specialize (E5 H2). lia.
        -- apply (chain_le (eb e + 1)); [lia | done].
        -- rewrite Ef. destruct (ef e); [rewrite btest_lor, Hf; by destruct f | by rewrite orb_false_r].
        -- unfold ReassInv.tr. rewrite Hd. split; [done |]. intros He2. rewrite (Henc He2). f_equal. f_equal. unfold eblk. cbn [snd].
           destruct (ef e) eqn:Eef; [rewrite orb_true_r | rewrite orb_false_r]; cbn [Z.b2z]; [specialize (E5 eq_refl); destruct f; cbn; lia | destruct f; cbn; lia].
        -- eexists _, _, _, _. split; [exact Ec |]. split_and!; try done; try (by eapply same_trans); zl.
Qed.
End Stream.

(** * Receiving data: a segment and the reassembly queue *)

Lemma last_split {A} (l : list A) x : last l = Some x -> l = removelast l ++ [x].
Proof. intros H. apply last_Some in H as [k ->]. by rewrite removelast_last. Qed.

Lemma Forall2_snoc_inv {A B} (R : A -> B -> Prop) l x k : Forall2 R (l ++ [x]) k -> exists k' y, k = k' ++ [y] /\ Forall2 R l k' /\ R x y.
Proof. intros H. apply Forall2_app_inv_l in H as (k1 & k2 & H1 & H2 & ->). inversion H2 as [| ? y ? ? Hy Hn]; subst. inversion Hn; subst. by exists k1, y. Qed.

Section Stream.
Context (stream : Z -> Z) (fin : Z).
Context (wlo whi lo hi : Z).
Hypothesis Hwin : hi - lo < 2 ^ 31.

#[local] #[warnings="-notation-for-abbreviation"] Notation rep := (rep stream).
#[local] #[warnings="-notation-for-abbreviation"] Notation slice := (slice stream).
#[local] #[warnings="-notation-for-abbreviation"] Notation ent_ok := (ent_ok fin lo hi).
#[local] #[warnings="-notation-for-abbreviation"] Notation tr := (tr wlo whi).

(** The result of sorting in [a, b): the queue is [l'], and [e] is where the bytes are. *)
Definition inserted (l : list ent) (a b : Z) (f : bool) (l' : list ent) (e : ent) : Prop :=
  Forall ent_ok l' /\ chain lo l' /\ (forall z, cov l' z <-> cov l z \/ a <= z < b) /\ has_fin l' = has_fin l || f /\
  e ∈ l' /\ ea e <= a /\ b <= eb e.

(** *** The preceding entry *)

Lemma coalesce_prev_none t pre te qs e : Forall2 rep pre [] -> rep te e -> tr t (ea e) (eb e) (ef e) ->
  exists t' pre' qs', coalesce_prev t pre te qs = (t', pre', qs') /\ Forall2 rep pre' [e] /\ tr t' (ea e) (eb e) (ef e) /\ same t t' /\ qs' = qs.
Proof. intros Hp Hte Htr. inversion Hp; subst. cbn. eexists _, _, _. split; [done |]. split_and!; [constructor; [done | constructor] | done | apply same_refl | done]. Qed.

(** [x] is the start of the reported block so far: that of [te], or already that of [p]. *)
Lemma coalesce_prev_some t pre te qs l p e x : Forall2 rep pre (l ++ [p]) -> ent_ok p -> ent_ok e -> eb p <= ea e -> rep te e ->
  tr t x (eb e) (ef e) -> x = ea e \/ (x = ea p /\ eb p = ea e) ->
  exists t' pre' qs', coalesce_prev t pre te qs = (t', pre', qs') /\ same t t' /\
    if eb p =? ea e then let e' := Ent (ea p) (eb e) (ef p || ef e) in Forall2 rep pre' (l ++ [e']) /\ tr t' (ea p) (eb e) (ef e) /\ qs' = qs - 1
    else Forall2 rep pre' (l ++ [p; e]) /\ tr t' (ea e) (eb e) (ef e) /\ qs' = qs.
Proof.
  intros Hp Ok1 Ok2 Hle Hte Htr Hx. apply Forall2_app_inv_r in Hp as (pre1 & k & H1 & H2 & ->).
  inversion H2 as [| q ? ? ? Hq Hn]; subst. inversion Hn; subst. unfold coalesce_prev. rewrite last_snoc, removelast_last, (rep_end _ _ _ Hq).
  pose proof Hq as (Qs & Ql & Qf & Qm). pose proof Hte as (Es & El & Ef & Em). rewrite Es.
  destruct Ok1 as (A1 & A2 & A3 & A4 & A5 & A6). destruct Ok2 as (E1 & E2 & E3 & E4 & E5 & E6).
  destruct (Z.eqb_spec (u32 (eb p)) (u32 (ea e))) as [Heq | Hne]; destruct (Z.eqb_spec (eb p) (ea e)) as [Hpe | Hpe].
  - assert (Hq1 : rep (TsegQent (q_seq (fin_if (q_flags te) q)) (q_len (fin_if (q_flags te) q) + q_len te) (q_flags (fin_if (q_flags te) q)) (q_m (fin_if (q_flags te) q) ++ q_m te)) (Ent (ea p) (eb e) (ef p || ef e))).
    { pose proof (fin_if_rep stream (q_flags te) q p Hq) as (F1 & F2 & F3 & F4). cbn [ea eb ef] in *. rewrite Ef in F3. split_and!; cbn [q_seq q_len q_flags q_m ea eb ef]; [done | lia | done |]. rewrite F4, Em, Hpe. apply slice_app; lia. }
    pose proof Hq1 as (Hs1 & _). cbn [q_seq ea] in Hs1. eexists _, _, _. split; [done |]. cbn [q_seq]. rewrite Hs1 in Hq1 |- *. split.
    + unfold same. change (dupseg (set_enclose_start t _)) with (dupseg t). destruct (dupseg t) eqn:Ed; cbn [negb]; split_and!; try done; try congruence.
      * change (dupseg (set_enclose_start t _)) with (dupseg t). tauto.
      * change (dupseg (set_report_start _ _)) with (dupseg t). congruence.
    + cbn zeta. split; [apply Forall2_app; [done | constructor; [done | constructor]] |]. split; [| done]. unfold ReassInv.tr in *.
      change (dupseg (set_enclose_start t _)) with (dupseg t). destruct (dupseg t) eqn:Ed; cbn [negb].
      * change (dupseg (set_enclose_start t _)) with (dupseg t). rewrite Ed. destruct Htr as [Hdo Htr]. split; [exact Hdo |]. intros He. unfold set_enclose_start. cbn [encloseblk set_encloseblk]. rewrite (Htr He). done.
      * change (dupseg (set_report_start _ _)) with (dupseg t). rewrite Ed. destruct Htr as [He Hr]. split; [exact He |]. unfold set_report_start. cbn [reportblk set_reportblk set_enclose_start set_encloseblk]. by rewrite Hr.
  - exfalso. apply Hpe. apply (proj1 (seq_eq_near (eb p) (ea e) ltac:(unfold near; lia))). done.
  - by rewrite Hpe in Hne.
  - destruct Hx as [-> | [_ Hx]]; [| done]. eexists _, _, _. split; [done |]. split; [apply same_refl |]. split_and!; [| done | done].
    rewrite <- app_assoc. cbn [app]. apply Forall2_app; [done |]. constructor; [done |]. constructor; [done | constructor].
Qed.

Lemma overlap_prev_ok t q p a b f fl : rep q p -> ent_ok p -> ent_ok (Ent a b f) -> ea p <= a -> btest fl TH_FIN = f -> b + Z.b2z f <= whi -> wlo <= a -> tr t a b f -> (dupseg t = true -> exists x y, reportblk t = raw (x, y) /\ wlo <= x < y /\ y <= whi /\ x <= a) ->
  if eb p <=? a then overlap_prev t q (u32 a) fl (b - a) (slice a b) = inr (t, u32 a, b - a, slice a b)
  else if b <=? eb p then exists t', overlap_prev t q (u32 a) fl (b - a) (slice a b) = inl (t', fin_if fl q) /\ tr t' (ea p) (eb p) (ef p || f) /\ same t t'
  else exists t', overlap_prev t q (u32 a) fl (b - a) (slice a b) = inr (t', u32 (eb p), b - eb p, slice (eb p) b) /\ tr t' (ea p) b f /\ same t t'.
Proof.
  intros Hq (A1 & A2 & A3 & A4 & A5 & A6) (E1 & E2 & E3 & E4 & E5 & E6) Ha Hf Hb Hwlo Htr Hx. cbn [ea eb ef] in *. pose proof Hq as (Qs & Ql & Qf & Qm).
  unfold overlap_prev. rewrite Qs, Ql.
  assert (Ei : s32 (u32 (ea p) + (eb p - ea p) - u32 a) = eb p - a). { rewrite <- (s32_near (eb p) a) by (unfold near; lia). unfold s32, u32. f_equal.
    rewrite <- (Z.add_mod_idemp_l (ea p mod _ + _ - _)), <- (Z.add_mod_idemp_l (eb p mod _ - _)) by lia. f_equal. f_equal. rewrite <- Zminus_mod. rewrite Zminus_mod_idemp_r, <- (Zminus_mod_idemp_l (ea p mod _ + _)), Z.add_mod_idemp_l, Zminus_mod_idemp_l by lia. f_equal. lia. }
  rewrite Ei, Z.gtb_ltb. destruct (Z.leb_spec (eb p) a); [destruct (Z.ltb_spec 0 (eb p - a)); [lia | done] |]. destruct (Z.ltb_spec 0 (eb p - a)); [| lia].
  destruct (dup_enclose t) as [D1 D2]. rewrite Z.geb_leb.
  assert (Hx' : exists x y, reportblk t = raw (x, y) /\ wlo <= x < y /\ y <= whi /\ x <= a).
  { unfold ReassInv.tr in Htr. destruct (dupseg t); [by apply Hx |]. destruct Htr as [_ ->]. exists a, (b + Z.b2z f). split; [done |]. destruct E6 as [? | Hf']; [destruct f | rewrite Hf' in *]; cbn [Z.b2z] in *; lia. }
  destruct Hx' as (x & y & Er & X1 & X2 & X3). assert (0 <= Z.b2z f) by (by destruct f). destruct (Z.leb_spec b (eb p)).
  - destruct (Z.leb_spec (b - a) (eb p - a)); [| lia]. eexists. split; [done |]. split.
    + unfold ReassInv.tr. match goal with |- context [dupseg ?x] => change (dupseg x) with (dupseg (add_sack_flags t DUP_ENCLOSE)) end. rewrite D1. split; [exists x, y; split; [exact Er | lia] |]. intros _. cbn [encloseblk set_enclose_end set_enclose_start set_encloseblk rblk_start].
      rewrite (rep_end_sack _ _ _ (fin_if_rep stream fl q p Hq)). unfold eblk. cbn [ea eb ef snd]. by rewrite Hf.
    + unfold same. split_and!; try done; intros _ _; exact D2.
  - destruct (Z.leb_spec (b - a) (eb p - a)); [lia |]. rewrite u32_seq_add. replace (a + (eb p - a)) with (eb p) by lia. replace (b - a - (eb p - a)) with (b - eb p) by lia.
    unfold m_adj. rewrite (proj2 (Z.geb_le _ _)), slice_drop by lia. replace (a + (eb p - a)) with (eb p) by lia. eexists. split; [done |]. split.
    + unfold ReassInv.tr. match goal with |- context [dupseg ?x] => change (dupseg x) with (dupseg (add_sack_flags t DUP_ENCLOSE)) end. rewrite D1. split; [exists x, (eb p); split; [cbn [reportblk set_report_end set_reportblk]; change (rblk_start (reportblk _)) with (rblk_start (reportblk t)); by rewrite Er | lia] |]. intros _. cbn [encloseblk set_enclose_end set_enclose_start set_encloseblk rblk_start set_report_end set_reportblk].
      unfold raw, TCP_SACK_BLKEND. cbn [fst snd]. rewrite Hf, <- Z.add_assoc, u32_seq_add. f_equal. f_equal. lia.
    + unfold same. split_and!; try done; intros _ _; exact D2.
Qed.

(** *** The queue as a whole *)

Lemma chain_head x l : match l with [] => True | e :: _ => x < ea e end -> chain lo l -> chain (x + 1) l.
Proof. destruct l; [done |]. cbn. intros ? [? ?]. split; [lia | done]. Qed.

Lemma fin_join p e : ent_ok p -> ent_ok e -> eb p = ea e -> ef p || ef e = ef e.
Proof.
  intros (_ & _ & _ & _ & Hp & _) (_ & H1 & _ & H2 & _ & H3) E. destruct (ef p); [| done]. specialize (Hp eq_refl). cbn. symmetry. destruct H3; [lia | done].
Qed.

Lemma join_ok p e : ent_ok p -> ent_ok e -> eb p = ea e -> ent_ok (Ent (ea p) (eb e) (ef p || ef e)).
Proof.
  intros Hp He E. rewrite (fin_join p e) by done. destruct Hp as (A1 & A2 & A3 & A4 & A5 & A6), He as (E1 & E2 & E3 & E4 & E5 & E6).
  unfold ReassInv.ent_ok. cbn [ea eb ef]. split_and!; try done; [lia |]. destruct E6; [left; lia | by right].
Qed.

(** The new bytes after [l1], joined with what follows. *)
Lemma inserted_new l1 l2 a b f b' f' l2' : absorb b f l2 = (b', f', l2') -> Forall ent_ok (l1 ++ l2) -> ent_ok (Ent a b f) -> chain (a + 1) l2 ->
  chain lo (l1 ++ [Ent a b' f']) -> inserted (l1 ++ l2) a b f (l1 ++ Ent a b' f' :: l2') (Ent a b' f').
Proof.
  intros E Hok Ha Hc1 Hc. apply Forall_app in Hok as [Hok1 Hok2]. destruct (absorb_ok fin lo hi a l2 b f b' f' l2' E Ha Hok2 Hc1) as (I1 & I2 & I3 & I4 & I5).
  unfold inserted. split_and!.
  - apply Forall_app. split; [done |]. by apply Forall_cons.
  - by apply chain_app.
  - intros z. rewrite !cov_app, cov_cons. cbn [ea eb]. specialize (I4 z). tauto.
  - rewrite !has_fin_app. cbn [has_fin existsb ef]. change (existsb ef l2') with (has_fin l2'). rewrite I5. destruct (has_fin l1), f, (has_fin l2); done.
  - apply elem_of_app. right. left.
  - done.
  - cbn. by eapply absorb_le.
Qed.

(** ... and with the preceding one. *)
Lemma inserted_join l1 p l2 a0 a b f b' f' l2' : absorb b f l2 = (b', f', l2') -> Forall ent_ok (l1 ++ p :: l2) -> ent_ok (Ent a b f) -> chain lo (l1 ++ p :: l2) ->
  eb p = a -> ea p <= a0 <= a -> inserted (l1 ++ p :: l2) a0 b f (l1 ++ Ent (ea p) b' (ef p || f') :: l2') (Ent (ea p) b' (ef p || f')).
Proof.
  intros E Hok Ha Hc Hpa Ha0. apply Forall_app in Hok as [Hok1 Hok2]. apply Forall_cons in Hok2 as [Hp Hok2]. apply chain_app in Hc as [Hc Hc2].
  destruct (absorb_ok fin lo hi a l2 b f b' f' l2' E Ha Hok2) as (I1 & I2 & I3 & I4 & I5); [by rewrite <- Hpa |]. pose proof Ha as (_ & A2 & _). pose proof I1 as (_ & B2 & _). cbn [ea eb ef] in *.
  pose proof (absorb_le _ _ _ _ _ _ E) as Hb.
  unfold inserted. split_and!.
  - apply Forall_app. split; [done |]. apply Forall_cons. split; [| done]. by apply (join_ok p (Ent a b' f')).
  - apply chain_app. split; [| done]. eapply chain_last; [| done]. done.
  - intros z. rewrite !cov_app, !cov_cons. cbn [ea eb]. specialize (I4 z). destruct Hp as (_ & P2 & _).
    assert ((ea p <= z < b' <-> ea p <= z < eb p \/ a <= z < b')) by lia. assert (a0 <= z < b -> ea p <= z < eb p \/ a <= z < b) by lia. assert (a <= z < b -> a0 <= z < b) by lia. tauto.
  - rewrite !has_fin_app. cbn [has_fin existsb ef]. change (existsb ef l2') with (has_fin l2'). change (existsb ef l2) with (has_fin l2). rewrite <- orb_assoc, I5. destruct (has_fin l1), (ef p), f, (has_fin l2); done.
  - apply elem_of_app. right. left.
  - cbn. lia.
  - cbn. lia.
Qed.

(** The preceding entry has all of the segment. *)
Lemma inserted_within l1 p l2 a b f : Forall ent_ok (l1 ++ p :: l2) -> chain lo (l1 ++ p :: l2) -> ent_ok (Ent a b f) -> ea p <= a -> b <= eb p ->
  inserted (l1 ++ p :: l2) a b f (l1 ++ Ent (ea p) (eb p) (ef p || f) :: l2) (Ent (ea p) (eb p) (ef p || f)).
Proof.
  intros Hok Hc Ha H1 H2. apply Forall_app in Hok as [Hok1 Hok2]. apply Forall_cons in Hok2 as [Hp Hok2]. apply chain_app in Hc as [Hc Hc2].
  destruct Hp as (A1 & A2 & A3 & A4 & A5 & A6), Ha as (E1 & E2 & E3 & E4 & E5 & E6). cbn [ea eb ef] in *. unfold inserted. split_and!.
  - apply Forall_app. split; [done |]. apply Forall_cons. split; [| done]. unfold ReassInv.ent_ok. cbn [ea eb ef]. split_and!; try done.
    + rewrite orb_true_iff. intros [H | H]; [by apply A5 |]. specialize (E5 H). lia.
    + destruct A6 as [? | ->]; [by left | by right].
  - apply chain_app. split; [| done]. eapply chain_last; [| done]. done.
  - intros z. rewrite !cov_app, !cov_cons. cbn [ea eb]. assert (a <= z < b -> ea p <= z < eb p) by lia. tauto.
  - unfold has_fin. rewrite !existsb_app. cbn [existsb ef]. destruct (existsb ef l1), (ef p), f, (existsb ef l2); done.
  - apply elem_of_app. right. left.
  - done.
  - done.
Qed.

Lemma enqueue_ok t q l a b f fl qs : Forall2 rep q l -> Forall ent_ok l -> chain lo l -> ent_ok (Ent a b f) -> btest fl TH_FIN = f -> b + Z.b2z f <= whi -> wlo <= a -> tr t a b f ->
  (dupseg t = true -> exists x y, reportblk t = raw (x, y) /\ wlo <= x < y /\ y <= whi /\ x <= a) ->
  exists t' q' qs' l' e, enqueue t q (u32 a) fl (b - a) (slice a b) qs = (t', q', qs') /\ Forall2 rep q' l' /\ inserted l a b f l' e /\
    tr t' (ea e) (eb e) (ef e) /\ same t t' /\ qs' + zlen l + 1 = qs + zlen l'.
Proof.
  intros Hq Hok Hc Ha Hf Hb Hwlo Htr Hx. pose proof Ha as (A1 & A2 & A3 & A4 & A5 & A6). cbn [ea eb ef] in *.
  destruct (find_after_ok stream fin lo hi Hwin q l a Hq Hok ltac:(lia)) as (qpre & qpost & lpre & lpost & Efind & -> & -> & Hpre & Hpost & Hle & Hgt).
  unfold enqueue. rewrite Efind. destruct (last lpre) as [p |] eqn:El.
  - apply last_split in El. remember (removelast lpre) as l1 eqn:E1. clear E1. subst lpre. destruct (proj1 (Forall_app _ _ _) Hle) as [_ Hp]. apply Forall_cons in Hp as [Hp _].
    pose proof Hpre as Hpre0. apply Forall2_app_inv_r in Hpre as (qp1 & k & H1 & H2 & ->). inversion H2 as [| q0 ? ? ? Hq0 Hn]; subst k l'. inversion Hn; subst. clear Hn H2.
    rewrite last_snoc, removelast_last. rewrite <- app_assoc in Hok, Hc. cbn [app] in Hok, Hc. rewrite <- (app_assoc l1). cbn [app].
    pose proof Hok as Hok0. apply Forall_app in Hok0 as [Hok1 Hok2]. apply Forall_cons in Hok2 as [Okp Hok2]. pose proof Hc as Hc0. apply chain_app in Hc0 as [Hc1 Hc2].
    pose proof (overlap_prev_ok t q0 p a b _ fl Hq0 Okp Ha Hp eq_refl Hb Hwlo Htr Hx) as Hov. destruct (Z.leb_spec (eb p) a) as [L1 | L1].
    + rewrite Hov. destruct (absorb b (btest fl TH_FIN) lpost) as [[b' f'] l2'] eqn:Ea.
      assert (Hc3 : chain (a + 1) lpost) by (destruct lpost; [done |]; cbn in *; split; [lia | apply Hc2]).
      destruct (next_ok stream fin wlo whi lo hi Hwin qpost lpost Hpost t a a b _ fl qs Ha Hok2 Hc3 eq_refl Htr (fun _ => Hb) Hwlo b' f' l2' Ea) as (t1 & te & post' & qs1 & En & R1 & R2 & R3 & R4 & R5).
      destruct (overlap_next t (u32 a) fl (b - a) qpost qs) as [[[t2 fl2] post2] qs2]. rewrite En.
      destruct (absorb_ok fin lo hi a lpost b _ b' f' l2' Ea Ha Hok2 Hc3) as (I1 & _).
      destruct (coalesce_prev_some t1 (qp1 ++ [q0]) te qs1 l1 p (Ent a b' f') a Hpre0 Okp I1 L1 R1 R3 (or_introl eq_refl)) as (t3 & pre3 & qs3 & -> & Hs3 & Hres). cbn [ea eb ef] in Hres.
      destruct (Z.eqb_spec (eb p) a) as [Epa | Epa].
      * destruct Hres as (Q1 & Q2 & Q3). exists t3, (pre3 ++ post'), qs3, (l1 ++ Ent (ea p) b' (ef p || f') :: l2'), (Ent (ea p) b' (ef p || f')). split_and!; [done | | | | by eapply same_trans | zl].
        -- rewrite (cons_middle _ l1), app_assoc. by apply Forall2_app.
        -- by apply (inserted_join l1 p lpost a a b _ b' f' l2').
        -- pose proof (fin_join p (Ent a b' f') Okp I1 Epa) as Hj. cbn [ea eb ef] in *. by rewrite Hj.
      * destruct Hres as (Q1 & Q2 & Q3). exists t3, (pre3 ++ post'), qs3, ((l1 ++ [p]) ++ Ent a b' f' :: l2'), (Ent a b' f'). split_and!; [done | | | done | by eapply same_trans | zl].
        -- rewrite (cons_middle _ (l1 ++ [p])), app_assoc, <- (app_assoc l1). cbn [app]. by apply Forall2_app.
        -- replace (l1 ++ p :: lpost) with ((l1 ++ [p]) ++ lpost) by (by rewrite <- app_assoc). apply inserted_new; try done; [by rewrite <- app_assoc | rewrite <- app_assoc; apply chain_snoc; [cbn; lia | done]].
    + destruct (Z.leb_spec b (eb p)) as [L2 | L2].
      * destruct Hov as (t' & -> & Htr' & Hs). exists t', (qp1 ++ fin_if fl q0 :: qpost), (qs - 1), (l1 ++ Ent (ea p) (eb p) (ef p || btest fl TH_FIN) :: lpost), (Ent (ea p) (eb p) (ef p || btest fl TH_FIN)).
        split_and!; [done | | by apply inserted_within | done | done | zl]. apply Forall2_app; [done |]. constructor; [| done]. by apply (fin_if_rep stream).
      * destruct Hov as (t' & -> & Htr' & Hs). destruct (absorb b (btest fl TH_FIN) lpost) as [[b' f'] l2'] eqn:Ea.
        assert (Ha2 : ent_ok (Ent (eb p) b (btest fl TH_FIN))) by (destruct Okp as (P1 & P2 & P3 & _); unfold ReassInv.ent_ok; cbn [ea eb ef]; split_and!; try done; try lia).
        destruct (next_ok stream fin wlo whi lo hi Hwin qpost lpost Hpost t' (ea p) (eb p) b _ fl qs Ha2 Hok2 Hc2 eq_refl Htr' (fun _ => Hb) ltac:(lia) b' f' l2' Ea) as (t1 & te & post' & qs1 & En & R1 & R2 & R3 & R4 & R5).
        destruct (overlap_next t' (u32 (eb p)) fl (b - eb p) qpost qs) as [[[t2 fl2] post2] qs2]. rewrite En.
        destruct (absorb_ok fin lo hi (eb p) lpost b _ b' f' l2' Ea Ha2 Hok2 Hc2) as (I1 & _).
        destruct (coalesce_prev_some t1 (qp1 ++ [q0]) te qs1 l1 p (Ent (eb p) b' f') (ea p) Hpre0 Okp I1 (Z.le_refl _) R1 R3 (or_intror (conj eq_refl eq_refl))) as (t3 & pre3 & qs3 & -> & Hs3 & Hres). cbn [ea eb ef] in Hres.
        rewrite Z.eqb_refl in Hres. destruct Hres as (Q1 & Q2 & Q3). exists t3, (pre3 ++ post'), qs3, (l1 ++ Ent (ea p) b' (ef p || f') :: l2'), (Ent (ea p) b' (ef p || f')).
        split_and!; [done | | | | eapply same_trans; [done |]; by eapply same_trans | zl].
        -- rewrite (cons_middle _ l1), app_assoc. by apply Forall2_app.
        -- apply (inserted_join l1 p lpost a (eb p) b _ b' f' l2'); try done. lia.
        -- pose proof (fin_join p (Ent (eb p) b' f') Okp I1 eq_refl) as Hj. cbn [ea eb ef] in *. by rewrite Hj.
  - apply last_None in El as ->. inversion Hpre; subst. cbn [app last removelast]. cbn [app] in Hok, Hc.
    destruct (absorb b (btest fl TH_FIN) lpost) as [[b' f'] l2'] eqn:Ea. pose proof (chain_head a lpost Hgt Hc) as Hc3.
    destruct (next_ok stream fin wlo whi lo hi Hwin qpost lpost Hpost t a a b _ fl qs Ha Hok Hc3 eq_refl Htr (fun _ => Hb) Hwlo b' f' l2' Ea) as (t1 & te & post' & qs1 & En & R1 & R2 & R3 & R4 & R5).
    destruct (overlap_next t (u32 a) fl (b - a) qpost qs) as [[[t2 fl2] post2] qs2]. rewrite En.
    destruct (coalesce_prev_none t1 [] te qs1 (Ent a b' f') Hpre R1 R3) as (t3 & pre3 & qs3 & -> & Q1 & Q2 & Q3 & Q4).
    exists t3, (pre3 ++ post'), qs3, ([] ++ Ent a b' f' :: l2'), (Ent a b' f'). split_and!; [done | | | done | by eapply same_trans | zl].
    + change ([] ++ Ent a b' f' :: l2') with ([Ent a b' f'] ++ l2'). by apply Forall2_app.
    + by apply (inserted_new [] lpost).
Qed.
End Stream.
