(* ===== verification/ReassInput.v ===== *)
(** * Receiving data: a segment and the connection, and its way through tcp_input *)

From stdpp Require Import prelude list list_numbers strings gmap.
From S2P Require Import Prelude.
From S2P Require Import Seq.
From S2P Require Import Sack.
From S2P Require Import Sackrep.
From S2P Require Import SackrepHist.
From S2P Require Import SackrepReport.
From S2P Require Import Reass.
From S2P Require Import ReassInv.
From S2P Require Import ReassSeg.
Open Scope Z_scope.

(** The largest window: TCP_MAXWIN << TCP_MAX_WINSHIFT is less. *)
Definition maxwnd : Z := 2 ^ 30.
(** How far back an old segment may be. *)
Definition maxold : Z := 2 ^ 29.

Definition established (c : conn) : bool := TCPS_HAVEESTABLISHED (t_state c).

(** The data bytes that the receiver has: those before rcv_nxt and those in the queue. *)
Definition held (n : Z) (l : list ent) (z : Z) : Prop := z < n \/ cov l z.

Lemma fin_land fl : btest (Z.land fl TH_FIN) TH_FIN = btest fl TH_FIN.
Proof. unfold btest. by rewrite <- Z.land_assoc. Qed.

Section Stream.
Context (stream : Z -> Z) (start fin : Z).

#[local] #[warnings="-notation-for-abbreviation"] Notation rep := (rep stream).
#[local] #[warnings="-notation-for-abbreviation"] Notation slice := (slice stream).

(** The connection before the FIN: rcv_nxt is [n], the queue holds [l], and what was
    received in order is in the socket buffer, all of it unless the user has shut down
    the receiving side. *)
Record core (c : conn) (n : Z) (shut : bool) (l : list ent) : Prop := {
  c_nxt : rcv_nxt (tp c) = u32 n;
  c_low : start <= n <= fin;
  c_q : Forall2 rep (t_segq c) l;
  c_ok : Forall (ent_ok fin n (n + maxwnd + 1)) l;
  c_chain : chain n l;
  c_so : exists m, so_rcv c = slice start m /\ start <= m <= n /\ (shut = false -> m = n);
  c_more : cantrcvmore c = shut;
  c_size : zlen l <= tcp_reass_qsize c
}.

(** ** Delivery *)

Lemma ent_ok_up n n' x x' l : n <= n' -> x <= x' -> chain n' l -> Forall (ent_ok fin n x) l -> Forall (ent_ok fin n' x') l.
Proof.
  revert n'. induction l as [| e l IH]; intros n' Hn Hx Hc Hok; [done |]. apply Forall_cons in Hok as [(E1 & E2 & E3 & E4 & E5 & E6) Hok]. destruct Hc as [Hc1 Hc2].
  apply Forall_cons. split; [unfold ent_ok; split_and!; try done; lia |]. apply IH; try done. apply (chain_le (eb e + 1)); [lia | done].
Qed.

(** What delivery does to the SACK state. *)
Definition presented (t t' : tcpcb) : Prop :=
  nsackhistory t' = nsackhistory t /\ sackhistory t' = sackhistory t /\ enclosed t' = false /\ dupseg t' = dupseg t /\
  if dupseg t then reportblk t' = reportblk t else rblk_start (reportblk t') = rblk_end (reportblk t').

(** The rest of the connection. *)
Definition others (c c' : conn) : Prop := t_state c' = t_state c /\ rcv_wnd c' = rcv_wnd c.

Lemma present_ok c n shut l : core c n shut l ->
  exists c' fl n' l', present c = Done (c', fl) /\ core c' n' shut l' /\ (established c = true -> chain (n' + 1) l') /\ n <= n' <= n + maxwnd /\
    (forall z, held n' l' z <-> held n l z) /\ (btest fl TH_FIN = true -> n' = fin /\ l' = []) /\ others c c' /\
    (tp c' = tp c /\ n' = n /\ l' = l \/ presented (tp c) (tp c') /\ (exists e, l = e :: l' /\ n' = eb e)).
Proof.
  intros I. pose proof I as [Hn Hl Hq Hok Hc Hso Hmore Hsize]. unfold present, established.
  assert (Hsame : (established c = true -> chain (n + 1) l) -> exists c' fl n' l', Done (c, 0) = Done (c', fl) /\ core c' n' shut l' /\ (established c = true -> chain (n' + 1) l') /\ n <= n' <= n + maxwnd /\
    (forall z, held n' l' z <-> held n l z) /\ (btest fl TH_FIN = true -> n' = fin /\ l' = []) /\ others c c' /\
    (tp c' = tp c /\ n' = n /\ l' = l \/ presented (tp c) (tp c') /\ (exists e, l = e :: l' /\ n' = eb e))).
  { intros He. exists c, 0, n, l. split_and!; try done; first [unfold maxwnd; lia | by left]. }
  unfold established in Hsame. destruct (TCPS_HAVEESTABLISHED (t_state c)); cbn [negb]; [| by apply Hsame].
  destruct Hq as [| q e segq l Hr Hq]; [by apply Hsame |]. pose proof Hr as (Es & El & Ef & Em). rewrite Es, Hn. apply Forall_cons in Hok as [He Hok]. pose proof He as (E1 & E2 & E3 & E4 & E5 & E6).
  destruct Hc as [Hc1 Hc2]. destruct (Z.eqb_spec (u32 (ea e)) (u32 n)) as [Heq | Hne]; cbn [negb].
  2: { apply Hsame. intros _. split; [| done]. assert (ea e <> n) by (intros Hx; apply Hne; by rewrite Hx). lia. }
  apply (proj1 (seq_eq_near (ea e) n ltac:(unfold near, maxwnd in *; lia))) in Heq.
  assert (Enx : u32 (u32 n + q_len q) = u32 (eb e)) by (rewrite u32_seq_add, El; f_equal; lia).
  assert (Hk : match segq with [] => true | q2 :: _ => negb (q_seq q2 =? u32 (eb e)) end = true).
  { destruct Hq as [| q2 e2 ? ? (Es2 & _) _]; [done |]. rewrite Es2. apply Forall_cons in Hok as [(F1 & F2 & F3 & _) _]. destruct Hc2 as [? _]. destruct (Z.eqb_spec (u32 (ea e2)) (u32 (eb e))) as [Hx |]; [| done].
    apply (proj1 (seq_eq_near (ea e2) (eb e) ltac:(unfold near, maxwnd in *; lia))) in Hx. lia. }
  rewrite Enx. set (t := set_rcv_nxt (tp c) (u32 (eb e))). set (t' := set_sack_flags _ _).
  assert (Ent : rcv_nxt t' = u32 (eb e)) by (unfold t'; by destruct (negb (dupseg t))). rewrite Ent, Hk. unfold KKASSERT. rewrite bind_Done_l.
  eexists _, _, (eb e), l. split; [done |]. split_and!.
  - destruct Hso as (m & Hm & Hm1 & Hm2). constructor; cbn [cantrcvmore set_segq set_tp].
    + destruct (cantrcvmore c); exact Ent.
    + lia.
    + by destruct (cantrcvmore c).
    + eapply ent_ok_up; [| | | exact Hok]; [lia | lia |]. by apply (chain_le (eb e + 1)); [lia |].
    + by apply (chain_le (eb e + 1)); [lia |].
    + rewrite Hmore. destruct shut; cbn [so_rcv set_qsize set_so set_segq set_tp]; [exists m; split_and!; [done | lia | lia | done] |].
      exists (eb e). split_and!; [| lia | lia | done]. rewrite Hm, Em, Hm2, Heq by done. apply slice_app; lia.
    + rewrite Hmore. by destruct shut.
    + destruct (cantrcvmore c); cbn [tcp_reass_qsize set_qsize set_so set_segq set_tp]; zl.
  - intros _. done.
  - lia.
  - unfold maxwnd in *. lia.
  - intros z. unfold held. rewrite cov_cons. assert (z < eb e <-> z < n \/ ea e <= z < eb e) by lia. tauto.
  - rewrite fin_land, Ef. intros H. specialize (E5 H). split; [lia |]. destruct l as [| e2 l]; [done |]. apply Forall_cons in Hok as [(F1 & F2 & F3 & F4 & _) _]. destruct Hc2. lia.
  - unfold others. cbn [cantrcvmore set_segq set_tp]. by destruct (cantrcvmore c).
  - right. split; [| by exists e]. cbn [cantrcvmore set_segq set_tp]. match goal with |- presented _ (tp ?x) => assert (Etp : tp x = t') by (by destruct (cantrcvmore c)) end. rewrite Etp. unfold presented, t'. change (dupseg t) with (dupseg (tp c)).
    assert (Hd : forall f, dupseg (set_sack_flags (tp c) (Z.ldiff f TSACK_F_ENCLOSESEG)) = btest f TSACK_F_DUPSEG) by (intros f; apply btest_ldiff_disjoint; done).
    assert (Hen : forall f, enclosed (set_sack_flags (tp c) (Z.ldiff f TSACK_F_ENCLOSESEG)) = false) by (intros f; apply btest_ldiff_same).
    destruct (dupseg (tp c)) eqn:Ed; cbn [negb]; split_and!; try done; [apply Hen | | apply Hen |].
    + transitivity (btest (sack_flags (tp c)) TSACK_F_DUPSEG); [apply Hd | exact Ed].
    + transitivity (btest (sack_flags (tp c)) TSACK_F_DUPSEG); [apply Hd | exact Ed].
Qed.

(** ** The SACK state *)

(** Before the segment [x, y) is sorted in: a duplicate head may have to be reported. *)
Definition sack_pre (t : tcpcb) (n x : Z) : Prop :=
  enclosed t = false /\ (dupseg t = true -> x = n /\ exists x0 y0, reportblk t = raw (x0, y0) /\ n - maxold <= x0 < y0 /\ y0 <= n).

(** A block of data that the receiver has; [n0] was rcv_nxt. *)
Definition block_held (n0 n : Z) (l : list ent) (b : raw_sackblock) : Prop :=
  exists x y, b = raw (x, y) /\ n0 - maxold <= x < y /\ y < x + 2 ^ 31 /\ y <= n + maxwnd + 1 /\ y <= fin + 1 /\ forall z, x <= z < y -> z < fin -> held n l z.

(** What is to be reported afterwards: nothing, or blocks of such data. *)
Definition sack_post (t : tcpcb) (n0 n : Z) (l : list ent) : Prop :=
  rblk_start (reportblk t) = rblk_end (reportblk t) \/
  block_held n0 n l (reportblk t) /\ (enclosed t = true -> exists e, e ∈ l /\ encloseblk t = raw (eblk e)).

Lemma block_held_up n0 n n' l l' b : n <= n' -> (forall z, held n l z -> held n' l' z) -> block_held n0 n l b -> block_held n0 n' l' b.
Proof. intros Hn H (x & y & E & H1 & H2 & H3 & H4 & H5). exists x, y. split_and!; try done; try lia. intros z Hz Hf. apply H. by apply H5. Qed.

Lemma eblk_held n0 n l e : n0 <= n -> Forall (ent_ok fin n (n + maxwnd + 1)) l -> e ∈ l -> block_held n0 n l (raw (eblk e)).
Proof.
  intros Hn Hok He. pose proof Hok as Hok0. rewrite Forall_forall in Hok. destruct (Hok e He) as (E1 & E2 & E3 & E4 & E5 & E6). exists (ea e), (eb e + Z.b2z (ef e)). split; [done |].
  assert (Hz : ea e < eb e + Z.b2z (ef e) /\ eb e + Z.b2z (ef e) <= n + maxwnd + 1 /\ forall z, z < eb e + Z.b2z (ef e) -> z < fin -> z < eb e).
  { destruct (ef e); cbn [Z.b2z] in *; [specialize (E5 eq_refl) |]; split_and!; first [lia | (destruct E6; [lia | done]) | (intros; lia)]. }
  destruct Hz as (Z1 & Z2 & Z3). split_and!; [unfold maxold in *; lia | lia | unfold maxwnd in *; lia | lia | destruct (ef e); cbn; lia |]. intros z Hz Hf. right. apply Exists_exists. exists e. split; [done |]. specialize (Z3 z ltac:(lia) Hf). lia.
Qed.

Lemma sack_post_present t t' n0 n n' l l' : n0 <= n -> n <= n' -> (forall z, held n' l' z <-> held n l z) -> sack_post t n0 n l ->
  t' = t /\ n' = n /\ l' = l \/ presented t t' -> sack_post t' n0 n' l'.
Proof.
  intros H0 Hn Hh Hp [(-> & -> & ->) | (_ & _ & He & Hd & Hr)]; [done |]. destruct (dupseg t); [| by left]. unfold sack_post. rewrite Hr, He. destruct Hp as [? | [Hb _]]; [by left |].
  right. split; [| done]. eapply block_held_up; [exact Hn | | exact Hb]. intros z. by rewrite Hh.
Qed.

(** What is to be reported once the segment is in the queue. *)
Lemma sack_post_tr t n x y f l e : n <= x -> (f = true -> y = fin) -> Forall (ent_ok fin n (n + maxwnd + 1)) l -> e ∈ l ->
  (forall z, x <= z < y -> cov l z) -> y + Z.b2z f <= n + maxwnd + 1 -> y + Z.b2z f <= fin + 1 ->
  forall wlo, (wlo = x \/ x = n /\ wlo = n - maxold) -> tr wlo (y + Z.b2z f) t (ea e) (eb e) (ef e) -> sack_post t n n l.
Proof.
  intros Hn Hf Hok He Hc Hy Hyf wlo Hw Htr. unfold tr in Htr. right. destruct (dupseg t).
  - destruct Htr as [(x0 & y0 & E & H1 & H2) Hen]. split; [| intros H; exists e; split; [done |]; by rewrite (Hen H)].
    exists x0, y0. split; [done |]. split; [unfold maxold in *; lia |]. split; [unfold maxold, maxwnd in *; lia |]. split; [lia |]. split; [lia |]. intros z Hz Hzf. destruct (decide (z < n)) as [? | Hnz]; [by left |]. right. apply Hc.
    assert (z < y) by (destruct f; cbn in *; [rewrite (Hf eq_refl) in *; lia | lia]). lia.
  - destruct Htr as [Hen Hr]. split; [| congruence]. rewrite Hr. by apply eblk_held.
Qed.

(** ** tcp_reass *)

Section Reass.
Context (maxseg : Z).

(** A segment [x, y), with a FIN if [f], that lies in the window. *)
Definition in_window (n x y : Z) (f : bool) : Prop :=
  n <= x /\ x <= y /\ y <= n + maxwnd /\ y <= fin /\ (f = true -> y = fin) /\ (x < y \/ f = true).

(** Is there memory for the segment? *)
Definition room_for (kmalloc_ok : bool) (c : conn) : bool := kmalloc_ok && negb (tcp_reass_qsize c + 1 >=? maxseg).

Lemma reass_ok kmalloc_ok c n shut l x y f fl : core c n shut l -> in_window n x y f -> btest fl TH_FIN = f -> sack_pre (tp c) n x ->
  (dupseg (tp c) = false -> reportblk (tp c) = raw (x, y + Z.b2z f)) ->
  exists c' r n' l' took, tcp_reass maxseg kmalloc_ok c (Some (u32 x, fl, y - x, slice x y)) = Done (c', r) /\ core c' n' shut l' /\
    (took = true -> established c = true -> chain (n' + 1) l') /\ n <= n' <= n + maxwnd /\ (took = false -> n' = n /\ l' = l) /\
    (forall z, held n' l' z <-> held n l z \/ (took = true /\ x <= z < y)) /\ (room_for kmalloc_ok c = true -> took = true) /\
    (btest r TH_FIN = true -> n' = fin /\ l' = []) /\ others c c' /\ sack_post (tp c') n n' l' /\
    nsackhistory (tp c') = nsackhistory (tp c) /\ sackhistory (tp c') = sackhistory (tp c).
Proof.
  intros I (W1 & W2 & W3 & W4 & W5 & W6) Hfl [Hen Hdup] Hrep. pose proof I as [Hn Hl Hq Hok Hc Hso Hmore Hsize]. unfold tcp_reass, room_for.
  assert (Hno : exists c' r n' l' took, Done (set_tp c (no_report (tp c)), 0) = Done (c', r) /\ core c' n' shut l' /\
    (took = true -> established c = true -> chain (n' + 1) l') /\ n <= n' <= n + maxwnd /\ (took = false -> n' = n /\ l' = l) /\
    (forall z, held n' l' z <-> held n l z \/ (took = true /\ x <= z < y)) /\ (false = true -> took = true) /\
    (btest r TH_FIN = true -> n' = fin /\ l' = []) /\ others c c' /\ sack_post (tp c') n n' l' /\
    nsackhistory (tp c') = nsackhistory (tp c) /\ sackhistory (tp c') = sackhistory (tp c)).
  { exists (set_tp c (no_report (tp c))), 0, n, l, false. split; [done |]. split; [by constructor |]. split_and!; try done; try (unfold maxwnd; lia); [| by left].
    intros z. intuition congruence. }
  destruct (negb (u32 x =? rcv_nxt (tp c)) && (tcp_reass_qsize c + 1 >=? maxseg)) eqn:Efull.
  { apply andb_true_iff in Efull as [_ ->]. by rewrite andb_false_r. }
  destruct kmalloc_ok; cbn [negb andb]; [| exact Hno].
  set (wlo := if dupseg (tp c) then n - maxold else x).
  assert (Hw : wlo = x \/ x = n /\ wlo = n - maxold) by (unfold wlo; destruct (dupseg (tp c)) eqn:Ed; [right; split; [apply Hdup; done | done] | by left]).
  assert (Hwx : wlo <= x) by (unfold maxold in *; lia).
  set (c1 := if btest fl TH_FIN then add_t_flags c TF_QUEDFIN else c).
  assert (E1 : tp c1 = tp c /\ t_segq c1 = t_segq c /\ t_state c1 = t_state c /\ rcv_wnd c1 = rcv_wnd c /\ so_rcv c1 = so_rcv c /\ cantrcvmore c1 = cantrcvmore c) by (unfold c1; by destruct (btest fl TH_FIN)).
  destruct E1 as (E1 & E2 & E3 & E4 & E5 & E6). rewrite E1, E2.
  destruct (enqueue_ok stream fin wlo (y + Z.b2z f) n (n + maxwnd + 1) ltac:(unfold maxwnd; lia) (tp c) (t_segq c) l x y f fl (tcp_reass_qsize c + 1)) as (t' & q' & qs' & l' & e & -> & Q1 & Q2 & Q3 & Q4 & Q5);
    [done | done | done | unfold ent_ok; cbn [ea eb ef]; split_and!; try done; lia | done | lia | done | | |].
  { unfold tr. destruct (dupseg (tp c)) eqn:Ed; [| split; [done | by apply Hrep]]. destruct (Hdup eq_refl) as (-> & x0 & y0 & Er & X1 & X2). split; [| congruence].
    exists x0, y0. split; [done |]. unfold wlo. destruct f; cbn; lia. }
  { intros Ed. destruct (Hdup Ed) as (-> & x0 & y0 & Er & X1 & X2). exists x0, y0. split; [done |]. unfold wlo. rewrite Ed. destruct f; cbn; lia. }
  destruct Q2 as (I1 & I2 & I3 & I4 & I5 & I6 & I7). destruct Q4 as (S1 & S2 & S3 & S4 & S5 & S6).
  assert (I' : core (set_qsize (set_segq (set_tp c1 t') q') qs') n shut l').
  { constructor; cbn [tp t_segq so_rcv cantrcvmore tcp_reass_qsize set_qsize set_segq set_tp]; try done; try congruence; [by rewrite E5 | lia]. }
  destruct (present_ok _ _ _ _ I') as (c' & r & n' & l2 & Ep & P1 & P2 & P3 & P4 & P5 & P6 & P7). exists c', r, n', l2, true.
  split; [exact Ep |]. split; [done |]. split_and!; try done; try lia.
  - intros _ He. apply P2. unfold established in *. cbn [t_state set_qsize set_segq set_tp]. by rewrite E3.
  - intros z. rewrite P4. unfold held. rewrite I3. intuition.
  - destruct P6 as [O1 O2]. split; cbn in O1, O2; congruence.
  - apply (sack_post_present t' _ n n n' l'); try done; try lia; [| tauto].
    apply (sack_post_tr t' n x y f l' e) with (wlo := wlo); try done; [| destruct f; cbn; lia | destruct f; cbn; lia]. intros z Hz. apply I3. by right.
  - destruct P7 as [(E & _) | ((E & _) & _)]; [rewrite E | rewrite E]; done.
  - destruct P7 as [(E & _) | ((_ & E & _) & _)]; [rewrite E | rewrite E]; done.
Qed.
End Reass.
End Stream.

(** * Receiving data: the way of a segment through tcp_input *)

(** Nothing is to be reported, as between two segments. *)
Definition clean (t : tcpcb) : Prop := dupseg t = false /\ enclosed t = false /\ rblk_start (reportblk t) = rblk_end (reportblk t).

(** Only t_flags and the state of the report differ. *)
Definition sim (c c' : conn) : Prop :=
  rcv_nxt (tp c') = rcv_nxt (tp c) /\ t_segq c' = t_segq c /\ t_state c' = t_state c /\ rcv_wnd c' = rcv_wnd c /\ so_rcv c' = so_rcv c /\
  cantrcvmore c' = cantrcvmore c /\ tcp_reass_qsize c' = tcp_reass_qsize c /\ nsackhistory (tp c') = nsackhistory (tp c) /\ sackhistory (tp c') = sackhistory (tp c).

Lemma btest_syn_fin x : btest (Z.ldiff x TH_SYN) TH_FIN = btest x TH_FIN.
Proof. by apply btest_ldiff_disjoint. Qed.

Section Stream.
Context (stream : Z -> Z) (start fin : Z).

#[local] #[warnings="-notation-for-abbreviation"] Notation slice := (slice stream).
#[local] #[warnings="-notation-for-abbreviation"] Notation core := (core stream start fin).
#[local] #[warnings="-notation-for-abbreviation"] Notation sack_post := (sack_post fin).

Lemma core_sim c c' n shut l : sim c c' -> core c n shut l -> core c' n shut l.
Proof. intros (S1 & S2 & S3 & S4 & S5 & S6 & S7 & _) [H1 H2 H3 H4 H5 H6 H7 H8]. constructor; [congruence | done | by rewrite S2 | done | done | by rewrite S5 | congruence | by rewrite S7]. Qed.

(** The first data byte of a segment that starts at [a]. *)
Definition first_byte (s : segment) (a : Z) : Z := a + Z.b2z (btest (th_flags s) TH_SYN).

(** A segment of the stream.  It is not too far from rcv_nxt, [n]; if it carries the
    FIN, the FIN is in the window. *)
Record good_segment (c : conn) (n : Z) (s : segment) (a : Z) : Prop := {
  g_seq : th_seq s = u32 a;
  g_copy : thflags s = th_flags s;
  g_data : seg_m s = slice (first_byte s a) (first_byte s a + tlen s);
  g_len : 0 <= tlen s < 2 ^ 16;
  g_low : start <= first_byte s a;
  g_syn : btest (th_flags s) TH_SYN = true -> first_byte s a = start;
  g_high : first_byte s a + tlen s <= fin;
  g_fin : btest (th_flags s) TH_FIN = true -> first_byte s a + tlen s = fin;
  g_near : n - maxold <= a <= n + maxwnd;
  g_window : btest (th_flags s) TH_FIN = true -> fin <= n + rcv_wnd c
}.

(** Nothing is left of the segment. *)
Definition gone (n : Z) (s : segment) : Prop :=
  tlen s = 0 /\ btest (thflags s) TH_FIN = false /\ btest (thflags s) TH_SYN = false /\ exists w, th_seq s = u32 w /\ n - maxold - 2 ^ 16 <= w <= n + maxwnd.

(** [x, y) is left of it, with the FIN if [f]. *)
Definition live (s : segment) (x y : Z) (f : bool) : Prop :=
  th_seq s = u32 x /\ tlen s = y - x /\ seg_m s = slice x y /\ btest (thflags s) TH_FIN = f /\ btest (th_flags s) TH_FIN = f /\ btest (thflags s) TH_SYN = false.

(** The report of a duplicate head. *)
Definition head_report (t : tcpcb) (n : Z) : Prop :=
  enclosed t = false /\ if dupseg t then exists x0 y0, reportblk t = raw (x0, y0) /\ n - maxold <= x0 <= y0 /\ y0 <= n else rblk_start (reportblk t) = rblk_end (reportblk t).

Lemma head_report_post t n l : n <= fin + 1 -> head_report t n -> sack_post t n n l.
Proof.
  intros Hn [He H]. destruct (dupseg t); [| by left]. destruct H as (x & y & E & H1 & H2). destruct (decide (x = y)) as [-> | Hne]; [left; by rewrite E |].
  right. split; [| congruence]. exists x, y. split_and!; try done; try lia; [unfold maxold in *; lia | unfold maxwnd; lia |]. intros z Hz _. left. lia.
Qed.

(** *** Dropping the head *)

(** The connection with the report of a duplicate head. *)
Definition report_head (c : conn) (s : segment) : conn :=
  if btest (t_flags c) TF_SACK_PERMITTED then
    let e := TCP_SACK_BLKEND (th_seq s + tlen s) (thflags s) in
    let e := if SEQ_GT e (rcv_nxt (tp c)) then rcv_nxt (tp c) else e in
    let t := set_reportblk (tp c) (RawSackblock (th_seq s) e) in
    let t := add_sack_flags t (Z.lor TSACK_F_DUPSEG TSACK_F_SACKLEFT) in
    add_t_flags (set_tp c t) TF_ACKNOW
  else c.

Lemma report_head_ok c n s a : rcv_nxt (tp c) = u32 n -> clean (tp c) -> th_seq s = u32 a -> 0 <= tlen s < 2 ^ 16 -> n - maxold <= a < n ->
  sim c (report_head c s) /\ head_report (tp (report_head c s)) n /\
  (dupseg (tp (report_head c s)) = true -> 0 < tlen s \/ btest (thflags s) TH_FIN = true -> exists x0 y0, reportblk (tp (report_head c s)) = raw (x0, y0) /\ n - maxold <= x0 < y0 /\ y0 <= n).
Proof.
  intros Hn (C1 & C2 & C3) Hs Hl Ha. unfold report_head. destruct (btest (t_flags c) TF_SACK_PERMITTED).
  2: { split; [by unfold sim |]. split; [split; [done |]; by rewrite C1 |]. congruence. }
  split; [by unfold sim |]. set (t := add_sack_flags _ _).
  assert (Hd : dupseg t = true) by (unfold dupseg, t, add_sack_flags; cbn [sack_flags set_sack_flags]; rewrite btest_lor; apply orb_true_r).
  assert (He : enclosed t = false). { unfold enclosed, t, add_sack_flags. cbn [sack_flags set_sack_flags set_reportblk]. rewrite btest_lor. unfold enclosed in C2. by rewrite C2. }
  set (e := a + tlen s + Z.b2z (btest (thflags s) TH_FIN)).
  assert (Hb : 0 <= Z.b2z (btest (thflags s) TH_FIN) <= 1) by (by destruct (btest (thflags s) TH_FIN)).
  assert (Er : reportblk t = raw (a, Z.min e n)).
  { unfold t. cbn [reportblk add_sack_flags set_sack_flags set_reportblk]. unfold TCP_SACK_BLKEND. rewrite Hs, Hn, <- Z.add_assoc, u32_seq_add, Z.add_assoc. fold e.
    rewrite SEQ_GT_near by (unfold near, e, maxold in *; lia). unfold raw. cbn [fst snd]. f_equal. destruct (Z.ltb_spec n e); f_equal; lia. }
  cbn [tp add_t_flags set_t_flags set_tp]. split; [split; [done |]; rewrite Hd; exists a, (Z.min e n); unfold e; split_and!; try done; lia |].
  intros _ Hpos. exists a, (Z.min e n). split; [done |]. assert (a < e) by (unfold e; destruct Hpos as [? | ->]; cbn; lia). lia.
Qed.

Lemma drop_head_ok c n s a : rcv_nxt (tp c) = u32 n -> start <= n -> clean (tp c) -> good_segment c n s a ->
  exists c' s', drop_head c s = (c', s') /\ sim c c' /\ head_report (tp c') n /\ th_flags s' = th_flags s /\ btest (thflags s') TH_ACK = btest (th_flags s) TH_ACK /\
    (gone n s' /\ first_byte s a + tlen s <= n \/
     exists x y f, live s' x y f /\ x = Z.max n (first_byte s a) /\ y = first_byte s a + tlen s /\ x <= y /\ n <= fin /\ f = btest (th_flags s) TH_FIN /\
       (dupseg (tp c') = true -> x = n /\ (x < y \/ f = true -> exists x0 y0, reportblk (tp c') = raw (x0, y0) /\ n - maxold <= x0 < y0 /\ y0 <= n))).
Proof.
  intros Hn Hst Hcl [G1 G2 G3 G4 G5 G6 G7 G8 G9 G10]. unfold drop_head. fold (report_head c s). set (d := first_byte s a) in *.
  assert (Hd : d = a + Z.b2z (btest (th_flags s) TH_SYN)) by done.
  rewrite Hn, G1, s32_near, Z.gtb_ltb by (unfold near, maxold, maxwnd in *; lia). destruct (Z.ltb_spec 0 (n - a)) as [Hold | Hnew].
  - destruct (report_head_ok c n s a Hn Hcl G1 G4 ltac:(lia)) as (S1 & S2 & S3). rewrite G2.
    assert (Esyn : (if btest (th_flags s) TH_SYN then (u32 (u32 a + 1), Z.ldiff (th_flags s) TH_SYN, n - a - 1) else (u32 a, th_flags s, n - a)) =
        (u32 d, if btest (th_flags s) TH_SYN then Z.ldiff (th_flags s) TH_SYN else th_flags s, n - d)).
    { rewrite Hd. destruct (btest (th_flags s) TH_SYN); cbn [Z.b2z]; [rewrite u32_seq_add; f_equal; lia | rewrite Z.add_0_r; done]. }
    rewrite Esyn. set (fl := if btest (th_flags s) TH_SYN then _ else _).
    assert (F1 : btest fl TH_FIN = btest (th_flags s) TH_FIN) by (unfold fl; destruct (btest (th_flags s) TH_SYN); [apply btest_syn_fin | done]).
    assert (F2 : btest fl TH_SYN = false) by (unfold fl; destruct (btest (th_flags s) TH_SYN) eqn:E; [apply btest_ldiff_same | done]).
    assert (F3 : btest fl TH_ACK = btest (th_flags s) TH_ACK) by (unfold fl; destruct (btest (th_flags s) TH_SYN); [by apply btest_ldiff_disjoint | done]).
    rewrite F1, Z.gtb_ltb. assert (Hdn : d <= n). { rewrite Hd. destruct (btest (th_flags s) TH_SYN); cbn; lia. }
    destruct ((tlen s <? n - d) || (n - d =? tlen s) && negb (btest (th_flags s) TH_FIN)) eqn:Eall.
    + eexists _, _. split; [done |]. split_and!; [exact S1 | exact S2 | done | cbn [thflags]; rewrite <- F3; by apply btest_ldiff_disjoint |]. left. split.
      * unfold gone. cbn [tlen thflags th_seq]. split_and!; [lia | apply btest_ldiff_same | rewrite <- F2; by apply btest_ldiff_disjoint |]. exists (d + tlen s). rewrite u32_seq_add. split; [done |]. rewrite orb_true_iff, andb_true_iff, Z.ltb_lt, Z.eqb_eq in Eall. unfold maxwnd, maxold in *. destruct (btest (th_flags s) TH_SYN); cbn in Hd; lia.
      * rewrite orb_true_iff, andb_true_iff, Z.ltb_lt, Z.eqb_eq in Eall. lia.
    + apply orb_false_iff in Eall as [E1 E2]. apply Z.ltb_ge in E1. eexists _, _. split; [done |]. split_and!; [exact S1 | exact S2 | done | exact F3 |]. right. exists n, (d + tlen s), (btest (th_flags s) TH_FIN).
      split_and!; try done; try lia.
      * unfold live. cbn [th_seq tlen seg_m thflags th_flags]. split_and!; try done; [rewrite u32_seq_add; f_equal; lia | lia |].
        unfold m_adj. rewrite (proj2 (Z.geb_le _ _)), G3, slice_drop by lia. f_equal. lia.
      * intros Hdup. split; [done |]. intros Hxy. apply S3; [done |]. rewrite G2. destruct Hxy as [? | ?]; [left; lia | by right].
  - assert (Hsyn : btest (th_flags s) TH_SYN = false). { destruct (btest (th_flags s) TH_SYN) eqn:E; [| done]. specialize (G6 eq_refl). rewrite G6 in Hd. cbn in Hd. lia. }
    rewrite Hsyn in Hd. cbn in Hd. rewrite Z.add_0_r in Hd. exists c, s. split; [done |]. destruct Hcl as (C1 & C2 & C3). split_and!; [by unfold sim | split; [done |]; by rewrite C1 | done | by rewrite G2 |].
    right. exists d, (d + tlen s), (btest (th_flags s) TH_FIN). split_and!; try done; try lia; [| congruence]. unfold live. rewrite G2. split_and!; try done; [by rewrite Hd | lia].
Qed.

(** *** Dropping the tail *)

Lemma drop_tail_gone c n s : rcv_nxt (tp c) = u32 n -> 0 <= rcv_wnd c <= maxwnd -> gone n s ->
  exists c' s', (drop_tail c s = Continue c' s' /\ sim c c' /\ tp c' = tp c /\ tlen s' = 0 /\ btest (thflags s') TH_FIN = false /\ btest (thflags s') TH_SYN = false /\ btest (thflags s') TH_ACK = btest (thflags s) TH_ACK)
    \/ drop_tail c s = DropAfterAck.
Proof.
  intros Hn Hw (H1 & H2 & H3 & w & Hw1 & Hw2). unfold drop_tail. rewrite H1, Hw1, Hn, Z.add_0_r.
  assert (E : s32 (u32 w - (u32 n + rcv_wnd c)) = w - (n + rcv_wnd c)).
  { transitivity (s32 (u32 w - u32 (n + rcv_wnd c))); [| apply s32_near; unfold near, maxold, maxwnd in *; lia]. rewrite <- u32_seq_add. unfold s32. f_equal. unfold u32. rewrite <- (Z.add_mod_idemp_l (_ - _)), <- (Z.add_mod_idemp_l (_ - (_ mod _))) by lia. by rewrite Zminus_mod_idemp_r. }
  rewrite E, Z.gtb_ltb. destruct (Z.ltb_spec 0 (w - (n + rcv_wnd c))).
  2: { exists c, s. left. split; [done |]. unfold sim. by split_and!. }
  rewrite (proj2 (Z.geb_le _ _)) by lia. rewrite H3. cbn [andb]. destruct ((rcv_wnd c =? 0) && (u32 w =? u32 n)) eqn:E0; [| exists c, s; by right].
  exfalso. apply andb_true_iff in E0 as [E1%Z.eqb_eq E2%Z.eqb_eq]. apply (proj1 (seq_eq_near w n ltac:(unfold near, maxold, maxwnd in *; lia))) in E2. lia.
Qed.

(** What is left: the part of [x, y) in the window. *)
Lemma drop_tail_live c n s x y f : rcv_nxt (tp c) = u32 n -> 0 <= rcv_wnd c <= maxwnd -> live s x y f -> n <= x <= n + maxwnd -> x <= y < x + 2 ^ 16 -> (f = true -> y <= n + rcv_wnd c) ->
  (exists c' s' y', drop_tail c s = Continue c' s' /\ sim c c' /\ tp c' = tp c /\ live s' x y' f /\ x <= y' /\ (y' = y \/ f = false) /\ y' = Z.min y (n + rcv_wnd c) /\ btest (thflags s') TH_ACK = btest (thflags s) TH_ACK)
  \/ drop_tail c s = DropAfterAck /\ n + rcv_wnd c <= x.
Proof.
  intros Hn Hw (L1 & L2 & L3 & L4 & L5 & L6) Hx Hy Hf. unfold drop_tail. rewrite L1, L2, Hn.
  assert (E : s32 (u32 x + (y - x) - (u32 n + rcv_wnd c)) = y - (n + rcv_wnd c)).
  { transitivity (s32 (u32 y - u32 (n + rcv_wnd c))); [| apply s32_near; unfold near, maxold, maxwnd in *; lia]. rewrite <- u32_seq_add. replace (u32 y) with (u32 (u32 x + (y - x))) by (rewrite u32_seq_add; f_equal; lia).
    unfold s32. f_equal. unfold u32. rewrite <- (Z.add_mod_idemp_l (_ - _)), <- (Z.add_mod_idemp_l (_ mod _ - _)) by lia. f_equal. f_equal. rewrite <- Zminus_mod. done. }
  rewrite E, Z.gtb_ltb. destruct (Z.ltb_spec 0 (y - (n + rcv_wnd c))) as [Hcut | Hno].
  2: { left. exists c, s, y. split_and!; try done; first [lia | by left | by unfold sim]. }
  assert (Hnf : f = false) by (destruct f; [specialize (Hf eq_refl); lia | done]). rewrite Hnf in *. clear Hnf.
  assert (Hlive : forall c', sim c c' -> tp c' = tp c -> n + rcv_wnd c >= x -> exists c'' s' y',
    Continue c' (Segment (u32 x) (th_flags s) (Z.ldiff (thflags s) (Z.lor TH_PUSH TH_FIN)) (y - x - (y - (n + rcv_wnd c))) (m_adj (seg_m s) (- (y - (n + rcv_wnd c))))) = Continue c'' s' /\
    sim c c'' /\ tp c'' = tp c /\ live s' x y' false /\ x <= y' /\ (y' = y \/ false = false) /\ y' = Z.min y (n + rcv_wnd c) /\ btest (thflags s') TH_ACK = btest (thflags s) TH_ACK).
  { intros c' Hs Ht Hge. eexists _, _, (n + rcv_wnd c). split; [done |]. split_and!; try done; [| lia | by right | lia | by apply btest_ldiff_disjoint].
    unfold live. cbn [th_seq tlen seg_m thflags th_flags]. split_and!; try done; [lia | | | rewrite <- L6; by apply btest_ldiff_disjoint].
    - unfold m_adj. destruct (Z.geb_spec (- (y - (n + rcv_wnd c))) 0); [lia |]. rewrite L3, zlen_slice by lia. replace (y - x + - (y - (n + rcv_wnd c))) with (n + rcv_wnd c - x) by lia. rewrite slice_take by lia. f_equal. lia.
    - apply not_true_iff_false. intros Hb. unfold btest in *. rewrite negb_true_iff, Z.eqb_neq in Hb. apply Hb. apply Z.bits_inj'. intros i Hi. rewrite Z.land_spec, Z.ldiff_spec, Z.lor_spec, Z.bits_0.
      destruct (Z.testbit TH_FIN i); [by rewrite orb_true_r, andb_false_r | by rewrite andb_false_r]. }
  rewrite (Z.geb_leb _ (y - x)). destruct (Z.leb_spec (y - x) (y - (n + rcv_wnd c))).
  - rewrite L6. cbn [andb]. destruct ((rcv_wnd c =? 0) && (u32 x =? u32 n)) eqn:E0; [| right; split; [done | lia]]. left.
    apply andb_true_iff in E0 as [E1%Z.eqb_eq E2%Z.eqb_eq]. apply (proj1 (seq_eq_near x n ltac:(unfold near, maxold, maxwnd in *; lia))) in E2.
    apply Hlive; [by unfold sim | done | lia].
  - left. apply Hlive; [by unfold sim | done | lia].
Qed.
End Stream.
