(* ===== verification/ReassWorld.v ===== *)
(** * Receiving data: the invariant of a connection *)

From stdpp Require Import prelude list list_numbers strings gmap.
From S2P Require Import Prelude.
From S2P Require Import Seq.
From S2P Require Import Sack.
From S2P Require Import Sackrep.
From S2P Require Import SackrepHist.
From S2P Require Import SackrepReport.
From S2P Require Import Reass.
From S2P Require Import ReassInv.
From S2P Require Import ReassSeg.
From S2P Require Import ReassInput.
Open Scope Z_scope.

Definition same_hist (t t' : tcpcb) : Prop := nsackhistory t' = nsackhistory t /\ sackhistory t' = sackhistory t.

Section Stream.
Context (stream : Z -> Z) (start fin : Z) (maxseg : Z).

#[local] #[warnings="-notation-for-abbreviation"] Notation slice := (slice stream).
#[local] #[warnings="-notation-for-abbreviation"] Notation core := (core stream start fin).
#[local] #[warnings="-notation-for-abbreviation"] Notation sack_post := (sack_post fin).
#[local] #[warnings="-notation-for-abbreviation"] Notation live := (live stream).
#[local] #[warnings="-notation-for-abbreviation"] Notation in_window := (in_window fin).

(** The FIN was processed. *)
Definition closed (c : conn) (n : Z) (shut : bool) : Prop :=
  n = fin + 1 /\ t_segq c = [] /\ rcv_nxt (tp c) = u32 n /\ start <= fin /\ established c = true /\
  (exists m, so_rcv c = slice start m /\ start <= m <= fin /\ (shut = false -> m = fin)) /\ cantrcvmore c = true /\ 0 <= tcp_reass_qsize c.

(** [eof]: the FIN was processed; [shut]: the user has shut down the receiving side;
    [starved]: there was once no memory for a segment. *)
Definition rcv_inv (c : conn) (n : Z) (eof shut starved : bool) (l : list ent) : Prop :=
  TCPS_SYN_RECEIVED <= t_state c /\ 0 <= rcv_wnd c <= maxwnd /\
  if eof then closed c n shut /\ l = [] else core c n shut l /\ (starved = false -> established c = true -> chain (n + 1) l).

Lemma core_flags c n shut l f : core c n shut l -> core (add_t_flags c f) n shut l.
Proof. by intros []. Qed.

Lemma core_state c n shut l f st : core c n shut l -> core (set_t_flags (set_t_state c st) f) n shut l.
Proof. by intros []. Qed.

(** ** The FIN *)

Lemma do_fin_none d c fl : btest fl TH_FIN = false -> do_fin d c fl = c.
Proof. intros H. unfold do_fin. by rewrite H. Qed.

Lemma do_fin_ok d c fl n0 n shut : btest fl TH_FIN = true -> core c n shut [] -> n = fin -> n0 <= n -> TCPS_SYN_RECEIVED <= t_state c -> TCPS_HAVERCVDFIN (t_state c) = false -> sack_post (tp c) n0 n [] ->
  closed (do_fin d c fl) (fin + 1) shut /\ TCPS_SYN_RECEIVED <= t_state (do_fin d c fl) /\ rcv_wnd (do_fin d c fl) = rcv_wnd c /\
  sack_post (tp (do_fin d c fl)) n0 (fin + 1) [] /\ same_hist (tp c) (tp (do_fin d c fl)).
Proof.
  intros Hf [H1 H2 H3 H4 H5 H6 H7 H8] Hn Hn0 Hst Hfin Hp. unfold do_fin. rewrite Hf, Hfin. cbn [negb].
  set (c0 := if d && _ then _ else _). assert (E0 : c0 = set_t_flags (set_so c (so_rcv c) true) (t_flags c0)) by (unfold c0; by destruct (_ && _), c).
  clearbody c0. rewrite E0. clear E0. generalize (t_flags c0). clear c0. intros tf. set (c1 := set_tp _ _).
  set (c2 := if (_ : bool) then set_t_state c1 TCPS_CLOSE_WAIT else _).
  assert (E : tp c2 = tp c1 /\ t_segq c2 = t_segq c1 /\ rcv_wnd c2 = rcv_wnd c1 /\ so_rcv c2 = so_rcv c1 /\ cantrcvmore c2 = true /\ tcp_reass_qsize c2 = tcp_reass_qsize c1 /\ TCPS_ESTABLISHED <= t_state c2).
  { unfold c2. change (t_state c1) with (t_state c). destruct (Z.eqb_spec (t_state c) TCPS_SYN_RECEIVED), (Z.eqb_spec (t_state c) TCPS_ESTABLISHED); cbn [orb]; try (split_and!; done).
    destruct (t_state c =? TCPS_FIN_WAIT_1); [by split_and! |]. destruct (t_state c =? TCPS_FIN_WAIT_2); [by split_and! |]. split_and!; try done. change (t_state c1) with (t_state c). unfold TCPS_SYN_RECEIVED, TCPS_ESTABLISHED in *. lia. }
  destruct E as (E1 & E2 & E3 & E4 & E5 & E6 & E7). assert (Hq : t_segq c = []) by (by inversion H3). split_and!.
  - split_and!; try done; try congruence; try lia.
    + rewrite E2. exact Hq.
    + rewrite E1. unfold c1. cbn [tp set_tp rcv_nxt set_rcv_nxt set_t_flags set_so]. rewrite H1, u32_seq_add. by rewrite Hn.
    + unfold established, TCPS_HAVEESTABLISHED. by apply Z.geb_le.
    + rewrite E4. subst n. destruct H6 as (m & M1 & M2 & M3). by exists m.
    + rewrite E6. change (tcp_reass_qsize c1) with (tcp_reass_qsize c). unfold zlen in H8. cbn in H8. lia.
  - unfold TCPS_ESTABLISHED, TCPS_SYN_RECEIVED in *. lia.
  - by rewrite E3.
  - rewrite E1. unfold ReassInput.sack_post in *. destruct Hp as [Hp | [Hp1 Hp2]]; [by left |]. right. split; [| done]. eapply block_held_up; [| | exact Hp1]; [lia |]. unfold held. intros z [? | ?]; [left; lia | by right].
  - by rewrite E1.
Qed.

(** ** An empty segment *)

Lemma syn_acked_data c s : (tlen s =? 0) && negb (btest (thflags s) TH_FIN) = false -> exists c', syn_acked maxseg c s = Done c' /\ tp c' = tp c /\
    rcv_wnd c' = rcv_wnd c /\ tcp_reass_qsize c' = tcp_reass_qsize c /\ (TCPS_SYN_RECEIVED <= t_state c -> TCPS_SYN_RECEIVED <= t_state c') /\
    (forall n shut l, core c n shut l -> core c' n shut l) /\ TCPS_HAVERCVDFIN (t_state c') = TCPS_HAVERCVDFIN (t_state c) /\ (t_segq c' = t_segq c) /\ (established c = true -> established c' = true).
Proof.
  intros H. unfold syn_acked. destruct (Z.eqb_spec (t_state c) TCPS_SYN_RECEIVED) as [E |]; [| by eexists]. rewrite H.
  destruct (btest (t_flags c) TF_NEEDFIN); eexists; (split; [done |]); unfold established; rewrite E; split_and!; try done; by intros n shut l [].
Qed.

Lemma head_presented t t' n n' l l' : n <= fin + 1 -> head_report t n -> n <= n' -> (forall z, held n' l' z <-> held n l z) -> t' = t /\ n' = n /\ l' = l \/ presented t t' -> sack_post t' n n' l'.
Proof. intros H0 H1 H2 H3 H4. eapply sack_post_present; [| exact H2 | exact H3 | | exact H4]; [lia |]. by apply head_report_post. Qed.

Lemma present_hist t t' P : t' = t /\ P \/ presented t t' -> same_hist t t'.
Proof. intros [[-> _] | (H1 & H2 & _)]; by split. Qed.

Lemma empty_ok c n shut starved l s : core c n shut l -> (starved = false -> established c = true -> chain (n + 1) l) -> TCPS_SYN_RECEIVED <= t_state c ->
  tlen s = 0 -> btest (thflags s) TH_FIN = false -> head_report (tp c) n ->
  forall (ack : bool) kmalloc_ok delay_ack, exists c' n' l',
    (c ← (if ack then syn_acked maxseg c s else mret c); '(c, fl) ← dodata maxseg kmalloc_ok delay_ack.1 c s; mret (Some (do_fin delay_ack.2 c fl))) = Done (Some c') /\
    core c' n' shut l' /\ (starved = false -> established c' = true -> chain (n' + 1) l') /\ TCPS_SYN_RECEIVED <= t_state c' /\ rcv_wnd c' = rcv_wnd c /\
    n <= n' <= n + maxwnd /\ (forall z, held n' l' z <-> held n l z) /\ sack_post (tp c') n n' l' /\ same_hist (tp c) (tp c').
Proof.
  intros I Hc Hst Hl Hf Hh ack kmalloc_ok delay_ack. pose proof (c_low _ _ _ _ _ _ _ I) as Hlow.
  assert (Hdo : forall c, ('(c, fl) ← dodata maxseg kmalloc_ok delay_ack.1 c s; mret (Some (do_fin delay_ack.2 c fl))) = Done (Some c)).
  { intros c'. unfold dodata. rewrite Hl, Hf. cbn [Z.eqb negb orb andb]. rewrite bind_Done_l. unfold mret, outcome_ret. rewrite do_fin_none; [done |]. apply btest_ldiff_same. }
  assert (Hsame : exists c' n' l', Done (Some c) = Done (Some c') /\
    core c' n' shut l' /\ (starved = false -> established c' = true -> chain (n' + 1) l') /\ TCPS_SYN_RECEIVED <= t_state c' /\ rcv_wnd c' = rcv_wnd c /\
    n <= n' <= n + maxwnd /\ (forall z, held n' l' z <-> held n l z) /\ sack_post (tp c') n n' l' /\ same_hist (tp c) (tp c')).
  { exists c, n, l. split_and!; try done; [unfold maxwnd; lia | apply head_report_post; [lia | done]]. }
  destruct ack; [| unfold mret at 1, outcome_ret at 1; rewrite bind_Done_l, Hdo; exact Hsame].
  unfold syn_acked. destruct (Z.eqb_spec (t_state c) TCPS_SYN_RECEIVED) as [E |]; [| unfold mret at 1, outcome_ret at 1; rewrite bind_Done_l, Hdo; exact Hsame].
  rewrite Hl, Hf. cbn [Z.eqb negb andb tcp_reass]. set (c1 := if btest (t_flags c) TF_NEEDFIN then _ else _).
  assert (I1 : core c1 n shut l) by (unfold c1; destruct (btest (t_flags c) TF_NEEDFIN); by destruct I).
  assert (E1 : tp c1 = tp c /\ rcv_wnd c1 = rcv_wnd c /\ established c1 = true /\ TCPS_SYN_RECEIVED <= t_state c1) by (unfold c1; by destruct (btest (t_flags c) TF_NEEDFIN)). destruct E1 as (E1 & E2 & E3 & E4).
  destruct (present_ok stream start fin c1 n shut l I1) as (c' & r & n' & l' & -> & P1 & P2 & P3 & P4 & P5 & [P6 P6'] & P7). rewrite !bind_Done_l, Hdo.
  rewrite E1 in P7. exists c', n', l'. split_and!; try done; try congruence; try lia.
  - intros _ _. by apply P2.
  - eapply head_presented; [| exact Hh | | exact P4 | tauto]; lia.
  - apply (present_hist (tp c) _ (n' = n /\ l' = l)). tauto.
Qed.

(** ** A segment with data or a FIN *)

Lemma dodata_ok kmalloc_ok delay_ack c n shut l s x y f : core c n shut l -> TCPS_HAVERCVDFIN (t_state c) = false -> live s x y f -> in_window n x y f ->
  head_report (tp c) n -> sack_pre (tp c) n x ->
  exists c' fl n' l' took, dodata maxseg kmalloc_ok delay_ack c s = Done (c', fl) /\ core c' n' shut l' /\
    (took = true -> established c = true -> chain (n' + 1) l') /\ n <= n' <= n + maxwnd /\ (took = false -> n' = n /\ l' = l) /\
    (forall z, held n' l' z <-> held n l z \/ (took = true /\ x <= z < y)) /\ (room_for maxseg kmalloc_ok c = true -> took = true) /\
    (btest fl TH_FIN = true -> n' = fin /\ l' = []) /\ others c c' /\ sack_post (tp c') n n' l' /\ same_hist (tp c) (tp c').
Proof.
  intros I Hfin (L1 & L2 & L3 & L4 & L5 & L6) W Hh Hpre. pose proof W as (W1 & W2 & W3 & W4 & W5 & W6). unfold dodata. rewrite L4, Hfin. cbn [negb].
  assert (Hg : negb (tlen s =? 0) || f = true). { destruct W6 as [? | ->]; [| apply orb_true_r]. destruct (Z.eqb_spec (tlen s) 0); [lia | done]. }
  rewrite Hg. cbn [andb]. set (c1 := if f then add_t_flags c TF_SAWFIN else c).
  assert (E : tp c1 = tp c /\ t_segq c1 = t_segq c /\ t_state c1 = t_state c /\ rcv_wnd c1 = rcv_wnd c /\ so_rcv c1 = so_rcv c /\ cantrcvmore c1 = cantrcvmore c /\ tcp_reass_qsize c1 = tcp_reass_qsize c) by (unfold c1; by destruct f).
  assert (I1 : core c1 n shut l) by (unfold c1; destruct f; [by apply core_flags | done]).
  destruct E as (E1 & E2 & E3 & E4 & E5 & E6 & E7). rewrite E2, E3. destruct ((th_seq s =? rcv_nxt (tp c1)) && match t_segq c with [] => true | _ => false end && TCPS_HAVEESTABLISHED (t_state c)) eqn:Efast.
  - apply andb_true_iff in Efast as [Efast Eest]. apply andb_true_iff in Efast as [Eseq Eq]. rewrite L1, E1 in Eseq. pose proof I as [Hn Hl Hq Hok Hc Hso Hmore Hsize]. rewrite Hn in Eseq. apply Z.eqb_eq in Eseq.
    apply (proj1 (seq_eq_near x n ltac:(unfold near, maxwnd in *; lia))) in Eseq. subst x. assert (Eq' : t_segq c = []) by (by destruct (t_segq c)). rewrite Eq' in *. apply Forall2_nil_inv_l in Hq as ->.
    set (c2 := if delay_ack then _ else _). assert (F : tp c2 = tp c /\ t_segq c2 = [] /\ t_state c2 = t_state c /\ rcv_wnd c2 = rcv_wnd c /\ so_rcv c2 = so_rcv c /\ cantrcvmore c2 = cantrcvmore c /\ tcp_reass_qsize c2 = tcp_reass_qsize c).
    { unfold c2. destruct delay_ack; destruct f; split_and!; cbn; congruence. }
    destruct F as (F1 & F2 & F3 & F4 & F5 & F6 & F7). clearbody c2. rewrite F1, Hn, L2, u32_seq_add. replace (n + (y - n)) with y by lia. cbn [cantrcvmore set_tp]. rewrite F6.
    set (c3 := if cantrcvmore c then _ else _).
    assert (G : tp c3 = set_rcv_nxt (tp c) (u32 y) /\ t_segq c3 = [] /\ t_state c3 = t_state c /\ rcv_wnd c3 = rcv_wnd c /\ so_rcv c3 = (if cantrcvmore c then so_rcv c else so_rcv c ++ slice n y) /\ cantrcvmore c3 = cantrcvmore c /\ tcp_reass_qsize c3 = tcp_reass_qsize c).
    { unfold c3. destruct (cantrcvmore c) eqn:Em; split_and!; cbn; congruence. }
    destruct G as (G1 & G2 & G3 & G4 & G5 & G6 & G7). exists c3, (Z.land (th_flags s) TH_FIN), y, [], true. split; [done |]. split; [| split_and!; try done; try lia].
    + constructor; [by rewrite G1 | lia | rewrite G2; by apply Forall2_nil | by apply Forall_nil | done | | congruence | by rewrite G7].
      rewrite G5, Hmore. destruct Hso as (m & M1 & M2 & M3). destruct shut; [exists m; split_and!; [done | lia | lia | done] |]. exists y. split_and!; [| lia | lia | done]. rewrite M1, (M3 eq_refl). apply slice_app; lia.
    + intros z. unfold held. rewrite !cov_nil. lia.
    + rewrite fin_land, L5. intros H. split; [by apply W5 | done].
    + rewrite G1. unfold ReassInput.sack_post. change (reportblk (set_rcv_nxt (tp c) (u32 y))) with (reportblk (tp c)). change (enclosed (set_rcv_nxt (tp c) (u32 y))) with (enclosed (tp c)).
      destruct (head_report_post fin (tp c) n [] ltac:(lia) Hh) as [? | [Hb He]]; [by left |]. right. split; [| destruct Hpre as [Hpre _]; congruence]. eapply block_held_up; [| | exact Hb]; [lia |]. unfold held. intros z [? | ?]; [left; lia | by right].
    + rewrite G1. by split.
  - set (c2 := if negb (dupseg (tp c1)) then _ else _).
    assert (Hc2 : core c2 n shut l). { unfold c2. destruct (negb (dupseg (tp c1))); [| done]. by destruct I1. }
    assert (F : t_state c2 = t_state c /\ rcv_wnd c2 = rcv_wnd c /\ tcp_reass_qsize c2 = tcp_reass_qsize c /\ dupseg (tp c2) = dupseg (tp c) /\ enclosed (tp c2) = enclosed (tp c) /\ nsackhistory (tp c2) = nsackhistory (tp c) /\ sackhistory (tp c2) = sackhistory (tp c)).
    { unfold c2. rewrite E1. destruct (negb (dupseg (tp c))); split_and!; first [done | assumption | congruence]. }
    destruct F as (F1 & F2 & F3 & F4 & F5 & F6 & F7).
    assert (Hr : reportblk (tp c2) = if dupseg (tp c) then reportblk (tp c) else raw (x, y + Z.b2z f)).
    { unfold c2. rewrite E1. destruct (dupseg (tp c)); cbn [negb]; [by rewrite E1 |]. cbn [tp set_tp reportblk set_reportblk]. unfold TCP_SACK_BLKEND, raw. cbn [fst snd]. rewrite L1, L2, L4, <- Z.add_assoc, u32_seq_add. f_equal. f_equal. lia. }
    destruct (reass_ok stream start fin maxseg kmalloc_ok c2 n shut l x y f (th_flags s) Hc2 W L5) as (c' & r & n' & l' & took & Er & R1 & R2 & R3 & R4 & R5 & R6 & R7 & [R8 R8'] & R9 & R10 & R11).
    { destruct Hpre as [Hp1 Hp2]. split; [congruence |]. rewrite F4, Hr. intros Hd. rewrite Hd. by apply Hp2. }
    { rewrite F4, Hr. by intros ->. }
    rewrite L1, L2, L3, Er, bind_Done_l. exists (add_t_flags c' TF_ACKNOW), r, n', l', took. split; [done |]. split; [by apply core_flags |]. split_and!; try done; try lia.
    + intros Ht He. apply R2; [done |]. unfold established in *. congruence.
    + unfold room_for in *. by rewrite <- F3.
    + split; cbn [t_state rcv_wnd add_t_flags set_t_flags]; congruence.
    + split; cbn [tp add_t_flags set_t_flags]; congruence.
Qed.

Lemma active_ok kmalloc_ok delay_ack (ack : bool) c n shut starved l s x y f : core c n shut l -> (starved = false -> established c = true -> chain (n + 1) l) -> TCPS_SYN_RECEIVED <= t_state c ->
  live s x y f -> in_window n x y f -> head_report (tp c) n -> sack_pre (tp c) n x -> 0 <= rcv_wnd c <= maxwnd ->
  exists c' n' eof' l' took,
    (c ← (if ack then syn_acked maxseg c s else mret c); '(c, fl) ← dodata maxseg kmalloc_ok delay_ack.1 c s; mret (Some (do_fin delay_ack.2 c fl))) = Done (Some c') /\
    rcv_inv c' n' eof' shut (starved || negb (room_for maxseg kmalloc_ok c)) l' /\ n <= n' <= n + maxwnd + 1 /\
    (forall z, z < fin -> held n' l' z <-> held n l z \/ (took = true /\ x <= z < y)) /\
    (room_for maxseg kmalloc_ok c = true -> TCPS_HAVERCVDFIN (t_state c) = false -> took = true) /\ sack_post (tp c') n n' l' /\ same_hist (tp c) (tp c') /\ rcv_wnd c' = rcv_wnd c.
Proof.
  intros I Hc Hst Hlive W Hh Hpre Hw. pose proof Hlive as (L1 & L2 & L3 & L4 & L5 & L6). pose proof W as (W1 & W2 & W3 & W4 & W5 & W6).
  assert (Hact : (tlen s =? 0) && negb (btest (thflags s) TH_FIN) = false). { rewrite L4. destruct W6 as [? | ->]; [| apply andb_false_r]. destruct (Z.eqb_spec (tlen s) 0); [lia | done]. }
  assert (Hsyn : exists c1, (if ack then syn_acked maxseg c s else mret c) = Done c1 /\ tp c1 = tp c /\ rcv_wnd c1 = rcv_wnd c /\ tcp_reass_qsize c1 = tcp_reass_qsize c /\ TCPS_SYN_RECEIVED <= t_state c1 /\ core c1 n shut l /\
      TCPS_HAVERCVDFIN (t_state c1) = TCPS_HAVERCVDFIN (t_state c) /\ (c1 = c \/ TCPS_HAVERCVDFIN (t_state c) = false)).
  { destruct ack; [| exists c; split_and!; try done; by left]. destruct (Z.eqb_spec (t_state c) TCPS_SYN_RECEIVED) as [E | E].
    - destruct (syn_acked_data c s Hact) as (c1 & H1 & H2 & H3 & H4 & H5 & H6 & H7 & _). exists c1. split_and!; try done; [by apply H5 | by apply H6 | right; by rewrite E].
    - exists c. unfold syn_acked. rewrite (proj2 (Z.eqb_neq _ _) E). split_and!; try done. by left. }
  destruct Hsyn as (c1 & -> & E1 & E2 & E3 & E4 & I1 & E5 & E6). rewrite bind_Done_l. destruct (TCPS_HAVERCVDFIN (t_state c)) eqn:Efin.
  - destruct E6 as [-> | ?]; [| done]. assert (Hno : dodata maxseg kmalloc_ok delay_ack.1 c s = Done (c, Z.ldiff (thflags s) TH_FIN)) by (unfold dodata; rewrite Efin; by rewrite andb_false_r).
    rewrite Hno, bind_Done_l, do_fin_none by apply btest_ldiff_same. exists c, n, false, l, false. unfold rcv_inv. split_and!; try done; try lia.
    + intros H He. apply Hc; [| done]. by apply orb_false_iff in H as [-> _].
    + intros z _. intuition congruence.
    + apply head_report_post; [destruct I; lia | done].
  - destruct (dodata_ok kmalloc_ok delay_ack.1 c1 n shut l s x y f I1 E5 Hlive W) as (c2 & fl & n' & l' & took & -> & R1 & R2 & R3 & R4 & R5 & R6 & R7 & [R8 R8'] & R9 & [R10 R11]); [by rewrite E1 | by rewrite E1 |].
    rewrite bind_Done_l. assert (Er : room_for maxseg kmalloc_ok c1 = room_for maxseg kmalloc_ok c) by (unfold room_for; by rewrite E3). rewrite Er in R6. destruct (btest fl TH_FIN) eqn:Efl.
    + destruct (R7 eq_refl) as [-> ->]. destruct (do_fin_ok delay_ack.2 c2 fl n fin shut Efl R1 eq_refl ltac:(lia) ltac:(congruence) ltac:(congruence) R9) as (D1 & D2 & D3 & D4 & [D5 D6]).
      exists (do_fin delay_ack.2 c2 fl), (fin + 1), true, [], took. split; [done |]. unfold rcv_inv. rewrite D3, R8', E2. split_and!; try done; try lia; try congruence.
      * intros z Hz. rewrite <- R5. unfold held. rewrite cov_nil. lia.
      * by intros H _; apply R6.
      * split; congruence.
    + rewrite do_fin_none by done. exists c2, n', false, l', took. split; [done |]. unfold rcv_inv. rewrite R8, R8', E2. split_and!; try done; try lia.
      * intros H He. apply orb_false_iff in H as [Hs Hr]. apply negb_false_iff in Hr. apply R2; [by apply R6 |]. unfold established in *. by rewrite <- R8.
      * by intros H _; apply R6.
      * split; congruence.
Qed.

(** ** The whole way *)

(** What a segment does: the receiver has its bytes that lie in the window, if it took
    the segment. *)
Definition input_result (kmalloc_ok : bool) (c : conn) (n : Z) (shut starved : bool) (l : list ent) (s : segment) (a : Z) (c' : conn) : Prop :=
  exists n' eof' l' took, rcv_inv c' n' eof' shut (starved || negb (room_for maxseg kmalloc_ok c)) l' /\ n <= n' <= n + maxwnd + 1 /\
    (forall z, z < fin -> held n' l' z <-> held n l z \/ (took = true /\ first_byte s a <= z < first_byte s a + tlen s /\ z < n + rcv_wnd c)) /\
    (room_for maxseg kmalloc_ok c = true -> TCPS_HAVERCVDFIN (t_state c) = false -> btest (th_flags s) TH_ACK = true -> took = true) /\
    sack_post (tp c') n n' l' /\ same_hist (tp c) (tp c').

Lemma starved_weaken starved b (P : Prop) : (starved = false -> P) -> starved || b = false -> P.
Proof. intros H [E _]%orb_false_iff. by apply H. Qed.

(** The segment brings nothing new. *)
Lemma nothing_new kmalloc_ok c n shut starved l s a c1 c' n' l' : sim c c1 -> rcv_wnd c' = rcv_wnd c -> 0 <= rcv_wnd c <= maxwnd -> TCPS_SYN_RECEIVED <= t_state c' -> core c' n' shut l' ->
  (starved = false -> established c' = true -> chain (n' + 1) l') -> n <= n' <= n + maxwnd -> (forall z, held n' l' z <-> held n l z) ->
  sack_post (tp c') n n' l' -> same_hist (tp c1) (tp c') -> (forall z, first_byte s a <= z < first_byte s a + tlen s -> z < n + rcv_wnd c -> z < n) \/ btest (th_flags s) TH_ACK = false ->
  input_result kmalloc_ok c n shut starved l s a c'.
Proof.
  intros (_ & _ & _ & _ & _ & _ & _ & S8 & S9) Hw' Hw Hst I Hc Hn Hh Hp [H1 H2] Hz.
  assert (Hheld : exists took : bool, (btest (th_flags s) TH_ACK = true -> took = true) /\
    forall z, held n l z <-> held n l z \/ (took = true /\ first_byte s a <= z < first_byte s a + tlen s /\ z < n + rcv_wnd c)).
  { destruct Hz as [Hz | Hz]; [exists true | exists false; split; [congruence |]; intros z; intuition congruence]. split; [done |]. intros z. split; [tauto |].
    intros [? | (_ & H3 & H4)]; [done |]. left. by apply Hz. }
  destruct Hheld as (took & Ht & Hheld). exists n', false, l', took. unfold rcv_inv. rewrite Hw'. split_and!; try done; try lia.
  - intros H. by apply (starved_weaken _ _ _ Hc H).
  - intros z _. by rewrite Hh.
  - split; congruence.
Qed.

Lemma ack_guard (ack : bool) c c1 s kmalloc_ok delay_ack (P : conn -> Prop) :
  (exists c', (c ← (if ack then syn_acked maxseg c s else mret c); '(c, fl) ← dodata maxseg kmalloc_ok delay_ack.1 c s; mret (Some (do_fin delay_ack.2 c fl))) = Done (Some c') /\ P c') ->
  (ack = false -> P c) -> btest (thflags s) TH_SYN = false -> btest (thflags s) TH_ACK = ack ->
  exists c', (if btest (thflags s) TH_SYN then mret None
    else if negb (btest (thflags s) TH_ACK) && negb c1 then mret (Some c)
    else c ← (if btest (thflags s) TH_ACK then syn_acked maxseg c s else mret c); '(c, fl) ← dodata maxseg kmalloc_ok delay_ack.1 c s; mret (Some (do_fin delay_ack.2 c fl))) = Done (Some c') /\ P c'.
Proof. intros H1 H2 -> ->. destruct ack; cbn [negb andb]; [done |]. destruct c1; cbn [negb]; [done |]. exists c. split; [done |]. by apply H2. Qed.

Lemma input_ok kmalloc_ok delay_ack c n shut starved l s a : rcv_inv c n false shut starved l -> clean (tp c) -> good_segment stream start fin c n s a ->
  exists c', tcp_input_data maxseg kmalloc_ok delay_ack c s = Done (Some c') /\ input_result kmalloc_ok c n shut starved l s a c'.
Proof.
  intros (Hst & Hw & I & Hc) Hcl G. pose proof I as [Hn Hl _ _ _ _ _ _]. unfold tcp_input_data.
  destruct (drop_head_ok stream start fin c n s a Hn ltac:(lia) Hcl G) as (c1 & s1 & -> & Hs & Hh & Ef & Ea & Hcase). pose proof Hs as (S1 & S2 & S3 & S4 & S5 & S6 & S7 & S8 & S9).
  pose proof (core_sim _ _ _ _ _ _ _ _ Hs I) as I1. assert (Hest1 : established c1 = established c) by (unfold established; by rewrite S3).
  assert (Hdrop : (forall z, first_byte s a <= z < first_byte s a + tlen s -> z < n + rcv_wnd c -> z < n) \/ btest (th_flags s) TH_ACK = false -> forall c2, sim c1 c2 -> tp c2 = tp c1 -> input_result kmalloc_ok c n shut starved l s a c2).
  { intros Hz c2 H2 Et. pose proof H2 as (T1 & T2 & T3 & T4 & T5 & T6 & T7 & _). apply (nothing_new _ _ _ _ _ _ _ _ c1 c2 n l); try done; try congruence; [by eapply core_sim | unfold established in *; by rewrite T3, S3 | unfold maxwnd; lia | rewrite Et; apply head_report_post; [lia | done] | by rewrite Et]. }
  assert (Hempty : (forall z, first_byte s a <= z < first_byte s a + tlen s -> z < n + rcv_wnd c -> z < n) -> forall c2 s2, sim c1 c2 -> tp c2 = tp c1 -> tlen s2 = 0 -> btest (thflags s2) TH_FIN = false -> forall ack, exists c',
      (c ← (if ack : bool then syn_acked maxseg c2 s2 else mret c2); '(c, fl) ← dodata maxseg kmalloc_ok delay_ack.1 c s2; mret (Some (do_fin delay_ack.2 c fl))) = Done (Some c') /\ input_result kmalloc_ok c n shut starved l s a c').
  { intros Hz c2 s2 H2 Et Hlen Hfin ack. pose proof H2 as (T1 & T2 & T3 & T4 & T5 & T6 & T7 & _).
    destruct (empty_ok c2 n shut starved l s2) with (ack := ack) (kmalloc_ok := kmalloc_ok) (delay_ack := delay_ack) as (c' & n' & l' & Ec & R1 & R2 & R3 & R4 & R5 & R6 & R7 & R8);
      [by eapply core_sim | unfold established in *; by rewrite T3, S3 | congruence | done | done | by rewrite Et |].
    exists c'. split; [exact Ec |]. apply (nothing_new _ _ _ _ _ _ _ _ c1 c' n' l'); try done; [congruence | by rewrite <- Et | by left]. }
  destruct Hcase as [[Hgone Hz] | (x & y & f & Hlive & Ex & Ey & Hxy & Hnf & Eff & Hdup)].
  - destruct (drop_tail_gone c1 n s1 ltac:(congruence) ltac:(by rewrite S4) Hgone) as (c2 & s2 & [(-> & T & Et & T1 & T2 & T3 & T4) | ->]).
    + apply (ack_guard (btest (th_flags s) TH_ACK)); [apply Hempty; try done; intros; lia | intros _; apply Hdrop; try done; left; intros; lia | done | congruence].
    + exists c1. split; [done |]. apply Hdrop; try done. left. intros. lia.
  - pose proof G as [G1 G2 G3 G4 G5 G6 G7 G8 G9 G10].
    assert (Hf' : f = true -> y <= n + rcv_wnd c1). { rewrite S4, Ey. intros H. rewrite H in Eff. rewrite G8 by done. by apply G10. }
    assert (Hd : a <= first_byte s a <= a + 1) by (unfold first_byte; destruct (btest (th_flags s) TH_SYN); cbn; lia).
    destruct (drop_tail_live stream c1 n s1 x y f ltac:(congruence) ltac:(by rewrite S4) Hlive) as [(c2 & s2 & y' & -> & T & Et & L2 & Hy' & Hcut & Ey' & Ta) | [-> Hx]]; [| | done | |].
    + split; [lia |]. subst x. destruct (btest (th_flags s) TH_SYN) eqn:Esyn; [rewrite G6 by done; unfold maxwnd; lia |]. unfold first_byte. rewrite Esyn. cbn. unfold maxwnd in *. lia.
    + lia.
    + pose proof L2 as (_ & L2b & _ & L2c & _ & L2d). rewrite S4 in Ey'. destruct (decide (x < y' \/ f = true)) as [Hact | Hno].
      * apply (ack_guard (btest (th_flags s) TH_ACK)); [| intros; apply Hdrop; try done; by right | done | congruence].
        pose proof T as (U1 & U2 & U3 & U4 & U5 & U6 & U7 & _).
        destruct (active_ok kmalloc_ok delay_ack (btest (th_flags s) TH_ACK) c2 n shut starved l s2 x y' f) as (c' & n' & eof' & l' & took & Ec & R1 & R2 & R3 & R4 & R5 & R6 & R7);
          [by eapply core_sim | unfold established in *; by rewrite U3, S3 | congruence | done | | by rewrite Et | | by rewrite U4, S4 |].
        -- split_and!; try lia; try done. intros H. specialize (Hf' H). rewrite S4 in Hf'. rewrite H in Eff. rewrite <- (G8 (eq_sym Eff)). lia.
        -- split; [rewrite Et; apply Hh |]. rewrite Et. intros Hd1. destruct (Hdup Hd1) as [-> Hex]. split; [done |]. apply Hex. destruct Hact as [? | ?]; [left; lia | by right].
        -- exists c'. split; [exact Ec |]. assert (Er : room_for maxseg kmalloc_ok c2 = room_for maxseg kmalloc_ok c) by (unfold room_for; by rewrite U7, S7). rewrite Er in *.
           exists n', eof', l', took. split_and!; try done; try lia.
           ++ intros z Hz. rewrite R3 by done. destruct (decide (z < n)); [unfold held; intuition | assert (x <= z < y' <-> first_byte s a <= z < first_byte s a + tlen s /\ z < n + rcv_wnd c) by lia; tauto].
           ++ intros H1 H2 _. apply R4; [done | congruence].
           ++ destruct R6 as [R6a R6b]. split; congruence.
      * assert (f = false) as -> by (destruct f; [tauto | done]). assert (x = y') by lia.
        apply (ack_guard (btest (th_flags s) TH_ACK)); [apply Hempty; try done; [intros; lia | lia] | intros _; apply Hdrop; try done; left; intros; lia | done | congruence].
    + exists c1. split; [done |]. apply Hdrop; try done. left. rewrite S4 in Hx. intros. lia.
Qed.
End Stream.
