(* ===== verification/ReassReach.v ===== *)
(** * Receiving data: the steps of a connection, and its SACK reports *)

From stdpp Require Import prelude list list_numbers strings gmap.
From S2P Require Import Prelude.
From S2P Require Import Seq.
From S2P Require Import Sack.
From S2P Require Import SackUpdate.
From S2P Require Import Sackrep.
From S2P Require Import SackrepHist.
From S2P Require Import SackrepReport.
From S2P Require Import Reass.
From S2P Require Import ReassInv.
From S2P Require Import ReassSeg.
From S2P Require Import ReassInput.
From S2P Require Import ReassWorld.
Open Scope Z_scope.

(** No reported block is too old to be told from a new one. *)
Definition fresh (n : Z) (hl : list (Z * Z)) : Prop := Forall (fun p => n - maxold <= p.1) hl.

Lemma hist_ok_mono lo hi hi' hl : hi <= hi' -> hist_ok lo hi hl -> hist_ok lo hi' hl.
Proof. intros H [H1 H2]. split; [| done]. eapply Forall_impl; [exact H1 |]. unfold block_in. intros p Hp. lia. Qed.

Lemma option_block_raw x y : x < y < x + 2 ^ 31 -> option_block (raw (x, y)).
Proof.
  intros H. unfold option_block, raw. cbn [rblk_start rblk_end fst snd]. split_and!; [apply u32_range | apply u32_range |]. rewrite SEQ_LEQ_near by (unfold near; lia). apply Z.leb_gt. lia.
Qed.

Section Stream.
Context (stream : Z -> Z) (start fin : Z) (maxseg : Z) (tcp_do_smartsack : bool).

#[local] #[warnings="-notation-for-abbreviation"] Notation core := (core stream start fin).
#[local] #[warnings="-notation-for-abbreviation"] Notation sack_post := (sack_post fin).
#[local] #[warnings="-notation-for-abbreviation"] Notation rcv_inv := (rcv_inv stream start fin).
#[local] #[warnings="-notation-for-abbreviation"] Notation input_result := (input_result stream start fin maxseg).
#[local] #[warnings="-notation-for-abbreviation"] Notation fill := (tcp_sack_fill_report tcp_do_smartsack).

(** The block around the incoming segment, as integers. *)
Definition seg_of (n : Z) (t : tcpcb) : option (Z * Z) :=
  if rblk_start (reportblk t) =? rblk_end (reportblk t) then None
  else let x := unwrap n (rblk_start (seg_block t)) in Some (x, x + u32 (rblk_end (seg_block t) - rblk_start (seg_block t))).

Lemma seg_of_raw n t x y : rblk_start (reportblk t) <> rblk_end (reportblk t) -> seg_block t = raw (x, y) -> near x n -> 0 <= y - x < 2 ^ 32 -> seg_of n t = Some (x, y).
Proof.
  intros H1 H2 H3 H4. unfold seg_of. rewrite (proj2 (Z.eqb_neq _ _) H1), H2. cbn [rblk_start rblk_end raw fst snd]. rewrite unwrap_u32 by (unfold near in *; lia).
  rewrite u32_seq_sub, u32_id by done. f_equal. f_equal. lia.
Qed.

(** ** Steps *)

(** tcp_output may be called and report, and tcp_input cleans up. *)
Inductive output (c : conn) (n : Z) (hl : list (Z * Z)) : conn -> list (Z * Z) -> Prop :=
  | out_none : output c n hl (set_tp c (tcp_sack_report_cleanup (tp c))) hl
  | out_report opt plen t opt' plen' : fresh n hl -> zlen opt = 40 -> 0 <= plen <= 12 ->
      fill (tp c) (t_segq c) opt plen = Done (t, opt', plen') ->
      output c n hl (set_tp c (tcp_sack_report_cleanup t)) (new_hist n (seg_of n (tp c)) (ack_hist n hl)).

Definition set_rcv_wnd (c : conn) v := Conn (tp c) (t_segq c) (t_flags c) (t_state c) v (so_rcv c) (cantrcvmore c) (tcp_reass_qsize c).

(** A connection whose peer sends the stream; rcv_nxt stands for [n], and the history of
    reports for [hl].  [shut]: the user has shut down the receiving side; [starved]: there
    was once no memory for a segment; [drained]: the queue was once freed for lack of
    memory. *)
Inductive reachable : conn -> Z -> list (Z * Z) -> bool -> bool -> bool -> Prop :=
  | r_start c : start <= fin -> rcv_nxt (tp c) = u32 start -> t_segq c = [] -> so_rcv c = [] -> cantrcvmore c = false -> 0 <= tcp_reass_qsize c ->
      TCPS_SYN_RECEIVED <= t_state c -> 0 <= rcv_wnd c <= maxwnd -> clean (tp c) -> nsackhistory (tp c) = 0 -> zlen (sackhistory (tp c)) = MAX_SACK_REPORT_BLOCKS ->
      reachable c start [] false false false
  | r_segment c n hl shut starved drained s a kmalloc_ok delay_ack c1 n1 c2 hl2 : reachable c n hl shut starved drained -> good_segment stream start fin c n s a ->
      tcp_input_data maxseg kmalloc_ok delay_ack c s = Done (Some c1) -> n1 = n + u32 (rcv_nxt (tp c1) - rcv_nxt (tp c)) -> output c1 n1 hl c2 hl2 ->
      reachable c2 n1 hl2 shut (starved || negb (room_for maxseg kmalloc_ok c)) drained
  | r_output c n hl shut starved drained c2 hl2 : reachable c n hl shut starved drained -> output c n hl c2 hl2 -> reachable c2 n hl2 shut starved drained
  | r_window c n hl shut starved drained w : reachable c n hl shut starved drained -> 0 <= w <= maxwnd -> reachable (set_rcv_wnd c w) n hl shut starved drained
  | r_state c n hl shut starved drained st : reachable c n hl shut starved drained -> established c = true -> TCPS_ESTABLISHED <= st -> reachable (set_t_state c st) n hl shut starved drained
  | r_shutdown c n hl shut starved drained : reachable c n hl shut starved drained -> reachable (set_so c (so_rcv c) true) n hl true starved drained
  | r_others c n hl shut starved drained k : reachable c n hl shut starved drained -> zlen (t_segq c) <= k -> reachable (set_qsize c k) n hl shut starved drained
  | r_drain c n hl shut starved drained : reachable c n hl shut starved drained -> reachable (tcp_drain_conn c) n hl shut starved true.

(** ** The history *)

(** The blocks of the history do not touch; the receiver has what they say, unless it has
    freed the queue. *)
Definition hist_good (n : Z) (l : list ent) (drained : bool) (hl : list (Z * Z)) : Prop :=
  Forall (fun p => p.1 < p.2 /\ p.2 <= n + maxwnd + 1 /\ p.2 <= fin + 1) hl /\ apart_all hl /\ (drained = false -> forall z, in_blocks z hl -> z < fin -> held n l z).

Lemma hist_good_up n n' l l' drained hl : n <= n' -> (forall z, z < fin -> held n l z -> held n' l' z) -> hist_good n l drained hl -> hist_good n' l' drained hl.
Proof.
  intros Hn Hh (H1 & H2 & H3). split_and!; [| done | intros Hd z Hz Hf; apply Hh; [done |]; by apply H3]. eapply Forall_impl; [exact H1 |]. cbn. intros p Hp. lia.
Qed.

Lemma hist_good_ok n l drained hl : fresh n hl -> hist_good n l drained hl -> hist_ok (n - maxold) (Z.min (n + maxwnd + 1) (fin + 1)) hl.
Proof.
  intros Hf (H1 & H2 & _). split; [| done]. unfold fresh in Hf. rewrite Forall_forall in *. intros p Hp. specialize (Hf p Hp). specialize (H1 p Hp). cbn in H1. unfold block_in. lia.
Qed.

(** The block around the segment goes into the history. *)
Definition seg_held (n : Z) (l : list ent) (seg : option (Z * Z)) : Prop :=
  match seg with Some p => n < p.1 -> p.2 <= fin + 1 /\ forall z, in_block z p -> z < fin -> held n l z | None => True end.

Lemma new_hist_good n l drained hl seg t : fresh n hl -> hist_good n l drained hl -> seg_ok (n + maxwnd + 1) n t seg -> seg_held n l seg ->
  hist_good n l drained (new_hist n seg (ack_hist n hl)).
Proof.
  intros Hf Hg Hs Hh. pose proof (hist_good_ok _ _ _ _ Hf Hg) as Hok. destruct Hg as (G1 & G2 & G3).
  pose proof (ack_hist_ok (n - maxold) (Z.min (n + maxwnd + 1) (fin + 1)) n hl ltac:(unfold maxold; lia) Hok) as Hack.
  assert (Hback : hist_good n l drained (ack_hist n hl)).
  { destruct Hack as [A1 A2]. split_and!; [| done | intros Hd z [Hz _]%ack_hist_in; by apply G3]. eapply Forall_impl; [exact A1 |]. unfold block_in. cbn. lia. }
  destruct seg as [c |]; [| done]. cbn [new_hist]. destruct (Z.ltb_spec n c.1) as [Hlt |]; [| done]. destruct Hs as (_ & _ & _ & Hin). specialize (Hin Hlt). destruct (Hh Hlt) as [Hc2 Hh'].
  assert (Hin' : block_in n (Z.min (n + maxwnd + 1) (fin + 1)) c) by (unfold block_in in *; lia).
  destruct (merge_hist_ok n (Z.min (n + maxwnd + 1) (fin + 1)) (ack_hist n hl) c Hin' Hack) as (M1 & M2 & _). set (m := merge_hist c (ack_hist n hl)) in *.
  destruct (hist_ok_take _ _ 4 _ M1) as [T1 T2]. split_and!; [| done |].
  - eapply Forall_impl; [exact T1 |]. unfold block_in. cbn. lia.
  - intros Hd z Hz Hzf. assert (Hz' : in_blocks z (m.1 :: m.2)). { unfold in_blocks in *. rewrite Exists_exists in *. destruct Hz as (p & Hp & Hz). exists p. split; [| done]. apply elem_of_take in Hp as (i & Hi & _). by eapply list_elem_of_lookup_2. }
    apply M2 in Hz' as [Hz' | Hz']; [by apply Hh' |]. by apply Hback.
Qed.

(** ** What is to be reported *)

Lemma post_seg t n0 n l : n0 <= n <= n0 + maxwnd + 1 -> Forall (ent_ok fin n (n + maxwnd + 1)) l -> sack_post t n0 n l ->
  let seg := seg_of n t in seg_ok (n + maxwnd + 1) n t seg /\ seg_held n l seg /\ zlen (seg_blocks t) <= 2 /\ Forall (block_held fin n0 n l) (seg_blocks t).
Proof.
  intros Hn Hok [He | [Hb Hen]] seg.
  - assert (seg = None) as -> by (unfold seg, seg_of; by rewrite He, Z.eqb_refl). split_and!; [done | done | |]; unfold seg_blocks; rewrite He, Z.eqb_refl; [done | by apply Forall_nil].
  - pose proof Hb as (x & y & Eb & B1 & B2a & B2 & B2b & B3). assert (Hne : rblk_start (reportblk t) <> rblk_end (reportblk t)).
    { rewrite Eb. cbn [raw rblk_start rblk_end fst snd]. intros E. apply (proj1 (seq_eq_near x y ltac:(unfold near, maxold, maxwnd in *; lia))) in E. lia. }
    destruct (enclosed t) eqn:Een.
    + destruct (Hen eq_refl) as (e & He & Ee). 
      destruct (eblk_held fin n n l e (Z.le_refl _) Hok He) as (x' & y' & Ex & X1 & X2a & X2 & X2b & X3). rewrite Forall_forall in Hok. destruct (Hok e He) as (E1 & E2 & E3 & E4 & E5 & E6).
      assert (Hlt : (eblk e).1 < (eblk e).2 <= n + maxwnd + 1) by (unfold eblk; cbn; destruct (ef e), E6; cbn; try done; lia).
      assert (Hnear : near (eblk e).1 n) by (unfold near, eblk, maxwnd in *; cbn in *; lia).
      assert (Hin : block_in n (n + maxwnd + 1) (eblk e)) by (unfold block_in, eblk in *; cbn in *; lia).
      assert (seg = Some (eblk e)) as ->.
      { unfold seg. destruct (eblk e) as [x1 y1] eqn:Eblk. cbn in Hlt, Hnear. apply seg_of_raw; try done; [unfold seg_block; by rewrite Een |]. unfold eblk in Eblk. injection Eblk as <- <-. unfold maxwnd in *. lia. }
      unfold seg_ok, seg_block, seg_blocks. rewrite Een, (proj2 (Z.eqb_neq _ _) Hne). split; [by split_and! |]. split; [| split; [done |]].
      * unfold seg_held, in_block. intros _. split; [unfold eblk; cbn; destruct (ef e); cbn; lia |]. intros z Hz Hzf. right. apply Exists_exists. exists e. split; [done |]. unfold eblk in Hz. cbn in Hz. destruct (ef e); cbn in Hz; [specialize (E5 eq_refl) |]; lia.
      * apply Forall_cons. split; [done |]. apply Forall_cons. split; [| by apply Forall_nil]. rewrite Ee. apply eblk_held; [lia | by rewrite Forall_forall | done].
    + assert (Hnear : near x n) by (unfold near, maxold, maxwnd in *; lia).
      assert (seg = Some (x, y)) as -> by (apply seg_of_raw; try done; [unfold seg_block; by rewrite Een | lia]).
      unfold seg_ok, seg_block, seg_blocks. rewrite Een, (proj2 (Z.eqb_neq _ _) Hne). cbn [fst snd].
      split; [split_and!; try done; intros Hlt; unfold block_in; cbn; lia |]. split; [| split; [done |]].
      * unfold seg_held, in_block. cbn. intros _. split; [done |]. intros z Hz Hzf. by apply B3.
      * apply Forall_cons. split; [done | by apply Forall_nil].
Qed.

Lemma clean_post t n l : clean t -> sack_post t n n l.
Proof. intros (_ & _ & H). by left. Qed.

Lemma cleanup_clean t : clean (tcp_sack_report_cleanup t).
Proof.
  unfold clean, tcp_sack_report_cleanup, dupseg, enclosed. cbn [sack_flags set_sack_flags set_reportblk reportblk rblk_start rblk_end].
  assert (H : forall f m, (forall i, Z.testbit m i = true -> Z.testbit (Z.lor (Z.lor TSACK_F_DUPSEG TSACK_F_ENCLOSESEG) TSACK_F_SACKLEFT) i = true) -> btest (Z.ldiff f (Z.lor (Z.lor TSACK_F_DUPSEG TSACK_F_ENCLOSESEG) TSACK_F_SACKLEFT)) m = false).
  { intros f m Hm. unfold btest. apply negb_false_iff, Z.eqb_eq. apply Z.bits_inj'. intros i _. rewrite Z.land_spec, Z.ldiff_spec, Z.bits_0. destruct (Z.testbit m i) eqn:E; [| apply andb_false_r]. rewrite (Hm i E). by rewrite andb_false_r. }
  split_and!; [apply H | apply H | done]; intros i Hi; rewrite !Z.lor_spec, Hi; by rewrite ?orb_true_r.
Qed.

(** ** The invariant *)

Definition world_inv (c : conn) (n : Z) (hl : list (Z * Z)) (shut starved drained : bool) : Prop :=
  exists eof l, rcv_inv c n eof shut starved l /\ clean (tp c) /\ hist (tp c) hl /\ hist_good n l drained hl.

Lemma rcv_ents c n eof shut starved l : rcv_inv c n eof shut starved l -> Forall (ent_ok fin n (n + maxwnd + 1)) l /\ rcv_nxt (tp c) = u32 n.
Proof. intros (_ & _ & H). destruct eof; [destruct H as [(_ & _ & H & _) ->]; split; [by apply Forall_nil | done] | destruct H as [[] _]; done]. Qed.

(** A change of the SACK state only. *)
Lemma rcv_inv_tp c n eof shut starved l t : rcv_nxt t = rcv_nxt (tp c) -> rcv_inv c n eof shut starved l -> rcv_inv (set_tp c t) n eof shut starved l.
Proof.
  intros Ht (H1 & H2 & H3). split; [done |]. split; [done |]. destruct eof.
  - destruct H3 as [(C1 & C2 & C3 & C4 & C5 & C6 & C7 & C8) ->]. split; [| done]. split_and!; try done. cbn. congruence.
  - destruct H3 as [[] H3]. split; [| done]. constructor; try done. cbn. congruence.
Qed.

Lemma output_ok c n0 n hl drained shut starved eof l c2 hl2 : rcv_inv c n eof shut starved l -> n0 <= n <= n0 + maxwnd + 1 -> sack_post (tp c) n0 n l ->
  hist (tp c) hl -> hist_good n l drained hl -> output c n hl c2 hl2 -> world_inv c2 n hl2 shut starved drained.
Proof.
  intros I Hn Hp Hh Hg Hout. destruct (rcv_ents _ _ _ _ _ _ I) as [Hok Hnxt]. destruct Hout as [| opt plen t opt' plen' Hf Hopt Hplen Hfill].
  - exists eof, l. split_and!; [by apply rcv_inv_tp | apply cleanup_clean | by destruct Hh | done].
  - destruct (post_seg (tp c) n0 n l Hn Hok Hp) as (S1 & S2 & S3 & S4). pose proof (hist_ok_mono (n - maxold) (Z.min (n + maxwnd + 1) (fin + 1)) (n + maxwnd + 1) hl ltac:(lia) (hist_good_ok _ _ _ _ Hf Hg)) as Hhok.
    assert (Eopt : opt = take (Z.to_nat plen) opt ++ drop (Z.to_nat plen) opt) by (by rewrite take_drop). set (P := take (Z.to_nat plen) opt) in *. set (Q := drop (Z.to_nat plen) opt) in *.
    assert (HP : zlen P = plen) by (unfold P, zlen in *; rewrite length_take; lia). assert (HQ : zlen Q = 40 - plen) by (unfold Q, zlen in *; rewrite length_drop; lia).
    destruct (fill_report_ok tcp_do_smartsack (n - maxold) (n + maxwnd + 1) n ltac:(unfold maxold, maxwnd; lia) ltac:(unfold maxold, maxwnd; lia) (tp c) (t_segq c) P Q (seg_of n (tp c)) hl) as (t' & Q' & E & E40 & Hh' & Hneed & Hn'); try done; try lia; [by rewrite <- Eopt |].
    rewrite <- Eopt, HP, Hfill in E. injection E as -> _ _. exists eof, l. split_and!; [by apply rcv_inv_tp | apply cleanup_clean | by destruct Hh' |]. by eapply new_hist_good.
Qed.

Lemma drain_loop_ok q : forall c, drain_loop q c = set_qsize (set_segq (set_t_flags c (t_flags (drain_loop q c))) (match q with [] => t_segq c | _ => [] end)) (tcp_reass_qsize c - zlen q).
Proof.
  induction q as [| te q IH]; intros c; cbn [drain_loop].
  - destruct c. cbn. f_equal. unfold zlen. cbn. lia.
  - rewrite IH at 1. destruct (btest (q_flags te) TH_FIN); unfold set_qsize, set_segq, set_t_flags; cbn [tp t_segq t_flags t_state rcv_wnd so_rcv cantrcvmore tcp_reass_qsize]; f_equal; try (by destruct q); zl.
Qed.

Lemma input_closed kmalloc_ok delay_ack c n shut starved s a : rcv_inv c n true shut starved [] -> clean (tp c) -> good_segment stream start fin c n s a ->
  exists c', tcp_input_data maxseg kmalloc_ok delay_ack c s = Done (Some c') /\ rcv_inv c' n true shut starved [] /\ sack_post (tp c') n n [] /\ same_hist (tp c) (tp c').
Proof.
  intros (Hst & Hw & (C1 & C2 & C3 & C4 & C5 & C6 & C7 & C8) & _) Hcl G. unfold tcp_input_data.
  destruct (drop_head_ok stream start fin c n s a C3 ltac:(lia) Hcl G) as (c1 & s1 & -> & Hs & Hh & Ef & Ea & Hcase). pose proof Hs as (S1 & S2 & S3 & S4 & S5 & S6 & S7 & S8 & S9).
  assert (Hres : forall c2, sim c1 c2 -> tp c2 = tp c1 -> rcv_inv c2 n true shut starved [] /\ sack_post (tp c2) n n [] /\ same_hist (tp c) (tp c2)).
  { intros c2 (T1 & T2 & T3 & T4 & T5 & T6 & T7 & T8 & T9) Et. split_and!; [| rewrite Et; apply head_report_post; [lia | done] | split; congruence].
    unfold ReassWorld.rcv_inv, closed, established in *. rewrite T1, T2, T3, T4, T5, T6, T7, S1, S2, S3, S4, S5, S6, S7. split_and!; try done; lia. }
  destruct Hcase as [[Hgone Hz] | (x & y & f & _ & _ & _ & _ & Hnf & _)]; [| lia].
  destruct (drop_tail_gone c1 n s1 ltac:(congruence) ltac:(by rewrite S4) Hgone) as (c2 & s2 & [(-> & T & Et & T1 & T2 & T3 & T4) | ->]); [| exists c1; split; [done |]; by apply Hres].
  pose proof T as (_ & _ & U3 & _). apply (ack_guard maxseg (btest (th_flags s) TH_ACK)); [| intros _; by apply Hres | done | congruence].
  exists c2. split; [| by apply Hres]. assert (Esyn : (if btest (th_flags s) TH_ACK then syn_acked maxseg c2 s2 else mret c2) = Done c2).
  { destruct (btest (th_flags s) TH_ACK); [| done]. unfold syn_acked. rewrite U3, S3. unfold established, TCPS_HAVEESTABLISHED in C5. destruct (Z.eqb_spec (t_state c) TCPS_SYN_RECEIVED) as [E |]; [by rewrite E in C5 | done]. }
  rewrite Esyn, bind_Done_l. unfold dodata. rewrite T1, T2. cbn [Z.eqb negb orb andb]. rewrite bind_Done_l. unfold mret, outcome_ret. by rewrite do_fin_none by apply btest_ldiff_same.
Qed.

(** What a segment does, in any state. *)
Lemma segment_ok c n hl shut starved drained s a kmalloc_ok delay_ack : world_inv c n hl shut starved drained -> good_segment stream start fin c n s a ->
  exists c1 n1 eof1 l1, tcp_input_data maxseg kmalloc_ok delay_ack c s = Done (Some c1) /\ n1 = n + u32 (rcv_nxt (tp c1) - rcv_nxt (tp c)) /\
    rcv_inv c1 n1 eof1 shut (starved || negb (room_for maxseg kmalloc_ok c)) l1 /\ n <= n1 <= n + maxwnd + 1 /\ sack_post (tp c1) n n1 l1 /\ hist (tp c1) hl /\ hist_good n1 l1 drained hl.
Proof.
  intros (eof & l & I & Hcl & Hh & Hg) G. destruct (rcv_ents _ _ _ _ _ _ I) as [Hok Hnxt].
  assert (Hadv : forall n1 c1, rcv_nxt (tp c1) = u32 n1 -> n <= n1 <= n + maxwnd + 1 -> n1 = n + u32 (rcv_nxt (tp c1) - rcv_nxt (tp c))).
  { intros n1 c1 E1 H1. rewrite E1, Hnxt, u32_seq_sub, u32_id by (unfold is_u32, maxwnd in *; lia). lia. }
  assert (Hhist : forall t, same_hist (tp c) t -> hist t hl) by (intros t [H1 H2]; unfold hist; rewrite H1, H2; exact Hh).
  destruct eof.
  - pose proof I as (_ & _ & _ & ->). destruct (input_closed kmalloc_ok delay_ack c n shut starved s a I Hcl G) as (c1 & Ein & I1 & P1 & H1). destruct (rcv_ents _ _ _ _ _ _ I1) as [_ Hn1].
    exists c1, n, true, []. split_and!; try done; [apply Hadv; [done | unfold maxwnd; lia] | unfold maxwnd; lia | by apply Hhist].
  - destruct (input_ok stream start fin maxseg kmalloc_ok delay_ack c n shut starved l s a I Hcl G) as (c1 & Ein & n1 & eof1 & l1 & took & I1 & Hn1 & Hheld & _ & P1 & H1). destruct (rcv_ents _ _ _ _ _ _ I1) as [_ Hn1'].
    exists c1, n1, eof1, l1. split_and!; try done; try lia; [by apply Hadv | by apply Hhist |]. eapply hist_good_up; [| | exact Hg]; [lia |]. intros z Hz Hz'. rewrite Hheld by done. by left.
Qed.

Lemma rcv_reachable_inv c n hl shut starved drained : reachable c n hl shut starved drained -> world_inv c n hl shut starved drained.
Proof.
  induction 1 as [c H1 H2 H3 H4 H5 H6 H7 H8 H9 H10 H11 | c n hl shut starved drained s a kmalloc_ok delay_ack c1 n1 c2 hl2 _ IH G Ein En Hout | c n hl shut starved drained c2 hl2 _ IH Hout | c n hl shut starved drained w _ IH Hw
    | c n hl shut starved drained st _ IH He Hst | c n hl shut starved drained _ IH | c n hl shut starved drained k _ IH Hk | c n hl shut starved drained _ IH].
  - exists false, []. split; [split; [done |]; split; [done |]; split; [| done] | split; [done |]; split].
    + constructor; try done; try lia; [rewrite H3; by apply Forall2_nil |]. exists start. rewrite H4, slice_nil. split_and!; try done; lia.
    + split_and!; [done | done |]. by exists (sackhistory (tp c)).
    + split_and!; [by apply Forall_nil | done |]. intros _ z Hz. by apply Exists_nil in Hz.
  - destruct (segment_ok c n hl shut starved drained s a kmalloc_ok delay_ack IH G) as (c1' & n1' & eof1 & l1 & Ein' & En' & I1 & Hn1 & P1 & Hh1 & Hg1). rewrite Ein in Ein'. injection Ein' as <-. rewrite <- En in En'. subst n1'. by eapply output_ok.
  - destruct IH as (eof & l & I & Hcl & Hh & Hg). eapply (output_ok c n n); try done; [unfold maxwnd; lia | by apply clean_post].
  - destruct IH as (eof & l & (I1 & I2 & I3) & Hcl & Hh & Hg). exists eof, l. split; [split; [done |]; split; [done |] | done]. by destruct eof; [| destruct I3 as [[] ?]].
  - destruct IH as (eof & l & (I1 & I2 & I3) & Hcl & Hh & Hg). exists eof, l. split; [split; [unfold TCPS_ESTABLISHED, TCPS_SYN_RECEIVED in *; cbn; lia |]; split; [done |] | done].
    destruct eof; [| destruct I3 as [[] I3]; split; [by constructor |]; intros Hs _; by apply I3].
    destruct I3 as [(C1 & C2 & C3 & C4 & C5 & C6 & C7 & C8) ->]. split; [| done]. split_and!; try done. unfold established, TCPS_HAVEESTABLISHED. cbn. by apply Z.geb_le.
  - destruct IH as (eof & l & (I1 & I2 & I3) & Hcl & Hh & Hg). exists eof, l. split; [split; [done |]; split; [done |] | done].
    destruct eof; [destruct I3 as [(C1 & C2 & C3 & C4 & C5 & (m & M1 & M2 & M3) & C7 & C8) ->]; split; [| done]; split_and!; try done; by exists m |].
    destruct I3 as [[B1 B2 B3 B4 B5 (m & M1 & M2 & M3) B7 B8] I3]. split; [| done]. constructor; try done. by exists m.
  - destruct IH as (eof & l & (I1 & I2 & I3) & Hcl & Hh & Hg). exists eof, l. split; [split; [done |]; split; [done |] | done].
    destruct eof; [destruct I3 as [(C1 & C2 & C3 & C4 & C5 & C6 & C7 & C8) ->]; split; [| done]; split_and!; try done; cbn; rewrite C2 in Hk; unfold zlen in Hk; cbn in Hk; lia |].
    destruct I3 as [[B1 B2 B3 B4 B5 B6 B7 B8] I3]. split; [| done]. constructor; try done. cbn. unfold zlen in *. by rewrite (Forall2_length _ _ _ B3) in Hk.
  - destruct IH as (eof & l & (I1 & I2 & I3) & Hcl & Hh & (G1 & G2 & G3)). exists eof, []. unfold tcp_drain_conn. rewrite drain_loop_ok. split; [split; [done |]; split; [done |] | split; [done |]; split; [done |]; by split_and!].
    destruct eof; [destruct I3 as [(C1 & C2 & C3 & C4 & C5 & C6 & C7 & C8) ->]; split; [| done]; split_and!; try done; cbn; rewrite C2; [done | unfold zlen; cbn; lia] |].
    destruct I3 as [[B1 B2 B3 B4 B5 B6 B7 B8] I3]. split; [| done]. constructor; try done; [cbn; destruct (t_segq c); by apply Forall2_nil |]. cbn. unfold zlen in *. cbn. rewrite (Forall2_length _ _ _ B3). lia.
Qed.
End Stream.
