(* ===== verification/ReassProps.v ===== *)
(** * Receiving data and reporting it: results *)

From stdpp Require Import prelude list list_numbers strings gmap.
From S2P Require Import Prelude.
From S2P Require Import Seq.
From S2P Require Import Sack.
From S2P Require Import SackInv.
From S2P Require Import SackUpdate.
From S2P Require Import SackProps.
From S2P Require Import Sackrep.
From S2P Require Import SackrepHist.
From S2P Require Import SackrepReport.
From S2P Require Import Reass.
From S2P Require Import ReassInv.
From S2P Require Import ReassSeg.
From S2P Require Import ReassInput.
From S2P Require Import ReassWorld.
From S2P Require Import ReassReach.
Open Scope Z_scope.

(** The options that tcp_output writes before the report: none, or the timestamps. *)
Definition write_options (ts : option (Z * Z)) (opt : list Z) : outcome (list Z * Z) :=
  match ts with None => mret (opt, 0) | Some (tsval, tsecr) => put_tstamp opt 0 tsval tsecr end.

Section Stream.
Context (stream : Z -> Z) (start fin : Z) (maxseg : Z) (tcp_do_smartsack : bool).

#[local] #[warnings="-notation-for-abbreviation"] Notation rep := (rep stream).
#[local] #[warnings="-notation-for-abbreviation"] Notation slice := (slice stream).
#[local] #[warnings="-notation-for-abbreviation"] Notation reachable := (reachable stream start fin maxseg tcp_do_smartsack).
#[local] #[warnings="-notation-for-abbreviation"] Notation good_segment := (good_segment stream start fin).
#[local] #[warnings="-notation-for-abbreviation"] Notation rcv_inv := (rcv_inv stream start fin).
#[local] #[warnings="-notation-for-abbreviation"] Notation fill := (tcp_sack_fill_report tcp_do_smartsack).

Lemma rcv_queue c n eof shut starved l : rcv_inv c n eof shut starved l -> Forall2 rep (t_segq c) l.
Proof. intros (_ & _ & H). destruct eof; [destruct H as [(_ & -> & _) ->]; by apply Forall2_nil | by destruct H as [[] _]]. Qed.

(** In a chain that starts after [n], the byte [n] is not there. *)
Lemma chain_missing l : forall n lo hi, chain (n + 1) l -> Forall (ent_ok fin lo hi) l -> ~ cov l n.
Proof.
  induction l as [| e l IH]; intros n lo hi Hc Hok Hv; [by apply cov_nil in Hv |]. apply Forall_cons in Hok as [(_ & He & _) Hok]. destruct Hc as [H1 H2]. apply cov_cons in Hv as [? | Hv]; [lia |].
  eapply (IH n); [| exact Hok | exact Hv]. apply (chain_le (eb e + 1)); [lia | done].
Qed.

(** C1: as long as the segments that reach the modelled part of tcp_input are pieces of the
    peer's stream (less than 2^16 bytes each, not more than 2^29 bytes behind rcv_nxt or 2^30
    in front of it), and a FIN only comes in when the end of the stream lies in the window
    (see [fin_after_cut_data] for the others), in any order, whole or in parts and more than
    once, what the user reads is a beginning of the stream: in order, with nothing left
    out, repeated or changed.  All of it up to rcv_nxt is there unless the user has shut
    down; the end of the file is seen only after all of the stream; and nothing that could
    be delivered waits in the queue, unless there was no memory. *)
Theorem tcp_delivers_stream c n hl shut starved drained : reachable c n hl shut starved drained ->
  exists (eof : bool) l m, rcv_nxt (tp c) = u32 n /\ Forall2 rep (t_segq c) l /\ so_rcv c = slice start m /\ start <= m <= fin /\
    (shut = false -> m = n - Z.b2z eof) /\ (eof = true -> n - 1 = fin) /\ (cantrcvmore c = true -> shut = true \/ eof = true) /\
    (starved = false -> established c = true -> eof = false -> ~ held n l n).
Proof.
  intros H%rcv_reachable_inv. destruct H as (eof & l & I & _). destruct (rcv_ents _ _ _ _ _ _ _ _ _ I) as [Hok Hnxt]. pose proof (rcv_queue _ _ _ _ _ _ I) as Hq. destruct I as (_ & _ & I). destruct eof.
  - destruct I as [(C1 & C2 & C3 & C4 & C5 & (m & M1 & M2 & M3) & C7 & C8) ->]. exists true, [], m. split_and!; try done; try lia; first [by right | intros Hs; specialize (M3 Hs); cbn; lia].
  - destruct I as [[B1 B2 B3 B4 B5 (m & M1 & M2 & M3) B7 B8] I]. exists false, l, m. split_and!; try done; try lia.
    + intros Hs. specialize (M3 Hs). cbn. lia.
    + rewrite B7. by left.
    + intros Hs He _ [? | Hv]; [lia |]. by apply (chain_missing l n n (n + maxwnd + 1) (I Hs He) Hok).
Qed.

(** C16: of a piece of the peer's stream (as in the first theorem: a FIN only when it lies in the
    window) the modelled part of tcp_input, the code between the checks of the header and
    the ACK processing and its last part, takes just the bytes that lie in the window and
    that it does not have: afterwards it has what it had and these, whatever overlaps with
    what.  No assertion fails.  This part leaves a segment aside only if there is no memory
    for it, in TIME_WAIT, or if the segment has no ACK; the PAWS, LAND and ACK checks of
    tcp_input, and the one for a socket without a file, come before it and are not modelled. *)
Theorem tcp_input_takes_segment c n hl shut starved drained s a kmalloc_ok delay_ack : reachable c n hl shut starved drained -> good_segment c n s a ->
  exists l c1 n1 l1 took, Forall2 rep (t_segq c) l /\ tcp_input_data maxseg kmalloc_ok delay_ack c s = Done (Some c1) /\
    rcv_nxt (tp c1) = u32 n1 /\ Forall2 rep (t_segq c1) l1 /\ n <= n1 /\
    (forall z, z < fin -> held n1 l1 z <-> held n l z \/ (took = true /\ first_byte s a <= z < first_byte s a + tlen s /\ z < n + rcv_wnd c)) /\
    (room_for maxseg kmalloc_ok c = true -> TCPS_HAVERCVDFIN (t_state c) = false -> btest (th_flags s) TH_ACK = true -> took = true).
Proof.
  intros H%rcv_reachable_inv G. destruct H as (eof & l & I & Hcl & _). pose proof (rcv_queue _ _ _ _ _ _ I) as Hq. destruct eof.
  - pose proof I as (_ & _ & (Hn & _) & ->). destruct (input_closed stream start fin maxseg kmalloc_ok delay_ack c n shut starved s a I Hcl G) as (c1 & E & I1 & _).
    exists [], c1, n, [], true. destruct (rcv_ents _ _ _ _ _ _ _ _ _ I1) as [_ Hn1]. split_and!; try done; [by eapply rcv_queue |]. intros z Hz. unfold held. split; [tauto |]. intros _. left. lia.
  - destruct (input_ok stream start fin maxseg kmalloc_ok delay_ack c n shut starved l s a I Hcl G) as (c1 & E & n1 & eof1 & l1 & took & I1 & Hn1 & Hheld & Ht & _).
    exists l, c1, n1, l1, took. destruct (rcv_ents _ _ _ _ _ _ _ _ _ I1) as [_ Hn1']. split_and!; try done; [by eapply rcv_queue | lia].
Qed.

(** ** Reports *)

(** A block of a report: not empty, and the receiver has what it says, unless it has freed
    the queue. *)
Definition true_block (n n1 : Z) (l1 : list ent) (drained : bool) (b : raw_sackblock) : Prop :=
  exists x y, b = raw (x, y) /\ n - maxold <= x < y /\ y < x + 2 ^ 31 /\ y <= fin + 1 /\ (drained = false -> forall z, x <= z < y -> z < fin -> held n1 l1 z).

Lemma true_block_held n n1 l1 drained b : block_held fin n n1 l1 b -> true_block n n1 l1 drained b.
Proof. intros (x & y & E & H1 & H2 & H3 & H4 & H5). by exists x, y. Qed.

Lemma true_block_option n n1 l1 drained b : true_block n n1 l1 drained b -> option_block b.
Proof. intros (x & y & -> & H1 & H2 & _). apply option_block_raw. lia. Qed.

Lemma new_hist_ok n seg t hl : hist_ok n (n + maxwnd + 1) hl -> seg_ok (n + maxwnd + 1) n t seg -> hist_ok n (n + maxwnd + 1) (new_hist n seg hl).
Proof.
  intros Hh Hs. destruct seg as [c |]; [| done]. cbn [new_hist]. destruct (Z.ltb_spec n c.1); [| done]. destruct Hs as (_ & _ & _ & Hin). apply hist_ok_take. by apply merge_hist_ok; [apply Hin |].
Qed.

Lemma report_true c n n1 l1 drained hl plen eof shut starved : rcv_inv c n1 eof shut starved l1 -> n <= n1 <= n + maxwnd + 1 -> sack_post fin (tp c) n n1 l1 -> fresh n1 hl -> hist_good fin n1 l1 drained hl ->
  Forall (true_block n n1 l1 drained) (report tcp_do_smartsack n1 (tp c) (t_segq c) (seg_of n1 (tp c)) hl plen).
Proof.
  intros I Hn Hp Hf Hg. destruct (rcv_ents _ _ _ _ _ _ _ _ _ I) as [Hok _]. pose proof (rcv_queue _ _ _ _ _ _ I) as Hq. destruct (post_seg fin (tp c) n n1 l1 Hn Hok Hp) as (S1 & S2 & S3 & S4).
  pose proof (hist_ok_mono (n1 - maxold) (Z.min (n1 + maxwnd + 1) (fin + 1)) (n1 + maxwnd + 1) hl ltac:(lia) (hist_good_ok _ _ _ _ _ Hf Hg)) as Hhok.
  pose proof (new_hist_ok n1 _ (tp c) _ (ack_hist_ok (n1 - maxold) (n1 + maxwnd + 1) n1 hl ltac:(unfold maxold; lia) Hhok) S1) as [Hnew _]. pose proof (new_hist_good fin n1 l1 drained hl _ (tp c) Hf Hg S1 S2) as (G1 & _ & G3).
  unfold report. apply Forall_app. split; [eapply Forall_impl; [exact S4 |]; intros b; apply true_block_held |]. apply Forall_take. unfold more_blocks. destruct (tcp_do_smartsack && _).
  - apply Forall_forall. intros b Hb. apply list_elem_of_fmap in Hb as (q & -> & Hqin). apply list_elem_of_lookup in Hqin as [i Hi]. destruct (Forall2_lookup_l _ _ _ _ _ Hq Hi) as (e & He & Hr).
    apply true_block_held. replace (q_block q) with (raw (eblk e)); [apply eblk_held; [lia | done | by eapply list_elem_of_lookup_2] |]. pose proof (rep_end_sack _ _ _ Hr) as Er. destruct Hr as (Es & _). unfold q_block, raw. cbn [fst snd].
    change (TCP_SACK_BLKEND (q_seq q + q_len q) (q_flags q)) with (q_end_sack q). by rewrite Er, Es.
  - apply Forall_forall. intros b [_ Hb]%list_elem_of_filter. apply list_elem_of_fmap in Hb as (p & -> & Hpin). rewrite Forall_forall in Hnew, G1. pose proof (Hnew p Hpin) as (B1 & B2 & B3). destruct (G1 p Hpin) as (_ & _ & B4).
    exists p.1, p.2. split_and!; [by destruct p | unfold maxold; lia | lia | unfold maxwnd in *; lia | lia |]. intros Hd z Hz Hzf. apply G3; [done | | done]. apply Exists_exists. by exists p.
Qed.

(** The options of an acknowledgement, written by the receiver and read by the peer. *)
Lemma options_ok c n n1 l1 drained hl eof shut starved ts opt is_syn ack ticks : rcv_inv c n1 eof shut starved l1 -> n <= n1 <= n + maxwnd + 1 -> sack_post fin (tp c) n n1 l1 -> fresh n1 hl -> hist_good fin n1 l1 drained hl ->
  hist (tp c) hl -> zlen opt = 40 ->
  exists opt1 plen t opt' plen' to, write_options ts opt = Done (opt1, plen) /\ fill (tp c) (t_segq c) opt1 plen = Done (t, opt', plen') /\ plen' <= 40 /\
    tcp_dooptions is_syn ack ticks opt' 0 plen' = Done to /\ btest (to_flags to) TOF_SACK = true /\
    to_sackblocks to = report tcp_do_smartsack n1 (tp c) (t_segq c) (seg_of n1 (tp c)) hl plen /\
    match ts with Some (tsval, _) => btest (to_flags to) TOF_TS = true /\ to_tsval to = u32 tsval | None => True end.
Proof.
  intros I Hn Hp Hf Hg Hh Hopt. destruct (rcv_ents _ _ _ _ _ _ _ _ _ I) as [Hok Hnxt]. destruct (post_seg fin (tp c) n n1 l1 Hn Hok Hp) as (S1 & S2 & S3 & S4).
  pose proof (hist_ok_mono (n1 - maxold) (Z.min (n1 + maxwnd + 1) (fin + 1)) (n1 + maxwnd + 1) hl ltac:(lia) (hist_good_ok _ _ _ _ _ Hf Hg)) as Hhok.
  assert (Hw : exists P Q, write_options ts opt = Done (P ++ Q, zlen P) /\ zlen (P ++ Q) = 40 /\ P = match ts with Some (v, e) => tstamp_bytes v e | None => [] end).
  { destruct ts as [[v e] |]; [| by exists [], opt]. destruct (put_tstamp_ok opt v e ltac:(lia)) as (Q & E & HQ). exists (tstamp_bytes v e), Q. cbn [write_options]. rewrite E. split_and!; [done | | done]. rewrite zlen_app. change (zlen (tstamp_bytes v e)) with 12. lia. }
  destruct Hw as (P & Q & Ew & H40 & EP). assert (HP : 0 <= zlen P <= 12) by (rewrite EP; destruct ts as [[v e] |]; by cbn).
  pose proof H40 as HQ. rewrite zlen_app in HQ.
  destruct (fill_report_ok tcp_do_smartsack (n1 - maxold) (n1 + maxwnd + 1) n1 ltac:(unfold maxold, maxwnd; lia) ltac:(unfold maxold, maxwnd; lia) (tp c) (t_segq c) P Q (seg_of n1 (tp c)) hl) as (t & Q' & Ef & E40 & _); try done; try lia.
  set (L := report tcp_do_smartsack n1 (tp c) (t_segq c) (seg_of n1 (tp c)) hl (zlen P)) in *.
  assert (HL : Forall option_block L) by (eapply Forall_impl; [by eapply report_true |]; intros b; apply true_block_option).
  pose proof E40 as E40'. rewrite !zlen_app, zlen_encode in E40'. change (zlen (sack_header (zlen L))) with 4 in E40'. pose proof (zlen_nonneg L). pose proof (zlen_nonneg Q').
  assert (Elen : zlen (P ++ sack_header (zlen L) ++ encode L) = zlen P + 4 + 8 * zlen L) by (rewrite !zlen_app, zlen_encode; change (zlen (sack_header (zlen L))) with 4; lia). rewrite Elen in Ef.
  set (to0 := match ts with Some (v, e) => with_tstamp ticks (Tcpopt 0 0 0 0 0 []) v e | None => Tcpopt 0 0 0 0 0 [] end).
  exists (P ++ Q), (zlen P), t, (P ++ sack_header (zlen L) ++ encode L ++ Q'), (zlen P + 4 + 8 * zlen L), (with_sack ack to0 L). split_and!; try done; try lia.
  - unfold tcp_dooptions. set (m := P ++ sack_header (zlen L) ++ encode L ++ Q'). destruct ts as [[v e] |].
    + subst P. change (zlen (tstamp_bytes v e)) with 12 in *. replace (Z.to_nat (12 + 4 + 8 * zlen L)) with (S (S (S (S (S (S (Z.to_nat (10 + 8 * zlen L)))))))) by lia.
      unfold m. rewrite loop_tstamp by lia. apply (loop_sack is_syn ack ticks _ _ (tstamp_bytes v e) L Q'); try done; lia.
    + subst P. change (zlen (@nil Z)) with 0 in *. replace (Z.to_nat (0 + 4 + 8 * zlen L)) with (S (S (S (Z.to_nat (1 + 8 * zlen L))))) by lia. apply (loop_sack is_syn ack ticks _ _ [] L Q'); try done; lia.
  - unfold with_sack. cbn [to_flags]. destruct (negb _); rewrite !btest_lor; [by rewrite orb_true_r | apply orb_true_r].
  - destruct ts as [[v e] |]; [| done]. split; [| done]. unfold with_sack, to0, with_tstamp. cbn [to_flags]. destruct (negb _); by rewrite !btest_lor.
Qed.

(** C23: the peer reads the report as it was written.  After a piece of the peer's stream
    (with a FIN only in the window), and if no block of the history is older than 2^29 bytes
    (see [sack_history_stale]), tcp_output can write the SACK option, with or without the
    timestamps before it, into the forty bytes of the options, and tcp_dooptions of the
    peer gets the same blocks from them: those of the segment, what encloses it, then what
    was reported before or the start of the queue.  If the receiver has not freed its
    queue, each of them is data that the receiver has. *)
Theorem sack_report_roundtrip c n hl shut starved drained s a kmalloc_ok delay_ack c1 n1 ts opt is_syn ack ticks :
  reachable c n hl shut starved drained -> good_segment c n s a -> tcp_input_data maxseg kmalloc_ok delay_ack c s = Done (Some c1) ->
  n1 = n + u32 (rcv_nxt (tp c1) - rcv_nxt (tp c)) -> fresh n1 hl -> zlen opt = 40 ->
  exists l1 opt1 plen t opt' plen' to, Forall2 rep (t_segq c1) l1 /\
    write_options ts opt = Done (opt1, plen) /\ fill (tp c1) (t_segq c1) opt1 plen = Done (t, opt', plen') /\ plen' <= TCP_MAXOLEN /\
    tcp_dooptions is_syn ack ticks opt' 0 plen' = Done to /\ btest (to_flags to) TOF_SACK = true /\
    to_sackblocks to = report tcp_do_smartsack n1 (tp c1) (t_segq c1) (seg_of n1 (tp c1)) hl plen /\
    Forall (true_block n n1 l1 drained) (to_sackblocks to) /\
    match ts with Some (tsval, _) => btest (to_flags to) TOF_TS = true /\ to_tsval to = u32 tsval | None => True end.
Proof.
  intros H%rcv_reachable_inv G Ein En Hf Hopt. destruct (segment_ok stream start fin maxseg c n hl shut starved drained s a kmalloc_ok delay_ack H G) as (c1' & n1' & eof1 & l1 & Ein' & En' & I1 & Hn1 & P1 & Hh1 & Hg1).
  rewrite Ein in Ein'. injection Ein' as <-. rewrite <- En in En'. subst n1'.
  destruct (options_ok c1 n n1 l1 drained hl eof1 shut _ ts opt is_syn ack ticks I1 Hn1 P1 Hf Hg1 Hh1 Hopt) as (opt1 & plen & t & opt' & plen' & to & O1 & O2 & O3 & O4 & O5 & O6 & O7).
  exists l1, opt1, plen, t, opt', plen', to. split_and!; try done; [by eapply rcv_queue | rewrite O6; by eapply report_true].
Qed.
End Stream.

(** ** The options of any segment *)

(** C26: tcp_dooptions reads any bytes without looking outside of them, and comes to an end;
    the SACK blocks that it lets through are not empty, and all lie in the option. *)
Theorem tcp_dooptions_safe is_syn ack ticks m cp cnt : Forall is_u8 m -> 0 <= cp -> 0 <= cnt -> cp + cnt <= zlen m ->
  exists to, tcp_dooptions is_syn ack ticks m cp cnt = Done to /\ Forall option_block (to_sackblocks to) /\ 8 * zlen (to_sackblocks to) <= cnt.
Proof.
  intros Hm H0 Hc H1. destruct (loop_safe is_syn ack ticks cnt (Z.to_nat cnt) m cp cnt (Tcpopt 0 0 0 0 0 []) Hm H0 H1 ltac:(lia) ltac:(lia)) as (to & E & Hb); [split; [by apply Forall_nil |]; done |].
  by exists to.
Qed.

(** ** From end to end *)

Lemma drop_sub {A} k (l : list A) x : x ∈ drop k l -> x ∈ l.
Proof. intros H. rewrite <- (take_drop k l). apply elem_of_app. by right. Qed.

Lemma accepted_in una max blocks p : p ∈ accepted una max blocks -> exists b, b ∈ blocks /\ p = (unwrap una (rblk_start b), unwrap una (rblk_end b)).
Proof.
  induction blocks as [| b blocks IH]; cbn [accepted]; [by intros ?%not_elem_of_nil |]. destruct (SEQ_LEQ (rblk_start b) (u32 una)).
  - intros (b' & H1 & H2)%IH. exists b'. split; [by right | done].
  - destruct (SEQ_GT (rblk_end b) (u32 max)); [by intros ?%not_elem_of_nil |]. intros [-> | (b' & H1 & H2)%IH]%elem_of_cons; [exists b; split; [left | done] | exists b'; split; [by right | done]].
Qed.

Section EndToEnd.
Context (stream : Z -> Z) (start fin : Z) (maxseg : Z) (tcp_do_smartsack : bool).
Context (snd_kmalloc_ok : nat -> bool) (tcp_do_rfc6675 tcp_aggressive_rescuesack : bool).

(** C17: the two ends together.  A report that the receiver makes after a piece of the
    peer's stream (with a FIN only in the window), with a history none of whose blocks is
    older than 2^29 bytes, reaches a sender that has sent all of the stream and nothing
    more than 2^30 bytes in front of rcv_nxt, and whose snd_una is not above the
    acknowledgement number of the report, rcv_nxt after the segment.  The sender's
    scoreboard is brought up to date without a fault, and if the receiver has not freed
    its queue, the sender does not come to believe of any byte of the stream that it was
    received when the receiver does not have it. *)
Theorem sack_sender_knows c n hl shut starved drained s a kmalloc_ok delay_ack c1 n1 opt stp lo una max bl ts ack ticks :
  reachable stream start fin maxseg tcp_do_smartsack c n hl shut starved drained -> good_segment stream start fin c n s a ->
  tcp_input_data maxseg kmalloc_ok delay_ack c s = Done (Some c1) -> n1 = n + u32 (rcv_nxt (tp c1) - rcv_nxt (tp c)) -> fresh n1 hl -> zlen opt = 40 ->
  sack_inv stp lo una max bl -> una <= n1 -> fin <= max <= n + maxwnd ->
  exists l1 opt1 plen t opt' plen' to stp' redundant bl', Forall2 (rep stream) (t_segq c1) l1 /\
    write_options ts opt = Done (opt1, plen) /\ tcp_sack_fill_report tcp_do_smartsack (tp c1) (t_segq c1) opt1 plen = Done (t, opt', plen') /\
    tcp_dooptions false ack ticks opt' 0 plen' = Done to /\
    tcp_sack_update_scoreboard snd_kmalloc_ok tcp_do_rfc6675 tcp_aggressive_rescuesack stp (to_sackblocks to) = Done (stp', redundant) /\
    sack_inv stp' una una max bl' /\ (drained = false -> forall z, z < fin -> covers bl' z -> covers bl z \/ held n1 l1 z).
Proof.
  intros H%rcv_reachable_inv G Ein En Hf Hopt Is Hun Hmax. destruct (segment_ok stream start fin maxseg c n hl shut starved drained s a kmalloc_ok delay_ack H G) as (c1' & n1' & eof1 & l1 & Ein' & En' & I1 & Hn1 & P1 & Hh1 & Hg1).
  rewrite Ein in Ein'. injection Ein' as <-. rewrite <- En in En'. subst n1'.
  destruct (options_ok stream start fin tcp_do_smartsack c1 n n1 l1 drained hl eof1 shut _ ts opt false ack ticks I1 Hn1 P1 Hf Hg1 Hh1 Hopt) as (opt1 & plen & t & opt' & plen' & to & O1 & O2 & O3 & O4 & O5 & O6 & O7).
  pose proof (report_true stream start fin tcp_do_smartsack c1 n n1 l1 drained hl plen eof1 shut _ I1 Hn1 P1 Hf Hg1) as Ht. rewrite <- O6 in Ht. pose proof Is as [Eu Em Ho Hw (Hseg & _) (_ & Hsc & _) _ _].
  assert (Hnear : forall x y, n - maxold <= x < y -> y <= fin + 1 -> unwrap una (u32 x) = x /\ unwrap una (u32 y) = y /\ near x max).
  { intros x y H1 H2. unfold maxold, maxwnd in *. rewrite !unwrap_u32 by lia. split_and!; try done. unfold near. lia. }
  assert (Hoo : option_ok max (to_sackblocks to)).
  { split; [eapply Forall_impl; [exact Ht |]; intros b; apply true_block_option |]. eapply Forall_impl; [exact Ht |]. intros b (x & y & -> & H1 & H2 & H3 & _). destruct (Hnear x y H1 H3) as (_ & _ & Hx).
    unfold below_max. cbn [rblk_start raw fst]. rewrite SEQ_LEQ_near by done. apply Z.leb_le. lia. }
  destruct (update_ok snd_kmalloc_ok tcp_do_rfc6675 tcp_aggressive_rescuesack stp lo una max bl (to_sackblocks to) Is Hoo) as (stp' & red & bl' & lost & Eup & Is' & _ & (k & Hcov & _) & _).
  exists l1, opt1, plen, t, opt', plen', to, stp', red, bl'. split_and!; try done; [by eapply rcv_queue |]. intros Hd z Hz Hc. apply Hcov in Hc as [Hc | (x & y & Hin & Hxy)].
  - left. by apply (acked_spec lo max una ltac:(lia) bl lo Hsc) in Hc as [? _].
  - right. apply elem_of_take in Hin as (i & Hin%list_elem_of_lookup_2 & _). apply accepted_in in Hin as (b & Hb & [= Ex Ey]). unfold sack_blocks in Hb. apply drop_sub in Hb.
    rewrite Forall_forall in Ht. destruct (Ht b Hb) as (x0 & y0 & -> & H1 & H2 & H3 & H4). destruct (Hnear x0 y0 H1 H3) as (U1 & U2 & _). cbn [rblk_start rblk_end raw fst snd] in Ex, Ey. rewrite U1 in Ex. rewrite U2 in Ey. subst. by apply H4.
Qed.
End EndToEnd.

(** ** Old timestamps *)

Lemma cov_before l : forall lo p fin lo' hi', chain lo (l ++ [p]) -> Forall (ent_ok fin lo' hi') (l ++ [p]) -> forall z, cov l z -> z < ea p.
Proof.
  induction l as [| e l IH]; intros lo p fin lo' hi' Hc Hok z Hz; [by apply cov_nil in Hz |]. cbn [app] in *. apply Forall_cons in Hok as [(_ & He & _) Hok]. destruct Hc as [_ Hc].
  apply cov_cons in Hz as [Hz | Hz]; [| by eapply IH]. clear IH. revert z Hz. assert (Hge : eb e + 1 <= ea p); [| lia]. clear - Hc Hok. generalize dependent (eb e + 1). induction l as [| e' l IH]; intros k Hc; [apply Hc |].
  cbn [app] in *. apply Forall_cons in Hok as [(_ & He' & _) Hok]. destruct Hc as [H1 H2]. specialize (IH Hok _ H2). lia.
Qed.

(** tcp_paws_canreasslast lets only segments through that extend the last entry of the
    queue, and of which the queue has nothing. *)
Theorem paws_canreasslast_ok stream fin lo hi q l a b : hi - lo < 2 ^ 31 -> Forall2 (rep stream) q l -> Forall (ent_ok fin lo hi) l -> chain lo l -> lo <= a <= b -> b <= hi ->
  tcp_paws_canreasslast q (u32 a) (b - a) = true ->
  exists p, last l = Some p /\ (a = eb p /\ ef p = false \/ b = ea p) /\ forall z, a <= z < b -> ~ cov l z.
Proof.
  intros Hw Hq Hok Hc Ha Hb. unfold tcp_paws_canreasslast. destruct (last q) as [x |] eqn:Eq; [| done]. apply last_split in Eq. remember (removelast q) as q1 eqn:Er. clear Er. subst q.
  apply Forall2_snoc_inv in Hq as (l1 & p & -> & Hq1 & Hx). rewrite (rep_end _ _ _ Hx). pose proof Hx as (Es & _ & Ef & _). pose proof (cov_before _ _ _ _ _ _ Hc Hok) as Hbefore.
  pose proof Hok as Hok'. apply Forall_app in Hok' as [Hok1 Hp]. apply Forall_cons in Hp as [(P1 & P2 & P3 & _) _]. intros H. exists p. split; [apply last_snoc |].
  destruct (Z.eqb_spec (u32 (eb p)) (u32 a)) as [E | _].
  - apply (proj1 (seq_eq_near (eb p) a ltac:(unfold near; lia))) in E. rewrite Ef in H. apply negb_true_iff in H. split; [by left |].
    intros z Hz [Hv | Hv]%cov_app; [specialize (Hbefore z Hv); lia |]. apply cov_cons in Hv as [? | Hv]; [lia | by apply cov_nil in Hv].
  - rewrite u32_seq_add, Es in H. replace (a + (b - a)) with b in H by lia. destruct (Z.eqb_spec (u32 b) (u32 (ea p))) as [E | _]; cbn [negb] in H; [| done].
    apply (proj1 (seq_eq_near b (ea p) ltac:(unfold near; lia))) in E. split; [by right |].
    intros z Hz [Hv | Hv]%cov_app; [| apply cov_cons in Hv as [? | Hv]; [lia | by apply cov_nil in Hv]].
    destruct (last q1) as [y |] eqn:Eq; [| apply last_None in Eq as ->; inversion Hq1; subst; by apply cov_nil in Hv].
    apply last_split in Eq. remember (removelast q1) as q2 eqn:Er. clear Er. subst q1. apply Forall2_snoc_inv in Hq1 as (l2 & p2 & -> & Hq2 & Hy). rewrite (rep_end _ _ _ Hy) in H.
    apply Forall_app in Hok1 as [_ Hp2]. apply Forall_cons in Hp2 as [(Q1 & Q2 & Q3 & _) _]. rewrite SEQ_GEQ_near, Z.leb_le in H by (unfold near; lia).
    apply cov_app in Hv as [Hv | Hv]; [| apply cov_cons in Hv as [? | Hv]; [lia | by apply cov_nil in Hv]].
    pose proof (cov_before l2 lo p2 fin lo hi (chain_app_l _ _ _ Hc)) as Hb2. specialize (Hb2 ltac:(by apply Forall_app in Hok as [? _]) z Hv). lia.
Qed.

(** ** What the code does where the conditions do not hold *)

Module Examples.

Definition stream0 (z : Z) : Z := z mod 256.
Definition hist0 : list raw_sackblock := replicate 4 (RawSackblock 0 0).

(** A connection with an empty queue. *)
Definition tcpcb0 (rcv : Z) (nh : Z) (h : list raw_sackblock) : tcpcb :=
  Tcpcb 0 0 0 0 1460 3 0 0 0 tcp_sack_tcpcb_init rcv (RawSackblock 0 0) (RawSackblock 0 0) nh h.
Definition conn0 (rcv wnd st : Z) : conn := Conn (tcpcb0 rcv 0 hist0) [] TF_SACK_PERMITTED st wnd [] false 0.

(** The bytes [a, b) of the stream in a segment. *)
Definition seg0 (fl a b : Z) : segment := Segment (u32 a) fl fl (b - a) (slice stream0 a b).
Definition input0 (c : conn) (s : segment) : conn := match tcp_input_data 100 true (false, false) c s with Done (Some c') => c' | _ => c end.
Definition FINACK : Z := Z.lor TH_FIN TH_ACK.

(** A segment with a FIN that does not fit into the window: tcp_input drops the data behind
    the window and the FIN with it, in its own copy of the flags; then it looks at the
    header's flags, and processes the FIN.  The user sees the end of the file without the
    last bytes, and the peer is told that all was received. *)
Theorem fin_after_cut_data : let c := conn0 1000 5 TCPS_ESTABLISHED in let c' := input0 c (seg0 FINACK 1000 1010) in
  so_rcv c' = slice stream0 1000 1005 /\ rcv_nxt (tp c') = 1006 /\ cantrcvmore c' = true /\ t_state c' = TCPS_CLOSE_WAIT.
Proof. vm_compute. done. Qed.

(** A FIN that waits in the queue when the connection is established: tcp_reass delivers the
    data and returns the FIN, and its result is not used. *)
Theorem fin_in_queue_lost : let c := input0 (conn0 1000 1000 TCPS_SYN_RECEIVED) (seg0 TH_FIN 1000 1010) in let c' := input0 c (seg0 TH_ACK 1010 1010) in
  length (t_segq c) = 1%nat /\ t_state c' = TCPS_ESTABLISHED /\ so_rcv c' = slice stream0 1000 1010 /\ t_segq c' = [] /\ rcv_nxt (tp c') = 1010 /\ cantrcvmore c' = false.
Proof. vm_compute. done. Qed.

(** A segment that covers an entry of the queue and more: all from the start of the entry is
    reported as a duplicate, the bytes after the entry too, which are new. *)
Theorem dsack_reports_new_data : let c := input0 (conn0 1000 1000 TCPS_ESTABLISHED) (seg0 TH_ACK 1020 1030) in
  let c0 := set_tp c (tcp_sack_report_cleanup (tp c)) in let c' := input0 c0 (seg0 TH_ACK 1010 1040) in
  map q_block (t_segq c0) = [RawSackblock 1020 1030] /\ dupseg (tp c') = true /\ reportblk (tp c') = RawSackblock 1020 1040.
Proof. vm_compute. done. Qed.

(** The history is looked at only when there is something to report.  A block that was
    reported 2^32 - 2000 bytes ago, and acknowledged long since, is taken for data behind
    rcv_nxt, and is reported with the next segment that is out of order. *)
Theorem sack_history_stale :
  let c := Conn (tcpcb0 (u32 (2 ^ 32)) 1 (RawSackblock 1000 2000 :: replicate 3 (RawSackblock 0 0))) [] TF_SACK_PERMITTED TCPS_ESTABLISHED 65535 [] false 0 in
  let c' := input0 c (seg0 TH_ACK (2 ^ 32 + 5000) (2 ^ 32 + 5100)) in
  map q_block (t_segq c') = [RawSackblock 5000 5100] /\
  match tcp_sack_fill_report true (tp c') (t_segq c') (replicate 40 0) 0 with
  | Done (_, opt, plen) => match tcp_dooptions false 0 0 opt 0 plen with
                           | Done to => to_sackblocks to = [RawSackblock 5000 5100; RawSackblock 1000 2000]
                           | Fault _ => False
                           end
  | Fault _ => False
  end.
Proof. vm_compute. done. Qed.
End Examples.

Module Witness.
Import Examples.

(** The first segment is out of order. *)
Definition c0 : conn := conn0 1000 65535 TCPS_ESTABLISHED.
Definition s0 : segment := seg0 TH_ACK 1010 1020.
Definition c1 : conn := Eval vm_compute in input0 c0 s0.
Definition c2 : conn := set_tp c1 (tcp_sack_report_cleanup (tp c1)).
(** The second fills the gap. *)
Definition s1 : segment := seg0 TH_ACK 1000 1010.

Lemma reach0 : reachable stream0 1000 2000 100 true c0 1000 [] false false false.
Proof. apply r_start; try done; unfold maxwnd; cbn; lia. Qed.

Lemma good0 : good_segment stream0 1000 2000 c0 1000 s0 1010.
Proof. constructor; try done; unfold maxold, maxwnd; cbn; lia. Qed.

Lemma input_s0 : tcp_input_data 100 true (false, false) c0 s0 = Done (Some c1).
Proof. vm_compute. done. Qed.

Lemma reach_s0 : reachable stream0 1000 2000 100 true c2 1000 [] false false false.
Proof. apply (r_segment stream0 1000 2000 100 true c0 1000 [] false false false s0 1010 true (false, false) c1 1000 c2 [] reach0 good0 input_s0); [by vm_compute | apply out_none]. Qed.

Lemma good1 : good_segment stream0 1000 2000 c2 1000 s1 1000.
Proof. constructor; try done; unfold maxold, maxwnd; cbn; lia. Qed.

Lemma tcp_delivers_stream_witness :
  exists (eof : bool) l m, rcv_nxt (tp c2) = u32 1000 /\ Forall2 (rep stream0) (t_segq c2) l /\ so_rcv c2 = slice stream0 1000 m /\ 1000 <= m <= 2000 /\
    (false = false -> m = 1000 - Z.b2z eof) /\ (eof = true -> 1000 - 1 = 2000) /\ (cantrcvmore c2 = true -> false = true \/ eof = true) /\
    (false = false -> established c2 = true -> eof = false -> ~ held 1000 l 1000).
Proof. exact (tcp_delivers_stream stream0 1000 2000 100 true c2 1000 [] false false false reach_s0). Defined.

Lemma tcp_input_takes_segment_witness :
  exists l c' n1 l1 took, Forall2 (rep stream0) (t_segq c2) l /\ tcp_input_data 100 true (false, false) c2 s1 = Done (Some c') /\
    rcv_nxt (tp c') = u32 n1 /\ Forall2 (rep stream0) (t_segq c') l1 /\ 1000 <= n1 /\
    (forall z, z < 2000 -> held n1 l1 z <-> held 1000 l z \/ (took = true /\ 1000 <= z < 1010 /\ z < 1000 + 65535)) /\
    (room_for 100 true c2 = true -> TCPS_HAVERCVDFIN (t_state c2) = false -> btest (th_flags s1) TH_ACK = true -> took = true).
Proof. exact (tcp_input_takes_segment stream0 1000 2000 100 true c2 1000 [] false false false s1 1000 true (false, false) reach_s0 good1). Defined.

Lemma sack_report_roundtrip_witness :
  exists l1 opt1 plen t opt' plen' to, Forall2 (rep stream0) (t_segq c1) l1 /\
    write_options (Some (7, 8)) (replicate 40 0) = Done (opt1, plen) /\ tcp_sack_fill_report true (tp c1) (t_segq c1) opt1 plen = Done (t, opt', plen') /\ plen' <= TCP_MAXOLEN /\
    tcp_dooptions false 0 100 opt' 0 plen' = Done to /\ btest (to_flags to) TOF_SACK = true /\
    to_sackblocks to = report true 1000 (tp c1) (t_segq c1) (seg_of 1000 (tp c1)) [] plen /\
    Forall (true_block 2000 1000 1000 l1 false) (to_sackblocks to) /\ (btest (to_flags to) TOF_TS = true /\ to_tsval to = u32 7).
Proof.
  apply (sack_report_roundtrip stream0 1000 2000 100 true c0 1000 [] false false false s0 1010 true (false, false) c1 1000 (Some (7, 8)) (replicate 40 0) false 0 100 reach0 good0 input_s0); [reflexivity | apply Forall_nil; exact I | reflexivity].
Defined.

Lemma tcp_dooptions_safe_witness : exists to, tcp_dooptions true 0 0 [5; 255; 3] 0 3 = Done to /\ Forall option_block (to_sackblocks to) /\ 8 * zlen (to_sackblocks to) <= 3.
Proof. apply (tcp_dooptions_safe true 0 0 [5; 255; 3] 0 3); [repeat (apply Forall_cons_2; [unfold is_u8; lia |]); apply Forall_nil_2 | lia | lia | done]. Defined.

Lemma sack_sender_knows_witness :
  exists l1 opt1 plen t opt' plen' to stp' redundant bl', Forall2 (rep stream0) (t_segq c1) l1 /\
    write_options None (replicate 40 0) = Done (opt1, plen) /\ tcp_sack_fill_report true (tp c1) (t_segq c1) opt1 plen = Done (t, opt', plen') /\
    tcp_dooptions false 1000 100 opt' 0 plen' = Done to /\
    tcp_sack_update_scoreboard (fun _ => true) false false SackProps.Witness.tp0 (to_sackblocks to) = Done (stp', redundant) /\
    sack_inv stp' 1000 1000 9000 bl' /\ (false = false -> forall z, z < 2000 -> covers bl' z -> covers [] z \/ held 1000 l1 z).
Proof.
  apply (sack_sender_knows stream0 1000 2000 100 true (fun _ => true) false false c0 1000 [] false false false s0 1010 true (false, false) c1 1000 (replicate 40 0) SackProps.Witness.tp0 1000 1000 9000 [] None 1000 100 reach0 good0 input_s0);
    [reflexivity | apply Forall_nil; exact I | reflexivity | exact SackProps.Witness.tp0_inv | lia | unfold maxwnd; lia].
Defined.
End Witness.
