(* ===== verification/Lockmgr.v ===== *)
(** * The lock manager: sys/kern/kern_lock.c and sys/sys/lock.h

    A shared/exclusive lock with upgrade and downgrade, kept in one 32-bit word that is
    changed by compare-and-set, and a field for the thread that holds it exclusively.
    Every access to the word, to the field or to the sleep queue is one step of a
    thread, so that the theorems are about every interleaving of any number of threads;
    reads of the field that follow each other are one step.  The kernel option
    DEBUG_LOCKS is off, and the threads are not interrupts.

    The sleep queue: tsleep_interlock puts the thread on it, wakeup takes all threads off
    it, and a tsleep ends when the thread is not on it any more, early without an error,
    or with one if signals or a timeout were asked for. *)

From stdpp Require Import prelude list strings.
From S2P Require Import Prelude.
Open Scope Z_scope.

Definition LK_TYPE_MASK : Z := 0x0000000f.
Definition LK_SHARED : Z := 0x00000001.
Definition LK_EXCLUSIVE : Z := 0x00000002.
Definition LK_UPGRADE : Z := 0x00000003.
Definition LK_EXCLUPGRADE : Z := 0x00000004.
Definition LK_DOWNGRADE : Z := 0x00000005.
Definition LK_RELEASE : Z := 0x00000006.
Definition LK_WAITUPGRADE : Z := 0x00000007.
Definition LK_EXCLOTHER : Z := 0x00000008.

Definition LKC_EXREQ : Z := 0x80000000.
Definition LKC_SHREQ : Z := 0x40000000.
Definition LKC_UPREQ : Z := 0x20000000.
Definition LKC_EXCL : Z := 0x10000000.
Definition LKC_UPGRANT : Z := 0x08000000.
Definition LKC_MASK : Z := 0x07FFFFFF.

Definition LK_EXTFLG_MASK : Z := 0x07000070.
Definition LK_NOWAIT : Z := 0x00000010.
Definition LK_SLEEPFAIL : Z := 0x00000020.
Definition LK_CANRECURSE : Z := 0x00000040.
Definition LK_TIMELOCK : Z := 0x02000000.
Definition LK_PCATCH : Z := 0x04000000.

Definition EBUSY : Z := 16.
Definition ENOLCK : Z := 77.

(** struct thread *: NULL, LK_NOTHREAD, LK_KERNTHREAD or a thread *)
Inductive holder := NullThread | LK_NOTHREAD | LK_KERNTHREAD | Thread (i : nat).

#[export] Instance holder_eq_dec : EqDecision holder.
Proof. solve_decision. Defined.

(** struct lock; lk_count is an int, of which only the bits matter. *)
Record lock := Lock {
  lk_flags : Z;
  lk_count : Z;
  lk_timo : Z;
  lk_wmesg : string;
  lk_lockholder : holder
}.

Definition set_count (lkp : lock) (v : Z) : lock := Lock (lk_flags lkp) v (lk_timo lkp) (lk_wmesg lkp) (lk_lockholder lkp).
Definition set_lockholder (lkp : lock) (v : holder) : lock := Lock (lk_flags lkp) (lk_count lkp) (lk_timo lkp) (lk_wmesg lkp) v.

Definition lockinit (wmesg : string) (timo flags : Z) : lock :=
  Lock (Z.land flags LK_EXTFLG_MASK) 0 timo wmesg LK_NOTHREAD.
Definition lockreinit (lkp : lock) (wmesg : string) (timo : Z) : lock :=
  Lock (lk_flags lkp) (lk_count lkp) timo wmesg (lk_lockholder lkp).
Definition lockuninit (lkp : lock) : outcome unit :=
  KKASSERT "(lkp->lk_count & (LKC_EXREQ|LKC_SHREQ|LKC_UPREQ)) == 0"
    (negb (btest (lk_count lkp) (Z.lor (Z.lor LKC_EXREQ LKC_SHREQ) LKC_UPREQ))).

(** [td] is None for NULL. *)
Definition lockstatus (lkp : lock) (td : option nat) : Z :=
  let count := lk_count lkp in
  if btest count LKC_EXCL then
    match td with
    | None => LK_EXCLUSIVE
    | Some i => if decide (lk_lockholder lkp = Thread i) then LK_EXCLUSIVE else LK_EXCLOTHER
    end
  else if negb (Z.land count LKC_MASK =? 0) then LK_SHARED
  else 0.

Definition lockowned (lkp : lock) (td : nat) : bool :=
  let count := lk_count lkp in
  if btest count LKC_EXCL then bool_decide (lk_lockholder lkp = Thread td)
  else negb (Z.land count LKC_MASK =? 0).

Definition lockcount (lkp : lock) : Z := Z.land (lk_count lkp) LKC_MASK.
Definition lockcountnb (lkp : lock) : Z := Z.land (lk_count lkp) LKC_MASK.

(** atomic_cmpset_int on lk_count *)
Definition cmpset (lkp : lock) (old new : Z) : option lock :=
  if lk_count lkp =? old then Some (set_count lkp new) else None.

(** ** Threads *)

(** The variables of lockmgr that live long; [undo]: this is the release that undo_upreq
    asks for, and [error] is what the caller of undo_upreq will return. *)
Record locals := Locals { flags : Z; extflags : Z; error : Z; undo : bool }.

Definition set_flags (l : locals) (f : Z) : locals := Locals f (extflags l) (error l) (undo l).
Definition set_error (l : locals) (e : Z) : locals := Locals (flags l) (extflags l) e (undo l).
(** flags = LK_RELEASE; error = EBUSY; *)
Definition to_release (l : locals) : locals := Locals LK_RELEASE (extflags l) EBUSY (undo l).
Definition type_of (l : locals) : Z := Z.land (flags l) LK_TYPE_MASK.

(** Which of the four calls of tsleep: in LK_SHARED and LK_EXCLUSIVE, in LK_UPGRADE with
    the count that was seen, in LK_WAITUPGRADE. *)
Inductive sleep := SleepLock | SleepUp (count : Z) | SleepWait.

(** Where a thread is, with the local variables it still needs. *)
Inductive pc :=
  | Idle
  | Again (l : locals)
  | CasShared (l : locals) (count : Z)
  | ShHolder (l : locals) (count : Z)
  | AddOne (l : locals)
  | ShInterlock (l : locals) (count : Z)
  | ShCas (l : locals) (count : Z)
  | CasExcl (l : locals) (count : Z)
  | SetHolder (l : locals)
  | ExHolder (l : locals) (count : Z)
  | ExInterlock (l : locals) (count : Z)
  | ExCas (l : locals) (count : Z)
  | Sleep (l : locals) (k : sleep)
  | DgHolder (l : locals) (count : Z)
  | DgNull (l : locals) (count : Z) (otd : holder)
  | DgCas (l : locals) (count : Z) (otd : holder)
  | DgRestore (l : locals) (otd : holder)
  | UpCas1 (l : locals) (count : Z)
  | UpHolder (l : locals)
  | UpInterlock (l : locals) (count : Z)
  | UpCas2 (l : locals) (count : Z)
  | WuCas (l : locals) (count : Z)
  | WuInterlock (l : locals) (count : Z)
  | WuCas2 (l : locals) (count : Z)
  | RelHolder (l : locals) (count : Z)
  | RelNull (l : locals) (count : Z) (otd : holder)
  | RelExCas (l : locals) (count : Z) (otd : holder)
  | RelRestore (l : locals) (count : Z) (otd : holder)
  | RelExDec (l : locals) (count : Z)
  | RelShCas (l : locals) (count : Z)
  | WakeUp (l : locals) (k : option Z)
  | Undo (l : locals)
  | UndoCas (l : locals) (count : Z)
  | KpHolder
  | KpSet.

(** [t_ex], [t_kex] and [t_sh] count the holds of the thread: exclusive ones, exclusive
    ones that it released to the kernel with lockmgr_kernproc and that are still to be
    released, and shared ones.  [t_lost] counts the upgrade requests that it left behind.
    [t_onq]: it is on the sleep queue.  [t_op] and [t_old] are the last operation and what
    the thread held when it began, [t_ret] what it returned. *)
Record thr := Thr {
  t_pc : pc;
  t_ex : Z;
  t_kex : Z;
  t_sh : Z;
  t_lost : Z;
  t_onq : bool;
  t_deadlk : bool;
  t_op : Z;
  t_old : Z * Z * Z;
  t_ret : Z
}.

Definition at_pc (t : thr) (p : pc) : thr :=
  Thr p (t_ex t) (t_kex t) (t_sh t) (t_lost t) (t_onq t) (t_deadlk t) (t_op t) (t_old t) (t_ret t).
Definition hold (t : thr) (ex kex sh : Z) : thr :=
  Thr (t_pc t) (t_ex t + ex) (t_kex t + kex) (t_sh t + sh) (t_lost t) (t_onq t) (t_deadlk t) (t_op t) (t_old t) (t_ret t).
Definition set_onq (t : thr) (b : bool) : thr :=
  Thr (t_pc t) (t_ex t) (t_kex t) (t_sh t) (t_lost t) b (t_deadlk t) (t_op t) (t_old t) (t_ret t).
Definition add_lost (t : thr) (n : Z) : thr :=
  Thr (t_pc t) (t_ex t) (t_kex t) (t_sh t) (t_lost t + n) (t_onq t) (t_deadlk t) (t_op t) (t_old t) (t_ret t).
(** return (error) *)
Definition finish (t : thr) (e : Z) : thr :=
  Thr Idle (t_ex t) (t_kex t) (t_sh t) (t_lost t) (t_onq t) (t_deadlk t) (t_op t) (t_old t) e.
(** The holds that were given to the kernel change hands. *)
Definition pass (t : thr) (kex : Z) : thr :=
  Thr (t_pc t) (t_ex t) (t_kex t + kex) (t_sh t) (t_lost t) (t_onq t) (t_deadlk t) 0 (t_old t) (t_ret t).
(** A release gives up an exclusive hold, of the thread or of the kernel. *)
Definition drop_ex (t : thr) : thr := if 0 <? t_ex t then hold t (-1) 0 0 else hold t 0 (-1) 0.

Definition local := outcome (lock * thr).

(** ** The switch *)

(** The common part of LK_UPGRADE and LK_EXCLUPGRADE, up to the next access. *)
Definition upgrade (l : locals) (count : Z) : outcome pc :=
  if Z.land count (Z.lor (Z.lor LKC_UPREQ LKC_EXCL) LKC_MASK) =? 1 then mret (UpCas1 l count)
  else if btest count LKC_EXCL then mret (UpHolder l)
  else if Z.land count LKC_MASK =? 0 then Fault (Panic "lockmgr: upgrade unowned lock")
  else if btest (extflags l) LK_NOWAIT then mret (Again (to_release l))
  else mret (UpInterlock l count).

(** switch (flags & LK_TYPE_MASK): where each case goes on *)
Definition switch (l : locals) (count : Z) : outcome pc :=
  let type := type_of l in
  if type =? LK_SHARED then
    if Z.land count (Z.lor (Z.lor LKC_EXREQ LKC_UPREQ) LKC_EXCL) =? 0 then mret (CasShared l count)
    else mret (ShHolder l count)
  else if type =? LK_EXCLUSIVE then
    if count =? 0 then mret (CasExcl l count) else mret (ExHolder l count)
  else if type =? LK_DOWNGRADE then mret (DgHolder l count)
  else if type =? LK_EXCLUPGRADE then
    if btest count LKC_UPREQ then mret (Again (to_release l)) else upgrade l count
  else if type =? LK_UPGRADE then upgrade l count
  else if type =? LK_WAITUPGRADE then
    if btest count LKC_UPGRANT then mret (WuCas l count) else mret (WuInterlock l count)
  else if type =? LK_RELEASE then
    if Z.land count LKC_MASK =? 0 then Fault (Panic "lockmgr: LK_RELEASE: no lock held")
    else if btest count LKC_EXCL then mret (RelHolder l count)
    else mret (RelShCas l count)
  else Fault (Panic "lockmgr: unknown locktype request").

(** again: count = lkp->lk_count; *)
Definition again (l : locals) (lkp : lock) (t : thr) : local :=
  p ← switch l (lk_count lkp);
  mret (lkp, at_pc t p).

(** ** LK_SHARED and LK_EXCLUSIVE *)

Definition cas_shared (l : locals) (count : Z) (lkp : lock) (t : thr) : local :=
  match cmpset lkp count (u32 (count + 1)) with
  | Some lkp => mret (lkp, finish (hold t 0 0 1) (error l))
  | None => mret (lkp, at_pc t (Again l))
  end.

(** if (lkp->lk_lockholder == td): the lock is held by the thread itself *)
Definition recurse (l : locals) (count : Z) (lkp : lock) (t : thr) : local :=
  _ ← KKASSERT "count & LKC_EXCL" (btest count LKC_EXCL);
  if negb (btest (extflags l) LK_CANRECURSE) then
    if btest (extflags l) LK_NOWAIT then mret (lkp, finish t EBUSY)
    else Fault (Panic "lockmgr: locking against myself")
  else mret (lkp, at_pc t (AddOne l)).

Definition sh_holder (me : nat) (l : locals) (count : Z) (lkp : lock) (t : thr) : local :=
  if decide (lk_lockholder lkp = Thread me) then recurse l count lkp t
  else
    let wflags := if t_deadlk t then LKC_EXCL else Z.lor (Z.lor LKC_EXCL LKC_EXREQ) LKC_UPREQ in
    if btest count wflags then
      if btest (extflags l) LK_NOWAIT then mret (lkp, finish t EBUSY)
      else mret (lkp, at_pc t (ShInterlock l count))
    else mret (lkp, at_pc t (CasShared l count)).

(** atomic_add_int(&lkp->lk_count, 1); *)
Definition add_one (l : locals) (lkp : lock) (t : thr) : local :=
  mret (set_count lkp (u32 (lk_count lkp + 1)), finish (hold t 1 0 0) (error l)).

(** tsleep_interlock(lkp, pflags); *)
Definition interlock (next : pc) (lkp : lock) (t : thr) : local :=
  mret (lkp, at_pc (set_onq t true) next).

Definition sh_cas (l : locals) (count : Z) (lkp : lock) (t : thr) : local :=
  match cmpset lkp count (Z.lor count LKC_SHREQ) with
  | Some lkp => mret (lkp, at_pc t (Sleep l SleepLock))
  | None => mret (lkp, at_pc t (Again l))
  end.

Definition cas_excl (l : locals) (count : Z) (lkp : lock) (t : thr) : local :=
  match cmpset lkp count (Z.lor LKC_EXCL (u32 (count + 1))) with
  | Some lkp => mret (lkp, at_pc (hold t 1 0 0) (SetHolder l))
  | None => mret (lkp, at_pc t (Again l))
  end.

(** lkp->lk_lockholder = td; *)
Definition set_holder (me : nat) (l : locals) (lkp : lock) (t : thr) : local :=
  mret (set_lockholder lkp (Thread me), finish t (error l)).

Definition ex_holder (me : nat) (l : locals) (count : Z) (lkp : lock) (t : thr) : local :=
  if decide (lk_lockholder lkp = Thread me) then recurse l count lkp t
  else if btest (extflags l) LK_NOWAIT then mret (lkp, finish t EBUSY)
  else mret (lkp, at_pc t (ExInterlock l count)).

Definition ex_cas (l : locals) (count : Z) (lkp : lock) (t : thr) : local :=
  match cmpset lkp count (Z.lor count LKC_EXREQ) with
  | Some lkp => mret (lkp, at_pc t (Sleep l SleepLock))
  | None => mret (lkp, at_pc t (Again l))
  end.

(** ** tsleep returns *)

(** pflags and timo: may tsleep fail? *)
Definition may_fail (l : locals) (lkp : lock) : bool :=
  btest (extflags l) LK_PCATCH || (btest (extflags l) LK_TIMELOCK && negb (lk_timo lkp =? 0)).

(** What follows tsleep when it failed, or when LK_SLEEPFAIL makes it fail.  In LK_UPGRADE
    a request for which LKC_UPREQ was set is left behind. *)
Definition sleep_failed (l : locals) (k : sleep) (e : Z) (t : thr) : thr :=
  match k with
  | SleepLock => finish t e
  | SleepUp count => finish (if btest count LKC_UPREQ then t else add_lost t 1) e
  | SleepWait => at_pc t (Undo (set_error l e))
  end.

Definition slept (l : locals) (k : sleep) (e : Z) (lkp : lock) (t : thr) : local :=
  let t := set_onq t false in
  if negb (e =? 0) then mret (lkp, sleep_failed l k e t)
  else if btest (extflags l) LK_SLEEPFAIL then mret (lkp, sleep_failed l k ENOLCK t)
  else
    mret (lkp, at_pc t (Again (match k with
      | SleepUp count => set_flags l (if btest count LKC_UPREQ then LK_EXCLUSIVE else LK_WAITUPGRADE)
      | _ => l
      end))).

(** ** LK_DOWNGRADE *)

Definition dg_holder (me : nat) (l : locals) (count : Z) (lkp : lock) (t : thr) : local :=
  if negb (bool_decide (lk_lockholder lkp = Thread me)) ||
     negb (Z.land count (Z.lor LKC_EXCL LKC_MASK) =? Z.lor LKC_EXCL 1)
  then Fault (Panic "lockmgr: not holding exclusive lock")
  else mret (lkp, at_pc t (DgNull l count (lk_lockholder lkp))).

Definition dg_null (l : locals) (count : Z) (otd : holder) (lkp : lock) (t : thr) : local :=
  mret (set_lockholder lkp NullThread, at_pc t (DgCas l count otd)).

Definition dg_cas (l : locals) (count : Z) (otd : holder) (lkp : lock) (t : thr) : local :=
  match cmpset lkp count (Z.ldiff count (Z.lor LKC_EXCL LKC_SHREQ)) with
  | Some lkp =>
      let t := hold t (-1) 0 1 in
      if btest count LKC_SHREQ then mret (lkp, at_pc t (WakeUp l None))
      else mret (lkp, finish t (error l))
  | None => mret (lkp, at_pc t (DgRestore l otd))
  end.

Definition dg_restore (l : locals) (otd : holder) (lkp : lock) (t : thr) : local :=
  mret (set_lockholder lkp otd, at_pc t (Again l)).

(** ** LK_UPGRADE, LK_EXCLUPGRADE and LK_WAITUPGRADE *)

Definition up_cas1 (l : locals) (count : Z) (lkp : lock) (t : thr) : local :=
  match cmpset lkp count (Z.lor count LKC_EXCL) with
  | Some lkp => mret (lkp, at_pc (hold t 1 0 (-1)) (SetHolder l))
  | None => mret (lkp, at_pc t (Again l))
  end.

Definition up_holder (me : nat) (l : locals) (lkp : lock) (t : thr) : local :=
  if decide (lk_lockholder lkp = Thread me) then mret (lkp, finish t (error l))
  else Fault (Panic "lockmgr: upgrade unowned lock").

(** Does giving up the shared hold grant somebody else's upgrade? *)
Definition grants (count : Z) : bool := Z.land count (Z.lor LKC_UPREQ LKC_MASK) =? Z.lor LKC_UPREQ 1.

Definition up_wflags (count : Z) : Z :=
  let wflags := if btest count LKC_UPREQ then LKC_EXREQ else LKC_UPREQ in
  if grants count
  then Z.ldiff (Z.lor (Z.lor wflags (Z.lor LKC_EXCL LKC_UPGRANT)) count) LKC_UPREQ
  else Z.lor wflags (u32 (count - 1)).

Definition up_cas2 (l : locals) (count : Z) (lkp : lock) (t : thr) : local :=
  match cmpset lkp count (up_wflags count) with
  | Some lkp =>
      let t := hold t 0 0 (-1) in
      if grants count then mret (lkp, at_pc t (WakeUp l (Some count)))
      else mret (lkp, at_pc t (Sleep l (SleepUp count)))
  | None => mret (lkp, at_pc t (Again l))
  end.

Definition wu_cas (l : locals) (count : Z) (lkp : lock) (t : thr) : local :=
  match cmpset lkp count (Z.ldiff count LKC_UPGRANT) with
  | Some lkp =>
      _ ← KKASSERT "count & LKC_EXCL" (btest count LKC_EXCL);
      mret (lkp, at_pc (hold t 1 0 0) (SetHolder l))
  | None => mret (lkp, at_pc t (Again l))
  end.

Definition wu_cas2 (l : locals) (count : Z) (lkp : lock) (t : thr) : local :=
  match cmpset lkp count count with
  | Some lkp => mret (lkp, at_pc t (Sleep l SleepWait))
  | None => mret (lkp, at_pc t (Again l))
  end.

(** ** LK_RELEASE *)

Definition rel_holder (me : nat) (l : locals) (count : Z) (lkp : lock) (t : thr) : local :=
  if negb (bool_decide (lk_lockholder lkp = LK_KERNTHREAD)) && negb (bool_decide (lk_lockholder lkp = Thread me))
  then Fault (Panic "lockmgr: not exclusive lock holder unlocking")
  else if (Z.land count (Z.lor LKC_UPREQ LKC_MASK) =? 1) || grants count
  then mret (lkp, at_pc t (RelNull l count (lk_lockholder lkp)))
  else mret (lkp, at_pc t (RelExDec l count)).

Definition rel_null (l : locals) (count : Z) (otd : holder) (lkp : lock) (t : thr) : local :=
  mret (set_lockholder lkp NullThread, at_pc t (RelExCas l count otd)).

(** The last exclusive count, without and with a request for an upgrade. *)
Definition rel_ex_cas (l : locals) (count : Z) (otd : holder) (lkp : lock) (t : thr) : local :=
  if grants count then
    match cmpset lkp count (Z.lor (Z.ldiff count LKC_UPREQ) LKC_UPGRANT) with
    | Some lkp => mret (lkp, at_pc (drop_ex t) (WakeUp l None))
    | None => mret (lkp, at_pc t (RelRestore l count otd))
    end
  else
    match cmpset lkp count (Z.ldiff (u32 (count - 1)) (Z.lor (Z.lor LKC_EXCL LKC_EXREQ) LKC_SHREQ)) with
    | Some lkp =>
        if btest count (Z.lor LKC_EXREQ LKC_SHREQ) then mret (lkp, at_pc (drop_ex t) (WakeUp l None))
        else mret (lkp, finish (drop_ex t) (error l))
    | None => mret (lkp, at_pc t (RelRestore l count otd))
    end.

(** lkp->lk_lockholder = otd; with a request for an upgrade the release is not tried
    again. *)
Definition rel_restore (l : locals) (count : Z) (otd : holder) (lkp : lock) (t : thr) : local :=
  mret (set_lockholder lkp otd, at_pc t (if grants count then WakeUp l None else Again l)).

Definition rel_ex_dec (l : locals) (count : Z) (lkp : lock) (t : thr) : local :=
  match cmpset lkp count (u32 (count - 1)) with
  | Some lkp => mret (lkp, finish (drop_ex t) (error l))
  | None => mret (lkp, at_pc t (Again l))
  end.

(** The three cases of a shared hold: what is written, and whether threads are woken. *)
Definition rel_shared (count : Z) : Z * bool :=
  if Z.land count (Z.lor LKC_UPREQ LKC_MASK) =? 1 then
    (Z.ldiff (u32 (count - 1)) (Z.lor LKC_EXREQ LKC_SHREQ), btest count (Z.lor LKC_EXREQ LKC_SHREQ))
  else if grants count then (Z.lor (Z.ldiff count LKC_UPREQ) (Z.lor LKC_EXCL LKC_UPGRANT), true)
  else (u32 (count - 1), false).

Definition rel_sh_cas (l : locals) (count : Z) (lkp : lock) (t : thr) : local :=
  match cmpset lkp count (rel_shared count).1 with
  | Some lkp =>
      let t := hold t 0 0 (-1) in
      if (rel_shared count).2 then mret (lkp, at_pc t (WakeUp l None)) else mret (lkp, finish t (error l))
  | None => mret (lkp, at_pc t (Again l))
  end.

(** ** undo_upreq *)

(** count = lkp->lk_count; and the assertions of the branches *)
Definition undo_loop (l : locals) (lkp : lock) (t : thr) : local :=
  let count := lk_count lkp in
  if btest count LKC_UPGRANT then mret (lkp, at_pc t (UndoCas l count))
  else
    _ ← KKASSERT "count & LKC_UPREQ" (btest count LKC_UPREQ);
    _ ← KKASSERT "(count & LKC_MASK) > 0" (0 <? Z.land count LKC_MASK);
    mret (lkp, at_pc t (UndoCas l count)).

(** The compare-and-set of each branch; [at_pc t (WakeUp l None)] returns the error. *)
Definition undo_cas (l : locals) (count : Z) (lkp : lock) (t : thr) : local :=
  if btest count LKC_UPGRANT then
    match cmpset lkp count (Z.ldiff count LKC_UPGRANT) with
    | Some lkp => mret (lkp, at_pc (hold t 1 0 0) (Again (Locals LK_RELEASE (Z.land (lk_flags lkp) LK_EXTFLG_MASK) (error l) true)))
    | None => mret (lkp, at_pc t (Undo l))
    end
  else if btest count LKC_EXCL then
    match cmpset lkp count (Z.ldiff count LKC_UPREQ) with
    | Some lkp => mret (lkp, at_pc t (WakeUp l None))
    | None => mret (lkp, at_pc t (Undo l))
    end
  else if btest count LKC_EXREQ then
    match cmpset lkp count (Z.ldiff count LKC_UPREQ) with
    | Some lkp => mret (lkp, finish t (error l))
    | None => mret (lkp, at_pc t (Undo l))
    end
  else
    match cmpset lkp count (Z.ldiff count (Z.lor LKC_UPREQ LKC_SHREQ)) with
    | Some lkp => if btest count LKC_SHREQ then mret (lkp, at_pc t (WakeUp l None)) else mret (lkp, finish t (error l))
    | None => mret (lkp, at_pc t (Undo l))
    end.

(** ** lockmgr_kernproc *)

Definition kp_holder (me : nat) (lkp : lock) (t : thr) : local :=
  if decide (lk_lockholder lkp = LK_KERNTHREAD) then mret (lkp, finish t 0)
  else
    _ ← KKASSERT "lockmgr_kernproc: lock not owned by curthread" (bool_decide (lk_lockholder lkp = Thread me));
    mret (lkp, at_pc t KpSet).

Definition kp_set (lkp : lock) (t : thr) : local :=
  mret (set_lockholder lkp LK_KERNTHREAD, finish (hold t (- t_ex t) (t_ex t) 0) 0).

(** ** Interleaving *)

Record world := World { w_lock : lock; w_thr : list thr }.

(** What resolves the choices of a thread: the call it makes when idle, to whom it leaves
    the release of what it gave to the kernel, and what tsleep returns. *)
Inductive choice := Call (flags : Z) | Kernproc | Pass (j : nat) | Go | Woken (e : Z).

(** The entry of lockmgr: extflags *)
Definition start (f : Z) (lkp : lock) (t : thr) : thr :=
  Thr (Again (Locals f (Z.land (Z.lor f (lk_flags lkp)) LK_EXTFLG_MASK) 0 false))
    (t_ex t) (t_kex t) (t_sh t) (t_lost t) (t_onq t) (t_deadlk t) (Z.land f LK_TYPE_MASK) (t_ex t, t_kex t, t_sh t) (t_ret t).

(** The step of a thread that touches only the lock and itself. *)
Definition local_step (me : nat) (lkp : lock) (t : thr) : option local :=
  match t_pc t with
  | Idle | Sleep _ _ | WakeUp _ _ => None
  | Again l => Some (again l lkp t)
  | CasShared l count => Some (cas_shared l count lkp t)
  | ShHolder l count => Some (sh_holder me l count lkp t)
  | AddOne l => Some (add_one l lkp t)
  | ShInterlock l count => Some (interlock (ShCas l count) lkp t)
  | ShCas l count => Some (sh_cas l count lkp t)
  | CasExcl l count => Some (cas_excl l count lkp t)
  | SetHolder l => Some (set_holder me l lkp t)
  | ExHolder l count => Some (ex_holder me l count lkp t)
  | ExInterlock l count => Some (interlock (ExCas l count) lkp t)
  | ExCas l count => Some (ex_cas l count lkp t)
  | DgHolder l count => Some (dg_holder me l count lkp t)
  | DgNull l count otd => Some (dg_null l count otd lkp t)
  | DgCas l count otd => Some (dg_cas l count otd lkp t)
  | DgRestore l otd => Some (dg_restore l otd lkp t)
  | UpCas1 l count => Some (up_cas1 l count lkp t)
  | UpHolder l => Some (up_holder me l lkp t)
  | UpInterlock l count => Some (interlock (UpCas2 l count) lkp t)
  | UpCas2 l count => Some (up_cas2 l count lkp t)
  | WuCas l count => Some (wu_cas l count lkp t)
  | WuInterlock l count => Some (interlock (WuCas2 l count) lkp t)
  | WuCas2 l count => Some (wu_cas2 l count lkp t)
  | RelHolder l count => Some (rel_holder me l count lkp t)
  | RelNull l count otd => Some (rel_null l count otd lkp t)
  | RelExCas l count otd => Some (rel_ex_cas l count otd lkp t)
  | RelRestore l count otd => Some (rel_restore l count otd lkp t)
  | RelExDec l count => Some (rel_ex_dec l count lkp t)
  | RelShCas l count => Some (rel_sh_cas l count lkp t)
  | Undo l => Some (undo_loop l lkp t)
  | UndoCas l count => Some (undo_cas l count lkp t)
  | KpHolder => Some (kp_holder me lkp t)
  | KpSet => Some (kp_set lkp t)
  end.

Definition put (w : world) (i : nat) (r : lock * thr) : world := World r.1 (<[i := r.2]> (w_thr w)).

(** wakeup(lkp), and what follows it. *)
Definition woke (l : locals) (k : option Z) (t : thr) : thr :=
  match k with
  | None => finish t (error l)
  | Some count => at_pc t (Sleep l (SleepUp count))
  end.

(** One step of thread [i]: [None] when it can not make the chosen step. *)
Definition step (w : world) (i : nat) (c : choice) : option (outcome world) :=
  let lkp := w_lock w in
  match w_thr w !! i with
  | None => None
  | Some t =>
    match t_pc t, c with
    | Idle, Call f => Some (Done (put w i (lkp, start f lkp t)))
    | Idle, Kernproc => Some (Done (put w i (lkp, at_pc (pass t 0) KpHolder)))
    | Idle, Pass j =>
        match w_thr w !! j with
        | Some u => if decide (i = j) then None
                    else Some (Done (World lkp (<[j := pass u (t_kex t)]> (<[i := pass t (- t_kex t)]> (w_thr w)))))
        | None => None
        end
    | Sleep l k, Woken e =>
        if (e =? 0) || may_fail l lkp then Some (slept l k e lkp t ≫= fun r => Done (put w i r)) else None
    | WakeUp l k, Go =>
        let ts := (fun u => set_onq u false) <$> w_thr w in
        Some (Done (World lkp (<[i := woke l k (set_onq t false)]> ts)))
    | _, Go =>
        match local_step i lkp t with
        | None => None
        | Some r => Some (r ≫= fun r => Done (put w i r))
        end
    | _, _ => None
    end
  end.

(** A schedule: which thread steps, and how. *)
Fixpoint run_schedule (w : world) (s : list (nat * choice)) : option (outcome world) :=
  match s with
  | [] => Some (Done w)
  | (i, c) :: s =>
      match step w i c with
      | Some (Done w) => run_schedule w s
      | r => r
      end
  end.

Definition thr0 (deadlk : bool) : thr := Thr Idle 0 0 0 0 false deadlk 0 (0, 0, 0) 0.
(** A new lock, and threads of which some have TDF_DEADLKTREAT set. *)
Definition world0 (lkp : lock) (deadlk : list bool) : world := World lkp (thr0 <$> deadlk).
