(* ===== verification/LockmgrInv.v ===== *)
(** * The lock manager: the lock word, and the invariant

    The word as five flags and a 27-bit count, and what the tests and updates of
    sys/kern/kern_lock.c do to them. *)

From stdpp Require Import prelude list strings.
From S2P Require Import Prelude.
From S2P Require Import Sums.
From S2P Require Import Lockmgr.
Open Scope Z_scope.

Definition lkflags (x s u e g : bool) : Z := 16 * b2z x + 8 * b2z s + 4 * b2z u + 2 * b2z e + b2z g.

(** The word with LKC_EXREQ, LKC_SHREQ, LKC_UPREQ, LKC_EXCL, LKC_UPGRANT and the count. *)
Definition lkw (x s u e g : bool) (n : Z) : Z := cat 27 (lkflags x s u e g) n.

Section Words.
Context (x s u e g : bool) (n : Z).
Hypothesis Hn : 0 <= n < 2 ^ 27.
#[local] #[warnings="-notation-for-abbreviation"] Notation w := (lkw x s u e g n).

Lemma lkw_land f : Z.land w (cat 27 f 0) = cat 27 (Z.land (lkflags x s u e g) f) 0.
Proof. unfold lkw. rewrite cat_land by lia. by rewrite Z.land_0_r. Qed.

Lemma lkw_land_mask f : Z.land w (cat 27 f (Z.ones 27)) = cat 27 (Z.land (lkflags x s u e g) f) n.
Proof. unfold lkw. rewrite cat_land by (done || lia). rewrite Z.land_ones, Z.mod_small by lia. done. Qed.

Lemma lkw_lor f : Z.lor w (cat 27 f 0) = cat 27 (Z.lor (lkflags x s u e g) f) n.
Proof. unfold lkw. rewrite cat_lor by lia. by rewrite Z.lor_0_r. Qed.

Lemma lkw_ldiff f : Z.ldiff w (cat 27 f 0) = cat 27 (Z.ldiff (lkflags x s u e g) f) n.
Proof. unfold lkw. rewrite cat_ldiff by lia. by rewrite Z.ldiff_0_r. Qed.

(** Tests. *)
Ltac test f :=
  unfold btest; change f with (cat 27 (f / 2 ^ 27) 0); rewrite lkw_land; by destruct x, s, u, e, g.

Lemma lkw_exreq : btest w LKC_EXREQ = x.
Proof. test LKC_EXREQ. Qed.
Lemma lkw_shreq : btest w LKC_SHREQ = s.
Proof. test LKC_SHREQ. Qed.
Lemma lkw_upreq : btest w LKC_UPREQ = u.
Proof. test LKC_UPREQ. Qed.
Lemma lkw_excl : btest w LKC_EXCL = e.
Proof. test LKC_EXCL. Qed.
Lemma lkw_upgrant : btest w LKC_UPGRANT = g.
Proof. test LKC_UPGRANT. Qed.
Lemma lkw_blocked : btest w (Z.lor (Z.lor LKC_EXCL LKC_EXREQ) LKC_UPREQ) = x || u || e.
Proof. test (Z.lor (Z.lor LKC_EXCL LKC_EXREQ) LKC_UPREQ). Qed.
Lemma lkw_wanted : btest w (Z.lor LKC_EXREQ LKC_SHREQ) = x || s.
Proof. test (Z.lor LKC_EXREQ LKC_SHREQ). Qed.
Lemma lkw_free_shared : (Z.land w (Z.lor (Z.lor LKC_EXREQ LKC_UPREQ) LKC_EXCL) =? 0) = negb (x || u || e).
Proof. change (Z.lor (Z.lor LKC_EXREQ LKC_UPREQ) LKC_EXCL) with (cat 27 22 0). rewrite lkw_land. by destruct x, s, u, e, g. Qed.

Lemma lkw_mask : Z.land w LKC_MASK = n.
Proof. change LKC_MASK with (cat 27 0 (Z.ones 27)). rewrite lkw_land_mask, Z.land_0_r. unfold cat. lia. Qed.

Lemma cat_eqb f f' m : 0 <= m < 2 ^ 27 -> (cat 27 f n =? cat 27 f' m) = (f =? f') && (n =? m).
Proof. intros. unfold cat. destruct (Z.eqb_spec f f'), (Z.eqb_spec n m), (Z.eqb_spec (f * 2 ^ 27 + n) (f' * 2 ^ 27 + m)); done || lia. Qed.

Ltac test_mask f v :=
  change f with (cat 27 (f / 2 ^ 27) (Z.ones 27)); change v with (cat 27 (v / 2 ^ 27) 1) at 1;
  rewrite lkw_land_mask, cat_eqb by lia; by destruct x, s, u, e, g.

Lemma lkw_excl_one : (Z.land w (Z.lor LKC_EXCL LKC_MASK) =? Z.lor LKC_EXCL 1) = e && (n =? 1).
Proof. test_mask (Z.lor LKC_EXCL LKC_MASK) (Z.lor LKC_EXCL 1). Qed.
Lemma lkw_grants : grants w = u && (n =? 1).
Proof. unfold grants. test_mask (Z.lor LKC_UPREQ LKC_MASK) (Z.lor LKC_UPREQ 1). Qed.
Lemma lkw_last : (Z.land w (Z.lor LKC_UPREQ LKC_MASK) =? 1) = negb u && (n =? 1).
Proof.
  change (Z.lor LKC_UPREQ LKC_MASK) with (cat 27 4 (Z.ones 27)). rewrite lkw_land_mask.
  replace 1 with (cat 27 0 1) at 1 by done. rewrite cat_eqb by lia. by destruct x, s, u, e, g.
Qed.
Lemma lkw_only : (Z.land w (Z.lor (Z.lor LKC_UPREQ LKC_EXCL) LKC_MASK) =? 1) = negb u && negb e && (n =? 1).
Proof.
  change (Z.lor (Z.lor LKC_UPREQ LKC_EXCL) LKC_MASK) with (cat 27 6 (Z.ones 27)). rewrite lkw_land_mask.
  replace 1 with (cat 27 0 1) at 1 by done. rewrite cat_eqb by lia. by destruct x, s, u, e, g.
Qed.

(** Updates. *)
Ltac set_bits f := change f with (cat 27 (f / 2 ^ 27) 0); rewrite lkw_lor; by destruct x, s, u, e, g.
Ltac clear_bits f := change f with (cat 27 (f / 2 ^ 27) 0); rewrite lkw_ldiff; by destruct x, s, u, e, g.

Lemma lkw_set_shreq : Z.lor w LKC_SHREQ = lkw x true u e g n.
Proof. set_bits LKC_SHREQ. Qed.
Lemma lkw_set_exreq : Z.lor w LKC_EXREQ = lkw true s u e g n.
Proof. set_bits LKC_EXREQ. Qed.
Lemma lkw_set_upreq : Z.lor w LKC_UPREQ = lkw x s true e g n.
Proof. set_bits LKC_UPREQ. Qed.
Lemma lkw_set_excl : Z.lor w LKC_EXCL = lkw x s u true g n.
Proof. set_bits LKC_EXCL. Qed.
Lemma lkw_set_upgrant : Z.lor w LKC_UPGRANT = lkw x s u e true n.
Proof. set_bits LKC_UPGRANT. Qed.
Lemma lkw_set_grant : Z.lor w (Z.lor LKC_EXCL LKC_UPGRANT) = lkw x s u true true n.
Proof. set_bits (Z.lor LKC_EXCL LKC_UPGRANT). Qed.
Lemma lkw_clear_upreq : Z.ldiff w LKC_UPREQ = lkw x s false e g n.
Proof. clear_bits LKC_UPREQ. Qed.
Lemma lkw_clear_upgrant : Z.ldiff w LKC_UPGRANT = lkw x s u e false n.
Proof. clear_bits LKC_UPGRANT. Qed.
Lemma lkw_clear_up : Z.ldiff w (Z.lor LKC_UPREQ LKC_SHREQ) = lkw x false false e g n.
Proof. clear_bits (Z.lor LKC_UPREQ LKC_SHREQ). Qed.
Lemma lkw_clear_excl : Z.ldiff w (Z.lor LKC_EXCL LKC_SHREQ) = lkw x false u false g n.
Proof. clear_bits (Z.lor LKC_EXCL LKC_SHREQ). Qed.
Lemma lkw_clear_wanted : Z.ldiff w (Z.lor LKC_EXREQ LKC_SHREQ) = lkw false false u e g n.
Proof. clear_bits (Z.lor LKC_EXREQ LKC_SHREQ). Qed.
Lemma lkw_clear_all : Z.ldiff w (Z.lor (Z.lor LKC_EXCL LKC_EXREQ) LKC_SHREQ) = lkw false false u false g n.
Proof. clear_bits (Z.lor (Z.lor LKC_EXCL LKC_EXREQ) LKC_SHREQ). Qed.

Lemma lkflags_bound : 0 <= lkflags x s u e g < 32.
Proof. by destruct x, s, u, e, g. Qed.

Lemma lkw_succ : n + 1 < 2 ^ 27 -> u32 (w + 1) = lkw x s u e g (n + 1).
Proof.
  intros. replace (w + 1) with (lkw x s u e g (n + 1)) by (unfold lkw, cat; lia).
  apply u32_id. pose proof lkflags_bound. unfold lkw, cat, is_u32. lia.
Qed.
Lemma lkw_pred : 1 <= n -> u32 (w - 1) = lkw x s u e g (n - 1).
Proof.
  intros. replace (w - 1) with (lkw x s u e g (n - 1)) by (unfold lkw, cat; lia).
  apply u32_id. pose proof lkflags_bound. unfold lkw, cat, is_u32. lia.
Qed.
End Words.

Lemma lkw_inj x s u e g n x' s' u' e' g' n' :
  0 <= n < 2 ^ 27 -> 0 <= n' < 2 ^ 27 -> lkw x s u e g n = lkw x' s' u' e' g' n' ->
  x = x' /\ s = s' /\ u = u' /\ e = e' /\ g = g' /\ n = n'.
Proof.
  intros H H' E%Z.eqb_eq. unfold lkw in E. rewrite cat_eqb in E by done. apply andb_true_iff in E as [E1%Z.eqb_eq E2%Z.eqb_eq].
  split_and!; try done; unfold lkflags, b2z in E1; destruct x, s, u, e, g, x', s', u', e', g'; done.
Qed.

(** The word that LK_UPGRADE writes. *)
Lemma lkw_up_wflags x s u e g n : 0 <= n < 2 ^ 27 -> 1 <= n ->
  up_wflags (lkw x s u e g n) =
    if u then (if n =? 1 then lkw true s false true true n else lkw true s true e g (n - 1)) else lkw x s true e g (n - 1).
Proof.
  intros H H1. unfold up_wflags. rewrite lkw_upreq, lkw_grants by done. destruct u; cbn [andb].
  - destruct (n =? 1).
    + change (Z.lor LKC_EXREQ (Z.lor LKC_EXCL LKC_UPGRANT)) with (cat 27 19 0). rewrite Z.lor_comm, lkw_lor by done.
      change LKC_UPREQ with (cat 27 4 0). destruct x, s, e, g; cbn [lkflags b2z]; rewrite cat_ldiff by lia; by rewrite Z.ldiff_0_r.
    + rewrite lkw_pred, Z.lor_comm by done. by rewrite lkw_set_exreq by lia.
  - rewrite lkw_pred, Z.lor_comm by done. by rewrite lkw_set_upreq by lia.
Qed.

Create Rewrite HintDb lkw.
#[export] Hint Rewrite lkw_exreq lkw_shreq lkw_upreq lkw_excl lkw_upgrant lkw_blocked lkw_wanted lkw_free_shared lkw_mask
  lkw_excl_one lkw_grants lkw_last lkw_only using first [done | lia] : lkw.

(** * The lock manager: the invariant

    What the word, the holder and the sleep queue have to do with what the threads hold,
    in every interleaving. *)

(** ** What a thread holds *)

Definition own (t : thr) : Z := t_ex t + t_kex t.

(** The thread has a request for an upgrade: LKC_UPREQ or LKC_UPGRANT is its own. *)
Definition waits (t : thr) : Z :=
  match t_pc t with
  | Again l => b2z (type_of l =? LK_WAITUPGRADE)
  | WuCas _ _ | WuInterlock _ _ | WuCas2 _ _ | Sleep _ SleepWait | Undo _ | UndoCas _ _ => 1
  | Sleep _ (SleepUp count) => b2z (negb (btest count LKC_UPREQ))
  | _ => 0
  end.
Definition req (t : thr) : Z := waits t + t_lost t.

(** What has changed since the thread called lockmgr. *)
Definition moved (t : thr) (ex kex sh : Z) : Prop :=
  t_ex t = (t_old t).1.1 + ex /\ t_kex t = (t_old t).1.2 + kex /\ t_sh t = (t_old t).2 + sh.

Definition is_up (op : Z) : Prop := op = LK_UPGRADE \/ op = LK_EXCLUPGRADE.

(** The contract of lockmgr: what an operation that has returned [ret] has done. *)
Definition contract (t : thr) (ret : Z) : Prop :=
  (t_op t = LK_SHARED -> if ret =? 0 then moved t 0 0 1 \/ (0 < (t_old t).1.1 /\ moved t 1 0 0) else moved t 0 0 0) /\
  (t_op t = LK_EXCLUSIVE -> if ret =? 0 then moved t 1 0 0 else moved t 0 0 0) /\
  (is_up (t_op t) -> if ret =? 0 then (0 < (t_old t).1.1 /\ moved t 0 0 0) \/ moved t 1 0 (-1) else moved t 0 0 (-1)) /\
  (t_op t = LK_DOWNGRADE -> ret = 0 /\ moved t (-1) 0 1) /\
  (t_op t = LK_RELEASE -> ret = 0 /\
     if 0 <? (t_old t).1.1 then moved t (-1) 0 0 else if 0 <? (t_old t).1.2 then moved t 0 (-1) 0 else moved t 0 0 (-1)).

(** A thread that holds the lock exclusively may ask again. *)
Definition may_recurse (l : locals) : Prop :=
  btest (extflags l) LK_CANRECURSE = true \/ btest (extflags l) LK_NOWAIT = true.

(** What lockmgr is about to do, in terms of the operation that was called. *)
Definition call_ok (l : locals) (t : thr) : Prop :=
  ((t_op t = LK_SHARED \/ t_op t = LK_EXCLUSIVE) /\ type_of l = t_op t /\ moved t 0 0 0 /\ error l = 0 /\ undo l = false /\
     (0 < t_ex t -> may_recurse l)) \/
  (is_up (t_op t) /\ type_of l = t_op t /\ moved t 0 0 0 /\ error l = 0 /\ undo l = false /\ 0 < t_ex t + t_sh t) \/
  (is_up (t_op t) /\ (type_of l = LK_EXCLUSIVE \/ type_of l = LK_WAITUPGRADE) /\ moved t 0 0 (-1) /\ error l = 0 /\ undo l = false /\ t_ex t = 0) \/
  (t_op t = LK_DOWNGRADE /\ type_of l = LK_DOWNGRADE /\ moved t 0 0 0 /\ error l = 0 /\ undo l = false /\ t_ex t = 1) \/
  (t_op t = LK_RELEASE /\ type_of l = LK_RELEASE /\ moved t 0 0 0 /\ error l = 0 /\ undo l = false /\ 0 < t_ex t + t_kex t + t_sh t) \/
  (is_up (t_op t) /\ type_of l = LK_RELEASE /\ moved t 0 0 0 /\ error l <> 0 /\ undo l = false /\ own t = 0 /\ 0 < t_sh t) \/
  (is_up (t_op t) /\ type_of l = LK_RELEASE /\ moved t 1 0 (-1) /\ error l <> 0 /\ undo l = true /\ 0 < t_ex t /\ t_kex t = 0).

Ltac lk_types := unfold is_up, LK_SHARED, LK_EXCLUSIVE, LK_UPGRADE, LK_EXCLUPGRADE, LK_DOWNGRADE, LK_RELEASE, LK_WAITUPGRADE in *.
Ltac call_cases :=
  let C := fresh in let E := fresh in intros C E; unfold call_ok in C; rewrite E in C;
  destruct C as [C | [C | [C | [C | [C | [C | C]]]]]]; decompose [and] C; clear C; try (exfalso; lk_types; lia); try solve [intuition].

(** The same by the type of the request. *)
Lemma call_shared l t : call_ok l t -> type_of l = LK_SHARED ->
  t_op t = LK_SHARED /\ moved t 0 0 0 /\ error l = 0 /\ undo l = false /\ (0 < t_ex t -> may_recurse l).
Proof. call_cases. Qed.

Lemma call_exclusive l t : call_ok l t -> type_of l = LK_EXCLUSIVE -> error l = 0 /\ undo l = false /\ (0 < t_ex t -> may_recurse l) /\
  (t_op t = LK_EXCLUSIVE /\ moved t 0 0 0 \/ is_up (t_op t) /\ moved t 0 0 (-1) /\ t_ex t = 0).
Proof. call_cases. split_and!; try done; [lia | by right]. Qed.

Lemma call_up l t : call_ok l t -> is_up (type_of l) ->
  is_up (t_op t) /\ moved t 0 0 0 /\ error l = 0 /\ undo l = false /\ 0 < t_ex t + t_sh t.
Proof. intros C [E | E]; revert C E; call_cases. Qed.

Lemma call_wait l t : call_ok l t -> type_of l = LK_WAITUPGRADE ->
  is_up (t_op t) /\ moved t 0 0 (-1) /\ error l = 0 /\ undo l = false /\ t_ex t = 0.
Proof. call_cases. Qed.

Lemma call_down l t : call_ok l t -> type_of l = LK_DOWNGRADE ->
  t_op t = LK_DOWNGRADE /\ moved t 0 0 0 /\ error l = 0 /\ undo l = false /\ t_ex t = 1.
Proof. call_cases. Qed.

Lemma call_release l t : call_ok l t -> type_of l = LK_RELEASE ->
  (t_op t = LK_RELEASE /\ moved t 0 0 0 /\ error l = 0 /\ undo l = false /\ 0 < t_ex t + t_kex t + t_sh t) \/
  (is_up (t_op t) /\ moved t 0 0 0 /\ error l <> 0 /\ undo l = false /\ own t = 0 /\ 0 < t_sh t) \/
  (is_up (t_op t) /\ moved t 1 0 (-1) /\ error l <> 0 /\ undo l = true /\ 0 < t_ex t /\ t_kex t = 0).
Proof. call_cases. Qed.

(** A word that the thread has read. *)
Definition seen (count : Z) (P : bool -> bool -> bool -> bool -> bool -> Z -> Prop) : Prop :=
  exists x s u e g n, count = lkw x s u e g n /\ 0 <= n < 2 ^ 27 /\ P x s u e g n.

Definition otd_ok (i : nat) (t : thr) (otd : holder) : Prop :=
  (0 < t_ex t -> otd = Thread i) /\ (0 < t_kex t -> otd = LK_KERNTHREAD).

(** The upgrade has been asked for, and the shared hold was given up. *)
Definition up_asked (l : locals) (t : thr) : Prop :=
  is_up (t_op t) /\ moved t 0 0 (-1) /\ undo l = false /\ t_ex t = 0.

(** What a thread knows, by where it is. *)
Definition knows (i : nat) (t : thr) (lkp : lock) : Prop :=
  match t_pc t with
  | Idle => contract t (t_ret t)
  | Again l => call_ok l t
  | CasShared l c => call_ok l t /\ type_of l = LK_SHARED /\ seen c (fun x s u e g n => e = false)
  | ShHolder l c => call_ok l t /\ type_of l = LK_SHARED /\ seen c (fun x s u e g n => 0 < t_ex t -> e = true)
  | AddOne l => call_ok l t /\ (type_of l = LK_SHARED \/ type_of l = LK_EXCLUSIVE) /\ 0 < t_ex t
  | ShInterlock l c | ShCas l c => call_ok l t /\ type_of l = LK_SHARED /\ seen c (fun x s u e g n => x || u || e = true)
  | CasExcl l c => call_ok l t /\ type_of l = LK_EXCLUSIVE /\ c = 0
  | SetHolder l => error l = 0 /\ 0 < t_ex t /\ t_kex t = 0 /\ (t_op t = LK_EXCLUSIVE /\ moved t 1 0 0 \/ is_up (t_op t) /\ moved t 1 0 (-1))
  | ExHolder l c => call_ok l t /\ type_of l = LK_EXCLUSIVE /\ c <> 0 /\ seen c (fun x s u e g n => 0 < t_ex t -> e = true)
  | ExInterlock l c | ExCas l c => call_ok l t /\ type_of l = LK_EXCLUSIVE /\ c <> 0 /\ seen c (fun _ _ _ _ _ _ => True)
  | Sleep l SleepLock => call_ok l t /\ (type_of l = LK_SHARED \/ type_of l = LK_EXCLUSIVE)
  | Sleep l (SleepUp c) => up_asked l t /\ error l = 0 /\ seen c (fun _ _ _ _ _ _ => True)
  | Sleep l SleepWait => call_ok l t /\ type_of l = LK_WAITUPGRADE
  | DgHolder l c => call_ok l t /\ type_of l = LK_DOWNGRADE /\ seen c (fun x s u e g n => e = true /\ n = 1)
  | DgNull l c otd => call_ok l t /\ type_of l = LK_DOWNGRADE /\ seen c (fun x s u e g n => e = true /\ n = 1) /\ otd = Thread i
  | DgCas l c otd => call_ok l t /\ type_of l = LK_DOWNGRADE /\ seen c (fun x s u e g n => e = true /\ n = 1) /\ otd = Thread i /\ lk_lockholder lkp = NullThread /\ t_kex t = 0
  | DgRestore l otd => call_ok l t /\ type_of l = LK_DOWNGRADE /\ otd = Thread i /\ t_kex t = 0
  | UpCas1 l c => call_ok l t /\ is_up (type_of l) /\ 0 < t_sh t /\ seen c (fun x s u e g n => u = false /\ e = false /\ n = 1)
  | UpHolder l => call_ok l t /\ is_up (type_of l) /\ 0 < t_ex t
  | UpInterlock l c | UpCas2 l c => call_ok l t /\ is_up (type_of l) /\ 0 < t_sh t /\ seen c (fun x s u e g n => e = false /\ 1 <= n /\ (u = false -> 2 <= n))
  | WuCas l c => call_ok l t /\ type_of l = LK_WAITUPGRADE /\ seen c (fun x s u e g n => g = true /\ e = true)
  | WuInterlock l c | WuCas2 l c => call_ok l t /\ type_of l = LK_WAITUPGRADE /\ seen c (fun x s u e g n => g = false)
  | RelHolder l c => call_ok l t /\ type_of l = LK_RELEASE /\ 0 < own t /\ seen c (fun x s u e g n => e = true /\ u = false /\ n = own t)
  | RelNull l c otd => call_ok l t /\ type_of l = LK_RELEASE /\ own t = 1 /\ otd_ok i t otd /\ seen c (fun x s u e g n => e = true /\ u = false /\ n = 1)
  | RelExCas l c otd => call_ok l t /\ type_of l = LK_RELEASE /\ own t = 1 /\ otd_ok i t otd /\ seen c (fun x s u e g n => e = true /\ u = false /\ n = 1) /\
      lk_lockholder lkp = NullThread
  | RelRestore l c otd => call_ok l t /\ type_of l = LK_RELEASE /\ own t = 1 /\ otd_ok i t otd /\ seen c (fun x s u e g n => u = false)
  | RelExDec l c => call_ok l t /\ type_of l = LK_RELEASE /\ 2 <= own t /\ seen c (fun x s u e g n => e = true /\ n = own t)
  | RelShCas l c => call_ok l t /\ type_of l = LK_RELEASE /\ undo l = false /\ own t = 0 /\ 0 < t_sh t /\ seen c (fun x s u e g n => e = false /\ 1 <= n)
  | WakeUp l None => contract t (error l)
  | WakeUp l (Some c) => up_asked l t /\ error l = 0 /\ seen c (fun x s u e g n => u = true)
  | Undo l => up_asked l t /\ error l <> 0
  | UndoCas l c => up_asked l t /\ error l <> 0 /\ seen c (fun x s u e g n => g = true /\ e = true \/ g = false /\ u = true /\ e = false /\ 1 <= n)
  | KpHolder => t_op t = 0 /\ 0 < own t
  | KpSet => t_op t = 0 /\ 0 < t_ex t
  end.

(** The thread owns the lock, but is not, or no longer, the holder of record. *)
Definition inflight (t : thr) : bool :=
  match t_pc t with
  | SetHolder _ | DgCas _ _ _ | DgRestore _ _ | RelExCas _ _ _ | RelRestore _ _ _ => true
  | Again l | RelHolder l _ => undo l
  | _ => false
  end.

Definition local_ok (i : nat) (t : thr) (lkp : lock) : Prop :=
  0 <= t_ex t /\ 0 <= t_kex t /\ 0 <= t_sh t /\ 0 <= t_lost t /\
  (inflight t = false -> otd_ok i t (lk_lockholder lkp)) /\ knows i t lkp.

(** The word, in terms of the sums of exclusive and shared holds and of upgrade requests. *)
Definition word_ok (x s u e g : bool) (n S H R : Z) : Prop :=
  0 <= n < 2 ^ 27 /\ n = S + H + b2z g /\ (e = true -> 0 < S + b2z g) /\ (e = false -> S = 0 /\ g = false) /\
  (g = true -> S = 0) /\ (e = true -> H = 0 /\ u = false) /\ R = b2z u + b2z g /\
  (n = 0 -> x = false /\ s = false /\ u = false).

(** The request bit that a thread on the sleep queue relies on. *)
Definition asks (t : thr) (x s u : bool) : Prop :=
  t_onq t = true ->
  match t_pc t with
  | Sleep l SleepLock => if type_of l =? LK_SHARED then s = true else x = true
  | Sleep l (SleepUp c) => if btest c LKC_UPREQ then x = true else u = true
  | Sleep l SleepWait => u = true
  | _ => True
  end.

Definition waking (t : thr) : Prop := match t_pc t with WakeUp _ _ => True | _ => False end.

Record Inv (w : world) : Prop := {
  inv_word : exists x s u e g n, lk_count (w_lock w) = lkw x s u e g n /\
    word_ok x s u e g n (sumf own (w_thr w)) (sumf t_sh (w_thr w)) (sumf req (w_thr w)) /\
    ((exists i t, w_thr w !! i = Some t /\ waking t) \/ forall i t, w_thr w !! i = Some t -> asks t x s u);
  inv_one : forall i j t v, w_thr w !! i = Some t -> w_thr w !! j = Some v -> 0 < own t -> 0 < own v -> i = j;
  inv_holder : (forall i, lk_lockholder (w_lock w) = Thread i -> exists t, w_thr w !! i = Some t /\ 0 < t_ex t) /\
    (lk_lockholder (w_lock w) = LK_KERNTHREAD -> exists i t, w_thr w !! i = Some t /\ 0 < t_kex t);
  inv_local : forall i t, w_thr w !! i = Some t -> local_ok i t (w_lock w)
}.

(** ** Steps of one thread *)

Lemma knows_stable i t lkp lkp' : local_ok i t lkp -> (0 < own t -> lk_lockholder lkp' = lk_lockholder lkp) -> local_ok i t lkp'.
Proof.
  intros (H1 & H2 & H3 & H4 & H5 & H6) Hh. split_and!; try done.
  - intros Hf. destruct (H5 Hf) as [K1 K2]. split; intros K; rewrite Hh by (unfold own; lia); auto.
  - unfold knows in *. destruct (t_pc t) eqn:Hpc; try done.
    + destruct H6 as (C & Ht & Hs & Ho & Hn & Hk). split_and!; try done. rewrite Hh; [done |].
      destruct (call_down _ _ C Ht) as (_ & _ & _ & _ & ?). unfold own. lia.
    + destruct H6 as (C & Ht & Ho & Hotd & Hs & Hn). split_and!; try done. rewrite Hh; [done | lia].
Qed.

Section Facts.
Context (w : world).
Hypothesis Hinv : Inv w.

Lemma holds_nonneg t : t ∈ w_thr w -> 0 <= own t /\ 0 <= t_sh t /\ 0 <= req t.
Proof.
  intros (i & Hi)%list_elem_of_lookup_1. destruct (inv_local w Hinv i t Hi) as (? & ? & ? & ? & _).
  unfold own, req. split_and!; try lia. assert (0 <= waits t); [| lia].
  unfold waits. destruct (t_pc t) as [| | | | | | | | | | | |? k | | | | | | | | | | | | | | | | | | | | | |]; try lia; try (destruct k; try lia); apply b2z_bounds.
Qed.

Lemma lk_sums_nonneg : 0 <= sumf own (w_thr w) /\ 0 <= sumf t_sh (w_thr w) /\ 0 <= sumf req (w_thr w).
Proof. split_and!; apply sumf_nonneg; intros; by apply holds_nonneg. Qed.

Lemma lk_holds_le i t : w_thr w !! i = Some t ->
  own t <= sumf own (w_thr w) /\ t_sh t <= sumf t_sh (w_thr w) /\ req t <= sumf req (w_thr w).
Proof. intros Hi. split_and!; (eapply sumf_ge; [intros; by apply holds_nonneg | done]). Qed.

Lemma lk_own_all i t : w_thr w !! i = Some t -> 0 < own t -> sumf own (w_thr w) = own t.
Proof.
  intros Hi Ho. assert (H : forall k u, w_thr w !! k = Some u -> k <> i -> own u = 0).
  { intros k u Hk Hne. destruct (Z.lt_ge_cases 0 (own u)) as [|]; [destruct Hne; by eapply (inv_one w Hinv) |].
    destruct (holds_nonneg u); [by eapply list_elem_of_lookup_2 | lia]. }
  clear Ho. revert i Hi H. induction (w_thr w) as [| a ts IH]; intros [| i] Hi H; simplify_eq/=.
  - assert (sumf own ts = 0); [| lia]. clear -H. induction ts as [| a ts IH]; [done |]. simpl.
    rewrite (H 1%nat a) by done. rewrite IH; [done |]. intros k u Hk Hne. destruct k; [done |]. apply (H (S (S k))); done.
  - rewrite (H 0%nat a) by done. rewrite (IH i); [done | done |]. intros k u Hk Hne. apply (H (S k)); [done | lia].
Qed.

Lemma sum_pos i t : w_thr w !! i = Some t -> 0 < own t -> 0 < sumf own (w_thr w).
Proof. intros Hi Ho. destruct (lk_holds_le i t Hi) as (? & _). lia. Qed.
End Facts.

(** The sums after a step of thread [i]. *)
Definition new_sum (f : thr -> Z) (w : world) (t t' : thr) : Z := sumf f (w_thr w) - f t + f t'.

(** The holder after a step: the same, or the thread owns the lock and writes it. *)
Definition holder_ok (i : nat) (t t' : thr) (h h' : holder) : Prop :=
  h' = h /\ (0 < own t -> (h = Thread i -> 0 < t_ex t') /\ (h = LK_KERNTHREAD -> 0 < t_kex t')) \/
  0 < own t /\ (h' = NullThread \/ h' = Thread i /\ 0 < t_ex t' \/ h' = LK_KERNTHREAD /\ 0 < t_kex t').

(** The bits that sleeping threads rely on: kept, or a wakeup is to come. *)
Definition queue_ok (t t' : thr) (x s u x' s' u' : bool) : Prop :=
  waking t' \/ (x = true -> x' = true) /\ (s = true -> s' = true) /\ (u = true -> u' = true \/ 0 < waits t) /\ asks t' x' s' u'.

Lemma asks_mono t x s u x' s' u' : asks t x s u -> (x = true -> x' = true) -> (s = true -> s' = true) -> (waits t = 1 -> u = true -> u' = true) -> asks t x' s' u'.
Proof.
  unfold asks, waits. intros H Hx Hs Hu Hq. specialize (H Hq). destruct (t_pc t) as [| | | | | | | | | | | |? k | | | | | | | | | | | | | | | | | | | | | |]; try done.
  destruct k as [| c |]; [destruct (_ =? _); auto | destruct (btest c LKC_UPREQ); auto | auto].
Qed.

Lemma lk_inv_put w i t x s u e g n lkp' t' x' s' u' e' g' n' : Inv w -> w_thr w !! i = Some t -> ~ waking t ->
  lk_count (w_lock w) = lkw x s u e g n -> word_ok x s u e g n (sumf own (w_thr w)) (sumf t_sh (w_thr w)) (sumf req (w_thr w)) ->
  lk_count lkp' = lkw x' s' u' e' g' n' -> word_ok x' s' u' e' g' n' (new_sum own w t t') (new_sum t_sh w t t') (new_sum req w t t') ->
  (0 < own t' -> 0 < own t \/ sumf own (w_thr w) = 0) ->
  holder_ok i t t' (lk_lockholder (w_lock w)) (lk_lockholder lkp') -> queue_ok t t' x s u x' s' u' -> local_ok i t' lkp' ->
  Inv (put w i (lkp', t')).
Proof.
  intros I Hi Hnw Ew Hok Ew' Hok' Hone Hh Hq Hl. assert (Hlt : (i < length (w_thr w))%nat) by (by eapply lookup_lt_Some).
  assert (Hoth : forall j v, j <> i -> w_thr w !! j = Some v -> 0 < own v -> own t <= 0).
  { intros j v Hne Hj Hv. destruct (Z.lt_ge_cases 0 (own t)); [| lia]. destruct Hne. by eapply (inv_one w I). }
  constructor; cbn [w_lock w_thr put fst snd].
  - exists x', s', u', e', g', n'. split; [done |]. split; [by rewrite !(sumf_insert _ _ i t t') by done |].
    destruct Hq as [Hq | (Hx & Hs & Hu & Ha)]; [left; exists i, t'; by rewrite list_lookup_insert_eq |].
    destruct (inv_word w I) as (x0 & s0 & u0 & e0 & g0 & n0 & E0 & (Hn0 & _) & Hasks). destruct Hok as (Hn & Hok).
    rewrite Ew in E0. apply lkw_inj in E0 as (<- & <- & <- & <- & <- & <-); [| done | done].
    destruct Hasks as [(j & v & Hj & Hv) | Hasks].
    + left. exists j, v. rewrite list_lookup_insert_ne; [done |]. intros ->. rewrite Hi in Hj. by injection Hj as ->.
    + right. intros j v Hj. destruct (decide (i = j)) as [<- | Hne]; [rewrite list_lookup_insert_eq in Hj by done; by injection Hj as <- |].
      rewrite list_lookup_insert_ne in Hj by done. eapply asks_mono; [by eapply Hasks | done | done |].
      intros Hw Eu. destruct (Hu Eu) as [? | Hwt]; [done |]. exfalso. destruct Hok as (_ & _ & He0 & _ & He1 & HR & _).
      destruct (inv_local w I j v Hj) as (_ & _ & _ & Lv & _). destruct (inv_local w I i t Hi) as (_ & _ & _ & Lt & _).
      pose proof (sumf_two req (w_thr w) i j t v ltac:(intros; by apply (holds_nonneg w I)) Hne Hi Hj) as H2. unfold req in H2 at 1 2.
      subst u. destruct e; [by destruct He1 |]. destruct He0 as [_ ->]; [done |]. cbn in HR. lia.
  - intros j k a b Hj Hk Ha Hb. destruct (decide (j = i)) as [-> | Hji], (decide (k = i)) as [-> | Hki]; [done | | |].
    + rewrite list_lookup_insert_eq in Hj by done. rewrite list_lookup_insert_ne in Hk by done. injection Hj as <-.
      destruct (Hone Ha) as [? | Hz]; [pose proof (Hoth _ _ Hki Hk Hb); lia |]. pose proof (sum_pos w I _ _ Hk Hb). lia.
    + rewrite list_lookup_insert_eq in Hk by done. rewrite list_lookup_insert_ne in Hj by done. injection Hk as <-.
      destruct (Hone Hb) as [? | Hz]; [pose proof (Hoth _ _ Hji Hj Ha); lia |]. pose proof (sum_pos w I _ _ Hj Ha). lia.
    + rewrite list_lookup_insert_ne in Hj, Hk by done. by eapply (inv_one w I).
  - destruct (inv_holder w I) as [Ht Hk]. destruct (inv_local w I i t Hi) as (N1 & N2 & _). split.
    + intros j Ej. destruct Hh as [[Eh Hsame] | (Ho & [E | [[E ?] | [E _]]])]; rewrite ?E in Ej; try done.
      * rewrite Eh in Ej. destruct (Ht j Ej) as (v & Hv & Hex). destruct (decide (i = j)) as [<- | Hne].
        -- rewrite Hi in Hv. injection Hv as <-. exists t'. rewrite list_lookup_insert_eq by done. split; [done |]. apply Hsame; [unfold own; lia | done].
        -- exists v. by rewrite list_lookup_insert_ne.
      * injection Ej as <-. exists t'. by rewrite list_lookup_insert_eq.
    + intros Ej. destruct Hh as [[Eh Hsame] | (Ho & [E | [[E ?] | [E ?]]])]; rewrite ?E in Ej; try done.
      * rewrite Eh in Ej. destruct (Hk Ej) as (j & v & Hv & Hex). destruct (decide (i = j)) as [<- | Hne].
        -- rewrite Hi in Hv. injection Hv as <-. exists i, t'. rewrite list_lookup_insert_eq by done. split; [done |]. apply Hsame; [unfold own; lia | done].
        -- exists j, v. by rewrite list_lookup_insert_ne.
      * exists i, t'. by rewrite list_lookup_insert_eq.
  - intros j v Hj. destruct (decide (i = j)) as [<- | Hne]; [rewrite list_lookup_insert_eq in Hj by done; by injection Hj as <- |].
    rewrite list_lookup_insert_ne in Hj by done. eapply knows_stable; [by apply (inv_local w I) |]. intros Hv.
    pose proof (Hoth j v ltac:(done) Hj Hv). destruct Hh as [[-> _] | [? _]]; [done | lia].
Qed.
