(* ===== verification/LockmgrSteps.v ===== *)
(** * The lock manager: every step keeps the invariant *)

From stdpp Require Import prelude list strings.
From S2P Require Import Prelude.
From S2P Require Import Sums.
From S2P Require Import Lockmgr.
From S2P Require Import LockmgrInv.
Open Scope Z_scope.

(** The holds fit into the 27 bits of the count. *)
Definition bounded (w : world) : Prop := sumf own (w_thr w) + sumf t_sh (w_thr w) < 2 ^ 27.

(** The one assertion that can fail, in the release that undo_upreq asks for. *)
Definition undo_panic {A} : outcome A := Fault (Panic "lockmgr: not exclusive lock holder unlocking").
Definition undoing (t : thr) : Prop := match t_pc t with RelHolder l _ => undo l = true | _ => False end.

Section Step.
Context (w : world) (i : nat) (t : thr) (x s u e g : bool) (n : Z).
Hypothesis Hinv : Inv w.
Hypothesis Hi : w_thr w !! i = Some t.
Hypothesis Hw : lk_count (w_lock w) = lkw x s u e g n.
Hypothesis Hok : word_ok x s u e g n (sumf own (w_thr w)) (sumf t_sh (w_thr w)) (sumf req (w_thr w)).
Hypothesis Hnw : ~ waking t.

Definition keeps (r : local) : Prop :=
  (exists lkp' t', r = Done (lkp', t') /\ (bounded (put w i (lkp', t')) -> Inv (put w i (lkp', t')))) \/ (r = undo_panic /\ undoing t).

Lemma lk_n_range : 0 <= n < 2 ^ 27.
Proof. by destruct Hok. Qed.

Lemma lk_local_t : local_ok i t (w_lock w).
Proof. by apply (inv_local w Hinv). Qed.

(** What the sums say about the thread. *)
Lemma numbers : 0 <= t_ex t /\ 0 <= t_kex t /\ 0 <= t_sh t /\ t_ex t + t_kex t <= sumf own (w_thr w) /\ t_sh t <= sumf t_sh (w_thr w) /\
  req t <= sumf req (w_thr w) /\ 0 <= sumf req (w_thr w) /\ (0 < t_ex t + t_kex t -> sumf own (w_thr w) = t_ex t + t_kex t).
Proof.
  destruct lk_local_t as (? & ? & ? & ? & _). destruct (lk_holds_le w Hinv i t Hi) as (? & ? & ?). destruct (lk_sums_nonneg w Hinv) as (? & ? & ?).
  split_and!; try done. exact (lk_own_all w Hinv i t Hi).
Qed.

Lemma keeps_num lkp' t' dex dkex dsh dr x' s' u' e' g' n' :
  lk_count lkp' = lkw x' s' u' e' g' n' ->
  t_ex t' = t_ex t + dex -> t_kex t' = t_kex t + dkex -> t_sh t' = t_sh t + dsh -> req t' = req t + dr ->
  (sumf own (w_thr w) + dex + dkex + (sumf t_sh (w_thr w) + dsh) < 2 ^ 27 ->
   word_ok x' s' u' e' g' n' (sumf own (w_thr w) + dex + dkex) (sumf t_sh (w_thr w) + dsh) (sumf req (w_thr w) + dr)) ->
  (0 < t_ex t + t_kex t + dex + dkex -> 0 < t_ex t + t_kex t \/ sumf own (w_thr w) = 0) ->
  holder_ok i t t' (lk_lockholder (w_lock w)) (lk_lockholder lkp') -> queue_ok t t' x s u x' s' u' -> local_ok i t' lkp' ->
  keeps (mret (lkp', t')).
Proof.
  intros Ew E1 E2 E3 E4 Hok' Ho Hh Hq Hl. left. exists lkp', t'. split; [done |]. intros Hb. unfold bounded in Hb. cbn [w_thr put snd] in Hb.
  rewrite !(sumf_insert _ _ i t t') in Hb by done.
  assert (Eo : own t' = own t + dex + dkex) by (unfold own; lia).
  eapply (lk_inv_put w i t x s u e g n lkp' t' x' s' u' e' g' n'); try done.
  - unfold new_sum. rewrite Eo, E3, E4.
    replace (sumf own (w_thr w) - own t + (own t + dex + dkex)) with (sumf own (w_thr w) + dex + dkex) by lia.
    replace (sumf t_sh (w_thr w) - t_sh t + (t_sh t + dsh)) with (sumf t_sh (w_thr w) + dsh) by lia.
    replace (sumf req (w_thr w) - req t + (req t + dr)) with (sumf req (w_thr w) + dr) by lia. apply Hok'. lia.
  - rewrite Eo. unfold own. apply Ho.
Qed.

(** More holds than fit. *)
Lemma keeps_overflow lkp' t' dex dsh : t_ex t' + t_kex t' = t_ex t + t_kex t + dex -> t_sh t' = t_sh t + dsh ->
  2 ^ 27 <= sumf own (w_thr w) + dex + (sumf t_sh (w_thr w) + dsh) -> keeps (mret (lkp', t')).
Proof.
  intros E1 E2 H. assert (Eo : own t' = own t + dex) by (unfold own; lia). left. exists lkp', t'. split; [done |]. intros Hb. unfold bounded in Hb. cbn [w_thr put snd] in Hb. rewrite !(sumf_insert _ _ i t t') in Hb by done. lia.
Qed.

(** A step that does not change the holder. *)
Lemma same_holder t' h : t_ex t' >= t_ex t -> t_kex t' >= t_kex t -> h = lk_lockholder (w_lock w) -> holder_ok i t t' (lk_lockholder (w_lock w)) h.
Proof.
  intros E1 E2 ->. left. split; [done |]. intros Ho. destruct (inv_holder w Hinv) as [H1 H2]. split; intros E.
  - destruct (H1 i E) as (v & Hv & ?). rewrite Hi in Hv. injection Hv as <-. lia.
  - destruct (H2 E) as (j & v & Hv & ?). assert (j = i) as ->.
    { eapply (inv_one w Hinv); [exact Hv | exact Hi | unfold own | done]. destruct (inv_local w Hinv j v Hv). lia. }
    rewrite Hi in Hv. injection Hv as <-. lia.
Qed.

(** A step that changes neither the lock nor the holds. *)
Lemma lk_keeps_stay t' : t_ex t' = t_ex t -> t_kex t' = t_kex t -> t_sh t' = t_sh t -> req t' = req t -> asks t' x s u -> local_ok i t' (w_lock w) ->
  keeps (mret (w_lock w, t')).
Proof.
  intros E1 E2 E3 E4 Ha Hl. eapply (keeps_num _ _ 0 0 0 0); try done; try lia.
  - intros _. by rewrite !Z.add_0_r.
  - apply same_holder; done || lia.
  - right. split_and!; try done. by left.
Qed.

Lemma local_upd t' lkp' : t_ex t' = t_ex t -> t_kex t' = t_kex t -> 0 <= t_sh t' -> 0 <= t_lost t' -> lk_lockholder lkp' = lk_lockholder (w_lock w) ->
  (inflight t' = false -> inflight t = false) -> knows i t' lkp' -> local_ok i t' lkp'.
Proof.
  intros E1 E2 H3 H4 E5 Hf Hk. destruct lk_local_t as (L1 & L2 & L3 & L4 & L5 & _). unfold local_ok, otd_ok in *. rewrite E1, E2, E5.
  split_and!; try done. intros H. by apply L5, Hf.
Qed.

Lemma local_same t' : t_ex t' = t_ex t -> t_kex t' = t_kex t -> t_sh t' = t_sh t -> t_lost t' = t_lost t ->
  (inflight t' = false -> inflight t = false) -> knows i t' (w_lock w) -> local_ok i t' (w_lock w).
Proof. intros E1 E2 E3 E4. destruct lk_local_t as (L1 & L2 & L3 & L4 & _). apply local_upd; try done; lia. Qed.

Lemma lk_keeps_cas count new (f : lock -> local) r :
  (lk_count (w_lock w) = count -> keeps (f (set_count (w_lock w) new))) -> keeps r ->
  keeps (match cmpset (w_lock w) count new with Some lkp => f lkp | None => r end).
Proof. intros Hf Hr. unfold cmpset. destruct (Z.eqb_spec (lk_count (w_lock w)) count); auto. Qed.

(** The word that was read is the word that is there. *)
Lemma seen_same count P : seen count P -> lk_count (w_lock w) = count -> count = lkw x s u e g n /\ P x s u e g n.
Proof.
  intros (x1 & s1 & u1 & e1 & g1 & n1 & -> & Hn1 & HP) E. rewrite Hw in E. split; [done |].
  apply lkw_inj in E as (-> & -> & -> & -> & -> & ->); [done | apply lk_n_range | done].
Qed.

Lemma lk_seen_now (P : bool -> bool -> bool -> bool -> bool -> Z -> Prop) : P x s u e g n -> seen (lkw x s u e g n) P.
Proof. intros H. exists x, s, u, e, g, n. split; [done |]. split; [apply lk_n_range | done]. Qed.

End Step.

Section Steps.
Context (w : world) (i : nat) (t : thr) (x s u e g : bool) (n : Z).
Hypothesis Hinv : Inv w.
Hypothesis Hi : w_thr w !! i = Some t.
Hypothesis Hw : lk_count (w_lock w) = lkw x s u e g n.
Hypothesis Hok : word_ok x s u e g n (sumf own (w_thr w)) (sumf t_sh (w_thr w)) (sumf req (w_thr w)).
Hypothesis Hnw : ~ waking t.

#[local] #[warnings="-notation-for-abbreviation"] Notation keeps := (keeps w i t).

Lemma type_release l : type_of (to_release l) = LK_RELEASE.
Proof. done. Qed.

Ltac know Hpc K := pose proof (lk_local_t w i t Hinv Hi) as (_ & _ & _ & _ & _ & K); unfold knows in K; rewrite Hpc in K.

(** Go on at another place, or return, with nothing changed. *)
Ltac stay Hpc :=
  eapply (lk_keeps_stay w i t); [eassumption | eassumption | eassumption | eassumption | eassumption | done | done | done | unfold req, waits; rewrite Hpc; cbn; rewrite ?type_release; cbn; try done; try lia | unfold asks; try done |
    eapply (local_same w i t); [eassumption | eassumption | done | done | done | done | unfold inflight; rewrite Hpc; try done | unfold knows; cbn]].

(** *** The switch *)

Lemma upgrade_ok l : t_pc t = Again l -> is_up (type_of l) -> exists p, upgrade l (lkw x s u e g n) = Done p /\ keeps (mret (w_lock w, at_pc t p)).
Proof.
  intros Hpc Hty. know Hpc C. destruct (call_up _ _ C Hty) as (Hop & Hm & Her & Hu & Hh). pose proof (lk_n_range _ _ _ _ _ _ _ Hok) as Hrange. pose proof (numbers w i t Hinv Hi) as (N1 & N2 & N3 & N4 & N5 & N6 & N7 & N8).
  assert (Hwt : b2z (type_of l =? LK_WAITUPGRADE) = 0) by (destruct Hty as [-> | ->]; done). pose proof Hok as (_ & Hn & He1 & He0 & Hg & Heu & HR & Hz).
  unfold upgrade. rewrite lkw_only, lkw_excl, lkw_mask by done.
  destruct e.
  - rewrite andb_false_r. cbn [andb]. eexists. split; [done |]. stay Hpc. split_and!; try done. destruct Heu; [done |]. lia.
  - rewrite andb_true_r. destruct He0 as [Hs ->]; [done |]. cbn in Hn. assert (Hsh : 0 < t_sh t) by lia.
    destruct (negb u && (n =? 1)) eqn:E1.
    + eexists. split; [done |]. stay Hpc. apply andb_true_iff in E1 as [E1%negb_true_iff E2%Z.eqb_eq].
      split_and!; try done. eapply lk_seen_now; [exact Hok |]. done.
    + destruct (Z.eqb_spec n 0); [lia |]. destruct (btest (extflags l) LK_NOWAIT).
      * eexists. split; [done |]. stay Hpc. do 5 right. left. split_and!; try done; unfold own; cbn; lia.
      * eexists. split; [done |]. stay Hpc. split_and!; try done. eapply lk_seen_now; [exact Hok |]. split_and!; try done; [lia |].
        intros ->. destruct (Z.eqb_spec n 1); [done | lia].
Qed.

Ltac num := pose proof (lk_n_range _ _ _ _ _ _ _ Hok) as Hrange; pose proof (numbers w i t Hinv Hi) as (N1 & N2 & N3 & N4 & N5 & N6 & N7 & N8);
  pose proof Hok as (_ & Hn & He1 & He0 & Hg & Heu & HR & Hz).

Lemma one_kind : inflight t = false -> 0 < t_ex t -> t_kex t = 0.
Proof.
  intros Hf He. destruct (lk_local_t w i t Hinv Hi) as (_ & ? & _ & _ & Ho & _). destruct (Ho Hf) as [H1 H2]. destruct (Z.lt_ge_cases 0 (t_kex t)); [| lia].
  rewrite H1 in H2 by done. by specialize (H2 ltac:(done)).
Qed.

(** The type of a request, as the switch sees it. *)
Lemma again_ok l : t_pc t = Again l -> keeps (again l (w_lock w) t).
Proof.
  intros Hpc. know Hpc C. num. assert (Hkex : undo l = false -> 0 < t_ex t -> t_kex t = 0) by (intros; apply one_kind; [unfold inflight; by rewrite Hpc | done]). unfold again. rewrite Hw. unfold switch.
  assert (Hup : is_up (type_of l) -> keeps (upgrade l (lkw x s u e g n) ≫= fun p => mret (w_lock w, at_pc t p))).
  { intros Hty. destruct (upgrade_ok l Hpc Hty) as (p & -> & Hk). by rewrite bind_Done_l. }
  destruct (Z.eqb_spec (type_of l) LK_SHARED) as [Ety | N0].
  { destruct (call_shared _ _ C Ety) as (Hop & Hm & Her & Hu & Hrec). assert (Hwt : b2z (type_of l =? LK_WAITUPGRADE) = 0) by (by rewrite Ety).
    rewrite lkw_free_shared by done. destruct (x || u || e) eqn:Eb; cbn [negb]; rewrite bind_Done_l; stay Hpc; split_and!; try done; (eapply lk_seen_now; [exact Hok |]).
    - intros Hex. destruct e; [done |]. destruct He0; [done |]. lia.
    - by apply orb_false_iff in Eb as [_ ->]. }
  destruct (Z.eqb_spec (type_of l) LK_EXCLUSIVE) as [Ety | N1'].
  { assert (Hwt : b2z (type_of l =? LK_WAITUPGRADE) = 0) by (by rewrite Ety). destruct (call_exclusive _ _ C Ety) as (Her & Hu & Hrec & _).
    destruct (Z.eqb_spec (lkw x s u e g n) 0) as [Ez | Ez]; rewrite bind_Done_l; stay Hpc; split_and!; try done. eapply lk_seen_now; [exact Hok |].
    intros Hex. destruct e; [done |]. destruct He0; [done |]. lia. }
  destruct (Z.eqb_spec (type_of l) LK_DOWNGRADE) as [Ety | N2'].
  { assert (Hwt : b2z (type_of l =? LK_WAITUPGRADE) = 0) by (by rewrite Ety). destruct (call_down _ _ C Ety) as (Hop & Hm & Her & Hu & Hex).
    rewrite bind_Done_l. stay Hpc. split_and!; try done. eapply lk_seen_now; [exact Hok |]. destruct e; [| destruct He0; [done |]; lia].
    destruct Heu as [Hsh _]; [done |]. destruct g; [specialize (Hg eq_refl); lia |]. cbn in Hn. split; [done |]. rewrite Hn, Hsh. specialize (Hkex Hu ltac:(lia)). lia. }
  destruct (Z.eqb_spec (type_of l) LK_EXCLUPGRADE) as [Ety | N3'].
  { rewrite lkw_upreq by done. destruct u; [| apply Hup; by right]. assert (Hwt : b2z (type_of l =? LK_WAITUPGRADE) = 0) by (by rewrite Ety).
    destruct (call_up _ _ C (or_intror Ety)) as (Hop & Hm & Her & Hu & Hh). destruct e; [by destruct Heu |]. destruct He0 as [Hs _]; [done |].
    rewrite bind_Done_l. stay Hpc. do 5 right. left. split_and!; try done; unfold own; cbn; lia. }
  destruct (Z.eqb_spec (type_of l) LK_UPGRADE) as [Ety | N4']; [apply Hup; by left |].
  destruct (Z.eqb_spec (type_of l) LK_WAITUPGRADE) as [Ety | N5'].
  { assert (Hwt : b2z (type_of l =? LK_WAITUPGRADE) = 1) by (by rewrite Ety). destruct (call_wait _ _ C Ety) as (Hop & Hm & Her & Hu & Hh). rewrite lkw_upgrant by done.
    destruct g; rewrite bind_Done_l; stay Hpc; split_and!; try done; (eapply lk_seen_now; [exact Hok |]); [| done]. split; [done |]. destruct e; [done |]. by destruct He0. }
  destruct (Z.eqb_spec (type_of l) LK_RELEASE) as [Ety | N6'].
  { assert (Hwt : b2z (type_of l =? LK_WAITUPGRADE) = 0) by (by rewrite Ety). rewrite lkw_mask, lkw_excl by done.
    assert (Hh : 0 < t_ex t + t_kex t + t_sh t) by (unfold own in *; destruct (call_release _ _ C Ety) as [? | [? | ?]]; lia).
    destruct (Z.eqb_spec n 0); [pose proof (b2z_bounds g); lia |]. destruct e; rewrite bind_Done_l.
    - destruct Heu as [Hsh ->]; [done |]. stay Hpc. split_and!; try done; [unfold own; cbn; lia |]. eapply lk_seen_now; [exact Hok |]. split_and!; try done.
      unfold own. cbn. destruct g; [specialize (Hg eq_refl); lia |]. cbn in Hn. lia.
    - destruct He0 as [Hs ->]; [done |]. assert (Hu : undo l = false) by (unfold own in *; destruct (call_release _ _ C Ety) as [? | [? | ?]]; [tauto | tauto | lia]).
      stay Hpc. split_and!; try done; try (unfold own; cbn; lia). eapply lk_seen_now; [exact Hok |]. split; [done | lia]. }
  exfalso. destruct C as [C | [C | [C | [C | [C | [C | C]]]]]]; lk_types; lia.
Qed.

(** *** LK_SHARED and LK_EXCLUSIVE *)

Ltac wok := let H := fresh in intros H; unfold word_ok; clear Hinv Hi Hw Hnw Hok;
  repeat match goal with Hc : call_ok _ _ |- _ => clear Hc | Hc : contract _ _ |- _ => clear Hc | Hc : seen _ _ |- _ => clear Hc | Hc : up_asked _ _ |- _ => clear Hc | Hc : moved _ _ _ _ |- _ => clear Hc end;
  destruct u, e, g; first [done | cbn in *; split_and!; intros; intuition (done || lia) | destruct x, s; cbn in *; split_and!; intros; intuition (done || lia)].
(** A step that changes the word to another one; what is left are the goals that do not follow from the numbers alone. *)
Ltac change_word Hpc dex dkex dsh dr x' s' u' e' g' n' :=
  eapply (keeps_num w i t _ _ _ _ _ _ Hinv Hi Hw Hok Hnw _ _ dex dkex dsh dr x' s' u' e' g' n');
  [cbn; try done | cbn; lia | cbn; lia | cbn; lia | unfold req, waits; rewrite Hpc; cbn; try lia | try solve [wok] | try (cbn; lia) |
   try (apply same_holder; cbn; done || lia) | try solve [right; split_and!; try done; by left] | ].
(** The thread after a step that does not change its exclusive holds. *)
Ltac upd Hpc :=
  eapply (local_upd w i t Hinv Hi); [cbn; lia | cbn; lia | cbn; try lia | cbn; try lia | done | unfold inflight; rewrite Hpc; try done | unfold knows; cbn];
  destruct (lk_local_t w i t Hinv Hi) as (? & ? & ? & ? & _); try lia.
(** The contract of the operation that is [Hop]. *)
Ltac contr :=
  unfold contract, moved in *; cbn in *; split_and!; intros; try (exfalso; lk_types; lia).

Lemma cas_shared_ok l c : t_pc t = CasShared l c -> keeps (cas_shared l c (w_lock w) t).
Proof.
  intros Hpc. know Hpc K. destruct K as (C & Ety & Hs). destruct (call_shared _ _ C Ety) as (Hop & Hm & Her & Hu & Hrec).
  assert (Hwt : b2z (type_of l =? LK_WAITUPGRADE) = 0) by (by rewrite Ety). unfold cas_shared. apply lk_keeps_cas; [| stay Hpc; done].
  intros E. destruct (seen_same w x s u e g n Hw Hok _ _ Hs E) as [-> Ee]. num. destruct (He0 Ee) as [HS Eg].
  destruct (Z.lt_ge_cases (n + 1) (2 ^ 27)).
  - rewrite lkw_succ by done. change_word Hpc 0 0 1 0 x s u e g (n + 1).
    upd Hpc. rewrite Her. contr. left. split_and!; lia.
  - apply (keeps_overflow _ _ _ Hi _ _ 0 1); cbn; try lia. rewrite Eg in Hn. cbn in Hn. lia.
Qed.

Lemma recurse_ok l c : (t_pc t = ShHolder l c /\ type_of l = LK_SHARED \/ t_pc t = ExHolder l c /\ type_of l = LK_EXCLUSIVE) -> call_ok l t ->
  seen c (fun x s u e g n => 0 < t_ex t -> e = true) -> lk_lockholder (w_lock w) = Thread i -> keeps (recurse l c (w_lock w) t).
Proof.
  intros Hpc C (x1 & s1 & u1 & e1 & g1 & n1 & -> & Hn1 & He) Hh. destruct (inv_holder w Hinv) as [H1 _]. destruct (H1 i Hh) as (v & Hv & Hex). rewrite Hi in Hv. injection Hv as <-.
  unfold recurse, KKASSERT. rewrite lkw_excl by done. rewrite (He Hex), bind_Done_l.
  destruct Hpc as [[Hpc Ety] | [Hpc Ety]].
  - destruct (call_shared _ _ C Ety) as (Hop & Hm & Her & Hu & Hrec). destruct (Hrec Hex) as [-> | Hnw']; cbn [negb]; [stay Hpc; split_and!; try done; by left |].
    destruct (btest (extflags l) LK_CANRECURSE); cbn [negb]; [stay Hpc; split_and!; try done; by left |]. rewrite Hnw'. stay Hpc. contr. split_and!; lia.
  - destruct (call_exclusive _ _ C Ety) as (Her & Hu & Hrec & Hcase). destruct (Hrec Hex) as [-> | Hnw']; cbn [negb]; [stay Hpc; split_and!; try done; by right |].
    destruct (btest (extflags l) LK_CANRECURSE); cbn [negb]; [stay Hpc; split_and!; try done; by right |]. rewrite Hnw'. stay Hpc.
    destruct Hcase as [[Hop Hm] | (_ & _ & ?)]; [| lia]. contr. split_and!; lia.
Qed.

Lemma sh_holder_ok l c : t_pc t = ShHolder l c -> keeps (sh_holder i l c (w_lock w) t).
Proof.
  intros Hpc. know Hpc K. destruct K as (C & Ety & Hs). destruct (call_shared _ _ C Ety) as (Hop & Hm & Her & Hu & Hrec). unfold sh_holder.
  destruct (decide _) as [Hh | Hh]; [apply recurse_ok; try done; by left |]. destruct Hs as (x1 & s1 & u1 & e1 & g1 & n1 & -> & Hn1 & He).
  assert (Hb : btest (lkw x1 s1 u1 e1 g1 n1) (if t_deadlk t then LKC_EXCL else Z.lor (Z.lor LKC_EXCL LKC_EXREQ) LKC_UPREQ) = if t_deadlk t then e1 else x1 || u1 || e1)
    by (destruct (t_deadlk t); by rewrite ?lkw_excl, ?lkw_blocked).
  cbv zeta. rewrite Hb. clear Hb. destruct (if t_deadlk t then e1 else _) eqn:Eb.
  - destruct (btest (extflags l) LK_NOWAIT); stay Hpc; [contr; split_and!; lia |]. split_and!; try done.
    exists x1, s1, u1, e1, g1, n1. split; [done |]. split; [done |]. revert Eb. destruct (t_deadlk t); [| done]. intros ->. apply orb_true_r.
  - stay Hpc. split_and!; try done. exists x1, s1, u1, e1, g1, n1. split; [done |]. split; [done |]. revert Eb. destruct (t_deadlk t); [done |]. by intros [_ ->]%orb_false_iff.
Qed.

Lemma add_one_ok l : t_pc t = AddOne l -> keeps (add_one l (w_lock w) t).
Proof.
  intros Hpc. know Hpc K. destruct K as (C & Hty & Hex). num. unfold add_one. rewrite Hw. assert (Hkex : t_kex t = 0) by (apply one_kind; [unfold inflight; by rewrite Hpc | done]).
  destruct (Z.lt_ge_cases (n + 1) (2 ^ 27)).
  - rewrite lkw_succ by done. change_word Hpc 1 0 0 0 x s u e g (n + 1).
    destruct (lk_local_t w i t Hinv Hi) as (_ & _ & _ & L4 & L5 & _). split_and!; cbn; try done; try lia.
      * intros _. destruct L5 as [L5 L5']; [unfold inflight; by rewrite Hpc |]. split; cbn; intros; [by apply L5 | lia].
      * unfold knows. cbn. destruct Hty as [Ety | Ety].
        -- destruct (call_shared _ _ C Ety) as (Hop & Hm & -> & Hu & Hrec). contr. right. lia.
        -- destruct (call_exclusive _ _ C Ety) as (-> & Hu & Hrec & [[Hop Hm] | (_ & _ & ?)]); [| lia]. contr. lia.
  - apply (keeps_overflow _ _ _ Hi _ _ 1 0); cbn; try lia. destruct g; [specialize (Hg eq_refl); lia |]. cbn in Hn. lia.
Qed.

(** tsleep_interlock *)
Lemma interlock_ok p : match t_pc t, p with
    | ShInterlock l c, ShCas l' c' | ExInterlock l c, ExCas l' c' | UpInterlock l c, UpCas2 l' c' | WuInterlock l c, WuCas2 l' c' => l' = l /\ c' = c
    | _, _ => False
    end -> keeps (interlock p (w_lock w) t).
Proof.
  intros Hp. destruct (t_pc t) eqn:Hpc; try done; destruct p; try done; destruct Hp as [-> ->]; know Hpc K; unfold interlock; stay Hpc; exact K.
Qed.

Lemma lk_sh_cas_ok l c : t_pc t = ShCas l c -> keeps (sh_cas l c (w_lock w) t).
Proof.
  intros Hpc. know Hpc K. destruct K as (C & Ety & Hs). assert (Hwt : b2z (type_of l =? LK_WAITUPGRADE) = 0) by (by rewrite Ety). unfold sh_cas.
  apply lk_keeps_cas; [| stay Hpc; done]. intros E. destruct (seen_same w x s u e g n Hw Hok _ _ Hs E) as [-> Eb]. num. rewrite lkw_set_shreq by done.
  change_word Hpc 0 0 0 0 x true u e g n.
  - right. split_and!; try done; [by left |]. unfold asks. cbn. by rewrite Ety.
  - upd Hpc. split; [done | by left].
Qed.

Lemma cas_excl_ok l c : t_pc t = CasExcl l c -> keeps (cas_excl l c (w_lock w) t).
Proof.
  intros Hpc. know Hpc K. destruct K as (C & Ety & ->). assert (Hwt : b2z (type_of l =? LK_WAITUPGRADE) = 0) by (by rewrite Ety). unfold cas_excl.
  apply lk_keeps_cas; [| stay Hpc; done]. intros E. rewrite Hw in E. num. change 0 with (lkw false false false false false 0) in E.
  apply lkw_inj in E; [| done | lia]. decompose [and] E. assert (Hz0 : sumf own (w_thr w) = 0 /\ sumf t_sh (w_thr w) = 0 /\ b2z g = 0 /\ b2z u = 0) by (subst; cbn in *; lia).
  change (Z.lor LKC_EXCL (u32 (0 + 1))) with (lkw false false false true false 1). change_word Hpc 1 0 0 0 false false false true false 1.
  - subst x s u. right. split_and!; done.
  - destruct (lk_local_t w i t Hinv Hi) as (_ & _ & _ & L4 & L5 & _). split_and!; cbn; try done; try lia. unfold knows. cbn.
    destruct (call_exclusive _ _ C Ety) as (-> & Hu & Hrec & Hcase). split_and!; try done; try lia. unfold moved in *. cbn.
    destruct Hcase as [[Hop Hm] | (Hop & Hm & _)]; [left | right]; (split; [done | lia]).
Qed.

Lemma set_holder_ok l : t_pc t = SetHolder l -> keeps (set_holder i l (w_lock w) t).
Proof.
  intros Hpc. know Hpc K. destruct K as (Her & Hex & Hkex & Hc). num. unfold set_holder. destruct (lk_local_t w i t Hinv Hi) as (_ & _ & _ & L4 & _).
  change_word Hpc 0 0 0 0 x s u e g n.
  - right. split; [unfold own; lia |]. right; left. done.
  - split_and!; cbn; try done.
    + intros _. split; [done |]. cbn. lia.
    + rewrite Her. unfold knows. cbn. destruct Hc as [[Hop Hm] | [Hop Hm]]; contr; lia.
Qed.

Lemma ex_holder_ok l c : t_pc t = ExHolder l c -> keeps (ex_holder i l c (w_lock w) t).
Proof.
  intros Hpc. know Hpc K. destruct K as (C & Ety & Hc & Hs). destruct (call_exclusive _ _ C Ety) as (Her & Hu & Hrec & Hcase). unfold ex_holder.
  destruct (decide _) as [Hh | Hh]; [apply recurse_ok; try done; by right |]. destruct (btest (extflags l) LK_NOWAIT); stay Hpc.
  - destruct Hcase as [[Hop Hm] | (Hop & Hm & _)]; contr; lia.
  - split_and!; try done. destruct Hs as (x1 & s1 & u1 & e1 & g1 & n1 & -> & Hn1 & _). by exists x1, s1, u1, e1, g1, n1.
Qed.

Lemma ex_cas_ok l c : t_pc t = ExCas l c -> keeps (ex_cas l c (w_lock w) t).
Proof.
  intros Hpc. know Hpc K. destruct K as (C & Ety & Hc & Hs). assert (Hwt : b2z (type_of l =? LK_WAITUPGRADE) = 0) by (by rewrite Ety). unfold ex_cas.
  apply lk_keeps_cas; [| stay Hpc; done]. intros E. destruct (seen_same w x s u e g n Hw Hok _ _ Hs E) as [-> _]. num. rewrite lkw_set_exreq by done.
  assert (n <> 0). { intros E0. destruct (Hz E0) as (Ex & Es & Eu). pose proof (b2z_bounds g). destruct e eqn:Ee; [specialize (He1 eq_refl); lia |]. destruct He0 as [_ Eg]; [done |]. apply Hc. by rewrite Ex, Es, Eu, Eg, E0. }
  change_word Hpc 0 0 0 0 true s u e g n.
  - right. split_and!; try done; [by left |]. unfold asks. cbn. by rewrite Ety.
  - upd Hpc. split; [done | by right].
Qed.

(** *** tsleep *)

Lemma slept_ok l k err : t_pc t = Sleep l k -> keeps (slept l k err (w_lock w) t).
Proof.
  intros Hpc. know Hpc K. destruct (lk_local_t w i t Hinv Hi) as (_ & _ & _ & L4 & _).
  assert (Hfail : forall err', err' <> 0 -> keeps (mret (w_lock w, sleep_failed l k err' (set_onq t false)))).
  { intros err' He. destruct k as [| c |]; cbn [sleep_failed].
    - destruct K as [C [Ety | Ety]]; stay Hpc.
      + destruct (call_shared _ _ C Ety) as (Hop & Hm & _). contr. destruct (Z.eqb_spec err' 0); [done | lia].
      + destruct (call_exclusive _ _ C Ety) as (_ & _ & _ & [[Hop Hm] | (Hop & Hm & _)]); contr; (destruct (Z.eqb_spec err' 0); [done | lia]).
    - destruct K as ((Hop & Hm & Hu & Hex) & Her & Hs). destruct (btest c LKC_UPREQ) eqn:Ec.
      + stay Hpc; [rewrite Ec; cbn; lia |]. contr. destruct (Z.eqb_spec err' 0); [done | lia].
      + eapply (lk_keeps_stay w i t); try eassumption; try done; [unfold req, waits; rewrite Hpc; cbn; rewrite Ec; cbn; lia |]. upd Hpc. contr. destruct (Z.eqb_spec err' 0); [done | lia].
    - destruct K as [C Ety]. destruct (call_wait _ _ C Ety) as (Hop & Hm & Her & Hu & Hh). stay Hpc. done. }
  unfold slept. destruct (Z.eqb_spec err 0); cbn [negb]; [| by apply Hfail]. destruct (btest (extflags l) LK_SLEEPFAIL); [by apply Hfail |].
  destruct k as [| c |].
  - destruct K as [C Hty]. assert (Hwt : b2z (type_of l =? LK_WAITUPGRADE) = 0) by (by destruct Hty as [-> | ->]). stay Hpc. done.
  - destruct K as ((Hop & Hm & Hu & Hex) & Her & Hs). destruct (btest c LKC_UPREQ) eqn:Ec; stay Hpc; rewrite ?Ec; try done; do 2 right; left; split_and!; try done; [by left | by right].
  - destruct K as [C Ety]. assert (Hwt : b2z (type_of l =? LK_WAITUPGRADE) = 1) by (by rewrite Ety). stay Hpc. done.
Qed.

(** *** LK_DOWNGRADE *)

Lemma dg_holder_ok l c : t_pc t = DgHolder l c -> keeps (dg_holder i l c (w_lock w) t).
Proof.
  intros Hpc. know Hpc K. destruct K as (C & Ety & Hs). destruct (call_down _ _ C Ety) as (Hop & Hm & Her & Hu & Hex). unfold dg_holder.
  destruct (lk_local_t w i t Hinv Hi) as (_ & _ & _ & _ & L5 & _). destruct L5 as [L5 _]; [unfold inflight; by rewrite Hpc |]. specialize (L5 ltac:(lia)).
  pose proof Hs as (x1 & s1 & u1 & e1 & g1 & n1 & -> & Hn1 & -> & ->). rewrite bool_decide_true, lkw_excl_one by done. cbn [negb orb andb Z.eqb Pos.eqb]. stay Hpc. by split_and!.
Qed.

(** The owner of the lock writes the holder. *)
Lemma keeps_holder h p : waits (at_pc t p) = waits t -> match p with Sleep _ _ | WakeUp _ _ => False | _ => True end -> 0 < own t ->
  (h = NullThread /\ inflight (at_pc t p) = true \/ otd_ok i t h) -> knows i (at_pc t p) (set_lockholder (w_lock w) h) -> keeps (mret (set_lockholder (w_lock w) h, at_pc t p)).
Proof.
  intros Hwt Hp Ho Hh Hk. num. destruct (lk_local_t w i t Hinv Hi) as (_ & _ & _ & L4 & _).
  eapply (keeps_num w i t x s u e g n Hinv Hi Hw Hok Hnw _ _ 0 0 0 0 x s u e g n); cbn; try done; try lia.
  - unfold req. cbn. rewrite Hwt. lia.
  - intros _. by rewrite !Z.add_0_r.
  - right. split; [done |]. cbn. destruct Hh as [[-> _] | [H1 H2]]; [by left |]. unfold own in Ho. destruct (Z.lt_ge_cases 0 (t_ex t)); [right; left; auto | right; right; split; [apply H2 |]; lia].
  - right. split_and!; try done; [by left |]. unfold asks. cbn. by destruct p.
  - split_and!; cbn; try done. intros Hf. destruct Hh as [[_ ?] | ?]; [congruence | done].
Qed.

Lemma dg_null_ok l c otd : t_pc t = DgNull l c otd -> keeps (dg_null l c otd (w_lock w) t).
Proof.
  intros Hpc. know Hpc K. destruct K as (C & Ety & Hs & ->). destruct (call_down _ _ C Ety) as (Hop & Hm & Her & Hu & Hex). num.
  assert (Hkex : t_kex t = 0) by (apply one_kind; [unfold inflight; by rewrite Hpc | lia]). unfold dg_null.
  apply keeps_holder; try done; [unfold waits; by rewrite Hpc | unfold own; lia | by left].
Qed.

Lemma dg_restore_ok l otd : t_pc t = DgRestore l otd -> keeps (dg_restore l otd (w_lock w) t).
Proof.
  intros Hpc. know Hpc K. destruct K as (C & Ety & -> & Hkex). destruct (call_down _ _ C Ety) as (Hop & Hm & Her & Hu & Hex). num. unfold dg_restore.
  apply keeps_holder; try done; [unfold waits; rewrite Hpc; cbn; by rewrite Ety | unfold own; lia |]. right. split; [done | lia].
Qed.

Lemma dg_cas_ok l c otd : t_pc t = DgCas l c otd -> keeps (dg_cas l c otd (w_lock w) t).
Proof.
  intros Hpc. know Hpc K. destruct K as (C & Ety & Hs & -> & Hh & Hkex). destruct (call_down _ _ C Ety) as (Hop & Hm & Her & Hu & Hex). unfold dg_cas.
  apply lk_keeps_cas; [| stay Hpc; done]. intros E. destruct (seen_same w x s u e g n Hw Hok _ _ Hs E) as [-> [Ee En]]. num. rewrite lkw_clear_excl, lkw_shreq by done.
  destruct (Heu Ee) as [Hsh Eu]. assert (Eg : g = false) by (destruct g; [specialize (Hg eq_refl); lia | done]). destruct (lk_local_t w i t Hinv Hi) as (L1 & L2 & L3 & L4 & _).
  destruct s eqn:Es; change_word Hpc (-1) 0 1 0 x false u false g n.
  all: try (left; split; [done |]; rewrite Hh; done).
  all: try (by left).
  all: split_and!; cbn; try done; try lia; try (intros _; split; cbn; lia).
  all: unfold knows; cbn; rewrite Her; contr; lia.
Qed.

(** *** LK_UPGRADE and LK_WAITUPGRADE *)

Lemma up_wait l : is_up (type_of l) -> b2z (type_of l =? LK_WAITUPGRADE) = 0.
Proof. by intros [-> | ->]. Qed.

Lemma up_cas1_ok l c : t_pc t = UpCas1 l c -> keeps (up_cas1 l c (w_lock w) t).
Proof.
  intros Hpc. know Hpc K. destruct K as (C & Hty & Hsh & Hs). destruct (call_up _ _ C Hty) as (Hop & Hm & Her & Hu & Hh). pose proof (up_wait l Hty) as Hwt. unfold up_cas1.
  apply lk_keeps_cas; [| stay Hpc; done]. intros E. destruct (seen_same w x s u e g n Hw Hok _ _ Hs E) as [-> (Eu & Ee & En)]. num. rewrite lkw_set_excl by done.
  destruct (He0 Ee) as [HS Eg]. assert (HH : sumf t_sh (w_thr w) = 1 /\ t_sh t = 1) by (rewrite Eg in Hn; cbn in Hn; lia). destruct (lk_local_t w i t Hinv Hi) as (_ & _ & _ & L4 & _).
  change_word Hpc 1 0 (-1) 0 x s u true g n. split_and!; cbn; try done; try lia. unfold knows, moved in *. cbn. split_and!; try done; try lia. right. split; [done | lia].
Qed.

Lemma up_holder_ok l : t_pc t = UpHolder l -> keeps (up_holder i l (w_lock w) t).
Proof.
  intros Hpc. know Hpc K. destruct K as (C & Hty & Hex). destruct (call_up _ _ C Hty) as (Hop & Hm & Her & Hu & Hh). unfold up_holder.
  destruct (lk_local_t w i t Hinv Hi) as (_ & _ & _ & _ & L5 & _). destruct L5 as [L5 _]; [unfold inflight; by rewrite Hpc |].
  rewrite decide_True by auto. rewrite Her. stay Hpc. contr. left. lia.
Qed.

Lemma up_cas2_ok l c : t_pc t = UpCas2 l c -> keeps (up_cas2 l c (w_lock w) t).
Proof.
  intros Hpc. know Hpc K. destruct K as (C & Hty & Hsh & Hs). destruct (call_up _ _ C Hty) as (Hop & Hm & Her & Hu & Hh). pose proof (up_wait l Hty) as Hwt. unfold up_cas2.
  apply lk_keeps_cas; [| stay Hpc; done]. intros E. destruct (seen_same w x s u e g n Hw Hok _ _ Hs E) as [-> (Ee & En & Eun)]. num. destruct (He0 Ee) as [HS Eg].
  rewrite lkw_up_wflags, lkw_grants by done. destruct (lk_local_t w i t Hinv Hi) as (_ & _ & _ & L4 & _). assert (Hex0 : t_ex t = 0) by lia.
  assert (Hs' : seen (lkw x s u e g n) (fun _ _ _ _ _ _ => True)) by (by exists x, s, u, e, g, n).
  assert (Hasked : up_asked l (hold t 0 0 (-1))) by (unfold up_asked, moved in *; cbn; split_and!; try done; lia).
  destruct u eqn:Eu; cbn [andb].
  - destruct (Z.eqb_spec n 1) as [E1 | E1].
    + change_word Hpc 0 0 (-1) 0 true s false true true n; [by left |]. upd Hpc. split_and!; try done. by exists x, s, true, e, g, n.
    + change_word Hpc 0 0 (-1) 0 true s true e g (n - 1); [rewrite lkw_upreq by done; cbn; lia | |].
      * right. split_and!; try done; [by left |]. unfold asks. cbn. by rewrite lkw_upreq.
      * upd Hpc. done.
  - specialize (Eun eq_refl). change_word Hpc 0 0 (-1) 1 x s true e g (n - 1); [rewrite lkw_upreq by done; cbn; lia | |].
    + right. split_and!; try done. unfold asks. cbn. by rewrite lkw_upreq.
    + upd Hpc. done.
Qed.

Lemma wu_cas_ok l c : t_pc t = WuCas l c -> keeps (wu_cas l c (w_lock w) t).
Proof.
  intros Hpc. know Hpc K. destruct K as (C & Ety & Hs). destruct (call_wait _ _ C Ety) as (Hop & Hm & Her & Hu & Hex). assert (Hwt : b2z (type_of l =? LK_WAITUPGRADE) = 1) by (by rewrite Ety).
  unfold wu_cas. apply lk_keeps_cas; [| stay Hpc; done]. intros E. destruct (seen_same w x s u e g n Hw Hok _ _ Hs E) as [-> (Eg & Ee)]. num. rewrite lkw_clear_upgrant, lkw_excl by done.
  unfold KKASSERT. rewrite Ee. rewrite bind_Done_l. destruct (lk_local_t w i t Hinv Hi) as (_ & _ & _ & L4 & _). specialize (Hg Eg).
  change_word Hpc 1 0 0 (-1) x s u true false n. split_and!; cbn; try done; try lia. unfold knows, moved in *. cbn. split_and!; try done; try lia. right. split; [done | lia].
Qed.

Lemma wu_cas2_ok l c : t_pc t = WuCas2 l c -> keeps (wu_cas2 l c (w_lock w) t).
Proof.
  intros Hpc. know Hpc K. destruct K as (C & Ety & Hs). assert (Hwt : b2z (type_of l =? LK_WAITUPGRADE) = 1) by (by rewrite Ety).
  unfold wu_cas2. apply lk_keeps_cas; [| stay Hpc; done]. intros E. destruct (seen_same w x s u e g n Hw Hok _ _ Hs E) as [-> Eg]. num.
  assert (Hreq : 0 < req t) by (unfold req, waits; rewrite Hpc; destruct (lk_local_t w i t Hinv Hi) as (_ & _ & _ & L4 & _); lia).
  change_word Hpc 0 0 0 0 x s u e g n; [| by upd Hpc]. right. split_and!; try done; [by left |]. unfold asks. cbn. intros _. destruct u; [done |]. rewrite Eg in HR. cbn in HR. lia.
Qed.

(** *** LK_RELEASE *)

Lemma rel_holder_ok l c : t_pc t = RelHolder l c -> keeps (rel_holder i l c (w_lock w) t).
Proof.
  intros Hpc. know Hpc K. destruct K as (C & Ety & Ho & Hs). destruct (lk_local_t w i t Hinv Hi) as (L1 & L2 & L3 & L4 & L5 & _). unfold rel_holder.
  assert (Hcase : undo l = true /\ negb (bool_decide (lk_lockholder (w_lock w) = LK_KERNTHREAD)) && negb (bool_decide (lk_lockholder (w_lock w) = Thread i)) = true \/
    negb (bool_decide (lk_lockholder (w_lock w) = LK_KERNTHREAD)) && negb (bool_decide (lk_lockholder (w_lock w) = Thread i)) = false /\ otd_ok i t (lk_lockholder (w_lock w))).
  { destruct (undo l) eqn:Hu.
    - destruct (negb _ && negb _) eqn:Eb; [by left |]. right. split; [done |].
      destruct (call_release _ _ C Ety) as [(_ & _ & _ & E & _) | [(_ & _ & _ & E & _) | (_ & _ & _ & _ & Hex & Hkex)]]; try congruence. split; [intros _ | lia].
      apply andb_false_iff in Eb as [Eb%negb_false_iff%bool_decide_eq_true | Eb%negb_false_iff%bool_decide_eq_true]; [| done]. exfalso.
      destruct (inv_holder w Hinv) as [_ H2]. destruct (H2 Eb) as (j & v & Hj & Hv). assert (j = i) as ->; [| rewrite Hi in Hj; injection Hj as <-; lia].
      eapply (inv_one w Hinv); [exact Hj | exact Hi | | done]. destruct (inv_local w Hinv j v Hj). unfold own. lia.
    - right. specialize (L5 ltac:(unfold inflight; by rewrite Hpc)). split; [| done]. apply andb_false_iff. destruct L5 as [H1 H2]. unfold own in Ho.
      destruct (Z.lt_ge_cases 0 (t_ex t)); [right | left]; rewrite bool_decide_true; try done; [auto | apply H2; lia]. }
  destruct Hcase as [[Hu ->] | [-> Hotd]]; [right; split; [done |]; unfold undoing; by rewrite Hpc |].
  destruct Hs as (x1 & s1 & u1 & e1 & g1 & n1 & -> & Hn1 & -> & -> & ->). rewrite lkw_last, lkw_grants by done. cbn [negb andb]. rewrite orb_false_r.
  destruct (Z.eqb_spec (own t) 1) as [E1 | E1]; (eapply (lk_keeps_stay w i t); try eassumption; try done; [unfold req, waits; by rewrite Hpc |]).
  - split_and!; try done. unfold knows. cbn. split_and!; try done. exists x1, s1, false, true, g1, (own t). done.
  - split_and!; try done. unfold knows. cbn. split_and!; try done; [unfold own in *; cbn; lia |]. exists x1, s1, false, true, g1, (own t). done.
Qed.

Lemma rel_null_ok l c otd : t_pc t = RelNull l c otd -> keeps (rel_null l c otd (w_lock w) t).
Proof.
  intros Hpc. know Hpc K. destruct K as (C & Ety & Ho & Hotd & Hs). unfold rel_null. apply keeps_holder; try done; [unfold waits; by rewrite Hpc | lia | by left].
Qed.

Lemma rel_restore_ok l c otd : t_pc t = RelRestore l c otd -> keeps (rel_restore l c otd (w_lock w) t).
Proof.
  intros Hpc. know Hpc K. destruct K as (C & Ety & Ho & Hotd & Hs). destruct Hs as (x1 & s1 & u1 & e1 & g1 & n1 & -> & Hn1 & ->).
  unfold rel_restore. rewrite lkw_grants by done. cbn [andb]. apply keeps_holder; try done; [unfold waits; rewrite Hpc; cbn; by rewrite Ety | lia | by right].
Qed.

(** A thread that gives up an exclusive hold. *)
Lemma drop_ex_ok l : call_ok l t -> type_of l = LK_RELEASE -> 0 < own t ->
  exists dex dkex, drop_ex t = hold t dex dkex 0 /\ (-1 <= dex <= 0 /\ dex + dkex = -1) /\ 0 <= t_ex t + dex /\ 0 <= t_kex t + dkex /\ (t_ex t = 0 \/ dex = -1) /\ contract (drop_ex t) (error l).
Proof.
  intros C Ety Ho. unfold own in Ho. destruct (lk_local_t w i t Hinv Hi) as (L1 & L2 & L3 & L4 & _). unfold drop_ex. destruct (Z.ltb_spec 0 (t_ex t)).
  - exists (-1), 0. split_and!; try done; try lia. destruct (call_release _ _ C Ety) as [(Hop & Hm & -> & _) | [(_ & _ & _ & _ & E & _) | (Hop & Hm & Her & _ & Hex & Hkex)]].
    + unfold contract, moved in *. cbn in *. assert (E0 : (0 <? (t_old t).1.1) = true) by (apply Z.ltb_lt; lia). rewrite E0. contr. lia.
    + unfold own in E. lia.
    + contr. destruct (Z.eqb_spec (error l) 0); [done | lia].
  - exists 0, (-1). split_and!; try done; try lia. destruct (call_release _ _ C Ety) as [(Hop & Hm & -> & _) | [(_ & _ & _ & _ & E & _) | (Hop & Hm & Her & _ & Hex & Hkex)]].
    + unfold contract, moved in *. cbn in *. assert (E0 : (0 <? (t_old t).1.1) = false) by (apply Z.ltb_ge; lia). assert (E1 : (0 <? (t_old t).1.2) = true) by (apply Z.ltb_lt; lia). rewrite E0, E1. contr. lia.
    + unfold own in E. lia.
    + lia.
Qed.

Lemma rel_ex_cas_ok l c otd : t_pc t = RelExCas l c otd -> keeps (rel_ex_cas l c otd (w_lock w) t).
Proof.
  intros Hpc. know Hpc K. destruct K as (C & Ety & Ho & Hotd & Hs & Hh). unfold rel_ex_cas. assert (Hgr : grants c = false).
  { destruct Hs as (x1 & s1 & u1 & e1 & g1 & n1 & -> & Hn1 & -> & -> & ->). by rewrite lkw_grants. }
  rewrite Hgr. apply lk_keeps_cas; [| stay Hpc; split_and!; try done; destruct Hs as (x1 & s1 & u1 & e1 & g1 & n1 & -> & Hn1 & _ & -> & _); by exists x1, s1, false, e1, g1, n1].
  intros E. destruct (seen_same w x s u e g n Hw Hok _ _ Hs E) as [-> (Ee & Eu & En)]. num. rewrite lkw_pred, lkw_clear_all, lkw_wanted by lia.
  destruct (drop_ex_ok l C Ety ltac:(lia)) as (dex & dkex & Ed & Hd & Hd1 & Hd2 & Hd3 & Hc). rewrite Ed in *. destruct (Heu Ee) as [Hsh _]. unfold own in Ho.
  assert (Eg : g = false) by (destruct g; [specialize (Hg eq_refl); lia | done]). destruct (lk_local_t w i t Hinv Hi) as (L1 & L2 & L3 & L4 & _).
  destruct (x || s) eqn:Ex.
  - change_word Hpc dex dkex 0 0 false false u false g (n - 1).
    + left. split; [done |]. rewrite Hh. done.
    + by left.
    + split_and!; cbn; try done; try lia. intros _. split; cbn; lia.
  - apply orb_false_iff in Ex as [Ex Es]. change_word Hpc dex dkex 0 0 false false u false g (n - 1).
    + left. split; [done |]. rewrite Hh. done.
    + right. rewrite Ex, Es. split_and!; try done. by left.
    + split_and!; cbn; try done; try lia. intros _. split; cbn; lia.
Qed.

Lemma rel_ex_dec_ok l c : t_pc t = RelExDec l c -> keeps (rel_ex_dec l c (w_lock w) t).
Proof.
  intros Hpc. know Hpc K. destruct K as (C & Ety & Ho & Hs). assert (Hwt : b2z (type_of l =? LK_WAITUPGRADE) = 0) by (by rewrite Ety). unfold rel_ex_dec.
  apply lk_keeps_cas; [| stay Hpc; done]. intros E. destruct (seen_same w x s u e g n Hw Hok _ _ Hs E) as [-> (Ee & En)]. num. rewrite lkw_pred by lia.
  destruct (drop_ex_ok l C Ety ltac:(lia)) as (dex & dkex & Ed & Hd & Hd1 & Hd2 & Hd3 & Hc). rewrite Ed in *. unfold own in Ho, En.
  destruct (lk_local_t w i t Hinv Hi) as (L1 & L2 & L3 & L4 & L5 & _). specialize (L5 ltac:(unfold inflight; by rewrite Hpc)).
  assert (Hone : t_ex t = 0 \/ t_kex t = 0). { destruct (Z.lt_ge_cases 0 (t_ex t)); [right; apply one_kind; [unfold inflight; by rewrite Hpc | done] | left; lia]. }
  assert (Hotd : otd_ok i (hold t dex dkex 0) (lk_lockholder (w_lock w))) by (destruct L5 as [H1 H2]; split; cbn; intros; [apply H1 | apply H2]; lia).
  change_word Hpc dex dkex 0 0 x s u e g (n - 1).
  - left. split; [done |]. cbn. destruct L5 as [H1 H2]. intros _. destruct Hone as [H0 | H0]; split; intros Eh; try lia; [rewrite H2 in Eh by lia | rewrite H1 in Eh by lia]; done.
  - split_and!; cbn; try done; lia.
Qed.

(** What a shared hold that is given up leaves behind. *)
Lemma lkw_rel_shared x1 s1 u1 e1 g1 n1 : 1 <= n1 < 2 ^ 27 ->
  rel_shared (lkw x1 s1 u1 e1 g1 n1) =
    if n1 =? 1 then (if u1 then (lkw x1 s1 false true true n1, true) else (lkw false false u1 e1 g1 (n1 - 1), x1 || s1)) else (lkw x1 s1 u1 e1 g1 (n1 - 1), false).
Proof.
  intros H. unfold rel_shared. rewrite lkw_last, lkw_grants by lia. rewrite lkw_pred by lia. rewrite lkw_clear_wanted, lkw_wanted, lkw_clear_upreq, lkw_set_grant by lia.
  by destruct u1, (n1 =? 1).
Qed.

(** A thread that gives up a shared hold. *)
Lemma drop_sh_ok l : call_ok l t -> type_of l = LK_RELEASE -> undo l = false -> own t = 0 -> contract (hold t 0 0 (-1)) (error l).
Proof.
  intros C Ety Hu Ho. destruct (lk_local_t w i t Hinv Hi) as (L1 & L2 & L3 & L4 & _). unfold own in Ho.
  destruct (call_release _ _ C Ety) as [(Hop & Hm & -> & _) | [(Hop & Hm & Her & _) | (_ & _ & _ & E & _)]]; [| | congruence].
  - assert (E0 : (0 <? (t_old t).1.1) = false /\ (0 <? (t_old t).1.2) = false) by (unfold moved in Hm; rewrite !Z.ltb_ge; lia). destruct E0 as [E0 E1].
    unfold contract, moved in *. cbn in *. rewrite E0, E1. contr. lia.
  - contr. destruct (Z.eqb_spec (error l) 0); [done | lia].
Qed.

Lemma rel_sh_cas_ok l c : t_pc t = RelShCas l c -> keeps (rel_sh_cas l c (w_lock w) t).
Proof.
  intros Hpc. know Hpc K. destruct K as (C & Ety & Hu & Ho & Hsh & Hs). assert (Hwt : b2z (type_of l =? LK_WAITUPGRADE) = 0) by (by rewrite Ety). unfold rel_sh_cas.
  apply lk_keeps_cas; [| stay Hpc; done]. intros E. destruct (seen_same w x s u e g n Hw Hok _ _ Hs E) as [-> (Ee & En)]. num. rewrite lkw_rel_shared by lia.
  pose proof (drop_sh_ok l C Ety Hu Ho) as Hc. unfold own in Ho. destruct (He0 Ee) as [HS Eg]. destruct (Z.eqb_spec n 1) as [E1 | E1]; cbn [fst snd].
  - assert (HH : sumf t_sh (w_thr w) = 1) by (rewrite Eg in Hn; cbn in Hn; lia). destruct u eqn:Eu; cbn [fst snd].
    + change_word Hpc 0 0 (-1) 0 x s false true true n; [by left |]. upd Hpc. done.
    + destruct (x || s) eqn:Ex; change_word Hpc 0 0 (-1) 0 false false false e g (n - 1); [by left | by upd Hpc | | by upd Hpc].
      apply orb_false_iff in Ex as [Ex Es]. right. rewrite Ex, Es. split_and!; done.
  - change_word Hpc 0 0 (-1) 0 x s u e g (n - 1). by upd Hpc.
Qed.

(** *** undo_upreq *)

Lemma undo_loop_ok l : t_pc t = Undo l -> keeps (undo_loop l (w_lock w) t).
Proof.
  intros Hpc. know Hpc K. destruct K as (Ha & Her). num. unfold undo_loop. rewrite Hw, lkw_upgrant by done. destruct (lk_local_t w i t Hinv Hi) as (_ & _ & _ & L4 & _).
  assert (Hreq : 0 < req t) by (unfold req, waits; rewrite Hpc; lia). destruct g eqn:Eg.
  - stay Hpc. split_and!; try done. eapply lk_seen_now; [exact Hok |]. left. split; [done |]. destruct e; [done |]. by destruct He0.
  - assert (Eu : u = true) by (destruct u; [done | cbn in HR; lia]). assert (n <> 0) by (intros E0; destruct (Hz E0) as (_ & _ & ?); congruence).
    assert (Ee : e = false) by (destruct e; [destruct Heu; congruence | done]). unfold KKASSERT. rewrite lkw_upreq, lkw_mask, Eu by done. rewrite bind_Done_l.
    destruct (Z.ltb_spec 0 n); [| lia]. rewrite bind_Done_l. stay Hpc. split_and!; try done. rewrite <- Eu. eapply lk_seen_now; [exact Hok |]. right. split_and!; done || lia.
Qed.

Lemma undo_cas_ok l c : t_pc t = UndoCas l c -> keeps (undo_cas l c (w_lock w) t).
Proof.
  intros Hpc. know Hpc K. destruct K as (Ha & Her & Hs). pose proof Ha as (Hop & Hm & Hu & Hex). destruct (lk_local_t w i t Hinv Hi) as (L1 & L2 & L3 & L4 & _).
  assert (Hc : contract t (error l)) by (contr; destruct (Z.eqb_spec (error l) 0); [done | lia]).
  assert (Hcase : seen c (fun x s u e g n => g = true /\ e = true) /\ btest c LKC_UPGRANT = true \/
    seen c (fun x s u e g n => g = false /\ u = true /\ e = false /\ 1 <= n) /\ btest c LKC_UPGRANT = false /\ btest c LKC_EXCL = false).
  { destruct Hs as (x1 & s1 & u1 & e1 & g1 & n1 & -> & Hn1 & Hcase). rewrite lkw_upgrant, lkw_excl by done.
    destruct Hcase as [[-> ->] | (-> & -> & -> & ?)]; [left | right]; (split; [| done]); [by exists x1, s1, u1, true, true, n1 | by exists x1, s1, true, false, false, n1]. }
  unfold undo_cas. destruct Hcase as [[Hs' ->] | (Hs' & -> & ->)].
  - apply lk_keeps_cas; [| stay Hpc; done]. intros E. destruct (seen_same w x s u e g n Hw Hok _ _ Hs' E) as [-> (Eg & Ee)]. num. rewrite lkw_clear_upgrant by done. specialize (Hg Eg).
    change_word Hpc 1 0 0 (-1) x s u true false n; [by rewrite Ee | change (type_of _) with LK_RELEASE; cbn; lia |].
    split_and!; cbn; try done; try lia. unfold knows. cbn. do 6 right. unfold moved in *. cbn. split_and!; try done; lia.
  - destruct (btest c LKC_EXREQ) eqn:Ex.
    + apply lk_keeps_cas; [| stay Hpc; done]. intros E. destruct (seen_same w x s u e g n Hw Hok _ _ Hs' E) as [-> (Eg & Eu & Ee & En)]. num. rewrite lkw_clear_upreq by done.
      change_word Hpc 0 0 0 (-1) x s false e g n; [| by upd Hpc]. right. split_and!; try done. intros _. right. unfold waits. by rewrite Hpc.
    + apply lk_keeps_cas; [| stay Hpc; done]. intros E. destruct (seen_same w x s u e g n Hw Hok _ _ Hs' E) as [-> (Eg & Eu & Ee & En)]. num. rewrite lkw_clear_up, lkw_shreq by done.
      destruct s eqn:Es; change_word Hpc 0 0 0 (-1) x false false e g n; [by left | by upd Hpc | | by upd Hpc]. right. split_and!; try done. intros _. right. unfold waits. by rewrite Hpc.
Qed.

(** *** lockmgr_kernproc *)

Lemma kp_holder_ok : t_pc t = KpHolder -> keeps (kp_holder i (w_lock w) t).
Proof.
  intros Hpc. know Hpc K. destruct K as [Hop Ho]. destruct (lk_local_t w i t Hinv Hi) as (L1 & L2 & L3 & L4 & L5 & _). destruct L5 as [H1 H2]; [unfold inflight; by rewrite Hpc |].
  assert (Hc : forall ret, contract t ret) by (intros; unfold contract; rewrite Hop; split_and!; intros; exfalso; lk_types; lia).
  unfold kp_holder. destruct (decide _) as [Eh | Eh]; [stay Hpc; apply Hc |]. assert (Hex : 0 < t_ex t). { destruct (Z.lt_ge_cases 0 (t_ex t)); [done |]. destruct Eh. apply H2. unfold own in Ho. lia. }
  unfold KKASSERT. rewrite bool_decide_true by auto. rewrite bind_Done_l. stay Hpc. done.
Qed.

Lemma kp_set_ok : t_pc t = KpSet -> keeps (kp_set (w_lock w) t).
Proof.
  intros Hpc. know Hpc K. destruct K as [Hop Hex]. destruct (lk_local_t w i t Hinv Hi) as (L1 & L2 & L3 & L4 & _). num. unfold kp_set.
  change_word Hpc (- t_ex t) (t_ex t) 0 0 x s u e g n.
  - right. unfold own. cbn. split; [lia |]. right; right. split; [done | lia].
  - split_and!; cbn; try done; try lia. { intros _. split; cbn; [lia | done]. } unfold knows, contract. cbn. rewrite Hop. split_and!; intros; exfalso; lk_types; lia.
Qed.
End Steps.
