(* ===== verification/LockmgrReach.v ===== *)
(** * The lock manager: every world that can be reached

    The calls that a thread may make, the worlds that any number of threads can reach by
    making them in any order, and the invariant of all these worlds. *)

From stdpp Require Import prelude list strings.
From S2P Require Import Prelude.
From S2P Require Import Sums.
From S2P Require Import Lockmgr.
From S2P Require Import LockmgrInv.
From S2P Require Import LockmgrSteps.
Open Scope Z_scope.

(** ** What the callers have to respect *)

(** A thread that holds the lock exclusively asks for it again only if it may recurse or
    does not wait; only a thread that holds the lock upgrades or releases it, and only one
    that holds it exclusively once downgrades it. *)
Definition call_allowed (lkp : lock) (t : thr) (f : Z) : bool :=
  let type := Z.land f LK_TYPE_MASK in
  let ext := Z.land (Z.lor f (lk_flags lkp)) LK_EXTFLG_MASK in
  if (type =? LK_SHARED) || (type =? LK_EXCLUSIVE) then
    implb (0 <? t_ex t) (btest ext LK_CANRECURSE || btest ext LK_NOWAIT)
  else if (type =? LK_UPGRADE) || (type =? LK_EXCLUPGRADE) then 0 <? t_ex t + t_sh t
  else if type =? LK_DOWNGRADE then t_ex t =? 1
  else if type =? LK_RELEASE then 0 <? t_ex t + t_kex t + t_sh t
  else false.

Definition is_idle (t : thr) : bool := match t_pc t with Idle => true | _ => false end.

Definition allowed (w : world) (i : nat) (c : choice) : bool :=
  match w_thr w !! i with
  | None => false
  | Some t =>
    match c with
    | Call f => call_allowed (w_lock w) t f
    | Kernproc => 0 <? own t
    | Pass j => match w_thr w !! j with Some v => is_idle v | None => false end
    | Go | Woken _ => true
    end
  end.

Inductive reachable (w0 : world) : world -> Prop :=
  | reach_init : reachable w0 w0
  | reach_step w i c w' : reachable w0 w -> allowed w i c = true -> step w i c = Some (Done w') -> bounded w' -> reachable w0 w'.

(** The same for a schedule that is given. *)
Fixpoint run_allowed (w : world) (s : list (nat * choice)) : option world :=
  match s with
  | [] => Some w
  | (i, c) :: s =>
      if allowed w i c then
        match step w i c with
        | Some (Done w') => if sumf own (w_thr w') + sumf t_sh (w_thr w') <? 2 ^ 27 then run_allowed w' s else None
        | _ => None
        end
      else None
  end.

Lemma run_allowed_reachable w0 s w w' : reachable w0 w -> run_allowed w s = Some w' -> reachable w0 w'.
Proof.
  revert w. induction s as [| [i c] s IH]; intros w Hr E; simpl in E; [by simplify_eq |].
  destruct (allowed w i c) eqn:Ea; [| done]. destruct (step w i c) as [[w1 |]|] eqn:Es; try done.
  destruct (Z.ltb_spec (sumf own (w_thr w1) + sumf t_sh (w_thr w1)) (2 ^ 27)) as [Hb |]; [| done].
  by apply (IH w1); [eapply reach_step |].
Qed.

(** ** Steps that touch only the thread and the lock *)

Section Local.
Context (w : world) (i : nat) (t : thr) (x s u e g : bool) (n : Z).
Hypothesis Hinv : Inv w.
Hypothesis Hi : w_thr w !! i = Some t.
Hypothesis Hw : lk_count (w_lock w) = lkw x s u e g n.
Hypothesis Hok : word_ok x s u e g n (sumf own (w_thr w)) (sumf t_sh (w_thr w)) (sumf req (w_thr w)).
Hypothesis Hnw : ~ waking t.

Lemma local_step_ok r : local_step i (w_lock w) t = Some r -> keeps w i t r.
Proof.
  unfold local_step. destruct (t_pc t) eqn:Hpc; intros E; simplify_eq;
    [eapply again_ok | eapply cas_shared_ok | eapply sh_holder_ok | eapply add_one_ok | eapply interlock_ok | eapply lk_sh_cas_ok | eapply cas_excl_ok | eapply set_holder_ok
    | eapply ex_holder_ok | eapply interlock_ok | eapply ex_cas_ok | eapply dg_holder_ok | eapply dg_null_ok | eapply dg_cas_ok | eapply dg_restore_ok | eapply up_cas1_ok
    | eapply up_holder_ok | eapply interlock_ok | eapply up_cas2_ok | eapply wu_cas_ok | eapply interlock_ok | eapply wu_cas2_ok | eapply rel_holder_ok | eapply rel_null_ok
    | eapply rel_ex_cas_ok | eapply rel_restore_ok | eapply rel_ex_dec_ok | eapply rel_sh_cas_ok | eapply undo_loop_ok | eapply undo_cas_ok | eapply kp_holder_ok | eapply kp_set_ok];
    try eassumption; by rewrite Hpc.
Qed.

(** An idle thread calls lockmgr or lockmgr_kernproc. *)
Lemma idle_step_ok t' : t_pc t = Idle -> t_ex t' = t_ex t -> t_kex t' = t_kex t -> t_sh t' = t_sh t -> t_lost t' = t_lost t ->
  waits t' = 0 -> (forall l k, t_pc t' <> Sleep l k) -> knows i t' (w_lock w) -> keeps w i t (mret (w_lock w, t')).
Proof.
  intros Hpc E1 E2 E3 E4 E5 E6 Hk. eapply (lk_keeps_stay w i t); try eassumption.
  - unfold req. rewrite E4, E5. unfold waits. by rewrite Hpc.
  - intros _. destruct (t_pc t') eqn:E; try done. by destruct (E6 l k).
  - eapply local_same; try eassumption. unfold inflight. by rewrite Hpc.
Qed.

Lemma call_ok_start f : t_pc t = Idle -> call_allowed (w_lock w) t f = true -> keeps w i t (mret (w_lock w, start f (w_lock w) t)).
Proof.
  intros Hpc Ha. set (l := Locals f (Z.land (Z.lor f (lk_flags (w_lock w))) LK_EXTFLG_MASK) 0 false).
  assert (Hm : moved (start f (w_lock w) t) 0 0 0) by (unfold moved; cbn; lia).
  assert (Hc : call_ok l (start f (w_lock w) t) /\ type_of l <> LK_WAITUPGRADE).
  { unfold call_allowed in Ha. unfold call_ok, is_up, own. change (t_op (start f (w_lock w) t)) with (type_of l). change (error l) with 0. change (undo l) with false.
    change (Z.land f LK_TYPE_MASK) with (type_of l) in Ha. change (t_ex (start f (w_lock w) t)) with (t_ex t). change (t_kex (start f (w_lock w) t)) with (t_kex t).
    change (t_sh (start f (w_lock w) t)) with (t_sh t). destruct ((type_of l =? LK_SHARED) || (type_of l =? LK_EXCLUSIVE)) eqn:E1.
    { apply orb_true_iff in E1. rewrite !Z.eqb_eq in E1. split; [left | by destruct E1 as [-> | ->]]. split_and!; try done. intros Hex.
      rewrite implb_true_iff in Ha. by apply orb_true_iff, Ha, Z.ltb_lt. }
    destruct ((type_of l =? LK_UPGRADE) || (type_of l =? LK_EXCLUPGRADE)) eqn:E2.
    { apply orb_true_iff in E2. rewrite !Z.eqb_eq in E2. split; [right; left | by destruct E2 as [-> | ->]]. split_and!; try done. by apply Z.ltb_lt. }
    destruct (Z.eqb_spec (type_of l) LK_DOWNGRADE) as [E3 |].
    { split; [do 3 right; left | by rewrite E3]. split_and!; try done. by apply Z.eqb_eq. }
    destruct (Z.eqb_spec (type_of l) LK_RELEASE) as [E4 |]; [| done].
    split; [do 4 right; left | by rewrite E4]. split_and!; try done. by apply Z.ltb_lt. }
  destruct Hc as [Hc Hty]. apply idle_step_ok; try done. change (waits _) with (b2z (type_of l =? LK_WAITUPGRADE)). by destruct (Z.eqb_spec (type_of l) LK_WAITUPGRADE).
Qed.

Lemma kernproc_start : t_pc t = Idle -> 0 < own t -> keeps w i t (mret (w_lock w, at_pc (pass t 0) KpHolder)).
Proof. intros Hpc Ho. apply idle_step_ok; try done; cbn; try lia. unfold knows, own in *. cbn. split; [done | lia]. Qed.
End Local.

(** ** wakeup *)

(** Threads that differ only in where they are, and are not on the sleep queue. *)
Definition similar (a b : thr) : Prop :=
  t_ex b = t_ex a /\ t_kex b = t_kex a /\ t_sh b = t_sh a /\ req b = req a /\ t_onq b = false /\ forall i lkp, local_ok i a lkp -> local_ok i b lkp.

Lemma sumf_similar (f : thr -> Z) ts ts' : (forall a b, similar a b -> f b = f a) -> Forall2 similar ts ts' -> sumf f ts' = sumf f ts.
Proof. intros Hf H. induction H as [| a b ts ts' Hab _ IH]; [done |]. simpl. by rewrite (Hf a b Hab), IH. Qed.

Lemma inv_similar w ts : Inv w -> Forall2 similar (w_thr w) ts -> Inv (World (w_lock w) ts).
Proof.
  intros I Hs.
  assert (Hback : forall j v, ts !! j = Some v -> exists v0, w_thr w !! j = Some v0 /\ similar v0 v) by (intros j v Hj; by eapply Forall2_lookup_r in Hs).
  assert (Hfwd : forall j v, w_thr w !! j = Some v -> exists v1, ts !! j = Some v1 /\ similar v v1) by (intros j v Hj; by eapply Forall2_lookup_l in Hs).
  assert (Hown : forall a b, similar a b -> own b = own a) by (intros a b (E1 & E2 & _); unfold own; by rewrite E1, E2).
  constructor; cbn [w_lock w_thr].
  - destruct (inv_word w I) as (x & s & u & e & g & n & Ew & Hok & _). exists x, s, u, e, g, n. split; [done |].
    rewrite (sumf_similar own _ _ Hown Hs), (sumf_similar t_sh _ _) by (done || by intros a b (_ & _ & E & _)).
    rewrite (sumf_similar req _ _) by (done || by intros a b (_ & _ & _ & E & _)). split; [done |]. right.
    intros j v Hj Hq. destruct (Hback j v Hj) as (v0 & _ & (_ & _ & _ & _ & E & _)). congruence.
  - intros j k a b Hj Hk Ha Hb. destruct (Hback j a Hj) as (a0 & Ha0 & Sa), (Hback k b Hk) as (b0 & Hb0 & Sb).
    rewrite (Hown a0 a) in Ha by done. rewrite (Hown b0 b) in Hb by done. by eapply (inv_one w I).
  - destruct (inv_holder w I) as [H1 H2]. split.
    + intros j Ej. destruct (H1 j Ej) as (v & Hv & Hex). destruct (Hfwd j v Hv) as (v1 & Hv1 & (E & _)). exists v1. split; [done | lia].
    + intros Ej. destruct (H2 Ej) as (j & v & Hv & Hex). destruct (Hfwd j v Hv) as (v1 & Hv1 & (_ & E & _)). exists j, v1. split; [done | lia].
  - intros j v Hj. destruct (Hback j v Hj) as (v0 & Hv0 & (_ & _ & _ & _ & _ & Hl)). by apply Hl, (inv_local w I).
Qed.

Lemma similar_onq t : similar t (set_onq t false).
Proof. by split_and!. Qed.

Lemma similar_woke l k i0 lkp0 t : t_pc t = WakeUp l k -> local_ok i0 t lkp0 -> similar t (woke l k (set_onq t false)).
Proof.
  intros Hpc (_ & _ & _ & _ & _ & K). unfold knows in K. rewrite Hpc in K. destruct k as [c |]; cbn [woke].
  - destruct K as (Ha & Her & (x1 & s1 & u1 & e1 & g1 & n1 & -> & Hn1 & ->)). split_and!; try done.
    + unfold req, waits. rewrite Hpc. cbn. by rewrite lkw_upreq.
    + intros i lkp (L1 & L2 & L3 & L4 & L5 & _). split_and!; try done; [intros _; apply L5; unfold inflight; by rewrite Hpc |].
      unfold knows. cbn. split_and!; try done. by exists x1, s1, true, e1, g1, n1.
  - split_and!; try done; [unfold req, waits; by rewrite Hpc |]. intros i lkp (L1 & L2 & L3 & L4 & L5 & _). split_and!; try done. intros _. apply L5. unfold inflight. by rewrite Hpc.
Qed.

Lemma wakeup_ok w i t l k : Inv w -> w_thr w !! i = Some t -> t_pc t = WakeUp l k ->
  Inv (World (w_lock w) (<[i := woke l k (set_onq t false)]> ((fun v => set_onq v false) <$> w_thr w))).
Proof.
  intros I Hi Hpc. apply inv_similar; [done |]. apply Forall2_same_length_lookup_2; [by rewrite length_insert, length_fmap |].
  intros j a b Ha Hb. destruct (decide (i = j)) as [<- | Hne].
  - rewrite list_lookup_insert_eq in Hb by (rewrite length_fmap; by eapply lookup_lt_Some). rewrite Hi in Ha. simplify_eq.
    eapply similar_woke; [done | by apply (inv_local w I)].
  - rewrite list_lookup_insert_ne, list_lookup_fmap, Ha in Hb by done. simplify_eq/=. apply similar_onq.
Qed.

(** ** The release of what the kernel holds changes hands *)

Section Pass.
Context (w : world) (i j : nat) (t v : thr).
Hypothesis I : Inv w.
Hypothesis Hi : w_thr w !! i = Some t.
Hypothesis Hj : w_thr w !! j = Some v.
Hypothesis Hne : i <> j.
Hypothesis Pt : t_pc t = Idle.
Hypothesis Pv : t_pc v = Idle.

Let ts := <[j := pass v (t_kex t)]> (<[i := pass t (- t_kex t)]> (w_thr w)).

Lemma pass_lookup m a : ts !! m = Some a ->
  m = j /\ a = pass v (t_kex t) \/ m = i /\ a = pass t (- t_kex t) \/ m <> i /\ m <> j /\ w_thr w !! m = Some a.
Proof.
  unfold ts. intros E. destruct (decide (j = m)) as [<- | Hj'].
  - rewrite list_lookup_insert_eq in E by (rewrite length_insert; by eapply lookup_lt_Some). left. split; congruence.
  - rewrite list_lookup_insert_ne in E by done. destruct (decide (i = m)) as [<- | Hi'].
    + rewrite list_lookup_insert_eq in E by (by eapply lookup_lt_Some). right; left. split; congruence.
    + rewrite list_lookup_insert_ne in E by done. right; right. split_and!; congruence.
Qed.

Lemma pass_at : ts !! i = Some (pass t (- t_kex t)) /\ ts !! j = Some (pass v (t_kex t)) /\ forall m, m <> i -> m <> j -> ts !! m = w_thr w !! m.
Proof.
  unfold ts. split_and!.
  - rewrite list_lookup_insert_ne by done. by rewrite list_lookup_insert_eq by (by eapply lookup_lt_Some).
  - by rewrite list_lookup_insert_eq by (rewrite length_insert; by eapply lookup_lt_Some).
  - intros m H1 H2. by rewrite !list_lookup_insert_ne by done.
Qed.

Lemma pass_sum (f : thr -> Z) : f (pass t (- t_kex t)) + f (pass v (t_kex t)) = f t + f v -> sumf f ts = sumf f (w_thr w).
Proof. intros E. unfold ts. rewrite (sumf_insert _ _ j v) by (by rewrite list_lookup_insert_ne). rewrite (sumf_insert _ _ i t) by done. lia. Qed.

(** What the kernel holds is the whole of the lock. *)
Lemma pass_kex : 0 < t_kex t -> t_ex t = 0 /\ own v = 0 /\ lk_lockholder (w_lock w) = LK_KERNTHREAD /\ forall m a, w_thr w !! m = Some a -> 0 < own a -> m = i.
Proof.
  intros Hk. destruct (inv_local w I i t Hi) as (L1 & L2 & _ & _ & L5 & _). destruct L5 as [H1 H2]; [unfold inflight; by rewrite Pt |].
  assert (Hone : forall m a, w_thr w !! m = Some a -> 0 < own a -> m = i) by (intros m a Ha Ho; eapply (inv_one w I); [done | exact Hi | done | unfold own; lia]).
  split_and!; auto.
  - destruct (Z.lt_ge_cases 0 (t_ex t)); [| lia]. rewrite H1 in H2 by done. by specialize (H2 Hk).
  - destruct (inv_local w I j v Hj) as (M1 & M2 & _). destruct (Z.lt_ge_cases 0 (own v)) as [Ho |]; [by destruct Hne; symmetry; eapply Hone | unfold own in *; lia].
Qed.

Lemma pass_local m a k : m <> j /\ w_thr w !! m = Some a \/ m = j /\ a = v -> t_pc a = Idle -> 0 <= t_kex a + k -> (0 < t_kex a + k -> lk_lockholder (w_lock w) = LK_KERNTHREAD) ->
  local_ok m (pass a k) (w_lock w).
Proof.
  intros Hm Pa H0 Hk. assert (Hl : local_ok m a (w_lock w)) by (destruct Hm as [[_ Hm] | [-> ->]]; by apply (inv_local w I)).
  destruct Hl as (L1 & L2 & L3 & L4 & L5 & _). split_and!; cbn; try done.
  - intros _. split; [| done]. apply L5. unfold inflight. by rewrite Pa.
  - unfold knows. cbn. rewrite Pa. unfold contract. cbn. split_and!; intros; exfalso; lk_types; lia.
Qed.

Lemma pass_ok : Inv (World (w_lock w) ts).
Proof.
  destruct (inv_local w I i t Hi) as (L1 & L2 & L3 & L4 & L5 & _). destruct (inv_local w I j v Hj) as (M1 & M2 & M3 & M4 & M5 & _).
  destruct L5 as [_ H2]; [unfold inflight; by rewrite Pt |]. destruct M5 as [_ H3]; [unfold inflight; by rewrite Pv |].
  destruct pass_at as (Ai & Aj & Am). constructor; cbn [w_lock w_thr].
  - destruct (inv_word w I) as (x & s & u & e & g & n & Ew & Hok & Hq). exists x, s, u, e, g, n. split; [done |].
    rewrite !pass_sum by (unfold own, req, waits; cbn; rewrite ?Pt, ?Pv; lia). split; [done |]. destruct Hq as [(m & a & Hm & Ha) | Hq]; [left | right].
    + exists m, a. split; [| done]. rewrite Am; [done | |]; intros ->; unfold waking in Ha; [rewrite Hi in Hm | rewrite Hj in Hm]; simplify_eq; [by rewrite Pt in Ha | by rewrite Pv in Ha].
    + intros m a Ha. destruct (pass_lookup m a Ha) as [[-> ->] | [[-> ->] | (_ & _ & Hm)]]; [| | by apply (Hq m)]; intros _; cbn; by rewrite ?Pt, ?Pv.
  - assert (Hown : 0 < t_kex t -> forall m a, ts !! m = Some a -> 0 < own a -> m = j).
    { intros Hk m a Ha Ho. destruct (pass_kex Hk) as (E1 & _ & _ & Hone). destruct (pass_lookup m a Ha) as [[-> _] | [[_ ->] | (Hmi & _ & Hm)]]; [done | |].
      - unfold own in Ho. cbn in Ho. lia.
      - by destruct Hmi; eapply Hone. }
    assert (H0 : t_kex t = 0 -> forall m a, ts !! m = Some a -> 0 < own a -> exists b, w_thr w !! m = Some b /\ 0 < own b).
    { intros Hk m a Ha Ho. destruct (pass_lookup m a Ha) as [[-> ->] | [[-> ->] | (_ & _ & Hm)]]; [exists v | exists t | by exists a]; (split; [done | unfold own in *; cbn in *; lia]). }
    intros m p a b Ha Hb Oa Ob. destruct (Z.lt_ge_cases 0 (t_kex t)) as [Hk | Hk].
    + by rewrite (Hown Hk m a Ha Oa), (Hown Hk p b Hb Ob).
    + assert (E0 : t_kex t = 0) by lia. destruct (H0 E0 m a Ha Oa) as (a0 & ? & ?), (H0 E0 p b Hb Ob) as (b0 & ? & ?). by eapply (inv_one w I).
  - destruct (inv_holder w I) as [K1 K2]. split.
    + intros m Em. destruct (K1 m Em) as (a & Ha & Hex). destruct (decide (m = i)) as [-> | Hmi]; [| destruct (decide (m = j)) as [-> | Hmj]].
      * rewrite Hi in Ha. simplify_eq. by exists (pass a (- t_kex a)).
      * rewrite Hj in Ha. simplify_eq. by exists (pass a (t_kex t)).
      * exists a. by rewrite Am.
    + intros Em. destruct (K2 Em) as (m & a & Ha & Hex). destruct (decide (m = i)) as [-> | Hmi]; [| destruct (decide (m = j)) as [-> | Hmj]].
      * rewrite Hi in Ha. simplify_eq. exists j, (pass v (t_kex a)). split; [done |]. cbn. lia.
      * rewrite Hj in Ha. simplify_eq. exists j, (pass a (t_kex t)). split; [done |]. cbn. lia.
      * exists m, a. by rewrite Am.
  - intros m a Ha. destruct (pass_lookup m a Ha) as [[-> ->] | [[-> ->] | (_ & _ & Hm)]]; [| | by apply (inv_local w I)]; apply pass_local; try done; try lia; [by right | | by left].
    intros Hk. destruct (Z.lt_ge_cases 0 (t_kex t)); [by apply H2 | apply H3; lia].
Qed.
End Pass.

(** ** Every step *)

Definition safe (w : world) (i : nat) (r : outcome world) : Prop :=
  (exists w', r = Done w' /\ (bounded w' -> Inv w')) \/ (r = undo_panic /\ exists t, w_thr w !! i = Some t /\ undoing t).

Lemma keeps_safe w i t r : w_thr w !! i = Some t -> keeps w i t r -> safe w i (r ≫= fun r' => Done (put w i r')).
Proof.
  intros Hi [(lkp & t' & -> & H) | [-> Hu]]; [left | right].
  - exists (put w i (lkp, t')). done.
  - split; [done |]. by exists t.
Qed.

Lemma keeps_done w i t r : w_thr w !! i = Some t -> keeps w i t (mret r) -> safe w i (Done (put w i r)).
Proof. intros Hi H. apply (keeps_safe w i t) in H; [| done]. by rewrite bind_Done_l in H. Qed.

Lemma step_safe w i c r : Inv w -> allowed w i c = true -> step w i c = Some r -> safe w i r.
Proof.
  intros I Ha E. unfold step, allowed in *. destruct (w_thr w !! i) as [t |] eqn:Hi; [| done]. destruct (inv_word w I) as (x & s & u & e & g & n & Hw & Hok & _).
  assert (Hlocal : ~ waking t -> match local_step i (w_lock w) t with None => None | Some r => Some (r ≫= fun r => Done (put w i r)) end = Some r -> safe w i r).
  { intros Hnw E'. destruct (local_step i (w_lock w) t) as [r0 |] eqn:El; [| done]. simplify_eq. eapply keeps_safe; [done |]. by eapply local_step_ok. }
  destruct (t_pc t) eqn:Hpc; destruct c as [f | | j | | er]; try done; try (apply Hlocal; [unfold waking; rewrite Hpc; tauto | done]).
  - simplify_eq. apply (keeps_done w i t _ Hi). eapply call_ok_start; try eassumption. unfold waking. rewrite Hpc. tauto.
  - simplify_eq. apply (keeps_done w i t _ Hi). apply Z.ltb_lt in Ha. eapply kernproc_start; try eassumption. unfold waking. rewrite Hpc. tauto.
  - destruct (w_thr w !! j) as [v |] eqn:Hj; [| done]. destruct (decide (i = j)); [done |]. simplify_eq. left. eexists. split; [done |]. intros _.
    apply pass_ok; try done. unfold is_idle in Ha. by destruct (t_pc v).
  - destruct (_ || _); [| done]. simplify_eq. apply (keeps_safe w i t _ Hi). eapply slept_ok; try eassumption. unfold waking. rewrite Hpc. tauto.
  - simplify_eq. left. eexists. split; [done |]. intros _. by apply wakeup_ok.
Qed.

(** ** The invariant holds *)

Lemma world0_inv wmesg timo flags deadlk : Inv (world0 (lockinit wmesg timo flags) deadlk).
Proof.
  assert (H0 : forall j v, (thr0 <$> deadlk) !! j = Some v -> exists b, v = thr0 b).
  { intros j v Hj. rewrite list_lookup_fmap in Hj. destruct (deadlk !! j) as [b |]; [| done]. simplify_eq/=. by exists b. }
  assert (Hsum : forall f : thr -> Z, (forall b, f (thr0 b) = 0) -> sumf f (thr0 <$> deadlk) = 0) by (intros f Hf; clear H0; induction deadlk as [| b l IH]; simpl; [done |]; rewrite Hf; exact IH).
  constructor; cbn [w_lock w_thr world0 lockinit lk_count lk_lockholder].
  - exists false, false, false, false, false, 0. split; [done |]. rewrite !Hsum by done. split; [by split_and! |]. right. intros j v Hj. destruct (H0 j v Hj) as (b & ->). done.
  - intros j k a b Hj _ Ho _. destruct (H0 j a Hj) as (d & ->). done.
  - done.
  - intros j v Hj. destruct (H0 j v Hj) as (b & ->). split_and!; try done. unfold knows, contract. cbn. split_and!; intros; exfalso; lk_types; lia.
Qed.

Lemma lk_reachable_inv wmesg timo flags deadlk w : reachable (world0 (lockinit wmesg timo flags) deadlk) w -> Inv w.
Proof.
  intros H. induction H as [| w i c w' _ IH Ha Es Hb]; [apply world0_inv |].
  destruct (step_safe w i c _ IH Ha Es) as [(w1 & E & Hw1) | [E _]]; [| done]. simplify_eq. by apply Hw1.
Qed.
