(* ===== verification/LockmgrProps.v ===== *)
(** * The lock manager: what it promises

    Exclusion, the contract of every operation on every return, the calls that can panic,
    sleeping threads, and what the word says about the holders, for any number of threads
    in any interleaving; and the runs in which an upgrade that is given up goes wrong. *)

From stdpp Require Import prelude list strings.
From S2P Require Import Prelude.
From S2P Require Import Sums.
From S2P Require Import Lockmgr.
From S2P Require Import LockmgrInv.
From S2P Require Import LockmgrSteps.
From S2P Require Import LockmgrReach.
Open Scope Z_scope.

(** What lock(9) and lock.h promise of a call that has returned [ret], where they and the code
    agree: nothing is said of LK_SHARED and of the upgrades by a thread that has the lock
    exclusively, nor of LK_EXCLUSIVE by such a thread that may not recurse. *)
Definition documented (t : thr) (ret : Z) : Prop :=
  let ex := (t_old t).1.1 in
  (t_op t = LK_SHARED -> ex = 0 -> if ret =? 0 then moved t 0 0 1 else moved t 0 0 0) /\
  (t_op t = LK_EXCLUSIVE -> if ret =? 0 then moved t 1 0 0 else ex = 0 -> moved t 0 0 0) /\
  (is_up (t_op t) -> ex = 0 -> if ret =? 0 then moved t 1 0 (-1) else moved t 0 0 (-1)) /\
  (t_op t = LK_DOWNGRADE -> ret = 0 /\ moved t (-1) 0 1) /\
  (t_op t = LK_RELEASE -> ret = 0 /\
     if 0 <? ex then moved t (-1) 0 0 else if 0 <? (t_old t).1.2 then moved t 0 (-1) 0 else moved t 0 0 (-1)).

Lemma contract_documented t ret : contract t ret -> documented t ret.
Proof.
  intros (H1 & H2 & H3 & H4 & H5). unfold documented. cbv zeta. split_and!; try done.
  - intros Hop Hex. specialize (H1 Hop). destruct (ret =? 0); [destruct H1 as [| [? _]]; [done | lia] | done].
  - intros Hop. specialize (H2 Hop). by destruct (ret =? 0).
  - intros Hop Hex. specialize (H3 Hop). destruct (ret =? 0); [destruct H3 as [[? _] |]; [lia | done] | done].
Qed.

(** The calls that lock(9) permits: LK_SHARED and the upgrades by a thread that has no
    exclusive hold, an upgrade with a shared hold, LK_EXCLUSIVE by a thread with an exclusive
    hold only with LK_CANRECURSE, and, which lock(9) does not ask for, LK_DOWNGRADE only by a
    thread with exactly one exclusive hold. *)
Definition proper (w : world) (i : nat) (c : choice) : bool :=
  allowed w i c &&
  match c, w_thr w !! i with
  | Call f, Some t =>
      let type := Z.land f LK_TYPE_MASK in
      if (type =? LK_SHARED) || (type =? LK_UPGRADE) || (type =? LK_EXCLUPGRADE) then t_ex t =? 0
      else if type =? LK_EXCLUSIVE then implb (0 <? t_ex t) (btest (Z.lor f (lk_flags (w_lock w))) LK_CANRECURSE)
      else true
  | _, _ => true
  end.

(** The worlds that threads can reach by such calls. *)
Inductive properly_reachable (w0 : world) : world -> Prop :=
  | proper_init : properly_reachable w0 w0
  | proper_step w i c w' : properly_reachable w0 w -> proper w i c = true -> step w i c = Some (Done w') -> bounded w' -> properly_reachable w0 w'.

Lemma proper_allowed w i c : proper w i c = true -> allowed w i c = true.
Proof. intros [H _]%andb_true_iff. done. Qed.

Lemma properly_reachable_reachable w0 w : properly_reachable w0 w -> reachable w0 w.
Proof. induction 1 as [| w i c w' _ IH Hp E Hb]; [constructor |]. eapply reach_step; [done | by apply proper_allowed | done | done]. Qed.

Section Props.
Context (wmesg : string) (timo flags : Z) (deadlk : list bool).
#[local] #[warnings="-notation-for-abbreviation"] Notation reach := (reachable (world0 (lockinit wmesg timo flags) deadlk)).

(** C8: the lock excludes.  In every world that threads can reach from a new lock, whatever they call and however their steps, their signals and their timeouts interleave, a thread that has an exclusive hold is the only one that holds the lock at all, and has no shared hold itself. *)
Theorem lockmgr_mutual_exclusion w i j t v : reach w -> w_thr w !! i = Some t -> w_thr w !! j = Some v -> 0 < own t ->
  t_sh v = 0 /\ (i <> j -> own v = 0).
Proof.
  intros I%lk_reachable_inv Hi Hj Ho. destruct (inv_word w I) as (x & s & u & e & g & n & _ & (_ & _ & _ & He0 & _ & Heu & _) & _).
  destruct (holds_nonneg w I v) as (V1 & V2 & _); [by eapply list_elem_of_lookup_2 |]. destruct (lk_holds_le w I j v Hj) as (_ & Hle & _).
  pose proof (sum_pos w I i t Hi Ho). split.
  - destruct e; [destruct Heu; [done | lia] | destruct He0; [done | lia]].
  - intros Hne. destruct (Z.lt_ge_cases 0 (own v)); [| lia]. destruct Hne. by eapply (inv_one w I).
Qed.

(** Everything that a call does, also where lock(9) says something else. *)
Theorem lockmgr_effect w i t : reach w -> w_thr w !! i = Some t -> t_pc t = Idle -> contract t (t_ret t).
Proof. intros I%lk_reachable_inv Hi Hpc. destruct (inv_local w I i t Hi) as (_ & _ & _ & _ & _ & K). unfold knows in K. by rewrite Hpc in K. Qed.

(** C9: what a call of lockmgr returns is what it did.  When a thread is back from a call, then by the type of the request: a shared request of a thread without an exclusive hold added one shared hold if it returned 0, and nothing if it returned an error; an exclusive one that returned 0 added one exclusive hold, and one of a thread without an exclusive hold that returned an error added nothing; an upgrade of a thread without an exclusive hold turned a shared hold into an exclusive one if it returned 0, and has released the shared hold if it returned an error; a downgrade, of a thread with one exclusive hold, and a release always return 0, turn the exclusive hold into a shared one, and drop one hold.  Where the manual and the code disagree, on LK_SHARED and the upgrades by the exclusive holder, nothing is claimed. *)
Theorem lockmgr_contract w i t : reach w -> w_thr w !! i = Some t -> t_pc t = Idle -> documented t (t_ret t).
Proof. intros I%lk_reachable_inv Hi Hpc. apply contract_documented. destruct (inv_local w I i t Hi) as (_ & _ & _ & _ & _ & K). unfold knows in K. by rewrite Hpc in K. Qed.

(** C32: no call panics, as long as threads make only calls that lock(9) permits, and downgrade only a lock that they hold exclusively once: every step of every world that is reached so ends, with one exception, the check of the holder in the release that undo_upreq asks for. *)
Theorem lockmgr_no_panic w i c r : properly_reachable (world0 (lockinit wmesg timo flags) deadlk) w -> proper w i c = true -> step w i c = Some r ->
  (exists w', r = Done w') \/ (r = undo_panic /\ exists t, w_thr w !! i = Some t /\ undoing t).
Proof.
  intros I%properly_reachable_reachable%lk_reachable_inv Ha%proper_allowed E. destruct (step_safe w i c r I Ha E) as [(w' & -> & _) | H]; [left; by exists w' | by right].
Qed.

(** C31: no wakeup is lost.  When a thread sleeps on the lock and has not been woken, then a wakeup is under way, or the lock is held, or granted to an upgrade that was asked for, and the request bit of the sleeping thread is set, on which whoever gives the lock up has to wake it. *)
Theorem lockmgr_no_lost_wakeup w i t l k : reach w -> w_thr w !! i = Some t -> t_pc t = Sleep l k -> t_onq t = true ->
  (exists j v, w_thr w !! j = Some v /\ waking v) \/
  (btest (lk_count (w_lock w)) (match k with
     | SleepLock => if type_of l =? LK_SHARED then LKC_SHREQ else LKC_EXREQ
     | SleepUp c => if btest c LKC_UPREQ then LKC_EXREQ else LKC_UPREQ
     | SleepWait => LKC_UPREQ
     end) = true /\
   exists j v, w_thr w !! j = Some v /\ (0 < own v \/ 0 < t_sh v \/ (btest (lk_count (w_lock w)) LKC_UPGRANT = true /\ 0 < req v))).
Proof.
  intros I%lk_reachable_inv Hi Hpc Hq. destruct (inv_word w I) as (x & s & u & e & g & n & -> & (Hr & Hn & _ & _ & _ & _ & HR & Hz) & [Hwk | Hasks]); [by left | right].
  specialize (Hasks i t Hi Hq). rewrite Hpc in Hasks. rewrite lkw_upgrant by done. split.
  - destruct k as [| c |]; [destruct (_ =? _) | destruct (btest c LKC_UPREQ) |]; by rewrite ?lkw_shreq, ?lkw_exreq, ?lkw_upreq.
  - assert (Hn0 : n <> 0). { intros E. destruct (Hz E) as (-> & -> & ->). destruct k as [| c |]; [destruct (_ =? _) | destruct (btest c LKC_UPREQ) |]; done. }
    destruct (lk_sums_nonneg w I) as (S1 & S2 & S3). destruct (Z.lt_ge_cases 0 (sumf own (w_thr w))) as [H | H].
    { destruct (sumf_pos _ _ H) as (j & v & Hj & Hv). exists j, v. by split; [| left]. }
    destruct (Z.lt_ge_cases 0 (sumf t_sh (w_thr w))) as [H' | H'].
    { destruct (sumf_pos _ _ H') as (j & v & Hj & Hv). exists j, v. by split; [| right; left]. }
    destruct g; [| cbn in Hn; lia]. destruct (sumf_pos req (w_thr w)) as (j & v & Hj & Hv); [pose proof (b2z_bounds u); cbn in HR; lia |]. exists j, v. by split; [| right; right].
Qed.

(** the word counts the holds.  lockcount is the number of all exclusive and shared holds, one more while an upgrade is granted and not yet taken; a thread that is between two calls is told by lockstatus that the lock is its own exactly when it holds it exclusively, lockowned is true for a thread that holds the lock, and a lock that nobody holds or has asked to upgrade is as lockinit left it, so that lockuninit accepts it. *)
Theorem lockmgr_word_correct w i t : reach w -> w_thr w !! i = Some t -> t_pc t = Idle ->
  lockcount (w_lock w) = sumf own (w_thr w) + sumf t_sh (w_thr w) + b2z (btest (lk_count (w_lock w)) LKC_UPGRANT) /\
  (lockstatus (w_lock w) (Some i) = LK_EXCLUSIVE <-> 0 < t_ex t) /\
  (0 < t_ex t + t_sh t -> lockowned (w_lock w) i = true) /\
  ((forall j v, w_thr w !! j = Some v -> own v = 0 /\ t_sh v = 0 /\ req v = 0) -> lk_count (w_lock w) = 0 /\ lockuninit (w_lock w) = Done tt).
Proof.
  intros I%lk_reachable_inv Hi Hpc. destruct (inv_word w I) as (x & s & u & e & g & n & Ew & (Hr & Hn & He1 & He0 & Hg & Heu & HR & Hz) & _).
  destruct (inv_local w I i t Hi) as (L1 & L2 & L3 & _ & L5 & _). destruct L5 as [L5 _]; [unfold inflight; by rewrite Hpc |]. destruct (lk_holds_le w I i t Hi) as (O1 & O2 & _).
  destruct (lk_sums_nonneg w I) as (S1 & S2 & _). unfold lockcount, lockstatus, lockowned, lockuninit. rewrite Ew, lkw_mask, lkw_excl, lkw_upgrant by done. assert (Eo : own t = t_ex t + t_kex t) by done. pose proof (b2z_bounds g). split_and!.
  - done.
  - destruct e.
    + destruct (decide _) as [Eh | Eh]; (split; [| intros; (done || by destruct Eh; apply L5)]); [| done]. intros _. destruct (inv_holder w I) as [H1 _]. destruct (H1 i Eh) as (v & Hv & ?). congruence.
    + destruct He0 as [Hs _]; [done |]. split; [| lia]. by destruct (negb _).
  - intros Hh. destruct e; [apply bool_decide_eq_true, L5; destruct Heu; [done | lia] |]. apply negb_true_iff, Z.eqb_neq. lia.
  - intros H0. assert (E0 : forall f, (forall j v, w_thr w !! j = Some v -> f v = 0) -> sumf f (w_thr w) = 0).
    { intros f Hf. clear -Hf. induction (w_thr w) as [| a ts IH]; [done |]. simpl. rewrite (Hf 0%nat a eq_refl), IH; [done |]. intros j. apply (Hf (S j)). }
    rewrite !E0 in * by (intros j v Hj; by destruct (H0 j v Hj) as (? & ? & ?)). pose proof (b2z_bounds u). assert (g = false) as -> by (destruct g; [cbn in HR; lia | done]). cbn in Hn.
    destruct (Hz ltac:(lia)) as (-> & -> & ->). assert (n = 0) as -> by lia. destruct e; [specialize (He1 eq_refl); cbn in He1; lia | done].
Qed.
End Props.

(** ** Runs *)

Module Runs.
Definition go (i n : nat) : list (nat * choice) := replicate n (i, Go).

(** A new lock, and three threads. *)
Definition start0 : world := world0 (lockinit "lk" 0 0) [false; false; false].

(** Thread 0 has the lock exclusively, thread 1 sleeps in LK_EXCLUSIVE. *)
Definition contended : world :=
  Eval vm_compute in default start0 (run_allowed start0 ((0%nat, Call LK_EXCLUSIVE) :: go 0 3 ++ (1%nat, Call LK_EXCLUSIVE) :: go 1 4)).

(** The same for a schedule that is given. *)
Fixpoint run_proper (w : world) (s : list (nat * choice)) : option world :=
  match s with
  | [] => Some w
  | (i, c) :: s =>
      if proper w i c then
        match step w i c with
        | Some (Done w') => if sumf own (w_thr w') + sumf t_sh (w_thr w') <? 2 ^ 27 then run_proper w' s else None
        | _ => None
        end
      else None
  end.

Lemma run_proper_reachable w0 s w w' : properly_reachable w0 w -> run_proper w s = Some w' -> properly_reachable w0 w'.
Proof.
  revert w. induction s as [| [i c] s IH]; intros w Hr E; simpl in E; [by simplify_eq |].
  destruct (proper w i c) eqn:Ea; [| done]. destruct (step w i c) as [[w1 |]|] eqn:Es; try done.
  destruct (Z.ltb_spec (sumf own (w_thr w1) + sumf t_sh (w_thr w1)) (2 ^ 27)) as [Hb |]; [| done].
  by apply (IH w1); [eapply proper_step |].
Qed.

Lemma lk_contended_properly : properly_reachable start0 contended.
Proof.
  eapply (run_proper_reachable start0 ((0%nat, Call LK_EXCLUSIVE) :: go 0 3 ++ (1%nat, Call LK_EXCLUSIVE) :: go 1 4)); [constructor |]. vm_compute. reflexivity.
Qed.

Lemma lk_contended_reachable : reachable start0 contended.
Proof.
  eapply (run_allowed_reachable start0 ((0%nat, Call LK_EXCLUSIVE) :: go 0 3 ++ (1%nat, Call LK_EXCLUSIVE) :: go 1 4)); [constructor |]. vm_compute. reflexivity.
Qed.

Lemma lockmgr_mutual_exclusion_witness : exists t v, w_thr contended !! 0%nat = Some t /\ w_thr contended !! 1%nat = Some v /\ 0 < own t /\ t_sh v = 0 /\ (0%nat <> 1%nat -> own v = 0).
Proof.
  eexists _, _. split; [reflexivity |]. split; [reflexivity |]. split; [reflexivity |].
  apply (lockmgr_mutual_exclusion "lk" 0 0 [false; false; false] contended 0 1 _ _ lk_contended_reachable eq_refl eq_refl eq_refl).
Defined.

Lemma lockmgr_contract_witness : exists t, w_thr contended !! 0%nat = Some t /\ t_op t = LK_EXCLUSIVE /\ documented t 0.
Proof.
  eexists. split; [reflexivity |]. split; [reflexivity |].
  apply (lockmgr_contract "lk" 0 0 [false; false; false] contended 0 _ lk_contended_reachable eq_refl eq_refl).
Defined.

Lemma lockmgr_no_panic_witness : exists r, step contended 0 (Call LK_RELEASE) = Some r /\
  ((exists w', r = Done w') \/ (r = undo_panic /\ exists t, w_thr contended !! 0%nat = Some t /\ undoing t)).
Proof.
  eexists. split; [reflexivity |].
  apply (lockmgr_no_panic "lk" 0 0 [false; false; false] contended 0 (Call LK_RELEASE) _ lk_contended_properly eq_refl eq_refl).
Defined.

Lemma lockmgr_no_lost_wakeup_witness :
  (exists j v, w_thr contended !! j = Some v /\ waking v) \/
  (btest (lk_count (w_lock contended)) LKC_EXREQ = true /\
   exists j v, w_thr contended !! j = Some v /\ (0 < own v \/ 0 < t_sh v \/ (btest (lk_count (w_lock contended)) LKC_UPGRANT = true /\ 0 < req v))).
Proof.
  apply (lockmgr_no_lost_wakeup "lk" 0 0 [false; false; false] contended 1 _ _ SleepLock lk_contended_reachable eq_refl eq_refl eq_refl).
Defined.

Lemma lockmgr_word_correct_witness : exists t, w_thr contended !! 0%nat = Some t /\
  lockcount (w_lock contended) = sumf own (w_thr contended) + sumf t_sh (w_thr contended) + b2z (btest (lk_count (w_lock contended)) LKC_UPGRANT) /\
  (lockstatus (w_lock contended) (Some 0%nat) = LK_EXCLUSIVE <-> 0 < t_ex t) /\
  (0 < t_ex t + t_sh t -> lockowned (w_lock contended) 0 = true) /\
  ((forall j v, w_thr contended !! j = Some v -> own v = 0 /\ t_sh v = 0 /\ req v = 0) -> lk_count (w_lock contended) = 0 /\ lockuninit (w_lock contended) = Done tt).
Proof.
  eexists. split; [reflexivity |].
  apply (lockmgr_word_correct "lk" 0 0 [false; false; false] contended 0 _ lk_contended_reachable eq_refl eq_refl).
Defined.

(** *** Upgrades that are given up *)

Definition two_shared : list (nat * choice) := (0%nat, Call LK_SHARED) :: go 0 2 ++ (1%nat, Call LK_SHARED) :: go 1 2.

(** Thread 0 asks for an upgrade with LK_SLEEPFAIL and returns ENOLCK from its first sleep; thread 1 has released the lock meanwhile and granted the upgrade; nobody holds the lock and nobody is in lockmgr, but thread 2 is refused it, because the grant is still in the word. *)
Theorem upgrade_left_behind : exists w, reachable start0 w /\
  Forall (fun t => t_pc t = Idle /\ own t = 0 /\ t_sh t = 0) (w_thr w) /\
  lk_count (w_lock w) = Z.lor (Z.lor LKC_EXCL LKC_UPGRANT) 1 /\ t_ret <$> w_thr w !! 2%nat = Some EBUSY.
Proof.
  eexists. split.
  - eapply (run_allowed_reachable start0 (two_shared ++ (0%nat, Call (Z.lor LK_UPGRADE LK_SLEEPFAIL)) :: go 0 3 ++ (1%nat, Call LK_RELEASE) :: go 1 3 ++
      [(0%nat, Woken 0); (2%nat, Call (Z.lor LK_EXCLUSIVE LK_NOWAIT))] ++ go 2 2)); [constructor |]. vm_compute. reflexivity.
  - split; [| done]. repeat constructor.
Qed.

(** Thread 0 waits for its upgrade, is granted it and is interrupted by a signal at the same time: undo_upreq takes the grant and calls LK_RELEASE, which panics, because the holder is not set. *)
Theorem undo_upreq_panics : exists w, reachable start0 w /\ step w 0 Go = Some undo_panic.
Proof.
  eexists. split.
  - eapply (run_allowed_reachable start0 (two_shared ++ (0%nat, Call (Z.lor LK_UPGRADE LK_PCATCH)) :: go 0 3 ++ [(0%nat, Woken 0)] ++ go 0 3 ++
      (1%nat, Call LK_RELEASE) :: go 1 3 ++ [(0%nat, Woken 4)] ++ go 0 3)); [constructor |]. vm_compute. reflexivity.
  - vm_compute. reflexivity.
Qed.

(** A lock that is held twice can not be downgraded. *)
Theorem recursive_downgrade_panics :
  run_schedule start0 ((0%nat, Call LK_EXCLUSIVE) :: go 0 3 ++ (0%nat, Call (Z.lor LK_EXCLUSIVE LK_CANRECURSE)) :: go 0 3 ++ (0%nat, Call LK_DOWNGRADE) :: go 0 2) =
    Some (Fault (Panic "lockmgr: not holding exclusive lock")).
Proof. vm_compute. reflexivity. Qed.

(** An upgrade by the exclusive holder returns 0 and changes nothing. *)
Theorem upgrade_by_holder : exists w t, reachable start0 w /\ w_thr w !! 0%nat = Some t /\
  t_pc t = Idle /\ t_op t = LK_UPGRADE /\ t_ret t = 0 /\ t_ex t = 1 /\ t_sh t = 0.
Proof.
  eexists _, _. split.
  - eapply (run_allowed_reachable start0 ((0%nat, Call LK_EXCLUSIVE) :: go 0 3 ++ (0%nat, Call LK_UPGRADE) :: go 0 2)); [constructor |]. vm_compute. reflexivity.
  - by split.
Qed.

(** A shared request of the exclusive holder adds an exclusive hold. *)
Theorem shared_by_holder : exists w t, reachable start0 w /\ w_thr w !! 0%nat = Some t /\
  t_pc t = Idle /\ t_op t = LK_SHARED /\ t_ret t = 0 /\ t_ex t = 2 /\ t_sh t = 0.
Proof.
  eexists _, _. split.
  - eapply (run_allowed_reachable start0 ((0%nat, Call LK_EXCLUSIVE) :: go 0 3 ++ (0%nat, Call (Z.lor LK_SHARED LK_CANRECURSE)) :: go 0 3)); [constructor |]. vm_compute. reflexivity.
  - by split.
Qed.
End Runs.
