(* ===== verification/Unit.v ===== *)
(** * Unit numbers: sys/kern/subr_unit.c

    A set of numbers is kept as a number of allocated ones at the start, a number of free
    ones at the end, and in between a list of runs, free or allocated, and of bitmaps.
    Runs and bitmaps are objects in a heap, so that a use of freed memory is a fault, and
    a run whose memory becomes a bitmap is the same object.  The option DIAGNOSTIC is on:
    check_unrhdr is part of the model. *)

From stdpp Require Import prelude list strings gmap.
From S2P Require Import Prelude.
From S2P Require Import Tailq.
From S2P Require Import Bitstring.
From S2P Require Lockmgr.
Open Scope Z_scope.

(** up->ptr: NULL, the header, or a bitmap *)
Inductive pointer := PNull | PHdr | PMap (p : nat).

#[export] Instance pointer_eq_dec : EqDecision pointer.
Proof. solve_decision. Defined.

(** struct unr, its place in the list apart, and struct unrb *)
Record unr := Unr { len : Z; ptr : pointer }.
Record unrb := Unrb { ub_busy : Z; ub_map : list Z }.

(** sizeof(struct unr) is 32 on x86_64 *)
Definition MAPSIZE : Z := 32 - 1.
Definition NBITS : Z := MAPSIZE * 8.

(** What a piece of memory of this size is used for; [OMem]: allocated, not in use. *)
Inductive obj := OUnr (u : unr) | OUnrb (b : unrb) | OMem.

(** struct unrhdr, with the memory: the objects and the next number. *)
Record unrhdr := Unrhdr {
  uh_head : list nat;
  uh_low : Z;
  uh_high : Z;
  uh_busy : Z;
  uh_alloc : Z;
  uh_first : Z;
  uh_last : Z;
  uh_heap : gmap nat obj;
  uh_next : nat
}.

Definition set_head (uh : unrhdr) (v : list nat) : unrhdr :=
  Unrhdr v (uh_low uh) (uh_high uh) (uh_busy uh) (uh_alloc uh) (uh_first uh) (uh_last uh) (uh_heap uh) (uh_next uh).
Definition set_busy (uh : unrhdr) (v : Z) : unrhdr :=
  Unrhdr (uh_head uh) (uh_low uh) (uh_high uh) v (uh_alloc uh) (uh_first uh) (uh_last uh) (uh_heap uh) (uh_next uh).
Definition set_alloc (uh : unrhdr) (v : Z) : unrhdr :=
  Unrhdr (uh_head uh) (uh_low uh) (uh_high uh) (uh_busy uh) v (uh_first uh) (uh_last uh) (uh_heap uh) (uh_next uh).
Definition set_first (uh : unrhdr) (v : Z) : unrhdr :=
  Unrhdr (uh_head uh) (uh_low uh) (uh_high uh) (uh_busy uh) (uh_alloc uh) v (uh_last uh) (uh_heap uh) (uh_next uh).
Definition set_last (uh : unrhdr) (v : Z) : unrhdr :=
  Unrhdr (uh_head uh) (uh_low uh) (uh_high uh) (uh_busy uh) (uh_alloc uh) (uh_first uh) v (uh_heap uh) (uh_next uh).
Definition set_heap (uh : unrhdr) (v : gmap nat obj) : unrhdr :=
  Unrhdr (uh_head uh) (uh_low uh) (uh_high uh) (uh_busy uh) (uh_alloc uh) (uh_first uh) (uh_last uh) v (uh_next uh).

(** Reading and writing an object through a pointer. *)
Definition get_unr (uh : unrhdr) (p : nat) : outcome unr :=
  match uh_heap uh !! p with Some (OUnr u) => Done u | _ => Fault NullDeref end.
Definition get_unrb (uh : unrhdr) (p : nat) : outcome unrb :=
  match uh_heap uh !! p with Some (OUnrb b) => Done b | _ => Fault NullDeref end.
Definition store (uh : unrhdr) (p : nat) (o : obj) : unrhdr := set_heap uh (<[p := o]> (uh_heap uh)).

Definition Malloc (uh : unrhdr) : unrhdr * nat :=
  (Unrhdr (uh_head uh) (uh_low uh) (uh_high uh) (uh_busy uh) (uh_alloc uh) (uh_first uh) (uh_last uh)
     (<[uh_next uh := OMem]> (uh_heap uh)) (S (uh_next uh)), uh_next uh).
Definition Free (uh : unrhdr) (p : nat) : outcome unrhdr :=
  match uh_heap uh !! p with Some _ => Done (set_heap uh (delete p (uh_heap uh))) | None => Fault NullDeref end.

Definition is_bitmap (u : unr) : bool := match ptr u with PMap _ => true | _ => false end.

(** ** The consistency check *)

Fixpoint count_loop (n : nat) (map : list Z) (x w : Z) : outcome Z :=
  match n with
  | O => mret w
  | S n => b ← bit_test map x; count_loop n map (x + 1) (if b : bool then u32 (w + 1) else w)
  end.

Fixpoint check_loop (uh : unrhdr) (l : list nat) (y z : Z) : outcome (Z * Z) :=
  match l with
  | [] => mret (y, z)
  | up :: l =>
      u ← get_unr uh up;
      let z := u32 (z + 1) in
      match ptr u with
      | PMap p =>
          ub ← get_unrb uh p;
          _ ← KKASSERT "UNR inconsistency: len" (len u <=? NBITS);
          w ← count_loop (Z.to_nat (len u)) (ub_map ub) 0 0;
          _ ← KKASSERT "UNR inconsistency: busy" (w =? ub_busy ub);
          check_loop uh l (u32 (y + w)) (u32 (z + 1))
      | PHdr => check_loop uh l (u32 (y + len u)) z
      | PNull => check_loop uh l y z
      end
  end.

Definition check_unrhdr (uh : unrhdr) : outcome unit :=
  '(y, z) ← check_loop uh (uh_head uh) (uh_first uh) 0;
  _ ← KKASSERT "UNR inconsistency: items" (y =? uh_busy uh);
  KKASSERT "UNR inconsistency: chunks" (z =? uh_alloc uh).

(** ** Memory *)

(** [p1] and [p2] are the pieces of memory that the caller has got. *)
Definition new_unr (uh : unrhdr) (p1 p2 : option nat) : outcome (unrhdr * nat * option nat * option nat) :=
  let uh := set_alloc uh (u32 (uh_alloc uh + 1)) in
  match p1, p2 with
  | Some p, _ => mret (uh, p, None, p2)
  | None, Some p => mret (uh, p, p1, None)
  | None, None => Fault (Panic "Out of cached memory")
  end.

Definition delete_unr (uh : unrhdr) (p : nat) : outcome unrhdr :=
  Free (set_alloc uh (u32 (uh_alloc uh - 1))) p.

(** int arithmetic in 1 + (high - low) *)
Definition new_unrhdr (low high : Z) : outcome unrhdr :=
  _ ← KKASSERT "UNR: use error: new_unrhdr" (low <=? high);
  let uh := Unrhdr [] (u32 low) (u32 high) 0 0 0 (u32 (1 + (high - low))) ∅ 0 in
  _ ← check_unrhdr uh;
  mret uh.

Definition delete_unrhdr (uh : unrhdr) : outcome unit :=
  _ ← check_unrhdr uh;
  _ ← KKASSERT "unrhdr has allocations" (uh_busy uh =? 0);
  KKASSERT "UNR memory leak in delete_unrhdr" (uh_alloc uh =? 0).

(** ** optimize_unr *)

Section Stale.
(** The bytes of the memory of a run, when it is seen as a bitmap. *)
Context (stale : unr -> nat -> Z).
Definition stale_map (u : unr) : list Z := (fun i => u8 (stale u i)) <$> seq 0 (Z.to_nat MAPSIZE).

(** The inner loop: how many pieces of memory the elements from here on take, as far as
    they fit into a bitmap. *)
Fixpoint window (uh : unrhdr) (rest : list nat) (l a : Z) : outcome Z :=
  match rest with
  | [] => mret a
  | up :: rest =>
      u ← get_unr uh up;
      if u32 (len u + l) >? NBITS then mret a
      else window uh rest (u32 (l + len u)) (if is_bitmap u then a + 2 else a + 1)
  end.

(** TAILQ_FOREACH(uf, &uh->head, list): the best element to start at *)
Fixpoint scan (uh : unrhdr) (l : list nat) (ba : Z) (us : option nat) : outcome (Z * option nat) :=
  match l with
  | [] => mret (ba, us)
  | uf :: rest =>
      u ← get_unr uh uf;
      if len u >=? NBITS then scan uh rest ba us
      else
        a ← window uh rest (len u) (if is_bitmap u then 2 else 1);
        if a >? ba then scan uh rest a (Some uf) else scan uh rest ba us
  end.

(** for (l = 0; l < uf->len; l++, a++): copy a bitmap behind another one *)
Fixpoint copy_bits (n : nat) (src : list Z) (l a : Z) (dst : list Z) (busy : Z) : outcome (list Z * Z) :=
  match n with
  | O => mret (dst, busy)
  | S n =>
      b ← bit_test src l;
      if b : bool then dst ← bit_set dst a; copy_bits n src (l + 1) (a + 1) dst (u8 (busy + 1))
      else dst ← bit_clear dst a; copy_bits n src (l + 1) (a + 1) dst busy
  end.

(** The part of a bitmap from [a] on becomes what the element [v] says. *)
Definition append_bits (uh : unrhdr) (v : unr) (a : Z) (b : unrb) : outcome unrb :=
  match ptr v with
  | PNull => map ← bit_nclear (ub_map b) a (a + len v - 1); mret (Unrb (ub_busy b) map)
  | PHdr => map ← bit_nset (ub_map b) a (a + len v - 1); mret (Unrb (u8 (ub_busy b + len v)) map)
  | PMap ubf =>
      f ← get_unrb uh ubf;
      '(map, busy) ← copy_bits (Z.to_nat (len v)) (ub_map f) 0 a (ub_map b) (ub_busy b);
      mret (Unrb busy map)
  end.

(** If the first element is not a bitmap, make it one: its memory becomes the bitmap of the
    second element. *)
Definition make_bitmap (uh : unrhdr) (us : nat) : outcome (unrhdr * nat) :=
  u ← get_unr uh us;
  let uf := tailq_next us (uh_head uh) in
  let uh := set_head uh (tailq_remove us (uh_head uh)) in
  let a := len u in
  ub ← (if decide (ptr u = PHdr)
        then map ← bit_nset (stale_map u) 0 a; mret (Unrb (u8 a) map)
        else map ← bit_nclear (stale_map u) 0 a; mret (Unrb 0 map));
  let uh := store uh us (OUnrb ub) in
  match uf with
  | None => Fault NullDeref
  | Some uf =>
      v ← get_unr uh uf;
      ub ← append_bits uh v a ub;
      uh ← match ptr v with PMap ubf => delete_unr uh ubf | _ => mret uh end;
      let uh := store uh us (OUnrb ub) in
      mret (store uh uf (OUnr (Unr (u32 (len v + a)) (PMap us))), uf)
  end.

(** while (1): take in the following elements *)
Fixpoint merge_loop (fuel : nat) (uh : unrhdr) (us ub : nat) : outcome unrhdr :=
  match fuel with
  | O => Fault OutOfFuel
  | S fuel =>
      match tailq_next us (uh_head uh) with
      | None => mret uh
      | Some uf =>
          u ← get_unr uh us;
          v ← get_unr uh uf;
          if u32 (len v + len u) >? NBITS then mret uh
          else
            b ← get_unrb uh ub;
            b ← append_bits uh v (len u) b;
            let uh := store uh ub (OUnrb b) in
            let uh := store uh us (OUnr (Unr (u32 (len u + len v)) (ptr u))) in
            let uh := set_head uh (tailq_remove uf (uh_head uh)) in
            uh ← match ptr v with PMap ubf => delete_unr uh ubf | _ => mret uh end;
            uh ← delete_unr uh uf;
            merge_loop fuel uh us ub
      end
  end.

Definition optimize_unr (uh : unrhdr) : outcome (unrhdr * bool) :=
  '(ba, us) ← scan uh (uh_head uh) 0 None;
  if ba <? 3 then mret (uh, false)
  else
    match us with
    | None => Fault NullDeref
    | Some us =>
        u ← get_unr uh us;
        '(uh, us) ← (if is_bitmap u then mret (uh, us) else make_bitmap uh us);
        u ← get_unr uh us;
        match ptr u with
        | PMap ub => uh ← merge_loop (length (uh_head uh)) uh us ub; mret (uh, true)
        | _ => Fault NullDeref
        end
    end.

(** while (optimize_unr(uh)) continue; *)
Fixpoint optimize_loop (fuel : nat) (uh : unrhdr) : outcome unrhdr :=
  match fuel with
  | O => Fault OutOfFuel
  | S fuel => '(uh, more) ← optimize_unr uh; if more : bool then optimize_loop fuel uh else mret uh
  end.

(** ** collapse_unr *)

(** If bitmap is all set or clear, change it to runlength *)
Definition to_run (uh : unrhdr) (up : nat) : outcome unrhdr :=
  u ← get_unr uh up;
  match ptr u with
  | PMap p =>
      ub ← get_unrb uh p;
      if ub_busy ub =? len u then uh ← delete_unr uh p; mret (store uh up (OUnr (Unr (len u) PHdr)))
      else if ub_busy ub =? 0 then uh ← delete_unr uh p; mret (store uh up (OUnr (Unr (len u) PNull)))
      else mret uh
  | _ => mret uh
  end.

(** If nothing left in runlength, delete it *)
Definition drop_empty (uh : unrhdr) (up : nat) : outcome (unrhdr * option nat) :=
  u ← get_unr uh up;
  if len u =? 0 then
    let upp := match tailq_prev None up (uh_head uh) with Some p => Some p | None => tailq_next up (uh_head uh) end in
    uh ← delete_unr (set_head uh (tailq_remove up (uh_head uh))) up;
    mret (uh, upp)
  else mret (uh, Some up).

(** Merge with a neighbor *)
Definition merge_into (uh : unrhdr) (up : nat) (upp : option nat) : outcome unrhdr :=
  match upp with
  | None => mret uh
  | Some upp =>
      u ← get_unr uh up;
      v ← get_unr uh upp;
      if decide (ptr u = ptr v) then
        let uh := store uh up (OUnr (Unr (u32 (len u + len v)) (ptr u))) in
        delete_unr (set_head uh (tailq_remove upp (uh_head uh))) upp
      else mret uh
  end.

Definition merge_both (uh : unrhdr) (up : nat) : outcome unrhdr :=
  uh ← merge_into uh up (tailq_prev None up (uh_head uh));
  merge_into uh up (tailq_next up (uh_head uh)).

(** Merge into ->first and into ->last if possible *)
Definition merge_first (uh : unrhdr) : outcome unrhdr :=
  match head (uh_head uh) with
  | None => mret uh
  | Some upp =>
      u ← get_unr uh upp;
      if decide (ptr u = PHdr) then
        let uh := set_first uh (u32 (uh_first uh + len u)) in
        delete_unr (set_head uh (tailq_remove upp (uh_head uh))) upp
      else mret uh
  end.

Definition merge_last (uh : unrhdr) : outcome unrhdr :=
  match last (uh_head uh) with
  | None => mret uh
  | Some upp =>
      u ← get_unr uh upp;
      if decide (ptr u = PNull) then
        let uh := set_last uh (u32 (uh_last uh + len u)) in
        delete_unr (set_head uh (tailq_remove upp (uh_head uh))) upp
      else mret uh
  end.

Definition collapse_unr (uh : unrhdr) (up : nat) : outcome unrhdr :=
  uh ← to_run uh up;
  '(uh, up) ← drop_empty uh up;
  uh ← match up with Some up => merge_both uh up | None => mret uh end;
  uh ← merge_first uh;
  uh ← merge_last uh;
  optimize_loop (S (length (uh_head uh))) uh.

(** ** Allocation *)

(** alloc_unrl, by the thread [td] with the lock [lkp] in the state that it has *)
Definition alloc_unrl (lkp : Lockmgr.lock) (td : nat) (uh : unrhdr) : outcome (unrhdr * Z) :=
  _ ← KKASSERT "lockstatus(ml, td) != 0" (negb (Lockmgr.lockstatus lkp (Some td) =? 0));
  _ ← check_unrhdr uh;
  let x := u32 (uh_low uh + uh_first uh) in
  match head (uh_head uh) with
  | None =>
      if uh_last uh >? 0 then
        mret (set_busy (set_last (set_first uh (u32 (uh_first uh + 1))) (u32 (uh_last uh - 1))) (u32 (uh_busy uh + 1)), s32 x)
      else mret (uh, -1)
  | Some up =>
      u ← get_unr uh up;
      _ ← KKASSERT "UNR first element is allocated" (negb (bool_decide (ptr u = PHdr)));
      '(uh, x) ← match ptr u with
        | PMap p =>
            ub ← get_unrb uh p;
            _ ← KKASSERT "UNR bitmap confusion" (ub_busy ub <? len u);
            y ← bit_ffc (ub_map ub) (len u);
            _ ← KKASSERT "UNR corruption: No clear bit in bitmap." (negb (y =? -1));
            map ← bit_set (ub_map ub) y;
            mret (store uh p (OUnrb (Unrb (u8 (ub_busy ub + 1)) map)), u32 (x + y))
        | _ => mret (store (set_first uh (u32 (uh_first uh + 1))) up (OUnr (Unr (u32 (len u - 1)) (ptr u))), x)
        end;
      let uh := set_busy uh (u32 (uh_busy uh + 1)) in
      uh ← collapse_unr uh up;
      mret (uh, s32 x)
  end.

(** ** Freeing *)

(** Find the item which contains the unit we want to free *)
Fixpoint find_item (uh : unrhdr) (l : list nat) (item : Z) : outcome (nat * Z) :=
  match l with
  | [] => Fault NullDeref
  | up :: l =>
      u ← get_unr uh up;
      if len u >? item then mret (up, item) else find_item uh l (u32 (item - len u))
  end.

(** Is the neighbour a free run? *)
Definition free_run (uh : unrhdr) (p : option nat) : outcome (option unr) :=
  match p with
  | None => mret None
  | Some p => u ← get_unr uh p; mret (if decide (ptr u = PNull) then Some u else None)
  end.

(** Freeing in the ->first section.  Create a run starting at the freed item. *)
Definition split_first (uh : unrhdr) (item : Z) (p1 p2 : option nat) : outcome (unrhdr * option nat * option nat) :=
  if item <? uh_first uh then
    '(uh, up, p1, p2) ← new_unr uh p1 p2;
    let l := u32 (uh_first uh - item) in
    let uh := store uh up (OUnr (Unr l PHdr)) in
    let uh := set_head uh (up :: uh_head uh) in
    mret (set_first uh (u32 (uh_first uh - l)), p1, p2)
  else mret (uh, p1, p2).

(** Split off the tail end, and the head end, if any. *)
Definition split_run (uh : unrhdr) (up : nat) (u : unr) (item : Z) (p1 p2 : option nat) : outcome (unrhdr * option nat * option nat) :=
  let pl := u32 (len u - (1 + item)) in
  '(uh, p1, p2) ← (if pl >? 0 then
      '(uh, upp, p1, p2) ← new_unr uh p1 p2;
      let uh := store uh upp (OUnr (Unr pl PHdr)) in
      mret (set_head uh (insert_after up upp (uh_head uh)), p1, p2)
    else mret (uh, p1, p2));
  '(uh, p1, p2) ← (if item >? 0 then
      '(uh, upp, p1, p2) ← new_unr uh p1 p2;
      let uh := store uh upp (OUnr (Unr item PHdr)) in
      mret (set_head uh (insert_before up upp (uh_head uh)), p1, p2)
    else mret (uh, p1, p2));
  mret (store uh up (OUnr (Unr 1 PNull)), p1, p2).

(** An item of an allocated run *)
Definition free_in_run (uh : unrhdr) (up : nat) (u : unr) (item : Z) (p1 p2 : option nat) : outcome (unrhdr * option nat * option nat) :=
  if len u =? 1 then
    let uh := set_busy (store uh up (OUnr (Unr 1 PNull))) (u32 (uh_busy uh - 1)) in
    uh ← collapse_unr uh up; mret (uh, p1, p2)
  else
    let upp := tailq_prev None up (uh_head uh) in
    prev ← (if item =? 0 then free_run uh upp else mret None);
    match upp, prev with
    | Some upp, Some v =>
        let uh := store uh upp (OUnr (Unr (u32 (len v + 1)) PNull)) in
        let uh := set_busy (store uh up (OUnr (Unr (u32 (len u - 1)) PHdr))) (u32 (uh_busy uh - 1)) in
        uh ← collapse_unr uh up; mret (uh, p1, p2)
    | _, _ =>
        let upn := tailq_next up (uh_head uh) in
        next ← (if item =? len u - 1 then free_run uh upn else mret None);
        match upn, next with
        | Some upn, Some v =>
            let uh := store uh upn (OUnr (Unr (u32 (len v + 1)) PNull)) in
            let uh := set_busy (store uh up (OUnr (Unr (u32 (len u - 1)) PHdr))) (u32 (uh_busy uh - 1)) in
            uh ← collapse_unr uh up; mret (uh, p1, p2)
        | _, _ =>
            '(uh, p1, p2) ← split_run uh up u item p1 p2;
            uh ← collapse_unr (set_busy uh (u32 (uh_busy uh - 1))) up; mret (uh, p1, p2)
        end
    end.

Definition free_unrl (uh : unrhdr) (item : Z) (p1 p2 : option nat) : outcome (unrhdr * option nat * option nat) :=
  _ ← KKASSERT "UNR: free_unr out of range" ((uh_low uh <=? item) && (item <=? uh_high uh));
  _ ← check_unrhdr uh;
  let item := u32 (item - uh_low uh) in
  if (u32 (item + 1) =? uh_first uh) && bool_decide (uh_head uh = []) then
    let uh := set_busy (set_first (set_last uh (u32 (uh_last uh + 1))) (u32 (uh_first uh - 1))) (u32 (uh_busy uh - 1)) in
    _ ← check_unrhdr uh;
    mret (uh, p1, p2)
  else
    '(uh, p1, p2) ← split_first uh item p1 p2;
    let item := u32 (item - uh_first uh) in
    '(up, item) ← find_item uh (uh_head uh) item;
    u ← get_unr uh up;
    match ptr u with
    | PMap p =>
        ub ← get_unrb uh p;
        b ← bit_test (ub_map ub) item;
        _ ← KKASSERT "UNR: Freeing free item (bitmap)" b;
        map ← bit_clear (ub_map ub) item;
        let uh := set_busy (store uh p (OUnrb (Unrb (u8 (ub_busy ub - 1)) map))) (u32 (uh_busy uh - 1)) in
        uh ← collapse_unr uh up; mret (uh, p1, p2)
    | PNull => Fault (Panic "UNR Freeing free item (run)")
    | PHdr => free_in_run uh up u item p1 p2
    end.

(** if (p != NULL) Free(p); *)
Definition free_cached (uh : unrhdr) (p : option nat) : outcome unrhdr :=
  match p with Some p => Free uh p | None => mret uh end.

(** The lock is taken and released around free_unrl. *)
Definition free_unr (uh : unrhdr) (item : Z) : outcome unrhdr :=
  let '(uh, p1) := Malloc uh in
  let '(uh, p2) := Malloc uh in
  '(uh, p1, p2) ← free_unrl uh item (Some p1) (Some p2);
  uh ← free_cached uh p1;
  free_cached uh p2.
End Stale.
