(* ===== verification/UnitRep.v ===== *)
(** * Unit numbers: what the list of runs and bitmaps stands for

    A chunk is an element of the list with the objects that it uses; a list of chunks stands
    for the list of its bits, one for every number.  At the end: what the loops over bits do
    to the bits of a bitmap. *)

From stdpp Require Import prelude list strings gmap.
From S2P Require Import Prelude.
From S2P Require Import Tailq.
From S2P Require Import Bitstring.
From S2P Require Import Unit.
Open Scope Z_scope.

(** A run of [n] numbers, allocated or free, in the object [p]; a bitmap [map] of [n] numbers,
    in the objects [p] and [m]. *)
Inductive chunk := CRun (p : nat) (b : bool) (n : Z) | CMap (p m : nat) (n : Z) (map : list Z).

Definition cid (c : chunk) : nat := match c with CRun p _ _ | CMap p _ _ _ => p end.
Definition cids (c : chunk) : list nat := match c with CRun p _ _ => [p] | CMap p m _ _ => [p; m] end.
Definition ids (cs : list chunk) : list nat := concat (cids <$> cs).
Definition clen (c : chunk) : Z := match c with CRun _ _ n | CMap _ _ n _ => n end.
Definition cptr (c : chunk) : pointer := match c with CRun _ b _ => if b then PHdr else PNull | CMap _ m _ _ => PMap m end.
Definition cunr (c : chunk) : unr := Unr (clen c) (cptr c).

(** The bits of a chunk, and how many of them are set. *)
Definition cbits (c : chunk) : list bool :=
  match c with CRun _ b n => replicate (Z.to_nat n) b | CMap _ _ n map => mbit map <$> seqZ 0 n end.
Definition bits (cs : list chunk) : list bool := concat (cbits <$> cs).
Fixpoint cnt (l : list bool) : Z := match l with [] => 0 | b :: l => (if b then 1 else 0) + cnt l end.

(** The objects of a chunk in the heap. *)
Definition chunk_in (heap : gmap nat obj) (c : chunk) : Prop :=
  heap !! cid c = Some (OUnr (cunr c)) /\
  match c with CRun _ _ _ => True | CMap _ m _ map => heap !! m = Some (OUnrb (Unrb (cnt (cbits c)) map)) end.

Definition chunk_ok (c : chunk) : Prop :=
  match c with CRun _ _ n => 0 <= n | CMap _ _ n map => is_map MAPSIZE map /\ 0 < n <= NBITS end.

(** The header with the list [cs]; [F] are pieces of memory that are allocated, but not in
    use. *)
Record rep (uh : unrhdr) (F : list nat) (cs : list chunk) : Prop := {
  rep_head : uh_head uh = cid <$> cs;
  rep_in : Forall (chunk_in (uh_heap uh)) cs;
  rep_nodup : NoDup (ids cs ++ F);
  rep_dom : forall p, is_Some (uh_heap uh !! p) <-> p ∈ ids cs ++ F;
  rep_alloc : uh_alloc uh = zlen (ids cs);
  rep_ok : Forall chunk_ok cs;
  rep_fresh : forall p, p ∈ ids cs ++ F -> (p < uh_next uh)%nat
}.

(** ** Lists of chunks *)

Lemma ids_app A B : ids (A ++ B) = ids A ++ ids B.
Proof. unfold ids. by rewrite fmap_app, concat_app. Qed.
Lemma ids_cons c B : ids (c :: B) = cids c ++ ids B.
Proof. done. Qed.
Lemma bits_app A B : bits (A ++ B) = bits A ++ bits B.
Proof. unfold bits. by rewrite fmap_app, concat_app. Qed.
Lemma bits_cons c B : bits (c :: B) = cbits c ++ bits B.
Proof. done. Qed.

Lemma cid_in c : cid c ∈ cids c.
Proof. destruct c; simpl; set_solver. Qed.

Lemma cnt_app l k : cnt (l ++ k) = cnt l + cnt k.
Proof. induction l as [| b l IH]; simpl; [done |]. rewrite IH. lia. Qed.

Lemma cnt_range l : 0 <= cnt l <= zlen l.
Proof. unfold zlen. induction l as [| [] l IH]; simpl; lia. Qed.

Lemma cnt_replicate n b : cnt (replicate n b) = if b then Z.of_nat n else 0.
Proof. induction n as [| n IH]; destruct b; simpl in *; lia. Qed.

Lemma cnt_insert l i (b b' : bool) : l !! i = Some b -> cnt (<[i := b']> l) = cnt l - (if b then 1 else 0) + (if b' then 1 else 0).
Proof. revert i. induction l as [| a l IH]; intros [| i] H; simplify_eq/=; [lia |]. rewrite IH by done. lia. Qed.

Lemma clen_bits c : chunk_ok c -> zlen (cbits c) = clen c.
Proof. unfold zlen. destruct c; simpl; [rewrite length_replicate | intros [_ H]; rewrite length_fmap, length_seqZ]; lia. Qed.

Lemma clen_nonneg c : chunk_ok c -> 0 <= clen c.
Proof. destruct c; simpl; [done | lia]. Qed.

(** The sum of the lengths. *)
Definition total (cs : list chunk) : Z := zlen (bits cs).

Lemma chunks_total_app A B : total (A ++ B) = total A + total B.
Proof. unfold total. by rewrite bits_app, zlen_app. Qed.
Lemma total_cons c B : chunk_ok c -> total (c :: B) = clen c + total B.
Proof. intros H. unfold total. by rewrite bits_cons, zlen_app, clen_bits. Qed.
Lemma total_nonneg A : 0 <= total A.
Proof. apply zlen_nonneg. Qed.

Lemma elem_of_ids c cs : c ∈ cs -> cid c ∈ ids cs.
Proof. intros (A & B & ->)%list_elem_of_split. rewrite ids_app, ids_cons. pose proof (cid_in c). set_solver. Qed.

(** ** The chunk in the middle *)

Section Rep.
Context (uh : unrhdr) (F : list nat).

Lemma rep_mid_notin A c B : rep uh F (A ++ c :: B) -> cid c ∉ cid <$> A.
Proof.
  intros R Hin. apply list_elem_of_fmap in Hin as (a & E & Ha). pose proof (rep_nodup _ _ _ R) as H. rewrite ids_app, ids_cons, <- app_assoc in H. apply NoDup_app in H as (_ & H & _).
  apply (H (cid a)); [by apply elem_of_ids |]. rewrite <- E. pose proof (cid_in c). set_solver.
Qed.

Lemma rep_get A c B : rep uh F (A ++ c :: B) -> get_unr uh (cid c) = Done (cunr c).
Proof. intros R. pose proof (rep_in _ _ _ R) as H. apply Forall_app in H as [_ H]. inversion H as [| ? ? [E _]]; subst. unfold get_unr. by rewrite E. Qed.

Lemma rep_get_map A p m n map B : rep uh F (A ++ CMap p m n map :: B) -> get_unrb uh m = Done (Unrb (cnt (cbits (CMap p m n map))) map).
Proof. intros R. pose proof (rep_in _ _ _ R) as H. apply Forall_app in H as [_ H]. inversion H as [| ? ? [_ E]]; subst. unfold get_unrb. by rewrite E. Qed.

Lemma rep_chunk_ok A c B : rep uh F (A ++ c :: B) -> chunk_ok c.
Proof. intros R. pose proof (rep_ok _ _ _ R) as H. apply Forall_app in H as [_ H]. by inversion H. Qed.

(** What the list macros do at a chunk. *)
Lemma rep_next_mid A c B : rep uh F (A ++ c :: B) -> tailq_next (cid c) (uh_head uh) = head (cid <$> B).
Proof. intros R. rewrite (rep_head _ _ _ R), fmap_app, fmap_cons. apply tailq_next_mid. by eapply rep_mid_notin. Qed.
Lemma rep_prev_mid A c B : rep uh F (A ++ c :: B) -> tailq_prev None (cid c) (uh_head uh) = last (cid <$> A).
Proof. intros R. rewrite (rep_head _ _ _ R), fmap_app, fmap_cons. rewrite tailq_prev_mid by (by eapply rep_mid_notin). by destruct (last _). Qed.
Lemma rep_remove_mid A c B : rep uh F (A ++ c :: B) -> tailq_remove (cid c) (uh_head uh) = cid <$> (A ++ B).
Proof. intros R. rewrite (rep_head _ _ _ R), !fmap_app, fmap_cons. apply tailq_remove_mid. by eapply rep_mid_notin. Qed.

(** Some chunks are replaced by others, with the memory that they had or that was unused. *)
Lemma rep_upd uh' F' A X X' B : rep uh F (A ++ X ++ B) -> uh_head uh' = cid <$> (A ++ X' ++ B) ->
  (forall p, p ∉ ids X ++ F -> uh_heap uh' !! p = uh_heap uh !! p) ->
  Forall (chunk_in (uh_heap uh')) X' -> Forall chunk_ok X' -> NoDup (ids X' ++ F') -> ids X' ++ F' ⊆ ids X ++ F ->
  (forall p, p ∈ ids X ++ F -> is_Some (uh_heap uh' !! p) <-> p ∈ ids X' ++ F') ->
  uh_alloc uh' = uh_alloc uh - zlen (ids X) + zlen (ids X') -> uh_next uh' = uh_next uh -> rep uh' F' (A ++ X' ++ B).
Proof.
  intros R Hhd Hout Hin Hok Hnd Hsub Hdom Hal Hnx. pose proof (rep_nodup _ _ _ R) as ND. rewrite !ids_app in ND.
  assert (Hdisj : forall p, p ∈ ids A \/ p ∈ ids B -> p ∉ ids X ++ F).
  { intros p Hp Hx. assert (E : (ids A ++ ids X ++ ids B) ++ F ≡ₚ (ids A ++ ids B) ++ (ids X ++ F)) by solve_Permutation. rewrite E in ND. apply NoDup_app in ND as (_ & ND & _). apply (ND p); set_solver. }
  assert (Hkeep : forall c, c ∈ A \/ c ∈ B -> chunk_in (uh_heap uh) c -> chunk_in (uh_heap uh') c).
  { intros c Hc [E1 E2]. assert (Hci : forall p, p ∈ cids c -> p ∉ ids X ++ F).
    { intros p Hp. apply Hdisj. destruct Hc as [Hc | Hc]; [left | right]; apply list_elem_of_split in Hc as (C & D & ->); rewrite ids_app, ids_cons; set_solver. }
    split; [rewrite Hout by (apply Hci, cid_in); done |]. destruct c; [done |]. rewrite Hout; [done |]. apply Hci. simpl. set_solver. }
  pose proof (rep_in _ _ _ R) as RI. pose proof (rep_ok _ _ _ R) as RO. rewrite !Forall_app in RI, RO. destruct RI as (RA & _ & RB), RO as (OA & _ & OB). constructor.
  - done.
  - rewrite !Forall_app. split_and!; [| done |]; rewrite Forall_forall in *; intros c Hc; apply Hkeep; auto.
  - rewrite !ids_app. assert (E : (ids A ++ ids X' ++ ids B) ++ F' ≡ₚ (ids A ++ ids B) ++ (ids X' ++ F')) by solve_Permutation. rewrite E. apply NoDup_app. split_and!; [| | done].
    + assert (E' : (ids A ++ ids X ++ ids B) ++ F ≡ₚ (ids A ++ ids B) ++ (ids X ++ F)) by solve_Permutation. rewrite E' in ND. by apply NoDup_app in ND as (? & _).
    + intros p Hp Hx. apply (Hdisj p); [set_solver |]. by apply Hsub.
  - intros p. rewrite !ids_app. destruct (decide (p ∈ ids X ++ F)) as [Hp | Hp].
    + rewrite (Hdom p Hp). split; [set_solver |]. intros Hx. assert ((p ∉ ids A) /\ (p ∉ ids B)) by (split; intros ?; by apply (Hdisj p); auto). set_solver.
    + rewrite (Hout p Hp), (rep_dom _ _ _ R p), !ids_app. set_solver.
  - rewrite Hal, (rep_alloc _ _ _ R). rewrite !ids_app, !zlen_app. lia.
  - rewrite !Forall_app. done.
  - intros p Hp. rewrite Hnx. apply (rep_fresh _ _ _ R). rewrite !ids_app in *. set_solver.
Qed.
End Rep.

(** * Bitmaps

    Counting and copying bits, and putting a chunk behind the bits of a bitmap. *)

Definition mbits (map : list Z) (n : Z) : list bool := mbit map <$> seqZ 0 n.

Lemma mbits_ext m m' n : (forall i, 0 <= i < n -> mbit m i = mbit m' i) -> mbits m n = mbits m' n.
Proof. intros H. apply list_fmap_ext. intros k i Hk. apply lookup_seqZ in Hk. apply H. lia. Qed.

Lemma mbits_app m a n : 0 <= a -> 0 <= n -> mbits m (a + n) = mbits m a ++ ((fun i => mbit m (a + i)) <$> seqZ 0 n).
Proof. intros Ha Hn. unfold mbits. rewrite seqZ_app, fmap_app by done. f_equal. replace (seqZ (0 + a) n) with (Z.add a <$> seqZ 0 n) by (rewrite fmap_add_seqZ; f_equal; lia). by rewrite <- list_fmap_compose. Qed.

Lemma mbits_lookup m n i : 0 <= i < n -> mbits m n !! Z.to_nat i = Some (mbit m i).
Proof. intros Hi. unfold mbits. rewrite list_lookup_fmap. rewrite lookup_seqZ_lt by lia. simpl. do 2 f_equal. lia. Qed.

Lemma zlen_mbits m n : 0 <= n -> zlen (mbits m n) = n.
Proof. intros. unfold zlen, mbits. rewrite length_fmap, length_seqZ. lia. Qed.

Lemma cnt_mbits m n : 0 <= n -> 0 <= cnt (mbits m n) <= n.
Proof. intros. pose proof (cnt_range (mbits m n)). by rewrite zlen_mbits in H0. Qed.

Lemma replicate_fmap {A} (f : Z -> A) n x : (forall i, 0 <= i < n -> f i = x) -> f <$> seqZ 0 n = replicate (Z.to_nat n) x.
Proof.
  intros H. apply list_eq. intros k. rewrite list_lookup_fmap. destruct (Z.lt_ge_cases (Z.of_nat k) n) as [Hk | Hk].
  - rewrite lookup_seqZ_lt by lia. simpl. rewrite lookup_replicate_2 by lia. f_equal. apply H. lia.
  - rewrite lookup_seqZ_ge by lia. symmetry. apply lookup_replicate_None. lia.
Qed.

Ltac nbits := unfold NBITS, MAPSIZE in *.

(** ** Loops over bits *)

Lemma count_loop_ok n map x w : is_map MAPSIZE map -> 0 <= x -> x + Z.of_nat n <= NBITS -> 0 <= w <= x ->
  count_loop n map x w = Done (w + cnt (mbit map <$> seqZ x (Z.of_nat n))).
Proof.
  intros Hm. revert x w. induction n as [| n IH]; intros x w Hx Hn Hw; [by rewrite Z.add_0_r |]. cbn [count_loop].
  rewrite (bit_test_ok MAPSIZE map Hm) by (nbits; lia). rewrite bind_Done_l. rewrite seqZ_cons by lia. replace (Z.pred (Z.of_nat (S n))) with (Z.of_nat n) by lia. rewrite fmap_cons, <- Z.add_1_r. cbn [cnt].
  destruct (mbit map x); rewrite ?u32_id by (nbits; unfold_int; lia); rewrite IH by lia; f_equal; lia.
Qed.

Lemma copy_bits_ok n src l a dst busy : is_map MAPSIZE src -> is_map MAPSIZE dst -> 0 <= l -> l + Z.of_nat n <= NBITS -> 0 <= a -> a + Z.of_nat n <= NBITS -> 0 <= busy <= a ->
  exists dst', copy_bits n src l a dst busy = Done (dst', busy + cnt (mbit src <$> seqZ l (Z.of_nat n))) /\ is_map MAPSIZE dst' /\
    forall i, 0 <= i -> mbit dst' i = if (a <=? i) && (i <? a + Z.of_nat n) then mbit src (l + (i - a)) else mbit dst i.
Proof.
  intros Hs. revert l a dst busy. induction n as [| n IH]; intros l a dst busy Hd Hl Hln Ha Han Hb.
  - exists dst. cbn [copy_bits]. split_and!; [by rewrite Z.add_0_r | done |]. intros i Hi. destruct (Z.leb_spec a i), (Z.ltb_spec i (a + Z.of_nat 0)); cbn [andb]; done || lia.
  - cbn [copy_bits]. rewrite (bit_test_ok MAPSIZE src Hs) by (nbits; lia). rewrite bind_Done_l. rewrite seqZ_cons by lia. replace (Z.pred (Z.of_nat (S n))) with (Z.of_nat n) by lia. rewrite fmap_cons, <- Z.add_1_r. cbn [cnt].
    assert (Hstep : exists dst1, (if mbit src l then bit_set dst a else bit_clear dst a) = Done dst1 /\ is_map MAPSIZE dst1 /\ forall i, 0 <= i -> mbit dst1 i = if i =? a then mbit src l else mbit dst i).
    { destruct (mbit src l); [destruct (bit_set_ok MAPSIZE dst Hd a ltac:(nbits; lia)) as (d & E & H1 & H2) | destruct (bit_clear_ok MAPSIZE dst Hd a ltac:(nbits; lia)) as (d & E & H1 & H2)]; exists d; (split_and!; [done | done |]);
        intros i Hi; rewrite H2 by done; by destruct (i =? a). }
    destruct Hstep as (d1 & E1 & M1 & B1).
    assert (Hfin : forall bz, 0 <= bz <= a + 1 -> exists dst', copy_bits n src (l + 1) (a + 1) d1 bz = Done (dst', bz + cnt (mbit src <$> seqZ (l + 1) (Z.of_nat n))) /\ is_map MAPSIZE dst' /\
      forall i, 0 <= i -> mbit dst' i = if (a <=? i) && (i <? a + Z.of_nat (S n)) then mbit src (l + (i - a)) else mbit dst i).
    { intros bz Hbz. destruct (IH (l + 1) (a + 1) d1 bz) as (d2 & E2 & M2 & B2); try done; try lia. exists d2. split_and!; try done. intros i Hi. rewrite B2, B1 by done.
      destruct (Z.leb_spec (a + 1) i), (Z.leb_spec a i), (Z.ltb_spec i (a + 1 + Z.of_nat n)), (Z.ltb_spec i (a + Z.of_nat (S n))), (Z.eqb_spec i a); cbn [andb]; try done; try lia; f_equal; lia. }
    destruct (mbit src l); rewrite E1, bind_Done_l.
    + replace (u8 (busy + 1)) with (busy + 1) by (unfold_int; rewrite Z.mod_small; nbits; lia). destruct (Hfin (busy + 1) ltac:(lia)) as (d2 & -> & M2 & B2). exists d2. split_and!; try done. by rewrite Z.add_assoc.
    + destruct (Hfin busy ltac:(lia)) as (d2 & -> & M2 & B2). exists d2. by split_and!.
Qed.

(** ** A chunk behind the bits of a bitmap *)

Lemma append_ok uh d a b : chunk_in (uh_heap uh) d -> chunk_ok d -> 0 <= a -> 0 < clen d -> a + clen d <= NBITS ->
  is_map MAPSIZE (ub_map b) -> ub_busy b = cnt (mbits (ub_map b) a) ->
  exists map', append_bits uh (cunr d) a b = Done (Unrb (cnt (mbits map' (a + clen d))) map') /\ is_map MAPSIZE map' /\ mbits map' (a + clen d) = mbits (ub_map b) a ++ cbits d.
Proof.
  intros Hin Hok Ha Hd Hn Hm Hb. pose proof (cnt_mbits (ub_map b) a Ha) as Hc.
  assert (Hfin : forall map' bz, is_map MAPSIZE map' -> (forall i, 0 <= i < a -> mbit map' i = mbit (ub_map b) i) -> ((fun i => mbit map' (a + i)) <$> seqZ 0 (clen d)) = cbits d -> bz = ub_busy b + cnt (cbits d) ->
    exists map'', @Done unrb (Unrb bz map') = Done (Unrb (cnt (mbits map'' (a + clen d))) map'') /\ is_map MAPSIZE map'' /\ mbits map'' (a + clen d) = mbits (ub_map b) a ++ cbits d).
  { intros map' bz M' Hlow Hhigh Hbz. assert (E : mbits map' (a + clen d) = mbits (ub_map b) a ++ cbits d) by (rewrite mbits_app by lia; f_equal; [by apply mbits_ext | done]).
    exists map'. split_and!; try done. by rewrite E, cnt_app, <- Hb, Hbz. }
  unfold append_bits. destruct d as [p [] n | p m n map]; cbn [cunr cptr clen ptr len] in *.
  - destruct (bit_nset_ok MAPSIZE (ub_map b) Hm a (a + n - 1) ltac:(lia) ltac:(nbits; lia)) as (m1 & -> & M1 & B1). rewrite bind_Done_l. apply Hfin; [done | | |].
    + intros i Hi. rewrite B1 by lia. destruct (Z.leb_spec a i); [lia | done].
    + apply replicate_fmap. intros i Hi. rewrite B1 by lia. destruct (Z.leb_spec a (a + i)), (Z.leb_spec (a + i) (a + n - 1)); done || lia.
    + unfold_int. rewrite Z.mod_small by (nbits; lia). cbn [cbits]. rewrite cnt_replicate. lia.
  - destruct (bit_nclear_ok MAPSIZE (ub_map b) Hm a (a + n - 1) ltac:(lia) ltac:(nbits; lia)) as (m1 & -> & M1 & B1). rewrite bind_Done_l. apply Hfin; [done | | |].
    + intros i Hi. rewrite B1 by lia. destruct (Z.leb_spec a i); [lia | done].
    + apply replicate_fmap. intros i Hi. rewrite B1 by lia. destruct (Z.leb_spec a (a + i)), (Z.leb_spec (a + i) (a + n - 1)); done || lia.
    + cbn [cbits]. rewrite cnt_replicate. lia.
  - destruct Hin as [_ Em]. destruct Hok as [Hmm Hnn]. unfold get_unrb. rewrite Em, bind_Done_l. cbn [ub_map].
    destruct (copy_bits_ok (Z.to_nat n) map 0 a (ub_map b) (ub_busy b) Hmm Hm) as (m1 & -> & M1 & B1); try lia. rewrite bind_Done_l. apply Hfin; [done | | |].
    + intros i Hi. rewrite B1 by lia. destruct (Z.leb_spec a i); [lia | done].
    + cbn [cbits]. apply list_fmap_ext. intros k i Hk. apply lookup_seqZ in Hk. rewrite B1 by lia. destruct (Z.leb_spec a (a + i)), (Z.ltb_spec (a + i) (a + Z.of_nat (Z.to_nat n))); cbn [andb]; try lia. f_equal. lia.
    + cbn [cbits]. by rewrite Z2Nat.id by lia.
Qed.
