(* ===== verification/UnitNorm.v ===== *)
(** * Unit numbers: optimize_unr, and collapse_unr

    Elements of the list that fit into one bitmap become one, and nothing else changes. *)

From stdpp Require Import prelude list strings gmap.
From S2P Require Import Prelude.
From S2P Require Import Tailq.
From S2P Require Import Bitstring.
From S2P Require Import Unit.
From S2P Require Import UnitRep.
Open Scope Z_scope.

(** Everything fits into an u_int. *)
Definition small (cs : list chunk) : Prop := zlen (ids cs) < 2 ^ 32 /\ total cs < 2 ^ 32.

(** ** The search for the best place *)

Definition weight (c : chunk) : Z := match c with CRun _ _ _ => 1 | CMap _ _ _ _ => 2 end.

(** The memory that the chunks take, as far as they fit into a bitmap. *)
Fixpoint wnd (B : list chunk) (l a : Z) : Z :=
  match B with
  | [] => a
  | c :: B => if clen c + l >? NBITS then a else wnd B (l + clen c) (a + weight c)
  end.

(** No elements are worth merging. *)
Definition tight (cs : list chunk) : Prop :=
  forall B1 c B2, cs = B1 ++ c :: B2 -> clen c < NBITS -> wnd B2 (clen c) (weight c) < 3.

Lemma wnd_le B l a : a <= wnd B l a.
Proof. revert l a. induction B as [| c B IH]; intros l a; simpl; [lia |]. destruct (_ >? _); [lia |]. specialize (IH (l + clen c) (a + weight c)). destruct c; simpl in *; lia. Qed.

Section Scan.
Context (uh : unrhdr) (F : list nat).

Lemma window_ok A B l a : rep uh F (A ++ B) -> 0 <= l -> l + total B < 2 ^ 32 -> window uh (cid <$> B) l a = Done (wnd B l a).
Proof.
  revert A l a. induction B as [| c B IH]; intros A l a R Hl Ht; [done |]. cbn [fmap list_fmap window wnd]. rewrite (rep_get uh F A c B R), bind_Done_l.
  pose proof (rep_chunk_ok uh F A c B R) as Hok. pose proof (clen_nonneg c Hok). rewrite total_cons in Ht by done. pose proof (total_nonneg B). cbn [cunr len]. rewrite !u32_id by (unfold_int; lia).
  destruct (clen c + l >? NBITS); [done |]. rewrite (IH (A ++ [c])); [| by rewrite <- app_assoc | lia | lia]. f_equal. by destruct c as [? [] ? |].
Qed.

Lemma scan_ok A B ba us : rep uh F (A ++ B) -> total B < 2 ^ 32 ->
  exists ba' us', scan uh (cid <$> B) ba us = Done (ba', us') /\ ba <= ba' /\
    (forall B1 c B2, B = B1 ++ c :: B2 -> clen c < NBITS -> wnd B2 (clen c) (weight c) <= ba') /\
    (ba' = ba /\ us' = us \/ exists B1 c B2, B = B1 ++ c :: B2 /\ us' = Some (cid c) /\ ba' = wnd B2 (clen c) (weight c)).
Proof.
  revert A ba us. induction B as [| c B IH]; intros A ba us R Ht.
  - exists ba, us. split_and!; [done | lia | | by left]. intros [] ? ? E; done.
  - pose proof (rep_chunk_ok uh F A c B R) as Hok. pose proof (clen_nonneg c Hok). rewrite total_cons in Ht by done. cbn [fmap list_fmap scan]. rewrite (rep_get uh F A c B R), bind_Done_l. cbn [cunr len].
    assert (R' : rep uh F ((A ++ [c]) ++ B)) by (by rewrite <- app_assoc). rewrite Z.geb_leb. destruct (Z.leb_spec NBITS (clen c)) as [Hc | Hc].
    + destruct (IH (A ++ [c]) ba us R' ltac:(lia)) as (ba' & us' & -> & Hle & Hall & Hbest). exists ba', us'. split_and!; try done.
      * intros [| b B1] c' B2 E Hc'; simplify_eq/=; [lia | by eapply Hall].
      * destruct Hbest as [? | (B1 & c' & B2 & -> & E1 & E2)]; [by left | right]. by exists (c :: B1), c', B2.
    + rewrite (window_ok (A ++ [c]) B) by (done || lia). rewrite bind_Done_l. assert (Ew : (if is_bitmap (cunr c) then 2 else 1) = weight c) by (by destruct c as [? [] ? |]). fold (cunr c). rewrite Ew.
      destruct (Z.gtb_spec (wnd B (clen c) (weight c)) ba) as [Hgt | Hgt].
      * destruct (IH (A ++ [c]) (wnd B (clen c) (weight c)) (Some (cid c)) R' ltac:(lia)) as (ba' & us' & -> & Hle & Hall & Hbest). exists ba', us'. split_and!; try done; [lia | |].
        -- intros [| b B1] c' B2 E Hc'; simplify_eq/=; [lia | by eapply Hall].
        -- destruct Hbest as [[-> ->] | (B1 & c' & B2 & -> & E1 & E2)]; right; [by exists [], c, B | by exists (c :: B1), c', B2].
      * destruct (IH (A ++ [c]) ba us R' ltac:(lia)) as (ba' & us' & -> & Hle & Hall & Hbest). exists ba', us'. split_and!; try done.
        -- intros [| b B1] c' B2 E Hc'; simplify_eq/=; [lia | by eapply Hall].
        -- destruct Hbest as [? | (B1 & c' & B2 & -> & E1 & E2)]; [by left | right; by exists (c :: B1), c', B2].
Qed.
End Scan.

(** ** Merging *)

(** The parts of the header that the lists do not touch. *)
Definition same_nums (uh uh' : unrhdr) : Prop :=
  uh_low uh' = uh_low uh /\ uh_high uh' = uh_high uh /\ uh_busy uh' = uh_busy uh /\ uh_first uh' = uh_first uh /\ uh_last uh' = uh_last uh.

Lemma delete_unr_ok uh p o : uh_heap uh !! p = Some o -> 1 <= uh_alloc uh < 2 ^ 32 -> delete_unr uh p = Done (set_heap (set_alloc uh (uh_alloc uh - 1)) (delete p (uh_heap uh))).
Proof. intros E Ha. unfold delete_unr, Free. cbn. rewrite E. rewrite u32_id by (unfold_int; lia). done. Qed.

(** Distinct objects. *)
Lemma rep_mid_nodup uh F A X B : rep uh F (A ++ X ++ B) -> NoDup (ids X ++ F).
Proof.
  intros R. pose proof (rep_nodup _ _ _ R) as ND. rewrite !ids_app in ND. assert (E : (ids A ++ ids X ++ ids B) ++ F ≡ₚ (ids A ++ ids B) ++ (ids X ++ F)) by solve_Permutation.
  rewrite E in ND. by apply NoDup_app in ND as (_ & _ & ?).
Qed.

Lemma rep_mid_in uh F A X B : rep uh F (A ++ X ++ B) -> Forall (chunk_in (uh_heap uh)) X /\ Forall chunk_ok X.
Proof. intros R. pose proof (rep_in _ _ _ R) as H1. pose proof (rep_ok _ _ _ R) as H2. rewrite !Forall_app in H1, H2. tauto. Qed.

Lemma ids_le X Y B : zlen (ids X) <= zlen (ids (Y ++ X ++ B)).
Proof. rewrite !ids_app, !zlen_app. pose proof (zlen_nonneg (ids Y)). pose proof (zlen_nonneg (ids B)). lia. Qed.

Section Opt.
Context (stale : unr -> nat -> Z).

Lemma stale_ok u : is_map MAPSIZE (stale_map stale u).
Proof.
  split; [unfold zlen, stale_map; rewrite length_fmap, length_seq; done |]. apply Forall_fmap, Forall_true. intros i. unfold_int. simpl. apply Z.mod_pos_bound. lia.
Qed.

(** The bitmap that the memory of a run becomes. *)
Lemma run_bitmap u (b : bool) n : ptr u = (if b then PHdr else PNull) -> len u = n -> 0 < n < NBITS ->
  exists map, (if decide (ptr u = PHdr)
     then map ← bit_nset (stale_map stale u) 0 n; mret (Unrb (u8 n) map)
     else map ← bit_nclear (stale_map stale u) 0 n; mret (Unrb 0 map)) = Done (Unrb (cnt (mbits map n)) map) /\ is_map MAPSIZE map /\ mbits map n = replicate (Z.to_nat n) b.
Proof.
  intros Ep El Hn. rewrite Ep. destruct b.
  - rewrite decide_True by done. destruct (bit_nset_ok MAPSIZE _ (stale_ok u) 0 n ltac:(lia) ltac:(nbits; lia)) as (m & -> & M & B). rewrite bind_Done_l. assert (E : mbits m n = replicate (Z.to_nat n) true).
    { apply replicate_fmap. intros i Hi. rewrite B by lia. destruct (Z.leb_spec 0 i), (Z.leb_spec i n); done || lia. }
    exists m. split_and!; try done. rewrite E, cnt_replicate. unfold_int. rewrite Z.mod_small by (nbits; lia). by rewrite Z2Nat.id by lia.
  - rewrite decide_False by done. destruct (bit_nclear_ok MAPSIZE _ (stale_ok u) 0 n ltac:(lia) ltac:(nbits; lia)) as (m & -> & M & B). rewrite bind_Done_l. assert (E : mbits m n = replicate (Z.to_nat n) false).
    { apply replicate_fmap. intros i Hi. rewrite B by lia. destruct (Z.leb_spec 0 i), (Z.leb_spec i n); done || lia. }
    exists m. split_and!; try done. by rewrite E, cnt_replicate.
Qed.

(** Lookups in a heap that was changed at known places. *)
Ltac look := repeat first [rewrite lookup_insert_eq | rewrite lookup_delete_eq | rewrite lookup_insert_ne by (set_solver || done) | rewrite lookup_delete_ne by (set_solver || done)].
Ltac heap_out := let q := fresh "q" in let Hq := fresh in intros q Hq; cbn in Hq; cbn; look; done.

(** The bitmap of a chunk is freed. *)
Definition drop_map (d : chunk) (uh : unrhdr) : unrhdr :=
  match d with CRun _ _ _ => uh | CMap _ m _ _ => set_heap (set_alloc uh (uh_alloc uh - 1)) (delete m (uh_heap uh)) end.

Lemma drop_map_ok uh d : chunk_in (uh_heap uh) d -> 1 <= uh_alloc uh < 2 ^ 32 ->
  match ptr (cunr d) with PMap q => delete_unr uh q | _ => mret uh end = Done (drop_map d uh).
Proof. intros [_ E] Ha. destruct d as [? [] ? | ? m ? ?]; cbn; try done. by eapply delete_unr_ok. Qed.

Lemma make_bitmap_ok uh F A p b n d B : rep uh F (A ++ [CRun p b n; d] ++ B) -> small (A ++ [CRun p b n; d] ++ B) -> 0 < n -> 0 < clen d -> n + clen d <= NBITS ->
  exists uh' map, make_bitmap stale uh p = Done (uh', cid d) /\ same_nums uh uh' /\
    cbits (CMap (cid d) p (n + clen d) map) = replicate (Z.to_nat n) b ++ cbits d /\ rep uh' F (A ++ [CMap (cid d) p (n + clen d) map] ++ B).
Proof.
  intros R [Hs _] Hn Hd Hnb. pose proof (rep_mid_nodup _ _ _ _ _ R) as ND. destruct (rep_mid_in _ _ _ _ _ R) as [Hin Hok]. inversion Hin as [| ? ? [Ep _] Hin']; subst. inversion Hin' as [| ? ? Hind _]; subst. clear Hin Hin'.
  inversion Hok as [| ? ? _ Hok']; subst. inversion Hok' as [| ? ? Hokd _]; subst. clear Hok Hok'.
  unfold make_bitmap. rewrite (rep_get uh F A (CRun p b n) (d :: B) R : get_unr uh p = _), bind_Done_l. rewrite (rep_next_mid uh F A (CRun p b n) (d :: B) R : tailq_next p _ = _).
  rewrite (rep_remove_mid uh F A (CRun p b n) (d :: B) R : tailq_remove p _ = _). cbn [len cunr clen]. fold (cunr (CRun p b n)).
  destruct (run_bitmap (cunr (CRun p b n)) b n eq_refl eq_refl ltac:(lia)) as (m1 & -> & M1 & B1). rewrite bind_Done_l. cbn [fmap list_fmap head].
  set (uh1 := store _ _ _). assert (Hpd : p ∉ cids d) by (cbn in ND; apply NoDup_cons in ND as [ND _]; set_solver).
  assert (Hind1 : chunk_in (uh_heap uh1) d).
  { destruct Hind as [E1 E2]. pose proof (cid_in d). split; [cbn; by rewrite lookup_insert_ne by set_solver |]. destruct d; [done |]. cbn. rewrite lookup_insert_ne; [done |]. simpl in Hpd. set_solver. }
  unfold get_unr at 1. rewrite (proj1 Hind1), bind_Done_l. destruct (append_ok uh1 d n (Unrb (cnt (mbits m1 n)) m1)) as (m2 & -> & M2 & B2); try done; [lia |]. rewrite bind_Done_l. cbn [ub_map] in B2. rewrite B1 in B2.
  assert (Ha : uh_alloc uh = zlen (ids (A ++ [CRun p b n; d] ++ B))) by apply R. pose proof (ids_le [CRun p b n; d] A B) as Hle. rewrite ids_cons, zlen_app in Hle. change (zlen (cids (CRun p b n))) with 1 in Hle.
  pose proof (zlen_nonneg (ids [d])). rewrite drop_map_ok by (done || cbn; lia). rewrite bind_Done_l. cbn [len cunr]. rewrite u32_id by (unfold_int; nbits; lia). rewrite (Z.add_comm (clen d)).
  eexists _, m2. split; [done |]. split; [by destruct d |]. split; [done |]. pose proof (cid_in d) as Hcid. cbn in ND. apply NoDup_cons in ND as [N1 ND]. pose proof ND as (N3 & N2 & N4)%NoDup_app.
  apply (rep_upd uh F _ F A [CRun p b n; d] [CMap (cid d) p (n + clen d) m2] B R).
  - destruct d; cbn; by rewrite !fmap_app, !fmap_cons.
  - intros q Hq. cbn. cbn in Hq. rewrite !lookup_insert_ne by set_solver. destruct d; cbn in *; by rewrite ?lookup_delete_ne, lookup_insert_ne by set_solver.
  - constructor; [| constructor]. split; cbn; [by rewrite lookup_insert_eq |]. rewrite lookup_insert_ne by set_solver. by rewrite lookup_insert_eq.
  - constructor; [| constructor]. cbn. split; [done | lia].
  - cbn. apply NoDup_cons. split; [set_solver |]. apply NoDup_cons. split; [set_solver | set_solver].
  - cbn. set_solver.
  - intros q Hq. cbn. rewrite !lookup_insert_is_Some'. destruct d as [q1 b1 n1 | q1 q2 n1 map1]; cbn in *; rewrite ?lookup_delete_is_Some, ?lookup_insert_is_Some', (rep_dom _ _ _ R), !ids_app; cbn; set_solver.
  - cbn. destruct d; cbn; unfold zlen; cbn; lia.
  - by destruct d.
Qed.

Lemma small_upd A X X' B : bits X' = bits X -> zlen (ids X') <= zlen (ids X) -> small (A ++ X ++ B) -> small (A ++ X' ++ B).
Proof. intros Eb Hi [H1 H2]. unfold small, total in *. rewrite !bits_app, !zlen_app in *. rewrite !ids_app, !zlen_app in *. rewrite Eb. lia. Qed.

(** One more element is taken into the bitmap. *)
Lemma merge_step fuel uh F A p m n map d B : rep uh F (A ++ [CMap p m n map; d] ++ B) -> small (A ++ [CMap p m n map; d] ++ B) -> 0 < clen d -> n + clen d <= NBITS ->
  exists uh' map', merge_loop (S fuel) uh p m = merge_loop fuel uh' p m /\ same_nums uh uh' /\
    cbits (CMap p m (n + clen d) map') = cbits (CMap p m n map) ++ cbits d /\ rep uh' F (A ++ [CMap p m (n + clen d) map'] ++ B).
Proof.
  intros R [Hs _] Hd Hnb. pose proof (rep_mid_nodup _ _ _ _ _ R) as ND. destruct (rep_mid_in _ _ _ _ _ R) as [Hin Hok]. inversion Hin as [| ? ? [Ep Em] Hin']; subst. inversion Hin' as [| ? ? Hind _]; subst. clear Hin Hin'.
  inversion Hok as [| ? ? Hokc Hok']; subst. destruct Hokc as [Hmap Hn]. inversion Hok' as [| ? ? Hokd _]; subst. clear Hok Hok'.
  cbn [merge_loop]. rewrite (rep_next_mid uh F A (CMap p m n map) (d :: B) R : tailq_next p _ = _). cbn [fmap list_fmap head].
  rewrite (rep_get uh F A (CMap p m n map) (d :: B) R : get_unr uh p = _), bind_Done_l. unfold get_unr at 1. rewrite (proj1 Hind), bind_Done_l. cbn [len cunr clen]. rewrite !u32_id by (unfold_int; nbits; lia).
  destruct (Z.gtb_spec (clen d + n) NBITS); [lia |]. rewrite (rep_get_map uh F A p m n map (d :: B) R), bind_Done_l.
  destruct (append_ok uh d n (Unrb (cnt (mbits map n)) map)) as (m2 & E2 & M2 & B2); try done; [lia |]. change (cnt (cbits (CMap p m n map))) with (cnt (mbits map n)). rewrite E2, bind_Done_l. clear E2. cbn [ptr].
  pose proof (cid_in d) as Hcid. cbn in ND. apply NoDup_cons in ND as [N1 ND]. apply NoDup_cons in ND as [N0 ND]. pose proof ND as (N3 & N2 & N4)%NoDup_app.
  set (uh1 := set_head _ _). assert (Hind1 : chunk_in (uh_heap uh1) d).
  { destruct Hind as [E1 E3]. split; [cbn; by rewrite !lookup_insert_ne by set_solver |]. destruct d; [done |]. cbn. cbn in *. rewrite !lookup_insert_ne by set_solver. done. }
  assert (Ha : uh_alloc uh = zlen (ids (A ++ [CMap p m n map; d] ++ B))) by apply R. pose proof (ids_le [CMap p m n map; d] A B) as Hle. rewrite ids_cons, zlen_app in Hle. change (zlen (cids (CMap p m n map))) with 2 in Hle.
  pose proof (zlen_nonneg (ids [d])). rewrite drop_map_ok by (done || cbn; lia). rewrite bind_Done_l.
  assert (Ed : uh_heap (drop_map d uh1) !! cid d = Some (OUnr (cunr d))).
  { destruct Hind1 as [E1 _]. destruct d as [| q1 q2 n1 mp]; [done |]. cbn. cbn in N3. apply NoDup_cons in N3 as [N3 _]. rewrite lookup_delete_ne by set_solver. exact E1. }
  rewrite (delete_unr_ok _ _ _ Ed) by (destruct d; cbn; lia). rewrite bind_Done_l. eexists _, m2. split; [done |]. split; [by destruct d |]. split; [done |].
  apply (rep_upd uh F _ F A [CMap p m n map; d] [CMap p m (n + clen d) m2] B R).
  - pose proof (rep_remove_mid uh F (A ++ [CMap p m n map]) d B ltac:(by rewrite <- app_assoc)) as Hrm. cbn [app] in *. rewrite <- app_assoc in Hrm. destruct d; cbn; cbn in Hrm; by rewrite Hrm, !fmap_app, !fmap_cons.
  - intros q Hq. cbn in Hq. destruct d; cbn in *; by rewrite ?lookup_delete_ne, !lookup_insert_ne by set_solver.
  - constructor; [| constructor]. split; [destruct d; cbn in *; look; done |]. destruct d; cbn in *; rewrite ?lookup_delete_ne by set_solver; rewrite lookup_insert_ne by set_solver; by rewrite lookup_insert_eq.
  - constructor; [| constructor]. cbn. split; [done | lia].
  - cbn. apply NoDup_cons. split; [set_solver |]. apply NoDup_cons. split; [set_solver | done].
  - cbn. set_solver.
  - intros q Hq. destruct d as [q1 b1 n1 | q1 q2 n1 map1]; cbn in *; rewrite !lookup_delete_is_Some, !lookup_insert_is_Some', (rep_dom _ _ _ R), !ids_app; cbn; set_solver.
  - cbn. destruct d; cbn; unfold zlen; cbn; lia.
  - by destruct d.
Qed.

Lemma merge_loop_ok fuel uh F A p m n map B : (length B < fuel)%nat -> rep uh F (A ++ [CMap p m n map] ++ B) -> small (A ++ [CMap p m n map] ++ B) -> Forall (fun c => 0 < clen c) B ->
  exists uh' n' map' B1 B2, merge_loop fuel uh p m = Done uh' /\ same_nums uh uh' /\ B = B1 ++ B2 /\ rep uh' F (A ++ [CMap p m n' map'] ++ B2) /\
    cbits (CMap p m n' map') = cbits (CMap p m n map) ++ bits B1 /\ (forall d B', B = d :: B' -> n + clen d <= NBITS -> B1 <> []).
Proof.
  revert uh n map B. induction fuel as [| fuel IH]; intros uh n map B Hf R Hs Hpos; [lia |]. destruct B as [| d B].
  - exists uh, n, map, [], []. cbn [merge_loop]. rewrite (rep_next_mid uh F A (CMap p m n map) [] R : tailq_next p _ = _). cbn. split_and!; try done. by rewrite app_nil_r.
  - inversion Hpos as [| ? ? Hd Hpos']; subst. pose proof (rep_chunk_ok uh F A (CMap p m n map) (d :: B) R) as [_ Hn].
    assert (Hokd : chunk_ok d) by (eapply (rep_chunk_ok uh F (A ++ [CMap p m n map]) d B); by rewrite <- app_assoc).
    destruct (Z.le_gt_cases (n + clen d) NBITS) as [Hfit | Hfit].
    + destruct (merge_step fuel uh F A p m n map d B R Hs Hd Hfit) as (uh1 & map1 & -> & N1 & B1 & R1).
      assert (Hs1 : small (A ++ [CMap p m (n + clen d) map1] ++ B)).
      { apply (small_upd A [CMap p m n map; d] [CMap p m (n + clen d) map1] B); [unfold bits; cbn [fmap list_fmap concat]; by rewrite !app_nil_r |  | done]. unfold zlen. destruct d; cbn; lia. }
      destruct (IH uh1 (n + clen d) map1 B ltac:(cbn in Hf; lia) R1 Hs1 Hpos') as (uh2 & n2 & map2 & C1 & C2 & -> & N2 & -> & R2 & B2 & _). exists uh2, n2, map2, (d :: C1), C2. split_and!; try done.
      * unfold same_nums in *. intuition congruence.
      * by rewrite B2, B1, bits_cons, app_assoc.
    + exists uh, n, map, [], (d :: B). cbn [merge_loop]. rewrite (rep_next_mid uh F A (CMap p m n map) (d :: B) R : tailq_next p _ = _). cbn [fmap list_fmap head].
      rewrite (rep_get uh F A (CMap p m n map) (d :: B) R : get_unr uh p = _), bind_Done_l. rewrite (rep_get uh F (A ++ [CMap p m n map]) d B ltac:(by rewrite <- app_assoc)), bind_Done_l. cbn [len cunr clen].
      assert (Hsum : n + clen d < 2 ^ 32). { destruct Hs as [_ Ht]. rewrite !chunks_total_app, !total_cons in Ht by (done || by eapply rep_chunk_ok). pose proof (total_nonneg A). pose proof (total_nonneg B). pose proof (total_nonneg []). cbn [clen] in Ht. lia. }
      rewrite u32_id by (unfold_int; lia). destruct (Z.gtb_spec (clen d + n) NBITS); [| lia]. split_and!; try done; [by rewrite app_nil_r |]. intros d' B' E Hle. simplify_eq. lia.
Qed.

(** Some neighbours become one bitmap. *)
Definition merged (cs cs' : list chunk) : Prop :=
  exists A X e B, cs = A ++ X ++ B /\ cs' = A ++ e :: B /\ (2 <= length X)%nat /\ weight e = 2 /\ cbits e = bits X.

Lemma merged_bits cs cs' : merged cs cs' -> bits cs' = bits cs.
Proof. intros (A & X & e & B & -> & -> & _ & _ & E). by rewrite !bits_app, bits_cons, E. Qed.

Lemma merged_ids A e X B : weight e = 2 -> (2 <= length X)%nat -> zlen (ids (A ++ e :: B)) <= zlen (ids (A ++ X ++ B)) /\ (length (A ++ e :: B) < length (A ++ X ++ B))%nat.
Proof.
  intros He HX. rewrite !ids_app, ids_cons, !zlen_app, !length_app. simpl. assert (2 <= zlen (ids X)); [| destruct e; [done |]; unfold zlen in *; simpl; lia].
  destruct X as [| a [| b X]]; simpl in HX; [lia | lia |]. rewrite !ids_cons, !zlen_app. pose proof (zlen_nonneg (ids X)). unfold zlen in *. destruct a, b; simpl; lia.
Qed.

Lemma merged_small cs cs' : merged cs cs' -> small cs -> small cs' /\ (length cs' < length cs)%nat.
Proof.
  intros M [H1 H2]. unfold small, total in *. rewrite (merged_bits _ _ M). destruct M as (A & X & e & B & -> & -> & HX & He & _). destruct (merged_ids A e X B He HX). split; [lia | done].
Qed.

Lemma optimize_unr_ok uh F cs : rep uh F cs -> small cs -> Forall (fun c => 0 < clen c) cs ->
  (optimize_unr stale uh = Done (uh, false) /\ tight cs) \/ exists uh' cs', optimize_unr stale uh = Done (uh', true) /\ same_nums uh uh' /\ merged cs cs' /\ rep uh' F cs'.
Proof.
  intros R Hs Hpos. unfold optimize_unr. destruct (scan_ok uh F [] cs 0 None R (proj2 Hs)) as (ba & us & Es & Hba & Hall & Hbest). rewrite (rep_head _ _ _ R), Es, bind_Done_l.
  destruct (Z.ltb_spec ba 3) as [H3 | H3]; [left; split; [done |]; intros B1 c B2 E Hc; specialize (Hall B1 c B2 E Hc); lia | right].
  destruct Hbest as [[-> _] | (A & c & B & -> & -> & Eba)]; [lia |]. rewrite (rep_get uh F A c B R), bind_Done_l.
  assert (Hd : exists d B', B = d :: B' /\ clen c + clen d <= NBITS).
  { destruct B as [| d B]; [destruct c; cbn in Eba; lia |]. exists d, B. split; [done |]. cbn [wnd] in Eba. destruct (Z.gtb_spec (clen d + clen c) NBITS); [destruct c; cbn in Eba; lia | lia]. }
  destruct Hd as (d & B' & -> & Hfit). apply Forall_app in Hpos as [HposA Hpos]. inversion Hpos as [| ? ? Hc Hpos']; subst. inversion Hpos' as [| ? ? Hd Hpos'']; subst. destruct c as [p b n | p m n map].
  - replace (is_bitmap (cunr (CRun p b n))) with false by (by destruct b). destruct (make_bitmap_ok uh F A p b n d B' R Hs Hc Hd Hfit) as (uh1 & map1 & E1 & N1 & B1 & R1). cbn [cid]. rewrite E1, bind_Done_l.
    rewrite (rep_get uh1 F A _ B' R1 : get_unr uh1 (cid d) = _), bind_Done_l. cbn [ptr cunr cptr].
    assert (Hs1 : small (A ++ [CMap (cid d) p (n + clen d) map1] ++ B')).
    { apply (small_upd A [CRun p b n; d] [CMap (cid d) p (n + clen d) map1] B'); [unfold bits; cbn [fmap list_fmap concat]; by rewrite !app_nil_r | | done]. unfold zlen. destruct d; cbn; lia. }
    destruct (merge_loop_ok (length (uh_head uh1)) uh1 F A (cid d) p (n + clen d) map1 B') as (uh2 & n2 & map2 & C1 & C2 & -> & N2 & -> & R2 & B2 & _); try done.
    { rewrite (rep_head _ _ _ R1), length_fmap, !length_app. simpl. lia. }
    rewrite bind_Done_l. eexists uh2, _. split; [done |]. split; [unfold same_nums in *; intuition congruence |]. split; [| exact R2]. exists A, (CRun p b n :: d :: C1), (CMap (cid d) p n2 map2), C2.
    split_and!; try done; [simpl; lia |]. by rewrite B2, B1, !bits_cons, app_assoc.
  - cbn [is_bitmap cunr cptr ptr]. rewrite bind_Done_l. cbn [cid]. rewrite (rep_get uh F A (CMap p m n map) (d :: B') R : get_unr uh p = _), bind_Done_l. cbn [ptr cunr cptr].
    destruct (merge_loop_ok (length (uh_head uh)) uh F A p m n map (d :: B')) as (uh2 & n2 & map2 & C1 & C2 & E2 & N2 & EB & R2 & B2 & Hne); try done.
    { rewrite (rep_head _ _ _ R), length_fmap, !length_app. simpl. lia. }
    rewrite (rep_head _ _ _ R) in E2. rewrite (rep_head _ _ _ R), E2, bind_Done_l. specialize (Hne d B' eq_refl Hfit). eexists uh2, _. split; [done |]. split; [done |]. split; [| exact R2]. exists A, (CMap p m n map :: C1), (CMap p m n2 map2), C2.
    split_and!; try done; [by rewrite EB | destruct C1; [done | simpl; lia]].
Qed.
End Opt.

(** * Unit numbers: the normal form, and collapse_unr

    In the normal form no two runs of the same kind are neighbours, no bitmap is all set or
    all clear, and the runs at the ends are in [first] and [last].  collapse_unr restores it
    after a change of one element. *)

Definition mixed (l : list bool) : Prop := true ∈ l /\ false ∈ l.

Definition cwf (c : chunk) : Prop := match c with CRun _ _ n => 0 < n | CMap _ _ _ _ => mixed (cbits c) end.
Definition is_run (b : bool) (c : chunk) : bool := match c with CRun _ b' _ => Bool.eqb b b' | CMap _ _ _ _ => false end.
Definition differ (c d : chunk) : Prop := forall b, is_run b c = true -> is_run b d = false.

Fixpoint alt (cs : list chunk) : Prop :=
  match cs with c :: ((d :: _) as r) => differ c d /\ alt r | _ => True end.

Record normal (cs : list chunk) : Prop := {
  norm_wf : Forall cwf cs;
  norm_alt : alt cs;
  norm_head : forall c, head cs = Some c -> is_run true c = false;
  norm_last : forall c, last cs = Some c -> is_run false c = false
}.

Lemma differ_map_l c d : weight c = 2 -> differ c d.
Proof. intros H b. by destruct c. Qed.
Lemma differ_map_r c d : weight d = 2 -> differ c d.
Proof. intros H b. by destruct d. Qed.

Lemma alt_app A B : alt (A ++ B) <-> alt A /\ alt B /\ (forall c d, last A = Some c -> head B = Some d -> differ c d).
Proof.
  induction A as [| a A IH]; [simpl; naive_solver |]. destruct A as [| a' A].
  - destruct B as [| b B]; simpl; [naive_solver |]. split; [intros [H1 H2]; split_and!; [done | done |] | intros (_ & H1 & H2); split; [by apply H2 | done]]. intros c d E1 E2. by simplify_eq.
  - change (alt ((a :: a' :: A) ++ B)) with (differ a a' /\ alt ((a' :: A) ++ B)). change (alt (a :: a' :: A)) with (differ a a' /\ alt (a' :: A)). rewrite IH. rewrite (last_cons_cons a a' A). tauto.
Qed.

Lemma alt_mid A c B : alt (A ++ [c] ++ B) <-> alt A /\ alt B /\ (forall a, last A = Some a -> differ a c) /\ (forall b, head B = Some b -> differ c b).
Proof.
  rewrite !alt_app. simpl. split.
  - intros (H1 & (_ & H2 & H3) & H4). split_and!; auto.
  - intros (H1 & H2 & H3 & H4). split_and!; try done; intros; simplify_eq; auto.
Qed.

Lemma zero_bits l : cnt l = 0 -> l = replicate (length l) false.
Proof. induction l as [| b l IH]; simpl; intros E; [done |]. pose proof (cnt_range l). destruct b; [lia |]. by rewrite <- IH by lia. Qed.
Lemma full_bits l : cnt l = zlen l -> l = replicate (length l) true.
Proof. unfold zlen. induction l as [| b l IH]; simpl; intros E; [done |]. pose proof (cnt_range l). unfold zlen in *. destruct b; [| lia]. by rewrite <- IH by lia. Qed.
Lemma cnt_pos l : cnt l <> 0 -> true ∈ l.
Proof. induction l as [| [] l IH]; simpl; [done | intros _; by left |]. intros H. right. apply IH. lia. Qed.
Lemma cnt_less l : cnt l <> zlen l -> false ∈ l.
Proof. unfold zlen. induction l as [| [] l IH]; simpl; [done | | intros _; by left]. intros H. right. apply IH. lia. Qed.

Lemma cwf_len c : chunk_ok c -> cwf c -> zlen (cids c) <= clen c /\ 0 < clen c.
Proof.
  intros Hok Hwf. destruct c as [p b n | p m n map]; cbn in *; [unfold zlen; simpl; lia |]. destruct Hok as [_ Hn]. split; [| lia]. unfold zlen. simpl. destruct (Z.eq_dec n 1) as [-> |]; [| lia].
  destruct Hwf as [H1 H2]. change (seqZ 0 1) with [0] in *. apply list_elem_of_singleton in H1, H2. congruence.
Qed.

(** A normal list is small if its bits are few. *)
Lemma wf_small cs : Forall chunk_ok cs -> Forall cwf cs -> zlen (ids cs) <= total cs.
Proof.
  induction cs as [| c cs IH]; [done |]. intros Hok Hwf. inversion Hok; inversion Hwf; subst. rewrite ids_cons, zlen_app, total_cons by done. destruct (cwf_len c); [done | done |]. specialize (IH ltac:(done) ltac:(done)). lia.
Qed.

(** Neighbours are not all set or all clear. *)
Lemma run_bits p b n : 0 < n -> b ∈ cbits (CRun p b n).
Proof. intros H. cbn. destruct (Z.to_nat n) as [| k] eqn:E; [lia |]. simpl. set_solver. Qed.

Lemma mixed_merge X : (2 <= length X)%nat -> Forall cwf X -> alt X -> mixed (bits X).
Proof.
  intros HX Hwf Halt. destruct X as [| a [| b X]]; simpl in HX; [lia | lia |]. inversion Hwf as [| ? ? Ha Hwf']; subst. inversion Hwf' as [| ? ? Hb _]; subst. rewrite !bits_cons. unfold mixed in *. rewrite !elem_of_app.
  destruct a as [p1 b1 n1 | p1 m1 n1 map1]; [| destruct Ha; tauto]. destruct b as [p2 b2 n2 | p2 m2 n2 map2]; [| destruct Hb; tauto]. pose proof (run_bits p1 b1 n1 Ha). pose proof (run_bits p2 b2 n2 Hb).
  destruct Halt as [Hd _]. specialize (Hd b1). destruct b1, b2; cbn in Hd; try tauto; by specialize (Hd eq_refl).
Qed.

Lemma merged_normal cs cs' : merged cs cs' -> normal cs -> normal cs'.
Proof.
  intros (A & X & e & B & -> & -> & HX & He & Eb) [Hwf Halt Hh Hl]. rewrite !Forall_app in Hwf. destruct Hwf as (WA & WX & WB). rewrite !alt_app in Halt. destruct Halt as (AA & (AX & AB & _) & _).
  constructor.
  - rewrite Forall_app, Forall_cons. split_and!; try done. destruct e; [done |]. unfold cwf. rewrite Eb. by apply mixed_merge.
  - apply (alt_mid A e B). split_and!; try done; intros; [by apply differ_map_r | by apply differ_map_l].
  - intros c Hc. destruct A as [| a A]; simpl in *; [simplify_eq; by destruct c | by apply Hh].
  - intros c Hc. destruct B as [| b B].
    + rewrite last_snoc in Hc. simplify_eq. by destruct c.
    + apply Hl. rewrite !last_app. rewrite last_app, last_cons_cons in Hc. destruct (last (b :: B)) eqn:E; [done |]. by apply last_None in E.
Qed.

Section Collapse.
Context (stale : unr -> nat -> Z).

Lemma wf_pos uh F cs : rep uh F cs -> Forall cwf cs -> Forall (fun c => 0 < clen c) cs.
Proof. intros R H. pose proof (rep_ok _ _ _ R) as Hok. rewrite !Forall_forall in *. intros c Hc. by apply cwf_len; auto. Qed.

Lemma optimize_loop_ok fuel uh F cs : (length cs < fuel)%nat -> rep uh F cs -> small cs -> normal cs ->
  exists uh' cs', optimize_loop stale fuel uh = Done uh' /\ same_nums uh uh' /\ rep uh' F cs' /\ normal cs' /\ tight cs' /\ bits cs' = bits cs.
Proof.
  revert uh cs. induction fuel as [| fuel IH]; intros uh cs Hf R Hs Hn; [lia |]. cbn [optimize_loop].
  destruct (optimize_unr_ok stale uh F cs R Hs (wf_pos _ _ _ R (norm_wf _ Hn))) as [[-> Ht] | (uh1 & cs1 & -> & N1 & M & R1)]; rewrite bind_Done_l.
  - exists uh, cs. by split_and!.
  - destruct (merged_small _ _ M Hs) as [Hs1 Hlt]. destruct (IH uh1 cs1 ltac:(lia) R1 Hs1 (merged_normal _ _ M Hn)) as (uh2 & cs2 & -> & N2 & R2 & Hn2 & Ht2 & B2).
    exists uh2, cs2. split_and!; try done; [unfold same_nums in *; intuition congruence |]. by rewrite B2, (merged_bits _ _ M).
Qed.

(** *** The steps of collapse_unr *)

Lemma same_nums_refl uh : same_nums uh uh.
Proof. done. Qed.
Lemma same_nums_trans a b c : same_nums a b -> same_nums b c -> same_nums a c.
Proof. unfold same_nums. intuition congruence. Qed.

(** One chunk becomes another one in the same object, without its bitmap. *)
Lemma rep_run uh F A p m n map b B : rep uh F (A ++ [CMap p m n map] ++ B) -> small (A ++ [CMap p m n map] ++ B) -> 
  exists uh', delete_unr uh m = Done uh' /\ same_nums uh uh' /\ rep (store uh' p (OUnr (Unr n (if b : bool then PHdr else PNull)))) F (A ++ [CRun p b n] ++ B).
Proof.
  intros R [Hs _]. destruct (rep_mid_in _ _ _ _ _ R) as [Hin Hok]. inversion Hin as [| ? ? [Ep Em] _]; subst. inversion Hok as [| ? ? Hokc _]; subst. destruct Hokc as [_ Hn]. pose proof (rep_mid_nodup _ _ _ _ _ R) as ND. cbn in ND. apply NoDup_cons in ND as [N1 ND].
  assert (Ha : uh_alloc uh = zlen (ids (A ++ [CMap p m n map] ++ B))) by apply R. pose proof (ids_le [CMap p m n map] A B) as Hle. change (zlen (ids [CMap p m n map])) with 2 in Hle.
  rewrite (delete_unr_ok _ _ _ Em) by lia. eexists. split; [done |]. split; [done |].
  apply (rep_upd uh F _ F A [CMap p m n map] [CRun p b n] B R).
  - cbn. rewrite (rep_head _ _ _ R). by rewrite !fmap_app, !fmap_cons.
  - intros q Hq. cbn in Hq. cbn. by rewrite lookup_insert_ne, lookup_delete_ne by set_solver.
  - constructor; [| constructor]. split; [| done]. cbn. by rewrite lookup_insert_eq.
  - constructor; [| constructor]. cbn. lia.
  - cbn. apply NoDup_cons in ND as [N2 ND]. apply NoDup_cons. split; [set_solver | done].
  - cbn. set_solver.
  - intros q Hq. cbn. rewrite lookup_insert_is_Some', lookup_delete_is_Some, (rep_dom _ _ _ R), !ids_app. cbn in *. apply NoDup_cons in ND as [N2 ND]. set_solver.
  - cbn. unfold zlen. cbn. lia.
  - done.
Qed.

Definition plain (c : chunk) : Prop := match c with CRun _ _ _ => True | CMap _ _ _ _ => mixed (cbits c) end.

Lemma to_run_ok uh F A c B : rep uh F (A ++ [c] ++ B) -> small (A ++ [c] ++ B) ->
  exists uh' c', to_run uh (cid c) = Done uh' /\ same_nums uh uh' /\ rep uh' F (A ++ [c'] ++ B) /\ small (A ++ [c'] ++ B) /\ cid c' = cid c /\ cbits c' = cbits c /\ plain c'.
Proof.
  intros R Hs. unfold to_run. rewrite (rep_get uh F A c B R), bind_Done_l. destruct c as [p [] n | p m n map]; cbn [ptr cunr cptr clen len cid].
  - exists uh, (CRun p true n). done.
  - exists uh, (CRun p false n). done.
  - rewrite (rep_get_map uh F A p m n map B R), bind_Done_l. cbn [ub_busy]. pose proof (rep_chunk_ok uh F A _ B R) as Hok. pose proof (clen_bits _ Hok) as Hl. cbn [clen] in Hl. set (c := CMap p m n map) in *.
    assert (Hrun : forall b : bool, cbits c = replicate (length (cbits c)) b -> exists uh' c', (uh0 ← delete_unr uh m; mret (store uh0 p (OUnr (Unr n (if b then PHdr else PNull))))) = Done uh' /\
      same_nums uh uh' /\ rep uh' F (A ++ [c'] ++ B) /\ small (A ++ [c'] ++ B) /\ cid c' = p /\ cbits c' = cbits c /\ plain c').
    { intros b E. destruct (rep_run uh F A p m n map b B R Hs) as (uh1 & -> & N1 & R1). rewrite bind_Done_l. eexists _, (CRun p b n). split; [done |]. assert (Eb : cbits (CRun p b n) = cbits c) by (rewrite E; change (cbits (CRun p b n)) with (replicate (Z.to_nat n) b); unfold zlen in Hl; f_equal; lia).
      split_and!; try done. apply (small_upd A [c] [CRun p b n] B); [unfold bits; cbn [fmap list_fmap concat]; by rewrite Eb | unfold zlen; cbn; lia | done]. }
    destruct (Z.eqb_spec (cnt (cbits c)) n) as [E1 | E1]; [apply (Hrun true), full_bits; lia |]. destruct (Z.eqb_spec (cnt (cbits c)) 0) as [E0 | E0]; [by apply (Hrun false), zero_bits |].
    assert (Hmix : mixed (cbits c)) by (split; [by apply cnt_pos | apply cnt_less; lia]). exists uh, c. by split_and!.
Qed.

(** A chunk is taken out of the list. *)
Lemma remove_ok uh F A p b n B : rep uh F (A ++ [CRun p b n] ++ B) -> small (A ++ [CRun p b n] ++ B) ->
  forall uh0, uh_head uh0 = uh_head uh -> uh_heap uh0 = uh_heap uh -> uh_alloc uh0 = uh_alloc uh -> uh_next uh0 = uh_next uh ->
  exists uh', delete_unr (set_head uh0 (tailq_remove p (uh_head uh0))) p = Done uh' /\ same_nums uh0 uh' /\ rep uh' F (A ++ B).
Proof.
  intros R [Hs _] uh0 E1 E2 E3 E4. destruct (rep_mid_in _ _ _ _ _ R) as [Hin _]. inversion Hin as [| ? ? [Ep _] _]; subst. pose proof (rep_mid_nodup _ _ _ _ _ R) as ND. cbn in ND. apply NoDup_cons in ND as [N1 ND].
  assert (Ha : uh_alloc uh = zlen (ids (A ++ [CRun p b n] ++ B))) by apply R. pose proof (ids_le [CRun p b n] A B) as Hle. change (zlen (ids [CRun p b n])) with 1 in Hle.
  rewrite (delete_unr_ok _ p (OUnr (cunr (CRun p b n)))) by (cbn; rewrite ?E2, ?E3; done || lia). eexists. split; [done |]. split; [done |].
  apply (rep_upd uh F _ F A [CRun p b n] [] B R).
  - cbn. rewrite E1. exact (rep_remove_mid uh F A (CRun p b n) B R).
  - intros q Hq. cbn in *. rewrite E2. by rewrite lookup_delete_ne by set_solver.
  - constructor.
  - constructor.
  - done.
  - cbn. set_solver.
  - intros q Hq. cbn in *. rewrite E2. rewrite lookup_delete_is_Some, (rep_dom _ _ _ R), !ids_app. cbn. set_solver.
  - cbn. rewrite E3. unfold zlen. cbn. lia.
  - done.
Qed.

Lemma small_remove A p b n B : chunk_ok (CRun p b n) -> small (A ++ [CRun p b n] ++ B) -> small (A ++ B).
Proof.
  intros Hok [H1 H2]. unfold small. rewrite !ids_app, !zlen_app, !chunks_total_app in *. change (ids [CRun p b n]) with [p] in H1. rewrite total_cons in H2 by done. cbn in Hok, H2. pose proof (total_nonneg []). unfold zlen in *. simpl in H1. lia.
Qed.

Lemma drop_empty_ok uh F A c B : rep uh F (A ++ [c] ++ B) -> small (A ++ [c] ++ B) -> plain c ->
  exists uh' up, drop_empty uh (cid c) = Done (uh', up) /\ same_nums uh uh' /\
    (up = Some (cid c) /\ rep uh' F (A ++ [c] ++ B) /\ cwf c \/
     rep uh' F (A ++ B) /\ small (A ++ B) /\ cbits c = [] /\ up = match last (cid <$> A) with Some p => Some p | None => head (cid <$> B) end).
Proof.
  intros R Hs Hp. unfold drop_empty. rewrite (rep_get uh F A c B R), bind_Done_l. pose proof (rep_chunk_ok uh F A c B R) as Hok. cbn [len cunr]. destruct (Z.eqb_spec (clen c) 0) as [E0 | N0].
  - destruct c as [p b n | p m n map]; [| cbn in *; lia]. cbn [clen cid] in *. subst n. rewrite (rep_prev_mid uh F A _ B R : tailq_prev None p _ = _), (rep_next_mid uh F A _ B R : tailq_next p _ = _).
    destruct (remove_ok uh F A p b 0 B R Hs uh) as (uh1 & -> & N1 & R1); try done. rewrite bind_Done_l. eexists uh1, _. split; [done |]. split; [done |]. right. split_and!; try done. by eapply small_remove.
  - exists uh, (Some (cid c)). split; [done |]. split; [done |]. left. split_and!; try done. destruct c; [cbn in *; lia | done].
Qed.

Lemma chunk_get uh c : chunk_in (uh_heap uh) c -> get_unr uh (cid c) = Done (cunr c).
Proof. intros [E _]. unfold get_unr. by rewrite E. Qed.

(** Two neighbours in either order. *)
Definition pair (c d : chunk) (X : list chunk) : Prop := X = [c; d] \/ X = [d; c].

Lemma merge_into_ok uh F A X B c d : pair c d X -> rep uh F (A ++ X ++ B) -> small (A ++ X ++ B) ->
  exists uh', merge_into uh (cid c) (Some (cid d)) = Done uh' /\ same_nums uh uh' /\
    ((exists p q b n n', c = CRun p b n /\ d = CRun q b n' /\ 0 <= n /\ 0 <= n' /\ rep uh' F (A ++ [CRun p b (n + n')] ++ B)) \/ (uh' = uh /\ differ c d /\ differ d c)).
Proof.
  intros HX R Hs. pose proof Hs as [Hs1 Hs2]. destruct (rep_mid_in _ _ _ _ _ R) as [Hin Hok]. pose proof (rep_mid_nodup _ _ _ _ _ R) as ND. assert (Hc : chunk_in (uh_heap uh) c /\ chunk_in (uh_heap uh) d /\ chunk_ok c /\ chunk_ok d).
  { rewrite !Forall_forall in *. destruct HX as [-> | ->]; split_and!; try apply Hin; try apply Hok; set_solver. }
  destruct Hc as (Ic & Id & Oc & Od). unfold merge_into. rewrite (chunk_get uh c Ic), bind_Done_l, (chunk_get uh d Id), bind_Done_l. cbn [ptr cunr len].
  assert (HND : NoDup (cids c ++ cids d ++ F)).
  { assert (E : ids X ++ F ≡ₚ cids c ++ cids d ++ F) by (destruct HX as [-> | ->]; unfold ids; cbn [fmap list_fmap concat]; solve_Permutation). by rewrite <- E. }
  destruct (decide (cptr c = cptr d)) as [Ep | Np].
  - destruct c as [p b n | p m n map], d as [q b' n' | q m' n' map']; cbn [cptr] in Ep; try (by destruct b) ; try (by destruct b').
    2: { exfalso. injection Ep as <-. cbn in HND. apply NoDup_cons in HND as [_ HND]. apply NoDup_cons in HND as [HND _]. set_solver. }
    assert (b = b') as <- by (by destruct b, b'). cbn [cid clen] in *.
    assert (Hsum : n + n' < 2 ^ 32). { assert (Ht : total X = n + n') by (destruct HX as [-> | ->]; rewrite !total_cons by done; cbn; unfold total, zlen; simpl; lia). rewrite !chunks_total_app in Hs2. pose proof (total_nonneg A). pose proof (total_nonneg B). lia. }
    cbn in Oc, Od. rewrite u32_id by (unfold_int; lia). cbn in HND. apply NoDup_cons in HND as [N1 HND]. apply NoDup_cons in HND as [N2 HND].
    assert (Ha : uh_alloc uh = zlen (ids (A ++ X ++ B))) by apply R. assert (Hz : zlen (ids X) = 2) by (by destruct HX as [-> | ->]). pose proof (ids_le X A B) as Hle.
    assert (Erm : tailq_remove q (uh_head uh) = cid <$> (A ++ [CRun p b (n + n')] ++ B)).
    { destruct HX as [-> | ->].
      - pose proof (rep_remove_mid uh F (A ++ [CRun p b n]) (CRun q b n') B ltac:(by rewrite <- app_assoc)) as E. cbn [cid] in E. rewrite E, !fmap_app, <- ?app_assoc. done.
      - pose proof (rep_remove_mid uh F A (CRun q b n') (CRun p b n :: B) R) as E. cbn [cid] in E. rewrite E, !fmap_app, <- ?app_assoc. done. }
    cbn [uh_head store set_heap]. rewrite (delete_unr_ok _ q (OUnr (cunr (CRun q b n')))); [| cbn; rewrite lookup_insert_ne by set_solver; apply Id | cbn; lia].
    eexists. split; [done |]. split; [done |]. left. exists p, q, b, n, n'. split_and!; try done. apply (rep_upd uh F _ F A X [CRun p b (n + n')] B R).
    + cbn. exact Erm.
    + intros r Hr. cbn. assert (r <> p /\ r <> q) by (destruct HX as [-> | ->]; cbn in Hr; set_solver). by rewrite lookup_delete_ne, lookup_insert_ne by (intros ?; subst; tauto).
    + constructor; [| constructor]. split; [| done]. cbn. by rewrite lookup_delete_ne, lookup_insert_eq by set_solver.
    + constructor; [| constructor]. cbn. lia.
    + cbn. apply NoDup_cons. split; [set_solver | done].
    + destruct HX as [-> | ->]; cbn; set_solver.
    + intros r Hr. cbn. rewrite lookup_delete_is_Some, lookup_insert_is_Some', (rep_dom _ _ _ R), !ids_app. assert (Er : r ∈ p :: q :: F) by (destruct HX as [-> | ->]; cbn in Hr; set_solver). assert (Hx : forall z, z ∈ ids X <-> z = p \/ z = q) by (intros z; destruct HX as [-> | ->]; cbn; set_solver).
      rewrite !elem_of_app, Hx. cbn. set_solver.
    + cbn. rewrite Hz. unfold zlen. cbn. lia.
    + done.
  - exists uh. split; [done |]. split; [done |]. right. split; [done |]. split; intros b1; destruct c as [? [] ? |], d as [? [] ? |], b1; cbn in *; try done.
Qed.

Lemma run_app p q r b n n' : 0 <= n -> 0 <= n' -> cbits (CRun p b (n + n')) = cbits (CRun q b n) ++ cbits (CRun r b n').
Proof. intros. cbn. rewrite Z2Nat.inj_add by done. apply replicate_add. Qed.

Lemma merge_prev_ok uh F A c B : rep uh F (A ++ [c] ++ B) -> small (A ++ [c] ++ B) -> Forall cwf A -> cwf c -> alt A ->
  exists uh' A' c', merge_into uh (cid c) (tailq_prev None (cid c) (uh_head uh)) = Done uh' /\ same_nums uh uh' /\ rep uh' F (A' ++ [c'] ++ B) /\ small (A' ++ [c'] ++ B) /\
    cid c' = cid c /\ Forall cwf A' /\ cwf c' /\ alt A' /\ (forall a, last A' = Some a -> differ a c') /\ bits (A' ++ [c']) = bits (A ++ [c]).
Proof.
  intros R Hs WA Wc HA. rewrite (rep_prev_mid uh F A c B R). destruct A as [| a A0 _] using rev_ind.
  - exists uh, [], c. by split_and!.
  - rewrite fmap_last, last_snoc. cbn [fmap option_fmap option_map]. rewrite <- app_assoc in R, Hs. apply Forall_app in WA as [WA0 Wa]. inversion Wa as [| ? ? Wa' _]; subst. apply alt_app in HA as (HA0 & _ & Hla).
    destruct (merge_into_ok uh F A0 [a; c] B c a (or_intror eq_refl) R Hs) as (uh1 & -> & N1 & [(p & q & b & n & n' & -> & -> & Hn & Hn' & R1) | (-> & D1 & D2)]).
    + exists uh1, A0, (CRun p b (n + n')). assert (Eb : cbits (CRun p b (n + n')) = bits [CRun q b n'; CRun p b n]) by (unfold bits; cbn [fmap list_fmap concat]; rewrite app_nil_r, Z.add_comm; by apply run_app).
      split_and!; try done.
      * apply (small_upd A0 [CRun q b n'; CRun p b n]); [by rewrite bits_cons, app_nil_r | unfold zlen; cbn; lia | done].
      * cbn in *. lia.
      * intros a' Ha'. specialize (Hla a' (CRun q b n') Ha' eq_refl). intros b1 Hb1. specialize (Hla b1 Hb1). exact Hla.
      * rewrite <- app_assoc, !bits_app. f_equal. rewrite <- bits_app, bits_cons, app_nil_r. exact Eb.
    + exists uh, (A0 ++ [a]), c. rewrite <- !app_assoc. split_and!; try done.
      * rewrite Forall_app. done.
      * rewrite alt_app. done.
      * intros a' Ha'. rewrite last_snoc in Ha'. by simplify_eq.
Qed.

Lemma merge_next_ok uh F A c B : rep uh F (A ++ [c] ++ B) -> small (A ++ [c] ++ B) -> Forall cwf B -> cwf c -> alt B -> (forall a, last A = Some a -> differ a c) ->
  exists uh' B' c', merge_into uh (cid c) (tailq_next (cid c) (uh_head uh)) = Done uh' /\ same_nums uh uh' /\ rep uh' F (A ++ [c'] ++ B') /\ small (A ++ [c'] ++ B') /\
    Forall cwf B' /\ cwf c' /\ alt B' /\ (forall a, last A = Some a -> differ a c') /\ (forall b, head B' = Some b -> differ c' b) /\ bits ([c'] ++ B') = bits ([c] ++ B).
Proof.
  intros R Hs WB Wc HB Hla. rewrite (rep_next_mid uh F A c B R). destruct B as [| a B].
  - exists uh, [], c. by split_and!.
  - cbn [fmap list_fmap head]. inversion WB as [| ? ? Wa' WB']; subst. change (a :: B) with ([a] ++ B) in HB. apply alt_app in HB as (_ & HB0 & Hhb).
    destruct (merge_into_ok uh F A [c; a] B c a (or_introl eq_refl) R Hs) as (uh1 & -> & N1 & [(p & q & b & n & n' & -> & -> & Hn & Hn' & R1) | (-> & D1 & D2)]).
    + exists uh1, B, (CRun p b (n + n')). assert (Eb : cbits (CRun p b (n + n')) = bits [CRun p b n; CRun q b n']) by (unfold bits; cbn [fmap list_fmap concat]; rewrite app_nil_r; by apply run_app).
      split_and!; try done.
      * apply (small_upd A [CRun p b n; CRun q b n']); [by rewrite bits_cons, app_nil_r | unfold zlen; cbn; lia | done].
      * cbn in *. lia.
      * intros b' Hb' b1 Hb1. exact (Hhb (CRun q b n') b' eq_refl Hb' b1 Hb1).
      * change ([CRun p b n] ++ CRun q b n' :: B) with ([CRun p b n; CRun q b n'] ++ B). by rewrite !bits_app, bits_cons, app_nil_r, Eb.
    + exists uh, (a :: B), c. split_and!; try done.
      * change (a :: B) with ([a] ++ B). rewrite alt_app. done.
      * intros b' Hb'. by simplify_eq/=.
Qed.

Lemma merge_both_ok uh F A c B : rep uh F (A ++ [c] ++ B) -> small (A ++ [c] ++ B) -> Forall cwf (A ++ [c] ++ B) -> alt A -> alt B ->
  exists uh' cs', merge_both uh (cid c) = Done uh' /\ same_nums uh uh' /\ rep uh' F cs' /\ small cs' /\ Forall cwf cs' /\ alt cs' /\ bits cs' = bits (A ++ [c] ++ B).
Proof.
  intros R Hs W HA HB. rewrite !Forall_app in W. destruct W as (WA & Wc & WB). inversion Wc as [| ? ? Wc' _]; subst. unfold merge_both.
  destruct (merge_prev_ok uh F A c B R Hs WA Wc' HA) as (uh1 & A1 & c1 & -> & N1 & R1 & S1 & I1 & WA1 & Wc1 & HA1 & D1 & B1). rewrite bind_Done_l. rewrite <- I1.
  destruct (merge_next_ok uh1 F A1 c1 B R1 S1 WB Wc1 HB D1) as (uh2 & B2 & c2 & -> & N2 & R2 & S2 & WB2 & Wc2 & HB2 & D2 & D3 & E2). exists uh2, (A1 ++ [c2] ++ B2). split_and!; try done.
  - by eapply same_nums_trans.
  - rewrite !Forall_app. split_and!; try done. by constructor.
  - by apply alt_mid.
  - by rewrite (bits_app A1), E2, <- bits_app, (app_assoc A1), (bits_app (A1 ++ [c1])), B1, <- bits_app, <- app_assoc.
Qed.

(** *** The ends *)

Definition same_rest (uh uh' : unrhdr) : Prop := uh_low uh' = uh_low uh /\ uh_high uh' = uh_high uh /\ uh_busy uh' = uh_busy uh.

(** All the numbers: the bits of [first], of the list and of [last]. *)
Definition all_bits (uh : unrhdr) (cs : list chunk) : list bool :=
  replicate (Z.to_nat (uh_first uh)) true ++ bits cs ++ replicate (Z.to_nat (uh_last uh)) false.
Definition in_range (uh : unrhdr) (cs : list chunk) : Prop := 0 <= uh_first uh /\ 0 <= uh_last uh /\ uh_first uh + total cs + uh_last uh < 2 ^ 32.

Lemma merge_first_ok uh F cs : rep uh F cs -> small cs -> in_range uh cs -> Forall cwf cs -> alt cs ->
  exists uh' cs', merge_first uh = Done uh' /\ same_rest uh uh' /\ rep uh' F cs' /\ small cs' /\ in_range uh' cs' /\ Forall cwf cs' /\ alt cs' /\
    (forall c, head cs' = Some c -> is_run true c = false) /\ all_bits uh' cs' = all_bits uh cs.
Proof.
  intros R Hs Hr W Halt. unfold merge_first. rewrite (rep_head _ _ _ R). destruct cs as [| c cs]; [exists uh, []; by split_and! |]. cbn [fmap list_fmap head]. rewrite (rep_get uh F [] c cs R), bind_Done_l. cbn [ptr cunr len].
  inversion W as [| ? ? Wc W']; subst. destruct (decide (cptr c = PHdr)) as [Ep | Np].
  - destruct c as [p [] n | p m n map]; try done. cbn [cid clen cwf] in *. pose proof (rep_chunk_ok uh F [] _ cs R) as Hok. destruct Hr as (Hf & Hl & Hsum). rewrite total_cons in Hsum by done. cbn [clen] in Hsum. pose proof (total_nonneg cs). rewrite u32_id by (unfold_int; lia).
    destruct (remove_ok uh F [] p true n cs R Hs (set_first uh (uh_first uh + n))) as (uh1 & E1 & (N1 & N2 & N3 & N4 & N5) & R1); try done. cbn [uh_head set_first] in E1. rewrite (rep_head _ _ _ R) in E1. cbn [uh_head set_first]. rewrite (rep_head _ _ _ R).
    exists uh1, cs. split; [exact E1 |]. cbn in N1, N2, N3, N4, N5. change (CRun p true n :: cs) with ([CRun p true n] ++ cs) in Halt. apply alt_app in Halt as (_ & Halt & Hh). split_and!; try done.
    + by apply (small_remove [] p true n cs).
    + unfold in_range. lia.
    + intros d Hd. apply (Hh (CRun p true n) d eq_refl Hd). done.
    + unfold all_bits. rewrite N4, N5, Z2Nat.inj_add, replicate_add, bits_cons by lia. cbn [cbits]. by rewrite <- !app_assoc.
  - exists uh, (c :: cs). split_and!; try done. intros d Hd. simplify_eq/=. destruct d as [? [] ? |]; done.
Qed.

Lemma last_removed A c d : alt (A ++ [c]) -> last A = Some d -> differ d c.
Proof. intros (_ & _ & H)%alt_app Hd. by apply H. Qed.

Lemma merge_last_ok uh F cs : rep uh F cs -> small cs -> in_range uh cs -> Forall cwf cs -> alt cs -> (forall c, head cs = Some c -> is_run true c = false) ->
  exists uh' cs', merge_last uh = Done uh' /\ same_rest uh uh' /\ rep uh' F cs' /\ small cs' /\ in_range uh' cs' /\ normal cs' /\ all_bits uh' cs' = all_bits uh cs.
Proof.
  intros R Hs Hr W Halt Hhd. unfold merge_last. rewrite (rep_head _ _ _ R), fmap_last. destruct cs as [| c cs _] using rev_ind; [exists uh, []; by split_and! |]. rewrite last_snoc. cbn [fmap option_fmap option_map].
  rewrite (rep_get uh F cs c [] R), bind_Done_l. cbn [ptr cunr len]. apply Forall_app in W as [W Wc]. inversion Wc as [| ? ? Wc' _]; subst. destruct (decide (cptr c = PNull)) as [Ep | Np].
  - destruct c as [p [] n | p m n map]; try done. cbn [cid clen cwf] in *. pose proof (rep_chunk_ok uh F cs _ [] R) as Hok. destruct Hr as (Hf & Hl & Hsum). rewrite chunks_total_app, total_cons in Hsum by done. cbn [clen] in Hsum. pose proof (total_nonneg cs). pose proof (total_nonneg []). rewrite u32_id by (unfold_int; lia).
    destruct (remove_ok uh F cs p false n [] R Hs (set_last uh (uh_last uh + n))) as (uh1 & E1 & (N1 & N2 & N3 & N4 & N5) & R1); try done. cbn [uh_head set_last] in E1. rewrite (rep_head _ _ _ R) in E1. cbn [uh_head set_last]. rewrite (rep_head _ _ _ R).
    exists uh1, cs. split; [exact E1 |]. cbn in N1, N2, N3, N4, N5. rewrite app_nil_r in R1. split_and!; try done.
    + pose proof (small_remove cs p false n [] Hok Hs) as H1. by rewrite app_nil_r in H1.
    + unfold in_range. lia.
    + constructor; [done | exact (proj1 (proj1 (alt_app _ _) Halt)) | |].
      * intros d Hd. apply Hhd. by destruct cs.
      * intros d Hd. pose proof (last_removed cs _ d Halt Hd false) as Hx. destruct (is_run false d); [by specialize (Hx eq_refl) | done].
    + unfold all_bits. rewrite N4, N5, bits_app, bits_cons. cbn [cbits]. rewrite (Z.add_comm (uh_last uh)), Z2Nat.inj_add, replicate_add by lia. unfold bits at 2. cbn. by rewrite app_nil_r, <- !app_assoc.
  - exists uh, (cs ++ [c]). split_and!; try done. constructor; [by rewrite Forall_app | done | done |]. intros d Hd. rewrite last_snoc in Hd. simplify_eq/=. destruct d as [? [] ? |]; done.
Qed.

Lemma in_range_same uh uh' cs cs' : same_nums uh uh' -> bits cs' = bits cs -> in_range uh cs -> in_range uh' cs'.
Proof. unfold in_range, total. intros (_ & _ & _ & -> & ->) ->. done. Qed.
Lemma all_bits_same uh uh' cs cs' : same_nums uh uh' -> bits cs' = bits cs -> all_bits uh' cs' = all_bits uh cs.
Proof. unfold all_bits. by intros (_ & _ & _ & -> & ->) ->. Qed.
Lemma same_nums_rest uh uh' : same_nums uh uh' -> same_rest uh uh'.
Proof. unfold same_nums, same_rest. tauto. Qed.
Lemma same_rest_trans a b c : same_rest a b -> same_rest b c -> same_rest a c.
Proof. unfold same_rest. intuition congruence. Qed.

(** An element is looked at again, wherever it is. *)
Lemma merge_hot uh F A B up : rep uh F (A ++ B) -> small (A ++ B) -> Forall cwf (A ++ B) -> alt A -> alt B -> up = match last (cid <$> A) with Some p => Some p | None => head (cid <$> B) end ->
  exists uh' cs', match up with Some up => merge_both uh up | None => mret uh end = Done uh' /\ same_nums uh uh' /\ rep uh' F cs' /\ small cs' /\ Forall cwf cs' /\ alt cs' /\ bits cs' = bits (A ++ B).
Proof.
  intros R Hs W HA HB ->. rewrite fmap_last. destruct A as [| a A _] using rev_ind.
  - destruct B as [| b B]; cbn [last fmap option_fmap option_map head list_fmap]; [by exists uh, [] |]. apply (merge_both_ok uh F [] b B); try done. change (b :: B) with ([b] ++ B) in HB. by apply alt_app in HB as (_ & ? & _).
  - rewrite last_snoc. cbn [fmap option_fmap option_map]. rewrite <- app_assoc in R, Hs, W |- *. apply merge_both_ok; try done. by apply alt_app in HA as (? & _).
Qed.

Lemma collapse_unr_ok uh F A c B : rep uh F (A ++ [c] ++ B) -> small (A ++ [c] ++ B) -> in_range uh (A ++ [c] ++ B) -> Forall cwf (A ++ B) -> alt A -> alt B ->
  exists uh' cs', collapse_unr stale uh (cid c) = Done uh' /\ same_rest uh uh' /\ rep uh' F cs' /\ in_range uh' cs' /\ normal cs' /\ tight cs' /\ all_bits uh' cs' = all_bits uh (A ++ [c] ++ B).
Proof.
  intros R Hs Hr W HA HB. unfold collapse_unr. destruct (to_run_ok uh F A c B R Hs) as (uh1 & c1 & -> & N1 & R1 & S1 & I1 & B1 & P1). rewrite bind_Done_l. rewrite <- I1.
  destruct (drop_empty_ok uh1 F A c1 B R1 S1 P1) as (uh2 & up & -> & N2 & Hcase). rewrite bind_Done_l.
  assert (Hm : exists uh3 cs3, match up with Some up => merge_both uh2 up | None => mret uh2 end = Done uh3 /\ same_nums uh2 uh3 /\ rep uh3 F cs3 /\ small cs3 /\ Forall cwf cs3 /\ alt cs3 /\ bits cs3 = bits (A ++ [c] ++ B)).
  { destruct Hcase as [(-> & R2 & W2) | (R2 & S2 & Eb & ->)].
    - destruct (merge_both_ok uh2 F A c1 B R2 S1) as (uh3 & cs3 & E3 & N3 & R3 & S3 & W3 & A3 & B3); try done; [rewrite !Forall_app in *; split_and!; try tauto; by constructor |].
      exists uh3, cs3. split_and!; try done. rewrite B3, !bits_app, !bits_cons. by rewrite B1.
    - destruct (merge_hot uh2 F A B _ R2 S2 W HA HB eq_refl) as (uh3 & cs3 & E3 & N3 & R3 & S3 & W3 & A3 & B3). exists uh3, cs3. split_and!; try done. rewrite B3, !bits_app, !bits_cons. rewrite <- B1, Eb. done. }
  destruct Hm as (uh3 & cs3 & -> & N3 & R3 & S3 & W3 & A3 & B3). rewrite bind_Done_l. assert (N13 : same_nums uh uh3) by (by eapply same_nums_trans; [| eapply same_nums_trans]).
  destruct (merge_first_ok uh3 F cs3 R3 S3 (in_range_same _ _ _ _ N13 B3 Hr) W3 A3) as (uh4 & cs4 & -> & N4 & R4 & S4 & G4 & W4 & A4 & H4 & B4). rewrite bind_Done_l.
  destruct (merge_last_ok uh4 F cs4 R4 S4 G4 W4 A4 H4) as (uh5 & cs5 & -> & N5 & R5 & S5 & G5 & Hn5 & B5). rewrite bind_Done_l.
  destruct (optimize_loop_ok (S (length (uh_head uh5))) uh5 F cs5) as (uh6 & cs6 & -> & N6 & R6 & Hn6 & Ht6 & B6); try done.
  { rewrite (rep_head _ _ _ R5), length_fmap. lia. }
  exists uh6, cs6. split_and!; try done.
  - eapply same_rest_trans; [by apply same_nums_rest, N13 |]. eapply same_rest_trans; [exact N4 |]. eapply same_rest_trans; [exact N5 |]. by apply same_nums_rest.
  - by eapply in_range_same.
  - by rewrite (all_bits_same uh5 uh6 cs5 cs6 N6 B6), B5, B4, (all_bits_same uh uh3 _ cs3 N13 B3).
Qed.
End Collapse.
