(* ===== verification/UnitOps.v ===== *)
(** * Unit numbers: allocation and freeing *)

From stdpp Require Import prelude list strings gmap.
From S2P Require Import Prelude.
From S2P Require Import Tailq.
From S2P Require Import Bitstring.
From S2P Require Import Unit.
From S2P Require Import UnitRep.
From S2P Require Import UnitNorm.
From S2P Require Lockmgr.
Open Scope Z_scope.

(** The header with the list [cs] stands for the numbers [U]. *)
Definition mid (uh : unrhdr) (F : list nat) (cs : list chunk) (U : list bool) : Prop :=
  rep uh F cs /\ all_bits uh cs = U /\ 0 <= uh_first uh /\ 0 <= uh_last uh /\ zlen U <= 2 ^ 31.

Lemma zlen_replicate {A} n (x : A) : 0 <= n -> zlen (replicate (Z.to_nat n) x) = n.
Proof. intros. unfold zlen. rewrite length_replicate. lia. Qed.

Lemma mid_len uh F cs U : mid uh F cs U -> zlen U = uh_first uh + total cs + uh_last uh.
Proof. intros (_ & <- & Hf & Hl & _). unfold all_bits, total. rewrite !zlen_app, !zlen_replicate by done. lia. Qed.

Lemma cnt_zlen_replicate n (b : bool) : 0 <= n -> cnt (replicate (Z.to_nat n) b) = if b then n else 0.
Proof. intros. rewrite cnt_replicate. destruct b; lia. Qed.

Lemma mid_cnt uh F cs U : mid uh F cs U -> cnt U = uh_first uh + cnt (bits cs).
Proof. intros (_ & <- & Hf & Hl & _). unfold all_bits. rewrite !cnt_app, !cnt_zlen_replicate by done. lia. Qed.

(** ** The consistency check *)

Lemma check_loop_ok uh F A B y z : rep uh F (A ++ B) -> 0 <= y -> 0 <= z -> y + total B < 2 ^ 32 -> z + zlen (ids B) < 2 ^ 32 ->
  check_loop uh (cid <$> B) y z = Done (y + cnt (bits B), z + zlen (ids B)).
Proof.
  revert A y z. induction B as [| c B IH]; intros A y z R Hy Hz Ht Hi; [cbn; by rewrite !Z.add_0_r |].
  cbn [fmap list_fmap check_loop]. rewrite (rep_get uh F A c B R), bind_Done_l. pose proof (rep_chunk_ok uh F A c B R) as Hok. rewrite total_cons in Ht by done. pose proof (total_nonneg B). pose proof (zlen_nonneg (ids B)).
  rewrite ids_cons, bits_cons, cnt_app, zlen_app in *. assert (R' : rep uh F ((A ++ [c]) ++ B)) by (by rewrite <- app_assoc). destruct c as [p b n | p m n map]; cbn [cunr cptr ptr clen len] in *.
  - cbn in Hok. change (zlen (cids (CRun p b n))) with 1 in *. cbn [cbits]. rewrite cnt_zlen_replicate by done. destruct b; rewrite ?u32_id by (unfold_int; lia); rewrite (IH (A ++ [CRun p _ n])) by (done || lia); do 2 f_equal; lia.
  - destruct Hok as [Hm Hn]. change (zlen (cids (CMap p m n map))) with 2 in *. rewrite (rep_get_map uh F A p m n map B R), bind_Done_l. unfold KKASSERT. rewrite (proj2 (Z.leb_le n NBITS)) by lia. rewrite bind_Done_l.
    cbn [ub_map ub_busy]. rewrite count_loop_ok by (done || lia). rewrite bind_Done_l, Z.add_0_l, Z2Nat.id by lia. cbn [cbits]. rewrite Z.eqb_refl, bind_Done_l. pose proof (cnt_mbits map n ltac:(lia)) as Hc. unfold mbits in Hc.
    rewrite !u32_id by (unfold_int; lia || (rewrite Z.mod_small; lia)). rewrite (IH (A ++ [CMap p m n map])) by (done || lia). do 2 f_equal; lia.
Qed.

Lemma wf_count uh F cs : rep uh F cs -> Forall cwf cs -> zlen (ids cs) <= total cs.
Proof. intros R W. by apply wf_small; [apply R |]. Qed.

Lemma check_ok uh F cs U : mid uh F cs U -> Forall cwf cs -> uh_busy uh = cnt U -> check_unrhdr uh = Done tt.
Proof.
  intros M W Hb. pose proof (mid_len _ _ _ _ M) as Hl. pose proof (mid_cnt _ _ _ _ M) as Hc. destruct M as (R & _ & Hf & Hla & Hu). pose proof (wf_count _ _ _ R W). pose proof (total_nonneg cs).
  unfold check_unrhdr. rewrite (rep_head _ _ _ R), (check_loop_ok uh F [] cs) by (done || lia). rewrite bind_Done_l. unfold KKASSERT. replace (uh_first uh + cnt (bits cs) =? uh_busy uh) with true by (symmetry; apply Z.eqb_eq; lia). rewrite bind_Done_l, (rep_alloc _ _ _ R), Z.add_0_l, Z.eqb_refl. done.
Qed.

(** ** One number *)

(** The number [k] of a chunk. *)
Lemma all_bits_insert uh F A c B U k v : mid uh F (A ++ [c] ++ B) U -> 0 <= k < clen c ->
  <[Z.to_nat (uh_first uh + total A + k) := v]> U =
    replicate (Z.to_nat (uh_first uh)) true ++ bits A ++ <[Z.to_nat k := v]> (cbits c) ++ bits B ++ replicate (Z.to_nat (uh_last uh)) false.
Proof.
  intros (R & <- & Hf & Hl & _) Hk. unfold all_bits. rewrite !bits_app, bits_cons. change (bits []) with (@nil bool). rewrite app_nil_r, <- !app_assoc. pose proof (rep_chunk_ok uh F A c B R) as Hok. pose proof (clen_bits c Hok) as Hcl. unfold zlen in Hcl.
  pose proof (total_nonneg A) as HtA. unfold total, zlen in *.
  replace (Z.to_nat (uh_first uh + Z.of_nat (length (bits A)) + k)) with (length (replicate (Z.to_nat (uh_first uh)) true) + (length (bits A) + Z.to_nat k))%nat by (rewrite length_replicate; lia).
  rewrite insert_app_r, insert_app_r, insert_app_l by lia. done.
Qed.

Lemma all_bits_lookup uh F A c B U k : mid uh F (A ++ [c] ++ B) U -> 0 <= k < clen c -> U !! Z.to_nat (uh_first uh + total A + k) = cbits c !! Z.to_nat k.
Proof.
  intros (R & <- & Hf & Hl & _) Hk. unfold all_bits. rewrite !bits_app, bits_cons. change (bits []) with (@nil bool). rewrite app_nil_r, <- !app_assoc. pose proof (rep_chunk_ok uh F A c B R) as Hok. pose proof (clen_bits c Hok) as Hcl. unfold zlen in Hcl.
  pose proof (total_nonneg A) as HtA. unfold total, zlen in *. rewrite lookup_app_r by (rewrite length_replicate; lia). rewrite lookup_app_r by (rewrite length_replicate; lia). rewrite lookup_app_l by (rewrite length_replicate; lia). f_equal. rewrite length_replicate. lia.
Qed.

(** A chunk is changed within its objects. *)
Lemma rep_change uh F A c c' B uh' : rep uh F (A ++ [c] ++ B) -> cids c' = cids c -> uh_head uh' = uh_head uh -> uh_alloc uh' = uh_alloc uh -> uh_next uh' = uh_next uh ->
  (forall q, q ∉ cids c -> uh_heap uh' !! q = uh_heap uh !! q) -> chunk_in (uh_heap uh') c' -> chunk_ok c' -> rep uh' F (A ++ [c'] ++ B).
Proof.
  intros R Ei Eh Ea En Ho Hin Hok. assert (Eid : cid c' = cid c) by (destruct c, c'; simpl in *; congruence). assert (Eids : ids [c'] = ids [c]) by (unfold ids; cbn; by rewrite Ei).
  apply (rep_upd uh F _ F A [c] [c'] B R).
  - rewrite Eh, (rep_head _ _ _ R), !fmap_app. cbn. by rewrite Eid.
  - intros q Hq. apply Ho. unfold ids in Hq. cbn in Hq. set_solver.
  - by constructor.
  - by constructor.
  - rewrite Eids. by eapply rep_mid_nodup.
  - by rewrite Eids.
  - intros q Hq. rewrite Eids. split; [done |]. intros _. destruct (decide (q ∈ cids c)) as [Hc | Hc].
    + destruct Hin as [H1 H2]. rewrite <- Ei in Hc. destruct c'; cbn in *; apply elem_of_cons in Hc as [-> | Hc]; rewrite ?H1; [done | by apply not_elem_of_nil in Hc | done |]. apply list_elem_of_singleton in Hc as ->. by rewrite H2.
    + rewrite Ho by done. apply (rep_dom _ _ _ R). rewrite !ids_app. set_solver.
  - rewrite Ea, Eids. lia.
  - done.
Qed.

(** The state between calls. *)
Record models (uh : unrhdr) (F : list nat) (U : list bool) : Prop := {
  mod_list : exists cs, mid uh F cs U /\ normal cs /\ tight cs;
  mod_busy : uh_busy uh = cnt U;
  mod_range : 0 <= uh_low uh /\ uh_low uh + zlen U = uh_high uh + 1 /\ uh_high uh < 2 ^ 31
}.

Section Ops.
Context (stale : unr -> nat -> Z).

Lemma collapse_models uh F A c B U : mid uh F (A ++ [c] ++ B) U -> Forall cwf (A ++ B) -> alt A -> alt B -> uh_busy uh = cnt U -> 0 <= uh_low uh /\ uh_low uh + zlen U = uh_high uh + 1 /\ uh_high uh < 2 ^ 31 ->
  exists uh', collapse_unr stale uh (cid c) = Done uh' /\ models uh' F U /\ uh_low uh' = uh_low uh.
Proof.
  intros M W HA HB Hb Hr. pose proof (mid_len _ _ _ _ M) as Hl. pose proof M as (R & Eu & Hf & Hla & Hu). pose proof (rep_ok _ _ _ R) as Hok. rewrite !Forall_app in Hok. destruct Hok as (OA & Oc & OB).
  assert (Hi : zlen (ids (A ++ [c] ++ B)) <= total (A ++ [c] ++ B) + 2).
  { pose proof (wf_small (A ++ B) ltac:(by rewrite Forall_app) W) as H. rewrite !ids_app, !zlen_app, !chunks_total_app in *. pose proof (total_nonneg [c]). assert (zlen (ids [c]) <= 2) by (unfold zlen; destruct c; simpl; lia). lia. }
  assert (Hs : small (A ++ [c] ++ B)) by (unfold small; lia).
  destruct (collapse_unr_ok stale uh F A c B R Hs) as (uh' & cs' & -> & (N1 & N2 & N3) & R' & (G1 & G2 & G3) & Hn & Ht & E); try done; [unfold in_range; lia |].
  exists uh'. split; [done |]. split; [| done]. constructor; [| by rewrite N3 | by rewrite N1, N2]. exists cs'. split; [| done]. unfold mid. rewrite E. by split_and!.
Qed.

(** ** Allocation *)

Definition first_clear (U : list bool) (i : Z) : Prop := 0 <= i /\ U !! Z.to_nat i = Some false /\ forall j, 0 <= j < i -> U !! Z.to_nat j = Some true.

Lemma lookup_low uh F cs U j : mid uh F cs U -> 0 <= j < uh_first uh -> U !! Z.to_nat j = Some true.
Proof. intros (_ & <- & _) Hj. unfold all_bits. rewrite lookup_app_l by (rewrite length_replicate; lia). apply lookup_replicate_2. lia. Qed.

Lemma low_range low (U : list bool) high i : 0 <= low /\ low + zlen U = high + 1 /\ high < 2 ^ 31 -> 0 <= i < zlen U -> s32 (u32 (low + i)) = low + i.
Proof. intros (H1 & H2 & H3) Hi. rewrite u32_id, s32_id by (unfold_int; lia). done. Qed.

(** What is left of the first free run, and the number that was taken from it. *)
Lemma alloc_run uh F p n B U : mid uh F (CRun p false n :: B) U -> 0 < n ->
  let uh' := store (set_first uh (uh_first uh + 1)) p (OUnr (Unr (n - 1) PNull)) in
  mid uh' F ([] ++ [CRun p false (n - 1)] ++ B) (<[Z.to_nat (uh_first uh) := true]> U) /\ first_clear U (uh_first uh).
Proof.
  intros M Hn uh'. pose proof (all_bits_insert uh F [] _ B U 0 true M ltac:(cbn; lia)) as E. pose proof (all_bits_lookup uh F [] _ B U 0 M ltac:(cbn; lia)) as El.
  pose proof M as (R & Eu & Hf & Hl & Hu). change (total []) with 0 in E, El. rewrite !Z.add_0_r in E, El. split.
  - split_and!; try done; cbn; [| | lia |].
    + apply (rep_change uh F [] (CRun p false n) _ B); try done; cbn; [intros q Hq; by rewrite lookup_insert_ne by set_solver | split; [cbn; by rewrite lookup_insert_eq | done] | lia].
    + rewrite E. unfold all_bits. change (uh_first uh') with (uh_first uh + 1). change (uh_last uh') with (uh_last uh). rewrite Z2Nat.inj_add, replicate_add by lia. rewrite bits_cons. cbn [cbits]. change (bits []) with (@nil bool). rewrite app_nil_l, <- !app_assoc. f_equal.
      replace (Z.to_nat n) with (S (Z.to_nat (n - 1))) by lia. done.
    + by rewrite zlen_insert.
  - split_and!; try done; [rewrite El; cbn [cbits]; apply lookup_replicate_2; lia |]. intros j Hj. by eapply lookup_low.
Qed.

Lemma cbits_map p m n map : cbits (CMap p m n map) = mbits map n.
Proof. done. Qed.

Lemma alloc_map uh F p m n map B U : mid uh F (CMap p m n map :: B) U -> mixed (cbits (CMap p m n map)) -> 
  exists y map', bit_ffc map n = Done y /\ 0 <= y < n /\ bit_set map y = Done map' /\ first_clear U (uh_first uh + y) /\ u8 (cnt (cbits (CMap p m n map)) + 1) = cnt (cbits (CMap p m n map')) /\
    mid (store uh m (OUnrb (Unrb (cnt (cbits (CMap p m n map'))) map'))) F ([] ++ [CMap p m n map'] ++ B) (<[Z.to_nat (uh_first uh + y) := true]> U).
Proof.
  intros M [_ Hfree]. pose proof M as (R & Eu & Hf & Hl & Hu). pose proof (rep_chunk_ok uh F [] _ B R) as [Hm Hn]. destruct (bit_ffc_ok MAPSIZE map Hm n ltac:(nbits; lia) ltac:(nbits; lia)) as (y & Ey & Hy).
  destruct Hy as [[-> Hall] | (Hy & Hy0 & Hy1)].
  { exfalso. cbn [cbits] in Hfree. apply list_elem_of_fmap in Hfree as (i & Ei & Hi). apply elem_of_seqZ in Hi. rewrite Hall in Ei by lia. done. }
  destruct (bit_set_ok MAPSIZE map Hm y ltac:(nbits; lia)) as (map' & Es & Hm' & Hb). exists y, map'.
  assert (Ebits : cbits (CMap p m n map') = <[Z.to_nat y := true]> (cbits (CMap p m n map))).
  { apply list_eq. intros k. rewrite !cbits_map. destruct (Z.lt_ge_cases (Z.of_nat k) n) as [Hk | Hk].
    - replace k with (Z.to_nat (Z.of_nat k)) at 1 by lia. rewrite (mbits_lookup map' n (Z.of_nat k)) by lia. rewrite Hb by lia. destruct (Z.eqb_spec (Z.of_nat k) y) as [<- | Hne].
      + rewrite Nat2Z.id, list_lookup_insert_eq by (unfold mbits; rewrite length_fmap, length_seqZ; lia). done.
      + rewrite list_lookup_insert_ne by lia. replace k with (Z.to_nat (Z.of_nat k)) at 2 by lia. by rewrite (mbits_lookup map n) by lia.
    - rewrite !lookup_ge_None_2; [done | rewrite length_insert; unfold mbits; rewrite length_fmap, length_seqZ; lia | unfold mbits; rewrite length_fmap, length_seqZ; lia]. }
  assert (Ecnt : cnt (cbits (CMap p m n map')) = cnt (cbits (CMap p m n map)) + 1).
  { rewrite Ebits, (cnt_insert _ _ false) by (rewrite cbits_map, (mbits_lookup map n) by lia; by rewrite Hy0). lia. }
  split_and!; try done; try lia.
  - split; [lia |]. split.
    + replace (uh_first uh + y) with (uh_first uh + total [] + y) by (change (total []) with 0; lia). rewrite (all_bits_lookup uh F [] _ B U y M ltac:(cbn; lia)), cbits_map, (mbits_lookup map n) by lia. by rewrite Hy0.
    + intros j Hj. destruct (Z.lt_ge_cases j (uh_first uh)); [eapply lookup_low; [exact M | lia] |]. replace j with (uh_first uh + total [] + (j - uh_first uh)) by (change (total []) with 0; lia).
      rewrite (all_bits_lookup uh F [] _ B U (j - uh_first uh) M ltac:(cbn; lia)), cbits_map, (mbits_lookup map n) by lia. by rewrite Hy1 by lia.
  - rewrite Ecnt. unfold_int. apply Z.mod_small. pose proof (cnt_mbits map n ltac:(lia)) as Hc. rewrite cbits_map. nbits. lia.
  - split; [| split; [| by rewrite zlen_insert]].
    + pose proof (rep_nodup _ _ _ R) as ND. cbn in ND. apply NoDup_cons in ND as [N1 _]. apply (rep_change uh F [] (CMap p m n map) _ B); try done; cbn.
      * intros q Hq. by rewrite lookup_insert_ne by set_solver.
      * split; cbn; [| by rewrite lookup_insert_eq]. rewrite lookup_insert_ne by set_solver. pose proof (rep_in _ _ _ R) as Hin. inversion Hin as [| ? ? [E _]]; subst. exact E.
    + pose proof (all_bits_insert uh F [] _ B U y true M ltac:(cbn; lia)) as E. change (total []) with 0 in E. rewrite Z.add_0_r in E. rewrite E. unfold all_bits. cbn [uh_first uh_last store set_heap app]. rewrite bits_cons, Ebits. change (bits []) with (@nil bool). by rewrite <- !app_assoc.
Qed.

Lemma clear_lt U i : first_clear U i -> 0 <= i < zlen U.
Proof. intros (H & E & _). apply lookup_lt_Some in E. unfold zlen. lia. Qed.

Lemma clear_busy U i : first_clear U i -> cnt (<[Z.to_nat i := true]> U) = cnt U + 1 /\ cnt U < zlen U.
Proof.
  intros (H & E & _). pose proof (cnt_insert U (Z.to_nat i) false true E) as Hc. cbn iota in Hc. pose proof (cnt_range (<[Z.to_nat i := true]> U)) as Hl. rewrite zlen_insert in Hl. lia.
Qed.

(** Only [first] and [last] are there. *)
Lemma alloc_ideal uh F U : mid uh F [] U -> 0 < uh_last uh ->
  mid (set_last (set_first uh (uh_first uh + 1)) (uh_last uh - 1)) F [] (<[Z.to_nat (uh_first uh) := true]> U) /\ first_clear U (uh_first uh).
Proof.
  intros M Hla. pose proof M as (R & Eu & Hf & Hl & Hu). assert (E : U = replicate (Z.to_nat (uh_first uh)) true ++ replicate (Z.to_nat (uh_last uh)) false) by (by rewrite <- Eu). split.
  - split; [by destruct R |]. split; [| split_and!; cbn; try lia; by rewrite zlen_insert]. unfold all_bits. cbn [uh_first uh_last set_first set_last]. rewrite E. rewrite Z2Nat.inj_add, replicate_add by lia. rewrite insert_app_r_alt by (rewrite length_replicate; lia).
    rewrite length_replicate, Nat.sub_diag, <- app_assoc. f_equal. replace (Z.to_nat (uh_last uh)) with (S (Z.to_nat (uh_last uh - 1))) by lia. done.
  - split; [done |]. split; [| intros j Hj; by eapply lookup_low]. rewrite E, lookup_app_r by (rewrite length_replicate; lia). rewrite length_replicate. apply lookup_replicate_2. lia.
Qed.

Lemma alloc_unrl_ok uh F U lkp td : models uh F U -> Lockmgr.lockstatus lkp (Some td) <> 0 ->
  (exists uh' i, alloc_unrl stale lkp td uh = Done (uh', uh_low uh + i) /\ first_clear U i /\ models uh' F (<[Z.to_nat i := true]> U) /\ uh_low uh' = uh_low uh) \/
  (alloc_unrl stale lkp td uh = Done (uh, -1) /\ cnt U = zlen U).
Proof.
  intros [(cs & M & Hn & Ht) Hb Hr] Hlk. unfold alloc_unrl. rewrite (proj2 (Z.eqb_neq _ _) Hlk). cbn [negb KKASSERT]. rewrite bind_Done_l, (check_ok uh F cs U M (norm_wf _ Hn) Hb), bind_Done_l. pose proof M as (R & Eu & Hf & Hl & Hu). pose proof (mid_len _ _ _ _ M) as Hlen. rewrite (rep_head _ _ _ R).
  destruct cs as [| c B]; cbn [fmap list_fmap head].
  - change (total []) with 0 in Hlen. destruct (Z.gtb_spec (uh_last uh) 0) as [Hla | Hla].
    + left. destruct (alloc_ideal uh F U M ltac:(lia)) as [M' Hc]. destruct (clear_busy _ _ Hc) as [Hcb Hcb']. pose proof (cnt_range U). eexists _, (uh_first uh). rewrite (low_range _ _ _ _ Hr (clear_lt _ _ Hc)), !(u32_id (_ + 1)), (u32_id (_ - 1)) by (unfold_int; lia). split; [done |]. split; [done |]. split; [| done].
      constructor; [exists []; split; [| done] | cbn; lia | cbn; by rewrite zlen_insert]. destruct M' as (R' & M'). split; [by destruct R' | exact M'].
    + right. split; [done |]. pose proof (mid_cnt _ _ _ _ M) as Hc. cbn in Hc. lia.
  - left. destruct Hn as [W A Hh _]. inversion W as [| ? ? Wc WB]; subst. specialize (Hh c eq_refl). pose proof (rep_chunk_ok uh F [] c B R) as Hok. rewrite total_cons in Hlen by done. pose proof (total_nonneg B). change (c :: B) with ([c] ++ B) in A. apply alt_app in A as (_ & AB & _).
    rewrite (rep_get uh F [] c B R), bind_Done_l. cbn [ptr cunr len]. rewrite bool_decide_false by (by destruct c as [? [] ? |]). cbn [negb KKASSERT]. rewrite bind_Done_l. destruct c as [p [] n | p m n map]; [done | |]; cbn [cptr cid clen] in *.
    + rewrite bind_Done_l. destruct (alloc_run uh F p n B _ M Wc) as [M' Hc]. destruct (clear_busy _ _ Hc) as [Hcb Hcb']. pose proof (cnt_range (all_bits uh (CRun p false n :: B))). cbn in Wc. rewrite !(u32_id (_ + 1)), !(u32_id (n - 1)) by (unfold_int; lia).
      set (uh1 := store _ _ _) in *. destruct (collapse_models (set_busy uh1 (uh_busy uh + 1)) F [] (CRun p false (n - 1)) B (<[Z.to_nat (uh_first uh) := true]> (all_bits uh (CRun p false n :: B)))) as (uh2 & E2 & M2 & L2).
      * destruct M' as (R' & M'). split; [by destruct R' | exact M'].
      * done.
      * done.
      * done.
      * cbn. lia.
      * by rewrite zlen_insert.
      * cbn [cid] in E2. rewrite !(u32_id (uh_busy _ + 1)) by (unfold_int; cbn; lia). change (uh_busy uh1) with (uh_busy uh). rewrite E2, bind_Done_l. exists uh2, (uh_first uh). rewrite (low_range _ _ _ _ Hr (clear_lt _ _ Hc)). done.
    + rewrite (rep_get_map uh F [] p m n map B R), bind_Done_l. destruct (alloc_map uh F p m n map B _ M Wc) as (y & map' & Ey & Hy & Es & Hc & Eb & M'). destruct (clear_busy _ _ Hc) as [Hcb Hcb']. set (U := all_bits _ _) in *. pose proof (cnt_range U).
      assert (Hlt : cnt (cbits (CMap p m n map)) < n). { destruct Wc as [_ Wf]. pose proof (clen_bits _ Hok) as Hcl. cbn [clen] in Hcl. pose proof (cnt_range (cbits (CMap p m n map))). destruct (Z.eq_dec (cnt (cbits (CMap p m n map))) n) as [E |]; [| lia]. rewrite (full_bits (cbits (CMap p m n map))) in Wf by lia. by apply elem_of_replicate in Wf as [? _]. }
      unfold KKASSERT. cbn [ub_busy ub_map]. rewrite (proj2 (Z.ltb_lt _ _) Hlt), bind_Done_l, Ey, bind_Done_l. replace (negb (y =? -1)) with true by (destruct (Z.eqb_spec y (-1)); [lia | done]). rewrite bind_Done_l, Es, bind_Done_l, bind_Done_l, Eb.
      set (uh1 := store _ _ _) in *. destruct (collapse_models (set_busy uh1 (uh_busy uh + 1)) F [] (CMap p m n map') B (<[Z.to_nat (uh_first uh + y) := true]> U)) as (uh2 & E2 & M2 & L2).
      * destruct M' as (R' & M'). split; [by destruct R' | exact M'].
      * done.
      * done.
      * done.
      * cbn. lia.
      * by rewrite zlen_insert.
      * cbn [cid] in E2. rewrite !(u32_id (uh_busy _ + 1)) by (unfold_int; cbn; lia). change (uh_busy uh1) with (uh_busy uh). rewrite E2, bind_Done_l. exists uh2, (uh_first uh + y). pose proof (clear_lt _ _ Hc) as Hr'.
        rewrite (u32_id (uh_low uh + uh_first uh)) by (unfold_int; lia). rewrite <- Z.add_assoc, (low_range _ _ _ _ Hr Hr'). done.
Qed.
End Ops.
