(* ===== verification/UnitFree.v ===== *)
(** * Unit numbers: freeing

    free_unrl on every branch, the memory around it in free_unr, the errors, and
    new_unrhdr and delete_unrhdr. *)

From stdpp Require Import prelude list strings gmap.
From S2P Require Import Prelude.
From S2P Require Import Tailq.
From S2P Require Import Bitstring.
From S2P Require Import Unit.
From S2P Require Import UnitRep.
From S2P Require Import UnitNorm.
From S2P Require Import UnitOps.
From S2P Require Lockmgr.
Open Scope Z_scope.

(** The memory that free_unr has got in advance. *)
Definition cache (p1 p2 : option nat) : list nat := option_list p1 ++ option_list p2.

Lemma new_unr_ok uh p1 p2 F p : cache p1 p2 = p :: F -> 0 <= uh_alloc uh < 2 ^ 32 - 1 ->
  exists p1' p2', new_unr uh p1 p2 = Done (set_alloc uh (uh_alloc uh + 1), p, p1', p2') /\ cache p1' p2' = F.
Proof.
  intros E Ha. unfold new_unr. rewrite u32_id by (unfold_int; lia). destruct p1 as [a |]; cbn in E.
  - injection E as -> E. exists None, p2. done.
  - destruct p2 as [b |]; cbn in E; [| done]. injection E as -> <-. by exists None, None.
Qed.

(** A run in new memory. *)
Lemma rep_insert uh F A B p l uh' : rep uh (p :: F) (A ++ B) -> 0 <= l -> uh_head uh' = cid <$> (A ++ [CRun p true l] ++ B) -> uh_heap uh' = <[p := OUnr (Unr l PHdr)]> (uh_heap uh) ->
  uh_alloc uh' = uh_alloc uh + 1 -> uh_next uh' = uh_next uh -> rep uh' F (A ++ [CRun p true l] ++ B).
Proof.
  intros R Hl Eh Ep Ea En. pose proof (rep_mid_nodup uh (p :: F) A [] B R) as ND. cbn in ND. apply NoDup_cons in ND as [N1 ND].
  apply (rep_upd uh (p :: F) _ F A [] [CRun p true l] B R); try done.
  - intros q Hq. cbn in Hq. rewrite Ep. by rewrite lookup_insert_ne by set_solver.
  - constructor; [| constructor]. split; [| done]. cbn. by rewrite Ep, lookup_insert_eq.
  - constructor; [| constructor]. done.
  - cbn. by apply NoDup_cons.
  - intros q Hq. rewrite Ep, lookup_insert_is_Some', (rep_dom _ _ _ R), !ids_app. cbn. cbn in Hq. set_solver.
  - rewrite Ea. unfold zlen. cbn. lia.
Qed.

Lemma mid_busy uh F cs U v : mid uh F cs U -> mid (set_busy uh v) F cs U.
Proof. intros (R & M). split; [by destruct R | exact M]. Qed.

(** ** Which element *)

Lemma find_item_ok uh F A0 B item : rep uh F (A0 ++ B) -> 0 <= item < total B -> total B < 2 ^ 32 ->
  exists A c C, B = A ++ [c] ++ C /\ find_item uh (cid <$> B) item = Done (cid c, item - total A) /\ 0 <= item - total A < clen c.
Proof.
  revert A0 item. induction B as [| c B IH]; intros A0 item R Hi Ht; [change (total []) with 0 in Hi; lia |]. pose proof (rep_chunk_ok uh F A0 c B R) as Hok. rewrite total_cons in Hi, Ht by done. pose proof (clen_nonneg c Hok). pose proof (total_nonneg B).
  cbn [fmap list_fmap find_item]. rewrite (rep_get uh F A0 c B R), bind_Done_l. cbn [len cunr]. destruct (Z.gtb_spec (clen c) item) as [Hc | Hc].
  - exists [], c, B. change (total []) with 0. rewrite Z.sub_0_r. split_and!; try done; lia.
  - rewrite u32_id by (unfold_int; lia). destruct (IH (A0 ++ [c]) (item - clen c)) as (A & d & C & -> & E & Hd); [by rewrite <- app_assoc | lia | lia |]. exists (c :: A), d, C. rewrite total_cons by done. replace (item - (clen c + total A)) with (item - clen c - total A) by lia. done.
Qed.

Lemma split_first_ok uh cs U i a b : mid uh [a; b] cs U -> normal cs -> 0 <= i -> U !! Z.to_nat i = Some true ->
  exists uh' p1 p2 cs', split_first uh i (Some a) (Some b) = Done (uh', p1, p2) /\ mid uh' (cache p1 p2) cs' U /\ Forall cwf cs' /\ alt cs' /\ same_rest uh uh' /\
    0 <= i - uh_first uh' < total cs' /\ (zlen (cache p1 p2) = 2 \/ zlen (cache p1 p2) = 1 /\ i = uh_first uh').
Proof.
  intros M Hn Hi Hu. pose proof (mid_len _ _ _ _ M) as Hlen. pose proof M as (R & Eu & Hf & Hl & Hul). pose proof (wf_count _ _ _ R (norm_wf _ Hn)) as Hids. pose proof (total_nonneg cs) as Htn. unfold split_first. destruct (Z.ltb_spec i (uh_first uh)) as [Hlt | Hge].
  - destruct (new_unr_ok uh (Some a) (Some b) [b] a eq_refl) as (p1 & p2 & -> & Ec); [rewrite (rep_alloc _ _ _ R); pose proof (zlen_nonneg (ids cs)); lia |]. rewrite bind_Done_l. cbn [uh_first set_alloc store set_heap set_head uh_head].
    rewrite !u32_id by (unfold_int; rewrite ?Z.mod_small; lia). replace (uh_first uh - (uh_first uh - i)) with i by lia. eexists _, p1, p2, (CRun a true (uh_first uh - i) :: cs). split; [done |]. split.
    + split; [| split; [| split_and!; cbn; lia || done]].
      * rewrite Ec. apply (rep_insert uh [b] [] cs a (uh_first uh - i)); cbn; try done; [lia |]. by rewrite (rep_head _ _ _ R).
      * rewrite <- Eu. unfold all_bits. cbn [uh_first uh_last set_first set_head store set_heap set_alloc]. rewrite bits_cons. cbn [cbits]. replace (Z.to_nat (uh_first uh)) with (Z.to_nat i + Z.to_nat (uh_first uh - i))%nat by lia. by rewrite replicate_add, <- !app_assoc.
    + split; [constructor; [cbn; lia | apply Hn] |]. split.
      * change (CRun a true (uh_first uh - i) :: cs) with ([CRun a true (uh_first uh - i)] ++ cs). apply alt_app. split_and!; [done | apply Hn |]. intros c d Ec' Ed. injection Ec' as <-. pose proof (norm_head _ Hn d Ed) as Hd. intros [] Hb; [done | by cbn in Hb].
      * split; [done |]. cbn [uh_first set_first]. rewrite total_cons by (cbn; lia). cbn [clen]. rewrite Ec. split; [lia |]. by right.
  - exists uh, (Some a), (Some b), cs. split; [done |]. split; [done |]. split; [apply Hn |]. split; [apply Hn |]. split; [done |]. split; [| by left]. split; [lia |].
    destruct (Z.lt_ge_cases (i - uh_first uh) (total cs)) as [| Hx]; [done |]. exfalso. rewrite <- Eu in Hu. unfold all_bits in Hu. unfold total, zlen in Hx. rewrite lookup_app_r, length_replicate in Hu by (rewrite length_replicate; lia). rewrite lookup_app_r in Hu by lia. by apply lookup_replicate in Hu as [? _].
Qed.

(** ** Inside an allocated run *)

Lemma run_clear n k : 0 <= k < n -> <[Z.to_nat k := false]> (replicate (Z.to_nat n) true) = replicate (Z.to_nat k) true ++ [false] ++ replicate (Z.to_nat (n - (1 + k))) true.
Proof. intros H. rewrite insert_replicate_lt by lia. simpl. do 3 f_equal. lia. Qed.

(** The header after the element [c] was replaced. *)
Lemma mid_replace uh F A c B U k v uh' F' A' X B' : mid uh F (A ++ [c] ++ B) U -> 0 <= k < clen c -> rep uh' F' (A' ++ X ++ B') -> uh_first uh' = uh_first uh -> uh_last uh' = uh_last uh ->
  bits (A' ++ X ++ B') = bits A ++ <[Z.to_nat k := v]> (cbits c) ++ bits B -> mid uh' F' (A' ++ X ++ B') (<[Z.to_nat (uh_first uh + total A + k) := v]> U).
Proof.
  intros M Hk R' Ef El Eb. pose proof M as (R & Eu & Hf & Hl & Hu). split; [done |]. split; [| rewrite Ef, El, zlen_insert; done].
  rewrite (all_bits_insert uh F A c B U k v M Hk). unfold all_bits. rewrite Ef, El, Eb. by rewrite <- !app_assoc.
Qed.

Lemma free_run_ok uh F A c B : rep uh F (A ++ [c] ++ B) -> free_run uh (Some (cid c)) = Done (if is_run false c then Some (cunr c) else None).
Proof. intros R. unfold free_run. rewrite (rep_get uh F A c B R), bind_Done_l. cbn [ptr cunr]. by destruct c as [? [] ? |]. Qed.

Lemma differ_same c d d' : differ c d -> (forall b, is_run b d' = is_run b d) -> differ c d'.
Proof. intros H E b Hb. rewrite E. by apply H. Qed.

Lemma alt_last_same A c c' : alt (A ++ [c]) -> (forall b, is_run b c' = is_run b c) -> alt (A ++ [c']).
Proof. rewrite !alt_app. intros (H1 & _ & H2) E. split_and!; try done. intros a d Ha Hd. simplify_eq/=. eapply differ_same; [by apply H2 | done]. Qed.

Lemma alt_head_same c c' B : alt ([c] ++ B) -> (forall b, is_run b c' = is_run b c) -> alt ([c'] ++ B).
Proof. rewrite !alt_app. intros (_ & H1 & H2) E. split_and!; try done. intros a d Ha Hd b Hb. simplify_eq/=. apply (H2 c d); [done | done |]. by rewrite <- E. Qed.

Section Free.
Context (stale : unr -> nat -> Z).

(** What has to be known when a number of a run is freed. *)
Record freeing (uh : unrhdr) (F : list nat) (A : list chunk) (p : nat) (n k : Z) (B : list chunk) (U : list bool) : Prop := {
  fr_mid : mid uh F (A ++ [CRun p true n] ++ B) U;
  fr_wf : Forall cwf (A ++ B);
  fr_alt : alt (A ++ [CRun p true n] ++ B);
  fr_item : 0 <= k < n;
  fr_busy : uh_busy uh = cnt U;
  fr_range : 0 <= uh_low uh /\ uh_low uh + zlen U = uh_high uh + 1 /\ uh_high uh < 2 ^ 31
}.

Section Run.
Context (uh : unrhdr) (F : list nat) (A : list chunk) (p : nat) (n k : Z) (B : list chunk) (U : list bool).
Hypothesis Hfr : freeing uh F A p n k B U.
#[local] #[warnings="-notation-for-abbreviation"] Notation U' := (<[Z.to_nat (uh_first uh + total A + k) := false]> U).

Lemma free_busy : u32 (uh_busy uh - 1) = cnt U'.
Proof.
  destruct Hfr as [M _ _ Hk Hb Hr]. pose proof (all_bits_lookup uh F A _ B U k M ltac:(cbn; lia)) as E. cbn [cbits] in E. rewrite lookup_replicate_2 in E by lia.
  rewrite (cnt_insert U _ true false E), Hb. pose proof (cnt_insert U _ true false E) as Hc. cbn iota in *. pose proof (cnt_range (<[Z.to_nat (uh_first uh + total A + k) := false]> U)) as Hl. pose proof (cnt_range U). rewrite u32_id by (unfold_int; lia). lia.
Qed.

(** The list that is left is collapsed. *)
Lemma free_collapse uh1 F1 A1 c1 B1 : mid uh1 F1 (A1 ++ [c1] ++ B1) U' -> Forall cwf (A1 ++ B1) -> alt A1 -> alt B1 -> uh_low uh1 = uh_low uh -> uh_high uh1 = uh_high uh -> uh_busy uh1 = uh_busy uh ->
  exists uh', collapse_unr stale (set_busy uh1 (u32 (uh_busy uh1 - 1))) (cid c1) = Done uh' /\ models uh' F1 U' /\ uh_low uh' = uh_low uh.
Proof.
  intros M W HA HB El Eh Eb. destruct (collapse_models stale (set_busy uh1 (u32 (uh_busy uh1 - 1))) F1 A1 c1 B1 U') as (uh' & -> & M' & L'); try done.
  - by apply mid_busy.
  - cbn. rewrite Eb. apply free_busy.
  - cbn. rewrite El, Eh, zlen_insert. apply Hfr.
  - exists uh'. split_and!; try done. rewrite L'. exact El.
Qed.

(** Just this one left *)
Lemma free_single : n = 1 -> exists uh', collapse_unr stale (set_busy (store uh p (OUnr (Unr 1 PNull))) (u32 (uh_busy uh - 1))) p = Done uh' /\ models uh' F U' /\ uh_low uh' = uh_low uh.
Proof.
  intros En. pose proof Hfr as [M W Ha Hk _ _]. pose proof M as (R & _). apply alt_mid in Ha as (HA & HB & _). apply (free_collapse (store uh p (OUnr (Unr 1 PNull))) F A (CRun p false 1) B); try done.
  eapply (mid_replace uh F A (CRun p true n) B U k); try done.
  - apply (rep_change uh F A (CRun p true n) _ B); try done; cbn; [intros q Hq; by rewrite lookup_insert_ne by set_solver |]. split; [cbn; by rewrite lookup_insert_eq | done].
  - rewrite !bits_app. f_equal. f_equal. cbn [cbits]. rewrite run_clear by lia. replace (Z.to_nat k) with 0%nat by lia. replace (Z.to_nat (n - (1 + k))) with 0%nat by lia. done.
Qed.

(** Into the free run before it, or behind it *)
Lemma free_into_prev A0 q m : A = A0 ++ [CRun q false m] -> k = 0 -> 2 <= n ->
  exists uh', collapse_unr stale (set_busy (store (store uh q (OUnr (Unr (u32 (m + 1)) PNull))) p (OUnr (Unr (u32 (n - 1)) PHdr))) (u32 (uh_busy uh - 1))) p = Done uh' /\ models uh' F U' /\ uh_low uh' = uh_low uh.
Proof.
  intros EA Ek Hn. pose proof Hfr as [M W Ha Hk _ _]. pose proof (mid_len _ _ _ _ M) as Hlen. pose proof M as (R & _ & Hf & Hl & Hu). apply alt_mid in Ha as (HA & HB & _). rewrite EA in HA. pose proof (rep_mid_nodup uh F A0 [CRun q false m; CRun p true n] B) as ND.
  assert (R0 : rep uh F (A0 ++ [CRun q false m] ++ ([CRun p true n] ++ B))) by (by rewrite EA, <- app_assoc in R). specialize (ND R0). cbn in ND. apply NoDup_cons in ND as [N1 ND].
  pose proof (rep_chunk_ok uh F A0 _ _ R0) as Hm. cbn in Hm. assert (Hm32 : m + 1 < 2 ^ 32). { rewrite EA, !chunks_total_app, !total_cons in Hlen by (cbn; lia). cbn [clen] in Hlen. pose proof (total_nonneg A0). pose proof (total_nonneg B). pose proof (total_nonneg []). lia. }
  assert (Hn32 : n - 1 < 2 ^ 32). { rewrite !chunks_total_app, !total_cons in Hlen by (cbn; lia). cbn [clen] in Hlen. pose proof (total_nonneg A). pose proof (total_nonneg B). pose proof (total_nonneg []). lia. }
  rewrite !u32_id by (unfold_int; lia).
  apply (free_collapse (store (store uh q (OUnr (Unr (m + 1) PNull))) p (OUnr (Unr (n - 1) PHdr))) F (A0 ++ [CRun q false (m + 1)]) (CRun p true (n - 1)) B); try done.
  - eapply (mid_replace uh F A (CRun p true n) B U k); try done.
    + apply (rep_change (store uh q (OUnr (Unr (m + 1) PNull))) F (A0 ++ [CRun q false (m + 1)]) (CRun p true n) _ B); try done; cbn; [| intros r Hr; by rewrite lookup_insert_ne by set_solver | split; [cbn; by rewrite lookup_insert_eq | done] | lia].
      rewrite <- app_assoc. apply (rep_change uh F A0 (CRun q false m) _ ([CRun p true n] ++ B)); try done; cbn; [intros r Hr; by rewrite lookup_insert_ne by set_solver | split; [cbn; by rewrite lookup_insert_eq | done] | lia].
    + rewrite EA, !bits_app, !bits_cons. cbn [cbits]. change (bits []) with (@nil bool). rewrite !app_nil_r, Z2Nat.inj_add, replicate_add, Ek, run_clear, <- !app_assoc by lia. do 2 f_equal.
  - rewrite EA in W. rewrite !Forall_app in *. destruct W as ((W1 & W2) & W3). split_and!; try done. constructor; [| constructor]. cbn. lia.
  - by eapply alt_last_same.
Qed.

Lemma free_into_next B0 q m : B = CRun q false m :: B0 -> k = n - 1 -> 2 <= n ->
  exists uh', collapse_unr stale (set_busy (store (store uh q (OUnr (Unr (u32 (m + 1)) PNull))) p (OUnr (Unr (u32 (n - 1)) PHdr))) (u32 (uh_busy uh - 1))) p = Done uh' /\ models uh' F U' /\ uh_low uh' = uh_low uh.
Proof.
  intros EB Ek Hn. pose proof Hfr as [M W Ha Hk _ _]. pose proof (mid_len _ _ _ _ M) as Hlen. pose proof M as (R & _ & Hf & Hl & Hu). apply alt_mid in Ha as (HA & HB & _). rewrite EB in HB. pose proof (rep_mid_nodup uh F A [CRun p true n; CRun q false m] B0) as ND.
  assert (R0 : rep uh F ((A ++ [CRun p true n]) ++ [CRun q false m] ++ B0)) by (by rewrite EB in R; rewrite <- app_assoc). specialize (ND ltac:(by rewrite EB in R)). cbn in ND. apply NoDup_cons in ND as [N1 ND].
  pose proof (rep_chunk_ok uh F _ _ _ R0) as Hm. cbn in Hm. assert (Hm32 : m + 1 < 2 ^ 32 /\ n - 1 < 2 ^ 32). { rewrite EB, !chunks_total_app, !total_cons in Hlen by (cbn; lia). cbn [clen] in Hlen. pose proof (total_nonneg A). pose proof (total_nonneg B0). pose proof (total_nonneg []). lia. }
  rewrite !u32_id by (unfold_int; lia).
  apply (free_collapse (store (store uh q (OUnr (Unr (m + 1) PNull))) p (OUnr (Unr (n - 1) PHdr))) F A (CRun p true (n - 1)) (CRun q false (m + 1) :: B0)); try done.
  - eapply (mid_replace uh F A (CRun p true n) B U k); try done.
    + apply (rep_change (store uh q (OUnr (Unr (m + 1) PNull))) F A (CRun p true n) _ (CRun q false (m + 1) :: B0)); try done; cbn; [| intros r Hr; by rewrite lookup_insert_ne by set_solver | split; [cbn; by rewrite lookup_insert_eq | done] | lia].
      change (A ++ CRun p true n :: CRun q false (m + 1) :: B0) with (A ++ [CRun p true n] ++ [CRun q false (m + 1)] ++ B0). rewrite app_assoc. apply (rep_change uh F (A ++ [CRun p true n]) (CRun q false m) _ B0); try done; cbn; [intros r Hr; by rewrite lookup_insert_ne by set_solver | split; [cbn; by rewrite lookup_insert_eq | done] | lia].
    + rewrite EB, !bits_app, !bits_cons. cbn [cbits]. change (bits []) with (@nil bool). rewrite !app_nil_r, (Z.add_comm m), Z2Nat.inj_add, replicate_add, Ek, run_clear, <- !app_assoc by lia. f_equal. f_equal. cbn. replace (Z.to_nat (n - (1 + (n - 1)))) with 0%nat by lia. done.
  - rewrite EB in W. rewrite !Forall_app in *. destruct W as (W1 & W2). split; [done |]. inversion W2; subst. constructor; [cbn; lia | done].
Qed.

(** The run is split into up to three. *)
Lemma split_tail uh1 F1 A1 l p1 p2 t : rep uh1 (cache p1 p2) (A1 ++ [CRun p true n] ++ B) -> cache p1 p2 = t :: F1 -> 0 <= uh_alloc uh1 < 2 ^ 32 - 1 -> 0 < l ->
  exists uh' p1' p2', (
      '(uh, upp, p1, p2) ← new_unr uh1 p1 p2;
      let uh := store uh upp (OUnr (Unr l PHdr)) in
      mret (set_head uh (insert_after p upp (uh_head uh)), p1, p2)) = Done (uh', p1', p2') /\ cache p1' p2' = F1 /\ rep uh' F1 (A1 ++ [CRun p true n] ++ [CRun t true l] ++ B) /\ same_nums uh1 uh' /\ uh_alloc uh' = uh_alloc uh1 + 1.
Proof.
  intros R Ec Ha Hl. destruct (new_unr_ok uh1 p1 p2 F1 t Ec Ha) as (p1' & p2' & -> & Ec'). rewrite bind_Done_l. eexists _, p1', p2'. split; [done |]. split; [done |]. split; [| done].
  rewrite app_assoc. rewrite Ec in R. apply (rep_insert uh1 F1 (A1 ++ [CRun p true n]) B t l); try done; [by rewrite <- app_assoc | lia |]. cbn.
  rewrite (rep_head _ _ _ R), !fmap_app. cbn. pose proof (rep_mid_notin uh1 (t :: F1) A1 _ B R) as Hni. rewrite insert_after_mid by done. by rewrite <- app_assoc.
Qed.

Lemma split_head uh1 F1 A1 B1 l p1 p2 t : rep uh1 (cache p1 p2) (A1 ++ [CRun p true n] ++ B1) -> cache p1 p2 = t :: F1 -> 0 <= uh_alloc uh1 < 2 ^ 32 - 1 -> 0 < l ->
  exists uh' p1' p2', (
      '(uh, upp, p1, p2) ← new_unr uh1 p1 p2;
      let uh := store uh upp (OUnr (Unr l PHdr)) in
      mret (set_head uh (insert_before p upp (uh_head uh)), p1, p2)) = Done (uh', p1', p2') /\ cache p1' p2' = F1 /\ rep uh' F1 ((A1 ++ [CRun t true l]) ++ [CRun p true n] ++ B1) /\ same_nums uh1 uh'.
Proof.
  intros R Ec Ha Hl. destruct (new_unr_ok uh1 p1 p2 F1 t Ec Ha) as (p1' & p2' & -> & Ec'). rewrite bind_Done_l. eexists _, p1', p2'. split; [done |]. split; [done |]. split; [| done].
  rewrite <- app_assoc. rewrite Ec in R. apply (rep_insert uh1 F1 A1 ([CRun p true n] ++ B1) t l); try done; [lia |]. cbn.
  rewrite (rep_head _ _ _ R), !fmap_app. cbn. pose proof (rep_mid_notin uh1 (t :: F1) A1 _ B1 R) as Hni. by rewrite insert_before_mid by done.
Qed.

Lemma split_run_ok p1 p2 : cache p1 p2 = F -> 2 <= n -> (if k =? 0 then 1 else 2) <= zlen F ->
  exists uh' p1' p2', split_run uh p (Unr n PHdr) k p1 p2 = Done (uh', p1', p2') /\ uh_busy uh' = uh_busy uh /\
    exists uh'', collapse_unr stale (set_busy uh' (u32 (uh_busy uh' - 1))) p = Done uh'' /\ models uh'' (cache p1' p2') U' /\ uh_low uh'' = uh_low uh.
Proof.
  intros Ec Hn HF. pose proof Hfr as [M W Ha Hk _ _]. pose proof (mid_len _ _ _ _ M) as Hlen. pose proof M as (R & _ & Hf & Hl & Hu). pose proof Ha as HAB. apply alt_mid in HAB as (HA & HB & HdA & HdB). rewrite Forall_app in W. destruct W as [WA WB].
  pose proof (rep_alloc _ _ _ R) as Hal. pose proof (wf_count uh F (A ++ [CRun p true n] ++ B) R) as Hids. rewrite !Forall_app in Hids. specialize (Hids ltac:(split_and!; try done; constructor; [cbn; lia | constructor])).
  pose proof (zlen_nonneg (ids (A ++ [CRun p true n] ++ B))) as Hnn. assert (Hsmall : 0 <= uh_alloc uh < 2 ^ 32 - 2) by lia.
  assert (Hn32 : n < 2 ^ 32) by (rewrite !chunks_total_app, !total_cons in Hlen by (cbn; lia); cbn [clen] in Hlen; pose proof (total_nonneg A); pose proof (total_nonneg B); pose proof (total_nonneg []); lia).
  unfold split_run. cbn [len]. rewrite u32_id by (unfold_int; lia).
  assert (Htail : exists uh1 p1' p2' F1 B1, (if n - (1 + k) >? 0 then
      '(uh, upp, p1, p2) ← new_unr uh p1 p2; let uh := store uh upp (OUnr (Unr (n - (1 + k)) PHdr)) in mret (set_head uh (insert_after p upp (uh_head uh)), p1, p2) else mret (uh, p1, p2)) = Done (uh1, p1', p2') /\
      cache p1' p2' = F1 /\ rep uh1 F1 (A ++ [CRun p true n] ++ B1) /\ same_nums uh uh1 /\ 0 <= uh_alloc uh1 < 2 ^ 32 - 1 /\ bits B1 = replicate (Z.to_nat (n - (1 + k))) true ++ bits B /\ Forall cwf B1 /\ alt B1 /\ (k > 0 -> 1 <= zlen F1)).
  { destruct (Z.gtb_spec (n - (1 + k)) 0) as [Hpl | Hpl].
    - destruct F as [| t F1] eqn:EF; [unfold zlen in HF; simpl in HF; destruct (k =? 0); lia |]. rewrite zlen_cons in HF. destruct (split_tail uh F1 A (n - (1 + k)) p1 p2 t ltac:(by rewrite Ec) Ec ltac:(lia) ltac:(lia)) as (uh1 & p1' & p2' & -> & Ec' & R1 & N1 & A1).
      exists uh1, p1', p2', F1, ([CRun t true (n - (1 + k))] ++ B). split_and!; try done; try lia.
      + constructor; [cbn; lia | done].
      + apply alt_app. split_and!; try done. intros c d Hc Hd. simplify_eq/=. intros b Hb. by apply (HdB d Hd b).
      + destruct (Z.eqb_spec k 0); lia.
    - exists uh, p1, p2, F, B. split_and!; try done; try lia; [by replace (Z.to_nat (n - (1 + k))) with 0%nat by lia | destruct (Z.eqb_spec k 0); lia]. }
  destruct Htail as (uh1 & q1 & q2 & F1 & B1 & Et & Ec1 & R1 & N1 & Ha1 & Eb1 & WB1 & HB1 & HF1). cbv zeta in Et |- *. rewrite Et, bind_Done_l.
  assert (Hhead : exists uh2 p1' p2' A1, (if k >? 0 then
      '(uh, upp, p1, p2) ← new_unr uh1 q1 q2; let uh := store uh upp (OUnr (Unr k PHdr)) in mret (set_head uh (insert_before p upp (uh_head uh)), p1, p2) else mret (uh1, q1, q2)) = Done (uh2, p1', p2') /\
      rep uh2 (cache p1' p2') (A1 ++ [CRun p true n] ++ B1) /\ same_nums uh1 uh2 /\ bits A1 = bits A ++ replicate (Z.to_nat k) true /\ Forall cwf A1 /\ alt A1).
  { destruct (Z.gtb_spec k 0) as [Hk0 | Hk0].
    - specialize (HF1 ltac:(lia)). destruct F1 as [| t F2] eqn:EF; [unfold zlen in HF1; simpl in HF1; lia |]. destruct (split_head uh1 F2 A B1 k q1 q2 t ltac:(by rewrite Ec1) Ec1 ltac:(lia) ltac:(lia)) as (uh2 & p1' & p2' & -> & Ec' & R2 & N2).
      exists uh2, p1', p2', (A ++ [CRun t true k]). split_and!; try done; [by rewrite Ec' | by rewrite bits_app, bits_cons, app_nil_r | rewrite Forall_app; split; [done | constructor; [cbn; lia | constructor]] |].
      apply alt_app. split_and!; try done. intros c d Hc Hd. simplify_eq/=. intros b Hb. by apply (HdA c Hc b).
    - exists uh1, q1, q2, A. split_and!; try done; [by rewrite Ec1 |]. replace (Z.to_nat k) with 0%nat by lia. by rewrite app_nil_r. }
  destruct Hhead as (uh2 & p1' & p2' & A1 & Eh & R2 & N2 & Eb2 & WA1 & HA1). cbv zeta in Eh |- *. rewrite Eh, bind_Done_l. eexists _, p1', p2'. split; [done |]. destruct N1 as (L1 & L2 & L3 & L4 & L5), N2 as (L6 & L7 & L8 & L9 & L10).
  split; [cbn; congruence |]. apply (free_collapse (store uh2 p (OUnr (Unr 1 PNull))) (cache p1' p2') A1 (CRun p false 1) B1); try done; cbn; try congruence; [| by rewrite Forall_app].
  change (A1 ++ CRun p false 1 :: B1) with (A1 ++ [CRun p false 1] ++ B1). eapply (mid_replace uh F A (CRun p true n) B U k); try done; try (cbn; congruence).
  - apply (rep_change uh2 (cache p1' p2') A1 (CRun p true n) _ B1); try done; cbn; [intros q Hq; by rewrite lookup_insert_ne by set_solver |]. split; [cbn; by rewrite lookup_insert_eq | done].
  - rewrite !bits_app, Eb1, Eb2. cbn [cbits]. rewrite run_clear, <- !app_assoc by lia. done.
Qed.

End Run.

(** ** free_unrl and free_unr *)

Lemma free_in_run_ok uh F A p n k B U p1 p2 : freeing uh F A p n k B U -> cache p1 p2 = F -> (if k =? 0 then 1 else 2) <= zlen F ->
  exists uh' p1' p2', free_in_run stale uh p (Unr n PHdr) k p1 p2 = Done (uh', p1', p2') /\ models uh' (cache p1' p2') (<[Z.to_nat (uh_first uh + total A + k) := false]> U) /\ uh_low uh' = uh_low uh.
Proof.
  intros Hfr Ec HF. pose proof Hfr as [M W Ha Hk _ _]. pose proof M as (R & _). unfold free_in_run. cbn [len]. destruct (Z.eqb_spec n 1) as [E1 | N1].
  { destruct (free_single uh F A p n k B U Hfr E1) as (uh' & -> & H). rewrite bind_Done_l. exists uh', p1, p2. by rewrite Ec. }
  rewrite (rep_prev_mid uh F A (CRun p true n) B R : tailq_prev None p _ = _), (rep_next_mid uh F A (CRun p true n) B R : tailq_next p _ = _), fmap_last.
  assert (Hnext : exists uh' p1' p2',
    (next ← (if k =? n - 1 then free_run uh (head (cid <$> B)) else mret None);
     match head (cid <$> B), next with
     | Some upn, Some v =>
         let uh := store uh upn (OUnr (Unr (u32 (len v + 1)) PNull)) in
         let uh := set_busy (store uh p (OUnr (Unr (u32 (n - 1)) PHdr))) (u32 (uh_busy uh - 1)) in
         uh ← collapse_unr stale uh p; mret (uh, p1, p2)
     | _, _ =>
         '(uh, p1, p2) ← split_run uh p (Unr n PHdr) k p1 p2;
         uh ← collapse_unr stale (set_busy uh (u32 (uh_busy uh - 1))) p; mret (uh, p1, p2)
     end) = Done (uh', p1', p2') /\ models uh' (cache p1' p2') (<[Z.to_nat (uh_first uh + total A + k) := false]> U) /\ uh_low uh' = uh_low uh).
  { assert (Hsplit : exists uh' p1' p2', ('(uh, p1, p2) ← split_run uh p (Unr n PHdr) k p1 p2; uh ← collapse_unr stale (set_busy uh (u32 (uh_busy uh - 1))) p; mret (uh, p1, p2)) = Done (uh', p1', p2') /\ models uh' (cache p1' p2') (<[Z.to_nat (uh_first uh + total A + k) := false]> U) /\ uh_low uh' = uh_low uh).
    { destruct (split_run_ok uh F A p n k B U Hfr p1 p2 Ec ltac:(lia) HF) as (uh1 & p1' & p2' & -> & _ & uh2 & E2 & H). rewrite bind_Done_l, E2, bind_Done_l. by exists uh2, p1', p2'. }
    destruct B as [| d B0]; [by destruct (k =? n - 1) |]. cbn [fmap list_fmap head]. destruct (Z.eqb_spec k (n - 1)) as [Ek | Nk]; [| rewrite bind_Done_l; exact Hsplit].
    rewrite (free_run_ok uh F (A ++ [CRun p true n]) d B0) by (by rewrite <- app_assoc). rewrite bind_Done_l. destruct d as [q [] m | q qm m map]; cbn [is_run Bool.eqb]; try exact Hsplit.
    destruct (free_into_next uh F A p n k _ U Hfr B0 q m eq_refl Ek ltac:(lia)) as (uh' & E' & H). cbn [len cunr clen cid]. cbn [uh_busy store set_heap]. rewrite E', bind_Done_l. exists uh', p1, p2. by rewrite Ec. }
  destruct A as [| d A0 _] using rev_ind.
  - by destruct (k =? 0).
  - rewrite last_snoc. cbn [fmap option_fmap option_map]. destruct (Z.eqb_spec k 0) as [Ek | Nk]; [| rewrite bind_Done_l; exact Hnext].
    rewrite (free_run_ok uh F A0 d ([CRun p true n] ++ B)) by (by rewrite <- app_assoc in R). rewrite bind_Done_l. destruct d as [q [] m | q qm m map]; cbn [is_run Bool.eqb]; try exact Hnext.
    destruct (free_into_prev uh F _ p n k B U Hfr A0 q m eq_refl Ek ltac:(lia)) as (uh' & E' & H). cbn [len cunr clen cid]. cbn [uh_busy store set_heap]. rewrite E', bind_Done_l. exists uh', p1, p2. by rewrite Ec.
Qed.

(** A number of a bitmap is freed. *)
Lemma free_in_map uh F A p m n map k B U : mid uh F (A ++ [CMap p m n map] ++ B) U -> Forall cwf (A ++ B) -> alt A -> alt B -> 0 <= k < n -> mbit map k = true -> uh_busy uh = cnt U ->
  0 <= uh_low uh /\ uh_low uh + zlen U = uh_high uh + 1 /\ uh_high uh < 2 ^ 31 ->
  exists map' uh', bit_clear map k = Done map' /\ collapse_unr stale (set_busy (store uh m (OUnrb (Unrb (u8 (cnt (cbits (CMap p m n map)) - 1)) map'))) (u32 (uh_busy uh - 1))) p = Done uh' /\
    models uh' F (<[Z.to_nat (uh_first uh + total A + k) := false]> U) /\ uh_low uh' = uh_low uh.
Proof.
  intros M W HA HB Hk Hbit Hb Hr. pose proof M as (R & Eu & Hf & Hl & Hu). pose proof (rep_chunk_ok uh F A _ B R) as [Hm Hn]. destruct (bit_clear_ok MAPSIZE map Hm k ltac:(nbits; lia)) as (map' & -> & Hm' & Hbits).
  assert (Ebits : cbits (CMap p m n map') = <[Z.to_nat k := false]> (cbits (CMap p m n map))).
  { apply list_eq. intros j. rewrite !cbits_map. destruct (Z.lt_ge_cases (Z.of_nat j) n) as [Hj | Hj].
    - replace j with (Z.to_nat (Z.of_nat j)) at 1 by lia. rewrite (mbits_lookup map' n (Z.of_nat j)) by lia. rewrite Hbits by lia. destruct (Z.eqb_spec (Z.of_nat j) k) as [<- | Hne].
      + rewrite Nat2Z.id, list_lookup_insert_eq by (unfold mbits; rewrite length_fmap, length_seqZ; lia). done.
      + rewrite list_lookup_insert_ne by lia. replace j with (Z.to_nat (Z.of_nat j)) at 2 by lia. by rewrite (mbits_lookup map n) by lia.
    - rewrite !lookup_ge_None_2; [done | rewrite length_insert; unfold mbits; rewrite length_fmap, length_seqZ; lia | unfold mbits; rewrite length_fmap, length_seqZ; lia]. }
  assert (El : cbits (CMap p m n map) !! Z.to_nat k = Some true) by (rewrite cbits_map, mbits_lookup by lia; by rewrite Hbit).
  pose proof (cnt_insert (cbits (CMap p m n map)) _ true false El) as Ecnt. cbn iota in Ecnt. rewrite <- Ebits in Ecnt. pose proof (cnt_mbits map' n ltac:(lia)) as Hc'. rewrite <- (cbits_map p m) in Hc'.
  pose proof (all_bits_lookup uh F A _ B U k M ltac:(cbn; lia)) as EU. rewrite El in EU. pose proof (cnt_insert U _ true false EU) as HcU. cbn iota in HcU. pose proof (cnt_range (<[Z.to_nat (uh_first uh + total A + k) := false]> U)). pose proof (cnt_range U).
  replace (u8 (cnt (cbits (CMap p m n map)) - 1)) with (cnt (cbits (CMap p m n map'))) by (unfold_int; rewrite Z.mod_small; nbits; lia).
  destruct (collapse_models stale (set_busy (store uh m (OUnrb (Unrb (cnt (cbits (CMap p m n map'))) map'))) (u32 (uh_busy uh - 1))) F A (CMap p m n map') B (<[Z.to_nat (uh_first uh + total A + k) := false]> U)) as (uh' & E' & M' & L'); try done.
  - apply mid_busy. eapply (mid_replace uh F A (CMap p m n map) B U k); try done.
    + pose proof (rep_mid_nodup uh F A [CMap p m n map] B R) as ND. cbn in ND. apply NoDup_cons in ND as [N1 _]. apply (rep_change uh F A (CMap p m n map) _ B); try done; cbn; [intros q Hq; by rewrite lookup_insert_ne by set_solver |].
      split; cbn; [| by rewrite lookup_insert_eq]. rewrite lookup_insert_ne by set_solver. destruct (rep_mid_in uh F A [CMap p m n map] B R) as [Hin _]. inversion Hin as [| ? ? [E _]]; subst. exact E.
    + rewrite !bits_app, bits_cons, Ebits. change (bits []) with (@nil bool). by rewrite app_nil_r.
  - cbn. rewrite u32_id by (unfold_int; lia). lia.
  - cbn. by rewrite zlen_insert.
  - cbn [cid] in E'. by exists map', uh'.
Qed.

(** Only [first] and [last] are there. *)
Lemma free_ideal uh F U : mid uh F [] U -> 0 < uh_first uh -> mid (set_first (set_last uh (uh_last uh + 1)) (uh_first uh - 1)) F [] (<[Z.to_nat (uh_first uh - 1) := false]> U).
Proof.
  intros M Hfi. pose proof M as (R & Eu & Hf & Hl & Hu). split; [by destruct R |]. split; [| split_and!; cbn; try lia; by rewrite zlen_insert]. rewrite <- Eu. unfold all_bits. cbn [uh_first uh_last set_first set_last]. change (bits []) with (@nil bool). rewrite !app_nil_l.
  replace (Z.to_nat (uh_first uh)) with (Z.to_nat (uh_first uh - 1) + 1)%nat by lia. rewrite replicate_add, <- app_assoc. rewrite insert_app_r_alt by (rewrite length_replicate; lia). rewrite length_replicate, Nat.sub_diag. f_equal.
  replace (Z.to_nat (uh_last uh + 1)) with (S (Z.to_nat (uh_last uh))) by lia. done.
Qed.

(** The checks at the start of free_unrl pass. *)
Lemma free_start uh F cs U i : mid uh F cs U -> normal cs -> uh_busy uh = cnt U -> 0 <= uh_low uh /\ uh_low uh + zlen U = uh_high uh + 1 /\ uh_high uh < 2 ^ 31 -> 0 <= i < zlen U ->
  ((uh_low uh <=? uh_low uh + i) && (uh_low uh + i <=? uh_high uh)) = true /\ check_unrhdr uh = Done tt /\ u32 (uh_low uh + i - uh_low uh) = i /\ u32 (i + 1) = i + 1.
Proof.
  intros M Hn Hb Hr Hi. split; [apply andb_true_iff; rewrite !Z.leb_le; lia |]. split; [eapply check_ok; [exact M | apply Hn | done] |]. rewrite !u32_id by (unfold_int; lia). split; [lia | done].
Qed.

Lemma free_unrl_ok uh U i a b : models uh [a; b] U -> 0 <= i -> U !! Z.to_nat i = Some true ->
  exists uh' p1 p2, free_unrl stale uh (uh_low uh + i) (Some a) (Some b) = Done (uh', p1, p2) /\ models uh' (cache p1 p2) (<[Z.to_nat i := false]> U) /\ uh_low uh' = uh_low uh.
Proof.
  intros [(cs & M & Hn & Ht) Hb Hr] Hi HU. assert (Hlt : 0 <= i < zlen U) by (apply lookup_lt_Some in HU; unfold zlen; lia). destruct (free_start uh [a; b] cs U i M Hn Hb Hr Hlt) as (E1 & E2 & E3 & E4).
  unfold free_unrl. rewrite E1. cbn [KKASSERT]. rewrite bind_Done_l, E2, bind_Done_l, E3, E4. pose proof M as (R & Eu & Hf & Hl & Hu). pose proof (mid_len _ _ _ _ M) as Hlen. destruct ((i + 1 =? uh_first uh) && bool_decide (uh_head uh = [])) eqn:Eid.
  - apply andb_true_iff in Eid as [Ei%Z.eqb_eq Eh%bool_decide_eq_true]. assert (cs = []) as -> by (rewrite (rep_head _ _ _ R) in Eh; by destruct cs). change (total []) with 0 in Hlen.
    pose proof (free_ideal uh [a; b] U M ltac:(lia)) as M'. replace (uh_first uh - 1) with i in M' by lia. pose proof (cnt_insert U _ true false HU) as HcU. cbn iota in HcU. pose proof (cnt_range (<[Z.to_nat i := false]> U)). pose proof (cnt_range U).
    rewrite !u32_id by (unfold_int; lia). replace (uh_first uh - 1) with i by lia. set (uh1 := set_busy _ _). assert (M1 : mid uh1 [a; b] [] (<[Z.to_nat i := false]> U)) by (by apply mid_busy).
    assert (Hb1 : uh_busy uh1 = cnt (<[Z.to_nat i := false]> U)) by (cbn; lia). rewrite (check_ok uh1 [a; b] [] _ M1 ltac:(constructor) Hb1), bind_Done_l. exists uh1, (Some a), (Some b). split; [done |]. split; [| done].
    constructor; [exists []; by split_and! | done | by rewrite zlen_insert].
  - destruct (split_first_ok uh cs U i a b M Hn Hi HU) as (uh1 & p1 & p2 & cs1 & -> & M1 & W1 & A1 & (L1 & L2 & L3) & Hi1 & Hc1). rewrite bind_Done_l. pose proof M1 as (R1 & Eu1 & Hf1 & Hl1 & _). pose proof (mid_len _ _ _ _ M1) as Hlen1. pose proof (total_nonneg cs1).
    rewrite (u32_id (i - _)) by (unfold_int; lia). rewrite (rep_head _ _ _ R1). destruct (find_item_ok uh1 (cache p1 p2) [] cs1 (i - uh_first uh1) R1 Hi1 ltac:(lia)) as (A & c & B & -> & -> & Hk). rewrite bind_Done_l, (rep_get uh1 _ A c B R1), bind_Done_l. cbn [ptr cunr].
    set (k := i - uh_first uh1 - total A) in *. assert (Ei : i = uh_first uh1 + total A + k) by lia. rewrite Ei in HU |- *. pose proof M1 as M1'. rewrite (all_bits_lookup uh1 _ A c B U k M1 Hk) in HU. rewrite !Forall_app in W1. destruct W1 as (WA & Wc & WB). pose proof A1 as (HA & HB & _)%alt_mid.
    destruct c as [p bb n | p m n map]; cbn [cptr clen] in *.
    + cbn [cbits] in HU. apply lookup_replicate in HU as [<- _]. rewrite <- L1. apply (free_in_run_ok uh1 (cache p1 p2) A p n k B U); [| done | destruct (Z.eqb_spec k 0); [lia |]; destruct Hc1 as [? | [? ?]]; [lia |]; pose proof (total_nonneg A); lia].
      constructor; try done; [by rewrite Forall_app | by rewrite L3 | by rewrite L1, L2].
    + rewrite (rep_get_map uh1 _ A p m n map B R1), bind_Done_l. cbn [ub_map ub_busy]. pose proof (rep_chunk_ok uh1 _ A _ B R1) as [Hm Hnn]. rewrite (bit_test_ok MAPSIZE map Hm) by (nbits; lia). rewrite bind_Done_l. rewrite cbits_map, mbits_lookup in HU by lia. injection HU as HU. rewrite HU. cbn [KKASSERT]. rewrite bind_Done_l.
      destruct (free_in_map uh1 (cache p1 p2) A p m n map k B U M1) as (map' & uh' & -> & E' & M' & L'); try done; [by rewrite Forall_app | by rewrite L3 | by rewrite L1, L2 |]. rewrite bind_Done_l. cbn [uh_busy store set_heap cid]. rewrite E', bind_Done_l. exists uh', p1, p2. split_and!; try done. by rewrite L', L1.
Qed.
End Free.

(** * free_unr, the errors, construction and destruction *)

(** ** Memory that is not in use *)

Lemma rep_malloc uh F cs : rep uh F cs -> rep (Malloc uh).1 (F ++ [uh_next uh]) cs.
Proof.
  intros R. pose proof R as [H1 H2 H3 H4 H5 H6 H7]. assert (N : uh_next uh ∉ ids cs ++ F) by (intros H%H7; lia). constructor; cbn; try done.
  - rewrite Forall_forall in *. intros c Hc. destruct (H2 c Hc) as [E1 E2]. assert (Hin : forall q, is_Some (uh_heap uh !! q) -> q <> uh_next uh) by (intros q Hq ->; by apply N, H4).
    split; [by rewrite lookup_insert_ne by (apply not_eq_sym, Hin; eauto) |]. destruct c; [done |]. by rewrite lookup_insert_ne by (apply not_eq_sym, Hin; eauto).
  - rewrite app_assoc. apply NoDup_app. split_and!; [done | | apply NoDup_singleton]. intros q Hq ->%list_elem_of_singleton. done.
  - intros q. rewrite lookup_insert_is_Some', H4. set_solver.
  - intros q. rewrite app_assoc, elem_of_app, list_elem_of_singleton. intros [Hq%H7 | ->]; lia.
Qed.

Lemma models_malloc uh F U : models uh F U -> models (Malloc uh).1 (F ++ [uh_next uh]) U.
Proof. intros [(cs & (R & M) & H) Hb Hr]. constructor; [| done | done]. exists cs. split; [| done]. split; [by apply rep_malloc | exact M]. Qed.

Lemma rep_free uh F p cs : rep uh (p :: F) cs -> rep (set_heap uh (delete p (uh_heap uh))) F cs /\ is_Some (uh_heap uh !! p).
Proof.
  intros R. pose proof R as [H1 H2 H3 H4 H5 H6 H7]. split; [| apply H4; set_solver]. rewrite (Permutation_cons_append F p), app_assoc in H3. apply NoDup_app in H3 as (ND & Hd & _).
  assert (Hp : p ∉ ids cs ++ F) by (intros H; apply (Hd p H); by left). constructor; cbn; try done.
  - rewrite Forall_forall in *. intros c Hc. destruct (H2 c Hc) as [E1 E2]. assert (Hi : forall q, q ∈ cids c -> q <> p).
    { intros q Hq ->. apply Hp, elem_of_app. left. apply list_elem_of_split in Hc as (l1 & l2 & ->). rewrite ids_app, ids_cons. set_solver. }
    split; [rewrite lookup_delete_ne by (apply not_eq_sym, Hi, cid_in); done |]. destruct c; [done |]. rewrite lookup_delete_ne by (apply not_eq_sym, Hi; cbn; set_solver). done.
  - intros q. rewrite lookup_delete_is_Some, H4. set_solver.
  - intros q Hq. apply H7. set_solver.
Qed.

Lemma free_cached_ok uh F p U : models uh ((match p with Some p => [p] | None => [] end) ++ F) U -> exists uh', free_cached uh p = Done uh' /\ models uh' F U /\ uh_low uh' = uh_low uh.
Proof.
  destruct p as [p |]; [| by exists uh]. intros [(cs & (R & M) & H) Hb Hr]. destruct (rep_free uh F p cs R) as [R' [o Ho]]. cbn. unfold Free. rewrite Ho. eexists. split; [done |]. split; [| done].
  constructor; [| done | done]. exists cs. by split.
Qed.

Section Calls.
Context (stale : unr -> nat -> Z).

Lemma free_unr_ok uh U i : models uh [] U -> 0 <= i -> U !! Z.to_nat i = Some true ->
  exists uh', free_unr stale uh (uh_low uh + i) = Done uh' /\ models uh' [] (<[Z.to_nat i := false]> U) /\ uh_low uh' = uh_low uh.
Proof.
  intros M Hi HU. pose proof (models_malloc _ _ _ (models_malloc _ _ _ M)) as M2. cbn [app] in M2. destruct (free_unrl_ok stale _ U i _ _ M2 Hi HU) as (uh1 & p1 & p2 & E1 & M1 & L1). unfold free_unr. cbn [Malloc] in *. cbn in L1, E1, M1 |- *.
  rewrite E1, bind_Done_l. destruct (free_cached_ok uh1 (match p2 with Some p => [p] | None => [] end) p1 _ M1) as (uh2 & -> & M3 & L3). rewrite bind_Done_l.
  destruct (free_cached_ok uh2 [] p2 (<[Z.to_nat i := false]> U) ltac:(by rewrite app_nil_r)) as (uh3 & -> & M4 & L4). exists uh3. split_and!; try done. congruence.
Qed.

(** ** Errors *)

(** The element for a number behind the list is a null pointer. *)
Lemma find_item_none uh F A0 B item : rep uh F (A0 ++ B) -> total B <= item < 2 ^ 32 -> find_item uh (cid <$> B) item = Fault NullDeref.
Proof.
  revert A0 item. induction B as [| c B IH]; intros A0 item R Hi; [done |]. pose proof (rep_chunk_ok uh F A0 c B R) as Hok. rewrite total_cons in Hi by done. pose proof (clen_nonneg c Hok). pose proof (total_nonneg B).
  cbn [fmap list_fmap find_item]. rewrite (rep_get uh F A0 c B R), bind_Done_l. cbn [len cunr]. destruct (Z.gtb_spec (clen c) item) as [Hc | Hc]; [lia |]. rewrite u32_id by (unfold_int; lia). apply (IH (A0 ++ [c])); [by rewrite <- app_assoc | lia].
Qed.

Lemma free_free uh U i a b : models uh [a; b] U -> 0 <= i -> U !! Z.to_nat i = Some false -> exists f, free_unrl stale uh (uh_low uh + i) (Some a) (Some b) = Fault f /\
  (f = Panic "UNR: Freeing free item (bitmap)" \/ f = Panic "UNR Freeing free item (run)" \/ f = NullDeref).
Proof.
  intros [(cs & M & Hn & Ht) Hb Hr] Hi HU. assert (Hlt : 0 <= i < zlen U) by (apply lookup_lt_Some in HU; unfold zlen; lia). destruct (free_start uh [a; b] cs U i M Hn Hb Hr Hlt) as (E1 & E2 & E3 & E4).
  unfold free_unrl. rewrite E1. cbn [KKASSERT]. rewrite bind_Done_l, E2, bind_Done_l, E3, E4. pose proof M as (R & Eu & Hf & Hl & Hu). pose proof (mid_len _ _ _ _ M) as Hlen. pose proof (total_nonneg cs).
  assert (Hge : uh_first uh <= i). { destruct (Z.le_gt_cases (uh_first uh) i); [done |]. rewrite (lookup_low uh [a; b] cs U i M) in HU by lia. done. }
  replace (i + 1 =? uh_first uh) with false by (symmetry; apply Z.eqb_neq; lia). cbn [andb]. unfold split_first. rewrite (proj2 (Z.ltb_ge _ _) Hge), bind_Done_l, (u32_id (i - _)), (rep_head _ _ _ R) by (unfold_int; lia).
  destruct (Z.lt_ge_cases (i - uh_first uh) (total cs)) as [Hin | Hout]; [| rewrite (find_item_none uh [a; b] [] cs) by (done || lia); eauto].
  destruct (find_item_ok uh [a; b] [] cs (i - uh_first uh) R ltac:(lia) ltac:(lia)) as (A & c & B & -> & -> & Hk). rewrite bind_Done_l, (rep_get uh _ A c B R), bind_Done_l. cbn [ptr cunr].
  set (k := i - uh_first uh - total A) in *. assert (Ei : i = uh_first uh + total A + k) by lia. rewrite Ei, (all_bits_lookup uh _ A c B U k M Hk) in HU.
  destruct c as [p bb n | p m n map]; cbn [cptr clen] in *.
  - cbn [cbits] in HU. apply lookup_replicate in HU as [<- _]. eauto.
  - rewrite (rep_get_map uh _ A p m n map B R), bind_Done_l. cbn [ub_map]. pose proof (rep_chunk_ok uh _ A _ B R) as [Hm Hnn]. rewrite (bit_test_ok MAPSIZE map Hm) by (nbits; lia). rewrite bind_Done_l. rewrite cbits_map, mbits_lookup in HU by lia. injection HU as ->. eauto.
Qed.

Lemma free_unr_fault uh i f : (forall a b, a = uh_next uh -> b = S a -> free_unrl stale (Malloc (Malloc uh).1).1 i (Some a) (Some b) = Fault f) -> free_unr stale uh i = Fault f.
Proof. intros H. unfold free_unr. cbn in *. by rewrite (H _ _ eq_refl eq_refl). Qed.

(** ** The spaces at the start and at the end *)

Lemma new_unrhdr_ok low high : 0 <= low <= high -> high < 2 ^ 31 ->
  exists uh, new_unrhdr low high = Done uh /\ models uh [] (replicate (Z.to_nat (1 + (high - low))) false) /\ uh_low uh = low.
Proof.
  intros Hl Hh. set (n := 1 + (high - low)). unfold new_unrhdr. rewrite (proj2 (Z.leb_le low high)) by lia. cbn [KKASSERT]. rewrite bind_Done_l. fold n. rewrite !u32_id by (unfold_int; lia). set (uh := Unrhdr _ _ _ _ _ _ _ _ _).
  assert (Hc : cnt (replicate (Z.to_nat n) false) = 0) by apply cnt_replicate. assert (M : mid uh [] [] (replicate (Z.to_nat n) false)).
  { split_and!; try done; cbn; try lia; [| rewrite zlen_replicate; lia]. apply Build_rep; try done; cbn; [by apply NoDup_nil | | by intros ? ?%elem_of_nil]. intros q. rewrite lookup_empty. split; [by intros [? ?] | by intros ?%elem_of_nil]. }
  rewrite (check_ok uh [] [] _ M) by done. rewrite bind_Done_l. exists uh. split; [done |]. split; [| done]. constructor; [exists []; split_and!; try done | done | cbn; rewrite zlen_replicate; lia]. intros B1 ? ? E. by destruct B1.
Qed.

(** With all numbers free the list is empty. *)
Lemma normal_free cs : normal cs -> Forall chunk_ok cs -> cnt (bits cs) = 0 -> cs = [].
Proof.
  intros [W A _ L] Hok Hc. assert (Hr : forall c, c ∈ cs -> is_run false c = true).
  { intros c Hin. pose proof (proj1 (Forall_forall _ _) W c Hin) as Wc. apply list_elem_of_split in Hin as (l1 & l2 & ->). rewrite bits_app, bits_cons, !cnt_app in Hc. pose proof (cnt_range (bits l1)). pose proof (cnt_range (bits l2)). pose proof (cnt_range (cbits c)).
    pose proof (zero_bits (cbits c) ltac:(lia)) as E. destruct c as [p [] n | p m n map]; [| done |]; exfalso.
    - pose proof (run_bits p true n Wc) as H'. rewrite E in H'. by apply elem_of_replicate in H' as [? _].
    - destruct Wc as [H' _]. rewrite E in H'. by apply elem_of_replicate in H' as [? _]. }
  destruct cs as [| c cs _] using rev_ind; [done |]. specialize (L c). rewrite last_snoc in L. specialize (L eq_refl). rewrite Hr in L by set_solver. done.
Qed.

Lemma models_free uh U : models uh [] U -> cnt U = 0 -> delete_unrhdr uh = Done tt /\ uh_heap uh = ∅.
Proof.
  intros [(cs & M & Hn & _) Hb _] Hc. pose proof (mid_cnt _ _ _ _ M) as Hm. pose proof M as (R & _ & Hf & _). pose proof (cnt_range (bits cs)). assert (cs = []) as -> by (apply normal_free; [done | apply R | lia]).
  unfold delete_unrhdr. rewrite (check_ok uh [] [] U M) by (done || constructor). rewrite bind_Done_l, Hb, Hc, (rep_alloc _ _ _ R). split; [done |].
  apply map_empty. intros q. destruct (uh_heap uh !! q) eqn:E; [| done]. assert (H' : q ∈ ids [] ++ []) by (apply (rep_dom _ _ _ R); by rewrite E). by apply elem_of_nil in H'.
Qed.
End Calls.
