(* ===== verification/UnitSpec.v ===== *)
(** * Unit numbers: what the allocator promises

    The specification: a number is allocated or free, and an allocation takes the lowest free
    one.  Clients that call the allocator one after the other, and threads that share it
    under a lock of the lock manager.  The bound on the memory that the list takes. *)

From stdpp Require Import prelude list strings gmap relations.
From S2P Require Import Prelude.
From S2P Require Import Sums.
From S2P Require Import Lockmgr.
From S2P Require Import LockmgrInv.
From S2P Require Import LockmgrSteps.
From S2P Require Import LockmgrReach.
From S2P Require Import Tailq.
From S2P Require Import Bitstring.
From S2P Require Import Unit.
From S2P Require Import UnitRep.
From S2P Require Import UnitNorm.
From S2P Require Import UnitOps.
From S2P Require Import UnitFree.
Open Scope Z_scope.

(** ** The specification *)

(** An allocation by the thread [td] with the lock in the state [lkp], or a release. *)
Inductive call := Alloc (lkp : lock) (td : nat) | Release (item : Z).

(** The lowest free number. *)
Definition lowest (U : list bool) : option nat := fst <$> list_find (fun b => b = false) U.

(** The set of the numbers from [low] on, as a list of flags; None: a call that is not allowed. *)
Definition spec_call (low : Z) (U : list bool) (c : call) : option (list bool * Z) :=
  match c with
  | Alloc lkp td =>
      if lockstatus lkp (Some td) =? 0 then None
      else Some (match lowest U with Some i => (<[i := true]> U, low + Z.of_nat i) | None => (U, -1) end)
  | Release item =>
      if (low <=? item) && bool_decide (U !! Z.to_nat (item - low) = Some true)
      then Some (<[Z.to_nat (item - low) := false]> U, 0) else None
  end.

Fixpoint spec_run (low : Z) (U : list bool) (cs : list call) : option (list bool * list Z) :=
  match cs with
  | [] => Some (U, [])
  | c :: cs => '(U, r) ← spec_call low U c; '(U, rs) ← spec_run low U cs; Some (U, r :: rs)
  end.

Lemma lowest_clear U i : lowest U = Some i -> first_clear U (Z.of_nat i).
Proof.
  unfold lowest. rewrite fmap_Some. intros ([j b] & (E & Eb & H)%list_find_Some & ->). cbn in *. subst b. split; [lia |]. rewrite Nat2Z.id. split; [done |]. intros k Hk.
  destruct (lookup_lt_is_Some_2 U (Z.to_nat k)) as [b Hb]; [apply lookup_lt_Some in E; lia |]. rewrite Hb. destruct b; [done |]. by destruct (H _ _ Hb ltac:(lia)).
Qed.

Lemma lowest_none U : lowest U = None -> cnt U = zlen U.
Proof.
  unfold lowest. rewrite fmap_None, list_find_None. intros H. destruct (Z.eq_dec (cnt U) (zlen U)) as [E | E%cnt_less]; [done |]. by apply (proj1 (Forall_forall _ _) H) in E.
Qed.

Lemma first_clear_lowest U i : first_clear U i -> lowest U = Some (Z.to_nat i).
Proof.
  intros (Hi & E & H). unfold lowest. apply fmap_Some. exists (Z.to_nat i, false). split; [| done]. apply list_find_Some. split_and!; [done | done |]. intros j b Ej Hj ->. specialize (H (Z.of_nat j) ltac:(lia)). rewrite Nat2Z.id in H. congruence.
Qed.

Lemma full_lowest U : cnt U = zlen U -> lowest U = None.
Proof.
  intros E. unfold lowest. apply fmap_None, list_find_None, Forall_forall. intros b Hb ->. rewrite (full_bits U E) in Hb. by apply elem_of_replicate in Hb as [? _].
Qed.

Section Clients.
Context (stale : unr -> nat -> Z).

Definition unit_call (uh : unrhdr) (c : call) : outcome (unrhdr * Z) :=
  match c with
  | Alloc lkp td => alloc_unrl stale lkp td uh
  | Release item => uh ← free_unr stale uh item; mret (uh, 0)
  end.

Fixpoint unit_run (uh : unrhdr) (cs : list call) : outcome (unrhdr * list Z) :=
  match cs with
  | [] => mret (uh, [])
  | c :: cs => '(uh, r) ← unit_call uh c; '(uh, rs) ← unit_run uh cs; mret (uh, r :: rs)
  end.

Lemma alloc_spec uh U lkp td : models uh [] U -> lockstatus lkp (Some td) <> 0 -> exists uh', models uh' [] (default U ((fun i => <[i := true]> U) <$> lowest U)) /\ uh_low uh' = uh_low uh /\
  alloc_unrl stale lkp td uh = Done (uh', match lowest U with Some i => uh_low uh + Z.of_nat i | None => -1 end).
Proof.
  intros M Hl. destruct (alloc_unrl_ok stale uh [] U lkp td M Hl) as [(uh' & i & E & Hc & M' & L) | [E Hf]].
  - rewrite (first_clear_lowest U i Hc). exists uh'. destruct Hc as [Hi _]. cbn. rewrite Z2Nat.id by done. done.
  - rewrite (full_lowest U Hf). by exists uh.
Qed.

Lemma call_refines uh U c U' r : models uh [] U -> spec_call (uh_low uh) U c = Some (U', r) -> exists uh', unit_call uh c = Done (uh', r) /\ models uh' [] U' /\ uh_low uh' = uh_low uh.
Proof.
  intros M. destruct c as [lkp td | item]; cbn [spec_call unit_call].
  - destruct (Z.eqb_spec (lockstatus lkp (Some td)) 0) as [| Hl]; [done |]. destruct (alloc_spec uh U lkp td M Hl) as (uh' & M' & L & ->). intros E. exists uh'. destruct (lowest U); cbn in *; by simplify_eq.
  - destruct (_ && _) eqn:E; [| done]. apply andb_true_iff in E as [Hlo%Z.leb_le HU%bool_decide_eq_true]. intros [= <- <-]. destruct (free_unr_ok stale uh U (item - uh_low uh) M ltac:(lia) HU) as (uh' & E & M' & L). replace (uh_low uh + (item - uh_low uh)) with item in E by lia. rewrite E. by exists uh'.
Qed.

Lemma run_refines cs uh U U' rs : models uh [] U -> spec_run (uh_low uh) U cs = Some (U', rs) -> exists uh', unit_run uh cs = Done (uh', rs) /\ models uh' [] U' /\ uh_low uh' = uh_low uh.
Proof.
  revert uh U rs. induction cs as [| c cs IH]; intros uh U rs M E; cbn in E; [simplify_eq; by exists uh |].
  destruct (spec_call (uh_low uh) U c) as [[U1 r] |] eqn:E1; [| done]. cbn in E. destruct (spec_run (uh_low uh) U1 cs) as [[U2 rs'] |] eqn:E2; [| done]. cbn in E. simplify_eq. destruct (call_refines uh U c U1 r M E1) as (uh1 & Ec & M1 & L1). cbn. rewrite Ec, bind_Done_l. rewrite <- L1 in E2. destruct (IH uh1 U1 rs' M1 E2) as (uh2 & -> & M2 & L2). exists uh2. split_and!; try done. congruence.
Qed.

Lemma spec_call_length low U c U' r : spec_call low U c = Some (U', r) -> length U' = length U.
Proof. destruct c; cbn; [destruct (_ =? _); [done |]; destruct (lowest U) | destruct (_ && _); [| done]]; intros; simplify_eq; by rewrite ?length_insert. Qed.

Lemma spec_run_length low cs U U' rs : spec_run low U cs = Some (U', rs) -> length U' = length U.
Proof.
  revert U rs. induction cs as [| c cs IH]; intros U rs E; cbn in E; [by simplify_eq |]. destruct (spec_call low U c) as [[U1 r] |] eqn:E1; [| done]. cbn in E. destruct (spec_run low U1 cs) as [[U2 rs'] |] eqn:E2; [| done]. cbn in E. simplify_eq.
  rewrite <- (spec_call_length low U c U1 r E1). by eapply IH.
Qed.

End Clients.

(** ** What the numbers need of their lock *)

(** The threads of a lock: how they start and step, the lock, and who has it exclusively. *)
Class Guard (W : Type) := {
  g_start : W -> Prop;
  g_step : W -> W -> Prop;
  g_lock : W -> lock;
  g_holds : W -> nat -> Prop
}.

Definition g_reached {W} `{Guard W} (w : W) : Prop := exists w0, g_start w0 /\ rtc g_step w0 w.

(** A holder sees the lock as held, and is the only one. *)
Class GuardLaws (W : Type) `{Guard W} := {
  g_seen w i : g_reached w -> g_holds w i -> lockstatus (g_lock w) (Some i) <> 0;
  g_alone w i j : g_reached w -> g_holds w i -> g_holds w j -> i = j
}.

(** *** The lock manager *)

(** Thread [i] is between two calls of the lock manager and has the lock exclusively. *)
Definition holder (w : world) (i : nat) : Prop := exists t, w_thr w !! i = Some t /\ t_pc t = Idle /\ 0 < t_ex t.

#[export] Instance lockmgr_guard : Guard world := {
  g_start w := exists wmesg timo flags deadlk, w = world0 (lockinit wmesg timo flags) deadlk;
  g_step w w' := exists i c, allowed w i c = true /\ step w i c = Some (Done w') /\ bounded w';
  g_lock := w_lock;
  g_holds := holder
}.

Lemma guard_inv (w : world) : g_reached w -> Inv w.
Proof.
  intros (w0 & (wm & timo & flags & dl & ->) & H). eapply lk_reachable_inv. eapply (rtc_ind_r (reachable _)); [constructor | | exact H]. intros w1 w2 _ (i & c & Ha & Es & Hb) IH. by eapply reach_step.
Qed.

Lemma holder_own w i : Inv w -> holder w i -> exists t, w_thr w !! i = Some t /\ 0 < own t.
Proof. intros I (t & Hi & _ & Hex). exists t. split; [done |]. destruct (inv_local w I i t Hi) as (L1 & L2 & _). assert (Eo : own t = t_ex t + t_kex t) by done. lia. Qed.

#[export] Instance lockmgr_laws : GuardLaws world.
Proof.
  constructor.
  - intros w i I%guard_inv Hh. destruct (holder_own w i I Hh) as (t & Hi & Ho). destruct (inv_word w I) as (x & s & u & e & g & n & Ew & (Hn & Hs & _ & He0 & _) & _). destruct (lk_holds_le w I i t Hi) as (O1 & _).
    cbn [g_lock lockmgr_guard]. unfold lockstatus. rewrite Ew, lkw_mask, lkw_excl by done. destruct e; [by destruct (decide _) |]. destruct He0 as [H0 _]; [done | lia].
  - intros w i j I%guard_inv Hh Hh'. destruct (holder_own w i I Hh) as (t & Hi & Ho). destruct (holder_own w j I Hh') as (v & Hj & Hv). by eapply (inv_one w I).
Qed.

(** ** Threads that share the numbers *)

Definition is_taken (x : option nat) : bool := match x with Some _ => true | None => false end.
Definition taken (o : list (option nat)) : list bool := is_taken <$> o.

Lemma taken_insert o j x : taken (<[j := x]> o) = <[j := is_taken x]> (taken o).
Proof. apply list_fmap_insert. Qed.

Lemma taken_lookup o j : taken o !! j = is_taken <$> o !! j.
Proof. apply list_lookup_fmap. Qed.

Lemma lowest_taken o j : lowest (taken o) = Some j -> o !! j = Some None /\ forall k, (k < j)%nat -> exists x, o !! k = Some (Some x).
Proof.
  intros (_ & E & H)%lowest_clear. rewrite Nat2Z.id, taken_lookup, fmap_Some in E. destruct E as ([x |] & E & ?); [done |]. split; [done |]. intros k Hk. specialize (H (Z.of_nat k) ltac:(lia)). rewrite Nat2Z.id, taken_lookup, fmap_Some in H. destruct H as ([x |] & Hx & ?); [by exists x | done].
Qed.

Lemma lowest_all_taken o : lowest (taken o) = None -> Forall is_Some o.
Proof. unfold lowest, taken. rewrite fmap_None, list_find_None, Forall_fmap. intros H. eapply Forall_impl; [exact H |]. intros [x |]; cbn; [done | by intros []]. Qed.

Section Threads.
Context (stale : unr -> nat -> Z) {W : Type} `{GuardLaws W}.

(** The lock and its threads, the numbers, and which thread has got which number. *)
Record unit_world := UnitWorld { u_lock : W; u_hdr : unrhdr; u_owner : list (option nat) }.

(** A step of a thread in the lock manager, or the body of alloc_unr or of free_unr by a
    thread that has the lock; a thread frees what it has got. *)
Inductive unit_step (s : unit_world) : unit_world -> Prop :=
  | us_lock w' : g_step (u_lock s) w' -> unit_step s (UnitWorld w' (u_hdr s) (u_owner s))
  | us_alloc i uh' j : g_holds (u_lock s) i -> alloc_unrl stale (g_lock (u_lock s)) i (u_hdr s) = Done (uh', uh_low (u_hdr s) + Z.of_nat j) ->
      unit_step s (UnitWorld (u_lock s) uh' (<[j := Some i]> (u_owner s)))
  | us_full i uh' : g_holds (u_lock s) i -> alloc_unrl stale (g_lock (u_lock s)) i (u_hdr s) = Done (uh', -1) -> unit_step s (UnitWorld (u_lock s) uh' (u_owner s))
  | us_free i uh' j : g_holds (u_lock s) i -> u_owner s !! j = Some (Some i) -> free_unr stale (u_hdr s) (uh_low (u_hdr s) + Z.of_nat j) = Done uh' ->
      unit_step s (UnitWorld (u_lock s) uh' (<[j := None]> (u_owner s))).

Definition shared (low : Z) (s : unit_world) : Prop := g_reached (u_lock s) /\ uh_low (u_hdr s) = low /\ models (u_hdr s) [] (taken (u_owner s)).

Lemma shared_free low s i j : shared low s -> u_owner s !! j = Some (Some i) ->
  exists uh', free_unr stale (u_hdr s) (uh_low (u_hdr s) + Z.of_nat j) = Done uh' /\ models uh' [] (<[j := false]> (taken (u_owner s))) /\ uh_low uh' = uh_low (u_hdr s).
Proof. intros (_ & _ & M) Ho. destruct (free_unr_ok stale _ _ (Z.of_nat j) M ltac:(lia)) as (uh' & E' & H'); [by rewrite Nat2Z.id, taken_lookup, Ho |]. exists uh'. by rewrite Nat2Z.id in H'. Qed.

Lemma unit_step_shared low s s' : 0 <= low -> shared low s -> unit_step s s' -> shared low s'.
Proof.
  intros Hlow HS St. pose proof HS as (Hr & EL & M). destruct St as [w' Hs | i uh' j Hh E | i uh' Hh E | i uh' j Hh Ho E]; unfold shared; cbn.
  - split; [| done]. destruct Hr as (w0 & Hst & Hr). exists w0. split; [done |]. by eapply rtc_r.
  - split; [done |]. destruct (alloc_spec stale _ _ _ _ M (g_seen _ _ Hr Hh)) as (uh1 & M1 & L1 & E1). rewrite E in E1. injection E1 as <- Ex. destruct (lowest (taken (u_owner s))) as [k |]; [| lia]. assert (j = k) as -> by lia. split; [congruence |]. by rewrite taken_insert.
  - split; [done |]. destruct (alloc_spec stale _ _ _ _ M (g_seen _ _ Hr Hh)) as (uh1 & M1 & L1 & E1). rewrite E in E1. injection E1 as <- Ex. destruct (lowest (taken (u_owner s))) as [k |]; [lia |]. split; [congruence | done].
  - split; [done |]. destruct (shared_free low s i j HS Ho) as (uh1 & E1 & M1 & L1). rewrite E in E1. injection E1 as <-. split; [congruence |]. by rewrite taken_insert.
Qed.

Lemma shared_reached low s s' : 0 <= low -> shared low s -> rtc unit_step s s' -> shared low s'.
Proof. intros Hlow HI HR. eapply (rtc_ind_r (shared low)); [exact HI | | exact HR]. intros s1 s2 _ St IH. by eapply unit_step_shared. Qed.
End Threads.
Arguments unit_world : clear implicits.

(** ** Memory *)

Lemma tight_app A B : tight (A ++ B) -> tight B.
Proof. intros H B1 c B2 ->. apply (H (A ++ B1)). by rewrite <- app_assoc. Qed.

Lemma cids_weight c : zlen (cids c) = weight c /\ 1 <= weight c <= 2.
Proof. by destruct c. Qed.

(** Neighbours that take three pieces of memory do not fit into a bitmap. *)
Lemma tight_two c d B : tight (c :: d :: B) -> 0 < clen d -> 3 <= weight c + weight d -> NBITS < clen c + clen d.
Proof.
  intros H Hd Hw. destruct (Z.lt_ge_cases (clen c) NBITS) as [Hc | Hc]; [| lia]. specialize (H [] c (d :: B) eq_refl Hc). cbn [wnd] in H. destruct (Z.gtb_spec (clen d + clen c) NBITS); [lia |]. pose proof (wnd_le B (clen c + clen d) (weight c + weight d)). lia.
Qed.

Lemma tight_three c d e B : tight (c :: d :: e :: B) -> 0 < clen d -> 0 < clen e -> NBITS < clen c + clen d + clen e.
Proof.
  intros H Hd He. destruct (Z.lt_ge_cases (clen c) NBITS) as [Hc | Hc]; [| lia]. specialize (H [] c (d :: e :: B) eq_refl Hc). cbn [wnd] in H. destruct (Z.gtb_spec (clen d + clen c) NBITS); [lia |].
  destruct (Z.gtb_spec (clen e + (clen c + clen d)) NBITS); [lia |]. pose proof (wnd_le B (clen c + clen d + clen e) (weight c + weight d + weight e)). destruct (cids_weight c), (cids_weight d), (cids_weight e). lia.
Qed.

Lemma tight_memory cs : tight cs -> Forall chunk_ok cs -> Forall (fun c => 0 < clen c) cs -> (NBITS + 1) * zlen (ids cs) <= 4 * total cs + 2 * (NBITS + 1).
Proof.
  induction cs as [cs IH] using (induction_ltof1 _ (@length chunk)); unfold ltof in IH. intros Ht Hok Hp. assert (HN : NBITS = 248) by done. destruct cs as [| c cs]; [change (ids []) with (@nil nat); change (zlen (@nil nat)) with 0; pose proof (total_nonneg []); lia |]. inversion Hok as [| ? ? Oc Ok1]; subst. inversion Hp as [| ? ? Pc Hp1]; subst. destruct (cids_weight c) as [Wc Bc].
  destruct cs as [| d cs]; [rewrite ids_cons, zlen_app, total_cons by done; change (ids []) with (@nil nat); pose proof (total_nonneg []); change (zlen (@nil nat)) with 0; lia |].
  inversion Ok1 as [| ? ? Od Ok2]; subst. inversion Hp1 as [| ? ? Pd Hp2]; subst. destruct (cids_weight d) as [Wd Bd]. destruct (Z.le_gt_cases 3 (weight c + weight d)) as [H3 | H3].
  - pose proof (tight_two c d cs Ht Pd H3). specialize (IH cs ltac:(cbn; lia) (tight_app [c; d] cs Ht) Ok2 Hp2). rewrite !ids_cons, !zlen_app, !total_cons by done. lia.
  - destruct cs as [| e cs]; [rewrite !ids_cons, !zlen_app, !total_cons by done; change (ids []) with (@nil nat); pose proof (total_nonneg []); change (zlen (@nil nat)) with 0; lia |].
    inversion Ok2 as [| ? ? Oe Ok3]; subst. inversion Hp2 as [| ? ? Pe Hp3]; subst. destruct (cids_weight e) as [We Be]. pose proof (tight_three c d e cs Ht Pd Pe). specialize (IH cs ltac:(cbn; lia) (tight_app [c; d; e] cs Ht) Ok3 Hp3). rewrite !ids_cons, !zlen_app, !total_cons by done. lia.
Qed.

Lemma models_memory uh U : models uh [] U -> (NBITS + 1) * uh_alloc uh <= 4 * (uh_high uh - uh_low uh + 1) + 2 * (NBITS + 1) /\ Z.of_nat (size (uh_heap uh)) = uh_alloc uh.
Proof.
  intros [(cs & M & Hn & Ht) _ Hr]. pose proof (mid_len _ _ _ _ M) as Hl. pose proof M as (R & _ & Hf & Hla & _). rewrite (rep_alloc _ _ _ R). split.
  - pose proof (tight_memory cs Ht (rep_ok _ _ _ R) (wf_pos _ _ _ R (norm_wf _ Hn))). lia.
  - pose proof (rep_nodup _ _ _ R) as ND. rewrite app_nil_r in ND. unfold zlen. rewrite <- (size_list_to_set (C := gset nat)) by done. rewrite <- size_dom. do 2 f_equal. apply set_eq. intros q. rewrite elem_of_dom, elem_of_list_to_set, (rep_dom _ _ _ R), app_nil_r. done.
Qed.
