(* ===== verification/UnitProps.v ===== *)
(** * Unit numbers: the theorems

    The allocator does what its specification says for every sequence of calls; threads that
    share it under a lock never get the same number twice; a number that is not allocated is
    not freed; and the memory that the list takes is bounded. *)

From stdpp Require Import prelude list strings gmap relations.
From S2P Require Import Prelude.
From S2P Require Import Lockmgr.
From S2P Require Import LockmgrSteps.
From S2P Require Import LockmgrReach.
From S2P Require Import LockmgrProps.
From S2P Require Import Bitstring.
From S2P Require Import Unit.
From S2P Require Import UnitRep.
From S2P Require Import UnitNorm.
From S2P Require Import UnitOps.
From S2P Require Import UnitFree.
From S2P Require Import UnitSpec.
Open Scope Z_scope.

Section Props.
Context (stale : unr -> nat -> Z) (low high : Z).

(** All the numbers are free. *)
Definition all_free : list bool := replicate (Z.to_nat (1 + (high - low))) false.

(** The ranges for which 1 + (high - low) is an int. *)
Definition good_range : Prop := 0 <= low <= high /\ high < 2 ^ 31 /\ 1 + (high - low) < 2 ^ 31.

Lemma new_models uh0 : good_range -> new_unrhdr low high = Done uh0 -> models uh0 [] all_free /\ uh_low uh0 = low.
Proof. intros (Hl & Hh & _) E0. destruct (new_unrhdr_ok low high Hl Hh) as (uh1 & E1 & M1 & L1). rewrite E0 in E1. by simplify_eq. Qed.

(** After a sequence of calls. *)
Lemma run_models cs uh0 uh U rs : good_range -> new_unrhdr low high = Done uh0 -> spec_run low all_free cs = Some (U, rs) -> unit_run stale uh0 cs = Done (uh, rs) ->
  models uh [] U /\ uh_low uh = low /\ uh_high uh = high.
Proof.
  intros Hg E0 Es Er. destruct (new_models uh0 Hg E0) as [M0 L0]. pose proof (spec_run_length _ _ _ _ _ Es) as Hlen. rewrite <- L0 in Es at 1. destruct (run_refines stale cs uh0 _ U rs M0 Es) as (uh2 & E2 & M2 & L2). rewrite Er in E2. injection E2 as <-. split_and!; [done | congruence |].
  destruct (mod_range _ _ _ M2) as (_ & H & _). destruct Hg as ((? & ?) & _). unfold zlen, all_free in *. rewrite length_replicate in Hlen. lia.
Qed.

(** C6: the allocator implements its specification.  For every range of numbers and every sequence of allocations, by threads that see the lock held, and of releases of numbers that are allocated, the calls return from a new set exactly what the specification returns: the lowest number that is free, or -1 when there is none, whatever the list of runs and bitmaps looks like in between and whatever old bytes are in the memory that becomes a bitmap; no assertion fails, no freed memory is used; and when all numbers are released, delete_unrhdr succeeds and no memory is left. *)
Theorem unit_refines_spec cs U rs : good_range -> spec_run low all_free cs = Some (U, rs) ->
  exists uh0 uh, new_unrhdr low high = Done uh0 /\ unit_run stale uh0 cs = Done (uh, rs) /\
    (Forall (fun b => b = false) U -> delete_unrhdr uh = Done tt /\ uh_heap uh = ∅).
Proof.
  intros (Hl & Hh & _) E. destruct (new_unrhdr_ok low high Hl Hh) as (uh0 & E0 & M0 & L0). rewrite <- L0 in E at 1. destruct (run_refines stale cs uh0 _ U rs M0 E) as (uh & Er & M & _). exists uh0, uh. split_and!; try done.
  intros HU. eapply models_free; [exact M |]. clear -HU. induction HU as [| b U -> _ IH]; [done |]. cbn. lia.
Qed.

(** C34: a number that is not allocated can not be freed.  Whatever was called before, free_unr of a number outside the range fails its assertion, and free_unr of a number that is free ends in one of the two assertions, or, behind the last element of the list, in the null pointer that the search leaves; it never returns. *)
Theorem free_unr_misuse cs U rs uh0 uh item : good_range -> new_unrhdr low high = Done uh0 -> spec_run low all_free cs = Some (U, rs) -> unit_run stale uh0 cs = Done (uh, rs) ->
  (item < low \/ high < item -> free_unr stale uh item = Fault (Panic "UNR: free_unr out of range")) /\
  (low <= item -> U !! Z.to_nat (item - low) = Some false -> exists f, free_unr stale uh item = Fault f /\
    (f = Panic "UNR: Freeing free item (bitmap)" \/ f = Panic "UNR Freeing free item (run)" \/ f = NullDeref)).
Proof.
  intros Hg E0 Es Er. destruct (run_models cs uh0 uh U rs Hg E0 Es Er) as (M & EL & EH). split.
  - intros Ho. apply free_unr_fault. intros a b _ _. unfold free_unrl. cbn [uh_low uh_high Malloc fst]. rewrite EL, EH. replace ((low <=? item) && (item <=? high)) with false; [done |]. symmetry. apply andb_false_iff. rewrite !Z.leb_gt. lia.
  - intros Hi HU. pose proof (models_malloc _ _ _ (models_malloc _ _ _ M)) as M2. destruct (free_free stale _ U (item - low) _ _ M2 ltac:(lia) HU) as (f & E & Hf). exists f. split; [| done]. apply free_unr_fault. intros a b -> ->. rewrite <- E. cbn. rewrite EL. f_equal. lia.
Qed.

(** C35: the memory is bounded.  After every sequence of calls the number of pieces of memory that are allocated is the one that the header counts, and is at most two plus four for every 249 numbers of the range: any neighbours in the list that take three or more pieces stand for more numbers than fit into a bitmap. *)
Theorem unit_memory_bound cs U rs uh0 uh : good_range -> new_unrhdr low high = Done uh0 -> spec_run low all_free cs = Some (U, rs) -> unit_run stale uh0 cs = Done (uh, rs) ->
  Z.of_nat (size (uh_heap uh)) = uh_alloc uh /\ (NBITS + 1) * uh_alloc uh <= 4 * (high - low + 1) + 2 * (NBITS + 1).
Proof. intros Hg E0 Es Er. destruct (run_models cs uh0 uh U rs Hg E0 Es Er) as (M & EL & EH). destruct (models_memory uh U M) as [H1 H2]. rewrite EL, EH in H1. done. Qed.

(** C14: threads that share the numbers get different ones.  Whatever calls any number of threads make of the lock manager on the lock of the numbers, and however they interleave, with allocations and releases by the threads that have the lock exclusively: only one thread at a time has it, the assertion of alloc_unrl on the lock holds, no call fails, a number that alloc_unrl returns belongs to no thread, the numbers below it belong to some thread each, it returns -1 only when every number belongs to a thread, and a thread can free what it has got. *)
Theorem unit_threads_safe wmesg timo flags deadlk uh0 s i : good_range -> new_unrhdr low high = Done uh0 ->
  rtc (unit_step stale) (UnitWorld (world0 (lockinit wmesg timo flags) deadlk) uh0 (replicate (Z.to_nat (1 + (high - low))) None)) s -> holder (u_lock s) i ->
  (forall j, holder (u_lock s) j -> j = i) /\
  (exists uh', (alloc_unrl stale (w_lock (u_lock s)) i (u_hdr s) = Done (uh', -1) /\ Forall is_Some (u_owner s)) \/
     exists j, alloc_unrl stale (w_lock (u_lock s)) i (u_hdr s) = Done (uh', low + Z.of_nat j) /\ u_owner s !! j = Some None /\ forall k, (k < j)%nat -> exists o, u_owner s !! k = Some (Some o)) /\
  (forall j, u_owner s !! j = Some (Some i) -> exists uh', free_unr stale (u_hdr s) (low + Z.of_nat j) = Done uh').
Proof.
  intros Hg E0 Hs Hh. destruct (new_models uh0 Hg E0) as [M0 L0]. assert (Hlow : 0 <= low) by apply Hg. eapply (shared_reached stale low) in Hs as HS; [| done |]; last first.
  { split; [| split; [done |]]; cbn; [| unfold taken; by rewrite fmap_replicate]. eexists. split; [by eexists _, _, _, _ | done]. }
  pose proof HS as (Hr & EL & M). split_and!.
  - intros j Hj. by eapply g_alone.
  - destruct (alloc_spec stale _ _ _ _ M (g_seen _ _ Hr Hh)) as (uh' & _ & _ & E). exists uh'. rewrite EL in E. destruct (lowest (taken (u_owner s))) as [j |] eqn:El; [right | left].
    + exists j. split; [done |]. by apply lowest_taken.
    + split; [done |]. by apply lowest_all_taken.
  - intros j Hj. rewrite <- EL. destruct (shared_free stale low s i j HS Hj) as (uh' & E & _). by exists uh'.
Qed.
End Props.

(** ** Runs *)

Module Runs.
Definition old (_ : unr) (i : nat) : Z := 171 * Z.of_nat i.
Definition held : lock := w_lock LockmgrProps.Runs.contended.

(** Twelve allocations, six releases, and two more allocations. *)
Definition calls : list call := replicate 12 (Alloc held 0) ++ (Release <$> [6; 8; 9; 12; 14; 5]) ++ [Alloc held 0; Alloc held 0].
Definition answers : list Z := [5; 6; 7; 8; 9; 10; 11; 12; 13; 14; 15; 16] ++ replicate 6 0 ++ [5; 6].

Definition new : unrhdr := Eval vm_compute in match new_unrhdr 5 1000 with Done uh => uh | _ => Unrhdr [] 0 0 0 0 0 0 ∅ 0 end.
Definition used : unrhdr := Eval vm_compute in match unit_run old new calls with Done (uh, _) => uh | _ => new end.
Definition flags : list bool := Eval vm_compute in default [] (fst <$> spec_run 5 (all_free 5 1000) calls).

Lemma new_ok : new_unrhdr 5 1000 = Done new.
Proof. vm_compute. reflexivity. Qed.

Lemma range_ok : good_range 5 1000.
Proof. unfold good_range. lia. Qed.

(** The memory of two objects is in use: an element of the list and its bitmap. *)
Example used_bitmap : uh_head used = [3%nat] /\ uh_heap used !! 3%nat = Some (OUnr (Unr 12 (PMap 10))) /\ uh_alloc used = 2.
Proof. by vm_compute. Qed.

Lemma unit_refines_spec_witness : exists uh0 uh, new_unrhdr 5 1000 = Done uh0 /\ unit_run old uh0 calls = Done (uh, answers) /\
  (Forall (fun b => b = false) flags -> delete_unrhdr uh = Done tt /\ uh_heap uh = ∅).
Proof. apply (unit_refines_spec old 5 1000 calls flags answers range_ok). vm_compute. reflexivity. Defined.

Lemma free_unr_misuse_witness :
  free_unr old used 4 = Fault (Panic "UNR: free_unr out of range") /\
  exists f, free_unr old used 8 = Fault f /\ (f = Panic "UNR: Freeing free item (bitmap)" \/ f = Panic "UNR Freeing free item (run)" \/ f = NullDeref).
Proof.
  split; [apply (free_unr_misuse old 5 1000 calls flags answers new used 4 range_ok) | apply (free_unr_misuse old 5 1000 calls flags answers new used 8 range_ok)]; try (vm_compute; reflexivity).
  - left. lia.
  - lia.
Defined.

Lemma unit_memory_bound_witness : Z.of_nat (size (uh_heap used)) = uh_alloc used /\ (NBITS + 1) * uh_alloc used <= 4 * (1000 - 5 + 1) + 2 * (NBITS + 1).
Proof. apply (unit_memory_bound old 5 1000 calls flags answers new used range_ok); vm_compute; reflexivity. Defined.

(** Thread 0 has taken the lock and has got the numbers 5, 6 and 7, and has freed 6 again. *)
Definition nobody : list (option nat) := replicate (Z.to_nat (1 + (1000 - 5))) None.
Definition calls0 : list call := replicate 3 (Alloc held 0) ++ [Release 6].
Definition used0 (n : nat) : unrhdr := match unit_run old new (take n calls0) with Done (uh, _) => uh | _ => new end.
Definition owners : list (option nat) := <[1%nat := None]> (<[2%nat := Some 0%nat]> (<[1%nat := Some 0%nat]> (<[0%nat := Some 0%nat]> nobody))).
Definition shared0 : unit_world world := UnitWorld LockmgrProps.Runs.contended (used0 4) owners.

Lemma lock_steps stale w0 w uh o : reachable w0 w -> rtc (unit_step stale) (UnitWorld w0 uh o) (UnitWorld w uh o).
Proof. intros H. induction H as [| w i c w' _ IH Ha Es Hb]; [done |]. eapply rtc_r; [exact IH |]. apply (us_lock stale (UnitWorld w uh o) w'). by exists i, c. Qed.

Lemma holder0 : g_holds LockmgrProps.Runs.contended 0.
Proof. eexists. split; [reflexivity |]. split; reflexivity. Qed.

Lemma shared0_reachable : rtc (unit_step old) (UnitWorld (world0 (lockinit "lk" 0 0) [false; false; false]) new nobody) shared0.
Proof.
  etrans; [apply lock_steps, LockmgrProps.Runs.lk_contended_reachable |].
  eapply rtc_l; [apply (us_alloc old (UnitWorld LockmgrProps.Runs.contended new nobody) 0 (used0 1) 0 holder0); vm_compute; reflexivity |].
  eapply rtc_l; [apply (us_alloc old (UnitWorld LockmgrProps.Runs.contended (used0 1) _) 0 (used0 2) 1 holder0); vm_compute; reflexivity |].
  eapply rtc_l; [apply (us_alloc old (UnitWorld LockmgrProps.Runs.contended (used0 2) _) 0 (used0 3) 2 holder0); vm_compute; reflexivity |].
  apply rtc_once, (us_free old (UnitWorld LockmgrProps.Runs.contended (used0 3) _) 0 (used0 4) 1 holder0); vm_compute; reflexivity.
Qed.

Lemma unit_threads_safe_witness :
  (forall j, holder (u_lock shared0) j -> j = 0%nat) /\
  (exists uh', (alloc_unrl old (w_lock (u_lock shared0)) 0 (u_hdr shared0) = Done (uh', -1) /\ Forall is_Some (u_owner shared0)) \/
     exists j, alloc_unrl old (w_lock (u_lock shared0)) 0 (u_hdr shared0) = Done (uh', 5 + Z.of_nat j) /\ u_owner shared0 !! j = Some None /\ forall k, (k < j)%nat -> exists o, u_owner shared0 !! k = Some (Some o)) /\
  (forall j, u_owner shared0 !! j = Some (Some 0%nat) -> exists uh', free_unr old (u_hdr shared0) (5 + Z.of_nat j) = Done uh').
Proof. exact (unit_threads_safe old 5 1000 "lk" 0 0 [false; false; false] new shared0 0 range_ok new_ok shared0_reachable holder0). Defined.

(** Freeing a number of the free ones at the end dereferences a null pointer; no assertion says that the number is free. *)
Example free_behind_last : free_unr old used 900 = Fault NullDeref.
Proof. vm_compute. reflexivity. Qed.

(** The length of a bitmap is not the number of the items that are allocated. *)
Example bitmap_length : exists u b, get_unr used 3 = Done u /\ is_bitmap u = true /\ get_unrb used 10 = Done b /\ len u = 12 /\ ub_busy b = 8.
Proof. eexists _, _. vm_compute. split_and!; reflexivity. Qed.
End Runs.
