(* ===== verification/Systimer.v ===== *)
(** * System timers: sys/kern/kern_systimer.c

    The queue of one cpu, as the code that runs on this cpu sees it: the timers are objects in
    a heap, the queue is a tail queue of them, and what goes out (requests to other cpus, the
    programming of the hardware) is recorded.  Times are counts of the hardware clock modulo
    2^32, compared by the sign of their difference. *)

From stdpp Require Import prelude list strings gmap.
From S2P Require Import Prelude.
From S2P Require Import Tailq.
Open Scope Z_scope.

Definition SYSTF_ONQUEUE : Z := 0x0001.
Definition SYSTF_IPIRUNNING : Z := 0x0002.
Definition SYSTF_NONQUEUED : Z := 0x0004.

(** struct systimer; the function and its data belong to the number of the timer.  [which]
    and [gd] are the numbers of a cputimer and of a cpu, [queue] is the cpu of the queue. *)
Record systimer := Systimer {
  queue : option nat;
  time : Z;
  periodic : Z;
  flags : Z;
  freq : Z;
  which : nat;
  gd : nat
}.

Definition set_time (i : systimer) (v : Z) : systimer := Systimer (queue i) v (periodic i) (flags i) (freq i) (which i) (gd i).
Definition set_flags (i : systimer) (v : Z) : systimer := Systimer (queue i) (time i) (periodic i) v (freq i) (which i) (gd i).
Definition set_queue (i : systimer) (v : option nat) : systimer := Systimer v (time i) (periodic i) (flags i) (freq i) (which i) (gd i).
Definition set_period (i : systimer) (v f : Z) (w : nat) : systimer := Systimer (queue i) (time i) v (flags i) f w (gd i).

(** The part of struct globaldata that the timers use, with the timers, the cputimer that is
    selected and the value of its counter, the last value that was given to
    cputimer_intr_reload, the requests that were sent to other cpus, and the calls of timer
    functions, with the time of the timer. *)
Record state := State {
  mycpu : nat;
  gd_systimerq : list nat;
  gd_syst_nest : Z;
  gd_systimer_inprog : option nat;
  timers : gmap nat systimer;
  sys_cputimer : nat;
  count : Z;
  reload : option Z;
  ipiq : list (nat * nat);
  calls : list (nat * Z)
}.

Definition set_systimerq (s : state) (v : list nat) : state :=
  State (mycpu s) v (gd_syst_nest s) (gd_systimer_inprog s) (timers s) (sys_cputimer s) (count s) (reload s) (ipiq s) (calls s).
Definition set_nest (s : state) (v : Z) : state :=
  State (mycpu s) (gd_systimerq s) v (gd_systimer_inprog s) (timers s) (sys_cputimer s) (count s) (reload s) (ipiq s) (calls s).
Definition set_inprog (s : state) (v : option nat) : state :=
  State (mycpu s) (gd_systimerq s) (gd_syst_nest s) v (timers s) (sys_cputimer s) (count s) (reload s) (ipiq s) (calls s).
Definition store (s : state) (i : nat) (v : systimer) : state :=
  State (mycpu s) (gd_systimerq s) (gd_syst_nest s) (gd_systimer_inprog s) (<[i := v]> (timers s)) (sys_cputimer s) (count s) (reload s) (ipiq s) (calls s).
Definition cputimer_intr_reload (s : state) (v : Z) : state :=
  State (mycpu s) (gd_systimerq s) (gd_syst_nest s) (gd_systimer_inprog s) (timers s) (sys_cputimer s) (count s) (Some v) (ipiq s) (calls s).
Definition send_ipiq (s : state) (cpu i : nat) : state :=
  State (mycpu s) (gd_systimerq s) (gd_syst_nest s) (gd_systimer_inprog s) (timers s) (sys_cputimer s) (count s) (reload s) (ipiq s ++ [(cpu, i)]) (calls s).
Definition record_call (s : state) (i : nat) (t : Z) : state :=
  State (mycpu s) (gd_systimerq s) (gd_syst_nest s) (gd_systimer_inprog s) (timers s) (sys_cputimer s) (count s) (reload s) (ipiq s) (calls s ++ [(i, t)]).

Definition get (s : state) (i : nat) : outcome systimer :=
  match timers s !! i with Some v => Done v | None => Fault NullDeref end.

(** ** Adding and deleting *)

(** for (;;): from both ends *)
Fixpoint insert_loop (fuel : nat) (s : state) (info : nat) (t : Z) (scan1 scan2 : option nat) : outcome (list nat) :=
  let q := gd_systimerq s in
  match fuel with
  | O => Fault OutOfFuel
  | S fuel =>
      match scan1 with
      | None => mret (q ++ [info])
      | Some s1 =>
          i1 ← get s s1;
          if s32 (time i1 - t) >? 0 then mret (insert_before s1 info q)
          else
            match scan2 with
            | None => Fault NullDeref
            | Some s2 =>
                i2 ← get s s2;
                if s32 (time i2 - t) <=? 0 then mret (insert_after s2 info q)
                else insert_loop fuel s info t (tailq_next s1 q) (tailq_prev None s2 q)
            end
      end
  end.

(** The queue with [info] in its place, and the hardware, if it is the first. *)
Definition insert_queue (s : state) (info : nat) (t : Z) : outcome state :=
  let q := gd_systimerq s in
  let reload_and_insert := mret (set_systimerq (cputimer_intr_reload s (u32 (t - count s))) (info :: q)) in
  match head q with
  | None => reload_and_insert
  | Some scan1 =>
      i1 ← get s scan1;
      if s32 (time i1 - t) >? 0 then reload_and_insert
      else q ← insert_loop (S (length q)) s info t (Some scan1) (last q); mret (set_systimerq s q)
  end.

Definition systimer_add (s : state) (info : nat) : outcome state :=
  i ← get s info;
  _ ← KKASSERT "(info->flags & SYSTF_ONQUEUE) == 0" (negb (btest (flags i) SYSTF_ONQUEUE));
  if Nat.eqb (gd i) (mycpu s) then
    s ← insert_queue s info (time i);
    mret (store s info (set_queue (set_flags i (Z.ldiff (Z.lor (flags i) SYSTF_ONQUEUE) SYSTF_IPIRUNNING)) (Some (mycpu s))))
  else
    _ ← KKASSERT "(info->flags & SYSTF_IPIRUNNING) == 0" (negb (btest (flags i) SYSTF_IPIRUNNING));
    mret (send_ipiq (store s info (set_flags i (Z.lor (flags i) SYSTF_IPIRUNNING))) (gd i) info).

(** TAILQ_REMOVE(info->queue, info, node), from the queue of this cpu *)
Definition dequeue (s : state) (info : nat) (i : systimer) : outcome state :=
  if decide (queue i = Some (mycpu s)) then
    mret (store (set_systimerq s (tailq_remove info (gd_systimerq s))) info (set_flags i (Z.ldiff (flags i) SYSTF_ONQUEUE)))
  else Fault NullDeref.

Definition systimer_del (s : state) (info : nat) : outcome state :=
  i ← get s info;
  _ ← KKASSERT "gd == mycpu && (info->flags & SYSTF_IPIRUNNING) == 0" (Nat.eqb (gd i) (mycpu s) && negb (btest (flags i) SYSTF_IPIRUNNING));
  s ← (if btest (flags i) SYSTF_ONQUEUE then dequeue s info i else mret s);
  mret (if decide (gd_systimer_inprog s = Some info) then set_inprog s None else s).

(** ** Starting timers *)

(** The methods of most cputimers, whose frequency is [cfreq] (sys/kern/kern_cputimer.c);
    [hz] is not zero. *)
Definition cputimer_default_fromhz (cfreq hz : Z) : Z := u32 (cfreq / u32 hz + 1).
Definition cputimer_default_fromus (cfreq us : Z) : Z := u32 (s64 (cfreq * us) ÷ 1000000).

Section Timers.
(** The methods of a cputimer: the counts of a period, and of a number of microseconds. *)
Context (fromhz fromus : nat -> Z -> Z).

Definition init_periodic (s : state) (info : nat) (hz f : Z) : outcome state :=
  let period := fromhz (sys_cputimer s) hz in
  if period =? 0 then Fault DivideByZero
  else
    let base_count := u32 (count s - count s mod period) in
    systimer_add (store s info (Systimer None (u32 (base_count + period)) period f hz (sys_cputimer s) (mycpu s))) info.
Definition systimer_init_periodic (s : state) (info : nat) (hz : Z) : outcome state := init_periodic s info hz 0.
Definition systimer_init_periodic_nq (s : state) (info : nat) (hz : Z) : outcome state := init_periodic s info hz SYSTF_NONQUEUED.

Definition systimer_adjust_periodic (s : state) (info : nat) (hz : Z) : outcome state :=
  i ← get s info;
  mret (store s info (set_period i (fromhz (sys_cputimer s) hz) hz (sys_cputimer s))).

Definition systimer_init_oneshot (s : state) (info : nat) (us : Z) : outcome state :=
  systimer_add (store s info (Systimer None (u32 (count s + fromus (sys_cputimer s) us)) 0 0 0 (sys_cputimer s) (mycpu s))) info.

(** ** The interrupt *)

(** The functions of the timers. *)
Context (func : nat -> state -> outcome state).

(** The time of the next interrupt of a periodic timer *)
Definition next_time (i : systimer) (now : Z) : outcome Z :=
  let t := u32 (time i + periodic i) in
  if btest (flags i) SYSTF_NONQUEUED && (s32 (t - now) <=? 0) then
    if periodic i =? 0 then Fault DivideByZero
    else mret (u32 (t + u32 (u32 (now - t + periodic i - 1) / periodic i * periodic i)))
  else mret t.

(** Add a periodic timer again, if its function has left it alone. *)
Definition requeue (s : state) (info : nat) (now : Z) : outcome state :=
  if decide (gd_systimer_inprog s = Some info) then
    i ← get s info;
    if periodic i =? 0 then mret s
    else
      let i := if Nat.eqb (which i) (sys_cputimer s) then i else set_period i (fromhz (sys_cputimer s) (freq i)) (freq i) (sys_cputimer s) in
      t ← next_time i now;
      systimer_add (store s info (set_time i t)) info
  else mret s.

Fixpoint intr_loop (fuel : nat) (s : state) (now : Z) : outcome state :=
  match fuel with
  | O => Fault OutOfFuel
  | S fuel =>
      match head (gd_systimerq s) with
      | None => mret s
      | Some info =>
          i ← get s info;
          if s32 (time i - now) >? 0 then mret (cputimer_intr_reload s (u32 (time i - now)))
          else
            s ← dequeue s info i;
            s ← func info (record_call (set_inprog s (Some info)) info (time i));
            s ← requeue s info now;
            intr_loop fuel (set_inprog s None) now
      end
  end.

Definition systimer_intr (fuel : nat) (s : state) (now : Z) : outcome state :=
  if negb (gd_syst_nest s =? 0) then mret s
  else
    s ← intr_loop fuel (set_nest s (gd_syst_nest s + 1)) now;
    mret (set_nest s (gd_syst_nest s - 1)).
End Timers.
