(* ===== verification/SystimerProps.v ===== *)
(** * System timers: what they promise

    Times that are near each other compare as the integers that they stand for.  The queue is
    kept in the order of these integers, timers of the same time in the order in which they
    were added; an interrupt calls every timer that is due, in the order of the times, and
    programs the hardware for the first one that is left. *)

From stdpp Require Import prelude list strings gmap sorting.
From S2P Require Import Prelude.
From S2P Require Import Tailq.
From S2P Require Import Seq.
From S2P Require Import Systimer.
Open Scope Z_scope.

(** ** The queue *)

(** The reference: behind all timers that are not later. *)
Fixpoint insert_sorted (ut : nat -> Z) (info : nat) (x : Z) (q : list nat) : list nat :=
  match q with
  | [] => [info]
  | i :: q => if x <? ut i then info :: i :: q else i :: insert_sorted ut info x q
  end.

(** The period, and the frequency that it was computed from. *)
Definition period_ok (v : systimer) : Prop := 0 <= periodic v < 2 ^ 29 /\ (periodic v <> 0 -> 0 < freq v).

(** Timer [i] is in the queue of its cpu for the time [x]. *)
Definition on_queue (s : state) (i : nat) (x : Z) : Prop := exists v, timers s !! i = Some v /\
  btest (flags v) SYSTF_ONQUEUE = true /\ btest (flags v) SYSTF_IPIRUNNING = false /\ gd v = mycpu s /\ period_ok v /\ queue v = Some (mycpu s) /\ time v = u32 x.

(** Timer [i] belongs to this cpu, and is neither in its queue nor on the way to it. *)
Definition idle (s : state) (i : nat) (v : systimer) : Prop := timers s !! i = Some v /\
  btest (flags v) SYSTF_ONQUEUE = false /\ btest (flags v) SYSTF_IPIRUNNING = false /\ gd v = mycpu s /\ period_ok v.

(** Around the time [now]: the timer [i] of the queue is for the time [ut i], and the counter
    has not run far ahead. *)
Record wf (now : Z) (ut : nat -> Z) (s : state) : Prop := {
  wf_nodup : NoDup (gd_systimerq s);
  wf_on i : i ∈ gd_systimerq s -> on_queue s i (ut i);
  wf_off i v : timers s !! i = Some v -> btest (flags v) SYSTF_ONQUEUE = true -> gd v = mycpu s -> i ∈ gd_systimerq s;
  wf_near i : i ∈ gd_systimerq s -> now - 2 ^ 30 < ut i < now + 2 ^ 30;
  wf_sorted : StronglySorted (fun i j => ut i <= ut j) (gd_systimerq s);
  wf_count : exists c, count s = u32 c /\ now <= c < now + 2 ^ 29
}.

Definition put (ut : nat -> Z) (i : nat) (x : Z) (j : nat) : Z := if Nat.eqb j i then x else ut j.

Lemma put_eq (ut : nat -> Z) i x : put ut i x i = x.
Proof. unfold put. by rewrite Nat.eqb_refl. Qed.
Lemma put_ne (ut : nat -> Z) i x j : j <> i -> put ut i x j = ut j.
Proof. intros H. unfold put. by rewrite (proj2 (Nat.eqb_neq j i)). Qed.

Lemma insert_split (ut : nat -> Z) info x A B : Forall (fun i => ut i <= x) A -> Forall (fun i => x < ut i) B -> insert_sorted ut info x (A ++ B) = A ++ info :: B.
Proof.
  intros HA HB. induction HA as [| i A Hi _ IH]; cbn.
  - destruct HB as [| j B Hj _]; [done |]. cbn. by rewrite (proj2 (Z.ltb_lt _ _) Hj).
  - rewrite (proj2 (Z.ltb_ge _ _) Hi). by rewrite IH.
Qed.

Lemma queue_split (ut : nat -> Z) x q : StronglySorted (fun i j => ut i <= ut j) q -> exists A B, q = A ++ B /\ Forall (fun i => ut i <= x) A /\ Forall (fun i => x < ut i) B.
Proof.
  induction 1 as [| i q Hq (A & B & -> & HA & HB) Hi]; [by exists [], [] |]. destruct (Z.le_gt_cases (ut i) x) as [Hle | Hgt].
  - exists (i :: A), B. split_and!; try done. by constructor.
  - exists [], (i :: A ++ B). split_and!; try done. constructor; [done |]. eapply Forall_impl; [exact Hi |]. cbn. lia.
Qed.

Lemma strongly_app {X} (R : X -> X -> Prop) A B : StronglySorted R A -> StronglySorted R B -> (forall a b, a ∈ A -> b ∈ B -> R a b) -> StronglySorted R (A ++ B).
Proof.
  intros HA HB H. induction HA as [| a A HA IH Ha]; [done |]. cbn. constructor; [apply IH; intros; apply H; set_solver |].
  apply Forall_app. split; [done |]. apply Forall_forall. intros b Hb. apply H; set_solver.
Qed.

Lemma strongly_parts {X} (R : X -> X -> Prop) A B : StronglySorted R (A ++ B) -> StronglySorted R A /\ StronglySorted R B /\ forall a b, a ∈ A -> b ∈ B -> R a b.
Proof.
  induction A as [| a A IH]; cbn; [intros H; split_and!; [constructor | done | set_solver] |]. intros H. inversion H as [| ? ? H1 H2]; subst. destruct (IH H1) as (I1 & I2 & I3). apply Forall_app in H2 as [H2 H3].
  split_and!; [by constructor | done |]. intros b c [-> | Hb]%elem_of_cons Hc; [by eapply Forall_forall | by apply I3].
Qed.

Section Queue.
Context (now : Z) (ut : nat -> Z) (s : state) (Hwf : wf now ut s).

Lemma queue_get i : i ∈ gd_systimerq s -> exists v, get s i = Done v /\ time v = u32 (ut i).
Proof. intros (v & E & _ & _ & _ & _ & _ & Ht)%(wf_on _ _ _ Hwf). exists v. unfold get. by rewrite E. Qed.

(** The sign of the difference. *)
Lemma queue_near i x : i ∈ gd_systimerq s -> now - 2 ^ 30 < x < now + 2 ^ 30 -> s32 (u32 (ut i) - u32 x) = ut i - x.
Proof. intros H%(wf_near _ _ _ Hwf) Hx. apply s32_near. unfold near. lia. Qed.

Lemma insert_loop_ok info (x : Z) A1 A2 B1 B2 fuel : gd_systimerq s = A1 ++ A2 ++ B1 ++ B2 -> Forall (fun i => ut i <= x) (A1 ++ A2) -> Forall (fun i => x < ut i) (B1 ++ B2) -> (length A2 < fuel)%nat ->
  now - 2 ^ 30 < x < now + 2 ^ 30 -> insert_loop fuel s info (u32 x) (head (A2 ++ B1 ++ B2)) (last (A1 ++ A2 ++ B1)) = Done ((A1 ++ A2) ++ info :: B1 ++ B2).
Proof.
  revert A1 B1 B2 fuel. induction A2 as [| a A2 IH]; intros A1 B1 B2 fuel Eq HA HB Hf Hx; (destruct fuel as [| fuel]; [lia |]); cbn [insert_loop].
  - rewrite app_nil_r, app_nil_l in *. assert (EB : exists B, B1 ++ B2 = B) by eauto. destruct EB as [B EB]. rewrite EB in *. destruct B as [| b B]; cbn [head]; [by rewrite Eq, app_nil_r |].
    destruct (queue_get b) as (v & -> & Ev); [rewrite Eq; set_solver |]. rewrite bind_Done_l, Ev, queue_near by (done || (rewrite Eq; set_solver)). inversion HB as [| ? ? Hb _]; subst.
    destruct (Z.gtb_spec (ut b - x) 0) as [_ | ?]; [| lia]. rewrite Eq, insert_before_mid; [done |]. pose proof (wf_nodup _ _ _ Hwf) as ND. rewrite Eq in ND. apply NoDup_app in ND as (_ & Hd & _). intros Hin. apply (Hd b Hin). by left.
  - cbn [app head]. destruct (queue_get a) as (v & -> & Ev); [rewrite Eq; set_solver |]. rewrite bind_Done_l, Ev, queue_near by (done || (rewrite Eq; set_solver)). rewrite Forall_app in HA. destruct HA as [HA1 HA2]. inversion HA2 as [| ? ? Ha HA2']; subst.
    destruct (Z.gtb_spec (ut a - x) 0) as [? | _]; [lia |]. pose proof (wf_nodup _ _ _ Hwf) as ND. destruct B1 as [| b B1 _] using rev_ind.
    + rewrite app_nil_r, app_nil_l in *. destruct (exists_last (l := a :: A2)) as (A3 & y & EA); [done |]. rewrite EA, app_assoc, last_snoc. assert (Hy : y ∈ a :: A2) by (rewrite EA; set_solver).
      destruct (queue_get y) as (w & -> & Ew); [rewrite Eq; set_solver |]. rewrite bind_Done_l, Ew, queue_near by (done || (rewrite Eq; set_solver)). pose proof (proj1 (Forall_forall _ _) HA2 y Hy) as Hle. cbn in Hle.
      destruct (Z.leb_spec (ut y - x) 0) as [_ | ?]; [| lia]. rewrite Eq, EA. replace (A1 ++ (A3 ++ [y]) ++ B2) with ((A1 ++ A3) ++ y :: B2) by (by rewrite <- !app_assoc). rewrite insert_after_mid; [by rewrite <- !app_assoc |].
      rewrite Eq, EA in ND. replace (A1 ++ (A3 ++ [y]) ++ B2) with ((A1 ++ A3) ++ y :: B2) in ND by (by rewrite <- !app_assoc). apply NoDup_app in ND as (_ & Hd & _). intros Hin. apply (Hd y Hin). by left.
    + replace (A1 ++ a :: A2 ++ B1 ++ [b]) with ((A1 ++ a :: A2 ++ B1) ++ [b]) by (by rewrite <- !app_assoc, <- app_comm_cons, <- app_assoc). rewrite last_snoc. rewrite !Forall_app in HB. destruct HB as [[HB1 Hb'] HB2]. inversion Hb' as [| ? ? Hb _]; subst.
      destruct (queue_get b) as (w & -> & Ew); [rewrite Eq; set_solver |]. rewrite bind_Done_l, Ew, queue_near by (done || (rewrite Eq; set_solver)). destruct (Z.leb_spec (ut b - x) 0) as [? | _]; [lia |].
      assert (E1 : gd_systimerq s = A1 ++ a :: (A2 ++ B1 ++ b :: B2)) by (by rewrite Eq, <- !app_assoc). assert (E2 : gd_systimerq s = (A1 ++ a :: A2 ++ B1) ++ b :: B2) by (by rewrite E1, <- !app_assoc, <- app_comm_cons, <- app_assoc).
      assert (N1 : a ∉ A1) by (rewrite E1 in ND; apply NoDup_app in ND as (_ & Hd & _); intros Hin; apply (Hd a Hin); by left). assert (N2 : b ∉ A1 ++ a :: A2 ++ B1) by (rewrite E2 in ND; apply NoDup_app in ND as (_ & Hd & _); intros Hin; apply (Hd b Hin); by left).
      rewrite E1 at 1. rewrite E2. rewrite tailq_next_mid by done. rewrite tailq_prev_mid by done.
      specialize (IH (A1 ++ [a]) B1 (b :: B2) fuel). rewrite <- !app_assoc in IH. cbn [app] in IH. rewrite <- !app_assoc. cbn [app]. replace (match last (A1 ++ a :: A2 ++ B1) with Some y => Some y | None => None end) with (last (A1 ++ a :: A2 ++ B1)) by (by destruct (last _)).
      apply IH; try done; [| | cbn in Hf; lia]; rewrite ?Forall_app; cbn; rewrite ?Forall_cons; split_and!; try done.
Qed.

(** The hardware is programmed when the timer becomes the first one. *)
Lemma insert_queue_ok info x : now - 2 ^ 30 < x < now + 2 ^ 30 -> let q := insert_sorted ut info x (gd_systimerq s) in info ∉ gd_systimerq s ->
  insert_queue s info (u32 x) = Done (set_systimerq (if decide (head q = Some info) then cputimer_intr_reload s (u32 (x - count s)) else s) q).
Proof.
  intros Hx q Hni. unfold insert_queue. assert (Er : u32 (u32 x - count s) = u32 (x - count s)) by (unfold u32; by rewrite Zminus_mod_idemp_l). rewrite Er. destruct (queue_split ut x _ (wf_sorted _ _ _ Hwf)) as (A & B & Eq & HA & HB). assert (Eqq : q = A ++ info :: B) by (unfold q; by rewrite Eq, insert_split). rewrite Eqq.
  destruct A as [| a A].
  - cbn [app head]. rewrite decide_True by done. destruct B as [| b B]; rewrite Eq; cbn [app head]; [done |]. destruct (queue_get b) as (v & -> & Ev); [rewrite Eq; set_solver |]. rewrite bind_Done_l, Ev, queue_near by (done || (rewrite Eq; set_solver)).
    inversion HB; subst. destruct (Z.gtb_spec (ut b - x) 0); [done | lia].
  - pose proof (insert_loop_ok info x [] (a :: A) B [] (S (length (gd_systimerq s))) ltac:(by rewrite app_nil_r) HA ltac:(by rewrite app_nil_r) ltac:(rewrite Eq, length_app; lia) Hx) as El. rewrite !app_nil_r in El. rewrite !app_nil_l in El. rewrite <- Eq in El.
    rewrite Eq at 1. cbn [app head] in *. destruct (queue_get a) as (v & -> & Ev); [rewrite Eq; set_solver |]. rewrite bind_Done_l, Ev, queue_near by (done || (rewrite Eq; set_solver)). inversion HA; subst. destruct (Z.gtb_spec (ut a - x) 0); [lia |].
    rewrite Eq in El at 2. cbn [app head] in El. rewrite El, bind_Done_l. rewrite decide_False by (intros [= ->]; apply Hni; rewrite Eq; set_solver). done.
Qed.

Lemma idle_notin i v : idle s i v -> i ∉ gd_systimerq s.
Proof. intros (E & Hf & _) (w & Ew & Hw & _)%(wf_on _ _ _ Hwf). congruence. Qed.
End Queue.

(** What an operation on timers leaves alone. *)
Definition same_cpu (s s' : state) : Prop := mycpu s' = mycpu s /\ gd_syst_nest s' = gd_syst_nest s /\ sys_cputimer s' = sys_cputimer s /\ count s' = count s /\ calls s' = calls s.

(** ** Timers and flags *)

Lemma queued_flags f : btest (Z.ldiff (Z.lor f SYSTF_ONQUEUE) SYSTF_IPIRUNNING) SYSTF_ONQUEUE = true /\ btest (Z.ldiff (Z.lor f SYSTF_ONQUEUE) SYSTF_IPIRUNNING) SYSTF_IPIRUNNING = false.
Proof. rewrite btest_ldiff_disjoint, btest_ldiff_same, btest_lor by done. by rewrite orb_true_r. Qed.

Lemma dequeued_flags f : btest f SYSTF_IPIRUNNING = false -> btest (Z.ldiff f SYSTF_ONQUEUE) SYSTF_ONQUEUE = false /\ btest (Z.ldiff f SYSTF_ONQUEUE) SYSTF_IPIRUNNING = false.
Proof. intros H. by rewrite btest_ldiff_same, btest_ldiff_disjoint. Qed.

Lemma insert_elem ut info x q i : i ∈ insert_sorted ut info x q <-> i = info \/ i ∈ q.
Proof. induction q as [| j q IH]; cbn; [set_solver |]. destruct (x <? ut j); set_solver. Qed.

(** A new state of the timer [t] in the queue [q]. *)
Lemma wf_insert now ut s t x s' v : wf now ut s -> t ∉ gd_systimerq s -> now - 2 ^ 30 < x < now + 2 ^ 30 -> gd_systimerq s' = insert_sorted ut t x (gd_systimerq s) -> mycpu s' = mycpu s -> count s' = count s ->
  timers s' = <[t := v]> (timers s) -> on_queue s' t x -> wf now (put ut t x) s'.
Proof.
  intros H Hni Hx Eq Em En Et Ht. destruct (queue_split ut x _ (wf_sorted _ _ _ H)) as (A & B & E & HA & HB). assert (Eq' : gd_systimerq s' = A ++ t :: B) by (by rewrite Eq, E, insert_split).
  assert (Hut : forall i, i ∈ A ++ B -> put ut t x i = ut i) by (intros i Hi; apply put_ne; intros ->; by rewrite E in Hni). pose proof (wf_sorted _ _ _ H) as HS. rewrite E in HS, Hni. apply strongly_parts in HS as (SA & SB & _). constructor.
  - pose proof (wf_nodup _ _ _ H) as ND. rewrite E in ND. rewrite Eq'. rewrite <- Permutation_middle. by apply NoDup_cons.
  - intros i Hi. rewrite Eq, insert_elem in Hi. destruct (decide (i = t)) as [-> | Hne]; [by rewrite put_eq |]. destruct Hi as [| Hi]; [done |]. rewrite put_ne by done. destruct (wf_on _ _ _ H i Hi) as (w & Ew & Hw). exists w. rewrite Et, lookup_insert_ne, Em by done. done.
  - intros i w Ew Hf Hg. rewrite Eq, insert_elem. destruct (decide (i = t)) as [-> | Hne]; [by left | right]. rewrite Et, lookup_insert_ne in Ew by done. rewrite Em in Hg. by eapply (wf_off _ _ _ H).
  - intros i Hi. rewrite Eq, insert_elem in Hi. destruct (decide (i = t)) as [-> | Hne]; [by rewrite put_eq |]. rewrite put_ne by done. apply (wf_near _ _ _ H). by destruct Hi.
  - rewrite Eq'. assert (Hs : forall l, (forall i, i ∈ l -> i ∈ A ++ B) -> StronglySorted (fun i j => ut i <= ut j) l -> StronglySorted (fun i j => put ut t x i <= put ut t x j) l).
    { intros l Hl Sl. induction Sl as [| a l Sl IH Ha]; constructor; [apply IH; intros; apply Hl; set_solver |]. rewrite Forall_forall in *. intros b Hb. rewrite !Hut by (apply Hl; set_solver). by apply Ha. }
    apply strongly_app; [apply Hs; [set_solver | done] | constructor; [apply Hs; [set_solver | done] |] |].
    + rewrite Forall_forall in *. intros b Hb. rewrite put_eq, Hut by set_solver. specialize (HB b Hb). cbn in HB. lia.
    + rewrite !Forall_forall in *. intros a b Ha [-> | Hb]%elem_of_cons; rewrite (Hut a) by set_solver; specialize (HA a Ha); cbn in HA; [by rewrite put_eq |]. rewrite Hut by set_solver. specialize (HB b Hb). cbn in HB. lia.
  - rewrite En. apply H.
Qed.

Lemma systimer_add_ok now ut s t v x : wf now ut s -> idle s t v -> time v = u32 x -> now - 2 ^ 30 < x < now + 2 ^ 30 ->
  let q := insert_sorted ut t x (gd_systimerq s) in
  exists s', systimer_add s t = Done s' /\ wf now (put ut t x) s' /\ gd_systimerq s' = q /\ same_cpu s s' /\ gd_systimer_inprog s' = gd_systimer_inprog s /\ ipiq s' = ipiq s /\
    reload s' = if decide (head q = Some t) then Some (u32 (x - count s)) else reload s.
Proof.
  intros H Hid Ht Hx q. pose proof (idle_notin now ut s H t v Hid) as Hni. destruct Hid as (E & Hon & Hipi & Hg & Hp). unfold systimer_add, get. rewrite E, bind_Done_l, Hon. cbn [negb KKASSERT]. rewrite bind_Done_l, Hg, Nat.eqb_refl, Ht, (insert_queue_ok now ut s H t x Hx Hni), bind_Done_l. fold q.
  eexists. split; [done |]. split; [| destruct (decide _); by split_and!]. eapply (wf_insert now ut s t x); try done; [by destruct (decide _) | by destruct (decide _) | by destruct (decide _) |].
  destruct (queued_flags (flags v)). eexists. cbn. rewrite lookup_insert_eq. split; [done |]. cbn. split_and!; try done; try lia; by destruct (decide _).
Qed.

(** A timer leaves the queue. *)
Lemma systimer_dequeue_ok now ut s t v : wf now ut s -> t ∈ gd_systimerq s -> timers s !! t = Some v -> exists s', dequeue s t v = Done s' /\ wf now ut s' /\ same_cpu s s' /\ idle s' t (set_flags v (Z.ldiff (flags v) SYSTF_ONQUEUE)) /\
  gd_systimerq s' = tailq_remove t (gd_systimerq s) /\ gd_systimer_inprog s' = gd_systimer_inprog s /\ (forall i, i ∈ gd_systimerq s' <-> i ∈ gd_systimerq s /\ i <> t).
Proof.
  intros H Hin E. destruct (wf_on _ _ _ H t Hin) as (w & Ew & Hon & Hipi & Hg & Hp & Hq & Ht). rewrite E in Ew. injection Ew as <-. unfold dequeue. rewrite decide_True by done. eexists. split; [done |]. cbn.
  apply list_elem_of_split_l in Hin as (A & B & Eq & HA). pose proof (wf_nodup _ _ _ H) as ND. pose proof (wf_sorted _ _ _ H) as HS. rewrite Eq in ND, HS. apply strongly_parts in HS as (SA & SB & SAB). rewrite <- Permutation_middle in ND. apply NoDup_cons in ND as [Hnt ND].
  assert (Er : tailq_remove t (gd_systimerq s) = A ++ B) by (by rewrite Eq, tailq_remove_mid). assert (Hel : forall i, i ∈ A ++ B <-> i ∈ gd_systimerq s /\ i <> t) by (intros i; rewrite Eq; set_solver). rewrite Er.
  destruct (dequeued_flags (flags v) Hipi) as [F1 F2]. split; [| split_and!; try done; split_and!; cbn; try done; try lia; by rewrite lookup_insert_eq].
  constructor; cbn [gd_systimerq store set_systimerq timers].
  - done.
  - intros i [Hi Hne]%Hel. destruct (wf_on _ _ _ H i Hi) as (w & Ew & Hw). exists w. split; [| exact Hw]. cbn. by rewrite lookup_insert_ne.
  - intros i w Ew Hf Hgw. cbn in Ew, Hgw. apply Hel. destruct (decide (i = t)) as [-> | Hne]; [rewrite lookup_insert_eq in Ew; injection Ew as <-; cbn in Hf; congruence |]. rewrite lookup_insert_ne in Ew by done. split; [by eapply (wf_off _ _ _ H) | done].
  - intros i [Hi _]%Hel. by apply (wf_near _ _ _ H).
  - inversion SB; subst. apply strongly_app; [done | done |]. intros a b Ha Hb. apply SAB; set_solver.
  - apply H.
Qed.

(** The environment of an operation: what does not change. *)
Definition same_env (s s' : state) : Prop := mycpu s' = mycpu s /\ gd_syst_nest s' = gd_syst_nest s /\ sys_cputimer s' = sys_cputimer s.

Lemma same_env_trans a b c : same_env a b -> same_env b c -> same_env a c.
Proof. unfold same_env. intuition congruence. Qed.

Lemma same_cpu_env s s' : same_cpu s s' -> same_env s s'.
Proof. by intros (? & ? & ? & _). Qed.

(** The numbers of a queue only. *)
Lemma wf_ext now ut s s' : gd_systimerq s' = gd_systimerq s -> timers s' = timers s -> mycpu s' = mycpu s -> count s' = count s -> wf now ut s -> wf now ut s'.
Proof.
  intros E1 E2 E3 E4 [H1 H2 H3 H4 H5 H6]. constructor; rewrite ?E1, ?E4; try done.
  - intros i (v & Hv)%H2. exists v. by rewrite E2, E3.
  - intros i v. rewrite E2, E3. apply H3.
Qed.

(** A timer of another cpu. *)
Lemma wf_elsewhere now ut s t v v' : wf now ut s -> timers s !! t = Some v -> gd v <> mycpu s -> gd v' = gd v -> wf now ut (store s t v').
Proof.
  intros [H1 H2 H3 H4 H5 H6] E Hg Eg. assert (Hni : t ∉ gd_systimerq s) by (intros (w & Ew & _ & _ & ? & _)%H2; congruence). constructor; try done; cbn.
  - intros i Hi. destruct (H2 i Hi) as (w & Ew & Hw). exists w. cbn. rewrite lookup_insert_ne by (by intros ->). done.
  - intros i w Ew Hw Hgw. destruct (decide (i = t)) as [-> | Hne]; [rewrite lookup_insert_eq in Ew; congruence |]. rewrite lookup_insert_ne in Ew by done. by eapply H3.
Qed.

(** ** Periods *)

(** The next time of a periodic timer: a whole number of periods later; exactly one, or, if
    events are not to be queued, as many as are needed to reach the present. *)
Lemma next_time_ok v x now : time v = u32 x -> now - 2 ^ 30 < x <= now -> 0 < periodic v < 2 ^ 29 ->
  exists k, next_time v (u32 now) = Done (u32 (x + k * periodic v)) /\ 1 <= k /\ x < x + k * periodic v < now + 2 ^ 30 /\
    (btest (flags v) SYSTF_NONQUEUED = false -> k = 1) /\
    (btest (flags v) SYSTF_NONQUEUED = true -> now <= x + k * periodic v /\ (k = 1 \/ x + (k - 1) * periodic v < now)).
Proof.
  intros Ht Hx Hp. unfold next_time. rewrite Ht, u32_seq_add. set (p := periodic v) in *. rewrite s32_near by (unfold near; lia). destruct (btest (flags v) SYSTF_NONQUEUED) eqn:Enq; cbn [andb].
  - destruct (Z.leb_spec (x + p - now) 0) as [Hle | Hgt].
    + rewrite (proj2 (Z.eqb_neq p 0)) by lia. set (c := (now - x - 1) / p). pose proof (Z.div_mod (now - x - 1) p ltac:(lia)) as Hd. pose proof (Z.mod_pos_bound (now - x - 1) p ltac:(lia)) as Hm. fold c in Hd.
      assert (Hc : 0 <= c) by (apply Z.div_pos; lia). exists (c + 1). split_and!; try done; try lia.
      assert (E1 : u32 (u32 now - u32 (x + p) + p - 1) = now - x - 1).
      { unfold u32. replace (now mod 2 ^ 32 - (x + p) mod 2 ^ 32 + p - 1) with (now mod 2 ^ 32 - (x + p) mod 2 ^ 32 + (p - 1)) by lia. rewrite <- Z.add_mod_idemp_l, <- Zminus_mod, Z.add_mod_idemp_l, Z.mod_small by lia. lia. }
      rewrite E1. fold c. rewrite (u32_id (c * p)) by (unfold_int; nia). rewrite u32_seq_add. do 2 f_equal. lia.
    + exists 1. rewrite Z.mul_1_l. split_and!; try done; try lia.
  - exists 1. rewrite Z.mul_1_l. split_and!; try done; lia.
Qed.

(** ** What is touched *)

(** The period in counts of the cputimer [c] (0: one shot), and whether events are not queued. *)
Definition rate (fromhz : nat -> Z -> Z) (c : nat) (v : systimer) : Z * bool :=
  (if periodic v =? 0 then 0 else if Nat.eqb (which v) c then periodic v else fromhz c (freq v), btest (flags v) SYSTF_NONQUEUED).

Lemma rate_ext fromhz c v w : btest (flags w) SYSTF_NONQUEUED = btest (flags v) SYSTF_NONQUEUED -> periodic w = periodic v -> freq w = freq v -> which w = which v -> rate fromhz c w = rate fromhz c v.
Proof. intros H1 H2 H3 H4. unfold rate. by rewrite H1, H2, H3, H4. Qed.

Lemma insert_queue_timers s t x s' : insert_queue s t x = Done s' -> timers s' = timers s.
Proof. unfold insert_queue. destruct (head _); [| by intros [= <-]]. intros H. inv_bind. destruct (_ >? 0); [by revert H; intros [= <-] |]. inv_bind. by revert H; intros [= <-]. Qed.

(** Adding a timer changes this timer only, and not its period. *)
Lemma systimer_add_timers s t v s' : systimer_add s t = Done s' -> timers s !! t = Some v -> exists w, timers s' = <[t := w]> (timers s) /\ forall fromhz c, rate fromhz c w = rate fromhz c v.
Proof.
  unfold systimer_add, get. intros H E. rewrite E, bind_Done_l in H. inv_bind. destruct (Nat.eqb _ _).
  - inv_bind. revert H; intros [= <-]. apply insert_queue_timers in H1 as <-. eexists. split; [done |]. intros fromhz c. apply rate_ext; [| done..]. cbn. rewrite btest_ldiff_disjoint, btest_lor by done. by rewrite orb_false_r.
  - inv_bind. revert H; intros [= <-]. eexists. split; [done |]. intros fromhz c. apply rate_ext; [| done..]. cbn. rewrite btest_lor. by rewrite orb_false_r.
Qed.

(** Near a common time a timer that has not been touched keeps its place. *)
Lemma same_place now ut ut1 s s1 i : wf now ut s -> wf now ut1 s1 -> mycpu s1 = mycpu s -> timers s1 !! i = timers s !! i -> i ∈ gd_systimerq s -> i ∈ gd_systimerq s1 /\ ut1 i = ut i.
Proof.
  intros H H1 Em Et Hi. destruct (wf_on _ _ _ H i Hi) as (v & E & Hon & _ & Hg & _ & _ & Ht). rewrite <- Et in E. assert (Hi1 : i ∈ gd_systimerq s1) by (eapply (wf_off _ _ _ H1); [exact E | done | congruence]). split; [done |].
  destruct (wf_on _ _ _ H1 i Hi1) as (w & Ew & _ & _ & _ & _ & _ & Htw). rewrite E in Ew. injection Ew as <-. pose proof (wf_near _ _ _ H i Hi). pose proof (wf_near _ _ _ H1 i Hi1).
  assert (Hn : near (ut1 i) (ut i)) by (unfold near; lia). apply s32_near in Hn. rewrite <- Ht, <- Htw, Z.sub_diag in Hn. change (s32 0) with 0 in Hn. lia.
Qed.

(** ** The functions of the timers *)

(** What an interrupt at [now] expects of them: a function may add timers for later times and
    delete timers that are not due, and may delete its own timer and add it again; it leaves
    the timers that are due alone. *)
Class TimerFunc (now : Z) (func : nat -> state -> outcome state) : Prop :=
  timer_func t ut s v : wf now ut s -> idle s t v -> gd_systimer_inprog s = Some t ->
    exists s' ut', func t s = Done s' /\ wf now ut' s' /\ same_env s s' /\ calls s' = calls s /\
      (forall i, i ∈ gd_systimerq s -> ut i <= now -> i ∈ gd_systimerq s' /\ ut' i = ut i) /\
      (forall i, i ∈ gd_systimerq s' -> ut' i <= now -> i ∈ gd_systimerq s /\ ut' i = ut i) /\
      (gd_systimer_inprog s' = None \/
       gd_systimer_inprog s' = Some t /\ exists v', idle s' t v' /\ time v' = time v).

(** The functions do not touch timer [t]; its own does not stop it. *)
Definition leaves_alone (func : nat -> state -> outcome state) (t : nat) : Prop := forall i s s', func i s = Done s' ->
  timers s' !! t = timers s !! t /\ (i = t -> gd_systimer_inprog s' = gd_systimer_inprog s).

(** The time after [x] for the rate [r]: a period later, or, if events are not queued, the
    least number of periods later, at least one, that reaches [now]. *)
Definition next_event (now : Z) (r : Z * bool) (x y : Z) : Prop := exists k, y = x + k * r.1 /\ 1 <= k /\
  (r.2 = false -> k = 1) /\ (r.2 = true -> now <= y /\ (k = 1 \/ y - r.1 < now)).

(** The calls until [now] of a timer of the rate [r] that is in the queue for the time [x]: one
    for each of its times that are not later than [now]; then it is in the queue for the first
    time that is later, if it is periodic. *)
Inductive rounds (now : Z) (r : Z * bool) : Z -> list Z -> option Z -> Prop :=
| rounds_later x : now < x -> rounds now r x [] (Some x)
| rounds_oneshot x : x <= now -> r.1 = 0 -> rounds now r x [x] None
| rounds_again x y l z : x <= now -> 0 < r.1 -> next_event now r x y -> rounds now r y l z -> rounds now r x (x :: l) z.

(** A timer whose events are not queued is not due for the present itself: for that time it
    would be called once more, see [Runs.nonqueued_twice]. *)
Definition punctual (fromhz : nat -> Z -> Z) (now x : Z) (c : nat) (v : systimer) : Prop :=
  btest (flags v) SYSTF_NONQUEUED = true -> (now - x) mod (rate fromhz c v).1 <> 0.

Section Intr.
Context (now : Z) (fromhz : nat -> Z -> Z) (func : nat -> state -> outcome state) {Hfunc : TimerFunc now func}.
Hypothesis Hhz : forall w f, 0 < f -> 0 < fromhz w f < 2 ^ 29.

Lemma idle_store s t v v' : idle s t v -> flags v' = flags v -> gd v' = gd v -> period_ok v' -> idle (store s t v') t v'.
Proof. intros (E & H1 & H2 & H3 & H4) Ef Eg Hp. split_and!; cbn; try done; [by rewrite lookup_insert_eq | congruence..]. Qed.

Lemma wf_store ut s t v v' : wf now ut s -> idle s t v -> btest (flags v') SYSTF_ONQUEUE = false -> wf now ut (store s t v').
Proof.
  intros H Hid Hf. pose proof (idle_notin now ut s H t v Hid) as Hni. destruct H as [H1 H2 H3 H4 H5 H6]. constructor; try done; cbn.
  - intros i Hi. destruct (H2 i Hi) as (w & Ew & Hw). exists w. cbn. rewrite lookup_insert_ne by (by intros ->). done.
  - intros i w Ew Hw Hg. destruct (decide (i = t)) as [-> | Hne]; [rewrite lookup_insert_eq in Ew; congruence |]. rewrite lookup_insert_ne in Ew by done. by eapply H3.
Qed.

(** After its function a timer is added again, for a later time, if it is periodic. *)
Lemma requeue_ok ut s t v x : wf now ut s -> gd_systimer_inprog s = Some t -> idle s t v -> time v = u32 x -> now - 2 ^ 30 < x <= now ->
  exists s' ut', requeue fromhz s t (u32 now) = Done s' /\ wf now ut' s' /\ same_env s s' /\ calls s' = calls s /\
    (forall i, i ∈ gd_systimerq s -> i ∈ gd_systimerq s' /\ ut' i = ut i) /\ (forall i, i ∈ gd_systimerq s' -> i ∈ gd_systimerq s /\ ut' i = ut i \/ i = t /\ x < ut' i) /\
    exists w, timers s' = <[t := w]> (timers s) /\ rate fromhz (sys_cputimer s) w = rate fromhz (sys_cputimer s) v /\
      let r := rate fromhz (sys_cputimer s) v in if r.1 =? 0 then btest (flags w) SYSTF_ONQUEUE = false else 0 < r.1 /\ t ∈ gd_systimerq s' /\ next_event now r x (ut' t).
Proof.
  intros H Hin Hid Ht Hx. unfold requeue, get. rewrite decide_True by done. pose proof (idle_notin now ut s H t v Hid) as Hni. pose proof Hid as (E & Hon & Hipi & Hg & Hp). rewrite E, bind_Done_l. destruct (Z.eqb_spec (periodic v) 0) as [E0 | N0].
  - exists s, ut. split_and!; try done; [intros i Hi; by left |]. exists v. rewrite insert_id by done. split_and!; try done. unfold rate. cbn. rewrite E0. cbn. done.
  - cbv zeta. set (w := if Nat.eqb _ _ then v else _). destruct Hp as [Hp Hfr]. specialize (Hfr N0). assert (Hw : 0 < periodic w < 2 ^ 29 /\ time w = u32 x /\ flags w = flags v /\ gd w = gd v /\ freq w = freq v) by (unfold w; destruct (Nat.eqb _ _); split_and!; try done; try lia; by apply Hhz).
    destruct Hw as (Hpw & Htw & Hfw & Hgw & Hfrw). destruct (next_time_ok w x now Htw Hx Hpw) as (k & -> & Hk1 & Hk & Hkq & Hkn). rewrite bind_Done_l. set (y := x + k * periodic w) in *. set (s1 := store s t _).
    assert (Hid1 : idle s1 t (set_time w (u32 y))) by (eapply idle_store; [exact Hid | done | done | split; cbn; lia]). assert (H1 : wf now ut s1) by (eapply wf_store; [done | exact Hid | cbn; by rewrite Hfw]).
    destruct (systimer_add_ok now ut s1 t _ y H1 Hid1 eq_refl ltac:(lia)) as (s' & Ea & Hwf' & Eq & Hs & _ & _). exists s', (put ut t y). split; [done |]. split; [done |]. destruct Hs as (S1 & S2 & S3 & S4 & S5). split; [done |]. split; [done |]. rewrite Eq. split; [| split].
    + intros i Hi. rewrite insert_elem. split; [by right |]. apply put_ne. by intros ->.
    + intros i [-> | Hi]%insert_elem; [right; rewrite put_eq; split; [done | lia] | left]. split; [done |]. apply put_ne. by intros ->.
    + assert (Ew : rate fromhz (sys_cputimer s) w = rate fromhz (sys_cputimer s) v /\ (rate fromhz (sys_cputimer s) v).1 = periodic w).
      { unfold rate, w. cbn. rewrite (proj2 (Z.eqb_neq _ _) N0). destruct (Nat.eqb (which v) _) eqn:Ewh; [by rewrite (proj2 (Z.eqb_neq _ _) N0), Ewh |]. cbn. rewrite Nat.eqb_refl. destruct (Z.eqb_spec (fromhz (sys_cputimer s) (freq v)) 0) as [E0 |]; [| done]. specialize (Hhz (sys_cputimer s) (freq v) Hfr). lia. }
      destruct Ew as [Ew Ep]. destruct (systimer_add_timers s1 t _ s' Ea (proj1 Hid1)) as (u & Eu & Hu). exists u. rewrite Eu. cbn [timers s1 store]. rewrite insert_insert_eq. split; [done |]. rewrite Hu. split; [by rewrite <- Ew |]. cbv zeta. rewrite Ep. destruct (Z.eqb_spec (periodic w) 0); [lia |]. rewrite put_eq. rewrite insert_elem.
      split_and!; [lia | by left |]. exists k. rewrite Ep. cbn [rate snd]. rewrite <- Hfw. split_and!; try done. intros Hnq. destruct (Hkn Hnq) as [Hk2 Hk3]. split; [done |]. destruct Hk3; [by left | right]. unfold y. lia.
Qed.

(** The first timer is due: one turn of the loop. *)
Lemma turn_ok ut s t q : wf now ut s -> gd_systimerq s = t :: q -> ut t <= now -> exists s' ut' v s1,
  get s t = Done v /\ time v = u32 (ut t) /\ dequeue s t v = Done s1 /\
  (s2 ← func t (record_call (set_inprog s1 (Some t)) t (time v)); requeue fromhz s2 t (u32 now)) = Done s' /\ wf now ut' s' /\ same_env s s' /\ calls s' = calls s ++ [(t, u32 (ut t))] /\
  (forall i, i ∈ q -> ut i <= now -> i ∈ gd_systimerq s' /\ ut' i = ut i) /\ (forall i, i ∈ gd_systimerq s' -> ut' i <= now -> i ∈ q /\ ut' i = ut i \/ i = t /\ ut t < ut' i) /\
  (forall i, leaves_alone func i -> i <> t -> timers s' !! i = timers s !! i) /\
  (leaves_alone func t -> exists w, timers s' !! t = Some w /\ rate fromhz (sys_cputimer s) w = rate fromhz (sys_cputimer s) v /\
    let r := rate fromhz (sys_cputimer s) v in if r.1 =? 0 then btest (flags w) SYSTF_ONQUEUE = false else 0 < r.1 /\ t ∈ gd_systimerq s' /\ next_event now r (ut t) (ut' t)).
Proof.
  intros H Eq Hdue. assert (Hin : t ∈ gd_systimerq s) by (rewrite Eq; by left). destruct (wf_on _ _ _ H t Hin) as (v & E & _ & _ & _ & _ & _ & Ht). pose proof (wf_near _ _ _ H t Hin) as Hnear.
  destruct (systimer_dequeue_ok now ut s t v H Hin E) as (s1 & Ed & H1 & (C1 & C2 & C3 & C4 & C5) & Hid & Eq1 & Hip & _). rewrite Eq in Eq1. cbn in Eq1. rewrite Nat.eqb_refl in Eq1.
  set (s2 := record_call (set_inprog s1 (Some t)) t (time v)). assert (H2 : wf now ut s2) by (by eapply wf_ext; [| | | | exact H1]). destruct (timer_func t ut s2 _ H2 Hid eq_refl) as (s3 & ut3 & Ef & H3 & Env & Ec & K1 & K2 & Kp).
  assert (Ec3 : calls s3 = calls s ++ [(t, u32 (ut t))]) by (rewrite Ec; cbn; by rewrite C5, Ht). change (gd_systimerq s2) with (gd_systimerq s1) in *. rewrite Eq1 in K1, K2.
  assert (Et2 : timers s2 = <[t := set_flags v (Z.ldiff (flags v) SYSTF_ONQUEUE)]> (timers s)) by (unfold dequeue in Ed; destruct (decide _); [by injection Ed as <- | done]).
  assert (Ea : forall i, leaves_alone func i -> i <> t -> timers s3 !! i = timers s !! i) by (intros i Hi Hne; destruct (Hi t s2 s3 Ef) as [-> _]; by rewrite Et2, lookup_insert_ne).
  assert (Env3 : same_env s s3) by (eapply same_env_trans; [by apply (same_cpu_env s s1) | exact Env]). destruct Kp as [Kp | (Kp & v' & Hid' & Ht')].
  - exists s3, ut3, v, s1. split; [unfold get; by rewrite E |]. split; [done |]. split; [done |]. fold s2. rewrite Ef, bind_Done_l. unfold requeue. rewrite decide_False by (by rewrite Kp). split; [done |]. split; [done |]. split; [done |]. split; [done |]. split; [done |]. split; [intros i Hi Hle; left; by apply K2 |]. split; [done |]. intros Hl. destruct (Hl t s2 s3 Ef) as [_ Hl']. by rewrite Hl' in Kp.
  - cbn in Ht'. rewrite Ht in Ht'. destruct (requeue_ok ut3 s3 t v' (ut t) H3 Kp Hid' Ht' ltac:(lia)) as (s4 & ut4 & E4 & H4 & Env4 & Ec4 & L1 & L2 & w & Ew & Er & Hr). exists s4, ut4, v, s1. split; [unfold get; by rewrite E |]. split; [done |]. split; [done |]. fold s2. rewrite Ef, bind_Done_l, E4.
    split; [done |]. split; [done |]. split; [by eapply same_env_trans |]. split; [congruence |]. split; [| split; [| split]].
    + intros i Hi Hle. destruct (K1 i Hi Hle) as [K3 K4]. destruct (L1 i K3) as [L3 L4]. split; [done | congruence].
    + intros i Hi Hle. destruct (L2 i Hi) as [[L3 L4] | L3]; [| by right]. left. destruct (K2 i L3 ltac:(lia)) as [K3 K4]. split; [done | congruence].
    + intros i Hi Hne. rewrite Ew, lookup_insert_ne by done. by apply Ea.
    + intros Hl. exists w. rewrite Ew, lookup_insert_eq. split; [done |]. destruct Env3 as (_ & _ & Es). rewrite Es in Er, Hr. destruct (Hl t s2 s3 Ef) as [Hv _]. rewrite Et2, lookup_insert_eq, (proj1 Hid') in Hv. injection Hv as ->.
      assert (Ed2 : rate fromhz (sys_cputimer s) (set_flags v (Z.ldiff (flags v) SYSTF_ONQUEUE)) = rate fromhz (sys_cputimer s) v) by (apply rate_ext; [| done..]; cbn; by rewrite btest_ldiff_disjoint). rewrite Ed2 in Er, Hr. split; [by rewrite Er | done].
Qed.

(** *** Termination *)

Lemma sum_le (f g : nat -> nat) l m : NoDup l -> (forall i, i ∈ l -> i ∈ m /\ (f i <= g i)%nat) -> (sum_list_with f l <= sum_list_with g m)%nat.
Proof.
  intros ND. revert m. induction ND as [| i l Hi _ IH]; intros m H; cbn; [lia |]. destruct (H i) as [Hm Hfg]; [by left |]. apply list_elem_of_split in Hm as (m1 & m2 & ->).
  specialize (IH (m1 ++ m2)). rewrite !sum_list_with_app in *. cbn. assert (sum_list_with f l <= sum_list_with g m1 + sum_list_with g m2)%nat; [| lia]. apply IH. intros j Hj. destruct (H j) as [H1 H2]; [by right |]. split; [| done]. set_solver.
Qed.

(** How far the timers that are due are behind. *)
Definition behind (ut : nat -> Z) (q : list nat) : nat := sum_list_with (fun i => Z.to_nat (now - ut i + 1)) (filter (fun i => ut i <= now) q).

Lemma behind_less ut ut' t q q' : t ∉ q -> NoDup q -> NoDup q' -> ut t <= now -> (forall i, i ∈ q' -> ut' i <= now -> i ∈ q /\ ut' i = ut i \/ i = t /\ ut t < ut' i) -> (behind ut' q' < behind ut (t :: q))%nat.
Proof.
  intros Ht NDq ND Hdue H. unfold behind. rewrite (filter_cons_True _ t q) by done. set (f := fun i => Z.to_nat (now - ut i + 1)). set (D := filter _ q). set (g := fun i => if Nat.eqb i t then (f t - 1)%nat else f i).
  assert (H1 : (sum_list_with g D <= sum_list_with f D)%nat) by (apply sum_le; [by apply NoDup_filter |]; intros i Hi; split; [done |]; unfold g; destruct (Nat.eqb_spec i t) as [-> |]; lia).
  assert (H2 : (sum_list_with (fun i => Z.to_nat (now - ut' i + 1)) (filter (fun i => (ut' i <= now)%Z) q') <= sum_list_with g (t :: D))%nat).
  { apply sum_le; [by apply NoDup_filter |]. intros i [Hle Hi]%list_elem_of_filter. unfold g. destruct (H i Hi Hle) as [[Hq Hu] | [-> Hu]].
    - rewrite (proj2 (Nat.eqb_neq i t)) by (by intros ->). split; [right; apply list_elem_of_filter; split; [lia | done] |]. unfold f. by rewrite Hu.
    - rewrite Nat.eqb_refl. split; [by left |]. unfold f. lia. }
  cbn in H2 |- *. assert (Eg : g t = (f t - 1)%nat) by (unfold g; by rewrite Nat.eqb_refl). assert (0 < f t)%nat by (unfold f; lia). rewrite Eg in H2. lia.
Qed.

(** ** The loop *)

(** The calls that an interrupt has made: the number of a timer and its time. *)
Definition events (L : list (nat * Z)) : list (nat * Z) := (fun e => (e.1, u32 e.2)) <$> L.

Record served (ut : nat -> Z) (s : state) (ut' : nat -> Z) (s' : state) (L : list (nat * Z)) : Prop := {
  srv_wf : wf now ut' s';
  srv_env : same_env s s';
  srv_calls : calls s' = calls s ++ events L;
  srv_later i : i ∈ gd_systimerq s' -> now < ut' i;
  srv_reload i : head (gd_systimerq s') = Some i -> reload s' = Some (ut' i - now);
  srv_sorted : StronglySorted (fun a b => a.2 <= b.2) L;
  srv_due e : e ∈ L -> e.2 <= now;
  srv_from b : (forall i, i ∈ gd_systimerq s -> b <= ut i) -> b <= now -> forall e, e ∈ L -> b <= e.2;
  srv_all i : i ∈ gd_systimerq s -> ut i <= now -> (i, ut i) ∈ L;
  srv_owner e : e ∈ L -> e.1 ∈ gd_systimerq s /\ ut e.1 <= e.2;
  srv_once : NoDup L;
  srv_off i v : leaves_alone func i -> timers s !! i = Some v -> btest (flags v) SYSTF_ONQUEUE = false -> i ∉ gd_systimerq s';
  srv_kept i v : leaves_alone func i -> timers s !! i = Some v -> i ∈ gd_systimerq s -> exists l z, rounds now (rate fromhz (sys_cputimer s) v) (ut i) l z /\ (filter (fun e => e.1 = i) L).*2 = l /\
    match z with Some y => i ∈ gd_systimerq s' /\ ut' i = y | None => i ∉ gd_systimerq s' end
}.

(** A timer that is not in the queue. *)
Lemma off_queue ut s i v : wf now ut s -> timers s !! i = Some v -> btest (flags v) SYSTF_ONQUEUE = false -> i ∉ gd_systimerq s.
Proof. intros H E Hf (w & Ew & Hw & _)%(wf_on _ _ _ H). congruence. Qed.

(** Nothing is due: the queue stays as it is. *)
Lemma served_none ut s s' : wf now ut s' -> same_env s s' -> calls s' = calls s -> gd_systimerq s' = gd_systimerq s -> timers s' = timers s -> (forall i, i ∈ gd_systimerq s' -> now < ut i) -> (forall i, head (gd_systimerq s') = Some i -> reload s' = Some (ut i - now)) -> served ut s ut s' [].
Proof.
  intros H Env Ec Eq Et Hl Hr. constructor; try done; [by rewrite app_nil_r | constructor | by intros e He%elem_of_nil | by intros b _ _ e He%elem_of_nil | | by intros e He%elem_of_nil | constructor | |].
  - intros i Hi Hle. rewrite <- Eq in Hi. specialize (Hl i Hi). lia.
  - intros i v _ E Hf. rewrite <- Et in E. by eapply off_queue.
  - intros i v _ _ Hi. rewrite <- Eq in Hi. exists [], (Some (ut i)). split_and!; [constructor; by apply Hl | done | done | done].
Qed.

(** One turn, and the turns after it. *)
Lemma served_turn ut s t q v ut1 s1 ut' s' L : wf now ut s -> gd_systimerq s = t :: q -> (forall i, i ∈ q -> ut t <= ut i) -> ut t <= now -> timers s !! t = Some v ->
  wf now ut1 s1 -> same_env s s1 -> calls s1 = calls s ++ [(t, u32 (ut t))] ->
  (forall i, i ∈ q -> ut i <= now -> i ∈ gd_systimerq s1 /\ ut1 i = ut i) -> (forall i, i ∈ gd_systimerq s1 -> ut1 i <= now -> i ∈ q /\ ut1 i = ut i \/ i = t /\ ut t < ut1 i) ->
  (forall i, leaves_alone func i -> i <> t -> timers s1 !! i = timers s !! i) ->
  (leaves_alone func t -> exists w, timers s1 !! t = Some w /\ rate fromhz (sys_cputimer s) w = rate fromhz (sys_cputimer s) v /\
    let r := rate fromhz (sys_cputimer s) v in if r.1 =? 0 then btest (flags w) SYSTF_ONQUEUE = false else 0 < r.1 /\ t ∈ gd_systimerq s1 /\ next_event now r (ut t) (ut1 t)) ->
  served ut1 s1 ut' s' L -> served ut s ut' s' ((t, ut t) :: L).
Proof.
  intros H Eq Hfirst Hdue Ev H1 Env Ec K1 K2 K3 K4 [S1 S2 S3 S4 S5 S6 S7 S8 S9 S10 S11 S12 S13]. assert (Hin : t ∈ gd_systimerq s) by (rewrite Eq; by left). pose proof (wf_nodup _ _ _ H) as ND. rewrite Eq in ND. apply NoDup_cons in ND as [Hnt _].
  assert (Hlow : forall i, i ∈ gd_systimerq s1 -> ut t <= ut1 i) by (intros i Hi; destruct (Z.le_gt_cases (ut1 i) now) as [Hle |]; [| lia]; destruct (K2 i Hi Hle) as [[Hq Hu] | [-> Hu]]; [rewrite Hu; by apply Hfirst | lia]).
  assert (Hown : forall e, e ∈ L -> e.1 ∈ q /\ ut1 e.1 = ut e.1 \/ e.1 = t /\ ut t < ut1 e.1) by (intros e He; destruct (S10 e He) as [Ho1 Ho2]; apply K2; [done |]; specialize (S7 e He); lia).
  pose proof Env as (Em & _ & Ecp). constructor; try done.
  - by eapply same_env_trans.
  - rewrite S3. cbn. by rewrite Ec, <- app_assoc.
  - constructor; [done |]. apply Forall_forall. intros e He. cbn. by eapply S8.
  - intros e [-> | He]%elem_of_cons; [done | by apply S7].
  - intros b Hb' Hbn e [-> | He]%elem_of_cons; [by apply Hb' |]. specialize (Hb' t Hin). specialize (S8 (ut t) Hlow Hdue e He). lia.
  - intros i Hi Hle. rewrite Eq in Hi. apply elem_of_cons in Hi as [-> | Hi]; [by left |]. right. destruct (K1 i Hi Hle) as [K5 K6]. rewrite <- K6. apply S9; [done | lia].
  - intros e [-> | He]%elem_of_cons; [done |]. destruct (S10 e He) as [_ Ho]. rewrite Eq. destruct (Hown e He) as [[? ?] | [Ee ?]]; (split; [| try rewrite Ee in *; lia]); [by right | rewrite Ee; by left].
  - apply NoDup_cons. split; [| done]. intros Ht. destruct (S10 _ Ht) as [_ Ho]. destruct (Hown _ Ht) as [[? ?] | [_ ?]]; cbn in *; [done | lia].
  - intros i w Hl Ew Hf. assert (i <> t) by (intros ->; by apply (off_queue ut s t w)). apply (S12 i w); [done | by rewrite K3 | done].
  - intros i w Hl Ew Hi. destruct (decide (i = t)) as [-> | Hne].
    + rewrite Ev in Ew. injection Ew as <-. destruct (K4 Hl) as (w & Ew & Er & Hr). cbv zeta in Hr. rewrite filter_cons_True by done. cbn [fmap list_fmap]. destruct (Z.eqb_spec (rate fromhz (sys_cputimer s) v).1 0) as [E0 | N0].
      * exists [ut t], None. split; [by constructor |]. assert (Hoff : t ∉ gd_systimerq s1) by (by eapply off_queue). split; [| by eapply S12]. destruct (filter _ L) as [| e l] eqn:El; [done |]. assert (He : e ∈ filter (fun e => e.1 = t) L) by (rewrite El; by left). apply list_elem_of_filter in He as [Ee He]. destruct (S10 e He) as [Ho _]. by rewrite Ee in Ho.
      * destruct Hr as (Hp & Hq & Hn). destruct (S13 t w Hl Ew Hq) as (l & z & R & El & Hz). rewrite Ecp, Er in R. exists (ut t :: l), z. split; [by eapply rounds_again |]. split; [by rewrite El | done].
    + assert (Ei : timers s1 !! i = timers s !! i) by (by apply K3). destruct (same_place now ut ut1 s s1 i H H1 Em Ei Hi) as [Hi1 Eu]. rewrite <- Ei in Ew. destruct (S13 i w Hl Ew Hi1) as (l & z & R & El & Hz). rewrite Ecp, Eu in R. exists l, z. split; [done |]. split; [| done]. by rewrite filter_cons_False by (by intros [= ->]).
Qed.

Lemma intr_loop_ok n ut s : (behind ut (gd_systimerq s) < n)%nat -> wf now ut s ->
  exists s' ut' L, (forall fuel, (n <= fuel)%nat -> intr_loop fromhz func fuel s (u32 now) = Done s') /\ served ut s ut' s' L.
Proof.
  revert ut s. induction n as [| n IH]; intros ut s Hn H; [lia |]. destruct (gd_systimerq s) as [| t q] eqn:Eq.
  - exists s, ut, []. split; [intros [| fuel] Hf; [lia |]; cbn; by rewrite Eq |]. apply served_none; try done; rewrite Eq; [by intros i Hi%elem_of_nil | done].
  - assert (Hin : t ∈ gd_systimerq s) by (rewrite Eq; by left). destruct (queue_get now ut s H t Hin) as (v & Ev & Ht). pose proof (wf_near _ _ _ H t Hin) as Hnear. pose proof (wf_sorted _ _ _ H) as HS. rewrite Eq in HS. inversion HS as [| ? ? _ Hfirst]; subst. rewrite Forall_forall in Hfirst.
    destruct (Z.le_gt_cases (ut t) now) as [Hdue | Hlater].
    + destruct (turn_ok ut s t q H Eq Hdue) as (s1 & ut1 & v' & s0 & Ev' & Ht' & Ed & E1 & H1 & Env & Ec & K1 & K2 & K3 & K4). rewrite Ev in Ev'. injection Ev' as <-. assert (Ev0 : timers s !! t = Some v) by (unfold get in Ev; destruct (timers s !! t); [by injection Ev as -> | done]). pose proof (wf_nodup _ _ _ H) as ND. rewrite Eq in ND. apply NoDup_cons in ND as [Hnt NDq].
      set (s2 := set_inprog s1 None). assert (H2 : wf now ut1 s2) by (by eapply wf_ext; [| | | | exact H1]). pose proof (behind_less ut ut1 t q (gd_systimerq s2) Hnt NDq (wf_nodup _ _ _ H2) Hdue K2) as Hb.
      destruct (IH ut1 s2 ltac:(lia) H2) as (s' & ut' & L & Er & Hs). exists s', ut', ((t, ut t) :: L). split.
      * intros [| fuel] Hf; [lia |]. cbn [intr_loop]. rewrite Eq. cbn [head]. rewrite Ev, bind_Done_l, Ht, (queue_near now ut s H t now Hin ltac:(lia)). destruct (Z.gtb_spec (ut t - now) 0); [lia |].
        rewrite Ed, bind_Done_l. rewrite Ht in E1. destruct (func t _) as [sf | f]; [| done]. rewrite bind_Done_l in E1 |- *. rewrite E1, bind_Done_l. apply Er. lia.
      * eapply (served_turn ut s t q v ut1 s2); try done.
    + exists (cputimer_intr_reload s (ut t - now)), ut, []. split.
      * intros [| fuel] Hf; [lia |]. cbn [intr_loop]. rewrite Eq. cbn [head]. rewrite Ev, bind_Done_l, Ht, (queue_near now ut s H t now Hin ltac:(lia)). destruct (Z.gtb_spec (ut t - now) 0); [| lia]. rewrite u32_seq_sub, u32_id by (unfold_int; lia). done.
      * apply served_none; try done; [by eapply wf_ext; [| | | | exact H] | | by cbn; rewrite Eq; intros i [= <-]]. cbn. rewrite Eq. intros i [-> | Hi]%elem_of_cons; [lia |]. specialize (Hfirst i Hi). lia.
Qed.
End Intr.

(** ** The theorems *)

(** C33: the queue is in the order of the times.  systimer_add, which looks for the place from both ends, inserts the timer behind all timers that are not later, as the search from the front does, across the wrap-around of the counter; it programs the hardware exactly when the timer becomes the first one, for the time that is left; the timer of another cpu is sent there, once, and the queue is left alone. *)
Theorem systimer_add_sorted now ut s t v x : wf now ut s -> timers s !! t = Some v -> btest (flags v) SYSTF_ONQUEUE = false -> btest (flags v) SYSTF_IPIRUNNING = false ->
  period_ok v -> time v = u32 x -> now - 2 ^ 30 < x < now + 2 ^ 30 ->
  exists s', systimer_add s t = Done s' /\
    if Nat.eqb (gd v) (mycpu s)
    then wf now (put ut t x) s' /\ gd_systimerq s' = insert_sorted ut t x (gd_systimerq s) /\ ipiq s' = ipiq s /\
         reload s' = if decide (head (gd_systimerq s') = Some t) then Some (u32 (x - count s)) else reload s
    else wf now ut s' /\ gd_systimerq s' = gd_systimerq s /\ ipiq s' = ipiq s ++ [(gd v, t)] /\ reload s' = reload s.
Proof.
  intros H E Hon Hipi Hp Ht Hx. destruct (Nat.eqb_spec (gd v) (mycpu s)) as [Hg | Hg].
  - destruct (systimer_add_ok now ut s t v x H ltac:(by split_and!; try done; lia) Ht Hx) as (s' & Es & Hw & Eq & _ & _ & Ei & Er). exists s'. split; [done |]. split_and!; try done. by rewrite Eq.
  - unfold systimer_add, get. rewrite E, bind_Done_l, Hon. cbn [negb KKASSERT]. rewrite bind_Done_l, (proj2 (Nat.eqb_neq _ _) Hg), Hipi. cbn [negb KKASSERT]. rewrite bind_Done_l. eexists. split; [done |]. split; [| done].
    eapply (wf_ext _ _ (store s t (set_flags v (Z.lor (flags v) SYSTF_IPIRUNNING)))); try done. by apply (wf_elsewhere now ut s t v).
Qed.

(** C15: an interrupt serves exactly the timers that are due, and starts the periodic ones again.  If the functions of the timers do to the queue only what they may (TimerFunc) and a period is less than 2^29 counts, systimer_intr ends after finitely many calls of functions.  The calls are in the order of their times, each is made once, for a time that is not later than the present, and for a timer that was in the queue; every timer that was due is called for its time.  A timer that the functions leave alone is called for each of its times up to the present and for no other (if its events are not queued, once, and the present is not one of its times), and is then in the queue for the first of its times that is later, if it is periodic, and out of the queue if it is not.  What is left in the queue is due later, in order; the hardware is programmed for the time until the first of them; and the nesting count is as before. *)
Theorem systimer_intr_correct now fromhz func ut s : TimerFunc now func -> (forall w f, 0 < f -> 0 < fromhz w f < 2 ^ 29) -> wf now ut s -> gd_syst_nest s = 0 ->
  exists n s' ut' L, (forall fuel, (n <= fuel)%nat -> systimer_intr fromhz func fuel s (u32 now) = Done s') /\ wf now ut' s' /\ same_env s s' /\
    calls s' = calls s ++ events L /\ NoDup L /\ StronglySorted (fun a b => a.2 <= b.2) L /\
    (forall e, e ∈ L -> e.2 <= now /\ e.1 ∈ gd_systimerq s /\ ut e.1 <= e.2) /\ (forall i, i ∈ gd_systimerq s -> ut i <= now -> (i, ut i) ∈ L) /\
    (forall i v, leaves_alone func i -> timers s !! i = Some v -> i ∈ gd_systimerq s -> punctual fromhz now (ut i) (sys_cputimer s) v ->
       exists l z, rounds now (rate fromhz (sys_cputimer s) v) (ut i) l z /\ (filter (fun e => e.1 = i) L).*2 = l /\
         match z with Some y => i ∈ gd_systimerq s' /\ ut' i = y | None => i ∉ gd_systimerq s' end) /\
    (forall i, i ∈ gd_systimerq s' -> now < ut' i) /\ (forall i, head (gd_systimerq s') = Some i -> reload s' = Some (ut' i - now)).
Proof.
  intros HF Hhz H Hn. assert (H1 : wf now ut (set_nest s (gd_syst_nest s + 1))) by (by eapply wf_ext; [| | | | exact H]).
  destruct (intr_loop_ok now fromhz func Hhz (S (behind now ut (gd_systimerq s))) ut (set_nest s (gd_syst_nest s + 1)) (Nat.lt_succ_diag_r _) H1) as (s' & ut' & L & Er & [S1 S2 S3 S4 S5 S6 S7 S8 S9 S10 S11 S12 S13]).
  exists (S (behind now ut (gd_systimerq s))), (set_nest s' (gd_syst_nest s' - 1)), ut', L. split_and!; try done.
  - intros fuel Hf. unfold systimer_intr. rewrite Hn. cbn [negb Z.eqb]. rewrite Hn in Er. by rewrite (Er fuel Hf), bind_Done_l.
  - by eapply wf_ext; [| | | | exact S1].
  - destruct S2 as (E1 & E2 & E3). split_and!; cbn in *; [done | lia | done].
  - intros e He. split; [by apply S7 | by apply S10].
  - intros i v Hl Hv Hi _. by apply S13.
Qed.

(** A timer whose events are not queued is called once, however late the interrupt is. *)
Lemma rounds_nonqueued now r x l z : rounds now r x l z -> r.2 = true -> (now - x) mod r.1 <> 0 -> x <= now -> l = [x].
Proof.
  intros H Hr Hm Hx. inversion H as [| | ? y l' ? _ Hp (k & -> & Hk & _ & Hn) H']; subst; [lia | done |]. destruct (Hn Hr) as [Hy _]. assert (x + k * r.1 <> now) by (intros E; apply Hm; replace (now - x) with (k * r.1) by lia; apply Z.mod_mul; lia).
  inversion H'; subst; [done | lia | lia].
Qed.

(** A periodic timer that is left alone is never lost. *)
Lemma rounds_periodic now r x l z : rounds now r x l z -> 0 < r.1 -> exists y, z = Some y /\ now < y.
Proof. induction 1; intros Hr; [eauto | lia | auto]. Qed.

(** A periodic timer keeps its phase.  The time for which a timer is added again is a whole number of periods after the last one: one period, or for a timer whose events are not queued the least number of periods, at least one, that reaches the present; the arithmetic modulo 2^32 is exact. *)
Theorem systimer_keeps_phase v x now : time v = u32 x -> now - 2 ^ 30 < x <= now -> 0 < periodic v < 2 ^ 29 ->
  exists k, next_time v (u32 now) = Done (u32 (x + k * periodic v)) /\ 1 <= k /\
    (btest (flags v) SYSTF_NONQUEUED = false -> k = 1) /\
    (btest (flags v) SYSTF_NONQUEUED = true -> now <= x + k * periodic v /\ (k = 1 \/ x + (k - 1) * periodic v < now)).
Proof. intros Ht Hx Hp. destruct (next_time_ok v x now Ht Hx Hp) as (k & E & H1 & _ & H2 & H3). by exists k. Qed.

(** ** Functions that start their timer again *)

(** The function of a timer that is deleted and started again as one shot, after [us t]. *)
Definition rearm (fromus : nat -> Z -> Z) (us : nat -> option Z) (t : nat) (s : state) : outcome state :=
  match us t with
  | None => mret s
  | Some u => s ← systimer_del s t; systimer_init_oneshot fromus s t u
  end.

Lemma rearm_func now fromus us : (forall w t u, us t = Some u -> 0 < fromus w u < 2 ^ 29) -> TimerFunc now (rearm fromus us).
Proof.
  intros Hus t ut s v H Hid Hip. unfold rearm. pose proof (idle_notin now ut s H t v Hid) as Hni. pose proof Hid as (E & Hon & Hipi & Hg & Hp). destruct (us t) as [u |] eqn:Eu.
  - unfold systimer_del, get. rewrite E, bind_Done_l, Hg, Nat.eqb_refl, Hipi. cbn [negb andb KKASSERT]. rewrite bind_Done_l, Hon, bind_Done_l, decide_True by done. rewrite bind_Done_l. unfold systimer_init_oneshot. destruct (wf_count _ _ _ H) as (c & Ec & Hc). cbn [count set_inprog sys_cputimer mycpu].
    specialize (Hus (sys_cputimer s) t u Eu). set (x := c + fromus (sys_cputimer s) u). rewrite Ec, u32_seq_add. fold x. set (w := Systimer _ _ _ _ _ _ _). set (s1 := store _ _ _).
    assert (Hid1 : idle s1 t w) by (split; [cbn; by rewrite lookup_insert_eq | split_and!; try done; cbn; lia]). assert (H1 : wf now ut s1) by (eapply wf_store; [by eapply wf_ext; [| | | | exact H] | exact Hid | done]).
    destruct (systimer_add_ok now ut s1 t w x H1 Hid1 eq_refl ltac:(lia)) as (s' & -> & Hwf' & Eq & (S1 & S2 & S3 & S4 & S5) & Ei & _). exists s', (put ut t x). split; [done |]. split; [done |]. split; [done |]. split; [done |]. rewrite Eq. split_and!; [| | by left].
    + intros i Hi _. rewrite insert_elem. split; [by right |]. apply put_ne. by intros ->.
    + intros i [-> | Hi]%insert_elem Hle; [rewrite put_eq in Hle; lia |]. split; [done |]. apply put_ne. by intros ->.
  - exists s, ut. split_and!; try done. right. split; [done |]. by exists v.
Qed.

(** Such a function leaves the other timers alone. *)
Lemma systimer_add_others s t s' i : systimer_add s t = Done s' -> i <> t -> timers s' !! i = timers s !! i.
Proof.
  intros H Hne. destruct (timers s !! t) as [v |] eqn:E; [| unfold systimer_add, get in H; by rewrite E in H]. destruct (systimer_add_timers s t v s' H E) as (w & -> & _). by rewrite lookup_insert_ne.
Qed.

Lemma systimer_del_others s t s' i : systimer_del s t = Done s' -> i <> t -> timers s' !! i = timers s !! i.
Proof.
  unfold systimer_del, get. intros H Hne. inv_bind. assert (Et : timers s' = timers x1) by (subst s'; by destruct (decide _)). rewrite Et. destruct (btest _ SYSTF_ONQUEUE); [| by revert H2; intros [= <-]].
  unfold dequeue in H2. destruct (decide _); [| done]. revert H2. intros [= <-]. cbn. by rewrite lookup_insert_ne.
Qed.

Lemma rearm_leaves_alone fromus us t : us t = None -> leaves_alone (rearm fromus us) t.
Proof.
  intros Hus i s s' H. unfold rearm in H. destruct (us i) as [u |] eqn:Eu; [| by revert H; intros [= <-]]. split; [| intros ->; congruence]. assert (t <> i) by congruence. inv_bind. unfold systimer_init_oneshot in H.
  rewrite (systimer_add_others _ _ _ t H) by done. cbn. rewrite lookup_insert_ne by done. by apply (systimer_del_others s i).
Qed.

(** ** Runs *)

Module Runs.
(** A cpu that interrupts at the count 75, just after the counter has wrapped around.  Timer 1
    is periodic, timer 2 does not queue its events, timer 3 starts itself again. *)
Definition now0 : Z := 2 ^ 32 + 75.
Definition hz0 (_ : nat) (f : Z) : Z := cputimer_default_fromhz 1000000 f.
Definition us0 (_ : nat) (u : Z) : Z := cputimer_default_fromus 1000000 u.
Definition func0 : nat -> state -> outcome state := rearm us0 (fun t => if Nat.eqb t 3 then Some 500 else None).

Definition tm1 : systimer := Systimer None (2 ^ 32 - 50) 101 0 10000 0 0.
Definition tm2 : systimer := Systimer None (2 ^ 32 - 200) 51 SYSTF_NONQUEUED 20000 0 0.
Definition tm3 : systimer := Systimer None 20 0 0 0 0 0.
Definition tm4 : systimer := Systimer None 30 0 0 0 0 0.
Definition timers0 : gmap nat systimer := <[1%nat := tm1]> (<[2%nat := tm2]> (<[3%nat := tm3]> (<[4%nat := tm4]> ∅))).
Definition idle0 : state := State 0 [] 0 None timers0 0 80 None [] [].
Definition added (s : state) (t : nat) : state := match systimer_add s t with Done s => s | _ => s end.
Definition busy0 : state := Eval vm_compute in added (added (added idle0 1) 2) 3.
Definition ut0 : nat -> Z := put (put (put (fun _ => 0) 1 (2 ^ 32 - 50)) 2 (2 ^ 32 - 200)) 3 (2 ^ 32 + 20).

Lemma hz0_ok w f : 0 < f -> 0 < hz0 w f < 2 ^ 29.
Proof.
  intros Hf. unfold hz0, cputimer_default_fromhz. pose proof (u32_range f) as [H0 _]. assert (0 <= 1000000 / u32 f <= 1000000); [| rewrite u32_id by (unfold_int; lia); lia].
  destruct (Z.eq_dec (u32 f) 0) as [-> | Hn]; [by vm_compute |]. split; [apply Z.div_pos; lia |]. apply Z.div_le_upper_bound; lia.
Qed.

#[local] Instance func0_ok now : TimerFunc now func0.
Proof. apply rearm_func. intros w t u. destruct (Nat.eqb t 3); [| done]. intros [= <-]. by vm_compute. Qed.

Lemma wf_idle0 : wf now0 (fun _ => 0) idle0.
Proof.
  constructor; try done; cbn; [by apply NoDup_nil | by intros ? ?%elem_of_nil | | by intros ? ?%elem_of_nil | constructor | exists (2 ^ 32 + 80); by vm_compute].
  intros i v E Hf _. unfold timers0 in E. repeat (apply lookup_insert_Some in E as [[_ <-] | [_ E]]; [done |]). done.
Qed.

Lemma wf_added ut s t v x : wf now0 ut s -> idle s t v -> time v = u32 x -> now0 - 2 ^ 30 < x < now0 + 2 ^ 30 -> wf now0 (put ut t x) (added s t).
Proof. intros H1 H2 H3 H4. destruct (systimer_add_ok now0 ut s t v x H1 H2 H3 H4) as (s' & E & H5 & _). unfold added. by rewrite E. Qed.

Lemma idle_ok s t v : timers s !! t = Some v -> btest (flags v) SYSTF_ONQUEUE = false -> btest (flags v) SYSTF_IPIRUNNING = false -> gd v = mycpu s -> 0 <= periodic v < 2 ^ 29 -> (periodic v <> 0 -> 0 < freq v) -> idle s t v.
Proof. done. Qed.

Lemma wf_busy0 : wf now0 ut0 busy0.
Proof.
  change busy0 with (added (added (added idle0 1) 2) 3). unfold ut0.
  apply (wf_added _ _ 3 tm3); [apply (wf_added _ _ 2 tm2); [apply (wf_added _ _ 1 tm1); [apply wf_idle0 | ..] | ..] | ..]; try (by vm_compute); apply idle_ok; by vm_compute.
Qed.

(** Timer 2 has fallen behind by five periods and is called once, timer 1 is called for each
    of its periods, timer 3 is started again. *)
Example busy0_served : exists s, systimer_intr hz0 func0 10 busy0 (u32 now0) = Done s /\
  calls s = [(2%nat, 2 ^ 32 - 200); (1%nat, 2 ^ 32 - 50); (3%nat, 20); (1%nat, 51)] /\ gd_systimerq s = [2%nat; 1%nat; 3%nat] /\ reload s = Some 31.
Proof. eexists. vm_compute. split_and!; reflexivity. Qed.

Lemma systimer_add_sorted_witness : exists s', systimer_add busy0 4 = Done s' /\
  if Nat.eqb (gd tm4) (mycpu busy0)
  then wf now0 (put ut0 4 (2 ^ 32 + 30)) s' /\ gd_systimerq s' = insert_sorted ut0 4 (2 ^ 32 + 30) (gd_systimerq busy0) /\ ipiq s' = ipiq busy0 /\
       reload s' = if decide (head (gd_systimerq s') = Some 4%nat) then Some (u32 (2 ^ 32 + 30 - count busy0)) else reload busy0
  else wf now0 ut0 s' /\ gd_systimerq s' = gd_systimerq busy0 /\ ipiq s' = ipiq busy0 ++ [(gd tm4, 4%nat)] /\ reload s' = reload busy0.
Proof.
  assert (Hp : period_ok tm4) by (split; by vm_compute). assert (Hn : now0 - 2 ^ 30 < 2 ^ 32 + 30 < now0 + 2 ^ 30) by (by vm_compute).
  exact (systimer_add_sorted now0 ut0 busy0 4 tm4 (2 ^ 32 + 30) wf_busy0 eq_refl eq_refl eq_refl Hp eq_refl Hn).
Defined.

Lemma systimer_intr_correct_witness : leaves_alone func0 1 /\
  exists n s' ut' L, (forall fuel, (n <= fuel)%nat -> systimer_intr hz0 func0 fuel busy0 (u32 now0) = Done s') /\ wf now0 ut' s' /\ same_env busy0 s' /\
    calls s' = calls busy0 ++ events L /\ NoDup L /\ StronglySorted (fun a b => a.2 <= b.2) L /\
    (forall e, e ∈ L -> e.2 <= now0 /\ e.1 ∈ gd_systimerq busy0 /\ ut0 e.1 <= e.2) /\ (forall i, i ∈ gd_systimerq busy0 -> ut0 i <= now0 -> (i, ut0 i) ∈ L) /\
    (forall i v, leaves_alone func0 i -> timers busy0 !! i = Some v -> i ∈ gd_systimerq busy0 -> punctual hz0 now0 (ut0 i) (sys_cputimer busy0) v ->
       exists l z, rounds now0 (rate hz0 (sys_cputimer busy0) v) (ut0 i) l z /\ (filter (fun e => e.1 = i) L).*2 = l /\
         match z with Some y => i ∈ gd_systimerq s' /\ ut' i = y | None => i ∉ gd_systimerq s' end) /\
    (forall i, i ∈ gd_systimerq s' -> now0 < ut' i) /\ (forall i, head (gd_systimerq s') = Some i -> reload s' = Some (ut' i - now0)).
Proof. split; [by apply rearm_leaves_alone |]. exact (systimer_intr_correct now0 hz0 func0 ut0 busy0 (func0_ok now0) hz0_ok wf_busy0 eq_refl). Defined.

Lemma systimer_keeps_phase_witness : exists k, next_time tm2 (u32 now0) = Done (u32 (2 ^ 32 - 200 + k * periodic tm2)) /\ 1 <= k /\
  (btest (flags tm2) SYSTF_NONQUEUED = false -> k = 1) /\
  (btest (flags tm2) SYSTF_NONQUEUED = true -> now0 <= 2 ^ 32 - 200 + k * periodic tm2 /\ (k = 1 \/ 2 ^ 32 - 200 + (k - 1) * periodic tm2 < now0)).
Proof. apply (systimer_keeps_phase tm2 (2 ^ 32 - 200) now0); by vm_compute. Defined.

(** A timer that does not queue its events is two periods behind: it is called twice. *)
Example nonqueued_twice : let s := State 0 [] 0 None {[ 2%nat := Systimer None (u32 (now0 - 102)) 51 SYSTF_NONQUEUED 20000 0 0 ]} 0 80 None [] [] in
  (s ← systimer_add s 2; s ← systimer_intr hz0 func0 10 s (u32 now0); mret (calls s)) = Done [(2%nat, u32 (now0 - 102)); (2%nat, u32 now0)].
Proof. vm_compute. reflexivity. Qed.

(** A timer of another cpu is sent there, with SYSTF_IPIRUNNING set; until it has arrived it can not be sent again. *)
Example sent_once : let s := State 1 [] 0 None timers0 0 80 None [] [] in
  ipiq (added s 1) = [(0%nat, 1%nat)] /\ (s ← systimer_add s 1; systimer_add s 1) = Fault (Panic "(info->flags & SYSTF_IPIRUNNING) == 0").
Proof. by vm_compute. Qed.
End Runs.
