(* ===== verification/CrcProps.v ===== *)
(** * Checksums: results

    The reference divides bit by bit by the polynomial; the table-driven loops agree
    with it, and errors within four bytes in a row are always found. *)

From stdpp Require Import prelude list.
From S2P Require Import Prelude.
From S2P Require Import Crc.
Open Scope Z_scope.

(** ** The reference *)

(** One step of the division, with the bits of the polynomial [P] reversed. *)
Definition shift1 (P x : Z) : Z := Z.lxor (Z.shiftr x 1) (if Z.testbit x 0 then P else 0).

Fixpoint shifts (P : Z) (n : nat) (x : Z) : Z :=
  match n with O => x | S n => shifts P n (shift1 P x) end.

Fixpoint ref_crc (P crc : Z) (buf : list Z) : Z :=
  match buf with
  | [] => crc
  | b :: buf => ref_crc P (shifts P 8 (Z.lxor crc b)) buf
  end.

(** The polynomials 0x04C11DB7 and 0x1EDC6F41, reversed. *)
Definition POLY : Z := 0xedb88320.
Definition ISCSI_POLY : Z := 0x82f63b78.

(** A polynomial of degree 32. *)
Definition poly_ok (P : Z) : Prop := is_u32 P /\ Z.testbit P 31 = true.

Lemma polys_ok : poly_ok POLY /\ poly_ok ISCSI_POLY.
Proof. unfold poly_ok, is_u32, POLY, ISCSI_POLY. split; (split; [lia | reflexivity]). Qed.

(** ** The steps are linear and one to one *)

Lemma lxor_bounded n a b : 0 <= n -> 0 <= a < 2 ^ n -> 0 <= b < 2 ^ n -> 0 <= Z.lxor a b < 2 ^ n.
Proof.
  intros Hn Ha Hb. assert (0 <= Z.lxor a b) by (apply Z.lxor_nonneg; lia).
  split; [done |]. apply bits_bounded; try done. intros i Hi. rewrite Z.lxor_spec, !(bits_above n) by lia. done.
Qed.

Section Poly.
Context (P : Z) (HP : poly_ok P).

Lemma shift1_lxor x y : shift1 P (Z.lxor x y) = Z.lxor (shift1 P x) (shift1 P y).
Proof.
  unfold shift1. rewrite Z.shiftr_lxor, Z.lxor_spec. apply Z.bits_inj'. intros i Hi. rewrite !Z.lxor_spec.
  destruct (Z.testbit x 0), (Z.testbit y 0); cbn [xorb]; rewrite ?Z.bits_0; by repeat match goal with |- context [Z.testbit ?a i] => destruct (Z.testbit a i) end.
Qed.

Lemma shifts_lxor n : forall x y, shifts P n (Z.lxor x y) = Z.lxor (shifts P n x) (shifts P n y).
Proof. induction n as [| n IH]; intros x y; [done |]. cbn [shifts]. by rewrite shift1_lxor, IH. Qed.

Lemma shifts_add n m : forall x, shifts P (n + m) x = shifts P m (shifts P n x).
Proof. induction n as [| n IH]; intros x; [done |]. cbn [shifts Nat.add]. by rewrite IH. Qed.

(** Bits that do not reach the low end just move. *)
Lemma shifts_shiftl n : forall x, shifts P n (Z.shiftl x (Z.of_nat n)) = x.
Proof.
  induction n as [| n IH]; intros x; [apply Z.shiftl_0_r |]. cbn [shifts]. rewrite <- IH. f_equal. unfold shift1.
  rewrite Z.shiftl_spec_low, Z.lxor_0_r, Z.shiftr_shiftl_l by lia. f_equal. lia.
Qed.

Lemma shift1_u32 x : is_u32 x -> is_u32 (shift1 P x).
Proof.
  intros Hx. destruct HP as [H _]. apply (lxor_bounded 32); [lia | by apply shiftr_bounded | destruct (Z.testbit x 0); unfold is_u32 in *; lia].
Qed.

Lemma shifts_u32 n : forall x, is_u32 x -> is_u32 (shifts P n x).
Proof. induction n as [| n IH]; intros x Hx; [done |]. by apply IH, shift1_u32. Qed.

Lemma shift1_zero x : is_u32 x -> shift1 P x = 0 -> x = 0.
Proof.
  intros Hx E. unfold shift1 in E. apply Z.lxor_eq in E. destruct HP as [_ H31]. destruct (Z.testbit x 0) eqn:E0.
  - rewrite <- E, Z.shiftr_spec, (bits_above 32) in H31 by (done || lia). done.
  - apply Z.bits_inj'. intros i Hi. rewrite Z.bits_0. destruct (Z.eq_dec i 0) as [-> |]; [done |].
    apply (f_equal (fun z => Z.testbit z (i - 1))) in E. rewrite Z.shiftr_spec, Z.bits_0 in E by lia. by replace (i - 1 + 1) with i in E by lia.
Qed.

Lemma shifts_inj n : forall x y, is_u32 x -> is_u32 y -> shifts P n x = shifts P n y -> x = y.
Proof.
  induction n as [| n IH]; intros x y Hx Hy E; [done |]. cbn [shifts] in E. apply IH in E; [| by apply shift1_u32 ..].
  apply Z.lxor_eq, shift1_zero; [by apply (lxor_bounded 32) |]. rewrite shift1_lxor, E. apply Z.lxor_nilpotent.
Qed.

(** ** The table *)

Definition table_ok (tab : list Z) : Prop :=
  length tab = 256%nat /\ forall i, 0 <= i < 256 -> tab !! Z.to_nat i = Some (shifts P 8 i).

Lemma crc_loop_ok tab buf : table_ok tab -> forall crc, is_u32 crc -> Forall is_u8 buf ->
  crc_loop tab crc buf = Done (ref_crc P crc buf) /\ is_u32 (ref_crc P crc buf).
Proof.
  intros [_ Htab]. induction buf as [| b buf IH]; intros crc Hc Hb; [done |]. apply Forall_cons in Hb as [Hb Hbuf]. cbn [crc_loop ref_crc].
  set (w := Z.lxor crc b). assert (is_u32 w) as Hw by (apply (lxor_bounded 32); unfold is_u32, is_u8 in *; lia).
  assert (0 <= Z.land w 0xff < 256) as Hlow by (apply (land_bounded_r 8); lia).
  assert (aget tab (Z.land w 0xff) = Done (shifts P 8 (Z.land w 0xff))) as -> by (apply aget_Done; split; [lia | by apply Htab]).
  rewrite bind_Done_l. assert (Z.lxor (shifts P 8 (Z.land w 255)) (Z.shiftr crc 8) = shifts P 8 w) as ->.
  { assert (Z.shiftr crc 8 = Z.shiftr w 8) as ->.
    { unfold w. rewrite Z.shiftr_lxor, (Z.shiftr_div_pow2 b), Z.div_small, Z.lxor_0_r by (unfold is_u8 in *; lia). done. }
    rewrite <- (shifts_shiftl 8 (Z.shiftr w 8)), <- shifts_lxor. f_equal. apply Z.bits_inj'. intros i Hi.
    rewrite Z.lxor_spec, Z.land_spec, Z.shiftl_spec by lia. change 255 with (Z.ones 8). change (Z.of_nat 8) with 8. rewrite Z.testbit_ones_nonneg by lia.
    destruct (Z.ltb_spec i 8).
    - rewrite (Z.testbit_neg_r _ (i - 8)) by lia. by rewrite andb_true_r, xorb_false_r.
    - rewrite andb_false_r, Z.shiftr_spec by lia. cbn [xorb]. f_equal. lia. }
  apply IH; [by apply shifts_u32 | done].
Qed.

(** ** Errors in a row *)

(** The bytes as a number, the first one lowest. *)
Fixpoint le (buf : list Z) : Z := match buf with [] => 0 | b :: buf => Z.lxor b (Z.shiftl (le buf) 8) end.

Lemma ref_crc_le buf : forall crc, ref_crc P crc buf = shifts P (8 * length buf) (Z.lxor crc (le buf)).
Proof.
  induction buf as [| b buf IH]; intros crc; [by rewrite Z.lxor_0_r |]. cbn [ref_crc le length].
  rewrite IH, Nat.mul_succ_r, Nat.add_comm, shifts_add, <- Z.lxor_assoc, (shifts_lxor 8 _ (Z.shiftl _ _)). do 2 f_equal.
  symmetry. apply (shifts_shiftl 8).
Qed.

Lemma ref_crc_app buf1 buf2 : forall crc, ref_crc P crc (buf1 ++ buf2) = ref_crc P (ref_crc P crc buf1) buf2.
Proof. induction buf1 as [| b buf1 IH]; intros crc; [done |]. apply IH. Qed.

Lemma ref_crc_u32 buf : forall crc, is_u32 crc -> Forall is_u8 buf -> is_u32 (ref_crc P crc buf).
Proof.
  induction buf as [| b buf IH]; intros crc Hc Hb; [done |]. apply Forall_cons in Hb as [Hb Hbuf]. apply IH; [| done].
  apply shifts_u32, (lxor_bounded 32); unfold is_u32, is_u8 in *; lia.
Qed.

Lemma ref_crc_inj buf : forall c d, is_u32 c -> is_u32 d -> Forall is_u8 buf -> ref_crc P c buf = ref_crc P d buf -> c = d.
Proof.
  induction buf as [| b buf IH]; intros c d Hc Hd Hb E; [done |]. apply Forall_cons in Hb as [Hb Hbuf]. cbn [ref_crc] in E.
  assert (forall x, is_u32 x -> is_u32 (Z.lxor x b)) as Hx by (intros; apply (lxor_bounded 32); unfold is_u32, is_u8 in *; lia).
  apply IH in E; [| by apply shifts_u32, Hx .. | done]. apply shifts_inj in E; [| by apply Hx ..].
  apply (f_equal (fun z => Z.lxor z b)) in E. by rewrite !Z.lxor_assoc, Z.lxor_nilpotent, !Z.lxor_0_r in E.
Qed.

Lemma le_bounded buf : Forall is_u8 buf -> 0 <= le buf < 2 ^ (8 * zlen buf).
Proof.
  induction 1 as [| b buf Hb _ IH]; [done |]. cbn [le]. rewrite zlen_cons, Z.mul_add_distr_l. pose proof (zlen_nonneg buf).
  apply lxor_bounded; [lia | |].
  - unfold is_u8 in Hb. split; [lia |]. apply (Z.lt_le_trans _ (2 ^ 8)); [lia | apply Z.pow_le_mono_r; lia].
  - replace (8 * 1 + 8 * zlen buf) with (8 * zlen buf + 8) by lia. by apply shiftl_bounded; lia || done.
Qed.

Lemma le_inj X : forall Y, Forall is_u8 X -> Forall is_u8 Y -> length X = length Y -> le X = le Y -> X = Y.
Proof.
  induction X as [| x X IH]; intros [| y Y] HX HY HL E; try done. apply Forall_cons in HX as [Hx HX], HY as [Hy HY]. injection HL as HL.
  cbn [le] in E.
  assert (forall b l, is_u8 b -> Z.land (Z.lxor b (Z.shiftl l 8)) 255 = b /\ Z.shiftr (Z.lxor b (Z.shiftl l 8)) 8 = l) as Hsplit.
  { intros b l Hb. split; apply Z.bits_inj'; intros i Hi.
    - rewrite Z.land_spec, Z.lxor_spec, Z.shiftl_spec by lia. change 255 with (Z.ones 8). rewrite Z.testbit_ones_nonneg by lia. destruct (Z.ltb_spec i 8).
      + by rewrite (Z.testbit_neg_r _ (i - 8)), xorb_false_r, andb_true_r by lia.
      + rewrite andb_false_r. symmetry. apply (bits_above 8); [done | lia].
    - rewrite Z.shiftr_spec, Z.lxor_spec, Z.shiftl_spec, (bits_above 8) by (done || lia). cbn [xorb]. f_equal. lia. }
  destruct (Hsplit x (le X) Hx) as [E1 E2], (Hsplit y (le Y) Hy) as [E3 E4]. rewrite E in E1, E2. f_equal; [congruence | apply IH; congruence].
Qed.

Lemma burst A X Y C crc : is_u32 crc -> Forall is_u8 (A ++ X ++ C) -> Forall is_u8 Y -> length X = length Y -> (length X <= 4)%nat ->
  ref_crc P crc (A ++ X ++ C) = ref_crc P crc (A ++ Y ++ C) -> X = Y.
Proof.
  intros Hc [HA [HX HC]%Forall_app]%Forall_app HY HL H4 E. rewrite !ref_crc_app in E.
  pose proof (ref_crc_u32 A crc Hc HA) as Hs. set (s := ref_crc P crc A) in *.
  apply ref_crc_inj in E; [| by apply ref_crc_u32 .. | done]. rewrite !ref_crc_le, HL in E.
  assert (forall Z0, Forall is_u8 Z0 -> (length Z0 <= 4)%nat -> is_u32 (Z.lxor s (le Z0))) as Hle.
  { intros Z0 HZ H. apply (lxor_bounded 32); [lia | done |]. pose proof (le_bounded Z0 HZ) as Hb. split; [lia |].
    apply (Z.lt_le_trans _ (2 ^ (8 * zlen Z0))); [lia |]. apply Z.pow_le_mono_r; [lia |]. unfold zlen. lia. }
  apply shifts_inj in E; [| apply Hle; [done | lia] ..]. apply le_inj; try done.
  apply (f_equal (fun z => Z.lxor s z)) in E. by rewrite <- !Z.lxor_assoc, Z.lxor_nilpotent, !Z.lxor_0_l in E.
Qed.
End Poly.

(** ** Results *)

Lemma table_ok_check P tab :
  (length tab =? 256)%nat && forallb (fun i => bool_decide (tab !! Z.to_nat i = Some (shifts P 8 i))) (seqZ 0 256) = true -> table_ok P tab.
Proof.
  intros [HL%Nat.eqb_eq H]%andb_true_iff. split; [done |]. intros i Hi. rewrite forallb_forall in H.
  apply (bool_decide_eq_true_1 _), H, list_elem_of_In, elem_of_seqZ. lia.
Qed.

Lemma crc32_table : table_ok POLY crc32_tab.
Proof. apply table_ok_check. vm_compute. reflexivity. Qed.

Lemma iscsi_table : table_ok ISCSI_POLY iscsiCrc32Table.
Proof. apply table_ok_check. vm_compute. reflexivity. Qed.

Lemma not32 x : is_u32 x -> u32 (Z.lnot x) = Z.lxor x ALL_ONES.
Proof.
  intros Hx. apply Z.bits_inj'. intros i Hi. unfold u32. change ALL_ONES with (Z.ones 32). rewrite Z.lxor_spec, Z.testbit_ones_nonneg by lia.
  destruct (Z.ltb_spec i 32).
  - rewrite Z.mod_pow2_bits_low, Z.lnot_spec by lia. by destruct (Z.testbit x i).
  - rewrite Z.mod_pow2_bits_high, (bits_above 32) by (done || lia). done.
Qed.

Lemma ones32 : is_u32 ALL_ONES.
Proof. unfold is_u32, ALL_ONES. lia. Qed.

Lemma flip_u32 x : is_u32 x -> is_u32 (Z.lxor x ALL_ONES).
Proof. intros. apply (lxor_bounded 32); [lia | done | apply ones32]. Qed.

Lemma flip_flip x : Z.lxor (Z.lxor x ALL_ONES) ALL_ONES = x.
Proof. by rewrite Z.lxor_assoc, Z.lxor_nilpotent, Z.lxor_0_r. Qed.

(** both checksums are the remainders of the division by their polynomials,
    done bit by bit: the tables of 256 words are right, and so are the loops
    that take a byte at a time.  No access is outside a table. *)
Theorem crc_equals_division buf : Forall is_u8 buf ->
  crc32 buf = Done (Z.lxor (ref_crc POLY ALL_ONES buf) ALL_ONES) /\
  iscsi_crc32 buf = Done (Z.lxor (ref_crc ISCSI_POLY ALL_ONES buf) ALL_ONES).
Proof.
  intros Hb. destruct polys_ok as [H1 H2]. unfold crc32, iscsi_crc32. change (Z.lxor 0 ALL_ONES) with ALL_ONES.
  rewrite (proj1 (crc_loop_ok _ H1 _ buf crc32_table ALL_ONES ones32 Hb)), (proj1 (crc_loop_ok _ H2 _ buf iscsi_table ALL_ONES ones32 Hb)). done.
Qed.

Lemma crc_equals_division_witness :
  crc32 [1; 2; 3] = Done (Z.lxor (ref_crc POLY ALL_ONES [1; 2; 3]) ALL_ONES) /\
  iscsi_crc32 [1; 2; 3] = Done (Z.lxor (ref_crc ISCSI_POLY ALL_ONES [1; 2; 3]) ALL_ONES).
Proof. apply (crc_equals_division [1; 2; 3]). repeat (apply Forall_cons_2; [unfold is_u8; lia |]). apply Forall_nil_2. Defined.

(** a checksum can be taken piece by piece: the _ext functions continue from
    the checksum of what came before. *)
Theorem crc_ext_continues buf1 buf2 : Forall is_u8 buf1 -> Forall is_u8 buf2 ->
  (c ← crc32 buf1; crc32_ext buf2 c) = crc32 (buf1 ++ buf2) /\
  (c ← iscsi_crc32 buf1; iscsi_crc32_ext buf2 c) = iscsi_crc32 (buf1 ++ buf2).
Proof.
  intros H1 H2. destruct polys_ok as [P1 P2]. pose proof (Forall_app_2 _ _ _ H1 H2) as H12.
  unfold crc32, crc32_ext, iscsi_crc32, iscsi_crc32_ext. change (Z.lxor 0 ALL_ONES) with ALL_ONES.
  destruct (crc_loop_ok _ P1 _ buf1 crc32_table ALL_ONES ones32 H1) as [-> U1], (crc_loop_ok _ P2 _ buf1 iscsi_table ALL_ONES ones32 H1) as [-> U2].
  rewrite !bind_Done_l, (not32 _ (flip_u32 _ U1)), !flip_flip.
  rewrite (proj1 (crc_loop_ok _ P1 _ buf2 crc32_table _ U1 H2)), (proj1 (crc_loop_ok _ P2 _ buf2 iscsi_table _ U2 H2)).
  rewrite (proj1 (crc_loop_ok _ P1 _ _ crc32_table ALL_ONES ones32 H12)), (proj1 (crc_loop_ok _ P2 _ _ iscsi_table ALL_ONES ones32 H12)).
  by rewrite !ref_crc_app.
Qed.

Lemma crc_ext_continues_witness :
  (c ← crc32 [1; 2]; crc32_ext [3] c) = crc32 [1; 2; 3] /\ (c ← iscsi_crc32 [1; 2]; iscsi_crc32_ext [3] c) = iscsi_crc32 [1; 2; 3].
Proof. apply (crc_ext_continues [1; 2] [3]); repeat (apply Forall_cons_2; [unfold is_u8; lia |]); apply Forall_nil_2. Defined.

(** every error within four bytes in a row is found: two buffers of the same
    length that differ there only, at most 32 bits apart, have different
    checksums.  HAMMER relies on this to detect damaged blocks. *)
Theorem crc_detects_bursts A X Y C : Forall is_u8 (A ++ X ++ C) -> Forall is_u8 Y ->
  length X = length Y -> (length X <= 4)%nat -> X <> Y ->
  crc32 (A ++ X ++ C) <> crc32 (A ++ Y ++ C) /\ iscsi_crc32 (A ++ X ++ C) <> iscsi_crc32 (A ++ Y ++ C).
Proof.
  intros HX HY HL H4 Hne. destruct polys_ok as [P1 P2].
  assert (Forall is_u8 (A ++ Y ++ C)) as HY'.
  { apply Forall_app in HX as [HA [_ HC]%Forall_app]. repeat apply Forall_app_2; done. }
  assert (forall P tab, poly_ok P -> table_ok P tab -> (crc ← crc_loop tab ALL_ONES (A ++ X ++ C); mret (Z.lxor crc ALL_ONES)) <>
     (crc ← crc_loop tab ALL_ONES (A ++ Y ++ C); mret (Z.lxor crc ALL_ONES))) as Hgen.
  { intros P tab HP Ht. rewrite (proj1 (crc_loop_ok P HP tab _ Ht ALL_ONES ones32 HX)), (proj1 (crc_loop_ok P HP tab _ Ht ALL_ONES ones32 HY')).
    rewrite !bind_Done_l. intros [= E]. apply Hne. apply (burst P HP A X Y C ALL_ONES ones32 HX HY HL H4).
    apply (f_equal (fun z => Z.lxor z ALL_ONES)) in E. by rewrite !flip_flip in E. }
  split; [by apply (Hgen POLY), crc32_table | by apply (Hgen ISCSI_POLY), iscsi_table].
Qed.

Lemma crc_detects_bursts_witness :
  crc32 ([7] ++ [1; 2] ++ [9]) <> crc32 ([7] ++ [1; 3] ++ [9]) /\ iscsi_crc32 ([7] ++ [1; 2] ++ [9]) <> iscsi_crc32 ([7] ++ [1; 3] ++ [9]).
Proof.
  apply (crc_detects_bursts [7] [1; 2] [1; 3] [9]); [| | reflexivity | repeat constructor | discriminate];
    repeat (apply Forall_cons_2; [unfold is_u8; lia |]); apply Forall_nil_2.
Defined.
